(* ===== verification/_CoqProject ===== *)
-Q . S2P
Prelude.v
Varint.v
Machine.v
PbTypes.v
PbCommon.v
PbIter.v
PbEncode.v
PbDecode.v
PbWire.v
PbRep.v
PbEncodeSpec.v
PbDecodeSpec.v
PbPlain.v
PbTotal.v
PbDecodeMsg.v
PbSafety.v
ProtoLayout.v
Cct.v
FirebaseCore.v
Base64.v
Sample.v
PbEncodeThms.v
PbDecodeThms.v
PbPrimThms.v
ProtoThms.v
Base64Spec.v
PbFindings.v
LdbSlice.v
LdbCoding.v
LdbCrc.v
LdbBloom.v
LdbFilterBlock.v
LdbFilename.v
LdbComparator.v
LdbDbformat.v
LdbEnv.v
LdbPosix.v
LdbLogWriter.v
LdbLogReader.v
LdbLogThms.v
LdbPosixThms.v
LdbArena.v
LdbSkipList.v
LdbSkipListThms.v
LdbMemTable.v
LdbWriteBatch.v
LdbWriteThms.v
LdbVersionEdit.v
LdbIterator.v
LdbBlock.v
LdbBlockThms.v
LdbMerger.v
LdbMergerThms.v
LdbIterThms.v
LdbTwoLevel.v
LdbDBIter.v
LdbDBIterThms.v
LdbFormat.v
LdbTable.v
LdbTableSpec.v
LdbTableThms.v
LdbRing.v
LdbVersion.v
LdbVersionThms.v
LdbVersionSet.v
LdbManifest.v
LdbCompaction.v
LdbCompactionThms.v
LdbVersionSetThms.v
LdbManifestThms.v
LdbHandleTable.v
LdbCache.v
LdbCacheThms.v
LdbCacheOps.v
LdbTableCache.v
LdbDB.v
LdbDBThms.v
LdbDBData.v
LdbWriters.v
LdbThms.v
