(* ===== verification/Prelude.v ===== *)
(** A verification library for the C and C++ core of CardPang: the protocol
    buffer runtime, the key-value store and the base64 routine that its
    Firebase pods are built on.

    * The program

    CardPang is an application for iOS whose own code (Swift views and view
    models) talks to Firebase.  What runs below it and is written in C or C++
    is in [src/CardPang/Pods]:

    - [nanopb/] (pb.h, pb_common.c, pb_encode.c, pb_decode.c): a protocol
      buffer runtime driven by descriptors.  A message is a C structure at an
      address, described by an array of [pb_field_t]; the encoder and the
      decoder walk the array with an iterator, call a function per field type,
      and recurse into submessages.
    - [GoogleDataTransportCCTSupport/.../cct.nanopb.[ch]] and
      [FirebaseCoreDiagnostics/.../firebasecore.nanopb.[ch]]: the descriptors
      of the messages the application really sends and receives.
    - [FirebaseDatabase/.../SocketRocket/fbase64.c]: base64 for the handshake
      of the database's WebSocket.
    - [leveldb-library/]: the key-value store in which the database keeps its
      offline cache.  A write is a batch of updates, appended as one record to
      a log file and then inserted into a table in memory, which is a skip
      list of internal keys (a user key with a sequence number and a type) in
      an arena.  Full tables are written to sorted files with filters, a
      background thread merges these files level by level, and the set of files
      is kept as version edits in a second log.

    The encoder is given a structure and an output stream (a callback with a
    state, a limit and a count); the decoder an input stream (a callback with
    a state and the number of bytes left) and the memory of a structure.
    Submessages are encoded by measuring first and writing second, and decoded
    from substreams that share the state of their parent.  Pointer fields are
    allocated by the decoder with [realloc] and freed by [pb_release].

    In leveldb the user's comparator and filter policy are interfaces, which
    the internal keys wrap; here they are the classes [Comparator] and
    [FilterPolicy] with the laws [ComparatorLaw] and [FilterPolicyLaw], which
    the bytewise comparator and the Bloom filter satisfy and the wrappers
    preserve.  Files are the classes [WritableFile], [SequentialFile] and
    [RandomAccessFile], [new] is the class [NewChar], the compression library
    [Snappy], each with its law and an instance.  Iterators are the class
    [Iterator], with the law [IteratorLaw] that says over which entries one
    goes; the merging and the two-level iterator are proved to have it given
    that the iterators they are made of have it.

    * The files

    Foundations:
    - [Prelude]: C integers as wrapped values of [Z], generic lemmas, the
      tactics [pow2] and [cint], the hint database [cint].
    - [Machine]: memory (bytes by address, the live heap blocks beside them),
      outcomes [Ok], [Fault] and [Diverge], the monad [M] and its loads,
      stores, [memset], [memcpy], [realloc] and [free].  The class [Heap]
      says which allocations succeed and what fresh memory holds; nothing is
      assumed of it.

    The program, one file per source file:
    - [PbTypes] (pb.h and the stream structures): field types, the descriptor
      record [pb_field_t] and the macros that build it from a structure's
      layout.  The class [App] has the callbacks an application supplies.
    - [PbCommon] (pb_common.c): [pb_field_iter_begin], [_next], [_find], and
      [for_each_field], the do-while loop its clients share.
    - [PbEncode] (pb_encode.c) and [PbDecode] (pb_decode.c): every function
      of the two files in the configuration of the pods, under its own name.
    - [Cct], [FirebaseCore]: the generated files, on [ProtoLayout], which
      has the C layout of structures and their initialisers.
    - [Base64] (fbase64.c): [f_b64_ntop], [f_b64_pton].

    leveldb, definitions and lemmas of a part together:
    - [LdbSlice] (slice.h, status.h, status.cc), [LdbCoding] (coding.h,
      coding.cc), [LdbCrc] (crc32c.h, crc32c.cc), [LdbBloom] (hash.cc, bloom.cc,
      filter_policy.h), [LdbFilterBlock] (filter_block.h, filter_block.cc),
      [LdbFilename] (logging.cc, filename.cc), [LdbComparator] (comparator.h,
      comparator.cc), [LdbDbformat] (dbformat.h, dbformat.cc), [LdbEnv] (the
      files of env.h), [LdbArena] (arena.h, arena.cc, random.h),
      [LdbVersionEdit] (version_edit.h, version_edit.cc).
    - [LdbPosix] (env_posix.cc): the files, the limits, the locks and the queue of
      background work over the class [Kernel], the calls of the system; and
      [LdbPosixThms], where the files are shown to keep the laws of [LdbEnv] under
      the laws of the calls, which a system in memory, [World], satisfies; that
      signals interrupt calls finitely often only is a law apart ([FewSignals]).
    - [LdbLogWriter], [LdbLogReader] (log_writer.cc, log_reader.cc) and
      [LdbLogThms] (the bytes a list of records should be, the writer and the
      reader against them).
    - [LdbSkipList] (skiplist.h), [LdbSkipListThms] (its invariant, the
      searches, insertion through the states between the links, and every
      operation on the sorted list).
    - [LdbMemTable] (memtable.h, memtable.cc), [LdbWriteBatch] (write_batch.cc),
      [LdbWriteThms] (a batch into a table, and a lookup after it).
    - [LdbIterator] (iterator.h, iterator.cc, iterator_wrapper.h), [LdbBlock]
      (block_builder.cc, block.cc), [LdbMerger] (merger.cc), [LdbTwoLevel]
      (two_level_iterator.cc), with the proofs [LdbBlockThms], [LdbMergerThms],
      [LdbIterThms].
    - [LdbDBIter] (db_iter.cc) and [LdbDBIterThms]: the iterator of the
      database over any internal iterator.
    - [LdbFormat] (format.h, format.cc, the stubs of port_stdcxx.h), [LdbTable]
      (options.h, table_builder.cc, table.cc), with the proofs [LdbTableSpec]
      (the state of a builder after any number of entries) and [LdbTableThms]
      (the file it leaves, and reading such a file).
    - [LdbRing] (the circular lists that several parts keep in their objects,
      and snapshot.h), [LdbHandleTable] and [LdbCache] (cache.cc), with the
      proofs [LdbCacheThms] (the invariant and eviction) and [LdbCacheOps] (the
      operations, and any sequence of calls).
    - [LdbVersion] (the files of a version and the searches in them),
      [LdbVersionSet] (versions, their set and the builder that applies edits),
      [LdbManifest] (the manifest) and [LdbCompaction] (choosing a compaction),
      all of version_set.cc, with the proofs [LdbVersionThms] (lookups),
      [LdbVersionSetThms] (the counts of references, and what the builder
      builds), [LdbManifestThms] and [LdbCompactionThms] (the choice).
    - [LdbTableCache] (cache.h, table_cache.cc, builder.cc): the classes [Cache]
      and [BlockCache], and the instance [Sharded_Cache] of the cache above; what
      these classes promise ([CacheLaw], which the cache keeps, [BlockCacheLaw]),
      lookups through them, and building a table.
    - [LdbDB] (db_impl.cc, db_impl.h, and the iterators of version_set.cc over
      tables): the database as a record of all its parts, with every operation
      of its interface and the work of the background thread.  [LdbDBThms]: the
      loop of a compaction, what it writes and what it keeps, and concrete runs.  [LdbDBData]: the database as a map
      with a history.  [LdbWriters]: the queue of writers as a transition system
      over the database.
    - [LdbThms]: the theorems of the parts without a file of their own.

    Specifications and proofs:
    - [Varint]: base-128 varints, which nanopb and leveldb share.
    - [PbWire]: the wire format as pure functions ([varint], [msg_wire]).
    - [PbRep]: [rep_msg], that a structure in memory holds a value; the value
      is a list of items per field.
    - [PbIter]: where the iterator is after any number of steps.
    - [PbRep] also has [emits], what an encoder action promises, which
      [PbEncodeSpec] composes along the encoder up to [pb_encode].
    - [PbDecodeSpec]: [reading], the bytes a stream still has, and the decoders
      of single values on their encodings.
    - [PbPlain], [PbDecodeMsg]: the bit set of required fields, plain message
      types (required fields and optional fields with a has-flag, stored in
      the structure, nested to any depth), and decoding them from [msg_wire].
    - [PbTotal], [PbSafety]: the same functions on arbitrary bytes.
    - [Sample]: a concrete application, heap and message, on which the
      theorems are applied.
    - [PbEncodeThms], [PbDecodeThms], [PbPrimThms], [ProtoThms],
      [Base64Spec], [PbFindings]: the theorems.

    A C function [bool f(stream, ...)] is a function from the stream to the
    monad, returning the result and the stream it leaves.  An out-parameter
    that is set exactly on success is an option.  Locals that a loop changes
    are its arguments.  A local array handed to a callback of the streams is a
    list; the one handed to an application callback has an address.

    * What the theorems show

    - Encoding ([PbEncodeThms]): for any structure that represents a value, of
      every field rule but callbacks and extensions, [pb_encode] writes
      exactly the wire format; [pb_get_encoded_size] is its length; a buffer
      that is too small gives "stream full" with no byte written outside it;
      the delimited and null-terminated forms.
    - Decoding ([PbDecodeThms]): [pb_decode] of the wire format fills in a
      structure of a plain type, alone or length-prefixed; it inverts
      [pb_encode]; and on arbitrary bytes it returns, faults nowhere and
      writes nothing outside the structure, if no type in it is empty.
    - Primitives ([PbPrimThms]): varints, zig-zag and tags round trip;
      [pb_decode_varint] on any input; the range check of each integer
      decoder, stated as an equivalence; overflow of static strings and byte
      arrays; skipping; substreams.
    - Iterator and required fields ([PbPrimThms]).
    - Generated files ([ProtoThms]): descriptors against the layouts of the
      structures, default values against the initialisers, enumerations,
      maximum sizes.
    - Base64 ([Base64Spec]): the encoder is base64 and respects its buffer,
      the decoder inverts it, and on any string stays within its buffer.
    - The log ([LdbLogThms]): what the writer appends the reader returns,
      record by record, also when the file ends in the middle of a record;
      on any file the reader comes to an end.
    - The files of the system ([LdbPosixThms]): the log through the buffered file, with
      short writes, signals and errors, passing ones too, and back; the limits hold with any number of
      threads, background work runs in order and is not slept on, and a refused
      attempt to lock loses the lock.
    - The table in memory ([LdbWriteThms]): a lookup gives the latest entry of
      the key that is not newer than its sequence number; after a batch, the
      last update in it; a batch is iterated as it was built.
    - Sorted tables ([LdbIterThms], [LdbTableThms]): a block and a table give
      back the entries they were built from, through iterators and lookups;
      a merging iterator is an iterator over the union.  On damaged files: when
      exactly opening a table, or going to an entry of a block, reads bytes that
      were not read from the file.
    - Snapshots ([LdbDBIterThms]): the iterator of the database goes over the
      keys whose newest visible entry is a value.
    - Versions ([LdbVersionThms]): a lookup gives the newest visible entry of all
      files.  Compactions ([LdbCompactionThms], [LdbDBThms]): the choice never
      fails, and nothing older stays above what is moved down.  The loop over the
      entries returns; if it returns no error, lookups find in the files it wrote
      the input without the entries it dropped ([outputs_found]), and that changes
      no answer as long as no file that stays in the two levels shares a key with
      the inputs - which the choice of the inputs does not ensure in the next
      level, so that a deleted value comes back ([compaction_revives_deleted]).
    - The table cache ([LdbTableCache]): lookups through it find the entries of
      the files, whatever is cached or evicted ([tables_getter], an instance of
      what the versions ask for), and what [BuildTable] writes is found.
    - The manifest ([LdbManifestThms]): [LogAndApply] makes an edit durable or
      leaves the current version, and a new set recovers what a prefix of the
      manifest says.
    - The database ([LdbDBData]): a lookup gives the newest visible entry of the
      tables in memory and the files, and a group of writes changes what
      lookups see by exactly its updates.  Clients ([LdbWriters]): writers are
      served in order, and none waits forever.
    - The cache ([LdbCacheOps]): any sequence of calls of clients that release
      what they hold returns, frees no object in use and passes each freed one
      to its deleter once; insertion evicts the oldest unused entries and no
      more than needed; what was inserted is found.
    - The rest of leveldb ([LdbThms]): the skip list is a sorted list, the
      arena hands out disjoint memory, the checksum is CRC-32C, filters have
      no false negatives, internal keys are ordered and separated, and
      integers, keys, file names and version edits are read back as written.
    - [PbFindings]: where nanopb does not do what it is meant to, each run
      on a concrete input; for leveldb, in [LdbLogThms], [LdbIterThms],
      [LdbTableThms], [LdbManifestThms], [LdbPosixThms] and [LdbDBThms].

    * Bounds and fuel

    The ABI is LP64, little endian, with an 8-bit [uint_fast8_t]; sizes and
    counts wrap at the width of their C type.  Loops are bounded by what they
    consume: reading loops by the bytes left in the stream ([stream_rounds]),
    string loops by the number of mapped bytes, iterator loops by the length
    of the descriptor array ([iter_rounds]), a varint by ten bytes.  Running
    out is [Diverge], and the theorems above show that it does not happen,
    since they give the outcome as [Ok].  The recursion through submessages,
    extension lists and field callbacks is bounded by a fuel argument; for
    encoding, the nesting of the value plus two is enough, for decoding the
    nesting of the type.  [callback_loop] has no bound in the code:
    [PbFindings.callback_loop_idle] shows a callback with which it never ends.
    In leveldb the loops are bounded by the bytes they consume; a search of
    the skip list by the number of nodes and levels ([find_fuel]), shown to be
    enough; the log reader by the records of the file ([enough], and for any
    file [log_reader_total]); a version edit by its length; the loops of a block
    iterator by the size of the block, those of a two-level iterator by the
    entries of its index, those of the database's iterator by the entries of
    the internal one; the loops over the lists of the cache by its objects.
    [GetOverlappingInputs] starts again each time a file extends the range, which
    each file does at most twice ([overlap_fuel]); boundary files are added at
    most as often as there are files in the level.  Recovering a manifest takes
    no more fuel than its length and that of CURRENT.  The retries of
    [LdbPosix] are bounded by how often a call can be interrupted
    ([sys_patience]).  In [LdbDB] a fuel argument bounds the loops over entries,
    records and rounds of waiting.

    * What is not modelled

    - Compiler attributes, static assertions, and what the configuration of
      the pods compiles out (buffer-only streams, 16-bit fields, no malloc).
    - Concurrency below the mutex of the database: nanopb and base64 have no
      shared state; the readers of a skip list may run beside its writer, here
      every operation runs alone.  In [LdbDB] the background thread runs when
      the client waits for it; in [LdbWriters] whenever the mutex is free.
    - The Objective-C and Swift code, which is views, network requests and
      queues over system frameworks.
    - Of [leveldb-library]: [GetProperty], the statistics and the information
      log of the database, [RepairDB] and [DumpFile], and the C binding.  The
      database runs over an [Env] that reads files from what is there when they are
      opened; [LdbPosix] is joined with the log, not with [LdbDB].
    - Hardware acceleration of the checksum, which the pod does not link.
    - A table that a concatenating iterator opens stays out of the table cache,
      since the function of a two-level iterator has no state here.

    * What is not proved

    - Pointer fields: that [pb_release] frees each block once and a failed
      decode leaves no block behind; repeated, packed and oneof fields are in
      the encoding theorems but not in those of decoding.
    - That the input iterator of a compaction goes over the entries of its files
      ([can_compact] asks for it; the parts, two-level and merging iterators, are
      proved), that it starts without a table in memory to write, and that the
      files it wrote are installed.
    - That flushes and compactions keep the invariant of [LdbDBData], and that
      opening a database recovers what its logs hold: these operations are
      executable, and run in [LdbDBThms] on a concrete database.
*)
From stdpp Require Import base list numbers option.

(** * C integers

    Values of C integer types are mathematical integers; every operation that
    can wrap is followed by the conversion of its result type. *)
Declare Scope c_scope.
Delimit Scope c_scope with c.
Open Scope Z_scope.

Definition u8 (z : Z) : Z := z mod 2 ^ 8.
Definition u16 (z : Z) : Z := z mod 2 ^ 16.
Definition u32 (z : Z) : Z := z mod 2 ^ 32.
Definition u64 (z : Z) : Z := z mod 2 ^ 64.

(** Two's complement conversion to a signed type of [w] bits. *)
Definition sint (w z : Z) : Z := (z + 2 ^ (w - 1)) mod 2 ^ w - 2 ^ (w - 1).
Definition s8 (z : Z) : Z := sint 8 z.
Definition s16 (z : Z) : Z := sint 16 z.
Definition s32 (z : Z) : Z := sint 32 z.
Definition s64 (z : Z) : Z := sint 64 z.

(** The ranges the conversions map into. *)
Definition in_uint (w z : Z) : Prop := 0 <= z < 2 ^ w.
Definition in_sint (w z : Z) : Prop := - 2 ^ (w - 1) <= z < 2 ^ (w - 1).

Abbreviation zlen l := (Z.of_nat (length l)).
Abbreviation is_byte := (in_uint 8).
Notation "x &&& y" := (Z.land x y) (at level 40, left associativity) : c_scope.
Notation "x ||| y" := (Z.lor x y) (at level 50, left associativity) : c_scope.

(** Little-endian representation of an unsigned integer in [n] bytes. *)
Fixpoint le_bytes (n : nat) (z : Z) : list Z :=
  match n with
  | O => []
  | S n' => z mod 256 :: le_bytes n' (z / 256)
  end.

Fixpoint le_val (l : list Z) : Z :=
  match l with
  | [] => 0
  | b :: l' => b + 256 * le_val l'
  end.

Create HintDb cint.

(** [pow2] evaluates the closed powers of two of the goal and the context, so
    that [lia] sees literals. *)
Ltac pow2 :=
  repeat match goal with
  | |- context [2 ^ ?k] =>
      match k with
      | Zpos _ => let v := eval vm_compute in (2 ^ k) in change (2 ^ k) with v
      | Z0 => change (2 ^ 0) with 1
      end
  | H : context [2 ^ ?k] |- _ =>
      match k with
      | Zpos _ => let v := eval vm_compute in (2 ^ k) in change (2 ^ k) with v in H
      | Z0 => change (2 ^ 0) with 1 in H
      end
  end.

(** [cint] unfolds conversions and ranges and calls [lia] with Euclidean
    division made explicit. *)
Ltac cint :=
  unfold u8, u16, u32, u64, s8, s16, s32, s64, sint, in_uint, in_sint in *;
  change (8 - 1) with 7 in *; change (16 - 1) with 15 in *;
  change (32 - 1) with 31 in *; change (64 - 1) with 63 in *;
  pow2; Z.to_euclidean_division_equations; lia.

Section Conversions.
Implicit Types w z : Z.

Lemma in_uint_mod w z : 0 <= w -> in_uint w (z mod 2 ^ w).
Proof. intros. apply Z.mod_pos_bound, Z.pow_pos_nonneg; lia. Qed.

Lemma uint_small w z : in_uint w z -> z mod 2 ^ w = z.
Proof. apply Z.mod_small. Qed.

Lemma u8_range z : in_uint 8 (u8 z).
Proof. by apply in_uint_mod. Qed.
Lemma u16_range z : in_uint 16 (u16 z).
Proof. by apply in_uint_mod. Qed.
Lemma u32_range z : in_uint 32 (u32 z).
Proof. by apply in_uint_mod. Qed.
Lemma u64_range z : in_uint 64 (u64 z).
Proof. by apply in_uint_mod. Qed.

Lemma u8_small z : in_uint 8 z -> u8 z = z.
Proof. apply uint_small. Qed.
Lemma u16_small z : in_uint 16 z -> u16 z = z.
Proof. apply uint_small. Qed.
Lemma u32_small z : in_uint 32 z -> u32 z = z.
Proof. apply uint_small. Qed.
Lemma u64_small z : in_uint 64 z -> u64 z = z.
Proof. apply uint_small. Qed.

Lemma sint_range w z : 0 < w -> in_sint w (sint w z).
Proof.
  intros Hw. unfold in_sint, sint.
  assert (2 ^ w = 2 * 2 ^ (w - 1)) as E.
  { rewrite <- Z.pow_succ_r by lia. f_equal; lia. }
  assert (0 < 2 ^ (w - 1)) by (apply Z.pow_pos_nonneg; lia).
  pose proof (Z.mod_pos_bound (z + 2 ^ (w - 1)) (2 ^ w)). lia.
Qed.

Lemma sint_small w z : 0 < w -> in_sint w z -> sint w z = z.
Proof.
  intros Hw [Hl Hu]. unfold sint.
  assert (2 ^ w = 2 * 2 ^ (w - 1)) as E.
  { rewrite <- Z.pow_succ_r by lia. f_equal; lia. }
  rewrite Z.mod_small; lia.
Qed.

(** A signed value survives the cast to the unsigned type and back. *)
Lemma sint_uint w z : 0 < w -> in_sint w z -> sint w (z mod 2 ^ w) = z.
Proof.
  intros Hw Hz. rewrite <- (sint_small w z Hw Hz) at 2.
  unfold sint. by rewrite Zplus_mod_idemp_l.
Qed.

Lemma u64_add_small z : in_uint 64 z -> (z + 2 ^ 64) mod 2 ^ 64 = z.
Proof. intros; cint. Qed.
End Conversions.

#[export] Hint Resolve u8_range u16_range u32_range u64_range : cint.

(** * Bit operations as arithmetic *)
Section Bits.
Lemma land_mask z n : 0 <= n -> Z.land z (2 ^ n - 1) = z mod 2 ^ n.
Proof.
  intros. rewrite <- Z.land_ones by lia. by rewrite Z.ones_equiv, Z.sub_1_r.
Qed.

Lemma land_7f z : Z.land z 0x7F = z mod 128.
Proof. exact (land_mask z 7 ltac:(lia)). Qed.
Lemma land_ff z : Z.land z 0xFF = z mod 256.
Proof. exact (land_mask z 8 ltac:(lia)). Qed.
Lemma land_3f z : Z.land z 0x3F = z mod 64.
Proof. exact (land_mask z 6 ltac:(lia)). Qed.
Lemma land_0f z : Z.land z 0x0F = z mod 16.
Proof. exact (land_mask z 4 ltac:(lia)). Qed.
Lemma land_07 z : Z.land z 0x07 = z mod 8.
Proof. exact (land_mask z 3 ltac:(lia)). Qed.
Lemma land_03 z : Z.land z 0x03 = z mod 4.
Proof. exact (land_mask z 2 ltac:(lia)). Qed.
Lemma land_01 z : Z.land z 0x01 = z mod 2.
Proof. exact (land_mask z 1 ltac:(lia)). Qed.

(** Or of a value below [2^n] and a multiple of [2^n] is their sum. *)
Lemma lor_shiftl_add a b n :
  0 <= n -> 0 <= a < 2 ^ n -> Z.lor a (Z.shiftl b n) = a + b * 2 ^ n.
Proof.
  intros Hn Ha. assert (Z.land a (Z.shiftl b n) = 0) as Hd.
  { apply Z.bits_inj'. intros i Hi. rewrite Z.land_spec, Z.bits_0.
    destruct (decide (i < n)).
    - rewrite (Z.shiftl_spec_low b) by lia. by rewrite andb_false_r.
    - rewrite <- (Z.mod_small a (2 ^ n)) by lia.
      by rewrite Z.mod_pow2_bits_high by lia. }
  rewrite <- Z.lxor_lor by done. rewrite <- Z.add_nocarry_lxor by done.
  by rewrite Z.shiftl_mul_pow2.
Qed.

Lemma lor_80 z : 0 <= z < 128 -> Z.lor z 0x80 = z + 128.
Proof. intros. exact (lor_shiftl_add z 1 7 ltac:(lia) ltac:(lia)). Qed.

(** Bit 7 of a byte, as the C test [byte & 0x80]. *)
Lemma land_80 b : is_byte b -> Z.land b 0x80 = if b <? 128 then 0 else 128.
Proof.
  intros [Hb1 Hb2]. change (2 ^ 8) with 256 in Hb2.
  destruct (Z.ltb_spec b 128).
  - change 0x80 with (Z.shiftl 1 7). apply Z.bits_inj'. intros i Hi.
    rewrite Z.land_spec, Z.bits_0. destruct (decide (i < 7)).
    + rewrite Z.shiftl_spec_low by lia. by rewrite andb_false_r.
    + rewrite <- (Z.mod_small b (2 ^ 7)) by lia.
      by rewrite Z.mod_pow2_bits_high by lia.
  - replace b with (Z.lor (b - 128) 0x80) by (rewrite lor_80; lia).
    rewrite Z.land_lor_distr_l.
    replace (Z.land (b - 128) 128) with 0; [done|].
    symmetry. change 128 with (Z.shiftl 1 7) at 2.
    apply Z.bits_inj'. intros i Hi.
    rewrite Z.land_spec, Z.bits_0. destruct (decide (i < 7)).
    + rewrite Z.shiftl_spec_low by lia. by rewrite andb_false_r.
    + rewrite <- (Z.mod_small (b - 128) (2 ^ 7)) by lia.
      by rewrite Z.mod_pow2_bits_high by lia.
Qed.

Lemma shiftr_div z n : 0 <= n -> Z.shiftr z n = z / 2 ^ n.
Proof. apply Z.shiftr_div_pow2. Qed.
End Bits.

(** * Little-endian lists *)
Section LittleEndian.
Lemma length_le_bytes n z : length (le_bytes n z) = n.
Proof. revert z; induction n; intros; simpl; congruence. Qed.

Lemma le_bytes_bytes n z : Forall is_byte (le_bytes n z).
Proof.
  revert z; induction n; intros z; simpl; constructor; [|done].
  apply in_uint_mod; lia.
Qed.

Lemma le_val_bytes n z : 0 <= z < 256 ^ Z.of_nat n -> le_val (le_bytes n z) = z.
Proof.
  revert z; induction n as [|n IH]; intros z Hz.
  - simpl in *. lia.
  - cbn [le_bytes le_val].
    rewrite Nat2Z.inj_succ, Z.pow_succ_r in Hz by lia.
    rewrite IH by (Z.to_euclidean_division_equations; lia).
    Z.to_euclidean_division_equations; lia.
Qed.

Lemma le_val_range l :
  Forall is_byte l -> 0 <= le_val l < 256 ^ zlen l.
Proof.
  induction 1 as [|b l Hb _ IH]; simpl length; [simpl; lia|].
  rewrite Nat2Z.inj_succ, Z.pow_succ_r by lia. cbn [le_val].
  unfold in_uint in Hb. change (2 ^ 8) with 256 in Hb. nia.
Qed.

Lemma le_bytes_val l : Forall is_byte l -> le_bytes (length l) (le_val l) = l.
Proof.
  induction 1 as [|b l Hb Hl IH]; [done|]. cbn [length le_val le_bytes].
  unfold in_uint in Hb. change (2 ^ 8) with 256 in Hb.
  rewrite (Z.mul_comm 256), Z_mod_plus_full, Z.mod_small by lia.
  rewrite Z_div_plus_full, Z.div_small by lia. by rewrite Z.add_0_l, IH.
Qed.

Lemma le_bytes_mod n z : le_bytes n (z mod 256 ^ Z.of_nat n) = le_bytes n z.
Proof.
  revert z; induction n as [|n IH]; intros z; [done|]. cbn [le_bytes].
  rewrite Nat2Z.inj_succ, Z.pow_succ_r by lia.
  assert (0 < 256 ^ Z.of_nat n) by (apply Z.pow_pos_nonneg; lia).
  f_equal.
  - rewrite Z.rem_mul_r by lia. by rewrite (Z.mul_comm 256), Z_mod_plus_full, Z.mod_mod by lia.
  - rewrite <- (IH (z / 256)). f_equal.
    rewrite Z.rem_mul_r by lia.
    rewrite (Z.mul_comm 256 (_ mod _)), Z_div_plus_full by lia.
    rewrite Z.div_small by (apply Z.mod_pos_bound; lia). lia.
Qed.
End LittleEndian.

(** * Lists *)
Section ListFacts.
Context {A : Type}.
Implicit Types l : list A.

Lemma zlen_app l1 l2 : zlen (l1 ++ l2) = zlen l1 + zlen l2.
Proof. rewrite length_app. lia. Qed.

Lemma zlen_cons (x : A) l : zlen (x :: l) = 1 + zlen l.
Proof. cbn [length]. lia. Qed.

Lemma zlen_nonneg l : 0 <= zlen l.
Proof. lia. Qed.
End ListFacts.
