(* ===== verification/Varint.v ===== *)
(** Base-128 integers, as protocol buffers and leveldb write them: the encoding
    as a function, its shape, and the arithmetic of decoding it group by
    group. *)
From stdpp Require Import base list numbers option.
From S2P Require Import Prelude.
Open Scope Z_scope.

(** Base 128, least significant group first, bit 7 set on all but the last
    byte; [n] bounds the number of groups. *)
Fixpoint varint_n (n : nat) (z : Z) : list Z :=
  match n with
  | O => []
  | S n' => if z <? 128 then [z] else z mod 128 + 128 :: varint_n n' (z / 128)
  end.

(** Ten groups are enough for 64 bits. *)
Definition varint (z : Z) : list Z := varint_n 10 z.

(** The shape of a varint: continuation bytes, then a byte below 128. *)
Fixpoint varint_shaped (l : list Z) : Prop :=
  match l with
  | [] => False
  | [b] => 0 <= b < 128
  | b :: l' => 128 <= b < 256 /\ varint_shaped l'
  end.

(** The number its groups denote. *)
Fixpoint groups_val (l : list Z) : Z :=
  match l with
  | [] => 0
  | b :: l' => b mod 128 + 128 * groups_val l'
  end.

(** A length-delimited payload. *)
Definition delim (w : list Z) : list Z := varint (zlen w) ++ w.

(** * Encoding *)

Lemma pow128_succ n : 128 ^ Z.of_nat (S n) = 128 * 128 ^ Z.of_nat n.
Proof. by rewrite Nat2Z.inj_succ, Z.pow_succ_r by lia. Qed.

Lemma div128_bound z p : 0 <= z < 128 * p -> 0 <= z / 128 < p.
Proof. intros. Z.to_euclidean_division_equations; lia. Qed.

Lemma varint_n_length n z : (length (varint_n n z) <= n)%nat.
Proof.
  revert z. induction n as [|n IH]; intros z; [done|]. cbn [varint_n].
  destruct (z <? 128); cbn [length]; [lia|]. specialize (IH (z / 128)). lia.
Qed.

Lemma varint_n_shaped n z : 0 <= z < 128 ^ Z.of_nat (S n) -> varint_shaped (varint_n (S n) z).
Proof.
  revert z. induction n as [|n IH]; intros z Hz.
  - change (128 ^ Z.of_nat 1) with 128 in Hz. cbn [varint_n].
    destruct (Z.ltb_spec z 128); [simpl; lia|lia].
  - cbn [varint_n]. destruct (Z.ltb_spec z 128); [simpl; lia|].
    rewrite pow128_succ in Hz. apply div128_bound in Hz. specialize (IH _ Hz) as Hs.
    cbn [varint_n] in Hs. destruct (z / 128 <? 128); cbn [varint_shaped].
    + split; [Z.to_euclidean_division_equations; lia|done].
    + split; [Z.to_euclidean_division_equations; lia|done].
Qed.

Lemma varint_n_val n z : 0 <= z < 128 ^ Z.of_nat n -> groups_val (varint_n n z) = z.
Proof.
  revert z. induction n as [|n IH]; intros z Hz.
  - simpl in *. lia.
  - rewrite pow128_succ in Hz. cbn [varint_n].
    destruct (Z.ltb_spec z 128); cbn [groups_val].
    + rewrite Z.mod_small; lia.
    + rewrite IH by (by apply div128_bound).
      Z.to_euclidean_division_equations; lia.
Qed.

Lemma varint_shaped_bytes l : varint_shaped l -> Forall is_byte l.
Proof.
  induction l as [|b [|c l] IH]; intros H; [done| |].
  - constructor; [|constructor]. simpl in H. cint.
  - destruct H as [Hb H]. constructor; [cint|by apply IH].
Qed.

Lemma varint_length z : (1 <= length (varint z) <= 10)%nat.
Proof.
  split; [|apply varint_n_length]. unfold varint. cbn [varint_n].
  destruct (z <? 128); cbn [length]; lia.
Qed.

Lemma varint_is_shaped z : in_uint 64 z -> varint_shaped (varint z).
Proof.
  intros Hz. apply (varint_n_shaped 9). unfold in_uint in Hz.
  change (128 ^ Z.of_nat 10) with (2 ^ 70). pow2. lia.
Qed.

Lemma varint_val z : in_uint 64 z -> groups_val (varint z) = z.
Proof.
  intros Hz. apply varint_n_val. unfold in_uint in Hz.
  change (128 ^ Z.of_nat 10) with (2 ^ 70). pow2. lia.
Qed.

Lemma varint_bytes z : in_uint 64 z -> Forall is_byte (varint z).
Proof. intros. by apply varint_shaped_bytes, varint_is_shaped. Qed.

Lemma delim_bytes w : zlen w < 2 ^ 64 -> Forall is_byte w -> Forall is_byte (delim w).
Proof. intros. apply Forall_app. split; [apply varint_bytes; split; lia|done]. Qed.

(** The encoding is one byte per started group of seven bits. *)
Lemma varint_n_length_le n k z :
  0 <= z < 128 ^ Z.of_nat k -> (1 <= k)%nat -> (length (varint_n n z) <= k)%nat.
Proof.
  revert k z. induction n as [|n IH]; intros k z Hz Hk; [simpl; lia|]. cbn [varint_n].
  destruct (Z.ltb_spec z 128); cbn [length]; [lia|].
  destruct k as [|[|k]]; [lia|change (128 ^ Z.of_nat 1) with 128 in Hz; lia|].
  rewrite pow128_succ in Hz.
  enough (length (varint_n n (z / 128)) <= S k)%nat by lia.
  apply IH; [Z.to_euclidean_division_equations; lia|lia].
Qed.

Lemma varint_length_le k z :
  0 <= z < 128 ^ Z.of_nat k -> (1 <= k)%nat -> (length (varint z) <= k)%nat.
Proof. apply varint_n_length_le. Qed.

Lemma varint_zlen5 v : in_uint 32 v -> zlen (varint v) <= 5.
Proof.
  intros Hv. pose proof (varint_length_le 5 v) as Hl. change (128 ^ Z.of_nat 5) with (2 ^ 35) in Hl.
  unfold in_uint in Hv. pow2. lia.
Qed.

Lemma uint32_64 v : in_uint 32 v -> in_uint 64 v.
Proof. unfold in_uint. pow2. lia. Qed.

Lemma delim_length w : zlen w <= zlen (delim w).
Proof. unfold delim. rewrite zlen_app. lia. Qed.

(** * Decoding *)

(** Or-ing a shifted group into an accumulator of [w] bits adds it, modulo
    2^w. *)
Lemma lor_shift_mod w r g bp :
  0 <= bp <= w -> 0 <= r < 2 ^ bp -> 0 <= g ->
  Z.lor r (Z.shiftl g bp mod 2 ^ w) = (r + g * 2 ^ bp) mod 2 ^ w.
Proof.
  intros Hbp Hr Hg. rewrite Z.shiftl_mul_pow2 by lia.
  replace (2 ^ w) with (2 ^ (w - bp) * 2 ^ bp) by (rewrite <- Z.pow_add_r by lia; f_equal; lia).
  assert (0 < 2 ^ (w - bp)) by (apply Z.pow_pos_nonneg; lia).
  pose proof (Z.mod_pos_bound g (2 ^ (w - bp)) ltac:(lia)).
  rewrite Z.mul_mod_distr_r by lia.
  transitivity (r + g mod 2 ^ (w - bp) * 2 ^ bp).
  - rewrite <- lor_shiftl_add by lia. by rewrite Z.shiftl_mul_pow2 by lia.
  - apply Z.mod_unique with (q := g / 2 ^ (w - bp)); [left; nia|].
    pose proof (Z.div_mod g (2 ^ (w - bp)) ltac:(lia)). nia.
Qed.

(** A continuation byte, as [byte & 0x80]. *)
Lemma land_80_test b : is_byte b -> (Z.land b 0x80 =? 0) = (b <? 128).
Proof. intros Hb. rewrite land_80 by done. by destruct (b <? 128). Qed.

Lemma groups_val_nonneg l : 0 <= groups_val l.
Proof.
  induction l as [|b l IH]; simpl; [lia|]. pose proof (Z.mod_pos_bound b 128 ltac:(lia)). lia.
Qed.

Lemma shaped_cons b l :
  varint_shaped (b :: l) -> (b < 128 /\ 0 <= b /\ l = []) \/ (128 <= b < 256 /\ varint_shaped l).
Proof. destruct l as [|c l]; [left|right]; simpl in *; intuition lia. Qed.

Lemma varint_acc_bound r b k :
  0 <= k <= 9 -> 0 <= r < 2 ^ (7 * k) ->
  0 <= r + b mod 128 * 2 ^ (7 * k) < 2 ^ (7 * (k + 1)).
Proof.
  intros Hk Hr. replace (7 * (k + 1)) with (7 + 7 * k) by lia.
  rewrite Z.pow_add_r by lia. change (2 ^ 7) with 128.
  pose proof (Z.mod_pos_bound b 128 ltac:(lia)). nia.
Qed.

Lemma mod_acc_bound w x k : 0 <= w -> 0 <= x < 2 ^ (7 * k) -> 0 <= x mod 2 ^ w < 2 ^ (7 * k).
Proof.
  intros Hw Hx. assert (0 < 2 ^ w) by (apply Z.pow_pos_nonneg; lia).
  split; [apply Z.mod_pos_bound; lia|].
  eapply Z.le_lt_trans; [apply Z.mod_le; lia|lia].
Qed.

Lemma u64_add_l x y : u64 (u64 x + y) = u64 (x + y).
Proof. unfold u64. by rewrite Zplus_mod_idemp_l. Qed.

Lemma u32_add_l x y : u32 (u32 x + y) = u32 (x + y).
Proof. unfold u32. by rewrite Zplus_mod_idemp_l. Qed.

(** Every byte list starts with a varint or consists of continuations. *)
Lemma varint_split l :
  Forall is_byte l ->
  (exists w rest, l = w ++ rest /\ varint_shaped w) \/ Forall (fun b => 128 <= b) l.
Proof.
  induction 1 as [|b l Hb Hl IH]; [by right|].
  unfold in_uint in Hb. destruct (decide (b < 128)) as [Hlt|Hge].
  - left. exists [b], l. split; [done|]. simpl. lia.
  - destruct IH as [(w & rest & -> & Hw)|Hc].
    + left. exists (b :: w), rest. split; [done|]. destruct w; [done|].
      split; [change (2 ^ 8) with 256 in Hb; lia|done].
    + right. constructor; [lia|done].
Qed.

Lemma shaped_take w k :
  varint_shaped w -> (k < length w)%nat -> Forall (fun b => 128 <= b) (take k w).
Proof.
  revert k. induction w as [|b w IH]; intros k Hw Hk; [done|].
  destruct k as [|k]; [constructor|]. cbn [take].
  apply shaped_cons in Hw as [(_ & _ & ->)|[Hb Hw]]; [simpl in Hk; lia|].
  constructor; [lia|]. apply IH; [done|simpl in Hk; lia].
Qed.

Lemma groups_val_snoc l b :
  groups_val (l ++ [b]) = groups_val l + b mod 128 * 128 ^ zlen l.
Proof.
  induction l as [|c l IH]; [simpl; lia|].
  cbn [app groups_val]. rewrite IH, zlen_cons, Z.pow_add_r by lia. lia.
Qed.

Lemma groups_val_bound l : 0 <= groups_val l < 128 ^ zlen l.
Proof.
  induction l as [|c l IH]; [simpl; lia|].
  cbn [groups_val]. rewrite zlen_cons, Z.pow_add_r by lia. change (128 ^ 1) with 128.
  pose proof (Z.mod_pos_bound c 128 ltac:(lia)). lia.
Qed.

Lemma shaped_snoc l : varint_shaped l -> exists l' b, l = l' ++ [b] /\ 0 <= b < 128.
Proof.
  induction l as [|c l IH]; [done|]. intros Hs.
  apply shaped_cons in Hs as [(Hlt & Hge & ->)|[_ Hs]].
  - exists [], c. split; [done|lia].
  - destruct (IH Hs) as (l' & b & -> & Hb). by exists (c :: l'), b.
Qed.
