(* ===== verification/Machine.v ===== *)
(** The memory of the program and the monad of its functions.

    Memory is byte addressed: a finite map from addresses to bytes, with the
    live blocks of the C heap kept beside it.  A C function is a function from
    memory to an outcome: it returns a value and a new memory, it faults (an
    access outside mapped memory, a null dereference, an invalid [free]), or
    it runs out of the fuel the model gives its loops.  The ABI is the LP64
    little-endian one of the iOS devices and simulators the pods are built
    for: 8-byte pointers and [size_t], 4-byte [unsigned] and [pb_size_t],
    1-byte [bool]. *)
From stdpp Require Import base list numbers option gmap.
From S2P Require Import Prelude.
Open Scope Z_scope.

(** * Memory *)
Record mem := Mem {
  cells : gmap Z Z;     (** mapped addresses and their bytes *)
  heap : gmap Z Z;      (** live heap blocks: base address and size *)
  brk : Z;              (** first address no block has used *)
  nalloc : nat          (** calls of the allocator so far *)
}.

Inductive outcome (A : Type) :=
  | Ok (a : A) (m : mem)
  | Fault
  | Diverge.
Arguments Ok {A} a m.
Arguments Fault {A}.
Arguments Diverge {A}.

Definition M (A : Type) : Type := mem -> outcome A.

Definition ret {A} (a : A) : M A := fun m => Ok a m.

Definition bind {A B} (c : M A) (f : A -> M B) : M B := fun m =>
  match c m with
  | Ok a m' => f a m'
  | Fault => Fault
  | Diverge => Diverge
  end.

Notation "'let*' p := c 'in' k" := (bind c (fun p => k))
  (at level 200, p pattern, c at level 100, k at level 200,
   format "'[v' 'let*'  p  :=  c  'in' '/' k ']'") : c_scope.
Notation "c ;; k" := (bind c (fun _ => k)) (at level 100, k at level 200, right associativity) : c_scope.
Open Scope c_scope.

Definition fault {A} : M A := fun _ => Fault.
Definition diverge {A} : M A := fun _ => Diverge.

(** * Loads and stores *)
Definition load8 (a : Z) : M Z := fun m =>
  match cells m !! a with
  | Some b => Ok b m
  | None => Fault
  end.

Definition upd_cells (f : gmap Z Z -> gmap Z Z) (m : mem) : mem :=
  Mem (f (cells m)) (heap m) (brk m) (nalloc m).

Definition store8 (a b : Z) : M unit := fun m =>
  match cells m !! a with
  | Some _ => Ok tt (upd_cells <[a := u8 b]> m)
  | None => Fault
  end.

Fixpoint load_bytes (a : Z) (n : nat) : M (list Z) :=
  match n with
  | O => ret []
  | S n' => let* b := load8 a in let* l := load_bytes (a + 1) n' in ret (b :: l)
  end.

Fixpoint store_bytes (a : Z) (l : list Z) : M unit :=
  match l with
  | [] => ret tt
  | b :: l' => store8 a b ;; store_bytes (a + 1) l'
  end.

(** An unsigned integer object of [n] bytes. *)
Definition load_le (a : Z) (n : nat) : M Z := let* l := load_bytes a n in ret (le_val l).
Definition store_le (a : Z) (n : nat) (z : Z) : M unit := store_bytes a (le_bytes n z).

Definition SIZEOF_PTR : Z := 8.
Definition SIZE_MAX : Z := 2 ^ 64 - 1.
Definition NULL : Z := 0.

Definition load_ptr (a : Z) : M Z := load_le a 8.
Definition store_ptr (a p : Z) : M unit := store_le a 8 p.
Definition load_u32 (a : Z) : M Z := load_le a 4.
Definition store_u32 (a z : Z) : M unit := store_le a 4 z.

(** [memset (a, b, n)] and [memcpy] from constant data. *)
Definition memset (a b : Z) (n : nat) : M unit := store_bytes a (replicate n b).
Definition memcpy_const (a : Z) (bs : list Z) (n : nat) : M unit :=
  if decide (n <= length bs)%nat then store_bytes a (take n bs) else fault.

(** * The heap

    [realloc] and [free] of the C library.  Whether the [k]-th allocation of
    [size] bytes succeeds, and what a fresh block contains, is chosen by the
    environment, so every theorem holds for all such choices.  Blocks are
    handed out at increasing 16-byte aligned addresses; [realloc] moves. *)
Class Heap := {
  alloc_ok : nat -> Z -> bool;
  junk : Z -> Z
}.

Definition align16 (a : Z) : Z := (a + 15) / 16 * 16.

Fixpoint map_range (a : Z) (l : list Z) (c : gmap Z Z) : gmap Z Z :=
  match l with
  | [] => c
  | b :: l' => map_range (a + 1) l' (<[a := u8 b]> c)
  end.

Fixpoint unmap_range (a : Z) (n : nat) (c : gmap Z Z) : gmap Z Z :=
  match n with
  | O => c
  | S n' => unmap_range (a + 1) n' (delete a c)
  end.

Definition junk_bytes `{Heap} (a : Z) (n : nat) : list Z :=
  (fun i => junk (a + Z.of_nat i)) <$> seq 0 n.

(** The bytes a block keeps when it is reallocated to [n] bytes. *)
Definition peek (c : gmap Z Z) (a : Z) (n : nat) : list Z :=
  (fun i => default 0 (c !! (a + Z.of_nat i))) <$> seq 0 n.

Definition malloc_block `{Heap} (keep : list Z) (size : Z) : M Z := fun m =>
  if alloc_ok (nalloc m) size then
    let p := align16 (brk m) in
    let n := Z.to_nat size in
    let content := keep ++ junk_bytes (p + zlen keep) (n - length keep) in
    Ok p (Mem (map_range p content (cells m)) (<[p := size]> (heap m)) (p + size) (S (nalloc m)))
  else Ok NULL (Mem (cells m) (heap m) (brk m) (S (nalloc m))).

Definition pb_free (p : Z) : M unit := fun m =>
  if p =? NULL then Ok tt m else
  match heap m !! p with
  | Some size =>
      Ok tt (Mem (unmap_range p (Z.to_nat size) (cells m)) (delete p (heap m)) (brk m) (nalloc m))
  | None => Fault
  end.

Definition pb_realloc `{Heap} (p size : Z) : M Z := fun m =>
  if p =? NULL then malloc_block [] size m else
  match heap m !! p with
  | Some old =>
      match malloc_block (peek (cells m) p (Z.to_nat (Z.min old size))) size m with
      | Ok q m' => if q =? NULL then Ok q m' else (pb_free p ;; ret q) m'
      | Fault => Fault
      | Diverge => Diverge
      end
  | None => Fault
  end.

(** * Equations of the monad *)
Lemma bind_Ok {A B} (c : M A) (f : A -> M B) m a m' :
  c m = Ok a m' -> bind c f m = f a m'.
Proof. intros H. unfold bind. by rewrite H. Qed.

Lemma bind_eq {A B} (c c' : M A) (f : A -> M B) m m' :
  c m = c' m' -> bind c f m = bind c' f m'.
Proof. intros E. unfold bind. by rewrite E. Qed.

Lemma bind_Fault {A B} (c : M A) (f : A -> M B) m :
  c m = Fault -> bind c f m = Fault.
Proof. intros H. unfold bind. by rewrite H. Qed.

Lemma bind_inv {A B} (c : M A) (f : A -> M B) m b m'' :
  bind c f m = Ok b m'' -> exists a m', c m = Ok a m' /\ f a m' = Ok b m''.
Proof. unfold bind. destruct (c m) eqn:E; intros H; try done. eauto. Qed.

Lemma bind_assoc {A B C} (c : M A) (f : A -> M B) (g : B -> M C) m :
  bind (bind c f) g m = bind c (fun a => bind (f a) g) m.
Proof. unfold bind. by destruct (c m). Qed.

Lemma bind_ret {A B} (a : A) (f : A -> M B) m : bind (ret a) f m = f a m.
Proof. done. Qed.

(** [mstep H] runs the first action of the goal with the equation [H]. *)
Ltac mstep H := rewrite (bind_Ok _ _ _ _ _ H).

(** * Memory facts *)

(** Address ranges, agreement and mapped ranges. *)
Definition in_range (a n x : Z) : Prop := a <= x < a + n.
Definition agree_on (F : Z -> Prop) (m m' : mem) : Prop :=
  forall x, F x -> cells m' !! x = cells m !! x.
Definition mapped (m : mem) (a n : Z) : Prop :=
  forall x, in_range a n x -> is_Some (cells m !! x).

(** The memory after [store_bytes a l] succeeded. *)
Definition stored (m : mem) (a : Z) (l : list Z) : mem :=
  upd_cells (map_range a l) m.

(** Reading [n] bytes at [a], as a pure function of the memory. *)
Definition bytes_at (m : mem) (a : Z) (l : list Z) : Prop :=
  forall i b, l !! i = Some b -> cells m !! (a + Z.of_nat i) = Some b.

Section MemFacts.
Implicit Types m : mem.

Lemma agree_on_refl F m : agree_on F m m.
Proof. done. Qed.

Lemma agree_on_trans F m1 m2 m3 :
  agree_on F m1 m2 -> agree_on F m2 m3 -> agree_on F m1 m3.
Proof. intros H1 H2 x Hx. rewrite (H2 x Hx). by apply H1. Qed.

Lemma agree_on_sub (F G : Z -> Prop) m m' :
  (forall x, F x -> G x) -> agree_on G m m' -> agree_on F m m'.
Proof. intros Hs H x Hx. by apply H, Hs. Qed.

Lemma map_range_lookup_ne a l c x :
  ~ in_range a (zlen l) x -> map_range a l c !! x = c !! x.
Proof.
  revert a c. induction l as [|b l IH]; intros a c Hx; [done|]. cbn [map_range].
  rewrite zlen_cons in Hx. unfold in_range in *.
  rewrite IH by lia. by rewrite lookup_insert_ne by lia.
Qed.

Lemma map_range_lookup a l c i b :
  l !! i = Some b -> map_range a l c !! (a + Z.of_nat i) = Some (u8 b).
Proof.
  revert a c i. induction l as [|b' l IH]; intros a c i Hi; [done|]. cbn [map_range].
  destruct i as [|i]; simpl in Hi.
  - simplify_eq. rewrite map_range_lookup_ne by (unfold in_range; lia).
    rewrite Z.add_0_r. by rewrite lookup_insert_eq.
  - replace (a + Z.of_nat (S i)) with (a + 1 + Z.of_nat i) by lia. by apply IH.
Qed.

Lemma map_range_app a l1 l2 c :
  map_range a (l1 ++ l2) c = map_range (a + zlen l1) l2 (map_range a l1 c).
Proof.
  revert a c. induction l1 as [|b l1 IH]; intros a c; simpl app.
  - by rewrite Z.add_0_r.
  - cbn [map_range]. rewrite IH, zlen_cons. f_equal. lia.
Qed.

Lemma stored_nil m a : stored m a [] = m.
Proof. by destruct m. Qed.

Lemma stored_app m a l1 l2 :
  stored m a (l1 ++ l2) = stored (stored m a l1) (a + zlen l1) l2.
Proof. unfold stored, upd_cells. simpl. by rewrite map_range_app. Qed.

Lemma stored_agree F m a l :
  (forall x, F x -> ~ in_range a (zlen l) x) -> agree_on F m (stored m a l).
Proof. intros H x Hx. simpl. by apply map_range_lookup_ne, H. Qed.

Lemma stored_mapped m a l b n : mapped m b n -> mapped (stored m a l) b n.
Proof.
  intros H x Hx. simpl. destruct (decide (a <= x < a + zlen l)) as [Hin|Hout].
  - destruct (lookup_lt_is_Some_2 l (Z.to_nat (x - a))) as [y Hy]; [lia|].
    apply (map_range_lookup a l (cells m)) in Hy.
    rewrite Z2Nat.id in Hy by lia. replace (a + (x - a)) with x in Hy by lia.
    rewrite Hy. eauto.
  - rewrite map_range_lookup_ne; auto.
Qed.

Lemma mapped_sub m a n b k :
  mapped m a n -> a <= b -> b + k <= a + n -> mapped m b k.
Proof. intros H H1 H2 x Hx. apply H. unfold in_range in *. lia. Qed.

Lemma mapped_agree m m' a n :
  agree_on (in_range a n) m m' -> mapped m a n -> mapped m' a n.
Proof. intros Ha H x Hx. rewrite (Ha x Hx). by apply H. Qed.

(** [store_bytes] succeeds exactly on mapped memory. *)
Lemma store_bytes_Ok m a l :
  mapped m a (zlen l) -> store_bytes a l m = Ok tt (stored m a l).
Proof.
  revert m a. induction l as [|b l IH]; intros m a Hm.
  - by rewrite stored_nil.
  - cbn [store_bytes]. rewrite zlen_cons in Hm.
    assert (store8 a b m = Ok tt (stored m a [b])) as E.
    { unfold store8. destruct (Hm a) as [y Hy]; [unfold in_range; lia|]. by rewrite Hy. }
    mstep E. rewrite IH.
    + done.
    + apply stored_mapped. eapply mapped_sub; [exact Hm|lia..].
Qed.

Lemma load_bytes_Ok m a l : bytes_at m a l -> load_bytes a (length l) m = Ok l m.
Proof.
  revert a. induction l as [|b l IH]; intros a H; [done|]. cbn [length load_bytes].
  assert (load8 a m = Ok b m) as E.
  { unfold load8. specialize (H 0%nat b eq_refl). rewrite Z.add_0_r in H. by rewrite H. }
  mstep E. assert (load_bytes (a + 1) (length l) m = Ok l m) as E2.
  { apply IH. intros i c Hc. replace (a + 1 + Z.of_nat i) with (a + Z.of_nat (S i)) by lia.
    by apply H. }
  by mstep E2.
Qed.

Lemma load_bytes_inv m a n l m' :
  load_bytes a n m = Ok l m' -> m' = m /\ length l = n /\ bytes_at m a l.
Proof.
  revert a l. induction n as [|n IH]; intros a l H.
  - injection H as <- <-. by split_and!.
  - cbn [load_bytes] in H. apply bind_inv in H as (b & m1 & Hb & H).
    apply bind_inv in H as (l' & m2 & Hl & H). injection H as <- <-.
    unfold load8 in Hb. destruct (cells m !! a) eqn:E; [|done]. injection Hb as -> <-.
    apply IH in Hl as (-> & Hlen & Hat). split_and!; [done|simpl; lia|].
    intros [|i] c Hc; simpl in Hc.
    + simplify_eq. by rewrite Z.add_0_r.
    + replace (a + Z.of_nat (S i)) with (a + 1 + Z.of_nat i) by lia. by apply Hat.
Qed.

Lemma bytes_at_agree m m' a l :
  agree_on (in_range a (zlen l)) m m' -> bytes_at m a l -> bytes_at m' a l.
Proof.
  intros Ha H i b Hi. rewrite Ha; [by apply H|].
  apply lookup_lt_Some in Hi. unfold in_range. lia.
Qed.

Lemma bytes_at_mapped m a l : bytes_at m a l -> mapped m a (zlen l).
Proof.
  intros H x [H1 H2]. destruct (lookup_lt_is_Some_2 l (Z.to_nat (x - a))) as [y Hy]; [lia|].
  apply H in Hy. rewrite Z2Nat.id in Hy by lia.
  replace (a + (x - a)) with x in Hy by lia. eauto.
Qed.

Lemma bytes_at_app m a l1 l2 :
  bytes_at m a (l1 ++ l2) <-> bytes_at m a l1 /\ bytes_at m (a + zlen l1) l2.
Proof.
  split.
  - intros H. split; intros i b Hi.
    + apply H. by apply lookup_app_l_Some.
    + replace (a + zlen l1 + Z.of_nat i) with (a + Z.of_nat (length l1 + i)) by lia.
      apply H. rewrite lookup_app_r by lia. by replace (length l1 + i - length l1)%nat with i by lia.
  - intros [H1 H2] i b Hi. apply lookup_app_Some in Hi as [Hi|[Hge Hi]]; [by apply H1|].
    replace (a + Z.of_nat i) with (a + zlen l1 + Z.of_nat (i - length l1)) by lia.
    by apply H2.
Qed.

(** What was stored is what is read back. *)
Lemma stored_bytes_at m a l : Forall is_byte l -> bytes_at (stored m a l) a l.
Proof.
  intros Hb i b Hi. simpl. rewrite (map_range_lookup a l _ i b Hi).
  f_equal. apply u8_small. rewrite Forall_lookup in Hb. by eapply Hb.
Qed.

Lemma bytes_at_inj m a l1 l2 :
  length l1 = length l2 -> bytes_at m a l1 -> bytes_at m a l2 -> l1 = l2.
Proof.
  intros Hl H1 H2. apply list_eq_same_length with (length l2); [done|done|].
  intros i x y _ Hx Hy. apply H1 in Hx. apply H2 in Hy. congruence.
Qed.

Lemma load_le_Ok m a n l :
  length l = n -> bytes_at m a l -> load_le a n m = Ok (le_val l) m.
Proof. intros <- H. unfold load_le. by mstep (load_bytes_Ok m a l H). Qed.

Lemma load_le_inv m a n z m' :
  load_le a n m = Ok z m' ->
  m' = m /\ exists l, length l = n /\ bytes_at m a l /\ z = le_val l.
Proof.
  intros H. apply bind_inv in H as (l & m1 & Hl & H). injection H as <- <-.
  apply load_bytes_inv in Hl as (-> & ? & ?). eauto.
Qed.
End MemFacts.

(** Distinct mapped addresses are at most as many as the cells. *)
Lemma bytes_at_size m a l : bytes_at m a l -> (length l <= size (cells m))%nat.
Proof.
  intros Hb. set (addrs := (fun i => a + Z.of_nat i) <$> seq 0 (length l)).
  assert (NoDup addrs) as Hnd.
  { apply NoDup_fmap_2; [intros x y; lia|apply NoDup_seq]. }
  rewrite <- (size_dom (D := gset Z) (cells m)).
  replace (length l) with (length addrs) by (subst addrs; by rewrite length_fmap, length_seq).
  rewrite <- (size_list_to_set (C := gset Z)) by done. apply subseteq_size.
  intros x Hx. apply elem_of_list_to_set, list_elem_of_fmap in Hx as (i & -> & Hi).
  apply elem_of_seq in Hi. apply elem_of_dom.
  destruct (lookup_lt_is_Some_2 l i ltac:(lia)) as [b Hbi]. rewrite (Hb i b Hbi). eauto.
Qed.

Create HintDb cmem.
#[export] Hint Resolve agree_on_refl stored_mapped : cmem.
