(* ===== verification/PbTypes.v ===== *)
(** The declarations of nanopb: [pb.h], and the stream structures of
    [pb_encode.h] and [pb_decode.h], as the pods are configured
    ([PB_FIELD_32BIT], [PB_NO_PACKED_STRUCTS], [PB_ENABLE_MALLOC]; error
    messages on, 64-bit support on, arrays packed). *)
From stdpp Require Import base list numbers option strings.
From S2P Require Import Prelude Machine.
Open Scope Z_scope.

(** * Field types *)

(** Field data types ([PB_LTYPE_...]): the low four bits of a field type. *)
Definition PB_LTYPE_BOOL : Z := 0x00.
Definition PB_LTYPE_VARINT : Z := 0x01.
Definition PB_LTYPE_UVARINT : Z := 0x02.
Definition PB_LTYPE_SVARINT : Z := 0x03.
Definition PB_LTYPE_FIXED32 : Z := 0x04.
Definition PB_LTYPE_FIXED64 : Z := 0x05.
Definition PB_LTYPE_LAST_PACKABLE : Z := 0x05.
Definition PB_LTYPE_BYTES : Z := 0x06.
Definition PB_LTYPE_STRING : Z := 0x07.
Definition PB_LTYPE_SUBMESSAGE : Z := 0x08.
Definition PB_LTYPE_EXTENSION : Z := 0x09.
Definition PB_LTYPE_FIXED_LENGTH_BYTES : Z := 0x0A.
Definition PB_LTYPES_COUNT : Z := 0x0B.
Definition PB_LTYPE_MASK : Z := 0x0F.

(** Field repetition rules. *)
Definition PB_HTYPE_REQUIRED : Z := 0x00.
Definition PB_HTYPE_OPTIONAL : Z := 0x10.
Definition PB_HTYPE_REPEATED : Z := 0x20.
Definition PB_HTYPE_ONEOF : Z := 0x30.
Definition PB_HTYPE_MASK : Z := 0x30.

(** Field allocation types. *)
Definition PB_ATYPE_STATIC : Z := 0x00.
Definition PB_ATYPE_POINTER : Z := 0x80.
Definition PB_ATYPE_CALLBACK : Z := 0x40.
Definition PB_ATYPE_MASK : Z := 0xC0.

Definition PB_ATYPE (x : Z) : Z := Z.land x PB_ATYPE_MASK.
Definition PB_HTYPE (x : Z) : Z := Z.land x PB_HTYPE_MASK.
Definition PB_LTYPE (x : Z) : Z := Z.land x PB_LTYPE_MASK.

(** [pb_size_t] is [uint32_t] under [PB_FIELD_32BIT]. *)
Definition pb_size (z : Z) : Z := u32 z.
Definition pb_ssize (z : Z) : Z := s32 z.
Definition PB_SIZE_MAX : Z := pb_size (-1).
Definition SIZEOF_PB_SIZE : nat := 4.

Definition PB_MAX_REQUIRED_FIELDS : Z := 64.

(** * Field descriptors

    The [ptr] member is null, the descriptor array of a submessage, or the
    bytes of a default value.  Arrays of descriptors are lists that end with
    [PB_LAST_FIELD]; descriptors form trees, as every generated one does. *)
Inductive pb_ptr (F : Type) :=
  | PtrNull
  | PtrFields (fs : list F)
  | PtrData (bs : list Z).
Arguments PtrNull {F}.
Arguments PtrFields {F} fs.
Arguments PtrData {F} bs.

Inductive pb_field_t := PbField {
  f_tag : Z;
  f_type : Z;
  f_data_offset : Z;
  f_size_offset : Z;
  f_data_size : Z;
  f_array_size : Z;
  f_ptr : pb_ptr pb_field_t
}.

Definition PB_LAST_FIELD : pb_field_t := PbField 0 0 0 0 0 0 PtrNull.

Definition f_ltype (f : pb_field_t) : Z := PB_LTYPE (f_type f).
Definition f_htype (f : pb_field_t) : Z := PB_HTYPE (f_type f).
Definition f_atype (f : pb_field_t) : Z := PB_ATYPE (f_type f).

(** [pb_bytes_array_t]: a [pb_size_t] length followed by the bytes. *)
Definition OFFSETOF_BYTES : Z := 4.
Definition PB_BYTES_ARRAY_T_ALLOCSIZE (n : Z) : Z := u64 (u64 n + OFFSETOF_BYTES).

(** [pb_callback_t]: the function pointer, then the argument. *)
Definition callback_funcs_off : Z := 0.
Definition callback_arg_off : Z := 8.

(** Wire types. *)
Definition PB_WT_VARINT : Z := 0.
Definition PB_WT_64BIT : Z := 1.
Definition PB_WT_STRING : Z := 2.
Definition PB_WT_32BIT : Z := 5.

(** * Streams *)

(** The [callback] member of an output stream: null for a sizing stream, the
    static [buf_write], or a function of the application. *)
Inductive ocallback :=
  | OcbNull
  | OcbBufWrite
  | OcbUser (f : Z).

Record pb_ostream_t := OStream {
  o_callback : ocallback;
  o_state : Z;
  o_max_size : Z;
  o_bytes_written : Z;
  o_errmsg : option string
}.

Definition PB_OSTREAM_SIZING : pb_ostream_t := OStream OcbNull 0 0 0 None.

Inductive icallback :=
  | IcbBufRead
  | IcbUser (f : Z).

Record pb_istream_t := IStream {
  i_callback : icallback;
  i_state : Z;
  i_bytes_left : Z;
  i_errmsg : option string
}.

(** [PB_SET_ERROR]: the first message stays. *)
Definition PB_SET_ERROR (e : option string) (msg : string) : option string :=
  match e with Some _ => e | None => Some msg end.
Definition PB_GET_ERROR (e : option string) : string :=
  match e with Some msg => msg | None => "(none)" end.

Definition o_set_errmsg (s : pb_ostream_t) (e : option string) : pb_ostream_t :=
  OStream (o_callback s) (o_state s) (o_max_size s) (o_bytes_written s) e.
Definition i_set_errmsg (s : pb_istream_t) (e : option string) : pb_istream_t :=
  IStream (i_callback s) (i_state s) (i_bytes_left s) e.

(** [PB_RETURN_ERROR] on either kind of stream. *)
Definition o_error (s : pb_ostream_t) (msg : string) : M (bool * pb_ostream_t) :=
  ret (false, o_set_errmsg s (PB_SET_ERROR (o_errmsg s) msg)).
Definition i_seterr (s : pb_istream_t) (msg : string) : pb_istream_t :=
  i_set_errmsg s (PB_SET_ERROR (i_errmsg s) msg).
Definition i_error (s : pb_istream_t) (msg : string) : M (bool * pb_istream_t) :=
  ret (false, i_seterr s msg).

(** The buffer arguments of [pb_write] and [pb_read]: an array of the calling
    function, or an address ([NULL] included). *)
Inductive cbuf :=
  | BufLocal (l : list Z)
  | BufMem (p : Z).

Inductive cdst :=
  | DstLocal
  | DstMem (p : Z).

(** * The application's code

    Stream callbacks, field callbacks and extension handlers are code outside
    nanopb, reached through the pointers stored in streams, messages and
    extension records.  They are parameters. *)
Record pb_extension_type_t := ExtType {
  ext_decode : option (pb_istream_t -> Z -> Z -> Z -> M (bool * pb_istream_t));
  ext_encode : option (pb_ostream_t -> Z -> M (bool * pb_ostream_t));
  ext_arg : pb_field_t
}.

Class App := {
  app_heap :: Heap;
  app_owrite : Z -> pb_ostream_t -> cbuf -> Z -> M (bool * pb_ostream_t);
  app_iread : Z -> pb_istream_t -> cdst -> Z -> M (bool * pb_istream_t * list Z);
  app_encode : Z -> pb_ostream_t -> pb_field_t -> Z -> M (bool * pb_ostream_t);
  app_decode : Z -> pb_istream_t -> pb_field_t -> Z -> M (bool * pb_istream_t);
  app_ext_type : Z -> option pb_extension_type_t
}.

(** [pb_extension_t]: offsets of its members and its size. *)
Definition ext_type_off : Z := 0.
Definition ext_dest_off : Z := 8.
Definition ext_next_off : Z := 16.
Definition ext_found_off : Z := 24.

Definition load_ext_type `{App} (ext : Z) : M pb_extension_type_t :=
  let* p := load_ptr (ext + ext_type_off) in
  match app_ext_type p with Some t => ret t | None => fault end.

(** * C structures and the field macros *)
Inductive ctype :=
  | CScalar (size : Z)
  | CPtrTo (t : ctype)
  | CArray (t : ctype) (n : Z)
  | CStruct (ms : list (string * ctype))
  | CUnion (ms : list (string * ctype)).

Definition align_up (off a : Z) : Z := (off + a - 1) / a * a.

Fixpoint alignof (t : ctype) : Z :=
  match t with
  | CScalar s => s
  | CPtrTo _ => SIZEOF_PTR
  | CArray t' _ => alignof t'
  | CStruct ms | CUnion ms => foldr (fun x acc => Z.max (alignof x.2) acc) 1 ms
  end.

Fixpoint sizeof (t : ctype) : Z :=
  match t with
  | CScalar s => s
  | CPtrTo _ => SIZEOF_PTR
  | CArray t' n => sizeof t' * n
  | CStruct ms =>
      align_up (foldl (fun off x => align_up off (alignof x.2) + sizeof x.2) 0 ms) (alignof t)
  | CUnion ms => align_up (foldr (fun x acc => Z.max (sizeof x.2) acc) 0 ms) (alignof t)
  end.

(** Offset and type of a direct member. *)
Fixpoint struct_member (off : Z) (ms : list (string * ctype)) (m : string) : option (Z * ctype) :=
  match ms with
  | [] => None
  | (n, t) :: ms' =>
      let o := align_up off (alignof t) in
      if String.eqb n m then Some (o, t) else struct_member (o + sizeof t) ms' m
  end.

Fixpoint union_member (ms : list (string * ctype)) (m : string) : option (Z * ctype) :=
  match ms with
  | [] => None
  | (n, t) :: ms' => if String.eqb n m then Some (0, t) else union_member ms' m
  end.

(** A member designator such as [u.m]. *)
Fixpoint member (t : ctype) (path : list string) : option (Z * ctype) :=
  match path with
  | [] => Some (0, t)
  | m :: path' =>
      r ← match t with
          | CStruct ms => struct_member 0 ms m
          | CUnion ms => union_member ms m
          | _ => None
          end;
      r' ← member r.2 path';
      Some (r.1 + r'.1, r'.2)
  end.

Definition offsetof (st : ctype) (path : list string) : Z := default 0 (fst <$> member st path).
Definition membertype (st : ctype) (path : list string) : ctype :=
  default (CScalar 0) (snd <$> member st path).
Definition elemtype (t : ctype) : ctype :=
  match t with CPtrTo t' => t' | CArray t' _ => t' | _ => CScalar 0 end.

Definition pb_membersize (st : ctype) (path : list string) : Z := sizeof (membertype st path).
(** [pb_membersize(st, m[0])] *)
Definition pb_membersize_elem (st : ctype) (path : list string) : Z :=
  sizeof (elemtype (membertype st path)).
Definition pb_arraysize (st : ctype) (path : list string) : Z :=
  pb_membersize st path / pb_membersize_elem st path.
Definition pb_delta (st : ctype) (m1 m2 : list string) : Z := offsetof st m1 - offsetof st m2.

(** A descriptor initialiser: members are converted to their types. *)
Definition pb_field_init (tag type data_offset size_offset data_size array_size : Z)
    (ptr : pb_ptr pb_field_t) : pb_field_t :=
  PbField (pb_size tag) (u8 type) (pb_size data_offset) (pb_ssize size_offset)
    (pb_size data_size) (pb_size array_size) ptr.

Inductive pb_placement := FIRST | OTHER | UNION.

Definition PB_DATAOFFSET_FIRST (st : ctype) (m1 m2 : list string) : Z := offsetof st m1.
Definition PB_DATAOFFSET_OTHER (st : ctype) (m1 m2 : list string) : Z :=
  offsetof st m1 - offsetof st m2 - pb_membersize st m2.
Definition PB_DATAOFFSET_UNION (st : ctype) (m1 m2 : list string) : Z := PB_SIZE_MAX.
Definition PB_DATAOFFSET_CHOOSE (st : ctype) (m1 m2 : list string) : Z :=
  if offsetof st m1 =? offsetof st m2 then PB_DATAOFFSET_FIRST st m1 m2
  else PB_DATAOFFSET_OTHER st m1 m2.

Definition PB_DATAOFFSET (p : pb_placement) : ctype -> list string -> list string -> Z :=
  match p with
  | FIRST => PB_DATAOFFSET_FIRST
  | OTHER => PB_DATAOFFSET_OTHER
  | UNION => PB_DATAOFFSET_UNION
  end.

Definition or3 (a h l : Z) : Z := Z.lor (Z.lor a h) l.

Section FieldMacros.
Variables (tag : Z) (st : ctype) (m : string) (fd ltype : Z) (ptr : pb_ptr pb_field_t).

Definition PB_REQUIRED_STATIC : pb_field_t :=
  pb_field_init tag (or3 PB_ATYPE_STATIC PB_HTYPE_REQUIRED ltype)
    fd 0 (pb_membersize st [m]) 0 ptr.
Definition PB_OPTIONAL_STATIC : pb_field_t :=
  pb_field_init tag (or3 PB_ATYPE_STATIC PB_HTYPE_OPTIONAL ltype)
    fd (pb_delta st ["has_" +:+ m] [m]) (pb_membersize st [m]) 0 ptr.
Definition PB_SINGULAR_STATIC : pb_field_t :=
  pb_field_init tag (or3 PB_ATYPE_STATIC PB_HTYPE_OPTIONAL ltype)
    fd 0 (pb_membersize st [m]) 0 ptr.
Definition PB_REPEATED_STATIC : pb_field_t :=
  pb_field_init tag (or3 PB_ATYPE_STATIC PB_HTYPE_REPEATED ltype)
    fd (pb_delta st [m +:+ "_count"] [m]) (pb_membersize_elem st [m])
    (pb_arraysize st [m]) ptr.
Definition PB_REQUIRED_POINTER : pb_field_t :=
  pb_field_init tag (or3 PB_ATYPE_POINTER PB_HTYPE_REQUIRED ltype)
    fd 0 (pb_membersize_elem st [m]) 0 ptr.
Definition PB_OPTIONAL_POINTER : pb_field_t :=
  pb_field_init tag (or3 PB_ATYPE_POINTER PB_HTYPE_OPTIONAL ltype)
    fd 0 (pb_membersize_elem st [m]) 0 ptr.
Definition PB_SINGULAR_POINTER : pb_field_t :=
  pb_field_init tag (or3 PB_ATYPE_POINTER PB_HTYPE_OPTIONAL ltype)
    fd 0 (pb_membersize_elem st [m]) 0 ptr.
Definition PB_REPEATED_POINTER : pb_field_t :=
  pb_field_init tag (or3 PB_ATYPE_POINTER PB_HTYPE_REPEATED ltype)
    fd (pb_delta st [m +:+ "_count"] [m]) (pb_membersize_elem st [m]) 0 ptr.
Definition PB_REQUIRED_CALLBACK : pb_field_t :=
  pb_field_init tag (or3 PB_ATYPE_CALLBACK PB_HTYPE_REQUIRED ltype)
    fd 0 (pb_membersize st [m]) 0 ptr.
Definition PB_OPTIONAL_CALLBACK : pb_field_t :=
  pb_field_init tag (or3 PB_ATYPE_CALLBACK PB_HTYPE_OPTIONAL ltype)
    fd 0 (pb_membersize st [m]) 0 ptr.
Definition PB_SINGULAR_CALLBACK : pb_field_t :=
  pb_field_init tag (or3 PB_ATYPE_CALLBACK PB_HTYPE_OPTIONAL ltype)
    fd 0 (pb_membersize st [m]) 0 ptr.
Definition PB_REPEATED_CALLBACK : pb_field_t :=
  pb_field_init tag (or3 PB_ATYPE_CALLBACK PB_HTYPE_REPEATED ltype)
    fd 0 (pb_membersize st [m]) 0 ptr.
Definition PB_OPTEXT_STATIC : pb_field_t :=
  pb_field_init tag (or3 PB_ATYPE_STATIC PB_HTYPE_REQUIRED ltype)
    0 0 (pb_membersize st [m]) 0 ptr.
Definition PB_OPTEXT_POINTER : pb_field_t := PB_OPTIONAL_POINTER.
Definition PB_OPTEXT_CALLBACK : pb_field_t := PB_OPTIONAL_CALLBACK.

(** Members of a named union [u], and of an anonymous one (its member name
    is the empty string). *)
Definition PB_ONEOF_STATIC (u : string) : pb_field_t :=
  pb_field_init tag (or3 PB_ATYPE_STATIC PB_HTYPE_ONEOF ltype)
    fd (pb_delta st ["which_" +:+ u] [u; m]) (pb_membersize st [u; m]) 0 ptr.
Definition PB_ONEOF_POINTER (u : string) : pb_field_t :=
  pb_field_init tag (or3 PB_ATYPE_POINTER PB_HTYPE_ONEOF ltype)
    fd (pb_delta st ["which_" +:+ u] [u; m]) (pb_membersize_elem st [u; m]) 0 ptr.
Definition PB_ANONYMOUS_ONEOF_STATIC (u : string) : pb_field_t :=
  pb_field_init tag (or3 PB_ATYPE_STATIC PB_HTYPE_ONEOF ltype)
    fd (pb_delta st ["which_" +:+ u] [EmptyString; m]) (pb_membersize st [EmptyString; m]) 0 ptr.
Definition PB_ANONYMOUS_ONEOF_POINTER (u : string) : pb_field_t :=
  pb_field_init tag (or3 PB_ATYPE_POINTER PB_HTYPE_ONEOF ltype)
    fd (pb_delta st ["which_" +:+ u] [EmptyString; m]) (pb_membersize_elem st [EmptyString; m]) 0 ptr.
End FieldMacros.

(** Field types, rules and allocations of the generated descriptors. *)
Inductive pb_ftype :=
  | BOOL | BYTES | DOUBLE | ENUM | UENUM | FIXED32 | FIXED64 | FLOAT | INT32 | INT64
  | MESSAGE | SFIXED32 | SFIXED64 | SINT32 | SINT64 | STRING | UINT32 | UINT64
  | EXTENSION | FIXED_LENGTH_BYTES.
Inductive pb_rules := REQUIRED | OPTIONAL | SINGULAR | REPEATED | OPTEXT.
Inductive pb_alloc := STATIC | POINTER | CALLBACK.

Definition PB_LTYPE_MAP (t : pb_ftype) : Z :=
  match t with
  | BOOL => PB_LTYPE_BOOL
  | BYTES => PB_LTYPE_BYTES
  | DOUBLE => PB_LTYPE_FIXED64
  | ENUM => PB_LTYPE_VARINT
  | UENUM => PB_LTYPE_UVARINT
  | FIXED32 => PB_LTYPE_FIXED32
  | FIXED64 => PB_LTYPE_FIXED64
  | FLOAT => PB_LTYPE_FIXED32
  | INT32 => PB_LTYPE_VARINT
  | INT64 => PB_LTYPE_VARINT
  | MESSAGE => PB_LTYPE_SUBMESSAGE
  | SFIXED32 => PB_LTYPE_FIXED32
  | SFIXED64 => PB_LTYPE_FIXED64
  | SINT32 => PB_LTYPE_SVARINT
  | SINT64 => PB_LTYPE_SVARINT
  | STRING => PB_LTYPE_STRING
  | UINT32 => PB_LTYPE_UVARINT
  | UINT64 => PB_LTYPE_UVARINT
  | EXTENSION => PB_LTYPE_EXTENSION
  | FIXED_LENGTH_BYTES => PB_LTYPE_FIXED_LENGTH_BYTES
  end.

(** [PB_ ## rules ## _ ## allocation] *)
Definition PB_RULES_ALLOC (r : pb_rules) (a : pb_alloc) :
    Z -> ctype -> string -> Z -> Z -> pb_ptr pb_field_t -> pb_field_t :=
  match r, a with
  | REQUIRED, STATIC => PB_REQUIRED_STATIC
  | OPTIONAL, STATIC => PB_OPTIONAL_STATIC
  | SINGULAR, STATIC => PB_SINGULAR_STATIC
  | REPEATED, STATIC => PB_REPEATED_STATIC
  | OPTEXT, STATIC => fun tag st m _ => PB_OPTEXT_STATIC tag st m
  | REQUIRED, POINTER => PB_REQUIRED_POINTER
  | OPTIONAL, POINTER => PB_OPTIONAL_POINTER
  | SINGULAR, POINTER => PB_SINGULAR_POINTER
  | REPEATED, POINTER => PB_REPEATED_POINTER
  | OPTEXT, POINTER => PB_OPTEXT_POINTER
  | REQUIRED, CALLBACK => PB_REQUIRED_CALLBACK
  | OPTIONAL, CALLBACK => PB_OPTIONAL_CALLBACK
  | SINGULAR, CALLBACK => PB_SINGULAR_CALLBACK
  | REPEATED, CALLBACK => PB_REPEATED_CALLBACK
  | OPTEXT, CALLBACK => PB_OPTEXT_CALLBACK
  end.

Definition PB_FIELD (tag : Z) (type : pb_ftype) (rules : pb_rules) (allocation : pb_alloc)
    (placement : pb_placement) (message : ctype) (field prevfield : string)
    (ptr : pb_ptr pb_field_t) : pb_field_t :=
  PB_RULES_ALLOC rules allocation tag message field
    (PB_DATAOFFSET placement message [field] [prevfield]) (PB_LTYPE_MAP type) ptr.

(** Repeated static fields of fixed count. *)
Definition PB_REPEATED_FIXED_COUNT (tag : Z) (type : pb_ftype) (placement : pb_placement)
    (message : ctype) (field prevfield : string) (ptr : pb_ptr pb_field_t) : pb_field_t :=
  pb_field_init tag (or3 PB_ATYPE_STATIC PB_HTYPE_REPEATED (PB_LTYPE_MAP type))
    (PB_DATAOFFSET placement message [field] [prevfield])
    0 (pb_membersize_elem message [field]) (pb_arraysize message [field]) ptr.

(** Fields of a oneof; the previous field may be a member of the same union. *)
Definition PB_ONEOF_FIELD (union_name : string) (tag : Z) (type : pb_ftype) (allocation : pb_alloc)
    (placement : pb_placement) (message : ctype) (field : string) (prevfield : list string)
    (ptr : pb_ptr pb_field_t) : pb_field_t :=
  match allocation with
  | POINTER => PB_ONEOF_POINTER
  | _ => PB_ONEOF_STATIC
  end tag message field (PB_DATAOFFSET placement message [union_name; field] prevfield)
    (PB_LTYPE_MAP type) ptr union_name.

Definition PB_ANONYMOUS_ONEOF_FIELD (union_name : string) (tag : Z) (type : pb_ftype)
    (allocation : pb_alloc) (placement : pb_placement) (message : ctype) (field : string)
    (prevfield : list string) (ptr : pb_ptr pb_field_t) : pb_field_t :=
  match allocation with
  | POINTER => PB_ANONYMOUS_ONEOF_POINTER
  | _ => PB_ANONYMOUS_ONEOF_STATIC
  end tag message field (PB_DATAOFFSET placement message [EmptyString; field] prevfield)
    (PB_LTYPE_MAP type) ptr union_name.
