(* ===== verification/PbCommon.v ===== *)
(** The field iterator of [pb_common.c].

    An iterator walks the descriptor array of a message type together with
    the addresses of the fields in a structure of that type. *)
From stdpp Require Import base list numbers option.
From S2P Require Import Prelude Machine PbTypes.
Open Scope Z_scope.

(** [pSize] points into the structure, except that [pb_decode_noinit] points
    it at its local [fixed_count_size]. *)
Inductive size_ptr :=
  | AtAddr (a : Z)
  | FixedCount.

Definition size_ptr_is (p : size_ptr) (a : Z) : bool :=
  match p with AtAddr b => b =? a | FixedCount => false end.

Record pb_field_iter_t := Iter {
  it_start : list pb_field_t;
  it_pos : nat;
  it_required_field_index : Z;
  it_dest_struct : Z;
  it_pData : Z;
  it_pSize : size_ptr
}.

(** The descriptor at index [i]; past the end of the array stands the
    terminator, which well-formed walks never pass. *)
Definition field_at (fields : list pb_field_t) (i : nat) : pb_field_t :=
  nth i fields PB_LAST_FIELD.
Definition it_field (it : pb_field_iter_t) : pb_field_t := field_at (it_start it) (it_pos it).

Definition it_set_pSize (it : pb_field_iter_t) (p : size_ptr) : pb_field_iter_t :=
  Iter (it_start it) (it_pos it) (it_required_field_index it) (it_dest_struct it) (it_pData it) p.

Definition pb_field_iter_begin (fields : list pb_field_t) (dest_struct : Z)
    : bool * pb_field_iter_t :=
  let f := field_at fields 0 in
  let pData := dest_struct + f_data_offset f in
  (negb (f_tag f =? 0),
   Iter fields 0 0 dest_struct pData (AtAddr (pData + f_size_offset f))).

(** The distance from a field to the end of its storage in the structure. *)
Definition iter_prev_size (prev_field : pb_field_t) : Z :=
  if (f_atype prev_field =? PB_ATYPE_STATIC) && (f_htype prev_field =? PB_HTYPE_REPEATED)
  then u64 (f_data_size prev_field * f_array_size prev_field)
  else if f_atype prev_field =? PB_ATYPE_POINTER then SIZEOF_PTR
  else f_data_size prev_field.

Definition pb_field_iter_next (it : pb_field_iter_t) : bool * pb_field_iter_t :=
  let prev_field := it_field it in
  if f_tag prev_field =? 0 then (false, it) else
  let pos := S (it_pos it) in
  let f := field_at (it_start it) pos in
  if f_tag f =? 0 then (false, (pb_field_iter_begin (it_start it) (it_dest_struct it)).2)
  else if (f_htype prev_field =? PB_HTYPE_ONEOF) && (f_htype f =? PB_HTYPE_ONEOF)
          && (f_data_offset f =? PB_SIZE_MAX)
  then (true, Iter (it_start it) pos (it_required_field_index it) (it_dest_struct it)
                (it_pData it) (it_pSize it))
  else
    let index := if f_htype prev_field =? PB_HTYPE_REQUIRED
                 then u32 (it_required_field_index it + 1) else it_required_field_index it in
    let pData := it_pData it + iter_prev_size prev_field + f_data_offset f in
    (true, Iter (it_start it) pos index (it_dest_struct it) pData
             (AtAddr (pData + f_size_offset f))).

(** The do-while loop of [pb_field_iter_find]; [n] bounds its rounds. *)
Fixpoint iter_find_loop (n : nat) (start : nat) (p : pb_field_t -> bool) (it : pb_field_iter_t)
    : option (bool * pb_field_iter_t) :=
  match n with
  | O => None
  | S n' =>
      if p (it_field it) then Some (true, it) else
      let it' := (pb_field_iter_next it).2 in
      if (it_pos it' =? start)%nat then Some (false, it') else iter_find_loop n' start p it'
  end.

Definition find_test (tag : Z) (f : pb_field_t) : bool :=
  (f_tag f =? tag) && negb (f_ltype f =? PB_LTYPE_EXTENSION).

(** Enough rounds for a walk around the array. *)
Definition iter_rounds (it : pb_field_iter_t) : nat := S (length (it_start it)).

Definition pb_field_iter_find (it : pb_field_iter_t) (tag : Z) : M (bool * pb_field_iter_t) :=
  match iter_find_loop (iter_rounds it) (it_pos it) (find_test tag) it with
  | Some r => ret r
  | None => diverge
  end.

(** The do-while loop over the fields of a message that [pb_encode],
    [pb_check_proto3_default_value], [pb_message_set_to_defaults] and
    [pb_release] share: [body] on the current field, until it answers false or
    the iterator wraps around. *)
Fixpoint for_each_field {S : Type} (n : nat) (body : pb_field_iter_t -> S -> M (bool * S))
    (it : pb_field_iter_t) (s : S) : M (bool * S) :=
  match n with
  | O => diverge
  | Datatypes.S n' =>
      let* (ok, s) := body it s in
      if ok then
        let '(more, it') := pb_field_iter_next it in
        if more then for_each_field n' body it' s else ret (true, s)
      else ret (false, s)
  end.

(** The entries of the array before the terminator. *)
Definition entries (fields : list pb_field_t) : list pb_field_t := removelast fields.
