(* ===== verification/PbIter.v ===== *)
(** Correctness of the field iterator: where it stands after any number of
    steps, that a search finds a field exactly when there is one, and that the
    shared do-while loop visits every field once, in order. *)
From stdpp Require Import base list numbers option.
From S2P Require Import Prelude Machine PbTypes PbCommon.
Open Scope Z_scope.
Open Scope c_scope.

(** The iterator after [i] steps from the beginning. *)
Definition iter_at (fields : list pb_field_t) (addr : Z) (i : nat) : pb_field_iter_t :=
  Nat.iter i (fun it => (pb_field_iter_next it).2) (pb_field_iter_begin fields addr).2.

Definition nfields (fields : list pb_field_t) : nat := length (entries fields).

(** The iterators of a walk over the message. *)
Definition iters (fields : list pb_field_t) (addr : Z) : list pb_field_iter_t :=
  map (iter_at fields addr) (seq 0 (nfields fields)).

(** The positions a search from position [i] tries, in order. *)
Definition search_order (i n : nat) : list nat := map (fun d => ((i + d) mod n)%nat) (seq 0 n).

(** Sequencing over a list: [body] until it answers false. *)
Fixpoint run_list {I S : Type} (body : I -> S -> M (bool * S)) (l : list I) (s : S)
    : M (bool * S) :=
  match l with
  | [] => ret (true, s)
  | x :: l' => let* (ok, s) := body x s in if ok then run_list body l' s else ret (false, s)
  end.

Lemma iter_at_S fields addr i :
  iter_at fields addr (S i) = (pb_field_iter_next (iter_at fields addr i)).2.
Proof. done. Qed.

Section Walk.
Variables (es : list pb_field_t).
Hypothesis tags : Forall (fun f => f_tag f <> 0) es.
Let fields := es ++ [PB_LAST_FIELD].
Let n := length es.

Lemma entries_app : entries fields = es.
Proof. apply removelast_last. Qed.

Lemma nfields_app : nfields fields = n.
Proof. unfold nfields. by rewrite entries_app. Qed.

Lemma field_at_entry i : (i < n)%nat -> es !! i = Some (field_at fields i).
Proof.
  intros Hi. unfold field_at, fields. rewrite app_nth1 by done.
  rewrite (lookup_lt_is_Some_2 es i Hi) || destruct (lookup_lt_is_Some_2 es i Hi) as [f Hf].
  rewrite Hf. f_equal. symmetry. by apply nth_lookup_Some with (d := PB_LAST_FIELD) in Hf.
Qed.

Lemma field_at_tag i : (i < n)%nat -> (f_tag (field_at fields i) =? 0) = false.
Proof.
  intros Hi. apply Z.eqb_neq. rewrite Forall_lookup in tags.
  apply (tags i). by apply field_at_entry.
Qed.

Lemma field_at_end : f_tag (field_at fields n) =? 0 = true.
Proof.
  unfold field_at, fields. rewrite app_nth2 by (subst n; lia). by rewrite Nat.sub_diag.
Qed.

Lemma iter_at_inv addr i :
  (i < n)%nat ->
  it_pos (iter_at fields addr i) = i /\ it_start (iter_at fields addr i) = fields
  /\ it_dest_struct (iter_at fields addr i) = addr.
Proof.
  induction i as [|i IH]; intros Hi; [done|]. rewrite iter_at_S.
  destruct IH as (Hp & Hs & Hd); [lia|]. unfold pb_field_iter_next, it_field.
  rewrite Hp, Hs, Hd, field_at_tag, field_at_tag by lia.
  by destruct (_ && _ && _).
Qed.

Lemma it_field_at addr i : (i < n)%nat -> it_field (iter_at fields addr i) = field_at fields i.
Proof. intros Hi. unfold it_field. by destruct (iter_at_inv addr i Hi) as (-> & -> & _). Qed.

Lemma iter_next_at addr i :
  (i < n)%nat ->
  pb_field_iter_next (iter_at fields addr i)
  = (bool_decide (S i < n)%nat, iter_at fields addr (S i mod n)).
Proof.
  intros Hi. destruct (decide (S i < n)%nat) as [Hlt|Hge].
  - rewrite Nat.mod_small by done. rewrite bool_decide_true by done.
    rewrite iter_at_S. destruct (iter_at_inv addr i Hi) as (Hp & Hs & Hd).
    unfold pb_field_iter_next, it_field. rewrite Hp, Hs, !field_at_tag by lia.
    by destruct (_ && _ && _).
  - assert (S i = n) as E by lia. rewrite E, Nat.Div0.mod_same, bool_decide_false by lia.
    destruct (iter_at_inv addr i Hi) as (Hp & Hs & Hd).
    unfold pb_field_iter_next, it_field. rewrite Hp, Hs, Hd, field_at_tag by lia.
    by rewrite E, field_at_end.
Qed.

Lemma pb_field_iter_begin_at addr :
  pb_field_iter_begin fields addr = (bool_decide (0 < n)%nat, iter_at fields addr 0).
Proof.
  unfold iter_at. simpl. unfold pb_field_iter_begin. f_equal.
  destruct (decide (0 < n)%nat).
  - by rewrite field_at_tag, bool_decide_true.
  - assert (n = 0%nat) as E by lia. pose proof field_at_end as He. rewrite E in He.
    by rewrite He, bool_decide_false by lia.
Qed.

(** Field addresses are the structure's address and an offset. *)
Lemma iter_at_pData addr i :
  (i < n)%nat ->
  it_pData (iter_at fields addr i) = addr + it_pData (iter_at fields 0 i).
Proof.
  induction i as [|i IH]; intros Hi; [simpl; lia|]. rewrite !iter_at_S.
  destruct (iter_at_inv addr i ltac:(lia)) as (Hp & Hs & _).
  destruct (iter_at_inv 0 i ltac:(lia)) as (Hp0 & Hs0 & _).
  unfold pb_field_iter_next, it_field. rewrite Hp, Hs, Hp0, Hs0, !field_at_tag by lia.
  destruct (_ && _ && _); cbn [snd it_pData]; rewrite IH by lia; lia.
Qed.

(** The size pointer, when no field is in a oneof. *)
Lemma iter_at_pSize addr i :
  Forall (fun f => f_htype f <> PB_HTYPE_ONEOF) es -> (i < n)%nat ->
  it_pSize (iter_at fields addr i)
  = AtAddr (it_pData (iter_at fields addr i) + f_size_offset (it_field (iter_at fields addr i))).
Proof.
  intros Hone Hi. destruct i as [|i]; [done|]. rewrite it_field_at by done. rewrite iter_at_S.
  destruct (iter_at_inv addr i ltac:(lia)) as (Hp & Hs & _).
  unfold pb_field_iter_next, it_field. rewrite Hp, Hs, !field_at_tag by lia.
  pose proof (field_at_entry i ltac:(lia)) as Hf. rewrite Forall_lookup in Hone.
  apply Hone in Hf. apply Z.eqb_neq in Hf. by rewrite Hf.
Qed.

Lemma iters_pSize addr it :
  Forall (fun f => f_htype f <> PB_HTYPE_ONEOF) es -> it ∈ iters fields addr ->
  it_pSize it = AtAddr (it_pData it + f_size_offset (it_field it)).
Proof.
  intros Hone Hit. apply list_elem_of_fmap in Hit as (i & -> & Hi). apply elem_of_seq in Hi.
  rewrite nfields_app in Hi. apply iter_at_pSize; [done|lia].
Qed.

(** ** Searching *)
Lemma iter_find_loop_at p addr i k rounds :
  (i < n)%nat -> (k < n)%nat -> (n - k <= rounds)%nat ->
  iter_find_loop rounds i p (iter_at fields addr ((i + k) mod n))
  = Some (match find (fun j => p (field_at fields j))
                  (map (fun d => ((i + d) mod n)%nat) (seq k (n - k))) with
          | Some j => (true, iter_at fields addr j)
          | None => (false, iter_at fields addr i)
          end).
Proof.
  intros Hi. remember (n - k)%nat as r eqn:Er. revert k rounds Er.
  induction r as [|r IH]; intros k rounds Er Hk Hr; [lia|].
  destruct rounds as [|rounds]; [lia|]. cbn [iter_find_loop seq map find].
  pose proof (Nat.mod_upper_bound (i + k) n ltac:(lia)) as Hm.
  rewrite it_field_at by done. destruct (p (field_at fields ((i + k) mod n))); [done|].
  rewrite iter_next_at by done. cbn [snd].
  replace (S ((i + k) mod n) mod n)%nat with ((i + S k) mod n)%nat.
  2: { replace (i + S k)%nat with (S (i + k)) by lia.
       rewrite <- Nat.add_1_r, <- (Nat.add_1_r ((i + k) mod n)).
       by rewrite Nat.Div0.add_mod_idemp_l. }
  pose proof (Nat.mod_upper_bound (i + S k) n ltac:(lia)) as Hm'.
  destruct (iter_at_inv addr ((i + S k) mod n) Hm') as (-> & _ & _).
  destruct r as [|r].
  - assert (S k = n) as E by lia. rewrite E.
    replace (i + n)%nat with (i + 1 * n)%nat by lia.
    rewrite Nat.Div0.mod_add, Nat.mod_small, Nat.eqb_refl by done. done.
  - destruct (Nat.eqb_spec ((i + S k) mod n) i) as [Heq|Hne].
    + exfalso. destruct (decide (i + S k < n)%nat) as [Hlt|Hge].
      * rewrite Nat.mod_small in Heq; lia.
      * replace (i + S k)%nat with (i + S k - n + 1 * n)%nat in Heq by lia.
        rewrite Nat.Div0.mod_add, Nat.mod_small in Heq; lia.
    + apply IH; lia.
Qed.

Lemma iter_find_at tag addr i :
  (i < n)%nat ->
  pb_field_iter_find (iter_at fields addr i) tag
  = ret (match find (fun j => find_test tag (field_at fields j)) (search_order i n) with
         | Some j => (true, iter_at fields addr j)
         | None => (false, iter_at fields addr i)
         end).
Proof.
  intros Hi. unfold pb_field_iter_find.
  destruct (iter_at_inv addr i Hi) as (Hp & Hs & _).
  unfold iter_rounds. rewrite Hp, Hs.
  pose proof (iter_find_loop_at (find_test tag) addr i 0 (S (length fields)) Hi) as E.
  rewrite Nat.add_0_r, Nat.mod_small, Nat.sub_0_r in E by done.
  rewrite E; [done|lia|]. unfold fields. rewrite length_app. simpl. subst n. lia.
Qed.

(** ** The shared loop *)
Lemma for_each_field_at {S} (body : pb_field_iter_t -> S -> M (bool * S)) addr k rounds s m :
  (k < n)%nat -> (n - k <= rounds)%nat ->
  for_each_field rounds body (iter_at fields addr k) s m
  = run_list body (map (iter_at fields addr) (seq k (n - k))) s m.
Proof.
  remember (n - k)%nat as r eqn:Er. revert k rounds s m Er.
  induction r as [|r IH]; intros k rounds s m Er Hk Hr; [lia|].
  destruct rounds as [|rounds]; [lia|]. cbn [for_each_field seq map run_list].
  unfold bind at 1 2. destruct (body (iter_at fields addr k) s m) as [[ok s'] m'| |]; [|done..].
  destruct ok; [|done]. rewrite iter_next_at by done.
  destruct (decide (Datatypes.S k < n)%nat) as [Hlt|Hge].
  - rewrite bool_decide_true, Nat.mod_small by done. apply IH; lia.
  - rewrite bool_decide_false by done. assert (r = 0%nat) as -> by lia. done.
Qed.

Lemma for_each_field_iters {S} (body : pb_field_iter_t -> S -> M (bool * S)) addr s m :
  (0 < n)%nat ->
  for_each_field (iter_rounds (iter_at fields addr 0)) body (iter_at fields addr 0) s m
  = run_list body (iters fields addr) s m.
Proof.
  intros Hn. unfold iters. rewrite nfields_app.
  rewrite for_each_field_at; [by rewrite Nat.sub_0_r|done|].
  unfold iter_rounds. destruct (iter_at_inv addr 0 Hn) as (_ & -> & _).
  unfold fields. rewrite length_app. simpl. subst n. lia.
Qed.

Lemma iters_fields addr : map it_field (iters fields addr) = es.
Proof.
  unfold iters. rewrite nfields_app, map_map. apply list_eq. intros i.
  rewrite <- list_fmap_alt || idtac. destruct (decide (i < n)%nat) as [Hi|Hi].
  - rewrite list_lookup_fmap, lookup_seq_lt by done. simpl.
    rewrite it_field_at by done. by rewrite field_at_entry.
  - rewrite !lookup_ge_None_2; [done|subst n; lia|].
    rewrite length_map, length_seq. lia.
Qed.
End Walk.
