(* ===== verification/PbEncode.v ===== *)
(** The encoder, [pb_encode.c]: output streams, the encoders of single values,
    and [pb_encode].

    A function of type [bool f(pb_ostream_t *stream, ...)] takes the stream
    and returns the C result with the stream it leaves.  The recursion of
    [pb_encode] through submessages is on a fuel that bounds their nesting. *)
From stdpp Require Import base list numbers option strings.
From S2P Require Import Prelude Machine PbTypes PbCommon.
Open Scope Z_scope.
Open Scope c_scope.

Definition OStep : Type := M (bool * pb_ostream_t).

(** [if (!c) return false; k] *)
Definition o_then (c : OStep) (k : pb_ostream_t -> OStep) : OStep :=
  let* (ok, s) := c in if ok then k s else ret (false, s).
Notation "'try' s := c 'in' k" := (o_then c (fun s => k))
  (at level 200, s name, c at level 100, k at level 200) : c_scope.

(** * Output streams *)

(** [buf[i]] *)
Definition buf_get (buf : cbuf) (i : nat) : M Z :=
  match buf with
  | BufLocal l => match l !! i with Some b => ret b | None => fault end
  | BufMem p => load8 (p + Z.of_nat i)
  end.

Fixpoint copy_loop (dest : Z) (buf : cbuf) (i n : nat) : M unit :=
  match n with
  | O => ret tt
  | S n' =>
      let* b := buf_get buf i in
      store8 (dest + Z.of_nat i) b ;;
      copy_loop dest buf (S i) n'
  end.

Definition buf_write (stream : pb_ostream_t) (buf : cbuf) (count : Z) : OStep :=
  let dest := o_state stream in
  let stream := OStream (o_callback stream) (dest + count) (o_max_size stream)
                  (o_bytes_written stream) (o_errmsg stream) in
  copy_loop dest buf 0 (Z.to_nat count) ;;
  ret (true, stream).

Definition pb_ostream_from_buffer (buf bufsize : Z) : pb_ostream_t :=
  OStream OcbBufWrite buf bufsize 0 None.

Definition o_add_written (s : pb_ostream_t) (n : Z) : pb_ostream_t :=
  OStream (o_callback s) (o_state s) (o_max_size s) (u64 (o_bytes_written s + n)) (o_errmsg s).

Definition is_sizing (s : pb_ostream_t) : bool :=
  match o_callback s with OcbNull => true | _ => false end.

Section Encoder.
Context `{App}.

(** [stream->callback(stream, buf, count)] *)
Definition o_call (stream : pb_ostream_t) (buf : cbuf) (count : Z) : OStep :=
  match o_callback stream with
  | OcbNull => fault
  | OcbBufWrite => buf_write stream buf count
  | OcbUser f => app_owrite f stream buf count
  end.

Definition pb_write (stream : pb_ostream_t) (buf : cbuf) (count : Z) : OStep :=
  if (0 <? count) && negb (is_sizing stream) then
    if o_max_size stream <? u64 (o_bytes_written stream + count)
    then o_error stream "stream full"
    else
      let* (ok, stream) := o_call stream buf count in
      if ok then ret (true, o_add_written stream count)
      else o_error stream "io error"
  else ret (true, o_add_written stream count).

(** * Encoders of single values *)

(** The while loop of [pb_encode_varint]; [room] is what is left of
    [buffer[10]], and running out of it is a write past the array. *)
Fixpoint varint_loop (room : nat) (value : Z) : option (list Z) :=
  if value =? 0 then Some []
  else match room with
       | O => None
       | S room' =>
           l ← varint_loop room' (value ≫ 7);
           Some (u8 (Z.lor (Z.land value 0x7F) 0x80) :: l)
       end.

(** [buffer[i - 1] &= 0x7F] *)
Definition clear_last (l : list Z) : list Z :=
  alter (fun b => Z.land b 0x7F) (length l - 1)%nat l.

Definition pb_encode_varint (stream : pb_ostream_t) (value : Z) : OStep :=
  if value <=? 0x7F then pb_write stream (BufLocal [u8 value]) 1
  else match varint_loop 10 value with
       | None => fault
       | Some buffer => pb_write stream (BufLocal (clear_last buffer)) (zlen buffer)
       end.

Definition zigzag (value : Z) : Z :=
  if value <? 0 then u64 (Z.lnot (u64 (u64 value ≪ 1))) else u64 (u64 value ≪ 1).

Definition pb_encode_svarint (stream : pb_ostream_t) (value : Z) : OStep :=
  pb_encode_varint stream (zigzag value).

Definition fixed32_bytes (val : Z) : list Z :=
  [u8 (Z.land val 0xFF);
   u8 (Z.land (val ≫ 8) 0xFF);
   u8 (Z.land (val ≫ 16) 0xFF);
   u8 (Z.land (val ≫ 24) 0xFF)].

Definition pb_encode_fixed32 (stream : pb_ostream_t) (value : Z) : OStep :=
  let* val := load_le value 4 in
  pb_write stream (BufLocal (fixed32_bytes val)) 4.

Definition fixed64_bytes (val : Z) : list Z :=
  [u8 (Z.land val 0xFF);
   u8 (Z.land (val ≫ 8) 0xFF);
   u8 (Z.land (val ≫ 16) 0xFF);
   u8 (Z.land (val ≫ 24) 0xFF);
   u8 (Z.land (val ≫ 32) 0xFF);
   u8 (Z.land (val ≫ 40) 0xFF);
   u8 (Z.land (val ≫ 48) 0xFF);
   u8 (Z.land (val ≫ 56) 0xFF)].

Definition pb_encode_fixed64 (stream : pb_ostream_t) (value : Z) : OStep :=
  let* val := load_le value 8 in
  pb_write stream (BufLocal (fixed64_bytes val)) 8.

Definition pb_encode_tag (stream : pb_ostream_t) (wiretype field_number : Z) : OStep :=
  let tag := Z.lor (u64 (field_number ≪ 3)) wiretype in
  pb_encode_varint stream tag.

(** The switch of [pb_encode_tag_for_field]. *)
Definition wiretype_of (ltype : Z) : option Z :=
  if (ltype =? PB_LTYPE_BOOL) || (ltype =? PB_LTYPE_VARINT) || (ltype =? PB_LTYPE_UVARINT)
     || (ltype =? PB_LTYPE_SVARINT) then Some PB_WT_VARINT
  else if ltype =? PB_LTYPE_FIXED32 then Some PB_WT_32BIT
  else if ltype =? PB_LTYPE_FIXED64 then Some PB_WT_64BIT
  else if (ltype =? PB_LTYPE_BYTES) || (ltype =? PB_LTYPE_STRING)
          || (ltype =? PB_LTYPE_SUBMESSAGE) || (ltype =? PB_LTYPE_FIXED_LENGTH_BYTES)
       then Some PB_WT_STRING
  else None.

Definition pb_encode_tag_for_field (stream : pb_ostream_t) (field : pb_field_t) : OStep :=
  match wiretype_of (f_ltype field) with
  | Some wiretype => pb_encode_tag stream wiretype (f_tag field)
  | None => o_error stream "invalid field type"
  end.

Definition pb_encode_string (stream : pb_ostream_t) (buffer : cbuf) (size : Z) : OStep :=
  try stream := pb_encode_varint stream (u64 size) in
  pb_write stream buffer size.

(** [sizeof(bool)] is 1: the loop inspects one byte. *)
Definition safe_read_bool (pSize : Z) : M bool :=
  let* b := load8 pSize in ret (negb (b =? 0)).

Definition pb_enc_bool (stream : pb_ostream_t) (field : pb_field_t) (src : Z) : OStep :=
  let* b := safe_read_bool src in
  pb_encode_varint stream (if b then 1 else 0).

(** The integer object at [src] whose size is [data_size]. *)
Definition load_sint (data_size src : Z) : M (option Z) :=
  if data_size =? 1 then let* v := load_le src 1 in ret (Some (s8 v))
  else if data_size =? 2 then let* v := load_le src 2 in ret (Some (s16 v))
  else if data_size =? 4 then let* v := load_le src 4 in ret (Some (s32 v))
  else if data_size =? 8 then let* v := load_le src 8 in ret (Some (s64 v))
  else ret None.

Definition load_uint (data_size src : Z) : M (option Z) :=
  if data_size =? 1 then let* v := load_le src 1 in ret (Some v)
  else if data_size =? 2 then let* v := load_le src 2 in ret (Some v)
  else if data_size =? 4 then let* v := load_le src 4 in ret (Some v)
  else if data_size =? 8 then let* v := load_le src 8 in ret (Some v)
  else ret None.

Definition pb_enc_varint (stream : pb_ostream_t) (field : pb_field_t) (src : Z) : OStep :=
  let* value := load_sint (f_data_size field) src in
  match value with
  | Some value => pb_encode_varint stream (u64 value)
  | None => o_error stream "invalid data_size"
  end.

Definition pb_enc_uvarint (stream : pb_ostream_t) (field : pb_field_t) (src : Z) : OStep :=
  let* value := load_uint (f_data_size field) src in
  match value with
  | Some value => pb_encode_varint stream value
  | None => o_error stream "invalid data_size"
  end.

Definition pb_enc_svarint (stream : pb_ostream_t) (field : pb_field_t) (src : Z) : OStep :=
  let* value := load_sint (f_data_size field) src in
  match value with
  | Some value => pb_encode_svarint stream value
  | None => o_error stream "invalid data_size"
  end.

Definition pb_enc_fixed64 (stream : pb_ostream_t) (field : pb_field_t) (src : Z) : OStep :=
  pb_encode_fixed64 stream src.

Definition pb_enc_fixed32 (stream : pb_ostream_t) (field : pb_field_t) (src : Z) : OStep :=
  pb_encode_fixed32 stream src.

Definition pb_enc_bytes (stream : pb_ostream_t) (field : pb_field_t) (src : Z) : OStep :=
  if src =? NULL then pb_encode_string stream (BufMem NULL) 0 else
  if f_atype field =? PB_ATYPE_STATIC then
    let* size := load_u32 src in
    if f_data_size field <? PB_BYTES_ARRAY_T_ALLOCSIZE size
    then o_error stream "bytes size exceeded"
    else pb_encode_string stream (BufMem (src + OFFSETOF_BYTES)) size
  else
    let* size := load_u32 src in
    pb_encode_string stream (BufMem (src + OFFSETOF_BYTES)) size.

(** The strnlen loop of [pb_enc_string]; [n] bounds its rounds. *)
Fixpoint strnlen_loop (n : nat) (p size max_size : Z) : M Z :=
  if size <? max_size then
    match n with
    | O => diverge
    | S n' =>
        let* b := load8 p in
        if b =? 0 then ret size else strnlen_loop n' (p + 1) (size + 1) max_size
    end
  else ret size.

(** A string that is not ended by a null byte before memory ends faults, so
    a walk never exceeds the number of mapped bytes. *)
Definition strnlen (p max_size : Z) : M Z := fun m =>
  strnlen_loop (S (size (cells m))) p 0 max_size m.

Definition pb_enc_string (stream : pb_ostream_t) (field : pb_field_t) (src : Z) : OStep :=
  let max_size := if f_atype field =? PB_ATYPE_POINTER then SIZE_MAX else f_data_size field in
  let* size := if src =? NULL then ret 0 else strnlen src max_size in
  pb_encode_string stream (BufMem src) size.

Definition pb_enc_fixed_length_bytes (stream : pb_ostream_t) (field : pb_field_t) (src : Z)
    : OStep :=
  pb_encode_string stream (BufMem src) (f_data_size field).

(** * Fields *)

(** The functions of the recursion through submessages: [pb_encode] and
    [pb_check_proto3_default_value] with less fuel. *)
Record encode_rec := EncodeRec {
  rec_encode : pb_ostream_t -> list pb_field_t -> Z -> OStep;
  rec_check : pb_field_t -> Z -> M bool
}.

Definition submsg_fields_of (field : pb_field_t) : M (list pb_field_t) :=
  match f_ptr field with PtrFields fs => ret fs | _ => fault end.

(** The byte-per-byte comparison at the end of
    [pb_check_proto3_default_value]. *)
Fixpoint all_zero (p : Z) (n : nat) : M bool :=
  match n with
  | O => ret true
  | S n' => let* b := load8 p in if b =? 0 then all_zero (p + 1) n' else ret false
  end.

Definition check_fields (check : pb_field_t -> Z -> M bool) (fields : list pb_field_t) (pData : Z)
    : M bool :=
  let (some, iter) := pb_field_iter_begin fields pData in
  if some then
    let* (all, _) :=
      for_each_field (iter_rounds iter)
        (fun it (_ : unit) => let* d := check (it_field it) (it_pData it) in ret (d, tt)) iter tt in
    ret all
  else ret true.

(** The checks after "Rest is proto3 singular fields". *)
Definition proto3_singular (check : pb_field_t -> Z -> M bool) (field : pb_field_t) (pData : Z)
    : M bool :=
  let ltype := f_ltype field in
  let catch_all := all_zero pData (Z.to_nat (f_data_size field)) in
  if f_atype field =? PB_ATYPE_STATIC then
    if ltype =? PB_LTYPE_BYTES then let* size := load_u32 pData in ret (size =? 0)
    else if ltype =? PB_LTYPE_STRING then let* c := load8 pData in ret (c =? 0)
    else if ltype =? PB_LTYPE_FIXED_LENGTH_BYTES then ret (f_data_size field =? 0)
    else if ltype =? PB_LTYPE_SUBMESSAGE then
      let* fields := submsg_fields_of field in check_fields check fields pData
    else catch_all
  else catch_all.

Fixpoint pb_check_proto3_default_value (fuel : nat) (field : pb_field_t) (pData : Z) : M bool :=
  match fuel with
  | O => diverge
  | S n =>
      let pSize := pData + f_size_offset field in
      let singular := proto3_singular (pb_check_proto3_default_value n) field pData in
      if f_htype field =? PB_HTYPE_REQUIRED then ret false
      else if f_htype field =? PB_HTYPE_REPEATED then
        if negb (f_size_offset field =? 0) then let* c := load_u32 pSize in ret (c =? 0)
        else if f_atype field =? PB_ATYPE_STATIC then ret false
        else singular
      else if f_htype field =? PB_HTYPE_ONEOF then let* c := load_u32 pSize in ret (c =? 0)
      else if (f_htype field =? PB_HTYPE_OPTIONAL) && negb (f_size_offset field =? 0)
           then let* b := safe_read_bool pSize in ret (negb b)
      else singular
  end.

Section Submessages.
Variable rec : encode_rec.

Definition pb_encode_submessage (stream : pb_ostream_t) (fields : list pb_field_t)
    (src_struct : Z) : OStep :=
  let* (ok, substream) := rec_encode rec PB_OSTREAM_SIZING fields src_struct in
  if negb ok then ret (false, o_set_errmsg stream (o_errmsg substream)) else
  let size := o_bytes_written substream in
  try stream := pb_encode_varint stream (u64 size) in
  if is_sizing stream then pb_write stream (BufMem NULL) size else
  if o_max_size stream <? u64 (o_bytes_written stream + size)
  then o_error stream "stream full" else
  let substream := OStream (o_callback stream) (o_state stream) size 0 None in
  let* (status, substream) := rec_encode rec substream fields src_struct in
  let stream := OStream (o_callback stream) (o_state substream) (o_max_size stream)
                  (u64 (o_bytes_written stream + o_bytes_written substream))
                  (o_errmsg substream) in
  if negb (o_bytes_written substream =? size)
  then o_error stream "submsg size changed" else
  ret (status, stream).

Definition pb_enc_submessage (stream : pb_ostream_t) (field : pb_field_t) (src : Z) : OStep :=
  match f_ptr field with
  | PtrNull => o_error stream "invalid field descriptor"
  | _ => let* fields := submsg_fields_of field in pb_encode_submessage stream fields src
  end.

(** [PB_ENCODERS[PB_LTYPE(type)]]; entry 9 is null and the table has
    [PB_LTYPES_COUNT] entries. *)
Definition PB_ENCODERS (ltype : Z) : pb_ostream_t -> pb_field_t -> Z -> OStep :=
  if ltype =? PB_LTYPE_BOOL then pb_enc_bool
  else if ltype =? PB_LTYPE_VARINT then pb_enc_varint
  else if ltype =? PB_LTYPE_UVARINT then pb_enc_uvarint
  else if ltype =? PB_LTYPE_SVARINT then pb_enc_svarint
  else if ltype =? PB_LTYPE_FIXED32 then pb_enc_fixed32
  else if ltype =? PB_LTYPE_FIXED64 then pb_enc_fixed64
  else if ltype =? PB_LTYPE_BYTES then pb_enc_bytes
  else if ltype =? PB_LTYPE_STRING then pb_enc_string
  else if ltype =? PB_LTYPE_SUBMESSAGE then pb_enc_submessage
  else if ltype =? PB_LTYPE_FIXED_LENGTH_BYTES then pb_enc_fixed_length_bytes
  else fun _ _ _ => fault.

(** The for loops of [encode_array]: [count] times [body], advancing by
    [data_size]. *)
Fixpoint array_loop (count : nat) (data_size : Z) (body : pb_ostream_t -> Z -> OStep)
    (stream : pb_ostream_t) (p : Z) : OStep :=
  match count with
  | O => ret (true, stream)
  | S n => try stream := body stream p in array_loop n data_size body stream (p + data_size)
  end.

Definition encode_array (stream : pb_ostream_t) (field : pb_field_t) (pData count : Z)
    (func : pb_ostream_t -> pb_field_t -> Z -> OStep) : OStep :=
  let ltype := f_ltype field in
  let items := array_loop (Z.to_nat count) (f_data_size field) in
  if count =? 0 then ret (true, stream) else
  if negb (f_atype field =? PB_ATYPE_POINTER) && (f_array_size field <? count)
  then o_error stream "array max size exceeded" else
  if ltype <=? PB_LTYPE_LAST_PACKABLE then
    try stream := pb_encode_tag stream PB_WT_STRING (f_tag field) in
    let* (ok, size) :=
      if ltype =? PB_LTYPE_FIXED32 then ret (true, u64 (4 * count))
      else if ltype =? PB_LTYPE_FIXED64 then ret (true, u64 (8 * count))
      else
        let* (ok, sizestream) := items (fun s p => func s field p) PB_OSTREAM_SIZING pData in
        ret (ok, o_bytes_written sizestream) in
    if negb ok then ret (false, stream) else
    try stream := pb_encode_varint stream size in
    if is_sizing stream then pb_write stream (BufMem NULL) size else
    items (fun s p => func s field p) stream pData
  else
    items (fun s p =>
      try s := pb_encode_tag_for_field s field in
      if (f_atype field =? PB_ATYPE_POINTER)
         && ((ltype =? PB_LTYPE_STRING) || (ltype =? PB_LTYPE_BYTES))
      then let* q := load_ptr p in func s field q
      else func s field p) stream pData.

(** Where [encode_basic_field] finds the has-flag or count: in the
    structure, or in its local [implicit_has]. *)
Definition encode_basic_field (stream : pb_ostream_t) (field : pb_field_t) (pData : Z) : OStep :=
  let func := PB_ENCODERS (f_ltype field) in
  let pSize := if f_size_offset field =? 0 then None else Some (pData + f_size_offset field) in
  let* implicit_has :=
    if negb (f_size_offset field =? 0) then ret false
    else if f_htype field =? PB_HTYPE_OPTIONAL then
      let* d := rec_check rec field pData in ret (negb d)
    else ret true in
  let* (pData, implicit_has) :=
    if f_atype field =? PB_ATYPE_POINTER then
      let* p := load_ptr pData in ret (p, negb (p =? NULL))
    else ret (pData, implicit_has) in
  if f_htype field =? PB_HTYPE_REQUIRED then
    if pData =? NULL then o_error stream "missing required field" else
    try stream := pb_encode_tag_for_field stream field in
    func stream field pData
  else if f_htype field =? PB_HTYPE_OPTIONAL then
    let* has := match pSize with Some p => safe_read_bool p | None => ret implicit_has end in
    if has : bool then
      try stream := pb_encode_tag_for_field stream field in
      func stream field pData
    else ret (true, stream)
  else if f_htype field =? PB_HTYPE_REPEATED then
    let* count := match pSize with Some p => load_u32 p | None => ret (f_array_size field) end in
    encode_array stream field pData count func
  else if f_htype field =? PB_HTYPE_ONEOF then
    let* which := match pSize with Some p => load_u32 p | None => fault end in
    if which =? f_tag field then
      try stream := pb_encode_tag_for_field stream field in
      func stream field pData
    else ret (true, stream)
  else o_error stream "invalid field type".

Definition encode_callback_field (stream : pb_ostream_t) (field : pb_field_t) (pData : Z)
    : OStep :=
  let arg := pData + callback_arg_off in
  let* f := load_ptr (pData + callback_funcs_off) in
  if f =? NULL then ret (true, stream) else
  let* (ok, stream) := app_encode f stream field arg in
  if ok then ret (true, stream) else o_error stream "callback error".

Definition encode_field (stream : pb_ostream_t) (field : pb_field_t) (pData : Z) : OStep :=
  if (f_atype field =? PB_ATYPE_STATIC) || (f_atype field =? PB_ATYPE_POINTER)
  then encode_basic_field stream field pData
  else if f_atype field =? PB_ATYPE_CALLBACK then encode_callback_field stream field pData
  else o_error stream "invalid field type".

Definition default_extension_encoder (stream : pb_ostream_t) (extension : Z) : OStep :=
  let* t := load_ext_type extension in
  let field := ext_arg t in
  if f_atype field =? PB_ATYPE_POINTER
  then encode_field stream field (extension + ext_dest_off)
  else let* dest := load_ptr (extension + ext_dest_off) in encode_field stream field dest.

Fixpoint extension_loop (n : nat) (stream : pb_ostream_t) (extension : Z) : OStep :=
  if extension =? NULL then ret (true, stream) else
  match n with
  | O => diverge
  | S n' =>
      let* t := load_ext_type extension in
      try stream := match ext_encode t with
                    | Some f => f stream extension
                    | None => default_extension_encoder stream extension
                    end in
      let* next := load_ptr (extension + ext_next_off) in
      extension_loop n' stream next
  end.

(** [fuel] bounds the length of the extension list. *)
Definition encode_extension_field (fuel : nat) (stream : pb_ostream_t) (field : pb_field_t)
    (pData : Z) : OStep :=
  let* extension := load_ptr pData in
  extension_loop fuel stream extension.

(** The body of the loop of [pb_encode]. *)
Definition encode_one (fuel : nat) (iter : pb_field_iter_t) (stream : pb_ostream_t) : OStep :=
  if f_ltype (it_field iter) =? PB_LTYPE_EXTENSION
  then encode_extension_field fuel stream (it_field iter) (it_pData iter)
  else encode_field stream (it_field iter) (it_pData iter).
End Submessages.

Fixpoint pb_encode (fuel : nat) (stream : pb_ostream_t) (fields : list pb_field_t)
    (src_struct : Z) : OStep :=
  match fuel with
  | O => diverge
  | S n =>
      let rec := EncodeRec (pb_encode n) (pb_check_proto3_default_value n) in
      let (some, iter) := pb_field_iter_begin fields src_struct in
      if some then for_each_field (iter_rounds iter) (encode_one rec n) iter stream
      else ret (true, stream)
  end.

Definition encode_rec_at (fuel : nat) : encode_rec :=
  EncodeRec (pb_encode fuel) (pb_check_proto3_default_value fuel).

(** * Entry points *)
Definition pb_encode_delimited (fuel : nat) (stream : pb_ostream_t) (fields : list pb_field_t)
    (src_struct : Z) : OStep :=
  pb_encode_submessage (encode_rec_at fuel) stream fields src_struct.

Definition pb_encode_nullterminated (fuel : nat) (stream : pb_ostream_t)
    (fields : list pb_field_t) (src_struct : Z) : OStep :=
  try stream := pb_encode fuel stream fields src_struct in
  pb_write stream (BufLocal [0]) 1.

(** The size is stored through the pointer only on success. *)
Definition pb_get_encoded_size (fuel : nat) (fields : list pb_field_t) (src_struct : Z)
    : M (option Z) :=
  let* (ok, stream) := pb_encode fuel PB_OSTREAM_SIZING fields src_struct in
  ret (if ok then Some (o_bytes_written stream) else None).
End Encoder.
