(* ===== verification/PbDecode.v ===== *)
(** The decoder, [pb_decode.c]: input streams, the decoders of single values,
    [pb_decode] and [pb_release].

    A function of type [bool f(pb_istream_t *stream, ...)] takes the stream
    and returns the C result with the stream it leaves; an out-parameter that
    is set exactly on success is returned in an option.  The recursion through
    submessages is on a fuel that bounds their nesting. *)
From stdpp Require Import base list numbers option strings.
From S2P Require Import Prelude Machine PbTypes PbCommon.
Open Scope Z_scope.
Open Scope c_scope.

Definition IStep : Type := M (bool * pb_istream_t).

(** [if (!c) return false; k] *)
Definition i_then (c : IStep) (k : pb_istream_t -> IStep) : IStep :=
  let* (ok, s) := c in if ok then k s else ret (false, s).
Notation "'try_' s := c 'in' k" := (i_then c (fun s => k))
  (at level 200, s name, c at level 100, k at level 200) : c_scope.

(** * Input streams *)
Definition i_set_state (s : pb_istream_t) (p : Z) : pb_istream_t :=
  IStream (i_callback s) p (i_bytes_left s) (i_errmsg s).
Definition i_set_left (s : pb_istream_t) (n : Z) : pb_istream_t :=
  IStream (i_callback s) (i_state s) n (i_errmsg s).

(** [for (i = 0; i < count; i++) buf[i] = source[i];] into memory. *)
Fixpoint read_loop (dest source : Z) (n : nat) : M unit :=
  match n with
  | O => ret tt
  | S n' =>
      let* b := load8 source in
      store8 dest b ;;
      read_loop (dest + 1) (source + 1) n'
  end.

(** The third component is the content of a local destination. *)
Definition buf_read (stream : pb_istream_t) (buf : cdst) (count : Z)
    : M (bool * pb_istream_t * list Z) :=
  let source := i_state stream in
  let stream := i_set_state stream (source + count) in
  match buf with
  | DstLocal => let* l := load_bytes source (Z.to_nat count) in ret (true, stream, l)
  | DstMem p =>
      (if p =? NULL then ret tt else read_loop p source (Z.to_nat count)) ;;
      ret (true, stream, [])
  end.

Definition pb_istream_from_buffer (buf bufsize : Z) : pb_istream_t :=
  IStream IcbBufRead buf bufsize None.

Definition is_buf_read (s : pb_istream_t) : bool :=
  match i_callback s with IcbBufRead => true | _ => false end.
Definition is_null_dst (d : cdst) : bool :=
  match d with DstMem p => p =? NULL | DstLocal => false end.

Section Decoder.
Context `{App}.

(** [stream->callback(stream, buf, count)] *)
Definition i_call (stream : pb_istream_t) (buf : cdst) (count : Z)
    : M (bool * pb_istream_t * list Z) :=
  match i_callback stream with
  | IcbBufRead => buf_read stream buf count
  | IcbUser f => app_iread f stream buf count
  end.

(** The part of [pb_read] after the branch that skips input. *)
Definition pb_read_buf (stream : pb_istream_t) (buf : cdst) (count : Z)
    : M (bool * pb_istream_t * list Z) :=
  if i_bytes_left stream <? count then ret (false, i_seterr stream "end-of-stream", []) else
  let* (ok, stream, l) := i_call stream buf count in
  if ok : bool then ret (true, i_set_left stream (u64 (i_bytes_left stream - count)), l)
  else ret (false, i_seterr stream "io error", []).

(** Skipping input of a custom stream, 16 bytes at a time into a local. *)
Fixpoint skip_loop (n : nat) (stream : pb_istream_t) (count : Z)
    : M (bool * pb_istream_t * list Z) :=
  if 16 <? count then
    match n with
    | O => diverge
    | S n' =>
        let* (ok, stream, _) := pb_read_buf stream DstLocal 16 in
        if ok : bool then skip_loop n' stream (count - 16) else ret (false, stream, [])
    end
  else
    let* (ok, stream, _) := pb_read_buf stream DstLocal count in ret (ok, stream, []).

Definition pb_read (stream : pb_istream_t) (buf : cdst) (count : Z)
    : M (bool * pb_istream_t * list Z) :=
  if count =? 0 then ret (true, stream, [])
  else if is_null_dst buf && negb (is_buf_read stream)
       then skip_loop (Z.to_nat (count / 16)) stream count
  else pb_read_buf stream buf count.

(** [pb_read(stream, NULL, count)] *)
Definition pb_skip (stream : pb_istream_t) (count : Z) : IStep :=
  let* (ok, stream, _) := pb_read stream (DstMem NULL) count in ret (ok, stream).

Definition pb_readbyte (stream : pb_istream_t) : M (option Z * pb_istream_t) :=
  if i_bytes_left stream =? 0 then ret (None, i_seterr stream "end-of-stream") else
  let* (ok, stream, l) := i_call stream DstLocal 1 in
  match ok, l with
  | true, byte :: _ => ret (Some byte, i_set_left stream (u64 (i_bytes_left stream - 1)))
  | true, [] => fault
  | false, _ => ret (None, i_seterr stream "io error")
  end.

(** * Varints and tags *)

(** [uint_fast8_t] is an 8-bit type. *)
Definition fast8 (z : Z) : Z := u8 z.

(** The do-while loop of [pb_decode_varint32_eof]: the result, the final
    bit position and the last byte, or a failure. *)
Fixpoint varint32_loop (n : nat) (stream : pb_istream_t) (bitpos result : Z)
    : M (option (Z * Z * Z) * pb_istream_t) :=
  match n with
  | O => diverge
  | S n' =>
      let* (r, stream) := pb_readbyte stream in
      match r with
      | None => ret (None, stream)
      | Some byte =>
          let sign_extension := if bitpos <? 63 then 0xFF else 0x01 in
          if (32 <=? bitpos)
             && (negb (Z.land byte 0x7F =? 0)
                 && ((result ≫ 31 =? 0) || negb (byte =? sign_extension)))
          then ret (None, i_seterr stream "varint overflow")
          else
            let result := if 32 <=? bitpos then result
                          else Z.lor result (u32 (Z.land byte 0x7F ≪ bitpos)) in
            let bitpos := fast8 (bitpos + 7) in
            if Z.land byte 0x80 =? 0 then ret (Some (result, bitpos, byte), stream)
            else varint32_loop n' stream bitpos result
      end
  end.

(** Each round reads a byte of the stream. *)
Definition stream_rounds (s : pb_istream_t) : nat := S (Z.to_nat (i_bytes_left s)).

(** The third component tells whether [*eof] was set. *)
Definition pb_decode_varint32_eof (stream : pb_istream_t)
    : M (option Z * pb_istream_t * bool) :=
  let* (r, stream) := pb_readbyte stream in
  match r with
  | None => ret (None, stream, i_bytes_left stream =? 0)
  | Some byte =>
      if Z.land byte 0x80 =? 0 then ret (Some byte, stream, false)
      else
        let* (r, stream) := varint32_loop (stream_rounds stream) stream 7 (Z.land byte 0x7F) in
        match r with
        | None => ret (None, stream, false)
        | Some (result, bitpos, byte) =>
            if (bitpos =? 35) && negb (Z.land byte 0x70 =? 0)
            then ret (None, i_seterr stream "varint overflow", false)
            else ret (Some result, stream, false)
        end
  end.

Definition pb_decode_varint32 (stream : pb_istream_t) : M (option Z * pb_istream_t) :=
  let* (r, stream, _) := pb_decode_varint32_eof stream in ret (r, stream).

(** The do-while loop of [pb_decode_varint]; it stops at bit position 70. *)
Fixpoint varint_dec_loop (n : nat) (stream : pb_istream_t) (bitpos result : Z)
    : M (option Z * pb_istream_t) :=
  match n with
  | O => diverge
  | S n' =>
      if 64 <=? bitpos then ret (None, i_seterr stream "varint overflow") else
      let* (r, stream) := pb_readbyte stream in
      match r with
      | None => ret (None, stream)
      | Some byte =>
          let result := Z.lor result (u64 (Z.land byte 0x7F ≪ bitpos)) in
          let bitpos := fast8 (bitpos + 7) in
          if Z.land byte 0x80 =? 0 then ret (Some result, stream)
          else varint_dec_loop n' stream bitpos result
      end
  end.

Definition pb_decode_varint (stream : pb_istream_t) : M (option Z * pb_istream_t) :=
  varint_dec_loop 11 stream 0 0.

Fixpoint skip_varint_loop (n : nat) (stream : pb_istream_t) : IStep :=
  match n with
  | O => diverge
  | S n' =>
      let* (ok, stream, l) := pb_read stream DstLocal 1 in
      match ok, l with
      | true, byte :: _ =>
          if Z.land byte 0x80 =? 0 then ret (true, stream) else skip_varint_loop n' stream
      | true, [] => fault
      | false, _ => ret (false, stream)
      end
  end.

Definition pb_skip_varint (stream : pb_istream_t) : IStep :=
  skip_varint_loop (stream_rounds stream) stream.

Definition pb_skip_string (stream : pb_istream_t) : IStep :=
  let* (r, stream) := pb_decode_varint32 stream in
  match r with
  | None => ret (false, stream)
  | Some length => pb_skip stream length
  end.

(** The out-parameters of [pb_decode_tag] are set on every path. *)
Record tag_result := TagResult {
  tr_ok : bool; tr_wire_type : Z; tr_tag : Z; tr_eof : bool
}.

Definition pb_decode_tag (stream : pb_istream_t) : M (tag_result * pb_istream_t) :=
  let* (r, stream, eof) := pb_decode_varint32_eof stream in
  match r with
  | None => ret (TagResult false 0 0 eof, stream)
  | Some temp =>
      if temp =? 0 then ret (TagResult false 0 0 true, stream)
      else ret (TagResult true (Z.land temp 7) (temp ≫ 3) false, stream)
  end.

Definition pb_skip_field (stream : pb_istream_t) (wire_type : Z) : IStep :=
  if wire_type =? PB_WT_VARINT then pb_skip_varint stream
  else if wire_type =? PB_WT_64BIT then pb_skip stream 8
  else if wire_type =? PB_WT_STRING then pb_skip_string stream
  else if wire_type =? PB_WT_32BIT then pb_skip stream 4
  else i_error stream "invalid wire_type".

(** The varint case of [read_raw_value]: at most [n] bytes are read. *)
Fixpoint raw_varint_loop (n : nat) (stream : pb_istream_t) : M (bool * pb_istream_t * list Z) :=
  match n with
  | O => ret (false, stream, [])
  | S n' =>
      let* (ok, stream, l) := pb_read stream DstLocal 1 in
      match ok, l with
      | true, byte :: _ =>
          if Z.land byte 0x80 =? 0 then ret (true, stream, [byte])
          else let* (ok, stream, l') := raw_varint_loop n' stream in ret (ok, stream, byte :: l')
      | true, [] => fault
      | false, _ => ret (false, stream, [])
      end
  end.

(** The bytes read stand for [buf] and [*size]. *)
Definition read_raw_value (stream : pb_istream_t) (wire_type : Z) (max_size : nat)
    : M (bool * pb_istream_t * list Z) :=
  if wire_type =? PB_WT_VARINT then raw_varint_loop max_size stream
  else if wire_type =? PB_WT_64BIT then pb_read stream DstLocal 8
  else if wire_type =? PB_WT_32BIT then pb_read stream DstLocal 4
  else ret (false, i_seterr stream "invalid wire_type", []).

(** The substream, and the parent stream. *)
Definition pb_make_string_substream (stream : pb_istream_t)
    : M (option pb_istream_t * pb_istream_t) :=
  let* (r, stream) := pb_decode_varint32 stream in
  match r with
  | None => ret (None, stream)
  | Some size =>
      let substream := stream in
      if i_bytes_left substream <? size
      then ret (None, i_seterr stream "parent stream too short")
      else ret (Some (i_set_left substream size),
                i_set_left stream (u64 (i_bytes_left stream - size)))
  end.

Definition pb_close_string_substream (stream substream : pb_istream_t) : IStep :=
  let* (ok, substream) :=
    if negb (i_bytes_left substream =? 0) then pb_skip substream (i_bytes_left substream)
    else ret (true, substream) in
  if ok : bool
  then ret (true, i_set_errmsg (i_set_state stream (i_state substream)) (i_errmsg substream))
  else ret (false, stream).

(** * Decoders of single values *)
Definition pb_dec_bool (stream : pb_istream_t) (field : pb_field_t) (dest : Z) : IStep :=
  let* (r, stream) := pb_decode_varint32 stream in
  match r with
  | None => ret (false, stream)
  | Some value => store8 dest (if value =? 0 then 0 else 1) ;; ret (true, stream)
  end.

Definition pb_decode_bool (stream : pb_istream_t) (dest : Z) : IStep :=
  pb_dec_bool stream PB_LAST_FIELD dest.

Definition unzigzag (value : Z) : Z :=
  if Z.land value 1 =? 0 then s64 (value ≫ 1) else s64 (u64 (Z.lnot (value ≫ 1))).

Definition pb_decode_svarint (stream : pb_istream_t) : M (option Z * pb_istream_t) :=
  let* (r, stream) := pb_decode_varint stream in
  ret (unzigzag <$> r, stream).

(** [((uint32_t)bytes[0] << 0) | ((uint32_t)bytes[1] << 8) | ...] *)
Fixpoint or_bytes (shift : Z) (bytes : list Z) : Z :=
  match bytes with
  | [] => 0
  | b :: bytes' => Z.lor (b ≪ shift) (or_bytes (shift + 8) bytes')
  end.

Definition pb_decode_fixed32 (stream : pb_istream_t) (dest : Z) : IStep :=
  let* (ok, stream, bytes) := pb_read stream DstLocal 4 in
  if ok : bool then store_le dest 4 (u32 (or_bytes 0 bytes)) ;; ret (true, stream)
  else ret (false, stream).

Definition pb_decode_fixed64 (stream : pb_istream_t) (dest : Z) : IStep :=
  let* (ok, stream, bytes) := pb_read stream DstLocal 8 in
  if ok : bool then store_le dest 8 (u64 (or_bytes 0 bytes)) ;; ret (true, stream)
  else ret (false, stream).

(** [clamped = *(T * )dest = (T)value] for the signed or unsigned type [T] of
    [data_size] bytes; [None] for another size. *)
Definition store_sint (data_size dest value : Z) : M (option Z) :=
  if data_size =? 8 then store_le dest 8 (u64 value) ;; ret (Some (s64 value))
  else if data_size =? 4 then store_le dest 4 (u32 value) ;; ret (Some (s32 value))
  else if data_size =? 2 then store_le dest 2 (u16 value) ;; ret (Some (s16 value))
  else if data_size =? 1 then store_le dest 1 (u8 value) ;; ret (Some (s8 value))
  else ret None.

Definition store_uint (data_size dest value : Z) : M (option Z) :=
  if data_size =? 8 then store_le dest 8 (u64 value) ;; ret (Some (u64 value))
  else if data_size =? 4 then store_le dest 4 (u32 value) ;; ret (Some (u32 value))
  else if data_size =? 2 then store_le dest 2 (u16 value) ;; ret (Some (u16 value))
  else if data_size =? 1 then store_le dest 1 (u8 value) ;; ret (Some (u8 value))
  else ret None.

(** The comparison after the store. *)
Definition check_clamped (stream : pb_istream_t) (clamped : option Z) (value : Z) : IStep :=
  match clamped with
  | None => i_error stream "invalid data_size"
  | Some c => if c =? value then ret (true, stream) else i_error stream "integer too large"
  end.

Definition pb_dec_varint (stream : pb_istream_t) (field : pb_field_t) (dest : Z) : IStep :=
  let* (r, stream) := pb_decode_varint stream in
  match r with
  | None => ret (false, stream)
  | Some value =>
      let svalue := if f_data_size field =? 8 then s64 value else s32 value in
      let* clamped := store_sint (f_data_size field) dest svalue in
      check_clamped stream clamped svalue
  end.

Definition pb_dec_uvarint (stream : pb_istream_t) (field : pb_field_t) (dest : Z) : IStep :=
  let* (r, stream) := pb_decode_varint stream in
  match r with
  | None => ret (false, stream)
  | Some value =>
      let* clamped := store_uint (f_data_size field) dest value in
      check_clamped stream clamped value
  end.

Definition pb_dec_svarint (stream : pb_istream_t) (field : pb_field_t) (dest : Z) : IStep :=
  let* (r, stream) := pb_decode_svarint stream in
  match r with
  | None => ret (false, stream)
  | Some value =>
      let* clamped := store_sint (f_data_size field) dest value in
      check_clamped stream clamped value
  end.

Definition pb_dec_fixed32 (stream : pb_istream_t) (field : pb_field_t) (dest : Z) : IStep :=
  pb_decode_fixed32 stream dest.

Definition pb_dec_fixed64 (stream : pb_istream_t) (field : pb_field_t) (dest : Z) : IStep :=
  pb_decode_fixed64 stream dest.

(** [pb_read] into the message. *)
Definition pb_read_mem (stream : pb_istream_t) (p count : Z) : IStep :=
  let* (ok, stream, _) := pb_read stream (DstMem p) count in ret (ok, stream).

(** * Dynamic allocation *)

(** [(size_t)1 << (sizeof(size_t) * 4)] *)
Definition check_limit : Z := 2 ^ 32.

Definition allocate_field (stream : pb_istream_t) (pData data_size array_size : Z) : IStep :=
  let* ptr := load_ptr pData in
  if (data_size =? 0) || (array_size =? 0) then i_error stream "invalid size" else
  if ((check_limit <=? data_size) || (check_limit <=? array_size))
     && (SIZE_MAX / array_size <? data_size)
  then i_error stream "size too large" else
  let* ptr := pb_realloc ptr (u64 (array_size * data_size)) in
  if ptr =? NULL then i_error stream "realloc failed" else
  store_ptr pData ptr ;;
  ret (true, stream).

Definition pb_dec_bytes (stream : pb_istream_t) (field : pb_field_t) (dest : Z) : IStep :=
  let* (r, stream) := pb_decode_varint32 stream in
  match r with
  | None => ret (false, stream)
  | Some size =>
      if PB_SIZE_MAX <? size then i_error stream "bytes overflow" else
      let alloc_size := PB_BYTES_ARRAY_T_ALLOCSIZE size in
      if alloc_size <? size then i_error stream "size too large" else
      if f_atype field =? PB_ATYPE_POINTER then
        try_ stream := allocate_field stream dest alloc_size 1 in
        let* bdest := load_ptr dest in
        store_u32 bdest size ;;
        pb_read_mem stream (bdest + OFFSETOF_BYTES) size
      else if f_data_size field <? alloc_size then i_error stream "bytes overflow"
      else
        store_u32 dest size ;;
        pb_read_mem stream (dest + OFFSETOF_BYTES) size
  end.

Definition pb_dec_string (stream : pb_istream_t) (field : pb_field_t) (dest : Z) : IStep :=
  let* (r, stream) := pb_decode_varint32 stream in
  match r with
  | None => ret (false, stream)
  | Some size =>
      let alloc_size := u32 (size + 1) in
      if alloc_size <? size then i_error stream "size too large" else
      let finish (stream : pb_istream_t) (dest : Z) : IStep :=
        let* (status, stream) := pb_read_mem stream dest size in
        store8 (dest + size) 0 ;;
        ret (status, stream) in
      if f_atype field =? PB_ATYPE_POINTER then
        try_ stream := allocate_field stream dest alloc_size 1 in
        let* dest := load_ptr dest in
        finish stream dest
      else if f_data_size field <? alloc_size then i_error stream "string overflow"
      else finish stream dest
  end.

Definition pb_dec_fixed_length_bytes (stream : pb_istream_t) (field : pb_field_t) (dest : Z)
    : IStep :=
  let* (r, stream) := pb_decode_varint32 stream in
  match r with
  | None => ret (false, stream)
  | Some size =>
      if PB_SIZE_MAX <? size then i_error stream "bytes overflow" else
      if size =? 0 then memset dest 0 (Z.to_nat (f_data_size field)) ;; ret (true, stream) else
      if negb (size =? f_data_size field)
      then i_error stream "incorrect fixed length bytes size"
      else pb_read_mem stream dest (f_data_size field)
  end.

(** * Default values *)
Definition submsg_of (field : pb_field_t) : M (list pb_field_t) :=
  match f_ptr field with PtrFields fs => ret fs | _ => fault end.

(** The loop over the fields of a message that [pb_message_set_to_defaults]
    and [pb_release] share. *)
Definition over_fields (set_field : pb_field_iter_t -> M unit)
    (fields : list pb_field_t) (dest_struct : Z) : M unit :=
  let (some, iter) := pb_field_iter_begin fields dest_struct in
  if some then
    let* _ := for_each_field (iter_rounds iter)
                (fun it (_ : unit) => set_field it ;; ret (true, tt)) iter tt in
    ret tt
  else ret tt.

Definition iter_from_extension (extension : Z) : M pb_field_iter_t :=
  let* t := load_ext_type extension in
  let field := ext_arg t in
  let* dest := load_ptr (extension + ext_dest_off) in
  let iter := (pb_field_iter_begin [field] dest).2 in
  ret (Iter (it_start iter) (it_pos iter) (it_required_field_index iter) (it_dest_struct iter)
         (if f_atype field =? PB_ATYPE_POINTER then extension + ext_dest_off else dest)
         (AtAddr (extension + ext_found_off))).

(** Store a count through [pSize], which is then never the local of
    [pb_decode_noinit]. *)
Definition store_count (p : size_ptr) (v : Z) : M unit :=
  match p with AtAddr a => store_u32 a v | FixedCount => fault end.
Definition load_count (p : size_ptr) : M Z :=
  match p with AtAddr a => load_u32 a | FixedCount => fault end.

(** Run [f] on every record of an extension list of at most [n] records. *)
Fixpoint for_each_extension (n : nat) (f : Z -> M unit) (ext : Z) : M unit :=
  if ext =? NULL then ret tt else
  match n with
  | O => diverge
  | S n' =>
      f ext ;;
      let* next := load_ptr (ext + ext_next_off) in
      for_each_extension n' f next
  end.

Fixpoint pb_field_set_to_default (fuel : nat) (iter : pb_field_iter_t) : M unit :=
  match fuel with
  | O => diverge
  | S n =>
      let f := it_field iter in
      if f_ltype f =? PB_LTYPE_EXTENSION then
        let* ext := load_ptr (it_pData iter) in
        for_each_extension n (fun ext =>
          store8 (ext + ext_found_off) 0 ;;
          let* ext_iter := iter_from_extension ext in
          pb_field_set_to_default n ext_iter) ext
      else if f_atype f =? PB_ATYPE_STATIC then
        let* init_data :=
          if (f_htype f =? PB_HTYPE_OPTIONAL) && negb (size_ptr_is (it_pSize iter) (it_pData iter))
          then match it_pSize iter with
               | AtAddr a => store8 a 0 ;; ret true
               | FixedCount => fault
               end
          else if (f_htype f =? PB_HTYPE_REPEATED) || (f_htype f =? PB_HTYPE_ONEOF)
          then store_count (it_pSize iter) 0 ;; ret false
          else ret true in
        if init_data : bool then
          if f_ltype f =? PB_LTYPE_SUBMESSAGE then
            let* fields := submsg_of f in
            over_fields (pb_field_set_to_default n) fields (it_pData iter)
          else
            match f_ptr f with
            | PtrData bs => memcpy_const (it_pData iter) bs (Z.to_nat (f_data_size f))
            | PtrNull => memset (it_pData iter) 0 (Z.to_nat (f_data_size f))
            | PtrFields _ => fault
            end
        else ret tt
      else if f_atype f =? PB_ATYPE_POINTER then
        store_ptr (it_pData iter) NULL ;;
        if (f_htype f =? PB_HTYPE_REPEATED) || (f_htype f =? PB_HTYPE_ONEOF)
        then store_count (it_pSize iter) 0
        else ret tt
      else ret tt
  end.

Definition pb_message_set_to_defaults (fuel : nat) : list pb_field_t -> Z -> M unit :=
  over_fields (pb_field_set_to_default fuel).

(** * Releasing messages *)

(** [while (count--) { body(pItem); pItem += data_size; }] *)
Fixpoint item_loop (count : nat) (data_size : Z) (body : Z -> M unit) (p : Z) : M unit :=
  match count with
  | O => ret tt
  | S n => body p ;; item_loop n data_size body (p + data_size)
  end.

(** [pb_release] over a [pb_release_single_field]. *)
Definition message_release (release_field : pb_field_iter_t -> M unit)
    (fields : list pb_field_t) (dest_struct : Z) : M unit :=
  if dest_struct =? NULL then ret tt
  else over_fields release_field fields dest_struct.

Fixpoint pb_release_single_field (fuel : nat) (iter : pb_field_iter_t) : M unit :=
  match fuel with
  | O => diverge
  | S n =>
      let f := it_field iter in
      let* current :=
        if f_htype f =? PB_HTYPE_ONEOF
        then let* which := load_count (it_pSize iter) in ret (which =? f_tag f)
        else ret true in
      if negb current then ret tt else
      (if f_ltype f =? PB_LTYPE_EXTENSION then
         let* ext := load_ptr (it_pData iter) in
         for_each_extension n (fun ext =>
           let* ext_iter := iter_from_extension ext in
           pb_release_single_field n ext_iter) ext
       else if (f_ltype f =? PB_LTYPE_SUBMESSAGE) && negb (f_atype f =? PB_ATYPE_CALLBACK) then
         let* pItem := if f_atype f =? PB_ATYPE_POINTER then load_ptr (it_pData iter)
                       else ret (it_pData iter) in
         let* count :=
           if f_htype f =? PB_HTYPE_REPEATED then
             let* count :=
               if (f_atype f =? PB_ATYPE_STATIC) && size_ptr_is (it_pSize iter) (it_pData iter)
               then ret (f_array_size f) else load_count (it_pSize iter) in
             ret (if (f_atype f =? PB_ATYPE_STATIC) && (f_array_size f <? count)
                  then f_array_size f else count)
           else ret 1 in
         if pItem =? NULL then ret tt
         else item_loop (Z.to_nat count) (f_data_size f) (fun p =>
                let* fields := submsg_of f in
                message_release (pb_release_single_field n) fields p) pItem
       else ret tt) ;;
      if f_atype f =? PB_ATYPE_POINTER then
        (if (f_htype f =? PB_HTYPE_REPEATED)
            && ((f_ltype f =? PB_LTYPE_STRING) || (f_ltype f =? PB_LTYPE_BYTES))
         then
           let* pItem := load_ptr (it_pData iter) in
           let* count := load_count (it_pSize iter) in
           item_loop (Z.to_nat count) SIZEOF_PTR (fun p =>
             let* q := load_ptr p in pb_free q ;; store_ptr p NULL) pItem
         else ret tt) ;;
        (if f_htype f =? PB_HTYPE_REPEATED then store_count (it_pSize iter) 0 else ret tt) ;;
        let* p := load_ptr (it_pData iter) in
        pb_free p ;;
        store_ptr (it_pData iter) NULL
      else ret tt
  end.

Definition pb_release (fuel : nat) : list pb_field_t -> Z -> M unit :=
  message_release (pb_release_single_field fuel).

Definition pb_release_union_field (fuel : nat) (stream : pb_istream_t) (iter : pb_field_iter_t)
    : M (bool * pb_istream_t * pb_field_iter_t) :=
  let* old_tag := load_count (it_pSize iter) in
  let new_tag := f_tag (it_field iter) in
  if old_tag =? 0 then ret (true, stream, iter) else
  if old_tag =? new_tag then ret (true, stream, iter) else
  let* (found, iter) := pb_field_iter_find iter old_tag in
  if negb found then ret (false, i_seterr stream "invalid union tag", iter) else
  pb_release_single_field fuel iter ;;
  let* (found, iter) := pb_field_iter_find iter new_tag in
  if negb found then ret (false, i_seterr stream "iterator error", iter) else
  ret (true, stream, iter).

(** * Fields *)

(** The functions of the recursion through submessages. *)
Record decode_rec := DecodeRec {
  rec_decode : pb_istream_t -> list pb_field_t -> Z -> IStep;
  rec_decode_noinit : pb_istream_t -> list pb_field_t -> Z -> IStep
}.

(** Counts through [pSize]: in the structure, or the local of
    [pb_decode_noinit], whose value [fc] the field decoders thread. *)
Definition get_size (p : size_ptr) (fc : Z) : M Z :=
  match p with AtAddr a => load_u32 a | FixedCount => ret fc end.
Definition set_size (p : size_ptr) (fc v : Z) : M Z :=
  match p with AtAddr a => store_u32 a (pb_size v) ;; ret fc | FixedCount => ret (pb_size v) end.

Definition FStep : Type := M (bool * pb_istream_t * Z).
Definition with_fc (fc : Z) (c : IStep) : FStep :=
  let* (ok, s) := c in ret (ok, s, fc).

Section Fields.
Variable fuel : nat.
Variable rec : decode_rec.

Definition pb_dec_submessage (stream : pb_istream_t) (field : pb_field_t) (dest : Z) : IStep :=
  let* (sub, stream) := pb_make_string_substream stream in
  match sub with
  | None => ret (false, stream)
  | Some substream =>
      match f_ptr field with
      | PtrNull => i_error stream "invalid field descriptor"
      | PtrData _ => fault
      | PtrFields submsg_fields =>
          let* (status, substream) :=
            if f_htype field =? PB_HTYPE_REPEATED
            then rec_decode rec substream submsg_fields dest
            else rec_decode_noinit rec substream submsg_fields dest in
          let* (ok, stream) := pb_close_string_substream stream substream in
          ret (ok && status, stream)
      end
  end.

(** [PB_DECODERS[PB_LTYPE(type)]] *)
Definition PB_DECODERS (ltype : Z) : pb_istream_t -> pb_field_t -> Z -> IStep :=
  if ltype =? PB_LTYPE_BOOL then pb_dec_bool
  else if ltype =? PB_LTYPE_VARINT then pb_dec_varint
  else if ltype =? PB_LTYPE_UVARINT then pb_dec_uvarint
  else if ltype =? PB_LTYPE_SVARINT then pb_dec_svarint
  else if ltype =? PB_LTYPE_FIXED32 then pb_dec_fixed32
  else if ltype =? PB_LTYPE_FIXED64 then pb_dec_fixed64
  else if ltype =? PB_LTYPE_BYTES then pb_dec_bytes
  else if ltype =? PB_LTYPE_STRING then pb_dec_string
  else if ltype =? PB_LTYPE_SUBMESSAGE then pb_dec_submessage
  else if ltype =? PB_LTYPE_FIXED_LENGTH_BYTES then pb_dec_fixed_length_bytes
  else fun _ _ _ => fault.

(** The loop over a packed static array; a round reads at least a byte.
    [status] and the count go on to the code after the loop. *)
Fixpoint packed_static_loop (n : nat) (substream : pb_istream_t) (iter : pb_field_iter_t)
    (fc : Z) : M (bool * pb_istream_t * Z) :=
  let f := it_field iter in
  let* size := get_size (it_pSize iter) fc in
  if (0 <? i_bytes_left substream) && (size <? f_array_size f) then
    match n with
    | O => diverge
    | S n' =>
        let pItem := it_pData iter + u32 (f_data_size f * size) in
        let* (ok, substream) := PB_DECODERS (f_ltype f) substream f pItem in
        if ok : bool then
          let* size := get_size (it_pSize iter) fc in
          let* fc := set_size (it_pSize iter) fc (size + 1) in
          packed_static_loop n' substream iter fc
        else ret (false, substream, fc)
    end
  else ret (true, substream, fc).

Definition is_packed (wire_type : Z) (f : pb_field_t) : bool :=
  (wire_type =? PB_WT_STRING) && (f_ltype f <=? PB_LTYPE_LAST_PACKABLE).

Definition decode_static_field (stream : pb_istream_t) (wire_type : Z)
    (iter : pb_field_iter_t) (fc : Z) : FStep :=
  let f := it_field iter in
  let func := PB_DECODERS (f_ltype f) in
  if f_htype f =? PB_HTYPE_REQUIRED then with_fc fc (func stream f (it_pData iter))
  else if f_htype f =? PB_HTYPE_OPTIONAL then
    (if negb (size_ptr_is (it_pSize iter) (it_pData iter))
     then match it_pSize iter with AtAddr a => store8 a 1 | FixedCount => fault end
     else ret tt) ;;
    with_fc fc (func stream f (it_pData iter))
  else if f_htype f =? PB_HTYPE_REPEATED then
    if is_packed wire_type f then
      let* (sub, stream) := pb_make_string_substream stream in
      match sub with
      | None => ret (false, stream, fc)
      | Some substream =>
          let* (status, substream, fc) :=
            packed_static_loop (stream_rounds substream) substream iter fc in
          if negb (i_bytes_left substream =? 0)
          then ret (false, i_seterr stream "array overflow", fc) else
          let* (ok, stream) := pb_close_string_substream stream substream in
          ret (ok && status, stream, fc)
      end
    else
      let* size := get_size (it_pSize iter) fc in
      let pItem := it_pData iter + u32 (f_data_size f * size) in
      let* fc := set_size (it_pSize iter) fc (size + 1) in
      if f_array_size f <=? size then ret (false, i_seterr stream "array overflow", fc)
      else with_fc fc (func stream f pItem)
  else if f_htype f =? PB_HTYPE_ONEOF then
    let* fc := set_size (it_pSize iter) fc (f_tag f) in
    (if f_ltype f =? PB_LTYPE_SUBMESSAGE then
       memset (it_pData iter) 0 (Z.to_nat (f_data_size f)) ;;
       let* fields := submsg_of f in
       pb_message_set_to_defaults fuel fields (it_pData iter)
     else ret tt) ;;
    with_fc fc (func stream f (it_pData iter))
  else ret (false, i_seterr stream "invalid field type", fc).

Definition initialize_pointer_field (pItem : Z) (iter : pb_field_iter_t) : M unit :=
  let f := it_field iter in
  if (f_ltype f =? PB_LTYPE_STRING) || (f_ltype f =? PB_LTYPE_BYTES)
  then store_ptr pItem NULL
  else if f_ltype f =? PB_LTYPE_SUBMESSAGE then
    memset pItem 0 (Z.to_nat (f_data_size f)) ;;
    let* fields := submsg_of f in
    pb_message_set_to_defaults fuel fields pItem
  else ret tt.

(** The loop over a packed pointer array. *)
Fixpoint packed_pointer_loop (n : nat) (stream substream : pb_istream_t)
    (iter : pb_field_iter_t) (allocated_size fc : Z)
    : M (bool * pb_istream_t * pb_istream_t * Z) :=
  let f := it_field iter in
  if i_bytes_left substream =? 0 then ret (true, stream, substream, fc) else
  match n with
  | O => diverge
  | S n' =>
      let* size := get_size (it_pSize iter) fc in
      if size =? PB_SIZE_MAX
      then ret (false, i_set_errmsg stream (Some "too many array entries"), substream, fc) else
      let grow := allocated_size <? size + 1 in
      let remain := u64 ((i_bytes_left substream - 1) / f_data_size f + 1) in
      let allocated_size :=
        if grow then
          if remain <? u64 (PB_SIZE_MAX - allocated_size) then u64 (allocated_size + remain)
          else u64 (allocated_size + 1)
        else allocated_size in
      let* (ok, substream) :=
        if grow then
          if f_data_size f =? 0 then fault else
          allocate_field substream (it_pData iter) (f_data_size f) allocated_size
        else ret (true, substream) in
      if negb ok then ret (false, stream, substream, fc) else
      let* base := load_ptr (it_pData iter) in
      let pItem := base + u32 (f_data_size f * size) in
      initialize_pointer_field pItem iter ;;
      let* (ok, substream) := PB_DECODERS (f_ltype f) substream f pItem in
      if negb ok then ret (false, stream, substream, fc) else
      let* size := get_size (it_pSize iter) fc in
      let* fc := set_size (it_pSize iter) fc (size + 1) in
      packed_pointer_loop n' stream substream iter allocated_size fc
  end.

Definition decode_pointer_field (stream : pb_istream_t) (wire_type : Z)
    (iter : pb_field_iter_t) (fc : Z) : FStep :=
  let f := it_field iter in
  let func := PB_DECODERS (f_ltype f) in
  if (f_htype f =? PB_HTYPE_REQUIRED) || (f_htype f =? PB_HTYPE_OPTIONAL)
     || (f_htype f =? PB_HTYPE_ONEOF) then
    (if f_ltype f =? PB_LTYPE_SUBMESSAGE then
       let* p := load_ptr (it_pData iter) in
       if negb (p =? NULL) then pb_release_single_field fuel iter else ret tt
     else ret tt) ;;
    let* fc := if f_htype f =? PB_HTYPE_ONEOF then set_size (it_pSize iter) fc (f_tag f)
               else ret fc in
    if (f_ltype f =? PB_LTYPE_STRING) || (f_ltype f =? PB_LTYPE_BYTES)
    then with_fc fc (func stream f (it_pData iter))
    else
      with_fc fc
        (try_ stream := allocate_field stream (it_pData iter) (f_data_size f) 1 in
         let* p := load_ptr (it_pData iter) in
         initialize_pointer_field p iter ;;
         let* p := load_ptr (it_pData iter) in
         func stream f p)
  else if f_htype f =? PB_HTYPE_REPEATED then
    if is_packed wire_type f then
      let* allocated_size := get_size (it_pSize iter) fc in
      let* (sub, stream) := pb_make_string_substream stream in
      match sub with
      | None => ret (false, stream, fc)
      | Some substream =>
          let* (status, stream, substream, fc) :=
            packed_pointer_loop (stream_rounds substream) stream substream iter allocated_size fc in
          let* (ok, stream) := pb_close_string_substream stream substream in
          ret (ok && status, stream, fc)
      end
    else
      let* size := get_size (it_pSize iter) fc in
      if size =? PB_SIZE_MAX then ret (false, i_seterr stream "too many array entries", fc) else
      let* (ok, stream) :=
        allocate_field stream (it_pData iter) (f_data_size f) (pb_size (size + 1)) in
      if negb ok then ret (false, stream, fc) else
      let* base := load_ptr (it_pData iter) in
      let pItem := base + u32 (f_data_size f * size) in
      let* fc := set_size (it_pSize iter) fc (size + 1) in
      initialize_pointer_field pItem iter ;;
      with_fc fc (func stream f pItem)
  else ret (false, i_seterr stream "invalid field type", fc).

(** The do-while loop over a callback; only the application bounds it. *)
Fixpoint callback_loop (n : nat) (f : Z) (substream : pb_istream_t) (field : pb_field_t)
    (arg : Z) : IStep :=
  match n with
  | O => diverge
  | S n' =>
      let* (ok, substream) := app_decode f substream field arg in
      if negb ok then ret (false, substream)
      else if i_bytes_left substream =? 0 then ret (true, substream)
      else callback_loop n' f substream field arg
  end.

(** [pb_byte_t buffer[10]] of [decode_callback_field], at the address the
    application's callback reads it from. *)
Definition with_local (l : list Z) (k : Z -> IStep) : IStep := fun m =>
  let p := align16 (brk m) in
  match k p (Mem (map_range p l (cells m)) (heap m) (p + zlen l) (nalloc m)) with
  | Ok r m' => Ok r (Mem (unmap_range p (length l) (cells m')) (heap m') (brk m') (nalloc m'))
  | Fault => Fault
  | Diverge => Diverge
  end.

Definition decode_callback_field (stream : pb_istream_t) (wire_type : Z)
    (iter : pb_field_iter_t) : IStep :=
  let pCallback := it_pData iter in
  let* f := if pCallback =? NULL then ret NULL else load_ptr (pCallback + callback_funcs_off) in
  if f =? NULL then pb_skip_field stream wire_type else
  let arg := pCallback + callback_arg_off in
  if wire_type =? PB_WT_STRING then
    let* (sub, stream) := pb_make_string_substream stream in
    match sub with
    | None => ret (false, stream)
    | Some substream =>
        let* (ok, substream) := callback_loop fuel f substream (it_field iter) arg in
        if negb ok then i_error stream "callback failed" else
        pb_close_string_substream stream substream
    end
  else
    let* (ok, stream, buffer) := read_raw_value stream wire_type 10 in
    if negb ok then ret (false, stream) else
    with_local buffer (fun p =>
      let* (ok, _) := app_decode f (pb_istream_from_buffer p (zlen buffer)) (it_field iter) arg in
      ret (ok, stream)).

Definition decode_field (stream : pb_istream_t) (wire_type : Z) (iter : pb_field_iter_t)
    (fc : Z) : M (bool * pb_istream_t * pb_field_iter_t * Z) :=
  let* (ok, stream, iter) :=
    if f_htype (it_field iter) =? PB_HTYPE_ONEOF
    then pb_release_union_field fuel stream iter else ret (true, stream, iter) in
  if negb ok then ret (false, stream, iter, fc) else
  let atype := f_atype (it_field iter) in
  let* (ok, stream, fc) :=
    if atype =? PB_ATYPE_STATIC then decode_static_field stream wire_type iter fc
    else if atype =? PB_ATYPE_POINTER then decode_pointer_field stream wire_type iter fc
    else if atype =? PB_ATYPE_CALLBACK
         then with_fc fc (decode_callback_field stream wire_type iter)
    else ret (false, i_seterr stream "invalid field type", fc) in
  ret (ok, stream, iter, fc).

(** * Extensions *)
Definition default_extension_decoder (stream : pb_istream_t) (extension tag wire_type : Z)
    : IStep :=
  let* t := load_ext_type extension in
  if negb (f_tag (ext_arg t) =? tag) then ret (true, stream) else
  let* iter := iter_from_extension extension in
  store8 (extension + ext_found_off) 1 ;;
  let* (ok, stream, _, _) := decode_field stream wire_type iter 0 in
  ret (ok, stream).

Fixpoint decode_extension_loop (n : nat) (pos : Z) (stream : pb_istream_t)
    (extension tag wire_type : Z) : IStep :=
  if negb (extension =? NULL) && (pos =? i_bytes_left stream) then
    match n with
    | O => diverge
    | S n' =>
        let* t := load_ext_type extension in
        try_ stream := match ext_decode t with
                       | Some f => f stream extension tag wire_type
                       | None => default_extension_decoder stream extension tag wire_type
                       end in
        let* next := load_ptr (extension + ext_next_off) in
        decode_extension_loop n' pos stream next tag wire_type
    end
  else ret (true, stream).

Definition decode_extension (stream : pb_istream_t) (tag wire_type : Z)
    (iter : pb_field_iter_t) : IStep :=
  let* extension := load_ptr (it_pData iter) in
  decode_extension_loop fuel (i_bytes_left stream) stream extension tag wire_type.

Definition find_extension_field (iter : pb_field_iter_t) : M (bool * pb_field_iter_t) :=
  match iter_find_loop (iter_rounds iter) (it_pos iter)
          (fun f => f_ltype f =? PB_LTYPE_EXTENSION) iter with
  | Some r => ret r
  | None => diverge
  end.

(** * Messages *)

(** The locals of [pb_decode_noinit] that its loop changes.  The fixed
    count field is named by its index in the descriptor array. *)
Record dec_locals := DecLocals {
  dl_iter : pb_field_iter_t;
  dl_seen : list Z;                 (** [fields_seen] *)
  dl_ext_start : Z;                 (** [extension_range_start] *)
  dl_fixed_field : option nat;      (** [fixed_count_field] *)
  dl_fixed_size : Z                 (** [fixed_count_size] *)
}.

(** [fields_seen[index >> 5] |= 1 << (index & 31)] *)
Definition mark_seen (seen : list Z) (index : Z) : list Z :=
  alter (fun w => Z.lor w (u32 (1 ≪ Z.land index 31))) (Z.to_nat (index ≫ 5)) seen.

Definition fixed_count_complete (fields : list pb_field_t) (l : dec_locals) : bool :=
  match dl_fixed_field l with
  | None => true
  | Some i => dl_fixed_size l =? f_array_size (field_at fields i)
  end.

(** The branch for a tag that names no field of the message; [true] in
    the last component when an extension consumed the data. *)
Definition decode_unknown (stream : pb_istream_t) (tag wire_type : Z) (l : dec_locals)
    : M (bool * pb_istream_t * dec_locals) :=
  let skip (l : dec_locals) : M (bool * pb_istream_t * dec_locals) :=
    let* (ok, stream) := pb_skip_field stream wire_type in ret (ok, stream, l) in
  if dl_ext_start l <=? tag then
    let* (found, iter) := find_extension_field (dl_iter l) in
    let start := if found : bool then f_tag (it_field iter) else u32 (-1) in
    let l := DecLocals iter (dl_seen l) start (dl_fixed_field l) (dl_fixed_size l) in
    if start <=? tag then
      let pos := i_bytes_left stream in
      let* (ok, stream) := decode_extension stream tag wire_type iter in
      if negb ok then ret (false, stream, l)
      else if negb (pos =? i_bytes_left stream) then ret (true, stream, l)
      else let* (ok, stream) := pb_skip_field stream wire_type in ret (ok, stream, l)
    else skip l
  else skip l.

(** The branch for a field of the message, the iterator being on it. *)
Definition decode_known (stream : pb_istream_t) (wire_type : Z) (l : dec_locals)
    : M (bool * pb_istream_t * dec_locals) :=
  let iter := dl_iter l in
  let f := it_field iter in
  let is_fixed := (f_htype f =? PB_HTYPE_REPEATED) && size_ptr_is (it_pSize iter) (it_pData iter) in
  let is_new := is_fixed && negb (bool_decide (dl_fixed_field l = Some (it_pos iter))) in
  if is_new && negb (fixed_count_complete (it_start iter) l)
  then ret (false, i_seterr stream "wrong size for fixed count field", l) else
  let fixed_field := if is_new then Some (it_pos iter) else dl_fixed_field l in
  let fixed_size := if is_new then 0 else dl_fixed_size l in
  let iter := if is_fixed then it_set_pSize iter FixedCount else iter in
  let seen := if (f_htype f =? PB_HTYPE_REQUIRED)
                 && (it_required_field_index iter <? PB_MAX_REQUIRED_FIELDS)
              then mark_seen (dl_seen l) (it_required_field_index iter) else dl_seen l in
  let* (ok, stream, iter, fixed_size) := decode_field stream wire_type iter fixed_size in
  ret (ok, stream, DecLocals iter seen (dl_ext_start l) fixed_field fixed_size).

(** The while loop over the fields of the stream. *)
Fixpoint decode_loop (n : nat) (stream : pb_istream_t) (l : dec_locals)
    : M (bool * pb_istream_t * dec_locals) :=
  if i_bytes_left stream =? 0 then ret (true, stream, l) else
  match n with
  | O => diverge
  | S n' =>
      let* (t, stream) := pb_decode_tag stream in
      if negb (tr_ok t) then ret (tr_eof t, stream, l) else
      let* (found, iter) := pb_field_iter_find (dl_iter l) (tr_tag t) in
      let l := DecLocals iter (dl_seen l) (dl_ext_start l) (dl_fixed_field l) (dl_fixed_size l) in
      let* (ok, stream, l) :=
        if found : bool then decode_known stream (tr_wire_type t) l
        else decode_unknown stream (tr_tag t) (tr_wire_type t) l in
      if ok : bool then decode_loop n' stream l else ret (false, stream, l)
  end.

(** Seeking to the end of the field array: the required fields before the
    last field, and the type of the last. *)
Fixpoint seek_end (n : nat) (it : pb_field_iter_t) : option (Z * Z * pb_field_iter_t) :=
  match n with
  | O => None
  | S n' =>
      let (more, it') := pb_field_iter_next it in
      if more : bool then seek_end n' it'
      else Some (it_required_field_index it, f_type (it_field it), it')
  end.

Definition allbits : Z := 2 ^ 32 - 1.

(** [fields_seen[i]]: past the array is a read out of bounds, which the
    bound on [req_field_count] excludes. *)
Definition seen_word (seen : list Z) (i : nat) : Z := nth i seen 0.

Definition required_present (req_field_count : Z) (seen : list Z) : bool :=
  forallb (fun i => seen_word seen i =? allbits) (seq 0 (Z.to_nat (req_field_count ≫ 5)))
  && ((Z.land req_field_count 31 =? 0)
      || (seen_word seen (Z.to_nat (req_field_count ≫ 5))
          =? allbits ≫ (32 - Z.land req_field_count 31))).

Definition check_required (stream : pb_istream_t) (l : dec_locals) : IStep :=
  match seek_end (iter_rounds (dl_iter l)) (dl_iter l) with
  | None => diverge
  | Some (req_field_count, last_type, iter) =>
      let req_field_count :=
        if (PB_HTYPE last_type =? PB_HTYPE_REQUIRED) && negb (f_tag (it_field iter) =? 0)
        then u32 (req_field_count + 1) else req_field_count in
      let req_field_count := Z.min req_field_count PB_MAX_REQUIRED_FIELDS in
      if (0 <? req_field_count) && negb (required_present req_field_count (dl_seen l))
      then i_error stream "missing required field"
      else ret (true, stream)
  end.

Definition decode_locals_init (fields : list pb_field_t) (dest_struct : Z) : dec_locals :=
  DecLocals (pb_field_iter_begin fields dest_struct).2 [0; 0] 0 None 0.

Definition noinit_body (stream : pb_istream_t) (fields : list pb_field_t) (dest_struct : Z)
    : IStep :=
  let* (ok, stream, l) :=
    decode_loop (stream_rounds stream) stream (decode_locals_init fields dest_struct) in
  if negb ok then ret (false, stream)
  else if negb (fixed_count_complete fields l)
  then i_error stream "wrong size for fixed count field"
  else check_required stream l.
End Fields.

(** [pb_decode] over a [pb_decode_noinit]. *)
Definition decode_over (fuel : nat)
    (noinit : pb_istream_t -> list pb_field_t -> Z -> IStep)
    (stream : pb_istream_t) (fields : list pb_field_t) (dest_struct : Z) : IStep :=
  pb_message_set_to_defaults fuel fields dest_struct ;;
  let* (status, stream) := noinit stream fields dest_struct in
  (if status : bool then ret tt else pb_release fuel fields dest_struct) ;;
  ret (status, stream).

Fixpoint pb_decode_noinit (fuel : nat) (stream : pb_istream_t) (fields : list pb_field_t)
    (dest_struct : Z) : IStep :=
  match fuel with
  | O => diverge
  | S n =>
      noinit_body n (DecodeRec (decode_over n (pb_decode_noinit n)) (pb_decode_noinit n))
        stream fields dest_struct
  end.

Definition pb_decode (fuel : nat) : pb_istream_t -> list pb_field_t -> Z -> IStep :=
  decode_over fuel (pb_decode_noinit fuel).

(** A length-prefixed message, decoded by [decode]. *)
Definition delimited (decode : pb_istream_t -> list pb_field_t -> Z -> IStep)
    (stream : pb_istream_t) (fields : list pb_field_t) (dest_struct : Z) : IStep :=
  let* (sub, stream) := pb_make_string_substream stream in
  match sub with
  | None => ret (false, stream)
  | Some substream =>
      let* (status, substream) := decode substream fields dest_struct in
      let* (ok, stream) := pb_close_string_substream stream substream in
      ret (ok && status, stream)
  end.

Definition pb_decode_delimited_noinit (fuel : nat) := delimited (pb_decode_noinit fuel).
Definition pb_decode_delimited (fuel : nat) := delimited (pb_decode fuel).
Definition pb_decode_nullterminated (fuel : nat) : pb_istream_t -> list pb_field_t -> Z -> IStep :=
  pb_decode fuel.
End Decoder.
