(* ===== verification/PbWire.v ===== *)
(** The protobuf wire format as pure functions: what [pb_encode.c] promises
    to write and [pb_decode.c] to accept.

    A field of a message is given by the list of its items: none for an
    absent field, one for a present one, any number for a repeated one. *)
From stdpp Require Import base list numbers option.
From S2P Require Import Prelude Varint Machine PbTypes PbCommon.
Open Scope Z_scope.

(** Zig-zag: signed numbers of small magnitude as small unsigned numbers. *)
Definition zigzag_spec (z : Z) : Z := if z <? 0 then - 2 * z - 1 else 2 * z.

(** * Values *)
Inductive value :=
  | VScalar (z : Z)
  | VBytes (bs : list Z)
  | VMsg (fields : list (list value)).

Definition sub_fields (f : pb_field_t) : list pb_field_t :=
  match f_ptr f with PtrFields fs => fs | _ => [] end.

Definition scalar_wire (ltype z : Z) : list Z :=
  if ltype =? PB_LTYPE_SVARINT then varint (zigzag_spec z)
  else if ltype =? PB_LTYPE_FIXED32 then le_bytes 4 z
  else if ltype =? PB_LTYPE_FIXED64 then le_bytes 8 z
  else varint (u64 z).

Definition tag_wire (wt tag : Z) : list Z := varint (tag * 8 + wt).

Definition wt_of (ltype : Z) : Z :=
  if ltype <=? PB_LTYPE_SVARINT then PB_WT_VARINT
  else if ltype =? PB_LTYPE_FIXED32 then PB_WT_32BIT
  else if ltype =? PB_LTYPE_FIXED64 then PB_WT_64BIT
  else PB_WT_STRING.

Definition packed (f : pb_field_t) : bool :=
  (f_htype f =? PB_HTYPE_REPEATED) && (f_ltype f <=? PB_LTYPE_LAST_PACKABLE).

(** The items of one field, [w] being the encoding of an item. *)
Definition field_wire_with (w : value -> list Z) (f : pb_field_t) (items : list value) : list Z :=
  if packed f then
    match items with
    | [] => []
    | _ => tag_wire PB_WT_STRING (f_tag f) ++ delim (concat (map w items))
    end
  else concat (map (fun v => tag_wire (wt_of (f_ltype f)) (f_tag f) ++ w v) items).

Fixpoint item_wire (f : pb_field_t) (v : value) {struct v} : list Z :=
  match v with
  | VScalar z => scalar_wire (f_ltype f) z
  | VBytes bs => delim bs
  | VMsg fss =>
      delim ((fix go (es : list pb_field_t) (fss : list (list value)) {struct fss} : list Z :=
                match fss, es with
                | items :: fss', e :: es' => field_wire_with (item_wire e) e items ++ go es' fss'
                | _, _ => []
                end) (entries (sub_fields f)) fss)
  end.

Definition field_wire (f : pb_field_t) (items : list value) : list Z :=
  field_wire_with (item_wire f) f items.

Fixpoint fields_wire (es : list pb_field_t) (fss : list (list value)) : list Z :=
  match fss, es with
  | items :: fss', e :: es' => field_wire e items ++ fields_wire es' fss'
  | _, _ => []
  end.

(** The encoding of a message of the type described by [fields]. *)
Definition msg_wire (fields : list pb_field_t) (fss : list (list value)) : list Z :=
  fields_wire (entries fields) fss.

(** Nesting of submessages in a value. *)
Fixpoint vheight (v : value) : nat :=
  match v with
  | VMsg fss => S (list_max (map (fun items => list_max (map vheight items)) fss))
  | _ => O
  end.
Definition msg_height (fss : list (list value)) : nat :=
  list_max (map (fun items => list_max (map vheight items)) fss).

(** * Facts about the format *)
Lemma item_wire_msg f fss :
  item_wire f (VMsg fss) = delim (msg_wire (sub_fields f) fss).
Proof.
  cbn [item_wire]. f_equal. unfold msg_wire. generalize (entries (sub_fields f)).
  induction fss as [|items fss IH]; intros [|e es]; cbn [fields_wire]; try done.
  by rewrite IH.
Qed.

Lemma zigzag_spec_range z : in_sint 64 z -> in_uint 64 (zigzag_spec z).
Proof. unfold zigzag_spec. destruct (Z.ltb_spec z 0); intros; cint. Qed.

