(* ===== verification/PbRep.v ===== *)
(** Reasoning about output streams, and messages in memory.

    [emits F m0 act l] says that the encoder action [act], run in a memory that
    agrees with [m0] on the addresses [F] it reads, writes exactly the bytes
    [l]: a sizing stream counts them, a buffer stream stores them if they fit,
    and otherwise fails with "stream full" without touching memory outside the
    buffer.  The predicate composes along the structure of the encoder.
    [rep_msg] says that a structure in memory holds a message value. *)
From stdpp Require Import base list numbers option strings gmap.
From S2P Require Import Prelude Varint Machine PbTypes PbCommon PbIter PbEncode PbWire.
Open Scope Z_scope.
Open Scope c_scope.

(** * Output streams *)

(** The bytes a stream still has room for. *)
Definition room (s : pb_ostream_t) : Z := o_max_size s - o_bytes_written s.

Record sizing (s : pb_ostream_t) : Prop := {
  sz_callback : o_callback s = OcbNull;
  sz_errmsg : o_errmsg s = None;
  sz_written : 0 <= o_bytes_written s
}.

(** A stream over a memory buffer whose remaining room is mapped. *)
Record obuf (s : pb_ostream_t) (m : mem) : Prop := {
  ob_callback : o_callback s = OcbBufWrite;
  ob_errmsg : o_errmsg s = None;
  ob_written : 0 <= o_bytes_written s;
  ob_max : o_bytes_written s <= o_max_size s < 2 ^ 63;
  ob_mapped : mapped m (o_state s) (room s)
}.

(** The streams after [n] more bytes. *)
Definition counted (s : pb_ostream_t) (n : Z) : pb_ostream_t :=
  OStream (o_callback s) (o_state s) (o_max_size s) (o_bytes_written s + n) (o_errmsg s).
Definition advanced (s : pb_ostream_t) (n : Z) : pb_ostream_t :=
  OStream (o_callback s) (o_state s + n) (o_max_size s) (o_bytes_written s + n) (o_errmsg s).

(** The buffer does not overlap the addresses [F]. *)
Definition clear_of (F : Z -> Prop) (s : pb_ostream_t) : Prop :=
  forall x, F x -> ~ in_range (o_state s) (room s) x.

Section Emits.
Context `{App}.
Variables (F : Z -> Prop) (m0 : mem).

Definition emits_sizing (act : pb_ostream_t -> OStep) (l : list Z) : Prop :=
  forall s m, agree_on F m0 m -> sizing s -> o_bytes_written s + zlen l < 2 ^ 64 ->
    act s m = Ok (true, counted s (zlen l)) m.

Definition emits_fit (act : pb_ostream_t -> OStep) (l : list Z) : Prop :=
  forall s m, agree_on F m0 m -> obuf s m -> clear_of F s -> zlen l <= room s ->
    act s m = Ok (true, advanced s (zlen l)) (stored m (o_state s) l).

Definition emits_full (act : pb_ostream_t -> OStep) (l : list Z) : Prop :=
  forall s m, agree_on F m0 m -> obuf s m -> clear_of F s -> room s < zlen l ->
    exists s' l', act s m = Ok (false, s') (stored m (o_state s) l')
      /\ zlen l' <= room s /\ o_errmsg s' = Some "stream full".

Definition emits (act : pb_ostream_t -> OStep) (l : list Z) : Prop :=
  zlen l < 2 ^ 63 -> emits_sizing act l /\ emits_fit act l /\ emits_full act l.

(** An action that reads the value [v] from the addresses [F]. *)
Definition reads {A} (rd : M A) (v : A) : Prop :=
  forall m, agree_on F m0 m -> rd m = Ok v m.

Lemma sizing_is s : sizing s -> is_sizing s = true.
Proof. intros [Hc _ _]. unfold is_sizing. by rewrite Hc. Qed.
Lemma obuf_is s m : obuf s m -> is_sizing s = false.
Proof. intros [Hc _ _ _ _]. unfold is_sizing. by rewrite Hc. Qed.

Lemma counted_sizing s n : sizing s -> 0 <= n -> sizing (counted s n).
Proof. intros [Hc He Hw] Hn. split; simpl; [done|done|lia]. Qed.

Lemma advanced_obuf s m n l :
  obuf s m -> 0 <= n <= room s -> obuf (advanced s n) (stored m (o_state s) l).
Proof.
  intros [Hc He Hw Hm Hr] Hn. unfold room in *. split; simpl; try done; try lia.
  apply stored_mapped. eapply mapped_sub; [exact Hr|lia|unfold room; simpl; lia].
Qed.

Lemma advanced_clear s n : clear_of F s -> 0 <= n -> clear_of F (advanced s n).
Proof.
  intros Hc Hn x Hx Hin. apply (Hc x Hx). unfold in_range, room in *. simpl in *. lia.
Qed.

Lemma stored_agree_clear s m l :
  clear_of F s -> zlen l <= room s -> agree_on F m0 m ->
  agree_on F m0 (stored m (o_state s) l).
Proof.
  intros Hc Hl Ha. eapply agree_on_trans; [exact Ha|]. apply stored_agree.
  intros x Hx Hin. apply (Hc x Hx). unfold in_range in *. lia.
Qed.

Lemma counted_counted s a b : counted (counted s a) b = counted s (a + b).
Proof. unfold counted; simpl. f_equal. lia. Qed.
Lemma advanced_advanced s a b : advanced (advanced s a) b = advanced s (a + b).
Proof. unfold advanced; simpl. f_equal; lia. Qed.
Lemma advanced_0 s : advanced s 0 = s.
Proof. destruct s; unfold advanced; simpl. by rewrite !Z.add_0_r. Qed.
Lemma counted_0 s : counted s 0 = s.
Proof. destruct s; unfold counted; simpl. by rewrite Z.add_0_r. Qed.

(** ** Composition *)
Lemma emits_ret : emits (fun s => ret (true, s)) [].
Proof.
  intros _. split_and!; intros s m Ha Hs.
  - intros _. simpl. by rewrite counted_0.
  - intros _ _. simpl. by rewrite advanced_0, stored_nil.
  - intros Hc Hl. simpl in Hl. destruct Hs. unfold room in *. lia.
Qed.

(** The bound on the length may be used in proving [emits]. *)
Lemma emits_bound act l : (zlen l < 2 ^ 63 -> emits act l) -> emits act l.
Proof. intros He Hl. exact (He Hl Hl). Qed.

Lemma emits_ext act act' l :
  (forall s m, agree_on F m0 m -> act s m = act' s m) -> emits act l -> emits act' l.
Proof.
  intros He Hm Hl. destruct (Hm Hl) as (H1 & H2 & H3).
  split_and!; intros s m Ha; rewrite <- (He s m Ha); eauto.
Qed.

Lemma emits_then a1 a2 l1 l2 :
  emits a1 l1 -> emits a2 l2 -> emits (fun s => try s' := a1 s in a2 s') (l1 ++ l2).
Proof.
  intros H1 H2 Hl. rewrite zlen_app in Hl.
  destruct H1 as (S1 & B1 & E1); [lia|]. destruct H2 as (S2 & B2 & E2); [lia|].
  split_and!; intros s m Ha Hs; rewrite zlen_app.
  - intros Hb. unfold o_then. mstep (S1 s m Ha Hs ltac:(lia)). simpl.
    rewrite (S2 (counted s (zlen l1)) m Ha); [by rewrite counted_counted| |simpl; lia].
    apply counted_sizing; [done|lia].
  - intros Hc Hb. unfold o_then. mstep (B1 s m Ha Hs Hc ltac:(lia)). simpl.
    rewrite (B2 (advanced s (zlen l1))); [|by apply stored_agree_clear; [done|lia|]
      |by apply advanced_obuf; [|lia]|by apply advanced_clear; [|lia]|unfold room in *; simpl; lia].
    by rewrite advanced_advanced, stored_app.
  - intros Hc Hb. unfold o_then. destruct (decide (zlen l1 <= room s)) as [Hf|Hf].
    + mstep (B1 s m Ha Hs Hc Hf). simpl.
      destruct (E2 (advanced s (zlen l1)) (stored m (o_state s) l1)) as (s' & l' & Hr & Hl' & He);
        [by apply stored_agree_clear|by apply advanced_obuf; [|lia]
        |by apply advanced_clear; [|lia]|unfold room in *; simpl; lia|].
      exists s', (l1 ++ l'). rewrite Hr. simpl in *. rewrite stored_app, zlen_app.
      unfold room in *. simpl in *. split_and!; [done|lia|done].
    + destruct (E1 s m Ha Hs Hc ltac:(lia)) as (s' & l' & Hr & Hl' & He).
      exists s', l'. mstep Hr. done.
Qed.

Lemma emits_read {A} (rd : M A) (v : A) (k : A -> pb_ostream_t -> OStep) l :
  reads rd v -> emits (k v) l -> emits (fun s => let* x := rd in k x s) l.
Proof.
  intros Hr. apply emits_ext. intros s m Ha. by rewrite (bind_Ok _ _ _ _ _ (Hr m Ha)).
Qed.

Lemma emits_if_sizing a1 a2 l :
  (zlen l < 2 ^ 63 -> emits_sizing a1 l) ->
  (zlen l < 2 ^ 63 -> emits_fit a2 l /\ emits_full a2 l) ->
  emits (fun s => if is_sizing s then a1 s else a2 s) l.
Proof.
  intros H1 H2 Hl. destruct (H2 Hl) as (B2 & E2). split_and!; intros s m Ha Hs.
  - rewrite (sizing_is _ Hs). by apply H1.
  - rewrite (obuf_is _ _ Hs). by apply B2.
  - rewrite (obuf_is _ _ Hs). by apply E2.
Qed.

(** ** The copy loop and [pb_write] *)

(** The source holds [l], from index [i] on, wherever memory agrees on [F]. *)
Definition buf_holds (buf : cbuf) (i : nat) (l : list Z) : Prop :=
  forall k b m, l !! k = Some b -> agree_on F m0 m -> buf_get buf (i + k) m = Ok b m.

Lemma buf_holds_local l : buf_holds (BufLocal l) 0 l.
Proof. intros k b m Hk _. unfold buf_get. simpl. by rewrite Hk. Qed.

Lemma buf_holds_mem p l :
  bytes_at m0 p l -> (forall x, in_range p (zlen l) x -> F x) -> buf_holds (BufMem p) 0 l.
Proof.
  intros Hb HF k b m Hk Ha. unfold buf_get, load8. simpl.
  assert (in_range p (zlen l) (p + Z.of_nat k)).
  { apply lookup_lt_Some in Hk. unfold in_range. lia. }
  rewrite Ha by auto. by rewrite (Hb k b Hk).
Qed.

Lemma buf_holds_tail buf i b l : buf_holds buf i (b :: l) -> buf_holds buf (S i) l.
Proof.
  intros Hb k c m Hk Ha. replace (S i + k)%nat with (i + S k)%nat by lia. by apply Hb.
Qed.

Lemma copy_loop_Ok dest buf l i m :
  buf_holds buf i l -> agree_on F m0 m ->
  mapped m (dest + Z.of_nat i) (zlen l) ->
  (forall x, F x -> ~ in_range (dest + Z.of_nat i) (zlen l) x) ->
  copy_loop dest buf i (length l) m = Ok tt (stored m (dest + Z.of_nat i) l).
Proof.
  revert i m. induction l as [|b l IH]; intros i m Hb Ha Hm Hd.
  - simpl. by rewrite stored_nil.
  - cbn [copy_loop length]. rewrite zlen_cons in *.
    pose proof (Hb 0%nat b m eq_refl Ha) as Hg. rewrite Nat.add_0_r in Hg. mstep Hg.
    set (d := dest + Z.of_nat i) in *.
    assert (store8 d b m = Ok tt (stored m d [b])) as Hs.
    { unfold store8. destruct (Hm d) as [y Hy]; [unfold in_range; lia|]. by rewrite Hy. }
    mstep Hs. rewrite (IH (S i)).
    + replace (dest + Z.of_nat (S i)) with (d + 1) by (subst d; lia).
      done.
    + by apply (buf_holds_tail _ _ b).
    + eapply agree_on_trans; [exact Ha|]. apply stored_agree. intros x Hx Hin.
      apply (Hd x Hx). unfold in_range in *. simpl in Hin. lia.
    + apply stored_mapped. eapply mapped_sub; [exact Hm|subst d; lia|subst d; lia].
    + intros x Hx Hin. apply (Hd x Hx). unfold in_range in *. subst d. lia.
Qed.

Lemma pb_write_emits buf l n :
  n = zlen l -> buf_holds buf 0 l -> emits (fun s => pb_write s buf n) l.
Proof.
  intros -> Hb Hl. unfold pb_write. split_and!; intros s m Ha Hs.
  - intros Hbw. rewrite (sizing_is _ Hs), andb_false_r.
    unfold o_add_written, counted. destruct Hs.
    rewrite u64_small by (unfold in_uint; lia). done.
  - intros Hc Hf. rewrite (obuf_is _ _ Hs), andb_true_r.
    pose proof Hs as [Hcb He Hw Hmx Hmp]. pow2.
    assert (u64 (o_bytes_written s + zlen l) = o_bytes_written s + zlen l) as Hu.
    { apply u64_small. unfold room, in_uint in *. pow2. lia. }
    unfold o_add_written. destruct (Z.ltb_spec 0 (zlen l)) as [Hp|Hp].
    + rewrite Hu. unfold room in Hf.
      destruct (Z.ltb_spec (o_max_size s) (o_bytes_written s + zlen l)); [lia|].
      unfold o_call. rewrite Hcb. unfold buf_write. rewrite bind_assoc.
      rewrite Nat2Z.id. pose proof (copy_loop_Ok (o_state s) buf l 0 m Hb Ha) as Hcl.
      rewrite Z.add_0_r in Hcl.
      rewrite (bind_Ok _ _ _ _ _ (Hcl ltac:(eapply mapped_sub; [exact Hmp|lia|unfold room; lia])
        ltac:(intros x Hx Hin; apply (Hc x Hx); unfold in_range, room in *; lia))).
      unfold bind, ret. simpl. rewrite Hu. done.
    + destruct l; [|simpl in Hp; lia]. simpl. rewrite stored_nil.
      rewrite Z.add_0_r, u64_small by (unfold in_uint, room in *; pow2; lia).
      unfold advanced. by rewrite !Z.add_0_r.
  - intros Hc Hf. rewrite (obuf_is _ _ Hs), andb_true_r.
    pose proof Hs as [Hcb He Hw Hmx Hmp]. pow2. unfold room in Hf.
    assert (u64 (o_bytes_written s + zlen l) = o_bytes_written s + zlen l) as Hu.
    { apply u64_small. unfold in_uint in *. pow2. lia. }
    destruct (Z.ltb_spec 0 (zlen l)); [|lia]. rewrite Hu.
    destruct (Z.ltb_spec (o_max_size s) (o_bytes_written s + zlen l)); [|lia].
    unfold o_error, ret. rewrite He. eexists _, []. rewrite stored_nil.
    split_and!; [done|unfold room; simpl; lia|done].
Qed.

Lemma pb_write_sizing buf l :
  emits_sizing (fun s => pb_write s buf (zlen l)) l.
Proof.
  intros s m Ha Hs Hbw. unfold pb_write. rewrite (sizing_is _ Hs), andb_false_r.
  unfold o_add_written, counted. destruct Hs.
  by rewrite u64_small by (unfold in_uint; lia).
Qed.

Lemma pb_write_local_emits l : emits (fun s => pb_write s (BufLocal l) (zlen l)) l.
Proof. apply pb_write_emits; [done|apply buf_holds_local]. Qed.

(** ** Varints *)
Lemma varint_loop_spec room v :
  0 < v < 128 ^ Z.of_nat room ->
  exists l b, varint_loop room v = Some (l ++ [b + 128]) /\ 0 <= b < 128
    /\ varint_n room v = l ++ [b].
Proof.
  revert v. induction room as [|r IH]; intros v Hv; [simpl in Hv; lia|].
  rewrite pow128_succ in Hv. cbn [varint_loop varint_n].
  destruct (Z.eqb_spec v 0); [lia|]. rewrite land_7f, shiftr_div by lia.
  change (2 ^ 7) with 128. pose proof (Z.mod_pos_bound v 128 ltac:(lia)) as Hm.
  rewrite lor_80, u8_small by (try lia; cint).
  destruct (Z.ltb_spec v 128) as [Hlt|Hge].
  - rewrite Z.div_small by lia. exists [], v.
    assert (varint_loop r 0 = Some []) as -> by (by destruct r).
    simpl. rewrite Z.mod_small by lia. split_and!; [done|lia..|done].
  - destruct (IH (v / 128)) as (l & b & E1 & Hb & E2).
    { split; [|apply div128_bound; lia]. apply Z.div_str_pos. lia. }
    rewrite E1, E2. simpl. exists (v mod 128 + 128 :: l), b. done.
Qed.

Lemma clear_last_app l b : 0 <= b < 128 -> clear_last (l ++ [b + 128]) = l ++ [b].
Proof.
  intros Hb. unfold clear_last. rewrite length_app. simpl.
  replace (length l + 1 - 1)%nat with (length l + 0)%nat by lia.
  rewrite alter_app_r. simpl. rewrite land_7f.
  replace (b + 128) with (b + 1 * 128) by lia. by rewrite Z_mod_plus_full, Z.mod_small.
Qed.

(** The varint encoder never writes past [buffer[10]]. *)
Lemma varint_loop_room v : in_uint 64 v -> 0x7F < v ->
  exists buf, varint_loop 10 v = Some buf /\ clear_last buf = varint v
    /\ length buf = length (varint v).
Proof.
  intros Hv Hg. destruct (varint_loop_spec 10 v) as (l & b & E1 & Hb & E2).
  { unfold in_uint in Hv. change (128 ^ Z.of_nat 10) with (2 ^ 70). pow2. lia. }
  exists (l ++ [b + 128]). unfold varint. rewrite E2, clear_last_app by lia.
  split_and!; [done|done|]. by rewrite !length_app.
Qed.

Lemma pb_encode_varint_emits v :
  in_uint 64 v -> emits (fun s => pb_encode_varint s v) (varint v).
Proof.
  intros Hv. unfold pb_encode_varint. destruct (Z.leb_spec v 0x7F) as [Hle|Hgt].
  - unfold varint. cbn [varint_n]. destruct (Z.ltb_spec v 128); [|lia].
    rewrite u8_small by (unfold in_uint in *; pow2; lia).
    exact (pb_write_local_emits [v]).
  - destruct (varint_loop_room v Hv Hgt) as (buf & -> & Hc & Hl).
    rewrite Hc, Hl. apply pb_write_local_emits.
Qed.

Lemma zigzag_correct v : in_sint 64 v -> zigzag v = zigzag_spec v.
Proof.
  intros Hv. unfold zigzag, zigzag_spec. rewrite !Z.shiftl_mul_pow2 by lia.
  change (2 ^ 1) with 2. unfold Z.lnot. destruct (Z.ltb_spec v 0); cint.
Qed.

Lemma pb_encode_svarint_emits v :
  in_sint 64 v -> emits (fun s => pb_encode_svarint s v) (varint (zigzag_spec v)).
Proof.
  intros Hv. unfold pb_encode_svarint. rewrite (zigzag_correct v Hv).
  apply pb_encode_varint_emits. by apply zigzag_spec_range.
Qed.

Lemma pb_encode_tag_emits wt tag :
  0 <= wt < 8 -> in_uint 32 tag -> emits (fun s => pb_encode_tag s wt tag) (tag_wire wt tag).
Proof.
  intros Hw Ht. unfold pb_encode_tag, tag_wire. rewrite Z.shiftl_mul_pow2 by lia.
  change (2 ^ 3) with 8.
  rewrite u64_small by (unfold in_uint in *; pow2; lia).
  replace (Z.lor (tag * 8) wt) with (tag * 8 + wt).
  - apply pb_encode_varint_emits. unfold in_uint in *. pow2. lia.
  - rewrite Z.lor_comm. change 8 with (2 ^ 3). rewrite <- Z.shiftl_mul_pow2 by lia.
    rewrite lor_shiftl_add by (pow2; lia). rewrite Z.shiftl_mul_pow2 by lia. lia.
Qed.

Lemma pb_encode_string_emits buf l :
  buf_holds buf 0 l ->
  emits (fun s => pb_encode_string s buf (zlen l)) (delim l).
Proof.
  intros Hb. apply emits_bound. intros Hl. pose proof (delim_length l).
  unfold pb_encode_string, delim. rewrite u64_small by (unfold in_uint; pow2; lia).
  apply emits_then; [|by apply pb_write_emits].
  apply pb_encode_varint_emits. unfold in_uint. pow2. lia.
Qed.
End Emits.

(** * Messages in memory *)

(** Descriptor arrays of message types: nonzero 32-bit tags, a terminator. *)
Definition wf_fields (fields : list pb_field_t) : Prop :=
  exists es, fields = es ++ [PB_LAST_FIELD] /\ Forall (fun f => 0 < f_tag f < 2 ^ 32) es.

Definition int_size (ds : Z) : Prop := ds = 1 \/ ds = 2 \/ ds = 4 \/ ds = 8.

Section Rep.
Context `{App}.
Variables (F : Z -> Prop) (m0 : mem).

(** The bytes [l] at [a], all within [F]. *)
Definition holds (a : Z) (l : list Z) : Prop :=
  bytes_at m0 a l /\ forall x, in_range a (zlen l) x -> F x.

Definition rep_scalar (f : pb_field_t) (a z : Z) : Prop :=
  let ds := f_data_size f in
  if f_ltype f =? PB_LTYPE_BOOL then
    exists b, holds a [b] /\ z = if b =? 0 then 0 else 1
  else if f_ltype f =? PB_LTYPE_FIXED32 then in_uint 32 z /\ holds a (le_bytes 4 z)
  else if f_ltype f =? PB_LTYPE_FIXED64 then in_uint 64 z /\ holds a (le_bytes 8 z)
  else if f_ltype f =? PB_LTYPE_UVARINT then
    int_size ds /\ in_uint (8 * ds) z /\ holds a (le_bytes (Z.to_nat ds) z)
  else int_size ds /\ in_sint (8 * ds) z
       /\ holds a (le_bytes (Z.to_nat ds) (z mod 2 ^ (8 * ds))).

Definition string_max (f : pb_field_t) : Z :=
  if f_atype f =? PB_ATYPE_POINTER then SIZE_MAX else f_data_size f.

Definition rep_bytes (f : pb_field_t) (a : Z) (bs : list Z) : Prop :=
  if f_ltype f =? PB_LTYPE_BYTES then
    (a = NULL /\ bs = [])
    \/ (a <> NULL /\ zlen bs < 2 ^ 32 /\ holds a (le_bytes 4 (zlen bs) ++ bs)
        /\ (f_atype f = PB_ATYPE_STATIC -> OFFSETOF_BYTES + zlen bs <= f_data_size f))
  else if f_ltype f =? PB_LTYPE_STRING then
    (a = NULL /\ bs = [])
    \/ (a <> NULL /\ Forall (fun b => b <> 0) bs /\ zlen bs <= string_max f
        /\ holds a (if zlen bs <? string_max f then bs ++ [0] else bs))
  else f_ltype f = PB_LTYPE_FIXED_LENGTH_BYTES /\ zlen bs = f_data_size f /\ holds a bs.

(** Items of an array from [p] on, [step] bytes apart. *)
Fixpoint items_at (R : Z -> value -> Prop) (p step : Z) (items : list value) : Prop :=
  match items with
  | [] => True
  | v :: vs => R p v /\ items_at R (p + step) step vs
  end.

(** An array element of a pointer field of strings or bytes is itself a
    pointer. *)
Definition elem_indirect (f : pb_field_t) : bool :=
  (f_atype f =? PB_ATYPE_POINTER)
  && ((f_ltype f =? PB_LTYPE_STRING) || (f_ltype f =? PB_LTYPE_BYTES)).

Definition elem_at (R : Z -> value -> Prop) (f : pb_field_t) (p : Z) (v : value) : Prop :=
  if elem_indirect f then exists q, reads F m0 (load_ptr p) q /\ R q v else R p v.

(** Where the data of a field is: in the structure, or behind a pointer. *)
Definition field_target (f : pb_field_t) (pData p : Z) : Prop :=
  if f_atype f =? PB_ATYPE_POINTER then reads F m0 (load_ptr pData) p
  else f_atype f = PB_ATYPE_STATIC /\ p = pData /\ p <> NULL.

(** Whether an optional field is present. *)
Definition presence (f : pb_field_t) (pData p : Z) (has : bool) : Prop :=
  if f_size_offset f =? 0 then
    exists d, (forall check, reads F m0 (proto3_singular check f pData) d)
      /\ has = if f_atype f =? PB_ATYPE_POINTER then negb (p =? NULL) else negb d
  else reads F m0 (safe_read_bool (pData + f_size_offset f)) has.

Definition rep_field_with (R : Z -> value -> Prop) (f : pb_field_t) (pData : Z)
    (items : list value) : Prop :=
  f_ltype f <> PB_LTYPE_EXTENSION /\
  exists p, field_target f pData p /\
  if f_htype f =? PB_HTYPE_REQUIRED then
    p <> NULL /\ match items with [v] => R p v | _ => False end
  else if f_htype f =? PB_HTYPE_OPTIONAL then
    exists has, presence f pData p has
      /\ match items with [] => has = false | [v] => has = true /\ R p v | _ => False end
  else if f_htype f =? PB_HTYPE_REPEATED then
    (if f_size_offset f =? 0 then zlen items = f_array_size f
     else reads F m0 (load_u32 (pData + f_size_offset f)) (zlen items))
    /\ zlen items < 2 ^ 32
    /\ (f_atype f <> PB_ATYPE_POINTER -> zlen items <= f_array_size f)
    /\ items_at (elem_at R f) p (f_data_size f) items
  else
    f_htype f = PB_HTYPE_ONEOF /\ f_size_offset f <> 0
    /\ exists which, reads F m0 (load_u32 (pData + f_size_offset f)) which
       /\ match items with
          | [] => which <> f_tag f
          | [v] => which = f_tag f /\ R p v
          | _ => False
          end.

Fixpoint rep_item (f : pb_field_t) (a : Z) (v : value) {struct v} : Prop :=
  match v with
  | VScalar z => 0 <= f_ltype f <= PB_LTYPE_LAST_PACKABLE /\ rep_scalar f a z
  | VBytes bs => PB_LTYPE_LAST_PACKABLE < f_ltype f /\ rep_bytes f a bs
  | VMsg fss =>
      f_ltype f = PB_LTYPE_SUBMESSAGE
      /\ exists fs, f_ptr f = PtrFields fs /\ wf_fields fs
         /\ (fix go (its : list pb_field_iter_t) (fss : list (list value)) {struct fss} : Prop :=
               match fss, its with
               | items :: fss', it :: its' =>
                   rep_field_with (rep_item (it_field it)) (it_field it) (it_pData it) items
                   /\ go its' fss'
               | [], [] => True
               | _, _ => False
               end) (iters fs a) fss
  end.

Definition rep_field (it : pb_field_iter_t) (items : list value) : Prop :=
  rep_field_with (rep_item (it_field it)) (it_field it) (it_pData it) items.

Definition rep_msg (fields : list pb_field_t) (addr : Z) (fss : list (list value)) : Prop :=
  wf_fields fields /\ Forall2 rep_field (iters fields addr) fss.

Lemma rep_item_msg f a fss :
  rep_item f a (VMsg fss)
  <-> f_ltype f = PB_LTYPE_SUBMESSAGE /\ exists fs, f_ptr f = PtrFields fs /\ rep_msg fs a fss.
Proof.
  cbn [rep_item]. split.
  - intros (Hl & fs & Hp & Hw & Hg). split; [done|]. exists fs. split; [done|]. split; [done|].
    revert Hg. generalize (iters fs a).
    induction fss as [|items fss IH]; intros [|it its] Hg; try by (contradiction || constructor).
    destruct Hg as [H1 H2]. constructor; [exact H1|exact (IH its H2)].
  - intros (Hl & fs & Hp & Hw & Hg). split; [done|]. exists fs. split; [done|]. split; [done|].
    revert Hg. generalize (iters fs a).
    induction fss as [|items fss IH]; intros its Hg; inversion_clear Hg; [done|].
    split; [assumption|by apply IH].
Qed.

(** ** Reading what is represented *)
Lemma holds_reads a l n : length l = n -> holds a l -> reads F m0 (load_bytes a n) l.
Proof.
  intros <- [Hb HF] m Ha. apply load_bytes_Ok. eapply bytes_at_agree; [|exact Hb].
  eapply agree_on_sub; [exact HF|exact Ha].
Qed.

Lemma reads_bind {A B} (rd : M A) (k : A -> M B) v w :
  reads F m0 rd v -> reads F m0 (k v) w -> reads F m0 (let* x := rd in k x) w.
Proof. intros Hr Hk m Ha. mstep (Hr m Ha). by apply Hk. Qed.

Lemma reads_ret {A} (v : A) : reads F m0 (ret v) v.
Proof. done. Qed.

Lemma holds_load_le a l n : length l = n -> holds a l -> reads F m0 (load_le a n) (le_val l).
Proof. intros Hl Hh. eapply reads_bind; [by apply holds_reads|apply reads_ret]. Qed.

Lemma holds_uint a n z :
  0 <= z < 256 ^ Z.of_nat n -> holds a (le_bytes n z) -> reads F m0 (load_le a n) z.
Proof.
  intros Hz Hh. rewrite <- (le_val_bytes n z Hz).
  apply holds_load_le; [apply length_le_bytes|done].
Qed.

Lemma holds_app a l1 l2 : holds a (l1 ++ l2) <-> holds a l1 /\ holds (a + zlen l1) l2.
Proof.
  unfold holds. rewrite bytes_at_app, zlen_app. split.
  - intros [[H1 H2] HF]. split_and!; auto; intros x Hx; apply HF; unfold in_range in *; lia.
  - intros [[H1 HF1] [H2 HF2]]. split_and!; auto. intros x Hx.
    destruct (decide (x < a + zlen l1)); [apply HF1|apply HF2]; unfold in_range in *; lia.
Qed.

Lemma holds_buf p l : holds p l -> buf_holds F m0 (BufMem p) 0 l.
Proof. intros [Hb HF]. by apply buf_holds_mem. Qed.

Lemma reads_uint_size ds a z :
  int_size ds -> in_uint (8 * ds) z -> holds a (le_bytes (Z.to_nat ds) z) ->
  reads F m0 (load_uint ds a) (Some z).
Proof.
  intros Hds Hz Hh. unfold load_uint.
  destruct Hds as [->|[->|[->| ->]]]; simpl;
    (eapply reads_bind; [apply holds_uint; [|exact Hh]|apply reads_ret]);
    unfold in_uint in Hz; simpl in *; pow2; lia.
Qed.

Lemma reads_sint_size ds a z :
  int_size ds -> in_sint (8 * ds) z -> holds a (le_bytes (Z.to_nat ds) (z mod 2 ^ (8 * ds))) ->
  reads F m0 (load_sint ds a) (Some z).
Proof.
  intros Hds Hz Hh. unfold load_sint.
  destruct Hds as [->|[->|[->| ->]]]; simpl in *;
    (eapply reads_bind;
      [apply holds_uint; [|exact Hh]
      |unfold s8, s16, s32, s64; rewrite sint_uint by (done || lia); apply reads_ret]);
    apply Z.mod_pos_bound; lia.
Qed.

Lemma reads_bool a b : holds a [b] -> reads F m0 (safe_read_bool a) (negb (b =? 0)).
Proof.
  intros [Hb HF] m Ha. unfold safe_read_bool, load8, bind.
  rewrite Ha by (apply HF; unfold in_range; simpl; lia).
  specialize (Hb 0%nat b eq_refl). rewrite Z.add_0_r in Hb. by rewrite Hb.
Qed.

Lemma reads_all_zero a l :
  holds a l -> reads F m0 (all_zero a (length l)) (forallb (fun b => b =? 0) l).
Proof.
  revert a. induction l as [|b l IH]; intros a Hh; [apply reads_ret|].
  apply (holds_app a [b] l) in Hh as [[Hb HF] Hl]. cbn [length all_zero forallb].
  apply (reads_bind _ _ b).
  - intros m Ha. unfold load8. rewrite Ha by (apply HF; unfold in_range; simpl; lia).
    specialize (Hb 0%nat b eq_refl). rewrite Z.add_0_r in Hb. by rewrite Hb.
  - destruct (b =? 0); [by apply IH|apply reads_ret].
Qed.
End Rep.
