(* ===== verification/PbEncodeSpec.v ===== *)
(** The encoder refines the wire format: [pb_encode] of a structure that
    represents a message value emits exactly [msg_wire] of the value. *)
From stdpp Require Import base list numbers option strings gmap.
From S2P Require Import Prelude Varint Machine PbTypes PbCommon PbIter PbEncode PbWire PbRep.
Open Scope Z_scope.
Open Scope c_scope.

(** Case analysis on the field type [PB_LTYPE] of the goal. *)
Ltac ltype_cases :=
  unfold PB_LTYPE_BOOL, PB_LTYPE_VARINT, PB_LTYPE_UVARINT, PB_LTYPE_SVARINT, PB_LTYPE_FIXED32,
    PB_LTYPE_FIXED64, PB_LTYPE_LAST_PACKABLE, PB_LTYPE_BYTES, PB_LTYPE_STRING,
    PB_LTYPE_SUBMESSAGE, PB_LTYPE_EXTENSION, PB_LTYPE_FIXED_LENGTH_BYTES in *.

(** The item lists of singular fields. *)
Section Items.
Context {A : Type} (l : list A).
Lemma single_inv (P : A -> Prop) :
  match l with [v] => P v | _ => False end -> exists v, l = [v] /\ P v.
Proof. destruct l as [|v [|]]; try done. eauto. Qed.

Lemma oneof_inv (P : Prop) (Q : A -> Prop) :
  match l with [] => P | [v] => Q v | _ => False end ->
  (l = [] /\ P) \/ exists v, l = [v] /\ Q v.
Proof. destruct l as [|v [|]]; naive_solver. Qed.
End Items.

Section EncodeSpec.
Context `{App}.
Variables (F : Z -> Prop) (m0 : mem).

Notation emits := (emits F m0).
Notation reads := (reads F m0).
Notation holds := (holds F m0).

(** ** Scalars *)
Lemma fixed32_bytes_le z : fixed32_bytes z = le_bytes 4 z.
Proof.
  unfold fixed32_bytes. rewrite !land_ff, !shiftr_div by lia. simpl.
  rewrite !Z.div_div by lia. repeat f_equal; cint.
Qed.

Lemma fixed64_bytes_le z : fixed64_bytes z = le_bytes 8 z.
Proof.
  unfold fixed64_bytes. rewrite !land_ff, !shiftr_div by lia. cbn [le_bytes].
  rewrite !Z.div_div by lia. pow2. simpl.
  assert (forall x, u8 (x mod 256) = x mod 256) as E.
  { intros x. apply u8_small, in_uint_mod. lia. }
  by rewrite !E.
Qed.

Lemma scalar_emits rec f a z :
  0 <= f_ltype f <= PB_LTYPE_LAST_PACKABLE -> rep_scalar F m0 f a z ->
  emits (fun s => PB_ENCODERS rec (f_ltype f) s f a) (scalar_wire (f_ltype f) z).
Proof.
  intros Hl. unfold rep_scalar, scalar_wire, PB_ENCODERS. ltype_cases.
  assert (f_ltype f = 0 \/ f_ltype f = 1 \/ f_ltype f = 2 \/ f_ltype f = 3
          \/ f_ltype f = 4 \/ f_ltype f = 5) as Hc by lia.
  destruct Hc as [->|[->|[->|[->|[->| ->]]]]]; simpl.
  - intros (b & Hb & ->). eapply emits_read; [by apply reads_bool|].
    destruct (b =? 0); cbn [negb]; (rewrite u64_small by (unfold in_uint; pow2; lia));
      apply pb_encode_varint_emits; unfold in_uint; pow2; lia.
  - intros (Hds & Hz & Hh). eapply emits_read; [by apply reads_sint_size|].
    apply pb_encode_varint_emits, u64_range.
  - intros (Hds & Hz & Hh). eapply emits_read; [by apply reads_uint_size|].
    assert (in_uint 64 z).
    { destruct Hds as [E|[E|[E|E]]]; rewrite E in Hz; unfold in_uint in *; simpl in *; pow2; lia. }
    rewrite u64_small by done. by apply pb_encode_varint_emits.
  - intros (Hds & Hz & Hh). eapply emits_read; [by apply reads_sint_size|].
    apply pb_encode_svarint_emits.
    destruct Hds as [E|[E|[E|E]]]; rewrite E in Hz; unfold in_sint in *; simpl in *; pow2; lia.
  - intros (Hz & Hh). eapply emits_read; [apply holds_uint; [|exact Hh]|].
    + unfold in_uint in Hz. simpl. pow2. lia.
    + rewrite fixed32_bytes_le. apply (pb_write_local_emits F m0 (le_bytes 4 z)).
  - intros (Hz & Hh). eapply emits_read; [apply holds_uint; [|exact Hh]|].
    + unfold in_uint in Hz. simpl. pow2. lia.
    + rewrite fixed64_bytes_le. apply (pb_write_local_emits F m0 (le_bytes 8 z)).
Qed.

(** ** Strings and bytes *)
Lemma null_string_emits :
  emits (fun s => pb_encode_string s (BufMem NULL) 0) (delim []).
Proof. apply (pb_encode_string_emits F m0 (BufMem NULL) []). intros k b m Hk. done. Qed.

Lemma strnlen_loop_Ok m p bs n k mx :
  bytes_at m p (if zlen bs + k <? mx then bs ++ [0] else bs) ->
  Forall (fun b => b <> 0) bs -> zlen bs + k <= mx -> (length bs < n)%nat ->
  strnlen_loop n p k mx m = Ok (zlen bs + k) m.
Proof.
  revert n p k. induction bs as [|b bs IH]; intros n p k Hb Hnz Hmx Hn.
  - destruct n as [|n]; [simpl in Hn; lia|]. cbn [strnlen_loop length app] in *.
    change (Z.of_nat 0 + k) with k in *. destruct (Z.ltb_spec k mx).
    + assert (load8 p m = Ok 0 m) as E.
      { unfold load8. specialize (Hb 0%nat 0 eq_refl). rewrite Z.add_0_r in Hb. by rewrite Hb. }
      mstep E. done.
    + done.
  - destruct n as [|n]; [simpl in Hn; lia|]. cbn [strnlen_loop]. rewrite zlen_cons in *.
    apply Forall_cons in Hnz as [Hb0 Hnz].
    destruct (Z.ltb_spec k mx); [|lia].
    assert (cells m !! p = Some b) as Hp.
    { rewrite <- (Z.add_0_r p). apply (Hb 0%nat). by destruct (_ <? _). }
    assert (load8 p m = Ok b m) as E by (unfold load8; by rewrite Hp).
    mstep E. destruct (Z.eqb_spec b 0); [done|].
    rewrite IH; [f_equal; lia| |done|lia|simpl in Hn; lia].
    replace (zlen bs + (k + 1)) with (1 + zlen bs + k) by lia.
    destruct (1 + zlen bs + k <? mx);
      [apply (bytes_at_app m p [b] (bs ++ [0])) in Hb|apply (bytes_at_app m p [b] bs) in Hb];
      apply Hb.
Qed.

Lemma string_reads f a bs :
  Forall (fun b => b <> 0) bs -> zlen bs <= string_max f ->
  holds a (if zlen bs <? string_max f then bs ++ [0] else bs) ->
  reads (strnlen a (string_max f)) (zlen bs).
Proof.
  intros Hnz Hmx [Hb HF] m Ha. unfold strnlen.
  apply (bytes_at_agree m0 m) in Hb; [|eapply agree_on_sub; [exact HF|exact Ha]].
  rewrite (strnlen_loop_Ok m a bs); rewrite ?Z.add_0_r; try done; try lia.
  pose proof (bytes_at_size _ _ _ Hb) as Hsz. destruct (_ <? _) in Hsz.
  - rewrite length_app in Hsz. simpl in Hsz. lia.
  - lia.
Qed.

Lemma bytes_emits rec f a bs :
  PB_LTYPE_LAST_PACKABLE < f_ltype f -> rep_bytes F m0 f a bs ->
  emits (fun s => PB_ENCODERS rec (f_ltype f) s f a) (delim bs).
Proof.
  intros Hl. unfold rep_bytes, PB_ENCODERS. ltype_cases.
  repeat match goal with
  | |- context [f_ltype f =? ?k] => rewrite (proj2 (Z.eqb_neq (f_ltype f) k)) by lia
  end.
  destruct (Z.eqb_spec (f_ltype f) 6) as [E6|_]; [|destruct (Z.eqb_spec (f_ltype f) 7) as [E7|_]].
  - intros [[-> ->]|(Hnn & Hlen & Hh & Hst)]; unfold pb_enc_bytes.
    + apply null_string_emits.
    + destruct (Z.eqb_spec a NULL) as [|_]; [done|].
      apply holds_app in Hh as [Hs Hd]. rewrite length_le_bytes in Hd.
      assert (reads (load_u32 a) (zlen bs)) as Hr.
      { apply holds_uint; [simpl; lia|done]. }
      pose proof (pb_encode_string_emits F m0 (BufMem (a + OFFSETOF_BYTES)) bs
                    (holds_buf F m0 _ _ Hd)) as Hw.
      destruct (Z.eqb_spec (f_atype f) PB_ATYPE_STATIC) as [Est|_].
      * eapply emits_read; [exact Hr|]. unfold PB_BYTES_ARRAY_T_ALLOCSIZE, OFFSETOF_BYTES in *.
        rewrite (u64_small (zlen bs)) by (unfold in_uint; pow2; lia).
        rewrite u64_small by (unfold in_uint; pow2; lia). specialize (Hst Est).
        destruct (Z.ltb_spec (f_data_size f) (zlen bs + 4)); [lia|done].
      * by eapply emits_read.
  - unfold pb_enc_string. fold (string_max f).
    intros [[-> ->]|(Hnn & Hnz & Hmx & Hh)].
    + eapply emits_read; [apply reads_ret|]. apply null_string_emits.
    + destruct (Z.eqb_spec a NULL) as [|_]; [done|].
      eapply emits_read; [by apply (string_reads f a bs)|].
      apply pb_encode_string_emits, holds_buf.
      destruct (_ <? _); [by apply holds_app in Hh as [? _]|done].
  - intros (E & Hlen & Hh). ltype_cases. rewrite E. simpl. unfold pb_enc_fixed_length_bytes.
    rewrite <- Hlen. apply pb_encode_string_emits. by apply holds_buf.
Qed.

(** ** Tags *)
Lemma wiretype_of_wt lt :
  0 <= lt <= PB_LTYPE_SUBMESSAGE \/ lt = PB_LTYPE_FIXED_LENGTH_BYTES ->
  wiretype_of lt = Some (wt_of lt).
Proof.
  ltype_cases. intros Hl.
  assert (lt = 0 \/ lt = 1 \/ lt = 2 \/ lt = 3 \/ lt = 4 \/ lt = 5 \/ lt = 6 \/ lt = 7
          \/ lt = 8 \/ lt = 10) as Hc by lia.
  by repeat (destruct Hc as [->|Hc]; [done|]); subst.
Qed.

Lemma tag_for_field_emits f :
  0 < f_tag f < 2 ^ 32 ->
  0 <= f_ltype f <= PB_LTYPE_SUBMESSAGE \/ f_ltype f = PB_LTYPE_FIXED_LENGTH_BYTES ->
  emits (fun s => pb_encode_tag_for_field s f) (tag_wire (wt_of (f_ltype f)) (f_tag f)).
Proof.
  intros Ht Hl. unfold pb_encode_tag_for_field. rewrite wiretype_of_wt by done.
  apply pb_encode_tag_emits; [|unfold in_uint; lia].
  unfold wt_of, PB_WT_VARINT, PB_WT_32BIT, PB_WT_64BIT, PB_WT_STRING.
  repeat case_match; lia.
Qed.

Lemma rep_item_ltype f a v :
  rep_item F m0 f a v ->
  0 <= f_ltype f <= PB_LTYPE_SUBMESSAGE \/ f_ltype f = PB_LTYPE_FIXED_LENGTH_BYTES.
Proof.
  destruct v as [z|bs|fss].
  - intros [Hl _]. ltype_cases. lia.
  - intros [Hl Hr]. unfold rep_bytes in Hr. ltype_cases.
    destruct (Z.eqb_spec (f_ltype f) 6); [lia|]. destruct (Z.eqb_spec (f_ltype f) 7); [lia|].
    destruct Hr as [Hr _]. lia.
  - intros Hr. apply rep_item_msg in Hr as [-> _]. ltype_cases. lia.
Qed.

(** ** Submessages *)
Lemma submessage_emits rec fields a w :
  emits (fun s => rec_encode rec s fields a) w ->
  emits (fun s => pb_encode_submessage rec s fields a) (delim w).
Proof.
  intros Hr Hl. pose proof (delim_length w) as Hlw. destruct (Hr ltac:(lia)) as (Hsz & Hfit & _).
  assert (forall s m, agree_on F m0 m ->
    pb_encode_submessage rec s fields a m =
    (try s := pb_encode_varint s (zlen w) in
     if is_sizing s then pb_write s (BufMem NULL) (zlen w) else
     if o_max_size s <? u64 (o_bytes_written s + zlen w) then o_error s "stream full" else
     let sub := OStream (o_callback s) (o_state s) (zlen w) 0 None in
     let* (status, sub) := rec_encode rec sub fields a in
     let s := OStream (o_callback s) (o_state sub) (o_max_size s)
                (u64 (o_bytes_written s + o_bytes_written sub)) (o_errmsg sub) in
     if negb (o_bytes_written sub =? zlen w) then o_error s "submsg size changed"
     else ret (status, s)) m) as Hunf.
  { intros s m Ha. unfold pb_encode_submessage.
    rewrite (bind_Ok _ _ _ _ _ (Hsz PB_OSTREAM_SIZING m Ha ltac:(by split)
      ltac:(simpl; pow2; lia))).
    simpl. by rewrite u64_small by (unfold in_uint; pow2; lia). }
  revert Hl. apply (emits_ext F m0 (fun s => try s' := pb_encode_varint s (zlen w) in
     if is_sizing s' then pb_write s' (BufMem NULL) (zlen w) else
     if o_max_size s' <? u64 (o_bytes_written s' + zlen w) then o_error s' "stream full" else
     let sub := OStream (o_callback s') (o_state s') (zlen w) 0 None in
     let* (status, sub) := rec_encode rec sub fields a in
     let s' := OStream (o_callback s') (o_state sub) (o_max_size s')
                (u64 (o_bytes_written s' + o_bytes_written sub)) (o_errmsg sub) in
     if negb (o_bytes_written sub =? zlen w) then o_error s' "submsg size changed"
     else ret (status, s'))).
  { intros s m Ha. symmetry. by apply Hunf. }
  intros Hl. assert (in_uint 64 (zlen w)) as Hw64 by (unfold in_uint; pow2; lia).
  revert Hl. apply emits_then; [by apply pb_encode_varint_emits|].
  apply emits_if_sizing; [intros _; apply pb_write_sizing|].
  intros Hw. split; intros s m Ha Hs Hc Hb; pose proof Hs as [Hcb He Hwr Hmx Hmp];
    unfold room in Hb; pow2;
    (rewrite (u64_small (o_bytes_written s + zlen w)) by (unfold in_uint; pow2; lia)).
  - destruct (Z.ltb_spec (o_max_size s) (o_bytes_written s + zlen w)); [lia|].
    cbv zeta. rewrite Hcb.
    rewrite (bind_Ok _ _ _ _ _ (Hfit (OStream OcbBufWrite (o_state s) (zlen w) 0 None) m Ha
      ltac:(split; unfold room; simpl; [done|done|lia|lia|eapply mapped_sub; [exact Hmp|lia|unfold room; lia]])
      ltac:(intros x Hx Hin; apply (Hc x Hx); unfold in_range, room in *; simpl in *; lia)
      ltac:(unfold room; simpl; lia))).
    simpl. rewrite Z.eqb_refl. simpl.
    unfold advanced. rewrite Hcb, He, u64_small by (unfold in_uint; pow2; lia). done.
  - destruct (Z.ltb_spec (o_max_size s) (o_bytes_written s + zlen w)); [|lia].
    unfold o_error, ret. rewrite He. eexists _, []. rewrite stored_nil.
    split_and!; [done|unfold room; simpl; lia|done].
Qed.

(** ** Arrays *)
Lemma array_loop_emits body (R : Z -> value -> Prop) (w : value -> list Z) p step items :
  (forall p v, v ∈ items -> R p v -> emits (fun s => body s p) (w v)) ->
  items_at R p step items ->
  emits (fun s => array_loop (length items) step body s p) (concat (map w items)).
Proof.
  revert p. induction items as [|v vs IH]; intros p Hb Hi; [apply emits_ret|].
  destruct Hi as [Hv Hi]. cbn [length array_loop map concat]. apply emits_then.
  - apply Hb; [apply list_elem_of_here|done].
  - apply IH; [|done]. intros q u Hu. apply Hb. by apply list_elem_of_further.
Qed.

Lemma items_at_mono (R R' : Z -> value -> Prop) p step items :
  (forall p v, R p v -> R' p v) -> items_at R p step items -> items_at R' p step items.
Proof.
  intros HR. revert p. induction items as [|v vs IH]; intros p; [done|].
  intros [Hv Hi]. split; auto.
Qed.

Lemma concat_zlen (w : value -> list Z) k items (R : Z -> value -> Prop) p step :
  (forall p v, R p v -> zlen (w v) = k) -> items_at R p step items ->
  zlen (concat (map w items)) = k * zlen items.
Proof.
  intros Hw. revert p. induction items as [|v vs IH]; intros p Hi; [simpl; lia|].
  destruct Hi as [Hv Hi]. cbn [map concat]. rewrite zlen_app, zlen_cons, (Hw p v Hv), (IH _ Hi).
  lia.
Qed.

(** A payload preceded by its size, the size being computed first. *)
Lemma sized_emits (size : M (bool * Z)) body w :
  (zlen w < 2 ^ 63 -> reads size (true, zlen w)) -> emits body w ->
  emits (fun s =>
    let* (ok, n) := size in
    if negb ok then ret (false, s) else
    try s := pb_encode_varint s n in
    if is_sizing s then pb_write s (BufMem NULL) n else body s) (delim w).
Proof.
  intros Hs Hb. apply emits_bound. intros Hl. pose proof (delim_length w).
  apply (emits_read F m0 size (true, zlen w)
    (fun x s => let (ok, n) := x in if negb ok then ret (false, s) else
      try s := pb_encode_varint s n in
      if is_sizing s then pb_write s (BufMem NULL) n else body s)); [apply Hs; lia|].
  simpl. apply emits_then; [apply pb_encode_varint_emits; unfold in_uint; pow2; lia|].
  apply emits_if_sizing; [intros _; apply pb_write_sizing|]. intros Hw. by apply Hb.
Qed.

Section Field.
Variables (rec : encode_rec) (f : pb_field_t) (R : Z -> value -> Prop) (w : value -> list Z)
  (items : list value).
Let func := PB_ENCODERS rec (f_ltype f).
Hypothesis tag_range : 0 < f_tag f < 2 ^ 32.
Hypothesis R_ltype : forall p v, R p v ->
  0 <= f_ltype f <= PB_LTYPE_SUBMESSAGE \/ f_ltype f = PB_LTYPE_FIXED_LENGTH_BYTES.
Hypothesis R_emits : forall p v, v ∈ items -> R p v -> emits (fun s => func s f p) (w v).
Hypothesis R_fixed32 : forall p v, R p v -> f_ltype f = PB_LTYPE_FIXED32 -> zlen (w v) = 4.
Hypothesis R_fixed64 : forall p v, R p v -> f_ltype f = PB_LTYPE_FIXED64 -> zlen (w v) = 8.

Lemma elem_direct p step its :
  f_ltype f <= PB_LTYPE_LAST_PACKABLE ->
  items_at (elem_at F m0 R f) p step its -> items_at R p step its.
Proof.
  intros Hl. apply items_at_mono. intros q v. unfold elem_at, elem_indirect. ltype_cases.
  destruct (Z.eqb_spec (f_ltype f) 7); [lia|]. destruct (Z.eqb_spec (f_ltype f) 6); [lia|].
  by rewrite andb_false_r.
Qed.

Lemma packed_size_reads p :
  f_ltype f <= PB_LTYPE_LAST_PACKABLE -> zlen items < 2 ^ 32 ->
  items_at R p (f_data_size f) items ->
  zlen (concat (map w items)) < 2 ^ 63 ->
  reads (if f_ltype f =? PB_LTYPE_FIXED32 then ret (true, u64 (4 * zlen items))
         else if f_ltype f =? PB_LTYPE_FIXED64 then ret (true, u64 (8 * zlen items))
         else
           let* (ok, sizestream) := array_loop (length items) (f_data_size f)
             (fun s p => func s f p) PB_OSTREAM_SIZING p in
           ret (ok, o_bytes_written sizestream))
        (true, zlen (concat (map w items))).
Proof.
  intros Hl Hn Hi Hlen. pow2.
  destruct (Z.eqb_spec (f_ltype f) PB_LTYPE_FIXED32) as [E4|_];
    [|destruct (Z.eqb_spec (f_ltype f) PB_LTYPE_FIXED64) as [E5|_]].
  - rewrite (concat_zlen w 4 items R p (f_data_size f)) by eauto.
    rewrite u64_small by (unfold in_uint; pow2; lia). apply reads_ret.
  - rewrite (concat_zlen w 8 items R p (f_data_size f)) by eauto.
    rewrite u64_small by (unfold in_uint; pow2; lia). apply reads_ret.
  - intros m Ha.
    destruct (array_loop_emits (fun s p => func s f p) R w p (f_data_size f) items R_emits Hi)
      as (Hsz & _ & _); [pow2; lia|].
    rewrite (bind_Ok _ _ _ _ _ (Hsz PB_OSTREAM_SIZING m Ha ltac:(by split)
      ltac:(simpl; pow2; lia))).
    done.
Qed.

Lemma unpacked_item_emits p v :
  v ∈ items -> elem_at F m0 R f p v ->
  emits (fun s =>
    try s := pb_encode_tag_for_field s f in
    if (f_atype f =? PB_ATYPE_POINTER)
       && ((f_ltype f =? PB_LTYPE_STRING) || (f_ltype f =? PB_LTYPE_BYTES))
    then let* q := load_ptr p in func s f q
    else func s f p) (tag_wire (wt_of (f_ltype f)) (f_tag f) ++ w v).
Proof.
  intros Hin. unfold elem_at, elem_indirect. destruct (_ && _) eqn:E.
  - intros (q & Hq & Hv). apply emits_then; [by eapply tag_for_field_emits, R_ltype|].
    eapply emits_read; [exact Hq|]. by apply R_emits.
  - intros Hv. apply emits_then; [by eapply tag_for_field_emits, R_ltype|].
    by apply R_emits.
Qed.

Lemma encode_array_emits p :
  f_htype f = PB_HTYPE_REPEATED -> zlen items < 2 ^ 32 ->
  (f_atype f <> PB_ATYPE_POINTER -> zlen items <= f_array_size f) ->
  items_at (elem_at F m0 R f) p (f_data_size f) items ->
  emits (fun s => encode_array s f p (zlen items) func) (field_wire_with w f items).
Proof.
  intros Hh Hn Hmax Hi. unfold encode_array, field_wire_with, packed. rewrite Hh. simpl.
  destruct (Z.eqb_spec (zlen items) 0) as [E0|Hne].
  { destruct items; [|simpl in E0; lia]. destruct (_ <=? _); apply emits_ret. }
  replace (negb (f_atype f =? PB_ATYPE_POINTER) && (f_array_size f <? zlen items)) with false.
  2: { destruct (Z.eqb_spec (f_atype f) PB_ATYPE_POINTER); [done|]. simpl. symmetry.
       apply Z.ltb_ge. auto. }
  rewrite Nat2Z.id. destruct (Z.leb_spec (f_ltype f) PB_LTYPE_LAST_PACKABLE) as [Hl|Hl].
  - assert (items <> []) as Hnn by (by intros ->).
    replace (match items with [] => [] | _ :: _ => _ end)
      with (tag_wire PB_WT_STRING (f_tag f) ++ delim (concat (map w items)))
      by (by destruct items).
    apply emits_then.
    { apply pb_encode_tag_emits; [done|unfold in_uint; lia]. }
    apply elem_direct in Hi; [|done].
    apply (sized_emits _ (fun s => array_loop (length items) (f_data_size f)
                                     (fun s p => func s f p) s p)).
    + by apply packed_size_reads.
    + by eapply array_loop_emits.
  - eapply array_loop_emits; [|exact Hi]. intros q v Hv Hq. by apply unpacked_item_emits.
Qed.

Hypothesis rec_checks : forall pData d,
  f_htype f = PB_HTYPE_OPTIONAL -> f_size_offset f = 0 ->
  (forall check, reads (proto3_singular check f pData) d) ->
  reads (rec_check rec f pData) d.

Definition implicit_has_of (pData : Z) : M bool :=
  if negb (f_size_offset f =? 0) then ret false
  else if f_htype f =? PB_HTYPE_OPTIONAL then
    let* d := rec_check rec f pData in ret (negb d)
  else ret true.

Lemma target_reads pData p (ih : bool) :
  field_target F m0 f pData p ->
  reads (if f_atype f =? PB_ATYPE_POINTER then
           let* p := load_ptr pData in ret (p, negb (p =? NULL))
         else ret (pData, ih))
        (p, if f_atype f =? PB_ATYPE_POINTER then negb (p =? NULL) else ih).
Proof.
  unfold field_target. destruct (_ =? _).
  - intros Hr. eapply reads_bind; [exact Hr|apply reads_ret].
  - intros (_ & -> & _). apply reads_ret.
Qed.

(** A tag followed by one item. *)
Lemma one_item_emits p v :
  v ∈ items -> R p v ->
  emits (fun s => try s := pb_encode_tag_for_field s f in func s f p)
        (tag_wire (wt_of (f_ltype f)) (f_tag f) ++ w v).
Proof.
  intros Hin Hv. apply emits_then; [by eapply tag_for_field_emits, R_ltype|by apply R_emits].
Qed.

(** What [encode_basic_field] finds out about an optional field. *)
Lemma presence_reads pData p has :
  f_htype f = PB_HTYPE_OPTIONAL -> presence F m0 f pData p has ->
  exists ih, reads (implicit_has_of pData) ih /\
    reads (match (if f_size_offset f =? 0 then None else Some (pData + f_size_offset f)) with
           | Some q => safe_read_bool q
           | None => ret (if f_atype f =? PB_ATYPE_POINTER then negb (p =? NULL) else ih)
           end) has.
Proof.
  intros Eh. unfold implicit_has_of, presence. rewrite Eh. simpl.
  destruct (Z.eqb_spec (f_size_offset f) 0) as [E|E]; simpl.
  - intros (d & Hd & ->). exists (negb d). split; [|apply reads_ret].
    eapply reads_bind; [by apply rec_checks|apply reads_ret].
  - intros Hr. exists false. split; [apply reads_ret|exact Hr].
Qed.

Lemma implicit_reads pData :
  f_htype f <> PB_HTYPE_OPTIONAL -> exists ih, reads (implicit_has_of pData) ih.
Proof.
  intros Eh. unfold implicit_has_of. apply Z.eqb_neq in Eh. rewrite Eh.
  destruct (negb _); eexists; apply reads_ret.
Qed.

Lemma field_wire_one v :
  f_htype f <> PB_HTYPE_REPEATED -> items = [v] ->
  field_wire_with w f items = tag_wire (wt_of (f_ltype f)) (f_tag f) ++ w v.
Proof.
  intros Eh ->. unfold field_wire_with, packed. apply Z.eqb_neq in Eh. rewrite Eh. simpl.
  by rewrite app_nil_r.
Qed.

Lemma field_wire_none : items = [] -> field_wire_with w f items = [].
Proof. intros ->. unfold field_wire_with. by destruct (packed f). Qed.

Lemma encode_basic_field_emits pData :
  rep_field_with F m0 R f pData items ->
  emits (fun s => encode_basic_field rec s f pData) (field_wire_with w f items).
Proof.
  intros (_ & p & Hp & Hf). unfold encode_basic_field.
  fold (implicit_has_of pData). fold func.
  destruct (Z.eqb_spec (f_htype f) PB_HTYPE_OPTIONAL) as [Eh|Eh].
  { rewrite Eh in Hf |- *. simpl in Hf. destruct Hf as (has & Hpr & Hv).
    destruct (presence_reads pData p has Eh Hpr) as (ih & Hih & Hhas).
    eapply emits_read; [exact Hih|]. eapply emits_read; [by apply target_reads|].
    simpl. eapply emits_read; [exact Hhas|]. apply oneof_inv in Hv as [(Ei & ->)|(v & Ei & -> & Hv)].
    - rewrite field_wire_none by done. apply emits_ret.
    - rewrite (field_wire_one v) by (by rewrite ?Eh). apply one_item_emits; [|done].
      rewrite Ei. apply list_elem_of_here. }
  destruct (implicit_reads pData Eh) as (ih & Hih).
  eapply emits_read; [exact Hih|]. eapply emits_read; [by apply target_reads|]. cbn beta iota.
  destruct (Z.eqb_spec (f_htype f) PB_HTYPE_REQUIRED) as [Er|_].
  { destruct Hf as (Hnn & Hv). apply single_inv in Hv as (v & Ei & Hv).
    destruct (Z.eqb_spec p NULL); [done|].
    rewrite (field_wire_one v) by (by rewrite ?Er). apply one_item_emits; [|done].
    rewrite Ei. apply list_elem_of_here. }
  destruct (Z.eqb_spec (f_htype f) PB_HTYPE_REPEATED) as [Er|En].
  { destruct Hf as (Hc & Hn & Hmax & Hi). eapply (emits_read F m0 _ (zlen items)).
    - destruct (f_size_offset f =? 0); [rewrite <- Hc; apply reads_ret|exact Hc].
    - by apply encode_array_emits. }
  destruct Hf as (Eo & Hso & which & Hw & Hv). rewrite Eo. simpl.
  apply Z.eqb_neq in Hso. rewrite Hso. eapply emits_read; [exact Hw|].
  apply oneof_inv in Hv as [(Ei & Hne)|(v & Ei & -> & Hv)].
  - destruct (Z.eqb_spec which (f_tag f)); [done|]. rewrite field_wire_none by done.
    apply emits_ret.
  - rewrite Z.eqb_refl, (field_wire_one v) by done. apply one_item_emits; [|done].
    rewrite Ei. apply list_elem_of_here.
Qed.
End Field.

(** ** Messages *)
Lemma run_list_emits {I} (body : I -> pb_ostream_t -> OStep) (its : list I) (ws : list (list Z)) :
  Forall2 (fun it w => emits (body it) w) its ws ->
  emits (fun s => run_list body its s) (concat ws).
Proof.
  induction 1 as [|it w its ws Hit _ IH]; [apply emits_ret|].
  cbn [run_list concat]. by apply (emits_then F m0 (body it) (run_list body its)).
Qed.

Lemma fields_wire_concat es fss :
  length es = length fss -> fields_wire es fss = concat (zip_with field_wire es fss).
Proof.
  revert es. induction fss as [|items fss IH]; intros [|e es] Hl; try done.
  cbn [fields_wire zip_with concat]. rewrite IH by (simpl in Hl; lia). done.
Qed.

Lemma scalar_wire_fixed f a z :
  rep_scalar F m0 f a z ->
  (f_ltype f = PB_LTYPE_FIXED32 -> zlen (scalar_wire (f_ltype f) z) = 4)
  /\ (f_ltype f = PB_LTYPE_FIXED64 -> zlen (scalar_wire (f_ltype f) z) = 8).
Proof.
  intros _. unfold scalar_wire.
  split; intros ->; simpl; done.
Qed.

Lemma rep_item_fixed f a v :
  rep_item F m0 f a v ->
  (f_ltype f = PB_LTYPE_FIXED32 -> zlen (item_wire f v) = 4)
  /\ (f_ltype f = PB_LTYPE_FIXED64 -> zlen (item_wire f v) = 8).
Proof.
  destruct v as [z|bs|fss].
  - intros [_ Hr]. by eapply scalar_wire_fixed.
  - intros [Hl _]. ltype_cases. split; lia.
  - intros Hr. apply rep_item_msg in Hr as [E _]. ltype_cases. split; lia.
Qed.

(** One item, given that submessages encode correctly. *)
Lemma item_emits rec f a v :
  (forall fs addr fss, vheight v = S (msg_height fss) -> rep_msg F m0 fs addr fss ->
     emits (fun s => rec_encode rec s fs addr) (msg_wire fs fss)) ->
  rep_item F m0 f a v ->
  emits (fun s => PB_ENCODERS rec (f_ltype f) s f a) (item_wire f v).
Proof.
  intros Hsub Hr. destruct v as [z|bs|fss].
  - destruct Hr as [Hl Hr]. by apply scalar_emits.
  - destruct Hr as [Hl Hr]. by apply bytes_emits.
  - rewrite item_wire_msg. apply rep_item_msg in Hr as (E & fs & Hp & Hm).
    unfold PB_ENCODERS. rewrite E. simpl. unfold pb_enc_submessage, submsg_fields_of, sub_fields.
    rewrite Hp. eapply emits_read; [apply reads_ret|]. apply submessage_emits. by apply Hsub.
Qed.

Lemma check_reads n f pData d :
  f_htype f = PB_HTYPE_OPTIONAL -> f_size_offset f = 0 ->
  (forall check, reads (proto3_singular check f pData) d) ->
  reads (pb_check_proto3_default_value (S n) f pData) d.
Proof. intros Eh Es Hr. cbn [pb_check_proto3_default_value]. rewrite Eh, Es. simpl. apply Hr. Qed.

Lemma list_max_in x l : x ∈ l -> (x <= list_max l)%nat.
Proof.
  intros Hx. pose proof (proj1 (list_max_le l (list_max l)) (le_n _)) as Hf.
  rewrite Forall_forall in Hf. by apply Hf.
Qed.

Lemma vheight_le fss items v :
  items ∈ fss -> v ∈ items -> (vheight v <= msg_height fss)%nat.
Proof.
  intros Hi Hv. unfold msg_height. etrans; [|apply list_max_in, list_elem_of_fmap_2, Hi].
  by apply list_max_in, list_elem_of_fmap_2.
Qed.

Lemma field_atype_case it items :
  rep_field F m0 it items ->
  (f_ltype (it_field it) =? PB_LTYPE_EXTENSION) = false
  /\ ((f_atype (it_field it) =? PB_ATYPE_STATIC) || (f_atype (it_field it) =? PB_ATYPE_POINTER))
     = true.
Proof.
  intros (Hl & p & Hp & _). split; [by apply Z.eqb_neq|]. unfold field_target in Hp.
  destruct (f_atype (it_field it) =? PB_ATYPE_POINTER); [by rewrite orb_true_r|].
  destruct Hp as (-> & _). done.
Qed.

(** The statement about messages, at some fuel. *)
Definition encodes_msgs (n : nat) : Prop :=
  forall fields addr fss,
    rep_msg F m0 fields addr fss -> (msg_height fss + 2 <= n)%nat ->
    emits (fun s => pb_encode n s fields addr) (msg_wire fields fss).

(** One field, submessages being encoded with fuel [n]. *)
Lemma field_emits n it items :
  encodes_msgs n -> 0 < f_tag (it_field it) < 2 ^ 32 -> rep_field F m0 it items ->
  (forall v, v ∈ items -> vheight v < n)%nat -> (0 < n)%nat ->
  emits (encode_one (EncodeRec (pb_encode n) (pb_check_proto3_default_value n)) n it)
        (field_wire (it_field it) items).
Proof.
  intros IH Ht Hr Hv Hn. destruct (field_atype_case it items Hr) as [El Ea].
  unfold encode_one, encode_field. rewrite El, Ea.
  eapply encode_basic_field_emits; [exact Ht| | | | | |exact Hr].
  - intros p v Hp. by eapply rep_item_ltype.
  - intros p v Hin Hp. apply item_emits; [|done]. intros fs a fss Hh Hm.
    apply IH; [done|]. specialize (Hv v Hin). lia.
  - intros p v Hp. by eapply rep_item_fixed.
  - intros p v Hp. by eapply rep_item_fixed.
  - intros pData d Eh Es Hd. destruct n as [|n]; [lia|]. by apply check_reads.
Qed.

Lemma encodes_msgs_all n : encodes_msgs n.
Proof.
  induction n as [|n IH]; intros fields addr fss [(es & -> & Htags) Hf] Hn; [lia|].
  assert (Forall (fun f => f_tag f <> 0) es) as Hnz.
  { eapply Forall_impl; [exact Htags|]. simpl. lia. }
  cbn [pb_encode]. rewrite pb_field_iter_begin_at by done.
  pose proof (Forall2_length _ _ _ Hf) as Hlen. unfold iters in Hlen.
  rewrite length_map, length_seq, nfields_app in Hlen.
  unfold msg_wire. rewrite entries_app, fields_wire_concat by done.
  destruct (decide (0 < length es)%nat) as [Hpos|Hzero].
  2: { rewrite bool_decide_false by done. destruct es; [|simpl in *; lia]. apply emits_ret. }
  rewrite bool_decide_true by done.
  eapply (emits_ext F m0 (fun s => run_list _ (iters (es ++ [PB_LAST_FIELD]) addr) s)).
  { intros s m _. symmetry. by apply for_each_field_iters. }
  apply run_list_emits. pose proof (iters_fields es Hnz addr) as Ees.
  assert (forall items v, items ∈ fss -> v ∈ items -> vheight v < n)%nat as Hv.
  { intros items v Hi Hv. pose proof (vheight_le fss items v Hi Hv). lia. }
  assert (0 < n)%nat as Hn0 by lia.
  clear Hn Hlen Hpos. rewrite <- Ees in Htags. rewrite <- Ees at 2. clear Ees.
  induction Hf as [|it items its fss Hit _ IHf]; [constructor|].
  cbn [map zip_with] in *. apply Forall_cons in Htags as [Ht Htags]. constructor.
  - apply field_emits; [done..| |].
    + intros v. apply Hv, list_elem_of_here.
    + done.
  - apply IHf; [done|]. intros items' v Hi. apply Hv. by apply list_elem_of_further.
Qed.
End EncodeSpec.
