(* ===== verification/PbDecodeSpec.v ===== *)
(** Reasoning about input streams over memory buffers, and what the decoders of
    single values do: on the wire encoding of a value they store its memory
    representation and consume exactly its bytes; values and lengths that do not
    fit are reported. *)
From stdpp Require Import base list numbers option strings gmap.
From S2P Require Import Prelude Varint Machine PbTypes PbCommon PbIter PbEncode PbDecode PbWire PbRep PbEncodeSpec.
Open Scope Z_scope.
Open Scope c_scope.

(** * Input streams *)

(** The stream [s] reads from a memory buffer that holds exactly the bytes
    [l] from its position on. *)
Record reading (s : pb_istream_t) (m : mem) (l : list Z) : Prop := {
  rd_callback : i_callback s = IcbBufRead;
  rd_left : i_bytes_left s = zlen l;
  rd_size : zlen l < 2 ^ 64;
  rd_bytes : Forall is_byte l;
  rd_at : bytes_at m (i_state s) l
}.

(** The stream after [n] more bytes were read. *)
Definition consumed (s : pb_istream_t) (n : Z) : pb_istream_t :=
  IStream (i_callback s) (i_state s + n) (i_bytes_left s - n) (i_errmsg s).

Lemma consumed_consumed s a b : consumed (consumed s a) b = consumed s (a + b).
Proof. unfold consumed; simpl. f_equal; lia. Qed.
Lemma consumed_0 s : consumed s 0 = s.
Proof. destruct s; unfold consumed; simpl. by rewrite Z.add_0_r, Z.sub_0_r. Qed.

(** The stream of a caller's buffer. *)
Lemma reading_from_buffer m a l :
  bytes_at m a l -> Forall is_byte l -> zlen l < 2 ^ 64 ->
  reading (pb_istream_from_buffer a (zlen l)) m l.
Proof. by split. Qed.

Section Reading.
Context `{App}.

Lemma reading_app s m l1 l2 : reading s m (l1 ++ l2) -> reading (consumed s (zlen l1)) m l2.
Proof.
  intros [Hc Hl Hs Hb Ha]. rewrite zlen_app in *. apply Forall_app in Hb as [_ Hb].
  apply bytes_at_app in Ha as [_ Ha]. split; simpl; try done; lia.
Qed.

(** ** Reading bytes *)
Lemma pb_readbyte_cons s m b l :
  reading s m (b :: l) -> pb_readbyte s m = Ok (Some b, consumed s 1) m.
Proof.
  intros [Hc Hl Hs Hb Ha]. rewrite zlen_cons in *. unfold pb_readbyte.
  destruct (Z.eqb_spec (i_bytes_left s) 0); [lia|].
  unfold i_call. rewrite Hc. cbn [buf_read]. change (Z.to_nat 1) with (length [b]).
  assert (bytes_at m (i_state s) [b]) as Hb1.
  { intros [|i] c Hi; [|by destruct i]. apply Ha. simpl in *. congruence. }
  rewrite bind_assoc. mstep (load_bytes_Ok m (i_state s) [b] Hb1).
  simpl. unfold i_set_left, i_set_state, consumed, bind, ret. simpl.
  rewrite u64_small by (unfold in_uint; lia). done.
Qed.

Lemma pb_readbyte_nil s m :
  reading s m [] -> pb_readbyte s m = Ok (None, i_seterr s "end-of-stream") m.
Proof. intros [Hc Hl Hs Hb Ha]. unfold pb_readbyte. by rewrite Hl. Qed.

Lemma pb_read_local s m l r :
  reading s m (l ++ r) ->
  pb_read s DstLocal (zlen l) m = Ok (true, consumed s (zlen l), l) m.
Proof.
  intros [Hc Hl Hs Hb Ha]. rewrite zlen_app in *. unfold pb_read.
  destruct (Z.eqb_spec (zlen l) 0) as [E|E].
  { destruct l; [|simpl in E; lia]. simpl. by rewrite consumed_0. }
  simpl. unfold pb_read_buf. destruct (Z.ltb_spec (i_bytes_left s) (zlen l)); [lia|].
  unfold i_call. rewrite Hc. cbn [buf_read]. rewrite Nat2Z.id, bind_assoc.
  apply bytes_at_app in Ha as [Ha _]. mstep (load_bytes_Ok m (i_state s) l Ha).
  simpl. unfold i_set_left, i_set_state, consumed, bind, ret. simpl.
  rewrite u64_small by (unfold in_uint; lia). done.
Qed.

Lemma pb_read_short s m l dst n :
  reading s m l -> zlen l < n ->
  pb_read s dst n m = Ok (false, i_seterr s "end-of-stream", []) m.
Proof.
  intros [Hc Hl Hs Hb Ha] Hn. unfold pb_read. destruct (Z.eqb_spec n 0); [lia|].
  unfold is_buf_read. rewrite Hc, andb_false_r. unfold pb_read_buf.
  destruct (Z.ltb_spec (i_bytes_left s) n); [done|lia].
Qed.

(** Skipping, the NULL destination. *)
Lemma pb_skip_app s m l r :
  reading s m (l ++ r) -> pb_skip s (zlen l) m = Ok (true, consumed s (zlen l)) m.
Proof.
  intros [Hc Hl Hs Hb Ha]. rewrite zlen_app in *. unfold pb_skip, pb_read.
  destruct (Z.eqb_spec (zlen l) 0) as [E|E].
  { destruct l; [|simpl in E; lia]. simpl. by rewrite consumed_0. }
  unfold is_buf_read. rewrite Hc, andb_false_r. unfold pb_read_buf.
  destruct (Z.ltb_spec (i_bytes_left s) (zlen l)); [lia|].
  unfold i_call. rewrite Hc. simpl. unfold i_set_left, i_set_state, consumed, bind, ret. simpl.
  rewrite u64_small by (unfold in_uint; lia). done.
Qed.

(** Copying into memory that the source does not overlap. *)
Lemma read_loop_Ok m dest source l :
  bytes_at m source l -> Forall is_byte l -> mapped m dest (zlen l) ->
  (forall x, in_range dest (zlen l) x -> ~ in_range source (zlen l) x) ->
  read_loop dest source (length l) m = Ok tt (stored m dest l).
Proof.
  revert m dest source. induction l as [|b l IH]; intros m dest source Ha Hby Hm Hd.
  - simpl. by rewrite stored_nil.
  - cbn [read_loop length]. rewrite zlen_cons in *.
    assert (load8 source m = Ok b m) as Hg.
    { unfold load8. specialize (Ha 0%nat b eq_refl). rewrite Z.add_0_r in Ha. by rewrite Ha. }
    mstep Hg. assert (store8 dest b m = Ok tt (stored m dest [b])) as Hs.
    { unfold store8. destruct (Hm dest) as [y Hy]; [unfold in_range; lia|]. by rewrite Hy. }
    mstep Hs. apply (bytes_at_app m source [b] l) in Ha as [_ Ha]. simpl in Ha.
    apply Forall_cons in Hby as [_ Hby].
    rewrite IH; [done| |done| |].
    + eapply bytes_at_agree; [|exact Ha]. apply stored_agree. intros x Hx Hin.
      apply (Hd x); unfold in_range in *; simpl in Hin; lia.
    + apply stored_mapped. eapply mapped_sub; [exact Hm|lia..].
    + intros x Hx Hin. apply (Hd x); unfold in_range in *; lia.
Qed.

Lemma pb_read_mem_app s m l r p :
  reading s m (l ++ r) -> p <> NULL -> mapped m p (zlen l) ->
  (forall x, in_range p (zlen l) x -> ~ in_range (i_state s) (zlen l) x) ->
  pb_read_mem s p (zlen l) m = Ok (true, consumed s (zlen l)) (stored m p l).
Proof.
  intros [Hc Hl Hs Hb Ha] Hp Hm Hd. rewrite zlen_app in *. unfold pb_read_mem, pb_read.
  destruct (Z.eqb_spec (zlen l) 0) as [E|E].
  { destruct l; [|simpl in E; lia]. simpl. by rewrite consumed_0, stored_nil. }
  unfold is_null_dst. apply Z.eqb_neq in Hp as Hp'. rewrite Hp'. simpl. unfold pb_read_buf.
  destruct (Z.ltb_spec (i_bytes_left s) (zlen l)); [lia|].
  unfold i_call. rewrite Hc. cbn [buf_read]. rewrite Hp', Nat2Z.id.
  apply bytes_at_app in Ha as [Ha _]. apply Forall_app in Hb as [Hb _].
  unfold bind at 1 2 3. rewrite (read_loop_Ok m p (i_state s) l Ha Hb Hm Hd).
  unfold i_set_left, i_set_state, consumed, bind, ret. simpl.
  rewrite u64_small by (unfold in_uint; lia). done.
Qed.
End Reading.

Section Varints.
Context `{App}.

(** One more round of [pb_decode_varint]. *)
Lemma varint_dec_step n s m b l k r :
  reading s m (b :: l) -> 0 <= k <= 9 -> 0 <= r < 2 ^ (7 * k) ->
  varint_dec_loop (S n) s (7 * k) r m
  = let r' := u64 (r + b mod 128 * 2 ^ (7 * k)) in
    if b <? 128 then Ok (Some r', consumed s 1) m
    else varint_dec_loop n (consumed s 1) (7 * (k + 1)) r' m.
Proof.
  intros Hs Hk Hr. cbn [varint_dec_loop].
  destruct (Z.leb_spec 64 (7 * k)); [lia|].
  mstep (pb_readbyte_cons s m b l Hs). cbn beta iota. rewrite land_7f.
  pose proof (rd_bytes _ _ _ Hs) as Hb. apply Forall_cons in Hb as [Hb _].
  rewrite land_80_test by done.
  pose proof (Z.mod_pos_bound b 128 ltac:(lia)) as Hg.
  pose proof (lor_shift_mod 64 r (b mod 128) (7 * k) ltac:(lia) Hr ltac:(lia)) as E.
  fold (u64 (Z.shiftl (b mod 128) (7 * k))) in E. rewrite E.
  fold (u64 (r + b mod 128 * 2 ^ (7 * k))).
  unfold fast8. rewrite u8_small by (unfold in_uint; lia).
  replace (7 * k + 7) with (7 * (k + 1)) by lia. by destruct (b <? 128).
Qed.

Lemma varint_dec_loop_shaped n s m l rest k r :
  varint_shaped l -> reading s m (l ++ rest) -> 0 <= k -> k + zlen l <= 10 ->
  0 <= r < 2 ^ (7 * k) -> (length l <= n)%nat ->
  varint_dec_loop n s (7 * k) r m
  = Ok (Some (u64 (r + groups_val l * 2 ^ (7 * k))), consumed s (zlen l)) m.
Proof.
  revert n s k r. induction l as [|b l IH]; intros n s k r Hsh Hs Hk Hl Hr Hn; [done|].
  rewrite zlen_cons in *. destruct n as [|n]; [simpl in Hn; lia|].
  rewrite (varint_dec_step n s m b (l ++ rest) k r Hs ltac:(lia) Hr). cbv zeta.
  apply shaped_cons in Hsh as [(Hlt & Hge & ->)|[Hge Hsh]].
  - rewrite (proj2 (Z.ltb_lt _ _) Hlt). cbn [groups_val length]. do 2 f_equal.
    rewrite Z.mul_0_r, Z.add_0_r. done.
  - destruct (Z.ltb_spec b 128); [lia|].
    rewrite IH; [|done|by apply (reading_app s m [b])|lia|lia| |simpl in Hn; lia].
    2: { apply mod_acc_bound; [lia|by apply varint_acc_bound; [lia|]]. }
    rewrite consumed_consumed. cbn [groups_val]. do 3 f_equal. rewrite u64_add_l.
    replace (7 * (k + 1)) with (7 + 7 * k) by lia.
    rewrite Z.pow_add_r by lia. change (2 ^ 7) with 128. f_equal. lia.
Qed.

(** Continuation bytes only. *)
Lemma varint_dec_loop_cont n s m l rest k r :
  Forall (fun b => 128 <= b) l -> reading s m (l ++ rest) -> 0 <= k -> k + zlen l <= 10 ->
  0 <= r < 2 ^ (7 * k) -> (length l < n)%nat ->
  exists r', 0 <= r' < 2 ^ (7 * (k + zlen l)) /\
    varint_dec_loop n s (7 * k) r m
    = varint_dec_loop (n - length l) (consumed s (zlen l)) (7 * (k + zlen l)) r' m.
Proof.
  revert n s k r. induction l as [|b l IH]; intros n s k r Hc Hs Hk Hl Hr Hn.
  - exists r. simpl. rewrite consumed_0, Z.add_0_r, Nat.sub_0_r. done.
  - rewrite zlen_cons in *. destruct n as [|n]; [simpl in Hn; lia|].
    apply Forall_cons in Hc as [Hb Hc].
    rewrite (varint_dec_step n s m b (l ++ rest) k r Hs ltac:(lia) Hr). cbv zeta.
    destruct (Z.ltb_spec b 128); [lia|].
    edestruct (IH n (consumed s 1) (k + 1)) as (r' & Hr' & E);
      [done|by apply (reading_app s m [b])|lia|lia
      |apply (mod_acc_bound 64); [lia|apply varint_acc_bound; [lia|exact Hr]]|simpl in Hn; lia|].
    exists r'. rewrite consumed_consumed in E.
    replace (k + 1 + zlen l) with (k + (1 + zlen l)) in * by lia. split; [done|exact E].
Qed.

Lemma pb_decode_varint_shaped s m l rest :
  varint_shaped l -> zlen l <= 10 -> reading s m (l ++ rest) ->
  pb_decode_varint s m = Ok (Some (u64 (groups_val l)), consumed s (zlen l)) m.
Proof.
  intros Hsh Hl Hs. unfold pb_decode_varint.
  pose proof (varint_dec_loop_shaped 11 s m l rest 0 0 Hsh Hs) as E.
  rewrite Z.mul_1_r in E. apply E; lia.
Qed.

Lemma pb_decode_varint_wire s m v rest :
  in_uint 64 v -> reading s m (varint v ++ rest) ->
  pb_decode_varint s m = Ok (Some v, consumed s (zlen (varint v))) m.
Proof.
  intros Hv Hs. pose proof (varint_length v).
  rewrite (pb_decode_varint_shaped s m (varint v) rest); [|by apply varint_is_shaped|lia|done].
  by rewrite varint_val, u64_small.
Qed.

Lemma pb_decode_varint_overflow s m l rest :
  Forall (fun b => 128 <= b) l -> length l = 10%nat -> reading s m (l ++ rest) ->
  pb_decode_varint s m = Ok (None, i_seterr (consumed s 10) "varint overflow") m.
Proof.
  intros Hc Hl Hs. unfold pb_decode_varint.
  destruct (varint_dec_loop_cont 11 s m l rest 0 0 Hc Hs) as (r' & _ & E); [lia..|].
  rewrite Hl in E. exact E.
Qed.

Lemma pb_decode_varint_eos s m l :
  Forall (fun b => 128 <= b) l -> (length l < 10)%nat -> reading s m l ->
  pb_decode_varint s m = Ok (None, i_seterr (consumed s (zlen l)) "end-of-stream") m.
Proof.
  intros Hc Hl Hs. unfold pb_decode_varint.
  assert (reading s m (l ++ [])) as Hs' by by rewrite app_nil_r.
  destruct (varint_dec_loop_cont 11 s m l [] 0 0 Hc Hs') as (r' & _ & E); [lia..|].
  rewrite Z.add_0_l in E. rewrite Z.mul_0_r in E. rewrite E.
  destruct (11 - length l)%nat as [|n] eqn:En; [lia|]. cbn [varint_dec_loop].
  destruct (Z.leb_spec 64 (7 * zlen l)); [lia|].
  apply reading_app in Hs'. by mstep (pb_readbyte_nil _ _ Hs').
Qed.

(** Every input falls in one of three cases. *)
Lemma pb_decode_varint_cases s m l :
  reading s m l ->
  (exists w rest, l = w ++ rest /\ varint_shaped w /\ zlen w <= 10
     /\ pb_decode_varint s m = Ok (Some (u64 (groups_val w)), consumed s (zlen w)) m)
  \/ (exists w rest, l = w ++ rest /\ zlen w = 10 /\ Forall (fun b => 128 <= b) w
     /\ pb_decode_varint s m = Ok (None, i_seterr (consumed s 10) "varint overflow") m)
  \/ (zlen l < 10 /\ Forall (fun b => 128 <= b) l
     /\ pb_decode_varint s m = Ok (None, i_seterr (consumed s (zlen l)) "end-of-stream") m).
Proof.
  intros Hs.
  assert ((10 <= length l)%nat -> Forall (fun b => 128 <= b) (take 10 l) ->
    exists w rest, l = w ++ rest /\ zlen w = 10 /\ Forall (fun b => 128 <= b) w
    /\ pb_decode_varint s m = Ok (None, i_seterr (consumed s 10) "varint overflow") m) as Hten.
  { intros Hl Hc. assert (length (take 10 l) = 10%nat) as Ht by (rewrite length_take; lia).
    exists (take 10 l), (drop 10 l). split_and!; [by rewrite take_drop|lia|done|].
    eapply pb_decode_varint_overflow; [exact Hc|done|]. by rewrite take_drop. }
  destruct (varint_split l (rd_bytes _ _ _ Hs)) as [(w & rest & E & Hw)|Hc].
  - destruct (Z.le_gt_cases (zlen w) 10) as [Hle|Hgt].
    + left. exists w, rest. split_and!; [done..|]. rewrite E in Hs.
      by eapply pb_decode_varint_shaped.
    + right; left. apply Hten; rewrite E; [rewrite length_app; lia|].
      rewrite take_app_le by lia. apply shaped_take; [done|lia].
  - destruct (Z.lt_ge_cases (zlen l) 10) as [Hlt|Hge].
    + right; right. split_and!; [done..|]. apply pb_decode_varint_eos; [done|lia|done].
    + right; left. apply Hten; [lia|by apply Forall_take].
Qed.

(** ** 32-bit varints *)
Lemma varint32_loop_step n s m b l k r :
  reading s m (b :: l) -> 0 <= k <= 4 -> 0 <= r < 2 ^ (7 * k) ->
  varint32_loop (S n) s (7 * k) r m
  = let r' := u32 (r + b mod 128 * 2 ^ (7 * k)) in
    if b <? 128 then Ok (Some (r', 7 * (k + 1), b), consumed s 1) m
    else varint32_loop n (consumed s 1) (7 * (k + 1)) r' m.
Proof.
  intros Hs Hk Hr. cbn [varint32_loop].
  mstep (pb_readbyte_cons s m b l Hs). cbn beta iota.
  destruct (Z.leb_spec 32 (7 * k)); [lia|]. cbn [andb]. cbv zeta. rewrite land_7f.
  pose proof (rd_bytes _ _ _ Hs) as Hb. apply Forall_cons in Hb as [Hb _].
  rewrite land_80_test by done.
  pose proof (Z.mod_pos_bound b 128 ltac:(lia)) as Hg.
  pose proof (lor_shift_mod 32 r (b mod 128) (7 * k) ltac:(lia) Hr ltac:(lia)) as E.
  fold (u32 (Z.shiftl (b mod 128) (7 * k))) in E. rewrite E.
  fold (u32 (r + b mod 128 * 2 ^ (7 * k))).
  unfold fast8. rewrite u8_small by (unfold in_uint; lia).
  replace (7 * k + 7) with (7 * (k + 1)) by lia. by destruct (b <? 128).
Qed.

Lemma varint32_loop_shaped n s m l rest k r :
  varint_shaped l -> reading s m (l ++ rest) -> 0 <= k -> k + zlen l <= 5 ->
  0 <= r < 2 ^ (7 * k) -> (length l <= n)%nat ->
  varint32_loop n s (7 * k) r m
  = Ok (Some (u32 (r + groups_val l * 2 ^ (7 * k)), 7 * (k + zlen l), List.last l 0),
        consumed s (zlen l)) m.
Proof.
  revert n s k r. induction l as [|b l IH]; intros n s k r Hsh Hs Hk Hl Hr Hn; [done|].
  rewrite zlen_cons in *. destruct n as [|n]; [simpl in Hn; lia|].
  rewrite (varint32_loop_step n s m b (l ++ rest) k r Hs ltac:(lia) Hr). cbv zeta.
  apply shaped_cons in Hsh as [(Hlt & Hge & ->)|[Hge Hsh]].
  - rewrite (proj2 (Z.ltb_lt _ _) Hlt). cbn [groups_val length last].
    rewrite Z.mul_0_r, Z.add_0_r. done.
  - destruct (Z.ltb_spec b 128); [lia|].
    rewrite IH; [|done|by apply (reading_app s m [b])|lia|lia| |simpl in Hn; lia].
    2: { apply mod_acc_bound; [lia|by apply varint_acc_bound; [lia|]]. }
    rewrite consumed_consumed, u32_add_l.
    replace (k + 1 + zlen l) with (k + (1 + zlen l)) by lia.
    assert (List.last (b :: l) 0 = List.last l 0) as -> by (by destruct l).
    cbn [groups_val]. do 5 f_equal.
    replace (7 * (k + 1)) with (7 + 7 * k) by lia.
    rewrite Z.pow_add_r by lia. change (2 ^ 7) with 128. f_equal. lia.
Qed.
End Varints.

(** The bits 4 to 6 of the last group of a five-byte varint. *)
Lemma land_70_small b : 0 <= b < 16 -> Z.land b 0x70 = 0.
Proof.
  intros Hb. replace b with (Z.land b 0x0F) by (rewrite land_0f; apply Z.mod_small; lia).
  by rewrite <- Z.land_assoc, Z.land_0_r.
Qed.

Lemma land_70_large b : 16 <= b < 128 -> Z.land b 0x70 <> 0.
Proof.
  intros Hb E. assert (Z.land b 0x7F = b) as E1 by (rewrite land_7f; apply Z.mod_small; lia).
  change 0x7F with (Z.lor 0x70 0x0F) in E1. rewrite Z.land_lor_distr_r, E, Z.lor_0_l, land_0f in E1.
  pose proof (Z.mod_pos_bound b 16 ltac:(lia)). lia.
Qed.

(** The last byte of a five-byte varint tells whether 32 bits are enough. *)
Lemma shaped_last_test l :
  varint_shaped l -> zlen l = 5 ->
  (Z.land (List.last l 0) 0x70 =? 0) = (groups_val l <? 2 ^ 32).
Proof.
  intros Hs Hl. destruct (shaped_snoc l Hs) as (l' & b & -> & Hb).
  rewrite last_last, groups_val_snoc. rewrite zlen_app in Hl. simpl in Hl.
  assert (zlen l' = 4) as E by lia. pose proof (groups_val_bound l') as Hv.
  rewrite E in *. rewrite Z.mod_small by lia. change (128 ^ 4) with (2 ^ 28) in *.
  change (2 ^ 32) with (16 * 2 ^ 28). pow2.
  destruct (Z.ltb_spec (groups_val l' + b * 268435456) (16 * 268435456)).
  - apply Z.eqb_eq, land_70_small. lia.
  - apply Z.eqb_neq, land_70_large. lia.
Qed.

Section Varint32.
Context `{App}.

(** [pb_decode_varint32] on a varint of at most five bytes: its value, or
    "varint overflow" if that needs more than 32 bits. *)
Lemma pb_decode_varint32_eof_shaped s m l rest :
  varint_shaped l -> zlen l <= 5 -> reading s m (l ++ rest) ->
  pb_decode_varint32_eof s m
  = Ok (if groups_val l <? 2 ^ 32 then (Some (groups_val l), consumed s (zlen l), false)
        else (None, i_seterr (consumed s (zlen l)) "varint overflow", false)) m.
Proof.
  intros Hsh Hl Hs. unfold pb_decode_varint32_eof.
  destruct l as [|b l]; [done|]. rewrite zlen_cons in *.
  mstep (pb_readbyte_cons s m b (l ++ rest) Hs). cbn beta iota.
  pose proof (rd_bytes _ _ _ Hs) as Hb. apply Forall_cons in Hb as [Hb _].
  rewrite land_80_test by done. pose proof Hsh as Hsh'.
  apply shaped_cons in Hsh as [(Hlt & Hge & ->)|[Hge Hsh]].
  - rewrite (proj2 (Z.ltb_lt _ _) Hlt). cbn [groups_val length]. rewrite Z.mod_small by lia.
    destruct (Z.ltb_spec (b + 128 * 0) (2 ^ 32)); [|lia].
    unfold ret. by rewrite Z.mul_0_r, Z.add_0_r.
  - destruct (Z.ltb_spec b 128); [lia|].
    pose proof (reading_app s m [b] (l ++ rest) Hs) as Hs1. change (zlen [b]) with 1 in Hs1.
    pose proof (Z.mod_pos_bound b 128 ltac:(lia)) as Hmod. rewrite land_7f.
    assert (length l <= stream_rounds (consumed s 1))%nat as Hr.
    { unfold stream_rounds. rewrite (rd_left _ _ _ Hs1), length_app. lia. }
    pose proof (varint32_loop_shaped _ _ m l rest 1 (b mod 128) Hsh Hs1 ltac:(lia) ltac:(lia)
                  ltac:(simpl; lia) Hr) as E.
    change (7 * 1) with 7 in E. mstep E. cbn beta iota. rewrite consumed_consumed.
    change (2 ^ 7) with 128. rewrite (Z.mul_comm _ 128).
    change (b mod 128 + 128 * groups_val l) with (groups_val (b :: l)).
    pose proof (groups_val_bound (b :: l)) as Hv. rewrite zlen_cons in Hv.
    destruct (Z.eqb_spec (7 * (1 + zlen l)) 35) as [E5|E5]; cbn [andb].
    + assert (List.last l 0 = List.last (b :: l) 0) as -> by (by destruct l).
      rewrite shaped_last_test by (done || (rewrite zlen_cons; lia)).
      destruct (Z.ltb_spec (groups_val (b :: l)) (2 ^ 32)); cbn [negb]; [|done].
      rewrite u32_small by (unfold in_uint; lia). done.
    + assert (groups_val (b :: l) < 2 ^ 32) as Hlt.
      { eapply Z.lt_le_trans; [apply Hv|]. change (2 ^ 32) with (16 * 128 ^ 4).
        transitivity (128 ^ 4); [apply Z.pow_le_mono_r; lia|lia]. }
      rewrite (proj2 (Z.ltb_lt _ _) Hlt).
      rewrite u32_small by (unfold in_uint; lia). done.
Qed.

Lemma pb_decode_varint32_wire s m v rest :
  in_uint 32 v -> reading s m (varint v ++ rest) ->
  pb_decode_varint32 s m = Ok (Some v, consumed s (zlen (varint v))) m.
Proof.
  intros Hv Hs. unfold pb_decode_varint32.
  mstep (pb_decode_varint32_eof_shaped s m (varint v) rest
    (varint_is_shaped v (uint32_64 v Hv)) (varint_zlen5 v Hv) Hs).
  rewrite varint_val by (by apply uint32_64).
  unfold in_uint in Hv. by rewrite (proj2 (Z.ltb_lt v (2 ^ 32))) by lia.
Qed.

(** ** Tags *)
Lemma tag_split wt tag : 0 <= wt < 8 -> Z.land (tag * 8 + wt) 7 = wt /\ (tag * 8 + wt) ≫ 3 = tag.
Proof.
  intros Hw. rewrite land_07, shiftr_div by lia. change (2 ^ 3) with 8.
  rewrite Z.add_comm, Z_mod_plus_full, Z.mod_small by lia.
  rewrite Z_div_plus_full, Z.div_small by lia. lia.
Qed.

Lemma pb_decode_tag_wire s m wt tag rest :
  0 <= wt < 8 -> 0 < tag < 2 ^ 29 -> reading s m (tag_wire wt tag ++ rest) ->
  pb_decode_tag s m
  = Ok (TagResult true wt tag false, consumed s (zlen (tag_wire wt tag))) m.
Proof.
  intros Hw Ht Hs. unfold pb_decode_tag, tag_wire in *.
  assert (in_uint 32 (tag * 8 + wt)) as Hv by (unfold in_uint; pow2; lia).
  mstep (pb_decode_varint32_eof_shaped s m _ rest
    (varint_is_shaped _ (uint32_64 _ Hv)) (varint_zlen5 _ Hv) Hs).
  rewrite varint_val by (by apply uint32_64).
  unfold in_uint in Hv. rewrite (proj2 (Z.ltb_lt (tag * 8 + wt) (2 ^ 32))) by lia.
  cbn beta iota. destruct (Z.eqb_spec (tag * 8 + wt) 0); [lia|].
  destruct (tag_split wt tag Hw) as [E1 E2]. by rewrite E1, E2.
Qed.

(** ** Substreams *)
Lemma pb_make_string_substream_wire s m w rest :
  zlen w < 2 ^ 32 -> reading s m (delim w ++ rest) ->
  let s1 := consumed s (zlen (varint (zlen w))) in
  pb_make_string_substream s m
  = Ok (Some (i_set_left s1 (zlen w)), i_set_left s1 (zlen rest)) m
  /\ reading (i_set_left s1 (zlen w)) m w.
Proof.
  intros Hw Hs s1. unfold delim in Hs. rewrite <- app_assoc in Hs.
  assert (in_uint 32 (zlen w)) as Hv by (unfold in_uint; lia).
  pose proof (reading_app _ _ _ _ Hs) as Hs1. fold s1 in Hs1.
  pose proof Hs1 as [Hc Hl Hsz Hb Ha]. rewrite zlen_app in *. split.
  - unfold pb_make_string_substream.
    mstep (pb_decode_varint32_wire s m (zlen w) (w ++ rest) Hv Hs). cbn beta iota.
    fold s1. destruct (Z.ltb_spec (i_bytes_left s1) (zlen w)); [lia|].
    rewrite u64_small by (unfold in_uint; lia).
    unfold ret. do 4 f_equal. lia.
  - apply Forall_app in Hb as [Hb _]. apply bytes_at_app in Ha as [Ha _].
    split; simpl; try done; lia.
Qed.

(** Closing a substream that was read to its end, or not: the parent goes on
    after it. *)
Lemma pb_close_string_substream_Ok s sub m l r :
  reading sub m l -> i_state sub + zlen l = i_state s + r ->
  pb_close_string_substream s sub m
  = Ok (true, i_set_errmsg (i_set_state s (i_state s + r)) (i_errmsg sub)) m.
Proof.
  intros Hs E. unfold pb_close_string_substream.
  rewrite (rd_left _ _ _ Hs). destruct (Z.eqb_spec (zlen l) 0) as [E0|E0]; cbn [negb].
  - unfold bind, ret. cbn. do 3 f_equal. unfold i_set_state. f_equal. lia.
  - assert (reading sub m (l ++ [])) as Hs' by by rewrite app_nil_r.
    mstep (pb_skip_app sub m l [] Hs'). cbn beta iota. unfold ret.
    unfold i_set_state, i_set_errmsg, consumed. simpl. by rewrite E.
Qed.
End Varint32.

(** * Values *)

(** * Scalars in memory *)

(** The scalars a field can hold, and the bytes it holds them in. *)
Definition scalar_ok (f : pb_field_t) (z : Z) : Prop :=
  let ds := f_data_size f in
  if f_ltype f =? PB_LTYPE_BOOL then z = 0 \/ z = 1
  else if f_ltype f =? PB_LTYPE_FIXED32 then in_uint 32 z
  else if f_ltype f =? PB_LTYPE_FIXED64 then in_uint 64 z
  else if f_ltype f =? PB_LTYPE_UVARINT then int_size ds /\ in_uint (8 * ds) z
  else int_size ds /\ in_sint (8 * ds) z.

Definition scalar_bytes (f : pb_field_t) (z : Z) : list Z :=
  let ds := f_data_size f in
  if f_ltype f =? PB_LTYPE_BOOL then [z]
  else if f_ltype f =? PB_LTYPE_FIXED32 then le_bytes 4 z
  else if f_ltype f =? PB_LTYPE_FIXED64 then le_bytes 8 z
  else le_bytes (Z.to_nat ds) (z mod 2 ^ (8 * ds)).

Lemma le_bytes_holds F m a n z :
  (forall x, in_range a (Z.of_nat n) x -> F x) -> bytes_at m a (le_bytes n z) ->
  holds F m a (le_bytes n z).
Proof. intros HF Hb. split; [done|]. by rewrite length_le_bytes. Qed.

Lemma scalar_bytes_rep F m f a z :
  scalar_ok f z -> holds F m a (scalar_bytes f z) -> rep_scalar F m f a z.
Proof.
  unfold scalar_ok, scalar_bytes, rep_scalar.
  destruct (Z.eqb_spec (f_ltype f) PB_LTYPE_BOOL).
  { intros [-> | ->] Hh; eexists; split; eauto. }
  destruct (f_ltype f =? PB_LTYPE_FIXED32); [done|].
  destruct (f_ltype f =? PB_LTYPE_FIXED64); [done|].
  destruct (f_ltype f =? PB_LTYPE_UVARINT); intros [Hds Hz] Hh; split_and!; try done.
  unfold in_uint in Hz. by rewrite Z.mod_small in Hh by done.
Qed.

Lemma scalar_bytes_bytes f z : scalar_ok f z -> Forall is_byte (scalar_bytes f z).
Proof.
  unfold scalar_ok, scalar_bytes. intros Hok.
  repeat case_match; try apply le_bytes_bytes.
  constructor; [|done]. destruct Hok as [-> | ->]; unfold in_uint; pow2; lia.
Qed.

(** ** Fixed-width integers *)
Lemma or_bytes_val sh l :
  0 <= sh -> Forall is_byte l -> or_bytes sh l = Z.shiftl (le_val l) sh.
Proof.
  intros Hs Hb. revert sh Hs. induction Hb as [|b l Hb Hl IH]; intros sh Hs.
  - simpl. by rewrite Z.shiftl_0_l.
  - cbn [or_bytes le_val]. rewrite IH by lia.
    pose proof (le_val_range l Hl) as Hr. unfold in_uint in Hb. change (2 ^ 8) with 256 in Hb.
    replace (b + 256 * le_val l) with (Z.lor b (Z.shiftl (le_val l) 8)).
    + rewrite Z.shiftl_lor, Z.shiftl_shiftl by lia. do 2 f_equal. lia.
    + rewrite lor_shiftl_add by (pow2; lia). change (2 ^ 8) with 256. lia.
Qed.

Lemma or_bytes_le n z :
  0 <= z < 256 ^ Z.of_nat n -> or_bytes 0 (le_bytes n z) = z.
Proof.
  intros Hz. rewrite or_bytes_val by (lia || apply le_bytes_bytes).
  by rewrite Z.shiftl_0_r, le_val_bytes.
Qed.

Section Scalars.
Context `{App}.

Lemma store_le_Ok m a n z :
  mapped m a (Z.of_nat n) -> store_le a n z m = Ok tt (stored m a (le_bytes n z)).
Proof. intros Hm. apply store_bytes_Ok. by rewrite length_le_bytes. Qed.

Lemma store_le_bind {B} m a n z (k : unit -> M B) :
  mapped m a (Z.of_nat n) ->
  bind (store_le a n z) k m = k tt (stored m a (le_bytes n z)).
Proof. intros Hm. by mstep (store_le_Ok m a n z Hm). Qed.

Lemma unzigzag_spec v : in_sint 64 v -> unzigzag (zigzag_spec v) = v.
Proof.
  intros Hv. unfold unzigzag, zigzag_spec. rewrite land_01, shiftr_div by lia.
  change (2 ^ 1) with 2. unfold Z.lnot. destruct (Z.ltb_spec v 0).
  - replace ((-2 * v - 1) mod 2) with 1 by (Z.to_euclidean_division_equations; lia).
    cbn [Z.eqb]. replace ((-2 * v - 1) / 2) with (- v - 1) by (Z.to_euclidean_division_equations; lia).
    replace (Z.pred (- (- v - 1))) with v by lia. unfold s64, u64. by apply sint_uint.
  - replace ((2 * v) mod 2) with 0 by (Z.to_euclidean_division_equations; lia).
    cbn [Z.eqb]. replace (2 * v / 2) with v by (Z.to_euclidean_division_equations; lia).
    by apply sint_small.
Qed.

(** The stores of the varint decoders, for a value that fits. *)
Lemma store_sint_fits ds a z m :
  int_size ds -> in_sint (8 * ds) z -> mapped m a ds ->
  store_sint ds a z m
  = Ok (Some z) (stored m a (le_bytes (Z.to_nat ds) (z mod 2 ^ (8 * ds)))).
Proof.
  intros Hds Hz Hm. unfold store_sint.
  destruct Hds as [->|[->|[->| ->]]]; cbn [Z.eqb Pos.eqb];
    (rewrite store_le_bind by exact Hm);
    (unfold s8, s16, s32, s64; rewrite sint_small by (lia || done)); reflexivity.
Qed.

Lemma store_uint_fits ds a z m :
  int_size ds -> in_uint (8 * ds) z -> mapped m a ds ->
  store_uint ds a z m
  = Ok (Some z) (stored m a (le_bytes (Z.to_nat ds) (z mod 2 ^ (8 * ds)))).
Proof.
  intros Hds Hz Hm. unfold store_uint.
  destruct Hds as [->|[->|[->| ->]]]; cbn [Z.eqb Pos.eqb];
    (rewrite store_le_bind by exact Hm);
    (rewrite ?u8_small, ?u16_small, ?u32_small, ?u64_small by done);
    rewrite Z.mod_small by done; reflexivity.
Qed.

(** The bytes of a truncated value. *)
Lemma le_bytes_u8 z : le_bytes 1 (z mod 2 ^ 8) = le_bytes 1 z.
Proof. exact (le_bytes_mod 1 z). Qed.
Lemma le_bytes_u16 z : le_bytes 2 (z mod 2 ^ 16) = le_bytes 2 z.
Proof. exact (le_bytes_mod 2 z). Qed.
Lemma le_bytes_u32 z : le_bytes 4 (z mod 2 ^ 32) = le_bytes 4 z.
Proof. exact (le_bytes_mod 4 z). Qed.
Lemma le_bytes_u64 z : le_bytes 8 (z mod 2 ^ 64) = le_bytes 8 z.
Proof. exact (le_bytes_mod 8 z). Qed.

Lemma store_uint_any ds a z m :
  int_size ds -> mapped m a ds ->
  store_uint ds a z m = Ok (Some (z mod 2 ^ (8 * ds))) (stored m a (le_bytes (Z.to_nat ds) z)).
Proof.
  intros Hds Hm. unfold store_uint.
  destruct Hds as [->|[->|[->| ->]]]; cbn [Z.eqb Pos.eqb];
    (rewrite store_le_bind by exact Hm); unfold u8, u16, u32, u64;
    rewrite ?le_bytes_u8, ?le_bytes_u16, ?le_bytes_u32, ?le_bytes_u64; reflexivity.
Qed.

Lemma store_sint_any ds a z m :
  int_size ds -> mapped m a ds ->
  store_sint ds a z m = Ok (Some (sint (8 * ds) z)) (stored m a (le_bytes (Z.to_nat ds) z)).
Proof.
  intros Hds Hm. unfold store_sint.
  destruct Hds as [->|[->|[->| ->]]]; cbn [Z.eqb Pos.eqb];
    (rewrite store_le_bind by exact Hm); unfold u8, u16, u32, u64;
    rewrite ?le_bytes_u8, ?le_bytes_u16, ?le_bytes_u32, ?le_bytes_u64; reflexivity.
Qed.

Lemma int_size_sint ds z : int_size ds -> in_sint (8 * ds) z -> in_sint 64 z.
Proof. intros [->|[->|[->| ->]]] Hz; unfold in_sint in *; simpl in *; pow2; lia. Qed.
Lemma int_size_uint ds z : int_size ds -> in_uint (8 * ds) z -> in_uint 64 z.
Proof. intros [->|[->|[->| ->]]] Hz; unfold in_uint in *; simpl in *; pow2; lia. Qed.

(** The cast of the varint to a signed type restores the value. *)
Lemma s32_u64 z : s32 (u64 z) = s32 z.
Proof.
  unfold s32, sint, u64. rewrite (Z.mod_eq z (2 ^ 64)) by lia.
  replace (z - 2 ^ 64 * (z / 2 ^ 64) + 2 ^ (32 - 1))
    with (z + 2 ^ (32 - 1) + (- (2 ^ 32 * (z / 2 ^ 64))) * 2 ^ 32) by (change (2 ^ 64) with (2 ^ 32 * 2 ^ 32); lia).
  by rewrite Z_mod_plus_full.
Qed.

Lemma varint_sign ds z :
  int_size ds -> in_sint (8 * ds) z -> (if ds =? 8 then s64 (u64 z) else s32 (u64 z)) = z.
Proof.
  intros [->|[->|[->| ->]]] Hz; cbn [Z.eqb Pos.eqb]; [| | |by apply sint_uint];
    rewrite s32_u64; apply sint_small; unfold in_sint in *; simpl in *; pow2; lia.
Qed.

(** Decoding the encoding of a scalar. *)
Lemma decode_scalar_wire rec f s m z rest dest :
  0 <= f_ltype f <= PB_LTYPE_LAST_PACKABLE -> scalar_ok f z ->
  reading s m (scalar_wire (f_ltype f) z ++ rest) ->
  mapped m dest (zlen (scalar_bytes f z)) ->
  PB_DECODERS rec (f_ltype f) s f dest m
  = Ok (true, consumed s (zlen (scalar_wire (f_ltype f) z))) (stored m dest (scalar_bytes f z)).
Proof.
  intros Hl. unfold scalar_ok, scalar_bytes, scalar_wire, PB_DECODERS. ltype_cases.
  assert (f_ltype f = 0 \/ f_ltype f = 1 \/ f_ltype f = 2 \/ f_ltype f = 3
          \/ f_ltype f = 4 \/ f_ltype f = 5) as Hc by lia.
  destruct Hc as [->|[->|[->|[->|[->| ->]]]]]; cbn [Z.eqb Pos.eqb].
  - intros Hz Hs Hm. assert (in_uint 32 z) as Hz32 by (unfold in_uint; pow2; lia).
    rewrite u64_small in * by (by apply uint32_64).
    unfold pb_dec_bool. mstep (pb_decode_varint32_wire s m z rest Hz32 Hs). cbn beta iota.
    assert (store8 dest (if z =? 0 then 0 else 1) m = Ok tt (stored m dest [z])) as E.
    { unfold store8. destruct (Hm dest) as [y Hy]; [unfold in_range; simpl; lia|]. rewrite Hy.
      destruct Hz as [-> | ->]; reflexivity. }
    by mstep E.
  - intros [Hds Hz] Hs Hm. pose proof (int_size_sint _ _ Hds Hz) as Hz64.
    rewrite length_le_bytes, Z2Nat.id in Hm by (destruct Hds as [->|[->|[->| ->]]]; lia).
    unfold pb_dec_varint. mstep (pb_decode_varint_wire s m (u64 z) rest (u64_range z) Hs).
    cbn beta iota. rewrite (varint_sign _ z Hds Hz).
    mstep (store_sint_fits _ _ _ _ Hds Hz Hm). unfold check_clamped.
    by rewrite Z.eqb_refl.
  - intros [Hds Hz] Hs Hm. pose proof (int_size_uint _ _ Hds Hz) as Hz64.
    rewrite length_le_bytes, Z2Nat.id in Hm by (destruct Hds as [->|[->|[->| ->]]]; lia).
    rewrite u64_small in * by done.
    unfold pb_dec_uvarint. mstep (pb_decode_varint_wire s m z rest Hz64 Hs).
    cbn beta iota. mstep (store_uint_fits _ _ _ _ Hds Hz Hm). unfold check_clamped.
    by rewrite Z.eqb_refl.
  - intros [Hds Hz] Hs Hm. pose proof (int_size_sint _ _ Hds Hz) as Hz64.
    rewrite length_le_bytes, Z2Nat.id in Hm by (destruct Hds as [->|[->|[->| ->]]]; lia).
    unfold pb_dec_svarint, pb_decode_svarint. rewrite bind_assoc.
    mstep (pb_decode_varint_wire s m _ rest (zigzag_spec_range z Hz64) Hs). cbn beta iota.
    rewrite bind_ret. cbn beta iota delta [fmap option_fmap option_map].
    rewrite unzigzag_spec by done.
    mstep (store_sint_fits _ _ _ _ Hds Hz Hm). unfold check_clamped.
    by rewrite Z.eqb_refl.
  - intros Hz Hs Hm. unfold pb_dec_fixed32, pb_decode_fixed32.
    mstep (pb_read_local s m (le_bytes 4 z) rest Hs). cbn beta iota.
    rewrite or_bytes_le by (unfold in_uint in Hz; simpl; pow2; lia).
    rewrite u32_small by done. by rewrite store_le_bind by exact Hm.
  - intros Hz Hs Hm. unfold pb_dec_fixed64, pb_decode_fixed64.
    mstep (pb_read_local s m (le_bytes 8 z) rest Hs). cbn beta iota.
    rewrite or_bytes_le by (unfold in_uint in Hz; simpl; pow2; lia).
    rewrite u64_small by done. by rewrite store_le_bind by exact Hm.
Qed.
End Scalars.

(** * Strings and bytes of static fields *)
Section Strings.
Context `{App}.
Variables (f : pb_field_t) (s : pb_istream_t) (m : mem) (bs rest : list Z) (dest : Z).
Hypothesis static : f_atype f = PB_ATYPE_STATIC.
Hypothesis size32 : zlen bs < 2 ^ 32.
Hypothesis src : reading s m (delim bs ++ rest).
Let n := zlen (delim bs).

(** The stream after the length. *)
Let s1 := consumed s (zlen (varint (zlen bs))).

Lemma delim_reading : reading s1 m (bs ++ rest).
Proof. apply reading_app. by rewrite app_assoc. Qed.

Lemma delim_size_read :
  pb_decode_varint32 s m = Ok (Some (zlen bs), s1) m.
Proof.
  apply (pb_decode_varint32_wire s m (zlen bs) (bs ++ rest)).
  - unfold in_uint. lia.
  - by rewrite app_assoc.
Qed.

Lemma consumed_delim : consumed s1 (zlen bs) = consumed s n.
Proof. unfold s1, n, delim. by rewrite consumed_consumed, zlen_app. Qed.

(** The destination lies apart from the rest of the input. *)
Definition apart (a k : Z) : Prop := forall x, in_range a k x -> ~ in_range (i_state s) (i_bytes_left s) x.

Lemma reading_stored a l :
  (forall x, in_range a (zlen l) x -> ~ in_range (i_state s) (i_bytes_left s) x) ->
  reading s1 (stored m a l) (bs ++ rest).
Proof.
  intros Hap. destruct delim_reading as [Hc Hl Hsz Hb Ha]. split; try done.
  eapply bytes_at_agree; [|exact Ha]. apply stored_agree. intros x Hx Hin.
  apply (Hap x Hin). pose proof (rd_left _ _ _ src) as Hleft.
  unfold delim in Hleft. rewrite <- app_assoc, zlen_app in Hleft.
  unfold in_range in *. unfold s1 in *. simpl in *. lia.
Qed.

Lemma read_tail a l :
  (forall x, in_range a (zlen l) x -> ~ in_range (i_state s) (i_bytes_left s) x) ->
  a + zlen l <> NULL -> mapped m (a + zlen l) (zlen bs) -> apart (a + zlen l) (zlen bs) ->
  pb_read_mem s1 (a + zlen l) (zlen bs) (stored m a l)
  = Ok (true, consumed s n) (stored m a (l ++ bs)).
Proof.
  intros Hap Hnn Hm Hbs. rewrite <- consumed_delim, stored_app.
  apply (pb_read_mem_app s1 _ bs rest); [by apply reading_stored|done|by apply stored_mapped|].
  intros x Hx Hin. apply (Hbs x Hx). pose proof (rd_left _ _ _ src) as Hleft.
  unfold delim in Hleft. rewrite <- app_assoc, !zlen_app in Hleft.
  unfold in_range in *. unfold s1 in *. simpl in *. lia.
Qed.

Lemma dec_bytes_fits :
  OFFSETOF_BYTES + zlen bs <= f_data_size f -> 0 < dest ->
  mapped m dest (f_data_size f) -> apart dest (f_data_size f) ->
  pb_dec_bytes s f dest m
  = Ok (true, consumed s n) (stored m dest (le_bytes 4 (zlen bs) ++ bs)).
Proof.
  unfold OFFSETOF_BYTES. intros Hfit Hd Hm Hap. unfold pb_dec_bytes.
  mstep delim_size_read. cbn beta iota.
  unfold PB_BYTES_ARRAY_T_ALLOCSIZE, OFFSETOF_BYTES.
  destruct (Z.ltb_spec PB_SIZE_MAX (zlen bs)) as [Hbig|_].
  { change PB_SIZE_MAX with (2 ^ 32 - 1) in Hbig. lia. }
  rewrite (u64_small (zlen bs)) by (unfold in_uint; pow2; lia).
  rewrite u64_small by (unfold in_uint; pow2; lia).
  destruct (Z.ltb_spec (zlen bs + 4) (zlen bs)); [lia|]. rewrite static. change (PB_ATYPE_STATIC =? PB_ATYPE_POINTER) with false.
  destruct (Z.ltb_spec (f_data_size f) (zlen bs + 4)); [lia|].
  unfold store_u32. rewrite store_le_bind by (eapply mapped_sub; [exact Hm|simpl; lia..]).
  apply (read_tail dest (le_bytes 4 (zlen bs))); rewrite length_le_bytes; simpl.
  - intros x Hx. apply Hap. unfold in_range in *. lia.
  - unfold NULL. lia.
  - eapply mapped_sub; [exact Hm|lia..].
  - intros x Hx. apply Hap. unfold in_range in *. lia.
Qed.

Lemma dec_bytes_overflow :
  f_data_size f < OFFSETOF_BYTES + zlen bs ->
  pb_dec_bytes s f dest m = Ok (false, i_seterr s1 "bytes overflow") m.
Proof.
  unfold OFFSETOF_BYTES. intros Hbig. unfold pb_dec_bytes.
  mstep delim_size_read. cbn beta iota.
  unfold PB_BYTES_ARRAY_T_ALLOCSIZE, OFFSETOF_BYTES.
  destruct (Z.ltb_spec PB_SIZE_MAX (zlen bs)) as [Hb|_]; [done|].
  rewrite (u64_small (zlen bs)) by (unfold in_uint; pow2; lia).
  rewrite u64_small by (unfold in_uint; pow2; lia).
  destruct (Z.ltb_spec (zlen bs + 4) (zlen bs)); [lia|]. rewrite static. change (PB_ATYPE_STATIC =? PB_ATYPE_POINTER) with false.
  destruct (Z.ltb_spec (f_data_size f) (zlen bs + 4)); [done|lia].
Qed.

Lemma dec_string_fits :
  zlen bs + 1 <= f_data_size f < 2 ^ 32 -> 0 < dest ->
  mapped m dest (f_data_size f) -> apart dest (f_data_size f) ->
  pb_dec_string s f dest m = Ok (true, consumed s n) (stored m dest (bs ++ [0])).
Proof.
  intros Hfit Hd Hm Hap. unfold pb_dec_string. mstep delim_size_read. cbn beta iota.
  rewrite u32_small by (unfold in_uint; pow2; lia).
  destruct (Z.ltb_spec (zlen bs + 1) (zlen bs)); [lia|]. rewrite static. change (PB_ATYPE_STATIC =? PB_ATYPE_POINTER) with false.
  destruct (Z.ltb_spec (f_data_size f) (zlen bs + 1)); [lia|].
  pose proof (read_tail dest []) as E. simpl in E. rewrite Z.add_0_r, stored_nil in E.
  rewrite (bind_Ok _ _ _ _ _ (E ltac:(unfold in_range; lia) ltac:(unfold NULL; lia)
    ltac:(eapply mapped_sub; [exact Hm|lia..])
    ltac:(intros x Hx; apply Hap; unfold in_range in *; lia))).
  cbn beta iota.
  assert (store8 (dest + zlen bs) 0 (stored m dest bs)
          = Ok tt (stored m dest (bs ++ [0]))) as E0.
  { rewrite stored_app. unfold store8.
    destruct (stored_mapped m dest bs dest (f_data_size f) Hm (dest + zlen bs)) as [y Hy].
    - unfold in_range. lia.
    - by rewrite Hy. }
  by mstep E0.
Qed.

Lemma dec_string_overflow :
  f_data_size f < zlen bs + 1 < 2 ^ 32 ->
  pb_dec_string s f dest m = Ok (false, i_seterr s1 "string overflow") m.
Proof.
  intros Hbig. unfold pb_dec_string. mstep delim_size_read. cbn beta iota.
  rewrite u32_small by (unfold in_uint; pow2; lia).
  destruct (Z.ltb_spec (zlen bs + 1) (zlen bs)); [lia|]. rewrite static. change (PB_ATYPE_STATIC =? PB_ATYPE_POINTER) with false.
  destruct (Z.ltb_spec (f_data_size f) (zlen bs + 1)); [done|lia].
Qed.

Lemma dec_fixed_length_fits :
  zlen bs = f_data_size f -> 0 < dest -> 0 < zlen bs ->
  mapped m dest (f_data_size f) -> apart dest (f_data_size f) ->
  pb_dec_fixed_length_bytes s f dest m = Ok (true, consumed s n) (stored m dest bs).
Proof.
  intros Hfit Hd Hpos Hm Hap. unfold pb_dec_fixed_length_bytes.
  mstep delim_size_read. cbn beta iota.
  destruct (Z.ltb_spec PB_SIZE_MAX (zlen bs)) as [Hbig|_].
  { change PB_SIZE_MAX with (2 ^ 32 - 1) in Hbig. lia. }
  destruct (Z.eqb_spec (zlen bs) 0); [lia|]. rewrite Hfit, Z.eqb_refl. cbn [negb].
  rewrite <- Hfit. pose proof (read_tail dest []) as E.
  simpl in E. rewrite Z.add_0_r, stored_nil in E. rewrite <- Hfit in *.
  apply E; [unfold in_range; lia|unfold NULL; lia|done|done].
Qed.

Lemma dec_fixed_length_wrong :
  zlen bs <> f_data_size f -> zlen bs <> 0 ->
  pb_dec_fixed_length_bytes s f dest m
  = Ok (false, i_seterr s1 "incorrect fixed length bytes size") m.
Proof.
  intros Hne Hpos. unfold pb_dec_fixed_length_bytes.
  mstep delim_size_read. cbn beta iota.
  destruct (Z.ltb_spec PB_SIZE_MAX (zlen bs)) as [Hbig|_].
  { change PB_SIZE_MAX with (2 ^ 32 - 1) in Hbig. lia. }
  destruct (Z.eqb_spec (zlen bs) 0); [lia|]. apply Z.eqb_neq in Hne. by rewrite Hne.
Qed.
End Strings.

(** * Skipping *)

(** The payload of a field of wire type [wt]. *)
Definition payload (wt : Z) (w : list Z) : Prop :=
  (wt = PB_WT_VARINT /\ varint_shaped w)
  \/ (wt = PB_WT_64BIT /\ zlen w = 8)
  \/ (wt = PB_WT_STRING /\ exists bs, w = delim bs /\ zlen bs < 2 ^ 32)
  \/ (wt = PB_WT_32BIT /\ zlen w = 4).

Section Skip.
Context `{App}.

Lemma skip_varint_loop_shaped n s m l rest :
  varint_shaped l -> reading s m (l ++ rest) -> (length l <= n)%nat ->
  skip_varint_loop n s m = Ok (true, consumed s (zlen l)) m.
Proof.
  revert n s. induction l as [|b l IH]; intros n s Hsh Hs Hn; [done|].
  destruct n as [|n]; [simpl in Hn; lia|]. cbn [skip_varint_loop].
  pose proof (rd_bytes _ _ _ Hs) as Hb. apply Forall_cons in Hb as [Hb _].
  mstep (pb_read_local s m [b] (l ++ rest) Hs). cbn beta iota.
  rewrite land_80_test by done.
  apply shaped_cons in Hsh as [(Hlt & Hge & ->)|[Hge Hsh]].
  - by rewrite (proj2 (Z.ltb_lt _ _) Hlt).
  - destruct (Z.ltb_spec b 128); [lia|].
    rewrite (IH n); [|done|by apply (reading_app s m [b])|simpl in Hn; lia].
    by rewrite consumed_consumed, (zlen_cons b l).
Qed.

Lemma pb_skip_field_payload s m wt w rest :
  payload wt w -> reading s m (w ++ rest) ->
  pb_skip_field s wt m = Ok (true, consumed s (zlen w)) m.
Proof.
  intros [[-> Hw]|[[-> Hw]|[[-> (bs & -> & Hw)]|[-> Hw]]]] Hs; unfold pb_skip_field;
    cbn [Z.eqb Pos.eqb PB_WT_VARINT PB_WT_64BIT PB_WT_STRING PB_WT_32BIT].
  - unfold pb_skip_varint. eapply skip_varint_loop_shaped; [done|exact Hs|].
    unfold stream_rounds. rewrite (rd_left _ _ _ Hs), length_app. lia.
  - rewrite <- Hw. by eapply pb_skip_app.
  - unfold pb_skip_string, delim in *. rewrite <- app_assoc in Hs.
    assert (in_uint 32 (zlen bs)) as Hv by (unfold in_uint; lia).
    mstep (pb_decode_varint32_wire s m (zlen bs) (bs ++ rest) Hv Hs). cbn beta iota.
    apply reading_app in Hs. rewrite (pb_skip_app _ m bs rest Hs).
    rewrite consumed_consumed, zlen_app. done.
  - rewrite <- Hw. by eapply pb_skip_app.
Qed.

Lemma pb_skip_field_invalid s m wt :
  wt <> PB_WT_VARINT -> wt <> PB_WT_64BIT -> wt <> PB_WT_STRING -> wt <> PB_WT_32BIT ->
  pb_skip_field s wt m = Ok (false, i_seterr s "invalid wire_type") m.
Proof.
  intros H0 H1 H2 H5. unfold pb_skip_field.
  apply Z.eqb_neq in H0, H1, H2, H5. by rewrite H0, H1, H2, H5.
Qed.
End Skip.
