(* ===== verification/PbPlain.v ===== *)
(** Required fields, and messages of static singular fields.

    The bit set [fields_seen] of [pb_decode_noinit]: the check at the end of
    decoding accepts exactly when every required field was seen.

    A plain message type has required fields, and optional fields with a
    has-flag, of scalar, bytes, string or submessage type, stored inside the
    structure; submessage types are plain in turn: their descriptors, the values
    they hold, and the memory conditions under which the decoder fills them in.
    [pb_message_set_to_defaults] on them changes the structure only, and leaves
    every has-flag cleared. *)
From stdpp Require Import base list_numbers numbers option strings gmap list.
From S2P Require Import Prelude Varint Machine PbTypes PbCommon PbIter PbEncode PbDecode PbWire PbRep PbEncodeSpec PbDecodeSpec.
Open Scope Z_scope.
Open Scope c_scope.

(** * Required fields *)

Section Required.
(** The two words of the bit set hold the indices [idxs]. *)
Definition seen_set (seen : list Z) (idxs : list Z) : Prop :=
  exists a b, seen = [a; b] /\ in_uint 32 a /\ in_uint 32 b
    /\ (forall k, 0 <= k < 32 -> Z.testbit a k = bool_decide (k ∈ idxs))
    /\ (forall k, 0 <= k < 32 -> Z.testbit b k = bool_decide (32 + k ∈ idxs)).

Lemma seen_set_nil : seen_set [0; 0] [].
Proof.
  exists 0, 0. split_and!; try done; intros k Hk; rewrite Z.bits_0;
    by rewrite bool_decide_false by apply not_elem_of_nil.
Qed.

Lemma shift_one k : 0 <= k < 32 -> u32 (Z.shiftl 1 k) = 2 ^ k.
Proof.
  intros Hk. rewrite Z.shiftl_mul_pow2, Z.mul_1_l by lia. apply u32_small. split.
  - apply Z.pow_nonneg. lia.
  - apply Z.pow_lt_mono_r; lia.
Qed.

(** A word keeps its range and gains one bit. *)
Lemma word_mark w i :
  in_uint 32 w -> 0 <= i < 32 ->
  in_uint 32 (Z.lor w (2 ^ i))
  /\ forall k, 0 <= k < 32 -> Z.testbit (Z.lor w (2 ^ i)) k = Z.testbit w k || (k =? i).
Proof.
  intros [Hw1 Hw2] Hi. split.
  - split.
    + apply Z.lor_nonneg. split; [lia|apply Z.pow_nonneg; lia].
    + apply Z.log2_lt_cancel. rewrite Z.log2_pow2, Z.log2_lor by (lia || apply Z.pow_nonneg; lia).
      rewrite Z.log2_pow2 by lia. apply Z.max_lub_lt; [|lia].
      destruct (decide (w = 0)) as [->|]; [simpl; lia|].
      apply Z.log2_lt_pow2; lia.
  - intros k Hk. rewrite Z.lor_spec, Z.pow2_bits_eqb by lia. by rewrite Z.eqb_sym.
Qed.

Lemma mark_seen_set seen idxs i :
  0 <= i < 64 -> seen_set seen idxs -> seen_set (mark_seen seen i) (i :: idxs).
Proof.
  intros Hi (a & b & -> & Ha & Hb & HA & HB). unfold mark_seen.
  assert (Z.land i 31 = i mod 32) as -> by exact (land_mask i 5 ltac:(lia)).
  rewrite shiftr_div by lia. change (2 ^ 5) with 32.
  pose proof (Z.mod_pos_bound i 32 ltac:(lia)) as Hm. rewrite shift_one by done.
  destruct (decide (i < 32)) as [Hlt|Hge].
  - rewrite Z.div_small, Z.mod_small by lia. cbn.
    destruct (word_mark a i Ha ltac:(lia)) as [Hr Ht].
    exists (Z.lor a (2 ^ i)), b. split_and!; try done.
    + intros k Hk. rewrite Ht, HA by done. destruct (Z.eqb_spec k i) as [->|Hne].
      * rewrite orb_true_r, bool_decide_true by apply list_elem_of_here. done.
      * rewrite orb_false_r. apply bool_decide_ext. rewrite elem_of_cons. naive_solver.
    + intros k Hk. rewrite HB by done. apply bool_decide_ext. rewrite elem_of_cons.
      naive_solver lia.
  - replace (i / 32) with 1 by (Z.to_euclidean_division_equations; lia).
    replace (i mod 32) with (i - 32) in * by (Z.to_euclidean_division_equations; lia). cbn.
    destruct (word_mark b (i - 32) Hb ltac:(lia)) as [Hr Ht].
    exists a, (Z.lor b (2 ^ (i - 32))). split_and!; try done.
    + intros k Hk. rewrite HA by done. apply bool_decide_ext. rewrite elem_of_cons.
      naive_solver lia.
    + intros k Hk. rewrite Ht, HB by done. destruct (Z.eqb_spec k (i - 32)) as [->|Hne].
      * rewrite orb_true_r, bool_decide_true; [done|].
        replace (32 + (i - 32)) with i by lia. apply list_elem_of_here.
      * rewrite orb_false_r. apply bool_decide_ext. rewrite elem_of_cons.
        naive_solver lia.
Qed.

Lemma marks_seen_set idxs :
  Forall (fun i => 0 <= i < 64) idxs ->
  seen_set (foldr (fun i seen => mark_seen seen i) [0; 0] idxs) idxs.
Proof.
  induction 1 as [|i idxs Hi _ IH]; [apply seen_set_nil|]. by apply mark_seen_set.
Qed.

(** A word is the mask of its low [n] bits exactly when those are set and no
    other. *)
Lemma word_is_mask w n :
  in_uint 32 w -> 0 <= n <= 32 ->
  w = 2 ^ n - 1 <-> forall k, 0 <= k < 32 -> Z.testbit w k = (k <? n).
Proof.
  intros Hw Hn. replace (2 ^ n - 1) with (Z.ones n) by (rewrite Z.ones_equiv; lia). split.
  - intros -> k Hk. rewrite Z.testbit_ones_nonneg by lia. done.
  - intros Hb. apply Z.bits_inj'. intros k Hk. rewrite Z.testbit_ones_nonneg by lia.
    destruct (decide (k < 32)) as [Hlt|Hge]; [by apply Hb|].
    rewrite <- (u32_small w Hw). unfold u32. rewrite Z.mod_pow2_bits_high by lia.
    symmetry. apply Z.ltb_ge. lia.
Qed.

Lemma allbits_shift n : 0 < n < 32 -> allbits ≫ (32 - n) = 2 ^ n - 1.
Proof.
  intros Hn. unfold allbits. rewrite shiftr_div by lia.
  replace (2 ^ 32) with (2 ^ n * 2 ^ (32 - n)) by (rewrite <- Z.pow_add_r by lia; f_equal; lia).
  assert (0 < 2 ^ (32 - n)) by (apply Z.pow_pos_nonneg; lia).
  symmetry. apply Z.div_unique with (r := 2 ^ (32 - n) - 1); lia.
Qed.

(** One word of the bit set against the indices from [base] on. *)
Lemma word_complete w base n (idxs : list Z) :
  in_uint 32 w -> 0 <= n <= 32 ->
  (forall k, 0 <= k < 32 -> Z.testbit w k = bool_decide (base + k ∈ idxs)) ->
  (n < 32 -> forall i, i ∈ idxs -> i < base + n) ->
  (w =? 2 ^ n - 1) = true <-> forall i, base <= i < base + n -> i ∈ idxs.
Proof.
  intros Hw Hn Hb Hlt. rewrite Z.eqb_eq, word_is_mask by done. split.
  - intros Hk i Hi. specialize (Hk (i - base) ltac:(lia)). rewrite Hb in Hk by lia.
    replace (base + (i - base)) with i in Hk by lia.
    destruct (Z.ltb_spec (i - base) n); [|lia]. by apply bool_decide_eq_true in Hk.
  - intros Hi k Hk. rewrite Hb by done. destruct (Z.ltb_spec k n).
    + apply bool_decide_true, Hi. lia.
    + apply bool_decide_false. intros Hin. specialize (Hlt ltac:(lia) _ Hin). lia.
Qed.

Lemma required_present_spec seen (idxs : list Z) n :
  seen_set seen idxs -> 0 < n <= 64 -> Forall (fun i => 0 <= i < n) idxs ->
  required_present n seen = true <-> forall i, 0 <= i < n -> i ∈ idxs.
Proof.
  intros (a & b & -> & Ha & Hb & HA & HB) Hn Hidx. assert (forall i, i ∈ idxs -> 0 <= i < n) as Hin.
  { rewrite Forall_forall in Hidx. intros i Hi. by apply Hidx. }
  unfold required_present.
  assert (Z.land n 31 = n mod 32) as -> by exact (land_mask n 5 ltac:(lia)).
  rewrite shiftr_div by lia. change (2 ^ 5) with 32.
  pose proof (word_complete a 0 32 idxs Ha ltac:(lia) HA ltac:(lia)) as Ca.
  pose proof (word_complete b 32 32 idxs Hb ltac:(lia) HB ltac:(lia)) as Cb.
  change (2 ^ 32 - 1) with allbits in Ca, Cb.
  destruct (decide (n < 32)) as [H1|H1]; [|destruct (decide (n = 32)) as [->|H2];
    [|destruct (decide (n < 64)) as [H3|H3]]].
  - rewrite Z.div_small, Z.mod_small by lia. destruct (Z.eqb_spec n 0); [lia|]. cbn -[allbits].
    rewrite allbits_shift by lia.
    rewrite (word_complete a 0 n idxs Ha ltac:(lia) HA); [done|].
    intros _ i Hi. apply Hin in Hi. lia.
  - change (Z.to_nat (32 / 32)) with 1%nat. change (32 mod 32 =? 0) with true.
    cbn -[allbits]. rewrite !andb_true_r, Ca. done.
  - replace (n / 32) with 1 by (Z.to_euclidean_division_equations; lia).
    replace (n mod 32) with (n - 32) by (Z.to_euclidean_division_equations; lia).
    destruct (Z.eqb_spec (n - 32) 0); [lia|].
    change (Z.to_nat 1) with 1%nat. cbn -[allbits]. rewrite andb_true_r, andb_true_iff.
    rewrite allbits_shift by lia.
    rewrite Ca, (word_complete b 32 (n - 32) idxs Hb ltac:(lia) HB);
      [|intros _ i Hi; apply Hin in Hi; lia].
    split; [intros [C1 C2] i Hi; destruct (decide (i < 32)); [apply C1|apply C2]; lia|].
    intros C. split; intros i Hi; apply C; lia.
  - assert (n = 64) as -> by lia.
    change (Z.to_nat (64 / 32)) with 2%nat. change (64 mod 32 =? 0) with true.
    cbn -[allbits]. rewrite !andb_true_r, andb_true_iff, Ca, Cb.
    split; [intros [C1 C2] i Hi; destruct (decide (i < 32)); [apply C1|apply C2]; lia|].
    intros C. split; intros i Hi; apply C; lia.
Qed.
End Required.

(** * Counting required fields *)
Definition is_required (f : pb_field_t) : bool := f_htype f =? PB_HTYPE_REQUIRED.

Definition required_count (es : list pb_field_t) : nat := length (List.filter is_required es).

Section Count.
Variables (es : list pb_field_t).
Hypothesis tags : Forall (fun f => f_tag f <> 0) es.
Hypothesis short : (Z.of_nat (length es) < 2 ^ 32).
Let fields := es ++ [PB_LAST_FIELD].
Let n := length es.

Lemma required_count_le l : (required_count l <= length l)%nat.
Proof. unfold required_count. apply List.filter_length_le. Qed.

Lemma required_count_take i f :
  es !! i = Some f ->
  required_count (take (S i) es) = (required_count (take i es) + Nat.b2n (is_required f))%nat.
Proof.
  intros Hf. rewrite (take_S_r es i f Hf). unfold required_count.
  rewrite List.filter_app, length_app. simpl. by destruct (is_required f).
Qed.

(** The iterator counts the required fields before its position. *)
Lemma iter_at_required addr i :
  (i < n)%nat ->
  it_required_field_index (iter_at fields addr i) = Z.of_nat (required_count (take i es)).
Proof.
  induction i as [|i IH]; intros Hi; [done|]. rewrite iter_at_S.
  destruct (iter_at_inv es tags addr i) as (Hp & Hs & Hd); [unfold n in *; lia|].
  fold fields in Hp, Hs, Hd.
  pose proof (field_at_entry es i ltac:(unfold n in *; lia)) as Hf. fold fields in Hf.
  rewrite (required_count_take i _ Hf), Nat2Z.inj_add, <- IH by lia.
  unfold pb_field_iter_next, it_field. rewrite Hp, Hs.
  pose proof (field_at_tag es tags i ltac:(unfold n in *; lia)) as Ht1.
  pose proof (field_at_tag es tags (S i) ltac:(unfold n in *; lia)) as Ht2.
  fold fields in Ht1, Ht2. rewrite Ht1, Ht2.
  destruct (_ && _ && _) eqn:Eu.
  - apply andb_true_iff in Eu as [[Eu _]%andb_true_iff _]. apply Z.eqb_eq in Eu. simpl.
    unfold is_required. rewrite Eu. simpl. lia.
  - simpl. unfold is_required. destruct (f_htype _ =? PB_HTYPE_REQUIRED); simpl; [|lia].
    rewrite IH by lia. pose proof (required_count_le (take i es)) as Hle.
    rewrite length_take in Hle. unfold n in *. apply u32_small. unfold in_uint. lia.
Qed.

Lemma seek_end_at addr i rounds :
  (i < n)%nat -> (n - i <= rounds)%nat ->
  seek_end rounds (iter_at fields addr i)
  = Some (Z.of_nat (required_count (take (n - 1) es)), f_type (field_at fields (n - 1)),
          iter_at fields addr 0).
Proof.
  remember (n - i)%nat as r eqn:Er. revert i rounds Er.
  induction r as [|r IH]; intros i rounds Er Hi Hr; [lia|].
  destruct rounds as [|rounds]; [lia|]. cbn [seek_end].
  pose proof (iter_next_at es tags addr i Hi) as En. fold fields n in En. rewrite En.
  destruct (decide (S i < n)%nat) as [Hlt|Hge].
  - rewrite bool_decide_true, Nat.mod_small by done. apply IH; lia.
  - rewrite bool_decide_false by done. assert (S i = n) as E by lia.
    rewrite E, Nat.Div0.mod_same, iter_at_required by done.
    pose proof (it_field_at es tags addr i Hi) as Ef. fold fields in Ef. rewrite Ef.
    by replace (n - 1)%nat with i by lia.
Qed.

Definition req_limit : Z := Z.min (Z.of_nat (required_count es)) PB_MAX_REQUIRED_FIELDS.

Lemma check_required_at addr i s m seen idxs ext ff fs :
  (i < n)%nat -> seen_set seen idxs -> Forall (fun k => 0 <= k < req_limit) idxs ->
  check_required s (DecLocals (iter_at fields addr i) seen ext ff fs) m
  = if bool_decide (Forall (fun k => k ∈ idxs) (seqZ 0 req_limit))
    then Ok (true, s) m else Ok (false, i_seterr s "missing required field") m.
Proof.
  intros Hi Hseen Hidx. unfold check_required. cbn [dl_iter dl_seen].
  rewrite seek_end_at; [|done|].
  2: { unfold iter_rounds. destruct (iter_at_inv es tags addr i Hi) as (_ & Hst & _).
       fold fields in Hst. rewrite Hst. unfold fields. rewrite length_app. simpl.
       unfold n in *. lia. }
  pose proof (field_at_entry es (n - 1) ltac:(unfold n in *; lia)) as Hf. fold fields in Hf.
  pose proof (required_count_take (n - 1) _ Hf) as Hc.
  replace (S (n - 1)) with n in Hc by lia. unfold n in Hc at 1. rewrite firstn_all in Hc.
  pose proof (it_field_at es tags addr 0 ltac:(unfold n in *; lia)) as E0.
  pose proof (field_at_tag es tags 0 ltac:(unfold n in *; lia)) as Et.
  fold fields in E0, Et. rewrite E0, Et. cbn [negb]. rewrite andb_true_r.
  match goal with |- context [Z.min ?c _] => assert (c = Z.of_nat (required_count es)) as -> end.
  { rewrite Hc, Nat2Z.inj_add. unfold is_required, f_htype.
    pose proof (required_count_le es) as Hle. unfold n in *.
    destruct (PB_HTYPE (f_type (field_at fields (length es - 1))) =? PB_HTYPE_REQUIRED); simpl;
      [|by rewrite Z.add_0_r]. apply u32_small. unfold in_uint.
    pose proof (required_count_le (take (length es - 1) es)) as Hle'.
    rewrite length_take in Hle'. lia. }
  fold req_limit.
  assert (0 <= req_limit <= 64) as Hlim by (unfold req_limit, PB_MAX_REQUIRED_FIELDS; lia).
  destruct (Z.ltb_spec 0 req_limit) as [Hpos|Hzero]; cbn [andb].
  - pose proof (required_present_spec seen idxs req_limit Hseen ltac:(lia) Hidx) as Hspec.
    destruct (required_present req_limit seen); cbn [negb].
    + rewrite bool_decide_true; [done|]. rewrite Forall_forall. intros k Hk.
      apply elem_of_seqZ in Hk. apply (proj1 Hspec eq_refl). lia.
    + rewrite bool_decide_false; [done|]. rewrite Forall_forall. intros Hall.
      enough (false = true) by done. apply Hspec. intros k Hk. apply Hall, elem_of_seqZ. lia.
  - replace req_limit with 0 by lia. by rewrite bool_decide_true by constructor.
Qed.
End Count.

(** * Plain messages *)

(** * Memory frames *)

(** [m'] differs from [m] on the addresses [D] at most; nothing is unmapped and
    the heap is as before. *)
Record framed (D : Z -> Prop) (m m' : mem) : Prop := {
  fr_cells : forall x, ~ D x -> cells m' !! x = cells m !! x;
  fr_mapped : forall x, is_Some (cells m !! x) -> is_Some (cells m' !! x);
  fr_heap : heap m' = heap m;
  fr_brk : brk m' = brk m;
  fr_nalloc : nalloc m' = nalloc m
}.

Lemma framed_refl D m : framed D m m.
Proof. by split. Qed.

Lemma framed_trans D m1 m2 m3 : framed D m1 m2 -> framed D m2 m3 -> framed D m1 m3.
Proof.
  intros [A1 A2 A3 A4 A5] [B1 B2 B3 B4 B5]. split; try congruence; [|auto].
  intros x Hx. rewrite B1, A1; auto.
Qed.

Lemma framed_mono (D D' : Z -> Prop) m m' :
  (forall x, D x -> D' x) -> framed D m m' -> framed D' m m'.
Proof. intros Hs [A1 A2 A3 A4 A5]. split; auto. Qed.

Lemma framed_stored (D : Z -> Prop) m a l :
  (forall x, in_range a (zlen l) x -> D x) -> framed D m (stored m a l).
Proof.
  intros HD. split; try done.
  - intros x Hx. simpl. apply map_range_lookup_ne. intros Hin. by apply Hx, HD.
  - intros x [y Hy]. apply (stored_mapped m a l x 1); [|unfold in_range; lia].
    intros z Hz. assert (z = x) as -> by (unfold in_range in Hz; lia). eauto.
Qed.

Lemma framed_mapped D m m' a n : framed D m m' -> mapped m a n -> mapped m' a n.
Proof. intros Hf Hm x Hx. by apply (fr_mapped _ _ _ Hf), Hm. Qed.

Lemma framed_agree D m m' (F : Z -> Prop) :
  framed D m m' -> (forall x, F x -> ~ D x) -> agree_on F m m'.
Proof. intros Hf HF x Hx. by apply (fr_cells _ _ _ Hf), HF. Qed.

Lemma reading_framed D s m m' l :
  reading s m l -> framed D m m' ->
  (forall x, D x -> ~ in_range (i_state s) (i_bytes_left s) x) -> reading s m' l.
Proof.
  intros [Hc Hl Hs Hb Ha] Hf HD. split; try done. eapply bytes_at_agree; [|exact Ha].
  eapply framed_agree; [exact Hf|]. intros x Hx HDx. apply (HD x HDx). rewrite Hl. exact Hx.
Qed.

(** * Representations under frames *)
Section RepFrames.
Context `{App}.
Variables (F F' : Z -> Prop) (m m' : mem).
Hypothesis sub : forall x, F x -> F' x.
Hypothesis same : agree_on F m m'.

Lemma reads_frame {A} (rd : M A) v : reads F m rd v -> reads F' m' rd v.
Proof.
  intros Hr m1 Ha. apply Hr. eapply agree_on_trans; [exact same|].
  eapply agree_on_sub; [exact sub|exact Ha].
Qed.

Lemma holds_frame a l : holds F m a l -> holds F' m' a l.
Proof.
  intros [Hb HF]. split; [|auto]. eapply bytes_at_agree; [|exact Hb].
  eapply agree_on_sub; [exact HF|exact same].
Qed.

Lemma rep_scalar_frame f a z : rep_scalar F m f a z -> rep_scalar F' m' f a z.
Proof.
  unfold rep_scalar.
  destruct (f_ltype f =? PB_LTYPE_BOOL); [|destruct (f_ltype f =? PB_LTYPE_FIXED32);
    [|destruct (f_ltype f =? PB_LTYPE_FIXED64); [|destruct (f_ltype f =? PB_LTYPE_UVARINT)]]].
  { intros (b & Hb & ->). exists b. split; [by apply holds_frame|done]. }
  all: naive_solver eauto using holds_frame.
Qed.

Lemma rep_bytes_frame f a bs : rep_bytes F m f a bs -> rep_bytes F' m' f a bs.
Proof.
  unfold rep_bytes.
  destruct (f_ltype f =? PB_LTYPE_BYTES); [|destruct (f_ltype f =? PB_LTYPE_STRING)];
    naive_solver eauto using holds_frame.
Qed.

Lemma items_at_frame (R R' : Z -> value -> Prop) p step items :
  (forall q v, v ∈ items -> R q v -> R' q v) -> items_at R p step items -> items_at R' p step items.
Proof.
  revert p. induction items as [|v vs IH]; intros p HR Hi; [done|].
  destruct Hi as [Hv Hi]. split; [apply HR; [apply list_elem_of_here|done]|].
  apply IH; [|done]. intros q u Hu. apply HR. by apply list_elem_of_further.
Qed.

Lemma field_target_frame f pData p : field_target F m f pData p -> field_target F' m' f pData p.
Proof. unfold field_target. case_match; [apply reads_frame|done]. Qed.

Lemma presence_frame f pData p has : presence F m f pData p has -> presence F' m' f pData p has.
Proof.
  unfold presence. case_match; [|apply reads_frame].
  intros (d & Hd & Hhas). exists d. split; [|done]. intros check. by apply reads_frame.
Qed.

Lemma rep_field_with_frame (R R' : Z -> value -> Prop) f pData items :
  (forall p v, v ∈ items -> R p v -> R' p v) ->
  rep_field_with F m R f pData items -> rep_field_with F' m' R' f pData items.
Proof.
  intros HR (Hl & p & Hp & Hf). split; [done|]. exists p.
  split; [by apply field_target_frame|]. revert Hf.
  destruct (f_htype f =? PB_HTYPE_REQUIRED); [|destruct (f_htype f =? PB_HTYPE_OPTIONAL);
    [|destruct (f_htype f =? PB_HTYPE_REPEATED)]].
  - intros [Hnn Hv]. split; [done|]. destruct items as [|v [|]]; try done.
    apply HR; [apply list_elem_of_here|done].
  - intros (has & Hpr & Hv). exists has. split; [by apply presence_frame|].
    destruct items as [|v [|]]; try done. destruct Hv. split; [done|].
    apply HR; [apply list_elem_of_here|done].
  - intros (Hc & Hn & Hmax & Hi). split_and!; [|done|done|].
    + case_match; [done|by apply reads_frame].
    + eapply items_at_frame; [|exact Hi]. intros q v Hv. unfold elem_at.
      destruct (elem_indirect f); [|by apply HR].
      intros (q' & Hq & HRv). exists q'. split; [by apply reads_frame|by apply HR].
  - intros (Ho & Hso & which & Hw & Hv). split; [done|]. split; [done|].
    exists which. split; [by apply reads_frame|].
    destruct items as [|v [|]]; try done. destruct Hv. split; [done|].
    apply HR; [apply list_elem_of_here|done].
Qed.

Lemma rep_item_frame n f a v : (vheight v < n)%nat -> rep_item F m f a v -> rep_item F' m' f a v.
Proof.
  revert f a v. induction n as [|n IH]; intros f a v Hn Hr; [lia|].
  destruct v as [z|bs|fss].
  - destruct Hr. split; [done|by apply rep_scalar_frame].
  - destruct Hr. split; [done|by apply rep_bytes_frame].
  - apply rep_item_msg in Hr as (Hl & fs & Hp & Hw & Hf). apply rep_item_msg. split; [done|].
    exists fs. split; [done|]. split; [done|]. simpl in Hn.
    assert (forall items u, items ∈ fss -> u ∈ items -> vheight u < n)%nat as Hh.
    { intros items u Hi Hu. pose proof (vheight_le fss items u Hi Hu) as Hle.
      unfold msg_height in Hle. lia. }
    clear Hn Hw. induction Hf as [|it items its fss Hit _ IHf]; constructor.
    + eapply rep_field_with_frame; [|exact Hit]. intros p u Hu. apply IH.
      apply (Hh items u); [apply list_elem_of_here|done].
    + apply IHf. intros items' u Hi. apply Hh. by apply list_elem_of_further.
Qed.

Lemma rep_field_frame it items : rep_field F m it items -> rep_field F' m' it items.
Proof.
  apply rep_field_with_frame. intros p v _. apply (rep_item_frame (S (vheight v))). lia.
Qed.
End RepFrames.

(** * Plain message types *)

(** The addresses of a field in its structure: its data, and its has-flag. *)
Definition foot (it : pb_field_iter_t) (x : Z) : Prop :=
  in_range (it_pData it) (f_data_size (it_field it)) x
  \/ (f_htype (it_field it) = PB_HTYPE_OPTIONAL
      /\ x = it_pData it + f_size_offset (it_field it)).

(** The fields do not overlap. *)
Fixpoint apart_all (its : list pb_field_iter_t) : Prop :=
  match its with
  | [] => True
  | it :: its' => (forall it' x, it' ∈ its' -> foot it x -> ~ foot it' x) /\ apart_all its'
  end.

(** Wherever a structure of [sz] bytes is, its fields lie in it, apart. *)
Definition layout (fs : list pb_field_t) (sz : Z) : Prop :=
  forall addr,
    (forall it x, it ∈ iters fs addr -> foot it x -> in_range addr sz x)
    /\ apart_all (iters fs addr).

Definition scalar_size (f : pb_field_t) : Prop :=
  let ds := f_data_size f in
  if f_ltype f =? PB_LTYPE_BOOL then ds = 1
  else if f_ltype f =? PB_LTYPE_FIXED32 then ds = 4
  else if f_ltype f =? PB_LTYPE_FIXED64 then ds = 8
  else int_size ds.

(** A default value, if there is one, fills the field. *)
Definition default_ok (f : pb_field_t) : Prop :=
  match f_ptr f with
  | PtrNull => True
  | PtrData bs => f_data_size f <= zlen bs
  | PtrFields _ => False
  end.

Definition is_text (f : pb_field_t) : Prop :=
  f_ltype f = PB_LTYPE_BYTES \/ f_ltype f = PB_LTYPE_STRING.

(** [P] is the condition on submessage types and their sizes. *)
Record plain_field (P : list pb_field_t -> Z -> Prop) (f : pb_field_t) : Prop := {
  pf_static : f_atype f = PB_ATYPE_STATIC;
  pf_tag : 0 < f_tag f < 2 ^ 29;
  pf_size : 0 < f_data_size f < 2 ^ 32;
  pf_rule : f_htype f = PB_HTYPE_REQUIRED
    \/ (f_htype f = PB_HTYPE_OPTIONAL
        /\ (f_size_offset f < 0 \/ f_data_size f <= f_size_offset f));
  pf_type : (0 <= f_ltype f <= PB_LTYPE_LAST_PACKABLE /\ scalar_size f /\ default_ok f)
    \/ (is_text f /\ default_ok f)
    \/ (f_ltype f = PB_LTYPE_SUBMESSAGE /\ exists fs, f_ptr f = PtrFields fs /\ P fs (f_data_size f))
}.

(** [n] bounds the nesting of the type. *)
Fixpoint plain_msg (n : nat) (fs : list pb_field_t) (sz : Z) : Prop :=
  match n with
  | O => False
  | S n' =>
      layout fs sz
      /\ exists es, fs = es ++ [PB_LAST_FIELD] /\ Z.of_nat (length es) < 2 ^ 32
         /\ NoDup (map f_tag es) /\ Forall (plain_field (plain_msg n')) es
  end.

(** ** Values of plain types *)
Definition fits_items (P : value -> Prop) (f : pb_field_t) (items : list value) : Prop :=
  match items with
  | [] => f_htype f <> PB_HTYPE_REQUIRED
  | [v] => P v
  | _ => False
  end.

Fixpoint fits_item (f : pb_field_t) (v : value) {struct v} : Prop :=
  match v with
  | VScalar z => 0 <= f_ltype f <= PB_LTYPE_LAST_PACKABLE /\ scalar_ok f z
  | VBytes bs =>
      Forall is_byte bs
      /\ ((f_ltype f = PB_LTYPE_BYTES /\ OFFSETOF_BYTES + zlen bs <= f_data_size f)
          \/ (f_ltype f = PB_LTYPE_STRING /\ Forall (fun b => b <> 0) bs
              /\ zlen bs + 1 <= f_data_size f))
  | VMsg fss =>
      f_ltype f = PB_LTYPE_SUBMESSAGE
      /\ (fix go (es : list pb_field_t) (fss : list (list value)) {struct fss} : Prop :=
            match fss, es with
            | items :: fss', e :: es' => fits_items (fits_item e) e items /\ go es' fss'
            | [], [] => True
            | _, _ => False
            end) (entries (sub_fields f)) fss
  end.

Definition fits_field (f : pb_field_t) (items : list value) : Prop :=
  fits_items (fits_item f) f items.

Definition fits_msg (fs : list pb_field_t) (fss : list (list value)) : Prop :=
  Forall2 fits_field (entries fs) fss.

Lemma fits_item_msg f fss :
  fits_item f (VMsg fss) <-> f_ltype f = PB_LTYPE_SUBMESSAGE /\ fits_msg (sub_fields f) fss.
Proof.
  cbn [fits_item]. unfold fits_msg. generalize (entries (sub_fields f)). intros es.
  apply and_iff_compat_l. revert es.
  induction fss as [|items fss IH]; intros [|e es].
  - split; [constructor|done].
  - split; [done|inversion 1].
  - split; [done|inversion 1].
  - rewrite IH. split; [intros []; by constructor|by inversion 1].
Qed.

(** ** The cleared state: no optional field is present *)
Definition cleared_field (C : list pb_field_t -> Z -> mem -> Prop) (it : pb_field_iter_t) (m : mem)
    : Prop :=
  let f := it_field it in
  (f_htype f = PB_HTYPE_OPTIONAL -> cells m !! (it_pData it + f_size_offset f) = Some 0)
  /\ (f_ltype f = PB_LTYPE_SUBMESSAGE -> C (sub_fields f) (it_pData it) m).

Fixpoint cleared (n : nat) (fs : list pb_field_t) (addr : Z) (m : mem) : Prop :=
  match n with
  | O => True
  | S n' => Forall (fun it => cleared_field (cleared n') it m) (iters fs addr)
  end.

Lemma foot_data it x : in_range (it_pData it) (f_data_size (it_field it)) x -> foot it x.
Proof. by left. Qed.

Lemma sub_fields_ptr f fs : f_ptr f = PtrFields fs -> sub_fields f = fs.
Proof. unfold sub_fields. by intros ->. Qed.

(** The submessage type of a plain field. *)
Lemma plain_field_sub P f :
  plain_field P f -> f_ltype f = PB_LTYPE_SUBMESSAGE ->
  f_ptr f = PtrFields (sub_fields f) /\ P (sub_fields f) (f_data_size f).
Proof.
  intros [_ _ _ _ Ht] El. destruct Ht as [[Hl _]|[[[Hl|Hl] _]|[_ (fs & Hp & HP)]]];
    ltype_cases; try lia.
  by rewrite (sub_fields_ptr f fs Hp).
Qed.

(** The fields an iterator visits are those of the type. *)
Lemma iters_entries es addr it :
  Forall (fun f => f_tag f <> 0) es -> it ∈ iters (es ++ [PB_LAST_FIELD]) addr ->
  it_field it ∈ es.
Proof.
  intros Ht Hit. rewrite <- (iters_fields es Ht addr). by apply list_elem_of_fmap_2.
Qed.

Lemma plain_tags P es : Forall (plain_field P) es -> Forall (fun f => f_tag f <> 0) es.
Proof. intros Hp. eapply Forall_impl; [exact Hp|]. intros f [_ Ht _ _ _]. lia. Qed.

Lemma cleared_agree n fs sz addr m m' :
  plain_msg n fs sz -> agree_on (in_range addr sz) m m' -> cleared n fs addr m -> cleared n fs addr m'.
Proof.
  revert fs sz addr. induction n as [|n IH]; intros fs sz addr Hp Ha Hc; [done|].
  destruct Hp as [Hlay (es & -> & _ & _ & Hes)]. destruct (Hlay addr) as [Hin _].
  cbn [cleared] in *. rewrite Forall_forall in Hc |- *. intros it Hit.
  destruct (Hc it Hit) as [Hflag Hsub]. split.
  - intros Ho. rewrite Ha; [by apply Hflag|]. apply (Hin it _ Hit). by right.
  - intros El. pose proof (iters_entries es addr it (plain_tags _ _ Hes) Hit) as Hf.
    rewrite Forall_forall in Hes. destruct (plain_field_sub _ _ (Hes _ Hf) El) as [_ HP].
    eapply IH; [exact HP| |by apply Hsub]. eapply agree_on_sub; [|exact Ha].
    intros x Hx. apply (Hin it x Hit). by apply foot_data.
Qed.

Lemma cleared_field_agree n it m m' :
  plain_field (plain_msg n) (it_field it) -> agree_on (foot it) m m' ->
  cleared_field (cleared n) it m -> cleared_field (cleared n) it m'.
Proof.
  intros Hp Ha [Hflag Hsub]. split.
  - intros Ho. rewrite Ha; [by apply Hflag|by right].
  - intros El. destruct (plain_field_sub _ _ Hp El) as [_ HP].
    eapply cleared_agree; [exact HP| |by apply Hsub]. eapply agree_on_sub; [|exact Ha].
    apply foot_data.
Qed.

(** ** Deciding layouts *)

(** The address intervals of a field, as start and length. *)
Definition spans (it : pb_field_iter_t) : list (Z * Z) :=
  (it_pData it, f_data_size (it_field it))
  :: (if f_htype (it_field it) =? PB_HTYPE_OPTIONAL
      then [(it_pData it + f_size_offset (it_field it), 1)] else []).

Definition span_in (sz : Z) (s : Z * Z) : bool := (0 <=? s.1) && (s.1 + s.2 <=? sz).
Definition span_apart (s t : Z * Z) : bool := (s.1 + s.2 <=? t.1) || (t.1 + t.2 <=? s.1).

Fixpoint apart_check (its : list pb_field_iter_t) : bool :=
  match its with
  | [] => true
  | it :: its' =>
      forallb (fun it' => forallb (fun s => forallb (span_apart s) (spans it')) (spans it)) its'
      && apart_check its'
  end.

Definition layout_check (fs : list pb_field_t) (sz : Z) : bool :=
  forallb (fun it => forallb (span_in sz) (spans it)) (iters fs 0) && apart_check (iters fs 0).

(** The iterator of the same field at another address. *)
Definition shifted (addr : Z) (it it0 : pb_field_iter_t) : Prop :=
  it_field it = it_field it0 /\ it_pData it = addr + it_pData it0.

Lemma foot_span it x : foot it x <-> exists s, s ∈ spans it /\ in_range s.1 s.2 x.
Proof.
  unfold foot, spans. split.
  - intros [Hx|[Ho ->]].
    + eexists. split; [apply list_elem_of_here|exact Hx].
    + rewrite Ho. eexists. split; [apply list_elem_of_further, list_elem_of_here|].
      unfold in_range. simpl. lia.
  - intros (s & Hs & Hx). apply elem_of_cons in Hs as [-> |Hs]; [by left|right].
    destruct (Z.eqb_spec (f_htype (it_field it)) PB_HTYPE_OPTIONAL) as [E|E].
    + apply list_elem_of_singleton in Hs as ->. unfold in_range in Hx. simpl in Hx.
      split; [done|lia].
    + by apply not_elem_of_nil in Hs.
Qed.

Lemma shifted_foot addr it it0 x : shifted addr it it0 -> foot it x <-> foot it0 (x - addr).
Proof.
  intros [Ef Ep]. unfold foot. rewrite Ef, Ep. unfold in_range.
  split; (intros [Hx|[Ho Hx]]; [left|right; split; [done|]]); lia.
Qed.

Lemma forallb_elem {A} (p : A -> bool) l x : forallb p l = true -> x ∈ l -> p x = true.
Proof. rewrite forallb_forall. intros Hl Hx. by apply Hl, list_elem_of_In. Qed.

Lemma apart_check_shifted addr its its0 :
  Forall2 (shifted addr) its its0 -> apart_check its0 = true -> apart_all its.
Proof.
  induction 1 as [|it it0 its its0 Hit Hits IH]; intros Hc; [done|].
  cbn [apart_check] in Hc. apply andb_true_iff in Hc as [Hc1 Hc2]. split; [|by apply IH].
  intros it' x Hin Hx Hx'. apply list_elem_of_lookup in Hin as [i Hi].
  pose proof (Forall2_lookup_l _ _ _ _ _ Hits Hi) as Hex.
  destruct Hex as [jt [Hi0 Hsh]].
  rewrite (shifted_foot _ _ _ _ Hit), foot_span in Hx.
  rewrite (shifted_foot _ _ _ _ Hsh), foot_span in Hx'.
  destruct Hx as (s & Hs & Hx). destruct Hx' as (t & Ht & Hx').
  pose proof (forallb_elem _ _ _ Hc1 (list_elem_of_lookup_2 _ _ _ Hi0)) as Ha.
  pose proof (forallb_elem _ _ _ (forallb_elem _ _ _ Ha Hs) Ht) as Hst.
  unfold span_apart in Hst. unfold in_range in *.
  apply orb_true_iff in Hst as [?%Z.leb_le|?%Z.leb_le]; lia.
Qed.

Lemma iters_shifted es addr :
  Forall (fun f => f_tag f <> 0) es ->
  Forall2 (shifted addr) (iters (es ++ [PB_LAST_FIELD]) addr) (iters (es ++ [PB_LAST_FIELD]) 0).
Proof.
  intros Ht. unfold iters. rewrite nfields_app.
  apply Forall2_same_length_lookup_2; [by rewrite !length_map|].
  intros i it it0 Hi Hi0. rewrite list_lookup_fmap in Hi, Hi0.
  destruct (seq 0 (length es) !! i) as [k|] eqn:Ek; [|done]. simpl in Hi, Hi0.
  apply lookup_seq in Ek as [-> Hk]. injection Hi as <-. injection Hi0 as <-. split.
  - by rewrite !it_field_at by done.
  - by apply iter_at_pData.
Qed.

Lemma layout_by_check es sz :
  Forall (fun f => f_tag f <> 0) es ->
  layout_check (es ++ [PB_LAST_FIELD]) sz = true -> layout (es ++ [PB_LAST_FIELD]) sz.
Proof.
  intros Ht Hc addr. unfold layout_check in Hc. apply andb_true_iff in Hc as [Hin Hap].
  pose proof (iters_shifted es addr Ht) as Hsh. split; [|by eapply apart_check_shifted].
  intros it x Hit Hx. apply list_elem_of_lookup in Hit as [i Hi].
  pose proof (Forall2_lookup_l _ _ _ _ _ Hsh Hi) as Hex.
  destruct Hex as [jt [Hi0 Hs]].
  rewrite (shifted_foot _ _ _ _ Hs), foot_span in Hx. destruct Hx as (s & Hss & Hx).
  pose proof (forallb_elem _ _ _ Hin (list_elem_of_lookup_2 _ _ _ Hi0)) as Ha.
  pose proof (forallb_elem _ _ _ Ha Hss) as Hspan. unfold span_in in Hspan.
  apply andb_true_iff in Hspan as [?%Z.leb_le ?%Z.leb_le]. unfold in_range in *. lia.
Qed.

(** * Defaults *)

Lemma plain_not_oneof P es :
  Forall (plain_field P) es -> Forall (fun f => f_htype f <> PB_HTYPE_ONEOF) es.
Proof.
  intros Hp. eapply Forall_impl; [exact Hp|]. intros f [_ _ _ Hr _].
  destruct Hr as [-> |[-> _]]; done.
Qed.

Lemma plain_ltype P f :
  plain_field P f -> 0 <= f_ltype f <= PB_LTYPE_SUBMESSAGE.
Proof.
  intros [_ _ _ _ Ht]. destruct Ht as [[Hl _]|[[[Hl|Hl] _]|[Hl _]]]; ltype_cases; lia.
Qed.

Lemma plain_msg_mono n k fs sz : (n <= k)%nat -> plain_msg n fs sz -> plain_msg k fs sz.
Proof.
  revert k fs sz. induction n as [|n IH]; intros k fs sz Hk Hp; [done|].
  destruct k as [|k]; [lia|]. destruct Hp as [Hlay (es & -> & Hlen & Htags & Hes)].
  split; [done|]. exists es. split_and!; try done. eapply Forall_impl; [exact Hes|].
  intros f [H1 H2 H3 H4 H5]. split; try done.
  destruct H5 as [H5|[H5|[El (fs & Hp & HP)]]]; [by left|by right; left|right; right].
  split; [done|]. exists fs. split; [done|]. apply (IH k); [lia|done].
Qed.

Section Defaults.
Context `{App}.

(** Running an action on every field, each within its own addresses. *)
Lemma run_fields n (act : pb_field_iter_t -> M unit) its m :
  Forall (fun it => plain_field (plain_msg n) (it_field it)) its -> apart_all its ->
  (forall it x, it ∈ its -> foot it x -> is_Some (cells m !! x)) ->
  (forall it m1, it ∈ its -> (forall x, foot it x -> is_Some (cells m1 !! x)) ->
     exists m2, act it m1 = Ok tt m2 /\ framed (foot it) m1 m2
       /\ cleared_field (cleared n) it m2) ->
  exists m', run_list (fun it (_ : unit) => act it ;; ret (true, tt)) its tt m = Ok (true, tt) m'
    /\ framed (fun x => exists it, it ∈ its /\ foot it x) m m'
    /\ Forall (fun it => cleared_field (cleared n) it m') its.
Proof.
  revert m. induction its as [|it its IH]; intros m Hp Hap Hm Hact.
  - exists m. split; [done|]. split; [apply framed_refl|constructor].
  - apply Forall_cons in Hp as [Hpit Hp]. destruct Hap as [Hap1 Hap].
    destruct (Hact it m (list_elem_of_here _ _)) as (m1 & E1 & F1 & C1).
    { intros x. apply Hm, list_elem_of_here. }
    destruct (IH m1 Hp Hap) as (m' & E & Fr & C).
    { intros it' x Hit' Hx. apply (fr_mapped _ _ _ F1). apply (Hm it' x); [|done].
      by apply list_elem_of_further. }
    { intros it' m2 Hit'. apply Hact. by apply list_elem_of_further. }
    exists m'. split_and!.
    + cbn [run_list]. rewrite bind_assoc. mstep E1. rewrite bind_ret. cbn beta iota. exact E.
    + eapply framed_trans; eapply framed_mono; [|exact F1| |exact Fr].
      * intros x Hx. exists it. split; [apply list_elem_of_here|done].
      * intros x (it' & Hit' & Hx). exists it'. split; [by apply list_elem_of_further|done].
    + constructor; [|done]. eapply cleared_field_agree; [exact Hpit| |exact C1].
      eapply framed_agree; [exact Fr|]. intros x Hx (it' & Hit' & Hx').
      by apply (Hap1 it' x).
Qed.

Definition defaults_ok (n : nat) : Prop :=
  forall fs sz addr m, plain_msg n fs sz -> mapped m addr sz ->
    exists m', pb_message_set_to_defaults n fs addr m = Ok tt m'
      /\ framed (in_range addr sz) m m' /\ cleared n fs addr m'.

(** Storing the default of a field that is not a submessage. *)
Lemma store_default it m :
  default_ok (it_field it) -> 0 < f_data_size (it_field it) ->
  mapped m (it_pData it) (f_data_size (it_field it)) ->
  exists m',
    match f_ptr (it_field it) with
    | PtrData bs => memcpy_const (it_pData it) bs (Z.to_nat (f_data_size (it_field it)))
    | PtrNull => memset (it_pData it) 0 (Z.to_nat (f_data_size (it_field it)))
    | PtrFields _ => fault
    end m = Ok tt m'
    /\ framed (in_range (it_pData it) (f_data_size (it_field it))) m m'.
Proof.
  unfold default_ok. intros Hd Hs Hm. destruct (f_ptr (it_field it)) as [|fs|bs]; [|done|].
  - eexists. split; [apply store_bytes_Ok; by rewrite length_replicate, Z2Nat.id by lia|].
    apply framed_stored. by rewrite length_replicate, Z2Nat.id by lia.
  - unfold memcpy_const. rewrite decide_True by lia.
    assert (zlen (take (Z.to_nat (f_data_size (it_field it))) bs) = f_data_size (it_field it)) as El.
    { rewrite length_take. lia. }
    eexists. split; [apply store_bytes_Ok; by rewrite El|].
    apply framed_stored. by rewrite El.
Qed.

Lemma flag_apart P it :
  plain_field P (it_field it) -> f_htype (it_field it) = PB_HTYPE_OPTIONAL ->
  ~ in_range (it_pData it) (f_data_size (it_field it)) (it_pData it + f_size_offset (it_field it)).
Proof.
  intros [_ _ Hs Hr _] Ho. destruct Hr as [E|[_ Hso]]; [by rewrite Ho in E|].
  unfold in_range. lia.
Qed.

Lemma set_default_Ok n it m :
  defaults_ok n -> plain_field (plain_msg n) (it_field it) ->
  it_pSize it = AtAddr (it_pData it + f_size_offset (it_field it)) ->
  (forall x, foot it x -> is_Some (cells m !! x)) ->
  exists m', pb_field_set_to_default (S n) it m = Ok tt m' /\ framed (foot it) m m'
    /\ cleared_field (cleared n) it m'.
Proof.
  intros Hn Hp Hps Hm. pose proof (plain_ltype _ _ Hp) as Hl. pose proof Hp as [Hst _ Hs Hr Ht].
  cbn [pb_field_set_to_default].
  destruct (Z.eqb_spec (f_ltype (it_field it)) PB_LTYPE_EXTENSION) as [E|_]; [ltype_cases; lia|].
  rewrite Hst. change (PB_ATYPE_STATIC =? PB_ATYPE_STATIC) with true. cbn iota.
  (* the has-flag *)
  match goal with |- context [bind ?c _] => set (init := c) end.
  assert (exists m1, init m = Ok true m1 /\ framed (foot it) m m1 /\
    (f_htype (it_field it) = PB_HTYPE_OPTIONAL ->
     cells m1 !! (it_pData it + f_size_offset (it_field it)) = Some 0)) as (m1 & E1 & F1 & Hflag).
  { subst init. rewrite Hps. cbn [size_ptr_is]. destruct Hr as [-> |[Ho Hso]].
    - exists m. split; [done|]. split; [apply framed_refl|done].
    - rewrite Ho. cbn [Z.eqb Pos.eqb PB_HTYPE_OPTIONAL andb].
      destruct (Z.eqb_spec (it_pData it + f_size_offset (it_field it)) (it_pData it)); [lia|].
      cbn [negb].
      assert (store8 (it_pData it + f_size_offset (it_field it)) 0 m
              = Ok tt (stored m (it_pData it + f_size_offset (it_field it)) [0])) as E.
      { unfold store8. destruct (Hm (it_pData it + f_size_offset (it_field it))) as [y Hy];
          [by right|]. by rewrite Hy. }
      eexists. split; [by mstep E|]. split.
      + apply framed_stored. intros x Hx. right. split; [done|].
        unfold in_range in Hx. simpl in Hx. lia.
      + intros _. simpl. by rewrite lookup_insert_eq. }
  mstep E1. cbn beta iota.
  assert (mapped m1 (it_pData it) (f_data_size (it_field it))) as Hm1.
  { intros x Hx. apply (fr_mapped _ _ _ F1), Hm. by left. }
  assert (forall m', framed (in_range (it_pData it) (f_data_size (it_field it))) m1 m' ->
    framed (foot it) m m' /\ (f_htype (it_field it) = PB_HTYPE_OPTIONAL ->
     cells m' !! (it_pData it + f_size_offset (it_field it)) = Some 0)) as Hdone.
  { intros m' F2. split.
    - eapply framed_trans; [exact F1|]. eapply framed_mono; [|exact F2]. apply foot_data.
    - intros Ho. rewrite (fr_cells _ _ _ F2); [by apply Hflag|]. by eapply flag_apart. }
  destruct (Z.eqb_spec (f_ltype (it_field it)) PB_LTYPE_SUBMESSAGE) as [El|El].
  - destruct (plain_field_sub _ _ Hp El) as [Hptr Hsub]. unfold submsg_of. rewrite Hptr, bind_ret.
    destruct (Hn _ _ (it_pData it) m1 Hsub Hm1) as (m' & E & F2 & C).
    destruct (Hdone m' F2) as [HF Hc]. exists m'. split_and!; [exact E|exact HF|by split].
  - assert (default_ok (it_field it)) as Hd by (destruct Ht as [(_ & _ & ?)|[[_ ?]|[? _]]]; done).
    destruct (store_default it m1 Hd ltac:(lia) Hm1) as (m' & E & F2).
    destruct (Hdone m' F2) as [HF Hc]. exists m'. split_and!; [exact E|exact HF|by split].
Qed.

Lemma defaults_all n : defaults_ok n.
Proof.
  induction n as [|n IH]; intros fs sz addr m Hp Hm; [done|].
  destruct Hp as [Hlay (es & -> & _ & _ & Hes)]. destruct (Hlay addr) as [Hin Hap].
  pose proof (plain_tags _ _ Hes) as Htags. pose proof (plain_not_oneof _ _ Hes) as Hone.
  assert (Forall (fun it => plain_field (plain_msg n) (it_field it)) (iters (es ++ [PB_LAST_FIELD]) addr))
    as Hits.
  { rewrite Forall_forall. intros it Hit. rewrite Forall_forall in Hes.
    apply Hes. by apply (iters_entries es addr). }
  destruct (run_fields n (pb_field_set_to_default (S n)) (iters (es ++ [PB_LAST_FIELD]) addr) m
              Hits Hap) as (m' & E & Fr & C).
  { intros it x Hit Hx. apply Hm. by apply (Hin it). }
  { intros it m1 Hit Hm1. rewrite Forall_forall in Hits. apply set_default_Ok; auto.
    by apply (iters_pSize es Htags addr). }
  exists m'. split_and!; [|eapply framed_mono; [|exact Fr]|exact C].
  - unfold pb_message_set_to_defaults, over_fields. rewrite pb_field_iter_begin_at by done.
    destruct (decide (0 < length es)%nat) as [Hpos|Hzero].
    + rewrite bool_decide_true by done. rewrite (bind_Ok _ _ _ (true, tt) m'); [done|].
      by rewrite for_each_field_iters.
    + rewrite bool_decide_false by done. destruct es; [|simpl in Hzero; lia].
      cbn in E. by injection E as ->.
  - intros x (it & Hit & Hx). by apply (Hin it).
Qed.
End Defaults.
