(* ===== verification/PbTotal.v ===== *)
(** The stream functions of [pb_decode.c] on arbitrary input: each of them
    returns, faults on no input, and on success has consumed a prefix of it. *)
From stdpp Require Import base list numbers option strings gmap.
From S2P Require Import Prelude Varint Machine PbTypes PbCommon PbDecode PbWire PbDecodeSpec PbPlain.
Open Scope Z_scope.
Open Scope c_scope.

(** [s'] is [s] after a part of [l], with [l'] left. *)
Definition took (s : pb_istream_t) (l : list Z) (s' : pb_istream_t) (l' : list Z) : Prop :=
  exists p, l = p ++ l' /\ s' = consumed s (zlen p).

Lemma took_refl s l : took s l s l.
Proof. exists []. split; [done|]. by rewrite consumed_0. Qed.

Lemma took_prefix s p l : took s (p ++ l) (consumed s (zlen p)) l.
Proof. by exists p. Qed.

Lemma took_trans s l s1 l1 s2 l2 : took s l s1 l1 -> took s1 l1 s2 l2 -> took s l s2 l2.
Proof.
  intros (p & -> & ->) (q & -> & ->). exists (p ++ q).
  by rewrite consumed_consumed, zlen_app, app_assoc.
Qed.

Lemma took_reading s m l s' l' : took s l s' l' -> reading s m l -> reading s' m l'.
Proof. intros (p & -> & ->). apply reading_app. Qed.

Lemma took_length s l s' l' : took s l s' l' -> (length l' <= length l)%nat.
Proof. intros (p & -> & _). rewrite length_app. lia. Qed.

(** The part of memory a stream reads shrinks. *)
Lemma took_range s m l s' l' x :
  took s l s' l' -> reading s m l ->
  in_range (i_state s') (i_bytes_left s') x -> in_range (i_state s) (i_bytes_left s) x.
Proof.
  intros (p & -> & ->) Hs. pose proof (rd_left _ _ _ Hs) as Hl. rewrite zlen_app in Hl.
  unfold in_range, consumed. simpl. lia.
Qed.

(** A function that reads a value satisfying [P] and changes no memory. *)
Definition reads_value {A} (P : A -> Prop) (s : pb_istream_t) (m : mem) (l : list Z)
    (r : outcome (option A * pb_istream_t)) : Prop :=
  exists o s', r = Ok (o, s') m /\ i_callback s' = IcbBufRead
    /\ forall v, o = Some v -> P v /\ exists l', took s l s' l'.

(** A step that writes to the addresses [D] at most. *)
Definition safe_step (D : Z -> Prop) (s : pb_istream_t) (m : mem) (l : list Z)
    (r : outcome (bool * pb_istream_t)) : Prop :=
  exists ok s' m', r = Ok (ok, s') m' /\ framed D m m' /\ i_callback s' = IcbBufRead
    /\ (ok = true -> exists l', took s l s' l').

Lemma safe_after D s m l s1 m1 l1 r :
  took s l s1 l1 -> framed D m m1 -> safe_step D s1 m1 l1 r -> safe_step D s m l r.
Proof.
  intros Ht Hf (ok & s' & m' & E & Hf' & Hc & Hok). exists ok, s', m'.
  split_and!; [done|by eapply framed_trans|done|].
  intros Ht'. destruct (Hok Ht') as [l' Hl]. exists l'. by eapply took_trans.
Qed.

Lemma safe_mono (D D' : Z -> Prop) s m l r :
  (forall x, D x -> D' x) -> safe_step D s m l r -> safe_step D' s m l r.
Proof.
  intros HD (ok & s' & m' & E & Hf & Hc & Hok). exists ok, s', m'.
  split_and!; [done|by eapply framed_mono|done..].
Qed.

Lemma safe_fail D s m l s' m' :
  framed D m m' -> i_callback s' = IcbBufRead -> safe_step D s m l (Ok (false, s') m').
Proof. intros. by exists false, s', m'. Qed.

Lemma safe_ok D s m l s' m' l' :
  framed D m m' -> i_callback s' = IcbBufRead -> took s l s' l' ->
  safe_step D s m l (Ok (true, s') m').
Proof. intros. exists true, s', m'. eauto. Qed.

Section Total.
Context `{App}.

Lemma reading_callback s m l s' l' : reading s m l -> took s l s' l' -> i_callback s' = IcbBufRead.
Proof. intros Hs (p & -> & ->). apply (rd_callback _ _ _ Hs). Qed.

Lemma lor_u32_range a b : in_uint 32 a -> in_uint 32 b -> in_uint 32 (Z.lor a b).
Proof.
  unfold in_uint. intros Ha Hb.
  rewrite <- (Z.mod_small a (2 ^ 32)), <- (Z.mod_small b (2 ^ 32)) by done.
  rewrite <- !Z.land_ones by lia. rewrite <- Z.land_lor_distr_l.
  rewrite Z.land_ones by lia. apply Z.mod_pos_bound. lia.
Qed.

(** One byte. *)
Lemma readbyte_cases s m l :
  reading s m l ->
  (l = [] /\ pb_readbyte s m = Ok (None, i_seterr s "end-of-stream") m)
  \/ exists b l', l = b :: l' /\ is_byte b /\ took s l (consumed s 1) l'
       /\ reading (consumed s 1) m l' /\ pb_readbyte s m = Ok (Some b, consumed s 1) m.
Proof.
  intros Hs. destruct l as [|b l'].
  - left. split; [done|by apply pb_readbyte_nil].
  - right. exists b, l'. pose proof (rd_bytes _ _ _ Hs) as Hb. apply Forall_cons in Hb as [Hb _].
    split_and!; [done|done|by exists [b]|by apply (reading_app s m [b])|].
    by apply (pb_readbyte_cons s m b l').
Qed.

Lemma varint_total s m l :
  reading s m l -> reads_value (in_uint 64) s m l (pb_decode_varint s m).
Proof.
  intros Hs. pose proof (rd_callback _ _ _ Hs) as Hc.
  destruct (pb_decode_varint_cases s m l Hs)
    as [(w & rest & -> & _ & _ & ->)|[(w & rest & _ & _ & _ & ->)|(_ & _ & ->)]];
    (eexists _, _; split; [reflexivity|]; split; [done|]); intros v Hv; [|done..].
  injection Hv as <-. split; [apply u64_range|]. exists rest. apply took_prefix.
Qed.

Lemma varint32_loop_total n s m l k r :
  reading s m l -> (length l < n)%nat -> in_uint 32 r ->
  reads_value (fun x => in_uint 32 x.1.1) s m l (varint32_loop n s k r m).
Proof.
  revert s l k r. induction n as [|n IH]; intros s l k r Hs Hn Hr; [lia|].
  pose proof (rd_callback _ _ _ Hs) as Hcb. cbn [varint32_loop].
  destruct (readbyte_cases s m l Hs) as [[-> E]|(b & l' & -> & Hb & Ht & Hs' & E)]; mstep E; cbn beta iota.
  - by eexists _, _.
  - match goal with |- context [if ?c then _ else _] => destruct c end; [by eexists _, _|].
    set (r' := if 32 <=? k then r else Z.lor r (u32 (Z.land b 127 ≪ k))).
    assert (in_uint 32 r') as Hr'.
    { subst r'. destruct (32 <=? k); [done|]. apply lor_u32_range; [done|apply u32_range]. }
    destruct (Z.land b 0x80 =? 0).
    + eexists _, _. split; [reflexivity|]. split; [done|]. intros v Hv. injection Hv as <-.
      split; [done|]. by exists l'.
    + destruct (IH (consumed s 1) l' (fast8 (k + 7)) r' Hs' ltac:(simpl in Hn; lia) Hr')
        as (o & s' & E' & Hc' & Hv).
      exists o, s'. split; [exact E'|]. split; [done|]. intros v Ho.
      destruct (Hv v Ho) as (HP & l2 & Ht2). split; [done|]. exists l2. by eapply took_trans.
Qed.

(** A success has read at least a byte; [*eof] is set only at the end. *)
Lemma varint32_eof_total s m l :
  reading s m l ->
  exists o s' eof, pb_decode_varint32_eof s m = Ok (o, s', eof) m /\ i_callback s' = IcbBufRead
    /\ (l <> [] -> o = None -> eof = false)
    /\ forall v, o = Some v -> in_uint 32 v /\ exists l', took s l s' l' /\ (length l' < length l)%nat.
Proof.
  intros Hs. pose proof (rd_callback _ _ _ Hs) as Hcb. unfold pb_decode_varint32_eof.
  destruct (readbyte_cases s m l Hs) as [[-> E]|(b & l' & -> & Hb & Ht & Hs' & E)]; mstep E; cbn beta iota.
  - by eexists _, _, _.
  - destruct (Z.land b 0x80 =? 0).
    + eexists _, _, _. split; [reflexivity|]. split_and!; [done|done|]. intros v Hv. injection Hv as <-.
      split; [unfold in_uint in *; pow2; lia|]. exists l'. split; [done|simpl; lia].
    + assert (in_uint 32 (Z.land b 0x7F)) as Hr by (rewrite land_7f; cint).
      destruct (varint32_loop_total (stream_rounds (consumed s 1)) (consumed s 1) m l' 7
                  (Z.land b 0x7F) Hs') as (o & s' & E' & Hc' & Hv); [|done|].
      { unfold stream_rounds. rewrite (rd_left _ _ _ Hs'). lia. }
      mstep E'. destruct o as [[[r bp] b']|]; [|by eexists _, _, _].
      destruct (Hv _ eq_refl) as (HP & l2 & Ht2). pose proof (took_length _ _ _ _ Ht2).
      cbn beta iota. match goal with |- context [if ?c then _ else _] => destruct c end;
        [by eexists _, _, _|].
      eexists _, _, _. split; [reflexivity|]. split_and!; [done|done|]. intros v Hv'. injection Hv' as <-.
      split; [done|]. exists l2. split; [by eapply took_trans|simpl; lia].
Qed.

Lemma varint32_total s m l :
  reading s m l -> reads_value (in_uint 32) s m l (pb_decode_varint32 s m).
Proof.
  intros Hs. destruct (varint32_eof_total s m l Hs) as (o & s' & eof & E & Hc & _ & Hv).
  unfold pb_decode_varint32. mstep E. exists o, s'. split; [done|]. split; [done|].
  intros v Ho. destruct (Hv v Ho) as (HP & l' & Ht & _). split; [done|]. by exists l'.
Qed.

(** Tags: field numbers have 29 bits. *)
Lemma decode_tag_total s m l :
  reading s m l -> l <> [] ->
  exists t s', pb_decode_tag s m = Ok (t, s') m /\ i_callback s' = IcbBufRead
    /\ (tr_ok t = true \/ tr_eof t = true -> exists l', took s l s' l' /\ (length l' < length l)%nat)
    /\ (tr_ok t = true -> 0 <= tr_tag t < 2 ^ 29).
Proof.
  intros Hs Hne. destruct (varint32_eof_total s m l Hs) as (o & s' & eof & E & Hc & He & Hv).
  unfold pb_decode_tag. mstep E. cbn beta iota. destruct o as [v|].
  - destruct (Hv v eq_refl) as (HP & Hex).
    destruct (v =? 0); (eexists _, _; split; [reflexivity|]; split_and!; [done|done|]); [done|].
    intros _. cbn [tr_tag]. rewrite shiftr_div by lia. unfold in_uint in HP. pow2.
    Z.to_euclidean_division_equations; lia.
  - rewrite (He Hne eq_refl). eexists _, _. split; [reflexivity|].
    split_and!; [done|cbn; intros [|]; done|done].
Qed.

(** ** Skipping *)
Lemma skip_total D s m l n :
  reading s m l -> 0 <= n -> safe_step D s m l (pb_skip s n m).
Proof.
  intros Hs Hn. pose proof (rd_callback _ _ _ Hs) as Hcb.
  destruct (Z.le_gt_cases n (zlen l)) as [Hle|Hgt].
  - rewrite <- (take_drop (Z.to_nat n) l) in Hs.
    assert (zlen (take (Z.to_nat n) l) = n) as En by (rewrite length_take; lia).
    pose proof (pb_skip_app s m _ _ Hs) as E. rewrite En in E. rewrite E.
    apply (safe_ok D s m l _ m (drop (Z.to_nat n) l)); [apply framed_refl|done|].
    exists (take (Z.to_nat n) l). by rewrite take_drop, En.
  - unfold pb_skip. mstep (pb_read_short s m l (DstMem NULL) n Hs Hgt).
    by apply safe_fail; [apply framed_refl|].
Qed.

Lemma skip_varint_total D n s m l :
  reading s m l -> (length l < n)%nat -> safe_step D s m l (skip_varint_loop n s m).
Proof.
  revert s l. induction n as [|n IH]; intros s l Hs Hn; [lia|]. cbn [skip_varint_loop].
  pose proof (rd_callback _ _ _ Hs) as Hcb. destruct l as [|b l'].
  - mstep (pb_read_short s m [] DstLocal 1 Hs ltac:(simpl; lia)). cbn beta iota.
    by apply safe_fail; [apply framed_refl|].
  - mstep (pb_read_local s m [b] l' Hs). cbn beta iota.
    assert (took s (b :: l') (consumed s 1) l') as Ht by (by exists [b]).
    destruct (Z.land b 0x80 =? 0).
    + by apply (safe_ok D s m _ _ m l'); [apply framed_refl| |].
    + eapply (safe_after D s m (b :: l')); [exact Ht|apply framed_refl|].
      apply IH; [by apply (reading_app s m [b])|simpl in Hn; lia].
Qed.

Lemma skip_field_total D s m l wt : reading s m l -> safe_step D s m l (pb_skip_field s wt m).
Proof.
  intros Hs. unfold pb_skip_field.
  destruct (wt =? PB_WT_VARINT).
  { apply skip_varint_total; [done|]. unfold stream_rounds. rewrite (rd_left _ _ _ Hs). lia. }
  destruct (wt =? PB_WT_64BIT); [by apply skip_total; [|lia]|].
  destruct (wt =? PB_WT_STRING); [|destruct (wt =? PB_WT_32BIT); [by apply skip_total; [|lia]|]].
  - destruct (varint32_total s m l Hs) as (o & s' & E & Hc & Hv). unfold pb_skip_string. mstep E.
    cbn beta iota. destruct o as [v|]; [|by apply safe_fail; [apply framed_refl|]].
    destruct (Hv v eq_refl) as ([Hv0 _] & l' & Ht).
    eapply safe_after; [exact Ht|apply framed_refl|]. apply skip_total; [by eapply took_reading|lia].
  - apply safe_fail; [apply framed_refl|]. apply (rd_callback _ _ _ Hs).
Qed.

(** ** Substreams *)

(** The substream reads the payload [w]; the parent stands at its start with the
    size of the payload taken off. *)
Lemma make_substream_total s m l :
  reading s m l ->
  exists o s', pb_make_string_substream s m = Ok (o, s') m /\ i_callback s' = IcbBufRead
    /\ forall sub, o = Some sub -> exists p w rest, l = p ++ w ++ rest
       /\ sub = i_set_left (consumed s (zlen p)) (zlen w)
       /\ s' = i_set_left (consumed s (zlen p)) (zlen rest) /\ reading sub m w.
Proof.
  intros Hs. pose proof (rd_size _ _ _ Hs) as Hsz. unfold pb_make_string_substream.
  destruct (varint32_total s m l Hs) as (o & s1 & E & Hc & Hv). mstep E. cbn beta iota.
  destruct o as [n|]; [|by eexists _, _].
  destruct (Hv n eq_refl) as ([Hn0 _] & l1 & (p & -> & ->)). apply reading_app in Hs as Hs1.
  pose proof (rd_left _ _ _ Hs1) as Hl.
  destruct (Z.ltb_spec (i_bytes_left (consumed s (zlen p))) n); [by eexists _, _|].
  rewrite zlen_app in Hsz.
  assert (zlen (take (Z.to_nat n) l1) = n) as En by (rewrite length_take; lia).
  eexists _, _. split; [reflexivity|]. split; [done|]. intros sub Hsub. injection Hsub as <-.
  exists p, (take (Z.to_nat n) l1), (drop (Z.to_nat n) l1). rewrite take_drop, En. split_and!; [done..| |].
  - rewrite Hl, length_drop, u64_small by (unfold in_uint; lia). f_equal. lia.
  - rewrite <- (take_drop (Z.to_nat n) l1) in Hs1.
    destruct Hs1 as [Hcb _ _ Hby Hat]. apply Forall_app in Hby as [Hby _].
    apply bytes_at_app in Hat as [Hat _]. split; simpl; try done; lia.
Qed.

(** Closing a substream of a buffer always succeeds. *)
Lemma close_substream_total s sub m :
  i_callback sub = IcbBufRead -> i_callback s = IcbBufRead ->
  exists s', pb_close_string_substream s sub m = Ok (true, s') m /\ i_callback s' = IcbBufRead.
Proof.
  intros Hsub Hs. unfold pb_close_string_substream.
  destruct (i_bytes_left sub =? 0) eqn:E0; cbn [negb].
  - rewrite bind_ret. cbn beta iota. eexists. split; [reflexivity|done].
  - unfold pb_skip, pb_read. rewrite E0. unfold is_buf_read. rewrite Hsub, andb_false_r.
    unfold pb_read_buf. rewrite Z.ltb_irrefl. unfold i_call. rewrite Hsub. cbn.
    eexists. split; [reflexivity|done].
Qed.

(** Closing a substream that was read in part leaves the parent behind it. *)
Lemma close_substream_took s m p w rest sub' w' :
  reading s m (p ++ w ++ rest) ->
  took (i_set_left (consumed s (zlen p)) (zlen w)) w sub' w' -> reading sub' m w' ->
  pb_close_string_substream (i_set_left (consumed s (zlen p)) (zlen rest)) sub' m
  = Ok (true, consumed s (zlen p + zlen w)) m.
Proof.
  intros Hs (q & -> & ->) Hsub. pose proof (rd_left _ _ _ Hs) as Hl.
  rewrite !zlen_app in Hl.
  rewrite (pb_close_string_substream_Ok _ _ m w' (zlen (q ++ w')) Hsub);
    [|simpl; rewrite zlen_app; lia].
  do 2 f_equal. unfold i_set_errmsg, i_set_state, i_set_left, consumed. simpl.
  rewrite zlen_app. f_equal; lia.
Qed.
End Total.
