(* ===== verification/PbDecodeMsg.v ===== *)
(** Decoding a plain message: from the wire encoding of a value, [pb_decode]
    fills the structure with a representation of that value. *)
From stdpp Require Import base list list_numbers numbers option strings gmap.
From S2P Require Import Prelude Varint Machine PbTypes PbCommon PbIter PbEncode PbDecode PbWire PbRep.
From S2P Require Import PbRep PbEncodeSpec PbDecodeSpec PbPlain.
Open Scope Z_scope.
Open Scope c_scope.

Section DecodeMsg.
Context `{App}.

(** A decoder of submessages whose fields are already cleared. *)
Definition noinit_ok (n : nat) (dec : pb_istream_t -> list pb_field_t -> Z -> IStep) : Prop :=
  forall fs sz addr fss s m,
    plain_msg n fs sz -> fits_msg fs fss -> zlen (msg_wire fs fss) < 2 ^ 32 ->
    reading s m (msg_wire fs fss) -> 0 < addr -> mapped m addr sz -> apart s addr sz ->
    cleared n fs addr m ->
    exists m', dec s fs addr m = Ok (true, consumed s (zlen (msg_wire fs fss))) m'
      /\ framed (in_range addr sz) m m' /\ rep_msg (in_range addr sz) m' fs addr fss.

(** ** Items *)
Definition item_decoded (f : pb_field_t) (v : value) (dest : Z) (s : pb_istream_t) (m : mem)
    (r : outcome (bool * pb_istream_t)) : Prop :=
  exists m', r = Ok (true, consumed s (zlen (item_wire f v))) m'
    /\ framed (in_range dest (f_data_size f)) m m'
    /\ rep_item (in_range dest (f_data_size f)) m' f dest v.

Lemma scalar_bytes_size f z :
  scalar_size f -> zlen (scalar_bytes f z) = f_data_size f.
Proof.
  unfold scalar_size, scalar_bytes.
  destruct (f_ltype f =? PB_LTYPE_BOOL); [by intros ->|].
  destruct (f_ltype f =? PB_LTYPE_FIXED32); [by intros ->|].
  destruct (f_ltype f =? PB_LTYPE_FIXED64); [by intros ->|].
  intros Hds. rewrite length_le_bytes, Z2Nat.id; [done|].
  destruct Hds as [->|[->|[->| ->]]]; lia.
Qed.

(** Bytes just stored are held. *)
Lemma stored_holds m a l n :
  Forall is_byte l -> zlen l <= n -> holds (in_range a n) (stored m a l) a l.
Proof.
  intros Hb Hn. split; [by apply stored_bytes_at|]. intros x. unfold in_range. lia.
Qed.

Lemma decode_scalar_item rec f z s m rest dest :
  0 <= f_ltype f <= PB_LTYPE_LAST_PACKABLE -> scalar_size f -> scalar_ok f z ->
  reading s m (scalar_wire (f_ltype f) z ++ rest) -> mapped m dest (f_data_size f) ->
  item_decoded f (VScalar z) dest s m (PB_DECODERS rec (f_ltype f) s f dest m).
Proof.
  intros Hl Hsz Hok Hs Hm. pose proof (scalar_bytes_size f z Hsz) as El.
  exists (stored m dest (scalar_bytes f z)). split_and!.
  - apply decode_scalar_wire with (rest := rest); try done. by rewrite El.
  - apply framed_stored. by rewrite El.
  - split; [done|]. apply scalar_bytes_rep; [done|].
    apply stored_holds; [by apply scalar_bytes_bytes|lia].
Qed.

Lemma decode_text_item rec f bs s m rest dest :
  f_atype f = PB_ATYPE_STATIC -> f_data_size f < 2 ^ 32 -> fits_item f (VBytes bs) ->
  reading s m (delim bs ++ rest) -> 0 < dest ->
  mapped m dest (f_data_size f) -> apart s dest (f_data_size f) ->
  item_decoded f (VBytes bs) dest s m (PB_DECODERS rec (f_ltype f) s f dest m).
Proof.
  intros Hst Hsz [Hby Hfit] Hs Hd Hm Hap. unfold PB_DECODERS.
  destruct Hfit as [[El Hlen]|(El & Hnz & Hlen)]; rewrite El; ltype_cases; cbn [Z.eqb Pos.eqb].
  - unfold OFFSETOF_BYTES in Hlen.
    exists (stored m dest (le_bytes 4 (zlen bs) ++ bs)). split_and!.
    + apply (dec_bytes_fits f s m bs rest dest); done || (unfold OFFSETOF_BYTES; lia).
    + apply framed_stored. intros x. rewrite zlen_app, length_le_bytes. unfold in_range. lia.
    + split; [ltype_cases; lia|]. unfold rep_bytes. rewrite El. ltype_cases. cbn [Z.eqb Pos.eqb].
      right. split_and!; [unfold NULL; lia|lia| |].
      * apply stored_holds; [|rewrite zlen_app, length_le_bytes; lia].
        apply Forall_app. split; [apply le_bytes_bytes|done].
      * intros _. unfold OFFSETOF_BYTES. lia.
  - exists (stored m dest (bs ++ [0])). split_and!.
    + apply (dec_string_fits f s m bs rest dest); done || lia.
    + apply framed_stored. intros x. rewrite zlen_app. unfold in_range. simpl. lia.
    + split; [ltype_cases; lia|]. unfold rep_bytes. rewrite El. ltype_cases. cbn [Z.eqb Pos.eqb].
      right. unfold string_max. rewrite Hst. change (PB_ATYPE_STATIC =? PB_ATYPE_POINTER) with false.
      cbn iota. rewrite (proj2 (Z.ltb_lt _ _)) by lia.
      split_and!; [unfold NULL; lia|done|lia|].
      apply stored_holds; [|rewrite zlen_app; simpl; lia].
      apply Forall_app. split; [done|by constructor].
Qed.

Lemma decode_submessage n rec f fs fss s m rest dest :
  noinit_ok n (rec_decode_noinit rec) -> f_htype f <> PB_HTYPE_REPEATED ->
  f_ptr f = PtrFields fs -> plain_msg n fs (f_data_size f) -> fits_msg fs fss ->
  zlen (msg_wire fs fss) < 2 ^ 32 ->
  reading s m (delim (msg_wire fs fss) ++ rest) -> 0 < dest ->
  mapped m dest (f_data_size f) -> apart s dest (f_data_size f) ->
  cleared n fs dest m ->
  exists m', pb_dec_submessage rec s f dest m
             = Ok (true, consumed s (zlen (delim (msg_wire fs fss)))) m'
    /\ framed (in_range dest (f_data_size f)) m m'
    /\ rep_msg (in_range dest (f_data_size f)) m' fs dest fss.
Proof.
  intros Hrec Hh Hp Hpl Hfit Hlen Hs Hd Hm Hap Hc.
  set (w := msg_wire fs fss) in *.
  destruct (pb_make_string_substream_wire s m w rest Hlen Hs) as [E Hsub].
  set (s1 := consumed s (zlen (varint (zlen w)))) in *.
  pose proof (rd_left _ _ _ Hs) as Hleft. unfold delim in Hleft.
  rewrite !zlen_app in Hleft.
  destruct (Hrec fs (f_data_size f) dest fss (i_set_left s1 (zlen w)) m)
    as (m' & E2 & Fr & Hrep); try done.
  { intros x Hx Hin. apply (Hap x Hx). unfold in_range in *. simpl in *. lia. }
  exists m'. split_and!; [|done|done].
  unfold pb_dec_submessage. mstep E. cbn beta iota. rewrite Hp.
  apply Z.eqb_neq in Hh. rewrite Hh. mstep E2. cbn beta iota.
  assert (reading (consumed (i_set_left s1 (zlen w)) (zlen w)) m' []) as Hend.
  { split; simpl; try done.
    - apply (rd_callback _ _ _ Hs).
    - lia. }
  fold w in E2 |- *.
  rewrite (bind_Ok _ _ _ _ _ (pb_close_string_substream_Ok (i_set_left s1 (zlen rest)) _ m' []
    (zlen w) Hend ltac:(simpl; lia))).
  cbn beta iota. cbn [andb]. unfold ret. do 2 f_equal.
  unfold consumed, s1, i_set_errmsg, i_set_state, i_set_left, delim. simpl. rewrite zlen_app.
  f_equal; lia.
Qed.

Lemma decode_item n rec f v s m rest dest :
  noinit_ok n (rec_decode_noinit rec) -> plain_field (plain_msg n) f -> fits_item f v ->
  zlen (item_wire f v) < 2 ^ 32 ->
  reading s m (item_wire f v ++ rest) -> 0 < dest ->
  mapped m dest (f_data_size f) -> apart s dest (f_data_size f) ->
  (f_ltype f = PB_LTYPE_SUBMESSAGE -> cleared n (sub_fields f) dest m) ->
  item_decoded f v dest s m (PB_DECODERS rec (f_ltype f) s f dest m).
Proof.
  intros Hrec Hp Hfit Hlen Hs Hd Hm Hap Hc. pose proof Hp as [Hst _ Hsz Hr Ht].
  destruct v as [z|bs|fss].
  - destruct Hfit as [Hl Hok]. apply decode_scalar_item with (rest := rest); try done.
    destruct Ht as [(_ & ? & _)|[[[E|E] _]|[E _]]]; [done|ltype_cases; lia..].
  - apply decode_text_item with (rest := rest); done || lia.
  - apply fits_item_msg in Hfit as [El Hfit].
    destruct (plain_field_sub _ _ Hp El) as [Hptr Hsub].
    rewrite item_wire_msg in Hs, Hlen. pose proof (delim_length (msg_wire (sub_fields f) fss)).
    destruct (decode_submessage n rec f (sub_fields f) fss s m rest dest) as (m' & E & Fr & Hrep);
      try done; [by destruct Hr as [-> |[-> _]]|lia|by apply Hc|].
    exists m'. rewrite item_wire_msg. split_and!; [|done|].
    + unfold PB_DECODERS. rewrite El. exact E.
    + apply rep_item_msg. split; [done|]. by exists (sub_fields f).
Qed.

(** ** Fields *)
Definition foot_apart (it : pb_field_iter_t) (s : pb_istream_t) : Prop :=
  forall x, foot it x -> ~ in_range (i_state s) (i_bytes_left s) x.

Lemma rep_field_present n it v m :
  plain_field (plain_msg n) (it_field it) -> 0 < it_pData it ->
  rep_item (foot it) m (it_field it) (it_pData it) v ->
  (f_htype (it_field it) = PB_HTYPE_OPTIONAL ->
   cells m !! (it_pData it + f_size_offset (it_field it)) = Some 1) ->
  rep_field (foot it) m it [v].
Proof.
  intros Hp Hpos Hv Hflag. pose proof (plain_ltype _ _ Hp). pose proof Hp as [Hst _ Hsz Hr _].
  split; [ltype_cases; lia|]. exists (it_pData it). split.
  { unfold field_target. rewrite Hst. split_and!; [done|done|unfold NULL; lia]. }
  destruct Hr as [-> |[Ho Hso]]; [split; [unfold NULL; lia|done]|].
  rewrite Ho. exists true. split; [|done]. unfold presence.
  destruct (Z.eqb_spec (f_size_offset (it_field it)) 0); [lia|].
  apply (reads_bool (foot it) m _ 1). split.
  - intros [|i] b Hi; [|by destruct i]. simpl in Hi. injection Hi as <-.
    rewrite Z.add_0_r. by apply Hflag.
  - intros x Hx. right. split; [done|]. unfold in_range in Hx. simpl in Hx. lia.
Qed.

Lemma rep_field_absent n it m :
  plain_field (plain_msg n) (it_field it) -> 0 < it_pData it ->
  f_htype (it_field it) <> PB_HTYPE_REQUIRED -> cleared_field (cleared n) it m ->
  rep_field (foot it) m it [].
Proof.
  intros Hp Hpos Hnr [Hflag _]. pose proof (plain_ltype _ _ Hp). pose proof Hp as [Hst _ Hsz Hr _].
  split; [ltype_cases; lia|]. exists (it_pData it). split.
  { unfold field_target. rewrite Hst. split_and!; [done|done|unfold NULL; lia]. }
  destruct Hr as [? |[Ho Hso]]; [done|].
  rewrite Ho. exists false. split; [|done]. unfold presence.
  destruct (Z.eqb_spec (f_size_offset (it_field it)) 0); [lia|].
  apply (reads_bool (foot it) m _ 0). split.
  - intros [|i] b Hi; [|by destruct i]. simpl in Hi. injection Hi as <-.
    rewrite Z.add_0_r. by apply Hflag.
  - intros x Hx. right. split; [done|]. unfold in_range in Hx. simpl in Hx. lia.
Qed.

Lemma decode_static_plain n fuel rec it v s m rest fc wt :
  noinit_ok n (rec_decode_noinit rec) -> plain_field (plain_msg n) (it_field it) ->
  it_pSize it = AtAddr (it_pData it + f_size_offset (it_field it)) ->
  fits_item (it_field it) v -> zlen (item_wire (it_field it) v) < 2 ^ 32 ->
  reading s m (item_wire (it_field it) v ++ rest) -> 0 < it_pData it ->
  (forall x, foot it x -> is_Some (cells m !! x)) -> foot_apart it s ->
  cleared_field (cleared n) it m ->
  exists m', decode_static_field fuel rec s wt it fc m
             = Ok (true, consumed s (zlen (item_wire (it_field it) v)), fc) m'
    /\ framed (foot it) m m' /\ rep_field (foot it) m' it [v].
Proof.
  intros Hrec Hp Hps Hfit Hlen Hs Hpos Hm Hap Hc. pose proof Hp as [Hst _ Hsz Hr _].
  set (f := it_field it) in *. unfold decode_static_field. fold f.
  assert (apart s (it_pData it) (f_data_size f)) as Hapd.
  { intros x Hx. apply Hap. by left. }
  assert (mapped m (it_pData it) (f_data_size f)) as Hmd.
  { intros x Hx. apply Hm. by left. }
  destruct Hr as [Eh|[Eh Hso]]; rewrite Eh; cbn [Z.eqb Pos.eqb PB_HTYPE_REQUIRED PB_HTYPE_OPTIONAL].
  - destruct (decode_item n rec f v s m rest (it_pData it) Hrec Hp Hfit Hlen Hs Hpos Hmd Hapd
                (proj2 Hc)) as (m' & E & Fr & Hv).
    exists m'. unfold with_fc. split_and!; [by mstep E| |].
    + eapply framed_mono; [|exact Fr]. apply foot_data.
    + apply (rep_field_present n); [done|done| |by fold f; rewrite Eh].
      eapply (rep_item_frame (in_range (it_pData it) (f_data_size f)) (foot it) m' m');
        [apply foot_data|done|apply Nat.lt_succ_diag_r|exact Hv].
  - rewrite Hps. cbn [size_ptr_is]. set (flag := it_pData it + f_size_offset f) in *.
    destruct (Z.eqb_spec flag (it_pData it)); [subst flag; lia|]. cbn [negb].
    assert (foot it flag) as Hfl by (right; done).
    assert (store8 flag 1 m = Ok tt (stored m flag [1])) as E1.
    { unfold store8. destruct (Hm flag Hfl) as [y Hy]. by rewrite Hy. }
    mstep E1. set (m1 := stored m flag [1]) in *.
    assert (framed (fun x => x = flag) m m1) as F1.
    { apply framed_stored. intros x Hx. unfold in_range in Hx. simpl in Hx. lia. }
    assert (~ in_range (it_pData it) (f_data_size f) flag) as Hout by (by eapply flag_apart).
    assert (reading s m1 (item_wire f v ++ rest)) as Hs1.
    { eapply reading_framed; [exact Hs|exact F1|]. intros x ->. by apply Hap. }
    assert (f_ltype f = PB_LTYPE_SUBMESSAGE -> cleared n (sub_fields f) (it_pData it) m1) as Hc1.
    { intros El. destruct (plain_field_sub _ _ Hp El) as [_ Hsub].
      eapply cleared_agree; [exact Hsub| |by apply Hc].
      eapply framed_agree; [exact F1|]. intros x Hx ->. by apply Hout. }
    destruct (decode_item n rec f v s m1 rest (it_pData it) Hrec Hp Hfit Hlen Hs1 Hpos
                (framed_mapped _ _ _ _ _ F1 Hmd) Hapd Hc1) as (m' & E & Fr & Hv).
    exists m'. unfold with_fc. split_and!; [by mstep E| |].
    + eapply framed_trans; eapply framed_mono; [|exact F1| |exact Fr];
        [intros x ->; exact Hfl|apply foot_data].
    + apply (rep_field_present n); [done|done| |].
      * eapply (rep_item_frame (in_range (it_pData it) (f_data_size f)) (foot it) m' m');
          [apply foot_data|done|apply Nat.lt_succ_diag_r|exact Hv].
      * intros _. fold f flag. rewrite (fr_cells _ _ _ Fr _ Hout). subst m1. simpl.
        by rewrite lookup_insert_eq.
Qed.

(** ** The loop over the fields of the input *)
Lemma find_tag es i j :
  Forall (fun f => f_tag f <> 0) es -> NoDup (map f_tag es) ->
  Forall (fun f => f_ltype f <> PB_LTYPE_EXTENSION) es ->
  (i < length es)%nat -> (j < length es)%nat ->
  find (fun k => find_test (f_tag (field_at (es ++ [PB_LAST_FIELD]) i))
                   (field_at (es ++ [PB_LAST_FIELD]) k)) (search_order j (length es)) = Some i.
Proof.
  intros Ht Hnd Hext Hi Hj.
  destruct (find _ _) as [k|] eqn:E.
  - apply find_some in E as [Hin Htest]. f_equal.
    unfold search_order in Hin. apply in_map_iff in Hin as (d & <- & Hd).
    set (k := ((j + d) mod length es)%nat) in *.
    assert (k < length es)%nat as Hk by (apply Nat.mod_upper_bound; lia).
    unfold find_test in Htest. apply andb_true_iff in Htest as [Htag%Z.eqb_eq _].
    eapply (NoDup_lookup (map f_tag es)); [done| |].
    + rewrite list_lookup_fmap, (field_at_entry es k Hk). simpl. by rewrite Htag.
    + by rewrite list_lookup_fmap, (field_at_entry es i Hi).
  - exfalso. pose proof (find_none _ _ E i) as Hn.
    assert (In i (search_order j (length es))) as Hin.
    { unfold search_order. apply in_map_iff.
      destruct (decide (j <= i)%nat).
      - exists (i - j)%nat. split; [replace (j + (i - j))%nat with i by lia; by apply Nat.mod_small|].
        apply in_seq. lia.
      - exists (i + length es - j)%nat. split.
        + replace (j + (i + length es - j))%nat with (i + 1 * length es)%nat by lia.
          rewrite Nat.Div0.mod_add. by apply Nat.mod_small.
        + apply in_seq. lia. }
    apply Hn in Hin. unfold find_test in Hin. rewrite Z.eqb_refl in Hin. simpl in Hin.
    rewrite Forall_lookup in Hext. specialize (Hext i _ (field_at_entry es i Hi)).
    apply Z.eqb_neq in Hext. by rewrite Hext in Hin.
Qed.

Lemma foot_apart_consumed it s k :
  foot_apart it s -> 0 <= k -> foot_apart it (consumed s k).
Proof. intros Ha Hk x Hx Hin. apply (Ha x Hx). unfold in_range in *. simpl in *. lia. Qed.

Lemma wt_of_range lt : 0 <= wt_of lt < 8.
Proof. unfold wt_of, PB_WT_VARINT, PB_WT_32BIT, PB_WT_64BIT, PB_WT_STRING. repeat case_match; lia. Qed.

Lemma tag_wire_nonempty wt tag : (0 < length (tag_wire wt tag))%nat.
Proof. unfold tag_wire. pose proof (varint_length (tag * 8 + wt)). lia. Qed.

Section Loop.
Variables (n fuel : nat) (rec : decode_rec) (es : list pb_field_t) (addr : Z)
  (fss : list (list value)).
Let fs := es ++ [PB_LAST_FIELD].
Hypothesis rec_ok : noinit_ok n (rec_decode_noinit rec).
Hypothesis plain : Forall (plain_field (plain_msg n)) es.
Hypothesis distinct : NoDup (map f_tag es).
Hypothesis short : Z.of_nat (length es) < 2 ^ 32.
Hypothesis fits : Forall2 fits_field es fss.
Hypothesis placed : forall it, it ∈ iters fs addr -> 0 < it_pData it.

Let tags : Forall (fun f => f_tag f <> 0) es := plain_tags _ _ plain.

Definition seen_upto (i : nat) (seen : list Z) : Prop :=
  exists idxs, seen_set seen idxs /\
    forall k, k ∈ idxs <-> 0 <= k < Z.min (Z.of_nat (required_count (take i es))) 64.

Lemma seen_upto_0 : seen_upto 0 [0; 0].
Proof.
  exists []. split; [apply seen_set_nil|]. intros k. change (required_count (take 0 es)) with 0%nat.
  split; [intros Hk; by apply not_elem_of_nil in Hk|lia].
Qed.

(** The bit set after the field at [i] was decoded. *)
Definition seen_after (i : nat) (seen : list Z) : list Z :=
  let it := iter_at fs addr i in
  if (f_htype (it_field it) =? PB_HTYPE_REQUIRED)
     && (it_required_field_index it <? PB_MAX_REQUIRED_FIELDS)
  then mark_seen seen (it_required_field_index it) else seen.

Lemma seen_upto_after i seen :
  (i < length es)%nat -> seen_upto i seen -> seen_upto (S i) (seen_after i seen).
Proof.
  intros Hi (idxs & Hset & Hin). unfold seen_after.
  rewrite (iter_at_required es tags short) by done.
  pose proof (it_field_at es tags addr i Hi) as Ef. fold fs in Ef. rewrite Ef.
  pose proof (required_count_take es i _ (field_at_entry es i Hi)) as Hc. fold fs in Hc.
  unfold is_required in Hc. unfold PB_MAX_REQUIRED_FIELDS.
  destruct (f_htype (field_at fs i) =? PB_HTYPE_REQUIRED); cbn [andb]; simpl in Hc.
  - destruct (Z.ltb_spec (Z.of_nat (required_count (take i es))) 64).
    + exists (Z.of_nat (required_count (take i es)) :: idxs). split.
      * apply mark_seen_set; [lia|done].
      * intros k. rewrite elem_of_cons, Hin, Hc. lia.
    + exists idxs. split; [done|]. intros k. rewrite Hin, Hc. lia.
  - exists idxs. split; [done|]. intros k. rewrite Hin, Hc. lia.
Qed.

Lemma seen_upto_absent i seen :
  (i < length es)%nat -> f_htype (field_at fs i) <> PB_HTYPE_REQUIRED ->
  seen_upto i seen -> seen_upto (S i) seen.
Proof.
  intros Hi Hnr (idxs & Hset & Hin). exists idxs. split; [done|]. intros k. rewrite Hin.
  pose proof (required_count_take es i _ (field_at_entry es i Hi)) as Hc. fold fs in Hc.
  unfold is_required in Hc. apply Z.eqb_neq in Hnr. rewrite Hnr in Hc. simpl in Hc.
  rewrite Hc. lia.
Qed.

(** One field of the input. *)
Lemma decode_known_plain i v s m rest wt seen ext :
  (i < length es)%nat ->
  let it := iter_at fs addr i in
  fits_item (it_field it) v -> zlen (item_wire (it_field it) v) < 2 ^ 32 ->
  reading s m (item_wire (it_field it) v ++ rest) ->
  (forall x, foot it x -> is_Some (cells m !! x)) -> foot_apart it s ->
  cleared_field (cleared n) it m ->
  exists m', decode_known fuel rec s wt (DecLocals it seen ext None 0) m
             = Ok (true, consumed s (zlen (item_wire (it_field it) v)),
                   DecLocals it (seen_after i seen) ext None 0) m'
    /\ framed (foot it) m m' /\ rep_field (foot it) m' it [v].
Proof.
  intros Hi it Hfit Hlen Hs Hm Hap Hc.
  assert (it ∈ iters fs addr) as Hit.
  { apply list_elem_of_fmap_2, elem_of_seq. unfold fs. rewrite nfields_app. lia. }
  assert (plain_field (plain_msg n) (it_field it)) as Hp.
  { pose proof plain as Hpl. rewrite Forall_forall in Hpl.
    apply Hpl. by apply (iters_entries es addr it tags). }
  pose proof (iters_pSize es tags addr it (plain_not_oneof _ _ plain) Hit) as Hps.
  destruct (decode_static_plain n fuel rec it v s m rest 0 wt rec_ok Hp Hps Hfit Hlen Hs
              (placed it Hit) Hm Hap Hc) as (m' & E & Fr & Hr).
  exists m'. split; [|done]. pose proof Hp as [Hst _ _ Hrule _].
  assert ((f_htype (it_field it) =? PB_HTYPE_REPEATED) = false
          /\ (f_htype (it_field it) =? PB_HTYPE_ONEOF) = false) as [Hh1 Hh2].
  { destruct Hrule as [-> |[-> _]]; done. }
  unfold decode_known. cbn [dl_iter dl_fixed_field dl_seen dl_ext_start dl_fixed_size].
  rewrite Hh1. cbn [andb]. fold it. unfold decode_field. rewrite Hh2.
  rewrite bind_assoc, bind_ret. cbn beta iota. cbn [negb]. rewrite Hst.
  change (PB_ATYPE_STATIC =? PB_ATYPE_STATIC) with true. cbn iota.
  rewrite bind_assoc. mstep E. cbn beta iota. rewrite bind_ret. done.
Qed.

Lemma field_wire_single f v :
  plain_field (plain_msg n) f ->
  field_wire f [v] = tag_wire (wt_of (f_ltype f)) (f_tag f) ++ item_wire f v.
Proof.
  intros [_ _ _ Hr _]. unfold field_wire, field_wire_with, packed.
  destruct Hr as [-> |[-> _]]; simpl; by rewrite app_nil_r.
Qed.

Lemma field_wire_empty f : field_wire f [] = [].
Proof. unfold field_wire, field_wire_with. by destruct (packed f). Qed.

(** The iterators from position [i] on, and what is true of their fields. *)
Lemma iters_drop i :
  (i < length es)%nat ->
  drop i (iters fs addr) = iter_at fs addr i :: drop (S i) (iters fs addr).
Proof.
  intros Hi. apply drop_S. unfold iters. rewrite list_lookup_fmap, lookup_seq_lt; [done|].
  unfold fs. by rewrite nfields_app.
Qed.

Lemma iters_length : length (iters fs addr) = length es.
Proof. unfold iters, fs. by rewrite length_map, length_seq, nfields_app. Qed.

Lemma iter_at_in i : (i < length es)%nat -> iter_at fs addr i ∈ iters fs addr.
Proof. intros Hi. apply list_elem_of_fmap_2, elem_of_seq. unfold fs. rewrite nfields_app. lia. Qed.

Lemma iter_plain it : it ∈ iters fs addr -> plain_field (plain_msg n) (it_field it).
Proof.
  intros Hit. pose proof plain as Hpl. rewrite Forall_forall in Hpl.
  apply Hpl. by apply (iters_entries es addr it tags).
Qed.

Definition foots (its : list pb_field_iter_t) (x : Z) : Prop := exists it, it ∈ its /\ foot it x.

(** The rest of the message from the field at [i] on, the iterator being
    anywhere. *)
Definition rest_decoded (i : nat) (s : pb_istream_t) (m : mem) (ext : Z)
    (r : outcome (bool * pb_istream_t * dec_locals)) : Prop :=
  exists m' j seen', (j < length es)%nat
    /\ r = Ok (true, consumed s (zlen (fields_wire (drop i es) (drop i fss))),
               DecLocals (iter_at fs addr j) seen' ext None 0) m'
    /\ framed (foots (drop i (iters fs addr))) m m'
    /\ Forall2 (fun it items => rep_field (foot it) m' it items)
         (drop i (iters fs addr)) (drop i fss)
    /\ seen_upto (length es) seen'.

Lemma framed_tail its it m m' :
  (forall it' x, it' ∈ its -> foot it x -> ~ foot it' x) ->
  Forall (fun it => plain_field (plain_msg n) (it_field it)) its ->
  framed (foot it) m m' -> Forall (fun it => cleared_field (cleared n) it m) its ->
  Forall (fun it => cleared_field (cleared n) it m') its.
Proof.
  intros Hap Hp Hf Hc. rewrite Forall_forall in Hc, Hp |- *. intros it' Hit'.
  eapply cleared_field_agree; [by apply Hp| |by apply Hc].
  eapply framed_agree; [exact Hf|]. intros x Hx Hx'. by apply (Hap it' x).
Qed.

(** What holds when the loop is about to decode the fields from [i] on. *)
Record ready (i rounds : nat) (s : pb_istream_t) (m : mem) (seen : list Z) : Prop := {
  rdy_rounds : (length (fields_wire (drop i es) (drop i fss)) < rounds)%nat;
  rdy_len : zlen (fields_wire (drop i es) (drop i fss)) < 2 ^ 32;
  rdy_reading : reading s m (fields_wire (drop i es) (drop i fss));
  rdy_apart : apart_all (drop i (iters fs addr));
  rdy_mapped : forall it x, it ∈ drop i (iters fs addr) -> foot it x -> is_Some (cells m !! x);
  rdy_foot : forall it, it ∈ drop i (iters fs addr) -> foot_apart it s;
  rdy_cleared : Forall (fun it => cleared_field (cleared n) it m) (drop i (iters fs addr));
  rdy_seen : seen_upto i seen
}.

Definition loop_ok (i : nat) : Prop :=
  forall j rounds s m seen ext, (j < length es)%nat -> ready i rounds s m seen ->
    rest_decoded i s m ext
      (decode_loop fuel rec rounds s (DecLocals (iter_at fs addr j) seen ext None 0) m).

Lemma loop_end : loop_ok (length es).
Proof.
  intros j rounds s m seen ext Hj [Hr _ Hs _ _ _ _ Hseen].
  pose proof (Forall2_length _ _ _ fits) as Hl.
  assert (drop (length es) (iters fs addr) = []) as E1 by (apply drop_ge; by rewrite iters_length).
  assert (drop (length es) fss = []) as E2 by (apply drop_ge; lia).
  assert (drop (length es) es = []) as E3 by (by apply drop_ge).
  unfold rest_decoded. rewrite E1, E2, E3 in *. cbn [fields_wire] in *.
  exists m, j, seen. split; [done|]. split.
  { destruct rounds; [simpl in Hr; lia|]. cbn [decode_loop]. rewrite (rd_left _ _ _ Hs).
    simpl. by rewrite consumed_0. }
  split; [apply framed_refl|]. split; [constructor|done].
Qed.

(** The entries at [i]. *)
Lemma field_split i :
  (i < length es)%nat ->
  exists items, drop i fss = items :: drop (S i) fss
    /\ drop i es = it_field (iter_at fs addr i) :: drop (S i) es
    /\ fits_field (it_field (iter_at fs addr i)) items.
Proof.
  intros Hi. pose proof (Forall2_length _ _ _ fits) as Hl.
  pose proof (it_field_at es tags addr i Hi) as Ef. fold fs in Ef. rewrite Ef.
  pose proof (field_at_entry es i Hi) as He. fold fs in He.
  destruct (lookup_lt_is_Some_2 fss i ltac:(lia)) as [items Hit]. exists items.
  split_and!; [by apply drop_S|by apply drop_S|]. by eapply Forall2_lookup_lr.
Qed.

Lemma foots_tail i it x :
  (i < length es)%nat -> it ∈ drop (S i) (iters fs addr) -> foot it x ->
  foots (drop i (iters fs addr)) x.
Proof.
  intros Hi Hit Hx. exists it. split; [|done]. rewrite iters_drop by done.
  by apply list_elem_of_further.
Qed.

Lemma loop_absent i j rounds s m seen ext :
  (i < length es)%nat -> (j < length es)%nat -> loop_ok (S i) ->
  drop i fss = [] :: drop (S i) fss -> ready i rounds s m seen ->
  rest_decoded i s m ext
    (decode_loop fuel rec rounds s (DecLocals (iter_at fs addr j) seen ext None 0) m).
Proof.
  intros Hi Hj Hnext Ei [Hr Hlen Hs Hap Hm Hfa Hc Hseen].
  destruct (field_split i Hi) as (items & Ei' & Ees & Hfit).
  rewrite Ei in Ei'. injection Ei' as <-.
  pose proof (iter_plain _ (iter_at_in i Hi)) as Hp.
  pose proof (it_field_at es tags addr i Hi) as Ef. fold fs in Ef.
  assert (fields_wire (drop i es) (drop i fss) = fields_wire (drop (S i) es) (drop (S i) fss)) as Ew.
  { rewrite Ei, Ees. cbn [fields_wire]. by rewrite field_wire_empty. }
  rewrite (iters_drop i Hi) in Hap, Hc. destruct Hap as [Hap1 Hap].
  apply Forall_cons in Hc as [Hci Hc].
  destruct (Hnext j rounds s m seen ext Hj) as (m' & j' & seen' & Hj' & E & Fr & Hrep & Hs').
  { rewrite Ew in Hr, Hlen, Hs. split; try done.
    - intros it x Hit. apply Hm. rewrite iters_drop by done. by apply list_elem_of_further.
    - intros it Hit. apply Hfa. rewrite iters_drop by done. by apply list_elem_of_further.
    - apply seen_upto_absent; [done| |done]. rewrite <- Ef. exact Hfit. }
  exists m', j', seen'. rewrite Ew. split_and!; [done|exact E| | |done].
  - eapply framed_mono; [|exact Fr]. intros x (it & Hit & Hx). by apply (foots_tail i it).
  - rewrite iters_drop, Ei by done. constructor; [|done].
    apply (rep_field_absent n); [done|by apply placed, iter_at_in|exact Hfit|].
    eapply cleared_field_agree; [exact Hp| |exact Hci].
    eapply framed_agree; [exact Fr|]. intros x Hx (it & Hit & Hx'). by apply (Hap1 it x).
Qed.

(** The input at a present field: its tag, its item, and the rest. *)
Lemma present_wire i v :
  (i < length es)%nat -> drop i fss = [v] :: drop (S i) fss ->
  let f := it_field (iter_at fs addr i) in
  fields_wire (drop i es) (drop i fss)
  = tag_wire (wt_of (f_ltype f)) (f_tag f) ++ item_wire f v
    ++ fields_wire (drop (S i) es) (drop (S i) fss).
Proof.
  intros Hi Ei f. destruct (field_split i Hi) as (items & _ & Ees & _).
  rewrite Ei, Ees. cbn [fields_wire]. fold f.
  rewrite field_wire_single by (apply iter_plain; by apply iter_at_in). by rewrite <- app_assoc.
Qed.

(** One round of the loop on a present field. *)
Lemma loop_round i j rounds s m seen ext v :
  (i < length es)%nat -> (j < length es)%nat -> drop i fss = [v] :: drop (S i) fss ->
  ready i (S rounds) s m seen ->
  let it := iter_at fs addr i in
  let f := it_field it in
  let used := zlen (tag_wire (wt_of (f_ltype f)) (f_tag f) ++ item_wire f v) in
  exists m1,
    decode_loop fuel rec (S rounds) s (DecLocals (iter_at fs addr j) seen ext None 0) m
    = decode_loop fuel rec rounds (consumed s used)
        (DecLocals it (seen_after i seen) ext None 0) m1
    /\ framed (foot it) m m1 /\ rep_field (foot it) m1 it [v].
Proof.
  intros Hi Hj Ei [Hr Hlen Hs Hap Hm Hfa Hc Hseen] it f used.
  pose proof (iter_plain it (iter_at_in i Hi)) as Hp. fold f in Hp.
  destruct (field_split i Hi) as (items & Ei' & Ees & Hfit).
  rewrite Ei in Ei'. injection Ei' as <-. fold it f in Hfit.
  pose proof (present_wire i v Hi Ei) as Ew. cbv zeta in Ew. fold it f in Ew. rewrite Ew in *.
  rewrite (iters_drop i Hi) in Hm, Hfa, Hc. apply Forall_cons in Hc as [Hci _].
  set (t := tag_wire (wt_of (f_ltype f)) (f_tag f)) in *.
  pose proof (pf_tag _ _ Hp) as Ht. pose proof (reading_app _ _ _ _ Hs) as Hs1.
  destruct (decode_known_plain i v (consumed s (zlen t)) m (fields_wire (drop (S i) es) (drop (S i) fss))
              (wt_of (f_ltype f)) seen ext Hi) as (m1 & E & Fr & Hrep).
  { exact Hfit. }
  { fold it f. rewrite !zlen_app in Hlen. lia. }
  { fold it f. exact Hs1. }
  { fold it. intros x. apply Hm, list_elem_of_here. }
  { fold it. apply foot_apart_consumed; [apply Hfa, list_elem_of_here|lia]. }
  { exact Hci. }
  fold it f in E, Fr, Hrep. exists m1. split; [|done]. cbn [decode_loop].
  rewrite (rd_left _ _ _ Hs). pose proof (tag_wire_nonempty (wt_of (f_ltype f)) (f_tag f)) as Hne.
  fold t in Hne. rewrite (proj2 (Z.eqb_neq _ 0)) by (rewrite zlen_app; lia).
  mstep (pb_decode_tag_wire s m _ _ _ (wt_of_range (f_ltype f)) Ht Hs). cbn beta iota.
  cbn [tr_ok tr_tag tr_wire_type negb]. fold t. cbn [dl_iter].
  assert (Forall (fun g => f_ltype g <> PB_LTYPE_EXTENSION) es) as Hext.
  { eapply Forall_impl; [exact plain|]. intros g Hg. pose proof (plain_ltype _ _ Hg).
    ltype_cases. lia. }
  pose proof (it_field_at es tags addr i Hi) as Ef. fold fs it f in Ef.
  assert (pb_field_iter_find (iter_at fs addr j) (f_tag f) = ret (true, it)) as Efind.
  { rewrite Ef. unfold it, fs. rewrite (iter_find_at es tags) by done. by rewrite find_tag. }
  rewrite Efind, bind_ret. cbn beta iota.
  cbn [dl_seen dl_ext_start dl_fixed_field dl_fixed_size]. fold fs it.
  mstep E. cbn beta iota. rewrite consumed_consumed. unfold used. by rewrite zlen_app.
Qed.

Lemma loop_present i j rounds s m seen ext v :
  (i < length es)%nat -> (j < length es)%nat -> loop_ok (S i) ->
  drop i fss = [v] :: drop (S i) fss -> ready i rounds s m seen ->
  rest_decoded i s m ext
    (decode_loop fuel rec rounds s (DecLocals (iter_at fs addr j) seen ext None 0) m).
Proof.
  intros Hi Hj Hnext Ei Hrdy. pose proof Hrdy as [Hr Hlen Hs Hap Hm Hfa Hc Hseen].
  destruct rounds as [|rounds]; [lia|].
  destruct (loop_round i j rounds s m seen ext v Hi Hj Ei Hrdy) as (m1 & E & F1 & R1).
  set (it := iter_at fs addr i) in *. set (f := it_field it) in *.
  set (used := zlen (tag_wire (wt_of (f_ltype f)) (f_tag f) ++ item_wire f v)) in *.
  pose proof (present_wire i v Hi Ei) as Ew. cbv zeta in Ew. fold it f in Ew. rewrite app_assoc in Ew.
  set (W := fields_wire (drop (S i) es) (drop (S i) fss)) in *.
  rewrite Ew in Hr, Hlen, Hs. rewrite zlen_app in Hlen. rewrite length_app in Hr. fold used in Hlen.
  rewrite (iters_drop i Hi) in Hap, Hc, Hm, Hfa. fold it in Hap, Hc, Hm, Hfa.
  destruct Hap as [Hap1 Hap]. apply Forall_cons in Hc as [_ Hc].
  pose proof (tag_wire_nonempty (wt_of (f_ltype f)) (f_tag f)) as Hne.
  destruct (Hnext i rounds (consumed s used) m1 (seen_after i seen) ext Hi)
    as (m' & j' & seen' & Hj' & E' & Fr & Hrep & Hs').
  { split; try done.
    - fold W. rewrite length_app in Hr. lia.
    - fold W. lia.
    - fold W. eapply reading_framed; [by apply reading_app in Hs|exact F1|].
      intros x Hx. apply (foot_apart_consumed it s used); [apply Hfa, list_elem_of_here|lia|done].
    - intros it' x Hit' Hx. apply (fr_mapped _ _ _ F1). apply (Hm it' x); [|done].
      by apply list_elem_of_further.
    - intros it' Hit'. apply foot_apart_consumed; [|lia]. apply Hfa. by apply list_elem_of_further.
    - eapply framed_tail; [exact Hap1| |exact F1|exact Hc].
      rewrite Forall_forall. intros it' Hit'. apply iter_plain.
      rewrite <- (take_drop (S i) (iters fs addr)). apply elem_of_app. by right.
    - by apply seen_upto_after. }
  exists m', j', seen'. rewrite Ew, zlen_app. fold used. split_and!; [done| | | |done].
  - etrans; [exact E|]. etrans; [exact E'|]. by rewrite consumed_consumed.
  - eapply framed_trans; eapply framed_mono; [|exact F1| |exact Fr].
    + intros x Hx. exists it. split; [|done]. rewrite iters_drop by done. apply list_elem_of_here.
    + intros x (it' & Hit' & Hx). by apply (foots_tail i it').
  - rewrite iters_drop, Ei by done. constructor; [|done].
    eapply (rep_field_frame (foot it) (foot it) m1 m'); [done| |exact R1].
    eapply framed_agree; [exact Fr|]. intros x Hx (it' & Hit' & Hx'). by apply (Hap1 it' x).
Qed.

Lemma loop_all i : (i <= length es)%nat -> loop_ok i.
Proof.
  intros Hi. remember (length es - i)%nat as k eqn:Ek. revert i Hi Ek.
  induction k as [|k IH]; intros i Hi Ek.
  - replace i with (length es) by lia. apply loop_end.
  - intros j rounds s m seen ext Hj Hrdy. assert (i < length es)%nat as Hlt by lia.
    destruct (field_split i Hlt) as (items & Ei & _ & Hfit).
    unfold fits_field, fits_items in Hfit.
    destruct items as [|v [|]]; [|by apply (loop_present i j rounds s m seen ext v Hlt Hj); [apply IH; lia| |]|done].
    apply loop_absent; try done. apply IH; lia.
Qed.
End Loop.

(** ** Messages *)
Lemma plain_wf n es : Forall (plain_field (plain_msg n)) es -> wf_fields (es ++ [PB_LAST_FIELD]).
Proof.
  intros Hes. exists es. split; [done|]. eapply Forall_impl; [exact Hes|].
  intros f [_ Ht _ _ _]. pow2. lia.
Qed.

Lemma check_required_complete n es addr j s m seen ext ff fsz :
  Forall (plain_field (plain_msg n)) es -> Z.of_nat (length es) < 2 ^ 32 ->
  (j < length es)%nat -> seen_upto es (length es) seen ->
  check_required s (DecLocals (iter_at (es ++ [PB_LAST_FIELD]) addr j) seen ext ff fsz) m
  = Ok (true, s) m.
Proof.
  intros Hes Hlen Hj (idxs & Hset & Hin). rewrite firstn_all in Hin.
  rewrite (check_required_at es (plain_tags _ _ Hes) Hlen addr j s m seen idxs) by
    (done || (rewrite Forall_forall; intros k Hk; by apply Hin)).
  rewrite bool_decide_true; [done|]. rewrite Forall_forall. intros k Hk.
  apply elem_of_seqZ in Hk. apply Hin. unfold req_limit, PB_MAX_REQUIRED_FIELDS in Hk. lia.
Qed.

(** The body of [pb_decode_noinit] on a type with fields. *)
Lemma noinit_body_plain n fuel rec es sz addr fss s m :
  noinit_ok n (rec_decode_noinit rec) ->
  layout (es ++ [PB_LAST_FIELD]) sz -> Z.of_nat (length es) < 2 ^ 32 ->
  NoDup (map f_tag es) -> Forall (plain_field (plain_msg n)) es ->
  Forall2 fits_field es fss -> zlen (fields_wire es fss) < 2 ^ 32 ->
  reading s m (fields_wire es fss) -> 0 < addr -> mapped m addr sz -> apart s addr sz ->
  Forall (fun it => cleared_field (cleared n) it m) (iters (es ++ [PB_LAST_FIELD]) addr) ->
  (0 < length es)%nat ->
  exists m', noinit_body fuel rec s (es ++ [PB_LAST_FIELD]) addr m
             = Ok (true, consumed s (zlen (fields_wire es fss))) m'
    /\ framed (in_range addr sz) m m'
    /\ rep_msg (in_range addr sz) m' (es ++ [PB_LAST_FIELD]) addr fss.
Proof.
  intros Hrec Hlay Hlen Hnd Hes Hfit Hwl Hs Hpos Hm Hap Hc Hne.
  destruct (Hlay addr) as [Hin Hapart]. pose proof (plain_tags _ _ Hes) as Htags.
  assert (forall it, it ∈ iters (es ++ [PB_LAST_FIELD]) addr -> 0 < it_pData it) as Hplaced.
  { intros it Hit. pose proof (iters_entries es addr it Htags Hit) as Hf.
    rewrite Forall_forall in Hes. destruct (Hes _ Hf) as [_ _ Hsz _ _].
    specialize (Hin it (it_pData it) Hit). unfold in_range in Hin.
    enough (addr <= it_pData it < addr + sz) by lia. apply Hin. left. unfold in_range. lia. }
  destruct (loop_all n fuel rec es addr fss Hrec Hes Hnd Hlen Hfit Hplaced 0 ltac:(lia)
              0%nat (stream_rounds s) s m [0; 0] 0 Hne) as (m' & j & seen & Hj & E & Fr & Hrep & Hseen).
  { split; rewrite ?drop_0; try done.
    - unfold stream_rounds. rewrite (rd_left _ _ _ Hs). lia.
    - intros it x Hit Hx. by apply Hm, (Hin it).
    - intros it Hit x Hx. by apply Hap, (Hin it).
    - apply seen_upto_0. }
  change (fields_wire (drop 0 es) (drop 0 fss)) with (fields_wire es fss) in E.
  exists m'. split_and!.
  - unfold noinit_body, decode_locals_init. change (pb_field_iter_begin (es ++ [PB_LAST_FIELD]) addr).2
      with (iter_at (es ++ [PB_LAST_FIELD]) addr 0).
    mstep E. cbn beta iota. cbn [negb fixed_count_complete dl_fixed_field].
    by apply (check_required_complete n).
  - eapply framed_mono; [|exact Fr]. intros x (it & Hit & Hx). by apply (Hin it).
  - split; [by eapply plain_wf|]. apply Forall2_same_length_lookup_2.
    { by eapply Forall2_length. }
    intros i it items Hit Hitems. eapply (rep_field_frame (foot it)); [|done|].
    + intros x. apply Hin. by eapply list_elem_of_lookup_2.
    + exact (Forall2_lookup_lr _ _ _ i it items Hrep Hit Hitems).
Qed.

(** A type without fields has only the empty encoding. *)
Lemma noinit_body_empty fuel rec s m addr :
  reading s m [] ->
  noinit_body fuel rec s [PB_LAST_FIELD] addr m = Ok (true, s) m.
Proof.
  intros Hs. unfold noinit_body. rewrite (bind_Ok _ _ m (true, s, decode_locals_init [PB_LAST_FIELD] addr) m).
  - done.
  - unfold stream_rounds. cbn [decode_loop]. by rewrite (rd_left _ _ _ Hs).
Qed.

Lemma noinit_all n : noinit_ok n (pb_decode_noinit n).
Proof.
  induction n as [|n IH]; intros fs sz addr fss s m Hp Hfit Hlen Hs Hpos Hm Hap Hc; [done|].
  destruct Hp as [Hlay (es & -> & Hel & Hnd & Hes)]. unfold fits_msg in Hfit.
  rewrite entries_app in Hfit. unfold msg_wire in *. rewrite entries_app in *.
  cbn [pb_decode_noinit cleared] in *. destruct (decide (0 < length es)%nat) as [Hne|Hz].
  - by apply (noinit_body_plain n).
  - destruct es; [|simpl in Hz; lia]. inversion Hfit; subst. cbn [fields_wire app] in *.
    exists m. split_and!; [|apply framed_refl|].
    + rewrite noinit_body_empty by done. simpl. by rewrite consumed_0.
    + split; [exists []; split; [done|constructor]|constructor].
Qed.

Lemma pb_decode_plain n fs sz addr fss s m :
  plain_msg n fs sz -> fits_msg fs fss -> zlen (msg_wire fs fss) < 2 ^ 32 ->
  reading s m (msg_wire fs fss) -> 0 < addr -> mapped m addr sz -> apart s addr sz ->
  exists m', pb_decode n s fs addr m = Ok (true, consumed s (zlen (msg_wire fs fss))) m'
    /\ framed (in_range addr sz) m m' /\ rep_msg (in_range addr sz) m' fs addr fss.
Proof.
  intros Hp Hfit Hlen Hs Hpos Hm Hap.
  destruct (defaults_all n fs sz addr m Hp Hm) as (m1 & E1 & F1 & C1).
  destruct (noinit_all n fs sz addr fss s m1 Hp Hfit Hlen) as (m2 & E2 & F2 & R2); try done.
  { by eapply reading_framed. }
  { by eapply framed_mapped. }
  exists m2. split_and!; [|by eapply framed_trans|done].
  unfold pb_decode, decode_over. mstep E1. mstep E2. cbn beta iota. by rewrite bind_ret.
Qed.
End DecodeMsg.
