(* ===== verification/PbSafety.v ===== *)
(** Decoding untrusted input into a plain message: whatever the bytes of the
    stream, [pb_decode] returns, and it writes inside the structure only. *)
From stdpp Require Import base list numbers option strings gmap.
From S2P Require Import Prelude Varint Machine PbTypes PbCommon PbIter PbEncode PbDecode PbWire PbRep.
From S2P Require Import PbRep PbEncodeSpec PbDecodeSpec PbPlain PbTotal.
From S2P Require Import PbDecodeMsg.
Open Scope Z_scope.
Open Scope c_scope.

(** Neither the type nor a submessage type is empty (the decoder takes a field
    with tag 0 for the terminator of an empty type). *)
Fixpoint inhabited (n : nat) (fs : list pb_field_t) : Prop :=
  match n with
  | O => True
  | S n' =>
      entries fs <> []
      /\ Forall (fun f => f_ltype f = PB_LTYPE_SUBMESSAGE -> inhabited n' (sub_fields f)) (entries fs)
  end.

Section Safety.
Context `{App}.

(** A decoder of plain messages that is safe on all input. *)
Definition noinit_safe (n : nat) (dec : pb_istream_t -> list pb_field_t -> Z -> IStep) : Prop :=
  forall fs sz addr s m l,
    plain_msg n fs sz -> inhabited n fs -> reading s m l -> 0 < addr -> mapped m addr sz ->
    apart s addr sz -> safe_step (in_range addr sz) s m l (dec s fs addr m).

(** A value read and then stored, with a check after the store. *)
Lemma safe_stored (D : Z -> Prop) s m l s1 l1 a bs (ok : bool) msg :
  reading s m l -> took s l s1 l1 -> (forall x, in_range a (zlen bs) x -> D x) ->
  safe_step D s m l
    (Ok (ok, if ok then s1 else i_seterr s1 msg) (stored m a bs)).
Proof.
  intros Hs Ht HD. pose proof (reading_callback s m l s1 l1 Hs Ht) as Hc.
  destruct ok; [eapply safe_ok; [by apply framed_stored|done|exact Ht]|].
  apply safe_fail; [by apply framed_stored|done].
Qed.

Lemma int_size_range ds : int_size ds -> zlen (le_bytes (Z.to_nat ds) 0) = ds.
Proof. rewrite length_le_bytes. unfold int_size. lia. Qed.

(** The integer decoders: a value, its store, the comparison. *)
Lemma integer_total s m l ds dest {A} (P : A -> Prop) c (conv : A -> Z) (store : Z -> M (option Z)) clamp :
  int_size ds -> reading s m l -> mapped m dest ds -> reads_value P s m l (c m) ->
  (forall z, store z m = Ok (Some (clamp z)) (stored m dest (le_bytes (Z.to_nat ds) z))) ->
  safe_step (in_range dest ds) s m l
    (bind c (fun '(r, stream) =>
       match r with
       | None => ret (false, stream)
       | Some v => let* cl := store (conv v) in check_clamped stream cl (conv v)
       end) m).
Proof.
  intros Hds Hs Hm (o & s' & E & Hc & Hv) Hst. mstep E. cbn beta iota.
  destruct o as [v|]; [|by apply safe_fail; [apply framed_refl|]].
  destruct (Hv v eq_refl) as (_ & l' & Ht). mstep (Hst (conv v)).
  pose proof (safe_stored (in_range dest ds) s m l s' l' dest (le_bytes (Z.to_nat ds) (conv v))
                (clamp (conv v) =? conv v) "integer too large" Hs Ht) as Hsafe.
  unfold check_clamped, i_error, ret. destruct (clamp (conv v) =? conv v); apply Hsafe;
    rewrite length_le_bytes; intros x; unfold in_range, int_size in *; lia.
Qed.

Lemma fixed_total s m l dest (n : nat) :
  reading s m l -> mapped m dest (Z.of_nat n) ->
  safe_step (in_range dest (Z.of_nat n)) s m l
    (bind (pb_read s DstLocal (Z.of_nat n))
       (fun '(ok, stream, bytes) =>
          if ok : bool then store_le dest n (or_bytes 0 bytes mod 2 ^ (8 * Z.of_nat n)) ;; ret (true, stream)
          else ret (false, stream)) m).
Proof.
  intros Hs Hm. pose proof (rd_callback _ _ _ Hs) as Hcb.
  destruct (Z.le_gt_cases (Z.of_nat n) (zlen l)) as [Hle|Hgt].
  - rewrite <- (take_drop n l) in Hs.
    assert (zlen (take n l) = Z.of_nat n) as En by (rewrite length_take; lia).
    pose proof (pb_read_local s m _ _ Hs) as E. rewrite En in E. mstep E. cbn beta iota.
    rewrite store_le_bind by done.
    eapply (safe_ok _ s m l _ _ (drop n l)); [|done|].
    + apply framed_stored. rewrite length_le_bytes. auto.
    + exists (take n l). by rewrite take_drop, En.
  - mstep (pb_read_short s m l DstLocal (Z.of_nat n) Hs Hgt).
    by apply safe_fail; [apply framed_refl|].
Qed.

Lemma scalar_total rec f s m l dest :
  0 <= f_ltype f <= PB_LTYPE_LAST_PACKABLE -> scalar_size f ->
  reading s m l -> mapped m dest (f_data_size f) ->
  safe_step (in_range dest (f_data_size f)) s m l (PB_DECODERS rec (f_ltype f) s f dest m).
Proof.
  intros Hl Hsz Hs Hm. unfold scalar_size in Hsz. unfold PB_DECODERS. revert Hl Hsz. ltype_cases.
  intros Hl. assert (f_ltype f = 0 \/ f_ltype f = 1 \/ f_ltype f = 2 \/ f_ltype f = 3
            \/ f_ltype f = 4 \/ f_ltype f = 5) as Hc by lia.
  destruct Hc as [->|[->|[->|[->|[->| ->]]]]]; cbn [Z.eqb Pos.eqb]; intros Hds.
  - unfold pb_dec_bool. destruct (varint32_total s m l Hs) as (o & s' & E & Hc & Hv). mstep E.
    cbn beta iota. destruct o as [v|]; [|by apply safe_fail; [apply framed_refl|]].
    destruct (Hv v eq_refl) as (_ & l' & Ht).
    set (b := if v =? 0 then 0 else 1).
    assert (store8 dest b m = Ok tt (stored m dest [b])) as Est.
    { unfold store8. destruct (Hm dest) as [y Hy]; [unfold in_range; lia|]. by rewrite Hy. }
    mstep Est. rewrite Hds. exact (safe_stored _ s m l s' l' dest [b] true "" Hs Ht (fun x Hx => Hx)).
  - unfold pb_dec_varint. apply (integer_total s m l (f_data_size f) dest (in_uint 64) (pb_decode_varint s)
             (fun v => if f_data_size f =? 8 then s64 v else s32 v)
             (store_sint (f_data_size f) dest) (sint (8 * f_data_size f)));
      [done|done|done|by apply varint_total|]. intros z. by apply store_sint_any.
  - unfold pb_dec_uvarint.
    apply (integer_total s m l (f_data_size f) dest (in_uint 64) (pb_decode_varint s) (fun v => v)
             (store_uint (f_data_size f) dest) (fun z => z mod 2 ^ (8 * f_data_size f)));
      [done|done|done|by apply varint_total|]. intros z. by apply store_uint_any.
  - unfold pb_dec_svarint.
    apply (integer_total s m l (f_data_size f) dest (fun _ => True) (pb_decode_svarint s) (fun v => v)
             (store_sint (f_data_size f) dest) (sint (8 * f_data_size f))); [done|done|done| |].
    + destruct (varint_total s m l Hs) as (o & s' & E & Hc & Hv). unfold pb_decode_svarint. mstep E.
      eexists _, s'. split; [reflexivity|]. split; [done|]. intros v Hov. split; [done|].
      destruct o as [v0|]; [|done]. by destruct (Hv v0 eq_refl).
    + intros z. by apply store_sint_any.
  - rewrite Hds in *. by apply (fixed_total s m l dest 4).
  - rewrite Hds in *. by apply (fixed_total s m l dest 8).
Qed.

(** ** Bytes and strings *)

(** Reading [n] bytes of the input into memory that the stream does not read. *)
Lemma read_mem_total s m l p n :
  reading s m l -> 0 <= n -> p <> NULL -> mapped m p n -> apart s p n ->
  safe_step (in_range p n) s m l (pb_read_mem s p n m).
Proof.
  intros Hs Hn Hp Hm Hap. pose proof (rd_callback _ _ _ Hs) as Hcb.
  destruct (Z.le_gt_cases n (zlen l)) as [Hle|Hgt].
  - rewrite <- (take_drop (Z.to_nat n) l) in Hs.
    assert (zlen (take (Z.to_nat n) l) = n) as En by (rewrite length_take; lia).
    pose proof (rd_left _ _ _ Hs) as Hleft. rewrite take_drop in Hleft.
    assert (pb_read_mem s p n m
            = Ok (true, consumed s n) (stored m p (take (Z.to_nat n) l))) as E.
    { rewrite <- En at 1 2. eapply pb_read_mem_app; [exact Hs|done|by rewrite En|].
      rewrite En. intros x Hx Hin. apply (Hap x Hx). unfold in_range in *. lia. }
    rewrite E. eapply (safe_ok _ s m l _ _ (drop (Z.to_nat n) l)); [|done|].
    + apply framed_stored. rewrite En. auto.
    + exists (take (Z.to_nat n) l). by rewrite take_drop, En.
  - unfold pb_read_mem. mstep (pb_read_short s m l (DstMem p) n Hs Hgt).
    by apply safe_fail; [apply framed_refl|].
Qed.

Lemma apart_sub s a k b j : apart s a k -> a <= b -> b + j <= a + k -> apart s b j.
Proof. intros Ha H1 H2 x Hx. apply Ha. unfold in_range in *. lia. Qed.

Lemma apart_took s m l s' l' a k : took s l s' l' -> reading s m l -> apart s a k -> apart s' a k.
Proof. intros Ht Hs Ha x Hx Hin. by eapply (Ha x Hx), took_range. Qed.

Lemma in_range_sub a k b j x : in_range b j x -> a <= b -> b + j <= a + k -> in_range a k x.
Proof. unfold in_range. lia. Qed.

Lemma dec_bytes_total f s m l dest :
  f_atype f = PB_ATYPE_STATIC -> f_data_size f < 2 ^ 32 ->
  reading s m l -> 0 < dest -> mapped m dest (f_data_size f) -> apart s dest (f_data_size f) ->
  safe_step (in_range dest (f_data_size f)) s m l (pb_dec_bytes s f dest m).
Proof.
  intros Hst Hsz Hs Hd Hm Hap. unfold pb_dec_bytes.
  destruct (varint32_total s m l Hs) as (o & s1 & E & Hc & Hv). mstep E. cbn beta iota.
  destruct o as [n|]; [|by apply safe_fail; [apply framed_refl|]].
  destruct (Hv n eq_refl) as ([Hn0 Hn1] & l1 & Ht).
  destruct (PB_SIZE_MAX <? n); [by apply safe_fail; [apply framed_refl|]|].
  assert (PB_BYTES_ARRAY_T_ALLOCSIZE n = n + 4) as ->.
  { unfold PB_BYTES_ARRAY_T_ALLOCSIZE, OFFSETOF_BYTES. rewrite (u64_small n) by (unfold in_uint; lia).
    apply u64_small. unfold in_uint. lia. }
  destruct (n + 4 <? n); [by apply safe_fail; [apply framed_refl|]|].
  rewrite Hst. change (PB_ATYPE_STATIC =? PB_ATYPE_POINTER) with false. cbn iota.
  destruct (Z.ltb_spec (f_data_size f) (n + 4)); [by apply safe_fail; [apply framed_refl|]|].
  unfold store_u32. rewrite store_le_bind by (eapply mapped_sub; [exact Hm|lia..]).
  set (m1 := stored m dest (le_bytes 4 n)).
  assert (framed (in_range dest (f_data_size f)) m m1) as F1.
  { apply framed_stored. rewrite length_le_bytes. intros x Hx. eapply in_range_sub; [exact Hx|lia..]. }
  pose proof (took_reading s m l s1 l1 Ht Hs) as Hs1.
  eapply (safe_after _ s m l s1 m1 l1); [exact Ht|exact F1|].
  pose proof (apart_took s m l s1 l1 _ _ Ht Hs Hap) as Hap1.
  eapply safe_mono; [|apply read_mem_total].
  - intros x Hx. eapply in_range_sub; [exact Hx|unfold OFFSETOF_BYTES; lia..].
  - eapply reading_framed; [exact Hs1|exact F1|exact Hap1].
  - done.
  - unfold NULL, OFFSETOF_BYTES. lia.
  - apply stored_mapped. eapply mapped_sub; [exact Hm|unfold OFFSETOF_BYTES; lia..].
  - eapply apart_sub; [exact Hap1|unfold OFFSETOF_BYTES; lia..].
Qed.

Lemma dec_string_total f s m l dest :
  f_atype f = PB_ATYPE_STATIC -> f_data_size f < 2 ^ 32 ->
  reading s m l -> 0 < dest -> mapped m dest (f_data_size f) -> apart s dest (f_data_size f) ->
  safe_step (in_range dest (f_data_size f)) s m l (pb_dec_string s f dest m).
Proof.
  intros Hst Hsz Hs Hd Hm Hap. unfold pb_dec_string.
  destruct (varint32_total s m l Hs) as (o & s1 & E & Hc & Hv). mstep E. cbn beta iota.
  destruct o as [n|]; [|by apply safe_fail; [apply framed_refl|]].
  destruct (Hv n eq_refl) as ([Hn0 Hn1] & l1 & Ht).
  destruct (Z.ltb_spec (u32 (n + 1)) n); [by apply safe_fail; [apply framed_refl|]|].
  assert (u32 (n + 1) = n + 1) as En by cint. rewrite En.
  rewrite Hst. change (PB_ATYPE_STATIC =? PB_ATYPE_POINTER) with false. cbn iota.
  destruct (Z.ltb_spec (f_data_size f) (n + 1)); [by apply safe_fail; [apply framed_refl|]|].
  destruct (read_mem_total s1 m l1 dest n) as (ok & s2 & m2 & E2 & F2 & Hc2 & Hok).
  { by eapply took_reading. }
  { done. }
  { unfold NULL. lia. }
  { eapply mapped_sub; [exact Hm|lia..]. }
  { eapply apart_sub; [by eapply apart_took|lia..]. }
  mstep E2. cbn beta iota.
  assert (store8 (dest + n) 0 m2 = Ok tt (stored m2 (dest + n) [0])) as E3.
  { unfold store8. destruct (fr_mapped _ _ _ F2 (dest + n)) as [y Hy];
      [apply Hm; unfold in_range; lia|]. by rewrite Hy. }
  mstep E3. exists ok, s2, (stored m2 (dest + n) [0]). split_and!; [done| |done|].
  - eapply framed_trans; [eapply framed_mono; [|exact F2]|apply framed_stored];
      intros x Hx; eapply in_range_sub; [exact Hx|..|exact Hx| |]; simpl; lia.
  - intros Hok'. destruct (Hok Hok') as [l2 Ht2]. exists l2. by eapply took_trans.
Qed.

(** ** Submessages *)
Lemma dec_submessage_total n rec f s m l dest :
  noinit_safe n (rec_decode_noinit rec) -> f_htype f <> PB_HTYPE_REPEATED ->
  f_ptr f = PtrFields (sub_fields f) -> plain_msg n (sub_fields f) (f_data_size f) ->
  inhabited n (sub_fields f) ->
  reading s m l -> 0 < dest -> mapped m dest (f_data_size f) -> apart s dest (f_data_size f) ->
  safe_step (in_range dest (f_data_size f)) s m l (pb_dec_submessage rec s f dest m).
Proof.
  intros Hrec Hh Hp Hpl Hin Hs Hd Hm Hap. unfold pb_dec_submessage.
  destruct (make_substream_total s m l Hs) as (o & s1 & E & Hc1 & Hsub). mstep E. cbn beta iota.
  destruct o as [sub|]; [|by apply safe_fail; [apply framed_refl|]].
  destruct (Hsub sub eq_refl) as (p & w & rest & El & Esub & Es1 & Hw). rewrite Hp.
  apply Z.eqb_neq in Hh. rewrite Hh.
  assert (apart sub dest (f_data_size f)) as Hap'.
  { intros x Hx Hi. apply (Hap x Hx). pose proof (rd_left _ _ _ Hs) as Hl. rewrite El, !zlen_app in Hl.
    subst sub. unfold in_range, consumed in *. simpl in *. lia. }
  destruct (Hrec (sub_fields f) (f_data_size f) dest sub m w Hpl Hin Hw Hd Hm Hap')
    as (status & s2 & m2 & E2 & F2 & Hc2 & Hok).
  mstep E2. cbn beta iota. destruct status.
  - destruct (Hok eq_refl) as [w' Ht]. subst sub s1.
    rewrite El in Hs.
    pose proof (reading_framed _ s m m2 _ Hs F2 Hap) as Hs2.
    pose proof (took_reading _ m2 w s2 w' Ht
                  (reading_framed _ _ m m2 _ Hw F2 Hap')) as Hw2.
    mstep (close_substream_took s m2 p w rest s2 w' Hs2 Ht Hw2). cbn beta iota. cbn [andb].
    eapply (safe_ok _ s m l _ m2 rest); [done|apply (rd_callback _ _ _ Hs)|].
    exists (p ++ w). rewrite El, zlen_app. by rewrite app_assoc.
  - destruct (close_substream_total s1 s2 m2 Hc2 Hc1) as (s3 & E3 & Hc3). mstep E3. cbn beta iota.
    cbn [andb]. by apply safe_fail.
Qed.

Lemma decoder_total n rec f s m l dest :
  noinit_safe n (rec_decode_noinit rec) -> plain_field (plain_msg n) f ->
  (f_ltype f = PB_LTYPE_SUBMESSAGE -> inhabited n (sub_fields f)) ->
  reading s m l -> 0 < dest -> mapped m dest (f_data_size f) -> apart s dest (f_data_size f) ->
  safe_step (in_range dest (f_data_size f)) s m l (PB_DECODERS rec (f_ltype f) s f dest m).
Proof.
  intros Hrec Hp Hin Hs Hd Hm Hap. pose proof Hp as [Hst _ Hsz Hr Ht].
  destruct Ht as [(Hl & Hss & _)|[[[El|El] _]|[El _]]].
  - by apply scalar_total.
  - unfold PB_DECODERS. rewrite El. apply dec_bytes_total; done || lia.
  - unfold PB_DECODERS. rewrite El. apply dec_string_total; done || lia.
  - destruct (plain_field_sub _ _ Hp El) as [Hptr Hsub].
    unfold PB_DECODERS. rewrite El. apply (dec_submessage_total n); try done; [|by apply Hin].
    by destruct Hr as [-> |[-> _]].
Qed.
(** ** Fields *)

(** A step that also returns [x]. *)
Definition safe_ret {X} (x : X) (D : Z -> Prop) (s : pb_istream_t) (m : mem) (l : list Z)
    (r : outcome (bool * pb_istream_t * X)) : Prop :=
  exists ok s' m', r = Ok (ok, s', x) m' /\ framed D m m' /\ i_callback s' = IcbBufRead
    /\ (ok = true -> exists l', took s l s' l').

Lemma with_fc_total fc D s m l c :
  safe_step D s m l (c m) -> safe_ret fc D s m l (with_fc fc c m).
Proof.
  intros (ok & s' & m' & E & Hs). unfold with_fc. mstep E. by exists ok, s', m'.
Qed.

Lemma decode_static_total n fuel rec it s m l fc wt :
  noinit_safe n (rec_decode_noinit rec) -> plain_field (plain_msg n) (it_field it) ->
  (f_ltype (it_field it) = PB_LTYPE_SUBMESSAGE -> inhabited n (sub_fields (it_field it))) ->
  it_pSize it = AtAddr (it_pData it + f_size_offset (it_field it)) ->
  reading s m l -> 0 < it_pData it ->
  (forall x, foot it x -> is_Some (cells m !! x)) -> foot_apart it s ->
  safe_ret fc (foot it) s m l (decode_static_field fuel rec s wt it fc m).
Proof.
  intros Hrec Hp Hin Hps Hs Hpos Hm Hap. pose proof Hp as [_ _ Hsz Hr _].
  set (f := it_field it) in *. unfold decode_static_field. fold f.
  assert (forall m1, framed (foot it) m m1 ->
    safe_step (in_range (it_pData it) (f_data_size f)) s m1 l
      (PB_DECODERS rec (f_ltype f) s f (it_pData it) m1)) as Hdec.
  { intros m1 F1. apply (decoder_total n); try done.
    - by eapply reading_framed.
    - intros x Hx. apply (fr_mapped _ _ _ F1), Hm. by left.
    - intros x Hx. apply Hap. by left. }
  destruct Hr as [Eh|[Eh Hso]]; rewrite Eh; cbn [Z.eqb Pos.eqb PB_HTYPE_REQUIRED PB_HTYPE_OPTIONAL].
  - apply with_fc_total. eapply safe_mono; [apply foot_data|apply Hdec, framed_refl].
  - rewrite Hps. cbn [size_ptr_is]. set (flag := it_pData it + f_size_offset f) in *.
    destruct (Z.eqb_spec flag (it_pData it)); [subst flag; lia|]. cbn [negb].
    assert (foot it flag) as Hfl by (right; done).
    assert (store8 flag 1 m = Ok tt (stored m flag [1])) as E1.
    { unfold store8. destruct (Hm flag Hfl) as [y Hy]. by rewrite Hy. }
    assert (framed (foot it) m (stored m flag [1])) as F1.
    { apply framed_stored. intros x Hx. unfold in_range in Hx. simpl in Hx.
      assert (x = flag) as -> by lia. done. }
    mstep E1. destruct (with_fc_total fc _ s _ l _ (Hdec _ F1)) as (ok & s' & m' & E & F2 & Hrest).
    exists ok, s', m'. split; [exact E|]. split; [|done].
    eapply framed_trans; [exact F1|]. eapply framed_mono; [apply foot_data|exact F2].
Qed.

(** ** The loop over the input *)
Section SafeLoop.
Variables (n fuel : nat) (rec : decode_rec) (es : list pb_field_t) (addr sz : Z).
Let fs := es ++ [PB_LAST_FIELD].
Hypothesis rec_safe : noinit_safe n (rec_decode_noinit rec).
Hypothesis plain : Forall (plain_field (plain_msg n)) es.
Hypothesis inside : layout fs sz.
Hypothesis subs : Forall (fun f => f_ltype f = PB_LTYPE_SUBMESSAGE -> inhabited n (sub_fields f)) es.
Hypothesis positive : 0 < addr.

Let tags : Forall (fun f => f_tag f <> 0) es := plain_tags _ _ plain.

(** The result of a step of the loop: an iterator on some field, and no
    fixed-count field. *)
Definition loop_safe (s : pb_istream_t) (m : mem) (l : list Z)
    (r : outcome (bool * pb_istream_t * dec_locals)) : Prop :=
  exists j seen ext, (j < length es)%nat
    /\ safe_ret (DecLocals (iter_at fs addr j) seen ext None 0) (in_range addr sz) s m l r.

Lemma field_placed i :
  (i < length es)%nat -> 0 < it_pData (iter_at fs addr i)
  /\ (forall x, foot (iter_at fs addr i) x -> in_range addr sz x)
  /\ it_field (iter_at fs addr i) ∈ es.
Proof.
  intros Hi. assert (iter_at fs addr i ∈ iters fs addr) as Hit.
  { apply list_elem_of_fmap_2, elem_of_seq. unfold fs. rewrite nfields_app. lia. }
  destruct (inside addr) as [Hin _]. pose proof (iters_entries es addr _ tags Hit) as Hf.
  split_and!; [|intros x Hx; by apply (Hin _ x Hit)|done].
  pose proof plain as Hpl. rewrite Forall_forall in Hpl.
  destruct (Hpl _ Hf) as [_ _ Hsz _ _].
  assert (in_range addr sz (it_pData (iter_at fs addr i))) as Hx.
  { apply (Hin _ _ Hit). left. unfold in_range. lia. }
  unfold in_range in Hx. lia.
Qed.

Lemma decode_known_total i s m l wt seen ext :
  (i < length es)%nat -> reading s m l -> mapped m addr sz -> apart s addr sz ->
  loop_safe s m l (decode_known fuel rec s wt (DecLocals (iter_at fs addr i) seen ext None 0) m).
Proof.
  intros Hi Hs Hm Hap. destruct (field_placed i Hi) as (Hpos & Hin & Hf).
  set (it := iter_at fs addr i) in *.
  pose proof plain as Hpl. pose proof subs as Hsub. rewrite Forall_forall in Hpl, Hsub.
  pose proof (Hpl _ Hf) as Hp. pose proof Hp as [Hst _ _ Hrule _].
  assert (it ∈ iters fs addr) as Hit.
  { apply list_elem_of_fmap_2, elem_of_seq. unfold fs. rewrite nfields_app. lia. }
  pose proof (iters_pSize es tags addr it (plain_not_oneof _ _ plain) Hit) as Hps.
  destruct (decode_static_total n fuel rec it s m l 0 wt rec_safe Hp (Hsub _ Hf) Hps Hs Hpos)
    as (ok & s' & m' & E & Fr & Hc & Hok).
  { intros x Hx. apply Hm. by apply Hin. }
  { intros x Hx. apply Hap. by apply Hin. }
  assert ((f_htype (it_field it) =? PB_HTYPE_REPEATED) = false
          /\ (f_htype (it_field it) =? PB_HTYPE_ONEOF) = false) as [Hh1 Hh2].
  { destruct Hrule as [-> |[-> _]]; done. }
  unfold decode_known. cbn [dl_iter dl_fixed_field dl_seen dl_ext_start dl_fixed_size].
  rewrite Hh1. cbn [andb]. unfold decode_field. rewrite Hh2.
  rewrite bind_assoc, bind_ret. cbn beta iota. cbn [negb]. rewrite Hst.
  change (PB_ATYPE_STATIC =? PB_ATYPE_STATIC) with true. cbn iota.
  rewrite bind_assoc. mstep E. cbn beta iota. rewrite bind_ret.
  eexists i, _, ext. split; [done|]. exists ok, s', m'. split; [reflexivity|].
  split; [|done]. eapply framed_mono; [exact Hin|exact Fr].
Qed.

Lemma find_extension_none i m :
  (i < length es)%nat ->
  find_extension_field (iter_at fs addr i) m = Ok (false, iter_at fs addr i) m.
Proof.
  intros Hi. unfold find_extension_field. destruct (iter_at_inv es tags addr i Hi) as (Hp & Hst & _).
  fold fs in Hp, Hst. unfold iter_rounds. rewrite Hp, Hst.
  pose proof (iter_find_loop_at es tags (fun f => f_ltype f =? PB_LTYPE_EXTENSION) addr i 0
                (S (length fs)) Hi) as E.
  rewrite Nat.add_0_r, Nat.mod_small, Nat.sub_0_r in E by done. fold fs in E.
  rewrite E; [|lia|unfold fs; rewrite length_app; simpl; lia].
  destruct (List.find _ _) as [k|] eqn:Ef; [|done]. exfalso.
  apply List.find_some in Ef as [Hk Hx]. apply List.in_map_iff in Hk as (d & <- & _).
  set (k := ((i + d) mod length es)%nat) in *.
  assert (k < length es)%nat as Hk by (apply Nat.mod_upper_bound; lia).
  pose proof plain as Hpl. rewrite Forall_lookup in Hpl.
  pose proof (plain_ltype _ _ (Hpl k _ (field_at_entry es k Hk))) as Hl. fold fs in Hl.
  apply Z.eqb_eq in Hx. rewrite Hx in Hl. ltype_cases. lia.
Qed.

Lemma decode_unknown_total i s m l tag wt seen ext :
  (i < length es)%nat -> 0 <= tag < 2 ^ 29 -> reading s m l ->
  loop_safe s m l (decode_unknown fuel rec s tag wt (DecLocals (iter_at fs addr i) seen ext None 0) m).
Proof.
  intros Hi Htag Hs. unfold decode_unknown. cbn [dl_iter dl_fixed_field dl_seen dl_ext_start dl_fixed_size].
  destruct (skip_field_total (in_range addr sz) s m l wt Hs) as (ok & s' & m' & E & Hrest).
  destruct (ext <=? tag).
  - mstep (find_extension_none i m Hi). cbn beta iota.
    destruct (Z.leb_spec (u32 (-1)) tag) as [Hbig|_].
    { exfalso. change (u32 (-1)) with (2 ^ 32 - 1) in Hbig. lia. }
    mstep E. exists i, seen, (u32 (-1)). split; [done|]. by exists ok, s', m'.
  - mstep E. exists i, seen, ext. split; [done|]. by exists ok, s', m'.
Qed.

Lemma loop_after s m l s1 m1 l1 r :
  took s l s1 l1 -> framed (in_range addr sz) m m1 -> loop_safe s1 m1 l1 r -> loop_safe s m l r.
Proof.
  intros Ht F (j & seen & ext & Hj & ok & s' & m' & E & F' & Hc & Hok).
  exists j, seen, ext. split; [done|]. exists ok, s', m'. split_and!; [done|by eapply framed_trans|done|].
  intros Ho. destruct (Hok Ho) as [l' Hl]. exists l'. by eapply took_trans.
Qed.

Lemma decode_loop_total rounds i s m l seen ext :
  (i < length es)%nat -> (length l < rounds)%nat -> reading s m l -> mapped m addr sz ->
  apart s addr sz ->
  loop_safe s m l (decode_loop fuel rec rounds s (DecLocals (iter_at fs addr i) seen ext None 0) m).
Proof.
  revert i s m l seen ext. induction rounds as [|rounds IH]; intros i s m l seen ext Hi Hr Hs Hm Hap;
    [lia|]. cbn [decode_loop]. pose proof (rd_callback _ _ _ Hs) as Hcb.
  destruct (Z.eqb_spec (i_bytes_left s) 0) as [E0|E0].
  { exists i, seen, ext. split; [done|]. eexists _, _, _. split; [reflexivity|].
    split_and!; [apply framed_refl|done|]. intros _. exists l. apply took_refl. }
  assert (l <> []) as Hne by (intros ->; rewrite (rd_left _ _ _ Hs) in E0; simpl in E0; lia).
  destruct (decode_tag_total s m l Hs Hne) as (t & s1 & E & Hc1 & Htook & Htag). mstep E. cbn beta iota.
  destruct (tr_ok t) eqn:Eok; cbn [negb].
  2: { exists i, seen, ext. split; [done|]. eexists _, _, _. split; [reflexivity|].
       split_and!; [apply framed_refl|done|]. intros He. destruct (Htook (or_intror He)) as (l' & Ht & _).
       by exists l'. }
  destruct (Htook (or_introl eq_refl)) as (l1 & Ht & Hlen). pose proof (Htag eq_refl) as Htg.
  pose proof (took_reading _ _ _ _ _ Ht Hs) as Hs1.
  pose proof (apart_took s m l s1 l1 addr sz Ht Hs Hap) as Hap1.
  eapply (loop_after s m l s1 m l1); [exact Ht|apply framed_refl|].
  cbn [dl_iter]. pose proof (iter_find_at es tags (tr_tag t) addr i Hi) as Efind. fold fs in Efind.
  rewrite Efind, bind_ret. cbn beta iota.
  cbn [dl_seen dl_ext_start dl_fixed_field dl_fixed_size].
  assert (forall r : M (bool * pb_istream_t * dec_locals), loop_safe s1 m l1 (r m) ->
    loop_safe s1 m l1 (bind r (fun '(ok, stream, l) =>
      if ok then decode_loop fuel rec rounds stream l else ret (false, stream, l)) m)) as Hnext.
  { intros r (j & seen' & ext' & Hj & ok & s2 & m2 & E2 & F2 & Hc2 & Hok). mstep E2. cbn beta iota.
    destruct ok.
    - destruct (Hok eq_refl) as [l2 Ht2]. eapply (loop_after s1 m l1 s2 m2 l2); [done|done|].
      pose proof (took_length _ _ _ _ Ht2). apply IH; [done|lia| |by eapply framed_mapped|].
      + eapply took_reading; [exact Ht2|]. eapply reading_framed; [exact Hs1|exact F2|exact Hap1].
      + by eapply apart_took.
    - exists j, seen', ext'. split; [done|]. by exists false, s2, m2. }
  destruct (List.find _ (search_order i (length es))) as [j|] eqn:Ef; cbn [fst snd].
  - apply Hnext. assert (j < length es)%nat as Hj.
    { apply List.find_some in Ef as [Hin _]. unfold search_order in Hin.
      apply List.in_map_iff in Hin as (d & <- & _). apply Nat.mod_upper_bound. lia. }
    by apply decode_known_total.
  - apply Hnext. by apply decode_unknown_total.
Qed.
End SafeLoop.

(** ** Messages *)
Lemma check_required_total es addr i s m seen ext ff ffs :
  Forall (fun f => f_tag f <> 0) es -> Z.of_nat (length es) < 2 ^ 32 -> (i < length es)%nat ->
  i_callback s = IcbBufRead ->
  exists ok s', check_required s (DecLocals (iter_at (es ++ [PB_LAST_FIELD]) addr i) seen ext ff ffs) m
                = Ok (ok, s') m
    /\ i_callback s' = IcbBufRead /\ (ok = true -> s' = s).
Proof.
  intros Ht Hshort Hi Hc. unfold check_required. cbn [dl_iter dl_seen].
  rewrite (seek_end_at es Ht Hshort); [|done|].
  2: { unfold iter_rounds. destruct (iter_at_inv es Ht addr i Hi) as (_ & -> & _).
       rewrite length_app. simpl. lia. }
  match goal with |- context [if (0 <? ?x) && ?y then _ else _] => destruct ((0 <? x) && y) end;
    (eexists _, _; split; [reflexivity|done]).
Qed.

Lemma noinit_total n : noinit_safe n (pb_decode_noinit n).
Proof.
  induction n as [|n IH]; intros fs sz addr s m l Hp Hin Hs Hpos Hm Hap; [done|].
  destruct Hp as [Hlay (es & -> & Hshort & _ & Hes)]. destruct Hin as [Hne Hsub].
  unfold entries in Hne, Hsub. rewrite removelast_last in Hne, Hsub.
  assert (0 < length es)%nat as Hlen by (destruct es; [done|simpl; lia]).
  pose proof (plain_tags _ _ Hes) as Ht. cbn [pb_decode_noinit]. unfold noinit_body.
  unfold decode_locals_init. rewrite pb_field_iter_begin_at by done. cbn [snd].
  destruct (decode_loop_total n n (DecodeRec (decode_over n (pb_decode_noinit n)) (pb_decode_noinit n))
              es addr sz IH Hes Hlay Hsub Hpos (stream_rounds s) 0 s m l [0; 0] 0 Hlen)
    as (j & seen & ext & Hj & ok & s1 & m1 & E & F1 & Hc1 & Hok); [|done..|].
  { unfold stream_rounds. rewrite (rd_left _ _ _ Hs). lia. }
  mstep E. cbn beta iota. destruct ok; cbn [negb]; [|by apply safe_fail].
  unfold fixed_count_complete. cbn [dl_fixed_field negb].
  destruct (check_required_total es addr j s1 m1 seen ext None 0 Ht Hshort Hj Hc1) as (ok & s2 & E2 & Hc2 & Hs2).
  rewrite E2. exists ok, s2, m1. split_and!; [done..|].
  intros Hok2. rewrite (Hs2 Hok2). by apply Hok.
Qed.

(** Releasing a plain message does nothing. *)
Lemma run_list_ret {I} (act : I -> M unit) (its : list I) m :
  (forall it, it ∈ its -> act it m = Ok tt m) ->
  run_list (fun it (_ : unit) => act it ;; ret (true, tt)) its tt m = Ok (true, tt) m.
Proof.
  induction its as [|it its IH]; intros Ha; [done|]. cbn [run_list].
  rewrite bind_assoc. mstep (Ha it (list_elem_of_here _ _)). rewrite bind_ret. apply IH.
  intros it' Hit. apply Ha. by apply list_elem_of_further.
Qed.

Lemma release_total n fs sz addr m :
  plain_msg n fs sz -> pb_release n fs addr m = Ok tt m.
Proof.
  revert fs sz addr m. induction n as [|n IH]; intros fs sz addr m Hp; [done|].
  destruct Hp as [_ (es & -> & _ & _ & Hes)]. pose proof (plain_tags _ _ Hes) as Ht.
  unfold pb_release, message_release. destruct (addr =? NULL); [done|].
  unfold over_fields. rewrite pb_field_iter_begin_at by done.
  destruct (decide (0 < length es)%nat) as [Hpos|Hzero].
  2: { by rewrite bool_decide_false. }
  rewrite bool_decide_true by done. rewrite (bind_Ok _ _ _ (true, tt) m); [done|].
  rewrite for_each_field_iters by done. apply run_list_ret. intros it Hit.
  pose proof (iters_entries es addr it Ht Hit) as Hf. rewrite Forall_forall in Hes.
  pose proof (Hes _ Hf) as Hpf. pose proof (plain_ltype _ _ Hpf) as Hl.
  pose proof Hpf as [Hst _ _ Hr _]. cbn [pb_release_single_field].
  assert ((f_htype (it_field it) =? PB_HTYPE_ONEOF) = false
          /\ (f_htype (it_field it) =? PB_HTYPE_REPEATED) = false) as [Hh1 Hh2].
  { destruct Hr as [-> |[-> _]]; done. }
  rewrite Hh1, bind_ret. cbn [negb]. rewrite Hst.
  change (PB_ATYPE_STATIC =? PB_ATYPE_CALLBACK) with false.
  change (PB_ATYPE_STATIC =? PB_ATYPE_POINTER) with false. cbn [negb]. rewrite andb_true_r.
  destruct (Z.eqb_spec (f_ltype (it_field it)) PB_LTYPE_EXTENSION) as [E|_]; [ltype_cases; lia|].
  destruct (Z.eqb_spec (f_ltype (it_field it)) PB_LTYPE_SUBMESSAGE) as [El|_]; [|done].
  destruct (plain_field_sub _ _ Hpf El) as [Hptr Hsub]. rewrite Hh2.
  rewrite (bind_Ok _ _ m tt m); [done|]. rewrite bind_ret, bind_ret.
  destruct (it_pData it =? NULL); [done|].
  change (Z.to_nat 1) with 1%nat. cbn [item_loop]. rewrite bind_assoc.
  unfold submsg_of. rewrite Hptr, bind_ret.
  by rewrite (bind_Ok _ _ _ _ _ (IH _ _ (it_pData it) m Hsub)).
Qed.

Lemma decode_total n fs sz addr s m l :
  plain_msg n fs sz -> inhabited n fs -> reading s m l -> 0 < addr -> mapped m addr sz ->
  apart s addr sz -> safe_step (in_range addr sz) s m l (pb_decode n s fs addr m).
Proof.
  intros Hp Hin Hs Hpos Hm Hap. unfold pb_decode, decode_over.
  destruct (defaults_all n fs sz addr m Hp Hm) as (m1 & E1 & F1 & _). mstep E1.
  pose proof (reading_framed _ s m m1 l Hs F1 Hap) as Hs1.
  destruct (noinit_total n fs sz addr s m1 l Hp Hin Hs1 Hpos (framed_mapped _ _ _ _ _ F1 Hm) Hap)
    as (ok & s2 & m2 & E2 & F2 & Hc2 & Hok).
  mstep E2. cbn beta iota. exists ok, s2, m2. split; [|split; [by eapply framed_trans|done]].
  destruct ok; [by rewrite bind_ret|].
  by rewrite (bind_Ok _ _ _ _ _ (release_total n fs sz addr m2 Hp)).
Qed.
End Safety.
