(* ===== verification/ProtoLayout.v ===== *)
(** What the generated message files share: the C types of their members,
    initialisers, and the conditions that tie a descriptor to its structure. *)
From stdpp Require Import base list numbers option strings.
From S2P Require Import Prelude Machine PbTypes PbCommon.
Open Scope Z_scope.

Definition CT_bool : ctype := CScalar 1.
Definition CT_int32 : ctype := CScalar 4.
Definition CT_uint32 : ctype := CScalar 4.
Definition CT_int64 : ctype := CScalar 8.
Definition CT_enum : ctype := CScalar 4.

(** [struct pb_bytes_array_s { pb_size_t size; pb_byte_t bytes[1]; }] *)
Definition CT_bytes_array : ctype :=
  CStruct [("size", CT_uint32); ("bytes", CArray (CScalar 1) 1)].

(** A brace initialiser of a structure. *)
Inductive cinit :=
  | IVal (z : Z)
  | IStruct (inits : list cinit).

(** The scalar objects an initialiser sets: offset, size and value. *)
Fixpoint init_cells (t : ctype) (off : Z) (i : cinit) : list (Z * Z * Z) :=
  match i with
  | IVal z => [(off, sizeof t, z)]
  | IStruct inits =>
      match t with
      | CStruct ms =>
          (fix go (o : Z) (ms : list (string * ctype)) (inits : list cinit) :=
             match ms, inits with
             | (_, mt) :: ms', i' :: inits' =>
                 let o := align_up o (alignof mt) in
                 init_cells mt (off + o) i' ++ go (o + sizeof mt) ms' inits'
             | _, _ => []
             end) 0 ms inits
      | _ => []
      end
  end.

(** The members of the structure, with the offset and the size of each. *)
Fixpoint members_from (off : Z) (ms : list (string * ctype)) : list (string * (Z * Z)) :=
  match ms with
  | [] => []
  | (n, t) :: ms' =>
      let o := align_up off (alignof t) in (n, (o, sizeof t)) :: members_from (o + sizeof t) ms'
  end.
Definition struct_members (t : ctype) : list (string * (Z * Z)) :=
  match t with CStruct ms => members_from 0 ms | _ => [] end.

(** The offset of every field as the iterator computes it. *)
Fixpoint iter_offsets (n : nat) (it : pb_field_iter_t) : list (Z * Z * size_ptr) :=
  match n with
  | O => []
  | S n' =>
      (f_tag (it_field it), it_pData it, it_pSize it) ::
      let (more, it') := pb_field_iter_next it in
      if more : bool then iter_offsets n' it' else []
  end.
Definition descriptor_offsets (fields : list pb_field_t) : list (Z * Z * size_ptr) :=
  let (some, it) := pb_field_iter_begin fields 0 in
  if some : bool then iter_offsets (iter_rounds it) it else [].
