(* ===== verification/Cct.v ===== *)
(** The generated descriptors of the Google Data Transport messages,
    [cct.nanopb.h] and [cct.nanopb.c]. *)
From stdpp Require Import base list numbers option strings.
From S2P Require Import Prelude Machine PbTypes PbCommon ProtoLayout.
Open Scope Z_scope.

(** * Enumerations *)

Inductive gdt_cct_NetworkConnectionInfo_NetworkType :=
  | gdt_cct_NetworkConnectionInfo_NetworkType_NONE
  | gdt_cct_NetworkConnectionInfo_NetworkType_MOBILE
  | gdt_cct_NetworkConnectionInfo_NetworkType_WIFI
  | gdt_cct_NetworkConnectionInfo_NetworkType_MOBILE_MMS
  | gdt_cct_NetworkConnectionInfo_NetworkType_MOBILE_SUPL
  | gdt_cct_NetworkConnectionInfo_NetworkType_MOBILE_DUN
  | gdt_cct_NetworkConnectionInfo_NetworkType_MOBILE_HIPRI
  | gdt_cct_NetworkConnectionInfo_NetworkType_WIMAX
  | gdt_cct_NetworkConnectionInfo_NetworkType_BLUETOOTH
  | gdt_cct_NetworkConnectionInfo_NetworkType_DUMMY
  | gdt_cct_NetworkConnectionInfo_NetworkType_ETHERNET
  | gdt_cct_NetworkConnectionInfo_NetworkType_MOBILE_FOTA
  | gdt_cct_NetworkConnectionInfo_NetworkType_MOBILE_IMS
  | gdt_cct_NetworkConnectionInfo_NetworkType_MOBILE_CBS
  | gdt_cct_NetworkConnectionInfo_NetworkType_WIFI_P2P
  | gdt_cct_NetworkConnectionInfo_NetworkType_MOBILE_IA
  | gdt_cct_NetworkConnectionInfo_NetworkType_MOBILE_EMERGENCY
  | gdt_cct_NetworkConnectionInfo_NetworkType_PROXY
  | gdt_cct_NetworkConnectionInfo_NetworkType_VPN.

Definition gdt_cct_NetworkConnectionInfo_NetworkType_val (e : gdt_cct_NetworkConnectionInfo_NetworkType) : Z :=
  match e with
  | gdt_cct_NetworkConnectionInfo_NetworkType_NONE => (-1)
  | gdt_cct_NetworkConnectionInfo_NetworkType_MOBILE => 0
  | gdt_cct_NetworkConnectionInfo_NetworkType_WIFI => 1
  | gdt_cct_NetworkConnectionInfo_NetworkType_MOBILE_MMS => 2
  | gdt_cct_NetworkConnectionInfo_NetworkType_MOBILE_SUPL => 3
  | gdt_cct_NetworkConnectionInfo_NetworkType_MOBILE_DUN => 4
  | gdt_cct_NetworkConnectionInfo_NetworkType_MOBILE_HIPRI => 5
  | gdt_cct_NetworkConnectionInfo_NetworkType_WIMAX => 6
  | gdt_cct_NetworkConnectionInfo_NetworkType_BLUETOOTH => 7
  | gdt_cct_NetworkConnectionInfo_NetworkType_DUMMY => 8
  | gdt_cct_NetworkConnectionInfo_NetworkType_ETHERNET => 9
  | gdt_cct_NetworkConnectionInfo_NetworkType_MOBILE_FOTA => 10
  | gdt_cct_NetworkConnectionInfo_NetworkType_MOBILE_IMS => 11
  | gdt_cct_NetworkConnectionInfo_NetworkType_MOBILE_CBS => 12
  | gdt_cct_NetworkConnectionInfo_NetworkType_WIFI_P2P => 13
  | gdt_cct_NetworkConnectionInfo_NetworkType_MOBILE_IA => 14
  | gdt_cct_NetworkConnectionInfo_NetworkType_MOBILE_EMERGENCY => 15
  | gdt_cct_NetworkConnectionInfo_NetworkType_PROXY => 16
  | gdt_cct_NetworkConnectionInfo_NetworkType_VPN => 17
  end.

(** Every value of the enumeration, in declaration order. *)
Definition gdt_cct_NetworkConnectionInfo_NetworkType_all : list gdt_cct_NetworkConnectionInfo_NetworkType :=
  [gdt_cct_NetworkConnectionInfo_NetworkType_NONE;
   gdt_cct_NetworkConnectionInfo_NetworkType_MOBILE;
   gdt_cct_NetworkConnectionInfo_NetworkType_WIFI;
   gdt_cct_NetworkConnectionInfo_NetworkType_MOBILE_MMS;
   gdt_cct_NetworkConnectionInfo_NetworkType_MOBILE_SUPL;
   gdt_cct_NetworkConnectionInfo_NetworkType_MOBILE_DUN;
   gdt_cct_NetworkConnectionInfo_NetworkType_MOBILE_HIPRI;
   gdt_cct_NetworkConnectionInfo_NetworkType_WIMAX;
   gdt_cct_NetworkConnectionInfo_NetworkType_BLUETOOTH;
   gdt_cct_NetworkConnectionInfo_NetworkType_DUMMY;
   gdt_cct_NetworkConnectionInfo_NetworkType_ETHERNET;
   gdt_cct_NetworkConnectionInfo_NetworkType_MOBILE_FOTA;
   gdt_cct_NetworkConnectionInfo_NetworkType_MOBILE_IMS;
   gdt_cct_NetworkConnectionInfo_NetworkType_MOBILE_CBS;
   gdt_cct_NetworkConnectionInfo_NetworkType_WIFI_P2P;
   gdt_cct_NetworkConnectionInfo_NetworkType_MOBILE_IA;
   gdt_cct_NetworkConnectionInfo_NetworkType_MOBILE_EMERGENCY;
   gdt_cct_NetworkConnectionInfo_NetworkType_PROXY;
   gdt_cct_NetworkConnectionInfo_NetworkType_VPN].

Definition _gdt_cct_NetworkConnectionInfo_NetworkType_MIN : gdt_cct_NetworkConnectionInfo_NetworkType := gdt_cct_NetworkConnectionInfo_NetworkType_NONE.
Definition _gdt_cct_NetworkConnectionInfo_NetworkType_MAX : gdt_cct_NetworkConnectionInfo_NetworkType := gdt_cct_NetworkConnectionInfo_NetworkType_VPN.
Definition _gdt_cct_NetworkConnectionInfo_NetworkType_ARRAYSIZE : Z := gdt_cct_NetworkConnectionInfo_NetworkType_val _gdt_cct_NetworkConnectionInfo_NetworkType_MAX + 1.

Inductive gdt_cct_NetworkConnectionInfo_MobileSubtype :=
  | gdt_cct_NetworkConnectionInfo_MobileSubtype_UNKNOWN_MOBILE_SUBTYPE
  | gdt_cct_NetworkConnectionInfo_MobileSubtype_GPRS
  | gdt_cct_NetworkConnectionInfo_MobileSubtype_EDGE
  | gdt_cct_NetworkConnectionInfo_MobileSubtype_UMTS
  | gdt_cct_NetworkConnectionInfo_MobileSubtype_CDMA
  | gdt_cct_NetworkConnectionInfo_MobileSubtype_EVDO_0
  | gdt_cct_NetworkConnectionInfo_MobileSubtype_EVDO_A
  | gdt_cct_NetworkConnectionInfo_MobileSubtype_RTT
  | gdt_cct_NetworkConnectionInfo_MobileSubtype_HSDPA
  | gdt_cct_NetworkConnectionInfo_MobileSubtype_HSUPA
  | gdt_cct_NetworkConnectionInfo_MobileSubtype_HSPA
  | gdt_cct_NetworkConnectionInfo_MobileSubtype_IDEN
  | gdt_cct_NetworkConnectionInfo_MobileSubtype_EVDO_B
  | gdt_cct_NetworkConnectionInfo_MobileSubtype_LTE
  | gdt_cct_NetworkConnectionInfo_MobileSubtype_EHRPD
  | gdt_cct_NetworkConnectionInfo_MobileSubtype_HSPAP
  | gdt_cct_NetworkConnectionInfo_MobileSubtype_GSM
  | gdt_cct_NetworkConnectionInfo_MobileSubtype_TD_SCDMA
  | gdt_cct_NetworkConnectionInfo_MobileSubtype_IWLAN
  | gdt_cct_NetworkConnectionInfo_MobileSubtype_LTE_CA
  | gdt_cct_NetworkConnectionInfo_MobileSubtype_COMBINED.

Definition gdt_cct_NetworkConnectionInfo_MobileSubtype_val (e : gdt_cct_NetworkConnectionInfo_MobileSubtype) : Z :=
  match e with
  | gdt_cct_NetworkConnectionInfo_MobileSubtype_UNKNOWN_MOBILE_SUBTYPE => 0
  | gdt_cct_NetworkConnectionInfo_MobileSubtype_GPRS => 1
  | gdt_cct_NetworkConnectionInfo_MobileSubtype_EDGE => 2
  | gdt_cct_NetworkConnectionInfo_MobileSubtype_UMTS => 3
  | gdt_cct_NetworkConnectionInfo_MobileSubtype_CDMA => 4
  | gdt_cct_NetworkConnectionInfo_MobileSubtype_EVDO_0 => 5
  | gdt_cct_NetworkConnectionInfo_MobileSubtype_EVDO_A => 6
  | gdt_cct_NetworkConnectionInfo_MobileSubtype_RTT => 7
  | gdt_cct_NetworkConnectionInfo_MobileSubtype_HSDPA => 8
  | gdt_cct_NetworkConnectionInfo_MobileSubtype_HSUPA => 9
  | gdt_cct_NetworkConnectionInfo_MobileSubtype_HSPA => 10
  | gdt_cct_NetworkConnectionInfo_MobileSubtype_IDEN => 11
  | gdt_cct_NetworkConnectionInfo_MobileSubtype_EVDO_B => 12
  | gdt_cct_NetworkConnectionInfo_MobileSubtype_LTE => 13
  | gdt_cct_NetworkConnectionInfo_MobileSubtype_EHRPD => 14
  | gdt_cct_NetworkConnectionInfo_MobileSubtype_HSPAP => 15
  | gdt_cct_NetworkConnectionInfo_MobileSubtype_GSM => 16
  | gdt_cct_NetworkConnectionInfo_MobileSubtype_TD_SCDMA => 17
  | gdt_cct_NetworkConnectionInfo_MobileSubtype_IWLAN => 18
  | gdt_cct_NetworkConnectionInfo_MobileSubtype_LTE_CA => 19
  | gdt_cct_NetworkConnectionInfo_MobileSubtype_COMBINED => 100
  end.

(** Every value of the enumeration, in declaration order. *)
Definition gdt_cct_NetworkConnectionInfo_MobileSubtype_all : list gdt_cct_NetworkConnectionInfo_MobileSubtype :=
  [gdt_cct_NetworkConnectionInfo_MobileSubtype_UNKNOWN_MOBILE_SUBTYPE;
   gdt_cct_NetworkConnectionInfo_MobileSubtype_GPRS;
   gdt_cct_NetworkConnectionInfo_MobileSubtype_EDGE;
   gdt_cct_NetworkConnectionInfo_MobileSubtype_UMTS;
   gdt_cct_NetworkConnectionInfo_MobileSubtype_CDMA;
   gdt_cct_NetworkConnectionInfo_MobileSubtype_EVDO_0;
   gdt_cct_NetworkConnectionInfo_MobileSubtype_EVDO_A;
   gdt_cct_NetworkConnectionInfo_MobileSubtype_RTT;
   gdt_cct_NetworkConnectionInfo_MobileSubtype_HSDPA;
   gdt_cct_NetworkConnectionInfo_MobileSubtype_HSUPA;
   gdt_cct_NetworkConnectionInfo_MobileSubtype_HSPA;
   gdt_cct_NetworkConnectionInfo_MobileSubtype_IDEN;
   gdt_cct_NetworkConnectionInfo_MobileSubtype_EVDO_B;
   gdt_cct_NetworkConnectionInfo_MobileSubtype_LTE;
   gdt_cct_NetworkConnectionInfo_MobileSubtype_EHRPD;
   gdt_cct_NetworkConnectionInfo_MobileSubtype_HSPAP;
   gdt_cct_NetworkConnectionInfo_MobileSubtype_GSM;
   gdt_cct_NetworkConnectionInfo_MobileSubtype_TD_SCDMA;
   gdt_cct_NetworkConnectionInfo_MobileSubtype_IWLAN;
   gdt_cct_NetworkConnectionInfo_MobileSubtype_LTE_CA;
   gdt_cct_NetworkConnectionInfo_MobileSubtype_COMBINED].

Definition _gdt_cct_NetworkConnectionInfo_MobileSubtype_MIN : gdt_cct_NetworkConnectionInfo_MobileSubtype := gdt_cct_NetworkConnectionInfo_MobileSubtype_UNKNOWN_MOBILE_SUBTYPE.
Definition _gdt_cct_NetworkConnectionInfo_MobileSubtype_MAX : gdt_cct_NetworkConnectionInfo_MobileSubtype := gdt_cct_NetworkConnectionInfo_MobileSubtype_COMBINED.
Definition _gdt_cct_NetworkConnectionInfo_MobileSubtype_ARRAYSIZE : Z := gdt_cct_NetworkConnectionInfo_MobileSubtype_val _gdt_cct_NetworkConnectionInfo_MobileSubtype_MAX + 1.

Inductive gdt_cct_ClientInfo_ClientType :=
  | gdt_cct_ClientInfo_ClientType_CLIENT_UNKNOWN
  | gdt_cct_ClientInfo_ClientType_IOS_FIREBASE.

Definition gdt_cct_ClientInfo_ClientType_val (e : gdt_cct_ClientInfo_ClientType) : Z :=
  match e with
  | gdt_cct_ClientInfo_ClientType_CLIENT_UNKNOWN => 0
  | gdt_cct_ClientInfo_ClientType_IOS_FIREBASE => 15
  end.

(** Every value of the enumeration, in declaration order. *)
Definition gdt_cct_ClientInfo_ClientType_all : list gdt_cct_ClientInfo_ClientType :=
  [gdt_cct_ClientInfo_ClientType_CLIENT_UNKNOWN;
   gdt_cct_ClientInfo_ClientType_IOS_FIREBASE].

Definition _gdt_cct_ClientInfo_ClientType_MIN : gdt_cct_ClientInfo_ClientType := gdt_cct_ClientInfo_ClientType_CLIENT_UNKNOWN.
Definition _gdt_cct_ClientInfo_ClientType_MAX : gdt_cct_ClientInfo_ClientType := gdt_cct_ClientInfo_ClientType_IOS_FIREBASE.
Definition _gdt_cct_ClientInfo_ClientType_ARRAYSIZE : Z := gdt_cct_ClientInfo_ClientType_val _gdt_cct_ClientInfo_ClientType_MAX + 1.

Inductive gdt_cct_QosTierConfiguration_QosTier :=
  | gdt_cct_QosTierConfiguration_QosTier_DEFAULT
  | gdt_cct_QosTierConfiguration_QosTier_UNMETERED_ONLY
  | gdt_cct_QosTierConfiguration_QosTier_UNMETERED_OR_DAILY
  | gdt_cct_QosTierConfiguration_QosTier_FAST_IF_RADIO_AWAKE
  | gdt_cct_QosTierConfiguration_QosTier_NEVER.

Definition gdt_cct_QosTierConfiguration_QosTier_val (e : gdt_cct_QosTierConfiguration_QosTier) : Z :=
  match e with
  | gdt_cct_QosTierConfiguration_QosTier_DEFAULT => 0
  | gdt_cct_QosTierConfiguration_QosTier_UNMETERED_ONLY => 1
  | gdt_cct_QosTierConfiguration_QosTier_UNMETERED_OR_DAILY => 2
  | gdt_cct_QosTierConfiguration_QosTier_FAST_IF_RADIO_AWAKE => 3
  | gdt_cct_QosTierConfiguration_QosTier_NEVER => 4
  end.

(** Every value of the enumeration, in declaration order. *)
Definition gdt_cct_QosTierConfiguration_QosTier_all : list gdt_cct_QosTierConfiguration_QosTier :=
  [gdt_cct_QosTierConfiguration_QosTier_DEFAULT;
   gdt_cct_QosTierConfiguration_QosTier_UNMETERED_ONLY;
   gdt_cct_QosTierConfiguration_QosTier_UNMETERED_OR_DAILY;
   gdt_cct_QosTierConfiguration_QosTier_FAST_IF_RADIO_AWAKE;
   gdt_cct_QosTierConfiguration_QosTier_NEVER].

Definition _gdt_cct_QosTierConfiguration_QosTier_MIN : gdt_cct_QosTierConfiguration_QosTier := gdt_cct_QosTierConfiguration_QosTier_DEFAULT.
Definition _gdt_cct_QosTierConfiguration_QosTier_MAX : gdt_cct_QosTierConfiguration_QosTier := gdt_cct_QosTierConfiguration_QosTier_NEVER.
Definition _gdt_cct_QosTierConfiguration_QosTier_ARRAYSIZE : Z := gdt_cct_QosTierConfiguration_QosTier_val _gdt_cct_QosTierConfiguration_QosTier_MAX + 1.

(** * Structures *)

Definition gdt_cct_NetworkConnectionInfo : ctype := CStruct
  [("has_network_type", CT_bool);
   ("network_type", CT_enum);
   ("has_mobile_subtype", CT_bool);
   ("mobile_subtype", CT_enum)].

Definition gdt_cct_LogEvent : ctype := CStruct
  [("has_event_time_ms", CT_bool);
   ("event_time_ms", CT_int64);
   ("source_extension", CPtrTo CT_bytes_array);
   ("has_event_code", CT_bool);
   ("event_code", CT_int32);
   ("has_timezone_offset_seconds", CT_bool);
   ("timezone_offset_seconds", CT_int64);
   ("has_event_uptime_ms", CT_bool);
   ("event_uptime_ms", CT_int64);
   ("has_network_connection_info", CT_bool);
   ("network_connection_info", gdt_cct_NetworkConnectionInfo)].

Definition gdt_cct_IosClientInfo : ctype := CStruct
  [("os_major_version", CPtrTo CT_bytes_array);
   ("os_full_version", CPtrTo CT_bytes_array);
   ("application_build", CPtrTo CT_bytes_array);
   ("country", CPtrTo CT_bytes_array);
   ("model", CPtrTo CT_bytes_array);
   ("language_code", CPtrTo CT_bytes_array);
   ("application_bundle_id", CPtrTo CT_bytes_array)].

Definition gdt_cct_ClientInfo : ctype := CStruct
  [("has_client_type", CT_bool);
   ("client_type", CT_enum);
   ("has_ios_client_info", CT_bool);
   ("ios_client_info", gdt_cct_IosClientInfo)].

Definition gdt_cct_LogRequest : ctype := CStruct
  [("has_client_info", CT_bool);
   ("client_info", gdt_cct_ClientInfo);
   ("has_log_source", CT_bool);
   ("log_source", CT_int32);
   ("log_event_count", CT_uint32);
   ("log_event", CPtrTo gdt_cct_LogEvent);
   ("has_request_time_ms", CT_bool);
   ("request_time_ms", CT_int64);
   ("has_request_uptime_ms", CT_bool);
   ("request_uptime_ms", CT_int64);
   ("has_qos_tier", CT_bool);
   ("qos_tier", CT_enum)].

Definition gdt_cct_BatchedLogRequest : ctype := CStruct
  [("log_request_count", CT_uint32);
   ("log_request", CPtrTo gdt_cct_LogRequest)].

Definition gdt_cct_QosTierConfiguration : ctype := CStruct
  [("has_qos_tier", CT_bool);
   ("qos_tier", CT_enum);
   ("has_log_source", CT_bool);
   ("log_source", CT_int32)].

Definition gdt_cct_QosTiersOverride : ctype := CStruct
  [("qos_tier_configuration_count", CT_uint32);
   ("qos_tier_configuration", CPtrTo gdt_cct_QosTierConfiguration);
   ("has_qos_tier_fingerprint", CT_bool);
   ("qos_tier_fingerprint", CT_int64)].

Definition gdt_cct_LogResponse : ctype := CStruct
  [("has_next_request_wait_millis", CT_bool);
   ("next_request_wait_millis", CT_int64);
   ("has_qos_tier", CT_bool);
   ("qos_tier", gdt_cct_QosTiersOverride)].

(** * Default values and initialisers *)

Definition gdt_cct_NetworkConnectionInfo_network_type_default : list Z :=
  le_bytes 4 (gdt_cct_NetworkConnectionInfo_NetworkType_val gdt_cct_NetworkConnectionInfo_NetworkType_NONE).
Definition gdt_cct_NetworkConnectionInfo_mobile_subtype_default : list Z :=
  le_bytes 4 (gdt_cct_NetworkConnectionInfo_MobileSubtype_val gdt_cct_NetworkConnectionInfo_MobileSubtype_UNKNOWN_MOBILE_SUBTYPE).
Definition gdt_cct_LogRequest_qos_tier_default : list Z :=
  le_bytes 4 (gdt_cct_QosTierConfiguration_QosTier_val gdt_cct_QosTierConfiguration_QosTier_DEFAULT).
Definition gdt_cct_QosTierConfiguration_log_source_default : list Z :=
  le_bytes 4 (0).

Definition gdt_cct_NetworkConnectionInfo_init_default : cinit := IStruct
  [IVal 0; IVal (gdt_cct_NetworkConnectionInfo_NetworkType_val gdt_cct_NetworkConnectionInfo_NetworkType_NONE); IVal 0; IVal (gdt_cct_NetworkConnectionInfo_MobileSubtype_val gdt_cct_NetworkConnectionInfo_MobileSubtype_UNKNOWN_MOBILE_SUBTYPE)].
Definition gdt_cct_NetworkConnectionInfo_init_zero : cinit := IStruct
  [IVal 0; IVal (gdt_cct_NetworkConnectionInfo_NetworkType_val _gdt_cct_NetworkConnectionInfo_NetworkType_MIN); IVal 0; IVal (gdt_cct_NetworkConnectionInfo_MobileSubtype_val _gdt_cct_NetworkConnectionInfo_MobileSubtype_MIN)].

Definition gdt_cct_LogEvent_init_default : cinit := IStruct
  [IVal 0; IVal 0; IVal 0; IVal 0; IVal 0; IVal 0; IVal 0; IVal 0; IVal 0; IVal 0; gdt_cct_NetworkConnectionInfo_init_default].
Definition gdt_cct_LogEvent_init_zero : cinit := IStruct
  [IVal 0; IVal 0; IVal 0; IVal 0; IVal 0; IVal 0; IVal 0; IVal 0; IVal 0; IVal 0; gdt_cct_NetworkConnectionInfo_init_zero].

Definition gdt_cct_IosClientInfo_init_default : cinit := IStruct
  [IVal 0; IVal 0; IVal 0; IVal 0; IVal 0; IVal 0; IVal 0].
Definition gdt_cct_IosClientInfo_init_zero : cinit := IStruct
  [IVal 0; IVal 0; IVal 0; IVal 0; IVal 0; IVal 0; IVal 0].

Definition gdt_cct_ClientInfo_init_default : cinit := IStruct
  [IVal 0; IVal (gdt_cct_ClientInfo_ClientType_val _gdt_cct_ClientInfo_ClientType_MIN); IVal 0; gdt_cct_IosClientInfo_init_default].
Definition gdt_cct_ClientInfo_init_zero : cinit := IStruct
  [IVal 0; IVal (gdt_cct_ClientInfo_ClientType_val _gdt_cct_ClientInfo_ClientType_MIN); IVal 0; gdt_cct_IosClientInfo_init_zero].

Definition gdt_cct_LogRequest_init_default : cinit := IStruct
  [IVal 0; gdt_cct_ClientInfo_init_default; IVal 0; IVal 0; IVal 0; IVal 0; IVal 0; IVal 0; IVal 0; IVal 0; IVal 0; IVal (gdt_cct_QosTierConfiguration_QosTier_val gdt_cct_QosTierConfiguration_QosTier_DEFAULT)].
Definition gdt_cct_LogRequest_init_zero : cinit := IStruct
  [IVal 0; gdt_cct_ClientInfo_init_zero; IVal 0; IVal 0; IVal 0; IVal 0; IVal 0; IVal 0; IVal 0; IVal 0; IVal 0; IVal (gdt_cct_QosTierConfiguration_QosTier_val _gdt_cct_QosTierConfiguration_QosTier_MIN)].

Definition gdt_cct_BatchedLogRequest_init_default : cinit := IStruct
  [IVal 0; IVal 0].
Definition gdt_cct_BatchedLogRequest_init_zero : cinit := IStruct
  [IVal 0; IVal 0].

Definition gdt_cct_QosTierConfiguration_init_default : cinit := IStruct
  [IVal 0; IVal (gdt_cct_QosTierConfiguration_QosTier_val _gdt_cct_QosTierConfiguration_QosTier_MIN); IVal 0; IVal 0].
Definition gdt_cct_QosTierConfiguration_init_zero : cinit := IStruct
  [IVal 0; IVal (gdt_cct_QosTierConfiguration_QosTier_val _gdt_cct_QosTierConfiguration_QosTier_MIN); IVal 0; IVal 0].

Definition gdt_cct_QosTiersOverride_init_default : cinit := IStruct
  [IVal 0; IVal 0; IVal 0; IVal 0].
Definition gdt_cct_QosTiersOverride_init_zero : cinit := IStruct
  [IVal 0; IVal 0; IVal 0; IVal 0].

Definition gdt_cct_LogResponse_init_default : cinit := IStruct
  [IVal 0; IVal 0; IVal 0; gdt_cct_QosTiersOverride_init_default].
Definition gdt_cct_LogResponse_init_zero : cinit := IStruct
  [IVal 0; IVal 0; IVal 0; gdt_cct_QosTiersOverride_init_zero].

(** * Field tags *)

Definition gdt_cct_BatchedLogRequest_log_request_tag : Z := 1.
Definition gdt_cct_IosClientInfo_os_major_version_tag : Z := 3.
Definition gdt_cct_IosClientInfo_os_full_version_tag : Z := 4.
Definition gdt_cct_IosClientInfo_application_build_tag : Z := 5.
Definition gdt_cct_IosClientInfo_country_tag : Z := 6.
Definition gdt_cct_IosClientInfo_model_tag : Z := 7.
Definition gdt_cct_IosClientInfo_language_code_tag : Z := 8.
Definition gdt_cct_IosClientInfo_application_bundle_id_tag : Z := 11.
Definition gdt_cct_ClientInfo_client_type_tag : Z := 1.
Definition gdt_cct_ClientInfo_ios_client_info_tag : Z := 4.
Definition gdt_cct_NetworkConnectionInfo_network_type_tag : Z := 1.
Definition gdt_cct_NetworkConnectionInfo_mobile_subtype_tag : Z := 2.
Definition gdt_cct_QosTierConfiguration_qos_tier_tag : Z := 2.
Definition gdt_cct_QosTierConfiguration_log_source_tag : Z := 3.
Definition gdt_cct_QosTiersOverride_qos_tier_configuration_tag : Z := 1.
Definition gdt_cct_QosTiersOverride_qos_tier_fingerprint_tag : Z := 2.
Definition gdt_cct_LogEvent_event_time_ms_tag : Z := 1.
Definition gdt_cct_LogEvent_event_code_tag : Z := 11.
Definition gdt_cct_LogEvent_event_uptime_ms_tag : Z := 17.
Definition gdt_cct_LogEvent_source_extension_tag : Z := 6.
Definition gdt_cct_LogEvent_timezone_offset_seconds_tag : Z := 15.
Definition gdt_cct_LogEvent_network_connection_info_tag : Z := 23.
Definition gdt_cct_LogRequest_request_time_ms_tag : Z := 4.
Definition gdt_cct_LogRequest_request_uptime_ms_tag : Z := 8.
Definition gdt_cct_LogRequest_client_info_tag : Z := 1.
Definition gdt_cct_LogRequest_log_source_tag : Z := 2.
Definition gdt_cct_LogRequest_log_event_tag : Z := 3.
Definition gdt_cct_LogRequest_qos_tier_tag : Z := 9.
Definition gdt_cct_LogResponse_next_request_wait_millis_tag : Z := 1.
Definition gdt_cct_LogResponse_qos_tier_tag : Z := 3.

(** * Descriptors *)

Definition gdt_cct_NetworkConnectionInfo_fields : list pb_field_t :=
  [PB_FIELD 1 ENUM OPTIONAL STATIC FIRST gdt_cct_NetworkConnectionInfo "network_type" "network_type" (PtrData gdt_cct_NetworkConnectionInfo_network_type_default);
   PB_FIELD 2 UENUM OPTIONAL STATIC OTHER gdt_cct_NetworkConnectionInfo "mobile_subtype" "network_type" (PtrData gdt_cct_NetworkConnectionInfo_mobile_subtype_default);
   PB_LAST_FIELD].

Definition gdt_cct_LogEvent_fields : list pb_field_t :=
  [PB_FIELD 1 INT64 OPTIONAL STATIC FIRST gdt_cct_LogEvent "event_time_ms" "event_time_ms" PtrNull;
   PB_FIELD 6 BYTES OPTIONAL POINTER OTHER gdt_cct_LogEvent "source_extension" "event_time_ms" PtrNull;
   PB_FIELD 11 INT32 OPTIONAL STATIC OTHER gdt_cct_LogEvent "event_code" "source_extension" PtrNull;
   PB_FIELD 15 SINT64 OPTIONAL STATIC OTHER gdt_cct_LogEvent "timezone_offset_seconds" "event_code" PtrNull;
   PB_FIELD 17 INT64 OPTIONAL STATIC OTHER gdt_cct_LogEvent "event_uptime_ms" "timezone_offset_seconds" PtrNull;
   PB_FIELD 23 MESSAGE OPTIONAL STATIC OTHER gdt_cct_LogEvent "network_connection_info" "event_uptime_ms" (PtrFields gdt_cct_NetworkConnectionInfo_fields);
   PB_LAST_FIELD].

Definition gdt_cct_IosClientInfo_fields : list pb_field_t :=
  [PB_FIELD 3 BYTES OPTIONAL POINTER FIRST gdt_cct_IosClientInfo "os_major_version" "os_major_version" PtrNull;
   PB_FIELD 4 BYTES OPTIONAL POINTER OTHER gdt_cct_IosClientInfo "os_full_version" "os_major_version" PtrNull;
   PB_FIELD 5 BYTES OPTIONAL POINTER OTHER gdt_cct_IosClientInfo "application_build" "os_full_version" PtrNull;
   PB_FIELD 6 BYTES OPTIONAL POINTER OTHER gdt_cct_IosClientInfo "country" "application_build" PtrNull;
   PB_FIELD 7 BYTES OPTIONAL POINTER OTHER gdt_cct_IosClientInfo "model" "country" PtrNull;
   PB_FIELD 8 BYTES OPTIONAL POINTER OTHER gdt_cct_IosClientInfo "language_code" "model" PtrNull;
   PB_FIELD 11 BYTES OPTIONAL POINTER OTHER gdt_cct_IosClientInfo "application_bundle_id" "language_code" PtrNull;
   PB_LAST_FIELD].

Definition gdt_cct_ClientInfo_fields : list pb_field_t :=
  [PB_FIELD 1 UENUM OPTIONAL STATIC FIRST gdt_cct_ClientInfo "client_type" "client_type" PtrNull;
   PB_FIELD 4 MESSAGE OPTIONAL STATIC OTHER gdt_cct_ClientInfo "ios_client_info" "client_type" (PtrFields gdt_cct_IosClientInfo_fields);
   PB_LAST_FIELD].

Definition gdt_cct_LogRequest_fields : list pb_field_t :=
  [PB_FIELD 1 MESSAGE OPTIONAL STATIC FIRST gdt_cct_LogRequest "client_info" "client_info" (PtrFields gdt_cct_ClientInfo_fields);
   PB_FIELD 2 INT32 OPTIONAL STATIC OTHER gdt_cct_LogRequest "log_source" "client_info" PtrNull;
   PB_FIELD 3 MESSAGE REPEATED POINTER OTHER gdt_cct_LogRequest "log_event" "log_source" (PtrFields gdt_cct_LogEvent_fields);
   PB_FIELD 4 INT64 OPTIONAL STATIC OTHER gdt_cct_LogRequest "request_time_ms" "log_event" PtrNull;
   PB_FIELD 8 INT64 OPTIONAL STATIC OTHER gdt_cct_LogRequest "request_uptime_ms" "request_time_ms" PtrNull;
   PB_FIELD 9 UENUM OPTIONAL STATIC OTHER gdt_cct_LogRequest "qos_tier" "request_uptime_ms" (PtrData gdt_cct_LogRequest_qos_tier_default);
   PB_LAST_FIELD].

Definition gdt_cct_BatchedLogRequest_fields : list pb_field_t :=
  [PB_FIELD 1 MESSAGE REPEATED POINTER FIRST gdt_cct_BatchedLogRequest "log_request" "log_request" (PtrFields gdt_cct_LogRequest_fields);
   PB_LAST_FIELD].

Definition gdt_cct_QosTierConfiguration_fields : list pb_field_t :=
  [PB_FIELD 2 UENUM OPTIONAL STATIC FIRST gdt_cct_QosTierConfiguration "qos_tier" "qos_tier" PtrNull;
   PB_FIELD 3 INT32 OPTIONAL STATIC OTHER gdt_cct_QosTierConfiguration "log_source" "qos_tier" (PtrData gdt_cct_QosTierConfiguration_log_source_default);
   PB_LAST_FIELD].

Definition gdt_cct_QosTiersOverride_fields : list pb_field_t :=
  [PB_FIELD 1 MESSAGE REPEATED POINTER FIRST gdt_cct_QosTiersOverride "qos_tier_configuration" "qos_tier_configuration" (PtrFields gdt_cct_QosTierConfiguration_fields);
   PB_FIELD 2 INT64 OPTIONAL STATIC OTHER gdt_cct_QosTiersOverride "qos_tier_fingerprint" "qos_tier_configuration" PtrNull;
   PB_LAST_FIELD].

Definition gdt_cct_LogResponse_fields : list pb_field_t :=
  [PB_FIELD 1 INT64 OPTIONAL STATIC FIRST gdt_cct_LogResponse "next_request_wait_millis" "next_request_wait_millis" PtrNull;
   PB_FIELD 3 MESSAGE OPTIONAL STATIC OTHER gdt_cct_LogResponse "qos_tier" "next_request_wait_millis" (PtrFields gdt_cct_QosTiersOverride_fields);
   PB_LAST_FIELD].

(** Maximum encoded sizes, where known. *)
Definition gdt_cct_NetworkConnectionInfo_size : Z := 13.
Definition gdt_cct_QosTierConfiguration_size : Z := 13.
