(* ===== verification/FirebaseCore.v ===== *)
(** The generated descriptor of the Firebase diagnostics message,
    [firebasecore.nanopb.h] and [firebasecore.nanopb.c]. *)
From stdpp Require Import base list numbers option strings.
From S2P Require Import Prelude Machine PbTypes PbCommon ProtoLayout.
Open Scope Z_scope.

(** * Enumerations *)

Inductive logs_proto_mobilesdk_ios_ICoreConfiguration_ConfigurationType :=
  | logs_proto_mobilesdk_ios_ICoreConfiguration_ConfigurationType_UNKNOWN_CONFIGURATION_TYPE
  | logs_proto_mobilesdk_ios_ICoreConfiguration_ConfigurationType_CORE
  | logs_proto_mobilesdk_ios_ICoreConfiguration_ConfigurationType_SDK.

Definition logs_proto_mobilesdk_ios_ICoreConfiguration_ConfigurationType_val (e : logs_proto_mobilesdk_ios_ICoreConfiguration_ConfigurationType) : Z :=
  match e with
  | logs_proto_mobilesdk_ios_ICoreConfiguration_ConfigurationType_UNKNOWN_CONFIGURATION_TYPE => 0
  | logs_proto_mobilesdk_ios_ICoreConfiguration_ConfigurationType_CORE => 1
  | logs_proto_mobilesdk_ios_ICoreConfiguration_ConfigurationType_SDK => 2
  end.

(** Every value of the enumeration, in declaration order. *)
Definition logs_proto_mobilesdk_ios_ICoreConfiguration_ConfigurationType_all : list logs_proto_mobilesdk_ios_ICoreConfiguration_ConfigurationType :=
  [logs_proto_mobilesdk_ios_ICoreConfiguration_ConfigurationType_UNKNOWN_CONFIGURATION_TYPE;
   logs_proto_mobilesdk_ios_ICoreConfiguration_ConfigurationType_CORE;
   logs_proto_mobilesdk_ios_ICoreConfiguration_ConfigurationType_SDK].

Definition _logs_proto_mobilesdk_ios_ICoreConfiguration_ConfigurationType_MIN : logs_proto_mobilesdk_ios_ICoreConfiguration_ConfigurationType := logs_proto_mobilesdk_ios_ICoreConfiguration_ConfigurationType_UNKNOWN_CONFIGURATION_TYPE.
Definition _logs_proto_mobilesdk_ios_ICoreConfiguration_ConfigurationType_MAX : logs_proto_mobilesdk_ios_ICoreConfiguration_ConfigurationType := logs_proto_mobilesdk_ios_ICoreConfiguration_ConfigurationType_SDK.
Definition _logs_proto_mobilesdk_ios_ICoreConfiguration_ConfigurationType_ARRAYSIZE : Z := logs_proto_mobilesdk_ios_ICoreConfiguration_ConfigurationType_val _logs_proto_mobilesdk_ios_ICoreConfiguration_ConfigurationType_MAX + 1.

Inductive logs_proto_mobilesdk_ios_ICoreConfiguration_BuildType :=
  | logs_proto_mobilesdk_ios_ICoreConfiguration_BuildType_UNKNOWN_BUILD_TYPE
  | logs_proto_mobilesdk_ios_ICoreConfiguration_BuildType_INTERNAL
  | logs_proto_mobilesdk_ios_ICoreConfiguration_BuildType_EAP
  | logs_proto_mobilesdk_ios_ICoreConfiguration_BuildType_PROD.

Definition logs_proto_mobilesdk_ios_ICoreConfiguration_BuildType_val (e : logs_proto_mobilesdk_ios_ICoreConfiguration_BuildType) : Z :=
  match e with
  | logs_proto_mobilesdk_ios_ICoreConfiguration_BuildType_UNKNOWN_BUILD_TYPE => 0
  | logs_proto_mobilesdk_ios_ICoreConfiguration_BuildType_INTERNAL => 1
  | logs_proto_mobilesdk_ios_ICoreConfiguration_BuildType_EAP => 2
  | logs_proto_mobilesdk_ios_ICoreConfiguration_BuildType_PROD => 3
  end.

(** Every value of the enumeration, in declaration order. *)
Definition logs_proto_mobilesdk_ios_ICoreConfiguration_BuildType_all : list logs_proto_mobilesdk_ios_ICoreConfiguration_BuildType :=
  [logs_proto_mobilesdk_ios_ICoreConfiguration_BuildType_UNKNOWN_BUILD_TYPE;
   logs_proto_mobilesdk_ios_ICoreConfiguration_BuildType_INTERNAL;
   logs_proto_mobilesdk_ios_ICoreConfiguration_BuildType_EAP;
   logs_proto_mobilesdk_ios_ICoreConfiguration_BuildType_PROD].

Definition _logs_proto_mobilesdk_ios_ICoreConfiguration_BuildType_MIN : logs_proto_mobilesdk_ios_ICoreConfiguration_BuildType := logs_proto_mobilesdk_ios_ICoreConfiguration_BuildType_UNKNOWN_BUILD_TYPE.
Definition _logs_proto_mobilesdk_ios_ICoreConfiguration_BuildType_MAX : logs_proto_mobilesdk_ios_ICoreConfiguration_BuildType := logs_proto_mobilesdk_ios_ICoreConfiguration_BuildType_PROD.
Definition _logs_proto_mobilesdk_ios_ICoreConfiguration_BuildType_ARRAYSIZE : Z := logs_proto_mobilesdk_ios_ICoreConfiguration_BuildType_val _logs_proto_mobilesdk_ios_ICoreConfiguration_BuildType_MAX + 1.

Inductive logs_proto_mobilesdk_ios_ICoreConfiguration_ServiceType :=
  | logs_proto_mobilesdk_ios_ICoreConfiguration_ServiceType_UNKNOWN_SDK_SERVICE
  | logs_proto_mobilesdk_ios_ICoreConfiguration_ServiceType_ICORE
  | logs_proto_mobilesdk_ios_ICoreConfiguration_ServiceType_ADMOB
  | logs_proto_mobilesdk_ios_ICoreConfiguration_ServiceType_APP_INVITE
  | logs_proto_mobilesdk_ios_ICoreConfiguration_ServiceType_SIGN_IN
  | logs_proto_mobilesdk_ios_ICoreConfiguration_ServiceType_GCM
  | logs_proto_mobilesdk_ios_ICoreConfiguration_ServiceType_MAPS
  | logs_proto_mobilesdk_ios_ICoreConfiguration_ServiceType_SCION
  | logs_proto_mobilesdk_ios_ICoreConfiguration_ServiceType_ANALYTICS
  | logs_proto_mobilesdk_ios_ICoreConfiguration_ServiceType_APP_INDEXING
  | logs_proto_mobilesdk_ios_ICoreConfiguration_ServiceType_CONFIG
  | logs_proto_mobilesdk_ios_ICoreConfiguration_ServiceType_DURABLE_DEEP_LINKS
  | logs_proto_mobilesdk_ios_ICoreConfiguration_ServiceType_CRASH
  | logs_proto_mobilesdk_ios_ICoreConfiguration_ServiceType_AUTH
  | logs_proto_mobilesdk_ios_ICoreConfiguration_ServiceType_DATABASE
  | logs_proto_mobilesdk_ios_ICoreConfiguration_ServiceType_STORAGE
  | logs_proto_mobilesdk_ios_ICoreConfiguration_ServiceType_MESSAGING
  | logs_proto_mobilesdk_ios_ICoreConfiguration_ServiceType_MEASUREMENT
  | logs_proto_mobilesdk_ios_ICoreConfiguration_ServiceType_REMOTE_CONFIG
  | logs_proto_mobilesdk_ios_ICoreConfiguration_ServiceType_DYNAMIC_LINKS
  | logs_proto_mobilesdk_ios_ICoreConfiguration_ServiceType_INVITES
  | logs_proto_mobilesdk_ios_ICoreConfiguration_ServiceType_AUTH_UI
  | logs_proto_mobilesdk_ios_ICoreConfiguration_ServiceType_FIRESTORE
  | logs_proto_mobilesdk_ios_ICoreConfiguration_ServiceType_PERFORMANCE
  | logs_proto_mobilesdk_ios_ICoreConfiguration_ServiceType_ML_VISION_ON_DEVICE_FACE
  | logs_proto_mobilesdk_ios_ICoreConfiguration_ServiceType_ML_VISION_ON_DEVICE_BARCODE
  | logs_proto_mobilesdk_ios_ICoreConfiguration_ServiceType_ML_VISION_ON_DEVICE_TEXT
  | logs_proto_mobilesdk_ios_ICoreConfiguration_ServiceType_ML_VISION_ON_DEVICE_LABEL
  | logs_proto_mobilesdk_ios_ICoreConfiguration_ServiceType_ML_MODEL_INTERPRETER
  | logs_proto_mobilesdk_ios_ICoreConfiguration_ServiceType_IN_APP_MESSAGING
  | logs_proto_mobilesdk_ios_ICoreConfiguration_ServiceType_FUNCTIONS
  | logs_proto_mobilesdk_ios_ICoreConfiguration_ServiceType_ML_NATURAL_LANGUAGE
  | logs_proto_mobilesdk_ios_ICoreConfiguration_ServiceType_ML_VISION_ON_DEVICE_AUTOML
  | logs_proto_mobilesdk_ios_ICoreConfiguration_ServiceType_ML_VISION_ON_DEVICE_OBJECT_DETECTION.

Definition logs_proto_mobilesdk_ios_ICoreConfiguration_ServiceType_val (e : logs_proto_mobilesdk_ios_ICoreConfiguration_ServiceType) : Z :=
  match e with
  | logs_proto_mobilesdk_ios_ICoreConfiguration_ServiceType_UNKNOWN_SDK_SERVICE => 0
  | logs_proto_mobilesdk_ios_ICoreConfiguration_ServiceType_ICORE => 1
  | logs_proto_mobilesdk_ios_ICoreConfiguration_ServiceType_ADMOB => 2
  | logs_proto_mobilesdk_ios_ICoreConfiguration_ServiceType_APP_INVITE => 3
  | logs_proto_mobilesdk_ios_ICoreConfiguration_ServiceType_SIGN_IN => 5
  | logs_proto_mobilesdk_ios_ICoreConfiguration_ServiceType_GCM => 6
  | logs_proto_mobilesdk_ios_ICoreConfiguration_ServiceType_MAPS => 7
  | logs_proto_mobilesdk_ios_ICoreConfiguration_ServiceType_SCION => 8
  | logs_proto_mobilesdk_ios_ICoreConfiguration_ServiceType_ANALYTICS => 9
  | logs_proto_mobilesdk_ios_ICoreConfiguration_ServiceType_APP_INDEXING => 10
  | logs_proto_mobilesdk_ios_ICoreConfiguration_ServiceType_CONFIG => 11
  | logs_proto_mobilesdk_ios_ICoreConfiguration_ServiceType_DURABLE_DEEP_LINKS => 12
  | logs_proto_mobilesdk_ios_ICoreConfiguration_ServiceType_CRASH => 13
  | logs_proto_mobilesdk_ios_ICoreConfiguration_ServiceType_AUTH => 14
  | logs_proto_mobilesdk_ios_ICoreConfiguration_ServiceType_DATABASE => 15
  | logs_proto_mobilesdk_ios_ICoreConfiguration_ServiceType_STORAGE => 16
  | logs_proto_mobilesdk_ios_ICoreConfiguration_ServiceType_MESSAGING => 17
  | logs_proto_mobilesdk_ios_ICoreConfiguration_ServiceType_MEASUREMENT => 18
  | logs_proto_mobilesdk_ios_ICoreConfiguration_ServiceType_REMOTE_CONFIG => 19
  | logs_proto_mobilesdk_ios_ICoreConfiguration_ServiceType_DYNAMIC_LINKS => 20
  | logs_proto_mobilesdk_ios_ICoreConfiguration_ServiceType_INVITES => 21
  | logs_proto_mobilesdk_ios_ICoreConfiguration_ServiceType_AUTH_UI => 22
  | logs_proto_mobilesdk_ios_ICoreConfiguration_ServiceType_FIRESTORE => 23
  | logs_proto_mobilesdk_ios_ICoreConfiguration_ServiceType_PERFORMANCE => 24
  | logs_proto_mobilesdk_ios_ICoreConfiguration_ServiceType_ML_VISION_ON_DEVICE_FACE => 26
  | logs_proto_mobilesdk_ios_ICoreConfiguration_ServiceType_ML_VISION_ON_DEVICE_BARCODE => 27
  | logs_proto_mobilesdk_ios_ICoreConfiguration_ServiceType_ML_VISION_ON_DEVICE_TEXT => 28
  | logs_proto_mobilesdk_ios_ICoreConfiguration_ServiceType_ML_VISION_ON_DEVICE_LABEL => 29
  | logs_proto_mobilesdk_ios_ICoreConfiguration_ServiceType_ML_MODEL_INTERPRETER => 30
  | logs_proto_mobilesdk_ios_ICoreConfiguration_ServiceType_IN_APP_MESSAGING => 31
  | logs_proto_mobilesdk_ios_ICoreConfiguration_ServiceType_FUNCTIONS => 32
  | logs_proto_mobilesdk_ios_ICoreConfiguration_ServiceType_ML_NATURAL_LANGUAGE => 33
  | logs_proto_mobilesdk_ios_ICoreConfiguration_ServiceType_ML_VISION_ON_DEVICE_AUTOML => 34
  | logs_proto_mobilesdk_ios_ICoreConfiguration_ServiceType_ML_VISION_ON_DEVICE_OBJECT_DETECTION => 35
  end.

(** Every value of the enumeration, in declaration order. *)
Definition logs_proto_mobilesdk_ios_ICoreConfiguration_ServiceType_all : list logs_proto_mobilesdk_ios_ICoreConfiguration_ServiceType :=
  [logs_proto_mobilesdk_ios_ICoreConfiguration_ServiceType_UNKNOWN_SDK_SERVICE;
   logs_proto_mobilesdk_ios_ICoreConfiguration_ServiceType_ICORE;
   logs_proto_mobilesdk_ios_ICoreConfiguration_ServiceType_ADMOB;
   logs_proto_mobilesdk_ios_ICoreConfiguration_ServiceType_APP_INVITE;
   logs_proto_mobilesdk_ios_ICoreConfiguration_ServiceType_SIGN_IN;
   logs_proto_mobilesdk_ios_ICoreConfiguration_ServiceType_GCM;
   logs_proto_mobilesdk_ios_ICoreConfiguration_ServiceType_MAPS;
   logs_proto_mobilesdk_ios_ICoreConfiguration_ServiceType_SCION;
   logs_proto_mobilesdk_ios_ICoreConfiguration_ServiceType_ANALYTICS;
   logs_proto_mobilesdk_ios_ICoreConfiguration_ServiceType_APP_INDEXING;
   logs_proto_mobilesdk_ios_ICoreConfiguration_ServiceType_CONFIG;
   logs_proto_mobilesdk_ios_ICoreConfiguration_ServiceType_DURABLE_DEEP_LINKS;
   logs_proto_mobilesdk_ios_ICoreConfiguration_ServiceType_CRASH;
   logs_proto_mobilesdk_ios_ICoreConfiguration_ServiceType_AUTH;
   logs_proto_mobilesdk_ios_ICoreConfiguration_ServiceType_DATABASE;
   logs_proto_mobilesdk_ios_ICoreConfiguration_ServiceType_STORAGE;
   logs_proto_mobilesdk_ios_ICoreConfiguration_ServiceType_MESSAGING;
   logs_proto_mobilesdk_ios_ICoreConfiguration_ServiceType_MEASUREMENT;
   logs_proto_mobilesdk_ios_ICoreConfiguration_ServiceType_REMOTE_CONFIG;
   logs_proto_mobilesdk_ios_ICoreConfiguration_ServiceType_DYNAMIC_LINKS;
   logs_proto_mobilesdk_ios_ICoreConfiguration_ServiceType_INVITES;
   logs_proto_mobilesdk_ios_ICoreConfiguration_ServiceType_AUTH_UI;
   logs_proto_mobilesdk_ios_ICoreConfiguration_ServiceType_FIRESTORE;
   logs_proto_mobilesdk_ios_ICoreConfiguration_ServiceType_PERFORMANCE;
   logs_proto_mobilesdk_ios_ICoreConfiguration_ServiceType_ML_VISION_ON_DEVICE_FACE;
   logs_proto_mobilesdk_ios_ICoreConfiguration_ServiceType_ML_VISION_ON_DEVICE_BARCODE;
   logs_proto_mobilesdk_ios_ICoreConfiguration_ServiceType_ML_VISION_ON_DEVICE_TEXT;
   logs_proto_mobilesdk_ios_ICoreConfiguration_ServiceType_ML_VISION_ON_DEVICE_LABEL;
   logs_proto_mobilesdk_ios_ICoreConfiguration_ServiceType_ML_MODEL_INTERPRETER;
   logs_proto_mobilesdk_ios_ICoreConfiguration_ServiceType_IN_APP_MESSAGING;
   logs_proto_mobilesdk_ios_ICoreConfiguration_ServiceType_FUNCTIONS;
   logs_proto_mobilesdk_ios_ICoreConfiguration_ServiceType_ML_NATURAL_LANGUAGE;
   logs_proto_mobilesdk_ios_ICoreConfiguration_ServiceType_ML_VISION_ON_DEVICE_AUTOML;
   logs_proto_mobilesdk_ios_ICoreConfiguration_ServiceType_ML_VISION_ON_DEVICE_OBJECT_DETECTION].

Definition _logs_proto_mobilesdk_ios_ICoreConfiguration_ServiceType_MIN : logs_proto_mobilesdk_ios_ICoreConfiguration_ServiceType := logs_proto_mobilesdk_ios_ICoreConfiguration_ServiceType_UNKNOWN_SDK_SERVICE.
Definition _logs_proto_mobilesdk_ios_ICoreConfiguration_ServiceType_MAX : logs_proto_mobilesdk_ios_ICoreConfiguration_ServiceType := logs_proto_mobilesdk_ios_ICoreConfiguration_ServiceType_ML_VISION_ON_DEVICE_OBJECT_DETECTION.
Definition _logs_proto_mobilesdk_ios_ICoreConfiguration_ServiceType_ARRAYSIZE : Z := logs_proto_mobilesdk_ios_ICoreConfiguration_ServiceType_val _logs_proto_mobilesdk_ios_ICoreConfiguration_ServiceType_MAX + 1.

Inductive logs_proto_mobilesdk_ios_ICoreConfiguration_PodName :=
  | logs_proto_mobilesdk_ios_ICoreConfiguration_PodName_UNKNOWN_POD_NAME
  | logs_proto_mobilesdk_ios_ICoreConfiguration_PodName_GOOGLE
  | logs_proto_mobilesdk_ios_ICoreConfiguration_PodName_FIREBASE.

Definition logs_proto_mobilesdk_ios_ICoreConfiguration_PodName_val (e : logs_proto_mobilesdk_ios_ICoreConfiguration_PodName) : Z :=
  match e with
  | logs_proto_mobilesdk_ios_ICoreConfiguration_PodName_UNKNOWN_POD_NAME => 0
  | logs_proto_mobilesdk_ios_ICoreConfiguration_PodName_GOOGLE => 1
  | logs_proto_mobilesdk_ios_ICoreConfiguration_PodName_FIREBASE => 2
  end.

(** Every value of the enumeration, in declaration order. *)
Definition logs_proto_mobilesdk_ios_ICoreConfiguration_PodName_all : list logs_proto_mobilesdk_ios_ICoreConfiguration_PodName :=
  [logs_proto_mobilesdk_ios_ICoreConfiguration_PodName_UNKNOWN_POD_NAME;
   logs_proto_mobilesdk_ios_ICoreConfiguration_PodName_GOOGLE;
   logs_proto_mobilesdk_ios_ICoreConfiguration_PodName_FIREBASE].

Definition _logs_proto_mobilesdk_ios_ICoreConfiguration_PodName_MIN : logs_proto_mobilesdk_ios_ICoreConfiguration_PodName := logs_proto_mobilesdk_ios_ICoreConfiguration_PodName_UNKNOWN_POD_NAME.
Definition _logs_proto_mobilesdk_ios_ICoreConfiguration_PodName_MAX : logs_proto_mobilesdk_ios_ICoreConfiguration_PodName := logs_proto_mobilesdk_ios_ICoreConfiguration_PodName_FIREBASE.
Definition _logs_proto_mobilesdk_ios_ICoreConfiguration_PodName_ARRAYSIZE : Z := logs_proto_mobilesdk_ios_ICoreConfiguration_PodName_val _logs_proto_mobilesdk_ios_ICoreConfiguration_PodName_MAX + 1.

Inductive logs_proto_mobilesdk_ios_ICoreConfiguration_DeploymentType :=
  | logs_proto_mobilesdk_ios_ICoreConfiguration_DeploymentType_UNKNOWN
  | logs_proto_mobilesdk_ios_ICoreConfiguration_DeploymentType_COCOAPODS
  | logs_proto_mobilesdk_ios_ICoreConfiguration_DeploymentType_ZIP_FILE
  | logs_proto_mobilesdk_ios_ICoreConfiguration_DeploymentType_CARTHAGE
  | logs_proto_mobilesdk_ios_ICoreConfiguration_DeploymentType_SPM.

Definition logs_proto_mobilesdk_ios_ICoreConfiguration_DeploymentType_val (e : logs_proto_mobilesdk_ios_ICoreConfiguration_DeploymentType) : Z :=
  match e with
  | logs_proto_mobilesdk_ios_ICoreConfiguration_DeploymentType_UNKNOWN => 0
  | logs_proto_mobilesdk_ios_ICoreConfiguration_DeploymentType_COCOAPODS => 1
  | logs_proto_mobilesdk_ios_ICoreConfiguration_DeploymentType_ZIP_FILE => 2
  | logs_proto_mobilesdk_ios_ICoreConfiguration_DeploymentType_CARTHAGE => 3
  | logs_proto_mobilesdk_ios_ICoreConfiguration_DeploymentType_SPM => 4
  end.

(** Every value of the enumeration, in declaration order. *)
Definition logs_proto_mobilesdk_ios_ICoreConfiguration_DeploymentType_all : list logs_proto_mobilesdk_ios_ICoreConfiguration_DeploymentType :=
  [logs_proto_mobilesdk_ios_ICoreConfiguration_DeploymentType_UNKNOWN;
   logs_proto_mobilesdk_ios_ICoreConfiguration_DeploymentType_COCOAPODS;
   logs_proto_mobilesdk_ios_ICoreConfiguration_DeploymentType_ZIP_FILE;
   logs_proto_mobilesdk_ios_ICoreConfiguration_DeploymentType_CARTHAGE;
   logs_proto_mobilesdk_ios_ICoreConfiguration_DeploymentType_SPM].

Definition _logs_proto_mobilesdk_ios_ICoreConfiguration_DeploymentType_MIN : logs_proto_mobilesdk_ios_ICoreConfiguration_DeploymentType := logs_proto_mobilesdk_ios_ICoreConfiguration_DeploymentType_UNKNOWN.
Definition _logs_proto_mobilesdk_ios_ICoreConfiguration_DeploymentType_MAX : logs_proto_mobilesdk_ios_ICoreConfiguration_DeploymentType := logs_proto_mobilesdk_ios_ICoreConfiguration_DeploymentType_SPM.
Definition _logs_proto_mobilesdk_ios_ICoreConfiguration_DeploymentType_ARRAYSIZE : Z := logs_proto_mobilesdk_ios_ICoreConfiguration_DeploymentType_val _logs_proto_mobilesdk_ios_ICoreConfiguration_DeploymentType_MAX + 1.

(** * Structure *)

Definition logs_proto_mobilesdk_ios_ICoreConfiguration : ctype := CStruct
  [("has_configuration_type", CT_bool);
   ("configuration_type", CT_enum);
   ("sdk_service_installed_count", CT_uint32);
   ("sdk_service_installed", CPtrTo CT_enum);
   ("device_model", CPtrTo CT_bytes_array);
   ("app_id", CPtrTo CT_bytes_array);
   ("bundle_id", CPtrTo CT_bytes_array);
   ("has_pod_name", CT_bool);
   ("pod_name", CT_enum);
   ("icore_version", CPtrTo CT_bytes_array);
   ("sdk_version", CPtrTo CT_bytes_array);
   ("has_sdk_name", CT_bool);
   ("sdk_name", CT_enum);
   ("has_app_count", CT_bool);
   ("app_count", CT_int32);
   ("os_version", CPtrTo CT_bytes_array);
   ("min_supported_ios_version", CPtrTo CT_bytes_array);
   ("has_use_default_app", CT_bool);
   ("use_default_app", CT_bool);
   ("has_deployed_in_app_store", CT_bool);
   ("deployed_in_app_store", CT_bool);
   ("has_dynamic_framework_count", CT_bool);
   ("dynamic_framework_count", CT_int32);
   ("apple_framework_version", CPtrTo CT_bytes_array);
   ("has_using_zip_file", CT_bool);
   ("using_zip_file", CT_bool);
   ("has_deployment_type", CT_bool);
   ("deployment_type", CT_enum);
   ("platform_info", CPtrTo CT_bytes_array);
   ("has_swizzling_enabled", CT_bool);
   ("swizzling_enabled", CT_bool);
   ("has_using_gdt", CT_bool);
   ("using_gdt", CT_bool)].

(** * Initialisers *)

Definition logs_proto_mobilesdk_ios_ICoreConfiguration_init_default : cinit := IStruct
  [IVal 0; IVal (logs_proto_mobilesdk_ios_ICoreConfiguration_ConfigurationType_val _logs_proto_mobilesdk_ios_ICoreConfiguration_ConfigurationType_MIN); IVal 0; IVal 0; IVal 0; IVal 0; IVal 0; IVal 0; IVal (logs_proto_mobilesdk_ios_ICoreConfiguration_PodName_val _logs_proto_mobilesdk_ios_ICoreConfiguration_PodName_MIN); IVal 0; IVal 0; IVal 0; IVal (logs_proto_mobilesdk_ios_ICoreConfiguration_ServiceType_val _logs_proto_mobilesdk_ios_ICoreConfiguration_ServiceType_MIN); IVal 0; IVal 0; IVal 0; IVal 0; IVal 0; IVal 0; IVal 0; IVal 0; IVal 0; IVal 0; IVal 0; IVal 0; IVal 0; IVal 0; IVal (logs_proto_mobilesdk_ios_ICoreConfiguration_DeploymentType_val _logs_proto_mobilesdk_ios_ICoreConfiguration_DeploymentType_MIN); IVal 0; IVal 0; IVal 0; IVal 0; IVal 0].
Definition logs_proto_mobilesdk_ios_ICoreConfiguration_init_zero : cinit := IStruct
  [IVal 0; IVal (logs_proto_mobilesdk_ios_ICoreConfiguration_ConfigurationType_val _logs_proto_mobilesdk_ios_ICoreConfiguration_ConfigurationType_MIN); IVal 0; IVal 0; IVal 0; IVal 0; IVal 0; IVal 0; IVal (logs_proto_mobilesdk_ios_ICoreConfiguration_PodName_val _logs_proto_mobilesdk_ios_ICoreConfiguration_PodName_MIN); IVal 0; IVal 0; IVal 0; IVal (logs_proto_mobilesdk_ios_ICoreConfiguration_ServiceType_val _logs_proto_mobilesdk_ios_ICoreConfiguration_ServiceType_MIN); IVal 0; IVal 0; IVal 0; IVal 0; IVal 0; IVal 0; IVal 0; IVal 0; IVal 0; IVal 0; IVal 0; IVal 0; IVal 0; IVal 0; IVal (logs_proto_mobilesdk_ios_ICoreConfiguration_DeploymentType_val _logs_proto_mobilesdk_ios_ICoreConfiguration_DeploymentType_MIN); IVal 0; IVal 0; IVal 0; IVal 0; IVal 0].

(** * Field tags *)

Definition logs_proto_mobilesdk_ios_ICoreConfiguration_pod_name_tag : Z := 16.
Definition logs_proto_mobilesdk_ios_ICoreConfiguration_configuration_type_tag : Z := 1.
Definition logs_proto_mobilesdk_ios_ICoreConfiguration_icore_version_tag : Z := 18.
Definition logs_proto_mobilesdk_ios_ICoreConfiguration_sdk_version_tag : Z := 19.
Definition logs_proto_mobilesdk_ios_ICoreConfiguration_sdk_service_installed_tag : Z := 7.
Definition logs_proto_mobilesdk_ios_ICoreConfiguration_sdk_name_tag : Z := 20.
Definition logs_proto_mobilesdk_ios_ICoreConfiguration_device_model_tag : Z := 9.
Definition logs_proto_mobilesdk_ios_ICoreConfiguration_os_version_tag : Z := 22.
Definition logs_proto_mobilesdk_ios_ICoreConfiguration_app_id_tag : Z := 10.
Definition logs_proto_mobilesdk_ios_ICoreConfiguration_bundle_id_tag : Z := 12.
Definition logs_proto_mobilesdk_ios_ICoreConfiguration_min_supported_ios_version_tag : Z := 24.
Definition logs_proto_mobilesdk_ios_ICoreConfiguration_use_default_app_tag : Z := 25.
Definition logs_proto_mobilesdk_ios_ICoreConfiguration_app_count_tag : Z := 21.
Definition logs_proto_mobilesdk_ios_ICoreConfiguration_deployed_in_app_store_tag : Z := 26.
Definition logs_proto_mobilesdk_ios_ICoreConfiguration_dynamic_framework_count_tag : Z := 27.
Definition logs_proto_mobilesdk_ios_ICoreConfiguration_apple_framework_version_tag : Z := 28.
Definition logs_proto_mobilesdk_ios_ICoreConfiguration_using_zip_file_tag : Z := 29.
Definition logs_proto_mobilesdk_ios_ICoreConfiguration_deployment_type_tag : Z := 30.
Definition logs_proto_mobilesdk_ios_ICoreConfiguration_platform_info_tag : Z := 31.
Definition logs_proto_mobilesdk_ios_ICoreConfiguration_swizzling_enabled_tag : Z := 33.
Definition logs_proto_mobilesdk_ios_ICoreConfiguration_using_gdt_tag : Z := 36.

(** * Descriptor *)

Definition logs_proto_mobilesdk_ios_ICoreConfiguration_fields : list pb_field_t :=
  [PB_FIELD 1 UENUM OPTIONAL STATIC FIRST logs_proto_mobilesdk_ios_ICoreConfiguration "configuration_type" "configuration_type" PtrNull;
   PB_FIELD 7 UENUM REPEATED POINTER OTHER logs_proto_mobilesdk_ios_ICoreConfiguration "sdk_service_installed" "configuration_type" PtrNull;
   PB_FIELD 9 BYTES OPTIONAL POINTER OTHER logs_proto_mobilesdk_ios_ICoreConfiguration "device_model" "sdk_service_installed" PtrNull;
   PB_FIELD 10 BYTES OPTIONAL POINTER OTHER logs_proto_mobilesdk_ios_ICoreConfiguration "app_id" "device_model" PtrNull;
   PB_FIELD 12 BYTES OPTIONAL POINTER OTHER logs_proto_mobilesdk_ios_ICoreConfiguration "bundle_id" "app_id" PtrNull;
   PB_FIELD 16 UENUM OPTIONAL STATIC OTHER logs_proto_mobilesdk_ios_ICoreConfiguration "pod_name" "bundle_id" PtrNull;
   PB_FIELD 18 BYTES OPTIONAL POINTER OTHER logs_proto_mobilesdk_ios_ICoreConfiguration "icore_version" "pod_name" PtrNull;
   PB_FIELD 19 BYTES OPTIONAL POINTER OTHER logs_proto_mobilesdk_ios_ICoreConfiguration "sdk_version" "icore_version" PtrNull;
   PB_FIELD 20 UENUM OPTIONAL STATIC OTHER logs_proto_mobilesdk_ios_ICoreConfiguration "sdk_name" "sdk_version" PtrNull;
   PB_FIELD 21 INT32 OPTIONAL STATIC OTHER logs_proto_mobilesdk_ios_ICoreConfiguration "app_count" "sdk_name" PtrNull;
   PB_FIELD 22 BYTES OPTIONAL POINTER OTHER logs_proto_mobilesdk_ios_ICoreConfiguration "os_version" "app_count" PtrNull;
   PB_FIELD 24 BYTES OPTIONAL POINTER OTHER logs_proto_mobilesdk_ios_ICoreConfiguration "min_supported_ios_version" "os_version" PtrNull;
   PB_FIELD 25 BOOL OPTIONAL STATIC OTHER logs_proto_mobilesdk_ios_ICoreConfiguration "use_default_app" "min_supported_ios_version" PtrNull;
   PB_FIELD 26 BOOL OPTIONAL STATIC OTHER logs_proto_mobilesdk_ios_ICoreConfiguration "deployed_in_app_store" "use_default_app" PtrNull;
   PB_FIELD 27 INT32 OPTIONAL STATIC OTHER logs_proto_mobilesdk_ios_ICoreConfiguration "dynamic_framework_count" "deployed_in_app_store" PtrNull;
   PB_FIELD 28 BYTES OPTIONAL POINTER OTHER logs_proto_mobilesdk_ios_ICoreConfiguration "apple_framework_version" "dynamic_framework_count" PtrNull;
   PB_FIELD 29 BOOL OPTIONAL STATIC OTHER logs_proto_mobilesdk_ios_ICoreConfiguration "using_zip_file" "apple_framework_version" PtrNull;
   PB_FIELD 30 UENUM OPTIONAL STATIC OTHER logs_proto_mobilesdk_ios_ICoreConfiguration "deployment_type" "using_zip_file" PtrNull;
   PB_FIELD 31 BYTES OPTIONAL POINTER OTHER logs_proto_mobilesdk_ios_ICoreConfiguration "platform_info" "deployment_type" PtrNull;
   PB_FIELD 33 BOOL OPTIONAL STATIC OTHER logs_proto_mobilesdk_ios_ICoreConfiguration "swizzling_enabled" "platform_info" PtrNull;
   PB_FIELD 36 BOOL OPTIONAL STATIC OTHER logs_proto_mobilesdk_ios_ICoreConfiguration "using_gdt" "swizzling_enabled" PtrNull;
   PB_LAST_FIELD].
