(* ===== verification/Base64.v ===== *)
(** Base64 as the WebSocket handshake uses it: [f_b64_ntop] and [f_b64_pton]
    of [fbase64.c]. *)
From stdpp Require Import base list list_numbers numbers option gmap.
From S2P Require Import Prelude Machine.
Open Scope Z_scope.
Open Scope c_scope.

(** [static const char Base64[]], as character codes. *)
Definition Base64 : list Z :=
  seqZ 65 26 ++ seqZ 97 26 ++ seqZ 48 10 ++ [43; 47].
Definition Pad64 : Z := 61.

(** [Base64[i]] *)
Definition base64_at (i : Z) : M Z :=
  match Base64 !! Z.to_nat i with Some c => ret c | None => fault end.

(** [strchr(Base64, ch) - Base64] *)
Fixpoint index_of (l : list Z) (ch i : Z) : option Z :=
  match l with
  | [] => None
  | c :: l' => if c =? ch then Some i else index_of l' ch (i + 1)
  end.
Definition base64_pos (ch : Z) : option Z := index_of Base64 ch 0.

(** [isspace] in the C locale. *)
Definition isspace (ch : Z) : bool := ((9 <=? ch) && (ch <=? 13)) || (ch =? 32).

(** * Encoding *)

(** The four digits of an input group. *)
Definition quads (input : Z * Z * Z) : Z * Z * Z * Z :=
  let '(i0, i1, i2) := input in
  (u8 (i0 ≫ 2),
   u8 ((Z.land i0 0x03 ≪ 4) + (i1 ≫ 4)),
   u8 ((Z.land i1 0x0f ≪ 2) + (i2 ≫ 6)),
   u8 (Z.land i2 0x3f)).

(** The while loop: the pointers and counts it leaves, or the return of -1. *)
Fixpoint ntop_loop (n : nat) (src srclength target targsize datalength : Z)
    : M (option (Z * Z * Z)) :=
  if 2 <? srclength then
    match n with
    | O => diverge
    | S n' =>
        let* i0 := load8 src in
        let* i1 := load8 (src + 1) in
        let* i2 := load8 (src + 2) in
        let '(o0, o1, o2, o3) := quads (i0, i1, i2) in
        if targsize <? u64 (datalength + 4) then ret None else
        let* c0 := base64_at o0 in store8 (target + datalength) c0 ;;
        let* c1 := base64_at o1 in store8 (target + (datalength + 1)) c1 ;;
        let* c2 := base64_at o2 in store8 (target + (datalength + 2)) c2 ;;
        let* c3 := base64_at o3 in store8 (target + (datalength + 3)) c3 ;;
        ntop_loop n' (src + 3) (srclength - 3) target targsize (datalength + 4)
    end
  else ret (Some (src, srclength, datalength)).

(** The rest of the input, one or two bytes, and padding. *)
Definition ntop_tail (src srclength target targsize datalength : Z) : M (option Z) :=
  if srclength =? 0 then ret (Some datalength) else
  let* i0 := load8 src in
  let* i1 := if 1 <? srclength then load8 (src + 1) else ret 0 in
  let '(o0, o1, o2, _) := quads (i0, i1, 0) in
  if targsize <? u64 (datalength + 4) then ret None else
  let* c0 := base64_at o0 in store8 (target + datalength) c0 ;;
  let* c1 := base64_at o1 in store8 (target + (datalength + 1)) c1 ;;
  let* c2 := if srclength =? 1 then ret Pad64 else base64_at o2 in
  store8 (target + (datalength + 2)) c2 ;;
  store8 (target + (datalength + 3)) Pad64 ;;
  ret (Some (datalength + 4)).

Definition f_b64_ntop (src srclength target targsize : Z) : M Z :=
  let* r := ntop_loop (Z.to_nat srclength) src srclength target targsize 0 in
  match r with
  | None => ret (-1)
  | Some (src, srclength, datalength) =>
      let* r := ntop_tail src srclength target targsize datalength in
      match r with
      | None => ret (-1)
      | Some datalength =>
          if targsize <=? datalength then ret (-1) else
          store8 (target + datalength) 0 ;;
          ret (s32 datalength)
      end
  end.

(** * Decoding *)

(** [target[i] |= v] *)
Definition or_store (a v : Z) : M unit := let* b := load8 a in store8 a (Z.lor b v).

(** The switch on the state, for the digit [d]: the new index and state, or
    the return of -1. *)
Definition pton_digit (target targsize tarindex state d : Z) : M (option (Z * Z)) :=
  let at_ i := target + i in
  if state =? 0 then
    if target =? NULL then ret (Some (tarindex, 1)) else
    if targsize <=? tarindex then ret None else
    store8 (at_ tarindex) (d ≪ 2) ;; ret (Some (tarindex, 1))
  else if state =? 1 then
    if target =? NULL then ret (Some (u32 (tarindex + 1), 2)) else
    if targsize <=? u32 (tarindex + 1) then ret None else
    or_store (at_ tarindex) (d ≫ 4) ;;
    store8 (at_ (u32 (tarindex + 1))) (Z.land d 0x0f ≪ 4) ;;
    ret (Some (u32 (tarindex + 1), 2))
  else if state =? 2 then
    if target =? NULL then ret (Some (u32 (tarindex + 1), 3)) else
    if targsize <=? u32 (tarindex + 1) then ret None else
    or_store (at_ tarindex) (d ≫ 2) ;;
    store8 (at_ (u32 (tarindex + 1))) (Z.land d 0x03 ≪ 6) ;;
    ret (Some (u32 (tarindex + 1), 3))
  else
    if target =? NULL then ret (Some (u32 (tarindex + 1), 0)) else
    if targsize <=? tarindex then ret None else
    or_store (at_ tarindex) d ;; ret (Some (u32 (tarindex + 1), 0)).

(** [ch = *src++]; [char] is signed. *)
Definition next_char (src : Z) : M Z := let* b := load8 src in ret (s8 b).

(** The while loop: the last character, the pointer after it, the index and
    the state. [n] bounds the characters read. *)
Fixpoint pton_loop (n : nat) (src target targsize tarindex state : Z)
    : M (option (Z * Z * Z * Z)) :=
  match n with
  | O => diverge
  | S n' =>
      let* ch := next_char src in
      let src := src + 1 in
      if ch =? 0 then ret (Some (ch, src, tarindex, state))
      else if isspace ch then pton_loop n' src target targsize tarindex state
      else if ch =? Pad64 then ret (Some (ch, src, tarindex, state))
      else match base64_pos ch with
           | None => ret None
           | Some d =>
               let* r := pton_digit target targsize tarindex state d in
               match r with
               | None => ret None
               | Some (tarindex, state) => pton_loop n' src target targsize tarindex state
               end
           end
  end.

(** [for (; ch != '\0'; ch = *src++) if (!isspace(ch)) break;]: the character
    and the pointer after the loop. *)
Fixpoint skip_spaces (n : nat) (ch src : Z) : M (Z * Z) :=
  match n with
  | O => diverge
  | S n' =>
      if ch =? 0 then ret (ch, src)
      else if negb (isspace ch) then ret (ch, src)
      else let* ch := next_char src in skip_spaces n' ch (src + 1)
  end.

(** The checks after a pad character, from case 3 on. *)
Definition pton_pad3 (n : nat) (ch src target tarindex : Z) : M Z :=
  let* (ch, src) := skip_spaces n ch src in
  if negb (ch =? 0) then ret (-1) else
  let* extra := if target =? NULL then ret false
                else let* b := load8 (target + tarindex) in ret (negb (b =? 0)) in
  ret (if extra : bool then -1 else s32 tarindex).

Definition pton_pad (n : nat) (src target tarindex state : Z) : M Z :=
  let* ch := next_char src in
  let src := src + 1 in
  if (state =? 0) || (state =? 1) then ret (-1)
  else if state =? 2 then
    let* (ch, src) := skip_spaces n ch src in
    if negb (ch =? Pad64) then ret (-1) else
    let* ch := next_char src in
    pton_pad3 n ch (src + 1) target tarindex
  else pton_pad3 n ch src target tarindex.

(** A string that is not terminated within mapped memory faults, so the loops
    read fewer characters than there are mapped bytes, plus one. *)
Definition f_b64_pton (src target targsize : Z) : M Z := fun m =>
  let n := S (size (cells m)) in
  (let* r := pton_loop n src target targsize 0 0 in
   match r with
   | None => ret (-1)
   | Some (ch, src, tarindex, state) =>
       if ch =? Pad64 then pton_pad n src target tarindex state
       else ret (if negb (state =? 0) then -1 else s32 tarindex)
   end) m.

(** * The encoding, by 24-bit groups *)

(** The digit of value [i]. *)
Definition b64_digit (i : Z) : Z :=
  if i <? 26 then 65 + i else if i <? 52 then 71 + i else if i <? 62 then i - 4
  else if i =? 62 then 43 else 47.

(** The four digits of the group [v], most significant first. *)
Definition b64_group (v : Z) : list Z :=
  b64_digit <$> [v / 2 ^ 18; v / 2 ^ 12 mod 64; v / 2 ^ 6 mod 64; v mod 64].

Fixpoint b64_text (l : list Z) : list Z :=
  match l with
  | a :: b :: c :: l' => b64_group (a * 2 ^ 16 + b * 2 ^ 8 + c) ++ b64_text l'
  | [a; b] => take 3 (b64_group (a * 2 ^ 16 + b * 2 ^ 8)) ++ [Pad64]
  | [a] => take 2 (b64_group (a * 2 ^ 16)) ++ [Pad64; Pad64]
  | [] => []
  end.
