(* ===== verification/Sample.v ===== *)
(** A concrete program instance, on which the theorems are applied: an
    application without callbacks, an allocator that succeeds, and a memory
    that holds a [gdt_cct_LogEvent]. *)
From stdpp Require Import base list numbers option strings gmap.
From S2P Require Import Prelude Varint Machine PbTypes PbCommon PbIter PbEncode PbDecode PbWire PbRep.
From S2P Require Import PbRep ProtoLayout Cct.
Open Scope Z_scope.
Open Scope c_scope.

#[export] Instance sample_heap : Heap := {| alloc_ok := fun _ _ => true; junk := fun _ => 205 |}.

#[export] Instance sample_app : App := {|
  app_heap := sample_heap;
  app_owrite := fun _ _ _ _ => fault;
  app_iread := fun _ _ _ _ => fault;
  app_encode := fun _ _ _ _ => fault;
  app_decode := fun _ _ _ _ => fault;
  app_ext_type := fun _ => None |}.

(** The structure is at 1000, a bytes array at 1200, a buffer at 4000. *)
Definition sample_event : list Z :=
  (* has_event_time_ms, event_time_ms *)
  [1] ++ replicate 7 0 ++ le_bytes 8 1234567
  (* source_extension *)
  ++ le_bytes 8 1200
  (* has_event_code, event_code, has_timezone_offset_seconds, timezone_offset_seconds *)
  ++ [0; 0; 0; 0] ++ le_bytes 4 0 ++ [1] ++ replicate 7 0 ++ le_bytes 8 (2 ^ 64 - 3)
  (* has_event_uptime_ms, event_uptime_ms *)
  ++ [0] ++ replicate 7 0 ++ le_bytes 8 0
  (* has_network_connection_info, network_connection_info *)
  ++ [1; 0; 0; 0] ++ [1; 0; 0; 0] ++ le_bytes 4 1 ++ [1; 0; 0; 0] ++ le_bytes 4 13 ++ [0; 0; 0; 0].

Definition sample_extension : list Z := le_bytes 4 3 ++ [7; 8; 9] ++ [0].

Definition sample_mem : mem :=
  Mem (map_range 1000 sample_event (map_range 1200 sample_extension
         (map_range 4000 (replicate 100 170) ∅))) ∅ 10000 0.

Definition sample_items : list (list value) :=
  [[VScalar 1234567]; [VBytes [7; 8; 9]]; []; [VScalar (-3)]; [];
   [VMsg [[VScalar 1]; [VScalar 13]]]].

(** Deciding [holds]. *)
Definition holds_check (m : mem) (lo n a : Z) (l : list Z) : bool :=
  bool_decide (lo <= a) && bool_decide (a + zlen l <= lo + n)
  && forallb (fun ib => bool_decide (cells m !! (a + Z.of_nat ib.1) = Some ib.2))
       (zip (seq 0 (length l)) l).

Lemma holds_by_check m lo n a l :
  holds_check m lo n a l = true -> holds (in_range lo n) m a l.
Proof.
  unfold holds_check. intros [[H1%bool_decide_eq_true H2%bool_decide_eq_true]%andb_true_iff H3]%andb_true_iff.
  split; [|intros x Hx; unfold in_range in *; lia].
  intros i b Hi. rewrite forallb_forall in H3.
  assert (In (i, b) (zip (seq 0 (length l)) l)) as Hin.
  { apply list_elem_of_In, list_elem_of_lookup. exists i. apply lookup_zip_Some.
    split; [|done]. apply lookup_seq. split; [done|]. by eapply lookup_lt_Some. }
  apply H3 in Hin. by apply bool_decide_eq_true in Hin.
Qed.

(** Facts about the sample memory, evaluated. *)
Ltac sample_holds := apply holds_by_check; vm_compute; reflexivity.

Ltac eval_iters :=
  match goal with
  | |- context [iters ?f ?a] =>
      let v := eval vm_compute in (iters f a) in
      replace (iters f a) with v by (vm_compute; reflexivity)
  end.

Definition sample_F : Z -> Prop := in_range 1000 300.

(** The value of a flag, a pointer and a scalar member of the sample. *)
Ltac sample_flag b := apply (reads_bool sample_F sample_mem _ b); sample_holds.
Ltac sample_int := split; [vm_compute; auto|split; [vm_compute; split; congruence|sample_holds]].

Lemma sample_network_rep f :
  f_ltype f = PB_LTYPE_SUBMESSAGE -> f_ptr f = PtrFields gdt_cct_NetworkConnectionInfo_fields ->
  rep_item sample_F sample_mem f 1068 (VMsg [[VScalar 1]; [VScalar 13]]).
Proof.
  intros Hl Hp. apply rep_item_msg. split; [done|]. eexists. split; [exact Hp|]. split.
  { eexists [_; _]. split; [reflexivity|]. repeat constructor. }
  eval_iters. constructor; [|constructor; [|constructor]].
  - split; [done|]. exists 1072. split; [done|]. exists true. split; [sample_flag 1|].
    split; [done|]. split; [done|]. sample_int.
  - split; [done|]. exists 1080. split; [done|]. exists true. split; [sample_flag 1|].
    split; [done|]. split; [done|]. sample_int.
Qed.

Lemma sample_event_rep : rep_msg sample_F sample_mem gdt_cct_LogEvent_fields 1000 sample_items.
Proof.
  split. { eexists [_; _; _; _; _; _]. split; [reflexivity|]. repeat constructor. }
  eval_iters. constructor; [|constructor; [|constructor; [|constructor; [|constructor; [|constructor;
    [|constructor]]]]]]; (split; [done|]).
  - exists 1008. split; [done|]. exists true. split; [sample_flag 1|]. split; [done|].
    split; [done|]. sample_int.
  - exists 1200. split; [apply (holds_uint sample_F sample_mem _ 8); [done|sample_holds]|].
    exists true. split; [|split; [done|split; [done|]]].
    + exists false. split; [|done]. intros check.
      apply (reads_all_zero sample_F sample_mem _ (le_bytes 8 1200)). sample_holds.
    + right. split; [done|]. split; [done|]. split; [sample_holds|done].
  - exists 1028. split; [done|]. exists false. split; [sample_flag 0|done].
  - exists 1040. split; [done|]. exists true. split; [sample_flag 1|]. split; [done|].
    split; [done|]. sample_int.
  - exists 1056. split; [done|]. exists false. split; [sample_flag 0|done].
  - exists 1068. split; [done|]. exists true. split; [sample_flag 1|]. split; [done|].
    by apply sample_network_rep.
Qed.
