(* ===== verification/PbEncodeThms.v ===== *)
(** What the entry points of [pb_encode.c] promise, for a structure that
    represents a message value: writing to a buffer, computing the size, buffers
    that are too small, and the delimited and null-terminated forms. *)
From stdpp Require Import base list numbers option strings gmap.
From S2P Require Import Prelude Varint Machine PbTypes PbCommon PbIter PbEncode PbDecode PbWire PbRep.
From S2P Require Import PbRep PbEncodeSpec ProtoLayout Cct Sample.
Open Scope Z_scope.
Open Scope c_scope.

(** A caller's buffer: mapped, below 2^63 bytes, apart from the addresses [F]
    that hold the message. *)
Record out_buffer (F : Z -> Prop) (m : mem) (buf bufsize : Z) : Prop := {
  buf_size : 0 <= bufsize < 2 ^ 63;
  buf_mapped : mapped m buf bufsize;
  buf_apart : forall x, F x -> ~ in_range buf bufsize x
}.

Section Entry.
Context `{App}.
Variables (F : Z -> Prop) (m : mem).

(** A stream over a fresh buffer is one [emits] applies to. *)
Lemma from_buffer_obuf buf bufsize :
  out_buffer F m buf bufsize ->
  obuf (pb_ostream_from_buffer buf bufsize) m
  /\ clear_of F (pb_ostream_from_buffer buf bufsize)
  /\ room (pb_ostream_from_buffer buf bufsize) = bufsize.
Proof.
  intros [Hs Hm Ha]. unfold clear_of, room. simpl. rewrite Z.sub_0_r.
  split_and!; [|done|done]. split; unfold room; simpl; rewrite ?Z.sub_0_r; auto; lia.
Qed.

Lemma emits_to_buffer act l buf bufsize :
  emits F m act l -> out_buffer F m buf bufsize -> zlen l <= bufsize ->
  exists s, act (pb_ostream_from_buffer buf bufsize) m = Ok (true, s) (stored m buf l)
    /\ o_bytes_written s = zlen l.
Proof.
  intros He Hb Hl. destruct (from_buffer_obuf buf bufsize Hb) as (Ho & Hc & Hr).
  destruct Hb as [Hs _ _]. destruct He as (_ & Hfit & _); [lia|].
  eexists. split; [apply (Hfit _ m (agree_on_refl F m) Ho Hc); lia|done].
Qed.

Lemma emits_short_buffer act l buf bufsize :
  emits F m act l -> out_buffer F m buf bufsize -> bufsize < zlen l < 2 ^ 63 ->
  exists s l', act (pb_ostream_from_buffer buf bufsize) m = Ok (false, s) (stored m buf l')
    /\ zlen l' <= bufsize /\ o_errmsg s = Some "stream full".
Proof.
  intros He Hb Hl. destruct (from_buffer_obuf buf bufsize Hb) as (Ho & Hc & Hr).
  destruct He as (_ & _ & Hfull); [lia|].
  destruct (Hfull _ m (agree_on_refl F m) Ho Hc) as (s & l' & E & Hl' & Hm); [lia|].
  exists s, l'. rewrite <- Hr at 2. done.
Qed.

Section Message.
Variables (fields : list pb_field_t) (addr : Z) (fss : list (list value)) (fuel : nat).
Hypothesis rep : rep_msg F m fields addr fss.
Hypothesis enough : (msg_height fss + 2 <= fuel)%nat.

Lemma delimited_emits :
  emits F m (fun s => pb_encode_delimited fuel s fields addr) (delim (msg_wire fields fss)).
Proof. apply submessage_emits. by apply encodes_msgs_all. Qed.

Lemma nullterminated_emits :
  emits F m (fun s => pb_encode_nullterminated fuel s fields addr)
        (msg_wire fields fss ++ [0]).
Proof.
  apply emits_then; [by apply encodes_msgs_all|].
  apply (pb_write_local_emits F m [0]).
Qed.
End Message.
End Entry.

(** C3: [pb_encode] into a buffer that is large enough writes exactly the
    protobuf encoding of the message at the start of the buffer, reports its
    length, and changes no other memory. *)
Theorem pb_encode_writes_wire `{App} F m fields addr fss fuel buf bufsize
    (Hrep : rep_msg F m fields addr fss)
    (Hfuel : (msg_height fss + 2 <= fuel)%nat)
    (Hbuf : out_buffer F m buf bufsize)
    (Hfits : zlen (msg_wire fields fss) <= bufsize) :
  exists s,
    pb_encode fuel (pb_ostream_from_buffer buf bufsize) fields addr m
    = Ok (true, s) (stored m buf (msg_wire fields fss))
    /\ o_bytes_written s = zlen (msg_wire fields fss).
Proof.
  eapply (emits_to_buffer F m (fun s => pb_encode fuel s fields addr)); [|exact Hbuf|exact Hfits].
  by apply encodes_msgs_all.
Qed.

Lemma sample_buffer : out_buffer sample_F sample_mem 4000 100.
Proof.
  split; [lia| |].
  - apply (bytes_at_mapped _ _ (replicate 100 170)).
    apply (holds_by_check sample_mem 4000 100). vm_compute. reflexivity.
  - intros x. unfold sample_F, in_range. lia.
Qed.

Lemma pb_encode_writes_wire_witness :
  exists s,
    pb_encode 3 (pb_ostream_from_buffer 4000 100) gdt_cct_LogEvent_fields 1000 sample_mem
    = Ok (true, s) (stored sample_mem 4000
        [8; 135; 173; 75; 50; 3; 7; 8; 9; 120; 5; 186; 1; 4; 8; 1; 16; 13])
    /\ o_bytes_written s = 18.
Proof.
  exact (pb_encode_writes_wire sample_F sample_mem gdt_cct_LogEvent_fields 1000 sample_items 3
           4000 100 sample_event_rep ltac:(vm_compute; lia) sample_buffer ltac:(vm_compute; congruence)).
Defined.

(** [pb_get_encoded_size] returns the length of that encoding, and changes
    no memory. *)
Theorem pb_get_encoded_size_exact `{App} F m fields addr fss fuel
    (Hrep : rep_msg F m fields addr fss)
    (Hfuel : (msg_height fss + 2 <= fuel)%nat)
    (Hlen : zlen (msg_wire fields fss) < 2 ^ 63) :
  pb_get_encoded_size fuel fields addr m = Ok (Some (zlen (msg_wire fields fss))) m.
Proof.
  destruct (encodes_msgs_all F m fuel fields addr fss Hrep Hfuel Hlen) as (Hsz & _ & _).
  unfold pb_get_encoded_size.
  mstep (Hsz PB_OSTREAM_SIZING m (agree_on_refl F m) ltac:(by split) ltac:(simpl; pow2; lia)).
  done.
Qed.

Lemma pb_get_encoded_size_exact_witness :
  pb_get_encoded_size 3 gdt_cct_LogEvent_fields 1000 sample_mem = Ok (Some 18) sample_mem.
Proof.
  exact (pb_get_encoded_size_exact sample_F sample_mem gdt_cct_LogEvent_fields 1000 sample_items 3
           sample_event_rep ltac:(vm_compute; lia) ltac:(vm_compute; congruence)).
Defined.

(** C23: a buffer that is too small makes [pb_encode] fail with the message
    "stream full"; whatever it wrote lies inside the buffer. *)
Theorem pb_encode_stream_full `{App} F m fields addr fss fuel buf bufsize
    (Hrep : rep_msg F m fields addr fss)
    (Hfuel : (msg_height fss + 2 <= fuel)%nat)
    (Hbuf : out_buffer F m buf bufsize)
    (Hshort : bufsize < zlen (msg_wire fields fss) < 2 ^ 63) :
  exists s written,
    pb_encode fuel (pb_ostream_from_buffer buf bufsize) fields addr m
    = Ok (false, s) (stored m buf written)
    /\ zlen written <= bufsize /\ o_errmsg s = Some "stream full".
Proof.
  eapply (emits_short_buffer F m (fun s => pb_encode fuel s fields addr)); [|exact Hbuf|exact Hshort].
  by apply encodes_msgs_all.
Qed.

Lemma sample_short_buffer : out_buffer sample_F sample_mem 4000 10.
Proof.
  destruct sample_buffer as [_ Hm Ha]. split; [lia| |].
  - eapply mapped_sub; [exact Hm|lia..].
  - intros x. unfold sample_F, in_range. lia.
Qed.

Lemma pb_encode_stream_full_witness :
  exists s written,
    pb_encode 3 (pb_ostream_from_buffer 4000 10) gdt_cct_LogEvent_fields 1000 sample_mem
    = Ok (false, s) (stored sample_mem 4000 written)
    /\ zlen written <= 10 /\ o_errmsg s = Some "stream full".
Proof.
  exact (pb_encode_stream_full sample_F sample_mem gdt_cct_LogEvent_fields 1000 sample_items 3
           4000 10 sample_event_rep ltac:(vm_compute; lia) sample_short_buffer
           ltac:(vm_compute; split; congruence)).
Defined.

(** [pb_encode_delimited] prefixes the encoding with its length as a
    varint, and [pb_encode_nullterminated] appends a zero byte. *)
Theorem pb_encode_framing `{App} F m fields addr fss fuel buf bufsize
    (Hrep : rep_msg F m fields addr fss)
    (Hfuel : (msg_height fss + 2 <= fuel)%nat)
    (Hbuf : out_buffer F m buf bufsize)
    (Hfits : 10 + zlen (msg_wire fields fss) <= bufsize) :
  let w := msg_wire fields fss in
  (exists s,
     pb_encode_delimited fuel (pb_ostream_from_buffer buf bufsize) fields addr m
     = Ok (true, s) (stored m buf (varint (zlen w) ++ w))
     /\ o_bytes_written s = zlen (varint (zlen w)) + zlen w)
  /\ exists s,
     pb_encode_nullterminated fuel (pb_ostream_from_buffer buf bufsize) fields addr m
     = Ok (true, s) (stored m buf (w ++ [0]))
     /\ o_bytes_written s = zlen w + 1.
Proof.
  intros w. pose proof (varint_length (zlen w)) as Hv. split.
  - rewrite <- zlen_app.
    eapply (emits_to_buffer F m (fun s => pb_encode_delimited fuel s fields addr) (delim w));
      [by apply delimited_emits|exact Hbuf|]. unfold delim. rewrite zlen_app. subst w. lia.
  - change (zlen w + 1) with (zlen w + zlen [0]). rewrite <- zlen_app.
    eapply (emits_to_buffer F m (fun s => pb_encode_nullterminated fuel s fields addr));
      [by apply nullterminated_emits|exact Hbuf|]. rewrite zlen_app. subst w. simpl. lia.
Qed.

Lemma pb_encode_framing_witness :
  exists s,
    pb_encode_delimited 3 (pb_ostream_from_buffer 4000 100) gdt_cct_LogEvent_fields 1000 sample_mem
    = Ok (true, s) (stored sample_mem 4000
        [18; 8; 135; 173; 75; 50; 3; 7; 8; 9; 120; 5; 186; 1; 4; 8; 1; 16; 13])
    /\ o_bytes_written s = 19.
Proof.
  exact (proj1 (pb_encode_framing sample_F sample_mem gdt_cct_LogEvent_fields 1000 sample_items 3
           4000 100 sample_event_rep ltac:(vm_compute; lia) sample_buffer
           ltac:(vm_compute; congruence))).
Defined.
