(* ===== verification/PbDecodeThms.v ===== *)
(** What the entry points of [pb_decode.c] promise: filling in a structure of a
    plain type, the round trip with the encoder, and the primitives below. *)
From stdpp Require Import base list numbers option strings gmap.
From S2P Require Import Prelude Varint Machine PbTypes PbCommon PbIter PbEncode PbDecode PbWire PbRep.
From S2P Require Import PbRep PbEncodeSpec PbDecodeSpec PbPlain.
From S2P Require Import PbDecodeMsg ProtoLayout Cct Sample PbEncodeThms.
From S2P Require Import PbTotal PbSafety.
Open Scope Z_scope.
Open Scope c_scope.

(** * The encoding consists of bytes *)
Lemma tag_wire_bytes wt tag : 0 <= wt < 8 -> 0 < tag < 2 ^ 29 -> Forall is_byte (tag_wire wt tag).
Proof.
  intros. assert (in_uint 64 (tag * 8 + wt)) by (unfold in_uint; pow2; lia). by apply varint_bytes.
Qed.

Lemma scalar_wire_bytes f z :
  0 <= f_ltype f <= PB_LTYPE_LAST_PACKABLE -> scalar_ok f z ->
  Forall is_byte (scalar_wire (f_ltype f) z).
Proof.
  intros Hl Hz. unfold scalar_wire.
  destruct (Z.eqb_spec (f_ltype f) PB_LTYPE_SVARINT) as [El|El].
  - apply varint_bytes, zigzag_spec_range. unfold scalar_ok in Hz. rewrite El in Hz.
    destruct Hz as [Hds Hz]. by eapply int_size_sint.
  - destruct (f_ltype f =? PB_LTYPE_FIXED32); [apply le_bytes_bytes|].
    destruct (f_ltype f =? PB_LTYPE_FIXED64); [apply le_bytes_bytes|].
    apply varint_bytes, u64_range.
Qed.

(** Submessages of depth [n] being bytes, so are the items of fields above. *)
Lemma item_bytes n f v :
  (forall fs sz fss, plain_msg n fs sz -> fits_msg fs fss -> zlen (msg_wire fs fss) < 2 ^ 64 ->
     Forall is_byte (msg_wire fs fss)) ->
  plain_field (plain_msg n) f -> fits_item f v -> zlen (item_wire f v) < 2 ^ 64 ->
  Forall is_byte (item_wire f v).
Proof.
  intros IH Hp Hf Hlen. destruct v as [z|bs|fss].
  - destruct Hf as [Hl Hz]. by apply scalar_wire_bytes.
  - destruct Hf as [Hb _]. cbn [item_wire] in *. apply delim_bytes; [|done].
    pose proof (delim_length bs). lia.
  - apply fits_item_msg in Hf as [El Hf]. rewrite item_wire_msg in *.
    destruct (plain_field_sub _ _ Hp El) as [_ HP].
    pose proof (delim_length (msg_wire (sub_fields f) fss)).
    apply delim_bytes; [lia|]. eapply IH; [exact HP|done|lia].
Qed.

Lemma msg_bytes n fs sz fss :
  plain_msg n fs sz -> fits_msg fs fss -> zlen (msg_wire fs fss) < 2 ^ 64 ->
  Forall is_byte (msg_wire fs fss).
Proof.
  revert fs sz fss. induction n as [|n IH]; intros fs sz fss Hp Hf Hlen; [done|].
  destruct Hp as [_ (es & -> & _ & _ & Hes)]. unfold fits_msg, msg_wire in *.
  rewrite (entries_app es) in *. revert fss Hf Hlen.
  induction Hes as [|f es Hpf _ IHes]; intros fss Hf Hlen; inversion Hf as [|? items ? fss' Hi Hr];
    subst; [constructor|]. cbn [fields_wire] in *. rewrite zlen_app in Hlen.
  apply Forall_app. split; [|apply IHes; [done|lia]].
  destruct items as [|v [|]]; [|clear Hr IHes|done].
  - by rewrite field_wire_empty.
  - rewrite (field_wire_single n) in Hlen |- * by done. rewrite zlen_app in Hlen.
    apply Forall_app. split; [apply tag_wire_bytes; [apply wt_of_range|apply Hpf]|].
    eapply item_bytes; [exact IH|done..|lia].
Qed.

(** * Messages of a plain type *)

(** C1: [pb_decode] on the encoding of a value of a plain type (singular
    static fields of scalar, bytes, string or plain submessage type) succeeds,
    consumes exactly the encoding, changes nothing outside the structure, and
    leaves the structure representing that value. *)
Theorem pb_decode_reads_wire `{App} n fs sz addr fss s m
    (Hplain : plain_msg n fs sz)
    (Hfits : fits_msg fs fss)
    (Hlen : zlen (msg_wire fs fss) < 2 ^ 32)
    (Hs : reading s m (msg_wire fs fss))
    (Hnn : 0 < addr)
    (Hmap : mapped m addr sz)
    (Hapart : apart s addr sz) :
  exists m',
    pb_decode n s fs addr m = Ok (true, consumed s (zlen (msg_wire fs fss))) m'
    /\ framed (in_range addr sz) m m'
    /\ rep_msg (in_range addr sz) m' fs addr fss.
Proof. by apply pb_decode_plain. Qed.

(** The sample: a [gdt_cct_NetworkConnectionInfo] at 5000, its encoding at 4000. *)
Definition network_items : list (list value) := [[VScalar 1]; [VScalar 13]].
Definition network_mem : mem :=
  Mem (map_range 4000 [8; 1; 16; 13] (map_range 5000 (replicate 16 205) ∅)) ∅ 10000 0.

Lemma network_plain : plain_msg 1 gdt_cct_NetworkConnectionInfo_fields 16.
Proof.
  set (es := removelast gdt_cct_NetworkConnectionInfo_fields).
  assert (gdt_cct_NetworkConnectionInfo_fields = es ++ [PB_LAST_FIELD]) as -> by reflexivity.
  assert (forall f, f ∈ es -> plain_field (plain_msg 0) f) as Hp.
  { assert (es = [nth 0 es PB_LAST_FIELD; nth 1 es PB_LAST_FIELD]) as -> by reflexivity.
    intros f [-> |[-> |[]%not_elem_of_nil]%elem_of_cons]%elem_of_cons;
      (split; [reflexivity|vm_compute; split; congruence|vm_compute; split; congruence| |]).
    1,3: right; split; [reflexivity|left; reflexivity].
    1,2: left; split; [vm_compute; split; congruence|split; [vm_compute; tauto|]].
    1,2: vm_compute; auto; congruence. }
  rewrite <- Forall_forall in Hp. split; [|exists es; split_and!; [done|done| |done]].
  - apply layout_by_check; [|reflexivity]. by eapply plain_tags.
  - vm_compute. repeat constructor; set_solver.
Qed.

Lemma network_fits : fits_msg gdt_cct_NetworkConnectionInfo_fields network_items.
Proof.
  unfold fits_msg, network_items. cbn. repeat constructor; vm_compute; try congruence; intuition congruence.
Qed.

Ltac sample_bytes lo n := apply (holds_by_check _ lo n); vm_compute; reflexivity.

Lemma network_reading :
  reading (pb_istream_from_buffer 4000 4) network_mem
    (msg_wire gdt_cct_NetworkConnectionInfo_fields network_items).
Proof.
  replace (msg_wire gdt_cct_NetworkConnectionInfo_fields network_items) with [8; 1; 16; 13]
    by (vm_compute; reflexivity).
  apply (reading_from_buffer network_mem 4000 [8; 1; 16; 13]); [|repeat constructor; cint|done].
  sample_bytes 4000 4.
Qed.

Lemma network_mapped : mapped network_mem 5000 16.
Proof. apply (bytes_at_mapped network_mem 5000 (replicate 16 205)). sample_bytes 5000 16. Qed.

Lemma pb_decode_reads_wire_witness :
  exists m',
    pb_decode 1 (pb_istream_from_buffer 4000 4) gdt_cct_NetworkConnectionInfo_fields 5000 network_mem
    = Ok (true, consumed (pb_istream_from_buffer 4000 4) 4) m'
    /\ framed (in_range 5000 16) network_mem m'
    /\ rep_msg (in_range 5000 16) m' gdt_cct_NetworkConnectionInfo_fields 5000 network_items.
Proof.
  exact (pb_decode_reads_wire 1 gdt_cct_NetworkConnectionInfo_fields 16 5000 network_items
           (pb_istream_from_buffer 4000 4) network_mem network_plain network_fits
           ltac:(vm_compute; reflexivity) network_reading ltac:(lia) network_mapped
           ltac:(intros x; unfold in_range; simpl; lia)).
Defined.

(** C22: encoding a structure of a plain type into a buffer and decoding what
    was written into another structure succeeds and makes the second structure
    represent the value of the first. *)
Theorem pb_encode_decode_roundtrip `{App} F m n fs sz src dst fss fuel buf bufsize
    (Hplain : plain_msg n fs sz)
    (Hfits : fits_msg fs fss)
    (Hrep : rep_msg F m fs src fss)
    (Hfuel : (msg_height fss + 2 <= fuel)%nat)
    (Hbuf : out_buffer F m buf bufsize)
    (Hroom : zlen (msg_wire fs fss) <= bufsize)
    (Hlen : zlen (msg_wire fs fss) < 2 ^ 32)
    (Hnn : 0 < dst)
    (Hmap : mapped m dst sz)
    (Hapart : forall x, in_range dst sz x -> ~ in_range buf bufsize x) :
  exists s m1 s' m2,
    pb_encode fuel (pb_ostream_from_buffer buf bufsize) fs src m = Ok (true, s) m1
    /\ pb_decode n (pb_istream_from_buffer buf (o_bytes_written s)) fs dst m1 = Ok (true, s') m2
    /\ i_bytes_left s' = 0
    /\ rep_msg (in_range dst sz) m2 fs dst fss.
Proof.
  destruct (emits_to_buffer F m (fun s => pb_encode fuel s fs src) _ buf bufsize
              (encodes_msgs_all F m fuel fs src fss Hrep Hfuel) Hbuf Hroom) as (s & E & Ew).
  set (w := msg_wire fs fss) in *. set (m1 := stored m buf w) in *.
  assert (Forall is_byte w) as Hb by (eapply msg_bytes; [exact Hplain|done|subst w; lia]).
  assert (reading (pb_istream_from_buffer buf (zlen w)) m1 w) as Hr.
  { apply reading_from_buffer; [by apply stored_bytes_at|done|lia]. }
  destruct (pb_decode_plain n fs sz dst fss _ m1 Hplain Hfits Hlen Hr Hnn) as (m2 & Ed & _ & Hrep2).
  { by apply stored_mapped. }
  { intros x Hx Hin. apply (Hapart x Hx). unfold in_range in *. simpl in Hin. lia. }
  eexists s, m1, _, m2. rewrite Ew. split_and!; [exact E|exact Ed| |done].
  simpl. fold w. lia.
Qed.

Definition network_src_mem : mem :=
  Mem (map_range 1000 (le_bytes 4 1 ++ le_bytes 4 1 ++ le_bytes 4 1 ++ le_bytes 4 13)
        (map_range 4000 (replicate 10 170) (map_range 5000 (replicate 16 205) ∅))) ∅ 10000 0.

Lemma network_src_rep :
  rep_msg (in_range 1000 16) network_src_mem gdt_cct_NetworkConnectionInfo_fields 1000 network_items.
Proof.
  split. { eexists [_; _]. split; [reflexivity|]. repeat constructor. }
  eval_iters. constructor; [|constructor; [|constructor]];
    (split; [done|]); eexists; (split; [done|]); exists true;
    (split; [apply (reads_bool _ _ _ 1); sample_holds|]); (split; [done|split; [done|sample_int]]).
Qed.

Lemma pb_encode_decode_roundtrip_witness :
  exists s m1 s' m2,
    pb_encode 2 (pb_ostream_from_buffer 4000 10) gdt_cct_NetworkConnectionInfo_fields 1000
      network_src_mem = Ok (true, s) m1
    /\ pb_decode 1 (pb_istream_from_buffer 4000 (o_bytes_written s))
         gdt_cct_NetworkConnectionInfo_fields 5000 m1 = Ok (true, s') m2
    /\ i_bytes_left s' = 0
    /\ rep_msg (in_range 5000 16) m2 gdt_cct_NetworkConnectionInfo_fields 5000 network_items.
Proof.
  refine (pb_encode_decode_roundtrip (in_range 1000 16) network_src_mem 1
           gdt_cct_NetworkConnectionInfo_fields 16 1000 5000 network_items 2 4000 10
           network_plain network_fits network_src_rep ltac:(vm_compute; lia) _
           ltac:(vm_compute; congruence) ltac:(vm_compute; reflexivity) ltac:(lia) _ _).
  - split; [lia| |intros x; unfold in_range; lia].
    apply (bytes_at_mapped network_src_mem 4000 (replicate 10 170)). sample_bytes 4000 10.
  - apply (bytes_at_mapped network_src_mem 5000 (replicate 16 205)). sample_bytes 5000 16.
  - intros x; unfold in_range; lia.
Defined.

(** * Delimited messages *)

(** [pb_decode_delimited] reads one length-prefixed message and leaves the
    stream at what follows it. *)
Theorem pb_decode_delimited_reads_wire `{App} n fs sz addr fss s m rest
    (Hplain : plain_msg n fs sz)
    (Hfits : fits_msg fs fss)
    (Hlen : zlen (msg_wire fs fss) < 2 ^ 32)
    (Hs : reading s m (delim (msg_wire fs fss) ++ rest))
    (Hnn : 0 < addr)
    (Hmap : mapped m addr sz)
    (Hapart : apart s addr sz) :
  exists m',
    pb_decode_delimited n s fs addr m
    = Ok (true, consumed s (zlen (delim (msg_wire fs fss)))) m'
    /\ framed (in_range addr sz) m m'
    /\ rep_msg (in_range addr sz) m' fs addr fss
    /\ reading (consumed s (zlen (delim (msg_wire fs fss)))) m' rest.
Proof.
  set (w := msg_wire fs fss) in *.
  destruct (pb_make_string_substream_wire s m w rest Hlen Hs) as [E Hsub]. unfold delim in *.
  set (p := varint (zlen w)) in *. rewrite <- app_assoc in Hs.
  assert (apart (i_set_left (consumed s (zlen p)) (zlen w)) addr sz) as Hap'.
  { intros x Hx Hi. apply (Hapart x Hx). pose proof (rd_left _ _ _ Hs) as Hl. rewrite !zlen_app in Hl.
    unfold in_range, consumed in *. simpl in *. lia. }
  destruct (pb_decode_plain n fs sz addr fss _ m Hplain Hfits Hlen Hsub Hnn Hmap Hap')
    as (m' & E2 & Fr & Hrep). fold w in E2.
  pose proof (reading_framed _ s m m' _ Hs Fr Hapart) as Hs2.
  pose proof (reading_framed _ _ m m' _ Hsub Fr Hap') as Hw2.
  rewrite <- (app_nil_r w) in Hw2 at 2. apply reading_app in Hw2.
  assert (took (i_set_left (consumed s (zlen p)) (zlen w)) w
            (consumed (i_set_left (consumed s (zlen p)) (zlen w)) (zlen w)) []) as Ht.
  { exists w. by rewrite app_nil_r. }
  exists m'. rewrite zlen_app. split_and!; [|done|done|].
  - unfold pb_decode_delimited, delimited. mstep E. cbn beta iota. mstep E2. cbn beta iota.
    by mstep (close_substream_took s m' p w rest _ [] Hs2 Ht Hw2).
  - rewrite app_assoc in Hs2. rewrite <- zlen_app. by apply reading_app.
Qed.

Definition delimited_mem : mem :=
  Mem (map_range 4000 [4; 8; 1; 16; 13; 9] (map_range 5000 (replicate 16 205) ∅)) ∅ 10000 0.

Lemma pb_decode_delimited_reads_wire_witness :
  exists m',
    pb_decode_delimited 1 (pb_istream_from_buffer 4000 6) gdt_cct_NetworkConnectionInfo_fields 5000
      delimited_mem = Ok (true, consumed (pb_istream_from_buffer 4000 6) 5) m'
    /\ framed (in_range 5000 16) delimited_mem m'
    /\ rep_msg (in_range 5000 16) m' gdt_cct_NetworkConnectionInfo_fields 5000 network_items
    /\ reading (consumed (pb_istream_from_buffer 4000 6) 5) m' [9].
Proof.
  refine (pb_decode_delimited_reads_wire 1 gdt_cct_NetworkConnectionInfo_fields 16 5000 network_items
           (pb_istream_from_buffer 4000 6) delimited_mem [9] network_plain network_fits
           ltac:(vm_compute; reflexivity) _ ltac:(lia) _
           ltac:(intros x; unfold in_range; simpl; lia)).
  - replace (delim (msg_wire gdt_cct_NetworkConnectionInfo_fields network_items) ++ [9])
      with [4; 8; 1; 16; 13; 9] by (vm_compute; reflexivity).
    apply (reading_from_buffer delimited_mem 4000 [4; 8; 1; 16; 13; 9]);
      [sample_bytes 4000 6|repeat constructor; cint|done].
  - apply (bytes_at_mapped delimited_mem 5000 (replicate 16 205)). sample_bytes 5000 16.
Defined.

(** * Untrusted input *)

(** C2: [pb_decode] of any bytes whatever into a structure of a plain type of which
    neither the type itself nor a submessage type is empty ([inhabited]) returns
    (it neither faults nor runs forever), and no byte outside the structure
    changes; if it reports success, it has consumed a prefix of the input.  For an
    empty type this does not hold: a field with tag 0 writes a byte
    ([empty_message_tag_zero]). *)
Theorem pb_decode_safe `{App} n fs sz addr s m l
    (Hplain : plain_msg n fs sz)
    (Hinhabited : inhabited n fs)
    (Hs : reading s m l)
    (Hnn : 0 < addr)
    (Hmap : mapped m addr sz)
    (Hapart : apart s addr sz) :
  exists ok s' m',
    pb_decode n s fs addr m = Ok (ok, s') m'
    /\ framed (in_range addr sz) m m'
    /\ (ok = true -> exists p l', l = p ++ l' /\ s' = consumed s (zlen p)).
Proof.
  destruct (decode_total n fs sz addr s m l Hplain Hinhabited Hs Hnn Hmap Hapart)
    as (ok & s' & m' & E & Fr & _ & Hok).
  exists ok, s', m'. split_and!; [done|done|]. intros Ht. destruct (Hok Ht) as (l' & p & Hp).
  by exists p, l'.
Qed.

(** A field of wire type "string" where a number is expected, then a truncated
    varint. *)
Definition bad_input_mem : mem :=
  Mem (map_range 4000 [10; 1; 65; 16; 255] (map_range 5000 (replicate 16 205) ∅)) ∅ 10000 0.

Lemma pb_decode_safe_witness :
  exists ok s' m',
    pb_decode 1 (pb_istream_from_buffer 4000 5) gdt_cct_NetworkConnectionInfo_fields 5000
      bad_input_mem = Ok (ok, s') m'
    /\ framed (in_range 5000 16) bad_input_mem m'
    /\ (ok = true -> exists p l', [10; 1; 65; 16; 255] = p ++ l'
                                 /\ s' = consumed (pb_istream_from_buffer 4000 5) (zlen p)).
Proof.
  refine (pb_decode_safe 1 gdt_cct_NetworkConnectionInfo_fields 16 5000
           (pb_istream_from_buffer 4000 5) bad_input_mem [10; 1; 65; 16; 255] network_plain _ _
           ltac:(lia) _ ltac:(intros x; unfold in_range; simpl; lia)).
  - split; [discriminate|]. vm_compute. repeat constructor; discriminate.
  - apply (reading_from_buffer bad_input_mem 4000 [10; 1; 65; 16; 255]);
      [sample_bytes 4000 5|repeat constructor; cint|done].
  - apply (bytes_at_mapped bad_input_mem 5000 (replicate 16 205)). sample_bytes 5000 16.
Defined.
