(* ===== verification/PbPrimThms.v ===== *)
(** The primitives of the wire format on both sides: varints, tags and
    length-prefixed strings, the range checks of the integer decoders, and the
    skipping of fields; and the field iterator with the bookkeeping of required
    fields: lookup by tag, and the bit set that [pb_decode_noinit] keeps of the
    fields it has seen. *)
From stdpp Require Import base numbers option strings gmap list_numbers list.
From S2P Require Import Prelude Varint Machine PbTypes PbCommon PbIter PbEncode PbDecode PbWire PbRep PbEncodeSpec PbDecodeSpec PbPlain ProtoLayout Cct Sample PbEncodeThms.
Open Scope Z_scope.
Open Scope c_scope.

(** * Primitives *)

(** A memory with the bytes [l] at 4000 and a destination of [n] bytes at 5000. *)
Definition bytes_mem (l : list Z) (n : nat) : mem :=
  Mem (map_range 4000 l (map_range 5000 (replicate n 205) ∅)) ∅ 10000 0.

(** Closed streams and destinations over such a memory. *)
Ltac bytes_reading l :=
  apply (reading_from_buffer _ 4000 l);
    [apply (holds_by_check _ 4000 (zlen l)); vm_compute; reflexivity
    |repeat constructor; cint|done].
Ltac bytes_dest n :=
  apply (bytes_at_mapped _ 5000 (replicate n 205));
  apply (holds_by_check _ 5000 (Z.of_nat n)); vm_compute; reflexivity.

(** * Varints on any input *)
(** C30: on every input [pb_decode_varint] terminates in one of three ways: it
    reads a terminated varint of at most ten bytes and returns its value modulo
    2^64; it reads ten bytes that all have the continuation bit and reports an
    overflow; or it reaches the end of the stream before either. *)
Theorem pb_decode_varint_total `{App} s m l (Hs : reading s m l) :
  (exists w rest, l = w ++ rest /\ varint_shaped w /\ zlen w <= 10
     /\ pb_decode_varint s m = Ok (Some (u64 (groups_val w)), consumed s (zlen w)) m)
  \/ (exists w rest, l = w ++ rest /\ zlen w = 10 /\ Forall (fun b => 128 <= b) w
     /\ pb_decode_varint s m = Ok (None, i_seterr (consumed s 10) "varint overflow") m)
  \/ (zlen l < 10 /\ Forall (fun b => 128 <= b) l
     /\ pb_decode_varint s m = Ok (None, i_seterr (consumed s (zlen l)) "end-of-stream") m).
Proof. by apply pb_decode_varint_cases. Qed.

Lemma pb_decode_varint_total_witness :
  reading (pb_istream_from_buffer 4000 2) (bytes_mem [172; 2] 8) [172; 2]
  /\ exists w rest, [172; 2] = w ++ rest /\ varint_shaped w /\ zlen w <= 10
     /\ pb_decode_varint (pb_istream_from_buffer 4000 2) (bytes_mem [172; 2] 8)
        = Ok (Some (u64 (groups_val w)), consumed (pb_istream_from_buffer 4000 2) (zlen w))
            (bytes_mem [172; 2] 8).
Proof.
  assert (reading (pb_istream_from_buffer 4000 2) (bytes_mem [172; 2] 8) [172; 2]) as Hs
    by bytes_reading [172; 2].
  split; [exact Hs|].
  destruct (pb_decode_varint_total _ _ _ Hs) as [Hw|[(w & rest & E & Hw & _)|(_ & Hc & _)]].
  - exact Hw.
  - exfalso. apply (f_equal length) in E. rewrite length_app in E. simpl in E. lia.
  - exfalso. inversion Hc as [|? ? ? Hc2]. inversion Hc2. lia.
Defined.

(** * Round trips *)

(** What an emitting action wrote into a buffer is what a stream over that
    buffer reads. *)
Lemma emits_then_reads `{App} F m act l buf bufsize :
  emits F m act l -> out_buffer F m buf bufsize -> zlen l <= bufsize -> Forall is_byte l ->
  exists s, act (pb_ostream_from_buffer buf bufsize) m = Ok (true, s) (stored m buf l)
    /\ o_bytes_written s = zlen l
    /\ reading (pb_istream_from_buffer buf (o_bytes_written s)) (stored m buf l) (l ++ []).
Proof.
  intros He Hb Hl Hby. destruct (emits_to_buffer F m act l buf bufsize He Hb Hl) as (s & E & Ew).
  exists s. split_and!; [done..|]. rewrite Ew, app_nil_r. destruct Hb as [Hsz _ _].
  apply reading_from_buffer; [by apply stored_bytes_at|done|lia].
Qed.

(** every 64-bit value survives [pb_encode_varint] into a buffer and
    [pb_decode_varint] from it; at most ten bytes are written and all of them
    are read back. *)
Theorem pb_varint_roundtrip `{App} F m v buf bufsize
    (Hv : in_uint 64 v) (Hbuf : out_buffer F m buf bufsize) (Hroom : 10 <= bufsize) :
  exists s m1 s',
    pb_encode_varint (pb_ostream_from_buffer buf bufsize) v m = Ok (true, s) m1
    /\ 1 <= o_bytes_written s <= 10
    /\ pb_decode_varint (pb_istream_from_buffer buf (o_bytes_written s)) m1 = Ok (Some v, s') m1
    /\ i_bytes_left s' = 0.
Proof.
  pose proof (varint_length v) as Hl.
  destruct (emits_then_reads F m _ _ buf bufsize (pb_encode_varint_emits F m v Hv) Hbuf
              ltac:(lia) (varint_bytes v Hv)) as (s & E & Ew & Hr).
  eexists s, _, _. split_and!; [exact E|lia..|by eapply pb_decode_varint_wire|]. simpl. lia.
Qed.

Lemma bytes_mem_buffer : out_buffer (fun _ => False) (bytes_mem [] 16) 5000 16.
Proof. split; [lia|bytes_dest 16%nat|done]. Qed.

Lemma pb_varint_roundtrip_witness :
  exists s m1 s',
    pb_encode_varint (pb_ostream_from_buffer 5000 16) (2 ^ 64 - 1) (bytes_mem [] 16) = Ok (true, s) m1
    /\ 1 <= o_bytes_written s <= 10
    /\ pb_decode_varint (pb_istream_from_buffer 5000 (o_bytes_written s)) m1
       = Ok (Some (2 ^ 64 - 1), s') m1
    /\ i_bytes_left s' = 0.
Proof.
  exact (pb_varint_roundtrip (fun _ => False) (bytes_mem [] 16) (2 ^ 64 - 1) 5000 16
           ltac:(unfold in_uint; lia) bytes_mem_buffer ltac:(lia)).
Defined.

(** Every signed 64-bit value survives the zig-zag encoding of
    [pb_encode_svarint] and [pb_decode_svarint]. *)
Theorem pb_svarint_roundtrip `{App} F m v buf bufsize
    (Hv : in_sint 64 v) (Hbuf : out_buffer F m buf bufsize) (Hroom : 10 <= bufsize) :
  exists s m1 s',
    pb_encode_svarint (pb_ostream_from_buffer buf bufsize) v m = Ok (true, s) m1
    /\ pb_decode_svarint (pb_istream_from_buffer buf (o_bytes_written s)) m1 = Ok (Some v, s') m1
    /\ i_bytes_left s' = 0.
Proof.
  pose proof (varint_length (zigzag_spec v)) as Hl. pose proof (zigzag_spec_range v Hv) as Hz.
  destruct (emits_then_reads F m _ _ buf bufsize (pb_encode_svarint_emits F m v Hv) Hbuf
              ltac:(lia) (varint_bytes _ Hz)) as (s & E & Ew & Hr).
  eexists s, _, _. split_and!; [exact E| |].
  - unfold pb_decode_svarint. mstep (pb_decode_varint_wire _ _ _ _ Hz Hr).
    cbn [fmap option_fmap option_map]. by rewrite unzigzag_spec.
  - cbn [consumed i_bytes_left pb_istream_from_buffer]. lia.
Qed.

Lemma pb_svarint_roundtrip_witness :
  exists s m1 s',
    pb_encode_svarint (pb_ostream_from_buffer 5000 16) (- 2 ^ 63) (bytes_mem [] 16) = Ok (true, s) m1
    /\ pb_decode_svarint (pb_istream_from_buffer 5000 (o_bytes_written s)) m1
       = Ok (Some (- 2 ^ 63), s') m1
    /\ i_bytes_left s' = 0.
Proof.
  exact (pb_svarint_roundtrip (fun _ => False) (bytes_mem [] 16) (- 2 ^ 63) 5000 16
           ltac:(unfold in_sint; lia) bytes_mem_buffer ltac:(lia)).
Defined.

(** The tag [pb_encode_tag] writes for a wire type and a field number is
    what [pb_decode_tag] splits it into. *)
Theorem pb_tag_roundtrip `{App} F m wt tag buf bufsize
    (Hw : 0 <= wt < 8) (Ht : 0 < tag < 2 ^ 29)
    (Hbuf : out_buffer F m buf bufsize) (Hroom : 10 <= bufsize) :
  exists s m1 s',
    pb_encode_tag (pb_ostream_from_buffer buf bufsize) wt tag m = Ok (true, s) m1
    /\ pb_decode_tag (pb_istream_from_buffer buf (o_bytes_written s)) m1
       = Ok (TagResult true wt tag false, s') m1
    /\ i_bytes_left s' = 0.
Proof.
  pose proof (varint_length (tag * 8 + wt)) as Hl.
  assert (in_uint 32 tag) as Ht' by (unfold in_uint; lia).
  destruct (emits_then_reads F m _ _ buf bufsize (pb_encode_tag_emits F m wt tag Hw Ht') Hbuf
              ltac:(unfold tag_wire; lia)) as (s & E & Ew & Hr).
  { apply varint_bytes. unfold in_uint. pow2. lia. }
  eexists s, _, _. split_and!; [exact E|by apply (pb_decode_tag_wire _ _ wt tag [])|].
  cbn [consumed i_bytes_left pb_istream_from_buffer]. lia.
Qed.

Lemma pb_tag_roundtrip_witness :
  exists s m1 s',
    pb_encode_tag (pb_ostream_from_buffer 5000 16) 2 150 (bytes_mem [] 16) = Ok (true, s) m1
    /\ pb_decode_tag (pb_istream_from_buffer 5000 (o_bytes_written s)) m1
       = Ok (TagResult true 2 150 false, s') m1
    /\ i_bytes_left s' = 0.
Proof.
  exact (pb_tag_roundtrip (fun _ => False) (bytes_mem [] 16) 2 150 5000 16
           ltac:(lia) ltac:(lia) bytes_mem_buffer ltac:(lia)).
Defined.

(** * Range checks of the integer decoders *)
Definition fits_uint (w z : Z) : bool := (0 <=? z) && (z <? 2 ^ w).
Definition fits_sint (w z : Z) : bool := (- 2 ^ (w - 1) <=? z) && (z <? 2 ^ (w - 1)).

(** The outcome of an integer decoder that read [n] bytes. *)
Definition checked (fits : bool) (s : pb_istream_t) (n : Z) : bool * pb_istream_t :=
  if fits then (true, consumed s n) else (false, i_seterr (consumed s n) "integer too large").

Section Ranges.
Context `{App}.

Lemma fits_uint_mod w z : 0 <= w -> (z mod 2 ^ w =? z) = fits_uint w z.
Proof.
  intros Hw. pose proof (Z.mod_pos_bound z (2 ^ w) ltac:(apply Z.pow_pos_nonneg; lia)).
  unfold fits_uint. destruct (Z.eqb_spec (z mod 2 ^ w) z) as [E|E].
  - symmetry. apply andb_true_iff. rewrite Z.leb_le, Z.ltb_lt. lia.
  - symmetry. apply andb_false_iff. rewrite Z.leb_gt, Z.ltb_ge.
    destruct (Z.lt_ge_cases z 0); [by left|right].
    destruct (Z.le_gt_cases (2 ^ w) z); [done|]. rewrite Z.mod_small in E; lia.
Qed.

Lemma fits_sint_sint w z : 0 < w -> (sint w z =? z) = fits_sint w z.
Proof.
  intros Hw. unfold fits_sint. pose proof (sint_range w z Hw) as Hr. unfold in_sint in Hr.
  destruct (Z.eqb_spec (sint w z) z) as [E|E]; symmetry.
  - apply andb_true_iff. rewrite Z.leb_le, Z.ltb_lt. lia.
  - apply andb_false_iff. rewrite Z.leb_gt, Z.ltb_ge.
    destruct (Z.lt_ge_cases z (- 2 ^ (w - 1))); [by left|right].
    destruct (Z.le_gt_cases (2 ^ (w - 1)) z); [done|]. exfalso. apply E, sint_small; [done|].
    unfold in_sint. lia.
Qed.

Lemma int_size_pos ds : int_size ds -> 0 < 8 * ds.
Proof. unfold int_size. lia. Qed.

Lemma check_clamped_checked s n c z fits m :
  (c =? z) = fits -> check_clamped (consumed s n) (Some c) z m = Ok (checked fits s n) m.
Proof. intros E. unfold check_clamped, checked. rewrite E. by destruct fits. Qed.
End Ranges.

(** [pb_dec_uvarint] stores the low bytes of the decoded value in the field
    and accepts exactly the values that fit its [data_size]; any other one is
    reported as too large. *)
Theorem pb_dec_uvarint_range `{App} s f dest m v rest
    (Hds : int_size (f_data_size f)) (Hv : in_uint 64 v)
    (Hs : reading s m (varint v ++ rest)) (Hm : mapped m dest (f_data_size f)) :
  pb_dec_uvarint s f dest m
  = Ok (checked (fits_uint (8 * f_data_size f) v) s (zlen (varint v)))
      (stored m dest (le_bytes (Z.to_nat (f_data_size f)) v)).
Proof.
  unfold pb_dec_uvarint. mstep (pb_decode_varint_wire s m v rest Hv Hs).
  mstep (store_uint_any (f_data_size f) dest v m Hds Hm).
  apply check_clamped_checked, fits_uint_mod. pose proof (int_size_pos _ Hds). lia.
Qed.

Definition uint8_field : pb_field_t := PbField 1 PB_LTYPE_UVARINT 0 0 1 0 PtrNull.
Definition int16_field : pb_field_t := PbField 1 PB_LTYPE_VARINT 0 0 2 0 PtrNull.
Definition sint16_field : pb_field_t := PbField 1 PB_LTYPE_SVARINT 0 0 2 0 PtrNull.

Lemma pb_dec_uvarint_range_witness :
  pb_dec_uvarint (pb_istream_from_buffer 4000 2) uint8_field 5000 (bytes_mem [172; 2] 8)
  = Ok (false, i_seterr (consumed (pb_istream_from_buffer 4000 2) 2) "integer too large")
      (stored (bytes_mem [172; 2] 8) 5000 [44]).
Proof.
  exact (pb_dec_uvarint_range (pb_istream_from_buffer 4000 2) uint8_field 5000
           (bytes_mem [172; 2] 8) 300 [] ltac:(by left) ltac:(unfold in_uint; lia)
           ltac:(bytes_reading [172; 2])
           ltac:(eapply mapped_sub; [bytes_dest 8%nat|vm_compute; congruence..])).
Defined.

(** [pb_dec_varint] truncates the decoded value to 64 bits for an 8-byte
    field and to 32 bits for a smaller one, stores its low bytes, and accepts
    exactly the truncated values that fit the field: the upper half of a 64-bit
    encoding of an [int32] is ignored, a value too large for an 8- or 16-bit
    field is reported. *)
Theorem pb_dec_varint_range `{App} s f dest m v rest
    (Hds : int_size (f_data_size f)) (Hv : in_uint 64 v)
    (Hs : reading s m (varint v ++ rest)) (Hm : mapped m dest (f_data_size f)) :
  let sv := if f_data_size f =? 8 then s64 v else s32 v in
  pb_dec_varint s f dest m
  = Ok (checked (fits_sint (8 * f_data_size f) sv) s (zlen (varint v)))
      (stored m dest (le_bytes (Z.to_nat (f_data_size f)) sv)).
Proof.
  intros sv. unfold pb_dec_varint. mstep (pb_decode_varint_wire s m v rest Hv Hs). fold sv.
  mstep (store_sint_any (f_data_size f) dest sv m Hds Hm).
  by apply check_clamped_checked, fits_sint_sint, int_size_pos.
Qed.

Lemma pb_dec_varint_range_witness :
  pb_dec_varint (pb_istream_from_buffer 4000 10) int16_field 5000
    (bytes_mem [254; 255; 255; 255; 15; 0; 0; 0; 0; 0] 8)
  = Ok (true, consumed (pb_istream_from_buffer 4000 10) 5)
      (stored (bytes_mem [254; 255; 255; 255; 15; 0; 0; 0; 0; 0] 8) 5000 [254; 255]).
Proof.
  exact (pb_dec_varint_range (pb_istream_from_buffer 4000 10) int16_field 5000
           (bytes_mem [254; 255; 255; 255; 15; 0; 0; 0; 0; 0] 8) (2 ^ 32 - 2) [0; 0; 0; 0; 0]
           ltac:(by right; left) ltac:(unfold in_uint; lia)
           ltac:(bytes_reading [254; 255; 255; 255; 15; 0; 0; 0; 0; 0])
           ltac:(eapply mapped_sub; [bytes_dest 8%nat|vm_compute; congruence..])).
Defined.

(** [pb_dec_svarint] undoes the zig-zag encoding, stores the low bytes, and
    accepts exactly the values that fit the field. *)
Theorem pb_dec_svarint_range `{App} s f dest m v rest
    (Hds : int_size (f_data_size f)) (Hv : in_sint 64 v)
    (Hs : reading s m (varint (zigzag_spec v) ++ rest)) (Hm : mapped m dest (f_data_size f)) :
  pb_dec_svarint s f dest m
  = Ok (checked (fits_sint (8 * f_data_size f) v) s (zlen (varint (zigzag_spec v))))
      (stored m dest (le_bytes (Z.to_nat (f_data_size f)) v)).
Proof.
  unfold pb_dec_svarint, pb_decode_svarint. rewrite bind_assoc.
  mstep (pb_decode_varint_wire s m _ rest (zigzag_spec_range v Hv) Hs).
  rewrite bind_ret. cbn [fmap option_fmap option_map]. rewrite (unzigzag_spec v Hv).
  mstep (store_sint_any (f_data_size f) dest v m Hds Hm).
  by apply check_clamped_checked, fits_sint_sint, int_size_pos.
Qed.

Lemma pb_dec_svarint_range_witness :
  pb_dec_svarint (pb_istream_from_buffer 4000 3) sint16_field 5000 (bytes_mem [129; 128; 4] 8)
  = Ok (false, i_seterr (consumed (pb_istream_from_buffer 4000 3) 3) "integer too large")
      (stored (bytes_mem [129; 128; 4] 8) 5000 [255; 127]).
Proof.
  exact (pb_dec_svarint_range (pb_istream_from_buffer 4000 3) sint16_field 5000
           (bytes_mem [129; 128; 4] 8) (- 32769) []
           ltac:(by right; left) ltac:(unfold in_sint; lia)
           ltac:(bytes_reading [129; 128; 4])
           ltac:(eapply mapped_sub; [bytes_dest 8%nat|vm_compute; congruence..])).
Defined.

(** * Bytes and strings in the structure *)

(** [pb_dec_bytes] into a static field stores the length and the bytes if
    they fit the field, and otherwise fails with "bytes overflow" without
    writing anything. *)
Theorem pb_dec_bytes_static `{App} f s m bs rest dest
    (Hst : f_atype f = PB_ATYPE_STATIC) (Hlen : zlen bs < 2 ^ 32)
    (Hs : reading s m (delim bs ++ rest)) (Hnn : 0 < dest)
    (Hm : mapped m dest (f_data_size f)) (Hap : apart s dest (f_data_size f)) :
  pb_dec_bytes s f dest m
  = if OFFSETOF_BYTES + zlen bs <=? f_data_size f
    then Ok (true, consumed s (zlen (delim bs))) (stored m dest (le_bytes 4 (zlen bs) ++ bs))
    else Ok (false, i_seterr (consumed s (zlen (varint (zlen bs)))) "bytes overflow") m.
Proof.
  destruct (Z.leb_spec (OFFSETOF_BYTES + zlen bs) (f_data_size f)) as [Hle|Hgt].
  - by eapply dec_bytes_fits.
  - by eapply dec_bytes_overflow.
Qed.

Definition bytes8_field : pb_field_t := PbField 1 PB_LTYPE_BYTES 0 0 8 0 PtrNull.
Definition string4_field : pb_field_t := PbField 1 PB_LTYPE_STRING 0 0 4 0 PtrNull.

Ltac apart_closed := intros x; unfold in_range; simpl; lia.

Lemma pb_dec_bytes_static_witness :
  pb_dec_bytes (pb_istream_from_buffer 4000 6) bytes8_field 5000 (bytes_mem [5; 1; 2; 3; 4; 5] 8)
  = Ok (false, i_seterr (consumed (pb_istream_from_buffer 4000 6) 1) "bytes overflow")
      (bytes_mem [5; 1; 2; 3; 4; 5] 8).
Proof.
  exact (pb_dec_bytes_static bytes8_field (pb_istream_from_buffer 4000 6)
           (bytes_mem [5; 1; 2; 3; 4; 5] 8) [1; 2; 3; 4; 5] [] 5000
           eq_refl ltac:(vm_compute; reflexivity) ltac:(bytes_reading [5; 1; 2; 3; 4; 5])
           ltac:(lia) ltac:(bytes_dest 8%nat) ltac:(apart_closed)).
Defined.

(** [pb_dec_string] into a static field stores the characters and a
    terminating zero if there is room for both, and otherwise fails with
    "string overflow" without writing anything. *)
Theorem pb_dec_string_static `{App} f s m bs rest dest
    (Hst : f_atype f = PB_ATYPE_STATIC) (Hlen : zlen bs + 1 < 2 ^ 32)
    (Hsz : f_data_size f < 2 ^ 32)
    (Hs : reading s m (delim bs ++ rest)) (Hnn : 0 < dest)
    (Hm : mapped m dest (f_data_size f)) (Hap : apart s dest (f_data_size f)) :
  pb_dec_string s f dest m
  = if zlen bs + 1 <=? f_data_size f
    then Ok (true, consumed s (zlen (delim bs))) (stored m dest (bs ++ [0]))
    else Ok (false, i_seterr (consumed s (zlen (varint (zlen bs)))) "string overflow") m.
Proof.
  assert (zlen bs < 2 ^ 32) as Hl by lia.
  destruct (Z.leb_spec (zlen bs + 1) (f_data_size f)) as [Hle|Hgt].
  - by eapply dec_string_fits.
  - by eapply dec_string_overflow.
Qed.

Lemma pb_dec_string_static_witness :
  pb_dec_string (pb_istream_from_buffer 4000 4) string4_field 5000 (bytes_mem [3; 97; 98; 99] 4)
  = Ok (true, consumed (pb_istream_from_buffer 4000 4) 4)
      (stored (bytes_mem [3; 97; 98; 99] 4) 5000 [97; 98; 99; 0]).
Proof.
  exact (pb_dec_string_static string4_field (pb_istream_from_buffer 4000 4)
           (bytes_mem [3; 97; 98; 99] 4) [97; 98; 99] [] 5000
           eq_refl ltac:(vm_compute; reflexivity) ltac:(vm_compute; reflexivity)
           ltac:(bytes_reading [3; 97; 98; 99])
           ltac:(lia) ltac:(bytes_dest 4%nat) ltac:(apart_closed)).
Defined.

(** * Unknown fields *)

(** [pb_skip_field] moves the stream past the payload of a field of any of
    the four wire types, whatever the field, and leaves memory unchanged; any
    other wire type is an error. *)
Theorem pb_skip_field_spec `{App} s m wt w rest (Hs : reading s m (w ++ rest)) :
  (payload wt w ->
     pb_skip_field s wt m = Ok (true, consumed s (zlen w)) m
     /\ reading (consumed s (zlen w)) m rest)
  /\ (~ wt ∈ [PB_WT_VARINT; PB_WT_64BIT; PB_WT_STRING; PB_WT_32BIT] ->
      pb_skip_field s wt m = Ok (false, i_seterr s "invalid wire_type") m).
Proof.
  split.
  - intros Hp. split; [by eapply pb_skip_field_payload|by apply reading_app].
  - rewrite !not_elem_of_cons. intros (? & ? & ? & ? & _). by apply pb_skip_field_invalid.
Qed.

Lemma pb_skip_field_spec_witness :
  pb_skip_field (pb_istream_from_buffer 4000 5) PB_WT_STRING (bytes_mem [3; 7; 8; 9; 1] 0)
  = Ok (true, consumed (pb_istream_from_buffer 4000 5) 4) (bytes_mem [3; 7; 8; 9; 1] 0).
Proof.
  refine (proj1 (proj1 (pb_skip_field_spec (pb_istream_from_buffer 4000 5)
           (bytes_mem [3; 7; 8; 9; 1] 0) PB_WT_STRING [3; 7; 8; 9] [1] _) _)).
  - bytes_reading [3; 7; 8; 9; 1].
  - right; right; left. split; [reflexivity|]. exists [7; 8; 9]. split; reflexivity.
Defined.

(** * Substreams *)

(** [pb_make_string_substream] reads the length prefix and bounds the
    substream by it; once the substream has been read up to any point,
    [pb_close_string_substream] leaves the parent exactly behind the payload. *)
Theorem pb_string_substream `{App} s m w rest
    (Hw : zlen w < 2 ^ 32) (Hs : reading s m (delim w ++ rest)) :
  exists sub s1,
    pb_make_string_substream s m = Ok (Some sub, s1) m
    /\ reading sub m w /\ i_bytes_left sub = zlen w
    /\ forall k, 0 <= k <= zlen w ->
         pb_close_string_substream s1 (consumed sub k) m
         = Ok (true, consumed s (zlen (delim w))) m
         /\ reading (consumed s (zlen (delim w))) m rest.
Proof.
  destruct (pb_make_string_substream_wire s m w rest Hw Hs) as [E Hr].
  set (s1 := consumed s (zlen (varint (zlen w)))) in *.
  exists (i_set_left s1 (zlen w)), (i_set_left s1 (zlen rest)).
  split; [exact E|]. split; [exact Hr|]. split; [done|]. intros k Hk.
  pose proof (rd_left _ _ _ Hs) as Hleft.
  assert (i_set_errmsg (i_set_state (i_set_left s1 (zlen rest)) (i_state (i_set_left s1 (zlen rest)) + zlen w))
            (i_errmsg (consumed (i_set_left s1 (zlen w)) k)) = consumed s (zlen (delim w))) as Ec.
  { subst s1. unfold delim, consumed, i_set_left, i_set_state, i_set_errmsg. simpl.
    rewrite Hleft. unfold delim. rewrite !zlen_app. f_equal; lia. }
  split; [|by apply reading_app]. rewrite <- Ec.
  rewrite <- (take_drop (Z.to_nat k) w) in Hr.
  assert (zlen (take (Z.to_nat k) w) = k) as Ek by (rewrite length_take; lia).
  apply reading_app in Hr. rewrite Ek, take_drop in Hr.
  eapply pb_close_string_substream_Ok; [exact Hr|]. simpl. rewrite length_drop. lia.
Qed.

Lemma pb_string_substream_witness :
  exists sub s1,
    pb_make_string_substream (pb_istream_from_buffer 4000 5) (bytes_mem [3; 7; 8; 9; 1] 0)
    = Ok (Some sub, s1) (bytes_mem [3; 7; 8; 9; 1] 0)
    /\ pb_close_string_substream s1 (consumed sub 1) (bytes_mem [3; 7; 8; 9; 1] 0)
       = Ok (true, consumed (pb_istream_from_buffer 4000 5) 4) (bytes_mem [3; 7; 8; 9; 1] 0).
Proof.
  destruct (pb_string_substream (pb_istream_from_buffer 4000 5) (bytes_mem [3; 7; 8; 9; 1] 0)
              [7; 8; 9] [1] ltac:(vm_compute; reflexivity) ltac:(bytes_reading [3; 7; 8; 9; 1]))
    as (sub & s1 & E & _ & _ & Hc).
  exists sub, s1. split; [exact E|]. exact (proj1 (Hc 1 ltac:(vm_compute; split; congruence))).
Defined.

(** * Iterator and required fields *)

Lemma find_elem {A} (p : A -> bool) l x :
  List.find p l = Some x -> x ∈ l /\ p x = true.
Proof. intros Hf. apply List.find_some in Hf as [Hi Hp]. by rewrite list_elem_of_In. Qed.

Lemma find_none_elem {A} (p : A -> bool) l x : List.find p l = None -> x ∈ l -> p x = false.
Proof. intros Hf Hx. eapply List.find_none; [exact Hf|]. by apply list_elem_of_In. Qed.

(** The search from position [i] meets every position. *)
Lemma search_order_elem i n j : (i < n)%nat -> (j ∈ search_order i n <-> (j < n)%nat).
Proof.
  intros Hi. unfold search_order. rewrite list_elem_of_fmap. split.
  - intros (d & -> & _). apply Nat.mod_upper_bound. lia.
  - intros Hj. destruct (decide (i <= j)%nat).
    + exists (j - i)%nat. split; [|apply elem_of_seq; lia].
      replace (i + (j - i))%nat with j by lia. by rewrite Nat.mod_small.
    + exists (n - i + j)%nat. split; [|apply elem_of_seq; lia].
      replace (i + (n - i + j))%nat with (j + 1 * n)%nat by lia.
      by rewrite Nat.Div0.mod_add, Nat.mod_small.
Qed.

(** [pb_field_iter_find], started on any field of a message type with
    distinct tags, terminates; it stops on the field with the tag if the type
    has one that is not an extension range, and otherwise leaves the iterator
    where it was. *)
Theorem pb_field_iter_find_spec es tag addr i m
    (Htags : Forall (fun f => f_tag f <> 0) es) (Hnd : NoDup (map f_tag es))
    (Hi : (i < length es)%nat) :
  let fs := es ++ [PB_LAST_FIELD] in
  (forall j, (j < length es)%nat -> f_tag (field_at fs j) = tag ->
     f_ltype (field_at fs j) <> PB_LTYPE_EXTENSION ->
     pb_field_iter_find (iter_at fs addr i) tag m = Ok (true, iter_at fs addr j) m)
  /\ ((forall f, f ∈ es -> f_tag f = tag -> f_ltype f = PB_LTYPE_EXTENSION) ->
      pb_field_iter_find (iter_at fs addr i) tag m = Ok (false, iter_at fs addr i) m).
Proof.
  intros fs. subst fs. rewrite (iter_find_at es Htags tag addr i Hi). unfold ret. split.
  - intros j Hj Et Hx.
    assert (find_test tag (field_at (es ++ [PB_LAST_FIELD]) j) = true) as Hp.
    { unfold find_test. apply andb_true_iff. split; [by apply Z.eqb_eq|].
      by apply negb_true_iff, Z.eqb_neq. }
    destruct (List.find _ _) as [k|] eqn:Ef.
    + apply find_elem in Ef as [Hk Hpk]. apply search_order_elem in Hk; [|done].
      enough (k = j) as -> by done.
      unfold find_test in Hpk. apply andb_true_iff in Hpk as [Hk2%Z.eqb_eq _].
      eapply (NoDup_lookup (map f_tag es)); [done| |];
        rewrite list_lookup_fmap, (field_at_entry es) by done; simpl; [done|congruence].
    + rewrite (find_none_elem _ _ j Ef) in Hp; [done|]. by apply search_order_elem.
  - intros Hno. destruct (List.find _ _) as [k|] eqn:Ef; [|done]. exfalso.
    apply find_elem in Ef as [Hk Hpk]. apply search_order_elem in Hk; [|done].
    unfold find_test in Hpk. apply andb_true_iff in Hpk as [Hk2%Z.eqb_eq Hx].
    apply negb_true_iff, Z.eqb_neq in Hx. apply Hx, Hno; [|done].
    eapply list_elem_of_lookup_2. by apply field_at_entry.
Qed.

Lemma pb_field_iter_find_spec_witness :
  pb_field_iter_find (iter_at gdt_cct_LogEvent_fields 1000 4) 6 sample_mem
  = Ok (true, iter_at gdt_cct_LogEvent_fields 1000 1) sample_mem.
Proof.
  refine (proj1 (pb_field_iter_find_spec (removelast gdt_cct_LogEvent_fields) 6 1000 4 sample_mem
            _ _ _) 1%nat _ _ _).
  - vm_compute. repeat constructor; congruence.
  - apply (bool_decide_unpack _). vm_compute. exact I.
  - vm_compute. lia.
  - vm_compute. lia.
  - vm_compute. reflexivity.
  - vm_compute. congruence.
Defined.

(** C31: the end of [pb_decode_noinit] accepts a message exactly if every
    required field, up to the 64 it tracks, has been seen; otherwise it fails
    with "missing required field".  [idxs] are the indices of the required
    fields the loop has marked. *)
Theorem check_required_iff es addr i s m idxs ext ff ffs
    (Htags : Forall (fun f => f_tag f <> 0) es) (Hlen : Z.of_nat (length es) < 2 ^ 32)
    (Hi : (i < length es)%nat) (Hidx : Forall (fun k => 0 <= k < req_limit es) idxs) :
  let seen := foldr (fun k seen => mark_seen seen k) [0; 0] idxs in
  let l := DecLocals (iter_at (es ++ [PB_LAST_FIELD]) addr i) seen ext ff ffs in
  ((forall k, 0 <= k < req_limit es -> k ∈ idxs) -> check_required s l m = Ok (true, s) m)
  /\ (forall k, 0 <= k < req_limit es -> ~ k ∈ idxs ->
      check_required s l m = Ok (false, i_seterr s "missing required field") m).
Proof.
  intros seen l.
  assert (seen_set seen idxs) as Hseen.
  { apply marks_seen_set. eapply Forall_impl; [exact Hidx|]. intros k.
    unfold req_limit, PB_MAX_REQUIRED_FIELDS. lia. }
  subst l. rewrite (check_required_at es Htags Hlen addr i s m seen idxs ext ff ffs Hi Hseen Hidx).
  split.
  - intros Hall. rewrite bool_decide_eq_true_2; [done|]. apply Forall_forall.
    intros k Hk. apply elem_of_seqZ in Hk. apply Hall. lia.
  - intros k Hk Hmiss. rewrite bool_decide_eq_false_2; [done|]. intros Hall.
    rewrite Forall_forall in Hall. apply Hmiss, Hall, elem_of_seqZ. lia.
Qed.

(** A type with two required fields and one optional. *)
Definition required_es : list pb_field_t :=
  [PbField 1 (or3 PB_ATYPE_STATIC PB_HTYPE_REQUIRED PB_LTYPE_UVARINT) 0 0 4 0 PtrNull;
   PbField 2 (or3 PB_ATYPE_STATIC PB_HTYPE_OPTIONAL PB_LTYPE_UVARINT) 4 (-4) 4 0 PtrNull;
   PbField 3 (or3 PB_ATYPE_STATIC PB_HTYPE_REQUIRED PB_LTYPE_UVARINT) 0 0 4 0 PtrNull].

Lemma check_required_iff_witness :
  let l := DecLocals (iter_at (required_es ++ [PB_LAST_FIELD]) 5000 2)
             (mark_seen [0; 0] 0) 0 None 0 in
  check_required (pb_istream_from_buffer 4000 0) l sample_mem
  = Ok (false, i_seterr (pb_istream_from_buffer 4000 0) "missing required field") sample_mem.
Proof.
  refine (proj2 (check_required_iff required_es 5000 2 (pb_istream_from_buffer 4000 0) sample_mem
            [0] 0 None 0 _ _ _ _) 1 _ _).
  - vm_compute. repeat constructor; congruence.
  - vm_compute. reflexivity.
  - vm_compute. lia.
  - constructor; [vm_compute; split; congruence|constructor].
  - vm_compute. split; congruence.
  - intros H. apply list_elem_of_singleton in H. discriminate.
Defined.
