(* ===== verification/ProtoThms.v ===== *)
(** The generated message files are consistent: the descriptors of
    [cct.nanopb.c] and [firebasecore.nanopb.c] describe the structures of the
    headers, the default values are those of the initialisers, the enumerations
    are what their bounds say, and the stated maximum sizes are right. *)
From stdpp Require Import base list numbers option strings gmap.
From S2P Require Import Prelude Varint Machine PbTypes PbCommon PbIter PbEncode PbDecode PbWire PbRep.
From S2P Require Import PbRep ProtoLayout Cct FirebaseCore Sample.
Open Scope Z_scope.
Open Scope c_scope.

(** A generated message: its structure, descriptor and default initialiser. *)
Record message := Message {
  msg_struct : ctype;
  msg_fields : list pb_field_t;
  msg_default : cinit
}.

Definition messages : list message :=
  [Message gdt_cct_NetworkConnectionInfo gdt_cct_NetworkConnectionInfo_fields
     gdt_cct_NetworkConnectionInfo_init_default;
   Message gdt_cct_LogEvent gdt_cct_LogEvent_fields gdt_cct_LogEvent_init_default;
   Message gdt_cct_IosClientInfo gdt_cct_IosClientInfo_fields gdt_cct_IosClientInfo_init_default;
   Message gdt_cct_ClientInfo gdt_cct_ClientInfo_fields gdt_cct_ClientInfo_init_default;
   Message gdt_cct_LogRequest gdt_cct_LogRequest_fields gdt_cct_LogRequest_init_default;
   Message gdt_cct_BatchedLogRequest gdt_cct_BatchedLogRequest_fields
     gdt_cct_BatchedLogRequest_init_default;
   Message gdt_cct_QosTierConfiguration gdt_cct_QosTierConfiguration_fields
     gdt_cct_QosTierConfiguration_init_default;
   Message gdt_cct_QosTiersOverride gdt_cct_QosTiersOverride_fields
     gdt_cct_QosTiersOverride_init_default;
   Message gdt_cct_LogResponse gdt_cct_LogResponse_fields gdt_cct_LogResponse_init_default;
   Message logs_proto_mobilesdk_ios_ICoreConfiguration
     logs_proto_mobilesdk_ios_ICoreConfiguration_fields
     logs_proto_mobilesdk_ios_ICoreConfiguration_init_default].

(** The data members of a structure in order, each with the member that says
    whether it is there ([has_m]) or how many there are ([m_count]), or itself. *)
Fixpoint data_members (ms : list (string * (Z * Z))) : list (Z * size_ptr) :=
  match ms with
  | [] => []
  | (n1, (o1, _)) :: ms' =>
      match ms' with
      | (n2, (o2, _)) :: ms'' =>
          if String.eqb n1 ("has_" +:+ n2) || String.eqb n1 (n2 +:+ "_count")
          then (o2, AtAddr o1) :: data_members ms''
          else (o1, AtAddr o1) :: data_members ms'
      | [] => [(o1, AtAddr o1)]
      end
  end.

(** For every generated message, the field iterator, walking the relative
    offsets of the descriptor, arrives at the offset of every data member of the
    C structure in turn, and at the offset of its has-flag or count. *)
Theorem descriptors_match_structs :
  Forall (fun d => map (fun x => (x.1.2, x.2)) (descriptor_offsets (msg_fields d))
                   = data_members (struct_members (msg_struct d))) messages.
Proof. repeat constructor. Qed.

Definition tag_in_range (f : pb_field_t) : bool := (0 <? f_tag f) && (f_tag f <? 2 ^ 32).

Lemma tags_in_range es :
  forallb tag_in_range es = true -> Forall (fun f => 0 < f_tag f < 2 ^ 32) es.
Proof.
  rewrite forallb_forall. intros H. apply Forall_forall. intros f Hf.
  apply list_elem_of_In, H in Hf. unfold tag_in_range in Hf.
  apply andb_true_iff in Hf as [?%Z.ltb_lt ?%Z.ltb_lt]. lia.
Qed.

(** Every generated descriptor array is well formed, which the theorems on
    the encoder and the decoder ask for: it ends with the terminator, its tags
    are nonzero 32-bit numbers, and no tag occurs twice. *)
Theorem descriptors_well_formed :
  Forall (fun d => wf_fields (msg_fields d) /\ NoDup (map f_tag (entries (msg_fields d)))) messages.
Proof.
  repeat (apply Forall_cons; split;
    [split;
      [match goal with |- wf_fields ?f =>
         exists (removelast f); split; [reflexivity|apply tags_in_range; vm_compute; reflexivity]
       end
      |apply (bool_decide_unpack _); vm_compute; exact I]|]).
  apply Forall_nil. exact I.
Qed.

(** A structure of the message's size, filled with junk, at address 1000. *)
Definition junk_struct (d : message) : mem :=
  Mem (map_range 1000 (replicate (Z.to_nat (sizeof (msg_struct d))) 205) ∅) ∅ 100000 0.

(** The memory [m] holds the scalar [c] of an initialiser of the structure at
    [addr]. *)
Definition cell_holds (m : mem) (addr : Z) (c : Z * Z * Z) : bool :=
  let '(off, size, v) := c in
  forallb (fun ib => bool_decide (cells m !! (addr + off + Z.of_nat ib.1) = Some ib.2))
    (zip (seq 0 (Z.to_nat size)) (le_bytes (Z.to_nat size) v)).

Definition defaults_match (d : message) : bool :=
  match pb_message_set_to_defaults 4 (msg_fields d) 1000 (junk_struct d) with
  | Ok _ m => forallb (cell_holds m 1000) (init_cells (msg_struct d) 0 (msg_default d))
  | _ => false
  end.

(** for every generated message, [pb_message_set_to_defaults] on a
    structure that holds junk sets every member to the value that the
    [..._init_default] initialiser of the header gives it. *)
Theorem defaults_match_initialisers : forallb defaults_match messages = true.
Proof. vm_compute. reflexivity. Qed.

(** * Enumerations *)

(** The numbers of an enumeration are distinct, lie between the declared
    minimum and maximum, and the array size is one more than the maximum. *)
Record enum_ok {E} (val : E -> Z) (mn mx : E) (size : Z) : Prop := {
  enum_inj : forall e1 e2, val e1 = val e2 -> e1 = e2;
  enum_bounds : forall e, val mn <= val e <= val mx;
  enum_size : size = val mx + 1
}.

Ltac enum_cases :=
  split; [intros [] []; (reflexivity || discriminate)
         |intros []; vm_compute; split; discriminate|reflexivity].

(** Every enumeration of the generated headers has distinct numbers, within
    its [_MIN] and [_MAX], and an [_ARRAYSIZE] that covers them. *)
Theorem enumerations_ok :
  enum_ok gdt_cct_NetworkConnectionInfo_NetworkType_val _gdt_cct_NetworkConnectionInfo_NetworkType_MIN _gdt_cct_NetworkConnectionInfo_NetworkType_MAX
       _gdt_cct_NetworkConnectionInfo_NetworkType_ARRAYSIZE
  /\ enum_ok gdt_cct_NetworkConnectionInfo_MobileSubtype_val _gdt_cct_NetworkConnectionInfo_MobileSubtype_MIN _gdt_cct_NetworkConnectionInfo_MobileSubtype_MAX
       _gdt_cct_NetworkConnectionInfo_MobileSubtype_ARRAYSIZE
  /\ enum_ok gdt_cct_ClientInfo_ClientType_val _gdt_cct_ClientInfo_ClientType_MIN _gdt_cct_ClientInfo_ClientType_MAX
       _gdt_cct_ClientInfo_ClientType_ARRAYSIZE
  /\ enum_ok gdt_cct_QosTierConfiguration_QosTier_val _gdt_cct_QosTierConfiguration_QosTier_MIN _gdt_cct_QosTierConfiguration_QosTier_MAX
       _gdt_cct_QosTierConfiguration_QosTier_ARRAYSIZE
  /\ enum_ok logs_proto_mobilesdk_ios_ICoreConfiguration_ConfigurationType_val _logs_proto_mobilesdk_ios_ICoreConfiguration_ConfigurationType_MIN _logs_proto_mobilesdk_ios_ICoreConfiguration_ConfigurationType_MAX
       _logs_proto_mobilesdk_ios_ICoreConfiguration_ConfigurationType_ARRAYSIZE
  /\ enum_ok logs_proto_mobilesdk_ios_ICoreConfiguration_BuildType_val _logs_proto_mobilesdk_ios_ICoreConfiguration_BuildType_MIN _logs_proto_mobilesdk_ios_ICoreConfiguration_BuildType_MAX
       _logs_proto_mobilesdk_ios_ICoreConfiguration_BuildType_ARRAYSIZE
  /\ enum_ok logs_proto_mobilesdk_ios_ICoreConfiguration_ServiceType_val _logs_proto_mobilesdk_ios_ICoreConfiguration_ServiceType_MIN _logs_proto_mobilesdk_ios_ICoreConfiguration_ServiceType_MAX
       _logs_proto_mobilesdk_ios_ICoreConfiguration_ServiceType_ARRAYSIZE
  /\ enum_ok logs_proto_mobilesdk_ios_ICoreConfiguration_PodName_val _logs_proto_mobilesdk_ios_ICoreConfiguration_PodName_MIN _logs_proto_mobilesdk_ios_ICoreConfiguration_PodName_MAX
       _logs_proto_mobilesdk_ios_ICoreConfiguration_PodName_ARRAYSIZE
  /\ enum_ok logs_proto_mobilesdk_ios_ICoreConfiguration_DeploymentType_val _logs_proto_mobilesdk_ios_ICoreConfiguration_DeploymentType_MIN _logs_proto_mobilesdk_ios_ICoreConfiguration_DeploymentType_MAX
       _logs_proto_mobilesdk_ios_ICoreConfiguration_DeploymentType_ARRAYSIZE.
Proof. split_and!; enum_cases. Qed.

(** * Maximum sizes *)

(** A singular field that may be absent. *)
Definition optional_item (z : option Z) : list value :=
  match z with Some z => [VScalar z] | None => [] end.

Definition zlen_network (t : option gdt_cct_NetworkConnectionInfo_NetworkType)
    (s : option gdt_cct_NetworkConnectionInfo_MobileSubtype) : Z :=
  zlen (msg_wire gdt_cct_NetworkConnectionInfo_fields
          [optional_item (gdt_cct_NetworkConnectionInfo_NetworkType_val <$> t);
           optional_item (gdt_cct_NetworkConnectionInfo_MobileSubtype_val <$> s)]).

Definition zlen_qos (t : option gdt_cct_QosTierConfiguration_QosTier) (source : option Z) : Z :=
  zlen (msg_wire gdt_cct_QosTierConfiguration_fields
          [optional_item (gdt_cct_QosTierConfiguration_QosTier_val <$> t); optional_item source]).

(** The [..._size] constants of [cct.nanopb.h] bound the encoding of their
    messages, for all values of the enumerations and of the [int32] field, and
    are reached. *)
Theorem maximum_sizes :
  (forall t s, zlen_network t s <= gdt_cct_NetworkConnectionInfo_size)
  /\ (exists t s, zlen_network t s = gdt_cct_NetworkConnectionInfo_size)
  /\ (forall t source, zlen_qos t source <= gdt_cct_QosTierConfiguration_size)
  /\ (exists t z, in_sint 32 z /\ zlen_qos t (Some z) = gdt_cct_QosTierConfiguration_size).
Proof.
  split_and!.
  - intros [[]|] [[]|]; vm_compute; discriminate.
  - exists (Some gdt_cct_NetworkConnectionInfo_NetworkType_NONE),
      (Some gdt_cct_NetworkConnectionInfo_MobileSubtype_UNKNOWN_MOBILE_SUBTYPE).
    vm_compute. reflexivity.
  - intros t source. unfold zlen_qos, gdt_cct_QosTierConfiguration_size.
    assert (forall items, zlen (msg_wire gdt_cct_QosTierConfiguration_fields [items; optional_item source])
            <= zlen (field_wire (nth 0 gdt_cct_QosTierConfiguration_fields PB_LAST_FIELD) items) + 11)
      as Hs.
    { intros items. unfold msg_wire.
      change (entries gdt_cct_QosTierConfiguration_fields)
        with [nth 0 gdt_cct_QosTierConfiguration_fields PB_LAST_FIELD;
              nth 1 gdt_cct_QosTierConfiguration_fields PB_LAST_FIELD].
      cbn [fields_wire]. rewrite app_nil_r, zlen_app. apply Zplus_le_compat_l.
      destruct source as [z|]; [|vm_compute; discriminate].
      change (field_wire (nth 1 gdt_cct_QosTierConfiguration_fields PB_LAST_FIELD) (optional_item (Some z)))
        with ((24 :: varint (u64 z)) ++ []).
      rewrite app_nil_r, zlen_cons. pose proof (varint_length (u64 z)). lia. }
    eapply Z.le_trans; [apply Hs|].
    destruct t as [[]|]; vm_compute; discriminate.
  - exists (Some gdt_cct_QosTierConfiguration_QosTier_NEVER), (-1).
    split; [unfold in_sint; lia|vm_compute; reflexivity].
Qed.
