(* ===== verification/Base64Spec.v ===== *)
(** Correctness of [f_b64_ntop] and [f_b64_pton]: the text is the base64 text
    of the input, buffers are respected for every input, and decoding inverts
    encoding. *)
From stdpp Require Import base list list_numbers numbers option gmap.
From S2P Require Import Prelude Machine Base64.
Open Scope Z_scope.
Open Scope c_scope.

(** ** Digits *)
Lemma base64_at_digit i : 0 <= i < 64 -> base64_at i = ret (b64_digit i).
Proof.
  intros Hi. unfold base64_at.
  assert (Forall (fun k => Base64 !! k = Some (b64_digit (Z.of_nat k))) (seq 0 64)) as Hall
    by (repeat constructor).
  rewrite Forall_forall in Hall. rewrite (Hall (Z.to_nat i)).
  - by rewrite Z2Nat.id by lia.
  - apply elem_of_seq. lia.
Qed.

Lemma base64_pos_digit i : 0 <= i < 64 -> base64_pos (b64_digit i) = Some i.
Proof.
  intros Hi.
  assert (Forall (fun k => base64_pos (b64_digit (Z.of_nat k)) = Some (Z.of_nat k)) (seq 0 64)) as Hall
    by (repeat constructor).
  rewrite Forall_forall in Hall. specialize (Hall (Z.to_nat i)).
  rewrite Z2Nat.id in Hall by lia. apply Hall, elem_of_seq. lia.
Qed.

(** The values [base64_pos] finds are digits. *)
Lemma index_of_range l ch i k : index_of l ch i = Some k -> i <= k < i + zlen l.
Proof.
  revert i. induction l as [|c l IH]; intros i Hk; [done|]. cbn [index_of] in Hk.
  rewrite zlen_cons. destruct (c =? ch); [simplify_eq; lia|]. apply IH in Hk. lia.
Qed.

Lemma base64_pos_range ch d : base64_pos ch = Some d -> 0 <= d < 64.
Proof. intros Hd. apply index_of_range in Hd. exact Hd. Qed.

Lemma b64_digit_props i :
  0 <= i < 64 ->
  0 < b64_digit i < 128 /\ isspace (b64_digit i) = false /\ (b64_digit i =? Pad64) = false.
Proof.
  intros Hi.
  assert (Forall (fun k => (0 <? b64_digit (Z.of_nat k)) && (b64_digit (Z.of_nat k) <? 128)
    && negb (isspace (b64_digit (Z.of_nat k))) && negb (b64_digit (Z.of_nat k) =? Pad64) = true)
    (seq 0 64)) as Hall by (repeat constructor).
  rewrite Forall_forall in Hall. specialize (Hall (Z.to_nat i) ltac:(apply elem_of_seq; lia)).
  rewrite Z2Nat.id in Hall by lia.
  rewrite !andb_true_iff, !negb_true_iff, !Z.ltb_lt in Hall. tauto.
Qed.

(** ** Groups *)
Lemma quads_group a b c :
  is_byte a -> is_byte b -> is_byte c ->
  let v := a * 2 ^ 16 + b * 2 ^ 8 + c in
  quads (a, b, c) = (v / 2 ^ 18, v / 2 ^ 12 mod 64, v / 2 ^ 6 mod 64, v mod 64).
Proof.
  intros Ha Hb Hc v. unfold quads, v.
  rewrite land_03, land_0f, land_3f, !shiftr_div, !Z.shiftl_mul_pow2 by lia.
  unfold in_uint in *. unfold u8. pow2. f_equal; [f_equal; [f_equal|]|];
    Z.to_euclidean_division_equations; lia.
Qed.

Lemma group_range v : 0 <= v < 2 ^ 24 ->
  0 <= v / 2 ^ 18 < 64 /\ 0 <= v / 2 ^ 12 mod 64 < 64 /\ 0 <= v / 2 ^ 6 mod 64 < 64
  /\ 0 <= v mod 64 < 64.
Proof. intros. pow2. Z.to_euclidean_division_equations; lia. Qed.

Lemma byte_group_range a b c :
  is_byte a -> is_byte b -> is_byte c -> 0 <= a * 2 ^ 16 + b * 2 ^ 8 + c < 2 ^ 24.
Proof. unfold in_uint. pow2. lia. Qed.

Lemma b64_text_app k g r :
  length g = (3 * k)%nat -> b64_text (g ++ r) = b64_text g ++ b64_text r.
Proof.
  revert g. induction k as [|k IH]; intros g Hg.
  - by destruct g.
  - destruct g as [|a [|b [|c g]]]; simpl in Hg; try lia.
    cbn [app b64_text]. rewrite IH by lia. by rewrite app_assoc.
Qed.

Lemma b64_text_full_length k g : length g = (3 * k)%nat -> length (b64_text g) = (4 * k)%nat.
Proof.
  revert g. induction k as [|k IH]; intros g Hg.
  - by destruct g.
  - destruct g as [|a [|b [|c g]]]; simpl in Hg; try lia.
    cbn [b64_text]. rewrite length_app, IH by lia. simpl. lia.
Qed.

(** Every list is full groups and a rest of less than a group. *)
Lemma split_groups {A} (l : list A) :
  exists k g r, l = g ++ r /\ length g = (3 * k)%nat /\ (length r < 3)%nat.
Proof.
  exists (length l / 3)%nat, (take (3 * (length l / 3)) l), (drop (3 * (length l / 3)) l).
  pose proof (Nat.div_mod (length l) 3 ltac:(lia)) as Hd.
  pose proof (Nat.mod_upper_bound (length l) 3 ltac:(lia)) as Hm.
  split_and!; [by rewrite take_drop|rewrite length_take; lia|rewrite length_drop; lia].
Qed.

Lemma b64_text_length l :
  zlen (b64_text l) = 4 * ((zlen l + 2) / 3).
Proof.
  destruct (split_groups l) as (k & g & r & -> & Hg & Hr).
  rewrite (b64_text_app k), !zlen_app, (b64_text_full_length k), Hg by done.
  destruct r as [|a [|b [|c r]]]; simpl in Hr; try lia; simpl length;
    Z.to_euclidean_division_equations; lia.
Qed.

(** The text consists of bytes. *)
Lemma b64_group_bytes v : 0 <= v < 2 ^ 24 -> Forall is_byte (b64_group v).
Proof.
  intros Hv. destruct (group_range v Hv) as (R0 & R1 & R2 & R3).
  assert (forall i, 0 <= i < 64 -> is_byte (b64_digit i)) as Hd.
  { intros i Hi. destruct (b64_digit_props i Hi) as (Hr & _). unfold in_uint. pow2. lia. }
  unfold b64_group. cbn [fmap list_fmap].
  do 4 (constructor; [by apply Hd|]). constructor.
Qed.

Lemma b64_text_bytes l : Forall is_byte l -> Forall is_byte (b64_text l).
Proof.
  intros Hby. destruct (split_groups l) as (k & g & r & -> & Hg & Hr).
  rewrite (b64_text_app k) by done. apply Forall_app in Hby as [Hbg Hbr].
  assert (is_byte 0) as H0 by done. assert (is_byte Pad64) as Hp by done.
  apply Forall_app. split.
  - clear Hr Hbr. revert g Hg Hbg. induction k as [|k IH]; intros g Hg Hbg.
    + by destruct g.
    + destruct g as [|a [|b [|c g]]]; simpl in Hg; try lia.
      do 3 (apply Forall_cons in Hbg as [? Hbg]). cbn [b64_text]. apply Forall_app. split.
      * by apply b64_group_bytes, byte_group_range.
      * apply IH; [lia|done].
  - destruct r as [|a [|b [|c r]]]; simpl in Hr; try lia; cbn [b64_text].
    + constructor.
    + apply Forall_cons in Hbr as [Ha _]. apply Forall_app. split; [|by repeat constructor].
      apply Forall_take, b64_group_bytes. unfold in_uint in Ha. pow2. lia.
    + apply Forall_cons in Hbr as [Ha Hbr]. apply Forall_cons in Hbr as [Hb _].
      apply Forall_app. split; [|by repeat constructor].
      apply Forall_take, b64_group_bytes. unfold in_uint in Ha, Hb. pow2. lia.
Qed.

(** ** Encoding *)
Lemma store8_Ok m a b : mapped m a 1 -> store8 a b m = Ok tt (stored m a [b]).
Proof.
  intros Hm. unfold store8. destruct (Hm a) as [y Hy]; [unfold in_range; lia|]. by rewrite Hy.
Qed.

Lemma store8_bind {B} m a b (k : unit -> M B) :
  mapped m a 1 -> bind (store8 a b) k m = k tt (stored m a [b]).
Proof. intros Hm. by mstep (store8_Ok m a b Hm). Qed.

Lemma load8_Ok m a b l : bytes_at m a (b :: l) -> load8 a m = Ok b m.
Proof.
  intros Hb. unfold load8. specialize (Hb 0%nat b eq_refl). rewrite Z.add_0_r in Hb. by rewrite Hb.
Qed.

Lemma bytes_at_tail m a b l : bytes_at m a (b :: l) -> bytes_at m (a + 1) l.
Proof. intros Hb. by apply (bytes_at_app m a [b] l) in Hb as [_ Hb]. Qed.

(** Four stores in a row. *)
Lemma store4 {B} m t d c0 c1 c2 c3 (k : unit -> M B) :
  mapped m (t + d) 4 ->
  (store8 (t + d) c0 ;; store8 (t + (d + 1)) c1 ;; store8 (t + (d + 2)) c2 ;;
   bind (store8 (t + (d + 3)) c3) k) m
  = k tt (stored m (t + d) [c0; c1; c2; c3]).
Proof.
  intros Hm. rewrite !Z.add_assoc. set (a := t + d) in *.
  assert (forall i, 0 <= i < 4 -> mapped m (a + i) 1) as Hi.
  { intros i Hi. eapply mapped_sub; [exact Hm|lia..]. }
  pose proof (Hi 0 ltac:(lia)) as H0. rewrite Z.add_0_r in H0.
  rewrite store8_bind by done.
  rewrite store8_bind by (apply stored_mapped, Hi; lia).
  rewrite store8_bind by (do 2 apply stored_mapped; apply Hi; lia).
  rewrite store8_bind by (do 3 apply stored_mapped; apply Hi; lia).
  f_equal. unfold stored, upd_cells. simpl. by rewrite <- !Z.add_assoc.
Qed.

Section Encode.
Variables (target targsize : Z).
Hypothesis targsize_ok : 0 <= targsize < 2 ^ 63.

(** The input [l] at [src] lies apart from the target. *)
Definition source (m : mem) (src : Z) (l : list Z) : Prop :=
  bytes_at m src l /\ Forall is_byte l
  /\ forall x, in_range src (zlen l) x -> ~ in_range target targsize x.

Lemma source_stored m src l a w :
  source m src l -> target <= a -> a + zlen w <= target + targsize ->
  source (stored m a w) src l.
Proof.
  intros (Hb & Hby & Hap) H1 H2. split_and!; [|done|done].
  eapply bytes_at_agree; [|exact Hb]. apply stored_agree. intros x Hx Hin.
  apply (Hap x Hx). unfold in_range in *. lia.
Qed.

Lemma source_app m src l1 l2 : source m src (l1 ++ l2) -> source m (src + zlen l1) l2.
Proof.
  intros (Hb & Hby & Hap). apply bytes_at_app in Hb as [_ Hb]. apply Forall_app in Hby as [_ Hby].
  split_and!; [done|done|]. intros x Hx. apply Hap. rewrite zlen_app. unfold in_range in *. lia.
Qed.

Lemma ntop_loop_Ok k n m src g r dl :
  length g = (3 * k)%nat -> (length r < 3)%nat -> (k <= n)%nat -> 0 <= dl <= targsize ->
  mapped m target targsize -> source m src (g ++ r) ->
  exists w, zlen w <= 4 * Z.of_nat k /\ (w = [] \/ dl + zlen w <= targsize) /\
    ntop_loop n src (zlen (g ++ r)) target targsize dl m
    = (if dl + 4 * Z.of_nat k <=? targsize
       then Ok (Some (src + zlen g, zlen r, dl + 4 * Z.of_nat k)) (stored m (target + dl) (b64_text g))
       else Ok None (stored m (target + dl) w)).
Proof.
  revert n m src g dl. induction k as [|k IH]; intros n m src g dl Hg Hr Hn Hdl Hm Hs.
  - destruct g; [|simpl in Hg; lia]. cbn [app b64_text length]. exists [].
    split_and!; [simpl; lia|by left|]. rewrite stored_nil.
    change (4 * Z.of_nat 0) with 0. change (Z.of_nat 0) with 0. rewrite !Z.add_0_r.
    assert ((2 <? zlen r) = false) as Hlt by (apply Z.ltb_ge; lia).
    rewrite (proj2 (Z.leb_le dl targsize)) by lia.
    destruct n; cbn [ntop_loop]; by rewrite Hlt.
  - destruct g as [|a [|b [|c g]]]; simpl in Hg; try lia. destruct n as [|n]; [lia|].
    pose proof Hs as (Hb & Hby & Hap). cbn [app] in *.
    do 3 (apply Forall_cons in Hby as [? Hby]).
    cbn [ntop_loop]. rewrite !zlen_cons.
    destruct (Z.ltb_spec 2 (1 + (1 + (1 + zlen (g ++ r))))); [|lia].
    mstep (load8_Ok m src a _ Hb). apply bytes_at_tail in Hb.
    mstep (load8_Ok m (src + 1) b _ Hb). apply bytes_at_tail in Hb. rewrite <- Z.add_assoc in Hb.
    mstep (load8_Ok m (src + 2) c _ Hb).
    rewrite quads_group by done. cbv zeta. cbn beta iota.
    pose proof (byte_group_range a b c ltac:(done) ltac:(done) ltac:(done)) as Hv.
    destruct (group_range _ Hv) as (R0 & R1 & R2 & R3).
    rewrite u64_small by (unfold in_uint; pow2; lia).
    destruct (Z.ltb_spec targsize (dl + 4)) as [Hfull|Hfit].
    + exists []. rewrite stored_nil. split_and!; [simpl; lia|by left|].
      destruct (Z.leb_spec (dl + 4 * Z.of_nat (S k)) targsize); [lia|done].
    + rewrite !base64_at_digit by done.
      set (v := a * 2 ^ 16 + b * 2 ^ 8 + c) in *.
      set (m1 := stored m (target + dl) (b64_group v)).
      destruct (IH n m1 (src + 3) g (dl + 4)) as (w & Hw1 & Hw2 & E); [lia|lia|lia|lia| | |].
      { by apply stored_mapped. }
      { apply (source_app _ _ [a; b; c]). apply source_stored; [exact Hs|lia|simpl; lia]. }
      exists (if dl + 4 * Z.of_nat (S k) <=? targsize then [] else b64_group v ++ w).
      change (zlen (b64_group v)) with 4 in *.
      split_and!.
      { destruct (Z.leb_spec (dl + 4 * Z.of_nat (S k)) targsize); [cbn [length]; lia|].
        rewrite zlen_app. change (zlen (b64_group v)) with 4. lia. }
      { destruct (Z.leb_spec (dl + 4 * Z.of_nat (S k)) targsize); [by left|right].
        rewrite zlen_app. change (zlen (b64_group v)) with 4.
        destruct Hw2 as [-> |Hw2]; cbn [length]; lia. }
      etrans; [apply (store4 m target dl); eapply mapped_sub; [exact Hm|lia..]|].
      replace (1 + (1 + (1 + zlen (g ++ r))) - 3) with (zlen (g ++ r)) by lia.
      fold (b64_group v). etrans; [exact E|].
      replace (dl + 4 + 4 * Z.of_nat k) with (dl + 4 * Z.of_nat (S k)) by lia.
      subst m1. cbn [b64_text]. fold v.
      replace (src + 3 + zlen g) with (src + (1 + (1 + (1 + zlen g)))) by lia.
      destruct (Z.leb_spec (dl + 4 * Z.of_nat (S k)) targsize); rewrite stored_app;
        change (zlen (b64_group v)) with 4; replace (target + (dl + 4)) with (target + dl + 4) by lia; reflexivity.
Qed.

Lemma ntop_tail_Ok m src r dl :
  (length r < 3)%nat -> 0 <= dl <= targsize -> mapped m target targsize -> source m src r ->
  ntop_tail src (zlen r) target targsize dl m
  = (if dl + zlen (b64_text r) <=? targsize
     then Ok (Some (dl + zlen (b64_text r))) (stored m (target + dl) (b64_text r))
     else Ok None m).
Proof.
  intros Hr Hdl Hm (Hb & Hby & Hap). unfold ntop_tail.
  destruct r as [|a [|b [|c r]]]; simpl in Hr; try lia.
  - rewrite stored_nil. cbn [b64_text length]. rewrite Z.add_0_r.
    by rewrite (proj2 (Z.leb_le dl targsize)) by lia.
  - apply Forall_cons in Hby as [Ha _]. change (zlen [a]) with 1. cbn [Z.eqb Z.ltb Z.compare].
    mstep (load8_Ok m src a _ Hb). change (1 <? 1) with false. cbn iota. rewrite bind_ret.
    rewrite quads_group by (done || (unfold in_uint; pow2; lia)). cbv zeta. cbn beta iota.
    replace (a * 2 ^ 16 + 0 * 2 ^ 8 + 0) with (a * 2 ^ 16) by lia.
    pose proof (byte_group_range a 0 0 Ha) as Hv.
    replace (a * 2 ^ 16 + 0 * 2 ^ 8 + 0) with (a * 2 ^ 16) in Hv by lia.
    destruct (group_range _ (Hv ltac:(done) ltac:(done))) as (R0 & R1 & R2 & R3).
    rewrite u64_small by (unfold in_uint; pow2; lia).
    change (zlen (b64_text [a])) with 4.
    destruct (Z.ltb_spec targsize (dl + 4)); destruct (Z.leb_spec (dl + 4) targsize); try lia;
      [done|].
    rewrite !base64_at_digit by done.
    etrans; [apply (store4 m target dl); eapply mapped_sub; [exact Hm|lia..]|]. done.
  - apply Forall_cons in Hby as [Ha Hby]. apply Forall_cons in Hby as [Hb' _].
    change (zlen [a; b]) with 2. cbn [Z.eqb].
    mstep (load8_Ok m src a _ Hb). change (1 <? 2) with true. cbn iota.
    apply bytes_at_tail in Hb. mstep (load8_Ok m (src + 1) b _ Hb).
    rewrite quads_group by (done || (unfold in_uint; pow2; lia)). cbv zeta. cbn beta iota.
    replace (a * 2 ^ 16 + b * 2 ^ 8 + 0) with (a * 2 ^ 16 + b * 2 ^ 8) by lia.
    pose proof (byte_group_range a b 0 Ha Hb' ltac:(done)) as Hv. rewrite Z.add_0_r in Hv.
    destruct (group_range _ Hv) as (R0 & R1 & R2 & R3).
    rewrite u64_small by (unfold in_uint; pow2; lia).
    change (zlen (b64_text [a; b])) with 4.
    destruct (Z.ltb_spec targsize (dl + 4)); destruct (Z.leb_spec (dl + 4) targsize); try lia;
      [done|].
    change (2 =? 1) with false. rewrite !base64_at_digit by done.
    etrans; [apply (store4 m target dl); eapply mapped_sub; [exact Hm|lia..]|]. done.
Qed.

(** Both outcomes of the encoder. *)
Lemma f_b64_ntop_Ok m src l :
  mapped m target targsize -> source m src l -> zlen (b64_text l) < 2 ^ 31 ->
  exists w, zlen w <= targsize /\
    f_b64_ntop src (zlen l) target targsize m
    = if zlen (b64_text l) <? targsize
      then Ok (zlen (b64_text l)) (stored m target (b64_text l ++ [0]))
      else Ok (-1) (stored m target w).
Proof.
  intros Hm Hs Hlen. destruct (split_groups l) as (k & g & r & -> & Hg & Hr).
  pose proof (b64_text_full_length k g Hg) as Hgl.
  rewrite (b64_text_app k) in * by done. rewrite (zlen_app (b64_text g)) in *.
  pose proof (ntop_loop_Ok k (Z.to_nat (zlen (g ++ r))) m src g r 0 Hg Hr) as Hloop.
  destruct Hloop as (w & Hw1 & Hw2 & E); [rewrite length_app; lia|lia|done|done|].
  unfold f_b64_ntop. rewrite Z.add_0_r, Z.add_0_l in E.
  destruct (Z.leb_spec (4 * Z.of_nat k) targsize) as [Hk|Hk].
  2: { exists w. mstep E. cbn beta iota.
       destruct (Z.ltb_spec (zlen (b64_text g) + zlen (b64_text r)) targsize); [lia|].
       split; [|done]. destruct Hw2 as [-> |Hw2]; [cbn [length]; lia|lia]. }
  mstep E. cbn beta iota.
  assert (source (stored m target (b64_text g)) (src + zlen g) r) as Hsr.
  { apply source_app. apply source_stored; [done|lia|lia]. }
  pose proof (ntop_tail_Ok _ _ r (4 * Z.of_nat k) Hr ltac:(lia)
    ltac:(apply stored_mapped, Hm) Hsr) as Et.
  replace (4 * Z.of_nat k) with (zlen (b64_text g)) in * by lia.
  set (dl := zlen (b64_text g) + zlen (b64_text r)) in *.
  destruct (Z.leb_spec dl targsize) as [Hfit|Hfull]; mstep Et; cbn beta iota.
  - rewrite <- stored_app. destruct (Z.leb_spec targsize dl) as [Heq|Hlt].
    + exists (b64_text g ++ b64_text r). rewrite zlen_app. split; [lia|].
      destruct (Z.ltb_spec dl targsize); [lia|done].
    + exists []. split; [cbn [length]; lia|]. destruct (Z.ltb_spec dl targsize); [|lia].
      rewrite store8_bind.
      2: { apply stored_mapped. eapply mapped_sub; [exact Hm|lia..]. }
      unfold s32. rewrite sint_small by (unfold in_sint; pow2; lia).
      rewrite (stored_app _ _ (_ ++ _)), zlen_app. done.
  - exists (b64_text g). split; [lia|]. destruct (Z.ltb_spec dl targsize); [lia|done].
Qed.
End Encode.

(** * Decoding *)
Section Decode.
Variables (target targsize : Z).
Hypothesis nonnull : target <> NULL.
Hypothesis targsize_ok : 0 <= targsize < 2 ^ 31.

(** The text [l] at [src], apart from the target. *)
Definition text (m : mem) (src : Z) (l : list Z) : Prop :=
  source target targsize m src l.

(** Memory changed within the target only. *)
Definition within (m m' : mem) : Prop :=
  agree_on (fun x => ~ in_range target targsize x) m m' /\ mapped m' target targsize.

Lemma within_trans m1 m2 m3 : within m1 m2 -> within m2 m3 -> within m1 m3.
Proof. intros [A1 _] [A2 M2]. split; [by eapply agree_on_trans|done]. Qed.

Lemma within_refl m : mapped m target targsize -> within m m.
Proof. by split. Qed.

Lemma within_stored m a l :
  mapped m target targsize -> target <= a -> a + zlen l <= target + targsize ->
  within m (stored m a l).
Proof.
  intros Hm H1 H2. split; [|by apply stored_mapped]. apply stored_agree.
  intros x Hx Hin. apply Hx. unfold in_range in *. lia.
Qed.

Lemma text_within m m' src l : text m src l -> within m m' -> text m' src l.
Proof.
  intros (Hb & Hby & Hap) [Ha _]. split_and!; [|done|done].
  eapply bytes_at_agree; [|exact Hb]. eapply agree_on_sub; [|exact Ha]. exact Hap.
Qed.

Lemma text_tail m src c l : text m src (c :: l) -> text m (src + 1) l.
Proof. apply (source_app target targsize m src [c] l). Qed.

Lemma next_char_Ok m src c l : text m src (c :: l) -> next_char src m = Ok (s8 c) m.
Proof. intros (Hb & _ & _). unfold next_char. by mstep (load8_Ok m src c l Hb). Qed.

Lemma next_char_zero c : is_byte c -> s8 c = 0 -> c = 0.
Proof. intros Hc E. unfold s8 in E. unfold in_uint in Hc. cint. Qed.

(** A single store within the target, by index. *)
Lemma target_store m i v :
  mapped m target targsize -> 0 <= i < targsize ->
  store8 (target + i) v m = Ok tt (stored m (target + i) [v])
  /\ within m (stored m (target + i) [v]).
Proof.
  intros Hm Hi. split.
  - apply store8_Ok. eapply mapped_sub; [exact Hm|lia..].
  - apply within_stored; [done|lia|simpl; lia].
Qed.

Lemma target_or m i v :
  mapped m target targsize -> 0 <= i < targsize ->
  exists b, or_store (target + i) v m = Ok tt (stored m (target + i) [Z.lor b v])
    /\ cells m !! (target + i) = Some b
    /\ within m (stored m (target + i) [Z.lor b v]).
Proof.
  intros Hm Hi. destruct (Hm (target + i)) as [b Hb]; [unfold in_range; lia|].
  exists b. destruct (target_store m i (Z.lor b v) Hm Hi) as [E W]. split_and!; [|done|done].
  unfold or_store, load8, bind. by rewrite Hb.
Qed.

(** The index and the state the loop is in. *)
Definition pton_inv (tarindex state : Z) : Prop :=
  0 <= tarindex <= targsize /\ 0 <= state <= 3 /\ (1 <= state -> tarindex < targsize).

Lemma pton_digit_safe m tarindex state d :
  mapped m target targsize -> pton_inv tarindex state ->
  exists r m', pton_digit target targsize tarindex state d m = Ok r m' /\ within m m'
    /\ match r with Some (ti, st) => pton_inv ti st | None => True end.
Proof.
  intros Hm (Ht & Hst & Hlt). unfold pton_digit. apply Z.eqb_neq in nonnull as Hn.
  rewrite !Hn, !(u32_small (tarindex + 1)) by (unfold in_uint; pow2; lia).
  assert (state = 0 \/ state = 1 \/ state = 2 \/ state = 3) as Hc by lia.
  destruct Hc as [->|[->|[->| ->]]]; cbn [Z.eqb Pos.eqb].
  - destruct (Z.leb_spec targsize tarindex).
    { exists None, m. split_and!; [done|by apply within_refl|done]. }
    destruct (target_store m tarindex (Z.shiftl d 2) Hm ltac:(lia)) as [E W].
    eexists (Some _), _. mstep E. split_and!; [done|done|]. unfold pton_inv. lia.
  - destruct (Z.leb_spec targsize (tarindex + 1)).
    { exists None, m. split_and!; [done|by apply within_refl|done]. }
    destruct (target_or m tarindex (Z.shiftr d 4) Hm ltac:(lia)) as (b & E & _ & W).
    mstep E. destruct (target_store _ (tarindex + 1) (Z.shiftl (Z.land d 15) 4) (proj2 W) ltac:(lia))
      as [E2 W2].
    mstep E2. eexists (Some _), _. split_and!; [done|by eapply within_trans|].
    unfold pton_inv. lia.
  - destruct (Z.leb_spec targsize (tarindex + 1)).
    { exists None, m. split_and!; [done|by apply within_refl|done]. }
    destruct (target_or m tarindex (Z.shiftr d 2) Hm ltac:(lia)) as (b & E & _ & W).
    mstep E. destruct (target_store _ (tarindex + 1) (Z.shiftl (Z.land d 3) 6) (proj2 W) ltac:(lia))
      as [E2 W2].
    mstep E2. eexists (Some _), _. split_and!; [done|by eapply within_trans|].
    unfold pton_inv. lia.
  - destruct (Z.leb_spec targsize tarindex).
    { exists None, m. split_and!; [done|by apply within_refl|done]. }
    destruct (target_or m tarindex d Hm ltac:(lia)) as (b & E & _ & W).
    mstep E. eexists (Some _), _. split_and!; [done|done|]. unfold pton_inv. lia.
Qed.

(** The loop on any terminated text: it stops at the end or at a pad. *)
Lemma pton_loop_safe n m src s tarindex state :
  Forall (fun c => c <> 0) s -> text m src (s ++ [0]) -> (length s < n)%nat ->
  mapped m target targsize -> pton_inv tarindex state ->
  exists r m', pton_loop n src target targsize tarindex state m = Ok r m' /\ within m m'
    /\ match r with
       | Some (ch, src', ti, st) =>
           pton_inv ti st /\ (ch = Pad64 -> exists s', text m' src' (s' ++ [0])
             /\ Forall (fun c => c <> 0) s' /\ (length s' < length s)%nat)
       | None => True
       end.
Proof.
  revert n m src tarindex state.
  induction s as [|c s IH]; intros n m src tarindex state Hnz Ht Hn Hm Hinv;
    (destruct n as [|n]; [simpl in Hn; lia|]); cbn [pton_loop app] in *;
    mstep (next_char_Ok m src _ _ Ht).
  { eexists (Some _), m. split; [reflexivity|]. split; [by apply within_refl|].
    split; [done|]. done. }
  apply Forall_cons in Hnz as [Hc Hnz]. pose proof Ht as (_ & Hby & _).
  apply Forall_cons in Hby as [Hcb _]. apply text_tail in Ht.
  destruct (Z.eqb_spec (s8 c) 0) as [E|_]; [by apply next_char_zero in E|].
  simpl in Hn. destruct (isspace (s8 c)).
  { destruct (IH n m (src + 1) tarindex state) as (r & m' & E & W & R); try done; [lia|].
    exists r, m'. split_and!; [done|done|]. destruct r as [[[[ch src'] ti] st]|]; [|done].
    destruct R as [R1 R2]. split; [done|]. intros Hp.
    destruct (R2 Hp) as (s' & ? & ? & ?). exists s'. split_and!; [done|done|simpl; lia]. }
  destruct (Z.eqb_spec (s8 c) Pad64) as [E|_].
  { eexists (Some _), m. split; [reflexivity|]. split; [by apply within_refl|].
    split; [done|]. intros _.
    exists s. split_and!; [done|done|simpl; lia]. }
  destruct (base64_pos (s8 c)) as [d|].
  2: { exists None, m. split_and!; [done|by apply within_refl|done]. }
  destruct (pton_digit_safe m tarindex state d Hm Hinv) as (r & m1 & E1 & W1 & R1).
  mstep E1. destruct r as [[ti st]|].
  2: { exists None, m1. done. }
  destruct (IH n m1 (src + 1) ti st) as (r & m' & E & W & R);
    [done|by eapply text_within|lia|apply W1|done|].
  exists r, m'. split_and!; [done|by eapply within_trans|].
  destruct r as [[[[ch src'] ti'] st']|]; [|done].
  destruct R as [R1' R2]. split; [done|]. intros Hp.
  destruct (R2 Hp) as (s' & ? & ? & ?). exists s'. split_and!; [done|done|simpl; lia].
Qed.

(** While the current character is not the terminator, the rest of the text
    is ahead, and [n] more reads are enough for it. *)
Definition ahead (n : nat) (m : mem) (ch src : Z) : Prop :=
  ch <> 0 -> exists s, text m src (s ++ [0]) /\ Forall (fun c => c <> 0) s
    /\ (S (length s) < n)%nat.

Lemma ahead_text n m src s :
  text m src (s ++ [0]) -> Forall (fun c => c <> 0) s -> (S (length s) < n)%nat ->
  exists ch, next_char src m = Ok ch m /\ ahead (pred n) m ch (src + 1).
Proof.
  intros Ht Hnz Hn. destruct s as [|c s]; cbn [app] in Ht;
    (eexists; split; [exact (next_char_Ok m src _ _ Ht)|]); intros Hne.
  - done.
  - apply Forall_cons in Hnz as [_ Hnz]. apply text_tail in Ht. simpl in Hn.
    exists s. split_and!; [done|done|lia].
Qed.

Lemma ahead_next n m ch src :
  ahead n m ch src -> ch <> 0 ->
  exists ch', next_char src m = Ok ch' m /\ ahead (pred n) m ch' (src + 1).
Proof. intros Ha Hne. destruct (Ha Hne) as (s & Ht & Hnz & Hn). by eapply ahead_text. Qed.

Lemma ahead_mono n k m ch src : ahead n m ch src -> (n <= k)%nat -> ahead k m ch src.
Proof.
  intros Ha Hk Hne. destruct (Ha Hne) as (s & ? & ? & ?). exists s. split_and!; [done|done|lia].
Qed.

(** Skipping spaces stays within the text. *)
Lemma skip_spaces_safe n m ch src :
  (0 < n)%nat -> ahead n m ch src ->
  exists ch' src', skip_spaces n ch src m = Ok (ch', src') m /\ ahead n m ch' src'.
Proof.
  revert ch src. induction n as [|n IH]; intros ch src Hn Ha; [lia|]. cbn [skip_spaces].
  destruct (Z.eqb_spec ch 0) as [->|Hch]; [by exists 0, src|].
  destruct (isspace ch); cbn [negb]; [|by exists ch, src].
  destruct (Ha Hch) as (s & _ & _ & Hs).
  destruct (ahead_next _ m ch src Ha Hch) as (ch' & E & Ha'). mstep E.
  destruct (IH ch' (src + 1) ltac:(lia) Ha') as (ch2 & src2 & E2 & Ha2).
  exists ch2, src2. split; [done|]. eapply ahead_mono; [exact Ha2|lia].
Qed.

Lemma pton_pad3_safe n m ch src tarindex :
  (0 < n)%nat -> ahead n m ch src -> mapped m target targsize -> 0 <= tarindex < targsize ->
  exists r, pton_pad3 n ch src target tarindex m = Ok r m /\ -1 <= r <= targsize.
Proof.
  intros Hn Ha Hm Hi. unfold pton_pad3.
  destruct (skip_spaces_safe n m ch src Hn Ha) as (ch' & src' & E & _). mstep E.
  cbn beta iota. destruct (Z.eqb_spec ch' 0); cbn [negb]; [|exists (-1); split; [done|lia]].
  apply Z.eqb_neq in nonnull as Hn'. rewrite Hn', bind_assoc.
  destruct (Hm (target + tarindex)) as [b Hb]; [unfold in_range; lia|].
  assert (load8 (target + tarindex) m = Ok b m) as El by (unfold load8; by rewrite Hb).
  mstep El. rewrite bind_ret. unfold s32. rewrite sint_small by (unfold in_sint; pow2; lia).
  destruct (negb (b =? 0)); [exists (-1)|exists tarindex]; (split; [done|lia]).
Qed.

Lemma pton_pad_safe n m src tarindex state s :
  text m src (s ++ [0]) -> Forall (fun c => c <> 0) s -> (S (length s) < n)%nat ->
  mapped m target targsize -> pton_inv tarindex state ->
  exists r, pton_pad n src target tarindex state m = Ok r m /\ -1 <= r <= targsize.
Proof.
  intros Ht Hnz Hn Hm (Hi & Hst & Hlt). unfold pton_pad.
  destruct (ahead_text n m src s Ht Hnz Hn) as (ch & E & Ha). mstep E.
  apply (ahead_mono _ n) in Ha; [|lia].
  destruct ((state =? 0) || (state =? 1)) eqn:Es; [exists (-1); split; [done|lia]|].
  apply orb_false_iff in Es as [E0%Z.eqb_neq E1%Z.eqb_neq].
  destruct (Z.eqb_spec state 2) as [->|]; [|apply pton_pad3_safe; [lia|done|done|lia]].
  destruct (skip_spaces_safe n m ch (src + 1) ltac:(lia) Ha) as (ch2 & src2 & E2 & Ha2).
  mstep E2. cbn beta iota.
  destruct (Z.eqb_spec ch2 Pad64) as [->|]; cbn [negb]; [|exists (-1); split; [done|lia]].
  destruct (ahead_next n m Pad64 src2 Ha2 ltac:(done)) as (ch3 & E3 & Ha3). mstep E3.
  apply pton_pad3_safe; [lia|eapply ahead_mono; [exact Ha3|lia]|done|lia].
Qed.

(** The decoder on any terminated text. *)
Lemma f_b64_pton_safe m src s :
  Forall (fun c => c <> 0) s -> text m src (s ++ [0]) -> mapped m target targsize ->
  exists r m', f_b64_pton src target targsize m = Ok r m' /\ within m m' /\ -1 <= r <= targsize.
Proof.
  intros Hnz Ht Hm. unfold f_b64_pton. set (n := S (size (cells m))).
  assert (S (length s) < n)%nat as Hn.
  { destruct Ht as (Hb & _ & _). apply bytes_at_size in Hb. rewrite length_app in Hb.
    simpl in Hb. lia. }
  destruct (pton_loop_safe n m src s 0 0 Hnz Ht ltac:(lia) Hm) as (r & m' & E & W & R).
  { unfold pton_inv. lia. }
  mstep E. destruct r as [[[[ch src'] ti] st]|].
  2: { exists (-1), m'. split_and!; [done|done|lia|lia]. }
  destruct R as [Hinv R]. destruct (Z.eqb_spec ch Pad64) as [Hp|_].
  - destruct (R Hp) as (s' & Ht' & Hnz' & Hl).
    destruct (pton_pad_safe n m' src' ti st s') as (r & E2 & Hr); [done|done|lia|apply W|done|].
    exists r, m'. done.
  - destruct Hinv as (Hi & _ & _). exists (if negb (st =? 0) then -1 else s32 ti), m'.
    split_and!; [done|done|..]; destruct (negb _); try lia;
      unfold s32; rewrite sint_small by (unfold in_sint; pow2; lia); lia.
Qed.

(** ** Decoding what the encoder wrote *)
Lemma stored_again m a x y : stored (stored m a [x]) a [y] = stored m a [y].
Proof. unfold stored, upd_cells. simpl. by rewrite insert_insert_eq. Qed.

Lemma or_stored m a x v :
  is_byte x -> or_store a v (stored m a [x]) = Ok tt (stored m a [Z.lor x v]).
Proof.
  intros Hx. unfold or_store.
  assert (bytes_at (stored m a [x]) a [x]) as Hb by (apply stored_bytes_at; by constructor).
  mstep (load8_Ok _ a x [] Hb). rewrite <- (stored_again m a x (Z.lor x v)). apply store8_Ok.
  apply (bytes_at_mapped _ _ [x] Hb).
Qed.

Lemma stored_cons m a x l : stored m a (x :: l) = stored (stored m a [x]) (a + 1) l.
Proof. done. Qed.

Lemma stored_cons2 m a x y l : stored m a (x :: y :: l) = stored (stored m a [x; y]) (a + 2) l.
Proof. exact (stored_app m a [x; y] l). Qed.

Lemma or_stored_bind {B} m a x v (k : unit -> M B) :
  is_byte x -> bind (or_store a v) k (stored m a [x]) = k tt (stored m a [Z.lor x v]).
Proof. intros Hx. by mstep (or_stored m a x v Hx). Qed.

Lemma lor_disjoint a b k : 0 <= k -> 0 <= b < 2 ^ k -> Z.lor (a * 2 ^ k) b = a * 2 ^ k + b.
Proof.
  intros Hk Hb. rewrite Z.lor_comm, <- Z.shiftl_mul_pow2, lor_shiftl_add by lia.
  rewrite Z.shiftl_mul_pow2 by lia. lia.
Qed.

Section Digits.
Variables (m : mem) (ti d : Z).
Hypothesis mapped_target : mapped m target targsize.
Hypothesis digit : 0 <= d < 64.
Hypothesis index : 0 <= ti.

Lemma target_cell i x : 0 <= i < targsize -> mapped (stored m (target + ti) x) (target + i) 1.
Proof.
  intros Hi. apply stored_mapped. eapply mapped_sub; [exact mapped_target|lia..].
Qed.

Lemma pton_digit_0 :
  ti < targsize ->
  pton_digit target targsize ti 0 d m = Ok (Some (ti, 1)) (stored m (target + ti) [d * 2 ^ 2]).
Proof.
  intros Hlt. unfold pton_digit. apply Z.eqb_neq in nonnull as Hn. cbn [Z.eqb]. rewrite Hn.
  destruct (Z.leb_spec targsize ti); [lia|]. rewrite Z.shiftl_mul_pow2 by lia.
  rewrite store8_bind; [done|]. eapply mapped_sub; [exact mapped_target|lia..].
Qed.

(** A middle digit completes one byte and starts the next. *)
Lemma pton_digit_mid st x k :
  (st = 1 /\ k = 4) \/ (st = 2 /\ k = 2) -> ti + 1 < targsize -> is_byte x ->
  pton_digit target targsize ti st d (stored m (target + ti) [x])
  = Ok (Some (ti + 1, st + 1))
      (stored m (target + ti) [Z.lor x (d / 2 ^ k); d mod 2 ^ k * 2 ^ (8 - k)]).
Proof.
  intros Hst Hlt Hx. unfold pton_digit. apply Z.eqb_neq in nonnull as Hn. rewrite !Hn.
  rewrite (u32_small (ti + 1)) by (unfold in_uint; pow2; lia).
  destruct (Z.leb_spec targsize (ti + 1)); [lia|].
  destruct Hst as [[-> ->]|[-> ->]]; cbn [Z.eqb Pos.eqb];
    rewrite shiftr_div, Z.shiftl_mul_pow2, ?land_0f, ?land_03 by lia;
    (rewrite or_stored_bind by done);
    (rewrite store8_bind by (apply target_cell; lia));
    (replace (target + (ti + 1)) with (target + ti + 1) by lia); reflexivity.
Qed.

Lemma pton_digit_3 x :
  ti < targsize -> is_byte x ->
  pton_digit target targsize ti 3 d (stored m (target + ti) [x])
  = Ok (Some (ti + 1, 0)) (stored m (target + ti) [Z.lor x d]).
Proof.
  intros Hlt Hx. unfold pton_digit. apply Z.eqb_neq in nonnull as Hn. cbn [Z.eqb Pos.eqb].
  rewrite !Hn, (u32_small (ti + 1)) by (unfold in_uint; pow2; lia).
  destruct (Z.leb_spec targsize ti); [lia|]. mstep (or_stored m (target + ti) x d Hx). done.
Qed.
End Digits.

(** The loop on a digit. *)
Lemma pton_loop_digit n m src l ti st d ti' st' m' :
  0 <= d < 64 -> text m src (b64_digit d :: l) ->
  pton_digit target targsize ti st d m = Ok (Some (ti', st')) m' ->
  pton_loop (S n) src target targsize ti st m = pton_loop n (src + 1) target targsize ti' st' m'.
Proof.
  intros Hd Ht E. destruct (b64_digit_props d Hd) as (Hr & Hs & Hp). cbn [pton_loop].
  mstep (next_char_Ok m src _ _ Ht). unfold s8. rewrite sint_small by (unfold in_sint; pow2; lia).
  destruct (Z.eqb_spec (b64_digit d) 0); [lia|]. rewrite Hs, Hp, base64_pos_digit by done.
  by mstep E.
Qed.

Lemma text_stored m src l a w :
  text m src l -> target <= a -> a + zlen w <= target + targsize -> text (stored m a w) src l.
Proof. apply source_stored. Qed.

(** The digits of a group: the first two give the first byte, and so on. *)
Lemma pton_loop_2 n m src l ti v :
  0 <= v < 2 ^ 24 -> 0 <= ti -> ti + 1 < targsize -> mapped m target targsize ->
  text m src (take 2 (b64_group v) ++ l) ->
  pton_loop (S (S n)) src target targsize ti 0 m
  = pton_loop n (src + 2) target targsize (ti + 1) 2
      (stored m (target + ti) [v / 2 ^ 16; v / 2 ^ 12 mod 2 ^ 4 * 2 ^ 4]).
Proof.
  intros Hv Hi Hlt Hm Ht. destruct (group_range v Hv) as (R0 & R1 & R2 & R3).
  cbn [b64_group fmap list_fmap take app] in Ht.
  erewrite pton_loop_digit; [|exact R0|exact Ht|apply pton_digit_0; (done || lia)].
  apply text_tail in Ht.
  assert (is_byte (v / 2 ^ 18 * 2 ^ 2)) as Hx by (unfold in_uint; pow2; lia).
  apply (text_stored _ _ _ (target + ti) [v / 2 ^ 18 * 2 ^ 2]) in Ht; [|lia|simpl; lia].
  erewrite pton_loop_digit; [|exact R1|exact Ht
    |apply (pton_digit_mid m ti _ Hm) with (k := 4); (done || lia || by left)].
  replace (src + 1 + 1) with (src + 2) by lia. do 2 f_equal.
  rewrite lor_disjoint by (pow2; Z.to_euclidean_division_equations; lia).
  f_equal; [|f_equal; f_equal]; pow2; Z.to_euclidean_division_equations; lia.
Qed.

Lemma pton_loop_3 n m src l ti v :
  0 <= v < 2 ^ 24 -> 0 <= ti -> ti + 2 < targsize -> mapped m target targsize ->
  text m src (take 3 (b64_group v) ++ l) ->
  pton_loop (S (S (S n))) src target targsize ti 0 m
  = pton_loop n (src + 3) target targsize (ti + 2) 3
      (stored m (target + ti) [v / 2 ^ 16; v / 2 ^ 8 mod 2 ^ 8; v / 2 ^ 6 mod 2 ^ 2 * 2 ^ 6]).
Proof.
  intros Hv Hi Hlt Hm Ht. destruct (group_range v Hv) as (R0 & R1 & R2 & R3).
  rewrite (pton_loop_2 _ m src (drop 2 (take 3 (b64_group v)) ++ l) ti v) by (done || lia).
  apply (source_app target targsize m src (take 2 (b64_group v))) in Ht.
  cbn [b64_group fmap list_fmap take drop app length] in Ht. change (Z.of_nat 2) with 2 in Ht.
  assert (is_byte (v / 2 ^ 12 mod 2 ^ 4 * 2 ^ 4)) as Hy
    by (unfold in_uint; pow2; Z.to_euclidean_division_equations; lia).
  apply (text_stored _ _ _ (target + ti) [v / 2 ^ 16; v / 2 ^ 12 mod 2 ^ 4 * 2 ^ 4]) in Ht;
    [|lia|simpl; lia].
  rewrite (stored_cons m _ _ [_]) in Ht. rewrite (stored_cons m _ _ [_]), (stored_cons m _ _ [_; _]).
  rewrite <- Z.add_assoc in Ht |- *.
  erewrite pton_loop_digit; [|exact R2|exact Ht
    |apply (pton_digit_mid _ (ti + 1) _ ltac:(by apply stored_mapped)) with (k := 2);
     (done || lia || by right)].
  replace (src + 2 + 1) with (src + 3) by lia. replace (ti + 1 + 1) with (ti + 2) by lia.
  do 2 f_equal.
  rewrite lor_disjoint by (pow2; Z.to_euclidean_division_equations; lia).
  f_equal; [|f_equal; f_equal]; pow2; Z.to_euclidean_division_equations; lia.
Qed.

Lemma pton_loop_4 n m src l ti v :
  0 <= v < 2 ^ 24 -> 0 <= ti -> ti + 2 < targsize -> mapped m target targsize ->
  text m src (b64_group v ++ l) ->
  pton_loop (S (S (S (S n)))) src target targsize ti 0 m
  = pton_loop n (src + 4) target targsize (ti + 3) 0
      (stored m (target + ti) [v / 2 ^ 16; v / 2 ^ 8 mod 2 ^ 8; v mod 2 ^ 8]).
Proof.
  intros Hv Hi Hlt Hm Ht. destruct (group_range v Hv) as (R0 & R1 & R2 & R3).
  rewrite (pton_loop_3 _ m src (drop 3 (b64_group v) ++ l) ti v) by (done || lia).
  apply (source_app target targsize m src (take 3 (b64_group v))) in Ht.
  cbn [b64_group fmap list_fmap take drop app length] in Ht. change (Z.of_nat 3) with 3 in Ht.
  set (a := v / 2 ^ 16) in *. set (b := v / 2 ^ 8 mod 2 ^ 8) in *.
  assert (is_byte (v / 2 ^ 6 mod 2 ^ 2 * 2 ^ 6)) as Hz
    by (unfold in_uint; pow2; Z.to_euclidean_division_equations; lia).
  apply (text_stored _ _ _ (target + ti) [a; b; v / 2 ^ 6 mod 2 ^ 2 * 2 ^ 6]) in Ht;
    [|lia|simpl; lia].
  rewrite (stored_cons2 m _ a b [_]) in Ht. rewrite !(stored_cons2 m _ a b [_]).
  rewrite <- Z.add_assoc in Ht |- *.
  erewrite pton_loop_digit; [|exact R3|exact Ht
    |apply pton_digit_3; (done || lia || by apply stored_mapped)].
  replace (src + 3 + 1) with (src + 4) by lia. replace (ti + 2 + 1) with (ti + 3) by lia.
  do 2 f_equal.
  rewrite lor_disjoint by (pow2; Z.to_euclidean_division_equations; lia).
  f_equal; pow2; Z.to_euclidean_division_equations; lia.
Qed.

Lemma group_bytes a b c :
  is_byte a -> is_byte b -> is_byte c ->
  let v := a * 2 ^ 16 + b * 2 ^ 8 + c in
  v / 2 ^ 16 = a /\ v / 2 ^ 8 mod 2 ^ 8 = b /\ v mod 2 ^ 8 = c.
Proof. intros Ha Hb Hc v. subst v. unfold in_uint in *. pow2. Z.to_euclidean_division_equations; lia. Qed.

(** Full groups. *)
Lemma pton_loop_groups k g n m src l ti :
  length g = (3 * k)%nat -> Forall is_byte g -> 0 <= ti -> ti + zlen g <= targsize ->
  mapped m target targsize -> text m src (b64_text g ++ l) ->
  pton_loop (4 * k + n) src target targsize ti 0 m
  = pton_loop n (src + 4 * Z.of_nat k) target targsize (ti + zlen g) 0 (stored m (target + ti) g).
Proof.
  revert g n m src ti. induction k as [|k IH]; intros g n m src ti Hg Hby Hi Hlt Hm Ht.
  - destruct g; [|simpl in Hg; lia]. rewrite stored_nil.
    change (4 * Z.of_nat 0) with 0. change (zlen []) with 0. by rewrite !Z.add_0_r.
  - destruct g as [|a [|b [|c g]]]; simpl in Hg; try lia.
    do 3 (apply Forall_cons in Hby as [? Hby]). rewrite !zlen_cons in Hlt.
    cbn [b64_text] in Ht. rewrite <- app_assoc in Ht.
    set (v := a * 2 ^ 16 + b * 2 ^ 8 + c) in *.
    assert (0 <= v < 2 ^ 24) as Hv by (by apply byte_group_range).
    replace (4 * S k + n)%nat with (S (S (S (S (4 * k + n))))) by lia.
    rewrite (pton_loop_4 _ m src (b64_text g ++ l) ti v) by (done || lia).
    destruct (group_bytes a b c) as (Ea & Eb & Ec); [done..|]. fold v in Ea, Eb, Ec.
    rewrite Ea, Eb, Ec.
    apply (source_app target targsize m src (b64_group v)) in Ht.
    apply (text_stored _ _ _ (target + ti) [a; b; c]) in Ht; [|lia|simpl; lia].
    change (zlen (b64_group v)) with 4 in Ht.
    rewrite (IH g n _ (src + 4) (ti + 3)); [|lia|done|lia|lia|by apply stored_mapped|done].
    replace (src + 4 + 4 * Z.of_nat k) with (src + 4 * Z.of_nat (S k)) by lia.
    rewrite !zlen_cons. replace (ti + 3 + zlen g) with (ti + (1 + (1 + (1 + zlen g)))) by lia.
    f_equal. rewrite (stored_app m _ [a; b; c] g). by rewrite <- Z.add_assoc.
Qed.

(** The byte after the data that the decoder clears for a partial group. *)
Definition slack (l : list Z) : list Z := if zlen l mod 3 =? 0 then [] else [0].

Lemma pton_loop_stop n m src ch l ti st :
  0 <= ch < 128 -> ch = 0 \/ ch = Pad64 -> text m src (ch :: l) ->
  pton_loop (S n) src target targsize ti st m = Ok (Some (ch, src + 1, ti, st)) m.
Proof.
  intros Hr Hch Ht. cbn [pton_loop]. mstep (next_char_Ok m src ch l Ht).
  unfold s8. rewrite sint_small by (unfold in_sint; pow2; lia).
  by destruct Hch as [-> | ->].
Qed.

Lemma pton_pad3_end n m src ti :
  mapped m target targsize -> 0 <= ti < targsize -> bytes_at m (target + ti) [0] ->
  pton_pad3 (S n) 0 src target ti m = Ok ti m.
Proof.
  intros Hm Hi Hb. unfold pton_pad3. cbn [skip_spaces Z.eqb]. rewrite bind_ret. cbn beta iota.
  cbn [Z.eqb negb]. apply Z.eqb_neq in nonnull as Hn. rewrite Hn, bind_assoc.
  mstep (load8_Ok m (target + ti) 0 [] Hb). rewrite bind_ret. cbn [Z.eqb negb].
  unfold s32. by rewrite sint_small by (unfold in_sint; pow2; lia).
Qed.

(** The loop and the pad check on what follows the full groups: nothing, one
    byte, or two. *)
Lemma pton_rest_0 n m src ti :
  text m src [0] -> pton_loop (S n) src target targsize ti 0 m = Ok (Some (0, src + 1, ti, 0)) m.
Proof. intros Ht. by apply (pton_loop_stop n m src 0 []); [lia|left|]. Qed.

Lemma pton_rest_1 n n' m src ti a :
  is_byte a -> 0 <= ti -> ti + 1 < targsize -> mapped m target targsize ->
  text m src (b64_text [a] ++ [0]) ->
  let m' := stored m (target + ti) [a; 0] in
  pton_loop (S (S (S n))) src target targsize ti 0 m = Ok (Some (Pad64, src + 3, ti + 1, 2)) m'
  /\ pton_pad (S n') (src + 3) target (ti + 1) 2 m' = Ok (ti + 1) m'.
Proof.
  intros Ha Hi Hlt Hm Ht m'.
  assert (0 <= a * 2 ^ 16 < 2 ^ 24) as Hv by (unfold in_uint in Ha; pow2; lia).
  cbn [b64_text] in Ht. rewrite <- !app_assoc in Ht.
  rewrite (pton_loop_2 _ m src _ ti _ Hv Hi ltac:(lia) Hm Ht).
  replace (a * 2 ^ 16 / 2 ^ 16) with a by (pow2; Z.to_euclidean_division_equations; lia).
  replace (a * 2 ^ 16 / 2 ^ 12 mod 2 ^ 4 * 2 ^ 4) with 0
    by (pow2; Z.to_euclidean_division_equations; lia).
  apply (text_stored _ _ _ (target + ti) [a; 0]) in Ht; [|lia|simpl; lia]. fold m' in Ht |- *.
  apply (source_app target targsize m' src (take 2 _)) in Ht.
  change (zlen (take 2 (b64_group (a * 2 ^ 16)))) with 2 in Ht. cbn [app] in Ht.
  rewrite (pton_loop_stop _ m' (src + 2) Pad64 _ _ _ ltac:(done) ltac:(by right) Ht).
  apply text_tail in Ht. replace (src + 2 + 1) with (src + 3) in * by lia. split; [done|].
  unfold pton_pad. cbn [Z.eqb Pos.eqb orb skip_spaces]. mstep (next_char_Ok m' _ _ _ Ht).
  apply text_tail in Ht. change (s8 Pad64) with Pad64.
  change (Pad64 =? 0) with false. change (isspace Pad64) with false.
  cbn [negb]. rewrite bind_ret. cbn beta iota. rewrite Z.eqb_refl. cbn [negb].
  mstep (next_char_Ok m' _ _ _ Ht). change (s8 0) with 0.
  apply pton_pad3_end; [by apply stored_mapped|lia|].
  assert (bytes_at m' (target + ti) [a; 0]) as Hb
    by (apply stored_bytes_at; constructor; [done|by constructor]).
  apply bytes_at_tail in Hb. by rewrite <- Z.add_assoc in Hb.
Qed.

Lemma pton_rest_2 n n' m src ti a b :
  is_byte a -> is_byte b -> 0 <= ti -> ti + 2 < targsize -> mapped m target targsize ->
  text m src (b64_text [a; b] ++ [0]) ->
  let m' := stored m (target + ti) [a; b; 0] in
  pton_loop (S (S (S (S n)))) src target targsize ti 0 m
  = Ok (Some (Pad64, src + 4, ti + 2, 3)) m'
  /\ pton_pad (S n') (src + 4) target (ti + 2) 3 m' = Ok (ti + 2) m'.
Proof.
  intros Ha Hb Hi Hlt Hm Ht m'. set (v := a * 2 ^ 16 + b * 2 ^ 8) in *.
  destruct (group_bytes a b 0 Ha Hb ltac:(done)) as (Ea & Eb & _).
  rewrite Z.add_0_r in Ea, Eb. fold v in Ea, Eb.
  assert (0 <= v < 2 ^ 24) as Hv by (unfold v, in_uint in *; pow2; lia).
  cbn [b64_text] in Ht. fold v in Ht. rewrite <- !app_assoc in Ht.
  rewrite (pton_loop_3 _ m src _ ti _ Hv Hi Hlt Hm Ht). rewrite Ea, Eb.
  replace (v / 2 ^ 6 mod 2 ^ 2 * 2 ^ 6) with 0
    by (unfold v; pow2; Z.to_euclidean_division_equations; lia).
  apply (text_stored _ _ _ (target + ti) [a; b; 0]) in Ht; [|lia|simpl; lia]. fold m' in Ht |- *.
  apply (source_app target targsize m' src (take 3 _)) in Ht.
  change (zlen (take 3 (b64_group v))) with 3 in Ht. cbn [app] in Ht.
  rewrite (pton_loop_stop _ m' (src + 3) Pad64 _ _ _ ltac:(done) ltac:(by right) Ht).
  apply text_tail in Ht. replace (src + 3 + 1) with (src + 4) in * by lia. split; [done|].
  unfold pton_pad. mstep (next_char_Ok m' _ _ _ Ht).
  change (s8 0) with 0. cbn [Z.eqb Pos.eqb orb].
  apply pton_pad3_end; [by apply stored_mapped|lia|].
  assert (bytes_at m' (target + ti) [a; b; 0]) as Hb2
    by (apply stored_bytes_at; constructor; [done|constructor; [done|by constructor]]).
  do 2 apply bytes_at_tail in Hb2. by rewrite <- !Z.add_assoc in Hb2.
Qed.

Lemma f_b64_pton_text m src l :
  Forall is_byte l -> text m src (b64_text l ++ [0]) -> mapped m target targsize ->
  zlen l < targsize ->
  f_b64_pton src target targsize m = Ok (zlen l) (stored m target (l ++ slack l)).
Proof.
  intros Hby Ht Hm Hlt. unfold f_b64_pton.
  assert (length (b64_text l) + 2 <= S (size (cells m)))%nat as Hn.
  { destruct Ht as (Hb & _ & _). apply bytes_at_size in Hb. rewrite length_app in Hb.
    simpl in Hb. lia. }
  revert Hn. generalize (S (size (cells m))). intros n Hn.
  destruct (split_groups l) as (k & g & r & -> & Hg & Hr).
  rewrite (b64_text_app k) in * by done.
  rewrite length_app, (b64_text_full_length k g Hg) in Hn. rewrite zlen_app in Hlt.
  apply Forall_app in Hby as [Hbg Hbr]. rewrite <- app_assoc in Ht.
  assert (exists n', n = (4 * k + S n')%nat /\ (length (b64_text r) + 1 <= n')%nat) as (n' & -> & Hn').
  { exists (n - 4 * k - 1)%nat. lia. }
  rewrite (bind_eq _ _ _ _ _ (pton_loop_groups k g (S n') m src (b64_text r ++ [0]) 0 Hg Hbg
    ltac:(lia) ltac:(lia) Hm Ht)). rewrite Z.add_0_r, Z.add_0_l.
  apply (source_app target targsize m src (b64_text g)) in Ht.
  rewrite (b64_text_full_length k g Hg), Nat2Z.inj_mul in Ht. change (Z.of_nat 4) with 4 in Ht.
  apply (text_stored _ _ _ target g) in Ht; [|lia|lia].
  assert (mapped (stored m target g) target targsize) as Hm1 by (by apply stored_mapped).
  assert ((zlen g + zlen r) mod 3 = zlen r mod 3) as Hg3.
  { rewrite Hg, Nat2Z.inj_mul, (Z.mul_comm (Z.of_nat 3)), Z.add_comm. apply Z_mod_plus_full. }
  unfold slack. rewrite zlen_app, Hg3.
  rewrite <- app_assoc, stored_app.
  replace (4 * k + S n')%nat with (S (4 * k + n')) by lia.
  set (m1 := stored m target g) in *. set (src1 := src + 4 * Z.of_nat k) in *.
  destruct r as [|a [|b [|c r]]]; simpl in Hr, Hn'; try lia.
  - mstep (pton_rest_0 n' m1 src1 (zlen g) Ht).
    change (0 =? Pad64) with false. cbn [Z.eqb negb]. unfold s32.
    rewrite sint_small by (unfold in_sint; pow2; lia). change (zlen []) with 0.
    by rewrite Z.add_0_r, stored_nil.
  - apply Forall_cons in Hbr as [Ha _]. destruct n' as [|[|n']]; try lia.
    change (zlen [a]) with 1 in *.
    destruct (pton_rest_1 n' (4 * k + S (S n')) m1 src1 (zlen g) a) as [E E2]; [done|lia..|done|done|].
    mstep E. exact E2.
  - apply Forall_cons in Hbr as [Ha Hbr]. apply Forall_cons in Hbr as [Hb _].
    destruct n' as [|[|[|n']]]; try lia. change (zlen [a; b]) with 2 in *.
    destruct (pton_rest_2 n' (4 * k + S (S (S n'))) m1 src1 (zlen g) a b) as [E E2];
      [done|done|lia..|done|done|].
    mstep E. exact E2.
Qed.
End Decode.

(** * Properties *)

(** The input bytes [l] at [src], and a mapped target apart from them. *)
Record b64_args (m : mem) (src target targsize : Z) (l : list Z) : Prop := {
  arg_size : 0 <= targsize < 2 ^ 31;
  arg_mapped : mapped m target targsize;
  arg_source : source target targsize m src l
}.

(** C33: [f_b64_ntop] writes the base64 text of its input and a null byte, and
    returns the length of the text, exactly when both fit in the target;
    otherwise it returns -1, having written inside the target only. *)
Theorem f_b64_ntop_correct m src target targsize l
    (Hargs : b64_args m src target targsize l)
    (Hlen : zlen (b64_text l) < 2 ^ 31) :
  exists w, zlen w <= targsize /\
    f_b64_ntop src (zlen l) target targsize m
    = if zlen (b64_text l) <? targsize
      then Ok (zlen (b64_text l)) (stored m target (b64_text l ++ [0]))
      else Ok (-1) (stored m target w).
Proof.
  destruct Hargs as [Hs Hm Hsrc]. apply f_b64_ntop_Ok; [pow2; lia|done|done|done].
Qed.

(** A key of one byte more than two groups, a target of 16 bytes. *)
Definition b64_mem : mem :=
  Mem (map_range 100 [1; 2; 3; 250; 251; 252; 255] (map_range 200 (replicate 16 170)
         (map_range 300 (replicate 8 170) ∅))) ∅ 1000 0.

Lemma b64_mem_args : b64_args b64_mem 100 200 16 [1; 2; 3; 250; 251; 252; 255].
Proof.
  split; [lia| |split_and!].
  - apply (bytes_at_mapped _ _ (replicate 16 170)). intros i b Hi.
    do 16 (destruct i as [|i]; [vm_compute in Hi |- *; exact Hi|]). done.
  - intros i b Hi. do 7 (destruct i as [|i]; [vm_compute in Hi |- *; exact Hi|]). done.
  - repeat (constructor; [unfold in_uint; lia|]). constructor.
  - intros x. unfold in_range. simpl. lia.
Qed.

Lemma f_b64_ntop_correct_witness :
  exists w : list Z, zlen w <= 16 /\
    f_b64_ntop 100 7 200 16 b64_mem
    = Ok 12 (stored b64_mem 200 ([65; 81; 73; 68; 43; 118; 118; 56; 47; 119; 61; 61] ++ [0])).
Proof. exact (f_b64_ntop_correct b64_mem 100 200 16 _ b64_mem_args ltac:(vm_compute; congruence)). Defined.

(** [f_b64_pton] is safe on every null-terminated input: it terminates
    without leaving mapped memory, writes inside the target only, and returns
    -1 or a count of at most the target's size. *)
Theorem f_b64_pton_in_bounds m src target targsize s
    (Hchars : Forall (fun c => c <> 0) s)
    (Htarget : target <> NULL)
    (Hargs : b64_args m src target targsize (s ++ [0])) :
  exists r m',
    f_b64_pton src target targsize m = Ok r m'
    /\ agree_on (fun x => ~ in_range target targsize x) m m'
    /\ -1 <= r <= targsize.
Proof.
  destruct Hargs as [Hs Hm Hsrc].
  destruct (f_b64_pton_safe target targsize Htarget Hs m src s Hchars Hsrc Hm)
    as (r & m' & E & [Ha _] & Hr).
  by exists r, m'.
Qed.

(** Text with a character outside the alphabet, after some digits. *)
Definition b64_bad_mem : mem :=
  Mem (map_range 100 [81; 81; 33; 61; 0] (map_range 200 (replicate 4 170) ∅)) ∅ 1000 0.

Lemma b64_bad_args : b64_args b64_bad_mem 100 200 4 ([81; 81; 33; 61] ++ [0]).
Proof.
  split; [lia| |split_and!].
  - apply (bytes_at_mapped _ _ (replicate 4 170)). intros i b Hi.
    do 4 (destruct i as [|i]; [vm_compute in Hi |- *; exact Hi|]). done.
  - intros i b Hi. do 5 (destruct i as [|i]; [vm_compute in Hi |- *; exact Hi|]). done.
  - repeat (constructor; [unfold in_uint; lia|]). constructor.
  - intros x. unfold in_range. simpl. lia.
Qed.

Lemma f_b64_pton_in_bounds_witness :
  exists r m', f_b64_pton 100 200 4 b64_bad_mem = Ok r m'
    /\ agree_on (fun x => ~ in_range 200 4 x) b64_bad_mem m' /\ -1 <= r <= 4.
Proof.
  refine (f_b64_pton_in_bounds b64_bad_mem 100 200 4 [81; 81; 33; 61] _ _ b64_bad_args).
  - repeat (constructor; [lia|]). constructor.
  - unfold NULL. lia.
Defined.

(** C34: decoding inverts encoding: [f_b64_pton] applied to what [f_b64_ntop]
    wrote stores the original bytes and returns their number. *)
Theorem b64_roundtrip m src buf bufsize target targsize l
    (Hargs : b64_args m src buf bufsize l)
    (Hfits : zlen (b64_text l) < bufsize)
    (Htarget : target <> NULL)
    (Hsize : zlen l < targsize < 2 ^ 31)
    (Hmapped : mapped m target targsize)
    (Hapart : forall x, in_range buf bufsize x -> ~ in_range target targsize x) :
  (let* n := f_b64_ntop src (zlen l) buf bufsize in f_b64_pton buf target targsize) m
  = Ok (zlen l) (stored (stored m buf (b64_text l ++ [0])) target (l ++ slack l)).
Proof.
  destruct Hargs as [Hs Hm (Hb & Hby & Hap)].
  destruct (f_b64_ntop_Ok buf bufsize ltac:(pow2; lia) m src l Hm ltac:(by split) ltac:(lia))
    as (w & _ & E).
  rewrite (proj2 (Z.ltb_lt _ _) Hfits) in E. mstep E.
  assert (Forall is_byte (b64_text l ++ [0])) as Htb.
  { apply Forall_app. split; [by apply b64_text_bytes|by constructor]. }
  apply f_b64_pton_text; [done|lia|done| |by apply stored_mapped|lia].
  split_and!; [by apply stored_bytes_at|done|].
  intros x Hx. apply Hapart. rewrite zlen_app in Hx. simpl in Hx. unfold in_range in *. lia.
Qed.

Lemma b64_roundtrip_witness :
  (let* n := f_b64_ntop 100 7 200 16 in f_b64_pton 200 300 8) b64_mem
  = Ok 7 (stored (stored b64_mem 200
            ([65; 81; 73; 68; 43; 118; 118; 56; 47; 119; 61; 61] ++ [0]))
            300 [1; 2; 3; 250; 251; 252; 255; 0]).
Proof.
  refine (b64_roundtrip b64_mem 100 200 16 300 8 _ b64_mem_args _ _ _ _ _).
  - vm_compute. congruence.
  - unfold NULL. lia.
  - simpl. lia.
  - apply (bytes_at_mapped _ _ (replicate 8 170)). intros i b Hi.
    do 8 (destruct i as [|i]; [vm_compute in Hi |- *; exact Hi|]). done.
  - intros x. unfold in_range. lia.
Defined.
