(* ===== verification/PbFindings.v ===== *)
(** Behaviours of the nanopb sources that differ from what their comments or
    names say, each shown by running the model on a concrete input. *)
From stdpp Require Import base list numbers option strings gmap.
From S2P Require Import Prelude Varint Machine PbTypes PbCommon PbIter PbEncode PbDecode PbWire PbDecodeSpec.
From S2P Require Import Sample.
Open Scope Z_scope.
Open Scope c_scope.

Definition value_of {A} (o : outcome A) : option A :=
  match o with Ok a _ => Some a | _ => None end.

(** A memory with [l] at 4000 and [n] bytes of junk at 5000. *)
Definition input_mem (l : list Z) (n : nat) : mem :=
  Mem (map_range 4000 l (map_range 5000 (replicate n 205) ∅)) ∅ 10000 0.

Definition decode32 (l : list Z) : option (option Z) :=
  fst <$> value_of (pb_decode_varint32 (pb_istream_from_buffer 4000 (zlen l)) (input_mem l 0)).

(** * 32-bit varints *)

(** [pb_decode_varint32] does not reject every varint above 2^32.  Its
    8-bit [bitpos] is not bounded: after 36 padding bytes it is small again, and
    the payload bits of byte 38 are or-ed into the low bits of the result.  And
    the check that the fifth byte has four bits at most is made only if it is
    the last: followed by a padding byte, a larger value is truncated. *)
Theorem varint32_accepts_overflow :
  decode32 ([0x81] ++ replicate 36 0x80 ++ [0x01]) = Some (Some 9)
  /\ 2 ^ 32 <= groups_val ([0x81] ++ replicate 36 0x80 ++ [0x01])
  /\ decode32 [0x80; 0x80; 0x80; 0x80; 0xF0; 0x00] = Some (Some 0)
  /\ groups_val [0x80; 0x80; 0x80; 0x80; 0xF0; 0x00] = 7 * 2 ^ 32
  /\ decode32 [0x80; 0x80; 0x80; 0x80; 0x70] = Some None.
Proof. vm_compute. split_and!; congruence. Qed.

(** * Callback fields *)

(** An application whose field callback succeeds without reading. *)
Definition idle_app : App := {|
  app_heap := sample_heap;
  app_owrite := fun _ _ _ _ => fault;
  app_iread := fun _ _ _ _ => fault;
  app_encode := fun _ s _ _ => ret (true, s);
  app_decode := fun _ s _ _ => ret (true, s);
  app_ext_type := fun _ => None |}.

(** the loop of [decode_callback_field] repeats the callback until the substream
    is empty: with a callback that reads nothing no number of rounds ends it. *)
Theorem callback_loop_idle n f field arg m :
  callback_loop (H := idle_app) n f (pb_istream_from_buffer 4000 1) field arg m = Diverge.
Proof. induction n as [|n IH]; [done|]. cbn [callback_loop]. exact IH. Qed.

(** * Default values of fixed-count arrays *)

(** A message whose only field is [bool flags\[2\]], always complete: there is no
    count member, [size_offset] is 0. *)
Definition flags_fields : list pb_field_t :=
  [PbField 1 (or3 PB_ATYPE_STATIC PB_HTYPE_REPEATED PB_LTYPE_BOOL) 0 0 1 2 PtrNull; PB_LAST_FIELD].

(** [pb_field_set_to_default] stores a 4-byte zero count through [pSize], which
    is the array itself: the two bytes behind the 2-byte structure are
    overwritten. *)
Theorem fixed_count_default_overruns :
  match pb_message_set_to_defaults 2 flags_fields 5000 (input_mem [] 4) with
  | Ok _ m => cells m !! 5002 = Some 0 /\ cells m !! 5003 = Some 0
  | _ => False
  end.
Proof. vm_compute. auto. Qed.

(** * Oneof fields *)

(** [struct { pb_size_t which_u; union { struct { pb_bytes_array_t *b; } s; } u; }] *)
Definition inner_fields : list pb_field_t :=
  [PbField 1 (or3 PB_ATYPE_POINTER PB_HTYPE_OPTIONAL PB_LTYPE_BYTES) 0 0 8 0 PtrNull; PB_LAST_FIELD].
Definition outer_fields : list pb_field_t :=
  [PbField 1 (or3 PB_ATYPE_STATIC PB_HTYPE_ONEOF PB_LTYPE_SUBMESSAGE) 8 (-8) 8 0
     (PtrFields inner_fields); PB_LAST_FIELD].

(** The same submessage twice in the input. *)
Definition twice : list Z := [0x0A; 3; 0x0A; 1; 0x55; 0x0A; 3; 0x0A; 1; 0x66].

Definition decode_then_release (l : list Z) : option (bool * nat) :=
  match pb_decode 3 (pb_istream_from_buffer 4000 (zlen l)) outer_fields 5000 (input_mem l 16) with
  | Ok (ok, _) m =>
      match pb_release 3 outer_fields 5000 m with
      | Ok _ m' => Some (ok, size (heap m'))
      | _ => None
      end
  | _ => None
  end.

(** [decode_static_field] clears the submessage before it decodes the second
    occurrence, although [pb_release_union_field] kept the first one to be
    merged: its allocation is still on the heap after [pb_release]. *)
Theorem oneof_submessage_leaks :
  decode_then_release twice = Some (true, 1%nat)
  /\ decode_then_release [0x0A; 3; 0x0A; 1; 0x55] = Some (true, 0%nat).
Proof. vm_compute. auto. Qed.

(** [struct { pb_size_t which_u; union { uint64_t n; pb_bytes_array_t *b; } u; }] *)
Definition union_fields : list pb_field_t :=
  [PbField 1 (or3 PB_ATYPE_STATIC PB_HTYPE_ONEOF PB_LTYPE_UVARINT) 8 (-8) 8 0 PtrNull;
   PbField 2 (or3 PB_ATYPE_POINTER PB_HTYPE_ONEOF PB_LTYPE_BYTES) PB_SIZE_MAX (-8) 8 0 PtrNull;
   PB_LAST_FIELD].

(** [pb_release_union_field] leaves the bytes of the old member in place when
    the new member is a pointer: the number 5 of the first field is then handed
    to [realloc] as an address. *)
Theorem union_pointer_from_input :
  pb_decode 2 (pb_istream_from_buffer 4000 5) union_fields 5000
    (input_mem [0x08; 5; 0x12; 1; 0x55] 16) = Fault.
Proof. vm_compute. reflexivity. Qed.

(** * Default checks of pointer fields *)

(** [pb_check_proto3_default_value] says it compares the pointer with 0, but
    compares as many bytes of the structure as the pointed-to type has: a null
    pointer to a 16-byte message counts as a value if the next member is not
    zero. *)
Theorem proto3_default_reads_past_pointer :
  let f := PbField 1 (or3 PB_ATYPE_POINTER PB_HTYPE_OPTIONAL PB_LTYPE_SUBMESSAGE) 0 0 16 0
             (PtrFields inner_fields) in
  value_of (pb_check_proto3_default_value 2 f 4000 (input_mem (replicate 16 0) 0)) = Some true
  /\ value_of (pb_check_proto3_default_value 2 f 4000
                 (input_mem (replicate 8 0 ++ replicate 8 1) 0)) = Some false.
Proof. vm_compute. auto. Qed.

(** * Empty messages *)

(** The descriptor of an empty message type is the terminator alone; the search
    for tag 0 stops on it, and the decoder takes it for a required [bool]: a
    byte is stored in the structure, which has no members. *)
Theorem empty_message_tag_zero :
  match pb_decode 1 (pb_istream_from_buffer 4000 2) [PB_LAST_FIELD] 5000 (input_mem [1; 1] 1) with
  | Ok (ok, _) m => ok = true /\ cells m !! 5000 = Some 1
  | _ => False
  end.
Proof. vm_compute. auto. Qed.
