(* ===== verification/LdbSlice.v ===== *)
(** leveldb: byte strings and results, [slice.h], [status.h], [status.cc].

    A [Slice] and a [std::string] are the list of their bytes; a function that
    appends to a [std::string* dst] returns the new string.  Reading outside a
    buffer is [None] of the option monad. *)
From stdpp Require Import base numbers option strings list.
From S2P Require Import Prelude.
Open Scope Z_scope.

Abbreviation bytes := (list Z).

(** The bytes of a string literal. *)
Definition str (s : string) : bytes :=
  map (fun c => Z.of_nat (Ascii.nat_of_ascii c)) (String.list_ascii_of_string s).

(** * Slice *)

(** [memcmp] of the first [n] bytes: the difference of the first two bytes
    that differ. *)
Fixpoint memcmp (a b : bytes) (n : nat) : Z :=
  match n, a, b with
  | S n', x :: a', y :: b' => if x =? y then memcmp a' b' n' else x - y
  | _, _, _ => 0
  end.

Definition Slice_compare (a b : bytes) : Z :=
  let min_len := if zlen a <? zlen b then zlen a else zlen b in
  let r := memcmp a b (Z.to_nat min_len) in
  if r =? 0 then
    if zlen a <? zlen b then -1 else if zlen b <? zlen a then 1 else r
  else r.

Definition Slice_starts_with (a x : bytes) : bool :=
  (zlen x <=? zlen a) && (memcmp a x (length x) =? 0).

Definition Slice_eqb (x y : bytes) : bool :=
  (zlen x =? zlen y) && (memcmp x y (length x) =? 0).

(** [a[n]]; outside the slice it is undefined. *)
Definition Slice_get (a : bytes) (n : Z) : option Z := a !! Z.to_nat n.

(** [remove_prefix(n)]; more than the size is undefined. *)
Definition Slice_remove_prefix (a : bytes) (n : Z) : option bytes :=
  if n <=? zlen a then Some (drop (Z.to_nat n) a) else None.

(** * Status *)
Definition kOk : Z := 0.
Definition kNotFound : Z := 1.
Definition kCorruption : Z := 2.
Definition kNotSupported : Z := 3.
Definition kInvalidArgument : Z := 4.
Definition kIOError : Z := 5.

(** [state_]: null, or the array of the message's length, the code and the
    message. *)
Definition Status : Type := option bytes.

Definition Status_OK : Status := None.

Definition Status_make (code : Z) (msg msg2 : bytes) : Status :=
  let len1 := u32 (zlen msg) in
  let len2 := u32 (zlen msg2) in
  let size := u32 (len1 + (if len2 =? 0 then 0 else 2 + len2)) in
  Some (le_bytes 4 size ++ [code] ++ take (Z.to_nat len1) msg
        ++ (if len2 =? 0 then [] else str ": " ++ take (Z.to_nat len2) msg2)).

Definition Status_NotFound (msg msg2 : bytes) : Status := Status_make kNotFound msg msg2.
Definition Status_Corruption (msg msg2 : bytes) : Status := Status_make kCorruption msg msg2.
Definition Status_NotSupported (msg msg2 : bytes) : Status := Status_make kNotSupported msg msg2.
Definition Status_InvalidArgument (msg msg2 : bytes) : Status :=
  Status_make kInvalidArgument msg msg2.
Definition Status_IOError (msg msg2 : bytes) : Status := Status_make kIOError msg msg2.

Definition Status_ok (s : Status) : bool := match s with None => true | Some _ => false end.

Definition Status_code (s : Status) : Z :=
  match s with None => kOk | Some state => nth 4 state 0 end.

Definition Status_IsNotFound (s : Status) : bool := Status_code s =? kNotFound.
Definition Status_IsCorruption (s : Status) : bool := Status_code s =? kCorruption.
Definition Status_IsIOError (s : Status) : bool := Status_code s =? kIOError.
Definition Status_IsNotSupportedError (s : Status) : bool := Status_code s =? kNotSupported.
Definition Status_IsInvalidArgument (s : Status) : bool := Status_code s =? kInvalidArgument.

(** [new char[size + 5]] and [memcpy] of as much. *)
Definition Status_CopyState (state : bytes) : bytes :=
  take (Z.to_nat (le_val (take 4 state) + 5)) state.

Definition Status_copy (s : Status) : Status := Status_CopyState <$> s.

(** The decimal digits of a number. *)
Fixpoint decimal_loop (n : nat) (z : Z) : bytes :=
  match n with
  | O => []
  | S n' => if z <? 10 then [48 + z] else decimal_loop n' (z / 10) ++ [48 + z mod 10]
  end.
Definition decimal (z : Z) : bytes := decimal_loop 20 z.

Definition Status_ToString (s : Status) : bytes :=
  match s with
  | None => str "OK"
  | Some state =>
      let code := Status_code s in
      let type :=
        if code =? kOk then str "OK"
        else if code =? kNotFound then str "NotFound: "
        else if code =? kCorruption then str "Corruption: "
        else if code =? kNotSupported then str "Not implemented: "
        else if code =? kInvalidArgument then str "Invalid argument: "
        else if code =? kIOError then str "IO error: "
        else str "Unknown code(" ++ decimal code ++ str "): " in
      let length := le_val (take 4 state) in
      type ++ take (Z.to_nat length) (drop 5 state)
  end.

(** * Facts *)
Lemma memcmp_eq a b :
  length a = length b -> memcmp a b (length a) = 0 <-> a = b.
Proof.
  revert b. induction a as [|x a IH]; intros [|y b] Hl; try done. injection Hl as Hl. simpl.
  destruct (Z.eqb_spec x y) as [->|Hne].
  - rewrite (IH b Hl). split; [by intros ->|by intros [= ->]].
  - split; [lia|by intros [= -> ->]].
Qed.

Lemma Slice_eqb_eq x y : Slice_eqb x y = true <-> x = y.
Proof.
  unfold Slice_eqb. rewrite andb_true_iff, !Z.eqb_eq. split.
  - intros [Hl Hc]. apply memcmp_eq; [lia|done].
  - intros ->. split; [done|]. by apply memcmp_eq.
Qed.

Lemma Slice_remove_prefix_app a b : Slice_remove_prefix (a ++ b) (zlen a) = Some b.
Proof.
  unfold Slice_remove_prefix. rewrite zlen_app. rewrite (proj2 (Z.leb_le _ _)) by lia.
  by rewrite Nat2Z.id, drop_app_length.
Qed.

(** Lexicographic order, by the first difference. *)
Lemma memcmp_sym a b n : memcmp a b n = - memcmp b a n.
Proof.
  revert a b; induction n as [|n IH]; intros [|x a] [|y b]; simpl; try done.
  rewrite (Z.eqb_sym y x). destruct (Z.eqb_spec x y); [apply IH|lia].
Qed.

Lemma Slice_compare_sym a b : Slice_compare a b = - Slice_compare b a.
Proof.
  unfold Slice_compare.
  assert ((if zlen a <? zlen b then zlen a else zlen b)
          = (if zlen b <? zlen a then zlen b else zlen a)) as ->.
  { destruct (Z.ltb_spec (zlen a) (zlen b)), (Z.ltb_spec (zlen b) (zlen a)); lia. }
  rewrite (memcmp_sym a b).
  generalize (memcmp b a (Z.to_nat (if zlen b <? zlen a then zlen b else zlen a))). intros r.
  destruct (Z.eqb_spec r 0), (Z.eqb_spec (- r) 0); try lia.
  destruct (Z.ltb_spec (zlen a) (zlen b)), (Z.ltb_spec (zlen b) (zlen a)); lia.
Qed.

Lemma Slice_compare_cons x y a b :
  Slice_compare (x :: a) (y :: b) = if x =? y then Slice_compare a b else x - y.
Proof.
  unfold Slice_compare. rewrite !zlen_cons.
  set (ml := if zlen a <? zlen b then zlen a else zlen b).
  assert ((if 1 + zlen a <? 1 + zlen b then 1 + zlen a else 1 + zlen b) = 1 + ml) as ->.
  { unfold ml. destruct (Z.ltb_spec (zlen a) (zlen b)), (Z.ltb_spec (1 + zlen a) (1 + zlen b)); lia. }
  assert (0 <= ml) by (unfold ml; destruct (zlen a <? zlen b); lia).
  replace (Z.to_nat (1 + ml)) with (S (Z.to_nat ml)) by lia. cbn [memcmp].
  assert (forall p q, (1 + p <? 1 + q) = (p <? q)) as Hlt.
  { intros p q. destruct (Z.ltb_spec p q), (Z.ltb_spec (1 + p) (1 + q)); lia. }
  rewrite !Hlt. destruct (Z.eqb_spec x y); [done|].
  destruct (Z.eqb_spec (x - y) 0); [lia|done].
Qed.

Lemma Slice_compare_nil_l b : Slice_compare [] b = if zlen b =? 0 then 0 else -1.
Proof. destruct b; done. Qed.

Lemma Slice_compare_refl a : Slice_compare a a = 0.
Proof. induction a as [|x a IH]; [done|]. by rewrite Slice_compare_cons, Z.eqb_refl. Qed.

Lemma Slice_compare_eq a b : Slice_compare a b = 0 <-> a = b.
Proof.
  split; [|intros ->; apply Slice_compare_refl].
  revert b. induction a as [|x a IH]; intros [|y b]; [done|done|done|].
  rewrite Slice_compare_cons. destruct (Z.eqb_spec x y) as [->|]; [|lia].
  intros E. by rewrite (IH b E).
Qed.

Lemma Slice_compare_trans a b c :
  Slice_compare a b <= 0 -> Slice_compare b c <= 0 -> Slice_compare a c <= 0.
Proof.
  revert b c. induction a as [|x a IH]; intros b c.
  - intros _ _. rewrite Slice_compare_nil_l. destruct (zlen c =? 0); lia.
  - destruct b as [|y b]; [intros H; done|]. destruct c as [|z c]; [intros _ H; done|].
    rewrite !Slice_compare_cons.
    destruct (Z.eqb_spec x y) as [->|], (Z.eqb_spec y z) as [->|];
      rewrite ?Z.eqb_refl; [apply IH|lia|intros..].
    + destruct (Z.eqb_spec x z); lia.
    + destruct (Z.eqb_spec x z); lia.
Qed.
