(* ===== verification/LdbCoding.v ===== *)
(** leveldb: the encoding of integers and slices, [coding.h] and [coding.cc].

    A function that writes at [char* dst] returns the bytes written.  A
    function that parses from [p] up to [limit] takes the bytes between them
    and returns the value with the bytes that are left, or [None] where the
    code returns a null pointer or false. *)
From stdpp Require Import base numbers option list.
From S2P Require Import Prelude Varint LdbSlice.
Open Scope Z_scope.
Open Scope c_scope.

(** * Fixed-width integers *)
Definition kLittleEndian : bool := true.

Definition EncodeFixed32 (value : Z) : bytes :=
  if kLittleEndian then le_bytes 4 value
  else [u8 (value &&& 0xff); u8 ((value ≫ 8) &&& 0xff); u8 ((value ≫ 16) &&& 0xff);
        u8 ((value ≫ 24) &&& 0xff)].

Definition EncodeFixed64 (value : Z) : bytes :=
  if kLittleEndian then le_bytes 8 value
  else [u8 (value &&& 0xff); u8 ((value ≫ 8) &&& 0xff); u8 ((value ≫ 16) &&& 0xff);
        u8 ((value ≫ 24) &&& 0xff); u8 ((value ≫ 32) &&& 0xff); u8 ((value ≫ 40) &&& 0xff);
        u8 ((value ≫ 48) &&& 0xff); u8 ((value ≫ 56) &&& 0xff)].

Definition PutFixed32 (dst : bytes) (value : Z) : bytes := dst ++ EncodeFixed32 value.
Definition PutFixed64 (dst : bytes) (value : Z) : bytes := dst ++ EncodeFixed64 value.

(** [DecodeFixed32(ptr)], [p] being the bytes from [ptr] on; fewer than four
    are a read out of bounds. *)
Definition DecodeFixed32 (p : bytes) : option Z :=
  match p with
  | b0 :: b1 :: b2 :: b3 :: _ =>
      Some (if kLittleEndian then le_val [b0; b1; b2; b3]
            else b0 ||| (b1 ≪ 8) ||| (b2 ≪ 16) ||| (b3 ≪ 24))
  | _ => None
  end.

Definition DecodeFixed64 (p : bytes) : option Z :=
  if kLittleEndian then
    match p with
    | b0 :: b1 :: b2 :: b3 :: b4 :: b5 :: b6 :: b7 :: _ =>
        Some (le_val [b0; b1; b2; b3; b4; b5; b6; b7])
    | _ => None
    end
  else
    lo ← DecodeFixed32 p;
    hi ← DecodeFixed32 (drop 4 p);
    Some ((hi ≪ 32) ||| lo).

(** * Varints *)
Definition EncodeVarint32 (v : Z) : bytes :=
  let B := 128 in
  if v <? 1 ≪ 7 then [u8 v]
  else if v <? 1 ≪ 14 then [u8 (v ||| B); u8 (v ≫ 7)]
  else if v <? 1 ≪ 21 then [u8 (v ||| B); u8 ((v ≫ 7) ||| B); u8 (v ≫ 14)]
  else if v <? 1 ≪ 28
  then [u8 (v ||| B); u8 ((v ≫ 7) ||| B); u8 ((v ≫ 14) ||| B); u8 (v ≫ 21)]
  else [u8 (v ||| B); u8 ((v ≫ 7) ||| B); u8 ((v ≫ 14) ||| B); u8 ((v ≫ 21) ||| B); u8 (v ≫ 28)].

Definition PutVarint32 (dst : bytes) (v : Z) : bytes := dst ++ EncodeVarint32 v.

(** The loop of [EncodeVarint64]; more than [room] rounds would write past
    [buf[10]] of its callers. *)
Fixpoint varint64_loop (room : nat) (v : Z) : option bytes :=
  if v <? 128 then Some [u8 v]
  else match room with
       | O => None
       | S room' => l ← varint64_loop room' (v ≫ 7); Some (u8 (v ||| 128) :: l)
       end.

Definition EncodeVarint64 (v : Z) : bytes :=
  match varint64_loop 9 v with Some l => l | None => [] end.

Definition PutVarint64 (dst : bytes) (v : Z) : bytes := dst ++ EncodeVarint64 v.

Definition PutLengthPrefixedSlice (dst value : bytes) : bytes :=
  PutVarint32 dst (u32 (zlen value)) ++ value.

Fixpoint varint_length_loop (n : nat) (v len : Z) : Z :=
  if v <? 128 then len
  else match n with O => len | S n' => varint_length_loop n' (v ≫ 7) (len + 1) end.

(** Nine shifts by seven bits leave nothing of 64 bits. *)
Definition VarintLength (v : Z) : Z := varint_length_loop 9 v 1.

(** The for loops of [GetVarint32PtrFallback] and [GetVarint64Ptr]: at most
    [n] rounds, with a result of [w] bits. *)
Fixpoint get_varint_loop (w : Z) (n : nat) (p : bytes) (shift result : Z) : option (Z * bytes) :=
  match n, p with
  | S n', byte :: p' =>
      if (byte &&& 128) =? 0
      then Some (result ||| (byte ≪ shift) mod 2 ^ w, p')
      else get_varint_loop w n' p' (shift + 7) (result ||| ((byte &&& 127) ≪ shift) mod 2 ^ w)
  | _, _ => None
  end.

(** Shifts 0, 7, ..., 28. *)
Definition GetVarint32PtrFallback (p : bytes) : option (Z * bytes) := get_varint_loop 32 5 p 0 0.

Definition GetVarint32Ptr (p : bytes) : option (Z * bytes) :=
  match p with
  | result :: p' =>
      if (result &&& 128) =? 0 then Some (result, p') else GetVarint32PtrFallback p
  | [] => GetVarint32PtrFallback p
  end.

(** Shifts 0, 7, ..., 63. *)
Definition GetVarint64Ptr (p : bytes) : option (Z * bytes) := get_varint_loop 64 10 p 0 0.

Definition GetVarint32 (input : bytes) : option (Z * bytes) := GetVarint32Ptr input.
Definition GetVarint64 (input : bytes) : option (Z * bytes) := GetVarint64Ptr input.

(** The overload on pointers: the slice and what follows it. *)
Definition GetLengthPrefixedSlicePtr (p : bytes) : option (bytes * bytes) :=
  '(len, p) ← GetVarint32Ptr p;
  if zlen p <? len then None
  else Some (take (Z.to_nat len) p, drop (Z.to_nat len) p).

(** The overload on slices. *)
Definition GetLengthPrefixedSlice (input : bytes) : option (bytes * bytes) :=
  '(len, input) ← GetVarint32 input;
  if len <=? zlen input then Some (take (Z.to_nat len) input, drop (Z.to_nat len) input)
  else None.

(** * Fixed-width integers: facts *)
Lemma EncodeFixed32_length v : length (EncodeFixed32 v) = 4%nat.
Proof. done. Qed.
Lemma EncodeFixed64_length v : length (EncodeFixed64 v) = 8%nat.
Proof. done. Qed.

Lemma EncodeFixed32_bytes v : Forall is_byte (EncodeFixed32 v).
Proof. apply le_bytes_bytes. Qed.
Lemma EncodeFixed64_bytes v : Forall is_byte (EncodeFixed64 v).
Proof. apply le_bytes_bytes. Qed.

Lemma DecodeFixed32_take p :
  (4 <= length p)%nat -> DecodeFixed32 p = Some (le_val (take 4 p)).
Proof. destruct p as [|a [|b [|c [|d p]]]]; simpl; (lia || done). Qed.

Lemma DecodeFixed64_take p :
  (8 <= length p)%nat -> DecodeFixed64 p = Some (le_val (take 8 p)).
Proof.
  destruct p as [|a [|b [|c [|d [|e [|f [|g [|h p]]]]]]]]; simpl; (lia || done).
Qed.

Lemma DecodeFixed32_app l rest :
  length l = 4%nat -> DecodeFixed32 (l ++ rest) = Some (le_val l).
Proof.
  intros Hl. rewrite DecodeFixed32_take by (rewrite length_app; lia).
  by rewrite take_app_length'.
Qed.

Lemma DecodeFixed64_app l rest :
  length l = 8%nat -> DecodeFixed64 (l ++ rest) = Some (le_val l).
Proof.
  intros Hl. rewrite DecodeFixed64_take by (rewrite length_app; lia).
  by rewrite take_app_length'.
Qed.

Lemma DecodeFixed32_Encode v rest :
  in_uint 32 v -> DecodeFixed32 (EncodeFixed32 v ++ rest) = Some v.
Proof.
  intros Hv. rewrite DecodeFixed32_app by done. f_equal. by apply le_val_bytes.
Qed.

Lemma DecodeFixed64_Encode v rest :
  in_uint 64 v -> DecodeFixed64 (EncodeFixed64 v ++ rest) = Some v.
Proof.
  intros Hv. rewrite DecodeFixed64_app by done. f_equal. by apply le_val_bytes.
Qed.

Lemma EncodeFixed32_mod v : EncodeFixed32 (u32 v) = EncodeFixed32 v.
Proof. exact (le_bytes_mod 4 v). Qed.

(** * Varints: facts *)

(** The low byte of [v | 128]. *)
Lemma u8_lor_128 v : u8 (v ||| 128) = v mod 128 + 128.
Proof.
  unfold u8. rewrite <- Z.land_ones by lia. rewrite Z.land_lor_distr_l, (Z.land_ones v) by lia.
  change (Z.land 128 (Z.ones 8)) with 0x80.
  assert (v mod 2 ^ 8 = v mod 128 + (v / 128 mod 2) * 128) as E by (pow2; Z.to_euclidean_division_equations; lia).
  pose proof (Z.mod_pos_bound v 128 ltac:(lia)). pose proof (Z.mod_pos_bound (v / 128) 2 ltac:(lia)).
  rewrite E. destruct (Z.eq_dec (v / 128 mod 2) 0) as [->|Hn].
  - rewrite Z.mul_0_l, Z.add_0_r. by rewrite lor_80.
  - replace (v / 128 mod 2) with 1 by lia. rewrite Z.mul_1_l.
    rewrite <- lor_80 by lia. by rewrite <- Z.lor_assoc, Z.lor_diag.
Qed.

Lemma EncodeVarint32_varint v : in_uint 32 v -> EncodeVarint32 v = varint v.
Proof.
  intros Hv. unfold EncodeVarint32, varint. cbv zeta. rewrite !u8_lor_128, !shiftr_div by lia.
  unfold u8, in_uint in *. pow2. cbn [varint_n Z.shiftl Pos.shiftl Pos.iter].
  change (1 ≪ 7) with 128. change (1 ≪ 14) with 16384. change (1 ≪ 21) with 2097152.
  change (1 ≪ 28) with 268435456.
  assert (forall a b, 0 < a -> 0 < b -> v / (a * b) = v / a / b) as Hd
    by (intros; by rewrite Z.div_div by lia).
  change 16384 with (128 * 128). change 2097152 with (128 * 128 * 128).
  change 268435456 with (128 * 128 * 128 * 128). rewrite !Hd by lia.
  set (v1 := v / 128). set (v2 := v1 / 128). set (v3 := v2 / 128). set (v4 := v3 / 128).
  assert (0 <= v4 < 16) by (unfold v4, v3, v2, v1; Z.to_euclidean_division_equations; lia).
  assert (128 * v1 <= v < 128 * v1 + 128) by (unfold v1; Z.to_euclidean_division_equations; lia).
  assert (128 * v2 <= v1 < 128 * v2 + 128) by (unfold v2; Z.to_euclidean_division_equations; lia).
  assert (128 * v3 <= v2 < 128 * v3 + 128) by (unfold v3; Z.to_euclidean_division_equations; lia).
  assert (128 * v4 <= v3 < 128 * v4 + 128) by (unfold v4; Z.to_euclidean_division_equations; lia).
  repeat match goal with
  | |- context [?a <? ?b] => destruct (Z.ltb_spec a b); try lia
  end; rewrite (Z.mod_small _ 256) by lia; done.
Qed.

Lemma varint64_loop_varint n v :
  0 <= v < 128 ^ Z.of_nat (S n) -> varint64_loop n v = Some (varint_n (S n) v).
Proof.
  revert v. induction n as [|n IH]; intros v Hv; cbn [varint64_loop]; cbn [varint_n].
  - change (128 ^ Z.of_nat 1) with 128 in Hv. rewrite (proj2 (Z.ltb_lt _ _)) by lia.
    by rewrite u8_small by (unfold in_uint; lia).
  - destruct (Z.ltb_spec v 128); [by rewrite u8_small by (unfold in_uint; lia)|].
    rewrite pow128_succ in Hv. rewrite shiftr_div by lia. change (2 ^ 7) with 128.
    rewrite IH by (by apply div128_bound). cbn [mbind option_bind].
    by rewrite u8_lor_128.
Qed.

Lemma EncodeVarint64_varint v : in_uint 64 v -> EncodeVarint64 v = varint v.
Proof.
  intros Hv. unfold EncodeVarint64. rewrite varint64_loop_varint; [done|].
  unfold in_uint in Hv. change (128 ^ Z.of_nat 10) with (2 ^ 70). pow2. lia.
Qed.

Lemma varint_length_loop_spec n v len :
  0 <= v -> varint_length_loop n v len = len - 1 + zlen (varint_n (S n) v).
Proof.
  revert v len. induction n as [|n IH]; intros v len Hv; cbn [varint_length_loop varint_n].
  - destruct (v <? 128); cbn [length]; lia.
  - destruct (Z.ltb_spec v 128); [cbn [length]; lia|].
    rewrite shiftr_div by lia. change (2 ^ 7) with 128.
    rewrite IH by (apply Z.div_pos; lia). rewrite zlen_cons. cbn [varint_n]. lia.
Qed.

Lemma VarintLength_varint v : 0 <= v -> VarintLength v = zlen (varint v).
Proof. intros. unfold VarintLength. rewrite varint_length_loop_spec by done. unfold varint. lia. Qed.

(** The decoding loop on a varint with [k] groups read before it. *)
Lemma get_varint_loop_shaped w n l rest k r :
  varint_shaped l -> 0 <= k -> zlen l <= Z.of_nat n -> 7 * (k + zlen l - 1) <= w ->
  0 <= r < 2 ^ (7 * k) -> r < 2 ^ w -> k + zlen l <= 10 ->
  get_varint_loop w n (l ++ rest) (7 * k) r = Some ((r + groups_val l * 2 ^ (7 * k)) mod 2 ^ w, rest).
Proof.
  revert l k r. induction n as [|n IH]; intros l k r Hs Hk Hn Hw Hr Hrw H10.
  { destruct l; [done|simpl in Hn; lia]. }
  destruct l as [|b l]; [done|].
  assert (is_byte b) as Hb by (by apply varint_shaped_bytes, Forall_cons in Hs as [? _]).
  cbn [app get_varint_loop].
  rewrite zlen_cons in *. rewrite land_80_test by done.
  apply shaped_cons in Hs as [(Hlt & Hge & ->)|[Hc Hs]].
  - rewrite (proj2 (Z.ltb_lt _ _) Hlt). simpl in Hw. rewrite lor_shift_mod by lia.
    cbn [groups_val]. rewrite (Z.mod_small b) by lia. by rewrite Z.mul_0_r, Z.add_0_r.
  - rewrite (proj2 (Z.ltb_ge _ _)) by lia. change 127 with 0x7F. rewrite land_7f.
    destruct l as [|c l]; [done|]. rewrite !zlen_cons in *.
    rewrite lor_shift_mod by (try apply Z.mod_pos_bound; lia).
    replace (7 * k + 7) with (7 * (k + 1)) by lia.
    pose proof (varint_acc_bound r b k ltac:(lia) Hr) as Ha.
    assert (7 * (k + 1) <= w) as Hw' by lia.
    assert (2 ^ (7 * (k + 1)) <= 2 ^ w) by (apply Z.pow_le_mono_r; lia).
    rewrite (Z.mod_small (r + _)) by lia.
    rewrite IH; [|done|lia|rewrite zlen_cons; lia..|done|lia|rewrite zlen_cons; lia].
    cbn [groups_val]. replace (7 * (k + 1)) with (7 + 7 * k) by lia.
    rewrite Z.pow_add_r by lia. change (2 ^ 7) with 128. do 3 f_equal. ring.
Qed.

Lemma get_varint_loop_whole w n l rest :
  varint_shaped l -> zlen l <= Z.of_nat n -> 7 * (zlen l - 1) <= w -> zlen l <= 10 ->
  get_varint_loop w n (l ++ rest) 0 0 = Some (groups_val l mod 2 ^ w, rest).
Proof.
  intros Hs Hn Hw H10. pose proof (zlen_nonneg l).
  assert (zlen l <> 0) by (destruct l; [done|simpl; lia]).
  pose proof (get_varint_loop_shaped w n l rest 0 0 Hs ltac:(lia) Hn ltac:(lia) ltac:(done)
    ltac:(apply Z.pow_pos_nonneg; lia) ltac:(lia)) as E.
  change (7 * 0) with 0 in E. by rewrite Z.mul_1_r, Z.add_0_l in E.
Qed.

(** Input without the end of a varint in the first [n] bytes. *)
Lemma get_varint_loop_cont w n p shift r :
  Forall is_byte p -> Forall (fun b => 128 <= b) (take n p) -> get_varint_loop w n p shift r = None.
Proof.
  revert p shift r. induction n as [|n IH]; intros p shift r Hb Hc; [by destruct p|].
  destruct p as [|b p]; [done|]. cbn [take] in Hc. cbn [get_varint_loop].
  apply Forall_cons in Hc as [Hge Hc]. apply Forall_cons in Hb as [Hb Hbs].
  rewrite land_80_test by done. rewrite (proj2 (Z.ltb_ge _ _)) by lia. by apply IH.
Qed.

Lemma GetVarint32Ptr_fallback p : Forall is_byte p -> GetVarint32Ptr p = GetVarint32PtrFallback p.
Proof.
  destruct p as [|b p]; [done|]. intros Hb. apply Forall_cons in Hb as [Hb _]. cbn [GetVarint32Ptr].
  unfold GetVarint32PtrFallback. cbn [get_varint_loop]. rewrite land_80_test by done.
  destruct (Z.ltb_spec b 128); [|done].
  rewrite Z.shiftl_0_r, Z.lor_0_l, Z.mod_small by (unfold in_uint in Hb; pow2; lia). done.
Qed.

(** The varint parsers on every input: the value of the varint it starts with,
    modulo the width, if there is one of at most five or ten bytes. *)
Lemma get_varint_cases w n p :
  Forall is_byte p -> 7 * (Z.of_nat n - 1) <= w -> (n <= 10)%nat ->
  (exists v rest, p = v ++ rest /\ varint_shaped v /\ zlen v <= Z.of_nat n
                  /\ get_varint_loop w n p 0 0 = Some (groups_val v mod 2 ^ w, rest))
  \/ (get_varint_loop w n p 0 0 = None /\ Forall (fun b => 128 <= b) (take n p)).
Proof.
  intros Hb Hw Hn.
  destruct (varint_split p Hb) as [(v & rest & -> & Hv)|Hc].
  - destruct (Z.le_gt_cases (zlen v) (Z.of_nat n)).
    + left. exists v, rest. split_and!; [done..|].
      by rewrite get_varint_loop_whole by (done || lia).
    + right. assert (Forall (fun b => 128 <= b) (take n (v ++ rest))) as Hc.
      { rewrite take_app_le by lia. apply shaped_take; [done|lia]. }
      split; [by apply get_varint_loop_cont|done].
  - right. assert (Forall (fun b => 128 <= b) (take n p)) as Ht by (by apply Forall_take).
    split; [by apply get_varint_loop_cont|done].
Qed.

(** What they return fits the width. *)
Lemma GetVarint32_range p v rest : Forall is_byte p -> GetVarint32 p = Some (v, rest) -> in_uint 32 v.
Proof.
  intros Hb. unfold GetVarint32. rewrite GetVarint32Ptr_fallback by done. unfold GetVarint32PtrFallback.
  destruct (get_varint_cases 32 5 p Hb) as [(l & r & _ & _ & _ & ->)|[-> _]]; [lia|lia| |done].
  intros [= <- _]. apply Z.mod_pos_bound. lia.
Qed.

Lemma GetVarint64_range p v rest : Forall is_byte p -> GetVarint64 p = Some (v, rest) -> in_uint 64 v.
Proof.
  intros Hb. unfold GetVarint64, GetVarint64Ptr.
  destruct (get_varint_cases 64 10 p Hb) as [(l & r & _ & _ & _ & ->)|[-> _]]; [lia|lia| |done].
  intros [= <- _]. apply Z.mod_pos_bound. lia.
Qed.

Lemma GetVarint32_varint v rest : in_uint 32 v -> Forall is_byte rest ->
  GetVarint32 (varint v ++ rest) = Some (v, rest).
Proof.
  intros Hv Hr. unfold GetVarint32.
  rewrite GetVarint32Ptr_fallback by (apply Forall_app; split; [by apply varint_bytes, uint32_64|done]).
  unfold GetVarint32PtrFallback. pose proof (varint_zlen5 v Hv).
  rewrite get_varint_loop_whole by (try (by apply varint_is_shaped, uint32_64); lia).
  rewrite varint_val by (by apply uint32_64). by rewrite uint_small.
Qed.

Lemma GetVarint64_varint v rest : in_uint 64 v -> GetVarint64 (varint v ++ rest) = Some (v, rest).
Proof.
  intros Hv. unfold GetVarint64, GetVarint64Ptr. pose proof (varint_length v).
  rewrite get_varint_loop_whole by (try (by apply varint_is_shaped); lia).
  rewrite varint_val by done. by rewrite uint_small.
Qed.

(** * Length-prefixed slices *)
Lemma PutLengthPrefixedSlice_delim dst v :
  zlen v < 2 ^ 32 -> PutLengthPrefixedSlice dst v = dst ++ delim v.
Proof.
  intros Hv. unfold PutLengthPrefixedSlice, PutVarint32, delim.
  rewrite u32_small by (unfold in_uint; lia).
  rewrite EncodeVarint32_varint by (unfold in_uint; lia). by rewrite app_assoc.
Qed.

Lemma GetLengthPrefixedSlice_delim v rest :
  zlen v < 2 ^ 32 -> Forall is_byte v -> Forall is_byte rest ->
  GetLengthPrefixedSlice (delim v ++ rest) = Some (v, rest).
Proof.
  intros Hv Hb Hr. unfold GetLengthPrefixedSlice, delim. rewrite <- app_assoc.
  rewrite GetVarint32_varint; [|unfold in_uint; lia|by apply Forall_app]. cbn [mbind option_bind].
  rewrite zlen_app, (proj2 (Z.leb_le _ _)) by lia.
  by rewrite Nat2Z.id, take_app_length, drop_app_length.
Qed.

Lemma GetLengthPrefixedSlicePtr_eq p : GetLengthPrefixedSlicePtr p = GetLengthPrefixedSlice p.
Proof.
  unfold GetLengthPrefixedSlicePtr, GetLengthPrefixedSlice, GetVarint32.
  destruct (GetVarint32Ptr p) as [[len q]|]; [|done]. cbn [mbind option_bind].
  destruct (Z.ltb_spec (zlen q) len), (Z.leb_spec len (zlen q)); (lia || done).
Qed.

Lemma short_delim_bytes v : zlen v < 2 ^ 32 -> Forall is_byte v -> Forall is_byte (delim v).
Proof. intros Hv. apply delim_bytes. lia. Qed.

(** What a parser leaves is a proper suffix of its input. *)
Lemma get_varint_loop_suffix w n p shift r v rest :
  get_varint_loop w n p shift r = Some (v, rest) -> exists l, p = l ++ rest /\ l <> [].
Proof.
  revert p shift r. induction n as [|n IH]; intros p shift r H; [by destruct p|].
  destruct p as [|b p]; [done|]. cbn [get_varint_loop] in H.
  destruct (_ =? 0).
  - injection H as <- <-. by exists [b].
  - apply IH in H as (l & -> & _). by exists (b :: l).
Qed.

Lemma GetVarint32_suffix p v rest :
  GetVarint32 p = Some (v, rest) -> exists l, p = l ++ rest /\ l <> [].
Proof.
  unfold GetVarint32. destruct p as [|b p]; [done|]. cbn [GetVarint32Ptr].
  destruct (_ =? 0); [intros [= <- <-]; by exists [b]|]. apply get_varint_loop_suffix.
Qed.

Lemma GetVarint64_suffix p v rest :
  GetVarint64 p = Some (v, rest) -> exists l, p = l ++ rest /\ l <> [].
Proof. apply get_varint_loop_suffix. Qed.

Lemma GetLengthPrefixedSlice_suffix p v rest :
  GetLengthPrefixedSlice p = Some (v, rest) -> exists l, p = l ++ v ++ rest /\ l <> [].
Proof.
  unfold GetLengthPrefixedSlice. destruct (GetVarint32 p) as [[len q]|] eqn:E; [|done].
  apply GetVarint32_suffix in E as (l & -> & Hl). cbn [mbind option_bind].
  destruct (len <=? zlen q); [|done]. intros [= <- <-]. exists l. by rewrite take_drop.
Qed.

(** * Arrays of words *)
Lemma fold_PutFixed32 l dst : fold_left PutFixed32 l dst = dst ++ concat (map EncodeFixed32 l).
Proof.
  revert dst; induction l as [|x l IH]; intros dst; simpl; [by rewrite app_nil_r|].
  rewrite IH. unfold PutFixed32. by rewrite <- app_assoc.
Qed.

Lemma concat_fixed32_length l : length (concat (map EncodeFixed32 l)) = (4 * length l)%nat.
Proof. induction l as [|x l IH]; [done|]. cbn [map concat length]. rewrite length_app, IH. simpl. lia. Qed.

Lemma read_word l i w pre suf :
  l !! i = Some w -> in_uint 32 w ->
  DecodeFixed32 (drop (length pre + 4 * i) (pre ++ concat (map EncodeFixed32 l) ++ suf)) = Some w.
Proof.
  intros Hi Hw. rewrite drop_app_add. rewrite <- (take_drop_middle l i w Hi), map_app, concat_app.
  rewrite <- app_assoc, drop_app_length' by (rewrite concat_fixed32_length, length_take;
    apply lookup_lt_Some in Hi; lia).
  cbn [map concat]. rewrite <- app_assoc. by apply DecodeFixed32_Encode.
Qed.
