(* ===== verification/LdbBloom.v ===== *)
(** leveldb: filters, [hash.cc], [filter_policy.h] and [bloom.cc].

    A filter policy is the class [FilterPolicy]; what its clients rely on is
    the class [FilterPolicyLaw], which the Bloom filter is proved to satisfy.
    [CreateFilter] returns the new value of [*dst]. *)
From Stdlib Require Import SpecFloat.
From stdpp Require Import base numbers option strings list.
From S2P Require Import Prelude LdbSlice LdbCoding.
Open Scope Z_scope.
Open Scope c_scope.

(** * Hash *)
Definition hash_m : Z := 0xc6a4a793.
Definition hash_r : Z := 24.

(** One word of four bytes. *)
Definition hash_word (h w : Z) : Z :=
  let h := u32 (h + w) in
  let h := u32 (h * hash_m) in
  Z.lxor h (h ≫ 16).

(** The switch on the bytes that remain, falling through. *)
Definition hash_tail (h : Z) (data : bytes) : Z :=
  let last h d0 :=
    let h := u32 (h + d0) in
    let h := u32 (h * hash_m) in
    Z.lxor h (h ≫ hash_r) in
  match data with
  | [d0; d1; d2] => last (u32 (u32 (h + (d2 ≪ 16)) + (d1 ≪ 8))) d0
  | [d0; d1] => last (u32 (h + (d1 ≪ 8))) d0
  | [d0] => last h d0
  | _ => h
  end.

Fixpoint hash_loop (h : Z) (data : bytes) : Z :=
  match data with
  | b0 :: b1 :: b2 :: b3 :: data' => hash_loop (hash_word h (le_val [b0; b1; b2; b3])) data'
  | _ => hash_tail h data
  end.

Definition Hash (data : bytes) (seed : Z) : Z :=
  hash_loop (u32 (Z.lxor seed (u64 (zlen data * hash_m)))) data.

Lemma lxor_shift_range h k : in_uint 32 h -> 0 <= k -> in_uint 32 (Z.lxor h (h ≫ k)).
Proof.
  intros Hh Hk. assert (in_uint 32 (h ≫ k)) as Hs.
  { rewrite Z.shiftr_div_pow2 by done. unfold in_uint in *. pose proof (Z.pow_pos_nonneg 2 k ltac:(lia) Hk).
    split; [apply Z.div_pos; lia|]. apply (Z.le_lt_trans _ h); [|lia]. apply Z.div_le_upper_bound; [lia|]. nia. }
  unfold in_uint in *. assert (0 <= Z.lxor h (h ≫ k)) by (apply Z.lxor_nonneg; lia). split; [done|].
  destruct (decide (Z.lxor h (h ≫ k) = 0)) as [->|Hne]; [done|]. apply Z.log2_lt_pow2; [lia|].
  assert (forall x, 0 <= x < 2 ^ 32 -> Z.log2 x < 32) as Hlog.
  { intros x Hx. destruct (decide (x = 0)) as [->|]; [done|]. apply Z.log2_lt_pow2; lia. }
  pose proof (Z.log2_lxor h (h ≫ k) ltac:(lia) ltac:(lia)). pose proof (Hlog h Hh). pose proof (Hlog _ Hs). lia.
Qed.

Lemma Hash_range data seed : in_uint 32 (Hash data seed).
Proof.
  unfold Hash. generalize (u32_range (Z.lxor seed (u64 (zlen data * hash_m)))). generalize (u32 (Z.lxor seed (u64 (zlen data * hash_m)))).
  assert (forall data h, in_uint 32 h -> in_uint 32 (hash_tail h data)) as Htail.
  { intros l h Hh. unfold hash_tail. destruct l as [|? [|? [|? [|]]]]; [done|..|done];
      (apply lxor_shift_range; [apply u32_range|done]). }
  induction data as [[|b0 [|b1 [|b2 [|b3 data]]]] IH] using (well_founded_induction (Wf_nat.well_founded_ltof _ length));
    intros h Hh; cbn [hash_loop]; try by apply Htail.
  apply IH; [unfold Wf_nat.ltof; simpl; lia|]. apply lxor_shift_range; [apply u32_range|done].
Qed.

(** * The interface *)
Class FilterPolicy : Type := {
  FilterPolicy_Name : bytes;
  CreateFilter : list bytes -> bytes -> option bytes;
  KeyMayMatch : bytes -> bytes -> option bool
}.

(** The number of keys is passed as an [int]. *)
Definition int_keys (keys : list bytes) : Prop := zlen keys < 2 ^ 31.

(** What [filter_policy.h] promises: the filter of a list of keys is appended
    to [*dst], and every one of the keys matches it; [valid] are the keys the
    policy takes. *)
Class FilterPolicyLaw (P : FilterPolicy) (valid : bytes -> Prop) : Prop :=
  CreateFilter_law keys dst :
    int_keys keys -> Forall valid keys ->
    exists filter, CreateFilter keys dst = Some (dst ++ filter)
      /\ forall key, key ∈ keys -> KeyMayMatch key filter = Some true.

(** * The Bloom filter *)
Definition BloomHash (key : bytes) : Z := Hash key 0xbc9f1d34.

Record BloomFilterPolicy : Type := { bits_per_key_ : Z; k_ : Z }.

(** The double nearest to 0.69. *)
Definition double_069 : spec_float := S754_finite false 6214966158009139 (-53).

(** An [int] as a double; 31 bits and a sign are exact. *)
Definition double_of_int (n : Z) : spec_float := binary_normalize 53 1024 n 0 false.

(** [static_cast<size_t>] of a double: the fraction is dropped; a negative
    value is undefined. *)
Definition size_of_double (x : spec_float) : option Z :=
  match x with
  | S754_zero _ => Some 0
  | S754_finite false m e => Some (Z.shiftl (Zpos m) e)
  | _ => None
  end.

Definition BloomFilterPolicy_new (bits_per_key : Z) : option BloomFilterPolicy :=
  k ← size_of_double (SFmul 53 1024 (double_of_int bits_per_key) double_069);
  let k := if k <? 1 then 1 else k in
  let k := if k >? 30 then 30 else k in
  Some {| bits_per_key_ := u64 bits_per_key; k_ := k |}.

(** [array[bitpos / 8] |= (1 << (bitpos % 8))] *)
Definition set_bit (array : bytes) (bitpos : Z) : option bytes :=
  let i := Z.to_nat (bitpos / 8) in
  b ← array !! i;
  Some (<[i := u8 (b ||| (1 ≪ (bitpos mod 8)))]> array).

(** The loop over [j]. *)
Fixpoint set_probes (bits : Z) (k : nat) (h delta : Z) (array : bytes) : option bytes :=
  match k with
  | O => Some array
  | S k' =>
      array ← set_bit array (h mod bits);
      set_probes bits k' (u32 (h + delta)) delta array
  end.

Definition bloom_delta (h : Z) : Z := (h ≫ 17) ||| u32 (h ≪ 15).

(** The loop over the keys. *)
Fixpoint set_keys (bits : Z) (k : nat) (keys : list bytes) (array : bytes) : option bytes :=
  match keys with
  | [] => Some array
  | key :: keys' =>
      let h := BloomHash key in
      array ← set_probes bits k h (bloom_delta h) array;
      set_keys bits k keys' array
  end.

Definition Bloom_CreateFilter (p : BloomFilterPolicy) (keys : list bytes) (dst : bytes)
    : option bytes :=
  let bits := u64 (zlen keys * bits_per_key_ p) in
  let bits := if bits <? 64 then 64 else bits in
  let bytes := u64 (bits + 7) / 8 in
  let bits := u64 (bytes * 8) in
  array ← set_keys bits (Z.to_nat (k_ p)) keys (replicate (Z.to_nat bytes) 0 ++ [u8 (k_ p)]);
  Some (dst ++ array).

Fixpoint test_probes (bits : Z) (k : nat) (h delta : Z) (array : bytes) : option bool :=
  match k with
  | O => Some true
  | S k' =>
      let bitpos := h mod bits in
      b ← array !! Z.to_nat (bitpos / 8);
      if (b &&& (1 ≪ (bitpos mod 8))) =? 0 then Some false
      else test_probes bits k' (u32 (h + delta)) delta array
  end.

(** [k] is a [char], extended with its sign. *)
Definition Bloom_KeyMayMatch (key bloom_filter : bytes) : option bool :=
  let len := zlen bloom_filter in
  if len <? 2 then Some false
  else
    let array := bloom_filter in
    let bits := (len - 1) * 8 in
    last_char ← array !! Z.to_nat (len - 1);
    let k := u64 (s8 last_char) in
    if k >? 30 then Some true
    else
      let h := BloomHash key in
      test_probes bits (Z.to_nat k) h (bloom_delta h) array.

#[export] Instance Bloom (p : BloomFilterPolicy) : FilterPolicy := {
  FilterPolicy_Name := str "leveldb.BuiltinBloomFilter2";
  CreateFilter := Bloom_CreateFilter p;
  KeyMayMatch := Bloom_KeyMayMatch
}.

(** The values [hash_test.cc] of leveldb expects. *)
Example hash_1 : Hash [] 0xbc9f1d34 = 0xbc9f1d34.
Proof. by vm_compute. Qed.
Example hash_2 : Hash [0x62] 0xbc9f1d34 = 0xef1345c4.
Proof. by vm_compute. Qed.
Example hash_3 : Hash [0xc3; 0x97] 0xbc9f1d34 = 0x5b663814.
Proof. by vm_compute. Qed.
Example hash_4 : Hash [0xe2; 0x99; 0xa5] 0xbc9f1d34 = 0x323c078f.
Proof. by vm_compute. Qed.
Example hash_5 : Hash [0xe1; 0x80; 0xb9; 0x32] 0xbc9f1d34 = 0xed21633a.
Proof. by vm_compute. Qed.

(** The multiplication by 0.69 rounds down to the hundredth. *)
Example bloom_k_table :
  forallb (fun b => match BloomFilterPolicy_new b with
                    | Some p => k_ p =? Z.max 1 (Z.min 30 (69 * b / 100))
                    | None => false end) (seqZ 0 200) = true.
Proof. by vm_compute. Qed.

(** * Setting and testing bits *)
Definition bit_set (array : bytes) (pos : Z) : Prop :=
  exists b, array !! Z.to_nat (pos / 8) = Some b /\ Z.testbit b (pos mod 8) = true.

(** What may happen to an array whose first [n] bytes hold the bits. *)
Definition grows (n : Z) (a a' : bytes) : Prop :=
  length a' = length a
  /\ (forall pos, bit_set a pos -> bit_set a' pos)
  /\ forall i, n <= Z.of_nat i -> a' !! i = a !! i.

#[export] Instance grows_preorder n : PreOrder (grows n).
Proof.
  split; [by intros a|]. intros a b c (L1 & S1 & U1) (L2 & S2 & U2). split_and!; [congruence|eauto|].
  intros i Hi. by rewrite U2, U1.
Qed.

Lemma testbit_test b i : 0 <= i -> ((b &&& (1 ≪ i)) =? 0) = negb (Z.testbit b i).
Proof.
  intros Hi. assert (Z.testbit (b &&& (1 ≪ i)) i = Z.testbit b i) as E.
  { rewrite Z.land_spec, Z.shiftl_spec, Z.sub_diag by done. by rewrite andb_true_r. }
  destruct (Z.eqb_spec (b &&& (1 ≪ i)) 0) as [E0|Hne].
  - rewrite E0, Z.bits_0 in E. by rewrite <- E.
  - destruct (Z.testbit b i) eqn:Eb; [done|]. exfalso. apply Hne. apply Z.bits_inj'. intros j Hj.
    rewrite Z.bits_0, Z.land_spec. destruct (decide (j = i)) as [->|Hji]; [by rewrite Eb|].
    rewrite Z.shiftl_spec by done. destruct (decide (j < i)).
    + rewrite (Z.testbit_neg_r 1) by lia. by rewrite andb_false_r.
    + change 1 with (2 ^ 0). rewrite Z.pow2_bits_false by lia. by rewrite andb_false_r.
Qed.

Lemma set_bit_testbit b i j :
  0 <= i < 8 -> 0 <= j < 8 ->
  Z.testbit (u8 (b ||| (1 ≪ i))) j = Z.testbit b j || (j =? i).
Proof.
  intros Hi Hj. unfold u8. rewrite Z.mod_pow2_bits_low, Z.lor_spec by lia. f_equal.
  rewrite Z.shiftl_spec by lia. destruct (Z.eqb_spec j i) as [->|Hne].
  - by rewrite Z.sub_diag.
  - destruct (decide (j < i)); [by rewrite (Z.testbit_neg_r 1) by lia|].
    change 1 with (2 ^ 0). by rewrite Z.pow2_bits_false by lia.
Qed.

Lemma set_bit_grows n a pos :
  0 <= pos < 8 * n -> n <= zlen a ->
  exists a', set_bit a pos = Some a' /\ grows n a a' /\ bit_set a' pos.
Proof.
  intros Hp Hn. unfold set_bit.
  destruct (lookup_lt_is_Some_2 a (Z.to_nat (pos / 8))) as [b Eb].
  { Z.to_euclidean_division_equations; lia. }
  rewrite Eb. cbn [mbind option_bind]. eexists. split; [done|].
  pose proof (Z.mod_pos_bound pos 8 ltac:(lia)) as Hm.
  assert (Z.to_nat (pos / 8) < length a)%nat as Hlt by (by eapply lookup_lt_Some).
  split; [split_and!|].
  - apply length_insert.
  - intros q (c & Ec & Tc). destruct (decide (Z.to_nat (q / 8) = Z.to_nat (pos / 8))) as [Eq|Hne].
    + exists (u8 (b ||| (1 ≪ (pos mod 8)))). rewrite Eq, list_lookup_insert_eq by done.
      split; [done|]. rewrite set_bit_testbit by (try lia; by apply Z.mod_pos_bound).
      rewrite Eq in Ec. simplify_eq. by rewrite Tc.
    + exists c. by rewrite list_lookup_insert_ne by done.
  - intros i Hi. apply list_lookup_insert_ne. Z.to_euclidean_division_equations; lia.
  - exists (u8 (b ||| (1 ≪ (pos mod 8)))). rewrite list_lookup_insert_eq by done. split; [done|].
    rewrite set_bit_testbit by done. by rewrite Z.eqb_refl, orb_true_r.
Qed.

Lemma test_probes_step bits k h delta a :
  bit_set a (h mod bits) -> 0 < bits ->
  test_probes bits (S k) h delta a = test_probes bits k (u32 (h + delta)) delta a.
Proof.
  intros (b & Eb & Tb) Hb. cbn [test_probes]. cbv zeta. rewrite Eb. cbn [mbind option_bind].
  rewrite testbit_test by (by apply Z.mod_pos_bound). by rewrite Tb.
Qed.

Lemma test_probes_mono n bits k h delta a a' :
  0 < bits -> grows n a a' ->
  test_probes bits k h delta a = Some true -> test_probes bits k h delta a' = Some true.
Proof.
  intros Hb Hg. revert h. induction k as [|k IH]; intros h; [done|]. intros E.
  assert (bit_set a (h mod bits)) as Hs.
  { cbn [test_probes] in E. cbv zeta in E.
    destruct (a !! _) as [b|] eqn:Eb; cbn [mbind option_bind] in E; [|done].
    exists b. split; [done|]. rewrite testbit_test in E by (by apply Z.mod_pos_bound).
    by destruct (Z.testbit b _). }
  rewrite test_probes_step in E by done. destruct Hg as (Hl & Hm & Hu).
  rewrite test_probes_step by auto. auto.
Qed.

Lemma set_probes_grows n bits k h delta a :
  0 < bits <= 8 * n -> n <= zlen a ->
  exists a', set_probes bits k h delta a = Some a' /\ grows n a a'
    /\ test_probes bits k h delta a' = Some true.
Proof.
  intros Hb. revert h a. induction k as [|k IH]; intros h a Hn; [by exists a|].
  cbn [set_probes]. pose proof (Z.mod_pos_bound h bits ltac:(lia)).
  destruct (set_bit_grows n a (h mod bits)) as (a1 & -> & G1 & S1); [lia|done|].
  cbn [mbind option_bind].
  destruct (IH (u32 (h + delta)) a1) as (a2 & -> & G2 & T2); [destruct G1; lia|].
  exists a2. split_and!; [done|by etrans|].
  rewrite test_probes_step; [done| |lia]. destruct G2 as (_ & M2 & _). auto.
Qed.

Lemma set_keys_grows n bits k keys a :
  0 < bits <= 8 * n -> n <= zlen a ->
  exists a', set_keys bits k keys a = Some a' /\ grows n a a'
    /\ forall key, key ∈ keys ->
         test_probes bits k (BloomHash key) (bloom_delta (BloomHash key)) a' = Some true.
Proof.
  intros Hb. revert a. induction keys as [|key keys IH]; intros a Hn.
  - exists a. split_and!; [done|done|]. intros key Hk. by apply not_elem_of_nil in Hk.
  - cbn [set_keys]. cbv zeta.
    destruct (set_probes_grows n bits k (BloomHash key) (bloom_delta (BloomHash key)) a)
      as (a1 & -> & G1 & T1); [done..|]. cbn [mbind option_bind].
    destruct (IH a1) as (a2 & -> & G2 & T2); [destruct G1; lia|].
    exists a2. split_and!; [done|by etrans|]. intros x [->|Hx]%elem_of_cons; [|auto].
    eapply test_probes_mono; [lia|done|done].
Qed.

(** * No false negatives *)
Definition bloom_ok (p : BloomFilterPolicy) : Prop :=
  in_uint 31 (bits_per_key_ p) /\ 1 <= k_ p <= 30.

Lemma BloomFilterPolicy_new_ok b p :
  in_uint 31 b -> BloomFilterPolicy_new b = Some p -> bloom_ok p.
Proof.
  intros Hb. unfold BloomFilterPolicy_new. destruct (size_of_double _) as [k|]; [|done].
  cbn [mbind option_bind]. cbv zeta. intros [= <-]. unfold bloom_ok. cbn [bits_per_key_ k_].
  rewrite u64_small by (clear -Hb; cint). split; [done|].
  destruct (Z.ltb_spec k 1).
  - done.
  - destruct (Z.gtb_spec k 30); lia.
Qed.

#[export] Instance Bloom_law p : bloom_ok p -> FilterPolicyLaw (Bloom p) (fun _ => True).
Proof.
  intros [Hb Hk] keys dst Hn _. unfold int_keys in Hn. cbn [CreateFilter KeyMayMatch Bloom].
  unfold Bloom_CreateFilter. cbv zeta.
  rewrite (u64_small (zlen keys * _)) by (unfold in_uint in *; pow2; nia).
  set (bits := if _ <? 64 then _ else _).
  assert (64 <= bits < 2 ^ 62) as Hbits.
  { unfold bits, in_uint in *. pow2. destruct (Z.ltb_spec (zlen keys * bits_per_key_ p) 64); nia. }
  set (n := u64 (bits + 7) / 8).
  assert (8 <= n < 2 ^ 60) as Hbytes.
  { unfold n. rewrite u64_small by (unfold in_uint; pow2; lia). pow2.
    Z.to_euclidean_division_equations; lia. }
  rewrite (u64_small (n * 8)) by (unfold in_uint; pow2; lia).
  set (init := replicate _ _ ++ _). assert (zlen init = n + 1) as Hi.
  { unfold init. rewrite length_app, length_replicate. simpl. lia. }
  destruct (set_keys_grows n (n * 8) (Z.to_nat (k_ p)) keys init) as (a & -> & G & T); [lia..|].
  cbn [mbind option_bind]. exists a. split; [done|]. intros key Hkey. specialize (T key Hkey).
  destruct G as (Hl & _ & Hu). unfold Bloom_KeyMayMatch. cbv zeta.
  replace (zlen a) with (n + 1) by lia. rewrite (proj2 (Z.ltb_ge _ _)) by lia.
  rewrite Z.add_simpl_r, Hu by lia. unfold init.
  rewrite lookup_app_r by (rewrite length_replicate; lia).
  rewrite length_replicate, Nat.sub_diag. cbn [lookup list_lookup mbind option_bind].
  replace (u64 (s8 (u8 (k_ p)))) with (k_ p) by (clear -Hk; cint).
  destruct (Z.gtb_spec (k_ p) 30); [lia|]. done.
Qed.

(** Any bytes can be passed as a filter: nothing outside them is read. *)
Lemma test_probes_total bits k h delta a :
  0 < bits <= 8 * zlen a -> exists b, test_probes bits k h delta a = Some b.
Proof.
  intros Hb. revert h. induction k as [|k IH]; intros h; [by exists true|]. cbn [test_probes].
  cbv zeta. pose proof (Z.mod_pos_bound h bits ltac:(lia)).
  destruct (lookup_lt_is_Some_2 a (Z.to_nat (h mod bits / 8))) as [b ->].
  { Z.to_euclidean_division_equations; lia. }
  cbn [mbind option_bind]. destruct (_ =? 0); [by exists false|apply IH].
Qed.

Lemma Bloom_KeyMayMatch_total key f : exists b, Bloom_KeyMayMatch key f = Some b.
Proof.
  unfold Bloom_KeyMayMatch. cbv zeta. destruct (Z.ltb_spec (zlen f) 2); [by exists false|].
  destruct (lookup_lt_is_Some_2 f (Z.to_nat (zlen f - 1))) as [c ->]; [lia|].
  cbn [mbind option_bind]. destruct (_ >? 30); [by exists true|]. apply test_probes_total. lia.
Qed.
