(* ===== verification/LdbFilterBlock.v ===== *)
(** leveldb: the filter block of a table, [filter_block.h] and
    [filter_block.cc], over any filter policy.  The assertions of the code are
    not compiled into a release build; they are not modelled. *)
From stdpp Require Import base numbers option strings sets list.
From S2P Require Import Prelude LdbSlice LdbCoding LdbBloom.
Open Scope Z_scope.
Open Scope c_scope.

Definition kFilterBaseLg : Z := 11.
Definition kFilterBase : Z := 1 ≪ kFilterBaseLg.

(** [Slice(data + off, len)] of a string; bytes outside of it, or a length
    below zero, which would wrap to a large one, are undefined. *)
Definition subslice (data : bytes) (off len : Z) : option bytes :=
  if (0 <=? off) && (0 <=? len) && (off + len <=? zlen data)
  then Some (take (Z.to_nat len) (drop (Z.to_nat off) data)) else None.

(** * Builder *)
Record FilterBlockBuilder : Type := {
  keys_ : bytes;
  start_ : list Z;
  result_ : bytes;
  filter_offsets_ : list Z
}.

Definition FilterBlockBuilder_new : FilterBlockBuilder :=
  {| keys_ := []; start_ := []; result_ := []; filter_offsets_ := [] |}.

Definition FilterBlockBuilder_AddKey (b : FilterBlockBuilder) (key : bytes)
    : FilterBlockBuilder :=
  {| keys_ := keys_ b ++ key; start_ := start_ b ++ [zlen (keys_ b)];
     result_ := result_ b; filter_offsets_ := filter_offsets_ b |}.

(** The loop that fills [tmp_keys_]. *)
Definition tmp_keys (keys : bytes) (start : list Z) (num_keys : nat) : option (list bytes) :=
  mapM (fun i => s ← start !! i; e ← start !! S i; subslice keys s (e - s))
       (seq 0 num_keys).

Section Policy.
Context `{P : FilterPolicy}.

Definition GenerateFilter (b : FilterBlockBuilder) : option FilterBlockBuilder :=
  let num_keys := length (start_ b) in
  let offsets := filter_offsets_ b ++ [u32 (zlen (result_ b))] in
  if (num_keys =? 0)%nat
  then Some {| keys_ := keys_ b; start_ := start_ b; result_ := result_ b;
               filter_offsets_ := offsets |}
  else
    let start := start_ b ++ [zlen (keys_ b)] in
    keys ← tmp_keys (keys_ b) start num_keys;
    result ← CreateFilter keys (result_ b);
    Some {| keys_ := []; start_ := []; result_ := result; filter_offsets_ := offsets |}.

(** The while loop of [StartBlock]; each round adds an offset. *)
Fixpoint start_block_loop (n : nat) (filter_index : Z) (b : FilterBlockBuilder)
    : option FilterBlockBuilder :=
  if filter_index >? zlen (filter_offsets_ b) then
    match n with
    | O => None
    | S n' => b ← GenerateFilter b; start_block_loop n' filter_index b
    end
  else Some b.

Definition FilterBlockBuilder_StartBlock (b : FilterBlockBuilder) (block_offset : Z)
    : option FilterBlockBuilder :=
  let filter_index := block_offset / kFilterBase in
  start_block_loop (Z.to_nat filter_index) filter_index b.

Definition FilterBlockBuilder_Finish (b : FilterBlockBuilder) : option bytes :=
  b ← (if (length (start_ b) =? 0)%nat then Some b else GenerateFilter b);
  let array_offset := u32 (zlen (result_ b)) in
  let result := fold_left PutFixed32 (filter_offsets_ b) (result_ b) in
  let result := PutFixed32 result array_offset in
  Some (result ++ [kFilterBaseLg]).

(** The calls of a table builder: the keys of each data block in turn. *)
Fixpoint filter_block_calls (b : FilterBlockBuilder) (blocks : list (Z * list bytes))
    : option FilterBlockBuilder :=
  match blocks with
  | [] => Some b
  | (off, keys) :: blocks' =>
      b ← FilterBlockBuilder_StartBlock b off;
      filter_block_calls (fold_left FilterBlockBuilder_AddKey keys b) blocks'
  end.

Definition filter_block (blocks : list (Z * list bytes)) : option bytes :=
  b ← filter_block_calls FilterBlockBuilder_new blocks;
  FilterBlockBuilder_Finish b.
End Policy.

(** * Reader *)

(** [data_] is null or the contents, [offset_] an index of them. *)
Record FilterBlockReader : Type := {
  data_ : option bytes;
  offset_ : Z;
  num_ : Z;
  base_lg_ : Z
}.

Definition FilterBlockReader_new (contents : bytes) : option FilterBlockReader :=
  let n := zlen contents in
  if n <? 5 then Some {| data_ := None; offset_ := 0; num_ := 0; base_lg_ := 0 |}
  else
    lg ← contents !! Z.to_nat (n - 1);
    let base_lg := u64 (s8 lg) in
    last_word ← DecodeFixed32 (drop (Z.to_nat (n - 5)) contents);
    if last_word >? n - 5
    then Some {| data_ := None; offset_ := 0; num_ := 0; base_lg_ := base_lg |}
    else Some {| data_ := Some contents; offset_ := last_word; num_ := (n - 5 - last_word) / 4;
                 base_lg_ := base_lg |}.

(** A shift by 64 or more is undefined. *)
Definition FilterBlockReader_KeyMayMatch `{P : FilterPolicy} (r : FilterBlockReader)
    (block_offset : Z) (key : bytes) : option bool :=
  if 64 <=? base_lg_ r then None
  else
    let index := block_offset ≫ base_lg_ r in
    if index <? num_ r then
      data ← data_ r;
      start ← DecodeFixed32 (drop (Z.to_nat (offset_ r + index * 4)) data);
      limit ← DecodeFixed32 (drop (Z.to_nat (offset_ r + index * 4 + 4)) data);
      if (start <=? limit) && (limit <=? offset_ r) then
        filter ← subslice data start (limit - start);
        KeyMayMatch key filter
      else if start =? limit then Some false
      else Some true
    else Some true.

(** * Running offsets *)
Fixpoint offs (z : Z) (l : list bytes) : list Z :=
  match l with
  | [] => []
  | x :: l' => z :: offs (z + zlen x) l'
  end.

Lemma length_offs z l : length (offs z l) = length l.
Proof. revert z; induction l; intros; simpl; congruence. Qed.

Lemma offs_snoc z l x : offs z (l ++ [x]) = offs z l ++ [z + zlen (concat l)].
Proof.
  revert z; induction l as [|y l IH]; intros z; simpl; [by rewrite Z.add_0_r|].
  rewrite IH, length_app. do 3 f_equal. lia.
Qed.

Lemma offs_end_lookup z l i :
  (i <= length l)%nat ->
  (offs z l ++ [z + zlen (concat l)]) !! i = Some (z + zlen (concat (take i l))).
Proof.
  revert z i; induction l as [|y l IH]; intros z i Hi; simpl in Hi.
  - replace i with 0%nat by lia. done.
  - destruct i as [|i]; simpl; [by rewrite Z.add_0_r|].
    rewrite !length_app. specialize (IH (z + zlen y) i ltac:(lia)).
    replace (z + Z.of_nat (length y + length (concat l))) with (z + zlen y + zlen (concat l)) by lia.
    rewrite IH. f_equal. lia.
Qed.

Lemma concat_split (l : list bytes) i x :
  l !! i = Some x -> concat l = concat (take i l) ++ x ++ concat (drop (S i) l).
Proof.
  intros Hx. rewrite <- (take_drop_middle l i x Hx) at 1. by rewrite concat_app.
Qed.

Lemma concat_take_S (l : list bytes) i x :
  l !! i = Some x -> concat (take (S i) l) = concat (take i l) ++ x.
Proof.
  intros Hx. rewrite (take_S_r _ _ _ Hx), concat_app. simpl. by rewrite app_nil_r.
Qed.

Lemma subslice_mid (a x b : bytes) : subslice (a ++ x ++ b) (zlen a) (zlen x) = Some x.
Proof.
  unfold subslice. rewrite !zlen_app.
  rewrite !(proj2 (Z.leb_le _ _)) by lia. cbn [andb].
  by rewrite !Nat2Z.id, drop_app_length, take_app_length.
Qed.

Lemma tmp_keys_offs ks :
  tmp_keys (concat ks) (offs 0 ks ++ [zlen (concat ks)]) (length ks) = Some ks.
Proof.
  unfold tmp_keys. apply mapM_Some_2, Forall2_same_length_lookup_2; [by rewrite length_seq|].
  intros i j x Ej Ex. apply lookup_seq in Ej as [-> Hi]. simpl.
  rewrite !(offs_end_lookup 0) by lia. cbn [mbind option_bind].
  rewrite (concat_take_S _ _ _ Ex), zlen_app, (concat_split _ _ _ Ex).
  replace (0 + (_ + _) - _) with (zlen x) by lia. apply subslice_mid.
Qed.

(** * Correctness *)
Section Correct.
Context {P : FilterPolicy} {valid : bytes -> Prop} {PL : FilterPolicyLaw P valid}.

Definition covers (keys : list bytes) (filter : bytes) : Prop :=
  forall key, key ∈ keys -> KeyMayMatch key filter = Some true.

(** [groups] are the keys of the filters [fs] that are finished, [pend] the
    keys of the next one. *)
Record builder_rep (b : FilterBlockBuilder) (groups : list (list bytes)) (pend : list bytes)
    (fs : list bytes) : Prop := {
  rep_keys : keys_ b = concat pend;
  rep_start : start_ b = offs 0 pend;
  rep_offsets : filter_offsets_ b = map u32 (offs 0 fs);
  rep_result : result_ b = concat fs;
  rep_covers : Forall2 covers groups fs;
  rep_valid : Forall valid pend
}.

Lemma rep_new : builder_rep FilterBlockBuilder_new [] [] [].
Proof. split; try done; constructor. Qed.

Lemma rep_groups_length b g p fs : builder_rep b g p fs -> length (filter_offsets_ b) = length g.
Proof.
  intros [_ _ E _ Hc _]. rewrite E, length_map, length_offs. symmetry. by eapply Forall2_length.
Qed.

Lemma rep_add b g p fs key :
  builder_rep b g p fs -> valid key ->
  builder_rep (FilterBlockBuilder_AddKey b key) g (p ++ [key]) fs.
Proof.
  intros [E1 E2 E3 E4 E5 E6] Hk.
  split; cbn [keys_ start_ result_ filter_offsets_ FilterBlockBuilder_AddKey]; [|..|done|done|done|].
  - by rewrite E1, concat_app, <- (app_nil_r key) at 1.
  - by rewrite E2, E1, offs_snoc.
  - apply Forall_app. split; [done|]. by apply Forall_singleton.
Qed.

Lemma rep_add_all b g p fs keys :
  builder_rep b g p fs -> Forall valid keys ->
  builder_rep (fold_left FilterBlockBuilder_AddKey keys b) g (p ++ keys) fs.
Proof.
  intros Hr Hk. revert b p Hr. induction Hk as [|k keys Hk Hks IH]; intros b p Hr; simpl.
  - by rewrite app_nil_r.
  - rewrite cons_middle, app_assoc. by apply IH, rep_add.
Qed.

Lemma rep_generate b g p fs :
  builder_rep b g p fs -> int_keys p ->
  exists b' f, GenerateFilter b = Some b' /\ builder_rep b' (g ++ [p]) [] (fs ++ [f]).
Proof.
  intros [E1 E2 E3 E4 E5 E6] Hn. unfold GenerateFilter. cbv zeta.
  rewrite E1, E2, length_offs. destruct p as [|k p].
  - eexists _, []. split; [done|].
    split; cbn [keys_ start_ result_ filter_offsets_]; [done|done|..].
    + by rewrite offs_snoc, map_app, E3, E4.
    + by rewrite concat_app, E4, app_nil_r.
    + apply Forall2_app; [done|]. constructor; [|done]. intros key Hk. by apply not_elem_of_nil in Hk.
    + done.
  - change (length (k :: p) =? 0)%nat with false. cbv iota.
    rewrite tmp_keys_offs. cbn [mbind option_bind].
    destruct (CreateFilter_law (k :: p) (result_ b) Hn E6) as (f & -> & Hf). cbn [mbind option_bind].
    eexists _, f. split; [done|]. split; cbn [keys_ start_ result_ filter_offsets_]; [done|done|..].
    + by rewrite offs_snoc, map_app, E3, E4.
    + by rewrite concat_app, E4; cbn [concat]; rewrite app_nil_r.
    + apply Forall2_app; [done|]. by constructor.
    + done.
Qed.

Lemma rep_start_loop n idx b g p fs :
  builder_rep b g p fs -> int_keys p -> zlen g <= idx <= zlen g + Z.of_nat n ->
  exists b' g' p' fs', start_block_loop n idx b = Some b' /\ builder_rep b' g' p' fs'
    /\ zlen g' = idx /\ (length p' <= length p)%nat
    /\ g' ++ [p'] = (g ++ [p]) ++ replicate (Z.to_nat (idx - zlen g)) [].
Proof.
  revert b g p fs. induction n as [|n IH]; intros b g p fs Hr Hn Hi; cbn [start_block_loop];
    rewrite (rep_groups_length _ _ _ _ Hr); destruct (Z.gtb_spec idx (zlen g)) as [Hgt|Hle]; try lia.
  - exists b, g, p, fs. split_and!; [done|done|lia|done|].
    replace (idx - zlen g) with 0 by lia. by rewrite app_nil_r.
  - destruct (rep_generate _ _ _ _ Hr Hn) as (b1 & f & -> & Hr1). cbn [mbind option_bind].
    destruct (IH b1 (g ++ [p]) [] (fs ++ [f]) Hr1) as (b' & g' & p' & fs' & E & Hr' & Hl & Hp & Eg).
    { by unfold int_keys. } { rewrite zlen_app. simpl length. lia. }
    exists b', g', p', fs'. split_and!; [done..|simpl in Hp; lia|].
    rewrite Eg, <- app_assoc. f_equal.
    replace (Z.to_nat (idx - zlen g)) with (S (Z.to_nat (idx - zlen (g ++ [p]))))
      by (rewrite zlen_app; simpl length; lia). done.
  - exists b, g, p, fs. split_and!; [done|done|lia|done|].
    replace (idx - zlen g) with 0 by lia. by rewrite app_nil_r.
Qed.

(** The offsets of the blocks do not decrease. *)
Fixpoint offsets_ok (lo : Z) (blocks : list (Z * list bytes)) : Prop :=
  match blocks with
  | [] => True
  | (off, _) :: blocks' => lo <= off /\ offsets_ok off blocks'
  end.

Lemma offsets_ok_ge lo blocks off keys :
  offsets_ok lo blocks -> (off, keys) ∈ blocks -> lo <= off.
Proof.
  revert lo. induction blocks as [|[o k] bs IH]; intros lo; [by intros _ ?%not_elem_of_nil|].
  intros [Ho Hs] [[= -> ->]|Hin]%elem_of_cons; [done|]. etrans; [done|]. by apply IH.
Qed.

Definition key_count (blocks : list (Z * list bytes)) : Z :=
  zlen (concat (map snd blocks)).

(** Every group of [all] is still there, perhaps larger. *)
Definition groups_kept (all all' : list (list bytes)) : Prop :=
  forall i ks, all !! i = Some ks -> exists ks', all' !! i = Some ks' /\ ks ⊆ ks'.

Lemma groups_kept_app g extra : groups_kept g (g ++ extra).
Proof. intros i x Hx. exists x. split; [by apply lookup_app_l_Some|done]. Qed.

Lemma groups_kept_snoc g p ks : groups_kept (g ++ [p]) (g ++ [p ++ ks]).
Proof.
  intros i x Hx.
  apply lookup_app_Some in Hx as [Hx|[Hl Hx]].
  - exists x. split; [by apply lookup_app_l_Some|done].
  - apply list_lookup_singleton_Some in Hx as [E <-]. exists (p ++ ks).
    rewrite lookup_app_r by done. rewrite E. split; [done|set_solver].
Qed.

#[local] Instance groups_kept_preorder : PreOrder groups_kept.
Proof.
  split; [intros a i ks; eauto|]. intros a b c H1 H2 i ks Hi.
  destruct (H1 i ks Hi) as (x & Hx & S1). destruct (H2 i x Hx) as (y & Hy & S2).
  exists y. split; [done|by etrans].
Qed.

Lemma rep_calls blocks lo b g p fs :
  builder_rep b g p fs -> zlen g = lo / kFilterBase -> 0 <= lo -> offsets_ok lo blocks ->
  Forall (fun block => Forall valid block.2) blocks ->
  zlen p + key_count blocks < 2 ^ 31 ->
  exists b' g' p' fs', filter_block_calls b blocks = Some b' /\ builder_rep b' g' p' fs'
    /\ int_keys p' /\ groups_kept (g ++ [p]) (g' ++ [p'])
    /\ forall off keys, (off, keys) ∈ blocks ->
         exists ks, (g' ++ [p']) !! Z.to_nat (off / kFilterBase) = Some ks /\ keys ⊆ ks.
Proof.
  unfold key_count. change kFilterBase with 2048.
  revert lo b g p fs. induction blocks as [|[off keys] blocks IH];
    intros lo b g p fs Hr Hl Hlo Hs Hv Hc; cbn [filter_block_calls].
  - exists b, g, p, fs. split_and!; [done|done|unfold int_keys; lia|done|].
    intros off keys Hin. by apply not_elem_of_nil in Hin.
  - destruct Hs as [Hlo' Hs]. apply Forall_cons in Hv as [Hvk Hv]. cbn [snd] in Hvk. cbn [map concat snd] in Hc. rewrite zlen_app in Hc.
    unfold FilterBlockBuilder_StartBlock. cbv zeta. change kFilterBase with 2048.
    assert (lo / 2048 <= off / 2048) by (by apply Z.div_le_mono).
    assert (0 <= lo / 2048) by (by apply Z.div_pos).
    destruct (rep_start_loop (Z.to_nat (off / 2048)) (off / 2048) b g p fs Hr)
      as (b1 & g1 & p1 & fs1 & -> & Hr1 & Hl1 & Hp1 & Eg); [unfold int_keys; lia|lia|].
    cbn [mbind option_bind].
    destruct (IH off (fold_left FilterBlockBuilder_AddKey keys b1) g1 (p1 ++ keys) fs1)
      as (b2 & g2 & p2 & fs2 & E2 & Hr2 & Hn2 & K2 & H2);
      [by apply rep_add_all|done|lia|done|done|rewrite zlen_app; lia|].
    exists b2, g2, p2, fs2. split_and!; [done..| |].
    + transitivity (g1 ++ [p1 ++ keys]); [|exact K2].
      transitivity (g1 ++ [p1]); [rewrite Eg; apply groups_kept_app|apply groups_kept_snoc].
    + intros off' keys' [[= -> ->]|Hin]%elem_of_cons; [|by eauto].
      destruct (K2 (length g1) (p1 ++ keys)) as (ks & Ek & Hks).
      { by rewrite lookup_app_r, Nat.sub_diag by done. }
      exists ks. replace (Z.to_nat (off / 2048)) with (length g1) by lia. split; [done|set_solver].
Qed.

(** The bytes of a filter block. *)
Definition filter_block_bytes (fs : list bytes) : bytes :=
  concat fs ++ concat (map EncodeFixed32 (offs 0 fs ++ [zlen (concat fs)])) ++ [kFilterBaseLg].

Lemma map_EncodeFixed32_mod l : map EncodeFixed32 (map u32 l) = map EncodeFixed32 l.
Proof. rewrite map_map. apply map_ext. intros. apply EncodeFixed32_mod. Qed.

Lemma finish_nonempty b g p fs :
  builder_rep b g p fs -> p = [] ->
  FilterBlockBuilder_Finish b = Some (filter_block_bytes fs).
Proof.
  intros [E1 E2 E3 E4 E5 _] ->. unfold FilterBlockBuilder_Finish. rewrite E2.
  cbn [offs length Nat.eqb mbind option_bind]. cbv zeta.
  rewrite E3, E4, fold_PutFixed32, map_EncodeFixed32_mod. unfold PutFixed32.
  rewrite EncodeFixed32_mod. unfold filter_block_bytes.
  rewrite map_app, concat_app. cbn [map concat]. by rewrite app_nil_r, <- !app_assoc.
Qed.

Lemma rep_finish b g p fs :
  builder_rep b g p fs -> int_keys p ->
  exists fs', FilterBlockBuilder_Finish b = Some (filter_block_bytes fs')
    /\ forall i ks, (g ++ [p]) !! i = Some ks -> ks <> [] ->
         exists f, fs' !! i = Some f /\ covers ks f.
Proof.
  intros Hr Hn. destruct p as [|k p].
  - exists fs. split; [by eapply finish_nonempty|]. intros i ks Hi Hne.
    apply lookup_app_Some in Hi as [Hi|[Hl Hi]].
    + destruct Hr as [_ _ _ _ Hc _]. by eapply Forall2_lookup_l.
    + apply list_lookup_singleton_Some in Hi as [_ <-]. done.
  - destruct (rep_generate _ _ _ _ Hr Hn) as (b' & f & Eg & Hr'). exists (fs ++ [f]). split.
    + rewrite <- (finish_nonempty _ _ _ _ Hr' eq_refl). unfold FilterBlockBuilder_Finish.
      rewrite (rep_start _ _ _ _ Hr). cbn [offs length Nat.eqb]. rewrite Eg. cbn [mbind option_bind].
      by rewrite (rep_start _ _ _ _ Hr').
    + intros i ks Hi _. eapply Forall2_lookup_l; [|done]. by destruct Hr'.
Qed.

(** ** Reading it back *)
Lemma filter_block_length fs :
  zlen (filter_block_bytes fs) = zlen (concat fs) + 4 * zlen fs + 5.
Proof.
  unfold filter_block_bytes. rewrite !zlen_app, concat_fixed32_length, length_app, length_offs.
  simpl. lia.
Qed.

(** The word of index [j] is where filter [j] starts and filter [j - 1] ends. *)
Lemma read_offset fs j :
  (j <= length fs)%nat -> zlen (filter_block_bytes fs) < 2 ^ 32 ->
  DecodeFixed32 (drop (length (concat fs) + 4 * j) (filter_block_bytes fs))
  = Some (zlen (concat (take j fs))).
Proof.
  rewrite filter_block_length. intros Hj Hlt.
  apply read_word; [by rewrite (offs_end_lookup 0)|].
  assert (zlen (concat fs) = zlen (concat (take j fs)) + zlen (concat (drop j fs))) as E.
  { by rewrite <- zlen_app, <- concat_app, take_drop. }
  unfold in_uint. lia.
Qed.

Lemma reader_new fs :
  zlen (filter_block_bytes fs) < 2 ^ 32 ->
  FilterBlockReader_new (filter_block_bytes fs)
  = Some {| data_ := Some (filter_block_bytes fs); offset_ := zlen (concat fs); num_ := zlen fs;
            base_lg_ := 11 |}.
Proof.
  intros Hlt. unfold FilterBlockReader_new. cbv zeta. rewrite filter_block_length.
  rewrite (proj2 (Z.ltb_ge _ _)) by lia.
  assert (filter_block_bytes fs !! Z.to_nat (zlen (concat fs) + 4 * zlen fs + 5 - 1) = Some 11) as ->.
  { unfold filter_block_bytes. rewrite app_assoc, lookup_app_r;
      rewrite length_app, concat_fixed32_length, length_app, length_offs; [|simpl; lia].
    replace (_ - _)%nat with 0%nat by (simpl; lia). done. }
  cbn [mbind option_bind].
  replace (Z.to_nat (_ + _ + 5 - 5)) with (length (concat fs) + 4 * length fs)%nat by lia.
  rewrite read_offset, take_ge by done. cbn [mbind option_bind].
  destruct (Z.gtb_spec (zlen (concat fs)) (zlen (concat fs) + 4 * zlen fs + 5 - 5)); [lia|].
  do 2 f_equal. Z.to_euclidean_division_equations; lia.
Qed.

Lemma reader_match fs off f key :
  zlen (filter_block_bytes fs) < 2 ^ 32 -> 0 <= off ->
  fs !! Z.to_nat (off / kFilterBase) = Some f ->
  FilterBlockReader_new (filter_block_bytes fs) ≫= (fun r => FilterBlockReader_KeyMayMatch r off key)
  = KeyMayMatch key f.
Proof.
  intros Hlt Ho Hf. rewrite reader_new by done. cbn [mbind option_bind].
  change kFilterBase with (2 ^ 11) in Hf. rewrite <- shiftr_div in Hf by lia.
  unfold FilterBlockReader_KeyMayMatch. cbn [base_lg_ num_ data_ offset_].
  change (64 <=? 11) with false. cbv iota zeta.
  assert (0 <= off ≫ 11) by (by apply Z.shiftr_nonneg).
  set (i := Z.to_nat (off ≫ 11)) in *. replace (off ≫ 11) with (Z.of_nat i) by lia.
  pose proof (lookup_lt_Some _ _ _ Hf) as Hi. rewrite (proj2 (Z.ltb_lt _ _)) by lia.
  cbn [mbind option_bind].
  pose proof (concat_split _ _ _ Hf) as Es.
  assert (zlen (concat fs) = zlen (concat (take i fs)) + zlen f + zlen (concat (drop (S i) fs))) as Ez.
  { rewrite Es at 1. rewrite !zlen_app. lia. }
  replace (Z.to_nat (_ + Z.of_nat i * 4)) with (length (concat fs) + 4 * i)%nat by lia.
  replace (Z.to_nat (_ + Z.of_nat i * 4 + 4)) with (length (concat fs) + 4 * S i)%nat by lia.
  rewrite !read_offset by (done || lia).
  cbn [mbind option_bind]. rewrite (concat_take_S _ _ _ Hf), zlen_app.
  rewrite !(proj2 (Z.leb_le _ _)) by lia. cbn [andb]. rewrite Z.add_simpl_l.
  unfold filter_block_bytes. rewrite Es, <- !app_assoc, subslice_mid. done.
Qed.

(** A key passed for a block matches at the offset of the block. *)
Lemma filter_block_matches blocks :
  offsets_ok 0 blocks -> Forall (fun block => Forall valid block.2) blocks ->
  key_count blocks < 2 ^ 31 ->
  exists contents, filter_block blocks = Some contents
    /\ (zlen contents < 2 ^ 32 ->
        forall off keys key, (off, keys) ∈ blocks -> key ∈ keys ->
          FilterBlockReader_new contents ≫= (fun r => FilterBlockReader_KeyMayMatch r off key)
          = Some true).
Proof.
  intros Hs Hv Hc. unfold filter_block.
  destruct (rep_calls blocks 0 _ _ _ _ rep_new) as (b & g & p & fs & -> & Hr & Hn & _ & H);
    [done|done|done|done|by simpl|]. cbn [mbind option_bind].
  destruct (rep_finish b g p fs Hr Hn) as (fs' & -> & Hf).
  eexists. split; [done|]. intros Hlt off keys key Hin Hk.
  destruct (H off keys Hin) as (ks & Ek & Hks).
  destruct (Hf _ _ Ek) as (f & Ef & Hcov); [intros ->; set_solver|].
  rewrite (reader_match fs' off f key Hlt); [apply Hcov; set_solver| |done].
  by eapply offsets_ok_ge.
Qed.
End Correct.
