(* ===== verification/LdbFilename.v ===== *)
(** leveldb: numbers in strings and the names of database files,
    [logging.cc] and [filename.cc].

    A function that changes its [Slice* in] returns what is left; a bool with
    out-parameters is an option. *)
From stdpp Require Import base numbers option strings list.
From S2P Require Import Prelude LdbSlice.
Open Scope Z_scope.
Open Scope c_scope.

(** * logging.cc *)

(** [%llu] *)
Definition AppendNumberTo (str : bytes) (num : Z) : bytes := str ++ decimal num.

Definition hex_digit (d : Z) : Z := if d <? 10 then 48 + d else 87 + d.

(** The comparison of [char]s is signed. *)
Fixpoint AppendEscapedStringTo (dst value : bytes) : bytes :=
  match value with
  | [] => dst
  | c :: value' =>
      let dst :=
        if (32 <=? s8 c) && (s8 c <=? 126) then dst ++ [c]
        else dst ++ str "\x" ++ [hex_digit ((c &&& 0xff) / 16); hex_digit ((c &&& 0xff) mod 16)] in
      AppendEscapedStringTo dst value'
  end.

Definition NumberToString (num : Z) : bytes := AppendNumberTo [] num.
Definition EscapeString (value : bytes) : bytes := AppendEscapedStringTo [] value.

Definition kMaxUint64 : Z := 2 ^ 64 - 1.
Definition kLastDigitOfMaxUint64 : Z := 48 + kMaxUint64 mod 10.

(** The for loop; [None] is the return on overflow. *)
Fixpoint consume_loop (in_ : bytes) (value : Z) : option (Z * bytes) :=
  match in_ with
  | [] => Some (value, [])
  | ch :: in' =>
      if (ch <? 48) || (57 <? ch) then Some (value, in_)
      else if (kMaxUint64 / 10 <? value)
              || ((value =? kMaxUint64 / 10) && (kLastDigitOfMaxUint64 <? ch))
      then None
      else consume_loop in' (u64 (u64 (value * 10) + (ch - 48)))
  end.

(** The result, with the value and the rest of the input; [*val] is not set
    on overflow. *)
Definition ConsumeDecimalNumber (in_ : bytes) : bool * option Z * bytes :=
  match consume_loop in_ 0 with
  | None => (false, None, in_)
  | Some (value, rest) => (negb (zlen in_ - zlen rest =? 0), Some value, rest)
  end.

(** * filename.cc *)
Inductive FileType : Type :=
  kLogFile | kDBLockFile | kTableFile | kDescriptorFile | kCurrentFile | kTempFile
| kInfoLogFile.

#[export] Instance FileType_eq_dec : EqDecision FileType.
Proof. solve_decision. Defined.

(** [%06llu] *)
Definition decimal06 (number : Z) : bytes :=
  replicate (6 - length (decimal number)) 48 ++ decimal number.

(** The buffer of 100 bytes holds 20 digits and any suffix used. *)
Definition MakeFileName (dbname : bytes) (number : Z) (suffix : bytes) : bytes :=
  dbname ++ str "/" ++ decimal06 number ++ str "." ++ suffix.

Definition LogFileName (dbname : bytes) (number : Z) : bytes :=
  MakeFileName dbname number (str "log").
Definition TableFileName (dbname : bytes) (number : Z) : bytes :=
  MakeFileName dbname number (str "ldb").
Definition SSTTableFileName (dbname : bytes) (number : Z) : bytes :=
  MakeFileName dbname number (str "sst").
Definition DescriptorFileName (dbname : bytes) (number : Z) : bytes :=
  dbname ++ str "/MANIFEST-" ++ decimal06 number.
Definition CurrentFileName (dbname : bytes) : bytes := dbname ++ str "/CURRENT".
Definition LockFileName (dbname : bytes) : bytes := dbname ++ str "/LOCK".
Definition TempFileName (dbname : bytes) (number : Z) : bytes :=
  MakeFileName dbname number (str "dbtmp").
Definition InfoLogFileName (dbname : bytes) : bytes := dbname ++ str "/LOG".
Definition OldInfoLogFileName (dbname : bytes) : bytes := dbname ++ str "/LOG.old".

Definition ParseFileName (filename : bytes) : option (Z * FileType) :=
  let rest := filename in
  if Slice_eqb rest (str "CURRENT") then Some (0, kCurrentFile)
  else if Slice_eqb rest (str "LOCK") then Some (0, kDBLockFile)
  else if Slice_eqb rest (str "LOG") || Slice_eqb rest (str "LOG.old")
  then Some (0, kInfoLogFile)
  else if Slice_starts_with rest (str "MANIFEST-") then
    rest ← Slice_remove_prefix rest (zlen (str "MANIFEST-"));
    match ConsumeDecimalNumber rest with
    | (true, Some num, rest) => if zlen rest =? 0 then Some (num, kDescriptorFile) else None
    | _ => None
    end
  else
    match ConsumeDecimalNumber rest with
    | (true, Some num, suffix) =>
        if Slice_eqb suffix (str ".log") then Some (num, kLogFile)
        else if Slice_eqb suffix (str ".sst") || Slice_eqb suffix (str ".ldb")
        then Some (num, kTableFile)
        else if Slice_eqb suffix (str ".dbtmp") then Some (num, kTempFile)
        else None
    | _ => None
    end.

(** ** Digits *)
Definition is_digit (c : Z) : Prop := 48 <= c <= 57.

Fixpoint digits_val (acc : Z) (l : bytes) : Z :=
  match l with
  | [] => acc
  | c :: l' => digits_val (acc * 10 + (c - 48)) l'
  end.

Lemma digits_val_app acc a b : digits_val acc (a ++ b) = digits_val (digits_val acc a) b.
Proof. revert acc; induction a; intros; simpl; auto. Qed.

Lemma decimal_loop_digits n z :
  0 <= z < 10 ^ Z.of_nat n -> (0 < n)%nat ->
  Forall is_digit (decimal_loop n z) /\ digits_val 0 (decimal_loop n z) = z
  /\ decimal_loop n z <> [].
Proof.
  revert z. induction n as [|n IH]; intros z Hz Hn; [lia|]. cbn [decimal_loop].
  destruct (Z.ltb_spec z 10) as [Hlt|Hge].
  - split_and!; [|simpl; lia|done]. constructor; [unfold is_digit; lia|constructor].
  - rewrite Nat2Z.inj_succ, Z.pow_succ_r in Hz by lia.
    destruct n as [|n]; [simpl in Hz; lia|].
    destruct (IH (z / 10)) as (Hd & Hv & _); [Z.to_euclidean_division_equations; lia|lia|].
    split_and!.
    + apply Forall_app. split; [done|]. constructor; [|constructor].
      unfold is_digit. pose proof (Z.mod_pos_bound z 10). lia.
    + rewrite digits_val_app, Hv. simpl. Z.to_euclidean_division_equations; lia.
    + by destruct (decimal_loop (S n) (z / 10)).
Qed.

Lemma decimal_digits z :
  in_uint 64 z -> Forall is_digit (decimal z) /\ digits_val 0 (decimal z) = z /\ decimal z <> [].
Proof.
  intros Hz. apply decimal_loop_digits; [|lia]. unfold in_uint in Hz.
  change (10 ^ Z.of_nat 20) with 100000000000000000000. pow2. lia.
Qed.

Lemma decimal06_digits z :
  in_uint 64 z ->
  Forall is_digit (decimal06 z) /\ digits_val 0 (decimal06 z) = z /\ decimal06 z <> [].
Proof.
  intros Hz. destruct (decimal_digits z Hz) as (Hd & Hv & Hne). unfold decimal06.
  generalize (6 - length (decimal z))%nat. intros n. split_and!.
  - apply Forall_app. split; [|done]. apply Forall_replicate. unfold is_digit. lia.
  - rewrite digits_val_app. replace (digits_val 0 (replicate n 48)) with 0; [done|].
    induction n as [|n IH]; [done|apply IH].
  - intros E. apply app_eq_nil in E as [_ ?]. done.
Qed.

Lemma digits_val_mono acc l : Forall is_digit l -> 0 <= acc -> acc <= digits_val acc l.
Proof.
  intros Hl. revert acc. induction Hl as [|c l Hc Hl IH]; intros acc Ha; simpl; [lia|].
  unfold is_digit in Hc. etrans; [|apply IH]; lia.
Qed.

(** The test before each digit is exactly that of overflow. *)
Lemma overflow_test value ch :
  0 <= value <= kMaxUint64 -> is_digit ch ->
  ((kMaxUint64 / 10 <? value) || ((value =? kMaxUint64 / 10) && (kLastDigitOfMaxUint64 <? ch)))
  = negb (value * 10 + (ch - 48) <=? kMaxUint64).
Proof.
  unfold is_digit. change kMaxUint64 with 18446744073709551615.
  change kLastDigitOfMaxUint64 with 53.
  change (18446744073709551615 / 10) with 1844674407370955161. intros Hv Hc.
  destruct (Z.ltb_spec 1844674407370955161 value), (Z.eqb_spec value 1844674407370955161),
    (Z.ltb_spec 53 ch), (Z.leb_spec (value * 10 + (ch - 48)) 18446744073709551615); simpl; lia.
Qed.

Definition no_digit_head (l : bytes) : Prop := match l with [] => True | c :: _ => ~ is_digit c end.

(** The loop on a run of digits. *)
Lemma consume_loop_digits ds rest acc :
  Forall is_digit ds -> no_digit_head rest -> 0 <= acc <= kMaxUint64 ->
  consume_loop (ds ++ rest) acc
  = if digits_val acc ds <=? kMaxUint64 then Some (digits_val acc ds, rest) else None.
Proof.
  intros Hd Hr. revert acc. induction Hd as [|c ds Hc Hd IH]; intros acc Ha; simpl.
  - rewrite (proj2 (Z.leb_le _ _)) by lia. destruct rest as [|c rest]; [done|]. simpl.
    unfold no_digit_head, is_digit in Hr.
    destruct (Z.ltb_spec c 48), (Z.ltb_spec 57 c); try done. lia.
  - rewrite overflow_test by done. unfold is_digit in Hc.
    rewrite (proj2 (Z.ltb_ge c 48)), (proj2 (Z.ltb_ge 57 c)) by lia. cbn [orb].
    destruct (Z.leb_spec (acc * 10 + (c - 48)) kMaxUint64) as [Hle|Hgt]; cbn [negb].
    + unfold kMaxUint64 in *. rewrite (u64_small (acc * 10)), u64_small by (unfold in_uint; lia).
      apply IH. lia.
    + rewrite (proj2 (Z.leb_gt _ _)); [done|].
      eapply Z.lt_le_trans; [exact Hgt|]. apply digits_val_mono; [done|lia].
Qed.

(** Every input is a run of digits and the rest. *)
Lemma digits_span (l : bytes) :
  exists ds rest, l = ds ++ rest /\ Forall is_digit ds /\ no_digit_head rest.
Proof.
  induction l as [|c l IH]; [by exists [], []|]. destruct IH as (ds & rest & -> & Hd & Hr).
  destruct (decide (48 <= c <= 57)).
  - exists (c :: ds), rest. split_and!; [done|by constructor|done].
  - by exists [], (c :: ds ++ rest).
Qed.

Lemma ConsumeDecimalNumber_digits ds rest :
  Forall is_digit ds -> no_digit_head rest ->
  ConsumeDecimalNumber (ds ++ rest)
  = if digits_val 0 ds <=? kMaxUint64
    then (negb (length ds =? 0)%nat, Some (digits_val 0 ds), rest)
    else (false, None, ds ++ rest).
Proof.
  intros Hd Hr. unfold ConsumeDecimalNumber.
  rewrite consume_loop_digits by (done || unfold kMaxUint64; lia).
  destruct (_ <=? _); [|done]. rewrite zlen_app, Z.add_simpl_r. by destruct ds.
Qed.

Lemma Consume_decimal06 n rest :
  in_uint 64 n -> no_digit_head rest ->
  ConsumeDecimalNumber (decimal06 n ++ rest) = (true, Some n, rest).
Proof.
  intros Hn Hr. destruct (decimal06_digits n Hn) as (Hd & Hv & Hne).
  rewrite ConsumeDecimalNumber_digits, Hv by done.
  rewrite (proj2 (Z.leb_le _ _)) by (unfold in_uint in Hn; unfold kMaxUint64; lia).
  by destruct (decimal06 n).
Qed.

(** ** Names parse back *)

(** The name of a file without the directory. *)
Definition basename (dbname file : bytes) : bytes := drop (length dbname + 1) file.

Lemma basename_app db (name : bytes) : basename db (db ++ [47] ++ name) = name.
Proof.
  unfold basename. rewrite app_assoc, drop_app_length'; [done|]. rewrite length_app. simpl. lia.
Qed.

Lemma starts_with_app a b : Slice_starts_with (a ++ b) a = true.
Proof.
  unfold Slice_starts_with. rewrite zlen_app. rewrite (proj2 (Z.leb_le _ _)) by lia. cbn [andb].
  apply Z.eqb_eq. induction a as [|x a IH]; [by destruct b|]. simpl. by rewrite Z.eqb_refl.
Qed.

(** A name that starts with a digit is not one of the fixed names. *)
Lemma ParseFileName_number c l :
  is_digit c ->
  ParseFileName (c :: l)
  = match ConsumeDecimalNumber (c :: l) with
    | (true, Some num, suffix) =>
        if Slice_eqb suffix (str ".log") then Some (num, kLogFile)
        else if Slice_eqb suffix (str ".sst") || Slice_eqb suffix (str ".ldb")
        then Some (num, kTableFile)
        else if Slice_eqb suffix (str ".dbtmp") then Some (num, kTempFile)
        else None
    | _ => None
    end.
Proof.
  intros Hc. unfold ParseFileName. cbv zeta. unfold is_digit in Hc.
  assert (forall s, hd c s <> c -> Slice_eqb (c :: l) s = false) as Hf.
  { intros s Hs. apply not_true_iff_false. rewrite Slice_eqb_eq. by intros <-. }
  assert (Slice_starts_with (c :: l) (str "MANIFEST-") = false) as ->.
  { unfold Slice_starts_with. apply andb_false_iff. right. apply Z.eqb_neq.
    change (str "MANIFEST-") with (77 :: str "ANIFEST-"). cbn [length memcmp].
    destruct (Z.eqb_spec c 77); lia. }
  rewrite !Hf by (vm_compute; lia). done.
Qed.

Lemma ParseFileName_MakeFileName db n suffix :
  in_uint 64 n ->
  ParseFileName (basename db (MakeFileName db n suffix))
  = if Slice_eqb (str "." ++ suffix) (str ".log") then Some (n, kLogFile)
    else if Slice_eqb (str "." ++ suffix) (str ".sst") || Slice_eqb (str "." ++ suffix) (str ".ldb")
    then Some (n, kTableFile)
    else if Slice_eqb (str "." ++ suffix) (str ".dbtmp") then Some (n, kTempFile)
    else None.
Proof.
  intros Hn. unfold MakeFileName. change (str "/") with [47]. rewrite basename_app.
  destruct (decimal06_digits n Hn) as (Hd & _ & Hne).
  destruct (decimal06 n) as [|c ds] eqn:E; [done|]. rewrite <- app_comm_cons.
  rewrite ParseFileName_number by (by apply Forall_cons in Hd as [? _]).
  rewrite app_comm_cons, <- E, Consume_decimal06; [done|done|].
  unfold no_digit_head, is_digit. vm_compute. tauto.
Qed.

Lemma ParseFileName_Table db n : in_uint 64 n -> ParseFileName (basename db (TableFileName db n)) = Some (n, kTableFile).
Proof. intros Hn. unfold TableFileName. by rewrite ParseFileName_MakeFileName. Qed.

Lemma TableFileName_inj db n m : in_uint 64 n -> in_uint 64 m -> TableFileName db n = TableFileName db m -> n = m.
Proof.
  intros Hn Hm H%(f_equal (fun f => ParseFileName (basename db f))). rewrite !ParseFileName_Table in H by done. congruence.
Qed.

Lemma Table_not_Log db n m : in_uint 64 n -> in_uint 64 m -> TableFileName db n <> LogFileName db m.
Proof.
  intros Hn Hm H%(f_equal (fun f => ParseFileName (basename db f))). rewrite ParseFileName_Table in H by done.
  unfold LogFileName in H. rewrite ParseFileName_MakeFileName in H by done. cbn in H. discriminate.
Qed.

Lemma ParseFileName_Descriptor db n :
  in_uint 64 n ->
  ParseFileName (basename db (DescriptorFileName db n)) = Some (n, kDescriptorFile).
Proof.
  intros Hn. unfold DescriptorFileName. change (str "/MANIFEST-") with ([47] ++ str "MANIFEST-").
  rewrite <- app_assoc, basename_app. unfold ParseFileName. cbv zeta.
  assert (forall s, length s < 9 -> Slice_eqb (str "MANIFEST-" ++ decimal06 n) s = false)%nat as Hf.
  { intros s Hs. unfold Slice_eqb. rewrite zlen_app. change (zlen (str "MANIFEST-")) with 9.
    by rewrite (proj2 (Z.eqb_neq _ _)) by lia. }
  rewrite !Hf by (simpl; lia). cbn [orb]. rewrite starts_with_app, Slice_remove_prefix_app.
  cbn [mbind option_bind]. rewrite <- (app_nil_r (decimal06 n)). by rewrite Consume_decimal06.
Qed.
