(* ===== verification/LdbComparator.v ===== *)
(** leveldb: comparators, [comparator.h] and [comparator.cc].

    [Comparator] is the class of the operations, [ComparatorLaw] what clients
    rely on: a total order on the keys the comparator accepts, and the two
    operations that shorten a key.  The bytewise comparator is an instance. *)
From stdpp Require Import base numbers option strings list.
From S2P Require Import Prelude LdbSlice.
Open Scope Z_scope.
Open Scope c_scope.

(** * The interface *)

(** [None] is a read outside of a key. *)
Class Comparator : Type := {
  Comparator_Name : bytes;
  Compare : bytes -> bytes -> option Z;
  FindShortestSeparator : bytes -> bytes -> option bytes;
  FindShortSuccessor : bytes -> option bytes
}.

(** A three-way comparison: [order] is a total order of the keys for which
    [valid] holds, and the comparison computes it. *)
Class CompareLaw {K : Type} (compare : K -> K -> option Z) (valid : K -> Prop)
    (order : K -> K -> Z) : Prop := {
  Compare_order a b : valid a -> valid b -> compare a b = Some (order a b);
  order_sym a b : valid a -> valid b -> Z.sgn (order a b) = - Z.sgn (order b a);
  order_trans a b c :
    valid a -> valid b -> valid c -> order a b <= 0 -> order b c <= 0 -> order a c <= 0
}.

Class ComparatorLaw (C : Comparator) (valid : bytes -> Prop) (order : bytes -> bytes -> Z)
    : Prop := {
  Comparator_compare :: CompareLaw Compare valid order;
  Separator_law start limit :
    valid start -> valid limit ->
    exists sep, FindShortestSeparator start limit = Some sep /\ valid sep
      /\ (length sep <= length start)%nat
      /\ (order start limit < 0 -> order start sep <= 0 /\ order sep limit < 0)
      /\ (0 <= order start limit -> sep = start);
  Successor_law key :
    valid key ->
    exists succ, FindShortSuccessor key = Some succ /\ valid succ
      /\ (length succ <= length key)%nat /\ order key succ <= 0
}.

Section Laws.
Context {K : Type} {compare : K -> K -> option Z} {valid : K -> Prop} {order : K -> K -> Z}
  {CL : CompareLaw compare valid order}.

Lemma order_refl a : valid a -> order a a = 0.
Proof. intros Ha. pose proof (order_sym a a Ha Ha). lia. Qed.

Lemma order_lt_flip a b : valid a -> valid b -> order a b < 0 <-> 0 < order b a.
Proof. intros Ha Hb. pose proof (order_sym a b Ha Hb). lia. Qed.

Lemma order_le_flip a b : valid a -> valid b -> order a b <= 0 <-> 0 <= order b a.
Proof. intros Ha Hb. pose proof (order_sym a b Ha Hb). lia. Qed.

Lemma order_lt_le_trans a b c :
  valid a -> valid b -> valid c -> order a b < 0 -> order b c <= 0 -> order a c < 0.
Proof.
  intros Ha Hb Hc H1 H2. destruct (Z.lt_ge_cases (order a c) 0) as [|H3]; [done|].
  apply order_le_flip in H3; [|done..].
  pose proof (order_trans b c a Hb Hc Ha H2 H3) as H. apply order_le_flip in H; [|done..]. lia.
Qed.

Lemma order_le_lt_trans a b c :
  valid a -> valid b -> valid c -> order a b <= 0 -> order b c < 0 -> order a c < 0.
Proof.
  intros Ha Hb Hc H1 H2. destruct (Z.lt_ge_cases (order a c) 0) as [|H3]; [done|].
  apply order_le_flip in H3; [|done..].
  pose proof (order_trans c a b Hc Ha Hb H3 H1) as H. apply order_le_flip in H; [|done..]. lia.
Qed.

Lemma order_lt_trans a b c :
  valid a -> valid b -> valid c -> order a b < 0 -> order b c < 0 -> order a c < 0.
Proof. intros Ha Hb Hc H1 H2. apply (order_lt_le_trans a b c); try done. lia. Qed.
End Laws.

(** * The bytewise comparator *)

(** The while loop that finds the length of the common prefix. *)
Fixpoint common_prefix (a b : bytes) : nat :=
  match a, b with
  | x :: a', y :: b' => if x =? y then S (common_prefix a' b') else 0
  | _, _ => 0
  end.

Definition Bytewise_FindShortestSeparator (start limit : bytes) : option bytes :=
  let min_length := Nat.min (length start) (length limit) in
  let diff_index := common_prefix start limit in
  if (min_length <=? diff_index)%nat then Some start
  else
    diff_byte ← start !! diff_index;
    limit_byte ← limit !! diff_index;
    if (diff_byte <? 0xff) && (diff_byte + 1 <? limit_byte)
    then Some (take (diff_index + 1) (<[diff_index := u8 (diff_byte + 1)]> start))
    else Some start.

(** The for loop: the index of the first byte that is not 0xff. *)
Fixpoint first_not_ff (key : bytes) : option nat :=
  match key with
  | [] => None
  | byte :: key' => if byte =? 0xff then S <$> first_not_ff key' else Some 0%nat
  end.

Definition Bytewise_FindShortSuccessor (key : bytes) : option bytes :=
  match first_not_ff key with
  | None => Some key
  | Some i => byte ← key !! i; Some (take (i + 1) (<[i := u8 (byte + 1)]> key))
  end.

#[export] Instance BytewiseComparator : Comparator := {
  Comparator_Name := str "leveldb.BytewiseComparator";
  Compare a b := Some (Slice_compare a b);
  FindShortestSeparator := Bytewise_FindShortestSeparator;
  FindShortSuccessor := Bytewise_FindShortSuccessor
}.

(** ** Its laws *)
Lemma Slice_compare_app p a b : Slice_compare (p ++ a) (p ++ b) = Slice_compare a b.
Proof. induction p as [|x p IH]; [done|]. simpl. by rewrite Slice_compare_cons, Z.eqb_refl. Qed.

(** The first difference of two strings, neither a prefix of the other. *)
Lemma common_prefix_split a b :
  (common_prefix a b < Nat.min (length a) (length b))%nat ->
  exists p x y a' b', a = p ++ x :: a' /\ b = p ++ y :: b' /\ x <> y
    /\ length p = common_prefix a b.
Proof.
  revert b. induction a as [|x a IH]; intros b Hl; [simpl in Hl; lia|].
  destruct b as [|y b]; [simpl in Hl; lia|]. simpl in *. destruct (Z.eqb_spec x y) as [->|Hne].
  - destruct (IH b ltac:(lia)) as (p & u & v & a' & b' & -> & -> & Huv & Hp).
    exists (y :: p), u, v, a', b'. simpl. by rewrite Hp.
  - by exists [], x, y, a, b.
Qed.

Lemma first_not_ff_split key i :
  first_not_ff key = Some i ->
  exists p x key', key = p ++ x :: key' /\ x <> 0xff /\ length p = i.
Proof.
  revert i. induction key as [|b key IH]; intros i; simpl; [done|].
  destruct (Z.eqb_spec b 0xff) as [->|Hne].
  - intros (j & Hj & ->)%fmap_Some. destruct (IH j Hj) as (p & x & k' & -> & Hx & Hp).
    exists (0xff :: p), x, k'. simpl. by rewrite Hp.
  - intros [= <-]. by exists [], b, key.
Qed.

Lemma increment_at (p : bytes) x y l :
  take (length p + 1) (<[length p := y]> (p ++ x :: l)) = p ++ [y].
Proof.
  rewrite insert_app_r_alt, Nat.sub_diag by done. cbn [insert list_insert].
  rewrite cons_middle, app_assoc. apply take_app_length'. rewrite length_app. simpl. lia.
Qed.

Lemma Bytewise_separator start limit :
  Forall is_byte start -> Forall is_byte limit ->
  exists sep, Bytewise_FindShortestSeparator start limit = Some sep /\ Forall is_byte sep
    /\ (length sep <= length start)%nat
    /\ (Slice_compare start limit < 0 ->
        Slice_compare start sep <= 0 /\ Slice_compare sep limit < 0)
    /\ (0 <= Slice_compare start limit -> sep = start).
Proof.
  intros Hs Hl. unfold Bytewise_FindShortestSeparator. cbv zeta.
  assert (exists sep, Some start = Some sep /\ Forall is_byte sep
    /\ (length sep <= length start)%nat
    /\ (Slice_compare start limit < 0 ->
        Slice_compare start sep <= 0 /\ Slice_compare sep limit < 0)
    /\ (0 <= Slice_compare start limit -> sep = start)) as Hsame.
  { exists start. rewrite Slice_compare_refl. by split_and!; try lia. }
  destruct (Nat.leb_spec (Nat.min (length start) (length limit)) (common_prefix start limit))
    as [_|Hlt]; [done|].
  destruct (common_prefix_split _ _ Hlt) as (p & x & y & a & b & Ea & Eb & Hne & Hp).
  rewrite <- Hp. rewrite Ea, Eb, !list_lookup_middle by done. cbn [mbind option_bind].
  rewrite <- Ea, <- Eb.
  destruct ((x <? 255) && (x + 1 <? y)) eqn:E; [|done].
  apply andb_true_iff in E as [E1%Z.ltb_lt E2%Z.ltb_lt].
  subst start limit. assert (is_byte x) as Hx by (by decompose_Forall_hyps).
  rewrite increment_at, u8_small by (clear -E1 Hx; unfold in_uint in *; pow2; lia).
  eexists. split; [done|]. split_and!.
  - decompose_Forall_hyps. apply Forall_app. split; [done|]. apply Forall_singleton.
    unfold in_uint in *. pow2. lia.
  - rewrite !length_app. simpl. lia.
  - intros _. rewrite !Slice_compare_app, !Slice_compare_cons.
    destruct (Z.eqb_spec x (x + 1)), (Z.eqb_spec (x + 1) y); lia.
  - rewrite Slice_compare_app, Slice_compare_cons. destruct (Z.eqb_spec x y); lia.
Qed.

Lemma Bytewise_successor key :
  Forall is_byte key ->
  exists succ, Bytewise_FindShortSuccessor key = Some succ /\ Forall is_byte succ
    /\ (length succ <= length key)%nat /\ Slice_compare key succ <= 0.
Proof.
  intros Hk. unfold Bytewise_FindShortSuccessor.
  destruct (first_not_ff key) as [i|] eqn:E.
  - destruct (first_not_ff_split _ _ E) as (p & x & l & -> & Hx & <-).
    rewrite list_lookup_middle by done. cbn [mbind option_bind].
    assert (is_byte x) as Hb by (by decompose_Forall_hyps).
    rewrite increment_at, u8_small by (clear -Hb Hx; unfold in_uint in *; pow2; lia).
    eexists. split; [done|]. split_and!.
    + decompose_Forall_hyps. apply Forall_app. split; [done|]. apply Forall_singleton.
      unfold in_uint in *. pow2. lia.
    + rewrite !length_app. simpl. lia.
    + rewrite Slice_compare_app, Slice_compare_cons. destruct (Z.eqb_spec x (x + 1)); lia.
  - exists key. rewrite Slice_compare_refl. by split_and!.
Qed.

#[export] Instance Bytewise_law :
  ComparatorLaw BytewiseComparator (Forall is_byte) Slice_compare.
Proof.
  split; [split|..].
  - done.
  - intros a b _ _. rewrite (Slice_compare_sym a b). lia.
  - intros a b c _ _ _. apply Slice_compare_trans.
  - apply Bytewise_separator.
  - apply Bytewise_successor.
Qed.
