(* ===== verification/LdbDbformat.v ===== *)
(** leveldb: internal keys, [dbformat.h] and [dbformat.cc].

    An internal key is a user key followed by eight bytes: a sequence number
    and a type, packed.  [InternalKeyComparator] and [InternalFilterPolicy]
    turn a comparator and a filter policy for user keys into one for internal
    keys; the laws of the former give those of the latter. *)
From stdpp Require Import base numbers option strings list.
From S2P Require Import Prelude Varint LdbSlice LdbCoding LdbBloom LdbComparator LdbFilename.
Open Scope Z_scope.
Open Scope c_scope.

(** * Keys *)
Definition kTypeDeletion : Z := 0x0.
Definition kTypeValue : Z := 0x1.
Definition kValueTypeForSeek : Z := kTypeValue.
Definition kMaxSequenceNumber : Z := u64 (1 ≪ 56) - 1.

(** [type] holds any byte: [ParseInternalKey] casts one to the enumeration. *)
Record ParsedInternalKey : Type := { user_key : bytes; sequence : Z; type : Z }.

Definition InternalKeyEncodingLength (key : ParsedInternalKey) : Z := zlen (user_key key) + 8.

Definition PackSequenceAndType (seq t : Z) : Z := u64 (seq ≪ 8) ||| t.

Definition AppendInternalKey (result : bytes) (key : ParsedInternalKey) : bytes :=
  PutFixed64 (result ++ user_key key) (PackSequenceAndType (sequence key) (type key)).

(** The key parsed and whether its type is one of the enumeration; [None] is
    the return on fewer than eight bytes, with [*result] not set. *)
Definition ParseInternalKey (internal_key : bytes) : option (bool * ParsedInternalKey) :=
  let n := length internal_key in
  if (n <? 8)%nat then None
  else
    num ← DecodeFixed64 (drop (n - 8) internal_key);
    let c := u8 (num &&& 0xff) in
    Some (c <=? kTypeValue,
          {| user_key := take (n - 8) internal_key; sequence := num ≫ 8; type := c |}).

(** Fewer than eight bytes are undefined. *)
Definition ExtractUserKey (internal_key : bytes) : option bytes :=
  let n := length internal_key in
  if (n <? 8)%nat then None else Some (take (n - 8) internal_key).

(** The tag at [data() + size() - 8]. *)
Definition internal_tag (key : bytes) : option Z :=
  let n := length key in
  if (n <? 8)%nat then None else DecodeFixed64 (drop (n - 8) key).

(** [%llu] of the sequence and [%d] of the type, which is a byte. *)
Definition ParsedInternalKey_DebugString (k : ParsedInternalKey) : bytes :=
  str "'" ++ EscapeString (user_key k) ++ str "' @ " ++ decimal (sequence k) ++ str " : "
  ++ decimal (type k).

(** [InternalKey]: its [rep_]. *)
Definition InternalKey_make (user_key : bytes) (s t : Z) : bytes :=
  AppendInternalKey [] {| user_key := user_key; sequence := s; type := t |}.

Definition InternalKey_DebugString (rep : bytes) : bytes :=
  match ParseInternalKey rep with
  | Some (true, parsed) => ParsedInternalKey_DebugString parsed
  | _ => str "(bad)" ++ EscapeString rep
  end.

(** * Comparator and filter policy *)
Section Wrappers.
Context `{U : Comparator}.

Definition InternalKey_Compare (akey bkey : bytes) : option Z :=
  ua ← ExtractUserKey akey;
  ub ← ExtractUserKey bkey;
  r ← Compare ua ub;
  if r =? 0 then
    anum ← internal_tag akey;
    bnum ← internal_tag bkey;
    if anum >? bnum then Some (-1)
    else if anum <? bnum then Some 1
    else Some r
  else Some r.

Definition InternalKey_FindShortestSeparator (start limit : bytes) : option bytes :=
  user_start ← ExtractUserKey start;
  user_limit ← ExtractUserKey limit;
  tmp ← FindShortestSeparator user_start user_limit;
  shorter ← (if zlen tmp <? zlen user_start
             then r ← Compare user_start tmp; Some (r <? 0) else Some false);
  if shorter : bool
  then Some (PutFixed64 tmp (PackSequenceAndType kMaxSequenceNumber kValueTypeForSeek))
  else Some start.

Definition InternalKey_FindShortSuccessor (key : bytes) : option bytes :=
  user_key ← ExtractUserKey key;
  tmp ← FindShortSuccessor user_key;
  shorter ← (if zlen tmp <? zlen user_key
             then r ← Compare user_key tmp; Some (r <? 0) else Some false);
  if shorter : bool
  then Some (PutFixed64 tmp (PackSequenceAndType kMaxSequenceNumber kValueTypeForSeek))
  else Some key.
End Wrappers.

Definition InternalKeyComparator (U : Comparator) : Comparator := {|
  Comparator_Name := str "leveldb.InternalKeyComparator";
  Compare := InternalKey_Compare;
  FindShortestSeparator := InternalKey_FindShortestSeparator;
  FindShortSuccessor := InternalKey_FindShortSuccessor
|}.

(** The keys are overwritten with their user keys before the call. *)
Definition InternalFilterPolicy (P : FilterPolicy) : FilterPolicy := {|
  FilterPolicy_Name := FilterPolicy_Name;
  CreateFilter keys dst := mkeys ← mapM ExtractUserKey keys; CreateFilter mkeys dst;
  KeyMayMatch key f := user ← ExtractUserKey key; KeyMayMatch user f
|}.

(** * LookupKey *)

(** The array from [start_] to [end_] and the index [kstart_] points to. *)
Record LookupKey : Type := { start_ : bytes; kstart_ : nat }.

(** Writing past [needed] bytes is out of bounds. *)
Definition LookupKey_make (user_key : bytes) (s : Z) : option LookupKey :=
  let usize := zlen user_key in
  let needed := usize + 13 in
  let len := EncodeVarint32 (u32 (usize + 8)) in
  let dst := len ++ user_key ++ EncodeFixed64 (PackSequenceAndType s kValueTypeForSeek) in
  if zlen dst <=? needed then Some {| start_ := dst; kstart_ := length len |} else None.

Definition LookupKey_memtable_key (k : LookupKey) : bytes := start_ k.
Definition LookupKey_internal_key (k : LookupKey) : bytes := drop (kstart_ k) (start_ k).
Definition LookupKey_user_key (k : LookupKey) : bytes :=
  take (length (start_ k) - kstart_ k - 8) (drop (kstart_ k) (start_ k)).

(** * Facts *)

(** ** Packing *)
Definition valid_seq (s : Z) : Prop := 0 <= s <= kMaxSequenceNumber.
Definition valid_type (t : Z) : Prop := t = kTypeDeletion \/ t = kTypeValue.

Lemma Pack_add s t : valid_seq s -> is_byte t -> PackSequenceAndType s t = s * 256 + t.
Proof.
  intros Hs Ht. unfold valid_seq in Hs. change kMaxSequenceNumber with (2 ^ 56 - 1) in Hs.
  unfold PackSequenceAndType. rewrite u64_small.
  - rewrite Z.lor_comm, lor_shiftl_add by (unfold in_uint in Ht; lia). lia.
  - rewrite Z.shiftl_mul_pow2 by lia. unfold in_uint. lia.
Qed.

Lemma Pack_range s t : valid_seq s -> is_byte t -> in_uint 64 (PackSequenceAndType s t).
Proof.
  intros Hs Ht. rewrite Pack_add by done. unfold valid_seq, in_uint in *.
  change kMaxSequenceNumber with (2 ^ 56 - 1) in Hs. lia.
Qed.

Lemma valid_type_byte t : valid_type t -> is_byte t.
Proof. intros [->| ->]; done. Qed.

#[export] Hint Resolve valid_type_byte : cint.

(** ** User key and tag *)
Lemma DecodeFixed64_tag t : length t = 8%nat -> DecodeFixed64 t = Some (le_val t).
Proof. intros Ht. rewrite DecodeFixed64_take by lia. by rewrite take_ge by lia. Qed.

Lemma ExtractUserKey_app u t : length t = 8%nat -> ExtractUserKey (u ++ t) = Some u.
Proof.
  intros Ht. unfold ExtractUserKey. cbv zeta. rewrite length_app, Ht.
  rewrite (proj2 (Nat.ltb_ge _ _)) by lia. by rewrite Nat.add_sub, take_app_length.
Qed.

Lemma internal_tag_app u t : length t = 8%nat -> internal_tag (u ++ t) = Some (le_val t).
Proof.
  intros Ht. unfold internal_tag. cbv zeta. rewrite length_app, Ht.
  rewrite (proj2 (Nat.ltb_ge _ _)) by lia.
  rewrite Nat.add_sub, drop_app_length. by apply DecodeFixed64_tag.
Qed.

(** Any key of eight bytes or more is a user key and a tag. *)
Lemma ikey_split (k : bytes) :
  (8 <= length k)%nat -> exists u t, k = u ++ t /\ length t = 8%nat.
Proof.
  intros Hk. exists (take (length k - 8) k), (drop (length k - 8) k). split.
  - by rewrite take_drop.
  - rewrite length_drop. lia.
Qed.

Lemma AppendInternalKey_app r k :
  AppendInternalKey r k
  = r ++ user_key k ++ EncodeFixed64 (PackSequenceAndType (sequence k) (type k)).
Proof. unfold AppendInternalKey, PutFixed64. by rewrite <- app_assoc. Qed.

Lemma ParseInternalKey_app u t :
  Forall is_byte t -> length t = 8%nat ->
  ParseInternalKey (u ++ t)
  = Some (le_val t mod 256 <=? kTypeValue,
          {| user_key := u; sequence := le_val t / 256; type := le_val t mod 256 |}).
Proof.
  intros Hb Ht. unfold ParseInternalKey. cbv zeta. rewrite length_app, Ht.
  rewrite (proj2 (Nat.ltb_ge _ _)) by lia.
  rewrite Nat.add_sub, drop_app_length, take_app_length, DecodeFixed64_tag by done. cbn [mbind option_bind].
  rewrite land_ff, shiftr_div by lia. change (2 ^ 8) with 256.
  rewrite u8_small; [done|]. unfold in_uint. pose proof (Z.mod_pos_bound (le_val t) 256). lia.
Qed.

(** What was appended parses back. *)
Lemma ParseInternalKey_Append k :
  valid_seq (sequence k) -> valid_type (type k) ->
  ParseInternalKey (AppendInternalKey [] k) = Some (true, k).
Proof.
  intros Hs Ht. rewrite AppendInternalKey_app, app_nil_l.
  assert (is_byte (type k)) as Hb by auto with cint.
  rewrite ParseInternalKey_app by (done || apply EncodeFixed64_bytes).
  unfold EncodeFixed64. cbn [kLittleEndian]. rewrite le_val_bytes.
  2: { pose proof (Pack_range _ _ Hs Hb) as Hr. exact Hr. }
  rewrite Pack_add by done. unfold in_uint in Hb. change (2 ^ 8) with 256 in Hb.
  rewrite Z.add_comm, Z_mod_plus_full, Z.mod_small, Z.div_add, Z.div_small, Z.add_0_l by lia.
  replace (type k <=? kTypeValue) with true; [by destruct k|].
  destruct Ht as [-> | ->]; done.
Qed.

(** And anything that parses was appended, up to the type. *)
Lemma ParseInternalKey_inv b k r :
  Forall is_byte b -> ParseInternalKey b = Some (r, k) ->
  b = AppendInternalKey [] k /\ valid_seq (sequence k) /\ is_byte (type k)
  /\ r = (type k <=? kTypeValue).
Proof.
  intros Hb Hp. destruct (Nat.lt_ge_cases (length b) 8) as [Hlt|Hge].
  { unfold ParseInternalKey in Hp. cbv zeta in Hp. by rewrite (proj2 (Nat.ltb_lt _ _)) in Hp. }
  destruct (ikey_split b Hge) as (u & t & -> & Ht). apply Forall_app in Hb as [Hu Hbt].
  rewrite ParseInternalKey_app in Hp by done. simplify_eq. cbn [user_key sequence type].
  pose proof (le_val_range t Hbt) as Hr. rewrite Ht in Hr.
  change (256 ^ Z.of_nat 8) with (2 ^ 64) in Hr.
  pose proof (Z.mod_pos_bound (le_val t) 256 ltac:(lia)).
  assert (valid_seq (le_val t / 256)) as Hs.
  { unfold valid_seq. change kMaxSequenceNumber with (2 ^ 56 - 1).
    Z.to_euclidean_division_equations; lia. }
  assert (is_byte (le_val t mod 256)) by done.
  split_and!; [|done..]. rewrite AppendInternalKey_app. cbn [user_key sequence type].
  rewrite app_nil_l, Pack_add by done. f_equal. rewrite Z.mul_comm, <- Z.div_mod by lia.
  unfold EncodeFixed64. cbn [kLittleEndian]. rewrite <- Ht. by rewrite le_bytes_val.
Qed.

(** ** The order of internal keys *)
Section Order.
Context {U : Comparator} {uvalid : bytes -> Prop} {uorder : bytes -> bytes -> Z}
  {UL : ComparatorLaw U uvalid uorder}.

(** An internal key: a user key that the user's comparator takes, and a tag. *)
Definition ikey_valid (k : bytes) : Prop :=
  exists u t, k = u ++ t /\ length t = 8%nat /\ Forall is_byte t /\ uvalid u.

Definition ikey_user (k : bytes) : bytes := take (length k - 8) k.
Definition ikey_tag (k : bytes) : Z := le_val (drop (length k - 8) k).

(** User keys ascending, then tags descending. *)
Definition ikey_order (a b : bytes) : Z :=
  let r := uorder (ikey_user a) (ikey_user b) in
  if r =? 0 then (if ikey_tag a >? ikey_tag b then -1 else if ikey_tag a <? ikey_tag b then 1 else 0)
  else r.

Lemma ikey_user_app u t : length t = 8%nat -> ikey_user (u ++ t) = u.
Proof. intros Ht. unfold ikey_user. by rewrite length_app, Ht, Nat.add_sub, take_app_length. Qed.

Lemma ikey_tag_app u t : length t = 8%nat -> ikey_tag (u ++ t) = le_val t.
Proof. intros Ht. unfold ikey_tag. by rewrite length_app, Ht, Nat.add_sub, drop_app_length. Qed.

Lemma ikey_valid_append u s t :
  uvalid u -> ikey_valid (AppendInternalKey [] {| user_key := u; sequence := s; type := t |}).
Proof.
  intros Hu. rewrite AppendInternalKey_app. cbn [user_key sequence type app].
  eexists u, _. split_and!; [done|done|apply EncodeFixed64_bytes|done].
Qed.

Lemma ikey_order_app u1 t1 u2 t2 :
  length t1 = 8%nat -> length t2 = 8%nat ->
  ikey_order (u1 ++ t1) (u2 ++ t2)
  = if uorder u1 u2 =? 0
    then (if le_val t1 >? le_val t2 then -1 else if le_val t1 <? le_val t2 then 1 else 0)
    else uorder u1 u2.
Proof. intros H1 H2. unfold ikey_order. by rewrite !ikey_user_app, !ikey_tag_app by done. Qed.

Lemma InternalKey_Compare_order a b :
  ikey_valid a -> ikey_valid b -> InternalKey_Compare a b = Some (ikey_order a b).
Proof.
  intros (u1 & t1 & -> & L1 & _ & V1) (u2 & t2 & -> & L2 & _ & V2).
  unfold InternalKey_Compare. rewrite !ExtractUserKey_app by done. cbn [mbind option_bind].
  rewrite (Compare_order (compare := Compare) u1 u2) by done. cbn [mbind option_bind].
  rewrite !internal_tag_app, ikey_order_app by done. cbn [mbind option_bind].
  destruct (Z.eqb_spec (uorder u1 u2) 0) as [->|]; [|done].
  destruct (_ >? _); [done|]. by destruct (_ <? _).
Qed.

Lemma ikey_order_sym a b :
  ikey_valid a -> ikey_valid b -> Z.sgn (ikey_order a b) = - Z.sgn (ikey_order b a).
Proof.
  intros (u1 & t1 & -> & L1 & _ & V1) (u2 & t2 & -> & L2 & _ & V2).
  rewrite !ikey_order_app by done. pose proof (order_sym u1 u2 V1 V2).
  destruct (Z.eqb_spec (uorder u1 u2) 0), (Z.eqb_spec (uorder u2 u1) 0); try lia.
  destruct (Z.gtb_spec (le_val t1) (le_val t2)), (Z.gtb_spec (le_val t2) (le_val t1)),
    (Z.ltb_spec (le_val t1) (le_val t2)), (Z.ltb_spec (le_val t2) (le_val t1)); lia.
Qed.

Lemma ikey_order_trans a b c :
  ikey_valid a -> ikey_valid b -> ikey_valid c ->
  ikey_order a b <= 0 -> ikey_order b c <= 0 -> ikey_order a c <= 0.
Proof.
  intros (u1 & t1 & -> & L1 & _ & V1) (u2 & t2 & -> & L2 & _ & V2) (u3 & t3 & -> & L3 & _ & V3).
  rewrite !ikey_order_app by done. intros H12 H23.
  assert (uorder u1 u2 <= 0) as O12 by (destruct (Z.eqb_spec (uorder u1 u2) 0); lia).
  assert (uorder u2 u3 <= 0) as O23 by (destruct (Z.eqb_spec (uorder u2 u3) 0); lia).
  pose proof (order_trans u1 u2 u3 V1 V2 V3 O12 O23) as O13.
  destruct (Z.eqb_spec (uorder u1 u3) 0) as [E13|]; [|done].
  assert (uorder u1 u2 = 0) as E12.
  { assert (uorder u2 u1 <= 0) as O21.
    { apply (order_trans u2 u3 u1); [done..|]. apply (order_le_flip u3 u1); [done..|]. lia. }
    apply (order_le_flip u2 u1) in O21; [lia|done..]. }
  assert (uorder u2 u3 = 0) as E23.
  { assert (uorder u3 u2 <= 0) as O32.
    { apply (order_trans u3 u1 u2); [done..| |done]. apply (order_le_flip u3 u1); [done..|]. lia. }
    apply (order_le_flip u3 u2) in O32; [lia|done..]. }
  rewrite E12 in H12. rewrite E23 in H23. cbn [Z.eqb] in *.
  destruct (Z.gtb_spec (le_val t1) (le_val t2)), (Z.gtb_spec (le_val t2) (le_val t3)),
    (Z.gtb_spec (le_val t1) (le_val t3)), (Z.ltb_spec (le_val t1) (le_val t2)),
    (Z.ltb_spec (le_val t2) (le_val t3)), (Z.ltb_spec (le_val t1) (le_val t3)); lia.
Qed.

(** The shortened user key with the first of all tags. *)
Definition seek_tag : bytes :=
  EncodeFixed64 (PackSequenceAndType kMaxSequenceNumber kValueTypeForSeek).

Lemma ikey_separator start limit :
  ikey_valid start -> ikey_valid limit ->
  exists sep, InternalKey_FindShortestSeparator start limit = Some sep /\ ikey_valid sep
    /\ (length sep <= length start)%nat
    /\ (ikey_order start limit < 0 -> ikey_order start sep <= 0 /\ ikey_order sep limit < 0)
    /\ (0 <= ikey_order start limit -> sep = start).
Proof.
  intros Hs Hl. assert (ikey_order start start = 0) as Hrefl.
  { pose proof (ikey_order_sym start start Hs Hs). lia. }
  destruct Hs as (u1 & t1 & -> & L1 & B1 & V1), Hl as (u2 & t2 & -> & L2 & B2 & V2).
  unfold InternalKey_FindShortestSeparator. rewrite !ExtractUserKey_app by done.
  cbn [mbind option_bind].
  destruct (Separator_law u1 u2 V1 V2) as (w & -> & Vw & Lw & Hlt & Hge). cbn [mbind option_bind].
  rewrite (Compare_order (compare := Compare) u1 w) by done.
  assert (exists sep, Some (u1 ++ t1) = Some sep /\ ikey_valid sep
    /\ (length sep <= length (u1 ++ t1))%nat
    /\ (ikey_order (u1 ++ t1) (u2 ++ t2) < 0 ->
        ikey_order (u1 ++ t1) sep <= 0 /\ ikey_order sep (u2 ++ t2) < 0)
    /\ (0 <= ikey_order (u1 ++ t1) (u2 ++ t2) -> sep = u1 ++ t1)) as Hsame.
  { exists (u1 ++ t1). rewrite Hrefl. split_and!; try done. by exists u1, t1. }
  destruct (Z.ltb_spec (zlen w) (zlen u1)) as [Hsh|]; cbn [mbind option_bind]; [|done].
  destruct (Z.ltb_spec (uorder u1 w) 0) as [Huw|]; [|done].
  assert (uorder u1 u2 < 0) as H12.
  { destruct (Z.lt_ge_cases (uorder u1 u2) 0) as [|Hn]; [done|]. rewrite (Hge Hn) in Hsh. lia. }
  destruct (Hlt H12) as [_ Hw2]. exists (w ++ seek_tag).
  rewrite !ikey_order_app by done.
  destruct (Z.eqb_spec (uorder u1 u2) 0), (Z.eqb_spec (uorder u1 w) 0), (Z.eqb_spec (uorder w u2) 0);
    try lia.
  split_and!; [done|by exists w, seek_tag; eauto using EncodeFixed64_bytes| |lia|lia].
  rewrite !length_app, L1. change (length seek_tag) with 8%nat. lia.
Qed.

Lemma ikey_successor key :
  ikey_valid key ->
  exists succ, InternalKey_FindShortSuccessor key = Some succ /\ ikey_valid succ
    /\ (length succ <= length key)%nat /\ ikey_order key succ <= 0.
Proof.
  intros Hk. assert (ikey_order key key = 0) as Hrefl.
  { pose proof (ikey_order_sym key key Hk Hk). lia. }
  destruct Hk as (u & t & -> & L & B & V).
  unfold InternalKey_FindShortSuccessor. rewrite !ExtractUserKey_app by done.
  cbn [mbind option_bind].
  destruct (Successor_law u V) as (w & -> & Vw & Lw & Hle). cbn [mbind option_bind].
  rewrite (Compare_order (compare := Compare) u w) by done.
  assert (exists succ, Some (u ++ t) = Some succ /\ ikey_valid succ
    /\ (length succ <= length (u ++ t))%nat /\ ikey_order (u ++ t) succ <= 0) as Hsame.
  { exists (u ++ t). rewrite Hrefl. split_and!; try done. by exists u, t. }
  destruct (Z.ltb_spec (zlen w) (zlen u)) as [Hsh|]; cbn [mbind option_bind]; [|done].
  destruct (Z.ltb_spec (uorder u w) 0) as [Huw|]; [|done].
  exists (w ++ seek_tag). rewrite ikey_order_app by done.
  destruct (Z.eqb_spec (uorder u w) 0); [lia|].
  split_and!; [done|by exists w, seek_tag; eauto using EncodeFixed64_bytes| |done].
  rewrite !length_app, L. change (length seek_tag) with 8%nat. lia.
Qed.

#[export] Instance InternalKey_law :
  ComparatorLaw (InternalKeyComparator U) ikey_valid ikey_order.
Proof.
  split; [split|..].
  - apply InternalKey_Compare_order.
  - apply ikey_order_sym.
  - apply ikey_order_trans.
  - apply ikey_separator.
  - apply ikey_successor.
Qed.
End Order.

#[global] Arguments ikey_valid uvalid k : clear implicits.
#[global] Arguments ikey_order uorder a b : clear implicits.

(** ** The filter policy *)
Lemma mapM_ExtractUserKey (valid : bytes -> Prop) keys :
  Forall (ikey_valid valid) keys ->
  exists users, mapM ExtractUserKey keys = Some users /\ Forall valid users
    /\ Forall2 (fun k u => ExtractUserKey k = Some u) keys users.
Proof.
  induction 1 as [|k keys (u & t & -> & Ht & _ & Hu) Hks (users & E & Hv & H2)].
  - by exists [].
  - exists (u :: users). cbn [mapM]. rewrite ExtractUserKey_app by done.
    cbn [mbind option_bind]. rewrite E. split_and!; [done|by constructor|].
    constructor; [by apply ExtractUserKey_app|done].
Qed.

#[export] Instance InternalFilter_law (P : FilterPolicy) (valid : bytes -> Prop) :
  FilterPolicyLaw P valid -> FilterPolicyLaw (InternalFilterPolicy P) (ikey_valid valid).
Proof.
  intros PL keys dst Hn Hv. cbn [CreateFilter KeyMayMatch InternalFilterPolicy].
  destruct (mapM_ExtractUserKey valid keys Hv) as (users & -> & Hu & H2). cbn [mbind option_bind].
  destruct (CreateFilter_law users dst) as (f & -> & Hf); [|done|].
  { unfold int_keys in *. by rewrite <- (Forall2_length _ _ _ H2). }
  exists f. split; [done|]. intros key Hk. apply list_elem_of_lookup in Hk as [i Hi].
  destruct (Forall2_lookup_l _ _ _ _ _ H2 Hi) as (u & Eu & ->). cbn [mbind option_bind].
  apply Hf. apply list_elem_of_lookup. by exists i.
Qed.

(** ** LookupKey *)
Lemma LookupKey_make_ok u s :
  zlen u + 8 < 2 ^ 32 ->
  exists k, LookupKey_make u s = Some k
    /\ LookupKey_internal_key k = u ++ EncodeFixed64 (PackSequenceAndType s kValueTypeForSeek)
    /\ LookupKey_user_key k = u
    /\ LookupKey_memtable_key k
       = PutLengthPrefixedSlice [] (u ++ EncodeFixed64 (PackSequenceAndType s kValueTypeForSeek)).
Proof.
  intros Hu. unfold LookupKey_make. cbv zeta.
  assert (in_uint 32 (u32 (zlen u + 8))) as Hr by apply u32_range.
  set (v := EncodeVarint32 _). set (t := EncodeFixed64 _).
  assert (zlen v <= 5) as Hv.
  { unfold v, EncodeVarint32. cbv zeta. repeat destruct (_ <? _); simpl; lia. }
  assert (length t = 8)%nat as Ht by done.
  rewrite !zlen_app, Ht. rewrite (proj2 (Z.leb_le _ _)) by lia.
  eexists. split; [done|]. unfold LookupKey_internal_key, LookupKey_user_key, LookupKey_memtable_key.
  cbn [start_ kstart_]. rewrite drop_app_length. split_and!; [done| |].
  - rewrite !length_app, Ht.
    replace (length v + (length u + 8) - length v - 8)%nat with (length u) by lia.
    by rewrite take_app_length.
  - unfold PutLengthPrefixedSlice, PutVarint32. rewrite zlen_app, Ht. done.
Qed.
