(* ===== verification/LdbEnv.v ===== *)
(** leveldb: files and the environment, the classes [WritableFile],
    [SequentialFile], [RandomAccessFile] and [Env] of [env.h].

    The classes hold the operations; the laws are what the clients rely on.
    [DiskFile] and [StringFile] are files, [MemEnv] an environment, that satisfy
    them.  A file that is open for writing is a handle in the environment, so
    that the pair of both is a [WritableFile]. *)
From stdpp Require Import base numbers option strings gmap list.
From S2P Require Import Prelude LdbSlice.
Open Scope Z_scope.

(** * Files that are written *)
Class WritableFile (F : Type) : Type := {
  Append : F -> bytes -> Status * F;
  Close : F -> Status * F;
  Flush : F -> Status * F;
  Sync : F -> Status * F
}.

(** [contents] are the bytes accepted so far, whether they are still in a buffer or
    not.  An operation that fails may lose bytes from the end, of those it was given
    or of those in the buffer.  Nothing is said about what later operations on the
    file do: they may fail or not. *)
Class WritableFileLaw (F : Type) `{W : WritableFile F} (contents : F -> bytes) : Prop := {
  Append_ok f data s f' :
    Append f data = (s, f') -> Status_ok s = true -> contents f' = contents f ++ data;
  Append_error f data s f' :
    Append f data = (s, f') -> Status_ok s = false -> contents f' `prefix_of` contents f ++ data;
  Flush_ok f s f' :
    Flush f = (s, f') -> Status_ok s = true -> contents f' = contents f;
  Flush_error f s f' :
    Flush f = (s, f') -> Status_ok s = false -> contents f' `prefix_of` contents f
}.

(** What the writer of the log needs beside this, since it does not look at the
    result of appending the at most six bytes that end a block: a file is [idle]
    when it was flushed with success, and an idle file accepts so few bytes, into
    its buffer. *)
Class LogFileLaw (F : Type) `{W : WritableFile F} (idle : F -> bool) : Prop := {
  Flush_idle f s f' : Flush f = (s, f') -> Status_ok s = true -> idle f' = true;
  Append_idle f data : idle f = true -> (length data < 7)%nat -> Status_ok (Append f data).1 = true
}.

(** A file on a disk with [disk_room] bytes left.  It has a small buffer: after
    a flush a few bytes are accepted whatever the room. *)
Record DiskFile : Type := { disk_contents : bytes; disk_room : nat; disk_idle : bool }.

Definition disk_error : Status := Status_IOError (str "log") (str "No space left on device").

Definition Disk_Append (f : DiskFile) (data : bytes) : Status * DiskFile :=
  if (length data <=? disk_room f)%nat || (disk_idle f && (length data <? 7)%nat)
  then (Status_OK, {| disk_contents := disk_contents f ++ data;
                      disk_room := disk_room f - length data; disk_idle := false |})
  else (disk_error, {| disk_contents := disk_contents f ++ take (disk_room f) data;
                       disk_room := 0; disk_idle := false |}).

Definition Disk_Flush (f : DiskFile) : Status * DiskFile :=
  (Status_OK, {| disk_contents := disk_contents f; disk_room := disk_room f; disk_idle := true |}).

#[export] Instance Disk_WritableFile : WritableFile DiskFile := {
  Append := Disk_Append;
  Close := Disk_Flush;
  Flush := Disk_Flush;
  Sync := Disk_Flush
}.

#[export] Instance Disk_law : WritableFileLaw DiskFile disk_contents.
Proof.
  split.
  - intros f data s f'. cbn [Append Disk_WritableFile]. unfold Disk_Append.
    destruct (_ || _); by intros [= <- <-].
  - intros f data s f'. cbn [Append Disk_WritableFile]. unfold Disk_Append.
    destruct (_ || _); intros [= <- <-]; [done|]. intros _.
    apply prefix_app. exists (drop (disk_room f) data). by rewrite take_drop.
  - by intros f s f' [= <- <-].
  - by intros f s f' [= <- <-].
Qed.

#[export] Instance Disk_log_law : LogFileLaw DiskFile disk_idle.
Proof.
  split; [by intros f s f' [= <- <-]|]. intros f data Hi Hl. cbn [Append Disk_WritableFile]. unfold Disk_Append.
  rewrite Hi, (proj2 (Nat.ltb_lt _ _)) by done. cbn [andb]. by rewrite orb_true_r.
Qed.

(** * Files that are read from the start *)

(** [Read n scratch] returns the address of the bytes it read, and the
    bytes. *)
Class SequentialFile (F : Type) : Type := {
  Read : F -> Z -> Z -> Status * (Z * bytes) * F;
  Skip : F -> Z -> Status * F
}.

(** [unread] are the bytes to come.  A read returns some of them, at most [n], or an
    error.  As long as the file is [reliable] there is no error, and fewer than [n]
    are returned only at the end. *)
Class SequentialFileLaw (F : Type) `{SF : SequentialFile F} (unread : F -> bytes)
    (reliable : F -> bool) : Prop := {
  Read_bytes f n scratch s addr data f' :
    Read f n scratch = (s, (addr, data), f') -> 0 <= n ->
    (length data <= Z.to_nat n)%nat /\ (length data + length (unread f') <= length (unread f))%nat;
  Read_reliable f n scratch s addr data f' :
    Read f n scratch = (s, (addr, data), f') -> 0 <= n -> reliable f = true ->
    Status_ok s = true /\ reliable f' = true
    /\ data = take (Z.to_nat n) (unread f) /\ unread f' = drop (Z.to_nat n) (unread f);
  Skip_bytes f n s f' :
    Skip f n = (s, f') -> 0 <= n -> (length (unread f') <= length (unread f))%nat
}.

(** The contents of a file of which every read succeeds. *)
Definition StringFile : Type := bytes.

#[export] Instance String_SequentialFile : SequentialFile StringFile := {
  Read f n scratch := (Status_OK, (scratch, take (Z.to_nat n) f), drop (Z.to_nat n) f);
  Skip f n := (Status_OK, drop (Z.to_nat n) f)
}.

#[export] Instance String_law : SequentialFileLaw StringFile (fun f => f) (fun _ => true).
Proof.
  split.
  - intros f n sc s a d f' [= <- <- <- <-] _. rewrite length_take, length_drop. lia.
  - by intros f n sc s a d f' [= <- <- <- <-] _ _.
  - intros f n s f' [= <- <-] _. rewrite length_drop. lia.
Qed.

(** * Files that are read anywhere *)

(** [Random_Read n offset] returns the status, the bytes, and whether they are
    in the buffer the caller provided. *)
Class RandomAccessFile (F : Type) : Type := {
  Random_Read : F -> Z -> Z -> Status * (bytes * bool)
}.

(** Reads of [f] inside of the file succeed and return the bytes of [contents];
    a read past the end may fail. *)
Class RandomAccessFileLaw {F : Type} (R : RandomAccessFile F) (f : F) (contents : bytes) : Prop :=
  Random_Read_ok offset n :
    0 <= offset -> 0 <= n -> offset + n <= zlen contents ->
    exists own, Random_Read f offset n = (Status_OK, (take (Z.to_nat n) (drop (Z.to_nat offset) contents), own)).

(** The contents in memory, as the file of which a part is mapped. *)
#[export] Instance String_RandomAccessFile : RandomAccessFile StringFile := {
  Random_Read f offset n := (Status_OK, (take (Z.to_nat n) (drop (Z.to_nat offset) f), false))
}.

#[export] Instance String_random_law f : RandomAccessFileLaw String_RandomAccessFile f f.
Proof. intros offset n _ _ _. by exists false. Qed.

(** * The environment *)

(** A file that is open for writing: its name, what was written, and whether it is
    idle: new, or just flushed. *)
Record OpenFile : Type := { of_name : bytes; of_data : bytes; of_idle : bool }.

(** [S] and [R] are the files that are read; a file that is written, and a lock,
    is a handle.  [File_delete] is the destructor of the file. *)
Class Env (E S R : Type) : Type := {
  NewSequentialFile : E -> bytes -> Status * option S;
  NewRandomAccessFile : E -> bytes -> Status * option R;
  NewWritableFile : E -> bytes -> Status * option Z * E;
  NewAppendableFile : E -> bytes -> Status * option Z * E;
  FileExists : E -> bytes -> bool;
  GetChildren : E -> bytes -> Status * list bytes;
  Env_DeleteFile : E -> bytes -> Status * E;
  CreateDir : E -> bytes -> Status * E;
  DeleteDir : E -> bytes -> Status * E;
  GetFileSize : E -> bytes -> Status * Z;
  RenameFile : E -> bytes -> bytes -> Status * E;
  LockFile : E -> bytes -> Status * option Z * E;
  UnlockFile : E -> Z -> Status * E;
  NewLogger : E -> bytes -> Status * E;
  File_Append : E -> Z -> bytes -> Status * E;
  File_Close : E -> Z -> Status * E;
  File_Flush : E -> Z -> Status * E;
  File_Sync : E -> Z -> Status * E;
  File_delete : E -> Z -> E
}.

Section Handles.
Context {E S R : Type} {EV : Env E S R}.

Definition on_handle (r : Status * E) (h : Z) : Status * (E * Z) := (r.1, (r.2, h)).

#[export] Instance Handle_WritableFile : WritableFile (E * Z) := {
  Append f data := on_handle (File_Append f.1 f.2 data) f.2;
  Close f := on_handle (File_Close f.1 f.2) f.2;
  Flush f := on_handle (File_Flush f.1 f.2) f.2;
  Sync f := on_handle (File_Sync f.1 f.2) f.2
}.

(** [names] are the contents of the files by name, [opened] the files that are
    being written. *)
Context (names : E -> gmap bytes bytes) (opened : E -> gmap Z OpenFile).

Definition handle_data (f : E * Z) : bytes := default [] (of_data <$> opened f.1 !! f.2).
Definition handle_idle (f : E * Z) : bool := match opened f.1 !! f.2 with Some o => of_idle o | None => false end.

(** What is written to the handle [h], which is idle, shows in the file [n], which has [data]. *)
Definition shown (e : E) (h : Z) (n data : bytes) : Prop :=
  opened e !! h = Some {| of_name := n; of_data := data; of_idle := true |} /\ names e !! n = Some data.

(** Only the file of the handle [h] is different: it has the contents [data]. *)
Definition wrote (e : E) (h : Z) (e' : E) : Prop :=
  forall f, opened e !! h = Some f -> exists data idle,
    opened e' = <[h := {| of_name := of_name f; of_data := data; of_idle := idle |}]> (opened e)
    /\ names e' = (if decide (names e !! of_name f = Some (of_data f)) then <[of_name f := data]> (names e) else names e).

(** No file of the name is being written. *)
Definition not_open (e : E) (n : bytes) : Prop := forall h f, opened e !! h = Some f -> of_name f <> n.

Definition unchanged (e e' : E) : Prop := names e' = names e /\ opened e' = opened e.

(** Reading works, as far as there are files, in a [readable] environment. *)
Class EnvLaw {SF : SequentialFile S} {RF : RandomAccessFile R} (unread : S -> bytes) (reliable : S -> bool)
    (readable : E -> Prop) : Prop := {
  env_handles :: WritableFileLaw (E * Z) handle_data;
  env_log_handles :: LogFileLaw (E * Z) handle_idle;
  env_sequential :: SequentialFileLaw S unread reliable;
  env_append e h data : wrote e h (File_Append e h data).2;
  env_close e h : wrote e h (File_Close e h).2;
  env_flush e h : wrote e h (File_Flush e h).2;
  env_sync e h : wrote e h (File_Sync e h).2;
  env_same e h s e' :
    (s, e') = File_Close e h \/ (s, e') = File_Sync e h -> Status_ok s = true ->
    handle_data (e', h) = handle_data (e, h) /\ (handle_idle (e, h) = true -> handle_idle (e', h) = true);
  env_delete_handle e h : names (File_delete e h) = names e /\ opened (File_delete e h) = delete h (opened e);
  env_new_writable e n s h e' :
    NewWritableFile e n = (s, h, e') -> not_open e n ->
    if Status_ok s then exists a, h = Some a /\ opened e !! a = None
        /\ opened e' = <[a := {| of_name := n; of_data := []; of_idle := true |}]> (opened e) /\ names e' = <[n := []]> (names e)
    else h = None /\ unchanged e e';
  env_new_appendable e n s h e' :
    NewAppendableFile e n = (s, h, e') -> not_open e n ->
    if Status_ok s then exists a, h = Some a /\ opened e !! a = None
        /\ opened e' = <[a := {| of_name := n; of_data := default [] (names e !! n); of_idle := true |}]> (opened e)
        /\ names e' = <[n := default [] (names e !! n)]> (names e)
    else h = None /\ unchanged e e';
  env_remove e n s e' :
    Env_DeleteFile e n = (s, e') -> opened e' = opened e
    /\ names e' = (if Status_ok s then delete n (names e) else names e);
  env_rename e a b s e' :
    RenameFile e a b = (s, e') -> not_open e a -> not_open e b -> a <> b -> opened e' = opened e
    /\ (if Status_ok s then exists c, names e !! a = Some c /\ names e' = <[b := c]> (delete a (names e)) else names e' = names e);
  env_exists e n : FileExists e n = bool_decide (is_Some (names e !! n));
  env_size e n s z c : GetFileSize e n = (s, z) -> names e !! n = Some c -> Status_ok s = true -> z = zlen c;
  env_read e n c :
    readable e -> names e !! n = Some c ->
    exists f, NewSequentialFile e n = (Status_OK, Some f) /\ unread f = c /\ reliable f = true;
  env_read_random e n c :
    readable e -> names e !! n = Some c ->
    exists f, NewRandomAccessFile e n = (Status_OK, Some f) /\ RandomAccessFileLaw RF f c
}.
End Handles.

(** An environment in memory, with room for some more bytes; directories and
    locks are not kept. *)
Record MemEnv : Type := { m_names : gmap bytes bytes; m_open : gmap Z OpenFile; m_next : Z; m_room : nat }.

Definition MemEnv_new (room : nat) : MemEnv := {| m_names := ∅; m_open := ∅; m_next := 1; m_room := room |}.

Definition mem_missing : Status := Status_NotFound (str "no such file") [].

Definition mem_set (e : MemEnv) (h : Z) (o : OpenFile) (data : bytes) (idle : bool) (room : nat) : MemEnv := {|
  m_names := if decide (m_names e !! of_name o = Some (of_data o)) then <[of_name o := data]> (m_names e) else m_names e;
  m_open := <[h := {| of_name := of_name o; of_data := data; of_idle := idle |}]> (m_open e);
  m_next := m_next e; m_room := room |}.

(** As [Disk_Append]. *)
Definition mem_append (e : MemEnv) (h : Z) (data : bytes) : Status * MemEnv :=
  match m_open e !! h with
  | Some o =>
      if (length data <=? m_room e)%nat || (of_idle o && (length data <? 7)%nat)
      then (Status_OK, mem_set e h o (of_data o ++ data) false (m_room e - length data))
      else (disk_error, mem_set e h o (of_data o ++ take (m_room e) data) false 0)
  | None => (disk_error, e)
  end.

(** Flushing, closing and syncing. *)
Definition mem_touch (e : MemEnv) (h : Z) : Status * MemEnv :=
  match m_open e !! h with
  | Some o => (Status_OK, mem_set e h o (of_data o) true (m_room e))
  | None => (disk_error, e)
  end.

(** A name that a file is open under, or a handle that is in use, is refused. *)
Definition mem_create (e : MemEnv) (n data : bytes) : Status * option Z * MemEnv :=
  if decide (m_open e !! m_next e = None) then
    (Status_OK, Some (m_next e),
     {| m_names := <[n := data]> (m_names e);
        m_open := <[m_next e := {| of_name := n; of_data := data; of_idle := true |}]> (m_open e);
        m_next := m_next e + 1; m_room := m_room e |})
  else (disk_error, None, e).

Definition mem_with_names (e : MemEnv) (m : gmap bytes bytes) : MemEnv :=
  {| m_names := m; m_open := m_open e; m_next := m_next e; m_room := m_room e |}.

Definition mem_read (e : MemEnv) (n : bytes) : Status * option StringFile :=
  let file : option bytes := m_names e !! n in
  match file with Some c => (Status_OK, Some c) | None => (mem_missing, None) end.

#[export] Instance Mem_Env : Env MemEnv StringFile StringFile := {
  NewSequentialFile := mem_read;
  NewRandomAccessFile := mem_read;
  NewWritableFile e n := mem_create e n [];
  NewAppendableFile e n := mem_create e n (default [] (m_names e !! n));
  FileExists e n := bool_decide (is_Some (m_names e !! n));
  GetChildren e d :=
    (Status_OK, (fun f => drop (length d + 1) f.1) <$> filter (fun f => take (length d + 1) f.1 = d ++ [47]) (map_to_list (m_names e)));
  Env_DeleteFile e n :=
    match m_names e !! n with Some _ => (Status_OK, mem_with_names e (delete n (m_names e))) | None => (mem_missing, e) end;
  CreateDir e _ := (Status_OK, e);
  DeleteDir e _ := (Status_OK, e);
  GetFileSize e n := match m_names e !! n with Some c => (Status_OK, zlen c) | None => (mem_missing, 0) end;
  RenameFile e a b :=
    match m_names e !! a with
    | Some c => (Status_OK, mem_with_names e (<[b := c]> (delete a (m_names e))))
    | None => (mem_missing, e)
    end;
  LockFile e _ := (Status_OK, Some 0, e);
  UnlockFile e _ := (Status_OK, e);
  NewLogger e n := (Status_OK, mem_with_names e (<[n := default [] (m_names e !! n)]> (m_names e)));
  File_Append := mem_append;
  File_Close := mem_touch;
  File_Flush := mem_touch;
  File_Sync := mem_touch;
  File_delete e h := {| m_names := m_names e; m_open := delete h (m_open e); m_next := m_next e; m_room := m_room e |}
}.

Lemma mem_touch_wrote e h : wrote m_names m_open e h (mem_touch e h).2.
Proof. intros o E. unfold mem_touch. rewrite E. by eexists _, _. Qed.

Lemma mem_append_wrote e h data : wrote m_names m_open e h (mem_append e h data).2.
Proof. intros o E. unfold mem_append. rewrite E. destruct (_ || _); by eexists _, _. Qed.

(** What flushing leaves. *)
Lemma mem_touch_ok e h s e' :
  mem_touch e h = (s, e') -> handle_data m_open (e', h) = handle_data m_open (e, h) /\ (Status_ok s = true -> handle_idle m_open (e', h) = true).
Proof.
  unfold mem_touch, handle_data, handle_idle. cbn [fst snd]. destruct (m_open e !! h) as [o|] eqn:Eo; intros [= <- <-]; cbn.
  - by rewrite lookup_insert_eq.
  - by rewrite Eo.
Qed.

#[export] Instance Mem_handles : WritableFileLaw (MemEnv * Z) (handle_data m_open).
Proof.
  split.
  - intros [e h] data s [e' h'] H Hs. cbn in H. unfold on_handle, mem_append in H. injection H as H1 H2 <-.
    unfold handle_data. cbn [fst snd] in *. revert H1 H2. destruct (m_open e !! h) as [o|] eqn:E; cbn [fst snd]; [|by intros <-].
    destruct (_ || _); cbn [fst snd]; [|by intros <-]. intros _ <-. cbn. by rewrite lookup_insert_eq.
  - intros [e h] data s [e' h'] H Hs. cbn in H. unfold on_handle, mem_append in H. injection H as H1 H2 <-.
    unfold handle_data. cbn [fst snd] in *. revert H1 H2. destruct (m_open e !! h) as [o|] eqn:E; cbn [fst snd].
    2: { intros _ <-. rewrite E. apply prefix_nil. }
    destruct (_ || _); cbn [fst snd]; [by intros <-|]. intros _ <-. cbn.
    rewrite lookup_insert_eq. cbn. apply prefix_app. exists (drop (m_room e) data). by rewrite take_drop.
  - intros [e h] s [e' h'] H _. cbn in H. unfold on_handle in H. destruct (mem_touch e h) as [s0 e0] eqn:E. injection H as <- <- <-.
    by destruct (mem_touch_ok e h s0 e0 E).
  - intros [e h] s [e' h'] H _. cbn in H. unfold on_handle in H. destruct (mem_touch e h) as [s0 e0] eqn:E. injection H as <- <- <-.
    by destruct (mem_touch_ok e h s0 e0 E) as [-> _].
Qed.

#[export] Instance Mem_log_handles : LogFileLaw (MemEnv * Z) (handle_idle m_open).
Proof.
  split.
  - intros [e h] s [e' h'] H Hs. cbn in H. unfold on_handle in H. destruct (mem_touch e h) as [s0 e0] eqn:E. injection H as <- <- <-.
    by apply (mem_touch_ok e h s0 e0 E).
  - intros [e h] data. cbn. unfold handle_idle, mem_append. cbn [fst snd]. destruct (m_open e !! h) as [o|]; [|done]. intros -> Hl.
    rewrite (proj2 (Nat.ltb_lt _ _)) by done. cbn [andb]. by rewrite orb_true_r.
Qed.

#[export] Instance Mem_law : EnvLaw m_names m_open (fun f : StringFile => f) (fun _ => true) (fun _ => True).
Proof.
  assert (forall e n data s h e', mem_create e n data = (s, h, e') ->
    if Status_ok s then exists a, h = Some a /\ m_open e !! a = None
        /\ m_open e' = <[a := {| of_name := n; of_data := data; of_idle := true |}]> (m_open e) /\ m_names e' = <[n := data]> (m_names e)
    else h = None /\ unchanged m_names m_open e e') as Hcreate.
  { intros e n data s h e'. unfold mem_create. case_decide as Hd; intros [= <- <- <-]; [|done]. by eexists. }
  split; try apply _.
  - apply mem_append_wrote.
  - intros e h. apply mem_touch_wrote.
  - intros e h. apply mem_touch_wrote.
  - intros e h. apply mem_touch_wrote.
  - intros e h s e' H Hs. assert (mem_touch e h = (s, e')) as E by (by destruct H). apply mem_touch_ok in E as [-> E]. auto.
  - done.
  - intros e n s h e' H _. by apply Hcreate.
  - intros e n s h e' H _. by apply Hcreate.
  - intros e n s e'. cbn. destruct (m_names e !! n) eqn:E; by intros [= <- <-].
  - intros e a b s e' H _ _ _. revert H. cbn. destruct (m_names e !! a) as [c|] eqn:E; intros [= <- <-]; [|done]. split; [done|]. by exists c.
  - done.
  - intros e n s z c. cbn. intros H E _. rewrite E in H. by injection H as <- <-.
  - intros e n c _ E. exists c. cbn. unfold mem_read. cbv zeta. by rewrite E.
  - intros e n c _ E. exists c. cbn. unfold mem_read. cbv zeta. rewrite E. split; [done|apply _].
Qed.
