(* ===== verification/LdbPosix.v ===== *)
(** leveldb: the files and the environment of [env_posix.cc], on the calls of the
    operating system.

    The system is the class [Kernel]: a call returns an error number or a result,
    and the system after it.  An object of the C++ code that holds a descriptor is
    a record, and an operation takes the system and the record.  The configuration
    is the one of the pod: [HAVE_FULLFSYNC] is set, [HAVE_FDATASYNC] is not. *)
From stdpp Require Import base numbers option strings gmap sets list.
From S2P Require Import Prelude LdbSlice LdbEnv.
Open Scope Z_scope.
Open Scope c_scope.

(** * The operating system *)
Definition ENOENT : Z := 2.
Definition EINTR : Z := 4.
Definition EINVAL : Z := 22.

Definition O_RDONLY : Z := 0.
Definition O_WRONLY : Z := 1.
Definition O_RDWR : Z := 2.
Definition O_APPEND : Z := 8.
Definition O_CREAT : Z := 0x200.
Definition O_TRUNC : Z := 0x400.

(** [sys_memory k a n] are the [n] bytes at the address [a], if they are mapped.
    [sys_patience] bounds how often a call can still be interrupted: the loops
    that retry go round as often. *)
Class Kernel (K : Type) : Type := {
  sys_open : K -> bytes -> Z -> (Z + Z) * K;
  sys_close : K -> Z -> (Z + unit) * K;
  sys_read : K -> Z -> Z -> (Z + bytes) * K;
  sys_pread : K -> Z -> Z -> Z -> Z + bytes;
  sys_lseek : K -> Z -> Z -> (Z + Z) * K;
  sys_write : K -> Z -> bytes -> (Z + Z) * K;
  sys_fullfsync : K -> Z -> (Z + unit) * K;
  sys_fsync : K -> Z -> (Z + unit) * K;
  sys_setlk : K -> Z -> bool -> (Z + unit) * K;
  sys_mmap : K -> Z -> Z -> (Z + Z) * K;
  sys_munmap : K -> Z -> Z -> K;
  sys_memory : K -> Z -> Z -> option bytes;
  sys_access : K -> bytes -> bool;
  sys_readdir : K -> bytes -> Z + list bytes;
  sys_unlink : K -> bytes -> (Z + unit) * K;
  sys_mkdir : K -> bytes -> (Z + unit) * K;
  sys_rmdir : K -> bytes -> (Z + unit) * K;
  sys_stat : K -> bytes -> Z + Z;
  sys_rename : K -> bytes -> bytes -> (Z + unit) * K;
  sys_fopen : K -> bytes -> (Z + Z) * K;
  sys_rlimit_nofile : K -> option (option Z);
  strerror : Z -> bytes;
  sys_patience : K -> nat
}.

Definition kWritableFileBufferSize : Z := 65536.
Definition kDefaultMmapLimit : Z := 1000.

(** * Limiter *)

(** The counter is an [int]; both operations are atomic. *)
Definition fetch_sub (a n : Z) : Z * Z := (a, s32 (a - n)).
Definition fetch_add (a n : Z) : Z * Z := (a, s32 (a + n)).

Definition Limiter_Acquire (acquires_allowed : Z) : bool * Z :=
  let '(old_acquires_allowed, acquires_allowed) := fetch_sub acquires_allowed 1 in
  if old_acquires_allowed >? 0 then (true, acquires_allowed)
  else (false, (fetch_add acquires_allowed 1).2).

Definition Limiter_Release (acquires_allowed : Z) : Z := (fetch_add acquires_allowed 1).2.

(** * Names *)

(** [rfind]: the last position of [c]. *)
Fixpoint rfind (c : Z) (l : bytes) : option nat :=
  match l with
  | [] => None
  | x :: l' => match rfind c l' with Some i => Some (S i) | None => if x =? c then Some O else None end
  end.

Definition Dirname (filename : bytes) : bytes :=
  match rfind 47 filename with None => str "." | Some separator_pos => take separator_pos filename end.

Definition Basename (filename : bytes) : bytes :=
  match rfind 47 filename with None => filename | Some separator_pos => drop (separator_pos + 1) filename end.

Definition IsManifest (filename : bytes) : bool := Slice_starts_with (Basename filename) (str "MANIFEST").

Section Posix.
Context {K : Type} {KN : Kernel K}.

Definition PosixError (context : bytes) (error_number : Z) : Status :=
  if error_number =? ENOENT then Status_NotFound context (strerror error_number)
  else Status_IOError context (strerror error_number).

(** * PosixSequentialFile *)
Record PosixSequentialFile : Type := { sf_fd_ : Z; sf_filename_ : bytes }.

(** The loop of [Read]: the buffer at [scratch] receives what is read. *)
Fixpoint seq_read_loop (fuel : nat) (k : K) (f : PosixSequentialFile) (n scratch : Z)
    : option (Status * (Z * bytes) * K) :=
  match fuel with
  | O => None
  | S fuel' =>
      match sys_read k (sf_fd_ f) n with
      | (inl errno, k) =>
          if errno =? EINTR then seq_read_loop fuel' k f n scratch
          else Some (PosixError (sf_filename_ f) errno, (0, []), k)
      | (inr data, k) => Some (Status_OK, (scratch, data), k)
      end
  end.

Definition PosixSequentialFile_Read (k : K) (f : PosixSequentialFile) (n scratch : Z)
    : option (Status * (Z * bytes) * K) :=
  seq_read_loop (S (sys_patience k)) k f n scratch.

Definition PosixSequentialFile_Skip (k : K) (f : PosixSequentialFile) (n : Z) : Status * K :=
  match sys_lseek k (sf_fd_ f) n with
  | (inl errno, k) => (PosixError (sf_filename_ f) errno, k)
  | (inr _, k) => (Status_OK, k)
  end.

Definition PosixSequentialFile_delete (k : K) (f : PosixSequentialFile) : K := (sys_close k (sf_fd_ f)).2.

(** * PosixRandomAccessFile *)
Record PosixRandomAccessFile : Type := { rf_has_permanent_fd_ : bool; rf_fd_ : Z; rf_filename_ : bytes }.

(** The constructor, with the limiter. *)
Definition PosixRandomAccessFile_new (k : K) (limiter : Z) (filename : bytes) (fd : Z)
    : PosixRandomAccessFile * Z * K :=
  let '(permanent, limiter) := Limiter_Acquire limiter in
  ({| rf_has_permanent_fd_ := permanent; rf_fd_ := if permanent then fd else -1; rf_filename_ := filename |},
   limiter, if permanent then k else (sys_close k fd).2).

Definition PosixRandomAccessFile_delete (k : K) (limiter : Z) (f : PosixRandomAccessFile) : Z * K :=
  if rf_has_permanent_fd_ f then (Limiter_Release limiter, (sys_close k (rf_fd_ f)).2) else (limiter, k).

Definition PosixRandomAccessFile_Read (k : K) (f : PosixRandomAccessFile) (offset n : Z) : Status * bytes * K :=
  let opened := if rf_has_permanent_fd_ f then (inr (rf_fd_ f), k) else sys_open k (rf_filename_ f) O_RDONLY in
  match opened with
  | (inl errno, k) => (PosixError (rf_filename_ f) errno, [], k)
  | (inr fd, k) =>
      let '(status, result) :=
        match sys_pread k fd n offset with
        | inl errno => (PosixError (rf_filename_ f) errno, [])
        | inr data => (Status_OK, data)
        end in
      (status, result, if rf_has_permanent_fd_ f then k else (sys_close k fd).2)
  end.

(** * PosixMmapReadableFile *)
Record PosixMmapReadableFile : Type := { mf_base_ : Z; mf_length_ : Z; mf_filename_ : bytes }.

Definition PosixMmapReadableFile_delete (k : K) (limiter : Z) (f : PosixMmapReadableFile) : Z * K :=
  (Limiter_Release limiter, sys_munmap k (mf_base_ f) (mf_length_ f)).

(** The result is a slice of the mapped region: its address and size.  The sum
    is one of unsigned integers of 64 bits. *)
Definition PosixMmapReadableFile_Read (f : PosixMmapReadableFile) (offset n : Z) : Status * (Z * Z) :=
  if u64 (offset + n) >? mf_length_ f then (PosixError (mf_filename_ f) EINVAL, (0, 0))
  else (Status_OK, (u64 (mf_base_ f + offset), n)).

(** * PosixWritableFile *)

(** [wf_buf_] are the first [pos_] bytes of the buffer. *)
Record PosixWritableFile : Type := {
  wf_buf_ : bytes; wf_fd_ : Z; wf_is_manifest_ : bool; wf_filename_ : bytes; wf_dirname_ : bytes }.

Definition PosixWritableFile_new (filename : bytes) (fd : Z) : PosixWritableFile := {|
  wf_buf_ := []; wf_fd_ := fd; wf_is_manifest_ := IsManifest filename; wf_filename_ := filename;
  wf_dirname_ := Dirname filename |}.

Definition wf_with_buf (f : PosixWritableFile) (buf : bytes) : PosixWritableFile := {|
  wf_buf_ := buf; wf_fd_ := wf_fd_ f; wf_is_manifest_ := wf_is_manifest_ f; wf_filename_ := wf_filename_ f;
  wf_dirname_ := wf_dirname_ f |}.

Definition wf_with_fd (f : PosixWritableFile) (fd : Z) : PosixWritableFile := {|
  wf_buf_ := wf_buf_ f; wf_fd_ := fd; wf_is_manifest_ := wf_is_manifest_ f; wf_filename_ := wf_filename_ f;
  wf_dirname_ := wf_dirname_ f |}.

(** The loop of [WriteUnbuffered]. *)
Fixpoint write_loop (fuel : nat) (k : K) (f : PosixWritableFile) (data : bytes) : option (Status * K) :=
  if 0 <? zlen data then
    match fuel with
    | O => None
    | S fuel' =>
        match sys_write k (wf_fd_ f) data with
        | (inl errno, k) =>
            if errno =? EINTR then write_loop fuel' k f data else Some (PosixError (wf_filename_ f) errno, k)
        | (inr write_result, k) => write_loop fuel' k f (drop (Z.to_nat write_result) data)
        end
    end
  else Some (Status_OK, k).

(** Every round writes a byte or is interrupted. *)
Definition WriteUnbuffered (k : K) (f : PosixWritableFile) (data : bytes) : option (Status * K) :=
  write_loop (length data + sys_patience k) k f data.

Definition FlushBuffer (k : K) (f : PosixWritableFile) : option (Status * K * PosixWritableFile) :=
  '(status, k) ← WriteUnbuffered k f (wf_buf_ f);
  Some (status, k, wf_with_buf f []).

Definition PosixWritableFile_Append (k : K) (f : PosixWritableFile) (data : bytes)
    : option (Status * K * PosixWritableFile) :=
  let write_size := zlen data in
  let copy_size := Z.min write_size (kWritableFileBufferSize - zlen (wf_buf_ f)) in
  let f := wf_with_buf f (wf_buf_ f ++ take (Z.to_nat copy_size) data) in
  let write_data := drop (Z.to_nat copy_size) data in
  let write_size := write_size - copy_size in
  if write_size =? 0 then Some (Status_OK, k, f)
  else
    '(status, k, f) ← FlushBuffer k f;
    if negb (Status_ok status) then Some (status, k, f)
    else if write_size <? kWritableFileBufferSize then Some (Status_OK, k, wf_with_buf f write_data)
    else '(status, k) ← WriteUnbuffered k f write_data; Some (status, k, f).

Definition PosixWritableFile_Close (k : K) (f : PosixWritableFile) : option (Status * K * PosixWritableFile) :=
  '(status, k, f) ← FlushBuffer k f;
  let '(close_result, k) := sys_close k (wf_fd_ f) in
  let status :=
    match close_result with
    | inl errno => if Status_ok status then PosixError (wf_filename_ f) errno else status
    | inr _ => status
    end in
  Some (status, k, wf_with_fd f (-1)).

Definition PosixWritableFile_Flush (k : K) (f : PosixWritableFile) : option (Status * K * PosixWritableFile) :=
  FlushBuffer k f.

Definition SyncFd (k : K) (fd : Z) (fd_path : bytes) : Status * K :=
  match sys_fullfsync k fd with
  | (inr _, k) => (Status_OK, k)
  | (inl _, k) =>
      match sys_fsync k fd with
      | (inr _, k) => (Status_OK, k)
      | (inl errno, k) => (PosixError fd_path errno, k)
      end
  end.

Definition SyncDirIfManifest (k : K) (f : PosixWritableFile) : Status * K :=
  if negb (wf_is_manifest_ f) then (Status_OK, k)
  else
    match sys_open k (wf_dirname_ f) O_RDONLY with
    | (inl errno, k) => (PosixError (wf_dirname_ f) errno, k)
    | (inr fd, k) => let '(status, k) := SyncFd k fd (wf_dirname_ f) in (status, (sys_close k fd).2)
    end.

Definition PosixWritableFile_Sync (k : K) (f : PosixWritableFile) : option (Status * K * PosixWritableFile) :=
  let '(status, k) := SyncDirIfManifest k f in
  if negb (Status_ok status) then Some (status, k, f)
  else
    '(status, k, f) ← FlushBuffer k f;
    if negb (Status_ok status) then Some (status, k, f)
    else let '(status, k) := SyncFd k (wf_fd_ f) (wf_filename_ f) in Some (status, k, f).

Definition PosixWritableFile_delete (k : K) (f : PosixWritableFile) : option K :=
  if 0 <=? wf_fd_ f then '(_, k, _) ← PosixWritableFile_Close k f; Some k else Some k.

(** * Locks *)
Definition LockOrUnlock (k : K) (fd : Z) (lock : bool) : (Z + unit) * K := sys_setlk k fd lock.

Record PosixFileLock : Type := { fl_fd : Z; fl_filename : bytes }.

(** [locked_files_]. *)
Definition PosixLockTable : Type := gset bytes.

Definition PosixLockTable_Insert (t : PosixLockTable) (fname : bytes) : bool * PosixLockTable :=
  if decide (fname ∈ t) then (false, t) else (true, {[fname]} ∪ t).
Definition PosixLockTable_Remove (t : PosixLockTable) (fname : bytes) : PosixLockTable := t ∖ {[fname]}.

(** * PosixEnv *)

(** A work item is a function of the database and its argument: here a number. *)
Record PosixEnv : Type := {
  started_background_thread_ : bool;
  background_work_queue_ : list Z;
  locks_ : PosixLockTable;
  mmap_limiter_ : Z;
  fd_limiter_ : Z
}.

(** The globals that tests set. *)
Record PosixGlobals : Type := { g_open_read_only_file_limit : Z; g_mmap_limit : Z }.
Definition globals_default : PosixGlobals := {| g_open_read_only_file_limit := -1; g_mmap_limit := kDefaultMmapLimit |}.

(** [EnvPosixTestHelper]. *)
Definition SetReadOnlyFDLimit (g : PosixGlobals) (limit : Z) : PosixGlobals :=
  {| g_open_read_only_file_limit := limit; g_mmap_limit := g_mmap_limit g |}.
Definition SetReadOnlyMMapLimit (g : PosixGlobals) (limit : Z) : PosixGlobals :=
  {| g_open_read_only_file_limit := g_open_read_only_file_limit g; g_mmap_limit := limit |}.

Definition MaxMmaps (g : PosixGlobals) : Z := g_mmap_limit g.

Definition MaxOpenFiles (k : K) (g : PosixGlobals) : Z * PosixGlobals :=
  if g_open_read_only_file_limit g >=? 0 then (g_open_read_only_file_limit g, g)
  else
    let limit :=
      match sys_rlimit_nofile k with
      | None => 50
      | Some None => 2 ^ 31 - 1
      | Some (Some rlim_cur) => s32 (rlim_cur / 5)
      end in
    (limit, {| g_open_read_only_file_limit := limit; g_mmap_limit := g_mmap_limit g |}).

Definition PosixEnv_new (k : K) (g : PosixGlobals) : PosixEnv * PosixGlobals :=
  let '(files, g') := MaxOpenFiles k g in
  ({| started_background_thread_ := false; background_work_queue_ := []; locks_ := ∅;
      mmap_limiter_ := MaxMmaps g; fd_limiter_ := files |}, g').

Definition env_with_limiters (e : PosixEnv) (mmaps files : Z) : PosixEnv := {|
  started_background_thread_ := started_background_thread_ e; background_work_queue_ := background_work_queue_ e;
  locks_ := locks_ e; mmap_limiter_ := mmaps; fd_limiter_ := files |}.

Definition env_with_locks (e : PosixEnv) (t : PosixLockTable) : PosixEnv := {|
  started_background_thread_ := started_background_thread_ e; background_work_queue_ := background_work_queue_ e;
  locks_ := t; mmap_limiter_ := mmap_limiter_ e; fd_limiter_ := fd_limiter_ e |}.

Definition env_with_work (e : PosixEnv) (started : bool) (queue : list Z) : PosixEnv := {|
  started_background_thread_ := started; background_work_queue_ := queue;
  locks_ := locks_ e; mmap_limiter_ := mmap_limiter_ e; fd_limiter_ := fd_limiter_ e |}.

Definition Posix_NewSequentialFile (k : K) (filename : bytes) : Status * option PosixSequentialFile * K :=
  match sys_open k filename O_RDONLY with
  | (inl errno, k) => (PosixError filename errno, None, k)
  | (inr fd, k) => (Status_OK, Some {| sf_fd_ := fd; sf_filename_ := filename |}, k)
  end.

Definition Posix_GetFileSize (k : K) (filename : bytes) : Status * Z :=
  match sys_stat k filename with
  | inl errno => (PosixError filename errno, 0)
  | inr st_size => (Status_OK, u64 st_size)
  end.

(** The two kinds of files that are read anywhere. *)
Definition Posix_NewRandomAccessFile (k : K) (e : PosixEnv) (filename : bytes)
    : Status * option (PosixMmapReadableFile + PosixRandomAccessFile) * K * PosixEnv :=
  match sys_open k filename O_RDONLY with
  | (inl errno, k) => (PosixError filename errno, None, k, e)
  | (inr fd, k) =>
      let '(acquired, mmaps) := Limiter_Acquire (mmap_limiter_ e) in
      if negb acquired then
        let '(f, files, k) := PosixRandomAccessFile_new k (fd_limiter_ e) filename fd in
        (Status_OK, Some (inr f), k, env_with_limiters e mmaps files)
      else
        let '(status, file_size) := Posix_GetFileSize k filename in
        let '(status, result, k) :=
          if Status_ok status then
            match sys_mmap k file_size fd with
            | (inr mmap_base, k) =>
                (status, Some (inl {| mf_base_ := mmap_base; mf_length_ := file_size; mf_filename_ := filename |}), k)
            | (inl errno, k) => (PosixError filename errno, None, k)
            end
          else (status, None, k) in
        let k := (sys_close k fd).2 in
        let mmaps := if negb (Status_ok status) then Limiter_Release mmaps else mmaps in
        (status, result, k, env_with_limiters e mmaps (fd_limiter_ e))
  end.

Definition Posix_NewWritableFile (k : K) (filename : bytes) : Status * option PosixWritableFile * K :=
  match sys_open k filename (O_TRUNC ||| O_WRONLY ||| O_CREAT) with
  | (inl errno, k) => (PosixError filename errno, None, k)
  | (inr fd, k) => (Status_OK, Some (PosixWritableFile_new filename fd), k)
  end.

Definition Posix_NewAppendableFile (k : K) (filename : bytes) : Status * option PosixWritableFile * K :=
  match sys_open k filename (O_APPEND ||| O_WRONLY ||| O_CREAT) with
  | (inl errno, k) => (PosixError filename errno, None, k)
  | (inr fd, k) => (Status_OK, Some (PosixWritableFile_new filename fd), k)
  end.

Definition Posix_FileExists (k : K) (filename : bytes) : bool := sys_access k filename.

Definition Posix_GetChildren (k : K) (directory_path : bytes) : Status * list bytes :=
  match sys_readdir k directory_path with
  | inl errno => (PosixError directory_path errno, [])
  | inr names => (Status_OK, names)
  end.

(** What the operations that return a status alone have in common. *)
Definition status_of (context : bytes) (r : (Z + unit) * K) : Status * K :=
  match r with (inl errno, k) => (PosixError context errno, k) | (inr _, k) => (Status_OK, k) end.

Definition Posix_DeleteFile (k : K) (filename : bytes) : Status * K := status_of filename (sys_unlink k filename).
Definition Posix_CreateDir (k : K) (dirname : bytes) : Status * K := status_of dirname (sys_mkdir k dirname).
Definition Posix_DeleteDir (k : K) (dirname : bytes) : Status * K := status_of dirname (sys_rmdir k dirname).
Definition Posix_RenameFile (k : K) (from to : bytes) : Status * K := status_of from (sys_rename k from to).

Definition Posix_LockFile (k : K) (e : PosixEnv) (filename : bytes) : Status * option PosixFileLock * K * PosixEnv :=
  match sys_open k filename (O_RDWR ||| O_CREAT) with
  | (inl errno, k) => (PosixError filename errno, None, k, e)
  | (inr fd, k) =>
      let '(inserted, t) := PosixLockTable_Insert (locks_ e) filename in
      if negb inserted then
        (Status_IOError (str "lock " ++ filename) (str "already held by process"), None, (sys_close k fd).2, e)
      else
        match LockOrUnlock k fd true with
        | (inl lock_errno, k) =>
            (PosixError (str "lock " ++ filename) lock_errno, None, (sys_close k fd).2,
             env_with_locks e (PosixLockTable_Remove t filename))
        | (inr _, k) => (Status_OK, Some {| fl_fd := fd; fl_filename := filename |}, k, env_with_locks e t)
        end
  end.

Definition Posix_UnlockFile (k : K) (e : PosixEnv) (lock : PosixFileLock) : Status * K * PosixEnv :=
  match LockOrUnlock k (fl_fd lock) false with
  | (inl errno, k) => (PosixError (str "unlock " ++ fl_filename lock) errno, k, e)
  | (inr _, k) =>
      (Status_OK, (sys_close k (fl_fd lock)).2, env_with_locks e (PosixLockTable_Remove (locks_ e) (fl_filename lock)))
  end.

(** [gettimeofday] gives seconds and microseconds. *)
Definition Posix_NowMicros (tv_sec tv_usec : Z) : Z := u64 (u64 (u64 tv_sec * 1000000) + u64 tv_usec).

(** The logger is the stream that [fopen] returns. *)
Definition Posix_NewLogger (k : K) (filename : bytes) : Status * option Z * K :=
  match sys_fopen k filename with
  | (inl errno, k) => (PosixError filename errno, None, k)
  | (inr fp, k) => (Status_OK, Some fp, k)
  end.

(** * Background work *)

(** [Schedule] with the mutex held: the new state, whether a thread is started,
    and whether the condition variable is signalled. *)
Definition Posix_Schedule (e : PosixEnv) (work : Z) : PosixEnv * bool * bool :=
  (env_with_work e true (background_work_queue_ e ++ [work]),
   negb (started_background_thread_ e), bool_decide (background_work_queue_ e = [])).

(** The thread, with the mutex held: the next item, or it waits. *)
Definition BackgroundThread_take (e : PosixEnv) : option (Z * PosixEnv) :=
  match background_work_queue_ e with
  | [] => None
  | work :: queue => Some (work, env_with_work e (started_background_thread_ e) queue)
  end.
End Posix.
