(* ===== verification/LdbLogWriter.v ===== *)
(** leveldb: the log writer, [log_format.h], [log_writer.h] and
    [log_writer.cc], over any [WritableFile]. *)
From stdpp Require Import base numbers option strings list.
From S2P Require Import Prelude LdbSlice LdbCoding LdbCrc LdbEnv.
Open Scope Z_scope.
Open Scope c_scope.

(** * log_format.h *)
Definition kZeroType : Z := 0.
Definition kFullType : Z := 1.
Definition kFirstType : Z := 2.
Definition kMiddleType : Z := 3.
Definition kLastType : Z := 4.
Definition kMaxRecordType : Z := kLastType.
Definition kBlockSize : Z := 32768.
Definition kHeaderSize : Z := 4 + 2 + 1.

(** * Writer *)
Section Writer.
Context {F : Type} `{W : WritableFile F}.

Record Writer : Type := { dest_ : F; block_offset_ : Z; type_crc_ : list Z }.

(** [t] is a local of the loop; its address does not matter. *)
Definition InitTypeCrc : list Z :=
  map (fun i => Value 0 [i]) (seqZ 0 (kMaxRecordType + 1)).

Definition Writer_new (dest : F) : Writer :=
  {| dest_ := dest; block_offset_ := 0; type_crc_ := InitTypeCrc |}.

Definition Writer_new_at (dest : F) (dest_length : Z) : Writer :=
  {| dest_ := dest; block_offset_ := dest_length mod kBlockSize; type_crc_ := InitTypeCrc |}.

(** [data] are the bytes at address [ptr]. *)
Definition EmitPhysicalRecord (w : Writer) (t ptr : Z) (data : bytes) : Status * Writer :=
  let length := zlen data in
  let crc := Extend ptr (nth (Z.to_nat t) (type_crc_ w) 0) data in
  let crc := Mask crc in
  let buf := EncodeFixed32 crc ++ [u8 (length &&& 0xff); u8 (length ≫ 8); u8 t] in
  let '(s, dest) := Append (dest_ w) buf in
  let '(s, dest) :=
    if Status_ok s then
      let '(s, dest) := Append dest data in
      if Status_ok s then Flush dest else (s, dest)
    else (s, dest) in
  (s, {| dest_ := dest; block_offset_ := block_offset_ w + (kHeaderSize + length);
         type_crc_ := type_crc_ w |}).

(** The beginning of a round: to a new block when a header does not fit; the
    result of the append is not looked at. *)
Definition switch_block (w : Writer) : Writer :=
  let leftover := kBlockSize - block_offset_ w in
  if leftover <? kHeaderSize then
    let dest :=
      if leftover >? 0
      then snd (Append (dest_ w) (take (Z.to_nat leftover) [0; 0; 0; 0; 0; 0]))
      else dest_ w in
    {| dest_ := dest; block_offset_ := 0; type_crc_ := type_crc_ w |}
  else w.

Definition record_type (is_begin is_end : bool) : Z :=
  if is_begin && is_end then kFullType
  else if is_begin then kFirstType
  else if is_end then kLastType
  else kMiddleType.

(** The do loop; [ptr] is the address of the bytes [data] that are left. *)
Fixpoint add_record_loop (n : nat) (w : Writer) (ptr : Z) (data : bytes) (is_begin : bool)
    : option (Status * Writer) :=
  match n with
  | O => None
  | S n' =>
      let w := switch_block w in
      let avail := kBlockSize - block_offset_ w - kHeaderSize in
      let left := zlen data in
      let fragment_length := if left <? avail then left else avail in
      let is_end := left =? fragment_length in
      let fragment := take (Z.to_nat fragment_length) data in
      let '(s, w) := EmitPhysicalRecord w (record_type is_begin is_end) ptr fragment in
      let data := drop (Z.to_nat fragment_length) data in
      if Status_ok s && (0 <? zlen data)
      then add_record_loop n' w (ptr + fragment_length) data false
      else Some (s, w)
  end.

(** Every round but one that fills the last seven bytes of a block takes a
    byte or ends the loop. *)
Definition AddRecord (w : Writer) (ptr : Z) (slice : bytes) : option (Status * Writer) :=
  add_record_loop (length slice + 2) w ptr slice true.

(** Records one after the other, up to the first error. *)
Fixpoint AddRecords (w : Writer) (ptr : Z) (records : list bytes) : option (Status * Writer) :=
  match records with
  | [] => Some (Status_OK, w)
  | r :: records' =>
      '(s, w) ← AddRecord w ptr r;
      if Status_ok s then AddRecords w ptr records' else Some (s, w)
  end.
End Writer.

#[global] Arguments Writer F : clear implicits.
