(* ===== verification/LdbLogReader.v ===== *)
(** leveldb: the log reader, [log_reader.h] and [log_reader.cc], over any
    [SequentialFile].

    The reporter is the list of its [Corruption] calls, in order.  A slice
    whose address matters is the pair of the address and the bytes. *)
From stdpp Require Import base numbers option strings list.
From S2P Require Import Prelude LdbSlice LdbCoding LdbCrc LdbEnv LdbLogWriter.
Open Scope Z_scope.
Open Scope c_scope.

Definition kEof : Z := kMaxRecordType + 1.
Definition kBadRecord : Z := kMaxRecordType + 2.

Section Reader.
Context {F : Type} `{SF : SequentialFile F}.

Record Reader : Type := {
  file_ : F;
  reporter_ : option (list (Z * Status));
  checksum_ : bool;
  backing_store_ : Z;
  buffer_ : Z * bytes;
  eof_ : bool;
  last_record_offset_ : Z;
  end_of_buffer_offset_ : Z;
  initial_offset_ : Z;
  resyncing_ : bool
}.

(** [backing_store] is the address of the allocated block. *)
Definition Reader_new (file : F) (reporter : option (list (Z * Status))) (checksum : bool)
    (initial_offset backing_store : Z) : Reader :=
  {| file_ := file; reporter_ := reporter; checksum_ := checksum;
     backing_store_ := backing_store; buffer_ := (0, []); eof_ := false;
     last_record_offset_ := 0; end_of_buffer_offset_ := 0;
     initial_offset_ := initial_offset; resyncing_ := 0 <? initial_offset |}.

Definition set_buffer (r : Reader) (b : Z * bytes) : Reader :=
  {| file_ := file_ r; reporter_ := reporter_ r; checksum_ := checksum_ r;
     backing_store_ := backing_store_ r; buffer_ := b; eof_ := eof_ r;
     last_record_offset_ := last_record_offset_ r;
     end_of_buffer_offset_ := end_of_buffer_offset_ r;
     initial_offset_ := initial_offset_ r; resyncing_ := resyncing_ r |}.

Definition clear_buffer (r : Reader) : Reader := set_buffer r (0, []).

Definition set_reporter (r : Reader) (reports : option (list (Z * Status))) : Reader :=
  {| file_ := file_ r; reporter_ := reports; checksum_ := checksum_ r;
     backing_store_ := backing_store_ r; buffer_ := buffer_ r; eof_ := eof_ r;
     last_record_offset_ := last_record_offset_ r;
     end_of_buffer_offset_ := end_of_buffer_offset_ r;
     initial_offset_ := initial_offset_ r; resyncing_ := resyncing_ r |}.

Definition set_eof (r : Reader) : Reader :=
  {| file_ := file_ r; reporter_ := reporter_ r; checksum_ := checksum_ r;
     backing_store_ := backing_store_ r; buffer_ := buffer_ r; eof_ := true;
     last_record_offset_ := last_record_offset_ r;
     end_of_buffer_offset_ := end_of_buffer_offset_ r;
     initial_offset_ := initial_offset_ r; resyncing_ := resyncing_ r |}.

(** The file and the offset of the end of the buffer. *)
Definition set_file (r : Reader) (f : F) (end_of_buffer : Z) : Reader :=
  {| file_ := f; reporter_ := reporter_ r; checksum_ := checksum_ r;
     backing_store_ := backing_store_ r; buffer_ := buffer_ r; eof_ := eof_ r;
     last_record_offset_ := last_record_offset_ r;
     end_of_buffer_offset_ := end_of_buffer;
     initial_offset_ := initial_offset_ r; resyncing_ := resyncing_ r |}.

Definition set_last (r : Reader) (offset : Z) : Reader :=
  {| file_ := file_ r; reporter_ := reporter_ r; checksum_ := checksum_ r;
     backing_store_ := backing_store_ r; buffer_ := buffer_ r; eof_ := eof_ r;
     last_record_offset_ := offset;
     end_of_buffer_offset_ := end_of_buffer_offset_ r;
     initial_offset_ := initial_offset_ r; resyncing_ := resyncing_ r |}.

Definition stop_resyncing (r : Reader) : Reader :=
  {| file_ := file_ r; reporter_ := reporter_ r; checksum_ := checksum_ r;
     backing_store_ := backing_store_ r; buffer_ := buffer_ r; eof_ := eof_ r;
     last_record_offset_ := last_record_offset_ r;
     end_of_buffer_offset_ := end_of_buffer_offset_ r;
     initial_offset_ := initial_offset_ r; resyncing_ := false |}.

Definition buffer_size (r : Reader) : Z := zlen (snd (buffer_ r)).

Definition LastRecordOffset (r : Reader) : Z := last_record_offset_ r.

Definition ReportDrop (r : Reader) (nbytes : Z) (reason : Status) : Reader :=
  match reporter_ r with
  | Some reports =>
      if initial_offset_ r <=? u64 (end_of_buffer_offset_ r - buffer_size r - nbytes)
      then set_reporter r (Some (reports ++ [(nbytes, reason)]))
      else r
  | None => r
  end.

Definition ReportCorruption (r : Reader) (nbytes : Z) (reason : bytes) : Reader :=
  ReportDrop r nbytes (Status_Corruption reason []).

Definition SkipToInitialBlock (r : Reader) : bool * Reader :=
  let offset_in_block := initial_offset_ r mod kBlockSize in
  let block_start_location := initial_offset_ r - offset_in_block in
  let block_start_location :=
    if offset_in_block >? kBlockSize - 6 then u64 (block_start_location + kBlockSize)
    else block_start_location in
  let r := set_file r (file_ r) block_start_location in
  if block_start_location >? 0 then
    let '(skip_status, file) := Skip (file_ r) block_start_location in
    let r := set_file r file (end_of_buffer_offset_ r) in
    if Status_ok skip_status then (true, r)
    else (false, ReportDrop r block_start_location skip_status)
  else (true, r).

(** The branch of [ReadPhysicalRecord] that reads a block: true to go round
    the loop, false to return [kEof]. *)
Definition read_block (r : Reader) : bool * Reader :=
  let r := clear_buffer r in
  let '(status, data, file) := Read (file_ r) kBlockSize (backing_store_ r) in
  let r := set_file (set_buffer r data) file (u64 (end_of_buffer_offset_ r + zlen (snd data))) in
  if negb (Status_ok status)
  then (false, set_eof (ReportDrop (clear_buffer r) kBlockSize status))
  else if buffer_size r <? kBlockSize then (true, set_eof r)
  else (true, r).

(** The rest of [ReadPhysicalRecord], with a header in the buffer: the type,
    and the new value of [*result] or the old one. *)
Definition parse_physical (r : Reader) (result : bytes) : option (Z * bytes * Reader) :=
  let '(addr, header) := buffer_ r in
  h4 ← header !! 4%nat;
  h5 ← header !! 5%nat;
  h6 ← header !! 6%nat;
  let a := u32 (s8 h4) &&& 0xff in
  let b := u32 (s8 h5) &&& 0xff in
  let type := u32 (s8 h6) in
  let length := a ||| (b ≪ 8) in
  if kHeaderSize + length >? buffer_size r then
    let drop_size := buffer_size r in
    let r := clear_buffer r in
    if negb (eof_ r)
    then Some (kBadRecord, result, ReportCorruption r drop_size (str "bad record length"))
    else Some (kEof, result, r)
  else if (type =? kZeroType) && (length =? 0) then Some (kBadRecord, result, clear_buffer r)
  else
    crc_word ← DecodeFixed32 header;
    let expected_crc := Unmask crc_word in
    let actual_crc := Value (addr + 6) (take (Z.to_nat (1 + length)) (drop 6 header)) in
    if checksum_ r && negb (actual_crc =? expected_crc) then
      let drop_size := buffer_size r in
      Some (kBadRecord, result,
            ReportCorruption (clear_buffer r) drop_size (str "checksum mismatch"))
    else
      let r := set_buffer r (addr + (kHeaderSize + length),
                             drop (Z.to_nat (kHeaderSize + length)) header) in
      if u64 (end_of_buffer_offset_ r - buffer_size r - kHeaderSize - length) <? initial_offset_ r
      then Some (kBadRecord, [], r)
      else Some (type, take (Z.to_nat length) (drop (Z.to_nat kHeaderSize) header), r).

(** The while loop; it continues only after a read. *)
Fixpoint read_physical_loop (n : nat) (r : Reader) (result : bytes) : option (Z * bytes * Reader) :=
  match n with
  | O => None
  | S n' =>
      if buffer_size r <? kHeaderSize then
        if negb (eof_ r) then
          let '(again, r) := read_block r in
          if again : bool then read_physical_loop n' r result else Some (kEof, result, r)
        else Some (kEof, result, clear_buffer r)
      else parse_physical r result
  end.

(** After a read either the buffer has a header or [eof_] is set. *)
Definition ReadPhysicalRecord (r : Reader) (result : bytes) : option (Z * bytes * Reader) :=
  read_physical_loop 2 r result.

(** What a round of [ReadRecord] leads to: the return of a record, the return
    of false, or another round. *)
Inductive round : Type :=
| Return (record : bytes)
| ReturnFalse
| Again.

(** The locals of [ReadRecord]: [fragment], [*scratch],
    [in_fragmented_record] and [prospective_record_offset]. *)
Record locals : Type := {
  fragment : bytes;
  scratch : bytes;
  in_fragmented_record : bool;
  prospective_record_offset : Z
}.

Definition locals_init : locals :=
  {| fragment := []; scratch := []; in_fragmented_record := false;
     prospective_record_offset := 0 |}.

(** The switch on the type of the physical record. *)
Definition read_switch (r : Reader) (l : locals) (record_type physical_record_offset : Z)
    : round * locals * Reader :=
  let fragment := fragment l in
  if record_type =? kFullType then
    let r := if in_fragmented_record l && negb (zlen (scratch l) =? 0)
             then ReportCorruption r (zlen (scratch l)) (str "partial record without end(1)")
             else r in
    (Return fragment,
     {| fragment := fragment; scratch := []; in_fragmented_record := in_fragmented_record l;
        prospective_record_offset := physical_record_offset |},
     set_last r physical_record_offset)
  else if record_type =? kFirstType then
    let r := if in_fragmented_record l && negb (zlen (scratch l) =? 0)
             then ReportCorruption r (zlen (scratch l)) (str "partial record without end(2)")
             else r in
    (Again,
     {| fragment := fragment; scratch := fragment; in_fragmented_record := true;
        prospective_record_offset := physical_record_offset |}, r)
  else if record_type =? kMiddleType then
    if negb (in_fragmented_record l) then
      (Again, l,
       ReportCorruption r (zlen fragment) (str "missing start of fragmented record(1)"))
    else
      (Again,
       {| fragment := fragment; scratch := scratch l ++ fragment; in_fragmented_record := true;
          prospective_record_offset := prospective_record_offset l |}, r)
  else if record_type =? kLastType then
    if negb (in_fragmented_record l) then
      (Again, l,
       ReportCorruption r (zlen fragment) (str "missing start of fragmented record(2)"))
    else
      (Return (scratch l ++ fragment),
       {| fragment := fragment; scratch := scratch l ++ fragment; in_fragmented_record := true;
          prospective_record_offset := prospective_record_offset l |},
       set_last r (prospective_record_offset l))
  else if record_type =? kEof then
    (ReturnFalse,
     {| fragment := fragment; scratch := if in_fragmented_record l then [] else scratch l;
        in_fragmented_record := in_fragmented_record l;
        prospective_record_offset := prospective_record_offset l |}, r)
  else if record_type =? kBadRecord then
    if in_fragmented_record l then
      (Again,
       {| fragment := fragment; scratch := []; in_fragmented_record := false;
          prospective_record_offset := prospective_record_offset l |},
       ReportCorruption r (zlen (scratch l)) (str "error in middle of record"))
    else (Again, l, r)
  else
    (Again,
     {| fragment := fragment; scratch := []; in_fragmented_record := false;
        prospective_record_offset := prospective_record_offset l |},
     ReportCorruption r
       (zlen fragment + (if in_fragmented_record l then zlen (scratch l) else 0))
       (str "unknown record type " ++ decimal record_type)).

(** A round of the while loop. *)
Definition read_round (r : Reader) (l : locals) : option (round * locals * Reader) :=
  '(record_type, fragment, r) ← ReadPhysicalRecord r (fragment l);
  let l := {| fragment := fragment; scratch := scratch l;
              in_fragmented_record := in_fragmented_record l;
              prospective_record_offset := prospective_record_offset l |} in
  let physical_record_offset :=
    u64 (end_of_buffer_offset_ r - buffer_size r - kHeaderSize - zlen fragment) in
  if resyncing_ r then
    if record_type =? kMiddleType then Some (Again, l, r)
    else if record_type =? kLastType then Some (Again, l, stop_resyncing r)
    else Some (read_switch (stop_resyncing r) l record_type physical_record_offset)
  else Some (read_switch r l record_type physical_record_offset).

(** [*record] where the result is true. *)
Fixpoint read_record_loop (n : nat) (r : Reader) (l : locals) : option (option bytes * Reader) :=
  match n with
  | O => None
  | S n' =>
      '(x, l, r) ← read_round r l;
      match x with
      | Return record => Some (Some record, r)
      | ReturnFalse => Some (None, r)
      | Again => read_record_loop n' r l
      end
  end.

(** [fuel] bounds the number of physical records. *)
Definition ReadRecord (fuel : nat) (r : Reader) : option (option bytes * Reader) :=
  let '(ok, r) :=
    if last_record_offset_ r <? initial_offset_ r then SkipToInitialBlock r else (true, r) in
  if ok : bool then read_record_loop fuel r locals_init else Some (None, r).

(** A client: every record, then the reader at the end. *)
Fixpoint ReadRecords (n fuel : nat) (r : Reader) : option (list bytes * Reader) :=
  match n with
  | O => None
  | S n' =>
      '(record, r) ← ReadRecord fuel r;
      match record with
      | Some record => '(records, r) ← ReadRecords n' fuel r; Some (record :: records, r)
      | None => Some ([], r)
      end
  end.
End Reader.

#[global] Arguments Reader F : clear implicits.

(** The reports made so far. *)
Definition reports {F} (r : Reader F) : list (Z * Status) := default [] (reporter_ r).
