(* ===== verification/LdbLogThms.v ===== *)
(** leveldb: the format of a log file, what the writer leaves in it, and what the
    reader makes of it.

    A position is the number of bytes before it in the file; [log_bytes] is
    the file that holds a list of records. *)
From stdpp Require Import base numbers option strings list.
From S2P Require Import Prelude LdbSlice LdbCoding LdbCrc LdbEnv LdbLogWriter LdbLogReader.
Open Scope Z_scope.

(** * The format *)

(** * The format *)

(** What fills a block in which no header fits. *)
Definition trailer (pos : Z) : bytes :=
  let left := kBlockSize - pos mod kBlockSize in
  if left <? kHeaderSize then replicate (Z.to_nat left) 0 else [].

(** Checksum of type and data, length, type, data. *)
Definition phys (t : Z) (data : bytes) : bytes :=
  EncodeFixed32 (Mask (crc32c 0 (t :: data)))
  ++ [zlen data mod 256; zlen data / 256; t] ++ data.

(** The data that fits in the block of [pos] after a header. *)
Definition block_room (pos : Z) : Z := kBlockSize - pos mod kBlockSize - kHeaderSize.

(** The fragments of a record from [pos] on. *)
Fixpoint frame (n : nat) (pos : Z) (is_begin : bool) (data : bytes) : bytes :=
  match n with
  | O => []
  | S n' =>
      let pad := trailer pos in
      let avail := block_room (pos + zlen pad) in
      if zlen data <=? avail then pad ++ phys (record_type is_begin true) data
      else
        let first := pad ++ phys (record_type is_begin false) (take (Z.to_nat avail) data) in
        first ++ frame n' (pos + zlen first) false (drop (Z.to_nat avail) data)
  end.

Definition log_record (pos : Z) (data : bytes) : bytes := frame (length data + 2) pos true data.

Fixpoint log_bytes (pos : Z) (records : list bytes) : bytes :=
  match records with
  | [] => []
  | r :: records' =>
      let first := log_record pos r in
      first ++ log_bytes (pos + zlen first) records'
  end.

(** ** Arithmetic of blocks *)
Lemma trailer_spec pos :
  0 <= pos ->
  (zlen (trailer pos) = 0 /\ 7 <= kBlockSize - pos mod kBlockSize)
  \/ (zlen (trailer pos) = kBlockSize - pos mod kBlockSize /\ 0 < zlen (trailer pos) < 7
      /\ (pos + zlen (trailer pos)) mod kBlockSize = 0).
Proof.
  intros Hp. unfold trailer, kHeaderSize. change kBlockSize with 32768.
  pose proof (Z.mod_pos_bound pos 32768 ltac:(lia)).
  destruct (Z.ltb_spec (32768 - pos mod 32768) (4 + 2 + 1)); [right|left; simpl; lia].
  rewrite length_replicate. rewrite Z2Nat.id by lia. split_and!; try lia.
  Z.to_euclidean_division_equations; lia.
Qed.

Lemma room_spec pos :
  0 <= pos ->
  0 <= block_room (pos + zlen (trailer pos)) <= 32761
  /\ block_room (pos + zlen (trailer pos))
     = kBlockSize - (pos + zlen (trailer pos)) mod kBlockSize - 7.
Proof.
  intros Hp. unfold block_room, kHeaderSize. pose proof (trailer_spec pos Hp) as Ht.
  change kBlockSize with 32768 in *. split; [|lia].
  pose proof (Z.mod_pos_bound (pos + zlen (trailer pos)) 32768 ltac:(lia)).
  destruct Ht as [[E1 E2]|(E1 & E2 & E3)].
  - rewrite E1, Z.add_0_r in *. lia.
  - rewrite E3. lia.
Qed.

Lemma zlen_phys t data : zlen (phys t data) = 7 + zlen data.
Proof. unfold phys. rewrite !zlen_app. simpl length. lia. Qed.

Lemma phys_bytes t data : is_byte t -> zlen data < 65536 -> Forall is_byte data ->
  Forall is_byte (phys t data).
Proof.
  intros Ht Hl Hd. unfold phys. apply Forall_app. split; [apply EncodeFixed32_bytes|].
  apply Forall_app. split; [|done].
  repeat constructor; unfold in_uint in *; pow2; Z.to_euclidean_division_equations; lia.
Qed.

Lemma record_type_range a b : 1 <= record_type a b <= 4.
Proof. destruct a, b; done. Qed.

Lemma record_type_byte a b : is_byte (record_type a b).
Proof. pose proof (record_type_range a b). unfold in_uint. lia. Qed.

Lemma trailer_bytes pos : Forall is_byte (trailer pos).
Proof. unfold trailer. destruct (_ <? _); [|constructor]. by apply Forall_replicate. Qed.

(** The rounds a record takes: one that fills up the last seven bytes of a
    block takes no data. *)
Definition enough (n : nat) (pos : Z) (data : bytes) : Prop :=
  zlen data + 1 + (if block_room (pos + zlen (trailer pos)) =? 0 then 1 else 0) <= Z.of_nat n.

Lemma enough_record pos data : enough (length data + 2) pos data.
Proof. unfold enough. destruct (_ =? 0); lia. Qed.

Lemma enough_step n pos data (first := trailer pos ++
    phys kFirstType (take (Z.to_nat (block_room (pos + zlen (trailer pos)))) data)) :
  0 <= pos -> enough (S n) pos data -> block_room (pos + zlen (trailer pos)) < zlen data ->
  zlen first = zlen (trailer pos) + 7 + block_room (pos + zlen (trailer pos))
  /\ (pos + zlen first) mod kBlockSize = 0
  /\ enough n (pos + zlen first) (drop (Z.to_nat (block_room (pos + zlen (trailer pos)))) data).
Proof.
  intros Hp Hn Hlt. destruct (room_spec pos Hp) as [Hr Er].
  assert (zlen first = zlen (trailer pos) + 7 + block_room (pos + zlen (trailer pos))) as El.
  { unfold first. rewrite zlen_app, zlen_phys, length_take. lia. }
  assert ((pos + zlen first) mod kBlockSize = 0) as Em.
  { rewrite El, Er. change kBlockSize with 32768 in *. Z.to_euclidean_division_equations; lia. }
  split_and!; [done..|]. unfold enough in *.
  assert (zlen (trailer (pos + zlen first)) = 0) as Et.
  { unfold trailer, kHeaderSize. rewrite Em. done. }
  assert (block_room (pos + zlen first) = 32761) as Ef by (unfold block_room; rewrite Em; done).
  rewrite Et, Z.add_0_r, Ef. cbn [Z.eqb]. rewrite length_drop. destruct (Z.eqb_spec (block_room (pos + zlen (trailer pos))) 0); lia.
Qed.

Lemma frame_bytes n pos b data : 0 <= pos -> Forall is_byte data -> Forall is_byte (frame n pos b data).
Proof.
  revert pos b data. induction n as [|n IH]; intros pos b data Hp Hd; cbn [frame]; [constructor|].
  cbv zeta. destruct (room_spec pos Hp) as [Hr _].
  destruct (Z.leb_spec (zlen data) (block_room (pos + zlen (trailer pos)))).
  - apply Forall_app. split; [apply trailer_bytes|].
    apply phys_bytes; [apply record_type_byte|lia|done].
  - apply Forall_app. split; [apply Forall_app; split; [apply trailer_bytes|]|].
    + apply phys_bytes; [apply record_type_byte| |by apply Forall_take].
      rewrite length_take. lia.
    + apply IH; [lia|by apply Forall_drop].
Qed.

Lemma log_bytes_bytes pos rs :
  0 <= pos -> Forall (Forall is_byte) rs -> Forall is_byte (log_bytes pos rs).
Proof.
  intros Hp Hr. revert pos Hp. induction Hr as [|r rs Hr Hrs IH]; intros pos Hp; cbn [log_bytes].
  - constructor.
  - cbv zeta. apply Forall_app. split; [by apply frame_bytes|]. apply IH. lia.
Qed.

Lemma log_bytes_app pos a b :
  log_bytes pos (a ++ b) = log_bytes pos a ++ log_bytes (pos + zlen (log_bytes pos a)) b.
Proof.
  revert pos. induction a as [|r a IH]; intros pos; cbn [log_bytes app].
  - simpl. by rewrite Z.add_0_r.
  - cbv zeta. rewrite IH, <- app_assoc, zlen_app. by rewrite Z.add_assoc.
Qed.

(** * The writer *)

Lemma InitTypeCrc_at t : 0 <= t <= kMaxRecordType -> nth (Z.to_nat t) InitTypeCrc 0 = crc32c 0 [t].
Proof.
  unfold kMaxRecordType, kLastType. intros Ht.
  assert (t = 0 \/ t = 1 \/ t = 2 \/ t = 3 \/ t = 4) as H by lia.
  by destruct H as [->|[->|[->|[->| ->]]]].
Qed.

(** The bytes of the header and the data. *)
Lemma emitted_phys ptr t data :
  1 <= t <= 4 -> zlen data <= 32761 -> Forall is_byte data ->
  (EncodeFixed32 (Mask (Extend ptr (nth (Z.to_nat t) InitTypeCrc 0) data))
   ++ [u8 (Z.land (zlen data) 0xff); u8 (Z.shiftr (zlen data) 8); u8 t]) ++ data = phys t data.
Proof.
  intros Ht Hl Hd. rewrite InitTypeCrc_at by (unfold kMaxRecordType, kLastType; lia).
  assert (is_byte t) by (unfold in_uint; lia).
  rewrite Extend_crc32c; [|apply crc32c_range; [done|by apply Forall_singleton]|done].
  rewrite <- crc32c_app. unfold phys. rewrite <- app_assoc. do 2 f_equal.
  rewrite land_ff, shiftr_div by lia. change (2 ^ 8) with 256. cbn [app].
  rewrite !u8_small; [done|..]; unfold in_uint; pow2; Z.to_euclidean_division_equations; lia.
Qed.

Section Writer.
Context {F : Type} {W : WritableFile F} {contents : F -> bytes} {idle : F -> bool}
  {WL : WritableFileLaw F contents} {LL : LogFileLaw F idle}.

(** The writer is at position [pos]. *)
Record writer_at (w : Writer F) (pos : Z) : Prop := {
  at_offset : block_offset_ w mod kBlockSize = pos mod kBlockSize;
  at_range : 0 <= block_offset_ w <= kBlockSize;
  at_crc : type_crc_ w = InitTypeCrc
}.

(** An operation that was to append [data] to a file of contents [c] ended
    with [s] and [f]; a record ends with a flush. *)
Definition appended (c data : bytes) (s : Status) (f : F) : Prop :=
  if Status_ok s then idle f = true /\ contents f = c ++ data
  else contents f `prefix_of` c ++ data.

Lemma appended_more c a b s f :
  appended c a s f -> Status_ok s = false -> appended c (a ++ b) s f.
Proof.
  unfold appended. intros H E. rewrite E in *.
  rewrite app_assoc. by apply prefix_app_r.
Qed.

Lemma Append_appended f data :
  let '(s, f') := Append f data in
  if Status_ok s then contents f' = contents f ++ data else contents f' `prefix_of` contents f ++ data.
Proof.
  destruct (Append f data) as [s f'] eqn:E.
  destruct (Status_ok s) eqn:Es; [by apply (Append_ok _ _ _ _ E)|by apply (Append_error _ _ _ _ E)].
Qed.

Lemma Emit_ok w pos t ptr data s w' :
  writer_at w pos -> 1 <= t <= 4 -> Forall is_byte data ->
  0 <= block_offset_ w /\ block_offset_ w + 7 + zlen data <= kBlockSize ->
  EmitPhysicalRecord w t ptr data = (s, w') ->
  writer_at w' (pos + 7 + zlen data) /\ appended (contents (dest_ w)) (phys t data) s (dest_ w').
Proof.
  intros [Ho Hr Hc] Ht Hd Hroom. change kBlockSize with 32768 in *. unfold EmitPhysicalRecord.
  cbv zeta. rewrite Hc. unfold kHeaderSize.
  rewrite <- (emitted_phys ptr) by (done || lia).
  set (buf := EncodeFixed32 _ ++ _).
  pose proof (Append_appended (dest_ w) buf) as H1. destruct (Append (dest_ w) buf) as [s1 f1].
  assert (forall f, writer_at {| dest_ := f; block_offset_ := block_offset_ w + (4 + 2 + 1 + zlen data);
                        type_crc_ := InitTypeCrc |} (pos + 7 + zlen data)) as Hw.
  { intros f. split; cbn [block_offset_ type_crc_]; change kBlockSize with 32768; [|lia|done].
    Z.to_euclidean_division_equations; lia. }
  unfold appended in *. destruct (Status_ok s1) eqn:E1.
  2: { intros [= <- <-]. split; [done|]. rewrite E1. cbn [dest_]. rewrite app_assoc. by apply prefix_app_r. }
  pose proof (Append_appended f1 data) as H2.
  destruct (Append f1 data) as [s2 f2]. rewrite H1, <- app_assoc in H2.
  destruct (Status_ok s2) eqn:E2.
  2: { intros [= <- <-]. split; [done|]. by rewrite E2. }
  destruct (Flush f2) as [s3 f3] eqn:E3.
  intros [= <- <-]. split; [done|]. cbn [dest_]. rewrite <- H2. destruct (Status_ok s3) eqn:Es3.
  - split; [by apply (Flush_idle _ _ _ E3)|by apply (Flush_ok _ _ _ E3)].
  - by apply (Flush_error _ _ _ E3).
Qed.

(** Switching the block appends the trailer: the file was flushed after the last
    record, so that the append succeeds. *)
Lemma switch_block_ok w pos :
  writer_at w pos -> 0 <= pos -> idle (dest_ w) = true ->
  let w' := switch_block w in
  writer_at w' (pos + zlen (trailer pos))
  /\ kBlockSize - block_offset_ w' - kHeaderSize = block_room (pos + zlen (trailer pos))
  /\ 0 <= block_offset_ w'
  /\ contents (dest_ w') = contents (dest_ w) ++ trailer pos.
Proof.
  intros [Ho Hr Hc] Hp Hi. cbv zeta. unfold switch_block. cbv zeta.
  pose proof (trailer_spec pos Hp) as Ht. destruct (room_spec pos Hp) as [_ ->].
  unfold kHeaderSize. change kBlockSize with 32768 in *.
  destruct (Z.ltb_spec (32768 - block_offset_ w) (4 + 2 + 1)) as [Hlt|Hge].
  - destruct (Z.gtb_spec (32768 - block_offset_ w) 0) as [Hgt|Hz]; cbn [dest_ block_offset_].
    + destruct Ht as [[Ht ?]|(Ht & _ & E0)]; [Z.to_euclidean_division_equations; lia|].
      assert (take (Z.to_nat (32768 - block_offset_ w)) [0; 0; 0; 0; 0; 0] = trailer pos) as ->.
      { rewrite Z.mod_small in Ho by lia. unfold trailer, kHeaderSize. change kBlockSize with 32768.
        rewrite <- Ho. rewrite (proj2 (Z.ltb_lt _ _)) by lia.
        assert (block_offset_ w = 32762 \/ block_offset_ w = 32763 \/ block_offset_ w = 32764
          \/ block_offset_ w = 32765 \/ block_offset_ w = 32766 \/ block_offset_ w = 32767) as H by lia.
        by destruct H as [->|[->|[->|[->|[->| ->]]]]]. }
      rewrite E0. pose proof (Append_appended (dest_ w) (trailer pos)) as HA.
      pose proof (Append_idle (dest_ w) (trailer pos) Hi ltac:(rewrite <- Ho, (Z.mod_small (block_offset_ w)) in Ht by lia; lia)) as Hs.
      destruct (Append (dest_ w) (trailer pos)) as [s f]. cbn [fst] in Hs. cbn [snd]. rewrite Hs in HA.
      split_and!; [split; cbn [block_offset_ type_crc_]; change kBlockSize with 32768; [by rewrite E0|lia|done]
        |lia|lia|done].
    + assert (block_offset_ w = 32768) as Eo by lia. rewrite Eo in Ho.
      change (32768 mod 32768) with 0 in Ho.
      assert (trailer pos = []) as Et.
      { apply length_zero_iff_nil. destruct Ht as [[Ht _]|(Ht & ? & _)]; lia. }
      rewrite Et. simpl length. rewrite Z.add_0_r, app_nil_r, <- Ho.
      split_and!; [split; cbn [block_offset_ type_crc_]; change kBlockSize with 32768; [by rewrite <- Ho|lia|done]
        |lia|lia|done].
  - assert (block_offset_ w mod 32768 = block_offset_ w) as Em by (apply Z.mod_small; lia).
    assert (trailer pos = []) as Et.
    { apply length_zero_iff_nil. destruct Ht as [[Ht _]|(Ht & ? & _)]; lia. }
    rewrite Et. simpl length. rewrite Z.add_0_r, app_nil_r, <- Ho.
    split_and!; [by split; change kBlockSize with 32768|lia|lia|done].
Qed.

Lemma add_record_loop_ok n w pos ptr data b :
  writer_at w pos -> 0 <= pos -> Forall is_byte data -> enough n pos data -> idle (dest_ w) = true ->
  exists s w', add_record_loop n w ptr data b = Some (s, w')
    /\ (if Status_ok s then writer_at w' (pos + zlen (frame n pos b data)) else True)
    /\ appended (contents (dest_ w)) (frame n pos b data) s (dest_ w').
Proof.
  revert w pos ptr data b. induction n as [|n IH]; intros w pos ptr data b Hw Hp Hd Hn Hi.
  { unfold enough in Hn. destruct (_ =? 0); lia. }
  cbn [add_record_loop frame]. cbv zeta.
  destruct (switch_block_ok w pos Hw Hp Hi) as (Hw1 & Er & Ho1 & Hs1). rewrite Er.
  destruct (room_spec pos Hp) as [Hroom _]. unfold kHeaderSize in *.
  set (w1 := switch_block w) in *. set (avail := block_room (pos + zlen (trailer pos))) in *.
  set (len := if zlen data <? avail then zlen data else avail).
  assert (len = Z.min (zlen data) avail) as El by (unfold len; destruct (Z.ltb_spec (zlen data) avail); lia).
  assert (zlen (take (Z.to_nat len) data) = len) as Elt by (rewrite length_take; lia).
  destruct (EmitPhysicalRecord w1 (record_type b (zlen data =? len)) ptr (take (Z.to_nat len) data))
    as [s w2] eqn:EE.
  destruct (Emit_ok w1 _ _ _ _ _ _ Hw1 (record_type_range b (zlen data =? len))
              (Forall_take _ _ _ Hd) ltac:(rewrite Elt; lia) EE) as [Hw2 Hc2].
  rewrite Elt in Hw2.
  (* where the first fragment leaves the file, the trailer included *)
  assert (appended (contents (dest_ w))
            (trailer pos ++ phys (record_type b (zlen data =? len)) (take (Z.to_nat len) data))
            s (dest_ w2)) as Hc by (unfold appended in *; by rewrite Hs1, <- app_assoc in Hc2).
  destruct (Z.leb_spec (zlen data) avail) as [Hle|Hgt].
  - assert (len = zlen data) as Elen by lia. rewrite Elen, Z.eqb_refl in *.
    assert (Z.to_nat (zlen data) = length data) as En by lia. rewrite En in *.
    rewrite drop_ge, take_ge in * by lia. change (0 <? zlen []) with false. rewrite andb_false_r.
    exists s, w2. split; [done|]. split; [|done]. rewrite zlen_app, zlen_phys.
    destruct (Status_ok s); [|done]. by rewrite !Z.add_assoc.
  - assert (len = avail) as Elen by lia. rewrite Elen in *.
    rewrite (proj2 (Z.eqb_neq (zlen data) avail)) in * by lia.
    rewrite (proj2 (Z.ltb_lt 0 _)) by (rewrite length_drop; lia). rewrite andb_true_r.
    destruct (Status_ok s) eqn:Es.
    2: { exists s, w2. rewrite Es. split_and!; [done..|]. by apply appended_more. }
    unfold appended in Hc. rewrite Es in Hc. destruct Hc as [F2 C2].
    destruct (enough_step n pos data Hp Hn Hgt) as (Ez & _ & Hn').
    set (first := trailer pos ++ phys (record_type b false) (take (Z.to_nat avail) data)) in *.
    assert (zlen first = zlen (trailer pos) + 7 + avail) as Ez'.
    { unfold first. rewrite zlen_app, zlen_phys. lia. }
    rewrite Ez in Hn'. fold avail in Hn'. rewrite <- Ez' in Hn'.
    destruct (IH w2 (pos + zlen first) (ptr + avail) (drop (Z.to_nat avail) data) false)
      as (s' & w' & -> & Hw' & Hc').
    { rewrite Ez'. by rewrite !Z.add_assoc in *. } { lia. } { by apply Forall_drop. } { done. } { done. }
    exists s', w'. split; [done|]. rewrite C2 in Hc'. split.
    + destruct (Status_ok s'); [|done]. by rewrite zlen_app, Z.add_assoc.
    + unfold appended in *. by rewrite app_assoc.
Qed.

Lemma AddRecord_ok w pos ptr data :
  writer_at w pos -> 0 <= pos -> Forall is_byte data -> idle (dest_ w) = true ->
  exists s w', AddRecord w ptr data = Some (s, w')
    /\ (if Status_ok s then writer_at w' (pos + zlen (log_record pos data)) else True)
    /\ appended (contents (dest_ w)) (log_record pos data) s (dest_ w').
Proof. intros. apply add_record_loop_ok; auto using enough_record. Qed.

Lemma AddRecords_ok rs w pos ptr :
  writer_at w pos -> 0 <= pos -> Forall (Forall is_byte) rs -> idle (dest_ w) = true ->
  exists s w', AddRecords w ptr rs = Some (s, w')
    /\ appended (contents (dest_ w)) (log_bytes pos rs) s (dest_ w').
Proof.
  intros Hw Hp Hr. revert w pos Hw Hp. induction Hr as [|r rs Hr Hrs IH]; intros w pos Hw Hp Hf;
    cbn [AddRecords log_bytes].
  - exists Status_OK, w. split; [done|]. unfold appended. cbn [Status_ok Status_OK]. by rewrite app_nil_r.
  - cbv zeta. destruct (AddRecord_ok w pos ptr r Hw Hp Hr Hf) as (s & w1 & -> & Hw1 & Hc1).
    cbn [mbind option_bind]. destruct (Status_ok s) eqn:Es.
    + unfold appended in Hc1. rewrite Es in Hc1. destruct Hc1 as [F1 C1].
      destruct (IH w1 _ Hw1 ltac:(lia) F1) as (s' & w' & -> & Hc'). exists s', w'. split; [done|].
      rewrite C1 in Hc'. unfold appended in *. by rewrite app_assoc.
    + exists s, w1. split; [done|]. by apply appended_more.
Qed.

Lemma writer_at_new f : writer_at (Writer_new f) 0.
Proof. by split. Qed.

(** Writing goes on where the file ended. *)
Lemma writer_at_new_at f len : 0 <= len -> writer_at (Writer_new_at f len) len.
Proof.
  intros Hl. split; cbn [block_offset_ type_crc_ Writer_new_at]; [|change kBlockSize with 32768|done].
  - by rewrite Z.mod_mod.
  - pose proof (Z.mod_pos_bound len 32768). lia.
Qed.
End Writer.

(** * The reader *)

Section Reader.
Context {F : Type} {SF : SequentialFile F} {unread : F -> bytes} {reliable : F -> bool}
  {SL : SequentialFileLaw F unread reliable}.

(** The reader is at position [pos] of a reliable file, [rest] is what is to
    come; the buffer ends where the block does, or the file. *)
Record reader_at (r : Reader F) (pos : Z) (rest : bytes) (rep : option (list (Z * Status)))
    : Prop := {
  ra_rest : rest = snd (buffer_ r) ++ unread (file_ r);
  ra_reliable : reliable (file_ r) = true;
  ra_initial : initial_offset_ r = 0;
  ra_resync : resyncing_ r = false;
  ra_last : 0 <= last_record_offset_ r;
  ra_end : end_of_buffer_offset_ r = u64 (pos + buffer_size r);
  ra_bytes : Forall is_byte rest;
  ra_block : if eof_ r then unread (file_ r) = [] /\ buffer_size r < kBlockSize - pos mod kBlockSize
             else (pos + buffer_size r) mod kBlockSize = 0 /\ buffer_size r <= kBlockSize;
  ra_reports : reporter_ r = rep
}.

(** ** Up to the next header *)
Lemma read_block_at r pos rest rep :
  reader_at r pos rest rep -> eof_ r = false -> buffer_size r < 7 -> 0 <= pos ->
  exists r', read_block r = (true, r')
    /\ reader_at r' (pos + buffer_size r) (drop (length (snd (buffer_ r))) rest) rep
    /\ snd (buffer_ r') = take (Z.to_nat kBlockSize) (drop (length (snd (buffer_ r))) rest)
    /\ eof_ r' = (zlen (drop (length (snd (buffer_ r))) rest) <? kBlockSize).
Proof.
  intros [E1 E2 E3 E4 E5 E6 E7 E8 E9] He Hb Hp. rewrite He in E8. destruct E8 as [Em _].
  unfold read_block. cbv zeta. cbn [file_ clear_buffer set_buffer backing_store_].
  destruct (Read (file_ r) kBlockSize (backing_store_ r)) as [[s [a d]] f] eqn:ER.
  destruct (Read_reliable _ _ _ _ _ _ _ ER ltac:(done) E2) as (Hs & Hf & Hd & Hu). rewrite Hs. cbn [negb].
  assert (drop (length (snd (buffer_ r))) rest = unread (file_ r)) as Ed by (by rewrite E1, drop_app_length).
  rewrite Ed, <- Hd.
  assert (zlen d = Z.min kBlockSize (zlen (unread (file_ r)))) as Ld.
  { rewrite Hd, length_take. change kBlockSize with 32768. lia. }
  unfold buffer_size at 1. cbn [buffer_ set_file set_buffer snd].
  assert ((zlen d <? kBlockSize) = (zlen (unread (file_ r)) <? kBlockSize)) as Ec.
  { destruct (Z.ltb_spec (zlen d) kBlockSize), (Z.ltb_spec (zlen (unread (file_ r))) kBlockSize); lia. }
  assert (u64 (u64 (pos + buffer_size r) + zlen d) = u64 (pos + buffer_size r + zlen d)) as Eu.
  { unfold u64. by rewrite Zplus_mod_idemp_l. }
  rewrite Ec. destruct (Z.ltb_spec (zlen (unread (file_ r))) kBlockSize) as [Hlt|Hge];
    eexists; (split; [reflexivity|split; [|split; [done|cbn; done]]]).
  - split; cbn [buffer_ file_ initial_offset_ resyncing_ last_record_offset_ end_of_buffer_offset_
      eof_ reporter_ set_eof set_file set_buffer clear_buffer snd]; try done.
    + by rewrite Hu, Hd, take_drop.
    + unfold buffer_size at 2. cbn [buffer_ snd set_eof set_file set_buffer]. by rewrite E6.
    + rewrite <- Ed. by apply Forall_drop.
    + split; [rewrite Hu; apply drop_ge; lia|]. rewrite Em. unfold buffer_size. cbn. lia.
  - split; cbn [buffer_ file_ initial_offset_ resyncing_ last_record_offset_ end_of_buffer_offset_
      eof_ reporter_ set_eof set_file set_buffer clear_buffer snd]; try done.
    + by rewrite Hu, Hd, take_drop.
    + unfold buffer_size at 2. cbn [buffer_ snd set_eof set_file set_buffer]. by rewrite E6.
    + rewrite <- Ed. by apply Forall_drop.
    + rewrite He. unfold buffer_size at 2 3. cbn [buffer_ snd set_file set_buffer].
      split; [|lia]. assert (zlen d = kBlockSize) as -> by lia.
      rewrite Z.add_mod, Em by done. done.
Qed.

(** The buffer and the trailer of the block. *)
Lemma buffer_trailer r pos rest rep :
  reader_at r pos rest rep -> eof_ r = false -> 0 <= pos ->
  if buffer_size r <? 7 then zlen (trailer pos) = buffer_size r
  else zlen (trailer pos) = 0 /\ buffer_size r = kBlockSize - pos mod kBlockSize.
Proof.
  intros Ha He Hp. pose proof (ra_block _ _ _ _ Ha) as Hb. rewrite He in Hb. destruct Hb as [Em Hle].
  pose proof (trailer_spec pos Hp) as Ht. unfold buffer_size in *. change kBlockSize with 32768 in *.
  destruct (Z.ltb_spec (zlen (snd (buffer_ r))) 7); Z.to_euclidean_division_equations; lia.
Qed.

(** With enough bytes to come, a header is parsed, after the trailer. *)
Lemma ReadPhysical_header r pos rest rep result :
  reader_at r pos rest rep -> 0 <= pos -> zlen (trailer pos) + 7 <= zlen rest ->
  exists r', ReadPhysicalRecord r result = parse_physical r' result
    /\ reader_at r' (pos + zlen (trailer pos)) (drop (length (trailer pos)) rest) rep
    /\ 7 <= buffer_size r'.
Proof.
  intros Ha Hp Hl. unfold ReadPhysicalRecord. cbn [read_physical_loop].
  change kHeaderSize with 7.
  destruct (eof_ r) eqn:He.
  - pose proof (ra_block _ _ _ _ Ha) as Hb. rewrite He in Hb. destruct Hb as [Eu Hb].
    pose proof (ra_rest _ _ _ _ Ha) as Er. rewrite Eu, app_nil_r in Er.
    assert (buffer_size r = zlen rest) as Es by (unfold buffer_size; by rewrite <- Er).
    rewrite (proj2 (Z.ltb_ge _ _)) by lia.
    destruct (trailer_spec pos Hp) as [[Ht _]|(Ht & ? & _)]; [|lia].
    assert (trailer pos = []) as Et by (apply length_zero_iff_nil; lia).
    rewrite Et in *. exists r. rewrite Z.add_0_r. split_and!; [done..|lia].
  - pose proof (buffer_trailer _ _ _ _ Ha He Hp) as Hb.
    destruct (Z.ltb_spec (buffer_size r) 7) as [Hlt|Hge].
    + cbn [negb]. destruct (read_block_at _ _ _ _ Ha He Hlt Hp) as (r' & -> & Ha' & Eb & Ee).
      assert (length (snd (buffer_ r)) = length (trailer pos)) as El by (unfold buffer_size in Hb; lia).
      rewrite El in *.
      assert (7 <= buffer_size r') as H7.
      { unfold buffer_size. rewrite Eb, length_take, length_drop. change kBlockSize with 32768. lia. }
      rewrite (proj2 (Z.ltb_ge _ _)) by lia. exists r'. split; [done|].
      split; [|done]. by rewrite <- Hb in Ha'.
    + destruct Hb as [Ht _]. assert (trailer pos = []) as Et by (apply length_zero_iff_nil; lia).
      rewrite Et in *. exists r. rewrite Z.add_0_r. by split_and!.
Qed.

(** With fewer, it is the end of the file. *)
Lemma ReadPhysical_end r pos rest rep result :
  reader_at r pos rest rep -> 0 <= pos -> zlen rest < zlen (trailer pos) + 7 ->
  exists r', ReadPhysicalRecord r result = Some (kEof, result, r')
    /\ reporter_ r' = rep /\ resyncing_ r' = false.
Proof.
  intros Ha Hp Hl. unfold ReadPhysicalRecord. cbn [read_physical_loop].
  change kHeaderSize with 7. pose proof (ra_reports _ _ _ _ Ha). pose proof (ra_resync _ _ _ _ Ha).
  destruct (eof_ r) eqn:He.
  - pose proof (ra_block _ _ _ _ Ha) as Hb. rewrite He in Hb. destruct Hb as [Eu Hb].
    pose proof (ra_rest _ _ _ _ Ha) as Er. rewrite Eu, app_nil_r in Er.
    assert (buffer_size r = zlen rest) as Es by (unfold buffer_size; by rewrite <- Er).
    rewrite (proj2 (Z.ltb_lt _ _)).
    2: { destruct (trailer_spec pos Hp) as [[Ht _]|(Ht & ? & _)]; lia. }
    cbn [negb]. eexists. by split_and!.
  - pose proof (buffer_trailer _ _ _ _ Ha He Hp) as Hb.
    assert (buffer_size r <= zlen rest) as Hle.
    { rewrite (ra_rest _ _ _ _ Ha), zlen_app. unfold buffer_size. lia. }
    destruct (Z.ltb_spec (buffer_size r) 7) as [Hlt|Hge]; [|lia].
    cbn [negb]. destruct (read_block_at _ _ _ _ Ha He Hlt Hp) as (r' & -> & Ha' & Eb & Ee).
    assert (zlen (drop (length (snd (buffer_ r))) rest) < 7) as Hd.
    { rewrite length_drop. unfold buffer_size in *. lia. }
    assert (buffer_size r' < 7) as H7.
    { unfold buffer_size. rewrite Eb, length_take. lia. }
    rewrite (proj2 (Z.ltb_lt _ _)) by lia.
    rewrite Ee. change kBlockSize with 32768. rewrite (proj2 (Z.ltb_lt _ _)) by lia. cbn [negb].
    eexists. split_and!; [done| |]; cbn; [apply Ha'|apply Ha'].
Qed.

(** ** A physical record *)

(** The bytes of the header. *)
Lemma phys_header t data rest (p := phys t data ++ rest) :
  p !! 4%nat = Some (zlen data mod 256) /\ p !! 5%nat = Some (zlen data / 256)
  /\ p !! 6%nat = Some t /\ DecodeFixed32 p = Some (Mask (crc32c 0 (t :: data)))
  /\ drop 6 p = (t :: data) ++ rest /\ drop 7 p = data ++ rest.
Proof.
  assert (p = EncodeFixed32 (Mask (crc32c 0 (t :: data)))
              ++ [zlen data mod 256; zlen data / 256; t] ++ data ++ rest) as ->.
  { unfold p, phys. by rewrite <- !app_assoc. }
  split_and!; try done. apply DecodeFixed32_Encode, Mask_range.
Qed.

(** The length field. *)
Lemma header_length len :
  0 <= len < 65536 ->
  Z.lor (Z.land (u32 (s8 (len mod 256))) 0xff) (Z.shiftl (Z.land (u32 (s8 (len / 256))) 0xff) 8)
  = len.
Proof.
  intros Hl. rewrite !land_ff.
  assert (forall z, u32 (s8 z) mod 256 = z mod 256) as Hs.
  { intros z. unfold u32, s8, sint. change (8 - 1) with 7. pow2.
    Z.to_euclidean_division_equations; lia. }
  rewrite !Hs, Z.mod_mod by lia.
  rewrite (Z.mod_small (len / 256)) by (Z.to_euclidean_division_equations; lia).
  rewrite lor_shiftl_add by (try lia; pow2; apply Z.mod_pos_bound; lia).
  pow2. Z.to_euclidean_division_equations; lia.
Qed.

Lemma header_type t : 0 <= t < 128 -> u32 (s8 t) = t.
Proof. intros. cint. Qed.

(** The buffer holds all that is to come up to the end of the block. *)
Lemma buffer_holds r pos rest rep n :
  reader_at r pos rest rep -> 0 <= pos -> 7 <= buffer_size r ->
  0 <= n <= kBlockSize - pos mod kBlockSize ->
  (n <= zlen rest <-> n <= buffer_size r) /\ (zlen rest < n -> eof_ r = true /\ snd (buffer_ r) = rest).
Proof.
  intros Ha Hp H7 Hn. pose proof (ra_rest _ _ _ _ Ha) as Er. pose proof (ra_block _ _ _ _ Ha) as Hb.
  unfold buffer_size in *. destruct (eof_ r).
  - destruct Hb as [Eu Hb]. rewrite Eu, app_nil_r in Er. rewrite Er. done.
  - assert (zlen rest = zlen (snd (buffer_ r)) + zlen (unread (file_ r))) as El by (by rewrite Er, zlen_app).
    destruct Hb as [Em Hb]. change kBlockSize with 32768 in *.
    assert (32768 - pos mod 32768 <= zlen (snd (buffer_ r))).
    { Z.to_euclidean_division_equations; lia. }
    split; lia.
Qed.

Lemma parse_physical_at r pos rest rep result t data rest' :
  reader_at r pos rest rep -> 0 <= pos -> 7 <= buffer_size r ->
  rest = phys t data ++ rest' -> 1 <= t <= 4 -> 7 + zlen data <= kBlockSize - pos mod kBlockSize ->
  exists r', parse_physical r result = Some (t, data, r')
    /\ reader_at r' (pos + 7 + zlen data) rest' rep
    /\ u64 (end_of_buffer_offset_ r' - buffer_size r' - kHeaderSize - zlen data) = u64 pos
    /\ last_record_offset_ r' = last_record_offset_ r.
Proof.
  intros Ha Hp H7 Er Ht Hl. pose proof Ha as [E1 E2 E3 E4 E5 E6 E7 E8 E9].
  assert (zlen rest = 7 + zlen data + zlen rest') as Elr by (rewrite Er, zlen_app, zlen_phys; lia).
  destruct (buffer_holds _ _ _ _ (7 + zlen data) Ha Hp H7) as [[Hin _] _]; [lia|].
  specialize (Hin ltac:(lia)). unfold buffer_size in *.
  assert (exists tail, snd (buffer_ r) = phys t data ++ tail /\ rest' = tail ++ unread (file_ r))
    as (tail & Et & Er').
  { rewrite Er in E1. exists (drop (length (phys t data)) (snd (buffer_ r))).
    pose proof (zlen_phys t data) as Lp. split.
    - transitivity (take (length (phys t data)) (snd (buffer_ r)) ++ drop (length (phys t data)) (snd (buffer_ r)));
        [by rewrite take_drop|]. f_equal. apply (f_equal (take (length (phys t data)))) in E1.
      rewrite take_app_length, take_app_le in E1 by lia. done.
    - apply (f_equal (drop (length (phys t data)))) in E1.
      rewrite drop_app_length, drop_app_le in E1 by lia. done. }
  unfold parse_physical. destruct (buffer_ r) as [addr header] eqn:EB. cbn [snd] in *. subst header.
  destruct (phys_header t data tail) as (-> & -> & -> & -> & D6 & D7).
  cbn [mbind option_bind]. cbv zeta. unfold buffer_size. rewrite EB. cbn [snd].
  change kBlockSize with 32768 in *. pose proof (Z.mod_pos_bound pos 32768 ltac:(lia)).
  rewrite header_length, header_type by lia. change kHeaderSize with 7. rewrite D6.
  assert (zlen (phys t data ++ tail) = 7 + zlen data + zlen tail) as Els by (rewrite zlen_app, zlen_phys; lia).
  rewrite Els. destruct (Z.gtb_spec (7 + zlen data) (7 + zlen data + zlen tail)); [lia|].
  change kZeroType with 0. rewrite (proj2 (Z.eqb_neq t 0)) by lia. cbn [andb].
  assert (Forall is_byte (t :: data)) as Hb.
  { rewrite Er in E7. apply Forall_app in E7 as [Hph _]. unfold phys in Hph.
    apply Forall_app in Hph as [_ Hph]. apply Forall_app in Hph as [_ Hph].
    constructor; [unfold in_uint; lia|done]. }
  replace (Z.to_nat (1 + zlen data)) with (length (t :: data)) by (simpl; lia).
  rewrite take_app_length. unfold Value. rewrite Extend_crc32c by done.
  rewrite Unmask_Mask, Z.eqb_refl, andb_false_r by (by apply crc32c_range).
  replace (Z.to_nat (7 + zlen data)) with (length (phys t data)) by (pose proof (zlen_phys t data); lia).
  rewrite drop_app_length. unfold buffer_size. cbn [initial_offset_ end_of_buffer_offset_ buffer_ set_buffer snd].
  rewrite E3. rewrite (proj2 (Z.ltb_ge _ 0)) by (apply u64_range).
  change (Z.to_nat 7) with 7%nat. rewrite D7, Nat2Z.id, take_app_length.
  eexists. split; [done|]. unfold buffer_size. cbn [buffer_ end_of_buffer_offset_ set_buffer snd].
  rewrite Els in E6.
  split_and!; [|rewrite E6; unfold u64; rewrite <- !Z.sub_add_distr, Zminus_mod_idemp_l; f_equal; lia|done].
  split; cbn [buffer_ file_ initial_offset_ resyncing_ last_record_offset_ end_of_buffer_offset_
      eof_ reporter_ set_buffer snd]; try done.
  - unfold buffer_size. cbn [buffer_ set_buffer snd]. rewrite E6. f_equal. lia.
  - rewrite Er in E7. by apply Forall_app in E7 as [_ ?].
  - unfold buffer_size in *. cbn [buffer_ set_buffer snd] in *. rewrite Els in E8.
    change kBlockSize with 32768. destruct (eof_ r).
    + destruct E8 as [-> E8]. split; [done|]. Z.to_euclidean_division_equations; lia.
    + destruct E8 as [E8 ?]. split; [|lia]. rewrite <- E8. f_equal. lia.
Qed.

(** A part of a physical record is the end of the file. *)
Lemma parse_physical_part r pos rest rep result t data more :
  reader_at r pos rest rep -> 0 <= pos -> 7 <= buffer_size r ->
  rest ++ more = phys t data -> zlen rest < 7 + zlen data ->
  7 + zlen data <= kBlockSize - pos mod kBlockSize ->
  exists r', parse_physical r result = Some (kEof, result, r')
    /\ reporter_ r' = rep /\ resyncing_ r' = false.
Proof.
  intros Ha Hp H7 Er Hlt Hl.
  destruct (buffer_holds _ _ _ _ (7 + zlen data) Ha Hp H7) as [_ Heof]; [lia|].
  destruct (Heof Hlt) as [He Eb]. unfold parse_physical, buffer_size in *.
  destruct (buffer_ r) as [addr header] eqn:EB. cbn [snd] in *. subst header.
  destruct (phys_header t data []) as (H4 & H5 & H6 & _). rewrite app_nil_r, <- Er in H4, H5, H6.
  rewrite lookup_app_l in H4, H5, H6 by lia. rewrite H4, H5, H6. cbn [mbind option_bind]. cbv zeta.
  change kBlockSize with 32768 in *. pose proof (Z.mod_pos_bound pos 32768 ltac:(lia)).
  rewrite header_length by lia. unfold buffer_size. rewrite ?EB. cbn [snd]. change kHeaderSize with 7.
  destruct (Z.gtb_spec (7 + zlen data) (zlen rest)); [|lia]. cbn [eof_ clear_buffer set_buffer].
  rewrite He. cbn [negb]. eexists. split_and!; [done| |]; cbn; apply Ha.
Qed.

(** ** A record *)

(** A round on a whole physical record. *)
Lemma read_round_at r pos rest rep l t data rest' :
  reader_at r pos rest rep -> 0 <= pos ->
  rest = (trailer pos ++ phys t data) ++ rest' -> 1 <= t <= 4 ->
  zlen data <= block_room (pos + zlen (trailer pos)) ->
  exists r', reader_at r' (pos + zlen (trailer pos) + 7 + zlen data) rest' rep
    /\ read_round r l
       = Some (read_switch r' {| fragment := data; scratch := scratch l;
                                 in_fragmented_record := in_fragmented_record l;
                                 prospective_record_offset := prospective_record_offset l |}
                 t (u64 (pos + zlen (trailer pos)))).
Proof.
  intros Ha Hp Er Ht Hl. destruct (room_spec pos Hp) as [Hr Er0].
  assert (zlen rest = zlen (trailer pos) + 7 + zlen data + zlen rest') as Elr.
  { rewrite Er, !zlen_app, zlen_phys. lia. }
  destruct (ReadPhysical_header r pos rest rep (fragment l) Ha Hp) as (r1 & E1 & Ha1 & H7); [lia|].
  rewrite Er, <- app_assoc, drop_app_length in Ha1.
  destruct (parse_physical_at _ _ _ _ (fragment l) _ _ _ Ha1 ltac:(lia) H7 eq_refl Ht ltac:(lia))
    as (r2 & E2 & Ha2 & Eo & _).
  exists r2. split; [done|]. unfold read_round. rewrite E1, E2. cbn [mbind option_bind].
  by rewrite (ra_resync _ _ _ _ Ha2), Eo.
Qed.

(** A round at the end, or in the middle of a physical record. *)
Lemma read_round_part r pos rest rep l t data more :
  reader_at r pos rest rep -> 0 <= pos ->
  rest ++ more = trailer pos ++ phys t data -> more <> [] ->
  zlen data <= block_room (pos + zlen (trailer pos)) ->
  exists l' r', read_round r l = Some (ReturnFalse, l', r') /\ reporter_ r' = rep.
Proof.
  intros Ha Hp Er Hm Hl. destruct (room_spec pos Hp) as [Hr Er0].
  assert (zlen rest < zlen (trailer pos) + 7 + zlen data) as Elr.
  { assert (zlen rest + zlen more = zlen (trailer pos) + 7 + zlen data) as E.
    { rewrite <- zlen_app, Er, zlen_app, zlen_phys. lia. }
    destruct more; [done|]. rewrite zlen_cons in E. lia. }
  assert (exists r', ReadPhysicalRecord r (fragment l) = Some (kEof, fragment l, r')
            /\ reporter_ r' = rep /\ resyncing_ r' = false) as (r' & E & Hrep & Hres).
  { destruct (Z.lt_ge_cases (zlen rest) (zlen (trailer pos) + 7)) as [Hs|Hge].
    - by apply (ReadPhysical_end r pos rest rep).
    - destruct (ReadPhysical_header r pos rest rep (fragment l) Ha Hp Hge) as (r1 & E1 & Ha1 & H7).
      rewrite E1. apply (parse_physical_part r1 _ _ rep _ t data more Ha1); [lia|done| | |lia].
      + apply (f_equal (drop (length (trailer pos)))) in Er.
        rewrite drop_app_length, drop_app_le in Er by lia. exact Er.
      + rewrite length_drop. lia. }
  unfold read_round. rewrite E. cbn [mbind option_bind]. rewrite Hres.
  eexists _, _. split; [unfold read_switch; reflexivity|done].
Qed.

Lemma read_switch_first (r : Reader F) l b data o :
  in_fragmented_record l = negb b -> (b = true -> scratch l = []) -> fragment l = data ->
  read_switch r l (record_type b false) o
  = (Again, {| fragment := data; scratch := scratch l ++ data; in_fragmented_record := true;
               prospective_record_offset := if b then o else prospective_record_offset l |}, r).
Proof.
  intros Hf Hs <-. unfold read_switch. destruct b; cbn [negb] in Hf; rewrite Hf; cbn.
  - by rewrite Hs.
  - done.
Qed.

Lemma read_switch_last (r : Reader F) l b data o :
  in_fragmented_record l = negb b -> (b = true -> scratch l = []) -> fragment l = data ->
  exists l', read_switch r l (record_type b true) o
  = (Return (scratch l ++ data), l', set_last r (if b then o else prospective_record_offset l)).
Proof.
  intros Hf Hs <-. unfold read_switch. destruct b; cbn [negb] in Hf; rewrite Hf; cbn.
  - rewrite Hs by done. by eexists.
  - by eexists.
Qed.

Lemma reader_at_set_last r pos rest rep o :
  reader_at r pos rest rep -> 0 <= o -> reader_at (set_last r o) pos rest rep.
Proof. intros [E1 E2 E3 E4 E5 E6 E7 E8 E9] Ho. by split. Qed.

(** The loop returns the record that is to come, and where it starts. *)
Lemma read_record_frame n fuel r pos l b data rest' rep :
  reader_at r pos (frame n pos b data ++ rest') rep -> 0 <= pos -> enough n pos data ->
  (n <= fuel)%nat -> in_fragmented_record l = negb b -> (b = true -> scratch l = []) ->
  0 <= prospective_record_offset l ->
  exists r', read_record_loop fuel r l = Some (Some (scratch l ++ data), r')
    /\ reader_at r' (pos + zlen (frame n pos b data)) rest' rep
    /\ last_record_offset_ r'
       = (if b then u64 (pos + zlen (trailer pos)) else prospective_record_offset l).
Proof.
  revert fuel r pos l b data. induction n as [|n IH];
    intros fuel r pos l b data Ha Hp Hn Hfuel Hf Hs Ho.
  { unfold enough in Hn. destruct (_ =? 0); lia. }
  destruct fuel as [|fuel]; [lia|]. cbn [read_record_loop]. cbn [frame] in *. cbv zeta in *.
  set (avail := block_room (pos + zlen (trailer pos))) in *.
  destruct (Z.leb_spec (zlen data) avail) as [Hle|Hgt].
  - destruct (read_round_at r pos _ rep l _ data rest' Ha Hp eq_refl) as (r' & Ha' & ->);
      [apply record_type_range|done|]. cbn [mbind option_bind].
    edestruct (read_switch_last r' {| fragment := data; scratch := scratch l;
      in_fragmented_record := in_fragmented_record l;
      prospective_record_offset := prospective_record_offset l |} b data) as (l' & ->); [done..|].
    eexists. split; [done|]. split; [|by destruct b].
    rewrite zlen_app, zlen_phys, !Z.add_assoc. apply reader_at_set_last; [done|].
    destruct b; [apply u64_range|done].
  - destruct (room_spec pos Hp) as [Hroom _]. fold avail in Hroom.
    set (d1 := take (Z.to_nat avail) data) in *. set (d2 := drop (Z.to_nat avail) data) in *.
    assert (zlen d1 = avail) as Ed by (unfold d1; rewrite length_take; lia).
    set (first := trailer pos ++ phys (record_type b false) d1) in *.
    assert (zlen first = zlen (trailer pos) + 7 + avail) as El.
    { unfold first. rewrite zlen_app, zlen_phys. lia. }
    destruct (enough_step n pos data Hp Hn Hgt) as (Ez & _ & Hn'). rewrite Ez in Hn'.
    fold avail in Hn'. rewrite <- El in Hn'. fold d2 in Hn'.
    rewrite <- app_assoc in Ha.
    destruct (read_round_at r pos _ rep l _ d1 _ Ha Hp eq_refl) as (r' & Ha' & ->);
      [apply record_type_range|by rewrite Ed|]. cbn [mbind option_bind].
    rewrite (read_switch_first _ _ b d1) by done. cbn [scratch prospective_record_offset].
    rewrite Ed in Ha'. replace (pos + zlen (trailer pos) + 7 + avail) with (pos + zlen first) in Ha' by lia.
    edestruct (IH fuel r' (pos + zlen first)
      {| fragment := d1; scratch := scratch l ++ d1; in_fragmented_record := true;
         prospective_record_offset := if b then u64 (pos + zlen (trailer pos))
                                      else prospective_record_offset l |} false d2)
      as (r2 & E2 & Ha2 & Hlast); [|lia|done|lia|done|done| |].
    { exact Ha'. }
    { cbn. destruct b; [apply u64_range|done]. }
    exists r2. rewrite E2. cbn [scratch]. rewrite <- app_assoc. unfold d1, d2. rewrite take_drop.
    split; [done|]. split; [by rewrite zlen_app, Z.add_assoc|done].
Qed.

(** A part of a record is not returned, and nothing is reported. *)
Lemma read_record_part n fuel r pos l b data rest more rep :
  reader_at r pos rest rep -> 0 <= pos -> enough n pos data -> (n <= fuel)%nat ->
  rest ++ more = frame n pos b data -> more <> [] ->
  in_fragmented_record l = negb b -> (b = true -> scratch l = []) ->
  exists r', read_record_loop fuel r l = Some (None, r') /\ reporter_ r' = rep.
Proof.
  revert fuel r pos l b data rest. induction n as [|n IH];
    intros fuel r pos l b data rest Ha Hp Hn Hfuel Er Hm Hf Hs.
  { unfold enough in Hn. destruct (_ =? 0); lia. }
  destruct fuel as [|fuel]; [lia|]. cbn [read_record_loop]. cbn [frame] in Er. cbv zeta in Er.
  set (avail := block_room (pos + zlen (trailer pos))) in *.
  destruct (Z.leb_spec (zlen data) avail) as [Hle|Hgt].
  { destruct (read_round_part r pos rest rep l _ _ _ Ha Hp Er Hm Hle) as (l' & r' & -> & Hrep).
    cbn [mbind option_bind]. by exists r'. }
  destruct (room_spec pos Hp) as [Hroom _]. fold avail in Hroom.
  set (d1 := take (Z.to_nat avail) data) in *. set (d2 := drop (Z.to_nat avail) data) in *.
  assert (zlen d1 = avail) as Ed by (unfold d1; rewrite length_take; lia).
  set (first := trailer pos ++ phys (record_type b false) d1) in *.
  destruct (Nat.lt_ge_cases (length rest) (length first)) as [Hlt|Hge].
  - assert (rest ++ drop (length rest) first = first) as Ef.
    { apply (f_equal (take (length first))) in Er. rewrite take_app_length in Er.
      rewrite <- (take_drop (length rest) first) at 2. f_equal.
      rewrite <- Er, take_take. rewrite Nat.min_l by lia. by rewrite take_app_length. }
    destruct (read_round_part r pos rest rep l _ _ _ Ha Hp Ef) as (l' & r' & -> & Hrep).
    + intros E. apply (f_equal length) in E. rewrite length_drop in E. simpl in E. lia.
    + by rewrite Ed.
    + cbn [mbind option_bind]. by exists r'.
  - assert (exists rest', rest = first ++ rest' /\ rest' ++ more
              = frame n (pos + zlen first) false d2) as (rest' & E1 & E2).
    { exists (drop (length first) rest). split.
      - apply (f_equal (take (length first))) in Er. rewrite take_app_length, take_app_le in Er by lia.
        rewrite <- (take_drop (length first) rest) at 1. by rewrite Er.
      - apply (f_equal (drop (length first))) in Er. by rewrite drop_app_length, drop_app_le in Er by lia. }
    assert (zlen first = zlen (trailer pos) + 7 + avail) as El.
    { unfold first. rewrite zlen_app, zlen_phys. lia. }
    destruct (enough_step n pos data Hp Hn Hgt) as (Ez & _ & Hn'). rewrite Ez in Hn'.
    fold avail in Hn'. rewrite <- El in Hn'. fold d2 in Hn'.
    destruct (read_round_at r pos _ rep l _ d1 _ Ha Hp E1) as (r' & Ha' & ->);
      [apply record_type_range|by rewrite Ed|]. cbn [mbind option_bind].
    rewrite (read_switch_first _ _ b d1) by done.
    eapply (IH fuel r' (pos + zlen first)); [|lia|done|lia|exact E2|done|done|done].
    rewrite Ed in Ha'. by replace (pos + zlen (trailer pos) + 7 + avail) with (pos + zlen first) in Ha' by lia.
Qed.

(** ** A file of records *)
Lemma reader_at_new file reporter checksum store :
  reliable file = true -> Forall is_byte (unread file) ->
  reader_at (Reader_new file reporter checksum 0 store) 0 (unread file) reporter.
Proof. intros Hr Hb. by split. Qed.

Lemma ReadRecord_loop r pos rest rep fuel :
  reader_at r pos rest rep -> ReadRecord fuel r = read_record_loop fuel r locals_init.
Proof.
  intros Ha. unfold ReadRecord. rewrite (ra_initial _ _ _ _ Ha).
  by rewrite (proj2 (Z.ltb_ge _ 0)) by apply Ha.
Qed.

(** Whole records and a part of the next one. *)
Lemma ReadRecords_at rs fuel r pos tail more x rep :
  reader_at r pos (log_bytes pos rs ++ tail) rep -> 0 <= pos ->
  tail ++ more = log_record (pos + zlen (log_bytes pos rs)) x -> more <> [] ->
  Forall (fun d => length d + 2 <= fuel)%nat (rs ++ [x]) ->
  exists r', ReadRecords (S (length rs)) fuel r = Some (rs, r') /\ reporter_ r' = rep.
Proof.
  revert r pos. induction rs as [|d rs IH]; intros r pos Ha Hp Et Hm Hf;
    cbn [app] in Hf; apply Forall_cons in Hf as [Hd Hf]; cbn [ReadRecords length].
  - simpl log_bytes in Et. simpl length in Et. rewrite Z.add_0_r in Et.
    rewrite (ReadRecord_loop _ _ _ _ _ Ha).
    destruct (read_record_part (length x + 2) fuel r pos locals_init true x tail more rep)
      as (r' & -> & Hrep); [done|done|apply enough_record|done|exact Et|done|done|done|].
    cbn [mbind option_bind]. by exists r'.
  - cbn [log_bytes] in Ha, Et. cbv zeta in Ha, Et. rewrite <- app_assoc in Ha.
    rewrite (ReadRecord_loop _ _ _ _ _ Ha).
    destruct (read_record_frame (length d + 2) fuel r pos locals_init true d _ rep Ha Hp)
      as (r' & E & Ha' & _); [apply enough_record|done|done|done|done|].
    rewrite E. cbn [mbind option_bind scratch locals_init app].
    destruct (IH r' (pos + zlen (log_record pos d)) Ha') as (r2 & E2 & Hrep);
      [lia|by rewrite zlen_app, Z.add_assoc in Et|done|done|].
    cbn [ReadRecords] in E2. rewrite E2. cbn [mbind option_bind]. by exists r2.
Qed.

(** ** Any file: the reader returns *)
Definition to_come (r : Reader F) : nat := length (snd (buffer_ r)) + length (unread (file_ r)).

Lemma ReportDrop_frame (r : Reader F) n s :
  to_come (ReportDrop r n s) = to_come r /\ eof_ (ReportDrop r n s) = eof_ r.
Proof. unfold ReportDrop. destruct (reporter_ r); [destruct (_ <=? _)|]; done. Qed.

Lemma parse_physical_total r result :
  7 <= buffer_size r ->
  exists t d r', parse_physical r result = Some (t, d, r') /\ (to_come r' < to_come r)%nat.
Proof.
  intros H7. unfold parse_physical, buffer_size, to_come in *.
  destruct (buffer_ r) as [addr h] eqn:EB. cbn [snd] in *.
  destruct (lookup_lt_is_Some_2 h 4) as [h4 ->]; [lia|].
  destruct (lookup_lt_is_Some_2 h 5) as [h5 ->]; [lia|].
  destruct (lookup_lt_is_Some_2 h 6) as [h6 ->]; [lia|].
  cbn [mbind option_bind]. cbv zeta. set (len := Z.lor _ _).
  assert (0 <= len) as Hlen.
  { unfold len. apply Z.lor_nonneg. split; [apply Z.land_nonneg; lia|].
    apply Z.shiftl_nonneg, Z.land_nonneg. lia. }
  rewrite DecodeFixed32_take by lia. cbn [mbind option_bind]. change kHeaderSize with 7.
  assert (forall n s, to_come (ReportDrop (clear_buffer r) n s) = length (unread (file_ r))) as Hdrop.
  { intros n s. by rewrite (proj1 (ReportDrop_frame _ _ _)). }
  unfold ReportCorruption. fold (to_come r) in *.
  destruct (_ >? _).
  - destruct (negb (eof_ (clear_buffer r))); eexists _, _, _; (split; [done|]).
    + unfold to_come in Hdrop. rewrite Hdrop. lia.
    + cbn. lia.
  - destruct (_ && (_ =? 0)); [eexists _, _, _; split; [done|cbn; lia]|].
    destruct (checksum_ r && _).
    + eexists _, _, _. split; [done|]. unfold to_come in Hdrop. rewrite Hdrop. lia.
    + destruct (_ <? initial_offset_ _); eexists _, _, _; (split; [done|]);
        cbn [buffer_ set_buffer snd file_]; rewrite length_drop; lia.
Qed.

Lemma read_block_total r :
  let '(again, r') := read_block r in
  (to_come r' <= to_come r)%nat
  /\ (again = true -> eof_ r' = true \/ 7 <= buffer_size r').
Proof.
  unfold read_block. cbv zeta. cbn [file_ clear_buffer set_buffer backing_store_].
  destruct (Read (file_ r) kBlockSize (backing_store_ r)) as [[s [a d]] f] eqn:ER.
  destruct (Read_bytes _ _ _ _ _ _ _ ER ltac:(done)) as [_ Hle].
  destruct (negb (Status_ok s)).
  - split; [|done]. unfold to_come. cbn [buffer_ file_ set_eof].
    fold (to_come (ReportDrop (clear_buffer (set_file (set_buffer (clear_buffer r) (a, d)) f
      (u64 (end_of_buffer_offset_ (clear_buffer r) + zlen (snd (a, d)))))) kBlockSize s)).
    rewrite (proj1 (ReportDrop_frame _ _ _)). unfold to_come. cbn. lia.
  - unfold buffer_size at 1. cbn [buffer_ set_file set_buffer snd].
    destruct (Z.ltb_spec (zlen d) kBlockSize) as [|Hge].
    + split; [unfold to_come; cbn; lia|]. by left.
    + split; [unfold to_come; cbn; lia|]. right. unfold buffer_size. cbn.
      change kBlockSize with 32768 in Hge. lia.
Qed.

Lemma ReadPhysicalRecord_total r result :
  exists t d r', ReadPhysicalRecord r result = Some (t, d, r')
    /\ (t = kEof \/ (to_come r' < to_come r)%nat).
Proof.
  unfold ReadPhysicalRecord. cbn [read_physical_loop]. change kHeaderSize with 7.
  destruct (Z.ltb_spec (buffer_size r) 7) as [Hlt|Hge].
  2: { destruct (parse_physical_total r result Hge) as (t & d & r' & -> & Hm). eauto 10. }
  destruct (negb (eof_ r)); [|eauto 10].
  pose proof (read_block_total r) as Hb. destruct (read_block r) as [[|] r1]; [|eauto 10].
  destruct Hb as [Hm Hb]. destruct (Z.ltb_spec (buffer_size r1) 7) as [H1|H1].
  - destruct (Hb eq_refl) as [->|]; [|lia]. cbn [negb]. eauto 10.
  - destruct (parse_physical_total r1 result H1) as (t & d & r' & -> & Hm').
    eexists _, _, _. split; [done|]. right. lia.
Qed.

Lemma read_switch_frame (r : Reader F) l t o :
  let '(x, l', r') := read_switch r l t o in
  to_come r' = to_come r /\ (t = kEof -> x = ReturnFalse).
Proof.
  assert (forall n s, to_come (ReportCorruption r n s) = to_come r) as Hr.
  { intros n s. apply ReportDrop_frame. }
  unfold read_switch. repeat case_match; simplify_eq; split; try done;
    try (by intros ->); try apply Hr.
Qed.

Lemma read_round_total r l :
  exists x l' r', read_round r l = Some (x, l', r')
    /\ (x = Again -> (to_come r' < to_come r)%nat).
Proof.
  unfold read_round. destruct (ReadPhysicalRecord_total r (fragment l)) as (t & d & r1 & -> & Hm).
  cbn [mbind option_bind]. cbv zeta. set (l1 := {| fragment := d |}). set (o := u64 _).
  destruct (resyncing_ r1).
  - destruct (Z.eqb_spec t kMiddleType) as [->|]; [|destruct (Z.eqb_spec t kLastType) as [->|]].
    + eexists _, _, _. split; [done|]. destruct Hm; [done|lia].
    + eexists _, _, _. split; [done|]. destruct Hm; [done|]. unfold to_come in *. cbn. lia.
    + pose proof (read_switch_frame (stop_resyncing r1) l1 t o) as Hs.
      destruct (read_switch _ _ _ _) as [[x l2] r2]. destruct Hs as [Ht He].
      eexists _, _, _. split; [done|]. intros ->. destruct Hm as [->|Hm]; [by specialize (He eq_refl)|].
      rewrite Ht. exact Hm.
  - pose proof (read_switch_frame r1 l1 t o) as Hs.
    destruct (read_switch _ _ _ _) as [[x l2] r2]. destruct Hs as [Ht He].
    eexists _, _, _. split; [done|]. intros ->. destruct Hm as [->|Hm]; [by specialize (He eq_refl)|].
    by rewrite Ht.
Qed.

Lemma read_record_loop_total fuel r l :
  (to_come r < fuel)%nat -> exists x r', read_record_loop fuel r l = Some (x, r').
Proof.
  revert r l. induction fuel as [|fuel IH]; intros r l Hf; [lia|]. cbn [read_record_loop].
  destruct (read_round_total r l) as (x & l' & r' & -> & Hm). cbn [mbind option_bind].
  destruct x; [eauto..|]. apply IH. specialize (Hm eq_refl). lia.
Qed.

Lemma ReadRecord_total fuel r :
  0 <= initial_offset_ r -> (to_come r < fuel)%nat ->
  exists x r', ReadRecord fuel r = Some (x, r').
Proof.
  intros Hi Hf. unfold ReadRecord.
  destruct (_ <? _); [|by apply read_record_loop_total].
  unfold SkipToInitialBlock. cbv zeta.
  generalize (if initial_offset_ r mod kBlockSize >? kBlockSize - 6
              then u64 (initial_offset_ r - initial_offset_ r mod kBlockSize + kBlockSize)
              else initial_offset_ r - initial_offset_ r mod kBlockSize). intros loc.
  destruct (Z.gtb_spec loc 0) as [Hl|]; [|by apply read_record_loop_total].
  destruct (Skip _ loc) as [s f] eqn:ES. apply Skip_bytes in ES; [|lia]. cbn [file_ set_file] in ES.
  destruct (Status_ok s); [|eauto]. apply read_record_loop_total. unfold to_come in *. cbn in *. lia.
Qed.
End Reader.

(** * Properties of the log *)

(** * Prefixes of a file of records *)

(** Whole records, and less than the next one; or all of them. *)
Lemma log_prefix rs pos file :
  0 <= pos -> file `prefix_of` log_bytes pos rs ->
  exists j tail, (j <= length rs)%nat /\ file = log_bytes pos (take j rs) ++ tail
    /\ match rs !! j with
       | Some x => exists more, more <> []
                   /\ tail ++ more = log_record (pos + zlen (log_bytes pos (take j rs))) x
       | None => tail = []
       end.
Proof.
  revert pos file. induction rs as [|d rs IH]; intros pos file Hp [more E]; cbn [log_bytes] in E.
  - symmetry in E. apply app_eq_nil in E as [-> _]. by exists 0%nat, [].
  - cbv zeta in E. set (first := log_record pos d) in *.
    destruct (Nat.lt_ge_cases (length file) (length first)) as [Hlt|Hge].
    + exists 0%nat, file. split_and!; [lia|done|]. cbn [lookup list_lookup take log_bytes length].
      exists (drop (length file) first). split.
      * intros En. apply (f_equal length) in En. rewrite length_drop in En. simpl in En. lia.
      * apply (f_equal (take (length file))) in E.
        rewrite take_app_le, take_app_length in E by lia. rewrite <- E at 1.
        rewrite Z.add_0_r. apply take_drop.
    + destruct (IH (pos + zlen first) (drop (length first) file)) as (j & tail & Hj & Ef & Hx).
      * lia.
      * exists more. apply (f_equal (drop (length first))) in E.
        by rewrite drop_app_length, drop_app_le in E by lia.
      * exists (S j), tail. cbn [length take log_bytes]. cbv zeta. fold first. split; [lia|].
        assert (file = first ++ drop (length first) file) as Efile.
        { rewrite <- (take_drop (length first) file) at 1. f_equal.
          apply (f_equal (take (length first))) in E.
          by rewrite take_app_length, take_app_le in E by lia. }
        split; [by rewrite <- app_assoc, <- Ef|]. cbn [lookup list_lookup].
        destruct (rs !! j); [|done]. by rewrite zlen_app, Z.add_assoc.
Qed.

(** Records that are whole in the file are among those. *)
Lemma log_prefix_whole rs i j tail x more pos :
  (j < i <= length rs)%nat -> rs !! j = Some x -> more <> [] ->
  tail ++ more = log_record (pos + zlen (log_bytes pos (take j rs))) x ->
  zlen (log_bytes pos (take j rs) ++ tail) < zlen (log_bytes pos (take i rs)).
Proof.
  intros Hi Hx Hm Et.
  rewrite <- (take_drop_middle (take i rs) j x) by (by rewrite lookup_take_lt by lia).
  rewrite take_take, Nat.min_l by lia.
  rewrite log_bytes_app, !zlen_app. cbn [log_bytes]. cbv zeta. rewrite zlen_app, <- Et, zlen_app.
  destruct more; [done|]. rewrite zlen_cons. lia.
Qed.

(** Any prefix: whole records, all those that fit, and a part of another one. *)
Lemma log_cut rs fuel file :
  Forall (Forall is_byte) rs -> Forall (fun d => length d + 2 <= fuel)%nat rs -> (2 <= fuel)%nat -> file `prefix_of` log_bytes 0 rs ->
  exists j tail more x, (j <= length rs)%nat /\ file = log_bytes 0 (take j rs) ++ tail /\ Forall is_byte file /\ more <> []
    /\ tail ++ more = log_record (0 + zlen (log_bytes 0 (take j rs))) x
    /\ Forall (fun d => length d + 2 <= fuel)%nat (take j rs ++ [x])
    /\ forall i, (i <= length rs)%nat -> zlen (log_bytes 0 (take i rs)) <= zlen file -> (i <= j)%nat.
Proof.
  intros Hb Hfuel H2 Hpre. pose proof (log_bytes_bytes 0 rs ltac:(lia) Hb) as Hbytes.
  destruct (log_prefix rs 0 file ltac:(lia) Hpre) as (j & tail & Hj & Eg & Hx).
  assert (Forall is_byte file) as Hg.
  { destruct Hpre as [more E]. rewrite E in Hbytes. by apply Forall_app in Hbytes as [? _]. }
  assert (exists more x, more <> [] /\ (length x + 2 <= fuel)%nat
    /\ tail ++ more = log_record (0 + zlen (log_bytes 0 (take j rs))) x) as (more & x & Hm & Hxf & Et).
  { destruct (rs !! j) as [x|] eqn:Ex.
    - destruct Hx as (more & Hm & Et). exists more, x. split_and!; [done| |done].
      by eapply Forall_lookup_1 in Hfuel.
    - subst tail. exists (log_record (0 + zlen (log_bytes 0 (take j rs))) []), [].
      split_and!; [|simpl; lia|done]. intros E. apply (f_equal length) in E.
      unfold log_record in E. cbn [frame length Nat.add] in E. cbv zeta in E.
      destruct (_ <=? _); rewrite !length_app in E; simpl in E; lia. }
  exists j, tail, more, x. split_and!; [done..| |].
  - apply Forall_app. split; [by apply Forall_take|by apply Forall_singleton].
  - intros i Hi Hle. destruct (Nat.le_gt_cases i j) as [|Hgt]; [done|]. exfalso.
    destruct (lookup_lt_is_Some_2 rs j) as [y Ey]; [lia|]. rewrite Ey in Hx.
    destruct Hx as (more' & Hm' & Et'). rewrite Eg in Hle.
    pose proof (log_prefix_whole rs i j tail y more' 0 ltac:(lia) Ey Hm' Et'). lia.
Qed.

(** * What adding records does to the file *)
Section Kept.
Context {F : Type} {W : WritableFile F} (kept : F -> F -> Prop).
Context (kept_refl : forall f, kept f f) (kept_trans : forall f g h, kept f g -> kept g h -> kept f h).
Context (kept_append : forall f data, kept f (Append f data).2) (kept_flush : forall f, kept f (Flush f).2).

Lemma switch_block_kept w : kept (dest_ w) (dest_ (switch_block w)).
Proof. unfold switch_block. cbv zeta. destruct (_ <? _); [|done]. cbn [dest_]. destruct (_ >? _); [apply kept_append|done]. Qed.

Lemma Emit_kept w t ptr data s w' : EmitPhysicalRecord w t ptr data = (s, w') -> kept (dest_ w) (dest_ w').
Proof.
  unfold EmitPhysicalRecord. cbv zeta.
  match goal with |- context [Append (dest_ w) ?b] => pose proof (kept_append (dest_ w) b) as H1; destruct (Append (dest_ w) b) as [s1 f1] end.
  cbn [snd] in H1. destruct (Status_ok s1); [|by intros [= <- <-]].
  pose proof (kept_append f1 data) as H2. destruct (Append f1 data) as [s2 f2]. cbn [snd] in H2.
  destruct (Status_ok s2); [|intros [= <- <-]; by apply (kept_trans _ f1)].
  pose proof (kept_flush f2) as H3. destruct (Flush f2) as [s3 f3]. cbn [snd] in H3. intros [= <- <-]. cbn [dest_].
  apply (kept_trans _ f1); [done|]. by apply (kept_trans _ f2).
Qed.

(** Adding a record keeps what its operations on the file keep. *)
Lemma AddRecord_kept w ptr data s w' : AddRecord w ptr data = Some (s, w') -> kept (dest_ w) (dest_ w').
Proof.
  unfold AddRecord. generalize (length data + 2)%nat, true. intros n. revert w ptr data. induction n as [|n IH]; intros w ptr data b; [done|].
  cbn [add_record_loop]. destruct (EmitPhysicalRecord _ _ _ _) as [s1 w1] eqn:E. apply Emit_kept in E.
  assert (kept (dest_ w) (dest_ w1)) as H1 by (by apply (kept_trans _ (dest_ (switch_block w))); [apply switch_block_kept|]).
  destruct (_ && _); [|by intros [= <- <-]]. intros H. apply IH in H. by apply (kept_trans _ (dest_ w1)).
Qed.

Lemma AddRecords_kept rs w ptr s w' : AddRecords w ptr rs = Some (s, w') -> kept (dest_ w) (dest_ w').
Proof.
  revert w. induction rs as [|r rs IH]; intros w; cbn [AddRecords]; [by intros [= <- <-]|].
  destruct (AddRecord w ptr r) as [[s1 w1]|] eqn:E; [|done]. cbn [mbind option_bind]. apply AddRecord_kept in E.
  destruct (Status_ok s1); [|by intros [= <- <-]]. intros H. apply IH in H. by apply (kept_trans _ (dest_ w1)).
Qed.
End Kept.

Section Flushed.
Context {F : Type} {W : WritableFile F}.

(** Adding a record ends with a successful flush. *)
Lemma add_record_loop_flushed n w ptr data b s w' :
  add_record_loop n w ptr data b = Some (s, w') -> Status_ok s = true -> exists f, Flush f = (s, dest_ w').
Proof.
  revert w ptr data b. induction n as [|n IH]; intros w ptr data b; [done|]. cbn [add_record_loop].
  unfold EmitPhysicalRecord. cbv zeta. destruct (Append _ _) as [s1 f1]. destruct (Status_ok s1) eqn:E1.
  2: { cbn [Status_ok]. rewrite E1. cbn [andb]. intros [= <- <-]. congruence. }
  destruct (Append f1 _) as [s2 f2]. destruct (Status_ok s2) eqn:E2.
  2: { rewrite E2. cbn [andb]. intros [= <- <-]. congruence. }
  destruct (Flush f2) as [s3 f3] eqn:E3. destruct (_ && _); [apply IH|]. intros [= <- <-] _. by exists f2.
Qed.

Lemma AddRecords_flushed rs w ptr s w' :
  AddRecords w ptr rs = Some (s, w') -> Status_ok s = true -> rs = [] /\ w' = w \/ exists f, Flush f = (s, dest_ w').
Proof.
  revert w. induction rs as [|r rs IH]; intros w; cbn [AddRecords].
  - intros [= <- <-] _. by left.
  - destruct (AddRecord w ptr r) as [[s1 w1]|] eqn:E; [|done]. cbn [mbind option_bind]. destruct (Status_ok s1) eqn:Es.
    + intros H Hs. destruct (IH w1 H Hs) as [[-> ->]|]; [|by right]. right. cbn [AddRecords] in H. injection H as <-.
      destruct (add_record_loop_flushed _ _ _ _ _ _ _ E Es) as [f Hf]. exists f. rewrite Hf. by destruct s1.
    + intros [= <- <-]. congruence.
Qed.
End Flushed.

(** * The reader on what the writer left *)
Section Log.
Context {F G : Type} {W : WritableFile F} {contents : F -> bytes} {idle : F -> bool}
  {WL : WritableFileLaw F contents} {LL : LogFileLaw F idle}
  {SF : SequentialFile G} {unread : G -> bytes} {reliable : G -> bool}
  {SL : SequentialFileLaw G unread reliable}.

Lemma read_prefix rs fuel checksum store (g : G) reporter :
  Forall (Forall is_byte) rs -> Forall (fun d => length d + 2 <= fuel)%nat rs -> (2 <= fuel)%nat ->
  reliable g = true -> unread g `prefix_of` log_bytes 0 rs ->
  exists j r, ReadRecords (S j) fuel (Reader_new g reporter checksum 0 store) = Some (take j rs, r)
    /\ (j <= length rs)%nat /\ reporter_ r = reporter
    /\ forall i, (i <= length rs)%nat -> zlen (log_bytes 0 (take i rs)) <= zlen (unread g) -> (i <= j)%nat.
Proof.
  intros Hb Hfuel H2 Hrel Hpre.
  destruct (log_cut rs fuel (unread g) Hb Hfuel H2 Hpre) as (j & tail & more & x & Hj & Eg & Hg & Hm & Et & Hxf & Hi).
  pose proof (reader_at_new g reporter checksum store Hrel Hg) as Ha. rewrite Eg in Ha.
  destruct (ReadRecords_at (take j rs) fuel _ 0 tail more x _ Ha ltac:(lia) Et Hm Hxf) as (r & E & Hr).
  rewrite length_take, Nat.min_l in E by lia. by exists j, r.
Qed.

(** Crash recovery of the log.  Records are appended to a fresh file, up
    to the first error, if any; then the file is cut off anywhere, as by a
    crash, and read back.  The reader returns the first records, at least all
    those whose bytes are in the file, nothing else, and reports no corruption;
    when every append succeeded and nothing is cut off, it returns exactly the
    records. *)
Theorem log_recovery rs ptr fuel checksum store (f : F) (g : G) :
  contents f = [] -> idle f = true -> reliable g = true ->
  Forall (Forall is_byte) rs -> Forall (fun d => length d + 2 <= fuel)%nat rs -> (2 <= fuel)%nat ->
  exists s w, AddRecords (Writer_new f) ptr rs = Some (s, w)
    /\ (unread g `prefix_of` contents (dest_ w) ->
        exists j r, ReadRecords (S j) fuel (Reader_new g (Some []) checksum 0 store) = Some (take j rs, r)
          /\ reports r = []
          /\ (forall i, (i <= length rs)%nat -> zlen (log_bytes 0 (take i rs)) <= zlen (unread g) -> (i <= j)%nat)
          /\ (Status_ok s = true -> unread g = contents (dest_ w) -> take j rs = rs)).
Proof.
  intros Hc Hf Hrel Hb Hfuel H2.
  destruct (AddRecords_ok rs (Writer_new f) 0 ptr (writer_at_new f) ltac:(lia) Hb Hf)
    as (s & w & E & Ha). exists s, w. split; [done|]. cbn [dest_ Writer_new] in Ha. rewrite Hc in Ha.
  intros Hpre. assert (unread g `prefix_of` log_bytes 0 rs) as Hpre'.
  { unfold appended in Ha. destruct (Status_ok s).
    - destruct Ha as [_ Ha]. by rewrite Ha in Hpre.
    - by etrans. }
  destruct (read_prefix rs fuel checksum store g (Some []) Hb Hfuel H2 Hrel Hpre')
    as (j & r & Er & Hj & Hrep & Hi). exists j, r. split_and!; [done| |done|].
  - unfold reports. by rewrite Hrep.
  - intros Hs Eg. apply take_ge. apply Hi; [done|]. rewrite Eg. unfold appended in Ha. rewrite Hs in Ha.
    destruct Ha as [_ ->]. by rewrite take_ge by lia.
Qed.

(** C25: The reader returns on any file, damaged in any way or failing at any
    point, from any initial offset, and reads nothing outside its buffer: as
    many rounds are enough as there are bytes to come. *)
Theorem log_reader_total (r : Reader G) fuel :
  0 <= initial_offset_ r -> (length (snd (buffer_ r)) + length (unread (file_ r)) < fuel)%nat ->
  exists record r', ReadRecord fuel r = Some (record, r').
Proof. apply ReadRecord_total. Qed.
End Log.

(** A disk that is full after two records and a half. *)
Definition sample_disk : DiskFile := {| disk_contents := []; disk_room := 28; disk_idle := true |}.
Definition sample_records : list bytes := [[1; 2; 3]; [4]; [5; 6; 7; 8; 9; 10]].

Definition sample_log : bytes := take 21 (log_bytes 0 sample_records).

Lemma log_recovery_witness :
  exists j r, ReadRecords (S j) 8 (Reader_new (F := StringFile) sample_log (Some []) true 0 64)
              = Some (take j sample_records, r)
    /\ reports r = [] /\ (2 <= j)%nat.
Proof.
  destruct (log_recovery (contents := disk_contents) (idle := disk_idle) (unread := fun f => f)
              (reliable := fun _ => true) sample_records 0 8 true 64 sample_disk sample_log)
    as (s & w & E & H); try reflexivity; try (repeat constructor; discriminate).
  vm_compute in E. injection E as <- <-.
  destruct H as (j & r & Er & Hr & Hi & _).
  - exists (drop 21 (take 28 (log_bytes 0 sample_records))). reflexivity.
  - exists j, r. split; [exact Er|]. split; [exact Hr|]. apply Hi; [simpl; lia|vm_compute; discriminate].
Defined.

Lemma log_reader_total_witness :
  exists record r', ReadRecord 20 (Reader_new (F := StringFile) [1; 2; 3; 4; 255; 0; 1; 9] (Some []) true 40000 0)
                    = Some (record, r').
Proof.
  apply (log_reader_total (unread := fun f => f) (reliable := fun _ => true)
           (Reader_new (F := StringFile) [1; 2; 3; 4; 255; 0; 1; 9] (Some []) true 40000 0) 20);
    [discriminate|simpl; lia].
Defined.

(** * Where the code falls short *)

(** A file of which the operations fail as told. *)
Record FlakyFile : Type := { flaky_contents : bytes; flaky_ok : list bool }.

#[export] Instance Flaky_WritableFile : WritableFile FlakyFile := {
  Append f data :=
    match flaky_ok f with
    | false :: l => (disk_error, {| flaky_contents := flaky_contents f; flaky_ok := l |})
    | true :: l => (Status_OK, {| flaky_contents := flaky_contents f ++ data; flaky_ok := l |})
    | [] => (Status_OK, {| flaky_contents := flaky_contents f ++ data; flaky_ok := [] |})
    end;
  Close f := (Status_OK, f);
  Flush f := (Status_OK, f);
  Sync f := (Status_OK, f)
}.

(** [AddRecord] does not look at the result of appending the trailer of a
    block.  When that append fails and the next ones succeed, it reports
    success, but the record is not where the reader looks for it: the three
    bytes that end the block are missing before it.  Files that keep [LogFileLaw], as
    the one of [env_posix.cc] does, do not fail there. *)
Theorem AddRecord_trailer_error_lost :
  exists s w,
    AddRecord (Writer_new_at {| flaky_contents := []; flaky_ok := [false] |} 32765) 0 [1] = Some (s, w)
    /\ Status_ok s = true
    /\ flaky_contents (dest_ w) = phys kFullType [1]
    /\ log_record 32765 [1] = [0; 0; 0] ++ phys kFullType [1].
Proof. eexists _, _. by vm_compute. Qed.

(** A record of the unknown type 5, which the reader uses for the end of
    the file, ends the reading: the records after it are lost and nothing is
    reported.  One of the unknown type 7 is reported and skipped. *)
Theorem unknown_type_5_is_eof :
  (exists r, ReadRecords 3 9 (Reader_new (F := StringFile) (phys 5 [1] ++ phys kFullType [2]) (Some []) true 0 0)
             = Some ([], r) /\ reports r = [])
  /\ (exists r, ReadRecords 3 9 (Reader_new (F := StringFile) (phys 7 [1] ++ phys kFullType [2]) (Some []) true 0 0)
                = Some ([[2]], r)
              /\ reports r = [(1, Status_Corruption (str "unknown record type 7") [])]).
Proof. split; eexists; by vm_compute. Qed.
