(* ===== verification/LdbPosixThms.v ===== *)
(** leveldb: the files of [env_posix.cc] keep the promises of [env.h].

    What the calls of the system are relied on for is stated in classes:
    [KernelWriteLaw], [KernelReadLaw] and [KernelLockLaw]; [FewSignals] is an
    assumption on who sends signals.  Under them the buffered
    files are files in the sense of [LdbEnv], so that what is proved of the log and
    of sorted tables holds on them. *)
From stdpp Require Import base numbers option strings gmap sets list.
From S2P Require Import Prelude LdbSlice LdbEnv LdbPosix LdbLogWriter LdbLogReader LdbLogThms.
Open Scope Z_scope.
Open Scope c_scope.

Lemma Posix_error_not_ok {K} {KN : Kernel K} context e : Status_ok (PosixError context e) = false.
Proof. unfold PosixError. by destruct (e =? ENOENT). Qed.

(** * Writing *)

(** [fd_data k fd] is what the file that is open at [fd] for writing holds; the
    descriptor is at its end.  A write writes some of the bytes; a signal may
    interrupt it before it wrote any; or it fails, and then the file may have got a
    part of the bytes all the same.  What later writes do after an error is left
    open: they may succeed again. *)
Class KernelWriteLaw (K : Type) {KN : Kernel K} (fd_data : K -> Z -> bytes) : Prop := {
  write_some k fd data n k' :
    sys_write k fd data = (inr n, k') -> data <> [] ->
    0 < n <= zlen data /\ fd_data k' fd = fd_data k fd ++ take (Z.to_nat n) data;
  write_interrupted k fd data k' :
    sys_write k fd data = (inl EINTR, k') -> fd_data k' fd = fd_data k fd;
  write_error k fd data e k' :
    sys_write k fd data = (inl e, k') -> exists done, done `prefix_of` data /\ fd_data k' fd = fd_data k fd ++ done
}.

(** An assumption on the surroundings, not a promise of the system: the calls of
    the process are interrupted by signals finitely often, [sys_patience] times at
    most.  The loops that retry end under it, and nothing else needs it. *)
Class FewSignals (K : Type) {KN : Kernel K} : Prop := {
  write_patience k fd data r k' :
    sys_write k fd data = (r, k') ->
    (sys_patience k' <= sys_patience k)%nat /\ (r = inl EINTR -> (sys_patience k' < sys_patience k)%nat);
  read_patience k fd n r k' :
    sys_read k fd n = (r, k') ->
    (sys_patience k' <= sys_patience k)%nat /\ (r = inl EINTR -> (sys_patience k' < sys_patience k)%nat)
}.

(** The operations of the class on a file and the system. *)
Definition posix_result {K} {KN : Kernel K} (kf : K * PosixWritableFile) (r : option (Status * K * PosixWritableFile))
    : Status * (K * PosixWritableFile) :=
  match r with Some (s, k, f) => (s, (k, f)) | None => (PosixError [] EINTR, kf) end.

#[export] Instance Posix_WritableFile {K} {KN : Kernel K} : WritableFile (K * PosixWritableFile) := {
  Append kf data := posix_result kf (PosixWritableFile_Append kf.1 kf.2 data);
  Close kf := posix_result kf (PosixWritableFile_Close kf.1 kf.2);
  Flush kf := posix_result kf (PosixWritableFile_Flush kf.1 kf.2);
  Sync kf := posix_result kf (PosixWritableFile_Sync kf.1 kf.2)
}.

Section Write.
Context {K : Type} {KN : Kernel K} {fd_data : K -> Z -> bytes} {KL : KernelWriteLaw K fd_data} {FS : FewSignals K}.

(** What [write] did with [data] on [fd]: all of it, or a part before an error. *)
Definition write_did (k : K) (fd : Z) (data : bytes) (s : Status) (k' : K) : Prop :=
  if Status_ok s then fd_data k' fd = fd_data k fd ++ data
  else exists done, done `prefix_of` data /\ fd_data k' fd = fd_data k fd ++ done.

(** The loop returns: every round takes a byte or an interruption away. *)
Lemma write_loop_ok fuel k f data :
  (length data + sys_patience k <= fuel)%nat ->
  exists s k', write_loop fuel k f data = Some (s, k') /\ write_did k (wf_fd_ f) data s k'.
Proof.
  unfold write_did. revert k data. induction fuel as [|fuel IH]; intros k data Hf.
  { destruct data as [|b data]; [|cbn in Hf; lia]. eexists _, _. split; [done|]. cbn. by rewrite app_nil_r. }
  destruct data as [|b data]; [eexists _, _; split; [done|]; cbn; by rewrite app_nil_r|].
  set (l := b :: data) in *. assert (l <> []) as Hl by done. cbn [write_loop].
  rewrite (proj2 (Z.ltb_lt _ _)) by (unfold l; cbn; lia). destruct (sys_write k (wf_fd_ f) l) as [[e|n] k1] eqn:Ew;
    destruct (write_patience _ _ _ _ _ Ew) as [P1 P2].
  - destruct (Z.eqb_spec e EINTR) as [->|Hne].
    + specialize (P2 eq_refl). destruct (IH k1 l ltac:(lia)) as (s & k' & -> & H).
      exists s, k'. split; [done|]. by rewrite (write_interrupted _ _ _ _ Ew) in H.
    + eexists _, _. split; [done|]. rewrite Posix_error_not_ok. by apply (write_error _ _ _ _ _ Ew).
  - destruct (write_some _ _ _ _ _ Ew Hl) as (Hn & D1).
    destruct (IH k1 (drop (Z.to_nat n) l)) as (s & k' & -> & H); [rewrite length_drop; lia|].
    exists s, k'. split; [done|]. rewrite D1 in H. destruct (Status_ok s).
    + rewrite H. by rewrite <- app_assoc, take_drop.
    + destruct H as (d & Hd & ->). exists (take (Z.to_nat n) l ++ d). split; [|by rewrite app_assoc].
      rewrite <- (take_drop (Z.to_nat n) l) at 2. by apply prefix_app.
Qed.

Lemma WriteUnbuffered_ok k f data :
  exists s k', WriteUnbuffered k f data = Some (s, k') /\ write_did k (wf_fd_ f) data s k'.
Proof. by apply write_loop_ok. Qed.

(** The bytes accepted so far: those in the file and those in the buffer.  After a
    flush, successful or not, the buffer is empty. *)
Definition posix_contents (kf : K * PosixWritableFile) : bytes := fd_data kf.1 (wf_fd_ kf.2) ++ wf_buf_ kf.2.
Definition posix_idle (kf : K * PosixWritableFile) : bool := bool_decide (wf_buf_ kf.2 = []).

(** After flushing the buffer is empty, and what it held is in the file or lost. *)
Lemma FlushBuffer_ok k f :
  exists s k', FlushBuffer k f = Some (s, k', wf_with_buf f []) /\ write_did k (wf_fd_ f) (wf_buf_ f) s k'.
Proof. unfold FlushBuffer. destruct (WriteUnbuffered_ok k f (wf_buf_ f)) as (s & k' & -> & H). by exists s, k'. Qed.

(** [Append] as the law sees it: the data fits into the buffer, or the full buffer
    is written and the rest buffered or written. *)
Lemma Append_did k f data :
  exists s k' buf, PosixWritableFile_Append k f data = Some (s, k', wf_with_buf f buf)
    /\ if Status_ok s then fd_data k' (wf_fd_ f) ++ buf = fd_data k (wf_fd_ f) ++ wf_buf_ f ++ data
       else buf = [] /\ fd_data k' (wf_fd_ f) `prefix_of` fd_data k (wf_fd_ f) ++ wf_buf_ f ++ data.
Proof.
  unfold PosixWritableFile_Append. set (n := Z.min (zlen data) (kWritableFileBufferSize - zlen (wf_buf_ f))).
  destruct (Z.eqb_spec (zlen data - n) 0) as [Hz|Hnz].
  { rewrite take_ge by lia. by eexists _, _, _. }
  set (f1 := wf_with_buf f (wf_buf_ f ++ take (Z.to_nat n) data)). set (rest := drop (Z.to_nat n) data).
  assert (wf_buf_ f ++ data = wf_buf_ f1 ++ rest) as E by (unfold rest; cbn; by rewrite <- app_assoc, take_drop).
  destruct (FlushBuffer_ok k f1) as (s & k1 & -> & H1). cbn [mbind option_bind]. unfold write_did in H1. cbn [wf_fd_ f1 wf_with_buf] in H1.
  rewrite E. destruct (Status_ok s) eqn:Es; cbn [negb].
  - destruct (_ <? _); [eexists Status_OK, k1, rest; split; [done|]; cbn [Status_ok Status_OK]; by rewrite H1, app_assoc|].
    destruct (WriteUnbuffered_ok k1 (wf_with_buf f1 []) rest) as (s2 & k2 & -> & H2). cbn [mbind option_bind].
    exists s2, k2, []. split; [done|]. unfold write_did in H2. cbn [wf_fd_ f1 wf_with_buf] in H2. rewrite H1 in H2. destruct (Status_ok s2).
    + rewrite app_nil_r, H2. by rewrite app_assoc.
    + destruct H2 as (d & Hd & ->). split; [done|]. rewrite <- app_assoc. by do 2 apply prefix_app.
  - exists s, k1, []. split; [done|]. rewrite Es. split; [done|]. destruct H1 as (d & Hd & ->). apply prefix_app. by apply prefix_app_r.
Qed.

(** [PosixWritableFile] is a file as the log and the tables need it: through its
    buffer, short writes and interruptions, what [Append] was given reaches the file
    in order and once, up to an error. *)
#[export] Instance Posix_WritableFile_law : WritableFileLaw (K * PosixWritableFile) posix_contents.
Proof.
  assert (forall k f data s kf', Append (k, f) data = (s, kf') ->
    if Status_ok s then posix_contents kf' = posix_contents (k, f) ++ data else posix_contents kf' `prefix_of` posix_contents (k, f) ++ data) as HA.
  { intros k f data s kf' H. cbn [Append Posix_WritableFile fst snd] in H. destruct (Append_did k f data) as (s0 & k0 & buf & E & H0).
    rewrite E in H. injection H as <- <-. unfold posix_contents. cbn [fst snd wf_with_buf wf_fd_ wf_buf_]. rewrite <- app_assoc.
    destruct (Status_ok s0); [done|]. destruct H0 as [-> H0]. by rewrite app_nil_r. }
  assert (forall k f s kf', Flush (k, f) = (s, kf') ->
    if Status_ok s then posix_contents kf' = posix_contents (k, f) else posix_contents kf' `prefix_of` posix_contents (k, f)) as HF.
  { intros k f s kf' H. cbn [Flush Posix_WritableFile fst snd] in H. unfold PosixWritableFile_Flush in H.
    destruct (FlushBuffer_ok k f) as (s0 & k0 & E & H0). rewrite E in H. injection H as <- <-. unfold posix_contents, write_did in *.
    cbn [fst snd wf_with_buf wf_fd_ wf_buf_]. rewrite app_nil_r. destruct (Status_ok s0); [done|].
    destruct H0 as (d & Hd & ->). by apply prefix_app. }
  split; intros [k f].
  - intros data s kf' H Hs. specialize (HA _ _ _ _ _ H). by rewrite Hs in HA.
  - intros data s kf' H Hs. specialize (HA _ _ _ _ _ H). by rewrite Hs in HA.
  - intros s kf' H Hs. specialize (HF _ _ _ _ H). by rewrite Hs in HF.
  - intros s kf' H Hs. specialize (HF _ _ _ _ H). by rewrite Hs in HF.
Qed.

(** The bytes that end a block go to the empty buffer, without a call of the system:
    the writer need not look at the result. *)
#[export] Instance Posix_log_law : LogFileLaw (K * PosixWritableFile) posix_idle.
Proof.
  split.
  - intros [k f] s kf' H _. cbn [Flush Posix_WritableFile fst snd] in H. unfold PosixWritableFile_Flush in H.
    destruct (FlushBuffer_ok k f) as (s0 & k0 & E & _). rewrite E in H. by injection H as <- <-.
  - intros [k f] data Hi%bool_decide_eq_true_1 Hl. cbn [Append Posix_WritableFile fst snd] in *. unfold PosixWritableFile_Append.
    rewrite Hi. cbn [length]. rewrite Z.min_l by (unfold kWritableFileBufferSize; lia). by rewrite Z.sub_diag.
Qed.
End Write.

(** * Reading from the start *)

(** [fd_unread k fd] is what comes after the position of the descriptor, which is
    one of a regular file.  A read returns some of it, at most what it is asked for;
    a signal may interrupt it before it read anything.  The file is [sound] as long
    as no read meets an error and none is cut short by a signal: then a read returns
    all it is asked for, unless the file ends. *)
Class KernelReadLaw (K : Type) {KN : Kernel K} (fd_unread : K -> Z -> bytes) (sound : K -> Z -> bool) : Prop := {
  read_some k fd n data k' :
    sys_read k fd n = (inr data, k') -> 0 <= n ->
    (length data <= Z.to_nat n)%nat /\ fd_unread k fd = data ++ fd_unread k' fd
    /\ (sound k fd = true -> data = take (Z.to_nat n) (fd_unread k fd) /\ sound k' fd = true);
  read_interrupted k fd n k' :
    sys_read k fd n = (inl EINTR, k') ->
    fd_unread k' fd = fd_unread k fd /\ (sound k fd = true -> sound k' fd = true);
  read_error k fd n e k' :
    sys_read k fd n = (inl e, k') -> e <> EINTR ->
    (length (fd_unread k' fd) <= length (fd_unread k fd))%nat /\ sound k fd = false;
  lseek_any k fd n r k' :
    sys_lseek k fd n = (r, k') -> 0 <= n -> (length (fd_unread k' fd) <= length (fd_unread k fd))%nat
}.

#[export] Instance Posix_SequentialFile {K} {KN : Kernel K} : SequentialFile (K * PosixSequentialFile) := {
  Read kf n scratch :=
    match PosixSequentialFile_Read kf.1 kf.2 n scratch with
    | Some (s, r, k) => (s, r, (k, kf.2))
    | None => (PosixError [] EINTR, (0, []), kf)
    end;
  Skip kf n := let '(s, k) := PosixSequentialFile_Skip kf.1 kf.2 n in (s, (k, kf.2))
}.

Section Read.
Context {K : Type} {KN : Kernel K} {fd_unread : K -> Z -> bytes} {sound : K -> Z -> bool} {KR : KernelReadLaw K fd_unread sound}
  {FS : FewSignals K}.

Definition posix_unread (kf : K * PosixSequentialFile) : bytes := fd_unread kf.1 (sf_fd_ kf.2).
Definition posix_sound (kf : K * PosixSequentialFile) : bool := sound kf.1 (sf_fd_ kf.2).

(** What a read did; an error is one of a file that is not sound. *)
Definition read_did (kf : K * PosixSequentialFile) (n : Z) (s : Status) (data : bytes) (kf' : K * PosixSequentialFile) : Prop :=
  if Status_ok s
  then (length data <= Z.to_nat n)%nat /\ posix_unread kf = data ++ posix_unread kf'
       /\ (posix_sound kf = true -> data = take (Z.to_nat n) (posix_unread kf) /\ posix_sound kf' = true)
  else data = [] /\ (length (posix_unread kf') <= length (posix_unread kf))%nat /\ posix_sound kf = false.

Lemma seq_read_loop_ok fuel k f n scratch :
  0 <= n -> (sys_patience k < fuel)%nat ->
  exists s a data k', seq_read_loop fuel k f n scratch = Some (s, (a, data), k') /\ read_did (k, f) n s data (k', f).
Proof.
  intros Hn. unfold read_did, posix_unread, posix_sound. cbn [fst snd]. revert k. induction fuel as [|fuel IH]; intros k Hf; [lia|]. cbn [seq_read_loop].
  destruct (sys_read k (sf_fd_ f) n) as [[e|data] k1] eqn:Er; destruct (read_patience _ _ _ _ _ Er) as [P1 P2].
  - destruct (Z.eqb_spec e EINTR) as [->|Hne].
    + specialize (P2 eq_refl). destruct (read_interrupted _ _ _ _ Er) as (U & S). destruct (IH k1 ltac:(lia)) as (s & a & d & k' & -> & H).
      exists s, a, d, k'. split; [done|]. rewrite U in H. destruct (Status_ok s); [|destruct (sound k (sf_fd_ f)); naive_solver]. naive_solver.
    + destruct (read_error _ _ _ _ _ Er Hne) as [U S]. eexists _, _, _, _. split; [done|]. by rewrite Posix_error_not_ok.
  - eexists _, _, _, _. split; [done|]. by apply (read_some _ _ _ _ _ Er Hn).
Qed.

#[export] Instance Posix_SequentialFile_law : SequentialFileLaw (K * PosixSequentialFile) posix_unread posix_sound.
Proof.
  assert (forall k f n scratch s a data kf', Read (k, f) n scratch = (s, (a, data), kf') -> 0 <= n -> read_did (k, f) n s data kf') as HR.
  { intros k f n scratch s a data kf' H Hn. cbn [Read Posix_SequentialFile fst snd] in H. unfold PosixSequentialFile_Read in H.
    destruct (seq_read_loop_ok (S (sys_patience k)) k f n scratch Hn ltac:(lia)) as (s0 & a0 & d0 & k0 & E & H0).
    revert H. cbn [fst snd]. rewrite E. by intros [= <- <- <- <-]. }
  split; intros [k f].
  - intros n scratch s a data kf' H Hn. specialize (HR _ _ _ _ _ _ _ _ H Hn). unfold read_did in HR. destruct (Status_ok s).
    + destruct HR as (H1 & -> & _). rewrite length_app. lia.
    + destruct HR as (-> & H2 & _). cbn. lia.
  - intros n scratch s a data kf' H Hn Hs. specialize (HR _ _ _ _ _ _ _ _ H Hn). unfold read_did in HR.
    destruct (Status_ok s); [|destruct HR as (_ & _ & HR); congruence]. destruct HR as (_ & E & HR). destruct (HR Hs) as [Hd Hs']. split_and!; [done..|].
    rewrite <- (take_drop (Z.to_nat n) (posix_unread (k, f))), <- Hd in E. by apply app_inv_head in E.
  - intros n s kf' H Hn. cbn in H. unfold PosixSequentialFile_Skip in H. destruct (sys_lseek k (sf_fd_ f) n) as [r k1] eqn:E.
    pose proof (lseek_any _ _ _ _ _ E Hn) as HL. by destruct r; injection H as <- <-.
Qed.
End Read.

(** * The log on files of the system *)
Section Log.
Context {K : Type} {KN : Kernel K} {fd_data : K -> Z -> bytes} {KL : KernelWriteLaw K fd_data} {FS : FewSignals K}
  {fd_unread : K -> Z -> bytes} {sound : K -> Z -> bool} {KR : KernelReadLaw K fd_unread sound}.

Lemma posix_AddRecords_fd rs (w w' : Writer (K * PosixWritableFile)) ptr s :
  AddRecords w ptr rs = Some (s, w') -> wf_fd_ (dest_ w').2 = wf_fd_ (dest_ w).2.
Proof.
  apply (AddRecords_kept (fun f f' : K * PosixWritableFile => wf_fd_ f'.2 = wf_fd_ f.2)); [done|congruence| |].
  - intros [k f] data. cbn [Append Posix_WritableFile fst snd]. by destruct (Append_did k f data) as (s0 & k0 & buf & -> & _).
  - intros [k f]. cbn [Flush Posix_WritableFile fst snd]. unfold PosixWritableFile_Flush. by destruct (FlushBuffer_ok k f) as (s0 & k0 & -> & _).
Qed.

Lemma posix_Flush_buffer (kf : K * PosixWritableFile) s kf' : Flush kf = (s, kf') -> wf_buf_ kf'.2 = [].
Proof.
  destruct kf as [k f]. cbn [Flush Posix_WritableFile fst snd]. unfold PosixWritableFile_Flush.
  destruct (FlushBuffer_ok k f) as (s0 & k0 & -> & _). by intros [= <- <-].
Qed.

(** C14: The log on the files of the system.  Records are appended through the
    buffered file over a new descriptor, up to the first error if there is one.
    Writes may be short or interrupted by signals, and may fail, for good or once,
    with a part of the bytes written or none; it is assumed that signals interrupt
    finitely often.  When the writer reports success the records are in the file, not
    only in the buffer; when it reports an error the file has a first part of them,
    and nothing else.  What any first part of the file holds is then read through
    another descriptor, of which no read fails or is cut short by a signal: the
    reader returns the records that are in it, in order, at least those whose bytes
    are all there, and reports no corruption. *)
Theorem posix_log_recovery rs ptr fuel checksum store k name fd :
  fd_data k fd = [] ->
  Forall (Forall is_byte) rs -> Forall (fun d => length d + 2 <= fuel)%nat rs -> (2 <= fuel)%nat ->
  exists s w, AddRecords (Writer_new (k, PosixWritableFile_new name fd)) ptr rs = Some (s, w)
    /\ (if Status_ok s then fd_data (dest_ w).1 fd = log_bytes 0 rs else fd_data (dest_ w).1 fd `prefix_of` log_bytes 0 rs)
    /\ forall kr (g : PosixSequentialFile),
         sound kr (sf_fd_ g) = true -> fd_unread kr (sf_fd_ g) `prefix_of` fd_data (dest_ w).1 fd ->
         exists j r, ReadRecords (S j) fuel (Reader_new (kr, g) (Some []) checksum 0 store) = Some (take j rs, r)
           /\ reports r = []
           /\ (forall i, (i <= length rs)%nat -> zlen (log_bytes 0 (take i rs)) <= zlen (fd_unread kr (sf_fd_ g)) -> (i <= j)%nat)
           /\ (Status_ok s = true -> fd_unread kr (sf_fd_ g) = fd_data (dest_ w).1 fd -> take j rs = rs).
Proof.
  intros Hd Hrs Hfuel H2. set (kf := (k, PosixWritableFile_new name fd)).
  assert (posix_contents (fd_data := fd_data) kf = []) as Hc by (unfold posix_contents, kf; cbn; by rewrite Hd).
  destruct (AddRecords_ok (contents := posix_contents) (idle := posix_idle) rs (Writer_new kf) 0 ptr (writer_at_new kf) ltac:(lia) Hrs eq_refl)
    as (s & w & E & Ha). exists s, w. split; [done|]. change (dest_ (Writer_new kf)) with kf in Ha. rewrite Hc in Ha.
  unfold appended in Ha. cbn [app] in Ha.
  pose proof (posix_AddRecords_fd _ _ _ _ _ E) as Hfd. cbn in Hfd.
  assert (if Status_ok s then fd_data (dest_ w).1 fd = log_bytes 0 rs else fd_data (dest_ w).1 fd `prefix_of` log_bytes 0 rs) as Hdisk.
  { unfold posix_contents in Ha. rewrite Hfd in Ha. destruct (Status_ok s) eqn:Hs.
    - destruct Ha as [_ <-]. destruct (AddRecords_flushed _ _ _ _ _ E Hs) as [[_ ->]|[f Hfl]]; cbn; [by rewrite app_nil_r|].
      by rewrite (posix_Flush_buffer _ _ _ Hfl), app_nil_r.
    - etrans; [|exact Ha]. by apply prefix_app_r. }
  split; [exact Hdisk|]. intros kr g Hso Hpre.
  assert (fd_unread kr (sf_fd_ g) `prefix_of` log_bytes 0 rs) as Hpre'.
  { etrans; [exact Hpre|]. destruct (Status_ok s); [by rewrite Hdisk|done]. }
  destruct (read_prefix (unread := posix_unread) (reliable := posix_sound) rs fuel checksum store (kr, g) (Some []) Hrs Hfuel H2 Hso Hpre')
    as (j & r & Er & Hj & Hrep & Hi). exists j, r. split_and!; [done|unfold reports; by rewrite Hrep|done|].
  intros Hs Eg. apply take_ge. apply Hi; [done|]. unfold posix_unread. cbn [fst snd]. rewrite Hs in Hdisk. rewrite Eg, Hdisk, take_ge by (done || lia). lia.
Qed.
End Log.

(** * Reading anywhere *)

(** A file that is read with [pread] hands out the bytes in the caller's buffer,
    one that is mapped a part of the mapped memory. *)
#[export] Instance Posix_RandomAccessFile {K} {KN : Kernel K} : RandomAccessFile (K * PosixRandomAccessFile) := {
  Random_Read kf offset n := let '(s, data, _) := PosixRandomAccessFile_Read kf.1 kf.2 offset n in (s, (data, true))
}.

#[export] Instance Posix_MmapReadableFile {K} {KN : Kernel K} : RandomAccessFile (K * PosixMmapReadableFile) := {
  Random_Read kf offset n :=
    let '(s, (a, l)) := PosixMmapReadableFile_Read kf.2 offset n in (s, (default [] (sys_memory kf.1 a l), false))
}.

Section Random.
Context {K : Type} {KN : Kernel K}.

(** The file at the descriptor has the contents [c]. *)
Definition pread_gives (k : K) (fd : Z) (c : bytes) : Prop :=
  forall n offset, 0 <= offset -> 0 <= n -> offset + n <= zlen c ->
    sys_pread k fd n offset = inr (take (Z.to_nat n) (drop (Z.to_nat offset) c)).

(** The region at [base] shows the contents [c]. *)
Definition mapped (k : K) (base : Z) (c : bytes) : Prop :=
  in_uint 64 base /\ base + zlen c < 2 ^ 64
  /\ forall n offset, 0 <= offset -> 0 <= n -> offset + n <= zlen c ->
       sys_memory k (base + offset) n = Some (take (Z.to_nat n) (drop (Z.to_nat offset) c)).

Lemma Posix_RandomAccessFile_law k f c :
  (if rf_has_permanent_fd_ f then pread_gives k (rf_fd_ f) c
   else exists fd k', sys_open k (rf_filename_ f) O_RDONLY = (inr fd, k') /\ pread_gives k' fd c) ->
  RandomAccessFileLaw Posix_RandomAccessFile (k, f) c.
Proof.
  intros H offset n Ho Hn Hle. exists true. cbn [Random_Read Posix_RandomAccessFile fst snd]. unfold PosixRandomAccessFile_Read.
  destruct (rf_has_permanent_fd_ f); [by rewrite H|]. destruct H as (fd & k' & -> & H). by rewrite H.
Qed.

Lemma Posix_MmapReadableFile_law k f c :
  mapped k (mf_base_ f) c -> mf_length_ f = zlen c -> RandomAccessFileLaw Posix_MmapReadableFile (k, f) c.
Proof.
  intros (Hb & Hbl & H) Hl offset n Ho Hn Hle. exists false. cbn [Random_Read Posix_MmapReadableFile fst snd].
  unfold PosixMmapReadableFile_Read. unfold in_uint in Hb.
  rewrite (u64_small (offset + n)) by (unfold in_uint; lia). rewrite (u64_small (mf_base_ f + offset)) by (unfold in_uint; lia).
  rewrite Hl. destruct (Z.gtb_spec (offset + n) (zlen c)); [lia|]. by rewrite H.
Qed.

(** [PosixMmapReadableFile_Read] hands out only mapped memory as long as
    [offset + n] does not exceed 64 bits; when it does, the check passes and the
    slice starts before the region: a block handle of a damaged table whose offset
    is just below 2^64 makes [ReadBlock] read outside the file. *)
Lemma mmap_Read_bounds f offset n a l :
  in_uint 64 (mf_base_ f) -> mf_base_ f + mf_length_ f < 2 ^ 64 -> 0 <= offset -> 0 <= n ->
  PosixMmapReadableFile_Read f offset n = (Status_OK, (a, l)) ->
  (offset + n < 2 ^ 64 -> mf_base_ f <= a /\ a + l <= mf_base_ f + mf_length_ f)
  /\ (2 ^ 64 <= offset + n -> offset < 2 ^ 64 -> n <= mf_base_ f -> a < mf_base_ f /\ l = n).
Proof.
  intros Hb Hl Ho Hn. unfold PosixMmapReadableFile_Read, in_uint in *. destruct (Z.gtb_spec (u64 (offset + n)) (mf_length_ f)) as [|Hle]; [done|].
  intros [= <- <-]. split.
  - intros Hs. rewrite (u64_small (offset + n)) in Hle by (unfold in_uint; lia). rewrite u64_small by (unfold in_uint; lia). lia.
  - intros Hge Hlt Hnb. split; [|done].
    assert (u64 (mf_base_ f + offset) = mf_base_ f + offset - 2 ^ 64) as ->; [|lia].
    unfold u64. symmetry. apply (Z.mod_unique_pos _ _ 1); lia.
Qed.
End Random.

(** * The limiter, used by many threads *)

(** The counter, how many threads are between the two operations of a failed
    [Acquire], and how many resources are held.  A step is one atomic operation. *)
Record LimiterState : Type := { ls_allowed : Z; ls_undoing : nat; ls_held : nat }.

Section Limits.
Context (max : Z) (threads : nat).

Inductive limiter_step : LimiterState -> LimiterState -> Prop :=
  | Acquire_granted a u h a' :
      fetch_sub a 1 = (a, a') -> a > 0 -> (u < threads)%nat -> limiter_step (Build_LimiterState a u h) (Build_LimiterState a' u (S h))
  | Acquire_refused a u h a' :
      fetch_sub a 1 = (a, a') -> a <= 0 -> (u < threads)%nat -> limiter_step (Build_LimiterState a u h) (Build_LimiterState a' (S u) h)
  | Acquire_undone a u h a' :
      fetch_add a 1 = (a, a') -> limiter_step (Build_LimiterState a (S u) h) (Build_LimiterState a' u h)
  | Limiter_released a u h :
      limiter_step (Build_LimiterState a u (S h)) (Build_LimiterState (Limiter_Release a) u h).

Definition limiter_start : LimiterState := {| ls_allowed := max; ls_undoing := 0; ls_held := 0 |}.

Definition limiter_inv (s : LimiterState) : Prop :=
  ls_allowed s + Z.of_nat (ls_undoing s) + Z.of_nat (ls_held s) = max
  /\ - Z.of_nat (ls_undoing s) <= ls_allowed s /\ (ls_undoing s <= threads)%nat.

Context (Hmax : 0 <= max) (Hint : max + Z.of_nat threads < 2 ^ 31).

Lemma limiter_step_inv s s' : limiter_step s s' -> limiter_inv s -> limiter_inv s'.
Proof.
  assert (forall z, - 2 ^ 31 <= z < 2 ^ 31 -> s32 z = z) as Hs32.
  { intros z Hz. unfold s32, sint. change (2 ^ (32 - 1)) with (2 ^ 31). rewrite Z.mod_small by lia. lia. }
  unfold limiter_inv.
  intros [a u h a' E Ha Hu|a u h a' E Ha Hu|a u h a' E|a u h]; cbn [ls_allowed ls_undoing ls_held]; intros (H1 & H2 & H3).
  - injection E as <-. rewrite Hs32 by lia. lia.
  - injection E as <-. rewrite Hs32 by lia. lia.
  - injection E as <-. rewrite Hs32 by lia. lia.
  - unfold Limiter_Release. cbn [fetch_add snd]. rewrite Hs32 by lia. lia.
Qed.

(** Never more resources are held than allowed, however threads interleave. *)
Lemma limiter_bound s : rtc limiter_step limiter_start s -> limiter_inv s /\ Z.of_nat (ls_held s) <= max.
Proof.
  intros H. assert (limiter_inv s) as Hi; [|split; [done|destruct Hi; lia]].
  assert (limiter_inv limiter_start) as Hs by (unfold limiter_inv; cbn; lia). revert Hs.
  induction H as [|s1 s2 s3 H12 _ IH]; [done|]. intros Hs. by apply IH, (limiter_step_inv s1).
Qed.
End Limits.

(** A thread that runs [Acquire] alone takes one or two of these steps. *)
Lemma Limiter_Acquire_steps threads a u h got a' :
  (u < threads)%nat -> in_sint 32 (a - 1) -> in_sint 32 a -> Limiter_Acquire a = (got, a') ->
  rtc (limiter_step threads) (Build_LimiterState a u h) (Build_LimiterState a' u (if got then S h else h)).
Proof.
  intros Hu Hr Ha. unfold Limiter_Acquire. cbn [fetch_sub]. destruct (Z.gtb_spec a 0) as [Hp|Hp]; intros [= <- <-].
  - apply rtc_once. by constructor; [|lia|].
  - eapply rtc_l; [by apply Acquire_refused; [|lia|]|]. apply rtc_once. by constructor.
Qed.

(** A file that is opened takes what it uses from the limits, and what fails takes
    nothing; the destructors give it back. *)
Definition mmaps_used (r : option (PosixMmapReadableFile + PosixRandomAccessFile)) : Z :=
  match r with Some (inl _) => 1 | _ => 0 end.
Definition fds_used (r : option (PosixMmapReadableFile + PosixRandomAccessFile)) : Z :=
  match r with Some (inr f) => if rf_has_permanent_fd_ f then 1 else 0 | _ => 0 end.

Lemma Limiter_Acquire_eq a : 0 <= a < 2 ^ 31 -> Limiter_Acquire a = if a >? 0 then (true, a - 1) else (false, a).
Proof.
  intros Ha. unfold Limiter_Acquire, fetch_sub, fetch_add.
  assert (forall z, - 2 ^ 31 <= z < 2 ^ 31 -> s32 z = z) as Hs32.
  { intros z Hz. unfold s32, sint. change (2 ^ (32 - 1)) with (2 ^ 31). rewrite Z.mod_small by lia. lia. }
  rewrite Hs32 by lia. destruct (a >? 0); [done|]. cbn [snd]. rewrite Hs32 by lia. f_equal. lia.
Qed.

Lemma Limiter_Release_eq a : - 2 ^ 31 <= a < 2 ^ 31 - 1 -> Limiter_Release a = a + 1.
Proof.
  intros Ha. unfold Limiter_Release, fetch_add, s32, sint. cbn [snd]. change (2 ^ (32 - 1)) with (2 ^ 31). rewrite Z.mod_small by lia. lia.
Qed.

Lemma NewRandomAccessFile_limits {K} {KN : Kernel K} (k : K) e name s r k' e' :
  0 <= mmap_limiter_ e < 2 ^ 31 -> 0 <= fd_limiter_ e < 2 ^ 31 ->
  Posix_NewRandomAccessFile k e name = (s, r, k', e') ->
  mmap_limiter_ e' + mmaps_used r = mmap_limiter_ e /\ fd_limiter_ e' + fds_used r = fd_limiter_ e
  /\ (Status_ok s = true <-> is_Some r) /\ 0 <= mmap_limiter_ e' /\ 0 <= fd_limiter_ e'.
Proof.
  intros Hm Hf. unfold Posix_NewRandomAccessFile, PosixRandomAccessFile_new. destruct (sys_open k name O_RDONLY) as [[errno|fd] k1].
  { intros [= <- <- <- <-]. rewrite Posix_error_not_ok. cbn. split_and!; [lia|lia|split; [done|by intros [? ?]]|lia|lia]. }
  rewrite !Limiter_Acquire_eq by done. destruct (Z.gtb_spec (mmap_limiter_ e) 0) as [Hp|Hp]; cbn [negb].
  - unfold Posix_GetFileSize. destruct (sys_stat k1 name) as [errno|size].
    + rewrite !Posix_error_not_ok. intros [= <- <- <- <-]. rewrite Posix_error_not_ok. cbn [negb env_with_limiters mmap_limiter_ fd_limiter_ mmaps_used fds_used].
      rewrite Limiter_Release_eq by lia. split_and!; [lia|lia|split; [done|by intros [? ?]]|lia|lia].
    + cbn [Status_ok Status_OK]. destruct (sys_mmap k1 (u64 size) fd) as [[errno|base] k2]; intros [= <- <- <- <-].
      * rewrite Posix_error_not_ok. cbn [negb env_with_limiters mmap_limiter_ fd_limiter_ mmaps_used fds_used].
        rewrite Limiter_Release_eq by lia. split_and!; [lia|lia|split; [done|by intros [? ?]]|lia|lia].
      * cbn. split_and!; [lia|lia|done|lia|lia].
  - destruct (Z.gtb_spec (fd_limiter_ e) 0) as [Hq|Hq]; intros [= <- <- <- <-]; cbn; (split_and!; [lia|lia|done|lia|lia]).
Qed.

(** * Locks *)

(** [fd_file k fd] is the file a descriptor is open on, [file_of k n] the file with
    a name, [held k i] whether the process holds the lock on the file [i].  As POSIX
    has it, closing any descriptor of a file gives up the lock of the process on it. *)
Class KernelLockLaw (K : Type) {KN : Kernel K} (fd_file : K -> Z -> option Z) (file_of : K -> bytes -> option Z) (held : K -> Z -> bool)
    : Prop := {
  lock_open k n flags fd k' :
    sys_open k n flags = (inr fd, k') ->
    fd_file k fd = None /\ is_Some (file_of k' n) /\ fd_file k' fd = file_of k' n
    /\ (forall i, file_of k n = Some i -> file_of k' n = Some i) /\ (forall i, held k' i = held k i)
    /\ (forall fd', fd' <> fd -> fd_file k' fd' = fd_file k fd');
  lock_set k fd lock r k' i :
    sys_setlk k fd lock = (r, k') -> fd_file k fd = Some i ->
    (forall n, file_of k' n = file_of k n) /\ (forall fd', fd_file k' fd' = fd_file k fd')
    /\ (forall j, held k' j = if decide (j = i) then (match r with inr _ => lock | inl _ => held k i end) else held k j);
  lock_close k fd r k' i :
    sys_close k fd = (r, k') -> fd_file k fd = Some i ->
    (forall n, file_of k' n = file_of k n)
    /\ forall j, held k' j = if decide (j = i) then false else held k j
}.

Section Locks.
Context {K : Type} {KN : Kernel K} {fd_file : K -> Z -> option Z} {file_of : K -> bytes -> option Z} {held : K -> Z -> bool}
  {KL : KernelLockLaw K fd_file file_of held}.

(** [LockFile] gives a lock to one of the threads of the process only, and the lock
    of the system with it. *)
Lemma LockFile_ok k e name s lock k' e' :
  Posix_LockFile k e name = (s, lock, k', e') -> Status_ok s = true ->
  exists fd i, lock = Some {| fl_fd := fd; fl_filename := name |} /\ name ∉ locks_ e /\ locks_ e' = {[name]} ∪ locks_ e
    /\ file_of k' name = Some i /\ fd_file k' fd = Some i /\ held k' i = true.
Proof.
  unfold Posix_LockFile. destruct (sys_open k name _) as [[errno|fd] k1] eqn:Eo.
  { intros [= <- _ _ _] Hs. by rewrite Posix_error_not_ok in Hs. }
  destruct (lock_open _ _ _ _ _ Eo) as (_ & [i Hi] & Hfd & _ & _ & _). unfold PosixLockTable_Insert, LockOrUnlock.
  case_decide as Hin; cbn [negb]; [by intros [= <- _ _ _]|].
  destruct (sys_setlk k1 fd true) as [r k2] eqn:El. destruct (lock_set _ _ _ _ _ i El ltac:(by rewrite Hfd)) as (Hn & Hf & Hh).
  destruct r as [errno|u]; [intros [= <- _ _ _] Hs; by rewrite Posix_error_not_ok in Hs|].
  intros [= _ <- <- <-] _. exists fd, i. rewrite Hn, Hf, Hh, decide_True by done. split_and!; try done. by rewrite Hfd.
Qed.

(** C38: Locks.  [LockFile] that succeeds holds the lock of the system, for a name
    that the process had not locked.  A second [LockFile] on the name is refused, and
    the table of locks stays as it is.  But then the lock of the system is gone: the
    descriptor that was opened to try is closed again, and with it the process gives
    up its lock, so that another process can take it while this one goes on using
    the database. *)
Theorem second_LockFile_drops_lock k e name s lock k1 e1 :
  Posix_LockFile k e name = (s, lock, k1, e1) -> Status_ok s = true ->
  name ∉ locks_ e
  /\ exists i, file_of k1 name = Some i /\ held k1 i = true
       /\ forall fd k2, sys_open k1 name (O_RDWR ||| O_CREAT) = (inr fd, k2) ->
            exists s2 k3, Posix_LockFile k1 e1 name = (s2, None, k3, e1) /\ Status_ok s2 = false /\ held k3 i = false.
Proof.
  intros H Hs. destruct (LockFile_ok _ _ _ _ _ _ _ H Hs) as (fd0 & i & _ & Hin & Et & Hi & _ & Hh).
  split; [done|]. exists i. split; [done|]. split; [done|]. intros fd k2 Eo. unfold Posix_LockFile. rewrite Eo.
  unfold PosixLockTable_Insert. rewrite decide_True by set_solver. cbn [negb].
  destruct (lock_open _ _ _ _ _ Eo) as (_ & _ & Hfd & Hsame & _ & _).
  destruct (sys_close k2 fd) as [r k3] eqn:Ec. destruct (lock_close _ _ _ _ i Ec) as [_ Hc].
  { rewrite Hfd. by apply Hsame. }
  eexists _, _. split; [done|]. split; [done|]. cbn [snd]. by rewrite Hc, decide_True.
Qed.

(** [UnlockFile] frees the name and the lock of the system. *)
Lemma UnlockFile_ok k e lock s k' e' i :
  Posix_UnlockFile k e lock = (s, k', e') -> fd_file k (fl_fd lock) = Some i ->
  if Status_ok s then locks_ e' = locks_ e ∖ {[fl_filename lock]} /\ held k' i = false else e' = e /\ held k' i = held k i.
Proof.
  unfold Posix_UnlockFile, LockOrUnlock. intros H Hi. destruct (sys_setlk k (fl_fd lock) false) as [r k1] eqn:El.
  destruct (lock_set _ _ _ _ _ i El Hi) as (_ & Hf & Hh). destruct r as [errno|u].
  - injection H as <- <- <-. rewrite Posix_error_not_ok. split; [done|]. by rewrite Hh, decide_True.
  - injection H as <- <- <-. cbn. destruct (sys_close k1 (fl_fd lock)) as [r k2] eqn:Ec.
    destruct (lock_close _ _ _ _ i Ec) as [_ Hc]; [by rewrite Hf|]. cbn [snd]. by rewrite Hc, decide_True.
Qed.
End Locks.

(** * Background work *)

(** The work items in the order in which they were scheduled, and the thread: not
    started, waiting on the condition variable, about to look at the queue, or
    running an item. *)
Inductive WorkerState : Type := Worker_none | Worker_waiting | Worker_ready | Worker_running (work : Z).
Record Background : Type := { bg_env : PosixEnv; bg_worker : WorkerState; bg_done : list Z; bg_scheduled : list Z }.

Inductive background_step : Background -> Background -> Prop :=
  | Work_scheduled e t ran all work e' started signal :
      Posix_Schedule e work = (e', started, signal) ->
      background_step (Build_Background e t ran all)
        (Build_Background e' (if started then Worker_ready
                              else match t with Worker_waiting => if signal then Worker_ready else t | _ => t end) ran (all ++ [work]))
  | Work_taken e ran all work e' :
      BackgroundThread_take e = Some (work, e') ->
      background_step (Build_Background e Worker_ready ran all) (Build_Background e' (Worker_running work) ran all)
  | Work_awaited e ran all :
      BackgroundThread_take e = None ->
      background_step (Build_Background e Worker_ready ran all) (Build_Background e Worker_waiting ran all)
  | Work_done e ran all work :
      background_step (Build_Background e (Worker_running work) ran all) (Build_Background e Worker_ready (ran ++ [work]) all).

Definition background_start (e : PosixEnv) : Background :=
  {| bg_env := e; bg_worker := Worker_none; bg_done := []; bg_scheduled := [] |}.

(** What ran, what is running and what is queued is what was scheduled, in order,
    each item once; and the thread does not sleep on work. *)
Definition background_inv (b : Background) : Prop :=
  bg_scheduled b = bg_done b ++ (match bg_worker b with Worker_running work => [work] | _ => [] end) ++ background_work_queue_ (bg_env b)
  /\ (started_background_thread_ (bg_env b) = false <-> bg_worker b = Worker_none)
  /\ (background_work_queue_ (bg_env b) <> [] -> bg_worker b <> Worker_none /\ bg_worker b <> Worker_waiting).

Lemma background_step_inv b b' : background_step b b' -> background_inv b -> background_inv b'.
Proof.
  unfold background_inv. intros [e t ran all work e' started signal H|e ran all work e' H|e ran all H|e ran all work]; cbn [bg_env bg_worker bg_done bg_scheduled];
    intros (H1 & H2 & H3).
  - unfold Posix_Schedule in H. injection H as <- <- <-. cbn [env_with_work background_work_queue_ started_background_thread_].
    destruct (started_background_thread_ e) eqn:Es; cbn [negb].
    + case_bool_decide as Hq.
      * destruct t; cbn [app] in *; (split; [rewrite H1, <- ?app_assoc; done|]); (split; [split; [done|by intros [=]]|intros _; split; done]) || idtac.
        exfalso. by assert (true = false) by (by apply H2).
      * destruct (H3 Hq) as [N1 N2]. destruct t; cbn [app] in *; (split; [rewrite H1, <- ?app_assoc; done|]); (split; [split; [done|by intros [=]]|intros _; split; done]).
    + assert (t = Worker_none) as -> by (by apply H2). destruct (background_work_queue_ e) eqn:Eq; [|by destruct (H3 ltac:(done))].
      cbn [app] in *. rewrite H1, !app_nil_r. split; [done|]. split; [split; [done|by intros [=]]|intros _; split; done].
  - unfold BackgroundThread_take in H. destruct (background_work_queue_ e) as [|w q] eqn:Eq; [done|]. injection H as <- <-.
    cbn [env_with_work background_work_queue_ started_background_thread_]. split; [done|]. split; [|done].
    split; [|done]. intros Hs. apply H2 in Hs. done.
  - unfold BackgroundThread_take in H. destruct (background_work_queue_ e) as [|w q] eqn:Eq; [|done].
    split; [done|]. split; [|done]. split; [|done]. intros Hs. by apply H2 in Hs.
  - cbn [app] in *. split; [by rewrite H1, <- app_assoc|]. split; [|done]. split; [|done]. intros Hs. by apply H2 in Hs.
Qed.

Lemma background_in_order e b :
  started_background_thread_ e = false -> background_work_queue_ e = [] ->
  rtc background_step (background_start e) b -> background_inv b.
Proof.
  intros Hs Hq H. assert (background_inv (background_start e)) as Hi.
  { unfold background_inv. cbn. rewrite Hs, Hq. done. }
  revert Hi. induction H as [|b1 b2 b3 H12 _ IH]; [done|]. intros Hb. by apply IH, (background_step_inv b1).
Qed.

(** * A system in memory *)

(** Files are numbered, names and descriptors refer to them; [w_room] bytes fit on
    the disk; what happens to the next reads and writes is told: a signal before
    anything is read or written, a short read or write, or an error that goes away. *)
Inductive WorldEvent : Type := Signal | Short (n : nat) | Trouble.

Record World : Type := {
  w_names : gmap bytes Z; w_files : gmap Z bytes; w_fds : gmap Z (Z * nat); w_locks : gset Z; w_next : Z;
  w_script : list WorldEvent; w_room : nat }.

Definition World_new (script : list WorldEvent) (room : nat) : World :=
  {| w_names := ∅; w_files := ∅; w_fds := ∅; w_locks := ∅; w_next := 3; w_script := script; w_room := room |}.

Definition world_set (w : World) names files fds locks next script room : World :=
  {| w_names := names; w_files := files; w_fds := fds; w_locks := locks; w_next := next;
     w_script := script; w_room := room |}.

Definition world_fds (w : World) fds : World :=
  world_set w (w_names w) (w_files w) fds (w_locks w) (w_next w) (w_script w) (w_room w).
Definition world_names (w : World) names : World :=
  world_set w names (w_files w) (w_fds w) (w_locks w) (w_next w) (w_script w) (w_room w).
Definition world_locks (w : World) locks : World :=
  world_set w (w_names w) (w_files w) (w_fds w) locks (w_next w) (w_script w) (w_room w).
Definition world_script (w : World) script : World :=
  world_set w (w_names w) (w_files w) (w_fds w) (w_locks w) (w_next w) script (w_room w).

Definition world_file (w : World) (i : Z) : bytes := let file : option bytes := w_files w !! i in default [] file.
Definition world_data (w : World) (fd : Z) : bytes := match w_fds w !! fd with Some (i, _) => world_file w i | None => [] end.
Definition world_unread (w : World) (fd : Z) : bytes := match w_fds w !! fd with Some (i, pos) => drop pos (world_file w i) | None => [] end.
Definition world_sound (w : World) (fd : Z) : bool :=
  bool_decide (is_Some (w_fds w !! fd)) && forallb (fun v => match v with Signal => true | _ => false end) (w_script w).

Definition EIO : Z := 5.
Definition EBADF : Z := 9.
Definition EMFILE : Z := 24.
Definition ENOSPC : Z := 28.

Definition world_open (w : World) (n : bytes) (flags : Z) : (Z + Z) * World :=
  let fd := w_next w in
  if decide (w_fds w !! fd = None) then
    let file : option Z := w_names w !! n in
    match file with
    | Some i =>
        let files := if Z.testbit flags 10 then <[i := []]> (w_files w) else w_files w in
        (inr fd, world_set w (w_names w) files (<[fd := (i, 0%nat)]> (w_fds w)) (w_locks w) (fd + 1) (w_script w) (w_room w))
    | None =>
        if Z.testbit flags 9 then
          (inr fd, world_set w (<[n := fd]> (w_names w)) (<[fd := []]> (w_files w)) (<[fd := (fd, 0%nat)]> (w_fds w)) (w_locks w)
                     (fd + 1) (w_script w) (w_room w))
        else (inl ENOENT, w)
    end
  else (inl EMFILE, w).

Definition world_close (w : World) (fd : Z) : (Z + unit) * World :=
  match w_fds w !! fd with
  | Some (i, _) => (inr tt, world_locks (world_fds w (delete fd (w_fds w))) (w_locks w ∖ {[i]}))
  | None => (inl EBADF, w)
  end.

Definition world_write (w : World) (fd : Z) (data : bytes) : (Z + Z) * World :=
  match w_fds w !! fd with
  | None => (inl EBADF, w)
  | Some (i, pos) =>
      match w_script w with
      | Signal :: script => (inl EINTR, world_script w script)
      | Trouble :: script => (inl EIO, world_script w script)
      | l =>
          if (w_room w =? 0)%nat then (inl ENOSPC, world_script w (tail l))
          else
            let most := match l with Short n :: _ => Nat.max 1 n | _ => length data end in
            let n := Nat.min most (Nat.min (length data) (w_room w)) in
            (inr (Z.of_nat n),
             world_set w (w_names w) (<[i := world_file w i ++ take n data]> (w_files w)) (w_fds w) (w_locks w) (w_next w)
               (tail l) (w_room w - n))
      end
  end.

Definition world_read (w : World) (fd n : Z) : (Z + bytes) * World :=
  match w_fds w !! fd with
  | None => (inl EBADF, w)
  | Some (i, pos) =>
      match w_script w with
      | Signal :: script => (inl EINTR, world_script w script)
      | Trouble :: script => (inl EIO, world_script w script)
      | l =>
          let most := match l with Short k :: _ => Nat.min k (Z.to_nat n) | _ => Z.to_nat n end in
          let data := take most (drop pos (world_file w i)) in
          (inr data, world_script (world_fds w (<[fd := (i, pos + length data)%nat]> (w_fds w))) (tail l))
      end
  end.

Definition world_by_name {A} (w : World) (n : bytes) (f : Z -> A) : Z + A :=
  let file : option Z := w_names w !! n in match file with Some i => inr (f i) | None => inl ENOENT end.

(** A region of 2^32 addresses for every file. *)
Definition world_memory (w : World) (a n : Z) : option bytes :=
  let i := a / 2 ^ 32 - 1 in
  let offset := a mod 2 ^ 32 in
  c ← w_files w !! i;
  if offset + n <=? zlen c then Some (take (Z.to_nat n) (drop (Z.to_nat offset) c)) else None.

#[export] Instance World_Kernel : Kernel World := {
  sys_open := world_open;
  sys_close := world_close;
  sys_read := world_read;
  sys_pread w fd n offset :=
    match w_fds w !! fd with
    | Some (i, _) => inr (take (Z.to_nat n) (drop (Z.to_nat offset) (world_file w i)))
    | None => inl EBADF
    end;
  sys_lseek w fd n :=
    match w_fds w !! fd with
    | Some (i, pos) => (inr (Z.of_nat pos + n), world_fds w (<[fd := (i, pos + Z.to_nat n)%nat]> (w_fds w)))
    | None => (inl EBADF, w)
    end;
  sys_write := world_write;
  sys_fullfsync w fd := (inr tt, w);
  sys_fsync w fd := (inr tt, w);
  sys_setlk w fd lock :=
    match w_fds w !! fd with
    | Some (i, _) => (inr tt, world_locks w (if lock : bool then {[i]} ∪ w_locks w else w_locks w ∖ {[i]}))
    | None => (inl EBADF, w)
    end;
  sys_mmap w n fd :=
    match w_fds w !! fd with
    | Some (i, _) => (if n =? 0 then inl EINVAL else inr ((i + 1) * 2 ^ 32), w)
    | None => (inl EBADF, w)
    end;
  sys_munmap w base n := w;
  sys_memory := world_memory;
  sys_access w n := bool_decide (is_Some (w_names w !! n));
  sys_readdir w d := inr ((fun f : bytes * Z => drop (length d + 1) f.1) <$> map_to_list (w_names w));
  sys_unlink w n := (world_by_name w n (fun _ => tt), world_names w (delete n (w_names w)));
  sys_mkdir w d := (inr tt, w);
  sys_rmdir w d := (inr tt, w);
  sys_stat w n := world_by_name w n (fun i => zlen (world_file w i));
  sys_rename w a b :=
    let file : option Z := w_names w !! a in
    match file with Some i => (inr tt, world_names w (<[b := i]> (delete a (w_names w)))) | None => (inl ENOENT, w) end;
  sys_fopen := fun w n => world_open w n (O_TRUNC ||| O_WRONLY ||| O_CREAT);
  sys_rlimit_nofile w := Some (Some 256);
  strerror e := str "error " ++ decimal e;
  sys_patience w := length (w_script w)
}.

#[export] Instance World_write_law : KernelWriteLaw World world_data.
Proof.
  split.
  - intros w fd data n w' H Hd. cbn [sys_write World_Kernel] in H. unfold world_write in H. unfold world_data.
    destruct (w_fds w !! fd) as [[i pos]|] eqn:E; [|done].
    assert (0 < length data)%nat by (destruct data; [done|cbn; lia]).
    destruct (w_script w) as [|[|m|] script] eqn:Es; try done; (destruct (Nat.eqb_spec (w_room w) 0) as [|Hr]; [done|]); injection H as <- <-;
      cbn [world_set w_fds]; rewrite E; unfold world_file; cbn [world_set w_files]; rewrite lookup_insert_eq, Nat2Z.id; cbn [default from_option id]; (split; [lia|done]).
  - intros w fd data w' H. cbn [sys_write World_Kernel] in H. unfold world_write in H. unfold world_data.
    destruct (w_fds w !! fd) as [[i pos]|] eqn:E; [|done]. destruct (w_script w) as [|[|m|] script] eqn:Es; try done.
    + destruct (_ =? _)%nat; done.
    + injection H as <-. cbn. by rewrite E.
    + destruct (_ =? _)%nat; done.
  - intros w fd data e w' H. exists []. rewrite app_nil_r. split; [apply prefix_nil|]. revert H. cbn [sys_write World_Kernel]. unfold world_write, world_data.
    destruct (w_fds w !! fd) as [[i pos]|] eqn:E; [|intros [= <- <-]; by rewrite E].
    destruct (w_script w) as [|[|m|] script]; try (destruct (_ =? _)%nat; [|done]); intros [= <- <-]; cbn; by rewrite E.
Qed.

#[export] Instance World_few_signals : FewSignals World.
Proof.
  split.
  - intros w fd data r w'. cbn [sys_write World_Kernel sys_patience]. unfold world_write. destruct (w_fds w !! fd) as [[i pos]|]; [|by intros [= <- <-]].
    destruct (w_script w) as [|[|m|] script] eqn:Es; try (destruct (_ =? _)%nat); intros [= <- <-]; cbn; split; first [lia|done|intros [=]].
  - intros w fd n r w'. cbn [sys_read World_Kernel sys_patience]. unfold world_read. destruct (w_fds w !! fd) as [[i pos]|]; [|by intros [= <- <-]].
    destruct (w_script w) as [|[|m|] script] eqn:Es; intros [= <- <-]; cbn; split; first [lia|done|intros [=]].
Qed.

Lemma world_sound_open w fd : world_sound w fd = true ->
  exists i pos, w_fds w !! fd = Some (i, pos) /\ forallb (fun v => match v with Signal => true | _ => false end) (w_script w) = true.
Proof. unfold world_sound. intros [[[i pos] H]%bool_decide_eq_true_1 Hs]%andb_true_iff. by exists i, pos. Qed.

#[export] Instance World_read_law : KernelReadLaw World world_unread world_sound.
Proof.
  split.
  - intros w fd n data w' H Hn. cbn [sys_read World_Kernel] in H. unfold world_read in H.
    destruct (w_fds w !! fd) as [[i pos]|] eqn:E; [|done].
    assert (exists most, (most <= Z.to_nat n)%nat /\ data = take most (drop pos (world_file w i))
      /\ w' = world_script (world_fds w (<[fd := (i, pos + length data)%nat]> (w_fds w))) (tail (w_script w))
      /\ (world_sound w fd = true -> most = Z.to_nat n)) as (most & Hm & Hd & -> & Hsm).
    { destruct (w_script w) as [|[|m|] script] eqn:Es; try done; injection H as <- <-.
      - by exists (Z.to_nat n).
      - exists (Nat.min m (Z.to_nat n)). split_and!; [lia|done|done|].
        intros (i' & pos' & _ & Hs)%world_sound_open. by rewrite Es in Hs. }
    unfold world_unread at 1 2 3. cbn [world_script world_fds world_set w_fds]. rewrite E, lookup_insert_eq. unfold world_file. cbn [world_script world_fds world_set w_files].
    fold (world_file w i). split_and!.
    + rewrite Hd, length_take. lia.
    + rewrite <- drop_drop. rewrite Hd, length_take. destruct (decide (most <= length (drop pos (world_file w i)))%nat) as [Hle|Hgt].
      * by rewrite Nat.min_l, take_drop by done.
      * rewrite Nat.min_r, (take_ge _ most), (drop_ge _ (length _)), app_nil_r by lia. done.
    + intros Hso. rewrite <- (Hsm Hso). split; [done|]. destruct (world_sound_open w fd Hso) as (i' & pos' & _ & Hs). unfold world_sound.
      cbn [world_script world_fds world_set w_fds w_script]. rewrite lookup_insert_eq, bool_decide_eq_true_2 by done. cbn [andb].
      destruct (w_script w) as [|v script]; [done|]. by apply andb_true_iff in Hs as [_ Hs].
  - intros w fd n w' H. cbn [sys_read World_Kernel] in H. unfold world_read in H. unfold world_unread.
    destruct (w_fds w !! fd) as [[i pos]|] eqn:E; [|done]. destruct (w_script w) as [|[|m|] script] eqn:Es; try done.
    injection H as <-. cbn. rewrite E. split; [done|]. unfold world_sound. cbn. by rewrite Es.
  - intros w fd n e w' H Hne. cbn [sys_read World_Kernel] in H. unfold world_read in H. unfold world_unread, world_sound.
    destruct (w_fds w !! fd) as [[i pos]|] eqn:E.
    + destruct (w_script w) as [|[|m|] script] eqn:Es; try done; injection H as <- <-; [done|]. cbn. by rewrite E.
    + injection H as <- <-. rewrite E. done.
  - intros w fd n r w' H Hn. cbn [sys_lseek World_Kernel] in H. unfold world_unread.
    destruct (w_fds w !! fd) as [[i pos]|] eqn:E; injection H as <- <-; [|by rewrite E].
    cbn [world_fds world_set w_fds]. rewrite lookup_insert_eq. unfold world_file. cbn [world_fds world_set w_files]. rewrite !length_drop. lia.
Qed.

#[export] Instance World_lock_law :
  KernelLockLaw World (fun w fd => fst <$> w_fds w !! fd) (fun w n => w_names w !! n) (fun w i => bool_decide (i ∈ w_locks w)).
Proof.
  split.
  - intros w n flags fd w' H. cbn [sys_open World_Kernel] in H. unfold world_open in H. cbv zeta in H.
    case_decide as Hd; [|done]. destruct (w_names w !! n) as [i|] eqn:E.
    + injection H as <- <-. cbn. rewrite Hd, E, lookup_insert_eq. split_and!; try done. intros fd' Hf. by rewrite lookup_insert_ne.
    + destruct (Z.testbit flags 9); [|done]. injection H as <- <-. cbn. rewrite Hd, !lookup_insert_eq.
      split_and!; try done. intros fd' Hf. by rewrite lookup_insert_ne.
  - intros w fd lock r w' i H Hi. cbn [sys_setlk World_Kernel] in H. destruct (w_fds w !! fd) as [[i' pos]|] eqn:E; [|done].
    cbn in Hi. injection Hi as ->. injection H as <- <-. cbn. split_and!; [done|done|]. intros j.
    case_decide as Hj; [subst j|]; destruct lock; (apply bool_decide_eq_true_2 || apply bool_decide_eq_false_2 || apply bool_decide_ext); set_solver.
  - intros w fd r w' i H Hi. cbn [sys_close World_Kernel] in H. unfold world_close in H. destruct (w_fds w !! fd) as [[i' pos]|] eqn:E; [|done].
    cbn in Hi. injection Hi as ->. injection H as <- <-. cbn. split; [done|]. intros j.
    case_decide as Hj; [subst j; apply bool_decide_eq_false_2|apply bool_decide_ext]; set_solver.
Qed.

(** A log that is written with signals and short writes, and read back. *)
Definition log_name : bytes := str "db/000003.log".
Definition log_world : World :=
  (Posix_NewWritableFile (World_new [Signal; Short 3; Signal; Short 1; Short 9; Signal] 100) log_name).2.

Lemma posix_log_recovery_witness :
  exists s w kr g, AddRecords (Writer_new (log_world, PosixWritableFile_new log_name 3)) 0 sample_records = Some (s, w)
    /\ Status_ok s = true
    /\ Posix_NewSequentialFile (world_script (dest_ w).1 [Signal; Signal]) log_name = (Status_OK, Some g, kr)
    /\ exists j r, ReadRecords (S j) 8 (Reader_new (kr, g) (Some []) true 0 64) = Some (sample_records, r) /\ reports r = [].
Proof.
  destruct (posix_log_recovery (fd_data := world_data) (fd_unread := world_unread) (sound := world_sound) sample_records 0 8 true 64 log_world log_name 3)
    as (s & w & E & Hd & Hr); [reflexivity|repeat constructor; discriminate|repeat constructor; discriminate|lia|].
  vm_compute in E. injection E as <- <-.
  eexists _, _, _, _. split; [vm_compute; reflexivity|]. split; [reflexivity|]. split; [vm_compute; reflexivity|].
  match goal with |- exists j r, ReadRecords _ _ (Reader_new (?kr, ?g) _ _ _ _) = _ /\ _ =>
    destruct (Hr kr g) as (j & r & Er & Hrep & _ & Hall); [reflexivity|vm_compute; by exists []|] end.
  exists j, r. rewrite Hall in Er; [by split|reflexivity|vm_compute; reflexivity].
Defined.

(** Two attempts to lock a database. *)
Lemma second_LockFile_drops_lock_witness :
  exists lock k1 e1 k2, Posix_LockFile (World_new [] 0) (PosixEnv_new (World_new [] 0) globals_default).1 (str "db/LOCK") = (Status_OK, lock, k1, e1)
    /\ 3 ∈ w_locks k1
    /\ Posix_LockFile k1 e1 (str "db/LOCK") = (Status_IOError (str "lock db/LOCK") (str "already held by process"), None, k2, e1)
    /\ 3 ∉ w_locks k2.
Proof.
  destruct (Posix_LockFile (World_new [] 0) (PosixEnv_new (World_new [] 0) globals_default).1 (str "db/LOCK")) as [[[s lock] k1] e1] eqn:E.
  destruct (second_LockFile_drops_lock (fd_file := fun w fd => fst <$> w_fds w !! fd) (file_of := fun w n => w_names w !! n)
              (held := fun w i => bool_decide (i ∈ w_locks w)) _ _ _ _ _ _ _ E) as (_ & i & Hi & Hh & H2).
  { vm_compute in E. by injection E as <- _ _ _. }
  vm_compute in E. injection E as <- <- <- <-.
  assert (i = 3) as -> by (vm_compute in Hi; congruence).
  destruct (H2 4 _ ltac:(vm_compute; reflexivity)) as (s2 & k3 & E2 & _ & Hno).
  eexists _, _, _, k3. split; [reflexivity|]. split; [by apply bool_decide_eq_true_1 in Hh|].
  split; [|by apply bool_decide_eq_false_1 in Hno]. rewrite E2. vm_compute in E2. injection E2 as <- _. vm_compute. reflexivity.
Defined.

(** A block handle of a damaged table: the offset and the size wrap around, and the
    slice that is handed out starts before the mapped file. *)
Example mmap_Read_outside :
  PosixMmapReadableFile_Read {| mf_base_ := 2 ^ 40; mf_length_ := 4096; mf_filename_ := [] |} (2 ^ 64 - 100) 150
  = (Status_OK, (2 ^ 40 - 100, 150)).
Proof. reflexivity. Qed.
