(* ===== verification/LdbArena.v ===== *)
(** leveldb: the arena, [arena.h] and [arena.cc], and the random numbers of
    [random.h].

    [new char[n]] is the class [NewChar]: the address of a block, given the
    blocks in use.  [ArenaAlloc] is what the skip list and the table in memory
    rely on. *)
From stdpp Require Import base numbers option list.
From S2P Require Import Prelude.
Open Scope Z_scope.
Open Scope c_scope.

(** * Memory *)

(** A range of addresses, its first and its length. *)
Definition range : Type := Z * Z.

Definition disjoint_ranges (a b : range) : Prop :=
  fst a + snd a <= fst b \/ fst b + snd b <= fst a.

Definition inside (a b : range) : Prop := fst b <= fst a /\ fst a + snd a <= fst b + snd b.

(** [operator new] of the language: the block is aligned for any object and
    apart from those in use. *)
Class NewChar : Type := new_char : list range -> Z -> Z.

Class NewCharLaw (N : NewChar) : Prop := {
  new_char_aligned used n : 0 < n -> (16 | new_char used n);
  new_char_pos used n : 0 < n -> 0 < new_char used n;
  new_char_disjoint used n b : 0 < n -> b ∈ used -> disjoint_ranges (new_char used n, n) b
}.

(** Above everything in use. *)
#[export] Instance bump_new : NewChar := fun used n =>
  16 * (1 + fold_right (fun b m => Z.max m (fst b + snd b)) 0 used / 16 + 1).

Lemma bump_above used b :
  b ∈ used -> fst b + snd b <= fold_right (fun b m => Z.max m (fst b + snd b)) 0 used.
Proof.
  induction used as [|c used IH]; [by intros ?%not_elem_of_nil|].
  intros [->|Hb]%elem_of_cons; simpl; [lia|]. specialize (IH Hb). lia.
Qed.

#[export] Instance bump_law : NewCharLaw bump_new.
Proof.
  assert (forall used, 0 <= fold_right (fun b m => Z.max m (fst b + snd b)) 0 used) as Hn.
  { intros used. induction used; simpl; lia. }
  split; intros used n; unfold new_char, bump_new; specialize (Hn used).
  - intros _. eexists. rewrite Z.mul_comm. done.
  - intros _. Z.to_euclidean_division_equations; lia.
  - intros b Hpos Hb%bump_above. right. cbn [fst snd]. Z.to_euclidean_division_equations; lia.
Qed.

(** * Arena *)
Definition kArenaBlockSize : Z := 4096.

(** [blocks_] with their sizes; a null [alloc_ptr_] is 0. *)
Record Arena : Type := {
  alloc_ptr_ : Z;
  alloc_bytes_remaining_ : Z;
  blocks_ : list range;
  memory_usage_ : Z
}.

Definition Arena_new : Arena :=
  {| alloc_ptr_ := 0; alloc_bytes_remaining_ := 0; blocks_ := []; memory_usage_ := 0 |}.

Definition MemoryUsage (a : Arena) : Z := memory_usage_ a.

Section Operations.
Context `{N : NewChar}.

Definition AllocateNewBlock (a : Arena) (block_bytes : Z) : Z * Arena :=
  let result := new_char (blocks_ a) block_bytes in
  (result,
   {| alloc_ptr_ := alloc_ptr_ a; alloc_bytes_remaining_ := alloc_bytes_remaining_ a;
      blocks_ := blocks_ a ++ [(result, block_bytes)];
      memory_usage_ := u64 (memory_usage_ a + u64 (block_bytes + 8)) |}).

(** [alloc_ptr_ += n], [alloc_bytes_remaining_ -= n] *)
Definition take_bytes (a : Arena) (n : Z) : Arena :=
  {| alloc_ptr_ := alloc_ptr_ a + n; alloc_bytes_remaining_ := u64 (alloc_bytes_remaining_ a - n);
     blocks_ := blocks_ a; memory_usage_ := memory_usage_ a |}.

Definition AllocateFallback (a : Arena) (nbytes : Z) : Z * Arena :=
  if nbytes >? kArenaBlockSize / 4 then AllocateNewBlock a nbytes
  else
    let '(ptr, a) := AllocateNewBlock a kArenaBlockSize in
    let a := {| alloc_ptr_ := ptr; alloc_bytes_remaining_ := kArenaBlockSize;
                blocks_ := blocks_ a; memory_usage_ := memory_usage_ a |} in
    (alloc_ptr_ a, take_bytes a nbytes).

Definition Allocate (a : Arena) (nbytes : Z) : Z * Arena :=
  if nbytes <=? alloc_bytes_remaining_ a
  then (alloc_ptr_ a, take_bytes a nbytes)
  else AllocateFallback a nbytes.

Definition AllocateAligned (a : Arena) (nbytes : Z) : Z * Arena :=
  let align := 8 in
  let current_mod := alloc_ptr_ a &&& (align - 1) in
  let slop := if current_mod =? 0 then 0 else align - current_mod in
  let needed := u64 (nbytes + slop) in
  if needed <=? alloc_bytes_remaining_ a
  then (alloc_ptr_ a + slop, take_bytes a needed)
  else AllocateFallback a nbytes.
End Operations.

(** * Correctness *)

(** [used] are the ranges handed out: they lie in blocks, apart from each
    other and from the bytes that are free, which end a block. *)
Record arena_inv (a : Arena) (used : list range) : Prop := {
  inv_blocks : forall b, b ∈ blocks_ a -> 0 < fst b /\ 0 < snd b;
  inv_free : 0 <= alloc_bytes_remaining_ a < 2 ^ 63
    /\ (alloc_bytes_remaining_ a = 0
        \/ exists b, b ∈ blocks_ a /\ inside (alloc_ptr_ a, alloc_bytes_remaining_ a) b);
  inv_used : forall r, r ∈ used ->
    0 < fst r /\ 0 < snd r
    /\ (exists b, b ∈ blocks_ a /\ inside r b)
    /\ (alloc_bytes_remaining_ a = 0
        \/ disjoint_ranges r (alloc_ptr_ a, alloc_bytes_remaining_ a))
}.

Lemma arena_inv_new : arena_inv Arena_new [].
Proof.
  split; cbn [blocks_ alloc_bytes_remaining_ Arena_new].
  - intros b Hb. by apply not_elem_of_nil in Hb.
  - split; [lia|by left].
  - intros r Hr. by apply not_elem_of_nil in Hr.
Qed.

(** A new range of [n] bytes at [p]. *)
Definition allocates (a : Arena) (used : list range) (n : Z) (res : Z * Arena) : Prop :=
  arena_inv (snd res) ((fst res, n) :: used)
  /\ 0 < fst res /\ forall r, r ∈ used -> disjoint_ranges r (fst res, n).

(** Taking [n] bytes after [slop] bytes of those that are free. *)
Lemma take_bytes_inv a used slop n :
  arena_inv a used -> 0 <= slop -> 0 < n -> slop + n <= alloc_bytes_remaining_ a ->
  allocates a used n (alloc_ptr_ a + slop, take_bytes a (slop + n)).
Proof.
  intros [Hb [Hr Hf] Hu] Hs Hn Hle. destruct Hf as [Hf|(b & Hin & Hi1 & Hi2)]; [lia|].
  cbn [fst snd] in *. destruct (Hb b Hin) as [Hb1 Hb2]. unfold allocates. cbn [fst snd].
  assert (u64 (alloc_bytes_remaining_ a - (slop + n)) = alloc_bytes_remaining_ a - (slop + n)) as Eu.
  { apply u64_small. unfold in_uint. lia. }
  split_and!; [split|lia|].
  - exact Hb.
  - cbn [take_bytes alloc_bytes_remaining_ alloc_ptr_ blocks_]. rewrite Eu. split; [lia|]. right.
    exists b. split; [done|]. unfold inside. cbn [fst snd]. lia.
  - cbn [take_bytes alloc_bytes_remaining_ alloc_ptr_ blocks_]. rewrite Eu.
    intros r [->|Hin']%elem_of_cons; cbn [fst snd].
    + split_and!; [lia|lia| |].
      * exists b. split; [done|]. unfold inside. cbn [fst snd]. lia.
      * right. unfold disjoint_ranges. cbn [fst snd]. lia.
    + destruct (Hu r Hin') as (H1 & H2 & H3 & H4). split_and!; [done..|].
      destruct H4 as [|H4]; [lia|]. right. unfold disjoint_ranges in *. cbn [fst snd] in *. lia.
  - intros r Hin'. destruct (Hu r Hin') as (H1 & H2 & H3 & H4). destruct H4 as [|H4]; [lia|].
    unfold disjoint_ranges in *. cbn [fst snd] in *. lia.
Qed.

Section Laws.
Context `{N : NewChar} {NL : NewCharLaw N}.

Lemma new_block_apart a used n r :
  arena_inv a used -> 0 < n -> r ∈ used -> disjoint_ranges r (new_char (blocks_ a) n, n).
Proof.
  intros [Hb _ Hu] Hn Hr. destruct (Hu r Hr) as (H1 & H2 & (b & Hin & Hi) & _).
  pose proof (new_char_disjoint (blocks_ a) n b Hn Hin) as Hd.
  unfold disjoint_ranges, inside in *. cbn [fst snd] in *. lia.
Qed.

Lemma AllocateNewBlock_inv a used n :
  arena_inv a used -> 0 < n -> allocates a used n (AllocateNewBlock a n).
Proof.
  intros Hi Hn. pose proof Hi as [Hb [Hr Hf] Hu]. unfold allocates, AllocateNewBlock. cbn [fst snd].
  pose proof (new_char_pos (blocks_ a) n Hn) as Hp.
  split_and!; [split|done|].
  - cbn [blocks_]. intros b [Hin|Hin]%elem_of_app; [by apply Hb|].
    apply list_elem_of_singleton in Hin as ->. done.
  - cbn [blocks_ alloc_bytes_remaining_ alloc_ptr_]. split; [done|].
    destruct Hf as [|(b & Hin & Hi')]; [by left|]. right. exists b.
    split; [by apply elem_of_app; left|done].
  - cbn [blocks_ alloc_bytes_remaining_ alloc_ptr_]. intros r [->|Hin]%elem_of_cons; cbn [fst snd].
    + split_and!; [done..| |].
      * exists (new_char (blocks_ a) n, n). split; [|unfold inside; lia].
        apply elem_of_app. right. by apply list_elem_of_singleton.
      * destruct Hf as [|(b & Hin & Hi')]; [by left|]. right.
        pose proof (new_char_disjoint (blocks_ a) n b Hn Hin) as Hd.
        unfold disjoint_ranges, inside in *. cbn [fst snd] in *. lia.
    + destruct (Hu r Hin) as (H1 & H2 & (b & Hin' & Hi') & H4). split_and!; [done..| |done].
      exists b. split; [by apply elem_of_app; left|done].
  - intros r Hin. by apply (new_block_apart a used n).
Qed.

Lemma AllocateFallback_inv a used n :
  arena_inv a used -> 0 < n -> allocates a used n (AllocateFallback a n).
Proof.
  intros Hi Hn. unfold AllocateFallback. change kArenaBlockSize with 4096.
  destruct (Z.gtb_spec n (4096 / 4)) as [|Hle]; [by apply AllocateNewBlock_inv|].
  change (4096 / 4) with 1024 in Hle.
  unfold AllocateNewBlock. cbv beta iota zeta. cbn [blocks_ memory_usage_ alloc_ptr_].
  set (a1 := {| alloc_ptr_ := new_char (blocks_ a) 4096; alloc_bytes_remaining_ := 4096 |}).
  pose proof Hi as [Hb _ Hu].
  assert (arena_inv a1 used) as Hi1.
  { split; cbn [blocks_ alloc_bytes_remaining_ alloc_ptr_ a1].
    - intros b [Hin|Hin]%elem_of_app; [by apply Hb|].
      apply list_elem_of_singleton in Hin as ->. split; [by apply new_char_pos|done].
    - split; [lia|]. right. exists (new_char (blocks_ a) 4096, 4096).
      split; [|unfold inside; lia]. apply elem_of_app. right. by apply list_elem_of_singleton.
    - intros r Hin. destruct (Hu r Hin) as (H1 & H2 & (b & Hin' & Hi') & _). split_and!; [done..| |].
      + exists b. split; [by apply elem_of_app; left|done].
      + right. by apply (new_block_apart a used). }
  pose proof (take_bytes_inv a1 used 0 n Hi1 ltac:(lia) Hn) as Ht.
  cbn [alloc_bytes_remaining_ a1] in Ht. specialize (Ht ltac:(lia)).
  rewrite Z.add_0_r, Z.add_0_l in Ht. exact Ht.
Qed.

Lemma Allocate_inv a used n :
  arena_inv a used -> 0 < n -> allocates a used n (Allocate a n).
Proof.
  intros Hi Hn. unfold Allocate.
  destruct (Z.leb_spec n (alloc_bytes_remaining_ a)); [|by apply AllocateFallback_inv].
  pose proof (take_bytes_inv a used 0 n Hi ltac:(lia) Hn ltac:(lia)) as Ht.
  by rewrite Z.add_0_r, Z.add_0_l in Ht.
Qed.

Lemma slop_aligned p :
  let current_mod := p &&& (8 - 1) in
  let slop := if current_mod =? 0 then 0 else 8 - current_mod in
  0 <= slop < 8 /\ (8 | p + slop).
Proof.
  cbv zeta. change (8 - 1) with (Z.ones 3). rewrite Z.land_ones by lia. change (2 ^ 3) with 8.
  pose proof (Z.mod_pos_bound p 8 ltac:(lia)).
  destruct (Z.eqb_spec (p mod 8) 0) as [E|Hne].
  - split; [lia|]. rewrite Z.add_0_r. by apply Z.mod_divide.
  - split; [lia|]. apply Z.mod_divide; [done|]. Z.to_euclidean_division_equations; lia.
Qed.

Lemma AllocateAligned_inv a used n :
  arena_inv a used -> 0 < n < 2 ^ 63 ->
  allocates a used n (AllocateAligned a n) /\ (8 | fst (AllocateAligned a n)).
Proof.
  intros Hi Hn. unfold AllocateAligned. cbv zeta.
  pose proof (slop_aligned (alloc_ptr_ a)) as Hs. cbv zeta in Hs.
  revert Hs. generalize (if alloc_ptr_ a &&& (8 - 1) =? 0 then 0 else 8 - (alloc_ptr_ a &&& (8 - 1))).
  intros slop [Hs Hd]. rewrite u64_small by (unfold in_uint; pow2; lia).
  destruct (Z.leb_spec (n + slop) (alloc_bytes_remaining_ a)).
  - split; [|done]. rewrite (Z.add_comm n). apply take_bytes_inv; (done || lia).
  - split; [apply AllocateFallback_inv; (done || lia)|].
    assert (forall m, 0 < m -> (8 | new_char (blocks_ a) m)) as H8.
    { intros m Hm. destruct (new_char_aligned (blocks_ a) m Hm) as [k ->]. exists (2 * k). lia. }
    unfold AllocateFallback. destruct (n >? _); [apply H8; lia|].
    cbn [AllocateNewBlock fst alloc_ptr_]. by apply H8.
Qed.
End Laws.

(** * Random *)
Definition Random_new (s : Z) : Z :=
  let seed := s &&& 0x7fffffff in
  if (seed =? 0) || (seed =? 2147483647) then 1 else seed.

(** The new [seed_], which is the result, too. *)
Definition Random_Next (seed : Z) : Z :=
  let M := 2147483647 in
  let A := 16807 in
  let product := u64 (seed * A) in
  let seed := u32 ((product ≫ 31) + (product &&& M)) in
  if seed >? M then seed - M else seed.

Definition Random_Uniform (seed n : Z) : Z * Z :=
  let seed := Random_Next seed in (seed mod n, seed).

Definition Random_OneIn (seed n : Z) : bool * Z :=
  let seed := Random_Next seed in (seed mod n =? 0, seed).

Definition Random_Skewed (seed max_log : Z) : Z * Z :=
  let '(l, seed) := Random_Uniform seed (max_log + 1) in
  Random_Uniform seed (1 ≪ l).

Lemma Random_Next_mod seed :
  0 < seed < 2147483647 -> Random_Next seed = (seed * 16807) mod 2147483647.
Proof.
  intros Hs. unfold Random_Next. cbv zeta. rewrite u64_small by (unfold in_uint; lia).
  set (p := seed * 16807). rewrite shiftr_div by lia.
  replace (p &&& 2147483647) with (p mod 2 ^ 31) by (symmetry; exact (land_mask p 31 ltac:(lia))).
  change (2 ^ 31) with 2147483648.
  assert (0 <= p / 2147483648 < 16807) as Hq.
  { split; [apply Z.div_pos; unfold p; lia|]. apply Z.div_lt_upper_bound; unfold p; lia. }
  pose proof (Z.mod_pos_bound p 2147483648 ltac:(lia)) as Hm.
  pose proof (Z.div_mod p 2147483648 ltac:(lia)) as Ep.
  rewrite u32_small by (unfold in_uint; lia).
  assert (p mod 2147483647 <> 0) as Hnz.
  { intros E. apply Z.mod_divide in E; [|done]. unfold p in E. rewrite Z.mul_comm in E.
    apply Z.gauss in E; [|done]. apply Z.divide_pos_le in E; lia. }
  assert (p = p / 2147483648 + p mod 2147483648 + (p / 2147483648) * 2147483647) as Er by lia.
  revert Hm Er Hq. generalize (p / 2147483648) (p mod 2147483648). intros q m Hm Er Hq.
  rewrite Er, Z_mod_plus_full in Hnz. rewrite Er, Z_mod_plus_full.
  destruct (Z.gtb_spec (q + m) 2147483647) as [Hgt|Hle].
  - symmetry. replace (q + m) with (q + m - 2147483647 + 1 * 2147483647) at 1 by lia.
    rewrite Z_mod_plus_full. apply Z.mod_small. lia.
  - assert (q + m = 2147483647 \/ q + m < 2147483647) as [E|Hlt] by lia.
    + by rewrite E, Z_mod_same_full in Hnz.
    + by rewrite Z.mod_small by lia.
Qed.

(** The seed stays among the good ones. *)
Lemma Random_Next_range seed : 0 < seed < 2147483647 -> 0 < Random_Next seed < 2147483647.
Proof.
  intros Hs. rewrite Random_Next_mod by done.
  pose proof (Z.mod_pos_bound (seed * 16807) 2147483647 ltac:(lia)).
  assert ((seed * 16807) mod 2147483647 <> 0); [|lia].
  intros E. apply Z.mod_divide in E; [|done]. rewrite Z.mul_comm in E.
  apply Z.gauss in E; [|done]. apply Z.divide_pos_le in E; lia.
Qed.

Lemma Random_new_range s : 0 < Random_new s < 2147483647.
Proof.
  unfold Random_new. cbv zeta.
  replace (s &&& 0x7fffffff) with (s mod 2 ^ 31) by (symmetry; exact (land_mask s 31 ltac:(lia))).
  pose proof (Z.mod_pos_bound s (2 ^ 31) ltac:(lia)).
  destruct (Z.eqb_spec (s mod 2 ^ 31) 0), (Z.eqb_spec (s mod 2 ^ 31) 2147483647); simpl; lia.
Qed.
