(* ===== verification/LdbSkipList.v ===== *)
(** leveldb: the skip list, [skiplist.h].

    A node pointer is an address, the null pointer is 0; the nodes are a map
    from addresses.  A link that has not been written is [None] of the list
    [next_].  The atomics are read and written in the order of the program.
    The arena is an argument, since the table in memory shares it. *)
From stdpp Require Import base numbers option gmap list.
From S2P Require Import Prelude LdbArena.
Open Scope Z_scope.

Definition kMaxHeight : nat := 12.
Definition nullptr : Z := 0.

Section SkipList.
Context {Key : Type} (compare_ : Key -> Key -> option Z) (zero_key : Key) `{NC : NewChar}.

Record Node : Type := { key : Key; next_ : list (option Z) }.

Record SkipList : Type := {
  nodes : gmap Z Node;
  head_ : Z;
  max_height_ : nat;
  rnd_ : Z
}.

(** ** Nodes *)

(** [x->Next(n)]; a node or a link that does not exist is undefined. *)
Definition Node_Next (s : SkipList) (x : Z) (n : nat) : option Z :=
  node ← nodes s !! x;
  mjoin (next_ node !! n).

Definition set_nodes (s : SkipList) (m : gmap Z Node) : SkipList :=
  {| nodes := m; head_ := head_ s; max_height_ := max_height_ s; rnd_ := rnd_ s |}.

Definition Node_SetNext (s : SkipList) (x : Z) (n : nat) (v : Z) : option SkipList :=
  node ← nodes s !! x;
  if (n <? length (next_ node))%nat
  then Some (set_nodes s (<[x := {| key := key node; next_ := <[n := Some v]> (next_ node) |}]> (nodes s)))
  else None.

(** [sizeof(Node)] is that of a key and a link, both pointers. *)
Definition NewNode (s : SkipList) (arena : Arena) (k : Key) (height : nat)
    : Z * SkipList * Arena :=
  let '(node_memory, arena) := AllocateAligned arena (16 + 8 * (Z.of_nat height - 1)) in
  (node_memory,
   set_nodes s (<[node_memory := {| key := k; next_ := replicate height None |}]> (nodes s)),
   arena).

(** The for loop of the constructor. *)
Fixpoint clear_links (n i : nat) (s : SkipList) : option SkipList :=
  match n with
  | O => Some s
  | S n' => s ← Node_SetNext s (head_ s) i nullptr; clear_links n' (S i) s
  end.

Definition SkipList_new (arena : Arena) : option (SkipList * Arena) :=
  let s := {| nodes := ∅; head_ := nullptr; max_height_ := 1; rnd_ := Random_new 0xdeadbeef |} in
  let '(head, s, arena) := NewNode s arena zero_key kMaxHeight in
  let s := {| nodes := nodes s; head_ := head; max_height_ := 1; rnd_ := rnd_ s |} in
  s ← clear_links kMaxHeight 0 s;
  Some (s, arena).

(** ** Searching *)
Definition Equal (a b : Key) : option bool := r ← compare_ a b; Some (r =? 0).

Definition KeyIsAfterNode (s : SkipList) (k : Key) (n : Z) : option bool :=
  if n =? nullptr then Some false
  else node ← nodes s !! n; r ← compare_ (key node) k; Some (r <? 0).

(** [if (prev != nullptr) prev[level] = x]; the array has not been filled in
    where it is [None]. *)
Definition set_prev (prev : option (list (option Z))) (level : nat) (x : Z)
    : option (list (option Z)) :=
  (fun p => <[level := Some x]> p) <$> prev.

Fixpoint find_ge_loop (n : nat) (s : SkipList) (k : Key) (x : Z) (level : nat)
    (prev : option (list (option Z))) : option (Z * option (list (option Z))) :=
  match n with
  | O => None
  | S n' =>
      next ← Node_Next s x level;
      after ← KeyIsAfterNode s k next;
      if after : bool then find_ge_loop n' s k next level prev
      else
        let prev := set_prev prev level x in
        match level with
        | O => Some (next, prev)
        | S level' => find_ge_loop n' s k x level' prev
        end
  end.

(** Every round goes to a node further on or to a level further down. *)
Definition find_fuel (s : SkipList) : nat := kMaxHeight * S (size (nodes s)).

Definition FindGreaterOrEqual (s : SkipList) (k : Key) (prev : option (list (option Z)))
    : option (Z * option (list (option Z))) :=
  find_ge_loop (find_fuel s) s k (head_ s) (max_height_ s - 1) prev.

Fixpoint find_lt_loop (n : nat) (s : SkipList) (k : Key) (x : Z) (level : nat) : option Z :=
  match n with
  | O => None
  | S n' =>
      next ← Node_Next s x level;
      stop ← (if next =? nullptr then Some true
              else node ← nodes s !! next; r ← compare_ (key node) k; Some (0 <=? r));
      if stop : bool then
        match level with
        | O => Some x
        | S level' => find_lt_loop n' s k x level'
        end
      else find_lt_loop n' s k next level
  end.

Definition FindLessThan (s : SkipList) (k : Key) : option Z :=
  find_lt_loop (find_fuel s) s k (head_ s) (max_height_ s - 1).

Fixpoint find_last_loop (n : nat) (s : SkipList) (x : Z) (level : nat) : option Z :=
  match n with
  | O => None
  | S n' =>
      next ← Node_Next s x level;
      if next =? nullptr then
        match level with
        | O => Some x
        | S level' => find_last_loop n' s x level'
        end
      else find_last_loop n' s next level
  end.

Definition FindLast (s : SkipList) : option Z :=
  find_last_loop (find_fuel s) s (head_ s) (max_height_ s - 1).

Definition Contains (s : SkipList) (k : Key) : option bool :=
  '(x, _) ← FindGreaterOrEqual s k None;
  if x =? nullptr then Some false
  else node ← nodes s !! x; Equal k (key node).

(** ** Insertion *)
Definition kBranching : Z := 4.

(** The while loop; the bound on the height ends it. *)
Fixpoint random_height_loop (n : nat) (rnd : Z) (height : nat) : nat * Z :=
  match n with
  | O => (height, rnd)
  | S n' =>
      let rnd := Random_Next rnd in
      if rnd mod kBranching =? 0 then random_height_loop n' rnd (S height) else (height, rnd)
  end.

Definition RandomHeight (rnd : Z) : nat * Z := random_height_loop (kMaxHeight - 1) rnd 1.

(** [prev[i] = head_] for [i] from [from] on, [n] of them. *)
Fixpoint fill_heads (n from : nat) (head : Z) (prev : list (option Z)) : list (option Z) :=
  match n with
  | O => prev
  | S n' => fill_heads n' (S from) head (<[from := Some head]> prev)
  end.

(** A round of the last for loop of [Insert]. *)
Definition link_level (s : SkipList) (prev : list (option Z)) (x : Z) (i : nat) : option SkipList :=
  p ← mjoin (prev !! i);
  v ← Node_Next s p i;
  s ← Node_SetNext s x i v;
  Node_SetNext s p i x.

Fixpoint link_levels (n : nat) (s : SkipList) (prev : list (option Z)) (x : Z) (i : nat)
    : option SkipList :=
  match n with
  | O => Some s
  | S n' => s ← link_level s prev x i; link_levels n' s prev x (S i)
  end.

Definition Insert (s : SkipList) (arena : Arena) (k : Key) : option (SkipList * Arena) :=
  '(x, prev) ← FindGreaterOrEqual s k (Some (replicate kMaxHeight None));
  prev ← prev;
  let '(height, rnd) := RandomHeight (rnd_ s) in
  let '(prev, max_height) :=
    if (max_height_ s <? height)%nat
    then (fill_heads (height - max_height_ s) (max_height_ s) (head_ s) prev, height)
    else (prev, max_height_ s) in
  let s := {| nodes := nodes s; head_ := head_ s; max_height_ := max_height; rnd_ := rnd |} in
  let '(x, s, arena) := NewNode s arena k height in
  s ← link_levels height s prev x 0;
  Some (s, arena).

(** ** Iterator: its [node_] *)
Definition Iterator_Valid (node : Z) : bool := negb (node =? nullptr).

Definition Iterator_key (s : SkipList) (node : Z) : option Key := key <$> nodes s !! node.

Definition Iterator_Next (s : SkipList) (node : Z) : option Z := Node_Next s node 0.

Definition Iterator_Prev (s : SkipList) (node : Z) : option Z :=
  k ← Iterator_key s node;
  x ← FindLessThan s k;
  Some (if x =? head_ s then nullptr else x).

Definition Iterator_Seek (s : SkipList) (target : Key) : option Z :=
  fst <$> FindGreaterOrEqual s target None.

Definition Iterator_SeekToFirst (s : SkipList) : option Z := Node_Next s (head_ s) 0.

Definition Iterator_SeekToLast (s : SkipList) : option Z :=
  x ← FindLast s;
  Some (if x =? head_ s then nullptr else x).
End SkipList.

#[global] Arguments Node Key : clear implicits.
#[global] Arguments SkipList Key : clear implicits.
