(* ===== verification/LdbSkipListThms.v ===== *)
(** leveldb: the skip list refines a sorted list.

    [skip_inv s L] says that at each level the links lead through the nodes
    of [L], a part of those of the level below, in the order of their keys.

    A node is linked level by level from the bottom.  After each level the
    list is one that can be searched: [linking_inv] gives the invariant for
    the states in between, which is what readers that run at the same time
    see. *)
From stdpp Require Import base numbers option gmap sorting list.
From S2P Require Import Prelude LdbComparator LdbArena LdbSkipList.
Open Scope Z_scope.

(** * Lists split by a test *)
Definition below (bt : Z -> bool) (l : list Z) : list Z := List.filter bt l.
Definition above (bt : Z -> bool) (l : list Z) : list Z := List.filter (fun p => negb (bt p)) l.

Lemma elem_of_below bt p l : p ∈ below bt l <-> p ∈ l /\ bt p = true.
Proof. unfold below. rewrite !list_elem_of_In. apply filter_In. Qed.

Lemma elem_of_above bt p l : p ∈ above bt l <-> p ∈ l /\ bt p = false.
Proof. unfold above. rewrite !list_elem_of_In, filter_In. by rewrite negb_true_iff. Qed.

Lemma filter_sublist (f : Z -> bool) l1 l2 :
  l1 `sublist_of` l2 -> List.filter f l1 `sublist_of` List.filter f l2.
Proof.
  induction 1 as [|x l1 l2 H IH|x l1 l2 H IH]; simpl; [done|..]; destruct (f x); try done.
  - by apply sublist_skip.
  - by apply sublist_cons.
Qed.

Lemma filter_true_all (l : list Z) : List.filter (fun _ => true) l = l.
Proof. induction l as [|p l IH]; [done|]. simpl. by f_equal. Qed.

Lemma split_below (R : Z -> Z -> Prop) bt l :
  StronglySorted R l -> (forall p q, p ∈ l -> q ∈ l -> R p q -> bt q = true -> bt p = true) ->
  l = below bt l ++ above bt l.
Proof.
  induction 1 as [|p l Hs IH Hall]; intros Hm; [done|]. unfold below, above in *. simpl.
  destruct (bt p) eqn:E; simpl.
  - f_equal. apply IH. intros q r Hq Hr. apply Hm; by right.
  - assert (forall q, q ∈ l -> bt q = false) as Hf.
    { intros q Hq. destruct (bt q) eqn:Eq; [|done]. rewrite <- E. symmetry.
      apply (Hm p q); [by left|by right| |done]. rewrite Forall_forall in Hall. auto. }
    clear -Hf. assert (List.filter bt l = []) as ->.
    { induction l as [|q l IH]; [done|]. simpl.
      rewrite (Hf q) by by left. apply IH. intros. apply Hf. by right. }
    simpl. f_equal. induction l as [|q l IH]; [done|]. simpl. rewrite (Hf q) by by left. simpl.
    f_equal. apply IH. intros. apply Hf. by right.
Qed.

Lemma StronglySorted_sublist (R : Z -> Z -> Prop) l1 l2 :
  l1 `sublist_of` l2 -> StronglySorted R l2 -> StronglySorted R l1.
Proof.
  induction 1 as [|x l1 l2 H IH|x l1 l2 H IH]; intros Hs; [done|..];
    inversion Hs as [|? ? Hs' Hf]; subst.
  - constructor; [by apply IH|]. rewrite Forall_forall in *. intros y Hy. apply Hf.
    by eapply sublist_subseteq.
  - by apply IH.
Qed.

(** The last of [x] and the nodes [l] after it. *)
Definition last_of (x : Z) (l : list Z) : Z := default x (last l).

Lemma last_of_snoc x l y : last_of x (l ++ [y]) = y.
Proof. unfold last_of. by rewrite last_snoc. Qed.

Lemma last_of_split x l A y : x :: l = A ++ [y] -> last_of x l = y.
Proof.
  intros E. unfold last_of. destruct A as [|a A]; [by injection E as -> ->|].
  injection E as -> ->. by rewrite last_snoc.
Qed.

Section SkipList.
Context {Key : Type} {compare : Key -> Key -> option Z} {valid : Key -> Prop}
  {order : Key -> Key -> Z} {CL : CompareLaw compare valid order} {zero_key : Key}.

Implicit Types s : SkipList Key.

(** The key of a node. *)
Definition keyf s (p : Z) : Key :=
  match nodes s !! p with Some n => key n | None => zero_key end.

(** ** Chains of links *)

(** At level [i] the links from [x] lead through [l], the last one to [e]. *)
Fixpoint seg s (i : nat) (x : Z) (l : list Z) (e : Z) : Prop :=
  match l with
  | [] => Node_Next s x i = Some e
  | y :: l' => Node_Next s x i = Some y /\ seg s i y l' e
  end.

Lemma seg_app s i x A B e :
  seg s i x (A ++ B) e
  <-> seg s i x A (hd e B) /\ match B with [] => True | b :: B' => seg s i b B' e end.
Proof.
  revert x. induction A as [|a A IH]; intros x; simpl.
  - by destruct B; simpl; tauto.
  - rewrite IH. tauto.
Qed.

Lemma seg_at s i x l A y B e : x :: l = A ++ y :: B -> seg s i x l e -> seg s i y B e.
Proof.
  revert x l. induction A as [|a A IH]; intros x l E; [by injection E as -> ->|].
  injection E as -> ->. intros H. destruct A as [|a' A]; simpl in H.
  - by destruct H.
  - destruct H as [_ H]. by eapply (IH a').
Qed.

Lemma seg_next s i x l e : seg s i x l e -> Node_Next s x i = Some (hd e l).
Proof. destruct l; simpl; [done|]. by intros [-> _]. Qed.

Lemma seg_frame s s' i x l e :
  (forall q, q ∈ x :: l -> Node_Next s' q i = Node_Next s q i) ->
  seg s i x l e -> seg s' i x l e.
Proof.
  revert x. induction l as [|y l IH]; intros x Hf; simpl.
  - by rewrite Hf by by left.
  - rewrite Hf by by left. intros [-> H]. split; [done|]. apply IH; [|done].
    intros q Hq. apply Hf. by right.
Qed.

(** The last link is changed. *)
Lemma seg_redirect s s' i x l e e' :
  NoDup (x :: l) -> seg s i x l e ->
  (forall q, q ∈ x :: l -> q <> last_of x l -> Node_Next s' q i = Node_Next s q i) ->
  Node_Next s' (last_of x l) i = Some e' -> seg s' i x l e'.
Proof.
  revert x. induction l as [|y l IH]; intros x Hnd Hs Hf Hl; simpl in *; [done|].
  destruct Hs as [Hx Hs]. apply NoDup_cons in Hnd as [Hnx Hnd].
  assert (last_of x (y :: l) = last_of y l) as El.
  { unfold last_of. rewrite last_cons. by destruct (last l). }
  rewrite El in *. split.
  - rewrite Hf; [done|by left|]. intros ->. apply Hnx. unfold last_of.
    destruct (last l) eqn:E; simpl; [|by left]. right. apply last_Some_elem_of in E. done.
  - apply IH; [done|done| |done]. intros q Hq. apply Hf. by right.
Qed.

(** ** The invariant *)
Definition node_lt s (p q : Z) : Prop := order (keyf s p) (keyf s q) < 0.

Record skip_inv s (L : nat -> list Z) : Prop := {
  si_head : head_ s <> nullptr;
  si_head_node : is_Some (nodes s !! head_ s);
  si_chain : forall i, (i < kMaxHeight)%nat -> seg s i (head_ s) (L i) nullptr;
  si_sub : forall i, L (S i) `sublist_of` L i;
  si_high : forall i, (max_height_ s <= i)%nat -> L i = [];
  si_height : (1 <= max_height_ s <= kMaxHeight)%nat;
  si_node : forall p, p ∈ L 0%nat ->
    p <> nullptr /\ p <> head_ s /\ exists n, nodes s !! p = Some n /\ valid (key n);
  si_sorted : StronglySorted (node_lt s) (L 0%nat)
}.

Lemma si_sub0 s L i : skip_inv s L -> L i `sublist_of` L 0%nat.
Proof.
  intros Hi. induction i as [|i IH]; [done|]. etrans; [apply (si_sub _ _ Hi)|done].
Qed.

Lemma si_in0 s L i p : skip_inv s L -> p ∈ L i -> p ∈ L 0%nat.
Proof. intros Hi Hp. eapply sublist_subseteq; [by eapply si_sub0|done]. Qed.

Lemma si_valid s L p : skip_inv s L -> p ∈ L 0%nat -> valid (keyf s p).
Proof.
  intros Hi Hp. destruct (si_node _ _ Hi p Hp) as (_ & _ & n & En & Hv). unfold keyf. by rewrite En.
Qed.

Lemma si_nodup s L i : skip_inv s L -> NoDup (head_ s :: L i).
Proof.
  intros Hi. apply NoDup_cons. split.
  - intros Hin. apply (si_in0 _ _ _ _ Hi) in Hin. by destruct (si_node _ _ Hi _ Hin) as (_ & ? & _).
  - eapply sublist_NoDup; [|by eapply si_sub0].
    pose proof (si_sorted _ _ Hi) as Hs. pose proof (si_valid s L) as Hv.
    assert (forall p, p ∈ L 0%nat -> valid (keyf s p)) as Hv' by auto. clear Hv. revert Hv'.
    induction Hs as [|p l Hs IH Hf]; intros Hv; constructor.
    + intros Hin. rewrite Forall_forall in Hf. specialize (Hf p Hin). unfold node_lt in Hf.
      rewrite order_refl in Hf by (apply Hv; by left). lia.
    + apply IH. intros q Hq. apply Hv. by right.
Qed.

Lemma si_length s L i : skip_inv s L -> (length (L i) <= size (nodes s))%nat.
Proof.
  intros Hi. rewrite (sublist_length _ _ (si_sub0 s L i Hi)).
  pose proof (si_nodup s L 0 Hi) as Hnd. apply NoDup_cons in Hnd as [_ Hnd].
  rewrite <- size_dom, <- (size_list_to_set (C := gset Z) (L 0%nat) Hnd).
  apply subseteq_size. intros p Hp. apply elem_of_list_to_set in Hp.
  destruct (si_node _ _ Hi p Hp) as (_ & _ & n & En & _). apply elem_of_dom. by exists n.
Qed.

(** ** Searching *)

(** The three searches are one, with a test of the next node; the result is
    the last node passed, the next one, and the array. *)
Fixpoint search (n : nat) s (test : Z -> option bool) (x : Z) (level : nat)
    (prev : option (list (option Z))) : option (Z * Z * option (list (option Z))) :=
  match n with
  | O => None
  | S n' =>
      next ← Node_Next s x level;
      go ← test next;
      if go : bool then search n' s test next level prev
      else
        let prev := set_prev prev level x in
        match level with
        | O => Some (x, next, prev)
        | S level' => search n' s test x level' prev
        end
  end.

Lemma find_ge_search n s k x level prev :
  find_ge_loop compare n s k x level prev
  = (fun r => (r.1.2, r.2)) <$> search n s (KeyIsAfterNode compare s k) x level prev.
Proof.
  revert x level prev. induction n as [|n IH]; intros x level prev; [done|].
  cbn [find_ge_loop search]. destruct (Node_Next s x level) as [y|]; [|done]. cbn [mbind option_bind].
  destruct (KeyIsAfterNode compare s k y) as [[|]|]; [apply IH| |done]. cbn [mbind option_bind]. cbv zeta.
  destruct level; [done|apply IH].
Qed.

Lemma find_lt_search n s k x level :
  find_lt_loop compare n s k x level
  = (fun r => r.1.1) <$> search n s (KeyIsAfterNode compare s k) x level None.
Proof.
  revert x level. induction n as [|n IH]; intros x level; [done|].
  cbn [find_lt_loop search]. destruct (Node_Next s x level) as [y|]; [|done]. cbn [mbind option_bind].
  change (KeyIsAfterNode compare s k y) with
    (if y =? nullptr then Some false
     else node ← nodes s !! y; r ← compare (key node) k; Some (r <? 0)).
  destruct (y =? nullptr); cbn [mbind option_bind].
  - destruct level; [done|apply IH].
  - destruct (nodes s !! y) as [node|]; [|done]. cbn [mbind option_bind].
    destruct (compare (key node) k) as [r|]; [|done]. cbn [mbind option_bind].
    rewrite Z.ltb_antisym. destruct (0 <=? r); cbn [negb]; [destruct level; [done|]|]; apply IH.
Qed.

Lemma find_last_search n s x level :
  find_last_loop n s x level
  = (fun r => r.1.1) <$> search n s (fun p => Some (negb (p =? nullptr))) x level None.
Proof.
  revert x level. induction n as [|n IH]; intros x level; [done|].
  cbn [find_last_loop search]. destruct (Node_Next s x level) as [y|]; [|done]. cbn [mbind option_bind].
  destruct (y =? nullptr); cbn [negb]; [destruct level; [done|]|]; apply IH.
Qed.

(** What the array holds afterwards. *)
Fixpoint filled (lasts : nat -> Z) (level : nat) (prev : option (list (option Z)))
    : option (list (option Z)) :=
  let prev := set_prev prev level (lasts level) in
  match level with O => prev | S level' => filled lasts level' prev end.

(** The rounds at the levels below [level]. *)
Fixpoint rounds (len : nat -> nat) (level : nat) : nat :=
  match level with O => O | S l => S (len l) + rounds len l end.

Lemma rounds_le len level m : (forall i, (len i <= m)%nat) -> (rounds len level <= level * S m)%nat.
Proof. intros Hl. induction level as [|l IH]; simpl; [done|]. specialize (Hl l). lia. Qed.

(** The last node at level [i] that passes the test. *)
Definition last_below s (L : nat -> list Z) (bt : Z -> bool) (i : nat) : Z :=
  last_of (head_ s) (below bt (L i)).

(** [test] computes [bt] on the nodes, and stops at the end; [bt] holds of
    the first nodes of each level. *)
Definition tests s (L : nat -> list Z) (test : Z -> option bool) (bt : Z -> bool) : Prop :=
  test nullptr = Some false
  /\ (forall p, p ∈ L 0%nat -> test p = Some (bt p))
  /\ forall i, L i = below bt (L i) ++ above bt (L i).

Lemma search_spec s L test bt n level x A B prev :
  skip_inv s L -> tests s L test bt -> (level < kMaxHeight)%nat ->
  head_ s :: below bt (L level) = A ++ x :: B ->
  (length B + 1 + rounds (fun i => length (below bt (L i))) level <= n)%nat ->
  search n s test x level prev
  = Some (last_below s L bt 0, hd nullptr (above bt (L 0%nat)), filled (last_below s L bt) level prev).
Proof.
  intros Hi (Ht0 & Ht & Hsplit). revert level x A B prev.
  induction n as [|n IH]; intros level x A B prev Hlev E Hn; [lia|]. cbn [search].
  pose proof (si_chain _ _ Hi level Hlev) as Hc. rewrite (Hsplit level) in Hc.
  assert (head_ s :: below bt (L level) ++ above bt (L level)
          = A ++ x :: (B ++ above bt (L level))) as E'.
  { rewrite app_comm_cons, E. by rewrite <- app_assoc. }
  pose proof (seg_at _ _ _ _ _ _ _ _ E' Hc) as Hx. rewrite (seg_next _ _ _ _ _ Hx).
  cbn [mbind option_bind]. destruct B as [|b B]; cbn [app hd] in *.
  - assert (test (hd nullptr (above bt (L level))) = Some false) as ->.
    { destruct (above bt (L level)) as [|a l] eqn:Ea; [done|]. cbn [hd].
      assert (a ∈ above bt (L level)) as Ha by (rewrite Ea; by left).
      apply elem_of_above in Ha as [Ha Hb]. rewrite Ht, Hb; [done|]. by eapply si_in0. }
    cbn [mbind option_bind]. cbv zeta.
    assert (last_below s L bt level = x) as El by (by eapply last_of_split).
    destruct level as [|level].
    + simpl. by rewrite El.
    + cbn [filled]. rewrite El. simpl in Hn.
      assert (exists A' B', head_ s :: below bt (L level) = A' ++ x :: B') as (A' & B' & E2).
      { destruct A as [|a A]; [injection E as <- _; by exists [], (below bt (L level))|].
        injection E as <- E. assert (x ∈ below bt (L (S level))) as Hb.
        { rewrite E. apply elem_of_app. right. by left. }
        assert (x ∈ below bt (L level)) as Hb'.
        { eapply sublist_subseteq; [apply filter_sublist, (si_sub _ _ Hi)|exact Hb]. }
        apply list_elem_of_split in Hb' as (A' & B' & ->). by exists (head_ s :: A'), B'. }
      apply (IH level x A' B'); [lia|done|].
      assert (length B' <= length (below bt (L level)))%nat.
      { apply (f_equal length) in E2. rewrite length_app in E2. simpl in E2. lia. }
      lia.
  - assert (b ∈ below bt (L level)) as Hb.
    { destruct A as [|a A]; injection E as E0 E; rewrite E; [by left|].
      apply elem_of_app. right. right. by left. }
    apply elem_of_below in Hb as [Hb Hbt]. rewrite Ht, Hbt by (by eapply si_in0).
    cbn [mbind option_bind]. apply (IH level b (A ++ [x]) B); [done| |simpl in Hn; lia].
    by rewrite <- app_assoc.
Qed.

(** From the top, with the fuel of the searches. *)
Lemma search_top s L test bt prev :
  skip_inv s L -> tests s L test bt ->
  search (find_fuel s) s test (head_ s) (max_height_ s - 1) prev
  = Some (last_below s L bt 0, hd nullptr (above bt (L 0%nat)),
          filled (last_below s L bt) (max_height_ s - 1) prev).
Proof.
  intros Hi Ht. pose proof (si_height _ _ Hi) as Hh. unfold kMaxHeight in Hh.
  assert (forall i, (length (below bt (L i)) <= size (nodes s))%nat) as Hl.
  { intros i. etrans; [apply filter_length_le|by eapply si_length]. }
  apply (search_spec s L test bt _ _ _ [] (below bt (L (max_height_ s - 1)%nat))); try done.
  - unfold kMaxHeight. lia.
  - pose proof (rounds_le (fun i => length (below bt (L i))) (max_height_ s - 1) _ Hl).
    specialize (Hl (max_height_ s - 1)%nat). unfold find_fuel, kMaxHeight.
    assert (max_height_ s - 1 <= 11)%nat by lia. nia.
Qed.

(** ** Searching for a key *)

(** The test of a key: the node is before it. *)
Definition node_before s (k : Key) (p : Z) : bool := order (keyf s p) k <? 0.

Lemma key_tests s L k :
  skip_inv s L -> valid k -> tests s L (KeyIsAfterNode compare s k) (node_before s k).
Proof.
  intros Hi Hk. split_and!.
  - done.
  - intros p Hp. destruct (si_node _ _ Hi p Hp) as (Hz & _ & n & En & Hv).
    unfold KeyIsAfterNode, node_before, keyf. rewrite (proj2 (Z.eqb_neq _ _)) by done.
    rewrite En. cbn [mbind option_bind]. by rewrite Compare_order.
  - intros i. apply (split_below (node_lt s)).
    + eapply StronglySorted_sublist; [by eapply si_sub0|apply Hi].
    + intros p q Hp Hq Hlt Hb. apply (si_in0 _ _ _ _ Hi) in Hp, Hq.
      apply (si_valid _ _ _ Hi) in Hp, Hq. unfold node_before in *. apply Z.ltb_lt in Hb.
      apply Z.ltb_lt. by apply (order_lt_trans _ (keyf s q)).
Qed.

Lemma all_tests s L :
  skip_inv s L -> tests s L (fun p => Some (negb (p =? nullptr))) (fun _ => true).
Proof.
  intros Hi. split_and!; [done| |].
  - intros p Hp. destruct (si_node _ _ Hi p Hp) as (Hz & _). by rewrite (proj2 (Z.eqb_neq _ _)).
  - intros i. assert (below (fun _ => true) (L i) = L i) as E.
    { apply filter_true_all. }
    assert (above (fun _ => true) (L i) = []) as E'.
    { unfold above. clear E. induction (L i) as [|p l IH]; [done|exact IH]. }
    by rewrite E, E', app_nil_r.
Qed.

Lemma FindGreaterOrEqual_spec s L k prev :
  skip_inv s L -> valid k ->
  FindGreaterOrEqual compare s k prev
  = Some (hd nullptr (above (node_before s k) (L 0%nat)),
          filled (last_below s L (node_before s k)) (max_height_ s - 1) prev).
Proof.
  intros Hi Hk. unfold FindGreaterOrEqual.
  by rewrite find_ge_search, (search_top s L _ (node_before s k)) by (exact Hi || by apply key_tests).
Qed.

Lemma FindLessThan_spec s L k :
  skip_inv s L -> valid k ->
  FindLessThan compare s k = Some (last_below s L (node_before s k) 0).
Proof.
  intros Hi Hk. unfold FindLessThan.
  by rewrite find_lt_search, (search_top s L _ (node_before s k)) by (exact Hi || by apply key_tests).
Qed.

Lemma FindLast_spec s L :
  skip_inv s L -> FindLast s = Some (last_of (head_ s) (L 0%nat)).
Proof.
  intros Hi. unfold FindLast.
  rewrite find_last_search, (search_top s L _ (fun _ => true)) by (exact Hi || by apply all_tests).
  cbn [fmap option_fmap option_map fst]. unfold last_below, below. by rewrite filter_true_all.
Qed.
End SkipList.

(** * Insertion *)

Section Insert.
Context {Key : Type} {compare : Key -> Key -> option Z} {valid : Key -> Prop}
  {order : Key -> Key -> Z} {CL : CompareLaw compare valid order} {zero_key : Key}.

Implicit Types s : SkipList Key.

#[local] Notation keyf := (keyf (zero_key := zero_key)).
#[local] Notation node_lt := (node_lt (order := order) (zero_key := zero_key)).
#[local] Notation node_before := (node_before (order := order) (zero_key := zero_key)).
#[local] Notation skip_inv := (skip_inv (valid := valid) (order := order) (zero_key := zero_key)).

(** ** One link *)

(** The part of a node that the links do not change. *)
Definition shape s (p : Z) : option (Key * nat) :=
  (fun n => (key n, length (next_ n))) <$> nodes s !! p.

Lemma shape_Some s p k h :
  shape s p = Some (k, h) <-> exists n, nodes s !! p = Some n /\ key n = k /\ length (next_ n) = h.
Proof.
  unfold shape. rewrite fmap_Some. split.
  - intros (n & En & [= -> ->]). eauto.
  - intros (n & En & <- & <-). eauto.
Qed.

Lemma shape_keyf s s' p : shape s p = shape s' p -> keyf s p = keyf s' p.
Proof.
  unfold shape, keyf. destruct (nodes s !! p), (nodes s' !! p); simpl; congruence.
Qed.

Lemma Next_shape s p i v : Node_Next s p i = Some v -> exists k h, shape s p = Some (k, h) /\ (i < h)%nat.
Proof.
  unfold Node_Next, shape. destruct (nodes s !! p) as [n|]; [|done]. cbn [mbind option_bind].
  destruct (next_ n !! i) as [l|] eqn:E; [|done]. intros _. exists (key n), (length (next_ n)).
  split; [done|]. by eapply lookup_lt_Some.
Qed.

Lemma SetNext_spec s p i v k h :
  shape s p = Some (k, h) -> (i < h)%nat ->
  exists s', Node_SetNext s p i v = Some s'
    /\ head_ s' = head_ s /\ max_height_ s' = max_height_ s /\ rnd_ s' = rnd_ s
    /\ (forall q, shape s' q = shape s q)
    /\ forall q j, Node_Next s' q j = if decide (q = p /\ j = i) then Some v else Node_Next s q j.
Proof.
  intros (n & En & <- & <-)%shape_Some Hi. unfold Node_SetNext. rewrite En. cbn [mbind option_bind].
  rewrite (proj2 (Nat.ltb_lt _ _)) by done. eexists. split; [done|].
  cbn [head_ max_height_ rnd_ set_nodes]. split_and!; [done..| |].
  - intros q. unfold shape. cbn [nodes set_nodes]. destruct (decide (q = p)) as [->|Hne].
    + rewrite lookup_insert_eq, En. simpl. by rewrite length_insert.
    + by rewrite lookup_insert_ne.
  - intros q j. unfold Node_Next. cbn [nodes set_nodes].
    destruct (decide (q = p)) as [->|Hne].
    + rewrite lookup_insert_eq, En. cbn [mbind option_bind next_]. destruct (decide (j = i)) as [->|Hj].
      * rewrite list_lookup_insert_eq by done. by rewrite decide_True.
      * rewrite list_lookup_insert_ne by done. rewrite decide_False by naive_solver. done.
    + rewrite lookup_insert_ne by done. by rewrite decide_False by naive_solver.
Qed.

(** ** The state in the middle of an insertion *)
Section Linking.
Context (s0 : SkipList Key) (L : nat -> list Z) (k : Key) (x : Z) (h : nat).
Context (Hinv : skip_inv s0 L) (Hk : valid k).
Context (Hnew : forall p, p ∈ L 0%nat -> order (keyf s0 p) k <> 0).
Context (Hx0 : x <> nullptr) (Hx : nodes s0 !! x = None) (Hh : (1 <= h <= kMaxHeight)%nat).

Let bt := node_before s0 k.

(** The nodes of level [j] when the levels below [i] are linked. *)
Definition Lins (i j : nat) : list Z :=
  if (j <? i)%nat then below bt (L j) ++ x :: above bt (L j) else L j.

Record linking (i : nat) s : Prop := {
  lk_head : head_ s = head_ s0;
  lk_height : max_height_ s = Nat.max h (max_height_ s0);
  lk_shape : forall q, q <> x -> shape s q = shape s0 q;
  lk_new : shape s x = Some (k, h);
  lk_chain : forall j, (j < kMaxHeight)%nat -> seg s j (head_ s) (Lins i j) nullptr
}.

Lemma split_level j : L j = below bt (L j) ++ above bt (L j).
Proof. by apply (key_tests s0 L k Hinv Hk). Qed.

Lemma x_not_in j p : p ∈ head_ s0 :: L j -> p <> x.
Proof.
  intros Hp ->. apply elem_of_cons in Hp as [E|Hp].
  - rewrite E in Hx. pose proof (si_head_node _ _ Hinv) as [n En]. congruence.
  - apply (si_in0 _ _ _ _ Hinv) in Hp. destruct (si_node _ _ Hinv _ Hp) as (_ & _ & n & En & _).
    congruence.
Qed.

(** One level. *)
Lemma link_step i s prev :
  linking i s -> (i < h)%nat -> prev !! i = Some (Some (last_below s0 L bt i)) ->
  exists s', link_level s prev x i = Some s' /\ linking (S i) s'.
Proof.
  intros Hl Hi Hp. destruct Hl as [Hhd Hmh Hsh Hxs Hc]. unfold kMaxHeight in *.
  set (p := last_below s0 L bt i) in *.
  assert (Lins i i = L i) as EL by (unfold Lins; by rewrite Nat.ltb_irrefl).
  pose proof (Hc i ltac:(lia)) as Hci. rewrite EL, Hhd in Hci.
  pose proof (si_nodup _ _ i Hinv) as Hnd. pose proof (split_level i) as Es.
  rewrite Es, app_comm_cons in Hnd. apply NoDup_app in Hnd as (Hnd1 & Hdis & Hnd2).
  assert (exists A, head_ s0 :: below bt (L i) = A ++ [p]) as [A EA].
  { unfold p, last_below. destruct (below bt (L i)) as [|b l] using rev_ind; [by exists []|].
    rewrite last_of_snoc. by exists (head_ s0 :: l). }
  assert (p ∈ head_ s0 :: below bt (L i)) as Hpin by (rewrite EA; apply elem_of_app; right; by left).
  assert (forall q, q ∈ head_ s0 :: below bt (L i) -> q <> x) as Hb.
  { intros q Hq. apply (x_not_in i). rewrite Es, app_comm_cons. apply elem_of_app. by left. }
  assert (forall q, q ∈ above bt (L i) -> q <> x /\ q <> p) as Ha.
  { intros q Hq. split; [|by intros ->; apply (Hdis p)].
    apply (x_not_in i). right. rewrite Es. apply elem_of_app. by right. }
  rewrite Es in Hci. apply seg_app in Hci as [Hseg1 Hseg2].
  assert (Node_Next s p i = Some (hd nullptr (above bt (L i)))) as Hnext.
  { pose proof (seg_at _ _ _ _ _ _ _ _ EA Hseg1) as Hs. exact (seg_next _ _ _ _ _ Hs). }
  unfold link_level. rewrite Hp. cbn [mjoin option_join mbind option_bind]. rewrite Hnext.
  cbn [mbind option_bind].
  destruct (SetNext_spec s x i (hd nullptr (above bt (L i))) k h Hxs Hi)
    as (s2 & -> & Hd2 & Hm2 & _ & Sh2 & N2). cbn [mbind option_bind].
  destruct (Next_shape _ _ _ _ Hnext) as (kp & hp & Shp & Hhp).
  destruct (SetNext_spec s2 p i x kp hp) as (s3 & E3 & Hd3 & Hm3 & _ & Sh3 & N3);
    [by rewrite Sh2|done|].
  exists s3. split; [done|].
  assert (forall q j, q <> x -> (q <> p \/ j <> i) -> Node_Next s3 q j = Node_Next s q j) as Nframe.
  { intros q j Hq Hpj. rewrite N3, N2. rewrite !decide_False by naive_solver. done. }
  assert (Hneq : p <> x) by auto.
  split.
  - by rewrite Hd3, Hd2.
  - by rewrite Hm3, Hm2.
  - intros q Hq. by rewrite Sh3, Sh2, Hsh.
  - by rewrite Sh3, Sh2.
  - intros j Hj. rewrite Hd3, Hd2, Hhd. destruct (decide (j = i)) as [->|Hne].
    + unfold Lins. rewrite (proj2 (Nat.ltb_lt _ _)) by lia. apply seg_app. cbn [hd]. split.
      * eapply seg_redirect; [exact Hnd1|exact Hseg1| |].
        -- intros q Hq Hql. apply Nframe; [auto|]. left. exact Hql.
        -- fold (last_below s0 L bt i). fold p. rewrite N3. by rewrite decide_True.
      * assert (Node_Next s3 x i = Some (hd nullptr (above bt (L i)))) as Hx3.
        { rewrite N3, decide_False by naive_solver. rewrite N2. by rewrite decide_True. }
        destruct (above bt (L i)) as [|a l]; [done|]. split; [done|].
        eapply seg_frame; [|exact Hseg2]. intros q Hq. destruct (Ha q Hq). apply Nframe; auto.
    + assert (Lins (S i) j = Lins i j) as ->.
      { unfold Lins. destruct (Nat.ltb_spec j (S i)), (Nat.ltb_spec j i); try done; lia. }
      rewrite <- Hhd. eapply seg_frame; [|by apply Hc].
      intros q _. rewrite N3, N2, !decide_False by naive_solver. done.
Qed.

Lemma link_levels_ok n i s prev :
  linking i s -> (i + n <= h)%nat ->
  (forall j, (j < h)%nat -> prev !! j = Some (Some (last_below s0 L bt j))) ->
  exists s', link_levels n s prev x i = Some s' /\ linking (i + n) s'.
Proof.
  revert i s. induction n as [|n IH]; intros i s Hl Hn Hp; cbn [link_levels].
  - exists s. by rewrite Nat.add_0_r.
  - destruct (link_step i s prev Hl ltac:(lia) (Hp i ltac:(lia))) as (s' & -> & Hl').
    cbn [mbind option_bind]. destruct (IH (S i) s' Hl' ltac:(lia) Hp) as (s2 & -> & Hl2).
    exists s2. by replace (i + S n)%nat with (S i + n)%nat by lia.
Qed.

(** Each of these states satisfies the invariant. *)
Lemma linking_keyf i s p :
  linking i s -> p ∈ L 0%nat -> keyf s p = keyf s0 p.
Proof.
  intros Hl Hp. apply shape_keyf. apply (lk_shape _ _ Hl). apply (x_not_in 0). by right.
Qed.

Lemma linking_keyf_new i s : linking i s -> keyf s x = k.
Proof.
  intros Hl. destruct (proj1 (shape_Some _ _ _ _) (lk_new _ _ Hl)) as (n & En & Ek & _).
  unfold keyf. by rewrite En.
Qed.

Lemma Lins_sub i j : Lins i (S j) `sublist_of` Lins i j.
Proof.
  pose proof (si_sub _ _ Hinv j) as Hs. unfold Lins.
  destruct (Nat.ltb_spec (S j) i) as [H1|H1], (Nat.ltb_spec j i) as [H2|H2]; [|lia| |done].
  - apply sublist_app; [by apply filter_sublist|]. apply sublist_skip. by apply filter_sublist.
  - etrans; [exact Hs|]. rewrite (split_level j) at 1. apply sublist_app; [done|]. by apply sublist_cons.
Qed.

Lemma Lins_sorted i s : linking i s -> StronglySorted (node_lt s) (Lins i 0).
Proof.
  intros Hl. pose proof (si_sorted _ _ Hinv) as Hs0.
  assert (StronglySorted (node_lt s) (L 0%nat)) as Hs.
  { assert (forall p, p ∈ L 0%nat -> keyf s p = keyf s0 p) as Hkf
      by (intros; by eapply linking_keyf).
    revert Hkf. clear -Hs0. induction Hs0 as [|p l Hs0 IH Hf]; intros Hkf; constructor.
    - apply IH. intros q Hq. apply Hkf. by right.
    - rewrite Forall_forall in *. intros q Hq. unfold node_lt.
      rewrite !Hkf by (by left || by right). by apply Hf. }
  unfold Lins. destruct (Nat.ltb_spec 0 i) as [_|_]; [|done].
  rewrite split_level in Hs. pose proof (linking_keyf_new _ _ Hl) as Ek.
  assert (forall p, p ∈ below bt (L 0%nat) -> node_lt s p x) as Hlt.
  { intros p [Hp Hb]%elem_of_below. unfold node_lt. rewrite Ek, (linking_keyf _ _ _ Hl Hp).
    by apply Z.ltb_lt in Hb. }
  assert (forall p, p ∈ above bt (L 0%nat) -> node_lt s x p) as Hgt.
  { intros p [Hp Hb]%elem_of_above. unfold node_lt. rewrite Ek, (linking_keyf _ _ _ Hl Hp).
    apply Z.ltb_ge in Hb. specialize (Hnew p Hp).
    apply (order_lt_flip k); [done|by apply (si_valid _ _ _ Hinv)|]. lia. }
  clear -Hs Hlt Hgt. induction (below bt (L 0%nat)) as [|p l IH]; simpl in *.
  - constructor; [done|]. rewrite Forall_forall. auto.
  - inversion Hs as [|? ? Hs' Hf]; subst. constructor.
    + apply IH; [done|]. intros q Hq. apply Hlt. by right.
    + rewrite Forall_forall in *. intros q [Hq|[->|Hq]%elem_of_cons]%elem_of_app.
      * apply Hf. apply elem_of_app. by left.
      * apply Hlt. by left.
      * apply Hf. apply elem_of_app. by right.
Qed.

Lemma linking_inv i s :
  linking i s -> (i <= h)%nat -> skip_inv s (Lins i).
Proof.
  intros Hl Hi. pose proof Hl as [Hhd Hmh Hsh Hxs Hc].
  assert (forall p, p ∈ head_ s0 :: L 0%nat -> exists n0 n, nodes s0 !! p = Some n0
            /\ nodes s !! p = Some n /\ key n = key n0) as Hnode.
  { intros p Hp. pose proof (x_not_in _ _ Hp) as Hne.
    assert (exists n0, nodes s0 !! p = Some n0) as [n0 En0].
    { apply elem_of_cons in Hp as [->|Hp]; [by destruct (si_head_node _ _ Hinv) as [n ?]; exists n|].
      destruct (si_node _ _ Hinv p Hp) as (_ & _ & n & En & _). by exists n. }
    specialize (Hsh p Hne). unfold shape in Hsh. rewrite En0 in Hsh.
    destruct (nodes s !! p) as [n|]; [|done]. injection Hsh as Ek _. eauto 10. }
  pose proof (si_height _ _ Hinv) as Hht. unfold kMaxHeight in *. split.
  - rewrite Hhd. apply Hinv.
  - rewrite Hhd. destruct (Hnode (head_ s0)) as (n0 & n & _ & -> & _); [by left|done].
  - done.
  - intros j. apply Lins_sub.
  - intros j Hj. unfold Lins. destruct (Nat.ltb_spec j i); [lia|]. apply (si_high _ _ Hinv). lia.
  - rewrite Hmh. unfold kMaxHeight. lia.
  - intros p Hp.
    assert (p = x \/ p ∈ L 0%nat) as [->|Hp0].
    { unfold Lins in Hp. destruct (0 <? i)%nat; [|by right].
      apply elem_of_app in Hp as [Hp|[->|Hp]%elem_of_cons].
      - apply elem_of_below in Hp as [Hp _]. by right.
      - by left.
      - apply elem_of_above in Hp as [Hp _]. by right. }
    + destruct (proj1 (shape_Some _ _ _ _) Hxs) as (n & En & Ek & _). split_and!; [done| |].
      * intros E. rewrite Hhd in E. apply (x_not_in 0 (head_ s0)); [by left|done].
      * exists n. by rewrite Ek.
    + destruct (si_node _ _ Hinv p Hp0) as (H1 & H2 & n' & En' & Hv). rewrite Hhd. split_and!; [done..|].
      destruct (Hnode p) as (n0 & n & En0 & -> & Ek); [by right|]. exists n.
      rewrite Ek. simplify_eq. done.
  - by apply Lins_sorted.
Qed.
End Linking.

(** ** Insertion *)

(** Every node has memory of its own. *)
Definition nodes_used s (used : list range) : Prop :=
  forall p, is_Some (nodes s !! p) -> exists n, (p, n) ∈ used.

(** The list [s] holds the keys [ks], in order. *)
Definition sl_holds s (ps : list Z) (ks : list Key) : Prop :=
  exists L, skip_inv s L /\ ps = L 0%nat /\ ks = map (keyf s) ps.

(** The specification: a key goes after the smaller ones. *)
Definition insert_sorted (ks : list Key) (k : Key) : list Key :=
  List.filter (fun a => order a k <? 0) ks ++ k :: List.filter (fun a => negb (order a k <? 0)) ks.

Lemma filled_lookup lasts level p :
  (level < length p)%nat ->
  exists p', filled lasts level (Some p) = Some p' /\ length p' = length p
    /\ forall j, (j <= level)%nat -> p' !! j = Some (Some (lasts j)).
Proof.
  assert (forall level p, (level < length p)%nat ->
    exists p', filled lasts level (Some p) = Some p' /\ length p' = length p
      /\ (forall j, (j <= level)%nat -> p' !! j = Some (Some (lasts j)))
      /\ forall j, (level < j)%nat -> p' !! j = p !! j) as H.
  { clear. induction level as [|l IH]; intros p Hl; cbn [filled set_prev fmap option_fmap option_map].
    - eexists. split; [done|]. rewrite length_insert. split_and!; [done| |].
      + intros j Hj. replace j with 0%nat by lia. by apply list_lookup_insert_eq.
      + intros j Hj. apply list_lookup_insert_ne. lia.
    - destruct (IH (<[S l := Some (lasts (S l))]> p)) as (p' & -> & Hp & Hj & Hk);
        [rewrite length_insert; lia|]. rewrite length_insert in Hp.
      exists p'. split_and!; [done..| |].
      + intros j Hle. destruct (decide (j = S l)) as [->|]; [|apply Hj; lia].
        rewrite Hk by lia. by apply list_lookup_insert_eq.
      + intros j Hlt. rewrite Hk by lia. apply list_lookup_insert_ne. lia. }
  intros Hl. destruct (H level p Hl) as (p' & ? & ? & ? & _). eauto.
Qed.

Lemma fill_heads_lookup n from head p j :
  (from + n <= length p)%nat ->
  fill_heads n from head p !! j
  = if decide (from <= j < from + n)%nat then Some (Some head) else p !! j.
Proof.
  revert from p. induction n as [|n IH]; intros from p Hl; cbn [fill_heads].
  - by rewrite decide_False by lia.
  - rewrite IH by (rewrite length_insert; lia).
    destruct (decide (j = from)) as [->|].
    + rewrite decide_False, decide_True by lia. apply list_lookup_insert_eq. lia.
    + rewrite list_lookup_insert_ne by done.
      destruct (decide (S from <= j < S from + n)%nat), (decide (from <= j < from + S n)%nat);
        try done; lia.
Qed.

Lemma random_height_range n rnd h : (h <= fst (random_height_loop n rnd h) <= h + n)%nat.
Proof.
  revert rnd h. induction n as [|n IH]; intros rnd h; cbn [random_height_loop]; cbv zeta; [simpl; lia|].
  destruct (_ =? 0); [|simpl; lia]. specialize (IH (Random_Next rnd) (S h)). lia.
Qed.

Lemma shape_insert s p n q :
  shape (set_nodes s (<[p := n]> (nodes s))) q
  = if decide (q = p) then Some (key n, length (next_ n)) else shape s q.
Proof.
  unfold shape. cbn [nodes set_nodes]. destruct (decide (q = p)) as [->|].
  - by rewrite lookup_insert_eq.
  - by rewrite lookup_insert_ne.
Qed.

(** The state after the node is allocated is that before the first link. *)
Lemma new_linking s L k x h rnd :
  skip_inv s L -> nodes s !! x = None ->
  let s1 := {| nodes := nodes s; head_ := head_ s; max_height_ := Nat.max h (max_height_ s); rnd_ := rnd |} in
  linking s L k x h 0 (set_nodes s1 (<[x := {| key := k; next_ := replicate h None |}]> (nodes s1))).
Proof.
  intros Hi Hx. cbv zeta. split; cbn [head_ max_height_ set_nodes]; [done..| | |].
  - intros q Hq. pose proof (shape_insert
      {| nodes := nodes s; head_ := head_ s; max_height_ := Nat.max h (max_height_ s); rnd_ := rnd |}
      x {| key := k; next_ := replicate h None |} q) as E.
    rewrite decide_False in E by done. exact E.
  - unfold shape. cbn [nodes set_nodes]. rewrite lookup_insert_eq. simpl. by rewrite length_replicate.
  - intros j Hj. unfold Lins. simpl. eapply seg_frame; [|by apply (si_chain _ _ Hi)].
    intros q Hq. unfold Node_Next. cbn [nodes set_nodes].
    rewrite lookup_insert_ne; [done|]. symmetry. eapply x_not_in; [exact Hi|exact Hx|exact Hq].
Qed.

Lemma insert_sorted_map bt L0 s s' k x :
  (forall p, p ∈ L0 -> keyf s' p = keyf s p) -> keyf s' x = k ->
  (forall p, p ∈ L0 -> bt p = (order (keyf s p) k <? 0)) ->
  map (keyf s') (below bt L0 ++ x :: above bt L0) = insert_sorted (map (keyf s) L0) k.
Proof.
  intros Hf Hx Hb. unfold insert_sorted, below, above. rewrite map_app. cbn [map]. rewrite Hx.
  assert (forall g : bool -> bool,
    map (keyf s') (List.filter (fun p => g (bt p)) L0)
    = List.filter (fun a => g (order a k <? 0)) (map (keyf s) L0)) as H.
  { intros g. induction L0 as [|p l IH]; [done|]. simpl. rewrite (Hb p) by by left.
    rewrite <- IH by (intros; (apply Hf || apply Hb); by right).
    destruct (g _); [|done]. simpl. by rewrite Hf by by left. }
  f_equal; [exact (H id)|]. f_equal. exact (H negb).
Qed.

Context `{NC : NewChar} {NL : NewCharLaw NC}.

Lemma Insert_ok s ps ks arena used k :
  sl_holds s ps ks -> arena_inv arena used -> nodes_used s used ->
  valid k -> (forall a, a ∈ ks -> order a k <> 0) ->
  exists s' arena' ps' p n, Insert compare s arena k = Some (s', arena')
    /\ sl_holds s' ps' (insert_sorted ks k)
    /\ arena_inv arena' ((p, n) :: used) /\ nodes_used s' ((p, n) :: used)
    /\ (forall r, r ∈ used -> disjoint_ranges r (p, n)).
Proof.
  intros (L & Hi & -> & ->) Ha Hu Hk Hne. unfold Insert.
  pose proof (si_height _ _ Hi) as Hht.
  rewrite (FindGreaterOrEqual_spec s L k) by done. cbn [mbind option_bind].
  destruct (filled_lookup (last_below s L (node_before s k)) (max_height_ s - 1) (replicate kMaxHeight None))
    as (prev & -> & Hplen & Hprev); [rewrite length_replicate; unfold kMaxHeight in *; lia|].
  rewrite length_replicate in Hplen. cbn [mbind option_bind].
  destruct (RandomHeight (rnd_ s)) as [h rnd] eqn:ER.
  assert (1 <= h <= kMaxHeight)%nat as Hh.
  { pose proof (random_height_range (kMaxHeight - 1) (rnd_ s) 1) as H. fold (RandomHeight (rnd_ s)) in H.
    rewrite ER in H. unfold kMaxHeight in *. simpl in *. lia. }
  set (prev' := if (max_height_ s <? h)%nat
                then fill_heads (h - max_height_ s) (max_height_ s) (head_ s) prev else prev).
  assert ((if (max_height_ s <? h)%nat
     then (fill_heads (h - max_height_ s) (max_height_ s) (head_ s) prev, h)
     else (prev, max_height_ s)) = (prev', Nat.max h (max_height_ s))) as ->.
  { unfold prev'. destruct (Nat.ltb_spec (max_height_ s) h); f_equal; lia. }
  assert (forall j, (j < h)%nat -> prev' !! j = Some (Some (last_below s L (node_before s k) j))) as Hprev'.
  { intros j Hj. assert (max_height_ s <= j -> last_below s L (node_before s k) j = head_ s)%nat as Hhd.
    { intros Hle. unfold last_below. by rewrite (si_high _ _ Hi) by done. }
    unfold prev'. destruct (Nat.ltb_spec (max_height_ s) h).
    - rewrite fill_heads_lookup by (unfold kMaxHeight in *; lia).
      destruct (decide _); [by rewrite Hhd by lia|]. apply Hprev. lia.
    - apply Hprev. lia. }
  unfold NewNode. destruct (AllocateAligned_inv arena used (16 + 8 * (Z.of_nat h - 1)) Ha) as [Hal _].
  { unfold kMaxHeight in Hh. lia. }
  destruct (AllocateAligned arena _) as [x arena'] eqn:EA. destruct Hal as (Ha' & Hx0 & Hdis).
  cbn [fst snd] in *.
  assert (nodes s !! x = None) as Hx.
  { destruct (nodes s !! x) as [n|] eqn:E; [|done]. destruct (Hu x) as [m Hm]; [by rewrite E|].
    destruct (inv_used _ _ Ha _ Hm) as (_ & Hm0 & _). specialize (Hdis _ Hm).
    unfold disjoint_ranges in Hdis. cbn [fst snd] in *. lia. }
  assert (forall p, p ∈ L 0%nat -> order (keyf s p) k <> 0) as Hne'.
  { intros p Hp. apply Hne. apply list_elem_of_In, in_map, list_elem_of_In, Hp. }
  assert (x <> nullptr) as Hxn by (unfold nullptr; lia).
  destruct (link_levels_ok s L k x h Hi Hk Hx Hh h 0 _ prev' (new_linking s L k x h rnd Hi Hx))
    as (s' & E' & Hl'); [lia|done|].
  cbv zeta in E'. rewrite E'. cbn [mbind option_bind]. rewrite Nat.add_0_l in Hl'.
  exists s', arena', (Lins s L k x h 0), x, (16 + 8 * (Z.of_nat h - 1)). split_and!; [done| |done| |done].
  - exists (Lins s L k x h). split_and!; [by eapply linking_inv|done|].
    unfold Lins. rewrite (proj2 (Nat.ltb_lt _ _)) by lia. symmetry. apply insert_sorted_map.
    + intros p Hp. by eapply linking_keyf.
    + by eapply linking_keyf_new.
    + done.
  - intros p [n En]. destruct (decide (p = x)) as [->|Hpx]; [eexists; by left|].
    destruct (Hu p) as [m Hm].
    + pose proof (lk_shape _ _ _ _ _ _ _ Hl' p Hpx) as Hs. unfold shape in Hs. rewrite En in Hs.
      destruct (nodes s !! p); [done|discriminate].
    + exists m. by right.
Qed.
End Insert.

(** * The operations on the sorted list *)

Section Spec.
Context {Key : Type} {compare : Key -> Key -> option Z} {valid : Key -> Prop}
  {order : Key -> Key -> Z} {CL : CompareLaw compare valid order} {zero_key : Key}.

Implicit Types s : SkipList Key.

#[local] Notation keyf := (keyf (zero_key := zero_key)).
#[local] Notation node_lt := (node_lt (order := order) (zero_key := zero_key)).
#[local] Notation node_before := (node_before (order := order) (zero_key := zero_key)).
#[local] Notation skip_inv := (skip_inv (valid := valid) (order := order) (zero_key := zero_key)).
#[local] Notation sl_holds := (sl_holds (valid := valid) (order := order) (zero_key := zero_key)).
#[local] Notation insert_sorted := (insert_sorted (order := order)).

(** ** The empty list *)
Lemma clear_links_ok n i s k h :
  shape s (head_ s) = Some (k, h) -> (i + n <= h)%nat ->
  exists s', clear_links n i s = Some s'
    /\ head_ s' = head_ s /\ max_height_ s' = max_height_ s
    /\ (forall q, shape s' q = shape s q)
    /\ (forall j, (i <= j < i + n)%nat -> Node_Next s' (head_ s) j = Some nullptr)
    /\ forall j, ~ (i <= j < i + n)%nat -> Node_Next s' (head_ s) j = Node_Next s (head_ s) j.
Proof.
  revert i s. induction n as [|n IH]; intros i s Hs Hn; cbn [clear_links].
  - exists s. split_and!; try done. lia.
  - destruct (SetNext_spec s (head_ s) i nullptr k h Hs ltac:(lia))
      as (s1 & -> & Hd & Hm & _ & Sh & N). cbn [mbind option_bind].
    destruct (IH (S i) s1) as (s2 & -> & Hd2 & Hm2 & Sh2 & N2 & F2); [by rewrite Hd, Sh|lia|].
    rewrite Hd in *. exists s2. split_and!; [done|done|congruence|by intros; rewrite Sh2, Sh| |].
    + intros j Hj. destruct (decide (j = i)) as [->|]; [|apply N2; lia].
      rewrite F2 by lia. rewrite N. by rewrite decide_True.
    + intros j Hj. rewrite F2 by lia. rewrite N. by rewrite decide_False by naive_solver lia.
Qed.

Lemma SkipList_new_ok `{NC : NewChar} {NL : NewCharLaw NC} arena used :
  arena_inv arena used ->
  exists s arena' p n, SkipList_new zero_key arena = Some (s, arena')
    /\ sl_holds s [] [] /\ arena_inv arena' ((p, n) :: used) /\ nodes_used s ((p, n) :: used)
    /\ (forall r, r ∈ used -> disjoint_ranges r (p, n)).
Proof.
  intros Ha. unfold SkipList_new, NewNode. cbv zeta.
  destruct (AllocateAligned_inv arena used (16 + 8 * (Z.of_nat kMaxHeight - 1)) Ha) as [Hal _].
  { unfold kMaxHeight. lia. }
  destruct (AllocateAligned arena _) as [x arena']. destruct Hal as (Ha' & Hx0 & Hdis). cbn [fst snd] in *.
  cbn [rnd_ set_nodes nodes].
  set (s := {| nodes := _; head_ := x; max_height_ := 1; rnd_ := _ |}).
  assert (shape s x = Some (zero_key, kMaxHeight)) as Hsh.
  { unfold shape, s. cbn [nodes]. by rewrite lookup_insert_eq. }
  destruct (clear_links_ok kMaxHeight 0 s zero_key kMaxHeight Hsh ltac:(done))
    as (s' & -> & Hd & Hm & Sh & N & _). cbn [mbind option_bind].
  exists s', arena', x, (16 + 8 * (Z.of_nat kMaxHeight - 1)). split_and!; [done| |done| |done].
  - exists (fun _ => []). split_and!; [|done|done].
    split; rewrite ?Hd, ?Hm; cbn [head_ max_height_ s]; try done.
    + unfold nullptr. lia.
    + specialize (Sh x). rewrite Hsh in Sh. unfold shape in Sh.
      destruct (nodes s' !! x); [done|discriminate].
    + intros i Hi. cbn [seg]. apply N. lia.
    + unfold kMaxHeight. lia.
    + intros p Hp. by apply not_elem_of_nil in Hp.
    + constructor.
  - intros p [n En]. specialize (Sh p). unfold shape in Sh. rewrite En in Sh. unfold s in Sh. cbn [nodes] in Sh.
    destruct (decide (p = x)) as [->|Hne]; [eexists; by left|].
    rewrite lookup_insert_ne in Sh by done. discriminate.
Qed.

(** ** Positions *)

(** The node of index [i], null after the last. *)
Definition node_at (ps : list Z) (i : nat) : Z := nth i ps nullptr.

Lemma node_at_hd A B : node_at (A ++ B) (length A) = hd nullptr B.
Proof. unfold node_at. rewrite app_nth2, Nat.sub_diag by lia. by destruct B. Qed.

Lemma node_at_drop l i : node_at l i = hd nullptr (drop i l).
Proof. revert i. induction l as [|p l IH]; intros [|i]; try done. apply IH. Qed.

(** How many keys are smaller. *)
Definition rank (ks : list Key) (k : Key) : nat :=
  length (List.filter (fun a => order a k <? 0) ks).

Lemma rank_below s ps k : rank (map (keyf s) ps) k = length (below (node_before s k) ps).
Proof.
  unfold rank, below. induction ps as [|p l IH]; [done|]. simpl. unfold node_before at 1.
  destruct (_ <? 0); simpl; by rewrite IH.
Qed.

Lemma FindGE_rank s ps ks k prev :
  sl_holds s ps ks -> valid k ->
  exists prev', FindGreaterOrEqual compare s k prev = Some (node_at ps (rank ks k), prev').
Proof.
  intros (L & Hi & -> & ->) Hk. eexists. rewrite (FindGreaterOrEqual_spec s L k) by done.
  do 2 f_equal. rewrite rank_below.
  pose proof (proj2 (proj2 (key_tests s L k Hi Hk)) 0%nat) as Es.
  rewrite Es at 2. by rewrite node_at_hd.
Qed.

Lemma Iterator_Seek_ok s ps ks k :
  sl_holds s ps ks -> valid k -> Iterator_Seek compare s k = Some (node_at ps (rank ks k)).
Proof.
  intros Hs Hk. unfold Iterator_Seek. by destruct (FindGE_rank s ps ks k None Hs Hk) as (prev' & ->).
Qed.

(** What is found is the first key that is not smaller. *)
Lemma Iterator_Seek_key s ps ks k :
  sl_holds s ps ks -> valid k ->
  exists p, Iterator_Seek compare s k = Some p
    /\ ((p = nullptr /\ forall a, a ∈ ks -> order a k < 0)
        \/ (p <> nullptr /\ exists a, Iterator_key s p = Some a /\ a ∈ ks /\ 0 <= order a k
            /\ forall b, b ∈ ks -> order b k < 0 \/ order a b <= 0)).
Proof.
  intros (L & Hi & -> & ->) Hk. unfold Iterator_Seek. rewrite (FindGreaterOrEqual_spec s L k) by done.
  eexists. split; [done|]. cbn [fst].
  pose proof (proj2 (proj2 (key_tests s L k Hi Hk)) 0%nat) as Es.
  pose proof (si_sorted _ _ Hi) as Hss. rewrite Es in Hss.
  assert (forall a, a ∈ map (keyf s) (L 0%nat) -> order a k < 0
            \/ exists q, q ∈ above (node_before s k) (L 0%nat) /\ a = keyf s q) as Hall.
  { intros a Ha. apply list_elem_of_fmap in Ha as (q & -> & Hq). rewrite Es in Hq.
    apply elem_of_app in Hq as [Hq|Hq]; [left|right; by exists q].
    apply elem_of_below in Hq as [_ Hq]. by apply Z.ltb_lt in Hq. }
  destruct (above (node_before s k) (L 0%nat)) as [|p l] eqn:Ea.
  - left. split; [done|]. intros a Ha. destruct (Hall a Ha) as [|(q & Hq & _)]; [done|].
    by apply not_elem_of_nil in Hq.
  - right. assert (p ∈ above (node_before s k) (L 0%nat)) as Hp by (rewrite Ea; by left).
    apply elem_of_above in Hp as [Hp Hb]. cbn [hd].
    destruct (si_node _ _ Hi p Hp) as (Hz & _ & n & En & Hvn). split; [done|].
    assert (keyf s p = key n) as Ek by (unfold keyf; by rewrite En).
    exists (keyf s p). split_and!.
    + unfold Iterator_key. by rewrite En, Ek.
    + apply list_elem_of_fmap. by exists p.
    + by apply Z.ltb_ge in Hb.
    + intros b Hb'. destruct (Hall b Hb') as [|(q & Hq & ->)]; [by left|]. right.
      apply elem_of_cons in Hq as [->|Hq].
      * rewrite order_refl by (rewrite Ek; done). done.
      * apply StronglySorted_sublist with (l1 := p :: l) in Hss; [|by apply sublist_inserts_l].
        inversion Hss as [|? ? _ Hf]; subst. rewrite Forall_forall in Hf. specialize (Hf q Hq).
        unfold node_lt in Hf. lia.
Qed.

Lemma holds_valid s ps ks a : sl_holds s ps ks -> a ∈ ks -> valid a.
Proof.
  intros (L & Hi & -> & ->) Ha. apply list_elem_of_fmap in Ha as (q & -> & Hq).
  exact (si_valid _ _ _ Hi Hq).
Qed.

Lemma insert_sorted_perm ks k : insert_sorted ks k ≡ₚ k :: ks.
Proof.
  unfold insert_sorted. rewrite <- Permutation_middle. constructor.
  induction ks as [|a ks IH]; [done|]. simpl. destruct (order a k <? 0); simpl.
  - by constructor.
  - rewrite <- Permutation_middle. by constructor.
Qed.

Lemma Iterator_SeekToFirst_ok s ps ks : sl_holds s ps ks -> Iterator_SeekToFirst s = Some (node_at ps 0).
Proof.
  intros (L & Hi & -> & _). unfold Iterator_SeekToFirst.
  pose proof (si_chain _ _ Hi 0%nat ltac:(unfold kMaxHeight; lia)) as Hc.
  rewrite (seg_next _ _ _ _ _ Hc). unfold node_at. by destruct (L 0%nat).
Qed.

Lemma Iterator_key_ok s ps ks i :
  sl_holds s ps ks -> (i < length ks)%nat ->
  node_at ps i <> nullptr /\ ps !! i = Some (node_at ps i) /\ Iterator_key s (node_at ps i) = ks !! i.
Proof.
  intros (L & Hi & -> & ->) Hlt. rewrite length_map in Hlt.
  destruct (lookup_lt_is_Some_2 _ _ Hlt) as [p Ep].
  assert (node_at (L 0%nat) i = p) as E by (by apply nth_lookup_Some).
  rewrite E. assert (p ∈ L 0%nat) as Hp by (by eapply list_elem_of_lookup_2).
  destruct (si_node _ _ Hi p Hp) as (Hz & _ & n & En & _). split_and!; [done..|].
  unfold Iterator_key. rewrite list_lookup_fmap, Ep. simpl. unfold keyf. by rewrite En.
Qed.

Lemma Iterator_Next_ok s ps ks i :
  sl_holds s ps ks -> (i < length ks)%nat ->
  Iterator_Next s (node_at ps i) = Some (node_at ps (S i)).
Proof.
  intros Hs Hlt. pose proof (Iterator_key_ok _ _ _ _ Hs Hlt) as (_ & Ep & _).
  destruct Hs as (L & Hi & -> & ->). unfold Iterator_Next. set (p := node_at (L 0%nat) i) in *.
  pose proof (si_chain _ _ Hi 0%nat ltac:(unfold kMaxHeight; lia)) as Hc.
  pose proof (take_drop_middle _ _ _ Ep) as Es.
  assert (head_ s :: L 0%nat = (head_ s :: take i (L 0%nat)) ++ p :: drop (S i) (L 0%nat)) as E.
  { rewrite <- app_comm_cons. by rewrite Es. }
  pose proof (seg_at _ _ _ _ _ _ _ _ E Hc) as Hp. rewrite (seg_next _ _ _ _ _ Hp).
  by rewrite node_at_drop.
Qed.

(** What is before a node of the list. *)
Lemma below_node s L i p :
  skip_inv s L -> L 0%nat !! i = Some p ->
  below (node_before s (keyf s p)) (L 0%nat) = take i (L 0%nat).
Proof.
  intros Hi Ep. pose proof (si_sorted _ _ Hi) as Hs. 
  assert (forall q, q ∈ L 0%nat -> valid (keyf s q)) as Hv'.
  { intros q Hq. exact (si_valid _ _ _ Hi Hq). }
  clear Hi.
  revert i p Ep. induction Hs as [|q l Hs IH Hf]; intros i p Ep; [done|].
  assert (forall q', q' ∈ l -> valid (keyf s q')) as Hvl by (intros; apply Hv'; by right).
  unfold below in *. simpl. destruct i as [|i]; simpl in Ep.
  - injection Ep as ->. unfold node_before at 1. rewrite order_refl by (apply Hv'; by left). simpl.
    clear IH Hs. induction l as [|q' l IHl]; [done|]. simpl. apply Forall_cons in Hf as [Hq Hf].
    unfold node_before at 1. unfold node_lt in Hq.
    assert (0 < order (keyf s q') (keyf s p)) as Hgt.
    { apply (order_lt_flip (keyf s p)); [apply Hv'; by left|apply Hvl; by left|done]. }
    rewrite (proj2 (Z.ltb_ge _ _)) by lia. apply IHl; [|done|].
    + intros r [->|Hr]%elem_of_cons; apply Hv'; [by left|by right; right].
    + intros r Hr. apply Hvl. by right.
  - simpl. unfold node_before at 1. rewrite Forall_forall in Hf.
    assert (order (keyf s q) (keyf s p) < 0) as Hlt by (apply Hf; by eapply list_elem_of_lookup_2).
    rewrite (proj2 (Z.ltb_lt _ _)) by done. f_equal. by apply IH.
Qed.

Lemma Iterator_Prev_ok s ps ks i :
  sl_holds s ps ks -> (i < length ks)%nat ->
  Iterator_Prev compare s (node_at ps i)
  = Some (match i with O => nullptr | S j => node_at ps j end).
Proof.
  intros Hs Hlt. pose proof (Iterator_key_ok _ _ _ _ Hs Hlt) as (_ & Ep & Ek).
  destruct Hs as (L & Hi & -> & ->). unfold Iterator_Prev. set (p := node_at (L 0%nat) i) in *.
  assert (Iterator_key s p = Some (keyf s p)) as -> by (by rewrite Ek, list_lookup_fmap, Ep).
  cbn [mbind option_bind].
  assert (p ∈ L 0%nat) as Hp by (by eapply list_elem_of_lookup_2).
  rewrite (FindLessThan_spec s L) by (done || exact (si_valid _ _ _ Hi Hp)). cbn [mbind option_bind].
  unfold last_below. rewrite (below_node s L i p Hi Ep).
  destruct i as [|j].
  - simpl. unfold last_of. simpl. by rewrite Z.eqb_refl.
  - apply lookup_lt_Some in Ep. destruct (lookup_lt_is_Some_2 (L 0%nat) j) as [q Eq]; [lia|].
    rewrite (take_S_r _ _ _ Eq), last_of_snoc.
    assert (q ∈ L 0%nat) as Hq by (by eapply list_elem_of_lookup_2).
    destruct (si_node _ _ Hi q Hq) as (_ & Hne & _). rewrite (proj2 (Z.eqb_neq _ _)) by done.
    f_equal. symmetry. by apply nth_lookup_Some.
Qed.

Lemma Iterator_SeekToLast_ok s ps ks :
  sl_holds s ps ks ->
  Iterator_SeekToLast s = Some (match length ks with O => nullptr | S j => node_at ps j end).
Proof.
  intros (L & Hi & -> & ->). unfold Iterator_SeekToLast. rewrite (FindLast_spec s L Hi).
  cbn [mbind option_bind]. rewrite length_map. unfold last_of.
  destruct (L 0%nat) as [|q l] eqn:E using rev_ind; [by rewrite Z.eqb_refl|clear IHl].
  rewrite last_snoc, length_app. simpl. rewrite Nat.add_1_r.
  assert (q ∈ L 0%nat) as Hq by (rewrite E; apply elem_of_app; right; by left).
  destruct (si_node _ _ Hi q Hq) as (_ & Hne & _). rewrite (proj2 (Z.eqb_neq _ _)) by done.
  by rewrite node_at_hd.
Qed.

Lemma Contains_ok s ps ks k :
  sl_holds s ps ks -> valid k ->
  Contains compare s k = Some (existsb (fun a => order a k =? 0) ks).
Proof.
  intros Hs Hk. unfold Contains. destruct (FindGE_rank s ps ks k None Hs Hk) as (prev' & ->).
  cbn [mbind option_bind]. destruct Hs as (L & Hi & -> & ->).
  rewrite rank_below. pose proof (proj2 (proj2 (key_tests s L k Hi Hk)) 0%nat) as Es.
  assert (node_at (L 0%nat) (length (below (node_before s k) (L 0%nat)))
          = hd nullptr (above (node_before s k) (L 0%nat))) as -> by (rewrite Es at 1; apply node_at_hd).
  assert (existsb (fun a => order a k =? 0) (map (keyf s) (L 0%nat))
          = existsb (fun p => order (keyf s p) k =? 0) (above (node_before s k) (L 0%nat))) as ->.
  { clear Es. unfold above. induction (L 0%nat) as [|p l IH]; [done|]. simpl. rewrite IH.
    unfold node_before at 2. destruct (Z.ltb_spec (order (keyf s p) k) 0); simpl; [|done].
    by rewrite (proj2 (Z.eqb_neq _ _)) by lia. }
  pose proof (si_sorted _ _ Hi) as Hss. rewrite Es in Hss.
  assert (forall p, p ∈ above (node_before s k) (L 0%nat) -> p ∈ L 0%nat /\ 0 <= order (keyf s p) k) as Hin.
  { intros p [? Hb]%elem_of_above. by apply Z.ltb_ge in Hb. }
  destruct (above (node_before s k) (L 0%nat)) as [|p l]; [done|]. cbn [hd existsb].
  destruct (Hin p) as [Hp Hge]; [by left|].
  destruct (si_node _ _ Hi p Hp) as (Hz & _ & n & En & Hvn). rewrite (proj2 (Z.eqb_neq _ _)) by done.
  rewrite En. cbn [mbind option_bind]. unfold Equal. rewrite Compare_order by done. cbn [mbind option_bind].
  f_equal. unfold keyf at 1. rewrite En. pose proof (order_sym k (key n) Hk Hvn) as Hsym.
  assert ((order k (key n) =? 0) = (order (key n) k =? 0)) as ->.
  { destruct (Z.eqb_spec (order k (key n)) 0), (Z.eqb_spec (order (key n) k) 0); lia. }
  destruct (Z.eqb_spec (order (key n) k) 0) as [E0|Hne]; [done|]. symmetry.
  apply not_true_iff_false. intros (q & Hq & E)%existsb_exists. apply Z.eqb_eq in E.
  apply list_elem_of_In in Hq.
  destruct (Hin q) as [Hq0 _]; [by right|].
  pose proof (si_valid _ _ _ Hi Hq0) as Hvq. pose proof (si_valid _ _ _ Hi Hp) as Hvp.
  apply StronglySorted_sublist with (l1 := p :: l) in Hss; [|by apply sublist_inserts_l].
  inversion Hss as [|? ? _ Hf]; subst. rewrite Forall_forall in Hf. specialize (Hf q Hq).
  assert (order (keyf s p) k < 0) as Hlt by (apply (order_lt_le_trans _ (keyf s q)); [done..|lia]).
  lia.
Qed.
End Spec.
