(* ===== verification/LdbMemTable.v ===== *)
(** leveldb: the table in memory, [memtable.h] and [memtable.cc].

    An entry is written once, before it is inserted into the skip list, and
    never again: a key of the skip list is the bytes at its address.  The
    comparator of the user keys is any that satisfies the laws. *)
From stdpp Require Import base numbers option gmap strings list.
From S2P Require Import Prelude Varint LdbSlice LdbCoding LdbComparator LdbDbformat LdbArena LdbSkipList LdbSkipListThms.
Open Scope Z_scope.
Open Scope c_scope.

(** * Operations *)

(** The slice at [data], and what follows it; the parser is given five bytes. *)
Definition MemTable_GetLengthPrefixedSlice (data : bytes) : option (bytes * bytes) :=
  '(len, rest) ← GetVarint32Ptr (take 5 data);
  let p := drop (length (take 5 data) - length rest) data in
  if len <=? zlen p then Some (take (Z.to_nat len) p, drop (Z.to_nat len) p) else None.

(** [EncodeKey] *)
Definition EncodeKey (target : bytes) : bytes := PutVarint32 [] (u32 (zlen target)) ++ target.

(** The state without the comparator, which does not change. *)
Record MemTable : Type := { refs_ : Z; arena_ : Arena; table_ : SkipList bytes }.

Definition MemTable_ApproximateMemoryUsage (m : MemTable) : Z := MemoryUsage (arena_ m).

Definition MemTable_Ref (m : MemTable) : MemTable :=
  {| refs_ := refs_ m + 1; arena_ := arena_ m; table_ := table_ m |}.

(** [None] is the deleted table. *)
Definition MemTable_Unref (m : MemTable) : option MemTable :=
  let refs := refs_ m - 1 in
  if refs <=? 0 then None else Some {| refs_ := refs; arena_ := arena_ m; table_ := table_ m |}.

Section MemTable.
Context `{U : Comparator} `{NC : NewChar}.

(** [KeyComparator::operator()] *)
Definition KeyComparator (aptr bptr : bytes) : option Z :=
  '(a, _) ← MemTable_GetLengthPrefixedSlice aptr;
  '(b, _) ← MemTable_GetLengthPrefixedSlice bptr;
  InternalKey_Compare a b.

Definition MemTable_new : option MemTable :=
  '(table, arena) ← SkipList_new [] Arena_new;
  Some {| refs_ := 0; arena_ := arena; table_ := table |}.

(** Writing past the [encoded_len] bytes is out of bounds. *)
Definition MemTable_Add (m : MemTable) (s type : Z) (key value : bytes) : option MemTable :=
  let key_size := zlen key in
  let val_size := zlen value in
  let internal_key_size := key_size + 8 in
  let encoded_len :=
    VarintLength internal_key_size + internal_key_size + VarintLength val_size + val_size in
  let '(_, arena) := Allocate (arena_ m) encoded_len in
  let buf := EncodeVarint32 (u32 internal_key_size) ++ key
             ++ EncodeFixed64 (u64 (s ≪ 8) ||| type)
             ++ EncodeVarint32 (u32 val_size) ++ value in
  if zlen buf <=? encoded_len then
    '(table, arena) ← Insert KeyComparator (table_ m) arena buf;
    Some {| refs_ := refs_ m; arena_ := arena; table_ := table |}
  else None.

(** The result, and what is stored in [*value] and [*s]. *)
Record get_result : Type := { found : bool; get_value : option bytes; get_status : option Status }.

Definition not_found : get_result := {| found := false; get_value := None; get_status := None |}.

Definition MemTable_Get (m : MemTable) (key : LookupKey) : option get_result :=
  let memkey := LookupKey_memtable_key key in
  iter ← Iterator_Seek KeyComparator (table_ m) memkey;
  if Iterator_Valid iter then
    entry ← Iterator_key (table_ m) iter;
    '(key_length, rest) ← GetVarint32Ptr (take 5 entry);
    let key_ptr := drop (length (take 5 entry) - length rest) entry in
    if (key_length <? 8) || (zlen key_ptr <? key_length) then None
    else
      r ← Compare (take (Z.to_nat (key_length - 8)) key_ptr) (LookupKey_user_key key);
      if r =? 0 then
        tag ← DecodeFixed64 (drop (Z.to_nat (key_length - 8)) key_ptr);
        if (tag &&& 0xff) =? kTypeValue then
          '(v, _) ← MemTable_GetLengthPrefixedSlice (drop (Z.to_nat key_length) key_ptr);
          Some {| found := true; get_value := Some v; get_status := None |}
        else if (tag &&& 0xff) =? kTypeDeletion
        then Some {| found := true; get_value := None; get_status := Some (Status_NotFound [] []) |}
        else Some not_found
      else Some not_found
  else Some not_found.

(** ** MemTableIterator: the [node_] of its list iterator *)
Definition MemTableIterator_Seek (m : MemTable) (k : bytes) : option Z :=
  Iterator_Seek KeyComparator (table_ m) (EncodeKey k).

Definition MemTableIterator_key (m : MemTable) (node : Z) : option bytes :=
  entry ← Iterator_key (table_ m) node;
  fst <$> MemTable_GetLengthPrefixedSlice entry.

Definition MemTableIterator_value (m : MemTable) (node : Z) : option bytes :=
  entry ← Iterator_key (table_ m) node;
  '(_, rest) ← MemTable_GetLengthPrefixedSlice entry;
  fst <$> MemTable_GetLengthPrefixedSlice rest.
End MemTable.

(** * Entries *)

(** What was added. *)
Record Entry : Type := { e_key : bytes; e_seq : Z; e_type : Z; e_value : bytes }.

Definition e_ikey (e : Entry) : bytes :=
  AppendInternalKey [] {| user_key := e_key e; sequence := e_seq e; type := e_type e |}.

Definition e_bytes (e : Entry) : bytes := delim (e_ikey e) ++ delim (e_value e).

(** Sizes that fit in the length fields. *)
Definition e_fits (e : Entry) : Prop :=
  Forall is_byte (e_key e) /\ Forall is_byte (e_value e)
  /\ zlen (e_key e) + 8 < 2 ^ 32 /\ zlen (e_value e) < 2 ^ 32
  /\ valid_seq (e_seq e) /\ valid_type (e_type e).

Lemma e_ikey_app e : e_ikey e = e_key e ++ EncodeFixed64 (PackSequenceAndType (e_seq e) (e_type e)).
Proof. unfold e_ikey. by rewrite AppendInternalKey_app. Qed.

Lemma e_ikey_length e : zlen (e_ikey e) = zlen (e_key e) + 8.
Proof. by rewrite e_ikey_app, zlen_app. Qed.

Lemma e_ikey_bytes e : Forall is_byte (e_key e) -> Forall is_byte (e_ikey e).
Proof. intros. rewrite e_ikey_app. apply Forall_app. split; [done|apply EncodeFixed64_bytes]. Qed.

(** The varint at the start of an entry. *)
Lemma prefix_varint v rest :
  in_uint 32 v -> Forall is_byte rest ->
  exists rest', GetVarint32Ptr (take 5 (varint v ++ rest)) = Some (v, rest')
    /\ drop (length (take 5 (varint v ++ rest)) - length rest') (varint v ++ rest) = rest.
Proof.
  intros Hv Hr. pose proof (varint_zlen5 v Hv) as H5.
  rewrite take_app_ge by lia. exists (take (5 - length (varint v)) rest). split.
  - apply GetVarint32_varint; [done|by apply Forall_take].
  - rewrite length_app, Nat.add_sub. apply drop_app_length.
Qed.

Lemma MemTable_GetLengthPrefixedSlice_delim v rest :
  zlen v < 2 ^ 32 -> Forall is_byte v -> Forall is_byte rest ->
  MemTable_GetLengthPrefixedSlice (delim v ++ rest) = Some (v, rest).
Proof.
  intros Hv Hb Hr. unfold MemTable_GetLengthPrefixedSlice, delim. rewrite <- app_assoc.
  destruct (prefix_varint (zlen v) (v ++ rest)) as (r & -> & E); [unfold in_uint; lia|by apply Forall_app|].
  cbn [mbind option_bind]. cbv zeta. rewrite E, zlen_app. rewrite (proj2 (Z.leb_le _ _)) by lia.
  by rewrite Nat2Z.id, take_app_length, drop_app_length.
Qed.

(** * The order of entries *)
Section Order.
Context {U : Comparator} {uvalid : bytes -> Prop} {uorder : bytes -> bytes -> Z}
  {UL : ComparatorLaw U uvalid uorder}.

(** Bytes that start with a length-prefixed internal key. *)
Definition mem_valid (a : bytes) : Prop :=
  exists k rest, a = delim k ++ rest /\ zlen k < 2 ^ 32 /\ Forall is_byte k /\ Forall is_byte rest
    /\ ikey_valid uvalid k.

Definition mem_key (a : bytes) : bytes :=
  match MemTable_GetLengthPrefixedSlice a with Some (k, _) => k | None => [] end.

Definition mem_order (a b : bytes) : Z := ikey_order uorder (mem_key a) (mem_key b).

Lemma mem_key_delim k rest :
  zlen k < 2 ^ 32 -> Forall is_byte k -> Forall is_byte rest -> mem_key (delim k ++ rest) = k.
Proof. intros. unfold mem_key. by rewrite MemTable_GetLengthPrefixedSlice_delim. Qed.

Lemma mem_valid_key a : mem_valid a -> ikey_valid uvalid (mem_key a).
Proof. intros (k & rest & -> & Hl & Hk & Hr & Hv). by rewrite mem_key_delim. Qed.

#[export] Instance KeyComparator_law : CompareLaw KeyComparator mem_valid mem_order.
Proof.
  split.
  - intros a b (k1 & r1 & -> & L1 & B1 & R1 & V1) (k2 & r2 & -> & L2 & B2 & R2 & V2).
    unfold KeyComparator, mem_order. rewrite !MemTable_GetLengthPrefixedSlice_delim by done.
    cbn [mbind option_bind]. rewrite !mem_key_delim by done. by apply InternalKey_Compare_order.
  - intros a b Ha%mem_valid_key Hb%mem_valid_key. by apply ikey_order_sym.
  - intros a b c Ha%mem_valid_key Hb%mem_valid_key Hc%mem_valid_key. by apply ikey_order_trans.
Qed.

Lemma e_bytes_valid e : e_fits e -> uvalid (e_key e) -> mem_valid (e_bytes e).
Proof.
  intros (Hk & Hv & Hkl & Hvl & Hs & Ht) Hu. exists (e_ikey e), (delim (e_value e)). split_and!.
  - done.
  - rewrite e_ikey_length. lia.
  - by apply e_ikey_bytes.
  - by apply short_delim_bytes.
  - by apply ikey_valid_append.
Qed.

Lemma mem_key_entry e : e_fits e -> mem_key (e_bytes e) = e_ikey e.
Proof.
  intros (Hk & Hv & Hkl & Hvl & _). unfold e_bytes. apply mem_key_delim.
  - rewrite e_ikey_length. lia.
  - by apply e_ikey_bytes.
  - by apply short_delim_bytes.
Qed.

(** ** Tags *)
Definition e_tag (e : Entry) : Z := e_seq e * 256 + e_type e.

Lemma e_order e1 e2 :
  e_fits e1 -> e_fits e2 ->
  mem_order (e_bytes e1) (e_bytes e2)
  = if uorder (e_key e1) (e_key e2) =? 0
    then (if e_tag e1 >? e_tag e2 then -1 else if e_tag e1 <? e_tag e2 then 1 else 0)
    else uorder (e_key e1) (e_key e2).
Proof.
  intros H1 H2. unfold mem_order. rewrite !mem_key_entry, !e_ikey_app, ikey_order_app by done.
  destruct H1 as (_ & _ & _ & _ & Hs1 & Ht1), H2 as (_ & _ & _ & _ & Hs2 & Ht2).
  unfold EncodeFixed64. cbn [kLittleEndian].
  rewrite !le_val_bytes by (by apply Pack_range; auto with cint).
  by rewrite !Pack_add by auto with cint.
Qed.

(** * The table as a list of entries *)
Definition e_ok (e : Entry) : Prop := e_fits e /\ uvalid (e_key e).

#[local] Notation sl_holds := (sl_holds (valid := mem_valid) (order := mem_order) (zero_key := [])).

(** The entries, the last one added first. *)
Definition mem_rep (m : MemTable) (es : list Entry) : Prop :=
  Forall e_ok es
  /\ exists ps ks used, sl_holds (table_ m) ps ks /\ arena_inv (arena_ m) used
       /\ nodes_used (table_ m) used /\ ks ≡ₚ map e_bytes es.

(** No entry of the same key has its sequence number. *)
Definition fresh (e : Entry) (es : list Entry) : Prop :=
  forall e', e' ∈ es -> uorder (e_key e') (e_key e) = 0 -> e_seq e' <> e_seq e.

Section Memory.
Context {NC : NewChar} {NL : NewCharLaw NC}.

Lemma MemTable_new_ok : exists m, MemTable_new = Some m /\ mem_rep m [] /\ refs_ m = 0.
Proof.
  unfold MemTable_new.
  destruct (SkipList_new_ok (valid := mem_valid) (order := mem_order) (zero_key := []) Arena_new [] arena_inv_new)
    as (t & a & p & n & -> & Hh & Ha & Hu & _).
  cbn [mbind option_bind]. eexists. split; [done|]. split; [|done]. split; [done|].
  exists [], [], [(p, n)]. by split_and!.
Qed.

Lemma MemTable_Add_ok m es e :
  mem_rep m es -> e_ok e -> fresh e es ->
  exists m', MemTable_Add m (e_seq e) (e_type e) (e_key e) (e_value e) = Some m'
    /\ mem_rep m' (e :: es) /\ refs_ m' = refs_ m.
Proof.
  intros [Hes (ps & ks & used & Hh & Ha & Hu & Hp)] He Hf.
  pose proof He as [(Hk & Hv & Hkl & Hvl & Hs & Ht) Huv].
  unfold MemTable_Add. cbv zeta.
  assert (EncodeVarint32 (u32 (zlen (e_key e) + 8)) ++ e_key e
          ++ EncodeFixed64 (u64 (e_seq e ≪ 8) ||| e_type e)
          ++ EncodeVarint32 (u32 (zlen (e_value e))) ++ e_value e = e_bytes e) as Eb.
  { unfold e_bytes, delim. rewrite e_ikey_length.
    rewrite !u32_small, !EncodeVarint32_varint by (unfold in_uint; lia).
    rewrite e_ikey_app. unfold PackSequenceAndType. by rewrite <- !app_assoc. }
  rewrite Eb. set (len := VarintLength _ + _ + _ + _).
  assert (len = zlen (e_bytes e)) as El.
  { unfold len, e_bytes, delim. rewrite !VarintLength_varint by lia.
    rewrite !zlen_app, !e_ikey_length. lia. }
  assert (0 < len) as Hpos by (unfold len; rewrite !VarintLength_varint; lia).
  destruct (Allocate (arena_ m) len) as [buf arena] eqn:EA.
  pose proof (Allocate_inv (arena_ m) used len Ha Hpos) as (Ha1 & _ & _). rewrite EA in Ha1. cbn [fst snd] in Ha1.
  rewrite El, (proj2 (Z.leb_le _ _)) by lia.
  destruct (Insert_ok (compare := KeyComparator) (table_ m) ps ks arena ((buf, len) :: used) (e_bytes e) Hh Ha1)
    as (t & a & ps' & p & n & -> & Hh' & Ha' & Hu' & _).
  - intros q Hq. destruct (Hu q Hq) as [n Hn]. exists n. by right.
  - by apply e_bytes_valid.
  - intros b Hb. rewrite Hp in Hb. apply list_elem_of_fmap in Hb as (e' & -> & He').
    rewrite Forall_forall in Hes. destruct (Hes e' He') as [Hfit' _].
    rewrite e_order by (done || by apply He). specialize (Hf e' He').
    destruct (Z.eqb_spec (uorder (e_key e') (e_key e)) 0) as [E0|]; [|done].
    specialize (Hf E0). destruct Hfit' as (_ & _ & _ & _ & _ & Ht'). unfold e_tag.
    destruct (Z.gtb_spec (e_seq e' * 256 + e_type e') (e_seq e * 256 + e_type e)); [done|].
    destruct (Z.ltb_spec (e_seq e' * 256 + e_type e') (e_seq e * 256 + e_type e)); [done|].
    unfold valid_type, kTypeDeletion, kTypeValue in *. lia.
  - cbn [mbind option_bind]. eexists. split; [done|]. split; [|done]. split; [by constructor|].
    exists ps', (insert_sorted (order := mem_order) ks (e_bytes e)), ((p, n) :: (buf, len) :: used).
    split_and!; [done..|]. rewrite insert_sorted_perm. cbn [map]. by rewrite Hp.
Qed.

(** ** Lookup *)

(** The entries that a lookup of [u] at [s] may see. *)
Definition visible (u : bytes) (s : Z) (e : Entry) : Prop :=
  uorder (e_key e) u = 0 /\ e_seq e <= s.

Definition answer (e : Entry) : get_result :=
  if e_type e =? kTypeValue
  then {| found := true; get_value := Some (e_value e); get_status := None |}
  else {| found := true; get_value := None; get_status := Some (Status_NotFound [] []) |}.

(** The answer is that of the latest visible entry. *)
Definition get_spec (es : list Entry) (u : bytes) (s : Z) (r : get_result) : Prop :=
  (exists e, e ∈ es /\ visible u s e
     /\ (forall e', e' ∈ es -> visible u s e' -> e_seq e' <= e_seq e) /\ r = answer e)
  \/ ((forall e, e ∈ es -> ~ visible u s e) /\ r = not_found).

(** The entry that the bytes of a lookup key would be. *)
Lemma e_bytes_prefix e :
  e_bytes e = varint (zlen (e_key e) + 8) ++ e_key e
              ++ EncodeFixed64 (PackSequenceAndType (e_seq e) (e_type e)) ++ delim (e_value e).
Proof. unfold e_bytes, delim at 1. rewrite e_ikey_length, e_ikey_app. by rewrite <- !app_assoc. Qed.

(** What [Get] does with the entry it finds. *)
Lemma Get_entry m es u lk node e :
  Forall e_ok es -> e ∈ es -> uvalid u -> LookupKey_user_key lk = u ->
  Iterator_Seek KeyComparator (table_ m) (LookupKey_memtable_key lk) = Some node ->
  node <> nullptr -> Iterator_key (table_ m) node = Some (e_bytes e) ->
  MemTable_Get m lk
  = Some (if uorder (e_key e) u =? 0 then answer e else not_found).
Proof.
  intros Hes He Hu Elk Es Hn Ek. rewrite Forall_forall in Hes.
  destruct (Hes e He) as [(Hk & Hv & Hkl & Hvl & Hs & Ht) Huv].
  unfold MemTable_Get. cbv zeta. rewrite Es. cbn [mbind option_bind]. unfold Iterator_Valid.
  rewrite (proj2 (Z.eqb_neq _ _)) by done. cbn [negb]. rewrite Ek. cbn [mbind option_bind].
  rewrite e_bytes_prefix.
  set (tagb := EncodeFixed64 _). assert (zlen tagb = 8) as Lt by done.
  assert (Forall is_byte (e_key e ++ tagb ++ delim (e_value e))) as Hb.
  { apply Forall_app. split; [done|]. apply Forall_app. split; [apply EncodeFixed64_bytes|].
    by apply short_delim_bytes. }
  destruct (prefix_varint (zlen (e_key e) + 8) _ ltac:(unfold in_uint; lia) Hb) as (rest & -> & Ed).
  cbn [mbind option_bind]. rewrite Ed. rewrite !zlen_app, Lt.
  rewrite (proj2 (Z.ltb_ge _ 8)), (proj2 (Z.ltb_ge _ (zlen (e_key e) + 8))) by lia. cbn [orb].
  replace (Z.to_nat (zlen (e_key e) + 8 - 8)) with (length (e_key e)) by lia.
  rewrite take_app_length, drop_app_length, Elk.
  rewrite (Compare_order (compare := Compare)) by done. cbn [mbind option_bind].
  destruct (uorder (e_key e) u =? 0); [|done].
  assert (DecodeFixed64 (tagb ++ delim (e_value e)) = Some (PackSequenceAndType (e_seq e) (e_type e)))
    as -> by (by apply DecodeFixed64_Encode, Pack_range; auto with cint).
  cbn [mbind option_bind]. rewrite Pack_add, land_ff by auto with cint.
  assert (is_byte (e_type e)) as Htb by auto with cint.
  rewrite Z.add_comm, Z_mod_plus_full, Z.mod_small by (unfold in_uint in Htb; lia).
  unfold answer. destruct Ht as [E|E]; rewrite E; cbn [Z.eqb kTypeValue kTypeDeletion].
  - done.
  - replace (Z.to_nat (zlen (e_key e) + 8)) with (length (e_key e ++ tagb))
      by (rewrite length_app; lia).
    rewrite app_assoc, drop_app_length, <- (app_nil_r (delim _)).
    rewrite MemTable_GetLengthPrefixedSlice_delim by (done || lia). done.
Qed.

Lemma MemTable_Get_ok m es u s :
  mem_rep m es -> uvalid u -> Forall is_byte u -> zlen u + 8 < 2 ^ 32 -> valid_seq s ->
  exists lk r, LookupKey_make u s = Some lk /\ MemTable_Get m lk = Some r /\ get_spec es u s r.
Proof.
  intros [Hes (ps & ks & used & Hh & _ & _ & Hp)] Hu Hub Hul Hs.
  destruct (LookupKey_make_ok u s Hul) as (lk & Elk & _ & Eu & Em). exists lk.
  (* the lookup key is the entry of the last type at [s], without a value *)
  set (t := {| e_key := u; e_seq := s; e_type := kTypeValue; e_value := [] |}).
  assert (e_fits t) as Hfit by (unfold t; split_and!; try done; by right).
  assert (LookupKey_memtable_key lk = delim (e_ikey t)) as Emk.
  { rewrite Em, PutLengthPrefixedSlice_delim; [|rewrite zlen_app; simpl length; lia].
    by rewrite e_ikey_app. }
  assert (mem_valid (LookupKey_memtable_key lk) /\ mem_key (LookupKey_memtable_key lk) = e_ikey t)
    as [Hval Hkey].
  { rewrite Emk, <- (app_nil_r (delim _)). assert (zlen (e_ikey t) < 2 ^ 32) by (rewrite e_ikey_length; done).
    split; [|by rewrite mem_key_delim by (done || by apply e_ikey_bytes)].
    exists (e_ikey t), []. split_and!; [done|done|by apply e_ikey_bytes|constructor|by apply ikey_valid_append]. }
  assert (forall e, e ∈ es -> mem_order (e_bytes e) (LookupKey_memtable_key lk)
            = mem_order (e_bytes e) (e_bytes t)) as Hord.
  { intros e He. unfold mem_order. by rewrite Hkey, (mem_key_entry t). }
  assert (forall e, e ∈ es -> e_fits e) as Hfits.
  { intros e He. rewrite Forall_forall in Hes. apply (Hes e He). }
  destruct (Iterator_Seek_key (compare := KeyComparator) _ _ _ _ Hh Hval) as (node & Eseek & Hcase).
  assert (forall e, visible u s e -> e ∈ es -> 0 <= mem_order (e_bytes e) (LookupKey_memtable_key lk)) as Hvis.
  { intros e [Ev1 Ev2] He. rewrite Hord, e_order by auto. cbn [t e_key]. rewrite Ev1. cbn [Z.eqb].
    destruct (Hfits e He) as (_ & _ & _ & _ & _ & Ht'). unfold e_tag, t. cbn [e_seq e_type].
    unfold valid_type, kTypeDeletion, kTypeValue in *.
    destruct (Z.gtb_spec (e_seq e * 256 + e_type e) (s * 256 + 1)); [lia|]. destruct (_ <? _); lia. }
  destruct Hcase as [[-> Hall]|(Hn & a & Ea & Ha & Hge & Hfirst)].
  - exists not_found. split_and!; [done| |].
    + unfold MemTable_Get. cbv zeta. rewrite Eseek. done.
    + right. split; [|done]. intros e He Hv. specialize (Hvis e Hv He).
      assert (e_bytes e ∈ ks) as Hin by (rewrite Hp; by apply list_elem_of_fmap_2).
      specialize (Hall _ Hin). lia.
  - assert (exists e, a = e_bytes e /\ e ∈ es) as (e & -> & He).
    { rewrite Hp in Ha. by apply list_elem_of_fmap in Ha. }
    exists (if uorder (e_key e) u =? 0 then answer e else not_found). split; [done|].
    split; [by apply (Get_entry m es u lk node e)|].
    rewrite Hord, e_order in Hge by auto. cbn [t e_key] in Hge.
    assert (forall e', e' ∈ es -> visible u s e' -> mem_order (e_bytes e) (e_bytes e') <= 0) as Hle.
    { intros e' He' Hv'. destruct (Hfirst (e_bytes e')) as [Hlt|]; [|pose proof (Hvis e' Hv' He'); lia|done].
      rewrite Hp. by apply list_elem_of_fmap_2. }
    rewrite Forall_forall in Hes.
    destruct (Z.eqb_spec (uorder (e_key e) u) 0) as [E0|Hne].
    + left. exists e. split; [done|].
      destruct (Hfits e He) as (_ & _ & _ & _ & _ & Ht). unfold e_tag, t in Hge. cbn [e_seq e_type] in Hge.
      unfold valid_type, kTypeDeletion, kTypeValue in *.
      assert (e_seq e <= s) as Hseq.
      { destruct (Z.gtb_spec (e_seq e * 256 + e_type e) (s * 256 + 1)); lia. }
      split; [done|]. split; [|done].
      intros e' He' [Ev Ev']. specialize (Hle e' He' (conj Ev Ev')). rewrite e_order in Hle by auto.
      assert (uorder (e_key e) (e_key e') = 0) as E0'.
      { destruct (Hes e He) as [_ V1], (Hes e' He') as [_ V2].
        pose proof (order_sym (e_key e) (e_key e') V1 V2). pose proof (order_sym (e_key e) u V1 Hu).
        pose proof (order_sym (e_key e') u V2 Hu).
        assert (uorder (e_key e) (e_key e') <= 0) by (apply (order_trans _ u); (done || lia)).
        assert (uorder (e_key e') (e_key e) <= 0) by (apply (order_trans _ u); (done || lia)). lia. }
      rewrite E0' in Hle. cbn [Z.eqb] in Hle.
      destruct (Hfits e' He') as (_ & _ & _ & _ & _ & Ht'). unfold e_tag in Hle.
      unfold valid_type, kTypeDeletion, kTypeValue in *.
      destruct (Z.gtb_spec (e_seq e * 256 + e_type e) (e_seq e' * 256 + e_type e')); [lia|].
      destruct (Z.ltb_spec (e_seq e * 256 + e_type e) (e_seq e' * 256 + e_type e')); lia.
    + right. split; [|done]. intros e' He' Hv'. specialize (Hle e' He' Hv'). destruct Hv' as [Ev Ev'].
      rewrite e_order in Hle by auto. destruct (Hes e He) as [_ V1], (Hes e' He') as [_ V2].
      assert (uorder (e_key e) (e_key e') <= 0) as Hle'.
      { destruct (Z.eqb_spec (uorder (e_key e) (e_key e')) 0); lia. }
      assert (uorder (e_key e) u <= 0) by (apply (order_trans _ (e_key e')); (done || lia)). lia.
Qed.
End Memory.
End Order.
