(* ===== verification/LdbWriteBatch.v ===== *)
(** leveldb: batches of updates, [write_batch.h], [write_batch_internal.h] and
    [write_batch.cc].

    A [WriteBatch] is its [rep_].  A handler is the class [Handler]; a call
    that is undefined in the code is [None]. *)
From stdpp Require Import base numbers option gmap strings list.
From S2P Require Import Prelude Varint LdbSlice LdbCoding LdbComparator LdbDbformat LdbArena LdbMemTable.
Open Scope Z_scope.
Open Scope c_scope.

Definition kHeader : nat := 12.

Definition WriteBatch : Type := bytes.

(** * The header *)
Definition WriteBatch_Clear : WriteBatch := replicate kHeader 0.
Definition WriteBatch_new : WriteBatch := WriteBatch_Clear.
Definition WriteBatch_ApproximateSize (b : WriteBatch) : Z := zlen b.

(** The conversion to [int]. *)
Definition WriteBatchInternal_Count (b : WriteBatch) : option Z :=
  s32 <$> DecodeFixed32 (drop 8 b).

(** Overwriting [n] bytes at [off]; outside of the string it is undefined. *)
Definition write_at (b : bytes) (off : nat) (l : bytes) : option bytes :=
  if (off + length l <=? length b)%nat
  then Some (take off b ++ l ++ drop (off + length l) b) else None.

(** An [int] argument; one that has overflowed is undefined. *)
Definition WriteBatchInternal_SetCount (b : WriteBatch) (n : Z) : option WriteBatch :=
  if (- 2 ^ 31 <=? n) && (n <? 2 ^ 31) then write_at b 8 (EncodeFixed32 (u32 n)) else None.

Definition WriteBatchInternal_Sequence (b : WriteBatch) : option Z := DecodeFixed64 b.

Definition WriteBatchInternal_SetSequence (b : WriteBatch) (seq : Z) : option WriteBatch :=
  write_at b 0 (EncodeFixed64 seq).

Definition WriteBatchInternal_Contents (b : WriteBatch) : bytes := b.
Definition WriteBatchInternal_ByteSize (b : WriteBatch) : Z := zlen b.
Definition WriteBatchInternal_SetContents (contents : bytes) : WriteBatch := contents.

(** * Updates *)
Definition WriteBatch_Put (b : WriteBatch) (key value : bytes) : option WriteBatch :=
  count ← WriteBatchInternal_Count b;
  b ← WriteBatchInternal_SetCount b (count + 1);
  Some (PutLengthPrefixedSlice (PutLengthPrefixedSlice (b ++ [kTypeValue]) key) value).

Definition WriteBatch_Delete (b : WriteBatch) (key : bytes) : option WriteBatch :=
  count ← WriteBatchInternal_Count b;
  b ← WriteBatchInternal_SetCount b (count + 1);
  Some (PutLengthPrefixedSlice (b ++ [kTypeDeletion]) key).

Definition WriteBatchInternal_Append (dst src : WriteBatch) : option WriteBatch :=
  count_dst ← WriteBatchInternal_Count dst;
  count_src ← WriteBatchInternal_Count src;
  dst ← WriteBatchInternal_SetCount dst (count_dst + count_src);
  if (length src <? kHeader)%nat then None else Some (dst ++ drop kHeader src).

Definition WriteBatch_Append (b source : WriteBatch) : option WriteBatch :=
  WriteBatchInternal_Append b source.

(** * Iteration *)
Class Handler (H : Type) : Type := {
  Handler_Put : H -> bytes -> bytes -> option H;
  Handler_Delete : H -> bytes -> option H
}.

(** The while loop.  The result is a status returned from it, or none, with
    the number of records found; every round takes a byte. *)
Fixpoint iterate_loop `{HH : Handler H} (n : nat) (input : bytes) (handler : H) (nfound : Z)
    : option (option Status * Z * H) :=
  match input, n with
  | [], _ => Some (None, nfound, handler)
  | _ :: _, O => None
  | tag :: input, S n' =>
      let nfound := nfound + 1 in
      if tag =? kTypeValue then
        match GetLengthPrefixedSlice input with
        | Some (key, input) =>
            match GetLengthPrefixedSlice input with
            | Some (value, input) =>
                handler ← Handler_Put handler key value;
                iterate_loop n' input handler nfound
            | None => Some (Some (Status_Corruption (str "bad WriteBatch Put") []), nfound, handler)
            end
        | None => Some (Some (Status_Corruption (str "bad WriteBatch Put") []), nfound, handler)
        end
      else if tag =? kTypeDeletion then
        match GetLengthPrefixedSlice input with
        | Some (key, input) =>
            handler ← Handler_Delete handler key;
            iterate_loop n' input handler nfound
        | None => Some (Some (Status_Corruption (str "bad WriteBatch Delete") []), nfound, handler)
        end
      else Some (Some (Status_Corruption (str "unknown WriteBatch tag") []), nfound, handler)
  end.

Definition WriteBatch_Iterate `{HH : Handler H} (b : WriteBatch) (handler : H)
    : option (Status * H) :=
  if (length b <? kHeader)%nat
  then Some (Status_Corruption (str "malformed WriteBatch (too small)") [], handler)
  else
    let input := drop kHeader b in
    '(s, nfound, handler) ← iterate_loop (length input) input handler 0;
    match s with
    | Some s => Some (s, handler)
    | None =>
        count ← WriteBatchInternal_Count b;
        if negb (nfound =? count)
        then Some (Status_Corruption (str "WriteBatch has wrong count") [], handler)
        else Some (Status_OK, handler)
    end.

(** * MemTableInserter *)
Record MemTableInserter : Type := { sequence_ : Z; mem_ : MemTable }.

Section Inserter.
Context {U : Comparator} {NC : NewChar}.

Definition Inserter_add (h : MemTableInserter) (type : Z) (key value : bytes)
    : option MemTableInserter :=
  mem ← MemTable_Add (mem_ h) (sequence_ h) type key value;
  Some {| sequence_ := u64 (sequence_ h + 1); mem_ := mem |}.

#[export] Instance Inserter_Handler : Handler MemTableInserter := {
  Handler_Put h key value := Inserter_add h kTypeValue key value;
  Handler_Delete h key := Inserter_add h kTypeDeletion key []
}.

Definition WriteBatchInternal_InsertInto (b : WriteBatch) (memtable : MemTable)
    : option (Status * MemTable) :=
  seq ← WriteBatchInternal_Sequence b;
  '(s, inserter) ← WriteBatch_Iterate b {| sequence_ := seq; mem_ := memtable |};
  Some (s, mem_ inserter).
End Inserter.

(** * The batch as a list of updates *)
Inductive Update : Type :=
| Put (key value : bytes)
| Delete (key : bytes).

Definition update_bytes (u : Update) : bytes :=
  match u with
  | Put k v => [kTypeValue] ++ delim k ++ delim v
  | Delete k => [kTypeDeletion] ++ delim k
  end.

Definition update_fits (u : Update) : Prop :=
  match u with
  | Put k v => zlen k < 2 ^ 32 /\ Forall is_byte k /\ zlen v < 2 ^ 32 /\ Forall is_byte v
  | Delete k => zlen k < 2 ^ 32 /\ Forall is_byte k
  end.

Definition updates_bytes (us : list Update) : bytes := concat (map update_bytes us).

Definition batch_bytes (seq : Z) (us : list Update) : bytes :=
  EncodeFixed64 seq ++ EncodeFixed32 (zlen us) ++ updates_bytes us.

(** The number of updates that a batch can count. *)
Definition countable (us : list Update) : Prop := zlen us < 2 ^ 31.

Definition handle `{HH : Handler H} (h : H) (u : Update) : option H :=
  match u with
  | Put k v => Handler_Put h k v
  | Delete k => Handler_Delete h k
  end.

Fixpoint handle_all `{HH : Handler H} (h : H) (us : list Update) : option H :=
  match us with
  | [] => Some h
  | u :: us' => h ← handle h u; handle_all h us'
  end.

(** ** The header of a batch *)
Lemma count_batch seq us :
  countable us -> WriteBatchInternal_Count (batch_bytes seq us) = Some (zlen us).
Proof.
  intros Hc. unfold WriteBatchInternal_Count, batch_bytes.
  rewrite drop_app_length' by done. unfold countable in Hc.
  rewrite DecodeFixed32_Encode by (unfold in_uint; lia). cbn. f_equal. clear -Hc. cint.
Qed.

Lemma batch_length seq us : length (batch_bytes seq us) = (kHeader + length (updates_bytes us))%nat.
Proof. unfold batch_bytes. by rewrite !length_app, EncodeFixed32_length, EncodeFixed64_length. Qed.

Lemma batch_drop seq us : drop kHeader (batch_bytes seq us) = updates_bytes us.
Proof. unfold batch_bytes. rewrite app_assoc. by rewrite drop_app_length' by done. Qed.

Lemma set_count_batch seq us n :
  0 <= n < 2 ^ 31 ->
  WriteBatchInternal_SetCount (batch_bytes seq us) n
  = Some (EncodeFixed64 seq ++ EncodeFixed32 n ++ updates_bytes us).
Proof.
  intros Hn. unfold WriteBatchInternal_SetCount.
  rewrite (proj2 (Z.leb_le _ _)), (proj2 (Z.ltb_lt _ _)) by lia. cbn [andb].
  unfold write_at. rewrite batch_length, EncodeFixed32_length.
  rewrite (proj2 (Nat.leb_le _ _)) by (unfold kHeader; lia).
  change (8 + 4)%nat with kHeader. rewrite batch_drop, EncodeFixed32_mod.
  unfold batch_bytes. by rewrite take_app_length' by done.
Qed.

Lemma WriteBatch_new_bytes : WriteBatch_new = batch_bytes 0 [].
Proof. done. Qed.

Lemma SetSequence_batch seq seq' us :
  WriteBatchInternal_SetSequence (batch_bytes seq us) seq' = Some (batch_bytes seq' us).
Proof.
  unfold WriteBatchInternal_SetSequence, write_at. rewrite batch_length, EncodeFixed64_length.
  rewrite (proj2 (Nat.leb_le _ _)) by (unfold kHeader; lia).
  unfold batch_bytes. by rewrite drop_app_length' by done.
Qed.

Lemma Sequence_batch seq us :
  in_uint 64 seq -> WriteBatchInternal_Sequence (batch_bytes seq us) = Some seq.
Proof. intros. by apply DecodeFixed64_Encode. Qed.

Lemma updates_bytes_snoc us u : updates_bytes (us ++ [u]) = updates_bytes us ++ update_bytes u.
Proof. unfold updates_bytes. rewrite map_app, concat_app. simpl. by rewrite app_nil_r. Qed.

Lemma batch_snoc seq us u :
  EncodeFixed64 seq ++ EncodeFixed32 (zlen us + 1) ++ updates_bytes us ++ update_bytes u
  = batch_bytes seq (us ++ [u]).
Proof. unfold batch_bytes. by rewrite updates_bytes_snoc, zlen_app. Qed.

Lemma Put_batch seq us k v :
  zlen us + 1 < 2 ^ 31 -> zlen k < 2 ^ 32 -> zlen v < 2 ^ 32 ->
  WriteBatch_Put (batch_bytes seq us) k v = Some (batch_bytes seq (us ++ [Put k v])).
Proof.
  intros Hc Hk Hv. unfold WriteBatch_Put. rewrite count_batch by (unfold countable; lia).
  cbn [mbind option_bind]. rewrite set_count_batch by lia. cbn [mbind option_bind].
  rewrite !PutLengthPrefixedSlice_delim by done. rewrite <- batch_snoc. by rewrite <- !app_assoc.
Qed.

Lemma Delete_batch seq us k :
  zlen us + 1 < 2 ^ 31 -> zlen k < 2 ^ 32 ->
  WriteBatch_Delete (batch_bytes seq us) k = Some (batch_bytes seq (us ++ [Delete k])).
Proof.
  intros Hc Hk. unfold WriteBatch_Delete. rewrite count_batch by (unfold countable; lia).
  cbn [mbind option_bind]. rewrite set_count_batch by lia. cbn [mbind option_bind].
  rewrite !PutLengthPrefixedSlice_delim by done. rewrite <- batch_snoc. by rewrite <- !app_assoc.
Qed.

Lemma Append_batch seq us seq' us' :
  zlen us + zlen us' < 2 ^ 31 ->
  WriteBatch_Append (batch_bytes seq us) (batch_bytes seq' us') = Some (batch_bytes seq (us ++ us')).
Proof.
  intros Hc. unfold WriteBatch_Append, WriteBatchInternal_Append.
  rewrite !count_batch by (unfold countable; lia). cbn [mbind option_bind].
  rewrite set_count_batch by lia. cbn [mbind option_bind].
  rewrite batch_drop, batch_length, (proj2 (Nat.ltb_ge _ _)) by lia.
  unfold batch_bytes, updates_bytes. rewrite map_app, concat_app, zlen_app. by rewrite <- !app_assoc.
Qed.

(** ** Iteration over a batch *)
Section Iterate.
Context `{HH : Handler H}.

Lemma update_bytes_bytes u : update_fits u -> Forall is_byte (update_bytes u).
Proof.
  destruct u as [k v|k]; simpl.
  - intros (Lk & Bk & Lv & Bv). constructor; [done|]. apply Forall_app. split; by apply short_delim_bytes.
  - intros (Lk & Bk). constructor; [done|]. by apply short_delim_bytes.
Qed.

Lemma updates_bytes_bytes us : Forall update_fits us -> Forall is_byte (updates_bytes us).
Proof.
  induction 1 as [|u us Hu Hus IH]; [constructor|]. unfold updates_bytes. cbn [map concat].
  apply Forall_app. split; [by apply update_bytes_bytes|done].
Qed.

Lemma iterate_updates us n h nf :
  Forall update_fits us -> (length (updates_bytes us) <= n)%nat ->
  iterate_loop n (updates_bytes us) h nf
  = (fun h => (None, nf + zlen us, h)) <$> handle_all h us.
Proof.
  intros Hus. revert n h nf. induction Hus as [|u us Hu Hus IH]; intros n h nf Hn.
  - cbn. destruct n; simpl; by rewrite Z.add_0_r.
  - unfold updates_bytes in *. cbn [map concat] in *. rewrite length_app in Hn.
    pose proof (updates_bytes_bytes us Hus) as Hb. unfold updates_bytes in Hb.
    assert (forall h', iterate_loop (n - 1) (concat (map update_bytes us)) h' (nf + 1)
              = (fun h => (None, nf + zlen (u :: us), h)) <$> handle_all h' us) as Hrest.
    { intros h'. rewrite IH.
      - f_equal. rewrite zlen_cons. by replace (nf + 1 + zlen us) with (nf + (1 + zlen us)) by lia.
      - assert (length (update_bytes u) <> 0)%nat by (destruct u; simpl; lia). lia. }
    destruct n as [|n]; [destruct u; simpl in Hn; lia|]. rewrite Nat.sub_succ, Nat.sub_0_r in Hrest.
    destruct u as [k v|k]; cbn [update_bytes app iterate_loop handle_all handle].
    + destruct Hu as (Lk & Bk & Lv & Bv). rewrite <- app_assoc.
      change (kTypeValue =? kTypeValue) with true. cbv iota zeta.
      rewrite GetLengthPrefixedSlice_delim; [|done..|apply Forall_app; split; [by apply short_delim_bytes|done]].
      rewrite GetLengthPrefixedSlice_delim by done.
      destruct (Handler_Put h k v) as [h'|]; [|done]. cbn [mbind option_bind]. apply Hrest.
    + destruct Hu as (Lk & Bk). change (kTypeDeletion =? kTypeValue) with false.
      change (kTypeDeletion =? kTypeDeletion) with true. cbv iota zeta.
      rewrite GetLengthPrefixedSlice_delim by done.
      destruct (Handler_Delete h k) as [h'|]; [|done]. cbn [mbind option_bind]. apply Hrest.
Qed.

Lemma Iterate_batch seq us h :
  Forall update_fits us -> countable us ->
  WriteBatch_Iterate (batch_bytes seq us) h = (fun h => (Status_OK, h)) <$> handle_all h us.
Proof.
  intros Hus Hc. unfold WriteBatch_Iterate. rewrite batch_length, (proj2 (Nat.ltb_ge _ _)) by lia.
  cbv zeta. rewrite batch_drop. rewrite iterate_updates by done. destruct (handle_all h us) as [h'|]; [|done].
  cbn [fmap option_fmap option_map mbind option_bind]. rewrite count_batch by done.
  cbn [mbind option_bind]. by rewrite Z.add_0_l, Z.eqb_refl.
Qed.

(** Any bytes: with a handler that always succeeds, the iteration returns; it
    reports success only if it called the handler as often as the header
    counts. *)
Lemma iterate_loop_total n input h nf :
  (forall h k v, is_Some (Handler_Put h k v)) -> (forall h k, is_Some (Handler_Delete h k)) ->
  (length input <= n)%nat ->
  exists (s : option Status) us h', iterate_loop n input h nf = Some (s, nf + zlen us + (if s then 1 else 0), h')
    /\ handle_all h us = Some h' /\ match s with Some s => Status_ok s = false | None => True end.
Proof.
  intros HP HD. revert input h nf. induction n as [|n IH]; intros input h nf Hn.
  - destruct input; [|simpl in Hn; lia]. by exists None, [], h; simpl; rewrite !Z.add_0_r.
  - destruct input as [|tag input]; [by exists None, [], h; simpl; rewrite !Z.add_0_r|].
    simpl in Hn. cbn [iterate_loop]. cbv zeta.
    assert (forall msg, exists (s : option Status) us h', Some (Some (Status_Corruption msg []), nf + 1, h)
              = Some (s, nf + zlen us + (if s then 1 else 0), h') /\ handle_all h us = Some h'
                /\ match s with Some s => Status_ok s = false | None => True end) as Hbad.
    { intros msg. exists (Some (Status_Corruption msg [])), [], h. simpl. by rewrite Z.add_0_r. }
    assert (forall u h1 rest, handle h u = Some h1 -> (length rest <= n)%nat ->
      exists (s : option Status) us h', iterate_loop n rest h1 (nf + 1)
        = Some (s, nf + zlen us + (if s then 1 else 0), h') /\ handle_all h us = Some h'
          /\ match s with Some s => Status_ok s = false | None => True end) as Hgo.
    { intros u h1 rest Hh Hrest. destruct (IH rest h1 (nf + 1) Hrest) as (s & us & h' & E & Hall & Hs).
      exists s, (u :: us), h'. rewrite E, zlen_cons. split_and!; [do 3 f_equal; lia| |done].
      cbn [handle_all]. by rewrite Hh. }
    destruct (tag =? kTypeValue); [|destruct (tag =? kTypeDeletion); [|apply Hbad]].
    + destruct (GetLengthPrefixedSlice input) as [[k in1]|] eqn:E1; [|apply Hbad].
      destruct (GetLengthPrefixedSlice in1) as [[v in2]|] eqn:E2; [|apply Hbad].
      destruct (HP h k v) as [h1 Eh]. rewrite Eh. cbn [mbind option_bind].
      apply (Hgo (Put k v) h1 in2 Eh).
      apply GetLengthPrefixedSlice_suffix in E1 as (l1 & -> & _), E2 as (l2 & -> & _).
      rewrite !length_app in Hn. lia.
    + destruct (GetLengthPrefixedSlice input) as [[k in1]|] eqn:E1; [|apply Hbad].
      destruct (HD h k) as [h1 Eh]. rewrite Eh. cbn [mbind option_bind].
      apply (Hgo (Delete k) h1 in1 Eh).
      apply GetLengthPrefixedSlice_suffix in E1 as (l1 & -> & _). rewrite !length_app in Hn. lia.
Qed.

Lemma Iterate_total b h :
  (forall h k v, is_Some (Handler_Put h k v)) -> (forall h k, is_Some (Handler_Delete h k)) ->
  exists s us h', WriteBatch_Iterate b h = Some (s, h') /\ handle_all h us = Some h'
    /\ (Status_ok s = true -> WriteBatchInternal_Count b = Some (zlen us)).
Proof.
  intros HP HD. unfold WriteBatch_Iterate. destruct (Nat.ltb_spec (length b) kHeader) as [|Hl].
  { by exists (Status_Corruption (str "malformed WriteBatch (too small)") []), [], h. }
  cbv zeta. destruct (iterate_loop_total (length (drop kHeader b)) (drop kHeader b) h 0 HP HD)
    as (s & us & h' & -> & Hall & Hs); [done|]. cbn [mbind option_bind].
  destruct s as [s|].
  - exists s, us, h'. split_and!; [done..|]. congruence.
  - unfold WriteBatchInternal_Count. unfold kHeader in Hl.
    rewrite DecodeFixed32_take by (rewrite length_drop; lia). cbn [fmap option_fmap option_map mbind option_bind].
    rewrite Z.add_0_l, Z.add_0_r.
    destruct (Z.eqb_spec (zlen us) (s32 (le_val (take 4 (drop 8 b))))) as [<-|]; cbn [negb];
      eexists _, us, h'; by split_and!.
Qed.
End Iterate.
