(* ===== verification/LdbWriteThms.v ===== *)
(** leveldb: the properties of the write batch and the table in memory, down
    to a lookup after a batch. *)
From stdpp Require Import base numbers option gmap strings list.
From S2P Require Import Prelude Varint LdbSlice LdbCoding LdbComparator LdbDbformat LdbArena LdbSkipList LdbMemTable LdbWriteBatch.
Open Scope Z_scope.

Section Thms.
Context {U : Comparator} {uvalid : bytes -> Prop} {uorder : bytes -> bytes -> Z}
  {UL : ComparatorLaw U uvalid uorder} {NC : NewChar} {NL : NewCharLaw NC}.

#[local] Notation mem_rep := (mem_rep (uvalid := uvalid) (uorder := uorder)).
#[local] Notation e_ok := (e_ok (uvalid := uvalid)).
#[local] Notation fresh := (fresh (uorder := uorder)).
#[local] Notation get_spec := (get_spec (uorder := uorder)).
#[local] Notation visible := (visible (uorder := uorder)).

Definition update_key (u : Update) : bytes := match u with Put k _ => k | Delete k => k end.

(** The entry an update makes at a sequence number. *)
Definition update_entry (seq : Z) (u : Update) : Entry :=
  match u with
  | Put k v => {| e_key := k; e_seq := seq; e_type := kTypeValue; e_value := v |}
  | Delete k => {| e_key := k; e_seq := seq; e_type := kTypeDeletion; e_value := [] |}
  end.

(** The entries of a batch, the last one first. *)
Fixpoint batch_entries (seq : Z) (us : list Update) : list Entry :=
  match us with
  | [] => []
  | u :: us' => batch_entries (seq + 1) us' ++ [update_entry seq u]
  end.

Definition update_ok (u : Update) : Prop :=
  update_fits u /\ zlen (update_key u) + 8 < 2 ^ 32 /\ uvalid (update_key u).

Lemma update_entry_ok seq u : update_ok u -> valid_seq seq -> e_ok (update_entry seq u).
Proof.
  intros (Hf & Hl & Hv) Hs. destruct u as [k v|k]; simpl in *; split; try done; split_and!; try done;
    try (by apply Hf); try (by right); by left.
Qed.

Lemma update_entry_seq seq u : e_seq (update_entry seq u) = seq.
Proof. by destruct u. Qed.

Lemma update_entry_key seq u : e_key (update_entry seq u) = update_key u.
Proof. by destruct u. Qed.

Lemma elem_of_batch_entries seq us e :
  e ∈ batch_entries seq us <-> exists i u, us !! i = Some u /\ e = update_entry (seq + Z.of_nat i) u.
Proof.
  revert seq. induction us as [|u us IH]; intros seq; simpl.
  - split; [by intros ?%not_elem_of_nil|]. by intros (i & u & ? & _).
  - rewrite elem_of_app, list_elem_of_singleton, IH. split.
    + intros [(i & u' & Hi & ->)| ->].
      * exists (S i), u'. split; [done|]. f_equal. lia.
      * exists 0%nat, u. split; [done|]. f_equal. lia.
    + intros ([|i] & u' & Hi & ->); simpl in Hi.
      * right. injection Hi as ->. f_equal. lia.
      * left. exists i, u'. split; [done|]. f_equal. lia.
Qed.

Lemma handle_all_ok us h es :
  mem_rep (mem_ h) es -> Forall update_ok us ->
  0 <= sequence_ h -> sequence_ h + zlen us <= kMaxSequenceNumber + 1 ->
  (forall e, e ∈ es -> e_seq e < sequence_ h) ->
  exists h', handle_all h us = Some h' /\ mem_rep (mem_ h') (batch_entries (sequence_ h) us ++ es)
    /\ refs_ (mem_ h') = refs_ (mem_ h).
Proof.
  intros Hr Hus. revert h es Hr. induction Hus as [|u us Hu Hus IH]; intros h es Hr H0 Hmax Hlt.
  - by exists h.
  - cbn [handle_all]. rewrite zlen_cons in Hmax.
    assert (valid_seq (sequence_ h)) as Hs by (unfold valid_seq; lia).
    destruct (MemTable_Add_ok (mem_ h) es (update_entry (sequence_ h) u) Hr) as (m & Em & Hr' & Href).
    { by apply update_entry_ok. }
    { intros e He _. rewrite update_entry_seq. specialize (Hlt e He). lia. }
    assert (handle h u = Some {| sequence_ := sequence_ h + 1; mem_ := m |}) as ->.
    { assert (u64 (sequence_ h + 1) = sequence_ h + 1) as Eu.
      { apply u64_small. unfold in_uint. change kMaxSequenceNumber with (2 ^ 56 - 1) in Hmax. lia. }
      destruct u as [k v|k]; cbn [handle Handler_Put Handler_Delete Inserter_Handler]; unfold Inserter_add;
        cbn [update_entry e_seq e_type e_key e_value] in Em; rewrite Em; cbn [mbind option_bind]; by rewrite Eu. }
    cbn [mbind option_bind].
    destruct (IH {| sequence_ := sequence_ h + 1; mem_ := m |} (update_entry (sequence_ h) u :: es) Hr')
      as (h' & E' & Hr2 & Href2); cbn [sequence_ mem_] in *.
    + lia.
    + lia.
    + intros e [->|He]%elem_of_cons; [rewrite update_entry_seq; lia|]. specialize (Hlt e He). lia.
    + exists h'. split; [done|]. cbn [batch_entries]. rewrite <- app_assoc. split; [done|congruence].
Qed.

Lemma InsertInto_ok seq us m es :
  mem_rep m es -> Forall update_ok us -> countable us ->
  0 <= seq -> seq + zlen us <= kMaxSequenceNumber + 1 -> (forall e, e ∈ es -> e_seq e < seq) ->
  exists m', WriteBatchInternal_InsertInto (batch_bytes seq us) m = Some (Status_OK, m')
    /\ mem_rep m' (batch_entries seq us ++ es) /\ refs_ m' = refs_ m.
Proof.
  intros Hr Hus Hc H0 Hmax Hlt. unfold WriteBatchInternal_InsertInto.
  rewrite Sequence_batch.
  2: { unfold in_uint. change kMaxSequenceNumber with (2 ^ 56 - 1) in Hmax. lia. }
  cbn [mbind option_bind]. rewrite Iterate_batch; [|by eapply Forall_impl; [exact Hus|intros u []]|done].
  destruct (handle_all_ok us {| sequence_ := seq; mem_ := m |} es Hr Hus H0 Hmax Hlt) as (h' & -> & Hr' & Href).
  cbn. eauto.
Qed.

(** ** A lookup after a batch *)

(** The last update of a key. *)
Definition last_update (us : list Update) (u : bytes) : option Update :=
  last (List.filter (fun x => uorder (update_key x) u =? 0) us).

Definition update_answer (x : Update) : get_result :=
  match x with
  | Put _ v => {| found := true; get_value := Some v; get_status := None |}
  | Delete _ => {| found := true; get_value := None; get_status := Some (Status_NotFound [] []) |}
  end.

Lemma update_entry_answer seq x : answer (update_entry seq x) = update_answer x.
Proof. by destruct x. Qed.

(** The update of the greatest index. *)
Lemma last_filter_Some {A} (f : A -> bool) l x :
  last (List.filter f l) = Some x ->
  exists i, l !! i = Some x /\ f x = true /\ forall j y, l !! j = Some y -> f y = true -> (j <= i)%nat.
Proof.
  induction l as [|a l IH] using rev_ind; [done|]. rewrite List.filter_app. simpl.
  destruct (f a) eqn:Ea.
  - rewrite last_snoc. intros [= ->]. exists (length l). split_and!; [by apply list_lookup_middle|done|].
    intros j y Hj _. apply lookup_lt_Some in Hj. rewrite length_app in Hj. simpl in Hj. lia.
  - rewrite app_nil_r. intros H. destruct (IH H) as (i & Hi & Hx & Hmax). exists i. split_and!; [|done|].
    + by apply lookup_app_l_Some.
    + intros j y Hj Hy. apply lookup_app_Some in Hj as [Hj|[Hl Hj]]; [by eapply Hmax|].
      apply list_lookup_singleton_Some in Hj as [_ <-]. congruence.
Qed.

Lemma last_filter_None {A} (f : A -> bool) l :
  last (List.filter f l) = None -> forall x, x ∈ l -> f x = false.
Proof.
  intros H%last_None x Hx. apply not_true_iff_false. intros Hf.
  assert (In x (List.filter f l)) as Hin by (apply filter_In; split; [by apply list_elem_of_In|done]).
  by rewrite H in Hin.
Qed.

Lemma get_spec_batch seq us es u s r :
  (forall e, e ∈ es -> e_seq e < seq) -> s = seq + zlen us - 1 ->
  get_spec (batch_entries seq us ++ es) u s r ->
  match last_update us u with Some x => r = update_answer x | None => get_spec es u s r end.
Proof.
  intros Hlt -> Hg. unfold last_update. destruct (last _) as [x|] eqn:E.
  - destruct (last_filter_Some _ _ _ E) as (i & Hi & Hx & Hmax). apply Z.eqb_eq in Hx.
    pose proof (lookup_lt_Some _ _ _ Hi) as Hil.
    assert (update_entry (seq + Z.of_nat i) x ∈ batch_entries seq us ++ es) as Hin.
    { apply elem_of_app. left. apply elem_of_batch_entries. eauto. }
    assert (visible u (seq + zlen us - 1) (update_entry (seq + Z.of_nat i) x)) as Hv.
    { split; [by rewrite update_entry_key|rewrite update_entry_seq; lia]. }
    destruct Hg as [(e & He & [Hv1 Hv2] & Hlast & ->)|[Hnone _]]; [|by destruct (Hnone _ Hin)].
    specialize (Hlast _ Hin Hv). rewrite update_entry_seq in Hlast.
    apply elem_of_app in He as [He|He]; [|specialize (Hlt e He); lia].
    apply elem_of_batch_entries in He as (j & y & Hj & ->).
    rewrite update_entry_key in Hv1. rewrite update_entry_seq in *.
    assert (j <= i)%nat by (eapply Hmax; [exact Hj|by apply Z.eqb_eq]).
    replace j with i in * by lia. rewrite update_entry_answer. congruence.
  - pose proof (last_filter_None _ _ E) as Hn.
    assert (forall e, e ∈ batch_entries seq us -> ~ visible u (seq + zlen us - 1) e) as Hnv.
    { intros e (j & y & Hj & ->)%elem_of_batch_entries [Hv _]. rewrite update_entry_key in Hv.
      apply Z.eqb_eq in Hv. rewrite Hn in Hv; [done|]. by eapply list_elem_of_lookup_2. }
    destruct Hg as [(e & He & Hv & Hlast & ->)|[Hnone ->]].
    + apply elem_of_app in He as [He|He]; [by destruct (Hnv e He)|]. left. exists e. split_and!; try done.
      intros e' He' Hv'. apply Hlast; [|done]. apply elem_of_app. by right.
    + right. split; [|done]. intros e He. apply Hnone. apply elem_of_app. by right.
Qed.

(** C24: A lookup in the table in memory, at a sequence number, answers with
    the latest of the entries of the key (up to the user's comparator) that
    are not newer: its value, or the status "not found" for a deletion; without
    such an entry it finds nothing.  The entries are those added, in any order,
    no two of a key with the same sequence number. *)
Theorem memtable_get m es u s :
  mem_rep m es -> uvalid u -> Forall is_byte u -> zlen u + 8 < 2 ^ 32 -> valid_seq s ->
  exists key r, LookupKey_make u s = Some key /\ MemTable_Get m key = Some r /\ get_spec es u s r.
Proof. apply MemTable_Get_ok. Qed.

(** C15: A batch is applied in order: after it has been inserted into the table
    with a sequence number above all those in it, a lookup at the last number
    of the batch gives the last update of the key in the batch, or else what
    it gave before. *)
Theorem batch_then_get seq us m es u :
  mem_rep m es -> Forall update_ok us -> zlen us < 2 ^ 31 ->
  0 < seq -> seq + zlen us <= kMaxSequenceNumber -> (forall e, e ∈ es -> e_seq e < seq) ->
  uvalid u -> Forall is_byte u -> zlen u + 8 < 2 ^ 32 ->
  exists m' key r,
    WriteBatchInternal_InsertInto (batch_bytes seq us) m = Some (Status_OK, m')
    /\ LookupKey_make u (seq + zlen us - 1) = Some key
    /\ MemTable_Get m' key = Some r
    /\ match last_update us u with
       | Some x => r = update_answer x
       | None => get_spec es u (seq + zlen us - 1) r
       end.
Proof.
  intros Hr Hus Hc H0 Hmax Hlt Hu Hub Hul.
  destruct (InsertInto_ok seq us m es Hr Hus Hc) as (m' & E & Hr' & _); [lia|lia|done|].
  destruct (MemTable_Get_ok m' _ u (seq + zlen us - 1) Hr' Hu Hub Hul) as (key & r & Ek & Eg & Hg).
  { unfold valid_seq. lia. }
  exists m', key, r. split_and!; [done..|]. by eapply get_spec_batch.
Qed.

(** A batch built by [Put], [Delete] and [Append] holds the updates in
    order, and [Iterate] hands exactly these to its handler and reports
    success. *)
Theorem batch_iterate `{HH : Handler H} seq us us' k v (h : H) :
  Forall update_fits (us ++ us') -> update_fits (Put k v) -> zlen us + zlen us' + 2 < 2 ^ 31 ->
  exists b1 b2 b3,
    WriteBatch_Put (batch_bytes seq us) k v = Some b1
    /\ WriteBatch_Delete b1 k = Some b2
    /\ WriteBatch_Append b2 (batch_bytes 0 us') = Some b3
    /\ WriteBatch_Iterate b3 h
       = (fun h => (Status_OK, h)) <$> handle_all h ((us ++ [Put k v; Delete k]) ++ us').
Proof.
  intros Hus [Hk [Hbk [Hv Hbv]]] Hc.
  eexists _, _, _. split; [apply Put_batch; (done || lia)|].
  split; [apply Delete_batch; rewrite ?zlen_app; simpl length; (done || lia)|].
  split; [apply Append_batch; rewrite !zlen_app; simpl length; lia|].
  rewrite <- (app_assoc us). cbn [app]. apply Iterate_batch.
  - apply Forall_app in Hus as [H1 H2]. repeat (apply Forall_app; split); try done.
    repeat constructor; done.
  - unfold countable. rewrite !zlen_app. simpl length. lia.
Qed.
End Thms.

(** ** Witnesses, with bytewise user keys *)
Definition sample_entries : list Entry :=
  [{| e_key := [98]; e_seq := 3; e_type := kTypeValue; e_value := [2] |};
   {| e_key := [97]; e_seq := 2; e_type := kTypeDeletion; e_value := [] |};
   {| e_key := [97]; e_seq := 1; e_type := kTypeValue; e_value := [1] |}].

Definition sample_rep (m : MemTable) : Prop :=
  mem_rep (uvalid := Forall is_byte) (uorder := Slice_compare) m sample_entries.

Lemma sample_table : exists m, sample_rep m.
Proof.
  assert (forall k s t v, Forall is_byte [k] -> Forall is_byte v -> zlen v < 2 ^ 32 -> valid_seq s ->
    valid_type t -> e_ok (uvalid := Forall is_byte) {| e_key := [k]; e_seq := s; e_type := t; e_value := v |})
    as He by done.
  destruct (MemTable_new_ok (uvalid := Forall is_byte) (uorder := Slice_compare) (NC := bump_new))
    as (m0 & _ & R0 & _).
  destruct (MemTable_Add_ok _ _ {| e_key := [97]; e_seq := 1; e_type := kTypeValue; e_value := [1] |} R0)
    as (m1 & _ & R1 & _).
  { apply He; try done; repeat constructor; done. }
  { by intros e ?%not_elem_of_nil. }
  destruct (MemTable_Add_ok _ _ {| e_key := [97]; e_seq := 2; e_type := kTypeDeletion; e_value := [] |} R1)
    as (m2 & _ & R2 & _).
  { apply He; try done; repeat constructor; done. }
  { intros e He'. by apply list_elem_of_singleton in He' as ->. }
  destruct (MemTable_Add_ok _ _ {| e_key := [98]; e_seq := 3; e_type := kTypeValue; e_value := [2] |} R2)
    as (m3 & _ & R3 & _).
  { apply He; try done; repeat constructor; done. }
  { intros e He'. apply elem_of_cons in He' as [->|He']; [done|]. by apply list_elem_of_singleton in He' as ->. }
  by exists m3.
Qed.

Lemma memtable_get_witness :
  exists m key r, sample_rep m /\ LookupKey_make [97] 1 = Some key /\ MemTable_Get m key = Some r
    /\ get_spec (uorder := Slice_compare) sample_entries [97] 1 r.
Proof.
  destruct sample_table as [m Hm]. exists m.
  destruct (memtable_get m sample_entries [97] 1 Hm) as (key & r & H1 & H2 & H3); try done;
    try by repeat constructor.
  by exists key, r.
Defined.

Lemma batch_then_get_witness :
  exists m m' key r, sample_rep m
    /\ WriteBatchInternal_InsertInto (batch_bytes 4 [Put [97] [7]; Delete [98]; Put [97] [8]]) m
       = Some (Status_OK, m')
    /\ LookupKey_make [97] 6 = Some key
    /\ MemTable_Get m' key = Some r /\ r = update_answer (Put [97] [8]).
Proof.
  destruct sample_table as [m Hm]. exists m.
  destruct (batch_then_get 4 [Put [97] [7]; Delete [98]; Put [97] [8]] m sample_entries [97] Hm)
    as (m' & key & r & H1 & H2 & H3 & H4); try done; try by repeat constructor.
  - intros e He. apply list_elem_of_In in He. simpl in He. destruct He as [<-|[<-|[<-|[]]]]; done.
  - by exists m', key, r.
Defined.

(** A handler that collects the updates. *)
#[local] Instance collect : Handler (list Update) := {
  Handler_Put h k v := Some (h ++ [Put k v]);
  Handler_Delete h k := Some (h ++ [Delete k])
}.

Lemma batch_iterate_witness :
  exists b1 b2 b3,
    WriteBatch_Put (batch_bytes 5 []) [97] [1] = Some b1
    /\ WriteBatch_Delete b1 [97] = Some b2
    /\ WriteBatch_Append b2 (batch_bytes 0 [Put [98] [2]]) = Some b3
    /\ WriteBatch_Iterate b3 [] = Some (Status_OK, [Put [97] [1]; Delete [97]; Put [98] [2]]).
Proof.
  destruct (batch_iterate 5 [] [Put [98] [2]] [97] [1] []) as (b1 & b2 & b3 & H);
    try by repeat constructor.
  by exists b1, b2, b3.
Defined.
