(* ===== verification/LdbVersionEdit.v ===== *)
(** leveldb: changes of the set of table files and their encoding as records
    of the MANIFEST log, [version_edit.h] and [version_edit.cc].

    [VersionEdit_DecodeFrom] runs its loop with fuel: each round takes at least
    one byte from the input, so its length and one more are enough
    ([VersionEdit_DecodeFrom_total]). *)
From Stdlib Require Import Sorted.
From stdpp Require Import base numbers option strings sets list.
From S2P Require Import Prelude Varint LdbSlice LdbCoding LdbFilename LdbDbformat.
Open Scope Z_scope.
Open Scope c_scope.

(** * Data *)
Definition kNumLevels : Z := 7.

Definition kComparator : Z := 1.
Definition kLogNumber : Z := 2.
Definition kNextFileNumber : Z := 3.
Definition kLastSequence : Z := 4.
Definition kCompactPointer : Z := 5.
Definition kDeletedFile : Z := 6.
Definition kNewFile : Z := 7.
Definition kPrevLogNumber : Z := 9.

Record FileMetaData : Type := {
  refs : Z; allowed_seeks : Z; number : Z; file_size : Z; smallest : bytes; largest : bytes
}.

(** A [FileMetaData] with the fields of its constructor that are not set
    after it. *)
Definition FileMetaData_make (number file_size : Z) (smallest largest : bytes) : FileMetaData := {|
  refs := 0; allowed_seeks := 1 ≪ 30; number := number; file_size := file_size;
  smallest := smallest; largest := largest |}.

(** The set of deleted files is the ascending list of its elements. *)
Record VersionEdit : Type := {
  comparator_ : bytes;
  log_number_ : Z;
  prev_log_number_ : Z;
  next_file_number_ : Z;
  last_sequence_ : Z;
  has_comparator_ : bool;
  has_log_number_ : bool;
  has_prev_log_number_ : bool;
  has_next_file_number_ : bool;
  has_last_sequence_ : bool;
  compact_pointers_ : list (Z * bytes);
  deleted_files_ : list (Z * Z);
  new_files_ : list (Z * FileMetaData)
}.

(** [compact_pointers_] is left as it is. *)
Definition VersionEdit_Clear (e : VersionEdit) : VersionEdit := {|
  comparator_ := []; log_number_ := 0; prev_log_number_ := 0; next_file_number_ := 0;
  last_sequence_ := 0; has_comparator_ := false; has_log_number_ := false;
  has_prev_log_number_ := false; has_next_file_number_ := false; has_last_sequence_ := false;
  compact_pointers_ := compact_pointers_ e; deleted_files_ := []; new_files_ := [] |}.

(** The constructor: empty members, then [Clear()]. *)
Definition VersionEdit_new : VersionEdit := VersionEdit_Clear {|
  comparator_ := []; log_number_ := 0; prev_log_number_ := 0; next_file_number_ := 0;
  last_sequence_ := 0; has_comparator_ := false; has_log_number_ := false;
  has_prev_log_number_ := false; has_next_file_number_ := false; has_last_sequence_ := false;
  compact_pointers_ := []; deleted_files_ := []; new_files_ := [] |}.

Definition SetComparatorName (e : VersionEdit) (name : bytes) : VersionEdit := {|
  comparator_ := name; log_number_ := log_number_ e; prev_log_number_ := prev_log_number_ e;
  next_file_number_ := next_file_number_ e; last_sequence_ := last_sequence_ e;
  has_comparator_ := true; has_log_number_ := has_log_number_ e;
  has_prev_log_number_ := has_prev_log_number_ e;
  has_next_file_number_ := has_next_file_number_ e; has_last_sequence_ := has_last_sequence_ e;
  compact_pointers_ := compact_pointers_ e; deleted_files_ := deleted_files_ e;
  new_files_ := new_files_ e |}.

Definition SetLogNumber (e : VersionEdit) (num : Z) : VersionEdit := {|
  comparator_ := comparator_ e; log_number_ := num; prev_log_number_ := prev_log_number_ e;
  next_file_number_ := next_file_number_ e; last_sequence_ := last_sequence_ e;
  has_comparator_ := has_comparator_ e; has_log_number_ := true;
  has_prev_log_number_ := has_prev_log_number_ e;
  has_next_file_number_ := has_next_file_number_ e; has_last_sequence_ := has_last_sequence_ e;
  compact_pointers_ := compact_pointers_ e; deleted_files_ := deleted_files_ e;
  new_files_ := new_files_ e |}.

Definition SetPrevLogNumber (e : VersionEdit) (num : Z) : VersionEdit := {|
  comparator_ := comparator_ e; log_number_ := log_number_ e; prev_log_number_ := num;
  next_file_number_ := next_file_number_ e; last_sequence_ := last_sequence_ e;
  has_comparator_ := has_comparator_ e; has_log_number_ := has_log_number_ e;
  has_prev_log_number_ := true; has_next_file_number_ := has_next_file_number_ e;
  has_last_sequence_ := has_last_sequence_ e; compact_pointers_ := compact_pointers_ e;
  deleted_files_ := deleted_files_ e; new_files_ := new_files_ e |}.

Definition SetNextFile (e : VersionEdit) (num : Z) : VersionEdit := {|
  comparator_ := comparator_ e; log_number_ := log_number_ e;
  prev_log_number_ := prev_log_number_ e; next_file_number_ := num;
  last_sequence_ := last_sequence_ e; has_comparator_ := has_comparator_ e;
  has_log_number_ := has_log_number_ e; has_prev_log_number_ := has_prev_log_number_ e;
  has_next_file_number_ := true; has_last_sequence_ := has_last_sequence_ e;
  compact_pointers_ := compact_pointers_ e; deleted_files_ := deleted_files_ e;
  new_files_ := new_files_ e |}.

Definition SetLastSequence (e : VersionEdit) (seq : Z) : VersionEdit := {|
  comparator_ := comparator_ e; log_number_ := log_number_ e;
  prev_log_number_ := prev_log_number_ e; next_file_number_ := next_file_number_ e;
  last_sequence_ := seq; has_comparator_ := has_comparator_ e;
  has_log_number_ := has_log_number_ e; has_prev_log_number_ := has_prev_log_number_ e;
  has_next_file_number_ := has_next_file_number_ e; has_last_sequence_ := true;
  compact_pointers_ := compact_pointers_ e; deleted_files_ := deleted_files_ e;
  new_files_ := new_files_ e |}.

Definition SetCompactPointer (e : VersionEdit) (level : Z) (key : bytes) : VersionEdit := {|
  comparator_ := comparator_ e; log_number_ := log_number_ e;
  prev_log_number_ := prev_log_number_ e; next_file_number_ := next_file_number_ e;
  last_sequence_ := last_sequence_ e; has_comparator_ := has_comparator_ e;
  has_log_number_ := has_log_number_ e; has_prev_log_number_ := has_prev_log_number_ e;
  has_next_file_number_ := has_next_file_number_ e; has_last_sequence_ := has_last_sequence_ e;
  compact_pointers_ := compact_pointers_ e ++ [(level, key)];
  deleted_files_ := deleted_files_ e; new_files_ := new_files_ e |}.

Definition push_file (e : VersionEdit) (level : Z) (f : FileMetaData) : VersionEdit := {|
  comparator_ := comparator_ e; log_number_ := log_number_ e;
  prev_log_number_ := prev_log_number_ e; next_file_number_ := next_file_number_ e;
  last_sequence_ := last_sequence_ e; has_comparator_ := has_comparator_ e;
  has_log_number_ := has_log_number_ e; has_prev_log_number_ := has_prev_log_number_ e;
  has_next_file_number_ := has_next_file_number_ e; has_last_sequence_ := has_last_sequence_ e;
  compact_pointers_ := compact_pointers_ e; deleted_files_ := deleted_files_ e;
  new_files_ := new_files_ e ++ [(level, f)] |}.

Definition AddFile (e : VersionEdit) (level file file_size : Z) (smallest largest : bytes)
  : VersionEdit :=
  push_file e level (FileMetaData_make file file_size smallest largest).

(** [std::less] of pairs, and [insert] of the set. *)
Definition pair_lt (x y : Z * Z) : bool :=
  (x.1 <? y.1) || (negb (y.1 <? x.1) && (x.2 <? y.2)).

Fixpoint set_insert (x : Z * Z) (l : list (Z * Z)) : list (Z * Z) :=
  match l with
  | [] => [x]
  | y :: l' => if pair_lt x y then x :: l else if pair_lt y x then y :: set_insert x l' else l
  end.

Definition DeleteFile (e : VersionEdit) (level file : Z) : VersionEdit := {|
  comparator_ := comparator_ e; log_number_ := log_number_ e;
  prev_log_number_ := prev_log_number_ e; next_file_number_ := next_file_number_ e;
  last_sequence_ := last_sequence_ e; has_comparator_ := has_comparator_ e;
  has_log_number_ := has_log_number_ e; has_prev_log_number_ := has_prev_log_number_ e;
  has_next_file_number_ := has_next_file_number_ e; has_last_sequence_ := has_last_sequence_ e;
  compact_pointers_ := compact_pointers_ e;
  deleted_files_ := set_insert (level, file) (deleted_files_ e); new_files_ := new_files_ e |}.

(** * Encoding *)

(** [InternalKey::Encode()]: an empty key is refused by its assertion. *)
Definition InternalKey_Encode (rep : bytes) : option bytes :=
  if bool_decide (rep = []) then None else Some rep.

Definition put_compact_pointer (dst : bytes) (p : Z * bytes) : option bytes :=
  let dst := PutVarint32 dst kCompactPointer in
  let dst := PutVarint32 dst (u32 p.1) in
  key ← InternalKey_Encode p.2;
  Some (PutLengthPrefixedSlice dst key).

Definition put_deleted_file (dst : bytes) (p : Z * Z) : bytes :=
  let dst := PutVarint32 dst kDeletedFile in
  let dst := PutVarint32 dst (u32 p.1) in
  PutVarint64 dst p.2.

Definition put_new_file (dst : bytes) (p : Z * FileMetaData) : option bytes :=
  let f := p.2 in
  let dst := PutVarint32 dst kNewFile in
  let dst := PutVarint32 dst (u32 p.1) in
  let dst := PutVarint64 dst (number f) in
  let dst := PutVarint64 dst (file_size f) in
  small ← InternalKey_Encode (smallest f);
  let dst := PutLengthPrefixedSlice dst small in
  large ← InternalKey_Encode (largest f);
  Some (PutLengthPrefixedSlice dst large).

(** A loop that appends to [dst] for every element, which may fail. *)
Fixpoint put_each {A} (put : bytes -> A -> option bytes) (dst : bytes) (l : list A)
  : option bytes :=
  match l with
  | [] => Some dst
  | x :: l' => dst ← put dst x; put_each put dst l'
  end.

Definition VersionEdit_EncodeTo (e : VersionEdit) (dst : bytes) : option bytes :=
  let dst :=
    if has_comparator_ e
    then PutLengthPrefixedSlice (PutVarint32 dst kComparator) (comparator_ e) else dst in
  let dst :=
    if has_log_number_ e
    then PutVarint64 (PutVarint32 dst kLogNumber) (log_number_ e) else dst in
  let dst :=
    if has_prev_log_number_ e
    then PutVarint64 (PutVarint32 dst kPrevLogNumber) (prev_log_number_ e) else dst in
  let dst :=
    if has_next_file_number_ e
    then PutVarint64 (PutVarint32 dst kNextFileNumber) (next_file_number_ e) else dst in
  let dst :=
    if has_last_sequence_ e
    then PutVarint64 (PutVarint32 dst kLastSequence) (last_sequence_ e) else dst in
  dst ← put_each put_compact_pointer dst (compact_pointers_ e);
  let dst := fold_left put_deleted_file (deleted_files_ e) dst in
  put_each put_new_file dst (new_files_ e).

(** * Decoding *)
Definition GetInternalKey (input : bytes) : option (bytes * bytes) := GetLengthPrefixedSlice input.

(** Levels below seven are the same as an [int]. *)
Definition GetLevel (input : bytes) : option (Z * bytes) :=
  '(v, input) ← GetVarint32 input;
  if v <? kNumLevels then Some (v, input) else None.

(** The switch on the tag: the message of the case that fails, or the edit and
    the rest of the input. *)
Definition decode_tag (tag : Z) (input : bytes) (e : VersionEdit) : bytes + VersionEdit * bytes :=
  let or_msg (r : option (VersionEdit * bytes)) (msg : string) :=
    match r with Some x => inr x | None => inl (str msg) end in
  if tag =? kComparator then
    or_msg ('(s, input) ← GetLengthPrefixedSlice input;
            Some (SetComparatorName e s, input)) "comparator name"
  else if tag =? kLogNumber then
    or_msg ('(n, input) ← GetVarint64 input; Some (SetLogNumber e n, input)) "log number"
  else if tag =? kPrevLogNumber then
    or_msg ('(n, input) ← GetVarint64 input;
            Some (SetPrevLogNumber e n, input)) "previous log number"
  else if tag =? kNextFileNumber then
    or_msg ('(n, input) ← GetVarint64 input;
            Some (SetNextFile e n, input)) "next file number"
  else if tag =? kLastSequence then
    or_msg ('(n, input) ← GetVarint64 input;
            Some (SetLastSequence e n, input)) "last sequence number"
  else if tag =? kCompactPointer then
    or_msg ('(level, input) ← GetLevel input;
            '(key, input) ← GetInternalKey input;
            Some (SetCompactPointer e level key, input)) "compaction pointer"
  else if tag =? kDeletedFile then
    or_msg ('(level, input) ← GetLevel input;
            '(n, input) ← GetVarint64 input;
            Some (DeleteFile e level n, input)) "deleted file"
  else if tag =? kNewFile then
    or_msg ('(level, input) ← GetLevel input;
            '(n, input) ← GetVarint64 input;
            '(size, input) ← GetVarint64 input;
            '(small, input) ← GetInternalKey input;
            '(large, input) ← GetInternalKey input;
            Some (push_file e level (FileMetaData_make n size small large), input))
           "new-file entry"
  else inl (str "unknown tag").

(** The while loop: the message, if any, and the edit. *)
Fixpoint edit_decode_loop (fuel : nat) (input : bytes) (e : VersionEdit)
  : option (option bytes * VersionEdit) :=
  match fuel with
  | O => None
  | S fuel' =>
      match GetVarint32 input with
      | None => Some (if bool_decide (input = []) then None else Some (str "invalid tag"), e)
      | Some (tag, input) =>
          match decode_tag tag input e with
          | inl msg => Some (Some msg, e)
          | inr (e, input) => edit_decode_loop fuel' input e
          end
      end
  end.

Definition VersionEdit_DecodeFrom (e : VersionEdit) (src : bytes)
  : option (Status * VersionEdit) :=
  '(msg, e) ← edit_decode_loop (S (length src)) src (VersionEdit_Clear e);
  Some (match msg with
        | None => Status_OK
        | Some msg => Status_Corruption (str "VersionEdit") msg
        end, e).

(** * DebugString *)
Definition VersionEdit_DebugString (e : VersionEdit) : bytes :=
  let r := str "VersionEdit {" in
  let nl s := [10] ++ str s in
  let r := if has_comparator_ e then r ++ nl "  Comparator: " ++ comparator_ e else r in
  let r := if has_log_number_ e
           then AppendNumberTo (r ++ nl "  LogNumber: ") (log_number_ e) else r in
  let r := if has_prev_log_number_ e
           then AppendNumberTo (r ++ nl "  PrevLogNumber: ") (prev_log_number_ e) else r in
  let r := if has_next_file_number_ e
           then AppendNumberTo (r ++ nl "  NextFile: ") (next_file_number_ e) else r in
  let r := if has_last_sequence_ e
           then AppendNumberTo (r ++ nl "  LastSeq: ") (last_sequence_ e) else r in
  let r := fold_left (fun r p =>
             AppendNumberTo (r ++ nl "  CompactPointer: ") (u64 p.1) ++ str " "
             ++ InternalKey_DebugString p.2) (compact_pointers_ e) r in
  let r := fold_left (fun r p =>
             AppendNumberTo (AppendNumberTo (r ++ nl "  DeleteFile: ") (u64 p.1) ++ str " ") p.2)
             (deleted_files_ e) r in
  let r := fold_left (fun r p =>
             AppendNumberTo (AppendNumberTo (AppendNumberTo (r ++ nl "  AddFile: ") (u64 p.1)
               ++ str " ") (number p.2) ++ str " ") (file_size p.2) ++ str " "
             ++ InternalKey_DebugString (smallest p.2) ++ str " .. "
             ++ InternalKey_DebugString (largest p.2)) (new_files_ e) r in
  r ++ nl "}" ++ [10].

(** * The loop is total *)
Lemma GetLevel_suffix p v rest :
  GetLevel p = Some (v, rest) -> exists l, p = l ++ rest /\ l <> [].
Proof.
  unfold GetLevel. destruct (GetVarint32 p) as [[v' q]|] eqn:E; [|done].
  apply GetVarint32_suffix in E. cbn. destruct (_ <? _); [|done]. by intros [= <- <-].
Qed.

(** What the parsers leave is no longer than their input. *)
Lemma suffix_length (p rest : bytes) l : p = l ++ rest -> (length rest <= length p)%nat.
Proof. intros ->. rewrite length_app. lia. Qed.

Ltac suffix_lengths :=
  repeat match goal with
  | H : GetVarint32 _ = Some _ |- _ => apply GetVarint32_suffix in H as (? & H & _)
  | H : GetVarint64 _ = Some _ |- _ => apply GetVarint64_suffix in H as (? & H & _)
  | H : GetLevel _ = Some _ |- _ => apply GetLevel_suffix in H as (? & H & _)
  | H : GetInternalKey _ = Some _ |- _ => apply GetLengthPrefixedSlice_suffix in H as (? & H & _)
  | H : GetLengthPrefixedSlice _ = Some _ |- _ =>
      apply GetLengthPrefixedSlice_suffix in H as (? & H & _)
  end.

Lemma decode_tag_shrinks tag input e e' rest :
  decode_tag tag input e = inr (e', rest) -> (length rest <= length input)%nat.
Proof.
  unfold decode_tag. intros H.
  repeat match type of H with context [if ?b then _ else _] => destruct b end; try done;
  repeat match type of H with context [?g ?i ≫= _] => destruct (g i) as [[? ?]|] eqn:?; cbn [mbind option_bind] in H; [|done] end;
  simplify_eq; suffix_lengths; subst; rewrite ?length_app; lia.
Qed.

Lemma edit_decode_loop_total fuel input e :
  (length input < fuel)%nat -> is_Some (edit_decode_loop fuel input e).
Proof.
  revert input e. induction fuel as [|fuel IH]; intros input e Hf; [lia|]. cbn [edit_decode_loop].
  destruct (GetVarint32 input) as [[tag q]|] eqn:Eg; [|by eexists].
  apply GetVarint32_suffix in Eg as (l & -> & Hl).
  destruct (decode_tag tag q e) as [msg|[e' rest]] eqn:Ed; [by eexists|].
  apply decode_tag_shrinks in Ed. apply IH. rewrite length_app in Hf.
  destruct l; [done|]. simpl in Hf. lia.
Qed.

Lemma VersionEdit_DecodeFrom_total e src : is_Some (VersionEdit_DecodeFrom e src).
Proof.
  unfold VersionEdit_DecodeFrom.
  destruct (edit_decode_loop_total (S (length src)) src (VersionEdit_Clear e) ltac:(lia)) as [[msg e'] ->].
  by eexists.
Qed.

(** * The records an edit is made of *)
Inductive entry : Type :=
| EComparator (name : bytes) | ELog (n : Z) | EPrevLog (n : Z) | ENextFile (n : Z)
| ELastSeq (n : Z) | EPointer (level : Z) (key : bytes) | EDeleted (level n : Z)
| ENew (level n size : Z) (small large : bytes).

Definition entry_bytes (x : entry) : bytes :=
  match x with
  | EComparator name => varint kComparator ++ delim name
  | ELog n => varint kLogNumber ++ varint n
  | EPrevLog n => varint kPrevLogNumber ++ varint n
  | ENextFile n => varint kNextFileNumber ++ varint n
  | ELastSeq n => varint kLastSequence ++ varint n
  | EPointer level key => varint kCompactPointer ++ varint level ++ delim key
  | EDeleted level n => varint kDeletedFile ++ varint level ++ varint n
  | ENew level n size small large =>
      varint kNewFile ++ varint level ++ varint n ++ varint size ++ delim small ++ delim large
  end.

Definition apply_entry (e : VersionEdit) (x : entry) : VersionEdit :=
  match x with
  | EComparator name => SetComparatorName e name
  | ELog n => SetLogNumber e n
  | EPrevLog n => SetPrevLogNumber e n
  | ENextFile n => SetNextFile e n
  | ELastSeq n => SetLastSequence e n
  | EPointer level key => SetCompactPointer e level key
  | EDeleted level n => DeleteFile e level n
  | ENew level n size small large => AddFile e level n size small large
  end.

Definition short_bytes (b : bytes) : Prop := zlen b < 2 ^ 32 /\ Forall is_byte b.
Definition valid_level (level : Z) : Prop := 0 <= level < kNumLevels.

Definition entry_ok (x : entry) : Prop :=
  match x with
  | EComparator name => short_bytes name
  | ELog n | EPrevLog n | ENextFile n | ELastSeq n => in_uint 64 n
  | EPointer level key => valid_level level /\ short_bytes key
  | EDeleted level n => valid_level level /\ in_uint 64 n
  | ENew level n size small large =>
      valid_level level /\ in_uint 64 n /\ in_uint 64 size /\ short_bytes small /\ short_bytes large
  end.

Lemma valid_level_uint level : valid_level level -> in_uint 32 level.
Proof. unfold valid_level, in_uint, kNumLevels. pow2. lia. Qed.

Lemma short_delim b : short_bytes b -> Forall is_byte (delim b).
Proof. intros [H1 H2]. by apply short_delim_bytes. Qed.

Lemma varint32_bytes v : in_uint 32 v -> Forall is_byte (varint v).
Proof. intros Hv. by apply varint_bytes, uint32_64. Qed.

#[local] Hint Resolve valid_level_uint short_delim varint_bytes varint32_bytes uint32_64 : core.

Lemma GetLevel_varint level rest :
  valid_level level -> Forall is_byte rest -> GetLevel (varint level ++ rest) = Some (level, rest).
Proof.
  intros Hl Hr. unfold GetLevel. rewrite GetVarint32_varint by auto. cbn [mbind option_bind].
  by rewrite (proj2 (Z.ltb_lt _ _)) by apply Hl.
Qed.

Lemma GetInternalKey_delim v rest :
  short_bytes v -> Forall is_byte rest -> GetInternalKey (delim v ++ rest) = Some (v, rest).
Proof. intros [Hl Hb] Hr. by apply GetLengthPrefixedSlice_delim. Qed.

Lemma entry_bytes_bytes x : entry_ok x -> Forall is_byte (entry_bytes x).
Proof.
  assert (forall t, 0 <= t < 16 -> Forall is_byte (varint t)) as Ht
    by (intros t Hx; apply varint_bytes; unfold in_uint; lia).
  destruct x; cbn [entry_ok entry_bytes]; intros; destruct_and?;
    rewrite ?Forall_app; split_and!; auto; by apply Ht.
Qed.

Lemma GetSlice_delim v rest :
  short_bytes v -> Forall is_byte rest -> GetLengthPrefixedSlice (delim v ++ rest) = Some (v, rest).
Proof. exact (GetInternalKey_delim v rest). Qed.

(** One round of the loop reads one entry. *)
Ltac parse_fields :=
  repeat (first [ rewrite GetLevel_varint | rewrite GetVarint64_varint
                | rewrite GetInternalKey_delim | rewrite GetSlice_delim ];
          cbn [mbind option_bind]);
  rewrite ?Forall_app; split_and?; auto.

Lemma edit_decode_loop_entry fuel x rest e :
  entry_ok x -> Forall is_byte rest ->
  edit_decode_loop (S fuel) (entry_bytes x ++ rest) e = edit_decode_loop fuel rest (apply_entry e x).
Proof.
  intros Hx Hr. assert (Forall is_byte (entry_bytes x ++ rest)) as Hb
    by (apply Forall_app; split; [by apply entry_bytes_bytes|done]).
  destruct x; cbn [entry_ok entry_bytes] in *; destruct_and?; rewrite <- !app_assoc in *;
    cbn [edit_decode_loop]; apply Forall_app in Hb as [_ Hb];
    (rewrite GetVarint32_varint; [|done|done]); unfold decode_tag;
    cbn [Z.eqb Pos.eqb kComparator kLogNumber kNextFileNumber kLastSequence
        kCompactPointer kDeletedFile kNewFile kPrevLogNumber]; parse_fields.
Qed.

Lemma edit_decode_loop_entries xs fuel e :
  Forall entry_ok xs -> (length xs < fuel)%nat ->
  edit_decode_loop fuel (concat (map entry_bytes xs)) e = Some (None, fold_left apply_entry xs e).
Proof.
  revert fuel e. induction xs as [|x xs IH]; intros [|fuel] e Hxs Hf; simpl in Hf; try lia; [done|].
  apply Forall_cons in Hxs as [Hx Hxs]. cbn [map concat fold_left].
  rewrite edit_decode_loop_entry; [apply IH; [done|lia]|done|].
  apply Forall_concat, Forall_fmap. eapply Forall_impl; [exact Hxs|apply entry_bytes_bytes].
Qed.

(** * Round trip *)
Definition pointer_entry (p : Z * bytes) : entry := EPointer p.1 p.2.
Definition deleted_entry (p : Z * Z) : entry := EDeleted p.1 p.2.
Definition new_entry (p : Z * FileMetaData) : entry :=
  ENew p.1 (number p.2) (file_size p.2) (smallest p.2) (largest p.2).

Definition when (b : bool) (x : entry) : list entry := if b then [x] else [].

(** The entries of an edit, in the order of [EncodeTo]. *)
Definition edit_entries (e : VersionEdit) : list entry :=
  when (has_comparator_ e) (EComparator (comparator_ e))
  ++ when (has_log_number_ e) (ELog (log_number_ e))
  ++ when (has_prev_log_number_ e) (EPrevLog (prev_log_number_ e))
  ++ when (has_next_file_number_ e) (ENextFile (next_file_number_ e))
  ++ when (has_last_sequence_ e) (ELastSeq (last_sequence_ e))
  ++ map pointer_entry (compact_pointers_ e)
  ++ map deleted_entry (deleted_files_ e)
  ++ map new_entry (new_files_ e).

Definition with_pointers (e : VersionEdit) (l : list (Z * bytes)) : VersionEdit := {|
  comparator_ := comparator_ e; log_number_ := log_number_ e;
  prev_log_number_ := prev_log_number_ e; next_file_number_ := next_file_number_ e;
  last_sequence_ := last_sequence_ e; has_comparator_ := has_comparator_ e;
  has_log_number_ := has_log_number_ e; has_prev_log_number_ := has_prev_log_number_ e;
  has_next_file_number_ := has_next_file_number_ e; has_last_sequence_ := has_last_sequence_ e;
  compact_pointers_ := l; deleted_files_ := deleted_files_ e; new_files_ := new_files_ e |}.
Definition with_deleted (e : VersionEdit) (l : list (Z * Z)) : VersionEdit := {|
  comparator_ := comparator_ e; log_number_ := log_number_ e;
  prev_log_number_ := prev_log_number_ e; next_file_number_ := next_file_number_ e;
  last_sequence_ := last_sequence_ e; has_comparator_ := has_comparator_ e;
  has_log_number_ := has_log_number_ e; has_prev_log_number_ := has_prev_log_number_ e;
  has_next_file_number_ := has_next_file_number_ e; has_last_sequence_ := has_last_sequence_ e;
  compact_pointers_ := compact_pointers_ e; deleted_files_ := l; new_files_ := new_files_ e |}.
Definition with_new_files (e : VersionEdit) (l : list (Z * FileMetaData)) : VersionEdit := {|
  comparator_ := comparator_ e; log_number_ := log_number_ e;
  prev_log_number_ := prev_log_number_ e; next_file_number_ := next_file_number_ e;
  last_sequence_ := last_sequence_ e; has_comparator_ := has_comparator_ e;
  has_log_number_ := has_log_number_ e; has_prev_log_number_ := has_prev_log_number_ e;
  has_next_file_number_ := has_next_file_number_ e; has_last_sequence_ := has_last_sequence_ e;
  compact_pointers_ := compact_pointers_ e; deleted_files_ := deleted_files_ e; new_files_ := l |}.

(** A file as [AddFile] makes it. *)
Definition fresh_file (f : FileMetaData) : Prop :=
  f = FileMetaData_make (number f) (file_size f) (smallest f) (largest f).

(** The members without their flag are as [Clear()] leaves them. *)
Definition unset_clear (e : VersionEdit) : Prop :=
  (has_comparator_ e = false -> comparator_ e = [])
  /\ (has_log_number_ e = false -> log_number_ e = 0)
  /\ (has_prev_log_number_ e = false -> prev_log_number_ e = 0)
  /\ (has_next_file_number_ e = false -> next_file_number_ e = 0)
  /\ (has_last_sequence_ e = false -> last_sequence_ e = 0).

Definition pair_sorted (l : list (Z * Z)) : Prop := StronglySorted (fun x y => pair_lt x y = true) l.

(** The edits that can be written: values of their widths, levels of the
    database, keys that are set. *)
Record edit_ok (e : VersionEdit) : Prop := {
  ok_entries : Forall entry_ok (edit_entries e);
  ok_unset : unset_clear e;
  ok_deleted : pair_sorted (deleted_files_ e);
  ok_pointers : Forall (fun p => p.2 <> []) (compact_pointers_ e);
  ok_files : Forall (fun p => fresh_file p.2 /\ smallest p.2 <> [] /\ largest p.2 <> []) (new_files_ e)
}.

Lemma InternalKey_Encode_set k : k <> [] -> InternalKey_Encode k = Some k.
Proof. intros Hk. unfold InternalKey_Encode. by rewrite bool_decide_eq_false_2. Qed.

(** ** [EncodeTo] writes the entries *)
Lemma put_slice_delim dst v : short_bytes v -> PutLengthPrefixedSlice dst v = dst ++ delim v.
Proof. intros [Hv _]. by apply PutLengthPrefixedSlice_delim. Qed.

Lemma put32 dst v : in_uint 32 v -> PutVarint32 dst v = dst ++ varint v.
Proof. intros Hv. unfold PutVarint32. by rewrite EncodeVarint32_varint. Qed.

Lemma put64 dst v : in_uint 64 v -> PutVarint64 dst v = dst ++ varint v.
Proof. intros Hv. unfold PutVarint64. by rewrite EncodeVarint64_varint. Qed.

Ltac put_entry :=
  cbv zeta; rewrite ?u32_small by auto; rewrite ?put_slice_delim, ?put32, ?put64 by first [done | auto];
  rewrite <- ?app_assoc.

Lemma put_compact_pointer_entry dst p :
  entry_ok (pointer_entry p) -> p.2 <> [] ->
  put_compact_pointer dst p = Some (dst ++ entry_bytes (pointer_entry p)).
Proof.
  intros [Hl Hk] Hne. unfold put_compact_pointer. rewrite InternalKey_Encode_set by done.
  cbn [mbind option_bind entry_bytes pointer_entry]. by put_entry.
Qed.

Lemma put_deleted_file_entry dst p :
  entry_ok (deleted_entry p) -> put_deleted_file dst p = dst ++ entry_bytes (deleted_entry p).
Proof. intros [Hl Hk]. unfold put_deleted_file. cbn [entry_bytes deleted_entry]. by put_entry. Qed.

Lemma put_new_file_entry dst p :
  entry_ok (new_entry p) -> smallest p.2 <> [] -> largest p.2 <> [] ->
  put_new_file dst p = Some (dst ++ entry_bytes (new_entry p)).
Proof.
  intros (Hl & Hn & Hz & Hs & Hg) H1 H2. unfold put_new_file.
  rewrite !InternalKey_Encode_set by done. cbn [mbind option_bind entry_bytes new_entry].
  by put_entry.
Qed.

Lemma put_each_entries {A} (put : bytes -> A -> option bytes) (f : A -> entry) l dst :
  Forall (fun x => forall dst, put dst x = Some (dst ++ entry_bytes (f x))) l ->
  put_each put dst l = Some (dst ++ concat (map entry_bytes (map f l))).
Proof.
  revert dst. induction l as [|x l IH]; intros dst Hl; cbn [put_each map concat].
  - by rewrite app_nil_r.
  - apply Forall_cons in Hl as [Hx Hl]. rewrite Hx. cbn [mbind option_bind].
    rewrite IH by done. by rewrite <- app_assoc.
Qed.

Lemma fold_deleted_entries l dst :
  Forall entry_ok (map deleted_entry l) ->
  fold_left put_deleted_file l dst = dst ++ concat (map entry_bytes (map deleted_entry l)).
Proof.
  revert dst. induction l as [|x l IH]; intros dst Hl; cbn [fold_left map concat].
  - by rewrite app_nil_r.
  - apply Forall_cons in Hl as [Hx Hl]. rewrite put_deleted_file_entry, IH by done.
    by rewrite <- app_assoc.
Qed.

Lemma put_when (b : bool) dst dst' x :
  (b = true -> dst' = dst ++ entry_bytes x) ->
  (if b then dst' else dst) = dst ++ concat (map entry_bytes (when b x)).
Proof. destruct b; intros H; simpl; rewrite ?app_nil_r; auto. Qed.

Lemma EncodeTo_entries e dst :
  edit_ok e -> VersionEdit_EncodeTo e dst = Some (dst ++ concat (map entry_bytes (edit_entries e))).
Proof.
  intros [Hen _ _ Hp Hf]. unfold VersionEdit_EncodeTo. cbv zeta. unfold edit_entries in *.
  rewrite !Forall_app in Hen. destruct Hen as (H1 & H2 & H3 & H4 & H5 & H6 & H7 & H8).
  assert (forall b x, Forall entry_ok (when b x) -> b = true -> entry_ok x) as Hw
    by (intros [] x Hx Hb; [by apply (Forall_singleton entry_ok)|done]).
  rewrite (put_when (has_comparator_ e) dst _ (EComparator (comparator_ e))).
  2: { intros Hb. pose proof (Hw _ _ H1 Hb). by put_entry. }
  rewrite (put_when (has_log_number_ e) _ _ (ELog (log_number_ e))).
  2: { intros Hb. pose proof (Hw _ _ H2 Hb). by put_entry. }
  rewrite (put_when (has_prev_log_number_ e) _ _ (EPrevLog (prev_log_number_ e))).
  2: { intros Hb. pose proof (Hw _ _ H3 Hb). by put_entry. }
  rewrite (put_when (has_next_file_number_ e) _ _ (ENextFile (next_file_number_ e))).
  2: { intros Hb. pose proof (Hw _ _ H4 Hb). by put_entry. }
  rewrite (put_when (has_last_sequence_ e) _ _ (ELastSeq (last_sequence_ e))).
  2: { intros Hb. pose proof (Hw _ _ H5 Hb). by put_entry. }
  rewrite (put_each_entries _ pointer_entry).
  2: { apply (proj1 (Forall_map _ _ _)) in H6. eapply Forall_impl; [apply Forall_and; exact (conj H6 Hp)|].
       intros p [Ho Hne] d. by apply put_compact_pointer_entry. }
  cbn [mbind option_bind]. rewrite fold_deleted_entries by done.
  rewrite (put_each_entries _ new_entry).
  2: { apply (proj1 (Forall_map _ _ _)) in H8. eapply Forall_impl; [apply Forall_and; exact (conj H8 Hf)|].
       intros p (Ho & _ & Hs & Hl) d. by apply put_new_file_entry. }
  rewrite !map_app, !concat_app, <- !app_assoc. done.
Qed.

(** ** Applying the entries of an edit to a cleared one gives it back *)
Lemma apply_pointers l e :
  fold_left apply_entry (map pointer_entry l) e = with_pointers e (compact_pointers_ e ++ l).
Proof.
  revert e. induction l as [|[lv k] l IH]; intros e; cbn [map fold_left].
  - rewrite app_nil_r. by destruct e.
  - rewrite IH. unfold with_pointers. cbn. by rewrite <- app_assoc.
Qed.

Lemma apply_deleted l e :
  fold_left apply_entry (map deleted_entry l) e
  = with_deleted e (fold_left (fun s x => set_insert x s) l (deleted_files_ e)).
Proof.
  revert e. induction l as [|[lv n] l IH]; intros e; cbn [map fold_left]; [by destruct e|].
  by rewrite IH.
Qed.

Lemma apply_new_files l e :
  Forall (fun p => fresh_file p.2) l ->
  fold_left apply_entry (map new_entry l) e = with_new_files e (new_files_ e ++ l).
Proof.
  revert e. induction l as [|[lv f] l IH]; intros e Hl; cbn [map fold_left].
  - rewrite app_nil_r. by destruct e.
  - apply Forall_cons in Hl as [Hf Hl]. rewrite IH by done. unfold with_new_files. cbn.
    cbn [snd] in Hf. rewrite <- Hf. by rewrite <- app_assoc.
Qed.

Lemma pair_lt_asym x y : pair_lt x y = true -> pair_lt y x = false.
Proof. unfold pair_lt. destruct x as [a b], y as [c d]. cbn [fst snd]. lia. Qed.

Lemma pair_lt_trans x y z : pair_lt x y = true -> pair_lt y z = true -> pair_lt x z = true.
Proof. unfold pair_lt. destruct x as [a b], y as [c d], z as [f g]. cbn [fst snd]. lia. Qed.

Lemma pair_lt_total x y : pair_lt x y = false -> pair_lt y x = false -> x = y.
Proof.
  unfold pair_lt. destruct x as [a b], y as [c d]. cbn [fst snd]. intros H1 H2. f_equal; lia.
Qed.

(** [insert] keeps the set ascending and adds the element. *)
Lemma set_insert_elem x l y : y ∈ set_insert x l <-> y = x \/ y ∈ l.
Proof.
  induction l as [|z l IH]; cbn [set_insert]; [set_solver|].
  destruct (pair_lt x z) eqn:E1; [set_solver|]. destruct (pair_lt z x) eqn:E2; [set_solver|].
  rewrite (pair_lt_total x z E1 E2). set_solver.
Qed.

Lemma set_insert_sorted x l : pair_sorted l -> pair_sorted (set_insert x l).
Proof.
  unfold pair_sorted. induction l as [|z l IH]; intros Hs; cbn [set_insert]; [by repeat constructor|].
  apply StronglySorted_inv in Hs as [Hs Hz].
  destruct (pair_lt x z) eqn:E1.
  - constructor; [by constructor|]. constructor; [done|].
    eapply Forall_impl; [exact Hz|]. intros y Hy. by apply (pair_lt_trans x z y).
  - destruct (pair_lt z x) eqn:E2; [|by constructor]. constructor; [by apply IH|].
    apply Forall_forall. intros y Hy. apply set_insert_elem in Hy as [->|Hy]; [done|].
    by apply (proj1 (Forall_forall _ _) Hz).
Qed.

Lemma set_insert_last x l :
  Forall (fun y => pair_lt y x = true) l -> set_insert x l = l ++ [x].
Proof.
  induction l as [|z l IH]; intros Hl; [done|]. apply Forall_cons in Hl as [Hz Hl].
  cbn [set_insert app]. rewrite (pair_lt_asym z x Hz), Hz. by rewrite IH.
Qed.

Lemma set_insert_ascending l acc :
  pair_sorted (acc ++ l) -> fold_left (fun s x => set_insert x s) l acc = acc ++ l.
Proof.
  revert acc. induction l as [|x l IH]; intros acc Hs; cbn [fold_left]; [by rewrite app_nil_r|].
  rewrite set_insert_last.
  - rewrite IH; [by rewrite <- app_assoc|by rewrite <- app_assoc].
  - clear IH. induction acc as [|y acc IHa]; [constructor|]. cbn [app] in Hs.
    apply StronglySorted_inv in Hs as [Hs Hy]. constructor; [|by apply IHa].
    apply Forall_app in Hy as [_ Hy]. by apply Forall_cons in Hy as [Hy _].
Qed.

Lemma apply_entries e e0 :
  edit_ok e ->
  fold_left apply_entry (edit_entries e) (VersionEdit_Clear e0)
  = with_pointers e (compact_pointers_ e0 ++ compact_pointers_ e).
Proof.
  intros [_ (U1 & U2 & U3 & U4 & U5) Hd _ Hf]. unfold edit_entries. rewrite !fold_left_app.
  rewrite apply_pointers, apply_deleted, apply_new_files.
  2: { eapply Forall_impl; [exact Hf|]. by intros p [? _]. }
  destruct e as [? ? ? ? ? [] [] [] [] [] ? ? ?]; cbn in *;
    rewrite ?U1, ?U2, ?U3, ?U4, ?U5 by done; unfold with_pointers, with_deleted, with_new_files; cbn;
    by rewrite set_insert_ascending.
Qed.

(** [DecodeFrom] of what [EncodeTo] wrote: the edit, after the compaction
    pointers the object decoded into had. *)
Lemma DecodeFrom_EncodeTo e e0 :
  edit_ok e ->
  exists src, VersionEdit_EncodeTo e [] = Some src
    /\ VersionEdit_DecodeFrom e0 src
       = Some (Status_OK, with_pointers e (compact_pointers_ e0 ++ compact_pointers_ e)).
Proof.
  intros Hok. pose proof (EncodeTo_entries e [] Hok) as He. cbn [app] in He. eexists. split; [exact He|].
  unfold VersionEdit_DecodeFrom. rewrite edit_decode_loop_entries.
  - cbn [mbind option_bind]. by rewrite apply_entries.
  - apply Hok.
  - assert (forall x, entry_ok x -> (1 <= length (entry_bytes x))%nat) as Hlen.
    { intros x Hx. destruct x; cbn [entry_bytes]; rewrite length_app;
        match goal with |- context [varint ?v] => pose proof (varint_length v) end; lia. }
    pose proof (ok_entries e Hok) as Hen. revert Hen. generalize (edit_entries e). intros xs Hxs.
    induction xs as [|x xs IH]; [simpl; lia|]. apply Forall_cons in Hxs as [Hx Hxs].
    cbn [map concat length] in *. rewrite length_app. specialize (Hlen x Hx). specialize (IH Hxs). lia.
Qed.
