(* ===== verification/LdbIterator.v ===== *)
(** leveldb: the interface of iterators, [iterator.h] and [iterator.cc].

    [Iterator St] has the operations of an iterator with states [St]; an
    operation is undefined where an assertion of the code fails.
    [IteratorLaw] is what one component promises to another: the iterator goes
    over a list of keys and values, forwards and backwards, and finds the place
    of any key.  The clean-up functions run when an iterator is deleted and are
    not modelled. *)
From stdpp Require Import base numbers option sorting list.
From S2P Require Import Prelude LdbSlice LdbComparator.
Open Scope Z_scope.

Class Iterator (St : Type) : Type := {
  Valid : St -> bool;
  SeekToFirst : St -> option St;
  SeekToLast : St -> option St;
  Seek : St -> bytes -> option St;
  Next : St -> option St;
  Prev : St -> option St;
  Key : St -> option bytes;
  Value : St -> option bytes;
  status : St -> option Status
}.

(** [EmptyIterator]; its state is [status_]. *)
Definition EmptyIterator : Iterator Status := {|
  Valid _ := false;
  SeekToFirst s := Some s;
  SeekToLast s := Some s;
  Seek s _ := Some s;
  Next _ := None;
  Prev _ := None;
  Key _ := None;
  Value _ := None;
  status s := Some s
|}.

Definition NewEmptyIterator : Status := Status_OK.
Definition NewErrorIterator (s : Status) : Status := s.

(** * The law *)
Section Law.
Context (valid : bytes -> Prop) (order : bytes -> bytes -> Z).

(** [i] is where [target] belongs among the keys. *)
Definition splits_at (kvs : list (bytes * bytes)) (target : bytes) (i : nat) : Prop :=
  (i <= length kvs)%nat
  /\ forall j kv, kvs !! j = Some kv -> order kv.1 target < 0 <-> (j < i)%nat.

Lemma splits_at_unique kvs target i j : splits_at kvs target i -> splits_at kvs target j -> i = j.
Proof.
  assert (forall i j, splits_at kvs target i -> splits_at kvs target j -> ~ (i < j)%nat) as H.
  { clear i j. intros i j [_ Hi] [Hjl Hj] Hlt. destruct (lookup_lt_is_Some_2 kvs i ltac:(lia)) as [x Hx].
    pose proof (proj1 (Hi i x Hx) (proj2 (Hj i x Hx) Hlt)). lia. }
  intros Hi Hj. pose proof (H i j Hi Hj). pose proof (H j i Hj Hi). lia.
Qed.

(** The keys ascend. *)
Definition ascending (kvs : list (bytes * bytes)) : Prop :=
  forall i x y, kvs !! i = Some x -> kvs !! S i = Some y -> order x.1 y.1 < 0.

(** [live s]: a state of the iterator over [kvs]; [at_pos s i]: it is at entry
    [i], or not valid if there is none. *)
Class IteratorLaw {St : Type} (I : Iterator St) (kvs : list (bytes * bytes))
    (live : St -> Prop) (at_pos : St -> nat -> Prop) : Prop := {
  at_live s i : at_pos s i -> live s;
  at_status s : live s -> status s = Some Status_OK;
  at_valid s i : at_pos s i -> Valid s = bool_decide (i < length kvs)%nat;
  at_entry_kv s i kv : at_pos s i -> kvs !! i = Some kv -> Key s = Some kv.1 /\ Value s = Some kv.2;
  seek_first s : live s -> exists s', SeekToFirst s = Some s' /\ at_pos s' 0%nat;
  seek_last s : live s -> exists s', SeekToLast s = Some s' /\ at_pos s' (length kvs - 1)%nat;
  seek_target s t : live s -> valid t ->
    exists s' i, Seek s t = Some s' /\ at_pos s' i /\ splits_at kvs t i;
  at_next s i : at_pos s i -> (i < length kvs)%nat -> exists s', Next s = Some s' /\ at_pos s' (i + 1)%nat;
  at_prev s i : at_pos s i -> (i < length kvs)%nat ->
    exists s', Prev s = Some s' /\ at_pos s' (match i with O => length kvs | S j => j end)
}.
End Law.

#[global] Arguments at_live {valid order St I kvs live at_pos _} s i _.
#[global] Arguments at_status {valid order St I kvs live at_pos _} s _.
#[global] Arguments at_valid {valid order St I kvs live at_pos _} s i _.
#[global] Arguments at_entry_kv {valid order St I kvs live at_pos _} s i kv _ _.
#[global] Arguments seek_first {valid order St I kvs live at_pos _} s _.
#[global] Arguments seek_last {valid order St I kvs live at_pos _} s _.
#[global] Arguments seek_target {valid order St I kvs live at_pos _} s t _ _.
#[global] Arguments at_next {valid order St I kvs live at_pos _} s i _ _.
#[global] Arguments at_prev {valid order St I kvs live at_pos _} s i _ _.

#[global] Instance EmptyIterator_law valid order :
  IteratorLaw valid order EmptyIterator [] (fun s => s = Status_OK) (fun s _ => s = Status_OK).
Proof.
  split; try done; try (by intros; eexists); try (by intros s ->).
  - intros s t -> _. exists None, 0%nat. split_and!; [done..|]. split; [done|]. by intros j kv.
  - intros s i _ H. simpl in H. lia.
  - intros s i _ H. simpl in H. lia.
Qed.

(** ** Ascending keys *)
Section Ascending.
Context {compare : bytes -> bytes -> option Z} {valid : bytes -> Prop} {order : bytes -> bytes -> Z}
  {CL : CompareLaw compare valid order}.

Lemma ascending_lt kvs i j x y :
  ascending order kvs -> Forall (fun kv => valid kv.1) kvs ->
  kvs !! i = Some x -> kvs !! j = Some y -> (i < j)%nat -> order x.1 y.1 < 0.
Proof.
  intros Ha Hv Hx Hy Hij. revert y Hy. induction j as [|j IH]; intros y Hy; [lia|].
  destruct (decide (i = j)) as [->|Hne]; [by apply (Ha j)|].
  destruct (lookup_lt_is_Some_2 kvs j) as [z Hz]; [apply lookup_lt_Some in Hy; lia|].
  pose proof (proj1 (Forall_lookup _ _) Hv) as Hv'.
  apply (order_lt_trans (compare := compare) _ z.1); eauto. apply IH; [lia|done].
Qed.

(** The places of two entries are as their keys. *)
Lemma ascending_order kvs i j x y :
  ascending order kvs -> Forall (fun kv => valid kv.1) kvs ->
  kvs !! i = Some x -> kvs !! j = Some y -> order x.1 y.1 < 0 <-> (i < j)%nat.
Proof.
  intros Ha Hv Hx Hy. split; [|by apply (ascending_lt kvs)].
  intros Ho. destruct (Nat.lt_ge_cases i j) as [|Hge]; [done|]. exfalso.
  pose proof (proj1 (Forall_lookup _ _) Hv) as Hv'.
  destruct (decide (i = j)) as [->|Hne].
  - assert (x = y) as -> by congruence. pose proof (order_refl (compare := compare) y.1 (Hv' _ _ Hy)). lia.
  - pose proof (ascending_lt kvs j i y x Ha Hv Hy Hx ltac:(lia)).
    pose proof (order_sym (compare := compare) x.1 y.1 (Hv' _ _ Hx) (Hv' _ _ Hy)). lia.
Qed.

Lemma ascending_splits kvs i x :
  ascending order kvs -> Forall (fun kv => valid kv.1) kvs -> kvs !! i = Some x -> splits_at order kvs x.1 i.
Proof.
  intros Ha Hv Hx. split; [apply lookup_lt_Some in Hx; lia|]. intros j y Hy. by apply (ascending_order kvs).
Qed.

Lemma ascending_NoDup kvs : ascending order kvs -> Forall (fun kv => valid kv.1) kvs -> NoDup kvs.
Proof.
  intros Ha Hv. apply NoDup_alt. intros i j x Hi Hj.
  pose proof (ascending_order kvs i j x x Ha Hv Hi Hj). pose proof (ascending_order kvs j i x x Ha Hv Hj Hi).
  pose proof (order_refl (compare := compare) x.1 (proj1 (Forall_lookup _ _) Hv _ _ Hi)). lia.
Qed.

Lemma splits_at_exists kvs t :
  ascending order kvs -> Forall (fun kv => valid kv.1) kvs -> valid t -> exists i, splits_at order kvs t i.
Proof.
  intros Ha Hv Ht. induction kvs as [|x kvs IH]; [exists 0%nat; split; [done|]; by intros [|j] kv|].
  apply Forall_cons in Hv as [Hx Hv]. destruct (Z.lt_ge_cases (order x.1 t) 0) as [Ho|Ho].
  - destruct IH as (i & Hi & Hs); [intros i y z; apply (Ha (S i))|done|]. exists (S i). split; [simpl; lia|].
    intros [|j] y Hy; [injection Hy as <-; split; [lia|done]|]. rewrite (Hs j y Hy). lia.
  - exists 0%nat. split; [lia|]. intros j y Hy. split; [|lia]. intros Hyt. exfalso.
    assert (valid y.1) as Hvy.
    { apply (proj1 (Forall_lookup (fun kv : bytes * bytes => valid kv.1) (x :: kvs))) with j; [by constructor|done]. }
    destruct j as [|j]; [injection Hy as <-; lia|].
    assert (order x.1 y.1 < 0) as Hxy by (apply (ascending_lt (x :: kvs) 0 (S j)); [done|by constructor|done..|lia]).
    pose proof (order_lt_trans (compare := compare) x.1 y.1 t Hx Hvy Ht Hxy Hyt). lia.
Qed.

(** Only one order of the entries is ascending. *)
Lemma ascending_unique kvs kvs' :
  ascending order kvs -> ascending order kvs' -> Forall (fun kv => valid kv.1) kvs -> kvs ≡ₚ kvs' -> kvs = kvs'.
Proof.
  intros Ha Ha' Hv Hp. assert (Forall (fun kv => valid kv.1) kvs') as Hv' by (by rewrite <- Hp).
  assert (forall l, ascending order l -> Forall (fun kv => valid kv.1) l ->
            StronglySorted (fun x y : bytes * bytes => order x.1 y.1 < 0) l) as Hs.
  { clear -CL. intros l Ha Hv. induction l as [|x l IH]; [constructor|]. constructor.
    - apply IH; [intros i y z; apply (Ha (S i))|]. by apply Forall_cons in Hv as [_ Hv].
    - apply Forall_lookup. intros j y Hy. apply (ascending_lt (x :: l) 0 (S j)); (done || lia). }
  apply (StronglySorted_unique_strong (fun x y : bytes * bytes => order x.1 y.1 < 0)); [|by apply Hs..|done].
  intros x y Hx Hy H1 H2. exfalso.
  pose proof (order_sym (compare := compare) x.1 y.1 (proj1 (Forall_forall _ _) Hv x Hx)
                (proj1 (Forall_forall _ _) Hv' y Hy)). lia.
Qed.
End Ascending.

(** The iterator goes over [kvs]. *)
Definition iterates {St : Type} (valid : bytes -> Prop) (order : bytes -> bytes -> Z) (I : Iterator St)
    (kvs : list (bytes * bytes)) (s : St) : Prop :=
  exists live at_pos, IteratorLaw valid order I kvs live at_pos /\ live s.

(** * Going over an iterator *)
Section Collect.
Context {St : Type} {I : Iterator St}.

(** The entries from where it is on, at most [n] of them. *)
Fixpoint collect (n : nat) (step : St -> option St) (s : St) : option (list (bytes * bytes)) :=
  if Valid s then
    match n with
    | O => None
    | S n' =>
        k ← Key s;
        v ← Value s;
        s ← step s;
        l ← collect n' step s;
        Some ((k, v) :: l)
    end
  else Some [].

Context {valid : bytes -> Prop} {order : bytes -> bytes -> Z} {kvs : list (bytes * bytes)}
  {live : St -> Prop} {at_pos : St -> nat -> Prop} {L : IteratorLaw valid order I kvs live at_pos}.

Lemma collect_next n s i :
  at_pos s i -> (length kvs <= i + n)%nat -> collect n Next s = Some (drop i kvs).
Proof.
  revert s i. induction n as [|n IH]; intros s i Ha Hn; cbn [collect];
    rewrite (at_valid s i Ha); case_bool_decide as Hi; try lia; try (by rewrite drop_ge by lia).
  destruct (lookup_lt_is_Some_2 kvs i Hi) as [[k v] Hkv].
  destruct (at_entry_kv s i _ Ha Hkv) as [-> ->]. cbn [mbind option_bind fst snd].
  destruct (at_next s i Ha Hi) as (s' & -> & Ha'). cbn [mbind option_bind].
  rewrite (IH s' (i + 1)%nat Ha') by lia. cbn [mbind option_bind].
  rewrite Nat.add_1_r. by rewrite (drop_S _ _ _ Hkv).
Qed.

Lemma collect_prev n s i :
  at_pos s i -> (i < length kvs)%nat -> (i < n)%nat ->
  collect n Prev s = Some (rev (take (S i) kvs)).
Proof.
  revert s i. induction n as [|n IH]; intros s i Ha Hi Hn; [lia|]. cbn [collect].
  rewrite (at_valid s i Ha), bool_decide_eq_true_2 by done.
  destruct (lookup_lt_is_Some_2 kvs i Hi) as [[k v] Hkv].
  destruct (at_entry_kv s i _ Ha Hkv) as [-> ->]. cbn [mbind option_bind fst snd].
  destruct (at_prev s i Ha Hi) as (s' & -> & Ha'). cbn [mbind option_bind].
  rewrite (take_S_r _ _ _ Hkv), rev_app_distr. destruct i as [|i].
  - destruct n as [|n]; cbn [collect]; rewrite (at_valid s' _ Ha'), bool_decide_eq_false_2 by lia; done.
  - rewrite (IH s' i Ha') by lia. done.
Qed.

Lemma collect_forward s :
  live s -> SeekToFirst s ≫= collect (length kvs) Next = Some kvs.
Proof.
  intros Hs. destruct (seek_first s Hs) as (s' & -> & Ha). cbn [mbind option_bind].
  by rewrite (collect_next _ s' 0 Ha) by lia.
Qed.

Lemma collect_from s t :
  live s -> valid t -> exists s' i, Seek s t = Some s' /\ splits_at order kvs t i
    /\ Valid s' = bool_decide (i < length kvs)%nat /\ collect (length kvs) Next s' = Some (drop i kvs).
Proof.
  intros Hs Ht. destruct (seek_target s t Hs Ht) as (s' & i & E & Ha & Hsp). exists s', i.
  split_and!; [done|done|by apply (at_valid s' i Ha)|]. apply (collect_next _ s' i Ha). lia.
Qed.

Lemma collect_backward s :
  live s -> SeekToLast s ≫= collect (length kvs) Prev = Some (rev kvs).
Proof.
  intros Hs. destruct (seek_last s Hs) as (s' & -> & Ha). cbn [mbind option_bind].
  destruct (decide (length kvs = 0%nat)) as [E|E].
  - destruct kvs; [|done]. cbn [collect length]. by rewrite (at_valid s' _ Ha).
  - rewrite (collect_prev _ s' _ Ha) by lia. by rewrite take_ge by lia.
Qed.
End Collect.

(** * A reference iterator

    The state is a place in a list; [Seek] goes to the first key that is not
    before the target. *)
Section ListIterator.
Context (compare : bytes -> bytes -> option Z) (kvs : list (bytes * bytes)).

Fixpoint list_seek (l : list (bytes * bytes)) (t : bytes) : option nat :=
  match l with
  | [] => Some 0%nat
  | kv :: l => r ← compare kv.1 t; if r <? 0 then S <$> list_seek l t else Some 0%nat
  end.

Definition ListIterator : Iterator nat := {|
  Valid i := (i <? length kvs)%nat;
  SeekToFirst _ := Some 0%nat;
  SeekToLast _ := Some (length kvs - 1)%nat;
  Seek _ t := list_seek kvs t;
  Next i := if (i <? length kvs)%nat then Some (S i) else None;
  Prev i := if (i <? length kvs)%nat then Some (match i with O => length kvs | S j => j end) else None;
  Key i := fst <$> kvs !! i;
  Value i := snd <$> kvs !! i;
  status _ := Some Status_OK
|}.

Context {valid : bytes -> Prop} {order : bytes -> bytes -> Z} {CL : CompareLaw compare valid order}.

Lemma list_seek_splits l t :
  ascending order l -> Forall (fun kv => valid kv.1) l -> valid t ->
  exists i, list_seek l t = Some i /\ splits_at order l t i.
Proof.
  intros Ha Hv Ht. induction l as [|x l IH]; [exists 0%nat; split; [done|]; split; [done|]; by intros [|j] kv|].
  pose proof Hv as Hv'. apply Forall_cons in Hv as [Hx Hl]. cbn [list_seek].
  rewrite (Compare_order (compare := compare)) by done. cbn [mbind option_bind].
  destruct (Z.ltb_spec (order x.1 t) 0) as [Ho|Ho].
  - destruct IH as (i & -> & Hi & Hsp); [intros i y z; apply (Ha (S i))|done|]. exists (S i).
    split; [done|]. split; [simpl; lia|]. intros [|j] y Hy; [injection Hy as <-; split; [lia|done]|].
    rewrite (Hsp j y Hy). lia.
  - exists 0%nat. split; [done|]. split; [lia|]. intros j y Hy. split; [|lia]. intros Hyt. exfalso.
    destruct j as [|j]; [injection Hy as <-; lia|].
    pose proof (proj1 (Forall_lookup _ _) Hv' (S j) y Hy) as Hvy.
    pose proof (ascending_lt (x :: l) 0 (S j) x y Ha Hv' eq_refl Hy ltac:(lia)) as Hxy.
    pose proof (order_lt_trans (compare := compare) x.1 y.1 t Hx Hvy Ht Hxy Hyt). lia.
Qed.

Lemma ListIterator_law :
  ascending order kvs -> Forall (fun kv => valid kv.1) kvs ->
  IteratorLaw valid order ListIterator kvs (fun _ => True) (fun s i => s = i).
Proof.
  intros Ha Hv. split; try done; cbn [Valid SeekToFirst SeekToLast Seek Next Prev Key Value status ListIterator].
  - intros s i ->. destruct (Nat.ltb_spec i (length kvs)); symmetry; [by apply bool_decide_eq_true_2|].
    apply bool_decide_eq_false_2. lia.
  - by intros s i kv -> ->.
  - intros s _. by exists 0%nat.
  - intros s _. by eexists.
  - intros s t _ Ht. destruct (list_seek_splits kvs t Ha Hv Ht) as (i & -> & Hi). by exists i, i.
  - intros s i -> Hi. rewrite (proj2 (Nat.ltb_lt _ _)) by done. exists (S i). split; [done|lia].
  - intros s i -> Hi. rewrite (proj2 (Nat.ltb_lt _ _)) by done. by eexists.
Qed.
End ListIterator.

(** * IteratorWrapper, [iterator_wrapper.h] *)
Section Wrapper.
Context {St : Type} {I : Iterator St}.

(** A null [iter_] is none. *)
Record IteratorWrapper : Type := { iter_ : option St; valid_ : bool; key_ : bytes }.

Definition Wrapper_new : IteratorWrapper := {| iter_ := None; valid_ := false; key_ := [] |}.

Definition Wrapper_Update (w : IteratorWrapper) : option IteratorWrapper :=
  it ← iter_ w;
  if Valid it then k ← Key it; Some {| iter_ := Some it; valid_ := true; key_ := k |}
  else Some {| iter_ := Some it; valid_ := false; key_ := key_ w |}.

Definition Wrapper_Set (w : IteratorWrapper) (it : option St) : option IteratorWrapper :=
  match it with
  | None => Some {| iter_ := None; valid_ := false; key_ := key_ w |}
  | Some _ => Wrapper_Update {| iter_ := it; valid_ := valid_ w; key_ := key_ w |}
  end.

(** An operation of the iterator, then [Update()]. *)
Definition Wrapper_do (op : St -> option St) (w : IteratorWrapper) : option IteratorWrapper :=
  it ← iter_ w;
  it ← op it;
  Wrapper_Update {| iter_ := Some it; valid_ := valid_ w; key_ := key_ w |}.

Definition Wrapper_key (w : IteratorWrapper) : option bytes := if valid_ w then Some (key_ w) else None.
Definition Wrapper_value (w : IteratorWrapper) : option bytes :=
  if valid_ w then it ← iter_ w; Value it else None.
Definition Wrapper_status (w : IteratorWrapper) : option Status := it ← iter_ w; status it.
Definition Wrapper_Next (w : IteratorWrapper) : option IteratorWrapper := Wrapper_do Next w.
Definition Wrapper_Prev (w : IteratorWrapper) : option IteratorWrapper := Wrapper_do Prev w.
Definition Wrapper_Seek (w : IteratorWrapper) (k : bytes) : option IteratorWrapper :=
  Wrapper_do (fun it => Seek it k) w.
Definition Wrapper_SeekToFirst (w : IteratorWrapper) : option IteratorWrapper := Wrapper_do SeekToFirst w.
Definition Wrapper_SeekToLast (w : IteratorWrapper) : option IteratorWrapper := Wrapper_do SeekToLast w.

(** ** The law of the wrapped iterator *)
Context {valid : bytes -> Prop} {order : bytes -> bytes -> Z} {kvs : list (bytes * bytes)}
  {live : St -> Prop} {at_pos : St -> nat -> Prop} {L : IteratorLaw valid order I kvs live at_pos}.

Definition wrapper_live (w : IteratorWrapper) : Prop := exists s, iter_ w = Some s /\ live s.

(** The cached results are those of the iterator. *)
Definition wrapper_at (w : IteratorWrapper) (i : nat) : Prop :=
  exists s, iter_ w = Some s /\ at_pos s i /\ valid_ w = bool_decide (i < length kvs)%nat
    /\ forall kv, kvs !! i = Some kv -> key_ w = kv.1.

Lemma Wrapper_Update_at s i v k :
  at_pos s i -> exists w, Wrapper_Update {| iter_ := Some s; valid_ := v; key_ := k |} = Some w
    /\ wrapper_at w i.
Proof.
  intros Ha. unfold Wrapper_Update. cbn [iter_ mbind option_bind]. rewrite (at_valid s i Ha).
  case_bool_decide as Hi.
  - destruct (lookup_lt_is_Some_2 kvs i Hi) as [kv Hkv]. destruct (at_entry_kv s i kv Ha Hkv) as [-> _].
    cbn [mbind option_bind]. eexists. split; [done|]. exists s. split_and!; [done..| |].
    + symmetry. by apply bool_decide_eq_true_2.
    + intros kv' Hkv'. cbn [key_]. congruence.
  - eexists. split; [done|]. exists s. split_and!; [done..| |].
    + symmetry. by apply bool_decide_eq_false_2.
    + intros kv Hkv. apply lookup_lt_Some in Hkv. done.
Qed.

Lemma wrapper_at_live w i : wrapper_at w i -> wrapper_live w.
Proof. intros (s & Hs & Ha & _). exists s. split; [done|]. exact (at_live s i Ha). Qed.

Lemma Wrapper_status_ok w : wrapper_live w -> Wrapper_status w = Some Status_OK.
Proof. intros (s & Hs & Hl). unfold Wrapper_status. rewrite Hs. cbn. by rewrite (at_status s Hl). Qed.

Lemma Wrapper_Set_at w s i : at_pos s i -> exists w', Wrapper_Set w (Some s) = Some w' /\ wrapper_at w' i.
Proof. intros Ha. unfold Wrapper_Set. by apply Wrapper_Update_at. Qed.

Lemma wrapper_kv w i kv :
  wrapper_at w i -> kvs !! i = Some kv -> Wrapper_key w = Some kv.1 /\ Wrapper_value w = Some kv.2.
Proof.
  intros (s & Hs & Ha & Hv & Hk) Hkv. pose proof (lookup_lt_Some _ _ _ Hkv).
  unfold Wrapper_key, Wrapper_value. rewrite Hv, Hs, bool_decide_eq_true_2 by done. rewrite (Hk kv Hkv).
  destruct (at_entry_kv s i kv Ha Hkv) as [_ Hval]. by rewrite <- Hval.
Qed.

Lemma wrapper_seek_first w :
  wrapper_live w -> exists w', Wrapper_SeekToFirst w = Some w' /\ wrapper_at w' 0.
Proof.
  intros (s & Hs & Hl). unfold Wrapper_SeekToFirst, Wrapper_do. rewrite Hs. cbn [mbind option_bind].
  destruct (seek_first s Hl) as (s' & -> & Ha). cbn [mbind option_bind]. by apply Wrapper_Update_at.
Qed.

Lemma wrapper_seek_last w :
  wrapper_live w -> exists w', Wrapper_SeekToLast w = Some w' /\ wrapper_at w' (length kvs - 1).
Proof.
  intros (s & Hs & Hl). unfold Wrapper_SeekToLast, Wrapper_do. rewrite Hs. cbn [mbind option_bind].
  destruct (seek_last s Hl) as (s' & -> & Ha). cbn [mbind option_bind]. by apply Wrapper_Update_at.
Qed.

Lemma wrapper_seek w t :
  wrapper_live w -> valid t ->
  exists w' i, Wrapper_Seek w t = Some w' /\ wrapper_at w' i /\ splits_at order kvs t i.
Proof.
  intros (s & Hs & Hl) Ht. unfold Wrapper_Seek, Wrapper_do. rewrite Hs. cbn [mbind option_bind].
  destruct (seek_target s t Hl Ht) as (s' & i & -> & Ha & Hsp). cbn [mbind option_bind].
  destruct (Wrapper_Update_at s' i (valid_ w) (key_ w) Ha) as (w' & Hw & Hw'). by exists w', i.
Qed.

Lemma wrapper_next w i :
  wrapper_at w i -> (i < length kvs)%nat ->
  exists w', Wrapper_Next w = Some w' /\ wrapper_at w' (i + 1).
Proof.
  intros (s & Hs & Ha & _) Hi. unfold Wrapper_Next, Wrapper_do. rewrite Hs. cbn [mbind option_bind].
  destruct (at_next s i Ha Hi) as (s' & -> & Ha'). cbn [mbind option_bind]. by apply Wrapper_Update_at.
Qed.

Lemma wrapper_prev w i :
  wrapper_at w i -> (i < length kvs)%nat ->
  exists w', Wrapper_Prev w = Some w' /\ wrapper_at w' (match i with O => length kvs | S j => j end).
Proof.
  intros (s & Hs & Ha & _) Hi. unfold Wrapper_Prev, Wrapper_do. rewrite Hs. cbn [mbind option_bind].
  destruct (at_prev s i Ha Hi) as (s' & -> & Ha'). cbn [mbind option_bind]. by apply Wrapper_Update_at.
Qed.
End Wrapper.

#[global] Arguments IteratorWrapper St : clear implicits.
