(* ===== verification/LdbBlock.v ===== *)
(** leveldb: blocks of a table, [block_builder.h], [block_builder.cc],
    [block.h] and [block.cc].

    A block is a run of entries, each with the length of the prefix it shares
    with the key before it, then the offsets of the restart points, where
    nothing is shared.  A pointer into the block is an offset; reading outside
    the block is undefined.  A condition of an [assert] is one of the caller:
    where it does not hold the result is undefined too. *)
From stdpp Require Import base numbers option strings list.
From S2P Require Import Prelude Varint LdbSlice LdbCoding LdbComparator.
Open Scope Z_scope.
Open Scope c_scope.

(** * BlockBuilder *)
Record BlockBuilder : Type := {
  buffer_ : bytes;
  restarts_ : list Z;
  counter_ : Z;
  finished_ : bool;
  last_key_ : bytes
}.

Section Builder.
Context `{C : Comparator} (block_restart_interval : Z).

Definition BlockBuilder_Reset : BlockBuilder :=
  {| buffer_ := []; restarts_ := [0]; counter_ := 0; finished_ := false; last_key_ := [] |}.

Definition BlockBuilder_new : option BlockBuilder :=
  if 1 <=? block_restart_interval then Some BlockBuilder_Reset else None.

Definition BlockBuilder_CurrentSizeEstimate (b : BlockBuilder) : Z :=
  zlen (buffer_ b) + zlen (restarts_ b) * 4 + 4.

Definition BlockBuilder_empty (b : BlockBuilder) : bool := zlen (buffer_ b) =? 0.

Definition BlockBuilder_Finish (b : BlockBuilder) : bytes * BlockBuilder :=
  let buffer := fold_left PutFixed32 (restarts_ b) (buffer_ b) in
  let buffer := PutFixed32 buffer (u32 (zlen (restarts_ b))) in
  (buffer, {| buffer_ := buffer; restarts_ := restarts_ b; counter_ := counter_ b;
              finished_ := true; last_key_ := last_key_ b |}).

Definition BlockBuilder_Add (b : BlockBuilder) (key value : bytes) : option BlockBuilder :=
  larger ← (if zlen (buffer_ b) =? 0 then Some true
            else r ← Compare key (last_key_ b); Some (0 <? r));
  if finished_ b || negb (counter_ b <=? block_restart_interval) || negb larger then None
  else
    let '(shared, restarts, counter) :=
      if counter_ b <? block_restart_interval
      then (common_prefix (last_key_ b) key, restarts_ b, counter_ b)
      else (0%nat, restarts_ b ++ [u32 (zlen (buffer_ b))], 0) in
    let non_shared := zlen key - Z.of_nat shared in
    let buffer := PutVarint32 (buffer_ b) (u32 (Z.of_nat shared)) in
    let buffer := PutVarint32 buffer (u32 non_shared) in
    let buffer := PutVarint32 buffer (u32 (zlen value)) in
    let buffer := buffer ++ take (Z.to_nat non_shared) (drop shared key) in
    let buffer := buffer ++ value in
    let last_key := take shared (last_key_ b) ++ take (Z.to_nat non_shared) (drop shared key) in
    Some {| buffer_ := buffer; restarts_ := restarts; counter_ := counter + 1;
            finished_ := finished_ b; last_key_ := last_key |}.
End Builder.

(** * Block *)

(** [size_] is 0 for a block that cannot be read. *)
Record Block : Type := { bl_data : bytes; bl_size : Z; restart_offset_ : Z }.

Definition NumRestarts (data : bytes) (size : Z) : option Z :=
  if size <? 4 then None else DecodeFixed32 (drop (Z.to_nat (size - 4)) data).

Definition Block_new (contents : bytes) : option Block :=
  let size := zlen contents in
  if size <? 4 then Some {| bl_data := contents; bl_size := 0; restart_offset_ := 0 |}
  else
    let max_restarts_allowed := (size - 4) / 4 in
    n ← NumRestarts contents size;
    if n >? max_restarts_allowed
    then Some {| bl_data := contents; bl_size := 0; restart_offset_ := 0 |}
    else Some {| bl_data := contents; bl_size := size;
                 restart_offset_ := u32 (size - u32 (1 + n) * 4) |}.

(** The three lengths and the offset after them; [p] and [limit] are offsets. *)
Definition DecodeEntry (data : bytes) (p limit : Z) : option (Z * Z * Z * Z) :=
  if limit - p <? 3 then None
  else
    let s := take (Z.to_nat (limit - p)) (drop (Z.to_nat p) data) in
    '(shared, non_shared, value_length, rest) ←
      match s with
      | b0 :: b1 :: b2 :: rest =>
          if (b0 ||| b1 ||| b2) <? 128 then Some (b0, b1, b2, rest)
          else
            '(shared, s) ← GetVarint32Ptr s;
            '(non_shared, s) ← GetVarint32Ptr s;
            '(value_length, s) ← GetVarint32Ptr s;
            Some (shared, non_shared, value_length, s)
      | _ => None
      end;
    let p := limit - zlen rest in
    if u32 (limit - p) <? u32 (non_shared + value_length) then None
    else Some (shared, non_shared, value_length, p).

(** * Block::Iter *)

(** [value_] is where its slice starts and its length; [None] is the slice of
    [clear()], which is not in the block. *)
Record BlockIter : Type := {
  bi_restarts : Z;
  bi_num_restarts : Z;
  bi_current : Z;
  bi_restart_index : Z;
  bi_key : bytes;
  bi_value : option (Z * Z);
  bi_status : Status
}.

Section Iter.
Context `{C : Comparator} (data : bytes).

(** The [n] bytes at an offset. *)
Definition block_bytes (off n : Z) : option bytes :=
  if (0 <=? off) && (0 <=? n) && (off + n <=? zlen data)
  then Some (take (Z.to_nat n) (drop (Z.to_nat off) data)) else None.

Definition BlockIter_new (restarts num_restarts : Z) : option BlockIter :=
  if 0 <? num_restarts
  then Some {| bi_restarts := restarts; bi_num_restarts := num_restarts; bi_current := restarts;
               bi_restart_index := num_restarts; bi_key := []; bi_value := None; bi_status := None |}
  else None.

(** [current_], [restart_index_], [key_] and [value_] at once. *)
Definition bi_set (it : BlockIter) (current restart_index : Z) (key : bytes)
    (value : option (Z * Z)) : BlockIter :=
  {| bi_restarts := bi_restarts it; bi_num_restarts := bi_num_restarts it; bi_current := current;
     bi_restart_index := restart_index; bi_key := key; bi_value := value;
     bi_status := bi_status it |}.

(** A slice that is not in the block has no offset. *)
Definition NextEntryOffset (it : BlockIter) : option Z :=
  (fun v => u32 (fst v + snd v)) <$> bi_value it.

Definition GetRestartPoint (it : BlockIter) (index : Z) : option Z :=
  if index <? bi_num_restarts it
  then b ← block_bytes (bi_restarts it + index * 4) 4; DecodeFixed32 b
  else None.

Definition SeekToRestartPoint (it : BlockIter) (index : Z) : option BlockIter :=
  offset ← GetRestartPoint it index;
  Some (bi_set it (bi_current it) index [] (Some (offset, 0))).

Definition BlockIter_Valid (it : BlockIter) : bool := bi_current it <? bi_restarts it.

Definition CorruptionError (it : BlockIter) : BlockIter :=
  {| bi_restarts := bi_restarts it; bi_num_restarts := bi_num_restarts it;
     bi_current := bi_restarts it; bi_restart_index := bi_num_restarts it; bi_key := [];
     bi_value := None; bi_status := Status_Corruption (str "bad entry in block") [] |}.

(** The while loop over restart points at the end of [ParseNextKey]. *)
Fixpoint advance_restart (n : nat) (it : BlockIter) (index : Z) : option Z :=
  if index + 1 <? bi_num_restarts it then
    match n with
    | O => None
    | S n' =>
        r ← GetRestartPoint it (index + 1);
        if r <? bi_current it then advance_restart n' it (index + 1) else Some index
    end
  else Some index.

Definition ParseNextKey (it : BlockIter) : option (bool * BlockIter) :=
  current ← NextEntryOffset it;
  if bi_restarts it <=? current
  then Some (false, bi_set it (bi_restarts it) (bi_num_restarts it) (bi_key it) (bi_value it))
  else
    match DecodeEntry data current (bi_restarts it) with
    | None => Some (false, CorruptionError it)
    | Some (shared, non_shared, value_length, p) =>
        if zlen (bi_key it) <? shared then Some (false, CorruptionError it)
        else
          delta ← block_bytes p non_shared;
          let it := bi_set it current (bi_restart_index it) (take (Z.to_nat shared) (bi_key it) ++ delta)
                           (Some (p + non_shared, value_length)) in
          index ← advance_restart (Z.to_nat (bi_num_restarts it)) it (bi_restart_index it);
          Some (true, bi_set it current index (bi_key it) (bi_value it))
    end.

Definition BlockIter_key (it : BlockIter) : option bytes :=
  if BlockIter_Valid it then Some (bi_key it) else None.

Definition BlockIter_value (it : BlockIter) : option bytes :=
  if BlockIter_Valid it then '(off, n) ← bi_value it; block_bytes off n else None.

Definition BlockIter_Next (it : BlockIter) : option BlockIter :=
  if BlockIter_Valid it then snd <$> ParseNextKey it else None.

(** The while loop of [Prev]: a restart point before [original], or none. *)
Fixpoint restart_before (n : nat) (it : BlockIter) (original index : Z) : option (option Z) :=
  r ← GetRestartPoint it index;
  if original <=? r then
    if index =? 0 then Some None
    else match n with O => None | S n' => restart_before n' it original (index - 1) end
  else Some (Some index).

(** [do {} while (ParseNextKey() && NextEntryOffset() < bound)]; every round
    moves forward in the block. *)
Fixpoint parse_until (n : nat) (it : BlockIter) (bound : Z) : option BlockIter :=
  match n with
  | O => None
  | S n' =>
      '(ok, it) ← ParseNextKey it;
      if ok : bool then
        next ← NextEntryOffset it;
        if next <? bound then parse_until n' it bound else Some it
      else Some it
  end.

Definition BlockIter_Prev (it : BlockIter) : option BlockIter :=
  if BlockIter_Valid it then
    let original := bi_current it in
    index ← restart_before (Z.to_nat (bi_restart_index it)) it original (bi_restart_index it);
    match index with
    | None => Some (bi_set it (bi_restarts it) (bi_num_restarts it) (bi_key it) (bi_value it))
    | Some index =>
        it ← SeekToRestartPoint it index;
        parse_until (S (Z.to_nat (bi_restarts it))) it original
    end
  else None.

(** The binary search of [Seek]: the restart point to start from, or none
    after an error. *)
Fixpoint seek_restart (n : nat) (it : BlockIter) (target : bytes) (left right : Z) : option (option Z) :=
  if left <? right then
    match n with
    | O => None
    | S n' =>
        let mid := u32 (left + right + 1) / 2 in
        region_offset ← GetRestartPoint it mid;
        match DecodeEntry data region_offset (bi_restarts it) with
        | Some (shared, non_shared, _, key_ptr) =>
            if shared =? 0 then
              mid_key ← block_bytes key_ptr non_shared;
              r ← Compare mid_key target;
              if r <? 0 then seek_restart n' it target mid right
              else seek_restart n' it target left (mid - 1)
            else Some None
        | None => Some None
        end
    end
  else Some (Some left).

(** The linear search of [Seek]. *)
Fixpoint scan_to (n : nat) (it : BlockIter) (target : bytes) : option BlockIter :=
  match n with
  | O => None
  | S n' =>
      '(ok, it) ← ParseNextKey it;
      if ok : bool then
        r ← Compare (bi_key it) target;
        if 0 <=? r then Some it else scan_to n' it target
      else Some it
  end.

Definition BlockIter_Seek (it : BlockIter) (target : bytes) : option BlockIter :=
  start ← seek_restart (Z.to_nat (bi_num_restarts it)) it target 0 (u32 (bi_num_restarts it - 1));
  match start with
  | None => Some (CorruptionError it)
  | Some start =>
      it ← SeekToRestartPoint it start;
      scan_to (S (Z.to_nat (bi_restarts it))) it target
  end.

Definition BlockIter_SeekToFirst (it : BlockIter) : option BlockIter :=
  it ← SeekToRestartPoint it 0;
  snd <$> ParseNextKey it.

(** [while (cond) {}] with the same condition as the loop of [Prev]. *)
Definition BlockIter_SeekToLast (it : BlockIter) : option BlockIter :=
  it ← SeekToRestartPoint it (u32 (bi_num_restarts it - 1));
  parse_until (S (Z.to_nat (bi_restarts it))) it (bi_restarts it).
End Iter.

(** What [NewIterator] makes of a block. *)
Inductive BlockIterator : Type :=
| ErrorBlock (s : Status)
| EmptyBlock
| BlockEntries (data : bytes) (it : BlockIter).

Definition Block_NewIterator (b : Block) : option BlockIterator :=
  if bl_size b <? 4
  then Some (ErrorBlock (Status_Corruption (str "bad block contents") []))
  else
    num_restarts ← NumRestarts (bl_data b) (bl_size b);
    if num_restarts =? 0 then Some EmptyBlock
    else it ← BlockIter_new (restart_offset_ b) num_restarts; Some (BlockEntries (bl_data b) it).
