(* ===== verification/LdbBlockThms.v ===== *)
(** leveldb: what the bytes of a block stand for, the operations of its iterator
    on them, and what the builder builds. *)
From stdpp Require Import base numbers option strings list.
From S2P Require Import Prelude Varint LdbSlice LdbCoding LdbComparator LdbIterator LdbBlock.
Open Scope Z_scope.
Open Scope c_scope.

(** * The format and the steps of the iterator *)

(** * The format *)

(** An entry: how much it shares with the key before, its key and value. *)
Record item : Type := { i_shared : nat; i_key : bytes; i_value : bytes }.

Definition item_head (x : item) : bytes :=
  varint (Z.of_nat (i_shared x)) ++ varint (zlen (i_key x) - Z.of_nat (i_shared x))
  ++ varint (zlen (i_value x)).

Definition item_bytes_of (x : item) : bytes :=
  item_head x ++ drop (i_shared x) (i_key x) ++ i_value x.

Definition items_bytes (xs : list item) : bytes := concat (map item_bytes_of xs).

(** Where entry [i] starts. *)
Definition item_off (xs : list item) (i : nat) : Z := zlen (items_bytes (take i xs)).

(** [ms] are the indices of the entries at restart points. *)
Definition block_contents (xs : list item) (ms : list nat) : bytes :=
  items_bytes xs ++ concat (map EncodeFixed32 (map (item_off xs) ms)) ++ EncodeFixed32 (zlen ms).

(** What is shared is a prefix of the key before. *)
Definition item_after (prev : bytes) (x : item) : Prop :=
  (i_shared x <= length prev)%nat /\ (i_shared x <= length (i_key x))%nat
  /\ take (i_shared x) prev = take (i_shared x) (i_key x).

Record items_wf (xs : list item) (ms : list nat) : Prop := {
  rep_bytes : Forall (fun x => Forall is_byte (i_key x) /\ Forall is_byte (i_value x)) xs;
  rep_first : forall x, xs !! 0%nat = Some x -> item_after [] x;
  rep_next : forall i x y, xs !! i = Some x -> xs !! S i = Some y -> item_after (i_key x) y;
  rep_restart0 : ms !! 0%nat = Some 0%nat;
  rep_restart : forall j m x, ms !! j = Some m -> xs !! m = Some x -> i_shared x = 0%nat;
  rep_restart_in : forall j m, ms !! j = Some m -> (m <= length xs)%nat /\ (0 < j -> m < length xs)%nat;
  rep_restart_lt : forall j m m', ms !! j = Some m -> ms !! S j = Some m' -> (m < m')%nat
}.

(** A block whose offsets fit in a word. *)
Record block_rep (xs : list item) (ms : list nat) : Prop := {
  rep_size : zlen (block_contents xs ms) < 2 ^ 32;
  rep_wf :> items_wf xs ms
}.

(** ** Sizes *)
Lemma item_off_S xs i x :
  xs !! i = Some x -> item_off xs (S i) = item_off xs i + zlen (item_bytes_of x).
Proof.
  intros Hx. unfold item_off, items_bytes. rewrite (take_S_r _ _ _ Hx), map_app, concat_app, zlen_app.
  cbn [map concat]. by rewrite app_nil_r.
Qed.

Lemma item_head_length x : 3 <= zlen (item_head x).
Proof.
  unfold item_head. rewrite !zlen_app.
  pose proof (varint_length (Z.of_nat (i_shared x))).
  pose proof (varint_length (zlen (i_key x) - Z.of_nat (i_shared x))).
  pose proof (varint_length (zlen (i_value x))). lia.
Qed.

Lemma item_bytes_length x :
  zlen (item_bytes_of x) = zlen (item_head x) + zlen (drop (i_shared x) (i_key x)) + zlen (i_value x).
Proof. unfold item_bytes_of. rewrite !zlen_app. lia. Qed.

Lemma item_off_le xs i : item_off xs i <= item_off xs (length xs).
Proof.
  unfold item_off. rewrite (take_ge xs (length xs)) by lia. unfold items_bytes.
  rewrite <- (take_drop i xs) at 2. rewrite map_app, concat_app, zlen_app. lia.
Qed.

Lemma item_off_total xs : item_off xs (length xs) = zlen (items_bytes xs).
Proof. unfold item_off. by rewrite take_ge by lia. Qed.

(** Offsets and indices go together. *)
Lemma item_off_mono xs i j :
  (i < j)%nat -> (j <= length xs)%nat -> item_off xs i + 3 <= item_off xs j.
Proof.
  intros Hij Hj. induction j as [|j IH]; [lia|].
  destruct (lookup_lt_is_Some_2 xs j ltac:(lia)) as [x Hx].
  rewrite (item_off_S xs j x Hx), item_bytes_length. pose proof (item_head_length x).
  destruct (decide (i = j)) as [->|]; [lia|]. specialize (IH ltac:(lia) ltac:(lia)). lia.
Qed.

Lemma item_off_lt xs i j :
  (i <= length xs)%nat -> (j <= length xs)%nat -> item_off xs i < item_off xs j <-> (i < j)%nat.
Proof.
  intros Hi Hj. split.
  - intros Hlt. destruct (Nat.lt_ge_cases i j) as [|Hge]; [done|].
    destruct (decide (i = j)) as [->|]; [lia|].
    pose proof (item_off_mono xs j i ltac:(lia) Hi). lia.
  - intros Hlt. pose proof (item_off_mono xs i j Hlt Hj). lia.
Qed.

Lemma item_off_0 xs : item_off xs 0 = 0.
Proof. done. Qed.

Lemma block_contents_length xs ms :
  zlen (block_contents xs ms) = item_off xs (length xs) + 4 * zlen ms + 4.
Proof.
  unfold block_contents. rewrite !zlen_app, concat_fixed32_length, length_map, item_off_total.
  rewrite EncodeFixed32_length. lia.
Qed.

(** ** The header of an entry *)
Lemma varint_first v b r rest :
  in_uint 64 v -> varint v ++ rest = b :: r -> b < 128 -> varint v = [v] /\ b = v /\ r = rest.
Proof.
  intros Hv E Hb. unfold varint in *. cbn [varint_n] in *.
  destruct (Z.ltb_spec v 128) as [|Hge]; [|].
  - simpl in E. by injection E as <- <-.
  - exfalso. cbn [app] in E. injection E as <- _. pose proof (Z.mod_pos_bound v 128). lia.
Qed.

Lemma lor_lt_128 a b c :
  is_byte a -> is_byte b -> is_byte c ->
  (a ||| b ||| c <? 128) = (a <? 128) && (b <? 128) && (c <? 128).
Proof.
  intros Ha Hb Hc.
  assert (forall z, is_byte z -> (z <? 128) = negb (Z.testbit z 7)) as Ht.
  { intros z Hz. unfold in_uint in Hz. rewrite Z.testbit_odd, shiftr_div by lia.
    change (2 ^ 7) with 128. change (2 ^ 8) with 256 in Hz.
    destruct (Z.ltb_spec z 128).
    - by rewrite Z.div_small by lia.
    - replace (z / 128) with 1; [done|]. Z.to_euclidean_division_equations; lia. }
  assert (forall x y, is_byte x -> is_byte y -> is_byte (x ||| y)) as Hor.
  { intros x y Hx Hy. unfold in_uint in *. split; [apply Z.lor_nonneg; lia|].
    destruct (Z.eq_dec (x ||| y) 0) as [->|]; [done|]. apply Z.log2_lt_pow2.
    - pose proof (proj2 (Z.lor_nonneg x y) ltac:(lia)). lia.
    - rewrite Z.log2_lor by lia. apply Z.max_lub_lt.
      + destruct (Z.eq_dec x 0) as [->|]; [done|]. apply Z.log2_lt_pow2; lia.
      + destruct (Z.eq_dec y 0) as [->|]; [done|]. apply Z.log2_lt_pow2; lia. }
  rewrite !Ht by auto. rewrite !Z.lor_spec.
  by destruct (Z.testbit a 7), (Z.testbit b 7), (Z.testbit c 7).
Qed.

(** The parser of [DecodeEntry], on three varints. *)
Lemma decode_head a b c rest :
  in_uint 32 a -> in_uint 32 b -> in_uint 32 c -> Forall is_byte rest ->
  match varint a ++ varint b ++ varint c ++ rest with
  | b0 :: b1 :: b2 :: rest' =>
      if (b0 ||| b1 ||| b2) <? 128 then Some (b0, b1, b2, rest')
      else
        '(shared, s) ← GetVarint32Ptr (varint a ++ varint b ++ varint c ++ rest);
        '(non_shared, s) ← GetVarint32Ptr s;
        '(value_length, s) ← GetVarint32Ptr s;
        Some (shared, non_shared, value_length, s)
  | _ => None
  end = Some (a, b, c, rest).
Proof.
  intros Ha Hb Hc Hr.
  assert (forall v, in_uint 32 v -> Forall is_byte (varint v)) as Hvb
    by (intros v Hv; by apply varint_bytes, uint32_64).
  assert (Forall is_byte (varint a ++ varint b ++ varint c ++ rest)) as Hall
    by (rewrite !Forall_app; auto).
  pose proof (GetVarint32_varint a (varint b ++ varint c ++ rest) Ha ltac:(rewrite !Forall_app; auto)) as Ga.
  pose proof (GetVarint32_varint b (varint c ++ rest) Hb ltac:(rewrite !Forall_app; auto)) as Gb.
  pose proof (GetVarint32_varint c rest Hc Hr) as Gc. unfold GetVarint32 in Ga, Gb, Gc.
  rewrite Ga. cbn [mbind option_bind]. rewrite Gb. cbn [mbind option_bind]. rewrite Gc. cbn [mbind option_bind].
  destruct (varint a ++ varint b ++ varint c ++ rest) as [|b0 [|b1 [|b2 r]]] eqn:E.
  1-3: exfalso; apply (f_equal length) in E; rewrite !length_app in E; simpl in E;
    pose proof (varint_length a); pose proof (varint_length b); pose proof (varint_length c); lia.
  rewrite !Forall_cons in Hall. destruct Hall as (H0 & H1 & H2 & _).
  rewrite lor_lt_128 by done.
  destruct (Z.ltb_spec b0 128) as [L0|]; [|done]. destruct (Z.ltb_spec b1 128) as [L1|]; [|done].
  destruct (Z.ltb_spec b2 128) as [L2|]; [|done]. cbn [andb].
  apply varint_first in E as (_ & -> & E); [|by apply uint32_64|done].
  symmetry in E. apply varint_first in E as (_ & -> & E); [|by apply uint32_64|done].
  symmetry in E. apply varint_first in E as (_ & -> & ->); [done|by apply uint32_64|done].
Qed.

(** * The steps of the iterator *)
Section Rep.
Context (xs : list item) (ms : list nat) (Hrep : block_rep xs ms).

#[local] Notation data := (block_contents xs ms).
#[local] Notation off := (item_off xs).
#[local] Notation stop := (item_off xs (length xs)).

Lemma rep_item_bytes i x : xs !! i = Some x -> Forall is_byte (i_key x) /\ Forall is_byte (i_value x).
Proof. intros Hx. exact (proj1 (Forall_lookup _ _) (rep_bytes _ _ Hrep) i x Hx). Qed.

Lemma rep_shared i x : xs !! i = Some x -> (i_shared x <= length (i_key x))%nat.
Proof.
  intros Hx. destruct i as [|i]; [apply (rep_first _ _ Hrep x Hx)|].
  destruct (lookup_lt_is_Some_2 xs i) as [y Hy]; [apply lookup_lt_Some in Hx; lia|].
  apply (rep_next _ _ Hrep i y x Hy Hx).
Qed.

Lemma rep_off_bound i : 0 <= off i < 2 ^ 32.
Proof.
  pose proof (item_off_le xs i). pose proof (rep_size _ _ Hrep) as Hs.
  rewrite block_contents_length in Hs. unfold item_off in *. lia.
Qed.

(** A key is no longer than the entries up to it. *)
Lemma rep_key_le i x : xs !! i = Some x -> zlen (i_key x) <= off (S i).
Proof.
  revert x. induction i as [|i IH]; intros x Hx;
    rewrite (item_off_S _ _ _ Hx), item_bytes_length, length_drop; pose proof (item_head_length x).
  - destruct (rep_first _ _ Hrep x Hx) as (Hs & _ & _). simpl in Hs. rewrite item_off_0. lia.
  - destruct (lookup_lt_is_Some_2 xs i) as [y Hy]; [apply lookup_lt_Some in Hx; lia|].
    destruct (rep_next _ _ Hrep i y x Hy Hx) as (Hs & _ & _). specialize (IH y Hy). lia.
Qed.

Lemma rep_sizes i x : xs !! i = Some x ->
  zlen (i_key x) < 2 ^ 32 /\ zlen (i_value x) < 2 ^ 32
  /\ off (S i) = off i + zlen (item_head x) + (zlen (i_key x) - Z.of_nat (i_shared x)) + zlen (i_value x)
  /\ off (S i) <= stop.
Proof.
  intros Hx. pose proof (rep_key_le i x Hx). pose proof (rep_off_bound (S i)). pose proof (rep_off_bound i).
  pose proof (item_off_le xs (S i)). pose proof (rep_shared i x Hx). pose proof (item_head_length x).
  assert (off (S i) = off i + zlen (item_head x) + (zlen (i_key x) - Z.of_nat (i_shared x)) + zlen (i_value x)).
  { rewrite (item_off_S _ _ _ Hx), item_bytes_length, length_drop. lia. }
  split_and!; lia.
Qed.

(** The block from an entry on. *)
Lemma data_split i x : xs !! i = Some x ->
  exists pre post, data = pre ++ item_bytes_of x ++ post /\ zlen pre = off i
    /\ item_bytes_of x ++ take (Z.to_nat (stop - off (S i))) post
       = take (Z.to_nat (stop - off i)) (drop (Z.to_nat (off i)) data).
Proof.
  intros Hx. unfold block_contents, items_bytes.
  set (tail := concat (map EncodeFixed32 _) ++ _).
  exists (items_bytes (take i xs)), (items_bytes (drop (S i) xs) ++ tail).
  assert (concat (map item_bytes_of xs)
          = items_bytes (take i xs) ++ item_bytes_of x ++ items_bytes (drop (S i) xs)) as Es.
  { rewrite <- (take_drop_middle xs i x Hx) at 1. by rewrite map_app, concat_app. }
  split_and!; [by rewrite Es, <- !app_assoc|done|].
  assert (stop = off (S i) + zlen (items_bytes (drop (S i) xs))) as Et.
  { rewrite item_off_total. unfold items_bytes at 1. rewrite Es, !zlen_app, (item_off_S _ _ _ Hx).
    unfold item_off. lia. }
  rewrite Es, <- !app_assoc. rewrite (drop_app_length' (items_bytes (take i xs))) by (unfold item_off; lia).
  pose proof (item_off_S _ _ _ Hx) as E.
  rewrite (take_app_length' (items_bytes (drop (S i) xs)) tail) by lia.
  rewrite (app_assoc (item_bytes_of x)). rewrite take_app_length'; [done|rewrite length_app; lia].
Qed.

(** Where the value of an entry is. *)
Definition value_off (i : nat) (x : item) : Z :=
  off i + zlen (item_head x) + (zlen (i_key x) - Z.of_nat (i_shared x)).

Lemma rep_data_bytes : Forall is_byte data.
Proof.
  unfold block_contents, items_bytes. rewrite !Forall_app. split_and!.
  - apply Forall_concat, (proj2 (Forall_map _ _ _)), Forall_lookup. intros i x Hx.
    destruct (rep_item_bytes i x Hx) as [Hk Hv]. destruct (rep_sizes i x Hx) as (Sk & Sv & _).
    pose proof (rep_shared i x Hx).
    unfold item_bytes_of, item_head. rewrite !Forall_app.
    split_and!; try (apply varint_bytes; unfold in_uint; lia); [by apply Forall_drop|done].
  - apply Forall_concat, (proj2 (Forall_map _ _ _)), Forall_forall. intros. apply EncodeFixed32_bytes.
  - apply EncodeFixed32_bytes.
Qed.

Lemma stop_le : stop + 4 <= zlen data.
Proof. rewrite block_contents_length. lia. Qed.

Lemma DecodeEntry_item i x : xs !! i = Some x ->
  DecodeEntry data (off i) stop
  = Some (Z.of_nat (i_shared x), zlen (i_key x) - Z.of_nat (i_shared x), zlen (i_value x),
          off i + zlen (item_head x)).
Proof.
  intros Hx. destruct (data_split i x Hx) as (pre & post & _ & _ & Et).
  destruct (rep_sizes i x Hx) as (Hk & Hv & Hs & Hle). pose proof (rep_shared i x Hx).
  pose proof (item_head_length x). pose proof (rep_off_bound i). pose proof (rep_off_bound (S i)).
  pose proof stop_le. pose proof (rep_off_bound (length xs)).
  unfold DecodeEntry. rewrite (proj2 (Z.ltb_ge _ _)) by lia. cbv zeta.
  assert (Forall is_byte (take (Z.to_nat (stop - off i)) (drop (Z.to_nat (off i)) data))) as Hb
    by (apply Forall_take, Forall_drop, rep_data_bytes).
  assert (zlen (take (Z.to_nat (stop - off i)) (drop (Z.to_nat (off i)) data)) = stop - off i) as El
    by (rewrite length_take, length_drop; lia).
  rewrite <- Et in *. unfold item_bytes_of, item_head in Hb, El |- *. rewrite <- !app_assoc in *.
  set (rest := drop (i_shared x) (i_key x) ++ i_value x ++ _) in *.
  rewrite !Forall_app in Hb. destruct Hb as (_ & _ & _ & Hb).
  rewrite decode_head; [|unfold in_uint; lia..|done]. cbn [mbind option_bind].
  assert (stop - zlen rest = off i + zlen (item_head x)) as ->.
  { unfold item_head. rewrite !zlen_app in *. lia. }
  rewrite !u32_small by (unfold in_uint; lia). rewrite (proj2 (Z.ltb_ge _ _)) by lia. done.
Qed.

Lemma data_bytes off' n : 0 <= off' -> 0 <= n -> off' + n <= zlen data ->
  block_bytes data off' n = Some (take (Z.to_nat n) (drop (Z.to_nat off') data)).
Proof.
  intros. unfold block_bytes. by rewrite !(proj2 (Z.leb_le _ _)) by lia.
Qed.

(** The part of the key that is stored, and the value. *)
Lemma item_key_bytes i x : xs !! i = Some x ->
  block_bytes data (off i + zlen (item_head x)) (zlen (i_key x) - Z.of_nat (i_shared x))
  = Some (drop (i_shared x) (i_key x)).
Proof.
  intros Hx. destruct (data_split i x Hx) as (pre & post & Ed & Ep & _).
  destruct (rep_sizes i x Hx) as (_ & _ & Hs & Hle). pose proof (rep_shared i x Hx).
  pose proof stop_le. pose proof (rep_off_bound i). pose proof (item_head_length x).
  rewrite data_bytes by lia. f_equal. rewrite Ed. unfold item_bytes_of. rewrite <- !app_assoc, app_assoc.
  rewrite (drop_app_length' (pre ++ _)) by (rewrite length_app; lia).
  apply take_app_length'. rewrite length_drop. lia.
Qed.

Lemma item_value_bytes i x : xs !! i = Some x ->
  block_bytes data (value_off i x) (zlen (i_value x)) = Some (i_value x).
Proof.
  intros Hx. destruct (data_split i x Hx) as (pre & post & Ed & Ep & _).
  destruct (rep_sizes i x Hx) as (_ & _ & Hs & Hle). pose proof (rep_shared i x Hx).
  pose proof stop_le. pose proof (rep_off_bound i). pose proof (item_head_length x). unfold value_off.
  rewrite data_bytes by lia. f_equal. rewrite Ed. unfold item_bytes_of. rewrite <- !app_assoc.
  rewrite (app_assoc pre), (app_assoc (pre ++ _)).
  rewrite (drop_app_length' ((pre ++ _) ++ _)) by (rewrite !length_app, length_drop; lia).
  apply take_app_length'. lia.
Qed.

(** ** The restart points *)
Definition positions (it : BlockIter) : Prop :=
  bi_restarts it = stop /\ bi_num_restarts it = zlen ms.

Lemma GetRestartPoint_rep it j m :
  positions it -> ms !! j = Some m -> GetRestartPoint data it (Z.of_nat j) = Some (off m).
Proof.
  intros [Er En] Hm. unfold GetRestartPoint. rewrite Er, En.
  pose proof (lookup_lt_Some _ _ _ Hm). pose proof (rep_off_bound (length xs)).
  pose proof (block_contents_length xs ms).
  rewrite (proj2 (Z.ltb_lt _ _)) by lia. rewrite data_bytes by lia. cbn [mbind option_bind].
  assert (DecodeFixed32 (drop (length (items_bytes xs) + 4 * j) data) = Some (off m)) as Hd.
  { apply read_word; [|apply rep_off_bound]. change (map off ms !! j) with ((off <$> ms) !! j).
    by rewrite list_lookup_fmap, Hm. }
  assert (length (items_bytes xs) + 4 * j = Z.to_nat (stop + Z.of_nat j * 4))%nat as E.
  { rewrite item_off_total. lia. }
  rewrite E in Hd. rewrite DecodeFixed32_take in Hd by (rewrite length_drop; lia).
  rewrite DecodeFixed32_take by (rewrite length_take, length_drop; lia).
  change (Z.to_nat 4) with 4%nat. by rewrite take_take, Nat.min_id.
Qed.

Lemma ms_nonempty : (0 < length ms)%nat.
Proof. apply (lookup_lt_Some _ _ _ (rep_restart0 _ _ Hrep)). Qed.

Lemma ms_mono j j' m m' :
  ms !! j = Some m -> ms !! j' = Some m' -> (j < j')%nat -> (m < m')%nat.
Proof.
  intros Hm Hm' Hlt. revert m' Hm'. induction j' as [|j' IH]; intros m' Hm'; [lia|].
  destruct (lookup_lt_is_Some_2 ms j') as [k Hk]; [apply lookup_lt_Some in Hm'; lia|].
  pose proof (rep_restart_lt _ _ Hrep j' k m' Hk Hm').
  destruct (decide (j = j')) as [->|]; [congruence|]. specialize (IH ltac:(lia) k Hk). lia.
Qed.

(** ** Where the iterator is *)

(** The restart index: a restart point not after the entry, and the next one
    not before it. *)
Definition index_for (i : nat) (index : Z) : Prop :=
  exists j m, index = Z.of_nat j /\ ms !! j = Some m /\ (m <= i)%nat
    /\ forall m', ms !! S j = Some m' -> (i <= m')%nat.

(** At entry [i]. *)
Definition at_entry (it : BlockIter) (i : nat) : Prop :=
  exists x, xs !! i = Some x /\ positions it /\ bi_current it = off i /\ bi_key it = i_key x
    /\ bi_value it = Some (value_off i x, zlen (i_value x)) /\ index_for i (bi_restart_index it).

(** About to parse entry [i]. *)
Definition before_entry (it : BlockIter) (i : nat) : Prop :=
  positions it /\ (exists o n, bi_value it = Some (o, n) /\ o + n = off i)
  /\ (exists j m, bi_restart_index it = Z.of_nat j /\ ms !! j = Some m /\ (m <= i)%nat)
  /\ forall x, xs !! i = Some x -> item_after (bi_key it) x.

(** Past the entries. *)
Definition at_end (it : BlockIter) : Prop := positions it /\ bi_current it = stop.

Lemma at_entry_lt it i : at_entry it i -> (i < length xs)%nat.
Proof. intros (x & Hx & _). by apply lookup_lt_Some in Hx. Qed.

Lemma at_entry_next it i :
  at_entry it i -> NextEntryOffset it = Some (off (S i)) /\ before_entry it (S i).
Proof.
  intros (x & Hx & Hp & Hc & Hk & Hv & (j & m & Ej & Hm & Hle & _)).
  destruct (rep_sizes i x Hx) as (_ & _ & Hs & _). pose proof (rep_off_bound (S i)).
  assert (value_off i x + zlen (i_value x) = off (S i)) as E by (unfold value_off; lia). split.
  - unfold NextEntryOffset. rewrite Hv. cbn. rewrite E. by rewrite u32_small.
  - split; [done|]. split; [by eexists _, _|]. split; [exists j, m; split_and!; [done..|lia]|].
    intros y Hy. rewrite Hk. by apply (rep_next _ _ Hrep i).
Qed.

(** The loop over the restart points. *)
Lemma advance_restart_rep n it i j m :
  positions it -> bi_current it = off i -> (i <= length xs)%nat ->
  ms !! j = Some m -> (m <= i)%nat -> (length ms <= j + n)%nat ->
  exists index, advance_restart data n it (Z.of_nat j) = Some index /\ index_for i index.
Proof.
  intros Hp Hc Hi. revert j m. induction n as [|n IH]; intros j m Hm Hle Hn.
  - apply lookup_lt_Some in Hm. lia.
  - cbn [advance_restart]. rewrite (proj2 Hp).
    destruct (Z.ltb_spec (Z.of_nat j + 1) (zlen ms)) as [Hlt|Hge].
    + destruct (lookup_lt_is_Some_2 ms (S j) ltac:(lia)) as [m' Hm'].
      replace (Z.of_nat j + 1) with (Z.of_nat (S j)) by lia.
      rewrite (GetRestartPoint_rep it (S j) m' Hp Hm'). cbn [mbind option_bind]. rewrite Hc.
      pose proof (rep_restart_in _ _ Hrep _ _ Hm') as [Hin _].
      destruct (Z.ltb_spec (off m') (off i)) as [Hl|Hl].
      * apply item_off_lt in Hl; [|done..]. apply (IH (S j) m' Hm'); lia.
      * eexists. split; [done|]. exists j, m. split_and!; [done..|]. intros k Hk.
        assert (k = m') as -> by congruence.
        destruct (Nat.le_gt_cases i m') as [|Hgt]; [done|].
        apply (item_off_lt xs) in Hgt; [lia|done..].
    + eexists. split; [done|]. exists j, m. split_and!; [done..|]. intros k Hk.
      apply lookup_lt_Some in Hk. lia.
Qed.

(** One step: to entry [i], or to the end. *)
Lemma ParseNextKey_rep it i :
  before_entry it i -> (i <= length xs)%nat ->
  exists it', ParseNextKey data it = Some (bool_decide (i < length xs)%nat, it')
    /\ bi_status it' = bi_status it
    /\ if decide (i < length xs)%nat then at_entry it' i else at_end it'.
Proof.
  intros (Hp & (o & n & Hv & Hon) & (j & m & Ej & Hm & Hle) & Hafter) Hi. pose proof Hp as [Er En].
  unfold ParseNextKey, NextEntryOffset. rewrite Hv. cbn [fmap option_fmap option_map fst snd mbind option_bind].
  rewrite Hon, u32_small by apply rep_off_bound. rewrite Er.
  destruct (decide (i < length xs)%nat) as [Hlt|Hge].
  - rewrite bool_decide_eq_true_2 by done. destruct (lookup_lt_is_Some_2 xs i Hlt) as [x Hx].
    destruct (rep_sizes i x Hx) as (Hk & Hvl & Hs & Hlim). pose proof (rep_shared i x Hx).
    pose proof (item_head_length x).
    rewrite (proj2 (Z.leb_gt _ _)) by lia. rewrite (DecodeEntry_item i x Hx).
    destruct (Hafter x Hx) as (A1 & A2 & A3). rewrite (proj2 (Z.ltb_ge _ _)) by lia.
    rewrite (item_key_bytes i x Hx). cbn [mbind option_bind].
    rewrite Nat2Z.id, A3, take_drop. cbn [bi_num_restarts bi_set]. rewrite Ej.
    set (it1 := bi_set it _ _ _ _).
    destruct (advance_restart_rep (Z.to_nat (bi_num_restarts it)) it1 i j m) as (index & E & Hidx);
      [done|done|done|done|done|rewrite En; lia|].
    change (bi_restart_index it1) with (Z.of_nat j). rewrite E. cbn [mbind option_bind].
    eexists. split; [done|]. split; [done|].
    exists x. by split_and!.
  - rewrite bool_decide_eq_false_2 by done. assert (i = length xs) as -> by lia.
    rewrite (proj2 (Z.leb_le _ _)) by lia. eexists. split; [done|]. by split.
Qed.

Lemma SeekToRestartPoint_rep it j m :
  positions it -> ms !! j = Some m ->
  exists it', SeekToRestartPoint data it (Z.of_nat j) = Some it' /\ bi_status it' = bi_status it
    /\ before_entry it' m.
Proof.
  intros Hp Hm. unfold SeekToRestartPoint. rewrite (GetRestartPoint_rep it j m Hp Hm).
  cbn [mbind option_bind]. eexists. split; [done|]. split; [done|]. split; [done|].
  split; [exists (off m), 0; split; [done|lia]|]. split; [by exists j, m|].
  intros x Hx. pose proof (rep_restart _ _ Hrep j m x Hm Hx) as E. unfold item_after. rewrite E.
  split_and!; [simpl; lia|lia|done].
Qed.
End Rep.

(** * The iterator and the builder *)

Section Iterate.
Context (xs : list item) (ms : list nat) (Hrep : block_rep xs ms).

#[local] Notation data := (block_contents xs ms).
#[local] Notation off := (item_off xs).
#[local] Notation stop := (item_off xs (length xs)).

(** At an entry if there is one of the index, and at the end otherwise. *)
Definition at_index (it : BlockIter) (i : nat) : Prop :=
  if decide (i < length xs)%nat then at_entry xs ms it i else at_end xs ms it.

Lemma index_le_off i : (i <= length xs)%nat -> Z.of_nat i <= off i.
Proof.
  intros Hi. destruct i as [|i]; [rewrite item_off_0; lia|].
  assert (forall i, (i <= length xs)%nat -> 3 * Z.of_nat i <= off i) as H.
  { clear -xs. induction i as [|i IH]; intros Hi; [rewrite item_off_0; lia|].
    pose proof (item_off_mono xs i (S i) ltac:(lia) Hi). specialize (IH ltac:(lia)). lia. }
  specialize (H _ Hi). lia.
Qed.

Lemma at_index_positions it i : at_index it i -> positions xs ms it.
Proof. unfold at_index. destruct (decide _); [by intros (x & _ & ? & _)|by intros [? _]]. Qed.

Lemma at_index_valid it i : at_index it i -> BlockIter_Valid it = bool_decide (i < length xs)%nat.
Proof.
  unfold at_index, BlockIter_Valid. destruct (decide _) as [Hlt|Hge].
  - intros (x & Hx & [Hr _] & Hc & _). rewrite Hr, Hc, bool_decide_eq_true_2 by done.
    apply Z.ltb_lt. by apply (item_off_lt xs); [lia..|].
  - intros [[Hr _] Hc]. rewrite Hr, Hc, bool_decide_eq_false_2 by done. apply Z.ltb_irrefl.
Qed.

Lemma BlockIter_key_rep it i x :
  at_index it i -> xs !! i = Some x ->
  BlockIter_key it = Some (i_key x) /\ BlockIter_value data it = Some (i_value x).
Proof.
  intros Ha Hx. pose proof (lookup_lt_Some _ _ _ Hx) as Hlt.
  unfold BlockIter_key, BlockIter_value. rewrite (at_index_valid it i Ha), bool_decide_eq_true_2 by done.
  unfold at_index in Ha. rewrite decide_True in Ha by done.
  destruct Ha as (y & Hy & _ & _ & -> & -> & _). assert (y = x) as -> by congruence. split; [done|].
  cbn [mbind option_bind]. exact (item_value_bytes xs ms Hrep i x Hx).
Qed.

(** A parsing step, as far as [at_index]. *)
Lemma parse_at it i :
  before_entry xs ms it i -> (i <= length xs)%nat ->
  exists it', ParseNextKey data it = Some (bool_decide (i < length xs)%nat, it')
    /\ bi_status it' = bi_status it /\ at_index it' i.
Proof. intros Hb Hi. destruct (ParseNextKey_rep xs ms Hrep it i Hb Hi) as (it' & H). by exists it'. Qed.

Lemma restart0_before it :
  positions xs ms it ->
  exists it', SeekToRestartPoint data it 0 = Some it' /\ bi_status it' = bi_status it
    /\ before_entry xs ms it' 0.
Proof. intros Hp. apply (SeekToRestartPoint_rep xs ms Hrep it 0 0 Hp). apply (rep_restart0 _ _ Hrep). Qed.

Lemma SeekToFirst_rep it :
  positions xs ms it ->
  exists it', BlockIter_SeekToFirst data it = Some it' /\ bi_status it' = bi_status it /\ at_index it' 0.
Proof.
  intros Hp. destruct (restart0_before it Hp) as (it1 & E1 & S1 & B1).
  destruct (parse_at it1 0 B1 ltac:(lia)) as (it2 & E2 & S2 & A2).
  exists it2. unfold BlockIter_SeekToFirst. rewrite E1. cbn [mbind option_bind]. rewrite E2.
  split_and!; [done|congruence|done].
Qed.

Lemma Next_rep it i :
  at_index it i -> (i < length xs)%nat ->
  exists it', BlockIter_Next data it = Some it' /\ bi_status it' = bi_status it /\ at_index it' (S i).
Proof.
  intros Ha Hlt. unfold BlockIter_Next. rewrite (at_index_valid it i Ha), bool_decide_eq_true_2 by done.
  unfold at_index in Ha. rewrite decide_True in Ha by done.
  destruct (at_entry_next xs ms Hrep it i Ha) as [_ B].
  destruct (parse_at it (S i) B ltac:(lia)) as (it2 & E2 & S2 & A2). exists it2. by rewrite E2.
Qed.

(** The loop of [Prev] and [SeekToLast]: to the entry before a bound. *)
Lemma parse_until_rep n it i b :
  before_entry xs ms it i -> (i < b <= length xs)%nat -> (b - i <= n)%nat ->
  exists it', parse_until data n it (off b) = Some it' /\ bi_status it' = bi_status it
    /\ at_index it' (b - 1).
Proof.
  revert it i. induction n as [|n IH]; intros it i Hb Hi Hn; [lia|]. cbn [parse_until].
  destruct (parse_at it i Hb ltac:(lia)) as (it1 & E1 & S1 & A1). rewrite E1.
  rewrite bool_decide_eq_true_2 by lia. cbn [mbind option_bind].
  pose proof A1 as A1'. unfold at_index in A1'. rewrite decide_True in A1' by lia.
  destruct (at_entry_next xs ms Hrep it1 i A1') as [-> B1]. cbn [mbind option_bind].
  destruct (Z.ltb_spec (off (S i)) (off b)) as [Hlt|Hge].
  - apply item_off_lt in Hlt; [|lia..]. destruct (IH it1 (S i) B1) as (it2 & E2 & S2 & A2); [lia|lia|].
    exists it2. split_and!; [done|congruence|done].
  - assert (b = S i) as ->.
    { destruct (Nat.lt_ge_cases (S i) b) as [Hlt|]; [|lia].
      apply (item_off_lt xs) in Hlt; [lia..]. }
    exists it1. replace (S i - 1)%nat with i by lia. done.
Qed.

Lemma last_restart : exists m, ms !! (length ms - 1)%nat = Some m /\ (m <= length xs)%nat.
Proof.
  pose proof (ms_nonempty xs ms Hrep).
  destruct (lookup_lt_is_Some_2 ms (length ms - 1) ltac:(lia)) as [m Hm].
  exists m. split; [done|]. apply (rep_restart_in _ _ Hrep _ _ Hm).
Qed.

Lemma num_restarts_range : 1 <= zlen ms < 2 ^ 30.
Proof.
  pose proof (ms_nonempty xs ms Hrep). pose proof (rep_size _ _ Hrep) as Hs.
  rewrite block_contents_length in Hs. pose proof (rep_off_bound xs ms Hrep (length xs)). lia.
Qed.

Lemma SeekToLast_rep it :
  positions xs ms it ->
  exists it', BlockIter_SeekToLast data it = Some it' /\ bi_status it' = bi_status it
    /\ at_index it' (length xs - 1).
Proof.
  intros Hp. unfold BlockIter_SeekToLast. rewrite (proj2 Hp).
  pose proof num_restarts_range. destruct last_restart as (m & Hm & Hle).
  replace (u32 (zlen ms - 1)) with (Z.of_nat (length ms - 1)) by (rewrite u32_small; unfold in_uint; lia).
  destruct (SeekToRestartPoint_rep xs ms Hrep it _ m Hp Hm) as (it1 & E1 & S1 & B1).
  rewrite E1. cbn [mbind option_bind]. pose proof B1 as ([Hr _] & _). rewrite Hr.
  assert (m < length xs \/ m = length xs)%nat as [Hlt|Em] by lia.
  - destruct (parse_until_rep (S (Z.to_nat stop)) it1 m (length xs) B1) as (it2 & E2 & S2 & A2);
      [lia|pose proof (index_le_off (length xs) ltac:(lia)); lia|].
    exists it2. split_and!; [done|congruence|done].
  - subst m. (* only without entries *)
    assert (length xs = 0)%nat as E0.
    { destruct (length ms - 1)%nat as [|j] eqn:Ej.
      - pose proof (rep_restart0 _ _ Hrep). congruence.
      - destruct (rep_restart_in _ _ Hrep _ _ Hm) as [_ Hin]. specialize (Hin ltac:(lia)). lia. }
    cbn [parse_until]. destruct (parse_at it1 (length xs) B1 ltac:(lia)) as (it2 & E2 & S2 & A2).
    rewrite E2. rewrite bool_decide_eq_false_2 by lia. cbn [mbind option_bind].
    exists it2. split; [done|]. split; [congruence|]. by rewrite E0 in *.
Qed.

(** The loop of [Prev] over the restart points. *)
Lemma restart_before_rep n it i j m :
  positions xs ms it -> (i < length xs)%nat -> ms !! j = Some m -> (j <= n)%nat ->
  exists r, restart_before data n it (off i) (Z.of_nat j) = Some r
    /\ match r with
       | None => i = 0%nat
       | Some index => exists j' m', index = Z.of_nat j' /\ ms !! j' = Some m' /\ (m' < i)%nat
       end.
Proof.
  intros Hp Hi. revert j m. induction n as [|n IH]; intros j m Hm Hn; cbn [restart_before];
    rewrite (GetRestartPoint_rep xs ms Hrep it j m Hp Hm); cbn [mbind option_bind];
    pose proof (rep_restart_in _ _ Hrep _ _ Hm) as [Hin _].
  - assert (j = 0)%nat as -> by lia. pose proof (rep_restart0 _ _ Hrep) as H0.
    assert (m = 0)%nat as -> by congruence.
    destruct (Z.leb_spec (off i) (off 0)) as [Hle|Hgt].
    + exists None. split; [done|]. destruct i; [done|].
      pose proof (item_off_mono xs 0 (S i)). lia.
    + exists (Some (Z.of_nat 0)). split; [done|]. exists 0%nat, 0%nat. split_and!; [done..|].
      apply item_off_lt in Hgt; lia.
  - destruct (Z.leb_spec (off i) (off m)) as [Hle|Hgt].
    + destruct j as [|j]; cbn [Z.of_nat Z.eqb].
      * pose proof (rep_restart0 _ _ Hrep) as H0. assert (m = 0)%nat as -> by congruence.
        exists None. split; [done|]. destruct i; [done|].
        pose proof (item_off_mono xs 0 (S i)). lia.
      * destruct (Z.eqb_spec (Z.of_nat (S j)) 0); [lia|].
        destruct (lookup_lt_is_Some_2 ms j) as [m' Hm']; [apply lookup_lt_Some in Hm; lia|].
        replace (Z.of_nat (S j) - 1) with (Z.of_nat j) by lia. apply (IH j m' Hm'). lia.
    + eexists. split; [done|]. exists j, m. split_and!; [done..|].
      apply item_off_lt in Hgt; lia.
Qed.

Lemma Prev_rep it i :
  at_index it i -> (i < length xs)%nat ->
  exists it', BlockIter_Prev data it = Some it' /\ bi_status it' = bi_status it
    /\ match i with O => at_end xs ms it' | S j => at_index it' j end.
Proof.
  intros Ha Hlt. unfold BlockIter_Prev. rewrite (at_index_valid it i Ha), bool_decide_eq_true_2 by done.
  unfold at_index in Ha. rewrite decide_True in Ha by done.
  destruct Ha as (x & Hx & Hp & Hc & _ & _ & (j & m & Ej & Hm & _)). cbv zeta. rewrite Hc, Ej.
  destruct (restart_before_rep (Z.to_nat (Z.of_nat j)) it i j m Hp Hlt Hm ltac:(lia)) as (r & -> & Hr).
  cbn [mbind option_bind]. destruct r as [index|].
  - destruct Hr as (j' & m' & -> & Hm' & Hlt').
    destruct (SeekToRestartPoint_rep xs ms Hrep it j' m' Hp Hm') as (it1 & E1 & S1 & B1).
    rewrite E1. cbn [mbind option_bind]. pose proof B1 as ([Hr _] & _). rewrite Hr.
    destruct (parse_until_rep (S (Z.to_nat stop)) it1 m' i B1) as (it2 & E2 & S2 & A2);
      [lia|pose proof (index_le_off (length xs) ltac:(lia)); lia|].
    exists it2. destruct i as [|i]; [lia|]. replace (S i - 1)%nat with i in A2 by lia.
    split_and!; [done|congruence|done].
  - subst i. eexists. split; [done|]. split; [done|]. split; [done|]. apply Hp.
Qed.
End Iterate.

(** * Seek *)
Section Seek.
Context {C : Comparator} {valid : bytes -> Prop} {order : bytes -> bytes -> Z}
  {CL : CompareLaw Compare valid order}.
Context (xs : list item) (ms : list nat) (Hrep : block_rep xs ms).
Context (Hvalid : Forall (fun x => valid (i_key x)) xs).

#[local] Notation data := (block_contents xs ms).
#[local] Notation off := (item_off xs).
#[local] Notation stop := (item_off xs (length xs)).

(** The keys ascend. *)
Definition keys_ascend (l : list item) : Prop :=
  forall i x y, l !! i = Some x -> l !! S i = Some y -> order (i_key x) (i_key y) < 0.

(** [i] is where [target] belongs. *)
Definition splits (target : bytes) (i : nat) : Prop :=
  forall j x, xs !! j = Some x -> order (i_key x) target < 0 <-> (j < i)%nat.

Lemma key_valid i x : xs !! i = Some x -> valid (i_key x).
Proof. exact (proj1 (Forall_lookup _ _) Hvalid i x). Qed.

Lemma keys_below target i x j y :
  keys_ascend xs -> valid target -> xs !! i = Some x -> xs !! j = Some y -> (j <= i)%nat ->
  order (i_key x) target < 0 -> order (i_key y) target < 0.
Proof.
  intros Hasc Ht Hx Hy Hji. remember (i - j)%nat as d eqn:Ed.
  revert j y Hy Hji Ed. induction d as [|d IH]; intros j y Hy Hji Ed Hlt.
  - replace i with j in Hx by lia. congruence.
  - destruct (lookup_lt_is_Some_2 xs (S j)) as [z Hz]; [apply lookup_lt_Some in Hx; lia|].
    apply (order_lt_trans (compare := Compare) (i_key y) (i_key z) target);
      [by eapply key_valid|by eapply key_valid|done|by apply (Hasc j)|].
    apply (IH (S j) z Hz); [lia|lia|done].
Qed.

(** The binary search ends at a restart point before [target], or the first. *)
Lemma seek_restart_rep n it target left right :
  positions xs ms it -> valid target ->
  (left <= right < length ms)%nat -> (right - left <= n)%nat ->
  (left = 0%nat \/ exists m x, ms !! left = Some m /\ xs !! m = Some x /\ order (i_key x) target < 0) ->
  exists j, seek_restart data n it target (Z.of_nat left) (Z.of_nat right) = Some (Some (Z.of_nat j))
    /\ (j < length ms)%nat
    /\ (j = 0%nat \/ exists m x, ms !! j = Some m /\ xs !! m = Some x /\ order (i_key x) target < 0).
Proof.
  intros Hp Ht. pose proof (num_restarts_range xs ms Hrep) as Hnr.
  revert left right. induction n as [|n IH]; intros left right Hr Hn Hl; cbn [seek_restart].
  - rewrite (proj2 (Z.ltb_ge _ _)) by lia. exists left. split_and!; [done|lia|done].
  - destruct (Z.ltb_spec (Z.of_nat left) (Z.of_nat right)) as [Hlt|Hge].
    2: { exists left. split_and!; [done|lia|done]. }
    rewrite u32_small by (unfold in_uint; lia).
    destruct (Z_of_nat_complete ((Z.of_nat left + Z.of_nat right + 1) / 2)) as [mid Emid];
      [apply Z.div_pos; lia|]. rewrite Emid.
    assert (left < mid <= right)%nat as Hmid by (Z.to_euclidean_division_equations; lia).
    destruct (lookup_lt_is_Some_2 ms mid ltac:(lia)) as [m Hm].
    rewrite (GetRestartPoint_rep xs ms Hrep it mid m Hp Hm). cbn [mbind option_bind].
    pose proof (rep_restart_in _ _ Hrep _ _ Hm) as [_ Hin]. specialize (Hin ltac:(lia)).
    destruct (lookup_lt_is_Some_2 xs m Hin) as [x Hx].
    rewrite (proj1 Hp), (DecodeEntry_item xs ms Hrep m x Hx).
    pose proof (item_key_bytes xs ms Hrep m x Hx) as Hkb.
    rewrite (rep_restart _ _ Hrep mid m x Hm Hx) in *. change (drop 0 (i_key x)) with (i_key x) in Hkb.
    change (Z.of_nat 0 =? 0) with true. cbv iota. rewrite Hkb. cbn [mbind option_bind].
    rewrite (Compare_order (compare := Compare)) by (done || by eapply key_valid). cbn [mbind option_bind].
    destruct (Z.ltb_spec (order (i_key x) target) 0) as [Hc|Hc].
    + apply IH; [lia|lia|]. right. by exists m, x.
    + replace (Z.of_nat mid - 1) with (Z.of_nat (mid - 1)) by lia. apply IH; [lia|lia|done].
Qed.

(** The linear search: all keys before [i] are known to be smaller. *)
Lemma scan_to_rep n it target i :
  keys_ascend xs -> valid target -> before_entry xs ms it i -> (i <= length xs)%nat ->
  (length xs - i < n)%nat ->
  (forall j x, xs !! j = Some x -> (j < i)%nat -> order (i_key x) target < 0) ->
  exists it' k, scan_to data n it target = Some it' /\ bi_status it' = bi_status it
    /\ (k <= length xs)%nat /\ at_index xs ms it' k /\ splits target k.
Proof.
  intros Hasc Ht. revert it i. induction n as [|n IH]; intros it i Hb Hi Hn Hlow; [lia|].
  cbn [scan_to]. destruct (parse_at xs ms Hrep it i Hb Hi) as (it1 & E1 & S1 & A1).
  rewrite E1. cbn [mbind option_bind]. destruct (decide (i < length xs)%nat) as [Hlt|Hge].
  - rewrite bool_decide_eq_true_2 by done. pose proof A1 as A1'. unfold at_index in A1'.
    rewrite decide_True in A1' by done. pose proof A1' as (x & Hx & _ & _ & Hk & _).
    rewrite Hk, (Compare_order (compare := Compare)) by (done || by eapply key_valid).
    cbn [mbind option_bind]. destruct (Z.leb_spec 0 (order (i_key x) target)) as [Hc|Hc].
    + exists it1, i. split_and!; [done..|]. intros j y Hy. split; [|by apply Hlow].
      intros Hyt. destruct (Nat.lt_ge_cases j i) as [|Hji]; [done|].
      pose proof (keys_below target j y i x Hasc Ht Hy Hx Hji Hyt). lia.
    + destruct (at_entry_next xs ms Hrep it1 i A1') as [_ B1].
      destruct (IH it1 (S i) B1) as (it2 & k & E2 & S2 & H2); [lia|lia| |].
      * intros j y Hy Hj. destruct (decide (j = i)) as [->|]; [congruence|]. apply (Hlow j y Hy). lia.
      * exists it2, k. split_and!; [done|congruence|apply H2..].
  - rewrite bool_decide_eq_false_2 by done. exists it1, i. split_and!; [done..|].
    intros j y Hy. pose proof (lookup_lt_Some _ _ _ Hy). split; [lia|]. intros _. apply (Hlow j y Hy). lia.
Qed.

Lemma Seek_rep it target :
  keys_ascend xs -> valid target -> positions xs ms it ->
  exists it' k, BlockIter_Seek data it target = Some it' /\ bi_status it' = bi_status it
    /\ (k <= length xs)%nat /\ at_index xs ms it' k /\ splits target k.
Proof.
  intros Hasc Ht Hp. pose proof (num_restarts_range xs ms Hrep).
  unfold BlockIter_Seek. rewrite (proj2 Hp).
  replace (u32 (zlen ms - 1)) with (Z.of_nat (length ms - 1)) by (rewrite u32_small; unfold in_uint; lia).
  destruct (seek_restart_rep (Z.to_nat (zlen ms)) it target 0 (length ms - 1) Hp Ht) as (j & E & Hj & Hlow);
    [lia|lia|by left|]. change (Z.of_nat 0) with 0 in E. rewrite E. cbn [mbind option_bind].
  destruct (lookup_lt_is_Some_2 ms j Hj) as [m Hm].
  destruct (SeekToRestartPoint_rep xs ms Hrep it j m Hp Hm) as (it1 & E1 & S1 & B1).
  rewrite E1. cbn [mbind option_bind]. pose proof B1 as ([Hr _] & _). rewrite Hr.
  pose proof (rep_restart_in _ _ Hrep _ _ Hm) as [Hin _].
  destruct (scan_to_rep (S (Z.to_nat stop)) it1 target m Hasc Ht B1 Hin) as (it2 & k & E2 & S2 & H2).
  - pose proof (index_le_off xs (length xs) ltac:(lia)). lia.
  - intros i x Hx Hi. destruct Hlow as [->|(m' & y & Hm' & Hy & Hlt)].
    + pose proof (rep_restart0 _ _ Hrep). assert (m = 0)%nat by congruence. lia.
    + assert (m' = m) as -> by congruence.
      apply (keys_below target m y i x); [done..|lia|done].
  - exists it2, k. split_and!; [done|congruence|apply H2..].
Qed.
End Seek.

(** * The builder *)

(** The prefix the builder shares. *)
Lemma common_prefix_ok a b :
  (common_prefix a b <= length a)%nat /\ (common_prefix a b <= length b)%nat
  /\ take (common_prefix a b) a = take (common_prefix a b) b.
Proof.
  revert b. induction a as [|x a IH]; intros [|y b]; simpl; try (split_and!; (lia || done)).
  destruct (Z.eqb_spec x y) as [->|]; [|simpl; split_and!; (lia || done)].
  destruct (IH b) as (H1 & H2 & H3). simpl. split_and!; [lia|lia|by rewrite H3].
Qed.

Section Build.
Context {C : Comparator} {valid : bytes -> Prop} {order : bytes -> bytes -> Z}
  {CL : CompareLaw Compare valid order}.
Context (interval : Z) (Hinterval : 1 <= interval).

Definition item_kv (x : item) : bytes * bytes := (i_key x, i_value x).

(** The builder after the items, with its restart points. *)
Record builder_holds (b : BlockBuilder) (xs : list item) (ms : list nat) : Prop := {
  bh_buffer : buffer_ b = items_bytes xs;
  bh_restarts : restarts_ b = map (fun m => u32 (item_off xs m)) ms;
  bh_finished : finished_ b = false;
  bh_last : last_key_ b = default [] (i_key <$> last xs);
  bh_counter : 0 <= counter_ b <= interval
    /\ exists m, last ms = Some m /\ counter_ b = zlen xs - Z.of_nat m;
  bh_wf : items_wf xs ms
}.

Lemma builder_holds_new : builder_holds BlockBuilder_Reset [] [0%nat].
Proof.
  split; try done.
  - split; [simpl; lia|]. exists 0%nat. done.
  - split; [constructor|done|done|done|done|..].
    + intros [|j] m Hm; [|done]. injection Hm as <-. simpl. split; lia.
    + intros [|j] m m' H1 H2; done.
Qed.

Lemma items_empty xs : (zlen (items_bytes xs) =? 0) = bool_decide (xs = []).
Proof.
  destruct xs as [|x xs]; [done|]. rewrite bool_decide_eq_false_2 by done.
  unfold items_bytes. cbn [map concat]. rewrite zlen_app, item_bytes_length.
  pose proof (item_head_length x). apply Z.eqb_neq. lia.
Qed.

Lemma items_bytes_snoc xs x : items_bytes (xs ++ [x]) = items_bytes xs ++ item_bytes_of x.
Proof. unfold items_bytes. rewrite map_app, concat_app. cbn [map concat]. by rewrite app_nil_r. Qed.

(** Offsets do not change when an item is added behind. *)
Lemma item_off_app xs ys m : (m <= length xs)%nat -> item_off (xs ++ ys) m = item_off xs m.
Proof. intros Hm. unfold item_off. by rewrite take_app_le. Qed.

Lemma items_wf_snoc xs ms x restart :
  items_wf xs ms -> Forall is_byte (i_key x) -> Forall is_byte (i_value x) ->
  item_after (default [] (i_key <$> last xs)) x ->
  (restart = true -> i_shared x = 0%nat /\ xs <> []) ->
  items_wf (xs ++ [x]) (if restart : bool then ms ++ [length xs] else ms).
Proof.
  intros [W1 W2 W3 W4 W5 W6 W7] Hk Hv Ha Hr.
  assert (forall i y, (xs ++ [x]) !! i = Some y -> xs !! i = Some y \/ i = length xs /\ y = x) as Hcase.
  { intros i y Hy. apply lookup_app_Some in Hy as [Hy|[Hl Hy]]; [by left|].
    apply list_lookup_singleton_Some in Hy as [E <-]. right. split; [lia|done]. }
  split.
  - apply Forall_app. split; [done|]. by repeat constructor.
  - intros y Hy. apply Hcase in Hy as [Hy|[Hl ->]]; [by apply W2|].
    destruct xs; [|done]. exact Ha.
  - intros i y z Hy Hz. apply Hcase in Hz as [Hz|[Hl ->]].
    + apply Hcase in Hy as [Hy|[Hl ->]]; [by apply (W3 i)|]. apply lookup_lt_Some in Hz. lia.
    + apply Hcase in Hy as [Hy|[Hl' ->]]; [|lia].
      assert (last xs = Some y) as E by (rewrite last_lookup, <- Hl; exact Hy).
      by rewrite E in Ha.
  - destruct restart; [|done]. by apply lookup_app_l_Some.
  - intros j m y Hm Hy.
    assert (ms !! j = Some m \/ restart = true /\ m = length xs) as [Hm'|[-> ->]].
    { destruct restart; [|by left]. apply lookup_app_Some in Hm as [Hm|[_ Hm]]; [by left|].
      apply list_lookup_singleton_Some in Hm as [_ <-]. by right. }
    + apply Hcase in Hy as [Hy|[-> ->]]; [by apply (W5 j m)|].
      destruct (W6 j _ Hm') as [_ H]. destruct j as [|j]; [|specialize (H ltac:(lia)); lia].
      assert (length xs = 0)%nat as E0 by congruence. destruct xs; [|done].
      destruct Ha as [Hs _]. simpl in Hs. lia.
    + apply Hcase in Hy as [Hy|[_ ->]]; [apply lookup_lt_Some in Hy; lia|]. by apply Hr.
  - intros j m Hm. rewrite length_app. simpl.
    assert (ms !! j = Some m \/ restart = true /\ m = length xs) as [Hm'|[-> ->]].
    { destruct restart; [|by left]. apply lookup_app_Some in Hm as [Hm|[_ Hm]]; [by left|].
      apply list_lookup_singleton_Some in Hm as [_ <-]. by right. }
    + destruct (W6 j m Hm') as [H1 H2]. split; [lia|]. intros Hj. specialize (H2 Hj). lia.
    + split; [lia|]. lia.
  - destruct restart; [|done]. intros j m m' Hm Hm'.
    apply lookup_app_Some in Hm' as [Hm'|[Hl Hm']].
    + apply (W7 j); [|done]. apply lookup_app_Some in Hm as [Hm|[Hl _]]; [done|].
      apply lookup_lt_Some in Hm'. lia.
    + apply list_lookup_singleton_Some in Hm' as [E <-].
      apply lookup_app_Some in Hm as [Hm|[Hl' Hm]]; [|lia].
      destruct (W6 j m Hm) as [H1 H2]. destruct j as [|j]; [|by apply H2; lia].
      rewrite W4 in Hm. injection Hm as <-. destruct Hr as [_ Hne]; [done|]. destruct xs; [done|simpl; lia].
Qed.

(** Keys and values that fit the length fields. *)
Definition kv_fits (kv : bytes * bytes) : Prop :=
  Forall is_byte kv.1 /\ Forall is_byte kv.2 /\ zlen kv.1 < 2 ^ 32 /\ zlen kv.2 < 2 ^ 32.

(** What [Add] appends for a key of which [shared] bytes are shared. *)
Lemma Add_bytes buf last key value shared :
  kv_fits (key, value) -> (shared <= length key)%nat ->
  (((PutVarint32 (PutVarint32 (PutVarint32 buf (u32 (Z.of_nat shared)))
       (u32 (zlen key - Z.of_nat shared))) (u32 (zlen value)))
    ++ take (Z.to_nat (zlen key - Z.of_nat shared)) (drop shared key)) ++ value
   = buf ++ item_bytes_of {| i_shared := shared; i_key := key; i_value := value |})
  /\ (take shared last = take shared key ->
      take shared last ++ take (Z.to_nat (zlen key - Z.of_nat shared)) (drop shared key) = key).
Proof.
  intros (Hk & Hv & Lk & Lv) Hs. cbn [fst snd] in *.
  rewrite take_ge by (rewrite length_drop; lia). split.
  - unfold PutVarint32. rewrite !EncodeVarint32_varint by apply u32_range.
    rewrite !u32_small by (unfold in_uint; lia).
    unfold item_bytes_of, item_head. cbn [i_shared i_key i_value]. by rewrite <- !app_assoc.
  - intros ->. apply take_drop.
Qed.

Lemma BlockBuilder_Add_ok b xs ms key value :
  builder_holds b xs ms -> kv_fits (key, value) ->
  (forall x, last xs = Some x -> valid key /\ valid (i_key x) /\ order (i_key x) key < 0) ->
  exists b' x ms', BlockBuilder_Add interval b key value = Some b'
    /\ item_kv x = (key, value) /\ builder_holds b' (xs ++ [x]) ms'.
Proof.
  intros [B1 B2 B3 B4 [B5 (m0 & Hm0 & Ec)] B6] Hf Hlast. unfold BlockBuilder_Add.
  rewrite B1, items_empty, B3.
  assert ((if bool_decide (xs = []) then Some true
           else Compare key (last_key_ b) ≫= (fun r => Some (0 <? r))) = Some true) as ->.
  { case_bool_decide as Hne; [done|]. destruct (last xs) as [x|] eqn:El; [|by apply last_None in El].
    rewrite B4. change (default [] (i_key <$> Some x)) with (i_key x). destruct (Hlast x eq_refl) as (Hvk & Hvx & Ho).
    rewrite (Compare_order (compare := Compare)) by done. cbn [mbind option_bind]. f_equal.
    apply Z.ltb_lt. pose proof (order_sym (compare := Compare) key (i_key x) Hvk Hvx). lia. }
  cbn [mbind option_bind]. rewrite (proj2 (Z.leb_le _ _)) by lia. cbn [negb orb].
  pose proof (last_lookup ms) as Hl. rewrite Hm0 in Hl. symmetry in Hl.
  destruct (rep_restart_in _ _ B6 _ _ Hl) as [Hm0le Hm0lt].
  destruct (Z.ltb_spec (counter_ b) interval) as [Hc|Hc].
  - set (shared := common_prefix (last_key_ b) key).
    destruct (common_prefix_ok (last_key_ b) key) as (P1 & P2 & P3). fold shared in P1, P2, P3.
    destruct (Add_bytes (items_bytes xs) (last_key_ b) key value shared Hf P2) as [E1 E2].
    rewrite E1, (E2 P3). eexists _, {| i_shared := shared; i_key := key; i_value := value |}, ms.
    split; [done|]. split; [done|]. split; cbn [buffer_ restarts_ finished_ last_key_ counter_].
    + by rewrite items_bytes_snoc.
    + rewrite B2. apply map_ext_in. intros m Hm. apply list_elem_of_In, list_elem_of_lookup in Hm as [j Hm].
      rewrite item_off_app; [done|]. apply (rep_restart_in _ _ B6 _ _ Hm).
    + done.
    + by rewrite last_snoc.
    + split; [lia|]. exists m0. split; [done|]. rewrite zlen_app. simpl. lia.
    + apply (items_wf_snoc xs ms _ false B6); [apply Hf|apply Hf| |done]. cbn [i_shared i_key].
      rewrite <- B4. by split_and!.
  - (* a new restart point *)
    destruct (Add_bytes (items_bytes xs) (last_key_ b) key value 0 Hf ltac:(lia)) as [E1 E2].
    rewrite E1, (E2 eq_refl).
    eexists _, {| i_shared := 0; i_key := key; i_value := value |}, (ms ++ [length xs]).
    split; [done|]. split; [done|]. split; cbn [buffer_ restarts_ finished_ last_key_ counter_].
    + by rewrite items_bytes_snoc.
    + rewrite B2, map_app. cbn [map]. rewrite item_off_app, item_off_total by lia. f_equal.
      apply map_ext_in. intros m Hm. apply list_elem_of_In, list_elem_of_lookup in Hm as [j Hm].
      rewrite item_off_app; [done|]. apply (rep_restart_in _ _ B6 _ _ Hm).
    + done.
    + by rewrite last_snoc.
    + split; [lia|]. exists (length xs). rewrite last_snoc. split; [done|]. rewrite length_app. simpl. lia.
    + apply (items_wf_snoc xs ms _ true B6); [apply Hf|apply Hf| |].
      * split_and!; [simpl; lia..|done].
      * intros _. split; [done|]. intros ->. simpl in Ec. lia.
Qed.

(** Adding entries one after the other. *)
Fixpoint add_all (b : BlockBuilder) (kvs : list (bytes * bytes)) : option BlockBuilder :=
  match kvs with
  | [] => Some b
  | (k, v) :: kvs' => b ← BlockBuilder_Add interval b k v; add_all b kvs'
  end.

Lemma add_all_ok b xs ms kvs :
  builder_holds b xs ms -> Forall kv_fits kvs -> Forall (fun kv => valid kv.1) (map item_kv xs ++ kvs) ->
  ascending order (map item_kv xs ++ kvs) ->
  exists b' xs' ms', add_all b kvs = Some b' /\ map item_kv xs' = map item_kv xs ++ kvs
    /\ builder_holds b' xs' ms'.
Proof.
  intros Hb Hf. revert b xs ms Hb. induction Hf as [|[k v] kvs Hf Hfs IH]; intros b xs ms Hb Hv Ha.
  - exists b, xs, ms. by rewrite app_nil_r.
  - cbn [add_all]. assert (valid k) as Hk.
    { apply Forall_app in Hv as [_ Hv]. by apply Forall_cons in Hv as [Hv _]. }
    destruct (BlockBuilder_Add_ok b xs ms k v Hb Hf) as (b1 & x & ms1 & E1 & Ex & H1).
    { intros y Hy. rewrite last_lookup in Hy.
      assert (length xs <> 0)%nat as Hne by (intros E0; rewrite E0 in Hy; destruct xs; done).
      assert ((map item_kv xs ++ (k, v) :: kvs) !! pred (length xs) = Some (item_kv y)) as Hy'.
      { rewrite lookup_app_l by (rewrite length_map; lia). change (map item_kv xs) with (item_kv <$> xs).
        by rewrite list_lookup_fmap, Hy. }
      split; [done|]. split.
      - exact (proj1 (Forall_lookup _ _) Hv _ _ Hy').
      - apply (Ha (pred (length xs)) (item_kv y) (k, v) Hy').
        replace (S (pred (length xs))) with (length (map item_kv xs)) by (rewrite length_map; lia).
        by apply list_lookup_middle. }
    rewrite E1. cbn [mbind option_bind].
    assert (map item_kv (xs ++ [x]) ++ kvs = map item_kv xs ++ (k, v) :: kvs) as Em.
    { rewrite map_app. cbn [map]. rewrite Ex. by rewrite <- app_assoc. }
    destruct (IH b1 (xs ++ [x]) ms1 H1) as (b2 & xs2 & ms2 & E2 & Em2 & H2); [by rewrite Em..|].
    exists b2, xs2, ms2. by rewrite Em2, Em.
Qed.

Lemma Finish_contents b xs ms :
  builder_holds b xs ms -> fst (BlockBuilder_Finish b) = block_contents xs ms.
Proof.
  intros [B1 B2 _ _ _ _]. unfold BlockBuilder_Finish. cbn [fst]. rewrite fold_PutFixed32, B1, B2.
  unfold PutFixed32. rewrite EncodeFixed32_mod, length_map. unfold block_contents. rewrite <- app_assoc.
  do 2 f_equal. rewrite <- (map_map (item_off xs) u32).
  f_equal. rewrite !map_map. apply map_ext. intros. apply EncodeFixed32_mod.
Qed.
End Build.

(** * The iterator of a block that was built *)
Definition Block_Iterator (C : Comparator) : Iterator BlockIterator := {|
  Valid s := match s with BlockEntries _ it => BlockIter_Valid it | _ => false end;
  SeekToFirst s :=
    match s with BlockEntries d it => BlockEntries d <$> BlockIter_SeekToFirst d it | _ => Some s end;
  SeekToLast s :=
    match s with BlockEntries d it => BlockEntries d <$> BlockIter_SeekToLast d it | _ => Some s end;
  Seek s t :=
    match s with BlockEntries d it => BlockEntries d <$> BlockIter_Seek d it t | _ => Some s end;
  Next s := match s with BlockEntries d it => BlockEntries d <$> BlockIter_Next d it | _ => None end;
  Prev s := match s with BlockEntries d it => BlockEntries d <$> BlockIter_Prev d it | _ => None end;
  Key s := match s with BlockEntries _ it => BlockIter_key it | _ => None end;
  Value s := match s with BlockEntries d it => BlockIter_value d it | _ => None end;
  status s :=
    Some match s with BlockEntries _ it => bi_status it | EmptyBlock => Status_OK | ErrorBlock st => st end
|}.

Section BlockLaw.
Context {C : Comparator} {valid : bytes -> Prop} {order : bytes -> bytes -> Z}
  {CL : CompareLaw Compare valid order}.
Context (xs : list item) (ms : list nat) (Hrep : block_rep xs ms).

Definition block_live (s : BlockIterator) : Prop :=
  exists it, s = BlockEntries (block_contents xs ms) it /\ positions xs ms it /\ bi_status it = None.

Definition block_at (s : BlockIterator) (i : nat) : Prop :=
  exists it, s = BlockEntries (block_contents xs ms) it /\ at_index xs ms it i /\ bi_status it = None.

Lemma at_index_end it : at_end xs ms it -> at_index xs ms it (length xs).
Proof. intros H. unfold at_index. by rewrite decide_False by lia. Qed.

Lemma ascending_items : ascending order (map item_kv xs) -> keys_ascend (order := order) xs.
Proof.
  intros Ha i x y Hx Hy. apply (Ha i (item_kv x) (item_kv y));
    change (map item_kv xs) with (item_kv <$> xs); rewrite list_lookup_fmap; by rewrite ?Hx, ?Hy.
Qed.

#[export] Instance Block_law :
  Forall (fun kv => valid kv.1) (map item_kv xs) -> ascending order (map item_kv xs) ->
  IteratorLaw valid order (Block_Iterator C) (map item_kv xs) block_live block_at.
Proof.
  intros Hv Ha%ascending_items.
  assert (Forall (fun x => valid (i_key x)) xs) as Hv' by (by apply (proj1 (Forall_map _ _ _)) in Hv).
  assert (forall it' st, bi_status it' = bi_status st -> bi_status st = None -> bi_status it' = None) as Hst
    by congruence.
  split.
  - intros s i (it & -> & Hi & Hs). exists it. split_and!; [done|by eapply at_index_positions|done].
  - intros s (it & -> & _ & Hs). cbn [status Block_Iterator]. by rewrite Hs.
  - intros s i (it & -> & Hi & Hs). rewrite length_map. cbn [Valid Block_Iterator]. by apply (at_index_valid xs ms).
  - intros s i kv (it & -> & Hi & Hs) Hkv. change (map item_kv xs) with (item_kv <$> xs) in Hkv.
    apply list_lookup_fmap_Some in Hkv as (x & -> & Hx).
    cbn [Key Value Block_Iterator]. exact (BlockIter_key_rep xs ms Hrep it i x Hi Hx).
  - intros s (it & -> & Hp & Hs). destruct (SeekToFirst_rep xs ms Hrep it Hp) as (it' & E & S' & A).
    cbn [SeekToFirst Block_Iterator]. rewrite E. eexists. split; [done|]. exists it'. by eauto.
  - intros s (it & -> & Hp & Hs). destruct (SeekToLast_rep xs ms Hrep it Hp) as (it' & E & S' & A).
    cbn [SeekToLast Block_Iterator]. rewrite E, length_map. eexists. split; [done|]. exists it'. by eauto.
  - intros s t (it & -> & Hp & Hs) Ht.
    destruct (Seek_rep xs ms Hrep Hv' it t Ha Ht Hp) as (it' & k & E & S' & Hk & A & Hsp).
    cbn [Seek Block_Iterator]. rewrite E. eexists _, k. split; [done|]. split; [exists it'; by eauto|].
    split; [by rewrite length_map|]. intros j kv Hkv. change (map item_kv xs) with (item_kv <$> xs) in Hkv.
    apply list_lookup_fmap_Some in Hkv as (x & -> & Hx). by apply Hsp.
  - intros s i (it & -> & Hi & Hs) Hlt. rewrite length_map in Hlt.
    destruct (Next_rep xs ms Hrep it i Hi Hlt) as (it' & E & S' & A).
    cbn [Next Block_Iterator]. rewrite E, Nat.add_1_r. eexists. split; [done|]. exists it'. by eauto.
  - intros s i (it & -> & Hi & Hs) Hlt. rewrite length_map in *.
    destruct (Prev_rep xs ms Hrep it i Hi Hlt) as (it' & E & S' & A).
    cbn [Prev Block_Iterator]. rewrite E. eexists. split; [done|]. exists it'.
    split_and!; [done| |by eauto]. destruct i; [by apply at_index_end|done].
Qed.

(** Opening a block. *)
Lemma Block_new_rep :
  exists blk it, Block_new (block_contents xs ms) = Some blk
    /\ bl_size blk = zlen (block_contents xs ms) /\ bl_data blk = block_contents xs ms
    /\ Block_NewIterator blk = Some (BlockEntries (block_contents xs ms) it)
    /\ block_at (BlockEntries (block_contents xs ms) it) (length xs).
Proof.
  pose proof (num_restarts_range xs ms Hrep) as Hn. pose proof (block_contents_length xs ms) as Hl.
  pose proof (rep_off_bound xs ms Hrep (length xs)) as Ho. pose proof (rep_size _ _ Hrep) as Hs.
  assert (NumRestarts (block_contents xs ms) (zlen (block_contents xs ms)) = Some (zlen ms)) as En.
  { unfold NumRestarts. rewrite (proj2 (Z.ltb_ge _ _)) by lia.
    assert (Z.to_nat (zlen (block_contents xs ms) - 4)
            = length (items_bytes xs ++ concat (map EncodeFixed32 (map (item_off xs) ms)))) as ->.
    { rewrite length_app, concat_fixed32_length, length_map. rewrite item_off_total in Hl. lia. }
    unfold block_contents. rewrite app_assoc, drop_app_length, <- (app_nil_r (EncodeFixed32 _)).
    apply DecodeFixed32_Encode. unfold in_uint. lia. }
  unfold Block_new. rewrite (proj2 (Z.ltb_ge _ _)) by lia. cbv zeta. rewrite En. cbn [mbind option_bind].
  destruct (Z.gtb_spec (zlen ms) ((zlen (block_contents xs ms) - 4) / 4)) as [Hgt|_].
  { exfalso. rewrite Hl in Hgt. Z.to_euclidean_division_equations; lia. }
  eexists _, _. split; [done|]. split; [done|]. split; [done|].
  unfold Block_NewIterator. cbn [bl_size bl_data restart_offset_]. rewrite (proj2 (Z.ltb_ge _ _)) by lia.
  rewrite En. cbn [mbind option_bind]. rewrite (proj2 (Z.eqb_neq _ _)) by lia.
  unfold BlockIter_new. rewrite (proj2 (Z.ltb_lt _ _)) by lia. cbn [mbind option_bind].
  split; [done|]. eexists. split; [done|]. split; [|done]. apply at_index_end.
  assert (u32 (zlen (block_contents xs ms) - u32 (1 + zlen ms) * 4) = item_off xs (length xs)) as ->; [|done].
  rewrite (u32_small (1 + zlen ms)) by (unfold in_uint; lia). rewrite u32_small by (unfold in_uint; lia). lia.
Qed.
End BlockLaw.

(** * Blocks with any contents *)

(** The lengths of an entry: they fit 32 bits, the key starts before the limit, and
    their sum, as far as 32 bits hold it, ends there. *)
Lemma DecodeEntry_any data p limit shared non_shared value_length q :
  Forall is_byte data -> 0 <= p -> limit <= zlen data -> zlen data < 2 ^ 32 ->
  DecodeEntry data p limit = Some (shared, non_shared, value_length, q) ->
  in_uint 32 shared /\ in_uint 32 non_shared /\ in_uint 32 value_length /\ p <= q <= limit
  /\ u32 (non_shared + value_length) <= limit - q.
Proof.
  intros Hb Hp Hl Hsz. unfold DecodeEntry. destruct (Z.ltb_spec (limit - p) 3) as [|H3]; [done|].
  set (s := take _ _). assert (Forall is_byte s) as Hs by (by apply Forall_take, Forall_drop).
  assert (zlen s = limit - p) as Els by (unfold s; rewrite length_take, length_drop; lia).
  match goal with |- (?e ≫= _) = _ -> _ => destruct e as [[[[a b] c] rest]|] eqn:E end; [|done]. cbn [mbind option_bind].
  assert (in_uint 32 a /\ in_uint 32 b /\ in_uint 32 c /\ zlen rest <= zlen s) as (Ha & Hbb & Hc & Hr).
  { destruct s as [|b0 [|b1 [|b2 s']]]; try done. destruct (_ <? 128).
    - injection E as <- <- <- <-. rewrite !Forall_cons in Hs. unfold in_uint in *. cbn [length]. pow2. lia.
    - destruct (GetVarint32Ptr (b0 :: b1 :: b2 :: s')) as [[x l1]|] eqn:E1; [|done]. cbn [mbind option_bind] in E.
      destruct (GetVarint32Ptr l1) as [[y l2]|] eqn:E2; [|done]. cbn [mbind option_bind] in E.
      destruct (GetVarint32Ptr l2) as [[z l3]|] eqn:E3; [|done]. injection E as <- <- <- <-.
      pose proof (GetVarint32_range _ _ _ Hs E1). destruct (GetVarint32_suffix _ _ _ E1) as (m1 & Em1 & _).
      rewrite Em1 in Hs |- *. apply Forall_app in Hs as [_ Hs1]. pose proof (GetVarint32_range _ _ _ Hs1 E2).
      destruct (GetVarint32_suffix _ _ _ E2) as (m2 & -> & _). apply Forall_app in Hs1 as [_ Hs2].
      pose proof (GetVarint32_range _ _ _ Hs2 E3). destruct (GetVarint32_suffix _ _ _ E3) as (m3 & -> & _).
      split_and!; [done..|]. rewrite !zlen_app. lia. }
  destruct (Z.ltb_spec (u32 (limit - (limit - zlen rest))) (u32 (b + c))) as [|Hle]; [done|]. intros [= <- <- <- <-].
  split_and!; [done..|lia|lia|]. rewrite (u32_small (limit - _)) in Hle by (unfold in_uint; lia). done.
Qed.

(** [it] is an iterator over the block: the restart points are at the end. *)
Record block_iter (data : bytes) (it : BlockIter) : Prop := {
  bk_bytes : Forall is_byte data;
  bk_size : zlen data < 2 ^ 32;
  bk_num : 0 < bi_num_restarts it;
  bk_restarts : 0 <= bi_restarts it /\ bi_restarts it + 4 * bi_num_restarts it + 4 <= zlen data;
  bk_index : 0 <= bi_restart_index it
}.

Lemma Block_NewIterator_iter contents blk it data :
  Forall is_byte contents -> zlen contents < 2 ^ 32 ->
  Block_new contents = Some blk -> Block_NewIterator blk = Some (BlockEntries data it) -> data = contents /\ block_iter data it.
Proof.
  intros Hb Hs. unfold Block_new. destruct (Z.ltb_spec (zlen contents) 4) as [|H4]; [by intros [= <-]|]. cbv zeta.
  destruct (NumRestarts contents (zlen contents)) as [n|] eqn:En; [|done]. cbn [mbind option_bind].
  destruct (Z.gtb_spec n ((zlen contents - 4) / 4)) as [|Hn]; [by intros [= <-]|]. intros [= <-].
  unfold Block_NewIterator. cbn [bl_size bl_data restart_offset_]. rewrite (proj2 (Z.ltb_ge _ _)), En by done. cbn [mbind option_bind].
  destruct (Z.eqb_spec n 0) as [|H0]; [done|]. unfold BlockIter_new. destruct (Z.ltb_spec 0 n) as [Hp|]; [|done]. cbn [mbind option_bind].
  intros [= <- <-]. split; [done|]. assert (4 * n + 4 <= zlen contents) by (Z.to_euclidean_division_equations; lia).
  rewrite (u32_small (1 + n)) by (unfold in_uint; lia). rewrite u32_small by (unfold in_uint; lia). split; cbn; lia || done.
Qed.

Lemma advance_restart_any data it n index :
  block_iter data it -> 0 <= index -> bi_num_restarts it <= index + 1 + Z.of_nat n -> exists i, advance_restart data n it index = Some i.
Proof.
  intros [_ _ _ [Hr0 Hr] _]. revert index. induction n as [|n IH]; intros index Hi Hn; cbn [advance_restart];
    destruct (Z.ltb_spec (index + 1) (bi_num_restarts it)) as [Hlt|Hge]; [lia|by eexists| |by eexists].
  unfold GetRestartPoint, block_bytes. rewrite (proj2 (Z.ltb_lt _ _)), !(proj2 (Z.leb_le _ _)) by lia. cbn [andb mbind option_bind].
  rewrite DecodeFixed32_take by (rewrite length_take, length_drop; lia). cbn [mbind option_bind].
  destruct (_ <? _); [apply IH; lia|by eexists].
Qed.
