(* ===== verification/LdbMerger.v ===== *)
(** leveldb: the iterator over the union of several iterators, [merger.h] and
    [merger.cc].

    The children are one list of wrappers; [current_] points into it, so it is
    an index.  An assertion that fails makes the operation undefined. *)
From stdpp Require Import base numbers option list.
From S2P Require Import Prelude LdbSlice LdbComparator LdbIterator.
Open Scope Z_scope.

Inductive Direction : Type := kForward | kReverse.
#[export] Instance Direction_eq_dec : EqDecision Direction.
Proof. solve_decision. Defined.

Record MergingIterator (St : Type) : Type := {
  children_ : list (IteratorWrapper St);
  current_ : option nat;
  direction_ : Direction
}.
#[global] Arguments children_ {St} _.
#[global] Arguments current_ {St} _.
#[global] Arguments direction_ {St} _.

Section Merger.
Context {C : Comparator} {St : Type} {I : Iterator St}.

#[local] Notation W := (IteratorWrapper St).

Definition MergingIterator_new (children : list St) : option (MergingIterator St) :=
  ws ← mapM (fun it => Wrapper_Set Wrapper_new (Some it)) children;
  Some {| children_ := ws; current_ := None; direction_ := kForward |}.

Definition Merging_Valid (m : MergingIterator St) : bool := bool_decide (is_Some (current_ m)).

(** The body of the loop of [FindSmallest]; [best] is the child so far. *)
Definition smaller_child (i : nat) (child : W) (best : option (nat * W)) : option (option (nat * W)) :=
  if valid_ child then
    match best with
    | None => Some (Some (i, child))
    | Some (_, smallest) =>
        k ← Wrapper_key child;
        k' ← Wrapper_key smallest;
        r ← Compare k k';
        Some (if r <? 0 then Some (i, child) else best)
    end
  else Some best.

Fixpoint smallest_from (i : nat) (ws : list W) (best : option (nat * W)) : option (option (nat * W)) :=
  match ws with
  | [] => Some best
  | w :: ws' => best ← smaller_child i w best; smallest_from (S i) ws' best
  end.

Definition FindSmallest (ws : list W) : option (option nat) :=
  best ← smallest_from 0 ws None; Some (option_map fst best).

Definition larger_child (i : nat) (child : W) (best : option (nat * W)) : option (option (nat * W)) :=
  if valid_ child then
    match best with
    | None => Some (Some (i, child))
    | Some (_, largest) =>
        k ← Wrapper_key child;
        k' ← Wrapper_key largest;
        r ← Compare k k';
        Some (if r >? 0 then Some (i, child) else best)
    end
  else Some best.

(** From the last child down. *)
Fixpoint largest_from (i : nat) (ws : list W) : option (option (nat * W)) :=
  match ws with
  | [] => Some None
  | w :: ws' => best ← largest_from (S i) ws'; larger_child i w best
  end.

Definition FindLargest (ws : list W) : option (option nat) :=
  best ← largest_from 0 ws; Some (option_map fst best).

Definition Merging_SeekToFirst (m : MergingIterator St) : option (MergingIterator St) :=
  ws ← mapM Wrapper_SeekToFirst (children_ m);
  c ← FindSmallest ws;
  Some {| children_ := ws; current_ := c; direction_ := kForward |}.

Definition Merging_SeekToLast (m : MergingIterator St) : option (MergingIterator St) :=
  ws ← mapM Wrapper_SeekToLast (children_ m);
  c ← FindLargest ws;
  Some {| children_ := ws; current_ := c; direction_ := kReverse |}.

Definition Merging_Seek (m : MergingIterator St) (target : bytes) : option (MergingIterator St) :=
  ws ← mapM (fun w => Wrapper_Seek w target) (children_ m);
  c ← FindSmallest ws;
  Some {| children_ := ws; current_ := c; direction_ := kForward |}.

(** The loops of [Next] and [Prev] over the children other than [current_]. *)
Fixpoint reposition (f : W -> option W) (cur i : nat) (ws : list W) : option (list W) :=
  match ws with
  | [] => Some []
  | w :: ws' =>
      w ← (if (i =? cur)%nat then Some w else f w);
      ws' ← reposition f cur (S i) ws';
      Some (w :: ws')
  end.

(** After [key]. *)
Definition child_after (key : bytes) (child : W) : option W :=
  child ← Wrapper_Seek child key;
  if valid_ child then
    k ← Wrapper_key child;
    r ← Compare key k;
    if r =? 0 then Wrapper_Next child else Some child
  else Some child.

(** Before [key]. *)
Definition child_before (key : bytes) (child : W) : option W :=
  child ← Wrapper_Seek child key;
  if valid_ child then Wrapper_Prev child else Wrapper_SeekToLast child.

Definition Merging_Next (m : MergingIterator St) : option (MergingIterator St) :=
  c ← current_ m;
  ws ← (if decide (direction_ m = kForward) then Some (children_ m)
        else w ← children_ m !! c; key ← Wrapper_key w; reposition (child_after key) c 0 (children_ m));
  w ← ws !! c;
  w ← Wrapper_Next w;
  let ws := <[c := w]> ws in
  c ← FindSmallest ws;
  Some {| children_ := ws; current_ := c; direction_ := kForward |}.

Definition Merging_Prev (m : MergingIterator St) : option (MergingIterator St) :=
  c ← current_ m;
  ws ← (if decide (direction_ m = kReverse) then Some (children_ m)
        else w ← children_ m !! c; key ← Wrapper_key w; reposition (child_before key) c 0 (children_ m));
  w ← ws !! c;
  w ← Wrapper_Prev w;
  let ws := <[c := w]> ws in
  c ← FindLargest ws;
  Some {| children_ := ws; current_ := c; direction_ := kReverse |}.

Definition Merging_key (m : MergingIterator St) : option bytes :=
  c ← current_ m; w ← children_ m !! c; Wrapper_key w.

Definition Merging_value (m : MergingIterator St) : option bytes :=
  c ← current_ m; w ← children_ m !! c; Wrapper_value w.

(** The first status that is not ok. *)
Fixpoint status_loop (ws : list W) (st : Status) : option Status :=
  match ws with
  | [] => Some st
  | w :: ws' => st ← Wrapper_status w; if Status_ok st then status_loop ws' st else Some st
  end.

Definition Merging_status (m : MergingIterator St) : option Status := status_loop (children_ m) Status_OK.
End Merger.

Definition Merging_Iterator {C : Comparator} {St} (I : Iterator St) : Iterator (MergingIterator St) := {|
  Valid := Merging_Valid;
  SeekToFirst := Merging_SeekToFirst;
  SeekToLast := Merging_SeekToLast;
  Seek := Merging_Seek;
  Next := Merging_Next;
  Prev := Merging_Prev;
  Key := Merging_key;
  Value := Merging_value;
  status := Merging_status
|}.

(** What [NewMergingIterator] returns. *)
Inductive MergedIterator (St : Type) : Type :=
| MergedEmpty
| MergedOne (it : St)
| MergedMany (m : MergingIterator St).
#[global] Arguments MergedEmpty {St}.
#[global] Arguments MergedOne {St} _.
#[global] Arguments MergedMany {St} _.

Definition NewMergingIterator {St} {I : Iterator St} (children : list St) : option (MergedIterator St) :=
  match children with
  | [] => Some MergedEmpty
  | [it] => Some (MergedOne it)
  | _ => MergedMany <$> MergingIterator_new children
  end.
