(* ===== verification/LdbMergerThms.v ===== *)
(** leveldb: the merging iterator goes over the union of its children. *)
From stdpp Require Import base numbers option sets list.
From S2P Require Import Prelude LdbSlice LdbComparator LdbIterator LdbMerger.
Open Scope Z_scope.

Section Search.
Context {C : Comparator} {St : Type} {I : Iterator St} {valid : bytes -> Prop} {order : bytes -> bytes -> Z}
  {CL : CompareLaw Compare valid order}.

#[local] Notation W := (IteratorWrapper St).

(** A child with a valid key not before [k]; before or at it for [FindLargest]. *)
Definition key_from (k : bytes) (w : W) : Prop := valid_ w = true -> valid (key_ w) /\ order k (key_ w) < 0.
Definition key_upto (k : bytes) (w : W) : Prop := valid_ w = true -> valid (key_ w) /\ order (key_ w) k < 0.

Lemma smallest_from_none i (ws : list W) best :
  Forall (fun w => valid_ w = false) ws -> smallest_from i ws best = Some best.
Proof.
  intros Hws. revert i. induction Hws as [|w ws Hw Hws IH]; intros i; [done|].
  cbn [smallest_from]. unfold smaller_child. rewrite Hw. apply IH.
Qed.

Lemma smallest_from_keep i (ws : list W) j w :
  valid_ w = true -> valid (key_ w) -> Forall (key_from (key_ w)) ws ->
  smallest_from i ws (Some (j, w)) = Some (Some (j, w)).
Proof.
  intros Hw Hk Hws. revert i. induction Hws as [|w' ws Hw' Hws IH]; intros i; [done|].
  cbn [smallest_from]. unfold smaller_child, Wrapper_key. destruct (valid_ w') eqn:Ev; [|apply IH].
  rewrite Hw. cbn [mbind option_bind]. destruct (Hw' Ev) as [Hk' Ho].
  rewrite (Compare_order (compare := Compare)) by done. cbn [mbind option_bind].
  apply (order_lt_flip (compare := Compare)) in Ho; [|done..].
  rewrite (proj2 (Z.ltb_ge _ _)) by lia. apply IH.
Qed.

Lemma smallest_from_find (ws : list W) i best c w :
  ws !! c = Some w -> valid_ w = true -> valid (key_ w) ->
  (forall c' w', ws !! c' = Some w' -> c' <> c -> key_from (key_ w) w') ->
  match best with Some (_, b) => valid_ b = true /\ key_from (key_ w) b | None => True end ->
  smallest_from i ws best = Some (Some ((i + c)%nat, w)).
Proof.
  intros Hc Hw Hk. revert i best c Hc. induction ws as [|w0 ws IH]; intros i best c Hc Hother Hb; [done|].
  cbn [smallest_from]. destruct c as [|c].
  - injection Hc as ->. assert (smaller_child i w best = Some (Some (i, w))) as ->.
    { unfold smaller_child, Wrapper_key. rewrite Hw. destruct best as [[j b]|]; [|done].
      destruct Hb as [Hbv Hb]. rewrite Hbv. cbn [mbind option_bind]. destruct (Hb Hbv) as [Hkb Ho].
      rewrite (Compare_order (compare := Compare)) by done. cbn [mbind option_bind].
      by rewrite (proj2 (Z.ltb_lt _ _)) by lia. }
    cbn [mbind option_bind]. rewrite Nat.add_0_r. apply smallest_from_keep; [done..|].
    apply Forall_lookup. intros c' w' Hc'. by apply (Hother (S c') w').
  - assert (key_from (key_ w) w0) as H0 by (by apply (Hother 0%nat)).
    assert (exists best', smaller_child i w0 best = Some best'
              /\ match best' with Some (_, b) => valid_ b = true /\ key_from (key_ w) b | None => True end)
      as (best' & -> & Hb').
    { unfold smaller_child, Wrapper_key. destruct (valid_ w0) eqn:Ev; [|by exists best].
      destruct best as [[j b]|]; [|by exists (Some (i, w0))].
      destruct Hb as [Hbv Hb]. rewrite Hbv. cbn [mbind option_bind].
      destruct (Hb Hbv) as [Hkb Ho]. destruct (H0 Ev) as [Hk0 Ho0].
      rewrite (Compare_order (compare := Compare)) by done. cbn [mbind option_bind].
      eexists. split; [done|]. by destruct (_ <? _). }
    cbn [mbind option_bind]. rewrite (IH (S i) best' c Hc); [by rewrite Nat.add_succ_comm| |done].
    intros c' w' Hc' Hne. apply (Hother (S c') w' Hc'). lia.
Qed.

Lemma FindSmallest_none (ws : list W) : Forall (fun w => valid_ w = false) ws -> FindSmallest ws = Some None.
Proof. intros H. unfold FindSmallest. by rewrite smallest_from_none. Qed.

Lemma FindSmallest_some (ws : list W) c w :
  ws !! c = Some w -> valid_ w = true -> valid (key_ w) ->
  (forall c' w', ws !! c' = Some w' -> c' <> c -> key_from (key_ w) w') ->
  FindSmallest ws = Some (Some c).
Proof. intros. unfold FindSmallest. by rewrite (smallest_from_find ws 0 None c w). Qed.

Lemma largest_from_none i (ws : list W) : Forall (fun w => valid_ w = false) ws -> largest_from i ws = Some None.
Proof.
  intros Hws. revert i. induction Hws as [|w ws Hw Hws IH]; intros i; [done|].
  cbn [largest_from]. rewrite IH. cbn [mbind option_bind]. unfold larger_child. by rewrite Hw.
Qed.

(** The result is among the children. *)
Lemma largest_from_some i (ws : list W) k :
  valid k -> Forall (key_upto k) ws ->
  exists best, largest_from i ws = Some best
    /\ match best with Some (_, b) => valid_ b = true /\ key_upto k b | None => True end.
Proof.
  intros Hk Hws. revert i. induction Hws as [|w ws Hw Hws IH]; intros i; [by exists None|].
  cbn [largest_from]. destruct (IH (S i)) as (best & -> & Hb). cbn [mbind option_bind].
  unfold larger_child, Wrapper_key. destruct (valid_ w) eqn:Ev; [|by exists best].
  destruct best as [[j b]|]; [|by exists (Some (i, w))].
  destruct Hb as [Hbv Hb]. rewrite Hbv. cbn [mbind option_bind].
  destruct (Hb Hbv) as [Hkb Ho]. destruct (Hw Ev) as [Hk0 Ho0].
  rewrite (Compare_order (compare := Compare)) by done. cbn [mbind option_bind].
  eexists. split; [done|]. by destruct (_ >? _).
Qed.

Lemma largest_from_find (ws : list W) i c w :
  ws !! c = Some w -> valid_ w = true -> valid (key_ w) ->
  (forall c' w', ws !! c' = Some w' -> c' <> c -> key_upto (key_ w) w') ->
  largest_from i ws = Some (Some ((i + c)%nat, w)).
Proof.
  intros Hc Hw Hk. revert i c Hc. induction ws as [|w0 ws IH]; intros i c Hc Hother; [done|].
  cbn [largest_from]. destruct c as [|c].
  - injection Hc as ->.
    destruct (largest_from_some (S i) ws (key_ w) Hk) as (best & -> & Hb).
    { apply Forall_lookup. intros c' w' Hc'. by apply (Hother (S c') w'). }
    cbn [mbind option_bind]. unfold larger_child, Wrapper_key. rewrite Hw, Nat.add_0_r.
    destruct best as [[j b]|]; [|done]. destruct Hb as [Hbv Hb]. rewrite Hbv. cbn [mbind option_bind].
    destruct (Hb Hbv) as [Hkb Ho]. rewrite (Compare_order (compare := Compare)) by done.
    cbn [mbind option_bind]. apply (order_lt_flip (compare := Compare)) in Ho; [|done..].
    by rewrite (proj2 (Z.gtb_gt _ _)) by lia.
  - assert (key_upto (key_ w) w0) as H0 by (by apply (Hother 0%nat)).
    rewrite (IH (S i) c Hc); [|intros c' w' Hc' Hne; apply (Hother (S c') w' Hc'); lia].
    cbn [mbind option_bind]. rewrite Nat.add_succ_comm. unfold larger_child, Wrapper_key.
    destruct (valid_ w0) eqn:Ev; [|done]. rewrite Hw. cbn [mbind option_bind]. destruct (H0 Ev) as [Hk0 Ho].
    rewrite (Compare_order (compare := Compare)) by done. cbn [mbind option_bind].
    destruct (Z.gtb_spec (order (key_ w0) (key_ w)) 0); [lia|done].
Qed.

Lemma FindLargest_none (ws : list W) : Forall (fun w => valid_ w = false) ws -> FindLargest ws = Some None.
Proof. intros H. unfold FindLargest. by rewrite largest_from_none. Qed.

Lemma FindLargest_some (ws : list W) c w :
  ws !! c = Some w -> valid_ w = true -> valid (key_ w) ->
  (forall c' w', ws !! c' = Some w' -> c' <> c -> key_upto (key_ w) w') ->
  FindLargest ws = Some (Some c).
Proof. intros. unfold FindLargest. by rewrite (largest_from_find ws 0 c w). Qed.
End Search.

(** * Lists by index *)
Lemma mapM_lookup {A B} (f : A -> option B) (P : nat -> B -> Prop) xs :
  (forall c x, xs !! c = Some x -> exists y, f x = Some y /\ P c y) ->
  exists ys, mapM f xs = Some ys /\ length ys = length xs /\ forall c y, ys !! c = Some y -> P c y.
Proof.
  revert P. induction xs as [|x xs IH]; intros P H; [by exists []|].
  destruct (H 0%nat x eq_refl) as (y & Ey & Py).
  destruct (IH (fun c => P (S c)) (fun c x' Hx => H (S c) x' Hx)) as (ys & Eys & Hl & Pys).
  exists (y :: ys). cbn [mapM]. rewrite Ey. cbn [mbind option_bind]. rewrite Eys. cbn [mbind option_bind].
  split; [done|]. split; [simpl; congruence|]. intros [|c] z Hz; [by injection Hz as <-|by apply Pys].
Qed.

Lemma reposition_lookup {St} (f : IteratorWrapper St -> option (IteratorWrapper St)) (P : nat -> _ -> Prop) cur i ws :
  (forall c w, ws !! c = Some w -> if decide (i + c = cur)%nat then P c w else exists w', f w = Some w' /\ P c w') ->
  exists ws', reposition f cur i ws = Some ws' /\ length ws' = length ws
    /\ forall c w', ws' !! c = Some w' -> P c w'.
Proof.
  revert P i. induction ws as [|w ws IH]; intros P i H; [by exists []|]. cbn [reposition].
  assert (exists w', (if (i =? cur)%nat then Some w else f w) = Some w' /\ P 0%nat w') as (w' & -> & Pw).
  { specialize (H 0%nat w eq_refl). rewrite Nat.add_0_r in H.
    destruct (Nat.eqb_spec i cur), (decide (i = cur)); try done. by exists w. }
  destruct (IH (fun c => P (S c)) (S i)) as (ws' & E & Hl & Hws).
  { intros c x Hx. specialize (H (S c) x Hx). by rewrite Nat.add_succ_r in H. }
  cbn [mbind option_bind]. rewrite E. cbn [mbind option_bind]. exists (w' :: ws').
  split; [done|]. split; [simpl; congruence|]. intros [|c] z Hz; [by injection Hz as <-|by apply Hws].
Qed.

Lemma concat_elem {A} (ls : list (list A)) e : e ∈ concat ls <-> exists c l, ls !! c = Some l /\ e ∈ l.
Proof.
  rewrite list_elem_of_In, in_concat. split.
  - intros (l & Hl & He). apply list_elem_of_In, list_elem_of_lookup in Hl as [c Hc].
    exists c, l. split; [done|]. by apply list_elem_of_In.
  - intros (c & l & Hc & He). exists l. split; apply list_elem_of_In; [|done]. by apply list_elem_of_lookup; exists c.
Qed.

Lemma concat_unique {A} (ls : list (list A)) c c' l l' e :
  NoDup (concat ls) -> ls !! c = Some l -> ls !! c' = Some l' -> e ∈ l -> e ∈ l' -> c = c'.
Proof.
  revert c c'. induction ls as [|l0 ls IH]; intros c c' Hd Hc Hc' He He'; [done|].
  cbn [concat] in Hd. apply NoDup_app in Hd as (_ & Hx & Hd).
  destruct c as [|c], c' as [|c'].
  - done.
  - injection Hc as ->. destruct (Hx e He). apply concat_elem. by exists c', l'.
  - injection Hc' as ->. destruct (Hx e He'). apply concat_elem. by exists c, l.
  - f_equal. by apply (IH c c').
Qed.

(** * The union *)
Section Merge.
Context {C : Comparator} {St : Type} {I : Iterator St} {valid : bytes -> Prop} {order : bytes -> bytes -> Z}
  {CL : CompareLaw Compare valid order}.
Context (kvss : list (list (bytes * bytes))) (kvs : list (bytes * bytes))
  (live : nat -> St -> Prop) (at_pos : nat -> St -> nat -> Prop).
Context (Hlaw : forall c l, kvss !! c = Some l -> IteratorLaw valid order I l (live c) (at_pos c)).
Context (Hperm : kvs ≡ₚ concat kvss) (Hvalid : Forall (fun kv => valid kv.1) kvs)
  (Hasc : ascending order kvs) (Hchild : Forall (ascending order) kvss).

#[local] Notation W := (IteratorWrapper St).
#[local] Notation wat c l := (wrapper_at (kvs := l) (at_pos := at_pos c)).

Lemma child_entry c l j e : kvss !! c = Some l -> l !! j = Some e -> exists q, kvs !! q = Some e.
Proof.
  intros Hc Hj. apply list_elem_of_lookup. rewrite Hperm. apply concat_elem. exists c, l. split; [done|].
  apply list_elem_of_lookup. by exists j.
Qed.

Lemma entry_child q e : kvs !! q = Some e -> exists c l, kvss !! c = Some l /\ e ∈ l.
Proof. intros Hq. apply concat_elem. rewrite <- Hperm. apply list_elem_of_lookup. by exists q. Qed.

Lemma entry_unique c c' l l' e : kvss !! c = Some l -> kvss !! c' = Some l' -> e ∈ l -> e ∈ l' -> c = c'.
Proof.
  apply concat_unique. rewrite <- Hperm. by apply (ascending_NoDup (compare := Compare) (valid := valid) (order := order)).
Qed.

Lemma child_wf c l : kvss !! c = Some l -> ascending order l /\ Forall (fun kv => valid kv.1) l.
Proof.
  intros Hc. split; [exact (proj1 (Forall_lookup _ _) Hchild c l Hc)|].
  apply Forall_lookup. intros j e Hj. destruct (child_entry c l j e Hc Hj) as [q Hq].
  exact (proj1 (Forall_lookup _ _) Hvalid q e Hq).
Qed.

Lemma entry_order p q x y : kvs !! p = Some x -> kvs !! q = Some y -> order x.1 y.1 < 0 <-> (p < q)%nat.
Proof. by apply (ascending_order (compare := Compare) (valid := valid)). Qed.

Lemma entry_index p q e : kvs !! p = Some e -> kvs !! q = Some e -> p = q.
Proof.
  apply NoDup_lookup. by apply (ascending_NoDup (compare := Compare) (valid := valid) (order := order)).
Qed.

(** The first [i] entries of the child [l] are those among the first [p] of the
    union. *)
Definition cut (l : list (bytes * bytes)) (p i : nat) : Prop :=
  (i <= length l)%nat
  /\ forall j e q, l !! j = Some e -> kvs !! q = Some e -> (q < p)%nat <-> (j < i)%nat.

(** The child with entry [p]. *)
Definition owner (c p : nat) (l : list (bytes * bytes)) (e : bytes * bytes) : Prop :=
  kvss !! c = Some l /\ kvs !! p = Some e /\ e ∈ l.

Lemma owner_exists p : (p < length kvs)%nat -> exists c l e, owner c p l e.
Proof.
  intros Hp. destruct (lookup_lt_is_Some_2 kvs p Hp) as [e He]. destruct (entry_child p e He) as (c & l & Hc & Hl).
  by exists c, l, e.
Qed.

Lemma cut_0 l : cut l 0 0.
Proof. split; [lia|]. intros; lia. Qed.

Lemma cut_end l : cut l (length kvs) (length l).
Proof. split; [lia|]. intros j e q Hj Hq. apply lookup_lt_Some in Hj, Hq. lia. Qed.

Lemma cut_splits l t p i : splits_at order kvs t p -> splits_at order l t i -> cut l p i.
Proof.
  intros [_ Hp] [Hi Hs]. split; [done|]. intros j e q Hj Hq. rewrite <- (Hp q e Hq). by apply Hs.
Qed.

Lemma cut_key l p e i : kvs !! p = Some e -> splits_at order l e.1 i -> cut l p i.
Proof.
  intros Hp. apply cut_splits. by apply (ascending_splits (compare := Compare) (valid := valid)).
Qed.

Lemma cut_end_inv c l i : kvss !! c = Some l -> cut l (length kvs) i -> i = length l.
Proof.
  intros Hc [Hi Hcut]. destruct (Nat.lt_ge_cases i (length l)) as [Hlt|]; [|lia].
  destruct (lookup_lt_is_Some_2 l i Hlt) as [e He]. destruct (child_entry c l i e Hc He) as [q Hq].
  pose proof (proj1 (Hcut i e q He Hq) (lookup_lt_Some _ _ _ Hq)). lia.
Qed.

Lemma cut_0_inv c l i : kvss !! c = Some l -> cut l 0 i -> i = 0%nat.
Proof.
  intros Hc [Hi Hcut]. destruct i as [|i]; [done|].
  destruct (lookup_lt_is_Some_2 l i ltac:(lia)) as [e He]. destruct (child_entry c l i e Hc He) as [q Hq].
  pose proof (proj2 (Hcut i e q He Hq)). lia.
Qed.

(** Passing an entry of another child. *)
Lemma cut_other c c' l l' p e i :
  owner c p l e -> kvss !! c' = Some l' -> c' <> c -> cut l' p i <-> cut l' (S p) i.
Proof.
  intros (Hc & Hp & He) Hc' Hne.
  assert (forall j x q, l' !! j = Some x -> kvs !! q = Some x -> q <> p) as Hqp.
  { intros j x q Hj Hq ->. assert (x = e) as -> by congruence. apply Hne.
    apply (entry_unique c' c l' l e); [done..| |done]. apply list_elem_of_lookup. by exists j. }
  split; (intros [Hi Hcut]; split; [done|]); intros j x q Hj Hq; rewrite <- (Hcut j x q Hj Hq);
    pose proof (Hqp j x q Hj Hq); lia.
Qed.

(** Passing an entry of the child itself. *)
Lemma cut_owner c l p e i : owner c p l e -> cut l p i <-> l !! i = Some e /\ cut l (S p) (S i).
Proof.
  intros (Hc & Hp & He). apply list_elem_of_lookup in He as [k Hk]. destruct (child_wf c l Hc) as [Ha Hv].
  pose proof (lookup_lt_Some _ _ _ Hk) as Hkl.
  assert (forall j x q, l !! j = Some x -> kvs !! q = Some x -> (q < p <-> j < k)%nat) as Hkp.
  { intros j x q Hj Hq. rewrite <- (entry_order q p x e Hq Hp).
    by apply (ascending_order (compare := Compare) (valid := valid) l). }
  assert (forall j x q, l !! j = Some x -> kvs !! q = Some x -> q = p <-> j = k) as Hqp.
  { intros j x q Hj Hq. split; intros ->.
    - assert (x = e) as -> by congruence.
      apply (NoDup_lookup l j k e); [|done..]. by apply (ascending_NoDup (compare := Compare) (valid := valid) (order := order)).
    - assert (x = e) as -> by congruence. by apply (entry_index q p e). }
  assert (cut l p k /\ cut l (S p) (S k)) as [Hk1 Hk2].
  { split; (split; [lia|]); intros j x q Hj Hq; pose proof (Hkp j x q Hj Hq); pose proof (Hqp j x q Hj Hq); lia. }
  split.
  - intros [Hi Hcut]. assert (i = k) as ->; [|done].
    destruct (Nat.lt_trichotomy i k) as [Hlt|[|Hlt]]; [|done|].
    + destruct (lookup_lt_is_Some_2 l i ltac:(lia)) as [x Hx]. destruct (child_entry c l i x Hc Hx) as [q Hq].
      pose proof (Hcut i x q Hx Hq). pose proof (Hkp i x q Hx Hq). lia.
    + pose proof (Hcut k e p Hk Hp). lia.
  - intros [Hi [_ _]]. assert (i = k) as ->; [|done].
    apply (NoDup_lookup l i k e); [|done..]. by apply (ascending_NoDup (compare := Compare) (valid := valid) (order := order)).
Qed.

Lemma cut_unique c l p i j : kvss !! c = Some l -> cut l p i -> cut l p j -> i = j.
Proof.
  intros Hc. assert (forall i j, cut l p i -> cut l p j -> ~ (i < j)%nat) as H.
  { clear i j. intros i j [_ Hi] [Hj Hj'] Hlt. destruct (lookup_lt_is_Some_2 l i ltac:(lia)) as [x Hx].
    destruct (child_entry c l i x Hc Hx) as [q Hq]. pose proof (Hi i x q Hx Hq). pose proof (Hj' i x q Hx Hq). lia. }
  intros Hi Hj. pose proof (H i j Hi Hj). pose proof (H j i Hj Hi). lia.
Qed.

Lemma cut_owner_back c l p e i :
  owner c p l e -> cut l (S p) i -> exists i', i = S i' /\ l !! i' = Some e /\ cut l p i'.
Proof.
  intros Ho Hcut. pose proof Ho as (Hc & Hp & He). destruct (child_wf c l Hc) as [Ha Hv].
  assert (exists k, cut l p k) as [k Hk].
  { apply list_elem_of_lookup in He as [k Hk]. exists k. apply (cut_key l p e); [done|].
    by apply (ascending_splits (compare := Compare) (valid := valid)). }
  destruct (proj1 (cut_owner c l p e k Ho) Hk) as [Hke Hk']. exists k.
  split; [by apply (cut_unique c l (S p))|done].
Qed.

(** ** The children on both sides of a place *)

(** One before [i], or not valid. *)
Definition back (n i : nat) : nat := match i with O => n | S j => j end.

Definition all_live (ws : list W) : Prop :=
  length ws = length kvss
  /\ forall c w l, ws !! c = Some w -> kvss !! c = Some l -> wrapper_live (live := live c) w.

(** All children at their first entry not before [p]. *)
Definition child_ahead (p : nat) (ws : list W) : Prop :=
  length ws = length kvss
  /\ forall c w l, ws !! c = Some w -> kvss !! c = Some l -> exists i, cut l p i /\ wat c l w i.

(** All children at their last entry before [p]. *)
Definition child_behind (p : nat) (ws : list W) : Prop :=
  length ws = length kvss
  /\ forall c w l, ws !! c = Some w -> kvss !! c = Some l ->
       exists i, cut l p i /\ wat c l w (back (length l) i).

Lemma ahead_live p ws : child_ahead p ws -> all_live ws.
Proof.
  intros [Hl H]. split; [done|]. intros c w l Hw Hc. destruct (H c w l Hw Hc) as (i & _ & Ha).
  pose proof (Hlaw c l Hc) as Law. by apply (wrapper_at_live (L := Law) w i).
Qed.

Lemma behind_live p ws : child_behind p ws -> all_live ws.
Proof.
  intros [Hl H]. split; [done|]. intros c w l Hw Hc. destruct (H c w l Hw Hc) as (i & _ & Ha).
  pose proof (Hlaw c l Hc) as Law. by apply (wrapper_at_live (L := Law) w (back (length l) i)).
Qed.

Lemma child_of (ws : list W) c l : length ws = length kvss -> kvss !! c = Some l -> exists w, ws !! c = Some w.
Proof. intros Hl Hc. apply lookup_lt_is_Some_2. apply lookup_lt_Some in Hc. lia. Qed.

Lemma of_child (ws : list W) c w : length ws = length kvss -> ws !! c = Some w -> exists l, kvss !! c = Some l.
Proof. intros Hl Hc. apply lookup_lt_is_Some_2. apply lookup_lt_Some in Hc. lia. Qed.

Lemma wat_valid c l w i : wat c l w i -> valid_ w = bool_decide (i < length l)%nat.
Proof. by intros (s & _ & _ & Hv & _). Qed.

Lemma wat_key c l w i e : wat c l w i -> l !! i = Some e -> valid_ w = true /\ key_ w = e.1.
Proof.
  intros (s & _ & _ & Hv & Hk) He. split; [|by apply Hk].
  rewrite Hv. apply bool_decide_eq_true_2. by apply lookup_lt_Some in He.
Qed.

Lemma FindSmallest_ahead p ws :
  child_ahead p ws -> (p < length kvs)%nat -> exists c l e, owner c p l e /\ FindSmallest ws = Some (Some c).
Proof.
  intros [Hl H] Hp. destruct (owner_exists p Hp) as (c & l & e & Ho). exists c, l, e. split; [done|].
  pose proof Ho as (Hc & He & _). destruct (child_of ws c l Hl Hc) as [w Hw].
  destruct (H c w l Hw Hc) as (i & Hcut & Ha). apply (cut_owner c l p e i Ho) in Hcut as [Hi _].
  destruct (wat_key c l w i e Ha Hi) as [Hvw Hkw].
  apply (FindSmallest_some (valid := valid) (order := order) ws c w); [done|done|..].
  - rewrite Hkw. exact (proj1 (Forall_lookup _ _) Hvalid p e He).
  - intros c' w' Hw' Hne Hv'. destruct (of_child ws c' w' Hl Hw') as [l' Hc'].
    destruct (H c' w' l' Hw' Hc') as (i' & Hcut' & Ha').
    rewrite (wat_valid _ _ _ _ Ha') in Hv'. apply bool_decide_eq_true_1 in Hv'.
    destruct (lookup_lt_is_Some_2 l' i' Hv') as [x Hx]. destruct (wat_key _ _ _ _ _ Ha' Hx) as [_ ->].
    destruct (child_entry c' l' i' x Hc' Hx) as [q Hq].
    split; [exact (proj1 (Forall_lookup _ _) Hvalid q x Hq)|]. rewrite Hkw. apply (entry_order p q e x He Hq).
    apply (cut_other c c' l l' p e i' Ho Hc' Hne) in Hcut' as [_ Hcut']. pose proof (Hcut' i' x q Hx Hq). lia.
Qed.

Lemma FindSmallest_ahead_end ws : child_ahead (length kvs) ws -> FindSmallest ws = Some None.
Proof.
  intros [Hl H]. apply FindSmallest_none, Forall_lookup. intros c w Hw.
  destruct (of_child ws c w Hl Hw) as [l Hc]. destruct (H c w l Hw Hc) as (i & Hcut & Ha).
  apply (cut_end_inv c l i Hc) in Hcut as ->. rewrite (wat_valid _ _ _ _ Ha).
  apply bool_decide_eq_false_2. lia.
Qed.

Lemma FindLargest_behind p ws :
  child_behind (S p) ws -> (p < length kvs)%nat -> exists c l e, owner c p l e /\ FindLargest ws = Some (Some c).
Proof.
  intros [Hl H] Hp. destruct (owner_exists p Hp) as (c & l & e & Ho). exists c, l, e. split; [done|].
  pose proof Ho as (Hc & He & _). destruct (child_of ws c l Hl Hc) as [w Hw].
  destruct (H c w l Hw Hc) as (i & Hcut & Ha).
  destruct (cut_owner_back c l p e i Ho Hcut) as (k & -> & Hi & _). cbn [back] in Ha.
  destruct (wat_key c l w k e Ha Hi) as [Hvw Hkw].
  apply (FindLargest_some (valid := valid) (order := order) ws c w); [done|done|..].
  - rewrite Hkw. exact (proj1 (Forall_lookup _ _) Hvalid p e He).
  - intros c' w' Hw' Hne Hv'. destruct (of_child ws c' w' Hl Hw') as [l' Hc'].
    destruct (H c' w' l' Hw' Hc') as (i' & Hcut' & Ha').
    rewrite (wat_valid _ _ _ _ Ha') in Hv'. apply bool_decide_eq_true_1 in Hv'.
    destruct (lookup_lt_is_Some_2 l' _ Hv') as [x Hx]. destruct (wat_key _ _ _ _ _ Ha' Hx) as [_ ->].
    destruct (child_entry c' l' _ x Hc' Hx) as [q Hq].
    split; [exact (proj1 (Forall_lookup _ _) Hvalid q x Hq)|]. rewrite Hkw. apply (entry_order q p x e Hq He).
    apply (cut_other c c' l l' p e i' Ho Hc' Hne) in Hcut' as [Hi' Hcut'].
    destruct i' as [|j]; cbn [back] in Hx, Hv'; [lia|]. pose proof (Hcut' j x q Hx Hq). lia.
Qed.

Lemma FindLargest_behind_end ws : child_behind 0 ws -> FindLargest ws = Some None.
Proof.
  intros [Hl H]. apply FindLargest_none, Forall_lookup. intros c w Hw.
  destruct (of_child ws c w Hl Hw) as [l Hc]. destruct (H c w l Hw Hc) as (i & Hcut & Ha).
  apply (cut_0_inv c l i Hc) in Hcut as ->. rewrite (wat_valid _ _ _ _ Ha).
  apply bool_decide_eq_false_2. cbn [back]. lia.
Qed.

(** ** Steps of the children *)
Lemma insert_children (P : nat -> W -> list (bytes * bytes) -> Prop) ws c w' :
  length ws = length kvss ->
  (forall l, kvss !! c = Some l -> P c w' l) ->
  (forall c' w l, c' <> c -> ws !! c' = Some w -> kvss !! c' = Some l -> P c' w l) ->
  length (<[c := w']> ws) = length kvss
  /\ forall c' w l, <[c := w']> ws !! c' = Some w -> kvss !! c' = Some l -> P c' w l.
Proof.
  intros Hl Hc Hother. split; [by rewrite length_insert|]. intros c' w l Hw Hl'.
  apply list_lookup_insert_Some in Hw as [(-> & <- & _)|[Hne Hw]]; [by apply Hc|]. by apply Hother.
Qed.

Lemma Next_ahead p ws c l e w :
  owner c p l e -> child_ahead p ws -> ws !! c = Some w ->
  exists w', Wrapper_Next w = Some w' /\ child_ahead (S p) (<[c := w']> ws).
Proof.
  intros Ho [Hl H] Hw. pose proof Ho as (Hc & _). destruct (H c w l Hw Hc) as (i & Hcut & Ha).
  apply (cut_owner c l p e i Ho) in Hcut as [Hi Hcut]. pose proof (Hlaw c l Hc) as Law.
  destruct (wrapper_next (L := Law) w i Ha (lookup_lt_Some _ _ _ Hi)) as (w' & E & Ha'). exists w'. split; [done|].
  apply insert_children; [done|..].
  - intros l0 Hl0. assert (l0 = l) as -> by congruence. exists (S i). split; [done|]. by rewrite Nat.add_1_r in Ha'.
  - intros c' w0 l' Hne Hw0 Hc'. destruct (H c' w0 l' Hw0 Hc') as (i' & Hcut' & Ha0). exists i'.
    split; [|done]. by apply (cut_other c c' l l' p e i' Ho Hc' Hne).
Qed.

Lemma Prev_behind p ws c l e w :
  owner c p l e -> child_behind (S p) ws -> ws !! c = Some w ->
  exists w', Wrapper_Prev w = Some w' /\ child_behind p (<[c := w']> ws).
Proof.
  intros Ho [Hl H] Hw. pose proof Ho as (Hc & _). destruct (H c w l Hw Hc) as (i & Hcut & Ha).
  destruct (cut_owner_back c l p e i Ho Hcut) as (k & -> & Hi & Hk). pose proof (Hlaw c l Hc) as Law.
  destruct (wrapper_prev (L := Law) w k Ha (lookup_lt_Some _ _ _ Hi)) as (w' & E & Ha'). exists w'. split; [done|].
  apply insert_children; [done|..].
  - intros l0 Hl0. assert (l0 = l) as -> by congruence. by exists k.
  - intros c' w0 l' Hne Hw0 Hc'. destruct (H c' w0 l' Hw0 Hc') as (i' & Hcut' & Ha0). exists i'.
    split; [|done]. by apply (cut_other c c' l l' p e i' Ho Hc' Hne).
Qed.

Lemma child_after_ok c c' l l' p e w :
  owner c p l e -> kvss !! c' = Some l' -> c' <> c -> wrapper_live (live := live c') w ->
  exists w', child_after e.1 w = Some w' /\ exists i, cut l' p i /\ wat c' l' w' i.
Proof.
  intros Ho Hc' Hne Hw. pose proof Ho as (_ & He & _). pose proof (Hlaw c' l' Hc') as Law.
  assert (valid e.1) as Hve by exact (proj1 (Forall_lookup _ _) Hvalid p e He).
  destruct (wrapper_seek (L := Law) w e.1 Hw Hve) as (w' & i & E & Ha & Hs).
  pose proof (cut_key l' p e i He Hs) as Hcut.
  unfold child_after. rewrite E. cbn [mbind option_bind]. rewrite (wat_valid _ _ _ _ Ha).
  case_bool_decide as Hi; [|by eauto].
  destruct (lookup_lt_is_Some_2 l' i Hi) as [x Hx]. destruct (wat_key _ _ _ _ _ Ha Hx) as [Hv Hk].
  unfold Wrapper_key. rewrite Hv, Hk. cbn [mbind option_bind].
  destruct (child_entry c' l' i x Hc' Hx) as [q Hq].
  rewrite (Compare_order (compare := Compare)) by (done || exact (proj1 (Forall_lookup _ _) Hvalid q x Hq)).
  cbn [mbind option_bind].
  assert (order e.1 x.1 < 0) as Ho'.
  { apply (entry_order p q e x He Hq). apply (cut_other c c' l l' p e i Ho Hc' Hne) in Hcut as [_ Hcut'].
    pose proof (Hcut' i x q Hx Hq). lia. }
  rewrite (proj2 (Z.eqb_neq _ _)) by lia. by eauto.
Qed.

Lemma child_before_ok c c' l l' p e w :
  owner c p l e -> kvss !! c' = Some l' -> c' <> c -> wrapper_live (live := live c') w ->
  exists w', child_before e.1 w = Some w' /\ exists i, cut l' (S p) i /\ wat c' l' w' (back (length l') i).
Proof.
  intros Ho Hc' Hne Hw. pose proof Ho as (_ & He & _). pose proof (Hlaw c' l' Hc') as Law.
  assert (valid e.1) as Hve by exact (proj1 (Forall_lookup _ _) Hvalid p e He).
  destruct (wrapper_seek (L := Law) w e.1 Hw Hve) as (w' & i & E & Ha & Hs).
  pose proof (cut_key l' p e i He Hs) as Hcut. apply (cut_other c c' l l' p e i Ho Hc' Hne) in Hcut.
  unfold child_before. rewrite E. cbn [mbind option_bind]. rewrite (wat_valid _ _ _ _ Ha).
  case_bool_decide as Hi.
  - destruct (wrapper_prev (L := Law) w' i Ha Hi) as (w2 & -> & Ha2). by eauto.
  - assert (i = length l') as -> by (destruct Hs; lia).
    destruct (wrapper_seek_last (L := Law) w' (wrapper_at_live (L := Law) _ _ Ha)) as (w2 & -> & Ha2).
    exists w2. split; [done|]. exists (length l'). split; [done|].
    by destruct (length l'); rewrite ?Nat.sub_succ, ?Nat.sub_0_r in Ha2.
Qed.

(** Turning round. *)
Lemma turn_ahead p ws c l e :
  owner c p l e -> child_behind (S p) ws ->
  exists ws', reposition (child_after e.1) c 0 ws = Some ws' /\ child_ahead p ws'.
Proof.
  intros Ho Hb. pose proof Hb as [Hl H]. pose proof (behind_live _ _ Hb) as [_ Hlv].
  destruct (reposition_lookup (child_after e.1)
    (fun c' w => forall l', kvss !! c' = Some l' -> exists i, cut l' p i /\ wat c' l' w i) c 0 ws)
    as (ws' & E & Hl' & H').
  { intros c' w Hw. cbn [Nat.add]. destruct (decide (c' = c)) as [->|Hne].
    - intros l' Hc'. destruct (H c w l' Hw Hc') as (i & Hcut & Ha). pose proof Ho as (Hc & _).
      assert (l' = l) as -> by congruence. destruct (cut_owner_back c l p e i Ho Hcut) as (k & -> & _ & Hk).
      by exists k.
    - destruct (of_child ws c' w Hl Hw) as [l' Hc'].
      destruct (child_after_ok c c' l l' p e w Ho Hc' Hne (Hlv c' w l' Hw Hc')) as (w' & E & Hi).
      exists w'. split; [done|]. intros l0 Hl0. assert (l0 = l') as -> by congruence. done. }
  exists ws'. split; [done|]. split; [congruence|]. intros c' w l' Hw. by apply H'.
Qed.

Lemma turn_behind p ws c l e :
  owner c p l e -> child_ahead p ws ->
  exists ws', reposition (child_before e.1) c 0 ws = Some ws' /\ child_behind (S p) ws'.
Proof.
  intros Ho Hb. pose proof Hb as [Hl H]. pose proof (ahead_live _ _ Hb) as [_ Hlv].
  destruct (reposition_lookup (child_before e.1)
    (fun c' w => forall l', kvss !! c' = Some l' -> exists i, cut l' (S p) i /\ wat c' l' w (back (length l') i)) c 0 ws)
    as (ws' & E & Hl' & H').
  { intros c' w Hw. cbn [Nat.add]. destruct (decide (c' = c)) as [->|Hne].
    - intros l' Hc'. destruct (H c w l' Hw Hc') as (i & Hcut & Ha). pose proof Ho as (Hc & _).
      assert (l' = l) as -> by congruence. apply (cut_owner c l p e i Ho) in Hcut as [_ Hcut].
      by exists (S i).
    - destruct (of_child ws c' w Hl Hw) as [l' Hc'].
      destruct (child_before_ok c c' l l' p e w Ho Hc' Hne (Hlv c' w l' Hw Hc')) as (w' & E & Hi).
      exists w'. split; [done|]. intros l0 Hl0. assert (l0 = l') as -> by congruence. done. }
  exists ws'. split; [done|]. split; [congruence|]. intros c' w l' Hw. by apply H'.
Qed.

(** ** The law *)

Definition merge_live (m : MergingIterator St) : Prop := all_live (children_ m).

(** At entry [p] of the union, going forwards or backwards; not valid if there
    is none. *)
Definition merge_at (m : MergingIterator St) (p : nat) : Prop :=
  all_live (children_ m)
  /\ if decide (p < length kvs)%nat then
       exists c l e, owner c p l e /\ current_ m = Some c
         /\ match direction_ m with
            | kForward => child_ahead p (children_ m)
            | kReverse => child_behind (S p) (children_ m)
            end
     else current_ m = None.

Lemma merge_forward p ws :
  child_ahead p ws -> (p <= length kvs)%nat ->
  exists c, FindSmallest ws = Some c /\ merge_at {| children_ := ws; current_ := c; direction_ := kForward |} p.
Proof.
  intros Ha Hp. destruct (decide (p < length kvs)%nat) as [Hlt|Hge].
  - destruct (FindSmallest_ahead p ws Ha Hlt) as (c & l & e & Ho & E). exists (Some c). split; [done|].
    split; [by apply (ahead_live p)|]. rewrite decide_True by done. by exists c, l, e.
  - assert (p = length kvs) as -> by lia. exists None. split; [by apply FindSmallest_ahead_end|].
    split; [by apply (ahead_live (length kvs))|]. by rewrite decide_False by lia.
Qed.

(** Behind [p], the iterator is at the entry before [p]. *)
Lemma merge_backward p ws :
  child_behind p ws -> (p <= length kvs)%nat ->
  exists c, FindLargest ws = Some c
    /\ merge_at {| children_ := ws; current_ := c; direction_ := kReverse |} (back (length kvs) p).
Proof.
  intros Ha Hp. destruct p as [|p]; cbn [back].
  - exists None. split; [by apply FindLargest_behind_end|]. split; [by apply (behind_live 0)|].
    by rewrite decide_False by lia.
  - destruct (FindLargest_behind p ws Ha ltac:(lia)) as (c & l & e & Ho & E). exists (Some c). split; [done|].
    split; [by apply (behind_live (S p))|]. rewrite decide_True by lia. by exists c, l, e.
Qed.

(** The wrapper of the current entry. *)
Lemma merge_current m p kv :
  merge_at m p -> kvs !! p = Some kv ->
  exists c l w i, owner c p l kv /\ current_ m = Some c /\ children_ m !! c = Some w /\ wat c l w i /\ l !! i = Some kv
    /\ match direction_ m with
       | kForward => child_ahead p (children_ m)
       | kReverse => child_behind (S p) (children_ m)
       end.
Proof.
  intros [Hl H] Hkv. rewrite decide_True in H by (by apply lookup_lt_Some in Hkv).
  destruct H as (c & l & e & Ho & Hcur & Hd). pose proof Ho as (Hc & He & _).
  assert (e = kv) as -> by congruence. destruct (child_of (children_ m) c l (proj1 Hl) Hc) as [w Hw].
  exists c, l, w. destruct (direction_ m).
  - destruct (proj2 Hd c w l Hw Hc) as (i & Hcut & Ha). apply (cut_owner c l p kv i Ho) in Hcut as [Hi _].
    by exists i.
  - destruct (proj2 Hd c w l Hw Hc) as (i & Hcut & Ha).
    destruct (cut_owner_back c l p kv i Ho Hcut) as (k & -> & Hi & _). by exists k.
Qed.

Lemma Merging_Next_ok m p :
  merge_at m p -> (p < length kvs)%nat -> exists m', Merging_Next m = Some m' /\ merge_at m' (p + 1).
Proof.
  intros Hm Hp. destruct (lookup_lt_is_Some_2 kvs p Hp) as [kv Hkv].
  destruct (merge_current m p kv Hm Hkv) as (c & l & w & i & Ho & Hcur & Hw & Ha & Hi & Hd).
  unfold Merging_Next. rewrite Hcur. cbn [mbind option_bind].
  assert (exists ws, (if decide (direction_ m = kForward) then Some (children_ m)
            else w ← children_ m !! c; key ← Wrapper_key w; reposition (child_after key) c 0 (children_ m)) = Some ws
          /\ child_ahead p ws) as (ws & -> & Hws).
  { destruct (decide (direction_ m = kForward)) as [E|E]; [exists (children_ m); by rewrite E in Hd|].
    rewrite Hw. cbn [mbind option_bind]. unfold Wrapper_key. destruct (wat_key _ _ _ _ _ Ha Hi) as [-> ->].
    cbn [mbind option_bind]. apply (turn_ahead p (children_ m) c l kv Ho). by destruct (direction_ m). }
  cbn [mbind option_bind]. pose proof Ho as (Hc & _).
  destruct (child_of ws c l (proj1 Hws) Hc) as [w1 Hw1]. rewrite Hw1. cbn [mbind option_bind].
  destruct (Next_ahead p ws c l kv w1 Ho Hws Hw1) as (w2 & -> & Hws2). cbn [mbind option_bind].
  destruct (merge_forward (S p) _ Hws2) as (c' & -> & Hm'); [lia|]. cbn [mbind option_bind].
  eexists. split; [done|]. by rewrite Nat.add_1_r.
Qed.

Lemma Merging_Prev_ok m p :
  merge_at m p -> (p < length kvs)%nat ->
  exists m', Merging_Prev m = Some m' /\ merge_at m' (back (length kvs) p).
Proof.
  intros Hm Hp. destruct (lookup_lt_is_Some_2 kvs p Hp) as [kv Hkv].
  destruct (merge_current m p kv Hm Hkv) as (c & l & w & i & Ho & Hcur & Hw & Ha & Hi & Hd).
  unfold Merging_Prev. rewrite Hcur. cbn [mbind option_bind].
  assert (exists ws, (if decide (direction_ m = kReverse) then Some (children_ m)
            else w ← children_ m !! c; key ← Wrapper_key w; reposition (child_before key) c 0 (children_ m)) = Some ws
          /\ child_behind (S p) ws) as (ws & -> & Hws).
  { destruct (decide (direction_ m = kReverse)) as [E|E]; [exists (children_ m); by rewrite E in Hd|].
    rewrite Hw. cbn [mbind option_bind]. unfold Wrapper_key. destruct (wat_key _ _ _ _ _ Ha Hi) as [-> ->].
    cbn [mbind option_bind]. apply (turn_behind p (children_ m) c l kv Ho). by destruct (direction_ m). }
  cbn [mbind option_bind]. pose proof Ho as (Hc & _).
  destruct (child_of ws c l (proj1 Hws) Hc) as [w1 Hw1]. rewrite Hw1. cbn [mbind option_bind].
  destruct (Prev_behind p ws c l kv w1 Ho Hws Hw1) as (w2 & -> & Hws2). cbn [mbind option_bind].
  destruct (merge_backward p _ Hws2) as (c' & -> & Hm'); [lia|]. cbn [mbind option_bind].
  eexists. by split.
Qed.

(** An operation on all children. *)
Lemma seek_children (f : W -> option W) (P : nat -> W -> list (bytes * bytes) -> Prop) ws :
  all_live ws ->
  (forall c w l, wrapper_live (live := live c) w -> kvss !! c = Some l -> exists w', f w = Some w' /\ P c w' l) ->
  exists ws', mapM f ws = Some ws' /\ length ws' = length kvss
    /\ forall c w l, ws' !! c = Some w -> kvss !! c = Some l -> P c w l.
Proof.
  intros [Hl H] Hf.
  destruct (mapM_lookup f (fun c w => forall l, kvss !! c = Some l -> P c w l) ws) as (ws' & E & Hl' & H').
  { intros c w Hw. destruct (of_child ws c w Hl Hw) as [l Hc].
    destruct (Hf c w l (H c w l Hw Hc) Hc) as (w' & E & Hp). exists w'. split; [done|].
    intros l0 Hl0. assert (l0 = l) as -> by congruence. done. }
  exists ws'. split; [done|]. split; [congruence|]. intros c w l Hw. by apply H'.
Qed.

Lemma Merging_status_ok ws : all_live ws -> status_loop ws Status_OK = Some Status_OK.
Proof.
  intros [Hl H]. assert (Forall (fun w => Wrapper_status w = Some Status_OK) ws) as Hws.
  { apply Forall_lookup. intros c w Hw. destruct (of_child ws c w Hl Hw) as [l Hc].
    pose proof (Hlaw c l Hc) as Law. exact (Wrapper_status_ok (L := Law) w (H c w l Hw Hc)). }
  clear Hl H. induction Hws as [|w ws Hw Hws IH]; [done|]. cbn [status_loop]. rewrite Hw. exact IH.
Qed.

#[export] Instance Merging_law : IteratorLaw valid order (Merging_Iterator I) kvs merge_live merge_at.
Proof.
  split.
  - by intros m p [Hl _].
  - intros m Hl. by apply Merging_status_ok.
  - intros m p [_ H]. cbn [Valid Merging_Iterator]. unfold Merging_Valid. destruct (decide _) as [Hp|Hp].
    + destruct H as (c & l & e & _ & -> & _). rewrite !bool_decide_eq_true_2; [done|done|by eexists].
    + rewrite H, !bool_decide_eq_false_2; [done|done|by intros [? ?]].
  - intros m p kv Hm Hkv. destruct (merge_current m p kv Hm Hkv) as (c & l & w & i & (Hc & _) & Hcur & Hw & Ha & Hi & _).
    cbn [Key Value Merging_Iterator]. unfold Merging_key, Merging_value. rewrite Hcur. cbn [mbind option_bind].
    rewrite Hw. cbn [mbind option_bind]. pose proof (Hlaw c l Hc) as Law. exact (wrapper_kv (L := Law) w i kv Ha Hi).
  - intros m Hl. cbn [SeekToFirst Merging_Iterator]. unfold Merging_SeekToFirst.
    destruct (seek_children Wrapper_SeekToFirst (fun c w l => exists i, cut l 0 i /\ wat c l w i) _ Hl) as (ws & -> & Hws).
    { intros c w l Hw Hc. pose proof (Hlaw c l Hc) as Law. destruct (wrapper_seek_first (L := Law) w Hw) as (w' & E & Ha).
      exists w'. split; [done|]. exists 0%nat. split; [apply cut_0|done]. }
    cbn [mbind option_bind]. destruct (merge_forward 0 ws Hws) as (c & -> & Hm); [lia|]. by eexists.
  - intros m Hl. cbn [SeekToLast Merging_Iterator]. unfold Merging_SeekToLast.
    destruct (seek_children Wrapper_SeekToLast
      (fun c w l => exists i, cut l (length kvs) i /\ wat c l w (back (length l) i)) _ Hl) as (ws & -> & Hws).
    { intros c w l Hw Hc. pose proof (Hlaw c l Hc) as Law. destruct (wrapper_seek_last (L := Law) w Hw) as (w' & E & Ha).
      exists w'. split; [done|]. exists (length l). split; [apply cut_end|].
      by destruct (length l); rewrite ?Nat.sub_succ, ?Nat.sub_0_r in Ha. }
    cbn [mbind option_bind]. destruct (merge_backward (length kvs) ws Hws) as (c & -> & Hm); [lia|].
    eexists. split; [done|]. by destruct (length kvs); rewrite ?Nat.sub_succ, ?Nat.sub_0_r.
  - intros m t Hl Ht. cbn [Seek Merging_Iterator]. unfold Merging_Seek.
    destruct (splits_at_exists (compare := Compare) kvs t Hasc Hvalid Ht) as [p Hp].
    destruct (seek_children (fun w => Wrapper_Seek w t) (fun c w l => exists i, cut l p i /\ wat c l w i) _ Hl)
      as (ws & -> & Hws).
    { intros c w l Hw Hc. pose proof (Hlaw c l Hc) as Law.
      destruct (wrapper_seek (L := Law) w t Hw Ht) as (w' & i & E & Ha & Hs).
      exists w'. split; [done|]. exists i. split; [by apply (cut_splits l t)|done]. }
    cbn [mbind option_bind]. destruct (merge_forward p ws Hws (proj1 Hp)) as (c & -> & Hm).
    eexists _, p. by split_and!.
  - intros m p Hm Hp. by apply Merging_Next_ok.
  - intros m p Hm Hp. by apply Merging_Prev_ok.
Qed.

(** A new iterator over children that are somewhere. *)
Lemma MergingIterator_new_ok its :
  Forall2 (fun c it => exists l i, kvss !! c = Some l /\ at_pos c it i) (seq 0 (length kvss)) its ->
  exists m, MergingIterator_new its = Some m /\ merge_live m /\ Merging_Valid m = false.
Proof.
  intros H. assert (length its = length kvss) as Hlen by (apply Forall2_length in H; by rewrite length_seq in H).
  unfold MergingIterator_new.
  destruct (mapM_lookup (fun it => Wrapper_Set Wrapper_new (Some it))
    (fun c w => forall l, kvss !! c = Some l -> wrapper_live (live := live c) w) its) as (ws & -> & Hl & Hws).
  - intros c it Hit. pose proof (lookup_lt_Some _ _ _ Hit) as Hlt.
    destruct (Forall2_lookup_r _ _ _ c it H Hit) as (c' & Hc' & l & i & Hc & Ha).
    apply lookup_seq in Hc' as [-> _]. cbn [Nat.add] in *.
    pose proof (Hlaw c l Hc) as Law. destruct (Wrapper_Set_at (L := Law) Wrapper_new it i Ha) as (w & E & Hw).
    exists w. split; [done|]. intros l' Hl'. by apply (wrapper_at_live (L := Law) w i).
  - cbn [mbind option_bind]. eexists. split; [done|]. split; [|done].
    split; [cbn [children_]; congruence|]. intros c w l Hw Hc. exact (Hws c w Hw l Hc).
Qed.
End Merge.
