(* ===== verification/LdbIterThms.v ===== *)
(** leveldb: theorems about the iterators of blocks and their composition. *)
From stdpp Require Import base numbers option strings list.
From S2P Require Import Prelude Varint LdbSlice LdbCoding LdbComparator LdbIterator LdbBlock LdbBlockThms LdbMerger LdbMergerThms.
Open Scope Z_scope.
Open Scope c_scope.

#[local] Existing Instance Block_Iterator.

(** C21: entries in ascending order can be added to a new block builder one after
    the other; the size estimate is the size of the finished block; and if that
    size fits 32 bits, the block opens and its iterator goes over exactly these
    entries, forwards and backwards, finds for every target the first entry that
    is not before it, and reports no error. *)
Theorem block_roundtrip {C : Comparator} {valid order} {CL : CompareLaw Compare valid order}
    (interval : Z) (kvs : list (bytes * bytes)) :
  1 <= interval -> Forall kv_fits kvs -> Forall (fun kv => valid kv.1) kvs -> ascending order kvs ->
  exists b, BlockBuilder_new interval ≫= (fun b => add_all interval b kvs) = Some b
    /\ zlen (fst (BlockBuilder_Finish b)) = BlockBuilder_CurrentSizeEstimate b
    /\ (BlockBuilder_CurrentSizeEstimate b < 2 ^ 32 ->
        exists blk s, Block_new (fst (BlockBuilder_Finish b)) = Some blk
          /\ Block_NewIterator blk = Some s /\ status s = Some Status_OK
          /\ SeekToFirst s ≫= collect (length kvs) Next = Some kvs
          /\ SeekToLast s ≫= collect (length kvs) Prev = Some (rev kvs)
          /\ forall t, valid t ->
               exists s' i, Seek s t = Some s' /\ splits_at order kvs t i
                 /\ Valid s' = bool_decide (i < length kvs)%nat
                 /\ collect (length kvs) Next s' = Some (drop i kvs)).
Proof.
  intros Hi Hf Hv Ha. unfold BlockBuilder_new. rewrite (proj2 (Z.leb_le _ _)) by done. cbn [mbind option_bind].
  destruct (add_all_ok interval Hi _ [] [0%nat] kvs (builder_holds_new interval Hi) Hf Hv Ha)
    as (b & xs & ms & -> & Exs & Hb). simpl in Exs. subst kvs.
  exists b. split; [done|]. rewrite (Finish_contents interval b xs ms Hb).
  assert (zlen (block_contents xs ms) = BlockBuilder_CurrentSizeEstimate b) as Es.
  { unfold BlockBuilder_CurrentSizeEstimate.
    rewrite block_contents_length, (bh_buffer _ _ _ _ Hb), (bh_restarts _ _ _ _ Hb), length_map, item_off_total. lia. }
  split; [done|]. rewrite <- Es. intros Hlt.
  assert (block_rep xs ms) as Hrep by (split; [done|apply (bh_wf _ _ _ _ Hb)]).
  destruct (Block_new_rep xs ms Hrep) as (blk & it & E1 & _ & _ & E2 & Hat).
  pose proof (Block_law xs ms Hrep Hv Ha) as Law. pose proof (at_live _ _ Hat) as Hl.
  exists blk, (BlockEntries (block_contents xs ms) it). split_and!; [done..|apply (at_status _ Hl)| | |].
  - by apply (collect_forward (L := Law)).
  - by apply (collect_backward (L := Law)).
  - intros t Ht. by apply (collect_from (L := Law)).
Qed.

Lemma block_roundtrip_witness :
  let kvs := [([97], [1]); ([97; 98], [2]); ([99], [])] in
  exists b, BlockBuilder_new 2 ≫= (fun b => add_all 2 b kvs) = Some b
    /\ zlen (fst (BlockBuilder_Finish b)) = BlockBuilder_CurrentSizeEstimate b.
Proof.
  destruct (block_roundtrip (C := BytewiseComparator) (valid := Forall is_byte) (order := Slice_compare)
              2 [([97], [1]); ([97; 98], [2]); ([99], [])]) as (b & E & Es & _).
  - lia.
  - repeat (constructor; [split_and!; try (vm_compute; done);
      repeat (constructor; [unfold in_uint; lia|]); constructor|]). constructor.
  - repeat (constructor; [repeat (constructor; [unfold in_uint; lia|]); constructor|]). constructor.
  - intros [|[|[|i]]] x y Hx Hy; try discriminate; injection Hx as <-; injection Hy as <-; vm_compute; done.
  - by exists b.
Defined.





(** C20: a merging iterator goes over the union of what its children go over, in
    the order of the comparator, forwards and backwards and with changes of the
    direction in between: it has the law of an iterator over the union.  For one
    child it is the child, for none the union is empty.  The keys of all children
    are different, as internal keys are. *)
Theorem merging_iterator_union {C : Comparator} {St} {I : Iterator St} {valid order}
    {CL : CompareLaw Compare valid order} (kvss : list (list (bytes * bytes))) (kvs : list (bytes * bytes))
    (live : nat -> St -> Prop) (at_pos : nat -> St -> nat -> Prop) (its : list St) :
  (forall c l, kvss !! c = Some l -> IteratorLaw valid order I l (live c) (at_pos c)) ->
  Forall2 (fun c it => exists l i, kvss !! c = Some l /\ at_pos c it i) (seq 0 (length kvss)) its ->
  kvs ≡ₚ concat kvss -> Forall (fun kv => valid kv.1) kvs ->
  ascending order kvs -> Forall (ascending order) kvss ->
  exists m, NewMergingIterator its = Some m
    /\ match m with
       | MergedEmpty => kvs = []
       | MergedOne it => iterates valid order I kvs it
       | MergedMany m => Valid (Iterator := Merging_Iterator I) m = false
                          /\ iterates valid order (Merging_Iterator I) kvs m
       end.
Proof.
  intros Hlaw Hits Hp Hv Ha Hc. pose proof (Forall2_length _ _ _ Hits) as Hlen. rewrite length_seq in Hlen.
  destruct its as [|it its]; [|destruct its as [|it2 its]].
  - exists MergedEmpty. split; [done|]. destruct kvss; [|done]. by apply Permutation_nil_r.
  - exists (MergedOne it). split; [done|]. destruct kvss as [|l [|]]; [done| |done].
    cbn [concat] in Hp. rewrite app_nil_r in Hp. apply Forall_cons in Hc as [Hcl _].
    assert (kvs = l) as -> by (by apply (ascending_unique (compare := Compare) (valid := valid) (order := order))).
    inversion Hits as [|? ? ? ? (l' & i & Hl' & Hat) _]; subst. injection Hl' as <-.
    pose proof (Hlaw 0%nat l eq_refl) as Law. exists (live 0%nat), (at_pos 0%nat). split; [done|].
    exact (at_live _ i Hat).
  - destruct (MergingIterator_new_ok kvss live at_pos Hlaw (it :: it2 :: its) Hits) as (m & E & Hl & Hval).
    exists (MergedMany m). cbn [NewMergingIterator]. rewrite E. split; [done|]. split; [done|].
    eexists _, (merge_at kvss kvs live at_pos). split; [|exact Hl]. by apply (Merging_law kvss kvs live at_pos).
Qed.

(** The one entry block with the key [a] and a value of one byte. *)
Definition entry_block (k v : Z) : bytes := [0; 1; 1; k; v; 0; 0; 0; 0; 1; 0; 0; 0].

Definition entry_block_iter (k v : Z) : BlockIterator :=
  BlockEntries (entry_block k v) {| bi_restarts := 5; bi_num_restarts := 1; bi_current := 5;
    bi_restart_index := 1; bi_key := []; bi_value := None; bi_status := None |}.

Lemma entry_block_law k v :
  is_byte k -> is_byte v ->
  exists live at_pos, IteratorLaw (Forall is_byte) Slice_compare (Block_Iterator BytewiseComparator) [([k], [v])] live at_pos
    /\ at_pos (entry_block_iter k v) 1%nat.
Proof.
  intros Hk Hv. set (xs := [{| i_shared := 0; i_key := [k]; i_value := [v] |}]).
  assert (block_rep xs [0%nat]) as Hrep.
  { assert (block_contents xs [0%nat] = entry_block k v) as E by reflexivity.
    split; [by rewrite E|]. split.
    - constructor; [|constructor]. split; (constructor; [done|constructor]).
    - intros x [= <-]. split_and!; simpl; (lia || done).
    - by intros [|i] x y.
    - done.
    - intros [|j] m x; [|done]. intros [= <-] [= <-]. done.
    - intros [|j] m; [|done]. intros [= <-]. simpl. split; lia.
    - by intros [|j] m m'. }
  eexists _, (block_at xs [0%nat]). split.
  - apply (Block_law xs [0%nat] Hrep); [|by intros [|i] x y]. constructor; [|constructor]. constructor; [done|constructor].
  - eexists. split; [reflexivity|]. split; [|done]. unfold at_index. by cbn.
Qed.

Lemma merging_iterator_union_witness :
  exists m, NewMergingIterator (I := Block_Iterator BytewiseComparator)
              [entry_block_iter 98 2; entry_block_iter 97 1] = Some (MergedMany m)
    /\ iterates (Forall is_byte) Slice_compare (Merging_Iterator (Block_Iterator BytewiseComparator))
         [([97], [1]); ([98], [2])] m.
Proof.
  assert (is_byte 97 /\ is_byte 98 /\ is_byte 1 /\ is_byte 2) as (B1 & B2 & B3 & B4) by (unfold in_uint; lia).
  destruct (entry_block_law 98 2) as (l1 & p1 & L1 & A1); [done..|].
  destruct (entry_block_law 97 1) as (l2 & p2 & L2 & A2); [done..|].
  destruct (merging_iterator_union (C := BytewiseComparator) (I := Block_Iterator BytewiseComparator)
    (valid := Forall is_byte) (order := Slice_compare) [[([98], [2])]; [([97], [1])]] [([97], [1]); ([98], [2])]
    (fun c => match c with O => l1 | _ => l2 end) (fun c => match c with O => p1 | _ => p2 end)
    [entry_block_iter 98 2; entry_block_iter 97 1]) as (m & E & Hm).
  - intros [|[|c]] l; [intros [= <-]; exact L1|intros [= <-]; exact L2|done].
  - constructor; [by eexists _, _|]. constructor; [by eexists _, _|]. constructor.
  - by apply perm_swap.
  - repeat (constructor; [constructor; [done|constructor]|]). constructor.
  - intros [|[|i]] x y Hx Hy; try discriminate; injection Hx as <-; injection Hy as <-; vm_compute; done.
  - repeat (constructor; [by intros [|i] x y|]). constructor.
  - vm_compute in E. injection E as <-. eexists. split; [vm_compute; reflexivity|]. apply Hm.
Defined.

(** if two children hold the same key, going forwards gives it twice, but
    going back from the second does not give the first. *)
Theorem merger_loses_equal_keys :
  let its := [entry_block_iter 97 1; entry_block_iter 97 2] in
  exists m m1 m2,
    NewMergingIterator (I := Block_Iterator BytewiseComparator) its = Some (MergedMany m)
    /\ Merging_SeekToFirst (I := Block_Iterator BytewiseComparator) m = Some m1
    /\ Merging_key m1 = Some [97] /\ Merging_value (I := Block_Iterator BytewiseComparator) m1 = Some [1]
    /\ Merging_Next (I := Block_Iterator BytewiseComparator) m1 = Some m2
    /\ Merging_key m2 = Some [97] /\ Merging_value (I := Block_Iterator BytewiseComparator) m2 = Some [2]
    /\ Merging_Valid <$> Merging_Prev (I := Block_Iterator BytewiseComparator) m2 = Some false.
Proof.
  eexists _, _, _. split; [vm_compute; reflexivity|]. split; [vm_compute; reflexivity|].
  split; [vm_compute; reflexivity|]. split; [vm_compute; reflexivity|]. split; [vm_compute; reflexivity|].
  split_and!; vm_compute; reflexivity.
Qed.
