(* ===== verification/LdbTwoLevel.v ===== *)
(** leveldb: the iterator over an index whose values stand for blocks,
    [two_level_iterator.h] and [two_level_iterator.cc].

    [block_function_] with its argument and options is one function from the
    index value to an iterator; [fuel] bounds the rounds of the loops that skip
    empty blocks, one round for each index entry is enough. *)
From stdpp Require Import base numbers option list.
From S2P Require Import Prelude LdbSlice LdbComparator LdbIterator.
Open Scope Z_scope.

Record TwoLevelIterator (SI SD : Type) : Type := {
  tl_status : Status;
  index_iter_ : IteratorWrapper SI;
  data_iter_ : IteratorWrapper SD;
  data_block_handle_ : bytes
}.
#[global] Arguments tl_status {SI SD} _.
#[global] Arguments index_iter_ {SI SD} _.
#[global] Arguments data_iter_ {SI SD} _.
#[global] Arguments data_block_handle_ {SI SD} _.

Section TwoLevel.
Context {SI SD : Type} {II : Iterator SI} {DI : Iterator SD}.
Context (block_function_ : bytes -> option SD) (fuel : nat).

#[local] Notation TL := (TwoLevelIterator SI SD).

Definition set_index (t : TL) (w : IteratorWrapper SI) : TL :=
  {| tl_status := tl_status t; index_iter_ := w; data_iter_ := data_iter_ t;
     data_block_handle_ := data_block_handle_ t |}.

Definition set_data (t : TL) (w : IteratorWrapper SD) : TL :=
  {| tl_status := tl_status t; index_iter_ := index_iter_ t; data_iter_ := w;
     data_block_handle_ := data_block_handle_ t |}.

Definition NewTwoLevelIterator (index_iter : SI) : option TL :=
  w ← Wrapper_Set Wrapper_new (Some index_iter);
  d ← Wrapper_Set Wrapper_new None;
  Some {| tl_status := Status_OK; index_iter_ := w; data_iter_ := d; data_block_handle_ := [] |}.

Definition SaveError (t : TL) (s : Status) : TL :=
  if Status_ok (tl_status t) && negb (Status_ok s)
  then {| tl_status := s; index_iter_ := index_iter_ t; data_iter_ := data_iter_ t;
          data_block_handle_ := data_block_handle_ t |}
  else t.

Definition has_data (t : TL) : bool := bool_decide (is_Some (iter_ (data_iter_ t))).

Definition SetDataIterator (t : TL) (data_iter : option SD) : option TL :=
  t ← (if has_data t then s ← Wrapper_status (data_iter_ t); Some (SaveError t s) else Some t);
  w ← Wrapper_Set (data_iter_ t) data_iter;
  Some (set_data t w).

Definition InitDataBlock (t : TL) : option TL :=
  if negb (valid_ (index_iter_ t)) then SetDataIterator t None
  else
    handle ← Wrapper_value (index_iter_ t);
    if has_data t && (Slice_compare handle (data_block_handle_ t) =? 0) then Some t
    else
      iter ← block_function_ handle;
      SetDataIterator {| tl_status := tl_status t; index_iter_ := index_iter_ t;
                         data_iter_ := data_iter_ t; data_block_handle_ := handle |} (Some iter).

(** [if (data_iter_.iter() != nullptr) data_iter_.op()] *)
Definition data_do (op : IteratorWrapper SD -> option (IteratorWrapper SD)) (t : TL) : option TL :=
  if has_data t then w ← op (data_iter_ t); Some (set_data t w) else Some t.

Definition tl_Valid (t : TL) : bool := valid_ (data_iter_ t).

Fixpoint skip_forward (n : nat) (t : TL) : option TL :=
  if negb (has_data t) || negb (valid_ (data_iter_ t)) then
    if negb (valid_ (index_iter_ t)) then SetDataIterator t None
    else
      match n with
      | O => None
      | S n' =>
          w ← Wrapper_Next (index_iter_ t);
          t ← InitDataBlock (set_index t w);
          t ← data_do Wrapper_SeekToFirst t;
          skip_forward n' t
      end
  else Some t.

Fixpoint skip_backward (n : nat) (t : TL) : option TL :=
  if negb (has_data t) || negb (valid_ (data_iter_ t)) then
    if negb (valid_ (index_iter_ t)) then SetDataIterator t None
    else
      match n with
      | O => None
      | S n' =>
          w ← Wrapper_Prev (index_iter_ t);
          t ← InitDataBlock (set_index t w);
          t ← data_do Wrapper_SeekToLast t;
          skip_backward n' t
      end
  else Some t.

Definition SkipEmptyDataBlocksForward : TL -> option TL := skip_forward fuel.
Definition SkipEmptyDataBlocksBackward : TL -> option TL := skip_backward fuel.

Definition tl_Seek (t : TL) (target : bytes) : option TL :=
  w ← Wrapper_Seek (index_iter_ t) target;
  t ← InitDataBlock (set_index t w);
  t ← data_do (fun w => Wrapper_Seek w target) t;
  SkipEmptyDataBlocksForward t.

Definition tl_SeekToFirst (t : TL) : option TL :=
  w ← Wrapper_SeekToFirst (index_iter_ t);
  t ← InitDataBlock (set_index t w);
  t ← data_do Wrapper_SeekToFirst t;
  SkipEmptyDataBlocksForward t.

Definition tl_SeekToLast (t : TL) : option TL :=
  w ← Wrapper_SeekToLast (index_iter_ t);
  t ← InitDataBlock (set_index t w);
  t ← data_do Wrapper_SeekToLast t;
  SkipEmptyDataBlocksBackward t.

Definition tl_Next (t : TL) : option TL :=
  if tl_Valid t then w ← Wrapper_Next (data_iter_ t); SkipEmptyDataBlocksForward (set_data t w) else None.

Definition tl_Prev (t : TL) : option TL :=
  if tl_Valid t then w ← Wrapper_Prev (data_iter_ t); SkipEmptyDataBlocksBackward (set_data t w) else None.

Definition tl_key (t : TL) : option bytes := if tl_Valid t then Wrapper_key (data_iter_ t) else None.
Definition tl_value (t : TL) : option bytes := if tl_Valid t then Wrapper_value (data_iter_ t) else None.

Definition tl_get_status (t : TL) : option Status :=
  s ← Wrapper_status (index_iter_ t);
  if negb (Status_ok s) then Some s
  else if has_data t then
    s ← Wrapper_status (data_iter_ t);
    if negb (Status_ok s) then Some s else Some (tl_status t)
  else Some (tl_status t).

Definition TwoLevel_Iterator : Iterator TL := {|
  Valid := tl_Valid;
  SeekToFirst := tl_SeekToFirst;
  SeekToLast := tl_SeekToLast;
  Seek := tl_Seek;
  Next := tl_Next;
  Prev := tl_Prev;
  Key := tl_key;
  Value := tl_value;
  status := tl_get_status
|}.
End TwoLevel.

(** * Where the blocks are in the concatenation *)
Section Base.
Context (kvss : list (list (bytes * bytes))).
#[local] Notation kvs := (concat kvss).

(** Where block [c] starts in the concatenation. *)
Definition base (c : nat) : nat := length (concat (take c kvss)).

Lemma base_S c l : kvss !! c = Some l -> base (S c) = (base c + length l)%nat.
Proof.
  intros Hc. unfold base. rewrite (take_S_r _ _ _ Hc), concat_app, length_app. cbn [concat].
  by rewrite app_nil_r.
Qed.

Lemma base_end : base (length kvss) = length kvs.
Proof. unfold base. by rewrite take_ge by lia. Qed.

Lemma concat_around c l :
  kvss !! c = Some l -> kvs = concat (take c kvss) ++ l ++ concat (drop (S c) kvss).
Proof. intros Hc. by rewrite <- (take_drop_middle _ _ _ Hc) at 1; rewrite concat_app. Qed.

Lemma base_entry c l j : kvss !! c = Some l -> (j < length l)%nat -> kvs !! (base c + j)%nat = l !! j.
Proof.
  intros Hc Hj. unfold base. rewrite (concat_around c l Hc).
  rewrite lookup_app_r by lia. replace (_ + j - _)%nat with j by lia. by rewrite lookup_app_l.
Qed.

Lemma base_le c l : kvss !! c = Some l -> (base c + length l <= length kvs)%nat.
Proof.
  intros Hc. unfold base. rewrite (concat_around c l Hc), !length_app. lia.
Qed.

(** Every entry is in a block. *)
Lemma entry_block_of ls p (kv : bytes * bytes) :
  concat ls !! p = Some kv -> exists c l j, ls !! c = Some l /\ l !! j = Some kv
    /\ p = (length (concat (take c ls)) + j)%nat.
Proof.
  revert p. induction ls as [|l ls IH]; intros p Hp; [done|]. cbn [concat] in Hp.
  apply lookup_app_Some in Hp as [Hp|[Hle Hp]].
  - exists 0%nat, l, p. by split_and!.
  - destruct (IH _ Hp) as (c & l' & j & Hc & Hj & E). exists (S c), l', j. split_and!; [done..|].
    cbn [take concat]. rewrite length_app. lia.
Qed.

Lemma base_mono c c' : (c <= c')%nat -> (base c <= base c')%nat.
Proof.
  intros Hc. unfold base. rewrite <- (take_drop c (take c' kvss)), concat_app, length_app, take_take.
  rewrite Nat.min_l by done. lia.
Qed.
End Base.

(** * The concatenation of the blocks *)
Section Law.
Context {SI SD : Type} {II : Iterator SI} {DI : Iterator SD}.
Context {compare : bytes -> bytes -> option Z} {valid : bytes -> Prop} {order : bytes -> bytes -> Z}
  {CL : CompareLaw compare valid order}.
Context (block_function_ : bytes -> option SD) (fuel : nat).
Context (ixs : list (bytes * bytes)) (kvss : list (list (bytes * bytes))).
Context (ilive : SI -> Prop) (iat : SI -> nat -> Prop) (live : nat -> SD -> Prop) (at_pos : nat -> SD -> nat -> Prop).
Context {IL : IteratorLaw valid order II ixs ilive iat}.
Context (Hlen : length ixs = length kvss) (Hfuel : (length ixs < fuel)%nat).
Context (Hlaw : forall c l, kvss !! c = Some l -> IteratorLaw valid order DI l (live c) (at_pos c)).
Context (Hopen : forall c ix, ixs !! c = Some ix -> exists s i, block_function_ ix.2 = Some s /\ at_pos c s i).
Context (Hhandles : NoDup ixs.*2) (Hvalid : Forall (fun kv => valid kv.1) (concat kvss))
  (Hivalid : Forall (fun kv => valid kv.1) ixs) (Hiasc : ascending order ixs).
(** A key of the index is not before the keys of its block and before the keys
    of the blocks behind it. *)
Context (Hin : forall c ix l kv, ixs !! c = Some ix -> kvss !! c = Some l -> kv ∈ l -> order kv.1 ix.1 <= 0)
  (Hout : forall c c' ix l kv, ixs !! c = Some ix -> kvss !! c' = Some l -> (c < c')%nat -> kv ∈ l ->
            order ix.1 kv.1 < 0).

#[local] Notation TL := (TwoLevelIterator SI SD).
#[local] Notation kvs := (concat kvss).
#[local] Notation dat c l := (wrapper_at (kvs := l) (at_pos := at_pos c)).
#[local] Notation base := (base kvss).
#[local] Notation iwat := (wrapper_at (kvs := ixs) (at_pos := iat)).

Lemma block_of c : (c < length ixs)%nat -> exists ix l, ixs !! c = Some ix /\ kvss !! c = Some l.
Proof.
  intros Hc. destruct (lookup_lt_is_Some_2 ixs c Hc) as [ix Hix].
  destruct (lookup_lt_is_Some_2 kvss c ltac:(lia)) as [l Hl]. by exists ix, l.
Qed.

(** The data iterator, if there is one, is that of the block of its handle. *)
Definition data_live (t : TL) : Prop :=
  iter_ (data_iter_ t) = None
  \/ exists c ix, ixs !! c = Some ix /\ data_block_handle_ t = ix.2 /\ wrapper_live (live := live c) (data_iter_ t).

Definition tl_live (t : TL) : Prop :=
  wrapper_live (live := ilive) (index_iter_ t) /\ tl_status t = Status_OK /\ data_live t.

(** At index entry [c], with the data iterator at [j] in its block if there is
    such a block. *)
Definition tl_raw (t : TL) (c j : nat) : Prop :=
  iwat (index_iter_ t) c /\ tl_status t = Status_OK
  /\ match ixs !! c, kvss !! c with
     | Some ix, Some l => data_block_handle_ t = ix.2 /\ dat c l (data_iter_ t) j
     | _, _ => iter_ (data_iter_ t) = None
     end.

(** At an entry of the concatenation, or not valid. *)
Definition tl_at (t : TL) (p : nat) : Prop :=
  tl_live t
  /\ if decide (p < length kvs)%nat then
       exists c l j, kvss !! c = Some l /\ (j < length l)%nat /\ p = (base c + j)%nat /\ tl_raw t c j
     else valid_ (data_iter_ t) = false.

Lemma tl_raw_live t c j : tl_raw t c j -> tl_live t.
Proof.
  intros (Hi & Hs & Hd). split; [exact (wrapper_at_live (L := IL) _ c Hi)|]. split; [done|].
  destruct (ixs !! c) as [ix|] eqn:Ei; [|by left]. destruct (kvss !! c) as [l|] eqn:El; [|by left].
  right. exists c, ix. destruct Hd as [Hh Hd]. pose proof (Hlaw c l El) as Law.
  split_and!; [done..|exact (wrapper_at_live (L := Law) _ j Hd)].
Qed.

Lemma data_status t : data_live t -> has_data t = true -> Wrapper_status (data_iter_ t) = Some Status_OK.
Proof.
  unfold has_data. intros [E|(c & ix & Hc & _ & Hw)] Hd; apply bool_decide_eq_true_1 in Hd as [s Hs]; [congruence|].
  destruct (block_of c) as (ix' & l & _ & Hl); [by apply lookup_lt_Some in Hc|].
  pose proof (Hlaw c l Hl) as Law. exact (Wrapper_status_ok (L := Law) _ Hw).
Qed.

(** Replacing the data iterator saves no error. *)
Lemma SetDataIterator_ok (t : TL) h d w :
  data_live t -> tl_status t = Status_OK -> Wrapper_Set (data_iter_ t) d = Some w ->
  SetDataIterator {| tl_status := tl_status t; index_iter_ := index_iter_ t;
                     data_iter_ := data_iter_ t; data_block_handle_ := h |} d
  = Some {| tl_status := Status_OK; index_iter_ := index_iter_ t; data_iter_ := w; data_block_handle_ := h |}.
Proof.
  intros Hd Hs Hw. unfold SetDataIterator. set (t' := {| tl_status := _ |}).
  assert ((if has_data t' then s ← Wrapper_status (data_iter_ t'); Some (SaveError t' s) else Some t') = Some t') as ->.
  { destruct (has_data t') eqn:E; [|done]. change (data_iter_ t') with (data_iter_ t).
    rewrite (data_status t Hd E). cbn [mbind option_bind]. unfold SaveError. by rewrite andb_false_r. }
  cbn [mbind option_bind]. change (data_iter_ t') with (data_iter_ t). rewrite Hw. cbn [mbind option_bind].
  unfold set_data, t'. cbn [tl_status index_iter_ data_block_handle_]. by rewrite Hs.
Qed.

Lemma SetDataIterator_None t :
  data_live t -> tl_status t = Status_OK ->
  exists t', SetDataIterator t None = Some t' /\ tl_status t' = Status_OK /\ index_iter_ t' = index_iter_ t
    /\ iter_ (data_iter_ t') = None /\ valid_ (data_iter_ t') = false.
Proof.
  intros Hd Hs. pose proof (SetDataIterator_ok t (data_block_handle_ t) None _ Hd Hs eq_refl) as E.
  destruct t. cbn [data_block_handle_ tl_status index_iter_ data_iter_] in *. rewrite E. eexists. by split_and!.
Qed.

Lemma InitDataBlock_ok t c :
  iwat (index_iter_ t) c -> data_live t -> tl_status t = Status_OK ->
  exists t', InitDataBlock block_function_ t = Some t' /\ tl_status t' = Status_OK
    /\ index_iter_ t' = index_iter_ t
    /\ match ixs !! c, kvss !! c with
       | Some ix, Some l => data_block_handle_ t' = ix.2 /\ wrapper_live (live := live c) (data_iter_ t')
       | _, _ => iter_ (data_iter_ t') = None
       end.
Proof.
  intros Hi Hd Hs. pose proof Hi as (s & Es & _ & Hv & _). unfold InitDataBlock. rewrite Hv.
  case_bool_decide as Hc; cbn [negb].
  - destruct (block_of c Hc) as (ix & l & Hix & Hl). rewrite Hix, Hl.
    destruct (wrapper_kv (L := IL) (index_iter_ t) c ix Hi Hix) as [_ ->]. cbn [mbind option_bind].
    destruct (has_data t && (Slice_compare ix.2 (data_block_handle_ t) =? 0)) eqn:E.
    + apply andb_true_iff in E as [E1 E2%Z.eqb_eq%Slice_compare_eq].
      exists t. split_and!; [done..|].
      destruct Hd as [E|(c0 & ix0 & Hc0 & Hh0 & Hw)];
        [unfold has_data in E1; apply bool_decide_eq_true_1 in E1 as [? ?]; congruence|].
      assert (c0 = c) as <-; [|done]. apply (NoDup_lookup (ixs.*2) c0 c ix.2 Hhandles);
        rewrite list_lookup_fmap; [rewrite Hc0|by rewrite Hix]. cbn. congruence.
    + destruct (Hopen c ix Hix) as (d & i & -> & Ha). cbn [mbind option_bind].
      pose proof (Hlaw c l Hl) as Law. destruct (Wrapper_Set_at (L := Law) (data_iter_ t) d i Ha) as (w & Ew & Hw).
      rewrite (SetDataIterator_ok t ix.2 (Some d) w Hd Hs Ew). eexists. split_and!; [done..|].
      exact (wrapper_at_live (L := Law) w i Hw).
  - destruct (SetDataIterator_None t Hd Hs) as (t' & E & H1 & H2 & H3 & _). exists t'. split_and!; [done..|].
    by rewrite lookup_ge_None_2 by lia.
Qed.

(** An operation on the data iterator after [InitDataBlock]. *)
Lemma init_do (op : IteratorWrapper SD -> option (IteratorWrapper SD)) (f : nat -> list (bytes * bytes) -> nat -> Prop)
    (t : TL) (w : IteratorWrapper SI) c :
  iwat w c -> tl_live t ->
  (forall l d, kvss !! c = Some l -> wrapper_live (live := live c) d ->
     exists d' j, op d = Some d' /\ f c l j /\ dat c l d' j) ->
  exists t1 t2 j, InitDataBlock block_function_ (set_index t w) = Some t1 /\ data_do op t1 = Some t2
    /\ tl_raw t2 c j /\ (forall l, kvss !! c = Some l -> f c l j).
Proof.
  intros Hi (_ & Hs & Hd) Hop.
  destruct (InitDataBlock_ok (set_index t w) c Hi Hd Hs) as (t1 & E1 & S1 & I1 & D1).
  exists t1. unfold data_do, has_data. destruct (ixs !! c) as [ix|] eqn:Ex; [|].
  - destruct (block_of c) as (ix' & l & Hix' & Hl); [by apply lookup_lt_Some in Ex|]. rewrite Hl in D1.
    destruct D1 as [H1 Hw]. destruct (Hop l (data_iter_ t1) Hl Hw) as (d' & j & Ed & Hf & Hd').
    pose proof Hw as (s & Es & _). exists (set_data t1 d'), j. split; [done|].
    rewrite bool_decide_eq_true_2 by (rewrite Es; by eexists). rewrite Ed. split; [done|]. split.
    + split; [unfold set_data; cbn [index_iter_]; by rewrite I1|]. split; [done|]. rewrite Ex, Hl. by split.
    + intros l' Hl'. assert (l' = l) as -> by congruence. done.
  - exists t1, 0%nat. split; [done|]. rewrite D1, bool_decide_eq_false_2 by (by intros [? ?]). split; [done|].
    apply lookup_ge_None in Ex. split.
    + split; [unfold set_data; cbn [index_iter_]; by rewrite I1|]. split; [done|]. by rewrite (lookup_ge_None_2 ixs) by done.
    + intros l Hl. apply lookup_lt_Some in Hl. lia.
Qed.

Lemma tl_at_raw t c l j :
  kvss !! c = Some l -> (j < length l)%nat -> tl_raw t c j -> tl_at t (base c + j).
Proof.
  intros Hc Hj Ht. split; [by apply (tl_raw_live t c j)|]. pose proof (base_le kvss c l Hc).
  rewrite decide_True by lia. by exists c, l, j.
Qed.

(** At the end of the index. *)
Lemma skip_end (t : TL) :
  tl_live t -> exists t', SetDataIterator t None = Some t' /\ tl_at t' (length kvs).
Proof.
  intros (Hi & Hs & Hd). destruct (SetDataIterator_None t Hd Hs) as (t' & E & H1 & H2 & H3 & H4).
  exists t'. split; [done|]. split.
  - split; [by rewrite H2|]. split; [done|by left].
  - by rewrite decide_False by lia.
Qed.

Lemma raw_valid t c j l :
  tl_raw t c j -> kvss !! c = Some l ->
  has_data t = true /\ valid_ (data_iter_ t) = bool_decide (j < length l)%nat
  /\ valid_ (index_iter_ t) = true.
Proof.
  intros (Hi & _ & Hd) Hl. destruct (block_of c) as (ix & l' & Hix & Hl'); [apply lookup_lt_Some in Hl; lia|].
  rewrite Hix, Hl in Hd. destruct Hd as [_ (s & Hs & _ & Hv & _)]. destruct Hi as (s' & _ & _ & Hv' & _).
  split_and!; [|done|].
  - apply bool_decide_eq_true_2. rewrite Hs. by eexists.
  - rewrite Hv'. apply bool_decide_eq_true_2. by apply lookup_lt_Some in Hix.
Qed.

Lemma raw_end t c j : tl_raw t c j -> (length ixs <= c)%nat -> has_data t = false /\ valid_ (index_iter_ t) = false.
Proof.
  intros ((s' & _ & _ & Hv' & _) & _ & Hd) Hc. rewrite lookup_ge_None_2 in Hd by done. split.
  - apply bool_decide_eq_false_2. rewrite Hd. by intros [? ?].
  - rewrite Hv'. apply bool_decide_eq_false_2. lia.
Qed.

Lemma skip_forward_ok n t c j p :
  tl_raw t c j -> (c <= length ixs)%nat -> (length ixs - c <= n)%nat ->
  (forall l, kvss !! c = Some l -> (j <= length l)%nat /\ p = (base c + j)%nat) ->
  (c = length ixs -> p = length kvs) ->
  exists t', skip_forward block_function_ n t = Some t' /\ tl_at t' p.
Proof.
  revert t c j. induction n as [|n IH]; intros t c j Ht Hc Hn Hj Hp.
  - destruct (raw_end t c j Ht ltac:(lia)) as [E1 E2]. cbn [skip_forward]. rewrite E1, E2. cbn [negb orb].
    rewrite Hp by lia. apply skip_end. by apply (tl_raw_live t c j).
  - cbn [skip_forward]. destruct (decide (c = length ixs)) as [Ec|Hne].
    + destruct (raw_end t c j Ht ltac:(lia)) as [E1 E2]. rewrite E1, E2. cbn [negb orb].
      rewrite Hp by lia. apply skip_end. by apply (tl_raw_live t c j).
    + destruct (block_of c ltac:(lia)) as (ix & l & Hix & Hl). destruct (Hj l Hl) as [Hjl ->].
      destruct (raw_valid t c j l Ht Hl) as (E1 & E2 & E3). rewrite E1, E2, E3. cbn [negb orb].
      case_bool_decide as Hlt; cbn [negb].
      * exists t. split; [done|]. by apply (tl_at_raw t c l).
      * pose proof Ht as (Hi & _). destruct (wrapper_next (L := IL) _ c Hi) as (w & -> & Hw); [lia|].
        cbn [mbind option_bind].
        destruct (init_do Wrapper_SeekToFirst (fun _ _ j => j = 0%nat) t w (c + 1) Hw (tl_raw_live t c j Ht))
          as (t1 & t2 & j2 & E & E' & Ht2 & Hj2).
        { intros l' d Hl' Hd. pose proof (Hlaw _ l' Hl') as Law.
          destruct (wrapper_seek_first (L := Law) d Hd) as (d' & Ed & Hd'). by exists d', 0%nat. }
        rewrite E. cbn [mbind option_bind]. rewrite E'. cbn [mbind option_bind].
        pose proof (base_S kvss c l Hl) as Hb. rewrite Nat.add_1_r in *.
        apply (IH t2 (S c) j2 Ht2); [lia|lia| |].
        -- intros l' Hl'. rewrite (Hj2 l' Hl'). lia.
        -- intros Ec. pose proof (base_end kvss) as He. rewrite <- Hlen, <- Ec in He. lia.
Qed.

Lemma skip_backward_ok n t c j p :
  tl_raw t c (match j with O => default 0%nat (length <$> kvss !! c) | S j' => j' end) ->
  ((if decide (c < length ixs)%nat then S c else 0) <= n)%nat ->
  (forall l, kvss !! c = Some l -> (j <= length l)%nat /\ p = (base c + j)%nat) ->
  ((length ixs <= c)%nat -> p = 0%nat) ->
  exists t', skip_backward block_function_ n t = Some t'
    /\ tl_at t' (match p with O => length kvs | S p' => p' end).
Proof.
  revert t c j p. induction n as [|n IH]; intros t c j p Ht Hn Hj Hp.
  - destruct (decide (c < length ixs)%nat); [lia|]. destruct (raw_end _ _ _ Ht ltac:(lia)) as [E1 E2].
    cbn [skip_backward]. rewrite E1, E2. cbn [negb orb]. rewrite Hp by lia.
    apply skip_end. by eapply tl_raw_live.
  - cbn [skip_backward]. destruct (decide (c < length ixs)%nat) as [Hlt|Hge].
    + destruct (block_of c Hlt) as (ix & l & Hix & Hl). destruct (Hj l Hl) as [Hjl ->].
      rewrite Hl in Ht. change (default 0%nat (length <$> Some l)) with (length l) in Ht.
      destruct (raw_valid t c _ l Ht Hl) as (E1 & E2 & E3). rewrite E1, E2, E3. cbn [negb orb].
      destruct j as [|j].
      * rewrite bool_decide_eq_false_2 by lia. cbn [negb].
        pose proof Ht as (Hi & _). destruct (wrapper_prev (L := IL) _ c Hi Hlt) as (w & -> & Hw).
        cbn [mbind option_bind]. set (c' := match c with O => length ixs | S c' => c' end) in *.
        destruct (init_do Wrapper_SeekToLast (fun _ l j => j = length l - 1)%nat t w c' Hw
                    (tl_raw_live t c _ Ht)) as (t1 & t2 & j2 & E & E' & Ht2 & Hj2).
        { intros l' d Hl' Hd. pose proof (Hlaw _ l' Hl') as Law.
          destruct (wrapper_seek_last (L := Law) d Hd) as (d' & Ed & Hd'). by eexists d', _. }
        rewrite E. cbn [mbind option_bind]. rewrite E'. cbn [mbind option_bind].
        destruct c as [|c]; cbn beta iota in c'.
        -- apply (IH t2 c' (S j2) 0%nat Ht2); unfold c'; [rewrite decide_False by lia; lia| |done].
           intros l' Hl'. apply lookup_lt_Some in Hl'. lia.
        -- destruct (block_of c ltac:(lia)) as (ix' & l' & Hix' & Hl'). pose proof (base_S kvss c l' Hl') as Hb.
           apply (IH t2 c' (length l')); unfold c' in *.
           ++ rewrite Hl'. rewrite (Hj2 l' Hl') in Ht2. simpl.
              by destruct (length l'); rewrite ?Nat.sub_succ, ?Nat.sub_0_r in Ht2.
           ++ rewrite decide_True by lia. lia.
           ++ intros l0 Hl0. assert (l0 = l') as -> by congruence. lia.
           ++ lia.
      * rewrite bool_decide_eq_true_2 by lia. cbn [negb]. exists t. split; [done|].
        rewrite Nat.add_succ_r. by apply (tl_at_raw t c l).
    + destruct (raw_end _ _ _ Ht ltac:(lia)) as [E1 E2]. rewrite E1, E2. cbn [negb orb]. rewrite Hp by lia.
      apply skip_end. by eapply tl_raw_live.
Qed.

(** Where the index and the block split, the concatenation does. *)
Lemma splits_concat c j p target :
  valid target -> splits_at order ixs target c ->
  (forall l, kvss !! c = Some l -> splits_at order l target j /\ p = (base c + j)%nat) ->
  (c = length ixs -> p = length kvs) -> splits_at order kvs target p.
Proof.
  intros Ht [Hc Hs] Hj Hend.
  assert (forall c' l i kv, kvss !! c' = Some l -> l !! i = Some kv -> valid kv.1) as Hval.
  { intros c' l i kv Hl Hkv. apply (proj1 (Forall_forall _ _) Hvalid kv). apply list_elem_of_lookup.
    exists (base c' + i)%nat. rewrite (base_entry kvss c' l i Hl); [done|]. by apply lookup_lt_Some in Hkv. }
  assert (forall c' l i kv, (c' < c)%nat -> kvss !! c' = Some l -> l !! i = Some kv -> order kv.1 target < 0) as Hbefore.
  { intros c' l i kv Hlt Hl Hkv. destruct (block_of c' ltac:(lia)) as (ix & l' & Hix & _).
    assert (valid ix.1) by exact (proj1 (Forall_lookup _ _) Hivalid c' ix Hix).
    apply (order_le_lt_trans (compare := compare) _ ix.1); [by eapply Hval|done|done| |by apply (Hs c')].
    apply (Hin c' ix l kv Hix Hl). apply list_elem_of_lookup. by exists i. }
  assert (p <= length kvs)%nat as Hple.
  { destruct (decide (c = length ixs)) as [E|Hne]; [rewrite (Hend E); lia|].
    destruct (block_of c ltac:(lia)) as (ix & l & _ & Hl). destruct (Hj l Hl) as [[Hjl _] ->].
    pose proof (base_le kvss c l Hl). lia. }
  split; [done|]. intros q kv Hq. destruct (entry_block_of kvss q kv Hq) as (c' & l' & j' & Hl' & Hj' & Eq).
  fold (base c') in Eq. pose proof (lookup_lt_Some _ _ _ Hj') as Hjlt. pose proof (lookup_lt_Some _ _ _ Hl') as Hclt.
  destruct (Nat.lt_trichotomy c' c) as [Hlt|[->|Hgt]].
  - split; [|intros _; by eapply Hbefore]. intros _. pose proof (base_S kvss c' l' Hl').
    destruct (decide (c = length ixs)) as [E|Hne].
    + rewrite (Hend E). apply lookup_lt_Some in Hq. lia.
    + destruct (block_of c ltac:(lia)) as (ix & l & _ & Hl). destruct (Hj l Hl) as [_ ->].
      pose proof (base_mono kvss (S c') c ltac:(lia)). lia.
  - destruct (Hj l' Hl') as [[_ Hsp] ->]. rewrite (Hsp j' kv Hj'). lia.
  - destruct (block_of c ltac:(lia)) as (ix & l & Hix & Hl). destruct (Hj l Hl) as [[Hjl _] ->].
    pose proof (base_S kvss c l Hl). pose proof (base_mono kvss (S c) c' ltac:(lia)). split; [|lia]. intros Ho.
    assert (valid ix.1) as Hvi by exact (proj1 (Forall_lookup _ _) Hivalid c ix Hix).
    pose proof (Hval c' l' j' kv Hl' Hj') as Hvk.
    assert (order ix.1 kv.1 < 0) as H1.
    { apply (Hout c c' ix l' kv Hix Hl'); [lia|]. apply list_elem_of_lookup. by exists j'. }
    pose proof (order_lt_trans (compare := compare) _ _ _ Hvi Hvk Ht H1 Ho) as H2.
    pose proof (proj1 (Hs c ix Hix) H2). lia.
Qed.

Lemma tl_current t p kv :
  tl_at t p -> kvs !! p = Some kv ->
  exists c l j, kvss !! c = Some l /\ l !! j = Some kv /\ p = (base c + j)%nat /\ tl_raw t c j
    /\ tl_Valid t = true /\ dat c l (data_iter_ t) j.
Proof.
  intros [_ H] Hkv. pose proof (lookup_lt_Some _ _ _ Hkv). rewrite decide_True in H by done.
  destruct H as (c & l & j & Hl & Hj & -> & Ht). exists c, l, j.
  rewrite (base_entry kvss c l j Hl Hj) in Hkv. destruct (raw_valid t c j l Ht Hl) as (_ & E & _).
  split_and!; [done..| |].
  - unfold tl_Valid. rewrite E. by apply bool_decide_eq_true_2.
  - destruct Ht as (_ & _ & Hd). destruct (block_of c) as (ix & l' & Hix & _);
      [apply lookup_lt_Some in Hl; lia|]. rewrite Hix, Hl in Hd. apply Hd.
Qed.

Lemma raw_set_data t c l j d j' :
  tl_raw t c j -> kvss !! c = Some l -> dat c l d j' -> tl_raw (set_data t d) c j'.
Proof.
  intros (Hi & Hs & Hd) Hl Hd'. split; [done|]. split; [done|].
  destruct (block_of c) as (ix & l' & Hix & _); [apply lookup_lt_Some in Hl; lia|].
  rewrite Hix, Hl in *. by destruct Hd.
Qed.

Lemma tl_status_ok t : tl_live t -> tl_get_status t = Some Status_OK.
Proof.
  intros (Hi & Hs & Hd). unfold tl_get_status. rewrite (Wrapper_status_ok (L := IL) _ Hi).
  cbn [mbind option_bind Status_ok negb Status_OK]. rewrite Hs. destruct (has_data t) eqn:E; [|done].
  by rewrite (data_status t Hd E).
Qed.

#[export] Instance TwoLevel_law :
  IteratorLaw valid order (TwoLevel_Iterator block_function_ fuel) kvs tl_live tl_at.
Proof.
  split.
  - by intros t p [Hl _].
  - intros t Hl. by apply tl_status_ok.
  - intros t p Ht. cbn [Valid TwoLevel_Iterator]. case_bool_decide as Hp.
    + destruct (lookup_lt_is_Some_2 kvs p Hp) as [kv Hkv].
      by destruct (tl_current t p kv Ht Hkv) as (c & l & j & _ & _ & _ & _ & E & _).
    + destruct Ht as [_ H]. by rewrite decide_False in H by done.
  - intros t p kv Ht Hkv. destruct (tl_current t p kv Ht Hkv) as (c & l & j & Hl & Hj & _ & _ & E & Hd).
    cbn [Key Value TwoLevel_Iterator]. unfold tl_key, tl_value. rewrite E.
    pose proof (Hlaw c l Hl) as Law. exact (wrapper_kv (L := Law) _ j kv Hd Hj).
  - intros t Ht. cbn [SeekToFirst TwoLevel_Iterator]. unfold tl_SeekToFirst.
    destruct (wrapper_seek_first (L := IL) (index_iter_ t) (proj1 Ht)) as (w & -> & Hw). cbn [mbind option_bind].
    destruct (init_do Wrapper_SeekToFirst (fun _ _ j => j = 0%nat) t w 0 Hw Ht) as (t1 & t2 & j2 & E & E' & Ht2 & Hj2).
    { intros l' d Hl' Hd. pose proof (Hlaw _ l' Hl') as Law.
      destruct (wrapper_seek_first (L := Law) d Hd) as (d' & Ed & Hd'). by exists d', 0%nat. }
    rewrite E. cbn [mbind option_bind]. rewrite E'. cbn [mbind option_bind].
    apply (skip_forward_ok fuel t2 0 j2 0%nat Ht2); [lia|lia| |].
    + intros l Hl. rewrite (Hj2 l Hl). split; [lia|done].
    + intros E0. pose proof (base_end kvss) as He. rewrite <- Hlen, <- E0 in He. exact He.
  - intros t Ht. cbn [SeekToLast TwoLevel_Iterator]. unfold tl_SeekToLast.
    destruct (wrapper_seek_last (L := IL) (index_iter_ t) (proj1 Ht)) as (w & -> & Hw). cbn [mbind option_bind].
    destruct (init_do Wrapper_SeekToLast (fun _ l j => j = length l - 1)%nat t w (length ixs - 1) Hw Ht)
      as (t1 & t2 & j2 & E & E' & Ht2 & Hj2).
    { intros l' d Hl' Hd. pose proof (Hlaw _ l' Hl') as Law.
      destruct (wrapper_seek_last (L := Law) d Hd) as (d' & Ed & Hd'). by eexists d', _. }
    rewrite E. cbn [mbind option_bind]. rewrite E'. cbn [mbind option_bind].
    destruct (skip_backward_ok fuel t2 (length ixs - 1)
                (match kvss !! (length ixs - 1)%nat with Some l => length l | None => 0 end)%nat (length kvs))
      as (t3 & E3 & H3).
    + destruct (kvss !! (length ixs - 1)%nat) as [l|] eqn:El.
      * rewrite (Hj2 l eq_refl) in Ht2. cbn [fmap option_fmap option_map default].
        by destruct (length l); rewrite ?Nat.sub_succ, ?Nat.sub_0_r in Ht2.
      * apply lookup_ge_None in El. destruct Ht2 as (Hi & Hs & Hd). split; [done|]. split; [done|].
        by rewrite lookup_ge_None_2 in Hd |- * by lia.
    + destruct (decide _); lia.
    + intros l Hl. rewrite Hl. split; [lia|]. pose proof (lookup_lt_Some _ _ _ Hl).
      rewrite <- (base_S kvss _ l Hl), <- base_end. f_equal. lia.
    + intros Hz. assert (length kvss = 0%nat) as E0 by lia. by destruct kvss.
    + exists t3. split; [exact E3|]. by destruct (length kvs); rewrite ?Nat.sub_succ, ?Nat.sub_0_r.
  - intros t target Ht Htv. cbn [Seek TwoLevel_Iterator]. unfold tl_Seek.
    destruct (wrapper_seek (L := IL) (index_iter_ t) target (proj1 Ht) Htv) as (w & c & -> & Hw & Hsp).
    cbn [mbind option_bind].
    destruct (init_do (fun w => Wrapper_Seek w target) (fun _ l j => splits_at order l target j) t w c Hw Ht)
      as (t1 & t2 & j2 & E & E' & Ht2 & Hj2).
    { intros l' d Hl' Hd. pose proof (Hlaw _ l' Hl') as Law.
      destruct (wrapper_seek (L := Law) d target Hd Htv) as (d' & j & Ed & Hd' & Hs). by exists d', j. }
    rewrite E. cbn [mbind option_bind]. rewrite E'. cbn [mbind option_bind].
    set (p := match kvss !! c with Some _ => (base c + j2)%nat | None => length kvs end).
    destruct (skip_forward_ok fuel t2 c j2 p Ht2) as (t3 & E3 & H3).
    + apply Hsp.
    + lia.
    + intros l Hl. unfold p. rewrite Hl. split; [apply (Hj2 l Hl)|done].
    + intros Ec. unfold p. by rewrite lookup_ge_None_2 by lia.
    + exists t3, p. split_and!; [exact E3|exact H3|]. apply (splits_concat c j2); [done|done| |].
      * intros l Hl. unfold p. rewrite Hl. split; [by apply Hj2|done].
      * intros Ec. unfold p. by rewrite lookup_ge_None_2 by lia.
  - intros t p Ht Hp. destruct (lookup_lt_is_Some_2 kvs p Hp) as [kv Hkv].
    destruct (tl_current t p kv Ht Hkv) as (c & l & j & Hl & Hj & -> & Hraw & E & Hd).
    cbn [Next TwoLevel_Iterator]. unfold tl_Next. rewrite E. pose proof (Hlaw c l Hl) as Law.
    destruct (wrapper_next (L := Law) _ j Hd (lookup_lt_Some _ _ _ Hj)) as (d & -> & Hd').
    cbn [mbind option_bind]. pose proof (lookup_lt_Some _ _ _ Hl). pose proof (lookup_lt_Some _ _ _ Hj).
    apply (skip_forward_ok fuel _ c (j + 1)); [by apply (raw_set_data t c l j)|lia|lia| |lia].
    intros l' Hl'. assert (l' = l) as -> by congruence. lia.
  - intros t p Ht Hp. destruct (lookup_lt_is_Some_2 kvs p Hp) as [kv Hkv].
    destruct (tl_current t p kv Ht Hkv) as (c & l & j & Hl & Hj & -> & Hraw & E & Hd).
    cbn [Prev TwoLevel_Iterator]. unfold tl_Prev. rewrite E. pose proof (Hlaw c l Hl) as Law.
    destruct (wrapper_prev (L := Law) _ j Hd (lookup_lt_Some _ _ _ Hj)) as (d & -> & Hd').
    cbn [mbind option_bind]. pose proof (lookup_lt_Some _ _ _ Hl). pose proof (lookup_lt_Some _ _ _ Hj).
    apply (skip_backward_ok fuel _ c j).
    + rewrite Hl. by apply (raw_set_data t c l j).
    + rewrite decide_True by lia. lia.
    + intros l' Hl'. assert (l' = l) as -> by congruence. lia.
    + lia.
Qed.

(** A new iterator. *)
Lemma NewTwoLevelIterator_ok s i :
  iat s i -> exists t, NewTwoLevelIterator (SD := SD) s = Some t /\ tl_live t /\ tl_Valid t = false.
Proof.
  intros Ha. unfold NewTwoLevelIterator. destruct (Wrapper_Set_at (L := IL) Wrapper_new s i Ha) as (w & -> & Hw).
  cbn [mbind option_bind Wrapper_Set]. eexists. split; [done|]. split; [|done].
  split; [exact (wrapper_at_live (L := IL) w i Hw)|]. split; [done|by left].
Qed.
End Law.
