(* ===== verification/LdbDBIter.v ===== *)
(** leveldb: the iterator of the database, [db_iter.h] and [db_iter.cc].

    It goes over an internal iterator and shows of every user key the newest
    entry that is not newer than its sequence number, unless that is a
    deletion.  The database it samples reads for is the class [ReadSampler].
    The capacity of [saved_value_] is not modelled: it is memory only.

    [skip] is [&saved_key_] in every call of [FindNextUserEntry], so it is the
    field here too.  [fuel] bounds the loops over the internal iterator, one
    round for each entry and one more is enough. *)
From stdpp Require Import base numbers option strings list.
From S2P Require Import Prelude LdbSlice LdbComparator LdbDbformat LdbArena LdbIterator LdbMerger.
Open Scope Z_scope.

Definition kReadBytesPeriod : Z := 1048576.

(** What the iterator calls of the database. *)
Class ReadSampler (D : Type) : Type := { RecordReadSample : D -> bytes -> D }.

Record DBIter (D St : Type) : Type := {
  di_db : D;
  di_iter : St;
  di_sequence : Z;
  di_status : Status;
  saved_key_ : bytes;
  saved_value_ : bytes;
  di_direction : Direction;
  di_valid : bool;
  di_rnd : Z;
  bytes_until_read_sampling_ : Z
}.
#[global] Arguments di_db {D St} _.
#[global] Arguments di_iter {D St} _.
#[global] Arguments di_sequence {D St} _.
#[global] Arguments di_status {D St} _.
#[global] Arguments saved_key_ {D St} _.
#[global] Arguments saved_value_ {D St} _.
#[global] Arguments di_direction {D St} _.
#[global] Arguments di_valid {D St} _.
#[global] Arguments di_rnd {D St} _.
#[global] Arguments bytes_until_read_sampling_ {D St} _.

Section DBIter.
Context {D St : Type} {RS : ReadSampler D} {I : Iterator St} {U : Comparator} (fuel : nat).

#[local] Notation T := (DBIter D St).

(** ** The fields that operations change *)
Definition di_with_iter (d : T) (it : St) : T :=
  {| di_db := di_db d; di_iter := it; di_sequence := di_sequence d; di_status := di_status d;
     saved_key_ := saved_key_ d; saved_value_ := saved_value_ d; di_direction := di_direction d;
     di_valid := di_valid d; di_rnd := di_rnd d;
     bytes_until_read_sampling_ := bytes_until_read_sampling_ d |}.

Definition di_with_saved (d : T) (key value : bytes) : T :=
  {| di_db := di_db d; di_iter := di_iter d; di_sequence := di_sequence d; di_status := di_status d;
     saved_key_ := key; saved_value_ := value; di_direction := di_direction d;
     di_valid := di_valid d; di_rnd := di_rnd d;
     bytes_until_read_sampling_ := bytes_until_read_sampling_ d |}.

Definition di_with_valid (d : T) (valid : bool) (direction : Direction) : T :=
  {| di_db := di_db d; di_iter := di_iter d; di_sequence := di_sequence d; di_status := di_status d;
     saved_key_ := saved_key_ d; saved_value_ := saved_value_ d; di_direction := direction;
     di_valid := valid; di_rnd := di_rnd d;
     bytes_until_read_sampling_ := bytes_until_read_sampling_ d |}.

Definition di_with_status (d : T) (s : Status) : T :=
  {| di_db := di_db d; di_iter := di_iter d; di_sequence := di_sequence d; di_status := s;
     saved_key_ := saved_key_ d; saved_value_ := saved_value_ d; di_direction := di_direction d;
     di_valid := di_valid d; di_rnd := di_rnd d;
     bytes_until_read_sampling_ := bytes_until_read_sampling_ d |}.

Definition di_with_sample (d : T) (db : D) (rnd until : Z) : T :=
  {| di_db := db; di_iter := di_iter d; di_sequence := di_sequence d; di_status := di_status d;
     saved_key_ := saved_key_ d; saved_value_ := saved_value_ d; di_direction := di_direction d;
     di_valid := di_valid d; di_rnd := rnd; bytes_until_read_sampling_ := until |}.

Definition SaveKey (d : T) (k : bytes) : T := di_with_saved d k (saved_value_ d).
Definition ClearSavedValue (d : T) : T := di_with_saved d (saved_key_ d) [].

(** ** Sampling *)

(** The period and the seed that is left. *)
Definition RandomCompactionPeriod (rnd : Z) : Z * Z := Random_Uniform rnd (2 * kReadBytesPeriod).

(** The generator does not give 0 twice in a row, so two rounds move on. *)
Fixpoint sample_loop (n : nat) (k : bytes) (bytes_read : Z) (d : T) : option T :=
  if bytes_until_read_sampling_ d <? bytes_read then
    match n with
    | O => None
    | S n' =>
        let '(period, rnd) := RandomCompactionPeriod (di_rnd d) in
        let until := u64 (bytes_until_read_sampling_ d + period) in
        sample_loop n' k bytes_read (di_with_sample d (RecordReadSample (di_db d) k) rnd until)
    end
  else Some d.

Definition sample_fuel (bytes_read : Z) : nat := 2 * Z.to_nat bytes_read.

(** The key if it parses. *)
Definition ParseKey (d : T) : option (option ParsedInternalKey * T) :=
  k ← Key (di_iter d);
  v ← Value (di_iter d);
  let bytes_read := u64 (zlen k + zlen v) in
  d ← sample_loop (sample_fuel bytes_read) k bytes_read d;
  let d := di_with_sample d (di_db d) (di_rnd d) (bytes_until_read_sampling_ d - bytes_read) in
  match ParseInternalKey k with
  | Some (true, ikey) => Some (Some ikey, d)
  | _ => Some (None, di_with_status d (Status_Corruption (str "corrupted internal key in DBIter") []))
  end.

(** The key if it parses and is not too new. *)
Definition parse_visible (d : T) : option (option ParsedInternalKey * T) :=
  '(p, d) ← ParseKey d;
  Some (match p with
        | Some ikey => if sequence ikey <=? di_sequence d then p else None
        | None => None
        end, d).

(** ** Forwards *)
Fixpoint find_next_loop (n : nat) (skipping : bool) (d : T) : option T :=
  match n with
  | O => None
  | S n' =>
      let next (skipping : bool) (d : T) :=
        it ← Next (di_iter d);
        let d := di_with_iter d it in
        if Valid it then find_next_loop n' skipping d
        else Some (di_with_valid (SaveKey d []) false (di_direction d)) in
      '(p, d) ← parse_visible d;
      match p with
      | Some ikey =>
          if type ikey =? kTypeDeletion then next true (SaveKey d (user_key ikey))
          else
            hidden ← (if skipping then r ← Compare (user_key ikey) (saved_key_ d); Some (r <=? 0)
                      else Some false);
            if hidden : bool then next skipping d
            else Some (SaveKey (di_with_valid d true (di_direction d)) [])
      | None => next skipping d
      end
  end.

Definition FindNextUserEntry (skipping : bool) (d : T) : option T :=
  if Valid (di_iter d) then
    match di_direction d with kForward => find_next_loop fuel skipping d | kReverse => None end
  else None.

(** ** Backwards *)
Fixpoint find_prev_loop (n : nat) (value_type : Z) (d : T) : option (Z * T) :=
  match n with
  | O => None
  | S n' =>
      let prev (value_type : Z) (d : T) :=
        it ← Prev (di_iter d);
        let d := di_with_iter d it in
        if Valid it then find_prev_loop n' value_type d else Some (value_type, d) in
      '(p, d) ← parse_visible d;
      match p with
      | Some ikey =>
          before ← (if negb (value_type =? kTypeDeletion)
                    then r ← Compare (user_key ikey) (saved_key_ d); Some (r <? 0) else Some false);
          if before : bool then Some (value_type, d)
          else
            if type ikey =? kTypeDeletion then prev (type ikey) (di_with_saved d [] [])
            else
              raw_value ← Value (di_iter d);
              k ← Key (di_iter d);
              u ← ExtractUserKey k;
              prev (type ikey) (di_with_saved d u raw_value)
      | None => prev value_type d
      end
  end.

Definition FindPrevUserEntry (d : T) : option T :=
  match di_direction d with
  | kForward => None
  | kReverse =>
      '(value_type, d) ← (if Valid (di_iter d) then find_prev_loop fuel kTypeDeletion d
                          else Some (kTypeDeletion, d));
      if value_type =? kTypeDeletion
      then Some (di_with_valid (di_with_saved d [] []) false kForward)
      else Some (di_with_valid d true (di_direction d))
  end.

(** The loop that leaves the entries of the current key; whether it found an
    earlier one. *)
Fixpoint before_saved_loop (n : nat) (d : T) : option (bool * T) :=
  match n with
  | O => None
  | S n' =>
      it ← Prev (di_iter d);
      let d := di_with_iter d it in
      if Valid it then
        k ← Key it;
        u ← ExtractUserKey k;
        r ← Compare u (saved_key_ d);
        if r <? 0 then Some (true, d) else before_saved_loop n' d
      else Some (false, di_with_valid (di_with_saved d [] []) false (di_direction d))
  end.

(** ** The operations *)
Definition DBIter_Valid (d : T) : bool := di_valid d.

Definition DBIter_key (d : T) : option bytes :=
  if di_valid d then
    match di_direction d with
    | kForward => k ← Key (di_iter d); ExtractUserKey k
    | kReverse => Some (saved_key_ d)
    end
  else None.

Definition DBIter_value (d : T) : option bytes :=
  if di_valid d then
    match di_direction d with
    | kForward => Value (di_iter d)
    | kReverse => Some (saved_value_ d)
    end
  else None.

Definition DBIter_status (d : T) : option Status :=
  if Status_ok (di_status d) then status (di_iter d) else Some (di_status d).

Definition DBIter_Next (d : T) : option T :=
  if di_valid d then
    match di_direction d with
    | kReverse =>
        let d := di_with_valid d (di_valid d) kForward in
        it ← (if Valid (di_iter d) then Next (di_iter d) else SeekToFirst (di_iter d));
        let d := di_with_iter d it in
        if Valid it then FindNextUserEntry true d
        else Some (SaveKey (di_with_valid d false (di_direction d)) [])
    | kForward =>
        k ← Key (di_iter d);
        u ← ExtractUserKey k;
        FindNextUserEntry true (SaveKey d u)
    end
  else None.

Definition DBIter_Prev (d : T) : option T :=
  if di_valid d then
    match di_direction d with
    | kForward =>
        if Valid (di_iter d) then
          k ← Key (di_iter d);
          u ← ExtractUserKey k;
          '(more, d) ← before_saved_loop fuel (SaveKey d u);
          if more : bool then FindPrevUserEntry (di_with_valid d (di_valid d) kReverse) else Some d
        else None
    | kReverse => FindPrevUserEntry d
    end
  else None.

(** What [Seek] and [SeekToFirst] do after the internal iterator moved. *)
Definition after_seek (d : T) : option T :=
  if Valid (di_iter d) then FindNextUserEntry false d
  else Some (di_with_valid d false (di_direction d)).

Definition DBIter_Seek (d : T) (target : bytes) : option T :=
  let d := ClearSavedValue (di_with_valid d (di_valid d) kForward) in
  let d := SaveKey d (AppendInternalKey []
             {| user_key := target; sequence := di_sequence d; type := kValueTypeForSeek |}) in
  it ← Seek (di_iter d) (saved_key_ d);
  after_seek (di_with_iter d it).

Definition DBIter_SeekToFirst (d : T) : option T :=
  let d := ClearSavedValue (di_with_valid d (di_valid d) kForward) in
  it ← SeekToFirst (di_iter d);
  after_seek (di_with_iter d it).

Definition DBIter_SeekToLast (d : T) : option T :=
  let d := ClearSavedValue (di_with_valid d (di_valid d) kReverse) in
  it ← SeekToLast (di_iter d);
  FindPrevUserEntry (di_with_iter d it).

Definition NewDBIterator (db : D) (internal_iter : St) (s seed : Z) : T :=
  let '(period, rnd) := RandomCompactionPeriod (Random_new seed) in
  {| di_db := db; di_iter := internal_iter; di_sequence := s; di_status := Status_OK; saved_key_ := [];
     saved_value_ := []; di_direction := kForward; di_valid := false; di_rnd := rnd;
     bytes_until_read_sampling_ := period |}.

Definition DB_Iterator : Iterator T := {|
  Valid := DBIter_Valid;
  SeekToFirst := DBIter_SeekToFirst;
  SeekToLast := DBIter_SeekToLast;
  Seek := DBIter_Seek;
  Next := DBIter_Next;
  Prev := DBIter_Prev;
  Key := DBIter_key;
  Value := DBIter_value;
  status := DBIter_status
|}.
End DBIter.
