(* ===== verification/LdbDBIterThms.v ===== *)
(** leveldb: the iterator of the database goes over the entries that its
    sequence number can see. *)
From stdpp Require Import base numbers option strings list.
From S2P Require Import Prelude LdbSlice LdbCoding LdbComparator LdbDbformat LdbArena LdbIterator LdbMerger LdbDBIter.
Open Scope Z_scope.

(** * Entries of the internal iterator *)
Definition ik_seq (k : bytes) : Z := ikey_tag k / 256.
Definition ik_type (k : bytes) : Z := ikey_tag k mod 256.

(** A key that parses, and sizes that memory has room for. *)
Definition entry_parses (uvalid : bytes -> Prop) (kv : bytes * bytes) : Prop :=
  ikey_valid uvalid kv.1 /\ ik_type kv.1 <= kTypeValue /\ zlen kv.1 + zlen kv.2 < 2 ^ 63.

Lemma ik_make u s t :
  valid_seq s -> valid_type t ->
  ikey_user (InternalKey_make u s t) = u /\ ik_seq (InternalKey_make u s t) = s
  /\ ik_type (InternalKey_make u s t) = t.
Proof.
  intros Hs Ht. assert (is_byte t) as Hb by auto with cint. unfold InternalKey_make, ik_seq, ik_type.
  rewrite AppendInternalKey_app, app_nil_l. cbn [user_key sequence type].
  rewrite ikey_user_app, ikey_tag_app by done. unfold EncodeFixed64. cbn [kLittleEndian].
  rewrite le_val_bytes by (apply (Pack_range s t); done). rewrite Pack_add by done. unfold in_uint in Hb.
  change (2 ^ 8) with 256 in Hb. split_and!; [done|Z.to_euclidean_division_equations; lia..].
Qed.

Lemma entry_parses_make (uvalid : bytes -> Prop) u s t v :
  uvalid u -> valid_seq s -> valid_type t -> zlen u + 8 + zlen v < 2 ^ 63 ->
  entry_parses uvalid (InternalKey_make u s t, v).
Proof.
  intros Hu Hs Ht Hl. destruct (ik_make u s t Hs Ht) as (_ & _ & Ety). split_and!; cbn [fst snd].
  - by apply ikey_valid_append.
  - rewrite Ety. by destruct Ht as [-> | ->].
  - unfold InternalKey_make. rewrite AppendInternalKey_app, !zlen_app. cbn [user_key length].
    rewrite EncodeFixed64_length. lia.
Qed.

(** * Sampling *)

(** After a period of 0 comes one that is not. *)
Lemma period_not_zero_twice x :
  0 < x < 2147483647 -> x mod (2 * kReadBytesPeriod) = 0 -> 0 < (Random_Next x) mod (2 * kReadBytesPeriod).
Proof.
  intros Hx H0. rewrite Random_Next_mod by done. change (2 * kReadBytesPeriod) with 2097152 in *.
  assert (forallb (fun k => 0 <? (Z.of_nat k * 2097152 * 16807) mod 2147483647 mod 2097152) (seq 1 1023) = true) as Hall
    by (vm_compute; reflexivity).
  assert (x = Z.of_nat (Z.to_nat (x / 2097152)) * 2097152) as E.
  { rewrite Z2Nat.id by (apply Z.div_pos; lia). pose proof (Z.div_mod x 2097152). lia. }
  rewrite E. rewrite forallb_forall in Hall. apply Z.ltb_lt, (Hall (Z.to_nat (x / 2097152))).
  apply in_seq. revert E. Z.to_euclidean_division_equations. lia.
Qed.

Section Sampling.
Context {D St : Type} {RS : ReadSampler D}.

Lemma sample_loop_ok b k (d : DBIter D St) m n :
  b - bytes_until_read_sampling_ d <= Z.of_nat m -> (2 * m <= n)%nat -> b < 2 ^ 63 ->
  0 < di_rnd d < 2147483647 -> 0 <= bytes_until_read_sampling_ d ->
  exists db rnd until, sample_loop n k b d = Some (di_with_sample d db rnd until)
    /\ 0 < rnd < 2147483647 /\ b <= until.
Proof.
  revert d n. induction m as [|m IH]; intros d n Hm Hn Hb Hr Hu.
  { exists (di_db d), (di_rnd d), (bytes_until_read_sampling_ d). split_and!; [|lia..].
    destruct n; cbn [sample_loop]; rewrite (proj2 (Z.ltb_ge _ _)) by lia; by destruct d. }
  destruct (Z.lt_ge_cases (bytes_until_read_sampling_ d) b) as [Hlt|Hge]; [|by apply IH; lia].
  assert (forall x, x + 0 < 2 ^ 63 + 2097152 -> 0 <= x -> u64 x = x) as Hsmall
    by (intros; apply u64_small; unfold in_uint; lia).
  pose proof (Random_Next_range _ Hr) as Hr1. pose proof (Random_Next_range _ Hr1) as Hr2.
  pose proof (period_not_zero_twice _ Hr1) as Hz.
  set (x1 := Random_Next (di_rnd d)) in *. set (x2 := Random_Next x1) in *.
  pose proof (Z.mod_pos_bound x1 (2 * kReadBytesPeriod) ltac:(done)) as Hb1.
  pose proof (Z.mod_pos_bound x2 (2 * kReadBytesPeriod) ltac:(done)) as Hb2.
  change (2 * kReadBytesPeriod) with 2097152 in *.
  destruct n as [|[|n]]; [lia|lia|]. cbn [sample_loop]. rewrite (proj2 (Z.ltb_lt _ _)) by lia.
  unfold RandomCompactionPeriod, Random_Uniform. cbv zeta. fold x1.
  change (2 * kReadBytesPeriod) with 2097152.
  destruct (decide (x1 mod 2097152 = 0)) as [E1|E1].
  - rewrite E1, Z.add_0_r, Hsmall by lia. cbn [di_with_sample bytes_until_read_sampling_ di_rnd].
    rewrite (proj2 (Z.ltb_lt _ _)) by lia. fold x2. rewrite Hsmall by lia.
    edestruct (IH (di_with_sample (di_with_sample d (RecordReadSample (di_db d) k) x1 (bytes_until_read_sampling_ d))
                     (RecordReadSample (RecordReadSample (di_db d) k) k) x2
                     (bytes_until_read_sampling_ d + x2 mod 2097152)) n) as (db & rnd & until & E & H);
      [cbn; specialize (Hz E1); lia|lia|done|done|cbn; lia|].
    exists db, rnd, until. split; [exact E|done].
  - rewrite Hsmall by lia.
    edestruct (IH (di_with_sample d (RecordReadSample (di_db d) k) x1
                     (bytes_until_read_sampling_ d + x1 mod 2097152)) (S n)) as (db & rnd & until & E & H);
      [cbn; lia|lia|done|done|cbn; lia|].
    exists db, rnd, until. split; [exact E|done].
Qed.
End Sampling.

(** * What is shown *)
Section View.
Context (uorder : bytes -> bytes -> Z) (s : Z) (kvs : list (bytes * bytes)).

Definition entry_at (i : nat) : bytes * bytes := default ([], []) (kvs !! i).
Definition user_at (i : nat) : bytes := ikey_user (entry_at i).1.
Definition seen_at (i : nat) : bool := (i <? length kvs)%nat && (ik_seq (entry_at i).1 <=? s).

(** Entry [i] is a value that [s] can see, and the first entry of its user key
    that it can see. *)
Definition shown_at (i : nat) : bool :=
  seen_at i && (ik_type (entry_at i).1 =? kTypeValue)
  && forallb (fun j => negb (seen_at j) || (uorder (user_at j) (user_at i) <? 0)) (seq 0 i).

(** The user's view of the entries. *)
Definition user_view : list (bytes * bytes) :=
  (fun i => (user_at i, (entry_at i).2)) <$> filter (fun i => shown_at i = true) (seq 0 (length kvs)).

(** How many are shown before place [i]. *)
Definition shown_before (i : nat) : nat := length (filter (fun i => shown_at i = true) (seq 0 i)).

Lemma entry_at_lookup i kv : kvs !! i = Some kv -> entry_at i = kv.
Proof. unfold entry_at. by intros ->. Qed.

Lemma seen_lt i : seen_at i = true -> (i < length kvs)%nat.
Proof. unfold seen_at. intros [H%Nat.ltb_lt _]%andb_true_iff. done. Qed.

Lemma shown_seen i : shown_at i = true -> seen_at i = true.
Proof. unfold shown_at. by intros [[H _]%andb_true_iff _]%andb_true_iff. Qed.

Lemma shown_iff i :
  shown_at i = true <->
  seen_at i = true /\ ik_type (entry_at i).1 = kTypeValue
  /\ forall j, (j < i)%nat -> seen_at j = true -> uorder (user_at j) (user_at i) < 0.
Proof.
  unfold shown_at. rewrite !andb_true_iff, Z.eqb_eq, forallb_forall. split.
  - intros [[H1 H2] H3]. split_and!; [done..|]. intros j Hj Hs.
    specialize (H3 j ltac:(apply in_seq; lia)). rewrite Hs in H3. by apply Z.ltb_lt.
  - intros (H1 & H2 & H3). split_and!; [done..|]. intros j Hj%in_seq.
    destruct (seen_at j) eqn:E; [|done]. by apply Z.ltb_lt, H3; [lia|].
Qed.

Lemma shown_before_S i : shown_before (S i) = (shown_before i + if shown_at i then 1 else 0)%nat.
Proof.
  unfold shown_before. rewrite seq_S, filter_app, length_app. f_equal. cbn [Nat.add].
  destruct (shown_at i) eqn:E.
  - by rewrite filter_cons_True.
  - rewrite filter_cons_False by congruence. done.
Qed.

Lemma shown_before_mono i j : (i <= j)%nat -> (shown_before i <= shown_before j)%nat.
Proof. induction 1 as [|j Hj IH]; [done|]. rewrite shown_before_S. lia. Qed.

(** Nothing is shown between two places of the same rank. *)
Lemma shown_before_same i j :
  (i <= j)%nat -> (forall l, (i <= l < j)%nat -> shown_at l = false) -> shown_before i = shown_before j.
Proof.
  induction 1 as [|j Hj IH]; intros Hn; [done|]. rewrite shown_before_S, Hn by lia.
  rewrite <- IH; [lia|]. intros l Hl. apply Hn. lia.
Qed.

Lemma view_length : length user_view = shown_before (length kvs).
Proof. unfold user_view. by rewrite length_fmap. Qed.

Lemma shown_before_lt i : shown_at i = true -> (shown_before i < length user_view)%nat.
Proof.
  intros Hs. pose proof (seen_lt i (shown_seen i Hs)) as Hl. rewrite view_length.
  pose proof (shown_before_mono (S i) (length kvs) ltac:(lia)). rewrite shown_before_S, Hs in H. lia.
Qed.

Lemma filter_seq_lookup i :
  shown_at i = true -> filter (fun i => shown_at i = true) (seq 0 (length kvs)) !! shown_before i = Some i.
Proof.
  intros Hs. pose proof (seen_lt i (shown_seen i Hs)) as Hl.
  replace (length kvs) with (i + S (length kvs - S i))%nat by lia.
  rewrite seq_app, filter_app, lookup_app_r by done. unfold shown_before.
  rewrite Nat.sub_diag. cbn [seq Nat.add]. by rewrite filter_cons_True.
Qed.

Lemma view_lookup i : shown_at i = true -> user_view !! shown_before i = Some (user_at i, (entry_at i).2).
Proof. intros Hs. unfold user_view. by rewrite list_lookup_fmap, filter_seq_lookup. Qed.

Lemma view_lookup_inv p x :
  user_view !! p = Some x ->
  exists i, shown_at i = true /\ shown_before i = p /\ x = (user_at i, (entry_at i).2).
Proof.
  intros Hp. unfold user_view in Hp. apply list_lookup_fmap_Some in Hp as (i & -> & Hi).
  assert (shown_at i = true) as Hs by (apply list_elem_of_lookup_2, list_elem_of_filter in Hi; apply Hi).
  exists i. split_and!; [done| |done].
  pose proof (filter_seq_lookup i Hs) as Hi'.
  assert (NoDup (filter (fun i => shown_at i = true) (seq 0 (length kvs)))) as Hnd by apply NoDup_filter, NoDup_seq.
  by apply (proj1 (NoDup_alt _) Hnd _ _ i).
Qed.
End View.

(** * The operations *)
Section Ops.
Context {U : Comparator} {uvalid : bytes -> Prop} {uorder : bytes -> bytes -> Z} {UL : ComparatorLaw U uvalid uorder}
  {D : Type} {RS : ReadSampler D} {St : Type} {I : Iterator St} {s : Z} {kvs : list (bytes * bytes)}
  {live : St -> Prop} {at_pos : St -> nat -> Prop}
  {L : IteratorLaw (ikey_valid uvalid) (ikey_order uorder) I kvs live at_pos}
  (Hs : valid_seq s) (Hparse : Forall (entry_parses uvalid) kvs) (Hasc : ascending (ikey_order uorder) kvs).

#[local] Notation T := (DBIter D St).
#[local] Notation seen := (seen_at s kvs).
#[local] Notation user := (user_at kvs).
#[local] Notation shown := (shown_at uorder s kvs).
#[local] Notation rank := (shown_before uorder s kvs).
#[local] Notation view := (user_view uorder s kvs).

(** ** Keys *)
Lemma entry_parts i kv :
  kvs !! i = Some kv ->
  exists t, kv.1 = user i ++ t /\ length t = 8%nat /\ Forall is_byte t /\ uvalid (user i)
    /\ ik_seq kv.1 = le_val t / 256 /\ ik_type kv.1 = le_val t mod 256 /\ ik_type kv.1 <= kTypeValue.
Proof.
  intros Hi. destruct (proj1 (Forall_lookup _ _) Hparse i kv Hi) as ((u & t & E & Ht & Hb & Hu) & Htype & _).
  unfold user_at. rewrite (entry_at_lookup kvs i kv Hi). exists t.
  unfold ik_seq, ik_type in *. rewrite E in *. rewrite ikey_user_app, ikey_tag_app in * by done. done.
Qed.

Lemma user_valid i : (i < length kvs)%nat -> uvalid (user i).
Proof. intros [kv Hkv]%lookup_lt_is_Some_2. by destruct (entry_parts i kv Hkv) as (t & _ & _ & _ & Hu & _). Qed.

Lemma seen_valid i : seen i = true -> uvalid (user i).
Proof. intros H%seen_lt. by apply user_valid. Qed.

Lemma kvs_valid : Forall (fun kv => ikey_valid uvalid kv.1) kvs.
Proof. eapply Forall_impl; [exact Hparse|]. by intros kv [H _]. Qed.

Lemma entry_user i kv : kvs !! i = Some kv -> ExtractUserKey kv.1 = Some (user i).
Proof. intros Hi. destruct (entry_parts i kv Hi) as (t & -> & Ht & _). by apply ExtractUserKey_app. Qed.

(** User keys do not descend. *)
Lemma users_ascend i j : (i <= j)%nat -> (j < length kvs)%nat -> uorder (user i) (user j) <= 0.
Proof.
  intros Hij Hj. destruct (decide (i = j)) as [->|Hne].
  { rewrite (order_refl (compare := Compare)); [lia|]. by apply user_valid. }
  destruct (lookup_lt_is_Some_2 kvs i ltac:(lia)) as [x Hx], (lookup_lt_is_Some_2 kvs j Hj) as [y Hy].
  pose proof (ascending_lt kvs i j x y Hasc kvs_valid Hx Hy ltac:(lia)) as Ho.
  destruct (entry_parts i x Hx) as (t1 & E1 & L1 & _), (entry_parts j y Hy) as (t2 & E2 & L2 & _).
  rewrite E1, E2, ikey_order_app in Ho by done. destruct (Z.eqb_spec (uorder (user i) (user j)) 0); lia.
Qed.

Lemma shown_after i j : shown j = true -> (i < j)%nat -> seen i = true -> uorder (user i) (user j) < 0.
Proof. intros (_ & _ & H)%shown_iff. auto. Qed.

(** ** States *)

(** What every operation keeps. *)
Definition di_ok (d : T) : Prop :=
  di_status d = Status_OK /\ di_sequence d = s /\ 0 < di_rnd d < 2147483647 /\ 0 <= bytes_until_read_sampling_ d.

Definition saved_is (d : T) (c : nat) : Prop := saved_key_ d = user c /\ saved_value_ d = (entry_at kvs c).2.

(** The internal iterator is just before the entries of [c]'s user key. *)
Definition just_before (d : T) (c : nat) : Prop :=
  (exists j, at_pos (di_iter d) j /\ (j < c)%nat /\ forall i, (j < i < c)%nat -> seen i = false)
  \/ (exists j, at_pos (di_iter d) j /\ (length kvs <= j)%nat /\ forall i, (i < c)%nat -> seen i = false).

Definition di_at (d : T) (p : nat) : Prop :=
  di_ok d /\ live (di_iter d)
  /\ if di_valid d then
       exists c, shown c = true /\ rank c = p
         /\ match di_direction d with
            | kForward => at_pos (di_iter d) c
            | kReverse => saved_is d c /\ just_before d c
            end
     else (length view <= p)%nat.

Definition di_live (d : T) : Prop := di_ok d /\ live (di_iter d).

Lemma parse_visible_ok d i :
  di_ok d -> at_pos (di_iter d) i -> (i < length kvs)%nat ->
  exists db rnd until,
    parse_visible d
    = Some (if seen i then Some {| user_key := user i; sequence := ik_seq (entry_at kvs i).1;
                                   type := ik_type (entry_at kvs i).1 |} else None,
            di_with_sample d db rnd until)
    /\ di_ok (di_with_sample d db rnd until).
Proof.
  intros (Hst & Hsq & Hr & Hu) Hat Hi. destruct (lookup_lt_is_Some_2 kvs i Hi) as [kv Hkv].
  destruct (at_entry_kv _ i kv Hat Hkv) as [Hk Hv]. unfold parse_visible, ParseKey. rewrite Hk, Hv.
  cbn [mbind option_bind]. cbv zeta.
  destruct (proj1 (Forall_lookup _ _) Hparse i kv Hkv) as (_ & _ & Hsize).
  rewrite u64_small by (unfold in_uint; lia).
  destruct (sample_loop_ok (zlen kv.1 + zlen kv.2) kv.1 d (Z.to_nat (zlen kv.1 + zlen kv.2))
              (sample_fuel (zlen kv.1 + zlen kv.2)) ltac:(lia) ltac:(done) Hsize Hr Hu)
    as (db & rnd & until & -> & Hr' & Hu').
  cbn [mbind option_bind]. destruct (entry_parts i kv Hkv) as (t & E & Ht & Hb & _ & Es & Ety & Hty).
  unfold seen_at. rewrite (entry_at_lookup kvs i kv Hkv), (proj2 (Nat.ltb_lt _ _)) by done. rewrite Es, Ety in *. rewrite E.
  rewrite ParseInternalKey_app by done. rewrite (proj2 (Z.leb_le _ _)) by done. cbn [andb].
  eexists db, rnd, _. split.
  - cbn [mbind option_bind sequence di_sequence di_with_sample]. rewrite Hsq. reflexivity.
  - rewrite E in Hu'. split_and!; cbn; try done; lia.
Qed.

(** ** Forwards *)

(** What a scan that skips up to the user key [k] looks for. *)
Definition wanted (skipping : bool) (k : bytes) (i : nat) : Prop :=
  shown i = true /\ (skipping = true -> 0 < uorder (user i) k).

(** What the scan knows when it is at entry [i]. *)
Definition next_inv (i : nat) (skipping : bool) (k : bytes) : Prop :=
  if skipping then
    uvalid k /\ (forall j, (i <= j)%nat -> seen j = true -> uorder k (user j) <= 0)
    /\ (forall j, (j < i)%nat -> seen j = true -> uorder (user j) k <= 0)
  else forall j l, (j < i)%nat -> (i <= l)%nat -> seen j = true -> seen l = true -> uorder (user j) (user l) < 0.

Lemma next_inv_unseen i skipping k : next_inv i skipping k -> seen i = false -> next_inv (S i) skipping k.
Proof.
  intros Hinv Hi. destruct skipping.
  - destruct Hinv as (Hk & H1 & H2). split_and!; [done|intros; apply H1; [lia|done]|].
    intros j Hj Hsj. apply H2; [|done]. destruct (decide (j = i)) as [->|]; [congruence|lia].
  - intros j l Hj Hl Hsj Hsl. apply Hinv; [|lia|done..]. destruct (decide (j = i)) as [->|]; [congruence|lia].
Qed.

Lemma next_inv_deleted i : seen i = true -> next_inv (S i) true (user i).
Proof.
  intros Hi. split_and!; [by apply seen_valid| |].
  - intros j Hj Hsj. apply users_ascend; [lia|by apply (seen_lt s)].
  - intros j Hj Hsj. apply users_ascend; [lia|by apply (seen_lt s)].
Qed.

Lemma next_inv_skipped i k :
  next_inv i true k -> seen i = true -> uorder (user i) k <= 0 -> next_inv (S i) true k.
Proof.
  intros (Hk & H1 & H2) Hi Ho. split_and!; [done|intros; apply H1; [lia|done]|].
  intros j Hj Hsj. destruct (decide (j = i)) as [->|]; [done|]. apply H2; [lia|done].
Qed.

(** The first entry that the scan does not skip is shown. *)
Lemma next_inv_shown i skipping k :
  next_inv i skipping k -> seen i = true -> ik_type (entry_at kvs i).1 = kTypeValue ->
  (skipping = true -> 0 < uorder (user i) k) -> wanted skipping k i.
Proof.
  intros Hinv Hi Ht Ho. split; [|done]. apply shown_iff. split_and!; [done..|]. intros j Hj Hsj.
  destruct skipping; [|by apply (Hinv j i)]. destruct Hinv as (Hk & _ & H2).
  apply (order_le_lt_trans (compare := Compare) _ k); eauto using seen_valid.
  apply (order_lt_flip (compare := Compare)); eauto using seen_valid.
Qed.

(** After a deletion the scan looks for the same entries. *)
Lemma wanted_deleted i j skipping k :
  next_inv i skipping k -> seen i = true -> (i < j)%nat -> wanted skipping k j <-> wanted true (user i) j.
Proof.
  intros Hinv Hi Hij. unfold wanted. split; intros [Hj Ho]; (split; [done|]); intros Hsk.
  - apply (order_lt_flip (compare := Compare)); [eauto using seen_valid, shown_seen..|]. by apply shown_after.
  - subst skipping. destruct Hinv as (Hk & H1 & _). pose proof (shown_seen _ _ _ _ Hj) as Hsj.
    apply (order_lt_flip (compare := Compare)); [eauto using seen_valid..|].
    apply (order_le_lt_trans (compare := Compare) _ (user i)); [eauto using seen_valid..|by apply H1|].
    by apply shown_after.
Qed.

(** The state in which the scan ends: at the first wanted entry, or at the end. *)
Definition scanned (i : nat) (skipping : bool) (k : bytes) (d' : T) : Prop :=
  di_ok d' /\ di_direction d' = kForward
  /\ exists r, at_pos (di_iter d') r /\ (i <= r)%nat
    /\ (forall j, (i <= j < r)%nat -> ~ wanted skipping k j)
    /\ if di_valid d' then wanted skipping k r else (length kvs <= r)%nat.

Lemma scanned_step i skipping k skipping' k' d' :
  scanned (S i) skipping' k' d' -> ~ wanted skipping k i ->
  (forall j, (i < j)%nat -> wanted skipping k j <-> wanted skipping' k' j) -> scanned i skipping k d'.
Proof.
  intros (Hok & Hd & r & Hat & Hr & Hn & Hv) Hi Hw. split_and!; [done..|]. exists r. split_and!; [done|lia| |].
  - intros j Hj. destruct (decide (j = i)) as [->|]; [done|]. rewrite Hw by lia. apply Hn. lia.
  - destruct (di_valid d'); [|done]. by apply Hw.
Qed.

Lemma find_next_loop_ok n i skipping d :
  di_ok d -> di_direction d = kForward -> at_pos (di_iter d) i -> (i < length kvs)%nat ->
  (length kvs - i <= n)%nat -> next_inv i skipping (saved_key_ d) ->
  exists d', find_next_loop n skipping d = Some d' /\ scanned i skipping (saved_key_ d) d'.
Proof.
  revert i skipping d. induction n as [|n IH]; intros i skipping d Hok Hd Hat Hi Hn Hinv; [lia|].
  cbn [find_next_loop]. destruct (parse_visible_ok d i Hok Hat Hi) as (db & rnd & until & -> & Hok').
  cbn [mbind option_bind]. set (d1 := di_with_sample d db rnd until) in *.
  assert (forall skipping' d2, di_ok d2 -> di_direction d2 = kForward -> di_iter d2 = di_iter d ->
    next_inv (S i) skipping' (saved_key_ d2) -> ~ wanted skipping (saved_key_ d) i ->
    (forall j, (i < j)%nat -> wanted skipping (saved_key_ d) j <-> wanted skipping' (saved_key_ d2) j) ->
    exists d', (it ← Next (di_iter d2);
                if Valid it then find_next_loop n skipping' (di_with_iter d2 it)
                else Some (di_with_valid (SaveKey (di_with_iter d2 it) []) false (di_direction (di_with_iter d2 it))))
               = Some d' /\ scanned i skipping (saved_key_ d) d') as Hnext.
  { intros skipping' d2 Hok2 Hd2 Hit2 Hinv2 Hw Hiff. rewrite Hit2.
    destruct (at_next _ i Hat Hi) as (it & -> & Hat'). cbn [mbind option_bind]. rewrite Nat.add_1_r in Hat'.
    rewrite (at_valid it _ Hat'). case_bool_decide as Hlt.
    - destruct (IH (S i) skipping' (di_with_iter d2 it)) as (d' & -> & Hsc); [done|done|done|done|lia|done|].
      exists d'. split; [done|]. by apply (scanned_step i _ _ skipping' (saved_key_ d2)).
    - eexists. split; [done|]. apply (scanned_step i _ _ skipping' (saved_key_ d2)); [|done..].
      split_and!; [done|done|]. exists (S i). split_and!; [done|lia|lia|cbn; lia]. }
  destruct (seen i) eqn:Hseen; cbn [user_key type sequence].
  - destruct (Z.eqb_spec (ik_type (entry_at kvs i).1) kTypeDeletion) as [Hdel|Hval].
    + apply Hnext; [done|done|done|by apply next_inv_deleted| |].
      * intros [Hsh _]. apply shown_iff in Hsh as (_ & Ht & _). rewrite Hdel in Ht. done.
      * intros j Hj. by apply wanted_deleted.
    + assert (ik_type (entry_at kvs i).1 = kTypeValue) as Ht.
      { destruct (lookup_lt_is_Some_2 kvs i Hi) as [kv Hkv]. rewrite (entry_at_lookup kvs i kv Hkv) in *.
        destruct (entry_parts i kv Hkv) as (t & _ & _ & _ & _ & _ & Ht & Hle).
        unfold kTypeDeletion, kTypeValue in *. pose proof (Z.mod_pos_bound (le_val t) 256). lia. }
      assert (exists hidden, (if skipping then r ← Compare (user i) (saved_key_ d1); Some (r <=? 0) else Some false)
                             = Some hidden
        /\ (hidden = true <-> skipping = true /\ uorder (user i) (saved_key_ d) <= 0)) as (hidden & -> & Hh).
      { destruct skipping; [|exists false; split; [done|]; intuition congruence]. destruct Hinv as (Hk & _). change (saved_key_ d1) with (saved_key_ d).
        rewrite (Compare_order (compare := Compare)) by eauto using seen_valid. cbn [mbind option_bind].
        eexists. split; [done|]. rewrite Z.leb_le. tauto. }
      cbn [mbind option_bind]. destruct hidden.
      * destruct (proj1 Hh eq_refl) as [-> Ho].
        apply Hnext; [done|done|done|by apply next_inv_skipped| |done]. intros [_ Hw]. specialize (Hw eq_refl). lia.
      * eexists. split; [done|]. split_and!; [done|done|]. exists i. cbn. split_and!; [done|lia|lia|].
        apply next_inv_shown; [done..|]. intros ->. destruct (Z.lt_ge_cases 0 (uorder (user i) (saved_key_ d))); [done|].
        assert (false = true) by (apply Hh; split; [done|lia]). done.
  - apply Hnext; [done|done|done|by apply next_inv_unseen| |done].
    intros [Hsh _]. apply shown_seen in Hsh. congruence.
Qed.

(** Where a scan that skips nothing ends. *)
Lemma scanned_at i k p d' :
  scanned i false k d' -> rank i = p -> di_at d' p.
Proof.
  intros (Hok & Hd & r & Hat & Hr & Hn & Hv) Hp. split_and!; [done|exact (at_live _ r Hat)|].
  assert (forall l, (i <= l < r)%nat -> shown l = false) as Hnone.
  { intros l Hl. destruct (shown l) eqn:E; [|done]. destruct (Hn l Hl). by split. }
  destruct (di_valid d').
  - destruct Hv as [Hsh _]. exists r. split_and!; [done| |by rewrite Hd].
    rewrite <- Hp. symmetry. by apply shown_before_same.
  - rewrite view_length, <- Hp. destruct (Nat.le_gt_cases i (length kvs)) as [Hle|Hgt].
    + rewrite (shown_before_same uorder s kvs i (length kvs) Hle); [done|]. intros l Hl. apply Hnone. lia.
    + apply shown_before_mono. lia.
Qed.

Context (fuel : nat) (Hfuel : (length kvs < fuel)%nat).

Lemma FindNextUserEntry_ok i skipping d :
  di_ok d -> di_direction d = kForward -> at_pos (di_iter d) i -> (i < length kvs)%nat ->
  next_inv i skipping (saved_key_ d) ->
  exists d', FindNextUserEntry fuel skipping d = Some d' /\ scanned i skipping (saved_key_ d) d'.
Proof.
  intros Hok Hd Hat Hi Hinv. unfold FindNextUserEntry.
  rewrite (at_valid _ i Hat), bool_decide_eq_true_2, Hd by done. apply find_next_loop_ok; try done. lia.
Qed.

(** Skipping the user key of a shown entry leads to the next one. *)
Lemma next_inv_current c i :
  seen c = true -> (i <= c)%nat -> (forall j, (i <= j < c)%nat -> seen j = false) -> next_inv i true (user c).
Proof.
  intros Hc Hi Hn. pose proof (seen_lt _ _ _ Hc) as Hl. split_and!; [by apply seen_valid| |].
  - intros j Hj Hsj. apply users_ascend; [|by apply (seen_lt s)]. destruct (Nat.lt_ge_cases j c); [|done].
    rewrite Hn in Hsj by lia. done.
  - intros j Hj Hsj. apply users_ascend; lia.
Qed.

Lemma scanned_next c i d' :
  shown c = true -> (i <= c)%nat -> (forall j, (i <= j < c)%nat -> seen j = false) ->
  scanned i true (user c) d' -> di_at d' (S (rank c)).
Proof.
  intros Hc Hi Hunseen (Hok & Hd & r & Hat & Hr & Hn & Hv). pose proof (shown_seen _ _ _ _ Hc) as Hsc.
  assert (forall j, shown j = true -> (c < j)%nat -> wanted true (user c) j) as Hlater.
  { intros j Hj Hcj. split; [done|]. intros _. apply (order_lt_flip (compare := Compare));
      [eauto using seen_valid, shown_seen..|]. by apply shown_after. }
  assert (forall r', (S c <= r')%nat -> (r' <= r)%nat -> rank r' = S (rank c)) as Hrank.
  { intros r' H1 H2. rewrite <- (shown_before_same uorder s kvs (S c) r' H1); [rewrite shown_before_S, Hc; lia|].
    intros l Hl. destruct (shown l) eqn:E; [|done]. destruct (Hn l ltac:(lia)). apply Hlater; [done|lia]. }
  split_and!; [done|exact (at_live _ r Hat)|]. destruct (di_valid d').
  - destruct Hv as [Hsh Ho]. specialize (Ho eq_refl).
    assert (c < r)%nat.
    { destruct (Nat.lt_ge_cases c r) as [|Hge]; [done|].
      pose proof (users_ascend r c Hge (seen_lt _ _ _ Hsc)). lia. }
    exists r. split_and!; [done|apply Hrank; lia|by rewrite Hd].
  - rewrite view_length, (Hrank (length kvs)); [done| |done]. by apply (seen_lt s).
Qed.

Lemma DBIter_Next_ok d p :
  di_at d p -> (p < length view)%nat -> exists d', DBIter_Next fuel d = Some d' /\ di_at d' (p + 1).
Proof.
  intros (Hok & Hlive & Hv) Hp. rewrite Nat.add_1_r. unfold DBIter_Next. destruct (di_valid d); [|lia].
  destruct Hv as (c & Hc & <- & Hdir). pose proof (shown_seen _ _ _ _ Hc) as Hsc.
  pose proof (seen_lt _ _ _ Hsc) as Hl. destruct (di_direction d) eqn:Ed.
  - destruct (lookup_lt_is_Some_2 kvs c Hl) as [kv Hkv].
    destruct (at_entry_kv _ c kv Hdir Hkv) as [-> _]. cbn [mbind option_bind].
    rewrite (entry_user c kv Hkv). cbn [mbind option_bind].
    destruct (FindNextUserEntry_ok c true (SaveKey d (user c))) as (d' & -> & Hsc');
      [done|done|done|done|by apply next_inv_current; [|lia|lia]|].
    exists d'. split; [done|]. apply (scanned_next c c); [done|lia|lia|done].
  - destruct Hdir as [[Hk _] Hb]. set (d0 := di_with_valid d true kForward).
    assert (exists it i, (if Valid (di_iter d0) then Next (di_iter d0) else SeekToFirst (di_iter d0)) = Some it
      /\ at_pos it i /\ (i <= c)%nat /\ forall j, (i <= j < c)%nat -> seen j = false) as (it & i & -> & Hat & Hi & Hn).
    { change (di_iter d0) with (di_iter d). destruct Hb as [(j & Hat & Hj & Hn)|(j & Hat & Hj & Hn)].
      - rewrite (at_valid _ j Hat), bool_decide_eq_true_2 by lia.
        destruct (at_next _ j Hat ltac:(lia)) as (it & E & Hat'). exists it, (j + 1)%nat.
        split_and!; [done|done|lia|]. intros l Hl'. apply Hn. lia.
      - rewrite (at_valid _ j Hat), bool_decide_eq_false_2 by lia. destruct (seek_first _ Hlive) as (it & E & Hat').
        exists it, 0%nat. split_and!; [done|done|lia|]. intros l Hl'. apply Hn. lia. }
    cbn [mbind option_bind]. rewrite (at_valid it i Hat), bool_decide_eq_true_2 by lia.
    destruct (FindNextUserEntry_ok i true (di_with_iter d0 it)) as (d' & -> & Hsc');
      [done|done|done|lia| |].
    { change (saved_key_ (di_with_iter d0 it)) with (saved_key_ d). rewrite Hk. by apply next_inv_current. }
    change (saved_key_ (di_with_iter d0 it)) with (saved_key_ d) in Hsc'. rewrite Hk in Hsc'.
    exists d'. split; [done|]. by apply (scanned_next c i).
Qed.

(** ** Backwards *)

(** What a backward scan of the entries before [top] knows at entry [i]. *)
Definition prev_inv (top i : nat) (value_type : Z) (d : T) : Prop :=
  (value_type = kTypeDeletion /\ forall j, (i < j < top)%nat -> shown j = false)
  \/ (value_type = kTypeValue
      /\ exists c, (i < c < top)%nat /\ seen c = true /\ ik_type (entry_at kvs c).1 = kTypeValue /\ saved_is d c
           /\ (forall j, (i < j < c)%nat -> seen j = false) /\ forall j, (c < j < top)%nat -> shown j = false).

(** The state in which it ends: the last shown entry before [top], if any. *)
Definition prev_post (top : nat) (value_type : Z) (d : T) : Prop :=
  (value_type = kTypeDeletion /\ forall j, (j < top)%nat -> shown j = false)
  \/ (value_type = kTypeValue
      /\ exists c, (c < top)%nat /\ shown c = true /\ saved_is d c /\ just_before d c
           /\ forall j, (c < j < top)%nat -> shown j = false).

Definition same_but_iter (d d' : T) : Prop :=
  di_ok d' /\ live (di_iter d') /\ di_direction d' = di_direction d /\ di_valid d' = di_valid d.

Lemma kTypes i : (i < length kvs)%nat ->
  ik_type (entry_at kvs i).1 = kTypeDeletion \/ ik_type (entry_at kvs i).1 = kTypeValue.
Proof.
  intros [kv Hkv]%lookup_lt_is_Some_2. rewrite (entry_at_lookup kvs i kv Hkv).
  destruct (entry_parts i kv Hkv) as (t & _ & _ & _ & _ & _ & Ht & Hle).
  unfold kTypeDeletion, kTypeValue in *. pose proof (Z.mod_pos_bound (le_val t) 256). lia.
Qed.

(** The candidate is shown when an entry of an earlier user key is seen, or
    none. *)
Lemma prev_candidate c :
  seen c = true -> ik_type (entry_at kvs c).1 = kTypeValue ->
  (forall j, (j < c)%nat -> seen j = true -> uorder (user j) (user c) < 0) -> shown c = true.
Proof. intros. by apply shown_iff. Qed.

(** An entry seen before [c] that is not of an earlier user key hides it. *)
Lemma prev_hidden c i :
  seen i = true -> (i < c)%nat -> 0 <= uorder (user i) (user c) -> shown c = false.
Proof. intros Hi Hic Ho. destruct (shown c) eqn:E; [|done]. pose proof (shown_after i c E Hic Hi). lia. Qed.

Lemma find_prev_loop_ok n top i value_type d :
  di_ok d -> at_pos (di_iter d) i -> (i < length kvs)%nat -> (i < n)%nat -> (i < top)%nat ->
  prev_inv top i value_type d ->
  exists vt d', find_prev_loop n value_type d = Some (vt, d') /\ same_but_iter d d' /\ prev_post top vt d'.
Proof.
  revert i value_type d. induction n as [|n IH]; intros i value_type d Hok Hat Hi Hn Htop Hinv; [lia|].
  cbn [find_prev_loop]. destruct (parse_visible_ok d i Hok Hat Hi) as (db & rnd & until & -> & Hok').
  cbn [mbind option_bind]. set (d1 := di_with_sample d db rnd until) in *.
  assert (prev_inv top i value_type d1) as Hinv1 by exact Hinv.
  assert (forall vt d2, di_ok d2 -> di_iter d2 = di_iter d -> di_direction d2 = di_direction d ->
    di_valid d2 = di_valid d ->
    ((vt = kTypeDeletion /\ forall j, (i <= j < top)%nat -> shown j = false)
     \/ (vt = kTypeValue
         /\ exists c, (i <= c < top)%nat /\ seen c = true /\ ik_type (entry_at kvs c).1 = kTypeValue /\ saved_is d2 c
           /\ (forall j, (i <= j < c)%nat -> seen j = false) /\ forall j, (c < j < top)%nat -> shown j = false)) ->
    exists vt' d', (it ← Prev (di_iter d2);
                    if Valid it then find_prev_loop n vt (di_with_iter d2 it) else Some (vt, di_with_iter d2 it))
                   = Some (vt', d') /\ same_but_iter d d' /\ prev_post top vt' d') as Hprev.
  { clear Hinv1. intros vt d2 Hok2 Hit2 Hd2 Hv2 Hinv2. rewrite Hit2.
    destruct (at_prev _ i Hat Hi) as (it & -> & Hat'). cbn [mbind option_bind].
    rewrite (at_valid it _ Hat'). destruct i as [|i].
    - rewrite bool_decide_eq_false_2 by lia. exists vt, (di_with_iter d2 it). split; [done|].
      split; [split_and!; [done|exact (at_live _ _ Hat')|done..]|].
      destruct Hinv2 as [[Hvt Hno]|(Hvt & c & Hc & Hsc & Ht & Hsv & Huns & Hno)]; [left|right]; (split; [done|]).
      + intros j Hj. apply Hno. lia.
      + exists c. split_and!; [lia| |done| |done].
        * apply prev_candidate; [done..|]. intros j Hj Hsj. rewrite Huns in Hsj by lia. done.
        * right. exists (length kvs). split_and!; [exact Hat'|lia|]. intros j Hj. apply Huns. lia.
    - rewrite bool_decide_eq_true_2 by lia.
      destruct (IH i vt (di_with_iter d2 it)) as (vt' & d' & -> & (H1 & H2 & H3 & H4) & Hpost);
        [done|exact Hat'|lia|lia|lia| |].
      + destruct Hinv2 as [[Hvt Hno]|(Hvt & c & Hc & Hsc & Ht & Hsv & Huns & Hno)]; [left|right]; (split; [done|]).
        * intros j Hj. apply Hno. lia.
        * exists c. split_and!; [lia|lia|done|done|done..| |done]. intros j Hj. apply Huns. lia.
      + exists vt', d'. split; [done|]. split; [|done]. split_and!; [done|done| |].
        * by rewrite H3.
        * by rewrite H4. }
  destruct (seen i) eqn:Hseen; cbn [user_key type sequence].
  - assert (exists before, (if negb (value_type =? kTypeDeletion)
        then r ← Compare (user i) (saved_key_ d1); Some (r <? 0) else Some false) = Some before
      /\ (before = true -> prev_post top value_type d1)
      /\ (before = false -> forall j, (i < j < top)%nat -> shown j = false)) as (before & -> & Ht & Hf).
    { destruct Hinv1 as [[-> Hno]|(-> & c & Hc & Hsc & Hty & [Hk Hval] & Huns & Hno)].
      - exists false. split_and!; [done|done|]. intros _ j Hj. by apply Hno.
      - cbn [Z.eqb negb kTypeValue kTypeDeletion]. rewrite Hk.
        rewrite (Compare_order (compare := Compare)) by eauto using seen_valid. cbn [mbind option_bind].
        eexists. split; [done|]. split.
        + intros Ho%Z.ltb_lt. right. split; [done|]. exists c. split_and!; [lia| |done| |done].
          * apply prev_candidate; [done..|]. intros j Hj Hsj.
            destruct (Nat.lt_ge_cases i j) as [Hlt|Hge]; [rewrite Huns in Hsj by lia; done|].
            apply (order_le_lt_trans (compare := Compare) _ (user i)); [eauto using seen_valid..| |done].
            by apply users_ascend.
          * left. exists i. split_and!; [exact Hat|lia|done].
        + intros Ho%Z.ltb_ge j Hj. destruct (Nat.lt_trichotomy j c) as [Hlt|[->|Hgt]].
          * destruct (shown j) eqn:E; [|done]. apply shown_seen in E. rewrite Huns in E by lia. done.
          * by apply (prev_hidden c i); [|lia|].
          * apply Hno. lia. }
    cbn [mbind option_bind]. destruct before.
    { exists value_type, d1. split; [done|]. split; [|by apply Ht].
      split_and!; [done|exact (at_live _ i Hat)|done..]. }
    destruct (Z.eqb_spec (ik_type (entry_at kvs i).1) kTypeDeletion) as [Hdel|Hval].
    + apply Hprev; [done|done|done|done|]. left. split; [done|]. intros j Hj.
      destruct (decide (j = i)) as [->|]; [|by apply Hf; [done|lia]].
      destruct (shown i) eqn:E; [|done]. apply shown_iff in E as (_ & E & _). rewrite E in Hdel. done.
    + destruct (lookup_lt_is_Some_2 kvs i Hi) as [kv Hkv]. change (di_iter d1) with (di_iter d).
      destruct (at_entry_kv _ i kv Hat Hkv) as [-> ->]. cbn [mbind option_bind].
      rewrite (entry_user i kv Hkv). cbn [mbind option_bind].
      destruct (kTypes i Hi) as [?|Hty]; [done|].
      apply Hprev; [done|done|done|done|]. right. split; [done|]. exists i.
      split_and!; [lia|lia|done|done| |intros; lia|intros j Hj; apply Hf; [done|lia]].
      split; [done|]. cbn. by rewrite (entry_at_lookup kvs i kv Hkv).
  - apply Hprev; [done|done|done|done|].
    destruct Hinv1 as [[-> Hno]|(-> & c & Hc & Hsc & Hty & Hsv & Huns & Hno)]; [left|right]; (split; [done|]).
    + intros j Hj. destruct (decide (j = i)) as [->|]; [|apply Hno; lia].
      destruct (shown i) eqn:E; [|done]. apply shown_seen in E. congruence.
    + exists c. split_and!; [lia|lia|done|done|exact Hsv| |done]. intros j Hj.
      destruct (decide (j = i)) as [->|]; [done|]. apply Huns. lia.
Qed.

(** The place before [p]. *)
Definition place_before (p : nat) : nat := match p with O => length view | S q => q end.

Lemma FindPrevUserEntry_ok top d :
  di_ok d -> live (di_iter d) -> di_direction d = kReverse -> (top <= length kvs)%nat ->
  (exists i, at_pos (di_iter d) i /\ (i < length kvs)%nat /\ (i < top)%nat /\ forall j, (i < j < top)%nat -> shown j = false)
  \/ (exists i, at_pos (di_iter d) i /\ (length kvs <= i)%nat /\ forall j, (j < top)%nat -> shown j = false) ->
  exists d', FindPrevUserEntry fuel d = Some d' /\ di_at d' (place_before (rank top)).
Proof.
  intros Hok Hlive Hd Htop Hi. unfold FindPrevUserEntry. rewrite Hd.
  assert (exists vt d1, (if Valid (di_iter d) then find_prev_loop fuel kTypeDeletion d else Some (kTypeDeletion, d))
    = Some (vt, d1) /\ same_but_iter d d1 /\ prev_post top vt d1) as (vt & d1 & -> & (H1 & H2 & H3 & H4) & Hpost).
  { destruct Hi as [(i & Hat & Hi & Hit & Hno)|(i & Hat & Hi & Hno)]; rewrite (at_valid _ i Hat).
    - rewrite bool_decide_eq_true_2 by done. apply (find_prev_loop_ok _ _ i); [done..|lia|lia|]. by left.
    - rewrite bool_decide_eq_false_2 by lia. exists kTypeDeletion, d. split; [done|]. split; [by split_and!|by left]. }
  cbn [mbind option_bind]. destruct Hpost as [[-> Hno]|(-> & c & Hc & Hsh & Hsv & Hjb & Hno)].
  - cbn [Z.eqb kTypeDeletion]. eexists. split; [done|]. split_and!; [done|done|]. cbn [di_valid di_with_valid].
    assert (rank top = 0%nat) as ->; [|done].
    rewrite <- (shown_before_same uorder s kvs 0 top); [done|lia|]. intros l Hl. apply Hno. lia.
  - cbn [Z.eqb kTypeDeletion kTypeValue]. eexists. split; [done|]. split_and!; [done|done|].
    cbn [di_valid di_with_valid di_direction]. rewrite H3, Hd. exists c.
    assert (rank top = S (rank c)) as ->; [|done].
    rewrite <- (shown_before_same uorder s kvs (S c) top); [rewrite shown_before_S, Hsh; lia|lia|].
    intros l Hl. apply Hno. lia.
Qed.

(** Leaving the entries of the current key, backwards. *)
Lemma before_saved_loop_ok n c i d :
  di_ok d -> at_pos (di_iter d) i -> (i <= c)%nat -> (i < n)%nat -> shown c = true -> saved_key_ d = user c ->
  (forall j, (i <= j < c)%nat -> shown j = false) ->
  exists more d', before_saved_loop n d = Some (more, d') /\ di_ok d' /\ live (di_iter d')
    /\ di_direction d' = di_direction d
    /\ if more : bool then exists j, at_pos (di_iter d') j /\ (j < c)%nat /\ forall l, (j < l < c)%nat -> shown l = false
       else di_valid d' = false /\ forall l, (l < c)%nat -> shown l = false.
Proof.
  revert i d. induction n as [|n IH]; intros i d Hok Hat Hi Hn Hc Hk Hno; [lia|]. cbn [before_saved_loop].
  pose proof (seen_lt _ _ _ (shown_seen _ _ _ _ Hc)) as Hl.
  destruct (at_prev _ i Hat ltac:(lia)) as (it & -> & Hat'). cbn [mbind option_bind].
  rewrite (at_valid it _ Hat'). destruct i as [|i].
  - rewrite bool_decide_eq_false_2 by lia. eexists _, _. split; [done|].
    split_and!; [done|exact (at_live _ _ Hat')|done..|]. intros l Hl'. apply Hno. lia.
  - rewrite bool_decide_eq_true_2 by lia. destruct (lookup_lt_is_Some_2 kvs i ltac:(lia)) as [kv Hkv].
    destruct (at_entry_kv it i kv Hat' Hkv) as [-> _]. cbn [mbind option_bind].
    rewrite (entry_user i kv Hkv). cbn [mbind option_bind]. change (saved_key_ (di_with_iter d it)) with (saved_key_ d).
    rewrite Hk, (Compare_order (compare := Compare)) by (apply user_valid; lia). cbn [mbind option_bind].
    destruct (Z.ltb_spec (uorder (user i) (user c)) 0) as [Ho|Ho].
    + eexists _, _. split; [done|]. split_and!; [done|exact (at_live _ _ Hat')|done|].
      exists i. split_and!; [done|lia|]. intros l Hl'. apply Hno. lia.
    + apply (IH i (di_with_iter d it)); [done|done|lia|lia|done|done|].
      intros j Hj. destruct (decide (j = i)) as [->|]; [|apply Hno; lia].
      destruct (shown i) eqn:E; [|done]. pose proof (shown_after i c Hc ltac:(lia) (shown_seen _ _ _ _ E)). lia.
Qed.

Lemma DBIter_Prev_ok d p :
  di_at d p -> (p < length view)%nat -> exists d', DBIter_Prev fuel d = Some d' /\ di_at d' (place_before p).
Proof.
  intros (Hok & Hlive & Hv) Hp. unfold DBIter_Prev. destruct (di_valid d) eqn:Evalid; [|lia].
  destruct Hv as (c & Hc & <- & Hdir). pose proof (seen_lt _ _ _ (shown_seen _ _ _ _ Hc)) as Hl.
  destruct (di_direction d) eqn:Ed.
  - rewrite (at_valid _ c Hdir), bool_decide_eq_true_2 by done.
    destruct (lookup_lt_is_Some_2 kvs c Hl) as [kv Hkv].
    destruct (at_entry_kv _ c kv Hdir Hkv) as [-> _]. cbn [mbind option_bind].
    rewrite (entry_user c kv Hkv). cbn [mbind option_bind].
    destruct (before_saved_loop_ok fuel c c (SaveKey d (user c))) as (more & d1 & -> & Hok1 & Hl1 & Hd1 & Hmore);
      [done|done|lia|lia|done|done|lia|]. cbn [mbind option_bind]. destruct more.
    + destruct Hmore as (j & Hat & Hj & Hno). apply FindPrevUserEntry_ok; [done|done|done|lia|].
      left. exists j. split_and!; [done|lia|lia|done].
    + destruct Hmore as [Hv1 Hno]. exists d1. split; [done|]. split_and!; [done|done|]. rewrite Hv1.
      assert (rank c = 0%nat) as ->; [|done].
      rewrite <- (shown_before_same uorder s kvs 0 c); [done|lia|]. intros l Hl'. apply Hno. lia.
  - destruct Hdir as [_ Hb]. apply FindPrevUserEntry_ok; [done|done|done|lia|].
    destruct Hb as [(j & Hat & Hj & Hun)|(j & Hat & Hj & Hun)]; [left|right]; exists j; (split; [done|]).
    + split_and!; [lia|lia|]. intros l Hl'. destruct (shown l) eqn:E; [|done].
      apply shown_seen in E. rewrite Hun in E by lia. done.
    + split; [lia|]. intros l Hl'. destruct (shown l) eqn:E; [|done].
      apply shown_seen in E. rewrite Hun in E by lia. done.
Qed.

(** ** Seeking *)
Lemma after_seek_ok i d :
  di_ok d -> di_direction d = kForward -> at_pos (di_iter d) i -> next_inv i false (saved_key_ d) ->
  exists d', after_seek fuel d = Some d' /\ di_at d' (rank i).
Proof.
  intros Hok Hd Hat Hinv. unfold after_seek. rewrite (at_valid _ i Hat). case_bool_decide as Hi.
  - destruct (FindNextUserEntry_ok i false d Hok Hd Hat Hi Hinv) as (d' & -> & Hsc). exists d'.
    split; [done|]. by apply (scanned_at i (saved_key_ d)).
  - eexists. split; [done|]. split_and!; [done|exact (at_live _ i Hat)|]. cbn. rewrite view_length.
    apply shown_before_mono. lia.
Qed.

Lemma DBIter_SeekToFirst_ok d :
  di_live d -> exists d', DBIter_SeekToFirst fuel d = Some d' /\ di_at d' 0.
Proof.
  intros [Hok Hlive]. unfold DBIter_SeekToFirst. cbv zeta. cbn [di_iter ClearSavedValue di_with_saved di_with_valid].
  destruct (seek_first _ Hlive) as (it & -> & Hat). cbn [mbind option_bind].
  apply (after_seek_ok 0); [done|done|done|]. intros j l Hj. lia.
Qed.

Lemma DBIter_SeekToLast_ok d :
  di_live d -> exists d', DBIter_SeekToLast fuel d = Some d' /\ di_at d' (length view - 1).
Proof.
  intros [Hok Hlive]. unfold DBIter_SeekToLast. cbv zeta. cbn [di_iter ClearSavedValue di_with_saved di_with_valid].
  destruct (seek_last _ Hlive) as (it & -> & Hat). cbn [mbind option_bind].
  assert (place_before (rank (length kvs)) = (length view - 1)%nat \/ length view = 0%nat) as Hp.
  { rewrite view_length. unfold place_before. rewrite view_length. destruct (rank (length kvs)); lia. }
  edestruct (FindPrevUserEntry_ok (length kvs)) as (d' & -> & Hd'); [| | |done| |].
  5: { exists d'. split; [reflexivity|]. destruct Hp as [<-|E]; [exact Hd'|]. rewrite E.
       destruct Hd' as (H1 & H2 & H3). split_and!; [done|done|]. destruct (di_valid d'); [|lia].
       destruct H3 as (c & Hc & _). pose proof (shown_before_lt _ _ _ _ Hc). lia. }
  - done.
  - exact (at_live _ _ Hat).
  - done.
  - destruct (decide (length kvs = 0%nat)) as [E|E].
    + right. exists (length kvs - 1)%nat. split_and!; [exact Hat|lia|lia].
    + left. exists (length kvs - 1)%nat. split_and!; [exact Hat|lia|lia|lia].
Qed.

(** The entries before the sought one are of smaller user keys, or too new. *)
Lemma seek_splits t i :
  uvalid t ->
  splits_at (ikey_order uorder) kvs
    (AppendInternalKey [] {| user_key := t; sequence := s; type := kValueTypeForSeek |}) i ->
  (i <= length kvs)%nat
  /\ (forall j, (j < i)%nat -> seen j = true -> uorder (user j) t < 0)
  /\ forall j, (i <= j)%nat -> seen j = true -> 0 <= uorder (user j) t.
Proof.
  intros Ht [Hle Hsp]. split; [done|].
  assert (forall j, (j < length kvs)%nat -> seen j = true -> uorder (user j) t < 0 <-> (j < i)%nat) as H.
  { intros j [kv Hkv]%lookup_lt_is_Some_2 Hsj. rewrite <- (Hsp j kv Hkv).
    destruct (entry_parts j kv Hkv) as (tag & E & Htl & Hb & _ & Es & Ety & Hty).
    rewrite E, AppendInternalKey_app, app_nil_l. cbn [user_key sequence type].
    rewrite ikey_order_app by done. unfold EncodeFixed64. cbn [kLittleEndian].
    rewrite le_val_bytes by (apply (Pack_range s kValueTypeForSeek); done).
    rewrite Pack_add by done.
    assert (le_val tag <= s * 256 + kValueTypeForSeek) as Hle'.
    { unfold seen_at in Hsj. apply andb_true_iff in Hsj as [_ Hsj%Z.leb_le].
      rewrite (entry_at_lookup kvs j kv Hkv) in Hsj. rewrite Es in Hsj. rewrite Ety in Hty.
      change kValueTypeForSeek with 1. change kTypeValue with 1 in Hty.
      Z.to_euclidean_division_equations; lia. }
    destruct (Z.eqb_spec (uorder (user j) t) 0) as [->|]; [|done].
    destruct (Z.gtb_spec (le_val tag) (s * 256 + kValueTypeForSeek)); [lia|].
    destruct (Z.ltb_spec (le_val tag) (s * 256 + kValueTypeForSeek)); lia. }
  split; intros j Hj Hsj; pose proof (seen_lt _ _ _ Hsj) as Hl; specialize (H j Hl Hsj); lia.
Qed.

Lemma DBIter_Seek_ok d t :
  di_live d -> uvalid t ->
  exists d' p, DBIter_Seek fuel d t = Some d' /\ di_at d' p /\ splits_at uorder view t p.
Proof.
  intros [Hok Hlive] Ht. unfold DBIter_Seek. cbv zeta.
  cbn [di_iter SaveKey ClearSavedValue di_with_saved di_with_valid di_sequence saved_key_].
  destruct Hok as (H1 & Hsq & H3 & H4). rewrite Hsq.
  edestruct (seek_target (di_iter d)) as (it & i & -> & Hat & Hsp);
    [exact Hlive|apply (ikey_valid_append t s kValueTypeForSeek Ht)|].
  cbn [mbind option_bind]. destruct (seek_splits t i Ht Hsp) as (Hi & Hlo & Hhi).
  edestruct (after_seek_ok i) as (d' & -> & Hd'); [| |exact Hat| |]; [done|done| |].
  { intros j l Hj Hl Hsj Hsl. apply (order_lt_le_trans (compare := Compare) _ t); [eauto using seen_valid..|by apply Hlo|].
    apply (order_le_flip (compare := Compare)); [eauto using seen_valid..|]. by apply Hhi. }
  exists d', (rank i). split_and!; [done|done|]. split.
  - rewrite view_length. by apply shown_before_mono.
  - intros p x Hx. destruct (view_lookup_inv _ _ _ _ _ Hx) as (c & Hc & <- & ->). cbn [fst].
    pose proof (shown_seen _ _ _ _ Hc) as Hsc. split.
    + intros Ho. assert (c < i)%nat.
      { destruct (Nat.lt_ge_cases c i) as [|Hge]; [done|]. specialize (Hhi c Hge Hsc). lia. }
      pose proof (shown_before_mono uorder s kvs (S c) i ltac:(lia)) as Hm. rewrite shown_before_S, Hc in Hm. lia.
    + intros Hlt. apply Hlo; [|done]. destruct (Nat.lt_ge_cases c i) as [|Hge]; [done|].
      pose proof (shown_before_mono uorder s kvs i c Hge). lia.
Qed.

(** ** The law *)
#[local] Instance DBIter_law : IteratorLaw uvalid uorder (DB_Iterator (D := D) fuel) view di_live di_at.
Proof.
  split.
  - by intros d p (H1 & H2 & _).
  - intros d [(H1 & _) H2]. change (DBIter_status d = Some Status_OK). unfold DBIter_status. rewrite H1.
    exact (at_status _ H2).
  - intros d p (_ & _ & H). change (di_valid d = bool_decide (p < length view)%nat). destruct (di_valid d).
    + destruct H as (c & Hc & <- & _). symmetry. apply bool_decide_eq_true_2. by apply shown_before_lt.
    + symmetry. apply bool_decide_eq_false_2. lia.
  - intros d p x (_ & _ & H) Hx. change (DBIter_key d = Some x.1 /\ DBIter_value d = Some x.2).
    unfold DBIter_key, DBIter_value. destruct (di_valid d); [|apply lookup_lt_Some in Hx; lia].
    destruct H as (c & Hc & <- & Hdir). rewrite (view_lookup _ _ _ _ Hc) in Hx. injection Hx as <-. cbn [fst snd].
    destruct (di_direction d).
    + destruct (lookup_lt_is_Some_2 kvs c (seen_lt _ _ _ (shown_seen _ _ _ _ Hc))) as [kv Hkv].
      destruct (at_entry_kv _ c kv Hdir Hkv) as [-> ->]. cbn [mbind option_bind].
      by rewrite (entry_user c kv Hkv), (entry_at_lookup kvs c kv Hkv).
    + destruct Hdir as [[-> ->] _]. done.
  - apply DBIter_SeekToFirst_ok.
  - apply DBIter_SeekToLast_ok.
  - apply DBIter_Seek_ok.
  - apply DBIter_Next_ok.
  - apply DBIter_Prev_ok.
Qed.

Lemma NewDBIterator_live (db : D) it seed : live it -> di_live (NewDBIterator db it s seed).
Proof using s.
  intros Hit. unfold NewDBIterator, RandomCompactionPeriod, Random_Uniform. cbv zeta.
  pose proof (Random_Next_range _ (Random_new_range seed)) as Hr.
  split; [split_and!|]; cbn [di_status di_sequence di_rnd bytes_until_read_sampling_ di_iter]; [done|done|apply Hr|apply Hr| |done].
  by apply Z.mod_pos_bound.
Qed.
End Ops.

(** * The view *)

(** [(u, v)] is the newest entry of its user key that [s] can see, and it is a
    value. *)
Definition newest_value (uorder : bytes -> bytes -> Z) (s : Z) (kvs : list (bytes * bytes)) (u v : bytes) : Prop :=
  exists k, (k, v) ∈ kvs /\ ikey_user k = u /\ ik_seq k <= s /\ ik_type k = kTypeValue
    /\ forall k' v', (k', v') ∈ kvs -> uorder (ikey_user k') u = 0 -> ik_seq k' <= s -> ikey_tag k' <= ikey_tag k.

Section ViewSpec.
Context {U : Comparator} {uvalid : bytes -> Prop} {uorder : bytes -> bytes -> Z} {UL : ComparatorLaw U uvalid uorder}
  {s : Z} {kvs : list (bytes * bytes)} (Hparse : Forall (entry_parses uvalid) kvs)
  (Hasc : ascending (ikey_order uorder) kvs).

Lemma user_view_ascending : ascending uorder (user_view uorder s kvs).
Proof.
  intros p x y Hx Hy. destruct (view_lookup_inv _ _ _ _ _ Hx) as (i & Hi & <- & ->).
  destruct (view_lookup_inv _ _ _ _ _ Hy) as (j & Hj & Hp & ->). apply (shown_after i j Hj); [|by apply shown_seen in Hi].
  destruct (Nat.lt_ge_cases i j) as [|Hge]; [done|]. pose proof (shown_before_mono uorder s kvs j i Hge). lia.
Qed.

Lemma lookup_seen i k v :
  kvs !! i = Some (k, v) -> seen_at s kvs i = true <-> ik_seq k <= s.
Proof.
  intros Hi. unfold seen_at. rewrite (entry_at_lookup kvs i _ Hi), andb_true_iff, Nat.ltb_lt, Z.leb_le.
  cbn [fst]. split; [by intros [_ H]|]. intros H. split; [by apply lookup_lt_Some in Hi|done].
Qed.

Lemma tags_descend i j k v k' v' :
  kvs !! i = Some (k, v) -> kvs !! j = Some (k', v') -> (i < j)%nat ->
  uorder (ikey_user k) (ikey_user k') = 0 -> ikey_tag k' < ikey_tag k.
Proof.
  intros Hi Hj Hij Hu. pose proof (ascending_lt kvs i j _ _ Hasc (kvs_valid Hparse) Hi Hj Hij) as Ho.
  unfold ikey_order in Ho. cbn [fst] in Ho. rewrite Hu in Ho. cbn [Z.eqb] in Ho.
  destruct (Z.gtb_spec (ikey_tag k) (ikey_tag k')); [lia|]. by destruct (_ <? _).
Qed.

Lemma elem_of_user_view u v : (u, v) ∈ user_view uorder s kvs <-> newest_value uorder s kvs u v.
Proof.
  assert (forall i k v, kvs !! i = Some (k, v) -> user_at kvs i = ikey_user k) as Huser.
  { intros i k v' Hi. unfold user_at. by rewrite (entry_at_lookup kvs i _ Hi). }
  split.
  - intros (p & Hp)%list_elem_of_lookup. destruct (view_lookup_inv _ _ _ _ _ Hp) as (i & Hi & _ & [= -> ->]).
    destruct (lookup_lt_is_Some_2 kvs i (seen_lt _ _ _ (shown_seen _ _ _ _ Hi))) as [[k v] Hkv].
    rewrite (entry_at_lookup kvs i _ Hkv), (Huser i k v Hkv). cbn [snd].
    apply shown_iff in Hi as (Hsi & Ht & Hfirst). rewrite (entry_at_lookup kvs i _ Hkv) in Ht.
    exists k. split_and!; [by apply list_elem_of_lookup_2 in Hkv|done|by apply (lookup_seen i k v)|done|].
    intros k' v' (j & Hj)%list_elem_of_lookup Hu Hs'. destruct (Nat.lt_trichotomy i j) as [Hij|[<-|Hji]].
    + apply Z.lt_le_incl. apply (tags_descend i j _ v _ v'); [done..|]. pose proof (proj1 (Forall_lookup _ _) (kvs_valid Hparse)) as Hv.
      pose proof (order_sym (compare := Compare) (ikey_user k) (ikey_user k')) as Hsym.
      rewrite Hu in Hsym. rewrite <- (Huser i k v Hkv), <- (Huser j k' v' Hj) in *.
      specialize (Hsym (user_valid Hparse i (lookup_lt_Some _ _ _ Hkv)) (user_valid Hparse j (lookup_lt_Some _ _ _ Hj))). lia.
    + rewrite Hkv in Hj. injection Hj as <- <-. done.
    + exfalso. specialize (Hfirst j Hji (proj2 (lookup_seen j k' v' Hj) Hs')).
      rewrite (Huser i k v Hkv), (Huser j k' v' Hj) in Hfirst. lia.
  - intros (k & (i & Hi)%list_elem_of_lookup & <- & Hs' & Ht & Hnew).
    assert (shown_at uorder s kvs i = true) as Hsh.
    { apply shown_iff. rewrite (entry_at_lookup kvs i _ Hi). split_and!; [by apply (lookup_seen i k v)|done|].
      intros j Hj Hsj. destruct (lookup_lt_is_Some_2 kvs j (seen_lt _ _ _ Hsj)) as [[k' v'] Hj'].
      pose proof (users_ascend Hparse Hasc j i ltac:(lia) (lookup_lt_Some _ _ _ Hi)) as Ho.
      destruct (Z.eq_dec (uorder (user_at kvs j) (user_at kvs i)) 0) as [E|]; [|lia]. exfalso.
      rewrite (Huser i k v Hi), (Huser j k' v' Hj') in E.
      pose proof (tags_descend j i k' v' k v Hj' Hi Hj E).
      assert (ik_seq k' <= s) as Hs'' by (by apply (lookup_seen j k' v')).
      specialize (Hnew k' v' (list_elem_of_lookup_2 _ _ _ Hj') E Hs''). lia. }
    apply list_elem_of_lookup. exists (shown_before uorder s kvs i). rewrite (view_lookup _ _ _ _ Hsh).
    by rewrite (Huser i k v Hi), (entry_at_lookup kvs i _ Hi).
Qed.
End ViewSpec.

(** C7: the iterator of the database shows a snapshot.  Over any internal
    iterator whose keys ascend and parse, it is an iterator - forwards,
    backwards, with changes of direction, and from any target - over the keys
    whose newest entry not newer than its sequence number is a value, each with
    that value; every step ends, the sampling of reads included. *)
Theorem db_iterator_snapshot {U : Comparator} {uvalid uorder} {UL : ComparatorLaw U uvalid uorder}
    {D} {RS : ReadSampler D} {St} {I : Iterator St} (s : Z) (kvs : list (bytes * bytes)) (db : D) (it : St)
    (seed : Z) (fuel : nat) :
  valid_seq s -> Forall (entry_parses uvalid) kvs -> ascending (ikey_order uorder) kvs ->
  iterates (ikey_valid uvalid) (ikey_order uorder) I kvs it -> (length kvs < fuel)%nat ->
  exists view, iterates uvalid uorder (DB_Iterator fuel) view (NewDBIterator db it s seed)
    /\ ascending uorder view
    /\ forall u v, (u, v) ∈ view <-> newest_value uorder s kvs u v.
Proof.
  intros Hs Hp Ha (live & at_pos & L & Hit) Hf. exists (user_view uorder s kvs). split_and!.
  - eexists _, _. split; [by apply (DBIter_law (L := L) Hs Hp Ha fuel Hf)|]. by apply NewDBIterator_live.
  - apply user_view_ascending.
  - intros u v. by apply elem_of_user_view.
Qed.

(** ** A concrete view: an overwritten, a deleted and a too new entry *)
Definition view_kvs : list (bytes * bytes) := [
  (InternalKey_make [97] 7 kTypeValue, [1]); (InternalKey_make [97] 3 kTypeValue, [2]);
  (InternalKey_make [98] 9 kTypeValue, [3]); (InternalKey_make [98] 5 kTypeDeletion, []);
  (InternalKey_make [98] 4 kTypeValue, [4]); (InternalKey_make [99] 2 kTypeValue, [5])].

#[export] Instance sample_sampler : ReadSampler (list bytes) := { RecordReadSample l k := k :: l }.

Definition view_iterator : Iterator nat := ListIterator InternalKey_Compare view_kvs.

Lemma db_iterator_snapshot_witness :
  exists view, iterates (Forall is_byte) Slice_compare (DB_Iterator (I := view_iterator) 7) view
                 (NewDBIterator [] 0%nat 7 301)
    /\ SeekToFirst (Iterator := DB_Iterator (I := view_iterator) 7) (NewDBIterator [] 0%nat 7 301)
         ≫= collect (I := DB_Iterator (I := view_iterator) 7) 3 (Next (Iterator := DB_Iterator (I := view_iterator) 7))
       = Some [([97], [1]); ([99], [5])]
    /\ forall u v, (u, v) ∈ view <-> newest_value Slice_compare 7 view_kvs u v.
Proof.
  assert (Forall (entry_parses (Forall is_byte)) view_kvs) as Hp.
  { unfold view_kvs. repeat (constructor; [apply entry_parses_make;
      [by repeat constructor|split; vm_compute; congruence|(by left) || (by right)|vm_compute; reflexivity]|]).
    constructor. }
  assert (ascending (ikey_order Slice_compare) view_kvs) as Ha.
  { intros [|[|[|[|[|[|i]]]]]] x y Hx Hy; try discriminate; injection Hx as <-; injection Hy as <-; vm_compute; done. }
  destruct (db_iterator_snapshot (RS := sample_sampler) (I := view_iterator) (UL := Bytewise_law)
              7 view_kvs [] 0%nat 301 7) as (view & H1 & H2 & H3).
  - split; vm_compute; congruence.
  - exact Hp.
  - exact Ha.
  - eexists _, _. split; [apply (ListIterator_law InternalKey_Compare view_kvs (CL := Comparator_compare (ComparatorLaw := InternalKey_law)))|exact Logic.I].
    + exact Ha.
    + eapply Forall_impl; [exact Hp|]. by intros kv [H _].
  - simpl. lia.
  - exists view. split_and!; [exact H1| |exact H3]. vm_compute; reflexivity.
Defined.
