(* ===== verification/LdbFormat.v ===== *)
(** leveldb: the parts of a table file, [format.h] and [format.cc].

    The Snappy library is the class [Snappy]; without [HAVE_SNAPPY] the
    functions of [port_stdcxx.h] are [NoSnappy].  Memory can always be
    allocated; reading outside what was read is undefined. *)
From stdpp Require Import base numbers option strings list.
From S2P Require Import Prelude Varint LdbSlice LdbCoding LdbCrc LdbEnv.
Open Scope Z_scope.

(** * BlockHandle *)
Record BlockHandle : Type := { bh_offset : Z; bh_size : Z }.

Definition BlockHandle_new : BlockHandle := {| bh_offset := 2 ^ 64 - 1; bh_size := 2 ^ 64 - 1 |}.

Definition BlockHandle_kMaxEncodedLength : Z := 10 + 10.

(** The assertions: the fields have been set. *)
Definition BlockHandle_EncodeTo (h : BlockHandle) (dst : bytes) : option bytes :=
  if (bh_offset h =? 2 ^ 64 - 1) || (bh_size h =? 2 ^ 64 - 1) then None
  else Some (PutVarint64 (PutVarint64 dst (bh_offset h)) (bh_size h)).

Definition bad_block_handle : Status := Status_Corruption (str "bad block handle") [].

(** The status, the handle and the input after the call. *)
Definition BlockHandle_DecodeFrom (h : BlockHandle) (input : bytes) : Status * BlockHandle * bytes :=
  match GetVarint64 input with
  | None => (bad_block_handle, h, input)
  | Some (offset, input) =>
      match GetVarint64 input with
      | None => (bad_block_handle, {| bh_offset := offset; bh_size := bh_size h |}, input)
      | Some (size, input) => (Status_OK, {| bh_offset := offset; bh_size := size |}, input)
      end
  end.

(** * Footer *)
Record Footer : Type := { metaindex_handle_ : BlockHandle; index_handle_ : BlockHandle }.

Definition Footer_new : Footer := {| metaindex_handle_ := BlockHandle_new; index_handle_ := BlockHandle_new |}.

Definition Footer_kEncodedLength : Z := 2 * BlockHandle_kMaxEncodedLength + 8.
Definition kTableMagicNumber : Z := 0xdb4775248b80fb57.

(** [resize] pads the whole string; the assertion at the end. *)
Definition Footer_EncodeTo (f : Footer) (dst : bytes) : option bytes :=
  let original_size := zlen dst in
  dst ← BlockHandle_EncodeTo (metaindex_handle_ f) dst;
  dst ← BlockHandle_EncodeTo (index_handle_ f) dst;
  let n := Z.to_nat (2 * BlockHandle_kMaxEncodedLength) in
  let dst := take n dst ++ replicate (n - length dst) 0 in
  let dst := PutFixed32 dst (Z.land kTableMagicNumber 0xffffffff) in
  let dst := PutFixed32 dst (Z.shiftr kTableMagicNumber 32) in
  if zlen dst =? original_size + Footer_kEncodedLength then Some dst else None.

Definition Footer_DecodeFrom (f : Footer) (input : bytes) : option (Status * Footer * bytes) :=
  if zlen input <? Footer_kEncodedLength then None
  else
    let magic_ptr := drop (Z.to_nat (Footer_kEncodedLength - 8)) input in
    magic_lo ← DecodeFixed32 magic_ptr;
    magic_hi ← DecodeFixed32 (drop 4 magic_ptr);
    let magic := Z.lor (Z.shiftl magic_hi 32) magic_lo in
    if negb (magic =? kTableMagicNumber)
    then Some (Status_Corruption (str "not an sstable (bad magic number)") [], f, input)
    else
      let '(result, metaindex, rest) := BlockHandle_DecodeFrom (metaindex_handle_ f) input in
      if negb (Status_ok result)
      then Some (result, {| metaindex_handle_ := metaindex; index_handle_ := index_handle_ f |}, rest)
      else
        let '(result, index, rest) := BlockHandle_DecodeFrom (index_handle_ f) rest in
        let f := {| metaindex_handle_ := metaindex; index_handle_ := index |} in
        Some (result, f, if Status_ok result then drop 8 magic_ptr else rest).

(** * ReadBlock *)
Definition kBlockTrailerSize : Z := 5.

(** [CompressionType] of [options.h]. *)
Definition kNoCompression : Z := 0.
Definition kSnappyCompression : Z := 1.

Record BlockContents : Type := { bc_data : bytes; cachable : bool; heap_allocated : bool }.

Record ReadOptions : Type := { verify_checksums : bool; fill_cache : bool }.
Definition ReadOptions_default : ReadOptions := {| verify_checksums := false; fill_cache := true |}.

Class Snappy : Type := {
  Snappy_Compress : bytes -> option bytes;
  Snappy_GetUncompressedLength : bytes -> option Z;
  Snappy_Uncompress : bytes -> option bytes
}.

(** What was compressed is uncompressed again. *)
Class SnappyLaw (S : Snappy) : Prop :=
  Snappy_law x y :
    Forall is_byte x -> Snappy_Compress x = Some y ->
    Forall is_byte y /\ Snappy_GetUncompressedLength y = Some (zlen x) /\ Snappy_Uncompress y = Some x.

Definition NoSnappy : Snappy := {|
  Snappy_Compress _ := None;
  Snappy_GetUncompressedLength _ := None;
  Snappy_Uncompress _ := None
|}.

#[export] Instance NoSnappy_law : SnappyLaw NoSnappy.
Proof. by intros x y _. Qed.

Section ReadBlock.
Context {F : Type} {R : RandomAccessFile F} {S : Snappy}.

Definition no_contents : BlockContents := {| bc_data := []; cachable := false; heap_allocated := false |}.

(** [n + kBlockTrailerSize] wraps at 64 bits. *)
Definition ReadBlock (file : F) (options : ReadOptions) (handle : BlockHandle)
    : option (Status * BlockContents) :=
  let n := bh_size handle in
  let '(s, (contents, own)) := Random_Read file (bh_offset handle) (u64 (n + kBlockTrailerSize)) in
  if negb (Status_ok s) then Some (s, no_contents)
  else if negb (zlen contents =? u64 (n + kBlockTrailerSize))
  then Some (Status_Corruption (str "truncated block read") [], no_contents)
  else if zlen contents <? n + kBlockTrailerSize then None
  else
    stored ← DecodeFixed32 (drop (Z.to_nat (n + 1)) contents);
    if verify_checksums options && negb (Value 0 (take (Z.to_nat (n + 1)) contents) =? Unmask stored)
    then Some (Status_Corruption (str "block checksum mismatch") [], no_contents)
    else
      type ← contents !! Z.to_nat n;
      let data := take (Z.to_nat n) contents in
      let corrupted :=
        Some (Status_Corruption (str "corrupted compressed block contents") [], no_contents) in
      if type =? kNoCompression
      then Some (Status_OK, {| bc_data := data; cachable := own; heap_allocated := own |})
      else if type =? kSnappyCompression
      then
        match Snappy_GetUncompressedLength data with
        | None => corrupted
        | Some ulength =>
            match Snappy_Uncompress data with
            | None => corrupted
            | Some ubuf => Some (Status_OK, {| bc_data := ubuf; cachable := true; heap_allocated := true |})
            end
        end
      else Some (Status_Corruption (str "bad block type") [], no_contents).
End ReadBlock.

(** * Round trips *)

(** The two handles fit 64 bits and were set. *)
Definition handle_ok (h : BlockHandle) : Prop :=
  0 <= bh_offset h < 2 ^ 64 - 1 /\ 0 <= bh_size h < 2 ^ 64 - 1.

Definition handle_bytes (h : BlockHandle) : bytes := varint (bh_offset h) ++ varint (bh_size h).

Lemma BlockHandle_EncodeTo_ok h dst : handle_ok h -> BlockHandle_EncodeTo h dst = Some (dst ++ handle_bytes h).
Proof.
  intros [Ho Hs]. unfold BlockHandle_EncodeTo. rewrite !(proj2 (Z.eqb_neq _ _)) by lia. cbn [orb].
  unfold PutVarint64, handle_bytes. rewrite !EncodeVarint64_varint by (unfold in_uint; lia).
  by rewrite <- app_assoc.
Qed.

Lemma BlockHandle_DecodeFrom_ok h h0 rest :
  handle_ok h -> BlockHandle_DecodeFrom h0 (handle_bytes h ++ rest) = (Status_OK, h, rest).
Proof.
  intros [Ho Hs]. unfold BlockHandle_DecodeFrom, handle_bytes. rewrite <- app_assoc.
  rewrite GetVarint64_varint by (unfold in_uint; lia). rewrite GetVarint64_varint by (unfold in_uint; lia).
  by destruct h.
Qed.

Lemma handle_bytes_length h : (2 <= length (handle_bytes h) <= 20)%nat.
Proof.
  unfold handle_bytes. rewrite length_app. pose proof (varint_length (bh_offset h)).
  pose proof (varint_length (bh_size h)). lia.
Qed.

Lemma handle_bytes_bytes h : handle_ok h -> Forall is_byte (handle_bytes h).
Proof. intros [Ho Hs]. apply Forall_app. split; apply varint_bytes; unfold in_uint; lia. Qed.

(** The encoding tells handles apart. *)
Lemma handle_bytes_inj h h' : handle_ok h -> handle_ok h' -> handle_bytes h = handle_bytes h' -> h = h'.
Proof.
  intros H H' E. pose proof (BlockHandle_DecodeFrom_ok h BlockHandle_new [] H) as E1.
  pose proof (BlockHandle_DecodeFrom_ok h' BlockHandle_new [] H') as E2. rewrite E in E1. congruence.
Qed.

Definition footer_bytes (f : Footer) : bytes :=
  let handles := handle_bytes (metaindex_handle_ f) ++ handle_bytes (index_handle_ f) in
  handles ++ replicate (40 - length handles) 0 ++ EncodeFixed32 0x8b80fb57 ++ EncodeFixed32 0xdb477524.

Lemma footer_bytes_length f : length (footer_bytes f) = 48%nat.
Proof.
  unfold footer_bytes. rewrite !length_app, length_replicate, !EncodeFixed32_length.
  pose proof (handle_bytes_length (metaindex_handle_ f)). pose proof (handle_bytes_length (index_handle_ f)). lia.
Qed.

Lemma Footer_EncodeTo_ok f :
  handle_ok (metaindex_handle_ f) -> handle_ok (index_handle_ f) -> Footer_EncodeTo f [] = Some (footer_bytes f).
Proof.
  intros Hm Hi. unfold Footer_EncodeTo. rewrite BlockHandle_EncodeTo_ok by done. cbn [mbind option_bind].
  rewrite BlockHandle_EncodeTo_ok by done. cbn [mbind option_bind app].
  change (Z.to_nat (2 * BlockHandle_kMaxEncodedLength)) with 40%nat.
  pose proof (handle_bytes_length (metaindex_handle_ f)). pose proof (handle_bytes_length (index_handle_ f)).
  rewrite take_ge by (rewrite length_app; lia). unfold PutFixed32.
  change (Z.land kTableMagicNumber 0xffffffff) with 0x8b80fb57.
  change (Z.shiftr kTableMagicNumber 32) with 0xdb477524.
  pose proof (footer_bytes_length f) as Hl. unfold footer_bytes in *. rewrite <- !app_assoc in *.
  rewrite Hl. done.
Qed.

Lemma Footer_DecodeFrom_ok f f0 rest :
  handle_ok (metaindex_handle_ f) -> handle_ok (index_handle_ f) ->
  Footer_DecodeFrom f0 (footer_bytes f ++ rest) = Some (Status_OK, f, rest).
Proof.
  intros Hm Hi. unfold Footer_DecodeFrom. pose proof (footer_bytes_length f) as Hl.
  change Footer_kEncodedLength with 48. rewrite zlen_app, (proj2 (Z.ltb_ge _ _)) by lia.
  change (Z.to_nat (48 - 8)) with 40%nat. unfold footer_bytes in *. rewrite <- !app_assoc in *.
  set (m := handle_bytes (metaindex_handle_ f)) in *. set (i := handle_bytes (index_handle_ f)) in *.
  set (pad := replicate _ 0) in *.
  assert (length m + length i + length pad = 40)%nat as Hp.
  { rewrite !length_app, !EncodeFixed32_length in Hl. lia. }
  set (tail := EncodeFixed32 2340485975 ++ EncodeFixed32 3678893348 ++ rest).
  assert (m ++ i ++ pad ++ tail = (m ++ i ++ pad) ++ tail) as Et by (by rewrite <- !app_assoc).
  assert (drop 40 (m ++ i ++ pad ++ tail) = tail) as Ed
    by (rewrite Et; apply drop_app_length'; rewrite !length_app; lia).
  rewrite Ed. assert (DecodeFixed32 tail = Some 2340485975) as -> by (by apply DecodeFixed32_Encode).
  assert (DecodeFixed32 (drop 4 tail) = Some 3678893348) as -> by (by apply DecodeFixed32_Encode).
  cbn [mbind option_bind].
  change (negb (Z.lor (Z.shiftl 3678893348 32) 2340485975 =? kTableMagicNumber)) with false. cbv iota.
  unfold m. rewrite BlockHandle_DecodeFrom_ok by done. cbn [Status_ok Status_OK negb].
  unfold i. rewrite BlockHandle_DecodeFrom_ok by done. cbn [Status_ok Status_OK].
  unfold tail. rewrite app_assoc, drop_app_length' by (by rewrite length_app, !EncodeFixed32_length).
  by destruct f.
Qed.

(** * What a block of a file holds *)
Section Stored.
Context {S : Snappy} {SL : SnappyLaw S}.

Definition block_image (payload : bytes) (type : Z) : bytes :=
  payload ++ [type] ++ EncodeFixed32 (Mask (crc32c 0 (payload ++ [type]))).

Lemma block_image_length payload type : length (block_image payload type) = (length payload + 5)%nat.
Proof. unfold block_image. rewrite !length_app, EncodeFixed32_length. simpl. lia. Qed.

(** The payload is the data, or it compressed. *)
Definition payload_of (data payload : bytes) (type : Z) : Prop :=
  Forall is_byte data
  /\ ((type = kNoCompression /\ payload = data) \/ (type = kSnappyCompression /\ Snappy_Compress data = Some payload)).

(** The block of the handle in the file stands for the data. *)
Definition stores (contents : bytes) (h : BlockHandle) (data : bytes) : Prop :=
  handle_ok h /\ bh_size h < 2 ^ 63
  /\ exists pre payload type post, contents = pre ++ block_image payload type ++ post
    /\ zlen pre = bh_offset h /\ zlen payload = bh_size h /\ payload_of data payload type.

Lemma stores_app contents more h data : stores contents h data -> stores (contents ++ more) h data.
Proof.
  intros (Hh & Hs & pre & payload & type & post & -> & H). split; [done|]. split; [done|].
  exists pre, payload, type, (post ++ more). split; [|done]. by rewrite <- !app_assoc.
Qed.

Lemma payload_bytes data payload type : payload_of data payload type -> Forall is_byte (payload ++ [type]).
Proof.
  intros [Hd [[-> ->]|[-> Hc]]]; apply Forall_app; (split; [|constructor; [done|constructor]]); [done|].
  by destruct (Snappy_law data payload Hd Hc) as [Hp _].
Qed.

Lemma ReadBlock_stored {F} {R : RandomAccessFile F} (file : F) options contents h data :
  RandomAccessFileLaw R file contents -> stores contents h data ->
  exists bc, ReadBlock file options h = Some (Status_OK, bc) /\ bc_data bc = data.
Proof.
  intros RL ([Ho Hsz] & Hs & pre & payload & type & post & -> & Hpre & Hpay & Hd).
  pose proof (payload_bytes _ _ _ Hd) as Hb. unfold ReadBlock, kBlockTrailerSize.
  rewrite u64_small by (unfold in_uint; lia).
  destruct (Random_Read_ok (bh_offset h) (bh_size h + 5)) as (own & ->); [lia|lia|rewrite !zlen_app, block_image_length; lia|].
  cbn [Status_ok Status_OK negb].
  assert (take (Z.to_nat (bh_size h + 5)) (drop (Z.to_nat (bh_offset h)) (pre ++ block_image payload type ++ post))
          = block_image payload type) as ->.
  { rewrite drop_app_length' by lia. apply take_app_length'. rewrite block_image_length. lia. }
  rewrite block_image_length, !(proj2 (Z.eqb_eq _ _)) by lia. cbn [negb].
  rewrite (proj2 (Z.ltb_ge _ _)) by lia.
  assert (Z.to_nat (bh_size h + 1) = length (payload ++ [type])) as -> by (rewrite length_app; simpl; lia).
  unfold block_image. rewrite (app_assoc payload), drop_app_length, take_app_length.
  rewrite <- (app_nil_r (EncodeFixed32 _)), DecodeFixed32_Encode by apply Mask_range. cbn [mbind option_bind].
  assert (in_uint 32 (crc32c 0 (payload ++ [type]))) as Hc by (by apply crc32c_range).
  rewrite Unmask_Mask by done. unfold Value. rewrite Extend_crc32c by done. rewrite Z.eqb_refl, andb_false_r.
  rewrite <- !app_assoc. assert (Z.to_nat (bh_size h) = length payload) as -> by lia.
  cbn [app]. rewrite list_lookup_middle by done. cbn [mbind option_bind]. rewrite take_app_length.
  destruct Hd as [Hd [[-> ->]|[-> Hcomp]]]; cbn [Z.eqb kNoCompression kSnappyCompression Pos.eqb].
  - eexists. by split.
  - destruct (Snappy_law data payload Hd Hcomp) as (_ & -> & ->). eexists. by split.
Qed.
End Stored.
