(* ===== verification/LdbTable.v ===== *)
(** leveldb: writing a table file and reading it, [table_builder.h],
    [table_builder.cc], [table.h] and [table.cc].

    The options are those a table uses.  A block cache is what its [Lookup]
    returns, a function of the key, and what is inserted is a result; the reader
    takes it as an argument.  Releasing memory is not modelled. *)
From stdpp Require Import base numbers option strings list.
From S2P Require Import Prelude LdbSlice LdbCoding LdbCrc LdbBloom LdbFilterBlock LdbComparator LdbEnv LdbIterator LdbBlock LdbBlockThms LdbTwoLevel LdbFormat.
Open Scope Z_scope.

(** [env] and [info_log] are the files and the reports of the parts that use
    them, [block_cache] an argument of the readers. *)
Record Options : Type := {
  comparator : Comparator;
  create_if_missing : bool;
  error_if_exists : bool;
  paranoid_checks : bool;
  write_buffer_size : Z;
  max_open_files : Z;
  block_size : Z;
  block_restart_interval : Z;
  max_file_size : Z;
  compression : Z;
  reuse_logs : bool;
  filter_policy : option FilterPolicy
}.

Definition Options_default : Options := {|
  comparator := BytewiseComparator; create_if_missing := false; error_if_exists := false;
  paranoid_checks := false; write_buffer_size := 4 * 1024 * 1024; max_open_files := 1000;
  block_size := 4 * 1024; block_restart_interval := 16; max_file_size := 2 * 1024 * 1024;
  compression := kSnappyCompression; reuse_logs := false; filter_policy := None |}.

(** * TableBuilder *)

(** [Rep]; [tb_interval] is [index_block_options.block_restart_interval]. *)
Record TableBuilder (F : Type) : Type := {
  tb_options : Options;
  tb_interval : Z;
  tb_file : F;
  tb_offset : Z;
  tb_status : Status;
  data_block : BlockBuilder;
  index_block : BlockBuilder;
  tb_last_key : bytes;
  num_entries : Z;
  closed : bool;
  filter_block_ : option FilterBlockBuilder;
  pending_index_entry : bool;
  pending_handle : BlockHandle
}.
#[global] Arguments tb_options {F} _.
#[global] Arguments tb_interval {F} _.
#[global] Arguments tb_file {F} _.
#[global] Arguments tb_offset {F} _.
#[global] Arguments tb_status {F} _.
#[global] Arguments data_block {F} _.
#[global] Arguments index_block {F} _.
#[global] Arguments tb_last_key {F} _.
#[global] Arguments num_entries {F} _.
#[global] Arguments closed {F} _.
#[global] Arguments filter_block_ {F} _.
#[global] Arguments pending_index_entry {F} _.
#[global] Arguments pending_handle {F} _.

Section Builder.
Context {F : Type} {WF : WritableFile F} {SN : Snappy}.

#[local] Notation TB := (TableBuilder F).

(** The fields that operations change. *)
Definition tb_with_file (r : TB) (file : F) (offset : Z) (status : Status) : TB :=
  {| tb_options := tb_options r; tb_interval := tb_interval r; tb_file := file; tb_offset := offset;
     tb_status := status; data_block := data_block r; index_block := index_block r;
     tb_last_key := tb_last_key r; num_entries := num_entries r; closed := closed r;
     filter_block_ := filter_block_ r; pending_index_entry := pending_index_entry r;
     pending_handle := pending_handle r |}.

Definition tb_with_index (r : TB) (index : BlockBuilder) (pending : bool) (handle : BlockHandle) : TB :=
  {| tb_options := tb_options r; tb_interval := tb_interval r; tb_file := tb_file r; tb_offset := tb_offset r;
     tb_status := tb_status r; data_block := data_block r; index_block := index;
     tb_last_key := tb_last_key r; num_entries := num_entries r; closed := closed r;
     filter_block_ := filter_block_ r; pending_index_entry := pending; pending_handle := handle |}.

Definition tb_with_data (r : TB) (data : BlockBuilder) (last_key : bytes) (entries : Z) : TB :=
  {| tb_options := tb_options r; tb_interval := tb_interval r; tb_file := tb_file r; tb_offset := tb_offset r;
     tb_status := tb_status r; data_block := data; index_block := index_block r;
     tb_last_key := last_key; num_entries := entries; closed := closed r;
     filter_block_ := filter_block_ r; pending_index_entry := pending_index_entry r;
     pending_handle := pending_handle r |}.

Definition tb_with_filter (r : TB) (filter : option FilterBlockBuilder) (cl : bool) : TB :=
  {| tb_options := tb_options r; tb_interval := tb_interval r; tb_file := tb_file r; tb_offset := tb_offset r;
     tb_status := tb_status r; data_block := data_block r; index_block := index_block r;
     tb_last_key := tb_last_key r; num_entries := num_entries r; closed := cl;
     filter_block_ := filter; pending_index_entry := pending_index_entry r;
     pending_handle := pending_handle r |}.

Definition tb_ok (r : TB) : bool := Status_ok (tb_status r).

Definition TableBuilder_new (options : Options) (file : F) : option TB :=
  data ← BlockBuilder_new (block_restart_interval options);
  index ← BlockBuilder_new 1;
  filter ← (match filter_policy options with
            | None => Some None
            | Some P => Some <$> FilterBlockBuilder_StartBlock FilterBlockBuilder_new 0
            end);
  Some {| tb_options := options; tb_interval := 1; tb_file := file; tb_offset := 0;
          tb_status := Status_OK; data_block := data; index_block := index; tb_last_key := [];
          num_entries := 0; closed := false; filter_block_ := filter; pending_index_entry := false;
          pending_handle := BlockHandle_new |}.

(** [same_comparator] is whether the pointers are equal. *)
Definition TableBuilder_ChangeOptions (r : TB) (options : Options) (same_comparator : bool) : Status * TB :=
  if negb same_comparator
  then (Status_InvalidArgument (str "changing comparator while building table") [], r)
  else (Status_OK,
        {| tb_options := options; tb_interval := 1; tb_file := tb_file r; tb_offset := tb_offset r;
           tb_status := tb_status r; data_block := data_block r; index_block := index_block r;
           tb_last_key := tb_last_key r; num_entries := num_entries r; closed := closed r;
           filter_block_ := filter_block_ r; pending_index_entry := pending_index_entry r;
           pending_handle := pending_handle r |}).

(** The bytes of the trailer; an address does not matter to [crc32c]. *)
Definition block_trailer (contents : bytes) (type : Z) : bytes :=
  let crc := LdbCrc.Value 0 contents in
  let crc := Extend 0 crc [type] in
  [type] ++ EncodeFixed32 (Mask crc).

Definition WriteRawBlock (r : TB) (contents : bytes) (type : Z) : BlockHandle * TB :=
  let handle := {| bh_offset := tb_offset r; bh_size := zlen contents |} in
  let '(s, file) := Append (tb_file r) contents in
  if Status_ok s then
    let '(s, file) := Append file (block_trailer contents type) in
    let offset := if Status_ok s then u64 (tb_offset r + zlen contents + kBlockTrailerSize) else tb_offset r in
    (handle, tb_with_file r file offset s)
  else (handle, tb_with_file r file (tb_offset r) s).

(** The caller resets the block.  The switch is over the two values of
    [CompressionType]. *)
Definition WriteBlock (r : TB) (block : BlockBuilder) : option (BlockHandle * TB) :=
  if negb (tb_ok r) then None
  else
    let raw := fst (BlockBuilder_Finish block) in
    let '(contents, type) :=
      if compression (tb_options r) =? kNoCompression then (raw, kNoCompression)
      else
        match Snappy_Compress raw with
        | Some compressed =>
            if zlen compressed <? zlen raw - zlen raw / 8 then (compressed, kSnappyCompression)
            else (raw, kNoCompression)
        | None => (raw, kNoCompression)
        end in
    Some (WriteRawBlock r contents type).

Definition tb_StartBlock (r : TB) : option TB :=
  match filter_policy (tb_options r), filter_block_ r with
  | Some P, Some fb => fb ← FilterBlockBuilder_StartBlock fb (tb_offset r); Some (tb_with_filter r (Some fb) (closed r))
  | _, _ => Some r
  end.

Definition TableBuilder_Flush (r : TB) : option TB :=
  if closed r then None
  else if negb (tb_ok r) then Some r
  else if BlockBuilder_empty (data_block r) then Some r
  else if pending_index_entry r then None
  else
    '(handle, r) ← WriteBlock r (data_block r);
    let r := tb_with_data r BlockBuilder_Reset (tb_last_key r) (num_entries r) in
    let r := tb_with_index r (index_block r) (pending_index_entry r) handle in
    let r :=
      if tb_ok r then
        let r := tb_with_index r (index_block r) true handle in
        let '(s, file) := Flush (tb_file r) in
        tb_with_file r file (tb_offset r) s
      else r in
    tb_StartBlock r.

(** The index entry of the block before, with the key given. *)
Definition add_index_entry (r : TB) (key : bytes) : option TB :=
  handle_encoding ← BlockHandle_EncodeTo (pending_handle r) [];
  index ← BlockBuilder_Add (C := comparator (tb_options r)) (tb_interval r) (index_block r) key handle_encoding;
  Some (tb_with_data (tb_with_index r index false (pending_handle r)) (data_block r) key (num_entries r)).

Definition TableBuilder_Add (r : TB) (key value : bytes) : option TB :=
  let C := comparator (tb_options r) in
  if closed r then None
  else if negb (tb_ok r) then Some r
  else
    larger ← (if 0 <? num_entries r then c ← Compare (Comparator := C) key (tb_last_key r); Some (0 <? c)
              else Some true);
    if negb larger then None
    else
      r ← (if pending_index_entry r then
             if negb (BlockBuilder_empty (data_block r)) then None
             else sep ← FindShortestSeparator (Comparator := C) (tb_last_key r) key; add_index_entry r sep
           else Some r);
      let r := tb_with_filter r ((fun fb => FilterBlockBuilder_AddKey fb key) <$> filter_block_ r) (closed r) in
      data ← BlockBuilder_Add (C := C) (block_restart_interval (tb_options r)) (data_block r) key value;
      let r := tb_with_data r data key (num_entries r + 1) in
      if block_size (tb_options r) <=? BlockBuilder_CurrentSizeEstimate (data_block r)
      then TableBuilder_Flush r else Some r.

(** The key of the filter in the metaindex block. *)
Definition filter_key (P : FilterPolicy) : bytes := str "filter." ++ FilterPolicy_Name (FilterPolicy := P).

(** The parts of [Finish], each only if the status is ok. *)
Definition write_filter_block (r : TB) : option (BlockHandle * TB) :=
  match filter_policy (tb_options r), filter_block_ r with
  | Some P, Some fb =>
      if tb_ok r then contents ← FilterBlockBuilder_Finish fb; Some (WriteRawBlock r contents kNoCompression)
      else Some (BlockHandle_new, r)
  | _, _ => Some (BlockHandle_new, r)
  end.

Definition write_metaindex_block (r : TB) (filter_block_handle : BlockHandle) : option (BlockHandle * TB) :=
  if tb_ok r then
    meta ← BlockBuilder_new (block_restart_interval (tb_options r));
    meta ← (match filter_policy (tb_options r), filter_block_ r with
            | Some P, Some fb =>
                handle_encoding ← BlockHandle_EncodeTo filter_block_handle [];
                BlockBuilder_Add (C := comparator (tb_options r)) (block_restart_interval (tb_options r)) meta
                  (filter_key P) handle_encoding
            | _, _ => Some meta
            end);
    WriteBlock r meta
  else Some (BlockHandle_new, r).

Definition write_index_block (r : TB) : option (BlockHandle * TB) :=
  if tb_ok r then
    r ← (if pending_index_entry r then
           key ← FindShortSuccessor (Comparator := comparator (tb_options r)) (tb_last_key r); add_index_entry r key
         else Some r);
    '(handle, r) ← WriteBlock r (index_block r);
    Some (handle, tb_with_index r BlockBuilder_Reset (pending_index_entry r) (pending_handle r))
  else Some (BlockHandle_new, r).

Definition write_footer (r : TB) (metaindex index : BlockHandle) : option TB :=
  if tb_ok r then
    footer ← Footer_EncodeTo {| metaindex_handle_ := metaindex; index_handle_ := index |} [];
    let '(s, file) := Append (tb_file r) footer in
    Some (tb_with_file r file (if Status_ok s then u64 (tb_offset r + zlen footer) else tb_offset r) s)
  else Some r.

Definition TableBuilder_Finish (r : TB) : option (Status * TB) :=
  r ← TableBuilder_Flush r;
  if closed r then None
  else
    let r := tb_with_filter r (filter_block_ r) true in
    '(filter_block_handle, r) ← write_filter_block r;
    '(metaindex_block_handle, r) ← write_metaindex_block r filter_block_handle;
    '(index_block_handle, r) ← write_index_block r;
    r ← write_footer r metaindex_block_handle index_block_handle;
    Some (tb_status r, r).

Definition TableBuilder_Abandon (r : TB) : option TB :=
  if closed r then None else Some (tb_with_filter r (filter_block_ r) true).

Definition TableBuilder_NumEntries (r : TB) : Z := num_entries r.
Definition TableBuilder_FileSize (r : TB) : Z := tb_offset r.
End Builder.

(** * Table *)
Record Table (F : Type) : Type := {
  t_options : Options;
  t_file : F;
  t_cache_id : Z;
  t_filter : option FilterBlockReader;
  metaindex_handle : BlockHandle;
  t_index_block : Block
}.
#[global] Arguments t_options {F} _.
#[global] Arguments t_file {F} _.
#[global] Arguments t_cache_id {F} _.
#[global] Arguments t_filter {F} _.
#[global] Arguments metaindex_handle {F} _.
#[global] Arguments t_index_block {F} _.

Section Table.
Context {F : Type} {R : RandomAccessFile F} {SN : Snappy}.

#[local] Notation T := (Table F).

(** The options of the reads of [Open]. *)
Definition open_options (options : Options) : ReadOptions :=
  {| verify_checksums := paranoid_checks options; fill_cache := true |}.

Definition ReadFilter (options : Options) (file : F) (filter_handle_value : bytes)
    : option (option FilterBlockReader) :=
  let '(s, filter_handle, _) := BlockHandle_DecodeFrom BlockHandle_new filter_handle_value in
  if negb (Status_ok s) then Some None
  else
    '(s, block) ← ReadBlock file (open_options options) filter_handle;
    if negb (Status_ok s) then Some None
    else Some <$> FilterBlockReader_new (bc_data block).

(** The filter, if there is one. *)
Definition ReadMeta (options : Options) (file : F) (footer : Footer) : option (option FilterBlockReader) :=
  match filter_policy options with
  | None => Some None
  | Some P =>
      '(s, contents) ← ReadBlock file (open_options options) (metaindex_handle_ footer);
      if negb (Status_ok s) then Some None
      else
        meta ← Block_new (bc_data contents);
        iter ← Block_NewIterator meta;
        let key := filter_key P in
        iter ← Seek (Iterator := Block_Iterator BytewiseComparator) iter key;
        if Valid (Iterator := Block_Iterator BytewiseComparator) iter then
          k ← Key (Iterator := Block_Iterator BytewiseComparator) iter;
          if Slice_eqb k key then
            v ← Value (Iterator := Block_Iterator BytewiseComparator) iter;
            ReadFilter options file v
          else Some None
        else Some None
  end.

(** [cache_id] is what [NewId] of the block cache returned, or 0. *)
Definition Table_Open (options : Options) (file : F) (size cache_id : Z) : option (Status * option T) :=
  if size <? Footer_kEncodedLength
  then Some (Status_Corruption (str "file is too short to be an sstable") [], None)
  else
    let '(s, (footer_input, _)) := Random_Read file (size - Footer_kEncodedLength) Footer_kEncodedLength in
    if negb (Status_ok s) then Some (s, None)
    else
      '(s, footer, _) ← Footer_DecodeFrom Footer_new footer_input;
      if negb (Status_ok s) then Some (s, None)
      else
        '(s, contents) ← ReadBlock file (open_options options) (index_handle_ footer);
        if negb (Status_ok s) then Some (s, None)
        else
          index_block ← Block_new (bc_data contents);
          filter ← ReadMeta options file footer;
          Some (Status_OK, Some {| t_options := options; t_file := file; t_cache_id := cache_id;
                                   t_filter := filter; metaindex_handle := metaindex_handle_ footer;
                                   t_index_block := index_block |}).

Definition cache_key (t : T) (h : BlockHandle) : bytes :=
  EncodeFixed64 (t_cache_id t) ++ EncodeFixed64 (bh_offset h).

(** The iterator over the block, and the block that was inserted in the cache;
    [cache] is the [Lookup] of the block cache if there is one. *)
Definition BlockReader (cache : option (bytes -> option Block)) (t : T) (options : ReadOptions)
    (index_value : bytes) : option (BlockIterator * option (bytes * Block)) :=
  let '(s, handle, _) := BlockHandle_DecodeFrom BlockHandle_new index_value in
  if negb (Status_ok s) then Some (ErrorBlock (NewErrorIterator s), None)
  else
    match (lookup ← cache; lookup (cache_key t handle)) with
    | Some block => iter ← Block_NewIterator block; Some (iter, None)
    | None =>
        '(s, contents) ← ReadBlock (t_file t) options handle;
        if negb (Status_ok s) then Some (ErrorBlock (NewErrorIterator s), None)
        else
          block ← Block_new (bc_data contents);
          let inserted :=
            if bool_decide (is_Some cache) && cachable contents && fill_cache options
            then Some (cache_key t handle, block) else None in
          iter ← Block_NewIterator block;
          Some (iter, inserted)
    end.

(** The function of the two-level iterator. *)
Definition table_block (cache : option (bytes -> option Block)) (t : T) (options : ReadOptions)
    (index_value : bytes) : option BlockIterator :=
  fst <$> BlockReader cache t options index_value.

Definition Table_NewIterator (t : T) : option (TwoLevelIterator BlockIterator BlockIterator) :=
  iter ← Block_NewIterator (t_index_block t);
  let I := Block_Iterator (comparator (t_options t)) in
  NewTwoLevelIterator (II := I) iter.

Definition Table_Iterator (fuel : nat) (cache : option (bytes -> option Block)) (t : T) (options : ReadOptions)
    : Iterator (TwoLevelIterator BlockIterator BlockIterator) :=
  let I := Block_Iterator (comparator (t_options t)) in
  TwoLevel_Iterator (II := I) (DI := I) (table_block cache t options) fuel.

(** The status, the arguments of the call of [handle_result] if there is one,
    and what was inserted in the cache. *)
Definition InternalGet (cache : option (bytes -> option Block)) (t : T) (options : ReadOptions) (k : bytes)
    : option (Status * option (bytes * bytes) * option (bytes * Block)) :=
  let I := Block_Iterator (comparator (t_options t)) in
  iiter ← Block_NewIterator (t_index_block t);
  iiter ← Seek (Iterator := I) iiter k;
  '(s, result, inserted) ←
    (if Valid (Iterator := I) iiter then
       handle_value ← Value (Iterator := I) iiter;
       let '(hs, handle, _) := BlockHandle_DecodeFrom BlockHandle_new handle_value in
       absent ← (match filter_policy (t_options t), t_filter t with
                 | Some P, Some filter =>
                     if Status_ok hs
                     then may ← FilterBlockReader_KeyMayMatch filter (bh_offset handle) k; Some (negb may)
                     else Some false
                 | _, _ => Some false
                 end);
       if absent : bool then Some (Status_OK, None, None)
       else
         '(block_iter, inserted) ← BlockReader cache t options handle_value;
         block_iter ← Seek (Iterator := I) block_iter k;
         result ← (if Valid (Iterator := I) block_iter then
                     key ← Key (Iterator := I) block_iter;
                     value ← Value (Iterator := I) block_iter;
                     Some (Some (key, value))
                   else Some None);
         s ← status (Iterator := I) block_iter;
         Some (s, result, inserted)
     else Some (Status_OK, None, None));
  s ← (if Status_ok s then status (Iterator := I) iiter else Some s);
  Some (s, result, inserted).

Definition ApproximateOffsetOf (t : T) (key : bytes) : option Z :=
  let I := Block_Iterator (comparator (t_options t)) in
  index_iter ← Block_NewIterator (t_index_block t);
  index_iter ← Seek (Iterator := I) index_iter key;
  if Valid (Iterator := I) index_iter then
    input ← Value (Iterator := I) index_iter;
    let '(s, handle, _) := BlockHandle_DecodeFrom BlockHandle_new input in
    Some (if Status_ok s then bh_offset handle else bh_offset (metaindex_handle t))
  else Some (bh_offset (metaindex_handle t)).
End Table.
