(* ===== verification/LdbTableSpec.v ===== *)
(** leveldb: the state of a table builder as the entries it was given. *)
From stdpp Require Import base numbers option strings sets list.
From S2P Require Import Prelude Varint LdbSlice LdbCoding LdbCrc LdbBloom LdbFilterBlock LdbComparator LdbEnv LdbIterator LdbBlock LdbBlockThms LdbTwoLevel LdbFormat LdbTable.
Open Scope Z_scope.

(** * Sizes *)

(** An upper bound of what the entries take in a table, index included. *)
Definition weight (kvs : list (bytes * bytes)) : Z :=
  foldr (fun kv w => zlen kv.1 + zlen kv.2 + 64 + w) 0 kvs.

Lemma weight_app a b : weight (a ++ b) = weight a + weight b.
Proof. unfold weight. induction a as [|x a IH]; cbn [app foldr]; lia. Qed.

Lemma weight_nonneg a : 0 <= weight a.
Proof. unfold weight. induction a as [|x a IH]; cbn [foldr]; lia. Qed.

Lemma weight_length a : 64 * zlen a <= weight a.
Proof. unfold weight. induction a as [|x a IH]; [done|]. cbn [foldr length]. lia. Qed.

Lemma weight_elem kv a : kv ∈ a -> zlen kv.1 + zlen kv.2 + 64 <= weight a.
Proof.
  induction a as [|x a IH]; intros Hin; [by apply not_elem_of_nil in Hin|].
  change (weight (x :: a)) with (zlen x.1 + zlen x.2 + 64 + weight a). pose proof (weight_nonneg a).
  apply elem_of_cons in Hin as [->|Hin]; [lia|]. specialize (IH Hin). lia.
Qed.

Lemma items_bytes_bound xs : zlen (items_bytes xs) <= weight (map item_kv xs) - 34 * zlen xs.
Proof.
  induction xs as [|x xs IH]; [done|].
  change (items_bytes (x :: xs)) with (item_bytes_of x ++ items_bytes xs). rewrite zlen_app, item_bytes_length.
  change (weight (map item_kv (x :: xs)))
    with (zlen (i_key x) + zlen (i_value x) + 64 + weight (map item_kv xs)).
  unfold item_head. rewrite !zlen_app, length_drop. cbn [length].
  pose proof (varint_length (Z.of_nat (i_shared x))).
  pose proof (varint_length (zlen (i_key x) - Z.of_nat (i_shared x))).
  pose proof (varint_length (zlen (i_value x))). lia.
Qed.

(** Restart points are of different entries. *)
Lemma restarts_bound xs ms : items_wf xs ms -> (length ms <= S (length xs))%nat.
Proof.
  intros W. assert (forall j m, ms !! j = Some m -> (j <= m)%nat) as H.
  { induction j as [|j IH]; intros m Hm; [lia|].
    destruct (lookup_lt_is_Some_2 ms j) as [m' Hm']; [apply lookup_lt_Some in Hm; lia|].
    pose proof (rep_restart_lt _ _ W j m' m Hm' Hm). specialize (IH m' Hm'). lia. }
  destruct ms as [|m0 ms]; [simpl; lia|]. destruct (decide (length ms = 0%nat)) as [E|E]; [simpl; lia|].
  destruct (lookup_lt_is_Some_2 (m0 :: ms) (length ms)) as [m Hm]; [simpl; lia|].
  pose proof (H _ _ Hm). destruct (rep_restart_in _ _ W _ _ Hm) as [_ Hlt]. specialize (Hlt ltac:(lia)). simpl. lia.
Qed.

Lemma block_contents_bound xs ms :
  items_wf xs ms -> zlen (block_contents xs ms) <= weight (map item_kv xs) - 30 * zlen xs + 8.
Proof.
  intros W. rewrite block_contents_length, item_off_total. pose proof (items_bytes_bound xs).
  pose proof (restarts_bound xs ms W). lia.
Qed.

(** * Writing a block *)
Section Write.
Context {F : Type} {WF : WritableFile F} {contents : F -> bytes}
  {FL : WritableFileLaw F contents} {SN : Snappy} {SL : SnappyLaw SN}.

#[local] Notation TB := (TableBuilder F).

(** Where the next block goes. *)
Definition offset_ok (r : TB) : Prop := tb_offset r = zlen (contents (tb_file r)).

(** [r'] is [r] after writing to its file. *)
Definition wrote (r r' : TB) : Prop := exists file offset status, r' = tb_with_file r file offset status.

Lemma block_trailer_image payload type :
  Forall is_byte (payload ++ [type]) -> payload ++ block_trailer payload type = block_image payload type.
Proof.
  intros Hb. pose proof Hb as [Hp Ht]%Forall_app. unfold block_trailer, block_image, LdbCrc.Value. cbv zeta.
  rewrite (Extend_crc32c 0 0 payload) by done.
  rewrite (Extend_crc32c 0 (crc32c 0 payload)) by (done || by apply crc32c_range).
  by rewrite crc32c_app.
Qed.

Lemma WriteRawBlock_ok r payload type h r' :
  Forall is_byte (payload ++ [type]) -> offset_ok r -> zlen (contents (tb_file r)) + zlen payload + 5 < 2 ^ 63 ->
  WriteRawBlock r payload type = (h, r') ->
  wrote r r' /\ h = {| bh_offset := tb_offset r; bh_size := zlen payload |} /\ tb_offset r <= tb_offset r'
  /\ (tb_ok r' = true -> contents (tb_file r') = contents (tb_file r) ++ block_image payload type /\ offset_ok r').
Proof.
  intros Hb Ho Hs. unfold WriteRawBlock. destruct (Append (tb_file r) payload) as [s f] eqn:E1.
  destruct (Status_ok s) eqn:Es.
  - destruct (Append f (block_trailer payload type)) as [s2 f2] eqn:E2. intros [= <- <-].
    split; [by eexists _, _, _|]. split; [done|]. split.
    { cbn [tb_with_file tb_offset]. unfold offset_ok in Ho. unfold kBlockTrailerSize.
      destruct (Status_ok s2); [|lia]. rewrite u64_small by (unfold in_uint; lia). lia. }
    cbn [tb_ok tb_with_file tb_status tb_file]. intros Hok.
    unfold tb_ok in Hok. cbn [tb_with_file tb_status] in Hok. rewrite Hok.
    pose proof (Append_ok _ _ _ _ E1 Es) as C1. pose proof (Append_ok _ _ _ _ E2 Hok) as C2.
    assert (contents f2 = contents (tb_file r) ++ block_image payload type) as C.
    { by rewrite C2, C1, <- app_assoc, block_trailer_image. }
    split; [done|]. unfold offset_ok in *. cbn [tb_with_file tb_offset tb_file]. rewrite C, zlen_app, block_image_length, Ho.
    unfold kBlockTrailerSize. rewrite u64_small by (unfold in_uint; lia). lia.
  - intros [= <- <-]. split; [by eexists _, _, _|]. split; [done|]. split; [done|].
    intros Hok. unfold tb_ok in Hok. cbn in Hok. congruence.
Qed.

(** The payload [WriteBlock] chooses. *)
Lemma WriteBlock_ok r block :
  let raw := fst (BlockBuilder_Finish block) in
  tb_ok r = true -> Forall is_byte raw -> offset_ok r -> zlen (contents (tb_file r)) + zlen raw + 5 < 2 ^ 63 ->
  exists h r', WriteBlock r block = Some (h, r') /\ wrote r r' /\ handle_ok h /\ bh_offset h = tb_offset r
    /\ tb_offset r <= tb_offset r'
    /\ (tb_ok r' = true -> stores (contents (tb_file r')) h raw /\ offset_ok r'
         /\ exists img, contents (tb_file r') = contents (tb_file r) ++ img /\ 5 <= zlen img <= zlen raw + 5).
Proof.
  intros raw Hok Hb Ho Hs. unfold WriteBlock. rewrite Hok. cbn [negb]. fold raw.
  set (choice := if compression _ =? _ then _ else _).
  assert (exists payload type, choice = (payload, type) /\ payload_of raw payload type /\ zlen payload <= zlen raw)
    as (payload & type & -> & Hp & Hle).
  { unfold choice. assert (payload_of raw raw kNoCompression) as Hraw by (split; [done|by left]).
    assert (0 <= zlen raw / 8) by (apply Z.div_pos; lia).
    destruct (_ =? _); [by exists raw, kNoCompression|]. destruct (Snappy_Compress raw) as [c|] eqn:Ec; [|by exists raw, kNoCompression].
    destruct (Z.ltb_spec (zlen c) (zlen raw - zlen raw / 8)); [|by exists raw, kNoCompression].
    exists c, kSnappyCompression. split; [done|]. split; [split; [done|by right]|lia]. }
  destruct (WriteRawBlock r payload type) as [h r'] eqn:E. exists h, r'. split; [done|].
  destruct (WriteRawBlock_ok r payload type h r' (payload_bytes _ _ _ Hp) Ho ltac:(lia) E) as (Hw & -> & Hm & Hc).
  unfold offset_ok in Ho.
  assert (handle_ok {| bh_offset := tb_offset r; bh_size := zlen payload |}) as Hh by (split; cbn [bh_offset bh_size]; lia).
  split_and!; [done|done|done|done|]. intros Hok'. destruct (Hc Hok') as [C1 C2]. split; [|split; [done|]].
  - split; [done|]. split; [cbn [bh_size]; lia|]. exists (contents (tb_file r)), payload, type, [].
    rewrite app_nil_r. split_and!; [done|done|done|done].
  - eexists. split; [exact C1|]. rewrite block_image_length. lia.
Qed.
End Write.

(** ** What the operations on the file keep *)
Section TableKept.
Context {F : Type} {WF : WritableFile F} {SN : Snappy} (kept : F -> F -> Prop).
Context (kept_refl : forall f, kept f f) (kept_trans : forall f g h, kept f g -> kept g h -> kept f h).
Context (kept_append : forall f data, kept f (Append f data).2) (kept_flush : forall f, kept f (Flush f).2).
#[local] Abbreviation keeps r r' := (kept (tb_file r) (tb_file r')).

Lemma WriteRawBlock_kept (r : TableBuilder F) payload type h r' : WriteRawBlock r payload type = (h, r') -> keeps r r'.
Proof.
  unfold WriteRawBlock. pose proof (kept_append (tb_file r) payload) as H1. destruct (Append (tb_file r) payload) as [s f].
  destruct (Status_ok s); [|by intros [= _ <-]]. pose proof (kept_append f (block_trailer payload type)) as H2.
  destruct (Append f _) as [s2 f2]. intros [= _ <-]. by apply (kept_trans _ f).
Qed.

Lemma WriteBlock_kept (r : TableBuilder F) block h r' : WriteBlock r block = Some (h, r') -> keeps r r'.
Proof.
  unfold WriteBlock. destruct (negb _); [done|]. destruct (if _ =? _ then _ else _) as [payload type].
  destruct (WriteRawBlock r payload type) as [h1 r1] eqn:E. intros [= _ <-]. by apply WriteRawBlock_kept in E.
Qed.

Lemma tb_StartBlock_kept (r : TableBuilder F) r' : tb_StartBlock r = Some r' -> tb_file r' = tb_file r.
Proof.
  unfold tb_StartBlock. destruct (filter_policy _); [|by intros [= <-]]. destruct (filter_block_ r); [|by intros [= <-]].
  by intros (fb & _ & [= <-])%bind_Some.
Qed.

Lemma TableBuilder_Flush_kept (r : TableBuilder F) r' : TableBuilder_Flush r = Some r' -> keeps r r'.
Proof.
  unfold TableBuilder_Flush. destruct (closed r); [done|]. destruct (negb (tb_ok r)); [by intros [= <-]|].
  destruct (BlockBuilder_empty (data_block r)); [by intros [= <-]|]. destruct (pending_index_entry r); [done|].
  intros ([h r1] & E%WriteBlock_kept & H)%bind_Some. apply tb_StartBlock_kept in H. rewrite H.
  apply (kept_trans _ _ _ E). destruct (tb_ok _); [|done]. cbn [tb_with_index tb_with_data tb_file].
  pose proof (kept_flush (tb_file r1)) as H1. destruct (Flush (tb_file r1)) as [s f]. exact H1.
Qed.

Lemma add_index_entry_kept (r : TableBuilder F) key r' : add_index_entry r key = Some r' -> tb_file r' = tb_file r.
Proof. unfold add_index_entry. intros (? & _ & (? & _ & [= <-])%bind_Some)%bind_Some. done. Qed.

Lemma TableBuilder_Add_kept (r : TableBuilder F) key value r' : TableBuilder_Add r key value = Some r' -> keeps r r'.
Proof.
  unfold TableBuilder_Add. destruct (closed r); [done|]. destruct (negb (tb_ok r)); [by intros [= <-]|].
  intros (larger & _ & H)%bind_Some. destruct (negb larger); [done|]. apply bind_Some in H as (r1 & E & H).
  assert (tb_file r1 = tb_file r) as E1.
  { destruct (pending_index_entry r); [|by injection E as <-]. destruct (negb _); [done|]. apply bind_Some in E as (sep & _ & E).
    by apply add_index_entry_kept in E. }
  apply bind_Some in H as (data & _ & H). cbv zeta in H. destruct (_ <=? _).
  - apply TableBuilder_Flush_kept in H. cbn [tb_with_data tb_with_filter tb_file] in H. by rewrite E1 in H.
  - injection H as <-. cbn [tb_with_data tb_with_filter tb_file]. by rewrite E1.
Qed.

Lemma write_footer_kept (r : TableBuilder F) mh ih r' : write_footer r mh ih = Some r' -> keeps r r'.
Proof.
  unfold write_footer. destruct (tb_ok r); [|by intros [= <-]]. intros (fb & _ & H)%bind_Some.
  pose proof (kept_append (tb_file r) fb) as H1. destruct (Append _ _) as [s f]. by injection H as <-.
Qed.

Lemma TableBuilder_Finish_kept (r : TableBuilder F) s r' : TableBuilder_Finish r = Some (s, r') -> keeps r r'.
Proof.
  unfold TableBuilder_Finish. intros (r1 & E1 & H)%bind_Some. apply TableBuilder_Flush_kept in E1. destruct (closed r1); [done|].
  apply bind_Some in H as ([fh r2] & E2 & H). apply bind_Some in H as ([mh r3] & E3 & H). apply bind_Some in H as ([ih r4] & E4 & H).
  apply bind_Some in H as (r5 & E5 & [= _ <-]). apply write_footer_kept in E5.
  assert (keeps r1 r2) as K2.
  { revert E2. unfold write_filter_block. cbn [tb_with_filter tb_options filter_block_]. destruct (filter_policy _); [|by intros [= _ <-]].
    destruct (filter_block_ r1); [|by intros [= _ <-]]. destruct (tb_ok _); [|by intros [= _ <-]].
    intros (c & _ & E)%bind_Some. injection E as E. by apply WriteRawBlock_kept in E. }
  assert (keeps r2 r3) as K3.
  { revert E3. unfold write_metaindex_block. destruct (tb_ok _); [|by intros [= _ <-]].
    intros (m & _ & (m' & _ & E)%bind_Some)%bind_Some. by apply WriteBlock_kept in E. }
  assert (keeps r3 r4) as K4.
  { revert E4. unfold write_index_block. destruct (tb_ok _); [|by intros [= _ <-]]. intros (r0 & E0 & E)%bind_Some.
    assert (tb_file r0 = tb_file r3) as E0'.
    { destruct (pending_index_entry r3); [|by injection E0 as <-]. apply bind_Some in E0 as (k & _ & E0). by apply add_index_entry_kept in E0. }
    apply bind_Some in E as ([h r0'] & E & [= _ <-]). apply WriteBlock_kept in E. by rewrite E0' in E. }
  apply (kept_trans _ _ _ E1), (kept_trans _ _ _ K2), (kept_trans _ _ _ K3), (kept_trans _ _ _ K4), E5.
Qed.
End TableKept.

(** * Filter blocks, call by call *)
Section FilterCalls.
Context {P : FilterPolicy}.

Lemma filter_calls_app b l1 l2 :
  filter_block_calls b (l1 ++ l2) = filter_block_calls b l1 ≫= (fun b => filter_block_calls b l2).
Proof.
  revert b. induction l1 as [|[off keys] l1 IH]; intros b; [done|]. cbn [app filter_block_calls].
  destruct (FilterBlockBuilder_StartBlock b off) as [b'|]; cbn [mbind option_bind]; [apply IH|done].
Qed.

Lemma filter_calls_key b l off keys key fb :
  filter_block_calls b (l ++ [(off, keys)]) = Some fb ->
  filter_block_calls b (l ++ [(off, keys ++ [key])]) = Some (FilterBlockBuilder_AddKey fb key).
Proof.
  rewrite !filter_calls_app. destruct (filter_block_calls b l) as [b'|]; [|done].
  cbn [mbind option_bind filter_block_calls].
  destruct (FilterBlockBuilder_StartBlock b' off) as [b2|]; [|done]. cbn [mbind option_bind].
  intros [= <-]. by rewrite fold_left_app.
Qed.

Lemma filter_calls_start b l off fb :
  filter_block_calls b l = Some fb ->
  filter_block_calls b (l ++ [(off, [])]) = FilterBlockBuilder_StartBlock fb off.
Proof.
  intros E. rewrite filter_calls_app, E. cbn [mbind option_bind filter_block_calls fold_left].
  by destruct (FilterBlockBuilder_StartBlock fb off).
Qed.

Lemma filter_calls_total {valid} {PL : FilterPolicyLaw P valid} l :
  offsets_ok 0 l -> Forall (fun block => Forall valid block.2) l -> key_count l < 2 ^ 31 ->
  exists fb, filter_block_calls FilterBlockBuilder_new l = Some fb.
Proof.
  intros Ho Hv Hc.
  destruct (rep_calls l 0 _ _ _ _ rep_new) as (fb & _ & _ & _ & E & _); [done..|by simpl|].
  by exists fb.
Qed.
End FilterCalls.

Lemma offsets_ok_snoc lo l off keys off' keys' :
  offsets_ok lo (l ++ [(off, keys)]) -> off <= off' ->
  offsets_ok lo (l ++ [(off, keys')] ++ [(off', [])]) /\ offsets_ok lo (l ++ [(off, keys')]).
Proof.
  revert lo. induction l as [|[o k] l IH]; intros lo; cbn [app offsets_ok].
  - intros [H _] H'. by split_and!.
  - intros [H Hs] H'. destruct (IH o Hs H') as [H1 H2]. by split_and!.
Qed.

(** * The invariant *)

(** A block that was written. *)
Record wblock : Type := { wb_items : list item; wb_restarts : list nat; wb_handle : BlockHandle }.
Definition wb_kvs (b : wblock) : list (bytes * bytes) := map item_kv (wb_items b).
Definition wb_contents (b : wblock) : bytes := block_contents (wb_items b) (wb_restarts b).
Definition wb_entries (done : list wblock) : list (bytes * bytes) := concat (map wb_kvs done).

Lemma entries_snoc done b : wb_entries (done ++ [b]) = wb_entries done ++ wb_kvs b.
Proof. unfold wb_entries. rewrite map_app, concat_app. cbn [map concat]. by rewrite app_nil_r. Qed.

Section Holds.
Context {F : Type} {WF : WritableFile F} {contents : F -> bytes}
  {FL : WritableFileLaw F contents} {SN : Snappy} {SL : SnappyLaw SN}.
Context (o : Options) {valid : bytes -> Prop} {order : bytes -> bytes -> Z}
  {CL : ComparatorLaw (comparator o) valid order}.
Context (Hbytes : forall k, valid k -> Forall is_byte k) (Hinterval : 1 <= block_restart_interval o)
  (Hpolicy : forall P, filter_policy o = Some P -> FilterPolicyLaw P valid).

#[local] Notation TB := (TableBuilder F).

(** The entries behind block [c], [cur] in the data block. *)
Definition later (done : list wblock) (cur : list (bytes * bytes)) (c : nat) : list (bytes * bytes) :=
  wb_entries (drop (S c) done) ++ cur.

(** The index has an entry for each block, or for all but the last. *)
Record index_ok (done : list wblock) (cur ixs : list (bytes * bytes)) : Prop := {
  ix_valid : Forall (fun ix => valid ix.1) ixs;
  ix_handle c ix : ixs !! c = Some ix -> exists b, done !! c = Some b /\ ix.2 = handle_bytes (wb_handle b);
  ix_length c ix b : ixs !! c = Some ix -> done !! c = Some b ->
    exists kv, kv ∈ wb_kvs b /\ (length ix.1 <= length kv.1)%nat;
  ix_after c ix b kv : ixs !! c = Some ix -> done !! c = Some b -> kv ∈ wb_kvs b -> order kv.1 ix.1 <= 0;
  ix_before c ix kv : ixs !! c = Some ix -> kv ∈ later done cur c -> order ix.1 kv.1 < 0;
  ix_sep c ix x : ixs !! c = Some ix -> head (later done cur c) = Some x ->
    exists b kv, done !! c = Some b /\ last (wb_kvs b) = Some kv
      /\ FindShortestSeparator (Comparator := comparator o) kv.1 x.1 = Some ix.1
}.

Definition filter_calls (done : list wblock) (offset : Z) (cur : list (bytes * bytes)) : list (Z * list bytes) :=
  map (fun b => (bh_offset (wb_handle b), (wb_kvs b).*1)) done ++ [(offset, cur.*1)].

(** What the builder was given is in the blocks [done] and the data block. *)
Record tb_holds (r : TB) (done : list wblock) (xs : list item) (ms : list nat) (ixs : list (bytes * bytes))
    : Prop := {
  th_options : tb_options r = o;
  th_interval : tb_interval r = 1;
  th_closed : closed r = false;
  th_entries : num_entries r = zlen (wb_entries done ++ map item_kv xs);
  th_last kv : last (wb_entries done ++ map item_kv xs) = Some kv -> tb_last_key r = kv.1;
  th_data : builder_holds (block_restart_interval o) (data_block r) xs ms;
  th_index : exists ys ns, builder_holds 1 (index_block r) ys ns /\ map item_kv ys = ixs;
  th_blocks : Forall (fun b => wb_items b <> [] /\ items_wf (wb_items b) (wb_restarts b)) done;
  th_pending : if pending_index_entry r
               then xs = [] /\ S (length ixs) = length done
                    /\ exists b, last done = Some b /\ pending_handle r = wb_handle b
               else length ixs = length done /\ (done = [] \/ xs <> []);
  th_ixs : index_ok done (map item_kv xs) ixs;
  th_filter : match filter_policy o with
              | None => filter_block_ r = None
              | Some P => exists fb, filter_block_ r = Some fb
                  /\ filter_block_calls FilterBlockBuilder_new (filter_calls done (tb_offset r) (map item_kv xs)) = Some fb
              end;
  th_offsets : offsets_ok 0 (filter_calls done (tb_offset r) (map item_kv xs));
  th_valid : Forall (fun kv => valid kv.1 /\ Forall is_byte kv.2) (wb_entries done ++ map item_kv xs);
  th_ascending : ascending order (wb_entries done ++ map item_kv xs);
  th_weight : weight (wb_entries done ++ map item_kv xs) < 2 ^ 31;
  th_offset : offset_ok (contents := contents) r;
  th_size : zlen (contents (tb_file r)) <= weight (wb_entries done);
  th_stores : Forall (fun b => stores (contents (tb_file r)) (wb_handle b) (wb_contents b)) done;
  th_handles : NoDup (map (fun b => bh_offset (wb_handle b)) done);
  th_before : Forall (fun b => bh_offset (wb_handle b) < zlen (contents (tb_file r))) done;
  th_ok : tb_ok r = true
}.

(** After an error nothing more is written. *)
Definition tb_failed (r : TB) : Prop := tb_ok r = false /\ closed r = false.

Lemma index_ok_nil : index_ok [] [] [].
Proof. split; [constructor|by intros []..]. Qed.

Lemma TableBuilder_new_ok f :
  contents f = [] ->
  exists r, TableBuilder_new o f = Some r /\ tb_file r = f /\ tb_holds r [] [] [0%nat] [].
Proof.
  intros Hf. unfold TableBuilder_new, BlockBuilder_new. rewrite (proj2 (Z.leb_le _ _) Hinterval).
  cbn [mbind option_bind Z.leb Z.compare].
  assert (exists fo, match filter_policy o with
            | None => Some None
            | Some P => Some <$> FilterBlockBuilder_StartBlock FilterBlockBuilder_new 0
            end = Some fo
          /\ match filter_policy o with
            | None => fo = None
            | Some P => exists fb, fo = Some fb /\ filter_block_calls FilterBlockBuilder_new [(0, [])] = Some fb
            end) as (fo & Efo & Hfo).
  { destruct (filter_policy o); [|by eexists]. eexists. split; [done|]. by eexists. }
  rewrite Efo. cbn [mbind option_bind]. eexists. split; [done|]. split; [done|].
  split; cbn [tb_options tb_interval closed num_entries tb_last_key data_block index_block pending_index_entry
              filter_block_ tb_offset tb_file map]; try done.
  - by apply builder_holds_new.
  - exists [], [0%nat]. split; [by apply builder_holds_new|done].
  - split; [done|by left].
  - unfold offset_ok. cbn [tb_offset tb_file]. by rewrite Hf.
  - by rewrite Hf.
  - constructor.
Qed.

(** ** Flush *)
Lemma holds_fits r done xs ms ixs :
  tb_holds r done xs ms ixs ->
  block_rep xs ms /\ zlen (block_contents xs ms) + 5 <= weight (map item_kv xs) + 13 - 30 * zlen xs
  /\ zlen (contents (tb_file r)) + weight (map item_kv xs) < 2 ^ 31.
Proof.
  intros H. pose proof (bh_wf _ _ _ _ (th_data _ _ _ _ _ H)) as W. pose proof (block_contents_bound xs ms W).
  pose proof (th_weight _ _ _ _ _ H) as Hw. rewrite weight_app in Hw. pose proof (th_size _ _ _ _ _ H).
  pose proof (weight_nonneg (map item_kv xs)). pose proof (weight_nonneg (wb_entries done)).
  split; [split; [lia|done]|]. split; lia.
Qed.

Lemma key_count_calls done off cur :
  key_count (filter_calls done off cur) = zlen (wb_entries done ++ cur).
Proof.
  unfold key_count, filter_calls, wb_entries. rewrite map_app, concat_app, !length_app. cbn [map concat snd].
  rewrite app_nil_r, length_fmap. f_equal. f_equal. induction done as [|b done IH]; [done|].
  cbn [map concat snd]. rewrite !length_app, length_fmap. lia.
Qed.

Lemma filter_calls_valid done off cur :
  Forall (fun kv => valid kv.1 /\ Forall is_byte kv.2) (wb_entries done ++ cur) ->
  Forall (fun block => Forall valid block.2) (filter_calls done off cur).
Proof.
  intros [Hd Hc]%Forall_app. assert (forall l : list (bytes * bytes),
    Forall (fun kv => valid kv.1 /\ Forall is_byte kv.2) l -> Forall valid l.*1) as Hv.
  { intros l Hl. apply Forall_fmap. by eapply Forall_impl; [exact Hl|]; intros kv [? _]. }
  apply Forall_app. split; [|constructor; [by apply Hv|constructor]].
  apply Forall_map. unfold wb_entries in Hd. induction done as [|b done IH]; [constructor|].
  cbn [map concat] in Hd. apply Forall_app in Hd as [Hb Hd]. constructor; [by apply Hv|by apply IH].
Qed.

(** The call of [StartBlock] after a block. *)
Lemma tb_StartBlock_ok r (r' : TB) done xs ms ixs b :
  tb_holds r done xs ms ixs -> tb_options r' = o -> filter_block_ r' = filter_block_ r ->
  bh_offset (wb_handle b) = tb_offset r -> wb_items b = xs -> tb_offset r <= tb_offset r' ->
  offsets_ok 0 (filter_calls (done ++ [b]) (tb_offset r') [])
  /\ exists fo, tb_StartBlock r' = Some (tb_with_filter r' fo (closed r'))
    /\ match filter_policy o with
       | None => fo = None
       | Some P => exists fb, fo = Some fb
           /\ filter_block_calls FilterBlockBuilder_new (filter_calls (done ++ [b]) (tb_offset r') []) = Some fb
       end.
Proof.
  intros H Ho Hf Hb Hx Hle.
  assert (filter_calls (done ++ [b]) (tb_offset r') []
          = filter_calls done (tb_offset r) (map item_kv xs) ++ [(tb_offset r', [])]) as E.
  { unfold filter_calls. rewrite map_app. cbn [map]. unfold wb_kvs. by rewrite Hb, Hx. }
  assert (offsets_ok 0 (filter_calls (done ++ [b]) (tb_offset r') [])) as Hoff.
  { rewrite E. unfold filter_calls. rewrite <- app_assoc.
    eapply offsets_ok_snoc; [exact (th_offsets _ _ _ _ _ H)|done]. }
  split; [done|]. unfold tb_StartBlock. rewrite Ho, Hf. pose proof (th_filter _ _ _ _ _ H) as Hfil.
  destruct (filter_policy o) as [P|] eqn:Ep.
  - destruct Hfil as (fb & -> & Ec). pose proof (Hpolicy P eq_refl) as PL.
    destruct (filter_calls_total (P := P) (filter_calls (done ++ [b]) (tb_offset r') []) Hoff) as (fb' & Efb).
    + apply filter_calls_valid. rewrite entries_snoc, app_nil_r. unfold wb_kvs. rewrite Hx.
      exact (th_valid _ _ _ _ _ H).
    + rewrite key_count_calls, entries_snoc, app_nil_r. unfold wb_kvs. rewrite Hx.
      pose proof (th_weight _ _ _ _ _ H). pose proof (weight_length (wb_entries done ++ map item_kv xs)). lia.
    + exists (Some fb'). pose proof Efb as Efb2. rewrite E, (filter_calls_start _ _ _ _ Ec) in Efb2.
      rewrite Efb2. split; [done|]. by exists fb'.
  - exists None. split; [|done]. assert (filter_block_ r' = None) as Hn by congruence. unfold tb_with_filter. destruct r'. cbn in *. by rewrite Hn.
Qed.

Lemma ascending_nonempty_last (l : list (bytes * bytes)) : l <> [] -> exists kv, last l = Some kv.
Proof. intros Hl. destruct (last l) eqn:E; [by eexists|]. by apply last_None in E. Qed.

Lemma TableBuilder_Flush_empty r done ms ixs :
  tb_holds r done [] ms ixs -> TableBuilder_Flush r = Some r.
Proof.
  intros H. unfold TableBuilder_Flush. rewrite (th_closed _ _ _ _ _ H), (th_ok _ _ _ _ _ H). cbn [negb].
  unfold BlockBuilder_empty. by rewrite (bh_buffer _ _ _ _ (th_data _ _ _ _ _ H)).
Qed.

Lemma index_ok_flush done xs ixs b :
  index_ok done (map item_kv xs) ixs -> wb_items b = xs -> length ixs = length done ->
  index_ok (done ++ [b]) [] ixs.
Proof.
  intros [I1 I2 I3 I4 I5 I6] Hb Hl.
  assert (forall c ix b', ixs !! c = Some ix -> (done ++ [b]) !! c = Some b' -> done !! c = Some b') as Hin.
  { intros c ix b' Hc Hb'. apply lookup_lt_Some in Hc. by rewrite lookup_app_l in Hb' by lia. }
  assert (forall c ix, ixs !! c = Some ix -> later (done ++ [b]) [] c = later done (map item_kv xs) c) as Hlater.
  { intros c ix Hc%lookup_lt_Some. unfold later. rewrite drop_app_le, entries_snoc by lia. unfold wb_kvs.
    by rewrite Hb, app_nil_r. }
  split; [done|..].
  - intros c ix Hc. destruct (I2 c ix Hc) as (b' & Hb' & E). exists b'. split; [by apply lookup_app_l_Some|done].
  - intros c ix b' Hc Hb'. exact (I3 c ix b' Hc (Hin c ix b' Hc Hb')).
  - intros c ix b' kv Hc Hb'. exact (I4 c ix b' kv Hc (Hin c ix b' Hc Hb')).
  - intros c ix kv Hc. rewrite (Hlater c ix Hc). exact (I5 c ix kv Hc).
  - intros c ix x Hc Hx. rewrite (Hlater c ix Hc) in Hx. destruct (I6 c ix x Hc Hx) as (b' & kv & Hb' & H).
    exists b', kv. split; [by apply lookup_app_l_Some|done].
Qed.

(** What a written data block does to the file part. *)
Lemma file_after_block r done xs ms ixs (f' : F) h img :
  tb_holds r done xs ms ixs -> xs <> [] ->
  contents f' = contents (tb_file r) ++ img -> 5 <= zlen img <= zlen (block_contents xs ms) + 5 ->
  stores (contents f') h (block_contents xs ms) -> bh_offset h = tb_offset r ->
  let b := {| wb_items := xs; wb_restarts := ms; wb_handle := h |} in
  zlen (contents f') <= weight (wb_entries (done ++ [b]))
  /\ Forall (fun b => stores (contents f') (wb_handle b) (wb_contents b)) (done ++ [b])
  /\ NoDup (map (fun b => bh_offset (wb_handle b)) (done ++ [b]))
  /\ Forall (fun b => bh_offset (wb_handle b) < zlen (contents f')) (done ++ [b]).
Proof.
  intros H Hx Ec Hi Hs Hh b. destruct (holds_fits _ _ _ _ _ H) as (_ & Hsz & _).
  pose proof (th_offset _ _ _ _ _ H) as Ho. unfold offset_ok in Ho. rewrite Ec, zlen_app. split_and!.
  - rewrite entries_snoc, weight_app. unfold wb_kvs. cbn [wb_items b].
    pose proof (th_size _ _ _ _ _ H). assert (0 < zlen xs) by (destruct xs; [done|simpl; lia]). lia.
  - apply Forall_app. split; [|by constructor; [rewrite <- Ec|constructor]].
    eapply Forall_impl; [exact (th_stores _ _ _ _ _ H)|]. intros b' Hb'. by apply stores_app.
  - rewrite map_app. apply NoDup_app. split; [exact (th_handles _ _ _ _ _ H)|]. split; [|apply NoDup_singleton].
    intros off Hin Heq. apply list_elem_of_singleton in Heq. cbn [b wb_handle] in Heq. subst off.
    apply list_elem_of_fmap in Hin as (b' & E' & Hb').
    pose proof (proj1 (Forall_forall _ _) (th_before _ _ _ _ _ H) b' Hb') as Hlt. cbv beta in Hlt. lia.
  - apply Forall_app. split; [|constructor; [cbn [b wb_handle]; lia|constructor]].
    eapply Forall_impl; [exact (th_before _ _ _ _ _ H)|]. cbv beta. intros b' Hb'. lia.
Qed.

Lemma TableBuilder_Flush_ok r done xs ms ixs :
  tb_holds r done xs ms ixs -> xs <> [] ->
  exists r', TableBuilder_Flush r = Some r'
    /\ (tb_failed r' \/ exists b, wb_items b = xs /\ tb_holds r' (done ++ [b]) [] [0%nat] ixs).
Proof.
  intros H Hx. destruct (holds_fits _ _ _ _ _ H) as (Hrep & Hsz & Hfit).
  pose proof (th_data _ _ _ _ _ H) as HD. pose proof (th_ok _ _ _ _ _ H) as Hok.
  pose proof (th_pending _ _ _ _ _ H) as Hp. pose proof (th_closed _ _ _ _ _ H) as Hcl.
  destruct (pending_index_entry r) eqn:Epend; [by destruct Hp|]. destruct Hp as [Hlen Hne].
  unfold TableBuilder_Flush. rewrite Hcl, Hok, Epend. cbn [negb].
  unfold BlockBuilder_empty. rewrite (bh_buffer _ _ _ _ HD), items_empty, bool_decide_eq_false_2 by done.
  pose proof (Finish_contents _ _ _ _ HD) as Hraw.
  destruct (WriteBlock_ok r (data_block r) Hok) as (h & r1' & -> & (f1 & off1 & s1 & ->) & Hh & Hoff & Hmono & Hc);
    rewrite ?Hraw; [by apply rep_data_bytes|exact (th_offset _ _ _ _ _ H)|assert (0 < zlen xs) by (destruct xs; [done|simpl; lia]); lia|].
  rewrite Hraw in Hc. cbn [mbind option_bind]. set (b := {| wb_items := xs; wb_restarts := ms; wb_handle := h |}).
  cbv zeta. set (r1 := tb_with_file r f1 off1 s1) in *.
  set (r2 := tb_with_index (tb_with_data r1 BlockBuilder_Reset (tb_last_key r1) (num_entries r1)) _ _ h).
  assert (tb_options r1 = o /\ filter_block_ r1 = filter_block_ r /\ closed r1 = false) as (Eo & Ef & Ecl).
  { split_and!; [exact (th_options _ _ _ _ _ H)|done|exact Hcl]. }
  destruct (tb_ok r1) eqn:Eok1.
  - assert (tb_ok r2 = true) as -> by done. destruct (Hc eq_refl) as (Hst & Hoff' & img & Ec & Himg).
    cbn [tb_with_index tb_file r2 tb_with_data]. destruct (Flush (tb_file r1)) as [s f'] eqn:EF.
    set (r3 := tb_with_file _ f' _ s).
    destruct (tb_StartBlock_ok r r3 done xs ms ixs b H) as (Ho' & fo & Es & Hfo); [exact Eo|exact Ef|done|done|exact Hmono|].
    rewrite Es. eexists. split; [done|]. destruct (Status_ok s) eqn:Eok.
    + right. exists b. split; [done|]. unfold offset_ok in Hoff'. pose proof (Flush_ok _ _ _ EF Eok) as EC.
      assert (contents f' = contents (tb_file r) ++ img) as Ec' by congruence.
      destruct (file_after_block r done xs ms ixs f' h img H Hx Ec' Himg) as (F1 & F2 & F3 & F4); [by rewrite EC|done|].
      assert (wb_entries (done ++ [b]) ++ map item_kv [] = wb_entries done ++ map item_kv xs) as Ee.
      { rewrite entries_snoc. unfold wb_kvs. cbn [map b wb_items]. by rewrite app_nil_r. }
      split; rewrite ?Ee;
        cbn [r3 r2 r1 tb_with_filter tb_with_file tb_with_index tb_with_data tb_options tb_interval closed num_entries
             tb_last_key data_block index_block pending_index_entry pending_handle filter_block_ tb_offset tb_file].
      * exact (th_options _ _ _ _ _ H).
      * exact (th_interval _ _ _ _ _ H).
      * done.
      * exact (th_entries _ _ _ _ _ H).
      * exact (th_last _ _ _ _ _ H).
      * by apply builder_holds_new.
      * exact (th_index _ _ _ _ _ H).
      * apply Forall_app. split; [exact (th_blocks _ _ _ _ _ H)|]. constructor; [|constructor].
        split; [done|]. exact (bh_wf _ _ _ _ HD).
      * split; [done|]. split; [rewrite length_app; simpl; lia|]. exists b. by rewrite last_snoc.
      * by apply (index_ok_flush done xs); [exact (th_ixs _ _ _ _ _ H)|..].
      * exact Hfo.
      * exact Ho'.
      * exact (th_valid _ _ _ _ _ H).
      * exact (th_ascending _ _ _ _ _ H).
      * exact (th_weight _ _ _ _ _ H).
      * unfold offset_ok. cbn [tb_offset tb_file tb_with_filter r3 tb_with_file]. by rewrite EC.
      * exact F1.
      * exact F2.
      * exact F3.
      * exact F4.
      * exact Eok.
    + left. split; [exact Eok|exact Ecl].
  - assert (tb_ok r2 = false) as -> by done.
    destruct (tb_StartBlock_ok r r2 done xs ms ixs b H) as (_ & fo & Es & _); [exact Eo|exact Ef|done|done|exact Hmono|].
    rewrite Es. eexists. split; [done|]. left. split; [exact Eok1|exact Ecl].
Qed.

(** ** The index entry of the block before *)
Lemma last_done_entry done b :
  last done = Some b -> wb_items b <> [] -> exists kv, last (wb_entries done) = Some kv /\ last (wb_kvs b) = Some kv.
Proof.
  intros Hl Hb. apply last_Some in Hl as [done' ->]. rewrite entries_snoc.
  destruct (ascending_nonempty_last (wb_kvs b)) as [kv Hkv].
  { unfold wb_kvs. by destruct (wb_items b). }
  exists kv. split; [|done]. by rewrite last_app, Hkv.
Qed.

Lemma later_last done b c :
  last done = Some b -> (S c < length done)%nat -> wb_kvs b ⊆ later done [] c.
Proof.
  intros Hl Hc. apply last_Some in Hl as [done' ->]. rewrite length_app in Hc. simpl in Hc.
  unfold later. rewrite drop_app_le by lia. rewrite entries_snoc. set_solver.
Qed.

(** The last entry of a block at the end is not before the others. *)
Lemma last_entry_le all kvl l kv :
  Forall (fun kv => valid kv.1 /\ Forall is_byte kv.2) all -> ascending order all ->
  last all = Some kvl -> kv ∈ l -> (exists pre, all = pre ++ l) -> order kv.1 kvl.1 <= 0.
Proof.
  intros Hv Ha Hl Hkv (pre & ->). assert (Forall (fun kv => valid kv.1) (pre ++ l)) as Hv'
    by (eapply Forall_impl; [exact Hv|]; by intros ? [? _]).
  assert (kv ∈ pre ++ l) as Hin by set_solver. apply list_elem_of_lookup in Hin as [i Hi].
  rewrite last_lookup in Hl. pose proof (lookup_lt_Some _ _ _ Hi).
  destruct (decide (i = pred (length (pre ++ l)))) as [->|Hne].
  - assert (kv = kvl) as -> by congruence. rewrite (order_refl (compare := Compare (Comparator := comparator o))); [done|].
    exact (proj1 (Forall_lookup _ _) Hv' _ _ Hi).
  - assert (order kv.1 kvl.1 < 0); [|lia].
    apply (ascending_lt (compare := Compare (Comparator := comparator o)) (pre ++ l) i _ kv kvl Ha Hv' Hi Hl). lia.
Qed.

Lemma add_index_entry_ok r (r0 : TB) done ms ixs sep :
  tb_holds r done [] ms ixs -> pending_index_entry r = true -> valid sep ->
  tb_options r0 = o -> tb_interval r0 = 1 -> index_block r0 = index_block r -> pending_handle r0 = pending_handle r ->
  (forall b kv, last done = Some b -> kv ∈ wb_kvs b -> order kv.1 sep <= 0) ->
  (exists b kv, last done = Some b /\ kv ∈ wb_kvs b /\ (length sep <= length kv.1)%nat) ->
  let ixs' := ixs ++ [(sep, handle_bytes (pending_handle r))] in
  exists index ys ns,
    add_index_entry r0 sep
    = Some (tb_with_data (tb_with_index r0 index false (pending_handle r0)) (data_block r0) sep (num_entries r0))
    /\ builder_holds 1 index ys ns /\ map item_kv ys = ixs' /\ index_ok done [] ixs' /\ length ixs' = length done.
Proof.
  intros H Hp Hv Ro Ri Rx Rh Hle (b & kv0 & Hb & Hkv0 & Hlen) ixs'. pose proof (th_pending _ _ _ _ _ H) as Hpend.
  rewrite Hp in Hpend. destruct Hpend as (_ & Hl & b' & Hb' & Hh). assert (b' = b) as -> by congruence.
  pose proof (th_index _ _ _ _ _ H) as (ys & ns & HI & Ey). pose proof (th_ixs _ _ _ _ _ H) as IX.
  pose proof (th_valid _ _ _ _ _ H) as HV. cbn [map] in HV, IX. rewrite app_nil_r in HV.
  pose proof Hb as Hbl. apply last_Some in Hbl as [done' Ed].
  assert (forall kv, kv ∈ wb_kvs b -> valid kv.1) as Hbv.
  { intros kv Hkv. rewrite Ed, entries_snoc in HV. apply Forall_app in HV as [_ HV].
    exact (proj1 (proj1 (Forall_forall _ _) HV kv Hkv)). }
  assert (handle_ok (pending_handle r)) as Hok.
  { rewrite Hh. pose proof (th_stores _ _ _ _ _ H) as HS. rewrite Ed in HS. apply Forall_app in HS as [_ HS].
    apply Forall_cons in HS as [[? _] _]. done. }
  assert (forall c ix, ixs !! c = Some ix -> order ix.1 sep < 0) as Hold.
  { intros c ix Hc. pose proof (lookup_lt_Some _ _ _ Hc).
    assert (order ix.1 kv0.1 < 0) as H1.
    { apply (ix_before _ _ _ IX c ix kv0 Hc). apply (later_last done b c Hb); [lia|done]. }
    apply (order_lt_le_trans (compare := Compare (Comparator := comparator o)) _ kv0.1); [|by apply Hbv|done|done|by apply (Hle b)].
    exact (proj1 (Forall_lookup _ _) (ix_valid _ _ _ IX) c ix Hc). }
  unfold add_index_entry. rewrite Ro, Ri, Rx, Rh, (BlockHandle_EncodeTo_ok (pending_handle r) [] Hok).
  cbn [mbind option_bind app].
  destruct (BlockBuilder_Add_ok (C := comparator o) (valid := valid) (order := order) 1 (Z.le_refl 1) (index_block r) ys ns sep (handle_bytes (pending_handle r)) HI) as (index & x & ns' & E & Ex & HI').
  - split_and!; cbn [fst snd]; [by apply Hbytes|by apply handle_bytes_bytes| |pose proof (handle_bytes_length (pending_handle r)); lia].
    pose proof (th_weight _ _ _ _ _ H) as Hw. cbn [map] in Hw. rewrite app_nil_r, Ed, entries_snoc, weight_app in Hw.
    pose proof (weight_elem kv0 (wb_kvs b) Hkv0). pose proof (weight_nonneg (wb_entries done')). lia.
  - intros y Hy. rewrite last_lookup in Hy. assert (ixs !! pred (length ys) = Some (item_kv y)) as Hc.
    { rewrite <- Ey. change (map item_kv ys) with (item_kv <$> ys). by rewrite list_lookup_fmap, Hy. }
    split; [done|]. split; [|exact (Hold _ _ Hc)]. exact (proj1 (Forall_lookup _ _) (ix_valid _ _ _ IX) _ _ Hc).
  - rewrite E. cbn [mbind option_bind]. exists index, (ys ++ [x]), ns'. split; [done|]. split; [done|].
    split; [rewrite map_app; cbn [map]; by rewrite Ex, Ey|].
    assert (forall c ix, ixs' !! c = Some ix -> ixs !! c = Some ix \/ S c = length done /\ ix = (sep, handle_bytes (pending_handle r))) as Hcase.
    { intros c ix Hc. apply lookup_app_Some in Hc as [Hc|[Hge Hc]]; [by left|].
      apply list_lookup_singleton_Some in Hc as [Hc <-]. right. split; [lia|done]. }
    assert (forall c, S c = length done -> done !! c = Some b) as Hlast.
    { intros c Hc. rewrite Ed in *. rewrite length_app in Hc. simpl in Hc.
      rewrite lookup_app_r by lia. by replace (c - _)%nat with 0%nat by lia. }
    split; [|unfold ixs'; rewrite length_app; simpl; lia]. split.
    + apply Forall_app. split; [exact (ix_valid _ _ _ IX)|]. by constructor.
    + intros c ix Hc. destruct (Hcase c ix Hc) as [Hc'|[Hc' ->]]; [by apply (ix_handle _ _ _ IX)|].
      exists b. split; [by apply Hlast|]. cbn [snd]. by rewrite Hh.
    + intros c ix b2 Hc Hb2. destruct (Hcase c ix Hc) as [Hc'|[Hc' ->]]; [by apply (ix_length _ _ _ IX c)|].
      assert (b2 = b) as -> by (rewrite (Hlast c Hc') in Hb2; congruence). by exists kv0.
    + intros c ix b2 kv Hc Hb2 Hkv. destruct (Hcase c ix Hc) as [Hc'|[Hc' ->]]; [by apply (ix_after _ _ _ IX c ix b2)|].
      assert (b2 = b) as -> by (rewrite (Hlast c Hc') in Hb2; congruence). by apply (Hle b).
    + intros c ix kv Hc Hkv. destruct (Hcase c ix Hc) as [Hc'|[Hc' ->]]; [by apply (ix_before _ _ _ IX c)|].
      unfold later in Hkv. rewrite drop_ge, app_nil_r in Hkv by lia. by apply not_elem_of_nil in Hkv.
    + intros c ix y Hc Hy. destruct (Hcase c ix Hc) as [Hc'|[Hc' ->]]; [by apply (ix_sep _ _ _ IX c)|].
      unfold later in Hy. by rewrite drop_ge, app_nil_r in Hy by lia.
Qed.

(** ** Add *)

(** What the entry behind all others needs. *)
Definition entry_fits (all : list (bytes * bytes)) : Prop :=
  Forall (fun kv => valid kv.1 /\ Forall is_byte kv.2) all /\ ascending order all /\ weight all < 2 ^ 31.

Lemma entry_fits_last all kv :
  entry_fits (all ++ [kv]) ->
  (forall x, x ∈ all -> order x.1 kv.1 < 0) /\ valid kv.1 /\ kv_fits kv.
Proof.
  intros (Hv & Ha & Hw). assert (Forall (fun kv => valid kv.1) (all ++ [kv])) as Hv' by (by eapply Forall_impl; [exact Hv|]; intros ? [? _]).
  split.
  - intros x Hx. apply list_elem_of_lookup in Hx as [i Hi].
    apply (ascending_lt (compare := Compare (Comparator := comparator o)) (all ++ [kv]) i (length all)); [done|done|by apply lookup_app_l_Some| |by apply lookup_lt_Some in Hi].
    by apply list_lookup_middle.
  - apply Forall_app in Hv as [_ Hv]. apply Forall_cons in Hv as [[Hk Hb] _]. split; [done|].
    pose proof (weight_elem kv (all ++ [kv]) ltac:(set_solver)). split_and!; [by apply Hbytes|done|lia|lia].
Qed.

Lemma index_ok_add done cur ixs kv :
  index_ok done cur ixs -> (forall ix, ix ∈ ixs -> order ix.1 kv.1 < 0) ->
  (forall c ix, ixs !! c = Some ix -> later done cur c = [] -> exists b l, done !! c = Some b
     /\ last (wb_kvs b) = Some l /\ FindShortestSeparator (Comparator := comparator o) l.1 kv.1 = Some ix.1) ->
  index_ok done (cur ++ [kv]) ixs.
Proof.
  intros [I1 I2 I3 I4 I5 I6] Hlt Hsep.
  assert (forall c, later done (cur ++ [kv]) c = later done cur c ++ [kv]) as Hlater
    by (intros c; unfold later; by rewrite app_assoc).
  split; [done..| |].
  - intros c ix x Hc Hx. rewrite Hlater in Hx. apply elem_of_app in Hx as [Hx|Hx]; [by apply (I5 c)|].
    apply list_elem_of_singleton in Hx as ->. apply Hlt. apply list_elem_of_lookup. by exists c.
  - intros c ix x Hc Hx. rewrite Hlater in Hx. destruct (later done cur c) as [|y l] eqn:E.
    + injection Hx as <-. by apply (Hsep c).
    + apply (I6 c ix x Hc). by rewrite E.
Qed.

(** The filter builder gets the key. *)
Lemma filter_calls_add done offset cur fb kv {P : FilterPolicy} :
  filter_block_calls FilterBlockBuilder_new (filter_calls done offset cur) = Some fb ->
  filter_block_calls FilterBlockBuilder_new (filter_calls done offset (cur ++ [kv]))
  = Some (FilterBlockBuilder_AddKey fb kv.1).
Proof. intros E. unfold filter_calls in *. rewrite fmap_app. by apply filter_calls_key. Qed.

Lemma tb_same_index (r : TB) :
  pending_index_entry r = false ->
  r = tb_with_data (tb_with_index r (index_block r) false (pending_handle r)) (data_block r) (tb_last_key r) (num_entries r).
Proof. intros Hp. destruct r. cbn in *. by subst. Qed.

(** The index entries once the key is known. *)
Lemma index_before_add r done xs ms ixs key value :
  tb_holds r done xs ms ixs -> entry_fits (wb_entries done ++ map item_kv xs ++ [(key, value)]) ->
  exists index last_key ys ns ixs',
    (if pending_index_entry r then
       if negb (BlockBuilder_empty (data_block r)) then None
       else sep ← FindShortestSeparator (Comparator := comparator o) (tb_last_key r) key; add_index_entry r sep
     else Some r)
    = Some (tb_with_data (tb_with_index r index false (pending_handle r)) (data_block r) last_key (num_entries r))
    /\ builder_holds 1 index ys ns /\ map item_kv ys = ixs'
    /\ index_ok done (map item_kv xs ++ [(key, value)]) ixs' /\ length ixs' = length done.
Proof.
  intros H Hfit. rewrite app_assoc in Hfit. destruct (entry_fits_last _ _ Hfit) as (Hlt & Hvk & _). cbn [fst] in *.
  pose proof (th_pending _ _ _ _ _ H) as Hp. pose proof (th_ixs _ _ _ _ _ H) as IX.
  pose proof (th_valid _ _ _ _ _ H) as HV. pose proof (th_index _ _ _ _ _ H) as (ys & ns & HI & Ey).
  destruct (pending_index_entry r) eqn:Ep.
  - destruct Hp as (-> & Hl & b & Hb & Hh). unfold BlockBuilder_empty.
    rewrite (bh_buffer _ _ _ _ (th_data _ _ _ _ _ H)). cbn [items_bytes map concat length Z.eqb negb Z.of_nat].
    cbn [map] in Hlt, HV. rewrite app_nil_r in Hlt, HV.
    pose proof (th_blocks _ _ _ _ _ H) as HB. pose proof Hb as Hbl. apply last_Some in Hbl as [done' Ed].
    assert (wb_items b <> []) as Hne by (rewrite Ed in HB; apply Forall_app in HB as [_ HB]; by apply Forall_cons in HB as [[? _] _]).
    destruct (last_done_entry done b Hb Hne) as (kvl & Hlast & Hlb).
    assert (kvl ∈ wb_kvs b) as Hkvl by (apply last_Some in Hlb as [l' ->]; set_solver).
    assert (kvl ∈ wb_entries done) as Hkvl' by (apply last_Some in Hlast as [l' ->]; set_solver).
    rewrite (th_last _ _ _ _ _ H kvl) by (cbn [map]; by rewrite app_nil_r).
    assert (valid kvl.1) as Hvl by exact (proj1 (proj1 (Forall_forall _ _) HV kvl Hkvl')).
    destruct (Separator_law (C := comparator o) kvl.1 key Hvl Hvk) as (sep & Esep & Hvs & Hlen & Hsep & _).
    rewrite Esep. cbn [mbind option_bind].
    destruct (Hsep (Hlt kvl Hkvl')) as [Hs1 Hs2].
    destruct (add_index_entry_ok r r done ms ixs sep H Ep Hvs) as (index & ys' & ns' & E & HI' & Ey' & IX' & Hl');
      [exact (th_options _ _ _ _ _ H)|exact (th_interval _ _ _ _ _ H)|done|done| | |].
    + intros b' kv Hb' Hkv. assert (b' = b) as -> by congruence.
      apply (order_trans (compare := Compare (Comparator := comparator o)) _ kvl.1); [|done|done| |done].
      * assert (kv ∈ wb_entries done) as Hin by (rewrite Ed, entries_snoc; set_solver).
        exact (proj1 (proj1 (Forall_forall _ _) HV kv Hin)).
      * pose proof (th_ascending _ _ _ _ _ H) as Ha. cbn [map] in Ha. rewrite app_nil_r in Ha.
        apply (last_entry_le (wb_entries done) kvl (wb_kvs b) kv); [done..|]. exists (wb_entries done'). by rewrite Ed, entries_snoc.
    + exists b, kvl. by split_and!.
    + exists index, sep, ys', ns', (ixs ++ [(sep, handle_bytes (pending_handle r))]).
      split_and!; [exact E|done|done| |done]. apply (index_ok_add done []); [done| |].
      * intros ix Hix. apply elem_of_app in Hix as [Hix|Hix]; [|by apply list_elem_of_singleton in Hix as ->].
        apply list_elem_of_lookup in Hix as [c Hc]. pose proof (lookup_lt_Some _ _ _ Hc).
        apply (order_lt_trans (compare := Compare (Comparator := comparator o)) _ kvl.1);
          [exact (proj1 (Forall_lookup _ _) (ix_valid _ _ _ IX) c ix Hc)|done|done| |by apply Hlt].
        apply (ix_before _ _ _ IX c ix kvl Hc). cbn [map]. apply (later_last done b c Hb); [lia|done].
      * intros c ix Hc Hnil. apply lookup_app_Some in Hc as [Hc|[Hge Hc]].
        -- exfalso. pose proof (lookup_lt_Some _ _ _ Hc). pose proof (later_last done b c Hb ltac:(lia) kvl Hkvl) as Hin.
           rewrite Hnil in Hin. by apply not_elem_of_nil in Hin.
        -- apply list_lookup_singleton_Some in Hc as [Hc <-]. exists b, kvl. split_and!; [|done|exact Esep].
           rewrite Ed in Hl |- *. rewrite length_app in Hl. simpl in Hl.
           rewrite lookup_app_r by lia. by replace (c - length done')%nat with 0%nat by lia.
  - destruct Hp as [Hl Hne]. exists (index_block r), (tb_last_key r), ys, ns, ixs.
    split; [f_equal; by apply tb_same_index|]. split_and!; [done|done| |done].
    apply index_ok_add; [done| |].
    2: { intros c ix Hc Hnil. destruct Hne as [->|Hne]; [apply lookup_lt_Some in Hc; simpl in Hl; lia|].
         unfold later in Hnil. apply app_eq_nil in Hnil as [_ Hnil]. by destruct xs. }
    intros ix Hix. apply list_elem_of_lookup in Hix as [c Hc].
    destruct Hne as [->|Hne]; [apply lookup_lt_Some in Hc; simpl in Hl; lia|].
    destruct (ascending_nonempty_last (map item_kv xs)) as [kv Hkv]; [by destruct xs|].
    apply last_Some in Hkv as [l' El].
    apply (order_lt_trans (compare := Compare (Comparator := comparator o)) _ kv.1).
    + exact (proj1 (Forall_lookup _ _) (ix_valid _ _ _ IX) c ix Hc).
    + apply Forall_app in HV as [_ HV]. rewrite El in HV. apply Forall_app in HV as [_ HV].
      by apply Forall_cons in HV as [[? _] _].
    + done.
    + apply (ix_before _ _ _ IX c ix kv Hc). unfold later. rewrite El. set_solver.
    + apply Hlt. rewrite El. set_solver.
Qed.

(** The assertion on the order of the keys. *)
Lemma key_larger r done xs ms ixs key value :
  tb_holds r done xs ms ixs -> entry_fits (wb_entries done ++ map item_kv xs ++ [(key, value)]) ->
  (if 0 <? num_entries r then c ← Compare (Comparator := comparator o) key (tb_last_key r); Some (0 <? c)
   else Some true) = Some true.
Proof.
  intros H Hfit. rewrite app_assoc in Hfit. destruct (entry_fits_last _ _ Hfit) as (Hlt & Hvk & _). cbn [fst] in *.
  rewrite (th_entries _ _ _ _ _ H). pose proof (th_last _ _ _ _ _ H) as HL. pose proof (th_valid _ _ _ _ _ H) as HV.
  revert Hlt HL HV. generalize (wb_entries done ++ map item_kv xs). intros all Hlt HL HV.
  destruct (Z.ltb_spec 0 (zlen all)) as [Hpos|]; [|done].
  destruct (ascending_nonempty_last all) as [kv Hkv]; [by destruct all|]. rewrite (HL kv Hkv).
  assert (kv ∈ all) as Hin by (apply last_Some in Hkv as [l' ->]; set_solver).
  assert (valid kv.1) as Hv by exact (proj1 (proj1 (Forall_forall _ _) HV kv Hin)).
  rewrite (Compare_order (compare := Compare (Comparator := comparator o))) by done. cbn [mbind option_bind]. f_equal.
  apply Z.ltb_lt. apply (order_lt_flip (compare := Compare (Comparator := comparator o))); [done..|]. by apply Hlt.
Qed.

Lemma TableBuilder_Add_ok r done xs ms ixs key value :
  tb_holds r done xs ms ixs -> entry_fits (wb_entries done ++ map item_kv xs ++ [(key, value)]) ->
  exists r', TableBuilder_Add r key value = Some r'
    /\ (tb_failed r' \/ exists done' xs' ms' ixs', tb_holds r' done' xs' ms' ixs'
          /\ wb_entries done' ++ map item_kv xs' = wb_entries done ++ map item_kv xs ++ [(key, value)]).
Proof.
  intros H Hfit. unfold TableBuilder_Add. cbv zeta.
  rewrite (th_closed _ _ _ _ _ H), (th_ok _ _ _ _ _ H), (th_options _ _ _ _ _ H). cbn [negb].
  rewrite (key_larger r done xs ms ixs key value H Hfit). cbn [mbind option_bind negb].
  destruct (index_before_add r done xs ms ixs key value H Hfit) as (index & lk & ys & ns & ixs' & -> & HI & Ey & IX & Hl).
  cbn [mbind option_bind].
  pose proof Hfit as Hfit'. rewrite app_assoc in Hfit'. destruct (entry_fits_last _ _ Hfit') as (Hlt & Hvk & Hkf).
  cbn [tb_with_filter tb_with_data tb_with_index tb_options data_block filter_block_ closed num_entries].
  rewrite (th_options _ _ _ _ _ H).
  destruct (BlockBuilder_Add_ok (C := comparator o) (valid := valid) (order := order) _ Hinterval (data_block r) xs ms key value
              (th_data _ _ _ _ _ H) Hkf) as (data & x & ms' & -> & Ex & HD).
  { intros y Hy. assert (item_kv y ∈ wb_entries done ++ map item_kv xs) as Hin.
    { apply elem_of_app. right. apply last_Some in Hy as [l' ->]. rewrite map_app. set_solver. }
    split; [done|]. split; [|by apply (Hlt (item_kv y))].
    exact (proj1 (proj1 (Forall_forall _ _) (th_valid _ _ _ _ _ H) _ Hin)). }
  cbn [mbind option_bind]. set (r3 := tb_with_data _ data key _).
  assert (map item_kv (xs ++ [x]) = map item_kv xs ++ [(key, value)]) as Exs by (rewrite map_app; cbn [map]; by rewrite Ex).
  assert (tb_holds r3 done (xs ++ [x]) ms' ixs') as H3.
  { destruct Hfit as (Hv & Ha & Hw).
    split; rewrite ?Exs; cbn [r3 tb_with_data tb_with_filter tb_with_index tb_options tb_interval closed num_entries tb_last_key data_block index_block
      pending_index_entry pending_handle filter_block_ tb_offset tb_file].
    - exact (th_options _ _ _ _ _ H).
    - exact (th_interval _ _ _ _ _ H).
    - exact (th_closed _ _ _ _ _ H).
    - rewrite (th_entries _ _ _ _ _ H), !length_app. simpl. lia.
    - intros kv Hkv. rewrite app_assoc, last_snoc in Hkv. by injection Hkv as <-.
    - exact HD.
    - by exists ys, ns.
    - exact (th_blocks _ _ _ _ _ H).
    - split; [done|]. right. by destruct xs.
    - exact IX.
    - pose proof (th_filter _ _ _ _ _ H) as HF. destruct (filter_policy o) as [P|].
      + destruct HF as (fb & -> & Ec). eexists. split; [done|]. by apply (filter_calls_add _ _ _ _ (key, value)).
      + by rewrite HF.
    - pose proof (th_offsets _ _ _ _ _ H) as HO. unfold filter_calls in *.
      exact (proj2 (offsets_ok_snoc _ _ _ _ (tb_offset r) _ HO (Z.le_refl _))).
    - done.
    - done.
    - done.
    - exact (th_offset _ _ _ _ _ H).
    - exact (th_size _ _ _ _ _ H).
    - exact (th_stores _ _ _ _ _ H).
    - exact (th_handles _ _ _ _ _ H).
    - exact (th_before _ _ _ _ _ H).
    - exact (th_ok _ _ _ _ _ H). }
  destruct (_ <=? _).
  - destruct (TableBuilder_Flush_ok r3 done (xs ++ [x]) ms' ixs' H3) as (r' & -> & Hr'); [by destruct xs|].
    exists r'. split; [done|]. destruct Hr' as [Hr'|(b & Hb & Hr')]; [by left|]. right.
    eexists _, _, _, _. split; [exact Hr'|]. rewrite entries_snoc. unfold wb_kvs. cbn [map]. by rewrite Hb, app_nil_r, Exs.
  - exists r3. split; [done|]. right. eexists _, _, _, _. split; [exact H3|]. by rewrite Exs.
Qed.

(** ** Any number of entries *)
Fixpoint table_add_all (r : TB) (kvs : list (bytes * bytes)) : option TB :=
  match kvs with
  | [] => Some r
  | (k, v) :: kvs' => r ← TableBuilder_Add r k v; table_add_all r kvs'
  end.

Lemma TableBuilder_Add_failed r key value : tb_failed r -> TableBuilder_Add r key value = Some r.
Proof. intros [Hok Hcl]. unfold TableBuilder_Add. by rewrite Hcl, Hok. Qed.

Lemma entry_fits_prefix a b : entry_fits (a ++ b) -> entry_fits a.
Proof.
  intros (Hv & Ha & Hw). split_and!; [by apply Forall_app in Hv as [? _]| |rewrite weight_app in Hw; pose proof (weight_nonneg b); lia].
  intros i x y Hx Hy. by apply (Ha i); apply lookup_app_l_Some.
Qed.

Lemma table_add_all_ok r done xs ms ixs kvs :
  tb_holds r done xs ms ixs -> entry_fits (wb_entries done ++ map item_kv xs ++ kvs) ->
  exists r', table_add_all r kvs = Some r'
    /\ (tb_failed r' \/ exists done' xs' ms' ixs', tb_holds r' done' xs' ms' ixs'
          /\ wb_entries done' ++ map item_kv xs' = wb_entries done ++ map item_kv xs ++ kvs).
Proof.
  revert r done xs ms ixs. induction kvs as [|[k v] kvs IH]; intros r done xs ms ixs H Hfit.
  - exists r. split; [done|]. right. rewrite app_nil_r. by eexists _, _, _, _.
  - cbn [table_add_all].
    assert (wb_entries done ++ map item_kv xs ++ (k, v) :: kvs = (wb_entries done ++ map item_kv xs ++ [(k, v)]) ++ kvs) as E
      by (by rewrite <- !app_assoc).
    rewrite E in Hfit.
    destruct (TableBuilder_Add_ok r done xs ms ixs k v H (entry_fits_prefix _ _ Hfit)) as (r1 & -> & Hr1).
    cbn [mbind option_bind]. destruct Hr1 as [Hf|(done1 & xs1 & ms1 & ixs1 & H1 & E1)].
    + exists r1. split; [|by left]. clear -Hf. induction kvs as [|[k v] kvs IH]; [done|]. cbn [table_add_all].
      by rewrite (TableBuilder_Add_failed r1 k v Hf).
    + destruct (IH r1 done1 xs1 ms1 ixs1 H1) as (r' & -> & Hr'); [by rewrite app_assoc, E1|].
      exists r'. split; [done|]. destruct Hr' as [Hf|(done2 & xs2 & ms2 & ixs2 & H2 & E2)]; [by left|].
      right. eexists _, _, _, _. split; [exact H2|]. rewrite E2, E, app_assoc, E1. done.
Qed.
End Holds.

#[global] Arguments ix_valid {o valid order done cur ixs} _ : rename.
#[global] Arguments ix_handle {o valid order done cur ixs} _ c ix _ : rename.
#[global] Arguments ix_length {o valid order done cur ixs} _ c ix b _ _ : rename.
#[global] Arguments ix_after {o valid order done cur ixs} _ c ix b kv _ _ _ : rename.
#[global] Arguments ix_before {o valid order done cur ixs} _ c ix kv _ _ : rename.
#[global] Arguments ix_sep {o valid order done cur ixs} _ c ix x _ _ : rename.
