(* ===== verification/LdbTableThms.v ===== *)
(** leveldb: what the table builder leaves in the file when it finishes, reading
    such a file, and the theorems about tables. *)
From stdpp Require Import base numbers option strings sets list.
From S2P Require Import Prelude Varint LdbSlice LdbCoding LdbCrc LdbBloom LdbFilterBlock LdbComparator LdbEnv LdbIterator LdbBlock LdbBlockThms LdbTwoLevel LdbFormat LdbTable LdbTableSpec.
Open Scope Z_scope.

(** * The finished file *)

Section Finish.
Context {F : Type} {WF : WritableFile F} {contents : F -> bytes}
  {FL : WritableFileLaw F contents} {SN : Snappy} {SL : SnappyLaw SN}.
Context (o : Options) {valid : bytes -> Prop} {order : bytes -> bytes -> Z}
  {CL : ComparatorLaw (comparator o) valid order}.
Context (Hbytes : forall k, valid k -> Forall is_byte k) (Hinterval : 1 <= block_restart_interval o)
  (Hpolicy : forall P, filter_policy o = Some P -> FilterPolicyLaw P valid)
  (Hname : forall P, filter_policy o = Some P ->
     Forall is_byte (FilterPolicy_Name (FilterPolicy := P)) /\ zlen (FilterPolicy_Name (FilterPolicy := P)) < 2 ^ 31).

#[local] Notation TB := (TableBuilder F).
#[local] Notation holds := (tb_holds (contents := contents) o (valid := valid) (order := order)).
#[local] Notation file_of r := (contents (tb_file r)).

(** The file of a table with the blocks [done]. *)
Record table_file (c : bytes) (done : list wblock) (ixs : list (bytes * bytes)) (footer : Footer) : Prop := {
  tf_footer : exists body, c = body ++ footer_bytes footer;
  tf_handles : handle_ok (metaindex_handle_ footer) /\ handle_ok (index_handle_ footer);
  tf_index : exists ys ns, map item_kv ys = ixs /\ block_rep ys ns
    /\ stores c (index_handle_ footer) (block_contents ys ns);
  tf_index_ok : index_ok o (valid := valid) (order := order) done [] ixs /\ length ixs = length done;
  tf_blocks : Forall (fun b => wb_items b <> [] /\ block_rep (wb_items b) (wb_restarts b)
                               /\ stores c (wb_handle b) (wb_contents b)) done;
  tf_nodup : NoDup (map (fun b => bh_offset (wb_handle b)) done);
  tf_meta : exists zs ks, block_rep zs ks /\ stores c (metaindex_handle_ footer) (block_contents zs ks)
    /\ forall P, filter_policy o = Some P ->
         exists fh fc off, map item_kv zs = [(filter_key P, handle_bytes fh)] /\ stores c fh fc
           /\ filter_block (filter_calls done off []) = Some fc /\ zlen fc < 2 ^ 32
           /\ offsets_ok 0 (filter_calls done off []);
  tf_valid : entry_fits (valid := valid) (order := order) (wb_entries done)
}.

(** The filter block is of bytes, and not too long for its handle. *)
Definition filter_small (r : TB) : Prop :=
  forall P rf fb c, filter_policy o = Some P -> TableBuilder_Flush r = Some rf -> filter_block_ rf = Some fb ->
    FilterBlockBuilder_Finish fb = Some c -> Forall is_byte c /\ zlen c < 2 ^ 32.

(** [r'] has the file of [r] with at most [n] more bytes. *)
Definition file_grown (r r' : TB) (n : Z) : Prop :=
  offset_ok (contents := contents) r' /\ exists img, file_of r' = file_of r ++ img /\ zlen img <= n.

Lemma filter_key_fits P h :
  filter_policy o = Some P -> handle_ok h -> kv_fits (filter_key P, handle_bytes h).
Proof.
  intros HP Hh. destruct (Hname P HP) as [Hb Hl]. pose proof (handle_bytes_length h).
  assert (length (filter_key P) = 7 + length (FilterPolicy_Name (FilterPolicy := P)))%nat as El
    by (unfold filter_key; by rewrite length_app).
  split_and!; cbn [fst snd]; [|by apply handle_bytes_bytes|lia|lia].
  apply Forall_app. split; [|done]. by repeat constructor.
Qed.

Lemma policy_cases {A} (m : option A) : (exists x, m = Some x) \/ m = None.
Proof. destruct m; [left; by eexists|by right]. Qed.

Lemma block_weight b done : b ∈ done -> weight (wb_kvs b) <= weight (wb_entries done).
Proof.
  induction done as [|b' done IH]; intros Hin; [by apply not_elem_of_nil in Hin|].
  change (wb_entries (b' :: done)) with (wb_kvs b' ++ wb_entries done). rewrite weight_app.
  pose proof (weight_nonneg (wb_kvs b')). pose proof (weight_nonneg (wb_entries done)).
  apply elem_of_cons in Hin as [->|Hin]; [lia|]. specialize (IH Hin). lia.
Qed.

(** ** The filter block *)
Lemma write_filter_block_ok rf done ms ixs :
  holds rf done [] ms ixs ->
  (forall P fb c, filter_policy o = Some P -> filter_block_ rf = Some fb -> FilterBlockBuilder_Finish fb = Some c ->
     Forall is_byte c /\ zlen c < 2 ^ 32) ->
  let r1 := tb_with_filter rf (filter_block_ rf) true in
  exists fh r2, write_filter_block r1 = Some (fh, r2) /\ wrote r1 r2
    /\ (is_Some (filter_policy o) -> handle_ok fh)
    /\ (tb_ok r2 = true -> file_grown r1 r2 (2 ^ 32 + 5)
         /\ forall P, filter_policy o = Some P -> exists fc, stores (file_of r2) fh fc
              /\ filter_block (filter_calls done (tb_offset rf) []) = Some fc /\ zlen fc < 2 ^ 32).
Proof.
  intros H Hsmall r1. pose proof (th_filter _ _ _ _ _ _ H) as HF. pose proof (th_offset _ _ _ _ _ _ H) as Ho.
  unfold write_filter_block. cbn [r1 tb_with_filter tb_options filter_block_].
  rewrite (th_options _ _ _ _ _ _ H). destruct (filter_policy o) as [P|] eqn:EP.
  - destruct HF as (fb & Efb & Ec). rewrite Efb.
    assert (tb_ok r1 = true) as Hok by exact (th_ok _ _ _ _ _ _ H). fold r1. rewrite Hok.
    pose proof (Hpolicy P eq_refl) as PL.
    destruct (filter_block_matches (P := P) (filter_calls done (tb_offset rf) [])) as (fc & Efc & _).
    + exact (th_offsets _ _ _ _ _ _ H).
    + apply filter_calls_valid. exact (th_valid _ _ _ _ _ _ H).
    + rewrite key_count_calls. pose proof (th_weight _ _ _ _ _ _ H).
      pose proof (weight_length (wb_entries done ++ map item_kv [])). cbn [map] in *. lia.
    + pose proof Efc as Efc2. unfold filter_block in Efc. cbn [map] in Ec. rewrite Ec in Efc. cbn [mbind option_bind] in Efc.
      rewrite Efc. cbn [mbind option_bind]. destruct (Hsmall P fb fc eq_refl Efb Efc) as [Hb Hl].
      destruct (WriteRawBlock r1 fc kNoCompression) as [h r2] eqn:E. exists h, r2. split; [done|].
      pose proof (th_size _ _ _ _ _ _ H) as Hsz. pose proof (th_weight _ _ _ _ _ _ H) as Hw.
      rewrite weight_app in Hw. pose proof (weight_nonneg (map item_kv [])).
      destruct (WriteRawBlock_ok (contents := contents) r1 fc kNoCompression h r2) as (W & -> & _ & Hc);
        [apply Forall_app; split; [done|by repeat constructor]|exact Ho|cbn [r1 tb_with_filter tb_file]; lia|exact E|].
      assert (tb_offset r1 = zlen (file_of rf)) as Er by exact Ho.
      assert (handle_ok {| bh_offset := tb_offset r1; bh_size := zlen fc |}) as Hh
        by (split; cbn [bh_offset bh_size]; lia).
      split_and!; [done|done|]. intros Hok2. destruct (Hc Hok2) as [C1 C2]. split.
      * split; [done|]. eexists. split; [exact C1|]. rewrite block_image_length. lia.
      * intros P' [= <-]. exists fc. split_and!; [|exact Efc2|done]. split; [done|]. split; [cbn [bh_size]; lia|].
        exists (file_of r1), fc, kNoCompression, []. rewrite app_nil_r. split_and!; [exact C1|done|done|by split; [|left]].
  - exists BlockHandle_new, r1. split; [done|]. split.
    + exists (tb_file rf), (tb_offset rf), (tb_status rf). reflexivity.
    + split; [by intros [? ?]|]. intros _. split; [|done]. split; [exact Ho|]. exists []. by rewrite app_nil_r.
Qed.

(** ** The metaindex block *)
Lemma write_metaindex_block_ok r1 r2 fh :
  wrote r1 r2 -> tb_options r1 = o ->
  (match filter_policy o with None => filter_block_ r1 = None | Some _ => is_Some (filter_block_ r1) end) ->
  (is_Some (filter_policy o) -> handle_ok fh) ->
  (tb_ok r2 = true -> offset_ok (contents := contents) r2 /\ zlen (file_of r2) < 2 ^ 40) ->
  exists mh r3, write_metaindex_block r2 fh = Some (mh, r3) /\ wrote r1 r3
    /\ (tb_ok r3 = true -> tb_ok r2 = true /\ handle_ok mh /\ file_grown r2 r3 (2 ^ 32)
         /\ exists zs ks, block_rep zs ks /\ stores (file_of r3) mh (block_contents zs ks)
              /\ forall P, filter_policy o = Some P -> map item_kv zs = [(filter_key P, handle_bytes fh)]).
Proof.
  intros (f2 & off2 & st2 & ->) Ho Hfb Hfh Hr2. set (r2 := tb_with_file r1 f2 off2 st2) in *.
  unfold write_metaindex_block. destruct (tb_ok r2) eqn:Hok; [|].
  - destruct (Hr2 eq_refl) as [Hoff Hsz]. cbn [r2 tb_with_file tb_options filter_block_]. rewrite Ho.
    unfold BlockBuilder_new at 1. rewrite (proj2 (Z.leb_le _ _) Hinterval). cbn [mbind option_bind].
    assert (exists meta zs ks, match filter_policy o, filter_block_ r1 with
              | Some P, Some _ =>
                  handle_encoding ← BlockHandle_EncodeTo fh [];
                  BlockBuilder_Add (C := comparator o) (block_restart_interval o) BlockBuilder_Reset (filter_key P) handle_encoding
              | _, _ => Some BlockBuilder_Reset
              end = Some meta /\ builder_holds (block_restart_interval o) meta zs ks
              /\ weight (map item_kv zs) < 2 ^ 31 + 100
              /\ forall P, filter_policy o = Some P -> map item_kv zs = [(filter_key P, handle_bytes fh)])
      as (meta & zs & ks & -> & Hm & Hw & Hz).
    { destruct (policy_cases (filter_policy o)) as [[P EP]|EP]; rewrite EP in Hfb |- *.
      - destruct Hfb as [fb ->]. assert (handle_ok fh) as Hok' by (apply Hfh; by rewrite EP).
        rewrite (BlockHandle_EncodeTo_ok fh []) by done. cbn [mbind option_bind app].
        destruct (BlockBuilder_Add_ok (C := comparator o) (valid := valid) (order := order) _ Hinterval BlockBuilder_Reset [] [0%nat] (filter_key P) (handle_bytes fh)
                    (builder_holds_new _ Hinterval)) as (meta & x & ks & E & Ex & Hm);
          [by apply filter_key_fits|done|].
        exists meta, [x], ks. split; [exact E|]. split; [done|]. split; [|intros P' [= <-]; cbn [map]; by rewrite Ex].
        cbn [map]. rewrite Ex. destruct (Hname P EP) as [_ Hl]. pose proof (handle_bytes_length fh).
        unfold weight. cbn [foldr fst snd]. unfold filter_key. rewrite zlen_app. change (zlen (str "filter.")) with 7. lia.
      - exists BlockBuilder_Reset, [], [0%nat]. split; [by destruct (filter_block_ r1)|].
        split; [by apply builder_holds_new|]. split; [done|done]. }
    cbn [mbind option_bind]. pose proof (block_contents_bound zs ks (bh_wf _ _ _ _ Hm)) as Hb.
    assert (block_rep zs ks) as Hrep by (split; [lia|exact (bh_wf _ _ _ _ Hm)]).
    pose proof (Finish_contents _ _ _ _ Hm) as Hraw. fold r2.
    destruct (WriteBlock_ok (contents := contents) r2 meta Hok) as (mh & r3 & E & W & Hh & _ & _ & Hc); rewrite ?Hraw;
      [by apply rep_data_bytes|done|lia|].
    exists mh, r3. split; [exact E|]. split.
    + destruct W as (f3 & off3 & st3 & ->). by exists f3, off3, st3.
    + intros Hok3. rewrite Hraw in Hc. destruct (Hc Hok3) as (Hst & Hoff3 & img & Ei & Hi).
      split; [done|]. split; [done|]. split; [split; [done|]; exists img; split; [done|lia]|].
      by exists zs, ks.
  - exists BlockHandle_new, r2. split; [done|]. split; [by eexists _, _, _|]. intros Hok2. congruence.
Qed.

(** ** The index block *)
Lemma index_weight done cur ixs :
  index_ok o (valid := valid) (order := order) done cur ixs -> Forall (fun b => handle_ok (wb_handle b)) done ->
  weight ixs - 30 * zlen ixs <= weight (wb_entries done).
Proof.
  intros IX Hh. assert (length ixs <= length done)%nat as Hl.
  { destruct (Nat.le_gt_cases (length ixs) (length done)) as [|Hgt]; [done|].
    destruct (lookup_lt_is_Some_2 ixs (length done) Hgt) as [ix Hix].
    destruct (ix_handle IX _ _ Hix) as (b & Hb & _). apply lookup_lt_Some in Hb. lia. }
  assert (Forall2 (fun ix b => zlen ix.1 + zlen ix.2 + 34 <= weight (wb_kvs b)) ixs (take (length ixs) done)) as H2.
  { apply Forall2_same_length_lookup_2; [rewrite length_take; lia|]. intros c ix b Hix Hb.
    pose proof (lookup_lt_Some _ _ _ Hix). rewrite lookup_take in Hb by done.
    destruct (decide _) in Hb; [|done].
    destruct (ix_handle IX c ix Hix) as (b' & Hb' & E). assert (b' = b) as -> by congruence.
    destruct (ix_length IX c ix b Hix Hb) as (kv & Hkv & Hlen).
    pose proof (weight_elem kv _ Hkv). pose proof (handle_bytes_length (wb_handle b)). rewrite E. lia. }
  assert (weight (wb_entries (take (length ixs) done)) <= weight (wb_entries done)) as Hle.
  { rewrite <- (take_drop (length ixs) done) at 2. unfold wb_entries. rewrite map_app, concat_app, weight_app.
    pose proof (weight_nonneg (concat (map wb_kvs (drop (length ixs) done)))). lia. }
  assert (forall l done', Forall2 (fun ix b => zlen ix.1 + zlen ix.2 + 34 <= weight (wb_kvs b)) l done' ->
    weight l - 30 * zlen l <= weight (wb_entries done')) as H.
  { intros l done' HF. induction HF as [|ix b l done' Hb HF IH]; [done|].
    change (weight (ix :: l)) with (zlen ix.1 + zlen ix.2 + 64 + weight l).
    change (wb_entries (b :: done')) with (wb_kvs b ++ wb_entries done'). rewrite weight_app. cbn [length]. lia. }
  specialize (H _ _ H2). lia.
Qed.

Lemma write_index_block_ok rf r1 r3 done ms ixs :
  holds rf done [] ms ixs -> r1 = tb_with_filter rf (filter_block_ rf) true -> wrote r1 r3 ->
  (tb_ok r3 = true -> offset_ok (contents := contents) r3 /\ zlen (file_of r3) < 2 ^ 40) ->
  exists ih r4, write_index_block r3 = Some (ih, r4)
    /\ (tb_ok r4 = true -> tb_ok r3 = true /\ handle_ok ih /\ file_grown r3 r4 (2 ^ 32)
         /\ exists ixs' ys ns, map item_kv ys = ixs' /\ block_rep ys ns /\ stores (file_of r4) ih (block_contents ys ns)
              /\ index_ok o (valid := valid) (order := order) done [] ixs' /\ length ixs' = length done).
Proof.
  intros H -> (f3 & off3 & st3 & ->) Hr3. set (r3 := tb_with_file _ f3 off3 st3) in *.
  unfold write_index_block. destruct (tb_ok r3) eqn:Hok; [|].
  - destruct (Hr3 eq_refl) as [Hoff Hsz]. cbn [r3 tb_with_file tb_with_filter tb_options pending_index_entry tb_last_key].
    rewrite (th_options _ _ _ _ _ _ H).
    assert (exists r3' ys ns, (if pending_index_entry rf
                    then key ← FindShortSuccessor (Comparator := comparator o) (tb_last_key rf); add_index_entry r3 key
                    else Some r3) = Some r3'
              /\ tb_ok r3' = true /\ tb_file r3' = tb_file r3 /\ tb_offset r3' = tb_offset r3
              /\ builder_holds 1 (index_block r3') ys ns
              /\ index_ok o (valid := valid) (order := order) done [] (map item_kv ys) /\ length (map item_kv ys) = length done)
      as (r3' & ys & ns & E & Hok' & Ef & Eo & HI & IX & Hl).
    { pose proof (th_pending _ _ _ _ _ _ H) as Hp. destruct (pending_index_entry rf) eqn:Ep.
      - destruct Hp as (_ & Hl & b & Hb & Hh). pose proof Hb as Hbl. apply last_Some in Hbl as [done' Ed].
        pose proof (th_blocks _ _ _ _ _ _ H) as HB. pose proof (th_valid _ _ _ _ _ _ H) as HV.
        pose proof (th_ascending _ _ _ _ _ _ H) as HA. cbn [map] in HV, HA. rewrite app_nil_r in HV, HA.
        assert (wb_items b <> []) as Hne by (rewrite Ed in HB; apply Forall_app in HB as [_ HB]; by apply Forall_cons in HB as [[? _] _]).
        destruct (last_done_entry done b Hb Hne) as (kvl & Hlast & Hlb).
        rewrite (th_last _ _ _ _ _ _ H kvl) by (cbn [map]; by rewrite app_nil_r).
        assert (kvl ∈ wb_kvs b) as Hkvl by (apply last_Some in Hlb as [l' ->]; set_solver).
        assert (kvl ∈ wb_entries done) as Hkvl' by (apply last_Some in Hlast as [l' ->]; set_solver).
        assert (valid kvl.1) as Hvl by exact (proj1 (proj1 (Forall_forall _ _) HV kvl Hkvl')).
        destruct (Successor_law (C := comparator o) kvl.1 Hvl) as (key & -> & Hvk & Hlen & Hle). cbn [mbind option_bind].
        destruct (add_index_entry_ok o Hbytes Hinterval Hpolicy rf r3 done ms ixs key H Ep Hvk) as (index & ys & ns & E & HI & Ey & IX & Hl');
          [exact (th_options _ _ _ _ _ _ H)|exact (th_interval _ _ _ _ _ _ H)|done|done| |by exists b, kvl|].
        + intros b' kv Hb' Hkv. assert (b' = b) as -> by congruence.
          apply (order_trans (compare := Compare (Comparator := comparator o)) _ kvl.1); [|done|done| |done].
          * assert (kv ∈ wb_entries done) as Hin by (rewrite Ed, entries_snoc; set_solver).
            exact (proj1 (proj1 (Forall_forall _ _) HV kv Hin)).
          * apply (last_entry_le o Hbytes Hinterval Hpolicy (wb_entries done) kvl (wb_kvs b) kv); [done..|]. exists (wb_entries done'). by rewrite Ed, entries_snoc.
        + exists (tb_with_data (tb_with_index r3 index false (pending_handle r3)) (data_block r3) key (num_entries r3)), ys, ns.
          rewrite Ey. by split_and!.
      - destruct Hp as [Hl Hne]. destruct Hne as [->|]; [|done].
        pose proof (th_index _ _ _ _ _ _ H) as (ys & ns & HI & Ey).
        exists r3, ys, ns. rewrite Ey. split_and!; [done..| |done]. exact (th_ixs _ _ _ _ _ _ H). }
    rewrite E. cbn [mbind option_bind].
    pose proof (block_contents_bound ys ns (bh_wf _ _ _ _ HI)) as Hb.
    assert (Forall (fun b => handle_ok (wb_handle b)) done) as Hhs
      by (eapply Forall_impl; [exact (th_stores _ _ _ _ _ _ H)|]; by intros b [? _]).
    pose proof (index_weight done [] _ IX Hhs) as Hw. pose proof (th_weight _ _ _ _ _ _ H) as Hw'. cbn [map] in Hw'.
    rewrite app_nil_r in Hw'. rewrite length_map in Hw.
    assert (block_rep ys ns) as Hrep by (split; [lia|exact (bh_wf _ _ _ _ HI)]).
    pose proof (Finish_contents _ _ _ _ HI) as Hraw.
    destruct (WriteBlock_ok (contents := contents) r3' (index_block r3') Hok') as (ih & r4 & -> & W & Hh & _ & _ & Hc); rewrite ?Hraw;
      [by apply rep_data_bytes|by unfold offset_ok; rewrite Ef, Eo|rewrite Ef; lia|].
    cbn [mbind option_bind]. eexists ih, _. split; [done|]. intros Hok4. rewrite Hraw in Hc.
    destruct (Hc Hok4) as (Hst & Hoff4 & img & Ei & Hi). rewrite Ef in Ei. split; [done|]. split; [done|].
    split; [split; [done|]; exists img; split; [done|lia]|].
    by exists (map item_kv ys), ys, ns.
  - exists BlockHandle_new, r3. split; [done|]. intros Hok2. congruence.
Qed.

(** ** Finish *)
Lemma finish_failed (r1 : TB) :
  tb_ok r1 = false ->
  write_filter_block r1 = Some (BlockHandle_new, r1)
  /\ (forall h, write_metaindex_block r1 h = Some (BlockHandle_new, r1))
  /\ write_index_block r1 = Some (BlockHandle_new, r1)
  /\ (forall m i, write_footer r1 m i = Some r1).
Proof.
  intros E. unfold write_filter_block, write_metaindex_block, write_index_block, write_footer. rewrite E.
  split_and!; [|done..]. by destruct (filter_policy (tb_options r1)), (filter_block_ r1).
Qed.

Lemma write_footer_ok (r4 : TB) mh ih :
  tb_ok r4 = true -> offset_ok (contents := contents) r4 -> zlen (file_of r4) < 2 ^ 63 -> handle_ok mh -> handle_ok ih ->
  exists r5, write_footer r4 mh ih = Some r5
    /\ (tb_ok r5 = true -> offset_ok (contents := contents) r5
          /\ file_of r5 = file_of r4 ++ footer_bytes {| metaindex_handle_ := mh; index_handle_ := ih |}).
Proof.
  intros Hok Ho Hsz Hm Hi. unfold write_footer. rewrite Hok.
  rewrite (Footer_EncodeTo_ok {| metaindex_handle_ := mh; index_handle_ := ih |} Hm Hi). cbn [mbind option_bind].
  set (fb := footer_bytes _). assert (zlen fb = 48) as Hl by (unfold fb; by rewrite footer_bytes_length).
  destruct (Append _ _) as [s f] eqn:E. eexists. split; [done|]. intros Hok5.
  pose proof (Append_ok _ _ _ _ E Hok5) as Ec. split; [|done]. unfold offset_ok in *. cbn [tb_with_file tb_offset tb_file].
  assert (Status_ok s = true) as -> by exact Hok5. rewrite Ec, zlen_app, Ho, u64_small by (unfold in_uint; lia). done.
Qed.

Lemma Flush_any r done xs ms ixs :
  holds r done xs ms ixs ->
  exists rf, TableBuilder_Flush r = Some rf
    /\ (tb_failed rf \/ exists done' ms', holds rf done' [] ms' ixs /\ wb_entries done' = wb_entries done ++ map item_kv xs).
Proof.
  intros H. destruct xs as [|x xs].
  - exists r. split; [exact (TableBuilder_Flush_empty o r done ms ixs H)|]. right. exists done, ms.
    split; [done|]. cbn [map]. by rewrite app_nil_r.
  - destruct (TableBuilder_Flush_ok o Hinterval Hpolicy r done (x :: xs) ms ixs H) as (rf & E & Hrf); [done|].
    exists rf. split; [done|]. destruct Hrf as [Hf|(b & Hb & Hh)]; [by left|]. right.
    exists (done ++ [b]), [0%nat]. split; [done|]. rewrite entries_snoc. unfold wb_kvs. by rewrite Hb.
Qed.

Lemma appended_stores r r' n h data : file_grown r r' n -> stores (file_of r) h data -> stores (file_of r') h data.
Proof. intros (_ & img & -> & _). apply stores_app. Qed.

Lemma TableBuilder_Finish_ok r done xs ms ixs :
  holds r done xs ms ixs -> filter_small r ->
  exists s r', TableBuilder_Finish r = Some (s, r') /\ s = tb_status r'
    /\ (tb_ok r' = true -> offset_ok (contents := contents) r' /\ exists done' ixs' footer,
          wb_entries done' = wb_entries done ++ map item_kv xs /\ table_file (file_of r') done' ixs' footer).
Proof.
  intros H Hsmall. destruct (Flush_any r done xs ms ixs H) as (rf & EF & Hrf).
  unfold TableBuilder_Finish. rewrite EF. cbn [mbind option_bind].
  destruct Hrf as [[Hok Hcl]|(done' & ms' & Hf & Ee)].
  - rewrite Hcl. set (r1 := tb_with_filter rf (filter_block_ rf) true).
    assert (tb_ok r1 = false) as Hok1 by done. destruct (finish_failed r1 Hok1) as (-> & E2 & E3 & E4).
    cbn [mbind option_bind]. rewrite E2. cbn [mbind option_bind]. rewrite E3. cbn [mbind option_bind].
    rewrite E4. cbn [mbind option_bind]. eexists _, _. split; [done|]. split; [done|]. intros. congruence.
  - rewrite (th_closed _ _ _ _ _ _ Hf).
    assert (forall P fb c, filter_policy o = Some P -> filter_block_ rf = Some fb -> FilterBlockBuilder_Finish fb = Some c ->
              Forall is_byte c /\ zlen c < 2 ^ 32) as Hs by (intros P fb c HP Hfb; by apply (Hsmall P rf fb c)).
    destruct (write_filter_block_ok rf done' ms' ixs Hf Hs) as (fh & r2 & E2 & W2 & Hfh & H2).
    set (r1 := tb_with_filter rf (filter_block_ rf) true) in *. rewrite E2. cbn [mbind option_bind].
    pose proof (th_size _ _ _ _ _ _ Hf) as Hsz. pose proof (th_weight _ _ _ _ _ _ Hf) as Hw. cbn [map] in Hw.
    rewrite app_nil_r in Hw.
    assert (tb_ok r2 = true -> offset_ok (contents := contents) r2 /\ zlen (file_of r2) < 2 ^ 34) as Hr2.
    { intros Hok2. destruct (H2 Hok2) as [(Ho & img & -> & Hi) _]. split; [done|].
      change (file_of r1) with (file_of rf). rewrite zlen_app. lia. }
    destruct (write_metaindex_block_ok r1 r2 fh W2 (th_options _ _ _ _ _ _ Hf)) as (mh & r3 & E3 & W3 & H3).
    { pose proof (th_filter _ _ _ _ _ _ Hf) as HF. destruct (filter_policy o); [|exact HF].
      destruct HF as (fb & Efb & _). exists fb. exact Efb. }
    { exact Hfh. }
    { intros Hok2. destruct (Hr2 Hok2). split; [done|lia]. }
    rewrite E3. cbn [mbind option_bind].
    assert (tb_ok r3 = true -> offset_ok (contents := contents) r3 /\ zlen (file_of r3) < 2 ^ 35) as Hr3.
    { intros Hok3. destruct (H3 Hok3) as (Hok2 & _ & (Ho & img & -> & Hi) & _). split; [done|].
      destruct (Hr2 Hok2). rewrite zlen_app. lia. }
    destruct (write_index_block_ok rf r1 r3 done' ms' ixs Hf eq_refl W3) as (ih & r4 & E4 & H4).
    { intros Hok3. destruct (Hr3 Hok3). split; [done|lia]. }
    rewrite E4. cbn [mbind option_bind]. destruct (tb_ok r4) eqn:Hok4.
    + destruct (H4 eq_refl) as (Hok3 & Hih & A4 & ixs' & ys & ns & Ey & Hrep & Hsi & IX & Hl).
      destruct (H3 Hok3) as (Hok2 & Hmh & A3 & zs & ks & Hrepz & Hsm & Hz). destruct (H2 Hok2) as [A2 Hfc].
      assert (zlen (file_of r4) < 2 ^ 63) as Hsz4.
      { destruct A4 as (_ & img & -> & Hi). destruct (Hr3 Hok3). rewrite zlen_app. lia. }
      destruct (write_footer_ok r4 mh ih Hok4 (proj1 A4) Hsz4 Hmh Hih) as (r5 & -> & H5). cbn [mbind option_bind].
      eexists _, r5. split; [done|]. split; [done|]. intros Hok5. destruct (H5 Hok5) as [O5 C5]. clear H5. rename C5 into H5. split; [done|].
      exists done', ixs', {| metaindex_handle_ := mh; index_handle_ := ih |}. split; [exact Ee|].
      assert (forall h data, stores (file_of r4) h data -> stores (file_of r5) h data) as S5
        by (intros h data; rewrite H5; apply stores_app).
      assert (forall h data, stores (file_of r2) h data -> stores (file_of r5) h data) as S2
        by (intros h data Hst; by eapply S5, appended_stores, appended_stores).
      assert (forall h data, stores (file_of rf) h data -> stores (file_of r5) h data) as S1
        by (intros h data Hst; by eapply S2, (appended_stores r1)).
      split; cbn [metaindex_handle_ index_handle_].
      * by eexists.
      * done.
      * exists ys, ns. split_and!; [done|done|by apply S5].
      * done.
      * pose proof (th_blocks _ _ _ _ _ _ Hf) as HB. pose proof (th_stores _ _ _ _ _ _ Hf) as HS.
        apply Forall_forall. intros b Hb. destruct (proj1 (Forall_forall _ _) HB b Hb) as [Hne Hwf].
        split; [done|]. split; [|apply S1; exact (proj1 (Forall_forall _ _) HS b Hb)]. split; [|done].
        pose proof (block_contents_bound _ _ Hwf). apply block_weight in Hb. unfold wb_kvs in Hb. lia.
      * exact (th_handles _ _ _ _ _ _ Hf).
      * exists zs, ks. split_and!; [done|by eapply S5, appended_stores|]. intros P HP.
        destruct (Hfc P HP) as (fc & Hst & Efc & Hlen). exists fh, fc, (tb_offset rf).
        split_and!; [by apply Hz|by apply S2|done|done|exact (th_offsets _ _ _ _ _ _ Hf)].
      * pose proof (th_valid _ _ _ _ _ _ Hf) as HV. pose proof (th_ascending _ _ _ _ _ _ Hf) as HA.
        cbn [map] in HV, HA. rewrite app_nil_r in HV, HA. by split_and!.
    + destruct (finish_failed r4 Hok4) as (_ & _ & _ & ->). cbn [mbind option_bind].
      eexists _, _. split; [done|]. split; [done|]. intros. congruence.
Qed.

(** After an error the status stays. *)
Lemma TableBuilder_Finish_failed r :
  tb_failed r -> exists r', TableBuilder_Finish r = Some (tb_status r', r') /\ tb_ok r' = false.
Proof.
  intros [Hok Hcl]. unfold TableBuilder_Finish, TableBuilder_Flush. rewrite Hcl, Hok. cbn [negb mbind option_bind].
  rewrite Hcl. set (r1 := tb_with_filter r (filter_block_ r) true).
  assert (tb_ok r1 = false) as Hok1 by done. destruct (finish_failed r1 Hok1) as (-> & E2 & E3 & E4).
  cbn [mbind option_bind]. rewrite E2. cbn [mbind option_bind]. rewrite E3. cbn [mbind option_bind].
  rewrite E4. by exists r1.
Qed.
End Finish.

(** * Reading it *)

Lemma DecodeFixed32_long p : (4 <= length p)%nat -> exists v, DecodeFixed32 p = Some v.
Proof. intros Hl. destruct p as [|b0 [|b1 [|b2 [|b3 p]]]]; simpl in Hl; try lia. by eexists. Qed.

(** A reader can be made of any bytes. *)
Lemma FilterBlockReader_new_total contents : exists r, FilterBlockReader_new contents = Some r.
Proof.
  unfold FilterBlockReader_new. destruct (Z.ltb_spec (zlen contents) 5); [by eexists|].
  destruct (lookup_lt_is_Some_2 contents (Z.to_nat (zlen contents - 1))) as [lg ->]; [lia|]. cbn [mbind option_bind].
  destruct (DecodeFixed32_long (drop (Z.to_nat (zlen contents - 5)) contents)) as [w ->]; [rewrite length_drop; lia|].
  cbn [mbind option_bind]. destruct (_ >? _); by eexists.
Qed.

Section Read.
Context {G : Type} {R : RandomAccessFile G} {SN : Snappy} {SL : SnappyLaw SN}.
Context (o : Options) {valid : bytes -> Prop} {order : bytes -> bytes -> Z}
  {CL : ComparatorLaw (comparator o) valid order}.
Context (Hpolicy : forall P, filter_policy o = Some P -> FilterPolicyLaw P valid)
  (Hname : forall P, filter_policy o = Some P -> Forall is_byte (FilterPolicy_Name (FilterPolicy := P))).
Context (g : G) (c : bytes) {RL : RandomAccessFileLaw R g c}.
Context (done : list wblock) (ixs : list (bytes * bytes)) (footer : Footer)
  (TF : table_file o (valid := valid) (order := order) c done ixs footer).

#[local] Notation kvs := (wb_entries done).

(** ** Open *)
Lemma ReadFilter_ok fh fc :
  stores c fh fc -> exists fr, ReadFilter o g (handle_bytes fh) = Some (Some fr) /\ FilterBlockReader_new fc = Some fr.
Proof.
  intros Hst. unfold ReadFilter. rewrite <- (app_nil_r (handle_bytes fh)), BlockHandle_DecodeFrom_ok by apply Hst.
  cbn [Status_ok Status_OK negb].
  destruct (ReadBlock_stored g (open_options o) c fh fc RL Hst) as (bc & -> & Ebc). cbn [mbind option_bind Status_ok Status_OK negb]. rewrite Ebc.
  destruct (FilterBlockReader_new_total fc) as [fr E]. exists fr. by rewrite E.
Qed.

(** The filter the table reads is that of its blocks. *)
Definition filter_read (fr : option FilterBlockReader) : Prop :=
  match filter_policy o with
  | None => fr = None
  | Some P => exists fc r off, fr = Some r /\ FilterBlockReader_new fc = Some r /\ zlen fc < 2 ^ 32
      /\ filter_block (filter_calls done off []) = Some fc /\ offsets_ok 0 (filter_calls done off [])
  end.

Lemma ReadMeta_ok : exists fr, ReadMeta o g footer = Some fr /\ filter_read fr.
Proof.
  unfold ReadMeta, filter_read. destruct (tf_meta _ _ _ _ _ TF) as (zs & ks & Hrep & Hst & Hz).
  destruct (filter_policy o) as [P|]; [|by exists None].
  destruct (Hz P eq_refl) as (fh & fc & off & Ez & Hstf & Efc & Hlen & Hoff).
  destruct (ReadBlock_stored g (open_options o) c _ _ RL Hst) as (bc & -> & Ebc). cbn [mbind option_bind Status_ok Status_OK negb]. rewrite Ebc.
  destruct (Block_new_rep zs ks Hrep) as (blk & it & -> & _ & _ & Eit & Hat). cbn [mbind option_bind].
  rewrite Eit. cbn [mbind option_bind].
  assert (Forall is_byte (filter_key P)) as Hk.
  { apply Forall_app. split; [by repeat constructor|by apply Hname]. }
  pose proof (Block_law (C := BytewiseComparator) (valid := Forall is_byte) (order := Slice_compare) zs ks Hrep) as Law.
  rewrite Ez in Law. specialize (Law ltac:(by constructor) ltac:(by intros [|i] x y)).
  destruct (seek_target (IteratorLaw := Law) _ (filter_key P) (at_live (IteratorLaw := Law) _ _ Hat) Hk)
    as (s' & i & -> & Ha & Hi & Hs). cbn [mbind option_bind].
  assert (i = 0%nat) as ->.
  { destruct i as [|i]; [done|]. pose proof (proj2 (Hs 0%nat _ eq_refl) ltac:(lia)) as Hlt. cbn [fst] in Hlt.
    rewrite Slice_compare_refl in Hlt. lia. }
  rewrite (at_valid (IteratorLaw := Law) s' 0%nat Ha), bool_decide_eq_true_2 by (simpl; lia).
  destruct (at_entry_kv (IteratorLaw := Law) s' 0%nat _ Ha eq_refl) as [-> ->]. cbn [mbind option_bind fst snd].
  assert (Slice_eqb (filter_key P) (filter_key P) = true) as -> by (by apply Slice_eqb_eq).
  destruct (ReadFilter_ok fh fc Hstf) as (fr & -> & Efr). exists (Some fr). split; [done|]. by exists fc, fr, off.
Qed.

(** The table that is opened. *)
Record opened (t : Table G) : Prop := {
  op_options : t_options t = o;
  op_file : t_file t = g;
  op_filter : filter_read (t_filter t);
  op_index : exists ys ns it, map item_kv ys = ixs /\ block_rep ys ns
    /\ Block_NewIterator (t_index_block t) = Some (BlockEntries (block_contents ys ns) it)
    /\ block_at ys ns (BlockEntries (block_contents ys ns) it) (length ys)
}.

Lemma Table_Open_ok cache_id :
  exists t, Table_Open o g (zlen c) cache_id = Some (Status_OK, Some t) /\ opened t /\ t_cache_id t = cache_id.
Proof.
  unfold Table_Open. destruct (tf_footer _ _ _ _ _ TF) as [body Ec]. destruct (tf_handles _ _ _ _ _ TF) as [Hm Hi].
  pose proof (footer_bytes_length footer) as Hl. change Footer_kEncodedLength with 48.
  assert (zlen c = zlen body + 48) as Hc by (rewrite Ec, zlen_app; lia). rewrite (proj2 (Z.ltb_ge _ _)) by lia.
  destruct (Random_Read_ok (zlen c - 48) 48) as (own & ->); [lia|lia|lia|]. cbn [Status_ok Status_OK negb].
  assert (take (Z.to_nat 48) (drop (Z.to_nat (zlen c - 48)) c) = footer_bytes footer ++ []) as ->.
  { rewrite Hc, Ec, drop_app_length' by lia. by rewrite app_nil_r, take_ge by lia. }
  rewrite (Footer_DecodeFrom_ok footer Footer_new []) by done. cbn [mbind option_bind Status_ok Status_OK negb].
  destruct (tf_index _ _ _ _ _ TF) as (ys & ns & Ey & Hrep & Hst).
  destruct (ReadBlock_stored g (open_options o) c _ _ RL Hst) as (bc & -> & Ebc). cbn [mbind option_bind Status_ok Status_OK negb]. rewrite Ebc.
  destruct (Block_new_rep ys ns Hrep) as (blk & it & -> & _ & _ & Eit & Hat). cbn [mbind option_bind].
  destruct ReadMeta_ok as (fr & -> & Hfr). cbn [mbind option_bind]. eexists. split; [done|].
  split; [|done]. split; cbn [t_options t_file t_filter t_index_block]; [done|done|done|]. by exists ys, ns, it.
Qed.

(** ** Blocks *)

(** What the cache gives for a key is the block of the file. *)
Definition cache_coherent (cache : option (bytes -> option Block)) (t : Table G) : Prop :=
  forall lookup h data blk, cache = Some lookup -> stores c h data -> lookup (cache_key t h) = Some blk ->
    Block_new data = Some blk.

(** That is needed of the blocks of the entries only. *)
Definition blocks_coherent (cache : option (bytes -> option Block)) (t : Table G) : Prop :=
  forall lookup b blk, cache = Some lookup -> b ∈ done -> lookup (cache_key t (wb_handle b)) = Some blk ->
    Block_new (wb_contents b) = Some blk.

Lemma coherent_blocks cache t : cache_coherent cache t -> blocks_coherent cache t.
Proof.
  intros H lookup b blk E Hb. destruct (proj1 (Forall_forall _ _) (tf_blocks _ _ _ _ _ TF) b Hb) as (_ & _ & Hst). by apply (H lookup).
Qed.

(** Blocks of one file have different keys in the cache. *)
Lemma block_offset_inj b b' : b ∈ done -> b' ∈ done -> bh_offset (wb_handle b) = bh_offset (wb_handle b') -> b = b'.
Proof.
  intros [i Hi]%list_elem_of_lookup [j Hj]%list_elem_of_lookup E. assert (i = j) as ->; [|congruence].
  apply (NoDup_lookup _ i j (bh_offset (wb_handle b)) (tf_nodup _ _ _ _ _ TF));
    change (@map ?A ?B ?f done) with (f <$> done); rewrite list_lookup_fmap; [by rewrite Hi|by rewrite Hj, E].
Qed.

Lemma BlockReader_ok cache t options b :
  opened t -> blocks_coherent cache t -> b ∈ done ->
  exists it inserted, BlockReader cache t options (handle_bytes (wb_handle b))
      = Some (BlockEntries (wb_contents b) it, inserted)
    /\ block_at (wb_items b) (wb_restarts b) (BlockEntries (wb_contents b) it) (length (wb_items b))
    /\ forall key blk, inserted = Some (key, blk) -> key = cache_key t (wb_handle b) /\ Block_new (wb_contents b) = Some blk.
Proof.
  intros Ht Hcache Hb. destruct (proj1 (Forall_forall _ _) (tf_blocks _ _ _ _ _ TF) b Hb) as (_ & Hrep & Hst).
  destruct (Block_new_rep _ _ Hrep) as (blk & it & Eb & _ & _ & Eit & Hat). fold (wb_contents b) in Eb, Eit, Hat.
  unfold BlockReader. rewrite <- (app_nil_r (handle_bytes _)), BlockHandle_DecodeFrom_ok by apply Hst.
  cbn [Status_ok Status_OK negb]. destruct (lookup ← cache; lookup (cache_key t (wb_handle b))) as [blk'|] eqn:El.
  - destruct cache as [lookup|]; [|done]. cbn [mbind option_bind] in El.
    pose proof (Hcache lookup _ _ eq_refl Hb El) as E'. assert (blk' = blk) as -> by congruence.
    rewrite Eit. cbn [mbind option_bind]. by exists it, None.
  - rewrite (op_file _ Ht). destruct (ReadBlock_stored g options c _ _ RL Hst) as (bc & -> & Ebc).
    cbn [mbind option_bind Status_ok Status_OK negb]. rewrite Ebc. rewrite Eb. cbn [mbind option_bind]. rewrite Eit.
    cbn [mbind option_bind]. eexists it, _. split; [done|]. split; [done|]. intros key blk'.
    destruct (_ && _ && _); [|done]. by intros [= <- <-].
Qed.

(** ** The iterator *)
Lemma done_valid b : b ∈ done -> Forall (fun kv => valid kv.1) (wb_kvs b) /\ ascending order (wb_kvs b).
Proof.
  intros Hb. destruct (tf_valid _ _ _ _ _ TF) as (Hv & Ha & _). apply list_elem_of_lookup in Hb as [i Hi].
  assert (map wb_kvs done !! i = Some (wb_kvs b)) as Hi' by (change (map wb_kvs done) with (wb_kvs <$> done); by rewrite list_lookup_fmap, Hi).
  assert (forall j kv, wb_kvs b !! j = Some kv -> kvs !! (base (map wb_kvs done) i + j)%nat = Some kv) as Hj.
  { intros j kv Hkv. unfold wb_entries. rewrite (base_entry _ i _ j Hi'); [done|]. by apply lookup_lt_Some in Hkv. }
  split.
  - apply Forall_lookup. intros j kv Hkv. exact (proj1 (proj1 (Forall_lookup _ _) Hv _ _ (Hj j kv Hkv))).
  - intros j x y Hx Hy. apply (Ha _ _ _ (Hj _ _ Hx)). rewrite <- Nat.add_succ_r. by apply Hj.
Qed.

Definition done_live (i : nat) (s : BlockIterator) : Prop :=
  match done !! i with Some b => block_live (wb_items b) (wb_restarts b) s | None => False end.
Definition done_at (i : nat) (s : BlockIterator) (j : nat) : Prop :=
  match done !! i with Some b => block_at (wb_items b) (wb_restarts b) s j | None => False end.

Lemma done_law i l :
  map wb_kvs done !! i = Some l ->
  IteratorLaw valid order (Block_Iterator (comparator o)) l (done_live i) (done_at i).
Proof.
  change (map wb_kvs done) with (wb_kvs <$> done). intros Hi. apply list_lookup_fmap_Some in Hi as (b & -> & Hb).
  unfold done_live, done_at. rewrite Hb.
  assert (b ∈ done) as Hin by (apply list_elem_of_lookup; by exists i).
  destruct (done_valid b Hin) as [Hv Ha]. destruct (proj1 (Forall_forall _ _) (tf_blocks _ _ _ _ _ TF) b Hin) as (_ & Hrep & _).
  by apply (Block_law (wb_items b) (wb_restarts b) Hrep).
Qed.

(** Entries of blocks are where the index says. *)
Lemma later_entry i j b kv : done !! j = Some b -> kv ∈ wb_kvs b -> (i < j)%nat -> kv ∈ later done [] i.
Proof.
  intros Hj Hkv Hlt. unfold later. rewrite app_nil_r. unfold wb_entries. apply list_elem_of_In, in_concat.
  exists (wb_kvs b). split; [|by apply list_elem_of_In]. apply in_map, list_elem_of_In, list_elem_of_lookup.
  exists (j - S i)%nat. rewrite lookup_drop. by replace (S i + (j - S i))%nat with j by lia.
Qed.

Lemma index_ascending : ascending order ixs.
Proof.
  destruct (tf_index_ok _ _ _ _ _ TF) as [IX Hl]. intros i x y Hx Hy.
  destruct (ix_handle IX _ _ Hy) as (b & Hb & _).
  assert (b ∈ done) as Hin by (apply list_elem_of_lookup; by eexists).
  destruct (proj1 (Forall_forall _ _) (tf_blocks _ _ _ _ _ TF) b Hin) as (Hne & _ & _).
  destruct (wb_kvs b) as [|kv l] eqn:Ek; [unfold wb_kvs in Ek; by destruct (wb_items b)|].
  assert (kv ∈ wb_kvs b) as Hkv by (rewrite Ek; set_solver).
  pose proof (proj1 (Forall_lookup _ _) (ix_valid IX)) as Hv.
  apply (order_lt_le_trans (compare := Compare (Comparator := comparator o)) _ kv.1); [by apply (Hv i)|..|by apply (Hv (S i))| |].
  - destruct (done_valid b Hin) as [Hvb _]. exact (proj1 (Forall_forall _ _) Hvb kv Hkv).
  - apply (ix_before IX i); [done|]. apply (later_entry i (S i) b); [done|done|lia].
  - by apply (ix_after IX (S i) y b).
Qed.

Lemma index_handles_NoDup : NoDup ixs.*2.
Proof.
  destruct (tf_index_ok _ _ _ _ _ TF) as [IX _]. apply NoDup_alt. intros i j h Hi Hj.
  apply list_lookup_fmap_Some in Hi as (x & -> & Hx). apply list_lookup_fmap_Some in Hj as (y & E & Hy).
  destruct (ix_handle IX _ _ Hx) as (b & Hb & Eb). destruct (ix_handle IX _ _ Hy) as (b' & Hb' & Eb').
  assert (forall i b, done !! i = Some b -> handle_ok (wb_handle b)) as Hok.
  { intros i' b0 Hb0. pose proof (proj1 (Forall_lookup _ _) (tf_blocks _ _ _ _ _ TF) _ _ Hb0) as (_ & _ & [? _]). done. }
  assert (wb_handle b = wb_handle b') as Eh by (apply handle_bytes_inj; [by eapply Hok|by eapply Hok|congruence]).
  apply (NoDup_lookup _ i j (bh_offset (wb_handle b)) (tf_nodup _ _ _ _ _ TF));
    change (@map ?A ?B ?f done) with (f <$> done); rewrite list_lookup_fmap; [by rewrite Hb|by rewrite Hb', Eh].
Qed.

Lemma table_block_ok cache t options i ix :
  opened t -> blocks_coherent cache t -> ixs !! i = Some ix ->
  exists s j, table_block cache t options ix.2 = Some s /\ done_at i s j.
Proof.
  intros Ht Hcache Hi. destruct (tf_index_ok _ _ _ _ _ TF) as [IX _].
  destruct (ix_handle IX _ _ Hi) as (b & Hb & Eb).
  destruct (BlockReader_ok cache t options b Ht Hcache) as (it & ins & E & Hat & _); [apply list_elem_of_lookup; by eexists|].
  unfold table_block. rewrite Eb, E. cbn [fmap option_fmap option_map fst]. eexists _, _. split; [done|].
  unfold done_at. rewrite Hb. exact Hat.
Qed.

(** The laws of the index and of the concatenation of the blocks. *)
Lemma index_law ys ns :
  map item_kv ys = ixs -> block_rep ys ns ->
  IteratorLaw valid order (Block_Iterator (comparator o)) ixs (block_live ys ns) (block_at ys ns).
Proof.
  intros Ey Hrep. destruct (tf_index_ok _ _ _ _ _ TF) as [IX _]. rewrite <- Ey.
  apply (Block_law ys ns Hrep); rewrite Ey; [exact (ix_valid IX)|exact index_ascending].
Qed.

Lemma done_length : (length done <= length kvs)%nat.
Proof.
  assert (forall d, Forall (fun b => wb_items b <> []) d -> (length d <= length (wb_entries d))%nat) as H.
  { intros d Hd. induction Hd as [|b d Hb Hd IH]; [done|].
    change (wb_entries (b :: d)) with (wb_kvs b ++ wb_entries d). rewrite length_app. unfold wb_kvs. rewrite length_map.
    destruct (wb_items b); [done|]. simpl in *. lia. }
  apply H. eapply Forall_impl; [exact (tf_blocks _ _ _ _ _ TF)|]. by intros b [? _].
Qed.

Lemma Table_iterates fuel cache t options :
  opened t -> blocks_coherent cache t -> (length kvs < fuel)%nat ->
  exists it, Table_NewIterator t = Some it
    /\ Valid (Iterator := Table_Iterator fuel cache t options) it = false
    /\ iterates valid order (Table_Iterator fuel cache t options) kvs it.
Proof.
  intros Ht Hcache Hfuel. destruct (op_index _ Ht) as (ys & ns & it0 & Ey & Hrep & Eit & Hat).
  pose proof (index_law ys ns Ey Hrep) as IL. destruct (tf_index_ok _ _ _ _ _ TF) as [IX Hl].
  assert (length ixs = length (map wb_kvs done)) as Hlen by (by rewrite length_map). pose proof done_length.
  unfold Table_NewIterator, Table_Iterator. rewrite (op_options _ Ht), Eit. cbn [mbind option_bind].
  destruct (NewTwoLevelIterator_ok (IL := IL) (DI := Block_Iterator (comparator o)) ixs (block_live ys ns) (block_at ys ns) done_live _ _ Hat)
    as (it & E & Hlive & Hval).
  exists it. split; [exact E|]. split; [exact Hval|]. eexists _, _. split; [|exact Hlive].
  assert (forall i l, map wb_kvs done !! i = Some l -> exists b, done !! i = Some b /\ l = wb_kvs b) as Hb.
  { change (map wb_kvs done) with (wb_kvs <$> done). intros i l Hi.
    apply list_lookup_fmap_Some in Hi as (b & -> & Hb). by exists b. }
  apply (TwoLevel_law (compare := Compare (Comparator := comparator o)) (IL := IL) (table_block cache t options) fuel ixs (map wb_kvs done)
           (block_live ys ns) (block_at ys ns) done_live done_at Hlen); [lia|exact done_law| | | | | |].
  - intros i ix Hi. by apply table_block_ok.
  - exact index_handles_NoDup.
  - destruct (tf_valid _ _ _ _ _ TF) as (Hv & _). eapply Forall_impl; [exact Hv|]. by intros ? [? _].
  - exact (ix_valid IX).
  - intros i ix l kv Hi Hl' Hkv. destruct (Hb i l Hl') as (b & Hb' & ->). by apply (ix_after IX i ix b).
  - intros i j ix l kv Hi Hl' Hlt Hkv. destruct (Hb j l Hl') as (b & Hb' & ->). apply (ix_before IX i); [done|].
    by apply (later_entry i j b).
Qed.

(** ** Lookups *)

(** The filter does not rule out a key of the block. *)
Lemma filter_allows t i b kv :
  opened t -> done !! i = Some b -> kv ∈ wb_kvs b ->
  match filter_policy o, t_filter t with
  | Some P, Some fr => FilterBlockReader_KeyMayMatch fr (bh_offset (wb_handle b)) kv.1 = Some true
  | _, _ => True
  end.
Proof.
  intros Ht Hb Hkv. pose proof (op_filter _ Ht) as Hf. unfold filter_read in Hf.
  destruct (policy_cases (filter_policy o)) as [[P EP]|EP]; rewrite EP in Hf |- *; [|done].
  destruct Hf as (fc & fr & off & -> & Efr & Hlen & Efc & Hoff). pose proof (Hpolicy P EP) as PL.
  destruct (tf_valid _ _ _ _ _ TF) as (Hv & _ & Hw). pose proof (weight_length kvs).
  destruct (filter_block_matches (P := P) (filter_calls done off []) Hoff) as (fc' & Efc' & Hmatch).
  - apply filter_calls_valid. by rewrite app_nil_r.
  - rewrite key_count_calls, app_nil_r. lia.
  - assert (fc' = fc) as -> by congruence. specialize (Hmatch Hlen (bh_offset (wb_handle b)) ((wb_kvs b).*1) kv.1).
    rewrite Efr in Hmatch. apply Hmatch.
    + unfold filter_calls. apply elem_of_app. left. apply list_elem_of_In, in_map_iff. exists b. split; [done|].
      apply list_elem_of_In, list_elem_of_lookup. by exists i.
    + apply list_elem_of_fmap. by exists kv.
Qed.

(** The index leads to the block of a key. *)
Lemma index_splits i b k v : done !! i = Some b -> (k, v) ∈ wb_kvs b -> splits_at order ixs k i.
Proof.
  intros Hi Hkv. destruct (tf_index_ok _ _ _ _ _ TF) as [IX Hlen].
  assert (b ∈ done) as Hb by (apply list_elem_of_lookup; by exists i).
  destruct (done_valid b Hb) as [Hvb _]. pose proof (proj1 (Forall_forall _ _) Hvb _ Hkv) as Hvk. cbn [fst] in Hvk.
  split; [apply lookup_lt_Some in Hi; lia|]. intros j ix Hj.
  pose proof (proj1 (Forall_lookup _ _) (ix_valid IX) j ix Hj) as Hvi. cbv beta in Hvi.
  split; [|intros Hlt; apply (ix_before IX j ix (k, v) Hj); by apply (later_entry j i b)].
  intros Ho. destruct (Nat.lt_ge_cases j i) as [|Hge]; [done|exfalso].
  assert (order k ix.1 <= 0) as Hle.
  { destruct (decide (j = i)) as [->|Hne]; [by apply (ix_after IX i ix b (k, v))|].
    destruct (lookup_lt_is_Some_2 ixs i) as [ix0 Hi0]; [apply lookup_lt_Some in Hj; lia|].
    assert (order ix0.1 ix.1 < 0) as Hlt.
    { apply (ascending_lt (compare := Compare (Comparator := comparator o)) ixs i j ix0 ix index_ascending
        (ix_valid IX) Hi0 Hj). lia. }
    pose proof (ix_after IX i ix0 b (k, v) Hi0 Hi Hkv) as H0. cbn [fst] in H0.
    assert (order k ix.1 < 0); [|lia].
    apply (order_le_lt_trans (compare := Compare (Comparator := comparator o)) k ix0.1 ix.1); [done| |done|done|done].
    exact (proj1 (Forall_lookup _ _) (ix_valid IX) i ix0 Hi0). }
  pose proof (order_sym (compare := Compare (Comparator := comparator o)) k ix.1 Hvk Hvi). lia.
Qed.

Lemma InternalGet_ok cache t options k v :
  opened t -> blocks_coherent cache t -> (k, v) ∈ kvs ->
  exists inserted, InternalGet cache t options k = Some (Status_OK, Some (k, v), inserted).
Proof.
  intros Ht Hcache Hkv. unfold wb_entries in Hkv. apply list_elem_of_In, in_concat in Hkv as (l & Hl & Hkv).
  apply list_elem_of_In in Hkv. apply in_map_iff in Hl as (b & <- & Hb). apply list_elem_of_In in Hb.
  pose proof Hb as Hb'. apply list_elem_of_lookup in Hb' as [i Hi].
  destruct (done_valid b Hb) as [Hvb Hab]. pose proof (proj1 (Forall_forall _ _) Hvb _ Hkv) as Hvk. cbn [fst] in Hvk.
  destruct (op_index _ Ht) as (ys & ns & it0 & Ey & Hrep & Eit & Hat). pose proof (index_law ys ns Ey Hrep) as IL.
  destruct (tf_index_ok _ _ _ _ _ TF) as [IX Hlen].
  unfold InternalGet. rewrite (op_options _ Ht), Eit. cbn [mbind option_bind].
  destruct (seek_target (IteratorLaw := IL) _ k (at_live (IteratorLaw := IL) _ _ Hat) Hvk) as (s1 & i' & -> & Ha1 & Hi1 & Hs1).
  cbn [mbind option_bind].
  destruct (lookup_lt_is_Some_2 ixs i) as [ix Hix]; [apply lookup_lt_Some in Hi; lia|].
  pose proof (splits_at_unique _ _ _ _ _ (conj Hi1 Hs1) (index_splits i b k v Hi Hkv)) as ->.
  rewrite (at_valid (IteratorLaw := IL) s1 i Ha1), bool_decide_eq_true_2 by (by apply lookup_lt_Some in Hix).
  destruct (at_entry_kv (IteratorLaw := IL) s1 i ix Ha1 Hix) as [_ ->]. cbn [mbind option_bind].
  destruct (ix_handle IX _ _ Hix) as (b' & Hb' & Eb). assert (b' = b) as -> by congruence. rewrite Eb.
  pose proof (proj1 (Forall_forall _ _) (tf_blocks _ _ _ _ _ TF) b Hb) as (_ & Hrepb & Hst).
  assert (BlockHandle_DecodeFrom BlockHandle_new (handle_bytes (wb_handle b)) = (Status_OK, wb_handle b, [])) as ->.
  { rewrite <- (app_nil_r (handle_bytes _)). apply BlockHandle_DecodeFrom_ok, Hst. }
  pose proof (filter_allows t i b (k, v) Ht Hi Hkv) as Hfil.
  set (absent := match filter_policy o with Some P => _ | None => _ end).
  assert (absent = Some false) as ->.
  { unfold absent. destruct (filter_policy o); [|done]. destruct (t_filter t); [|done].
    cbn [Status_ok Status_OK]. cbn [fst] in Hfil. by rewrite Hfil. }
  cbn [mbind option_bind].
  destruct (BlockReader_ok cache t options b Ht Hcache Hb) as (itb & ins & -> & Hatb & _). cbn [mbind option_bind].
  pose proof (Block_law (C := comparator o) (wb_items b) (wb_restarts b) Hrepb Hvb Hab) as BL. fold (wb_kvs b) in BL.
  destruct (seek_target (IteratorLaw := BL) _ k (at_live (IteratorLaw := BL) _ _ Hatb) Hvk) as (s2 & j & -> & Ha2 & Hj & Hs2).
  cbn [mbind option_bind]. apply list_elem_of_lookup in Hkv as [j0 Hj0].
  pose proof (ascending_splits (compare := Compare (Comparator := comparator o)) (wb_kvs b) j0 (k, v) Hab Hvb Hj0) as Hs0.
  pose proof (splits_at_unique _ _ _ _ _ (conj Hj Hs2) Hs0) as ->.
  rewrite (at_valid (IteratorLaw := BL) s2 j0 Ha2), bool_decide_eq_true_2 by (by apply lookup_lt_Some in Hj0).
  destruct (at_entry_kv (IteratorLaw := BL) s2 j0 _ Ha2 Hj0) as [-> ->]. cbn [mbind option_bind fst snd].
  rewrite (at_status (IteratorLaw := BL) s2 (at_live (IteratorLaw := BL) _ _ Ha2)). cbn [mbind option_bind Status_ok Status_OK].
  rewrite (at_status (IteratorLaw := IL) s1 (at_live (IteratorLaw := IL) _ _ Ha1)). cbn [mbind option_bind].
  by exists ins.
Qed.

(** ** Any key *)

(** [same k k']: a lookup of [k] is meant to find the key [k'].  The filter does
    not tell them apart, and no separator is put between them. *)
Record lookup_scope (same : bytes -> bytes -> Prop) : Prop := {
  scope_total P k f : filter_policy o = Some P -> valid k -> is_Some (KeyMayMatch (FilterPolicy := P) k f);
  scope_filter P k k' f : filter_policy o = Some P -> same k k' -> valid k -> valid k' ->
    KeyMayMatch (FilterPolicy := P) k f = KeyMayMatch (FilterPolicy := P) k' f;
  scope_separator start limit sep k :
    valid start -> valid limit -> valid k -> order start limit < 0 ->
    FindShortestSeparator (Comparator := comparator o) start limit = Some sep ->
    order start k < 0 -> order k sep <= 0 -> same k limit -> False
}.

Context (same : bytes -> bytes -> Prop) (SC : lookup_scope same).

(** The filter rules a key of the scope out only if the block does not have it. *)
Lemma filter_answer t i b k :
  opened t -> done !! i = Some b -> wb_kvs b <> [] -> valid k ->
  exists absent,
    (match filter_policy o, t_filter t with
     | Some P, Some filter =>
         if Status_ok Status_OK
         then may ← FilterBlockReader_KeyMayMatch filter (bh_offset (wb_handle b)) k; Some (negb may) else Some false
     | _, _ => Some false
     end) = Some absent
    /\ (absent = true -> forall kv, kv ∈ wb_kvs b -> ~ same k kv.1).
Proof.
  intros Ht Hi Hne Hk. cbn [Status_ok Status_OK].
  assert (forall kv, kv ∈ wb_kvs b -> valid kv.1) as Hv.
  { destruct (done_valid b) as [Hv _]; [apply list_elem_of_lookup; by exists i|]. by apply Forall_forall. }
  destruct (policy_cases (filter_policy o)) as [[P EP]|EP].
  2: { rewrite EP. by exists false. }
  pose proof (fun kv => filter_allows t i b kv Ht Hi) as Hallow. rewrite EP in Hallow |- *.
  destruct (t_filter t) as [fr|]; [|by exists false].
  assert (forall kv, kv ∈ wb_kvs b -> exists may, FilterBlockReader_KeyMayMatch fr (bh_offset (wb_handle b)) k = Some may
            /\ (may = false -> ~ same k kv.1)) as H.
  { intros kv Hkv. specialize (Hallow kv Hkv). unfold FilterBlockReader_KeyMayMatch in *.
    destruct (64 <=? base_lg_ fr); [done|]. cbv zeta in *. destruct (_ <? num_ fr); [|by exists true].
    destruct (data_ fr) as [data|]; cbn [mbind option_bind] in *; [|done].
    destruct (DecodeFixed32 (drop (Z.to_nat (offset_ fr + _ * 4)) data)) as [start|]; cbn [mbind option_bind] in *; [|done].
    destruct (DecodeFixed32 _) as [limit|]; cbn [mbind option_bind] in *; [|done].
    destruct (_ && _).
    - destruct (subslice data start (limit - start)) as [f|]; cbn [mbind option_bind] in *; [|done].
      destruct (scope_total same SC P k f EP Hk) as [may Hmay]. exists may. split; [done|]. intros -> Hsame.
      rewrite (scope_filter same SC P k kv.1 f EP Hsame Hk (Hv kv Hkv)) in Hmay. congruence.
    - destruct (start =? limit); [done|]. by exists true. }
  destruct (wb_kvs b) as [|kv0 l] eqn:Ekv; [done|]. destruct (H kv0 ltac:(set_solver)) as (may & Emay & _).
  rewrite Emay. cbn [mbind option_bind]. exists (negb may). split; [done|]. intros Hmay kv Hkv.
  destruct (H kv Hkv) as (may' & E' & Hs). apply Hs. assert (may' = may) as -> by congruence. by destruct may.
Qed.

(** The result of a lookup: the first entry that is not before the key, or
    nothing if that is not what the key is meant to find. *)
Definition lookup_result (k : bytes) (result : option (bytes * bytes)) : Prop :=
  exists i, splits_at order kvs k i
    /\ match result with
       | Some kv => kvs !! i = Some kv
       | None => forall kv, kvs !! i = Some kv -> ~ same k kv.1
       end.

(** The index and the block give the place of the key. *)
Lemma place_in_block k n ix b j :
  valid k -> splits_at order ixs k n -> ixs !! n = Some ix -> done !! n = Some b ->
  splits_at order (wb_kvs b) k j -> splits_at order kvs k (base (map wb_kvs done) n + j)%nat.
Proof.
  intros Hk Hc Hix Hb Hj. destruct (tf_index_ok _ _ _ _ _ TF) as [IX Hl].
  assert (length ixs = length (map wb_kvs done)) as Hlen by (by rewrite length_map).
  assert (forall i l, map wb_kvs done !! i = Some l -> exists b, done !! i = Some b /\ l = wb_kvs b) as Hbl.
  { change (map wb_kvs done) with (wb_kvs <$> done). intros i l Hi.
    apply list_lookup_fmap_Some in Hi as (b' & -> & Hb'). by exists b'. }
  destruct (tf_valid _ _ _ _ _ TF) as (Hv & _).
  apply (splits_concat (compare := Compare (Comparator := comparator o)) (S (length ixs)) ixs (map wb_kvs done) Hlen
           (Nat.lt_succ_diag_r _)) with n j; try done.
  - eapply Forall_impl; [exact Hv|]. by intros ? [? _].
  - exact (ix_valid IX).
  - intros i ix' l kv Hi Hl' Hkv. destruct (Hbl i l Hl') as (b' & Hb' & ->). by apply (ix_after IX i ix' b').
  - intros i i' ix' l kv Hi Hl' Hlt Hkv. destruct (Hbl i' l Hl') as (b' & Hb' & ->). apply (ix_before IX i); [done|].
    by apply (later_entry i i' b').
  - intros l Hl'. destruct (Hbl n l Hl') as (b' & Hb' & ->). assert (b' = b) as -> by congruence. done.
  - intros ->. apply lookup_lt_Some in Hix. lia.
Qed.

(** Past the last entry of its block, the key is before the first entry of the
    next, and a separator is between. *)
Lemma past_block k n ix b kv :
  valid k -> splits_at order ixs k n -> ixs !! n = Some ix -> done !! n = Some b ->
  splits_at order (wb_kvs b) k (length (wb_kvs b)) ->
  kvs !! (base (map wb_kvs done) n + length (wb_kvs b))%nat = Some kv -> ~ same k kv.1.
Proof.
  intros Hk [Hn Hs] Hix Hb [_ Hj] Hkv Hsame. destruct (tf_index_ok _ _ _ _ _ TF) as [IX Hl].
  assert (map wb_kvs done !! n = Some (wb_kvs b)) as Hb' by (change (map wb_kvs done) with (wb_kvs <$> done); by rewrite list_lookup_fmap, Hb).
  assert (head (later done [] n) = Some kv) as Hhead.
  { unfold wb_entries in Hkv. rewrite (concat_around _ n _ Hb') in Hkv. unfold base in Hkv.
    rewrite lookup_app_r in Hkv by lia. rewrite Nat.add_comm, Nat.add_sub in Hkv.
    rewrite lookup_app_r, Nat.sub_diag in Hkv by lia. unfold later. rewrite app_nil_r. unfold wb_entries.
    change (map wb_kvs (drop (S n) done)) with (wb_kvs <$> drop (S n) done).
    rewrite fmap_drop. by rewrite <- head_lookup in Hkv. }
  destruct (ix_sep IX n ix kv Hix Hhead) as (b' & l & Hb2 & Hlast & Hsep). assert (b' = b) as -> by congruence.
  assert (l ∈ wb_kvs b) as Hin by (apply last_Some in Hlast as [l' ->]; set_solver).
  destruct (done_valid b) as [Hvb _]; [apply list_elem_of_lookup; by exists n|].
  destruct (tf_valid _ _ _ _ _ TF) as (Hv & _).
  assert (valid l.1) as Hvl by exact (proj1 (Forall_forall _ _) Hvb l Hin).
  assert (valid kv.1) as Hvk by exact (proj1 (proj1 (Forall_lookup _ _) Hv _ _ Hkv)).
  assert (valid ix.1) as Hvi by exact (proj1 (Forall_lookup _ _) (ix_valid IX) n ix Hix).
  assert (kv ∈ later done [] n) as Hlater by (destruct (later done [] n); [done|injection Hhead as ->; set_solver]).
  apply (scope_separator same SC l.1 kv.1 ix.1 k Hvl Hvk Hk); [| exact Hsep| | |exact Hsame].
  - apply (order_le_lt_trans (compare := Compare (Comparator := comparator o)) _ ix.1); [done..| |].
    + by apply (ix_after IX n ix b).
    + by apply (ix_before IX n).
  - rewrite last_lookup in Hlast. apply (Hj _ l Hlast). apply lookup_lt_Some in Hlast. done.
  - apply (order_le_flip (compare := Compare (Comparator := comparator o))); [done..|].
    destruct (Z.lt_ge_cases (order ix.1 k) 0) as [Hlt|]; [|done]. pose proof (proj1 (Hs n ix Hix) Hlt). lia.
Qed.

Lemma InternalGet_lookup cache t options k :
  opened t -> blocks_coherent cache t -> valid k ->
  exists result inserted, InternalGet cache t options k = Some (Status_OK, result, inserted) /\ lookup_result k result
    /\ forall key blk, inserted = Some (key, blk) -> exists b, b ∈ done /\ key = cache_key t (wb_handle b) /\ Block_new (wb_contents b) = Some blk.
Proof.
  intros Ht Hcache Hk.
  destruct (op_index _ Ht) as (ys & ns & it0 & Ey & Hrep & Eit & Hat). pose proof (index_law ys ns Ey Hrep) as IL.
  destruct (tf_index_ok _ _ _ _ _ TF) as [IX Hlen]. destruct (tf_valid _ _ _ _ _ TF) as (Hv & _).
  unfold InternalGet. rewrite (op_options _ Ht), Eit. cbn [mbind option_bind].
  destruct (seek_target (IteratorLaw := IL) _ k (at_live (IteratorLaw := IL) _ _ Hat) Hk) as (s1 & n & -> & Ha1 & Hn).
  cbn [mbind option_bind]. rewrite (at_valid (IteratorLaw := IL) s1 n Ha1).
  pose proof (at_status (IteratorLaw := IL) s1 (at_live (IteratorLaw := IL) _ _ Ha1)) as Est1.
  case_bool_decide as Hlt.
  2: { cbn [mbind option_bind Status_ok Status_OK]. rewrite Est1. cbn [mbind option_bind]. exists None, None.
       split; [done|]. split; [|done]. exists (length kvs). destruct Hn as [Hn1 Hn2].
       split; [|intros kv Hkv; apply lookup_lt_Some in Hkv; lia]. split; [done|]. intros p kv Hp.
       split; [by apply lookup_lt_Some in Hp|]. intros _. unfold wb_entries in Hp.
       destruct (entry_block_of _ p kv Hp) as (i & l & j & Hi & Hj & _).
       change (map wb_kvs done) with (wb_kvs <$> done) in Hi. apply list_lookup_fmap_Some in Hi as (b & -> & Hb).
       destruct (lookup_lt_is_Some_2 ixs i) as [ix Hix]; [apply lookup_lt_Some in Hb; lia|].
       apply (order_le_lt_trans (compare := Compare (Comparator := comparator o)) _ ix.1).
       - exact (proj1 (proj1 (Forall_lookup _ _) Hv _ _ Hp)).
       - exact (proj1 (Forall_lookup _ _) (ix_valid IX) i ix Hix).
       - done.
       - apply (ix_after IX i ix b); [done..|]. apply list_elem_of_lookup. by exists j.
       - apply (Hn2 i ix Hix). apply lookup_lt_Some in Hix. lia. }
  destruct (lookup_lt_is_Some_2 ixs n Hlt) as [ix Hix].
  destruct (at_entry_kv (IteratorLaw := IL) s1 n ix Ha1 Hix) as [_ ->]. cbn [mbind option_bind].
  destruct (ix_handle IX _ _ Hix) as (b & Hb & Eb). rewrite Eb. assert (b ∈ done) as Hbin by (apply list_elem_of_lookup; by exists n).
  pose proof (proj1 (Forall_forall _ _) (tf_blocks _ _ _ _ _ TF) b Hbin) as (Hne & Hrepb & Hst).
  assert (wb_kvs b <> []) as Hnek by (unfold wb_kvs; by destruct (wb_items b)).
  destruct (done_valid b Hbin) as [Hvb Hab].
  assert (BlockHandle_DecodeFrom BlockHandle_new (handle_bytes (wb_handle b)) = (Status_OK, wb_handle b, [])) as ->.
  { rewrite <- (app_nil_r (handle_bytes _)). apply BlockHandle_DecodeFrom_ok, Hst. }
  destruct (filter_answer t n b k Ht Hb Hnek Hk) as (absent & Eabs & Habs).
  set (answer := match filter_policy o with Some P => _ | None => _ end).
  assert (answer = Some absent) as -> by exact Eabs. cbn [mbind option_bind].
  destruct (splits_at_exists (compare := Compare (Comparator := comparator o)) (wb_kvs b) k Hab Hvb Hk) as [j Hj].
  pose proof (place_in_block k n ix b j Hk Hn Hix Hb Hj) as Hplace.
  assert (map wb_kvs done !! n = Some (wb_kvs b)) as Hb' by (change (map wb_kvs done) with (wb_kvs <$> done); by rewrite list_lookup_fmap, Hb).
  assert ((j < length (wb_kvs b))%nat -> kvs !! (base (map wb_kvs done) n + j)%nat = wb_kvs b !! j) as Hentry
    by (intros; by apply base_entry).
  assert (length (wb_kvs b) <= j -> forall kv, kvs !! (base (map wb_kvs done) n + j)%nat = Some kv -> ~ same k kv.1)%nat as Hpast.
  { intros Hge kv Hkv. pose proof (proj1 Hj). assert (j = length (wb_kvs b)) as -> by lia. by apply (past_block k n ix b kv). }
  destruct absent.
  - cbn [mbind option_bind Status_ok Status_OK]. rewrite Est1. cbn [mbind option_bind]. exists None, None.
    split; [done|]. split; [|done]. eexists. split; [exact Hplace|]. intros kv Hkv. destruct (Nat.lt_ge_cases j (length (wb_kvs b))) as [Hjl|]; [|by apply Hpast].
    apply Habs; [done|]. apply list_elem_of_lookup. exists j. by rewrite <- Hentry.
  - destruct (BlockReader_ok cache t options b Ht Hcache Hbin) as (itb & ins & -> & Hatb & Hins). cbn [mbind option_bind].
    assert (forall key blk, ins = Some (key, blk) -> exists b, b ∈ done /\ key = cache_key t (wb_handle b) /\ Block_new (wb_contents b) = Some blk) as Hins'
      by (intros key blk E; destruct (Hins key blk E) as [-> Eb']; by exists b).
    pose proof (Block_law (C := comparator o) (wb_items b) (wb_restarts b) Hrepb Hvb Hab) as BL. fold (wb_kvs b) in BL.
    destruct (seek_target (IteratorLaw := BL) _ k (at_live (IteratorLaw := BL) _ _ Hatb) Hk) as (s2 & j2 & -> & Ha2 & Hj2).
    cbn [mbind option_bind]. pose proof (splits_at_unique _ _ _ _ _ Hj2 Hj) as ->.
    rewrite (at_valid (IteratorLaw := BL) s2 j Ha2).
    pose proof (at_status (IteratorLaw := BL) s2 (at_live (IteratorLaw := BL) _ _ Ha2)) as Est2.
    case_bool_decide as Hjl.
    + destruct (lookup_lt_is_Some_2 (wb_kvs b) j Hjl) as [kv Hkv].
      destruct (at_entry_kv (IteratorLaw := BL) s2 j kv Ha2 Hkv) as [-> ->]. cbn [mbind option_bind].
      rewrite Est2. cbn [mbind option_bind Status_ok Status_OK]. rewrite Est1. cbn [mbind option_bind].
      eexists _, ins. split; [done|]. split; [|exact Hins']. eexists. split; [exact Hplace|]. rewrite Hentry by done. rewrite Hkv. by destruct kv.
    + cbn [mbind option_bind]. rewrite Est2. cbn [mbind option_bind Status_ok Status_OK]. rewrite Est1. cbn [mbind option_bind].
      eexists _, ins. split; [done|]. split; [|exact Hins']. eexists. split; [exact Hplace|]. apply Hpast. lia.
Qed.
End Read.

(** * Theorems *)

(** What the options of a table must be: keys are bytes, the restart interval is
    positive, and a filter policy keeps its promise and has a name of bytes. *)
Record options_ok (o : Options) (valid : bytes -> Prop) : Prop := {
  oo_keys k : valid k -> Forall is_byte k;
  oo_interval : 1 <= block_restart_interval o;
  oo_policy P : filter_policy o = Some P -> FilterPolicyLaw P valid;
  oo_name P : filter_policy o = Some P ->
    Forall is_byte (FilterPolicy_Name (FilterPolicy := P)) /\ zlen (FilterPolicy_Name (FilterPolicy := P)) < 2 ^ 31
}.

(** C4: A table gives back what was put into it.  Entries in ascending order,
    less than 2^31 bytes of them, can be added one after the other whatever the
    file does, and Finish returns a status.  If the status is ok, then opening
    the file - with or without checking the checksums, compressed or not, with
    or without a filter - succeeds; the iterator over the table goes over
    exactly the entries, in both directions and from any target; and looking up
    the key of an entry hands that entry on, whatever a coherent block cache
    holds. *)
Theorem table_roundtrip {F} {WF : WritableFile F} {contents} {FL : WritableFileLaw F contents}
    {G} {R : RandomAccessFile G} {SN : Snappy} {SL : SnappyLaw SN} (o : Options) {valid order}
    {CL : ComparatorLaw (comparator o) valid order} (kvs : list (bytes * bytes)) (f : F) :
  options_ok o valid -> contents f = [] ->
  Forall (fun kv => valid kv.1 /\ Forall is_byte kv.2) kvs -> ascending order kvs -> weight kvs < 2 ^ 31 ->
  exists r, TableBuilder_new o f ≫= (fun r => table_add_all r kvs) = Some r
    /\ (filter_small o r ->
        exists s r', TableBuilder_Finish r = Some (s, r')
          /\ (Status_ok s = true ->
              forall (g : G) cache_id, RandomAccessFileLaw R g (contents (tb_file r')) ->
              exists t, Table_Open o g (zlen (contents (tb_file r'))) cache_id = Some (Status_OK, Some t)
                /\ forall cache options fuel,
                     cache_coherent (contents (tb_file r')) cache t -> (length kvs < fuel)%nat ->
                     (exists it, Table_NewIterator t = Some it
                       /\ Valid (Iterator := Table_Iterator fuel cache t options) it = false
                       /\ iterates valid order (Table_Iterator fuel cache t options) kvs it)
                     /\ forall k v, (k, v) ∈ kvs ->
                          exists inserted, InternalGet cache t options k = Some (Status_OK, Some (k, v), inserted))).
Proof.
  intros [O1 O2 O3 O4] Hf Hv Ha Hw.
  destruct (TableBuilder_new_ok (contents := contents) o (valid := valid) (order := order) O2 O3 f Hf) as (r0 & E0 & _ & H0).
  rewrite E0. cbn [mbind option_bind].
  destruct (table_add_all_ok o O1 O2 O3 r0 [] [] _ [] kvs H0) as (r & -> & Hr); [by split_and!|].
  exists r. split; [done|]. intros Hsmall. destruct Hr as [Hfail|(done & xs & ms & ixs & H & E)].
  - destruct (TableBuilder_Finish_failed r Hfail) as (r' & E & Hok). exists (tb_status r'), r'.
    split; [done|]. unfold tb_ok in Hok. intros. congruence.
  - destruct (TableBuilder_Finish_ok o O1 O2 O3 O4 r done xs ms ixs H Hsmall) as (s & r' & Efin & -> & Hfin).
    exists (tb_status r'), r'. split; [done|]. intros Hok g cache_id RL.
    destruct (Hfin Hok) as (_ & done' & ixs' & footer & Ee & TF).
    assert (wb_entries done' = kvs) as <- by (by rewrite Ee, E).
    assert (forall P, filter_policy o = Some P -> Forall is_byte (FilterPolicy_Name (FilterPolicy := P))) as O4'
      by (intros P HP; by apply O4).
    destruct (Table_Open_ok o O3 O4' g _ done' ixs' footer TF cache_id) as (t & Et & Ht & _).
    exists t. split; [done|]. intros cache options fuel Hcache%(coherent_blocks o _ done' ixs' footer TF) Hfuel. split.
    + by apply (Table_iterates o O3 O4' g _ done' ixs' footer TF).
    + intros k v Hkv. by apply (InternalGet_ok o O3 O4' g _ done' ixs' footer TF).
Qed.

(** ** A concrete table *)
Definition sample_policy : FilterPolicy := Bloom {| bits_per_key_ := 10; k_ := 6 |}.

Definition sample_options : Options := {|
  comparator := BytewiseComparator; create_if_missing := true; error_if_exists := false;
  paranoid_checks := true; write_buffer_size := 4096; max_open_files := 10;
  block_size := 20; block_restart_interval := 2; max_file_size := 4096;
  compression := kSnappyCompression; reuse_logs := false; filter_policy := Some sample_policy |}.

Definition sample_kvs : list (bytes * bytes) := [([97], [1]); ([97; 98], [2; 3]); ([98; 98], []); ([99], [4])].

Definition table_disk : DiskFile := {| disk_contents := []; disk_room := 1000; disk_idle := true |}.

Lemma sample_options_ok : options_ok sample_options (Forall is_byte).
Proof.
  split.
  - done.
  - done.
  - intros P [= <-] keys dst Hn _.
    assert (FilterPolicyLaw sample_policy (fun _ => True)) as PL by (by apply Bloom_law).
    apply PL; [done|]. by apply Forall_true.
  - intros P [= <-]. split; [|done]. by repeat constructor.
Qed.

(** It is built of two data blocks on a disk with room for it. *)
Definition sample_run : option (Status * TableBuilder DiskFile) :=
  let SN := NoSnappy in
  r ← TableBuilder_new sample_options table_disk;
  r ← table_add_all r sample_kvs;
  TableBuilder_Finish r.

(** Its filter block. *)
Definition sample_filter : option bytes :=
  let SN := NoSnappy in
  r ← TableBuilder_new sample_options table_disk;
  r ← table_add_all r sample_kvs;
  rf ← TableBuilder_Flush r;
  fb ← filter_block_ rf;
  FilterBlockBuilder_Finish (P := sample_policy) fb.

Definition table_sample : StringFile :=
  match sample_run with Some (_, r) => disk_contents (tb_file r) | None => [] end.

Lemma table_roundtrip_witness :
  zlen table_sample = 204
  /\ exists t, Table_Open (SN := NoSnappy) sample_options table_sample 204 0 = Some (Status_OK, Some t)
       /\ (exists it, Table_NewIterator t = Some it
             /\ iterates (Forall is_byte) Slice_compare
                  (Table_Iterator (SN := NoSnappy) 100 None t ReadOptions_default) sample_kvs it)
       /\ exists inserted, InternalGet (SN := NoSnappy) None t ReadOptions_default [97; 98]
                           = Some (Status_OK, Some ([97; 98], [2; 3]), inserted).
Proof.
  assert (forall l, forallb (fun z => (0 <=? z) && (z <? 256)) l = true -> Forall is_byte l) as Hb.
  { intros l. rewrite forallb_forall. intros Hl. apply Forall_forall. intros z Hz.
    specialize (Hl z (proj1 (list_elem_of_In _ _) Hz)). apply andb_true_iff in Hl as [H1%Z.leb_le H2%Z.ltb_lt].
    unfold in_uint. lia. }
  assert (ascending Slice_compare sample_kvs) as Hasc.
  { intros [|[|[|[|i]]]] x y Hx Hy; try discriminate; injection Hx as <-; injection Hy as <-; vm_compute; done. }
  destruct (table_roundtrip (SN := NoSnappy) (valid := Forall is_byte) (order := Slice_compare) (CL := Bytewise_law)
              (WF := Disk_WritableFile) (contents := disk_contents) (R := String_RandomAccessFile)
              sample_options sample_kvs table_disk) as (r & E & H).
  - exact sample_options_ok.
  - reflexivity.
  - unfold sample_kvs. repeat (constructor; [split; apply Hb; reflexivity|]). constructor.
  - exact Hasc.
  - vm_compute. reflexivity.
  - assert (forall A (k : TableBuilder DiskFile -> option A),
      (r ← TableBuilder_new sample_options table_disk; r ← table_add_all (SN := NoSnappy) r sample_kvs; k r) = k r) as Hk.
    { intros A k. clear -E. destruct (TableBuilder_new sample_options table_disk) as [r0|]; [|done].
      cbn [mbind option_bind] in *. by rewrite E. }
    destruct H as (s & r' & Ef & H).
    { intros P rf fb c [= <-] Ef Efb Ec.
      assert (sample_filter = Some c) as Es.
      { unfold sample_filter. rewrite Hk, Ef. cbn [mbind option_bind]. rewrite Efb. exact Ec. }
      vm_compute in Es. injection Es as <-. split; [apply Hb; reflexivity|reflexivity]. }
    assert (sample_run = Some (s, r')) as Er by (unfold sample_run; by rewrite Hk).
    assert (fst <$> sample_run = Some Status_OK) as Eok by (vm_compute; reflexivity).
    rewrite Er in Eok. injection Eok as ->.
    assert (exists tab, table_sample = tab /\ disk_contents (tb_file r') = tab /\ zlen tab = 204) as (tab & -> & Et & El).
    { exists table_sample. split; [done|]. split; [unfold table_sample; by rewrite Er|vm_compute; reflexivity]. }
    rewrite Et, El in H. clear Et Er Ef Hk E. split; [exact El|].
    destruct (H eq_refl tab 0) as (t & Eo & Ht); [apply String_random_law|].
    exists t. split; [exact Eo|].
    destruct (Ht None ReadOptions_default 100%nat) as ((it & Eit & _ & Hit) & Hget); [done|simpl; lia|].
    split; [by exists it|]. apply Hget. unfold sample_kvs. set_solver.
Defined.

(** ** Files with any contents *)
Section Damaged.
Context {F : Type} {R : RandomAccessFile F} {SN : Snappy}.

(** A read returns at most the bytes it was asked for, or an error. *)
Definition reads_at_most (file : F) : Prop :=
  forall offset n s data own, Random_Read file offset n = (s, (data, own)) -> 0 <= n -> Status_ok s = true -> zlen data <= n /\ Forall is_byte data.

Lemma DecodeFixed32_some p : 4 <= zlen p -> exists v, DecodeFixed32 p = Some v.
Proof. intros H. rewrite DecodeFixed32_take by lia. by eexists. Qed.

Lemma Block_new_some contents : exists b, Block_new contents = Some b.
Proof.
  unfold Block_new, NumRestarts. destruct (Z.ltb_spec (zlen contents) 4) as [|H4]; [by eexists|]. cbv zeta.
  destruct (DecodeFixed32_some (drop (Z.to_nat (zlen contents - 4)) contents)) as [n ->]; [rewrite length_drop; lia|].
  cbn [mbind option_bind]. destruct (_ >? _); by eexists.
Qed.

(** The size of the handle wraps: the buffer is shorter than the block. *)
Definition handle_wraps (file : F) (h : BlockHandle) : Prop :=
  2 ^ 64 - 5 <= bh_size h /\ exists s data own, Random_Read file (bh_offset h) (bh_size h - (2 ^ 64 - 5)) = (s, (data, own))
    /\ Status_ok s = true /\ zlen data = bh_size h - (2 ^ 64 - 5).

Lemma ReadBlock_undefined (file : F) options h :
  in_uint 64 (bh_size h) -> ReadBlock file options h = None <-> handle_wraps file h.
Proof.
  intros Hs. unfold ReadBlock, handle_wraps. change kBlockTrailerSize with 5.
  assert (u64 (bh_size h + 5) = if bh_size h <? 2 ^ 64 - 5 then bh_size h + 5 else bh_size h - (2 ^ 64 - 5)) as Eu.
  { unfold u64, in_uint in *. pow2. destruct (Z.ltb_spec (bh_size h) (18446744073709551616 - 5)); Z.to_euclidean_division_equations; lia. }
  rewrite Eu. clear Eu. unfold in_uint in Hs. destruct (Z.ltb_spec (bh_size h) (2 ^ 64 - 5)) as [Hlt|Hge].
  - split; [|lia]. destruct (Random_Read _ _ _) as [s [data own]]. destruct (Status_ok s); [|done]. cbn [negb].
    destruct (Z.eqb_spec (zlen data) (bh_size h + 5)) as [El|]; [|done]. cbn [negb]. rewrite (proj2 (Z.ltb_ge _ _)) by lia.
    destruct (DecodeFixed32_some (drop (Z.to_nat (bh_size h + 1)) data)) as [v ->]; [rewrite length_drop; lia|]. cbn [mbind option_bind].
    destruct (_ && _); [done|]. destruct (lookup_lt_is_Some_2 data (Z.to_nat (bh_size h))) as [t ->]; [lia|]. cbn [mbind option_bind].
    destruct (_ =? _); [done|]. destruct (_ =? _); [|done]. destruct (Snappy_GetUncompressedLength _); [|done]. by destruct (Snappy_Uncompress _).
  - destruct (Random_Read _ _ _) as [s [data own]]. split.
    + intros H. split; [done|]. exists s, data, own. destruct (Status_ok s); [|done]. cbn [negb] in H.
      destruct (Z.eqb_spec (zlen data) (bh_size h - (2 ^ 64 - 5))); done.
    + intros (_ & s' & data' & own' & [= <- <- <-] & -> & El). cbn [negb]. rewrite El, Z.eqb_refl, (proj2 (Z.ltb_lt _ _)) by lia. done.
Qed.

Lemma Footer_DecodeFrom_any input :
  Forall is_byte input ->
  if zlen input <? 48 then Footer_DecodeFrom Footer_new input = None
  else exists s f rest, Footer_DecodeFrom Footer_new input = Some (s, f, rest) /\ (Status_ok s = true -> in_uint 64 (bh_size (index_handle_ f))).
Proof.
  intros Hb. unfold Footer_DecodeFrom. change Footer_kEncodedLength with 48. destruct (Z.ltb_spec (zlen input) 48) as [|H48]; [done|]. cbv zeta.
  destruct (DecodeFixed32_some (drop (Z.to_nat (48 - 8)) input)) as [lo ->]; [rewrite length_drop; lia|].
  destruct (DecodeFixed32_some (drop 4 (drop (Z.to_nat (48 - 8)) input))) as [hi ->]; [rewrite !length_drop; lia|]. cbn [mbind option_bind].
  destruct (negb _); [by eexists _, _, _|]. unfold BlockHandle_DecodeFrom.
  destruct (GetVarint64 input) as [[o1 i1]|] eqn:E1; [|by eexists _, _, _].
  destruct (GetVarint64 i1) as [[s1 i2]|] eqn:E2; [|by eexists _, _, _]. cbn [Status_ok Status_OK negb].
  destruct (GetVarint64 i2) as [[o2 i3]|] eqn:E3; [|by eexists _, _, _].
  destruct (GetVarint64 i3) as [[s2 i4]|] eqn:E4; [|by eexists _, _, _]. eexists _, _, _. split; [done|]. intros _. cbn.
  destruct (GetVarint64_suffix _ _ _ E1) as (l1 & -> & _), (GetVarint64_suffix _ _ _ E2) as (l2 & -> & _), (GetVarint64_suffix _ _ _ E3) as (l3 & -> & _).
  rewrite !Forall_app in Hb. destruct Hb as (_ & _ & _ & Hb). by apply (GetVarint64_range _ _ _ Hb E4).
Qed.
End Damaged.

(** C39: Opening a table leaves the bytes that were read in two cases exactly,
    whatever the file holds and whether or not its reads fail (without a filter
    policy, so that no other block is read).  Either the file is shorter than the
    size it is opened with, so that the read of the footer returns less than its 48
    bytes, which is not checked; or the index handle has a size within five of 2^64,
    to which the size of the trailer is added with 64 bits: the buffer is as short
    as the sum, and the type of the block is read behind it.  In every other case
    opening returns, with a table or with an error. *)
Theorem table_open_reads_outside {F} {R : RandomAccessFile F} {SN : Snappy} (o : Options) (file : F) size cache_id :
  filter_policy o = None -> reads_at_most file ->
  Table_Open o file size cache_id = None <->
    48 <= size /\ exists s input own, Random_Read file (size - 48) 48 = (s, (input, own)) /\ Status_ok s = true
      /\ (zlen input < 48
          \/ exists s f rest, Footer_DecodeFrom Footer_new input = Some (s, f, rest) /\ Status_ok s = true /\ handle_wraps file (index_handle_ f)).
Proof.
  intros Hf Hr. unfold Table_Open. change Footer_kEncodedLength with 48. destruct (Z.ltb_spec size 48) as [|H48]; [split; [done|lia]|].
  destruct (Random_Read file (size - 48) 48) as [s [input own]] eqn:Er. destruct (Status_ok s) eqn:Es; cbn [negb].
  2:{ split; [done|]. intros (_ & s' & i' & o' & [= <- <- <-] & ? & _). congruence. }
  destruct (Hr _ _ _ _ _ Er ltac:(done) Es) as [_ Hb]. pose proof (Footer_DecodeFrom_any input Hb) as HF.
  destruct (Z.ltb_spec (zlen input) 48) as [Hl|Hl].
  { rewrite HF. cbn [mbind option_bind]. split; [|done]. intros _. split; [done|]. exists s, input, own. by split_and!; [..|left]. }
  destruct HF as (sf & f & rest & EF & Hsz). rewrite EF. cbn [mbind option_bind]. destruct (Status_ok sf) eqn:Esf; cbn [negb].
  2:{ split; [done|]. intros (_ & s' & i' & o' & [= <- <- <-] & _ & [|(s2 & f2 & r2 & E2 & ? & _)]); [lia|]. rewrite EF in E2. injection E2 as <- <- <-. congruence. }
  pose proof (ReadBlock_undefined file (open_options o) (index_handle_ f) (Hsz eq_refl)) as HB.
  destruct (ReadBlock file (open_options o) (index_handle_ f)) as [[sb contents]|] eqn:Eb; cbn [mbind option_bind].
  - split.
    + destruct (negb _); [done|]. destruct (Block_new_some (bc_data contents)) as [b ->]. cbn [mbind option_bind]. unfold ReadMeta. by rewrite Hf.
    + intros (_ & s' & i' & o' & [= <- <- <-] & _ & [|(s2 & f2 & r2 & E2 & _ & Hw)]); [lia|]. rewrite EF in E2. injection E2 as <- <- <-. by apply HB in Hw.
  - split; [|done]. intros _. split; [done|]. exists s, input, own. split_and!; [done|done|right]. exists sf, f, rest. split_and!; [done|done|by apply HB].
Qed.

(** An empty file that is opened as one of 48 bytes, and a footer whose index handle
    has the size 2^64 - 3. *)
Definition damaged_footer : Footer :=
  {| metaindex_handle_ := {| bh_offset := 0; bh_size := 0 |}; index_handle_ := {| bh_offset := 0; bh_size := 2 ^ 64 - 3 |} |}.

Definition plain_table_options : Options := {|
  comparator := BytewiseComparator; create_if_missing := true; error_if_exists := false;
  paranoid_checks := true; write_buffer_size := 4096; max_open_files := 10;
  block_size := 20; block_restart_interval := 2; max_file_size := 4096;
  compression := kNoCompression; reuse_logs := false; filter_policy := None |}.

Lemma table_open_reads_outside_witness :
  Table_Open (SN := NoSnappy) plain_table_options ([] : StringFile) 48 0 = None
  /\ Table_Open (SN := NoSnappy) plain_table_options (footer_bytes damaged_footer : StringFile) 48 0 = None.
Proof.
  assert (forall l : bytes, forallb (fun z => (0 <=? z) && (z <? 256)) l = true -> reads_at_most (l : StringFile)) as Hb.
  { intros l. rewrite forallb_forall. intros Hl offset n s data own [= <- <- <-] Hn _. split.
    - rewrite length_take. lia.
    - apply Forall_take, Forall_drop, Forall_forall. intros z Hz.
      specialize (Hl z (proj1 (list_elem_of_In _ _) Hz)). apply andb_true_iff in Hl as [H1%Z.leb_le H2%Z.ltb_lt].
      unfold in_uint. lia. }
  split; (apply table_open_reads_outside; [done|by apply Hb|split; [done|]]).
  - eexists _, _, _. split; [vm_compute; reflexivity|]. split; [done|by left].
  - eexists _, _, _. split; [vm_compute; reflexivity|]. split; [done|]. right. eexists _, _, _. split; [vm_compute; reflexivity|]. split; [done|].
    split; [vm_compute; discriminate|]. eexists _, _, _. split; [vm_compute; reflexivity|]. by split.
Defined.
