(* ===== verification/LdbRing.v ===== *)
(** leveldb: circular doubly linked lists, and the list of snapshots, [snapshot.h].

    The cache, the snapshots and the versions keep their objects in such lists,
    with the links in the objects and a dummy head.  A node is a number; the
    links are two maps, and a link that was not set cannot be followed.
    [ring l h xs] says that the nodes behind the head [h] are [xs].

    Snapshots are objects at addresses; [new] is the argument [addr].  The list
    keeps them in the order of their sequence numbers, so that the oldest one is
    the first. *)
From stdpp Require Import base numbers option gmap sorting sets list.
From S2P Require Import Prelude.
Open Scope Z_scope.

Record links : Type := { nxt : gmap Z Z; prv : gmap Z Z }.

Definition link_next (l : links) (e x : Z) : links := {| nxt := <[e := x]> (nxt l); prv := prv l |}.
Definition link_prev (l : links) (e x : Z) : links := {| nxt := nxt l; prv := <[e := x]> (prv l) |}.

(** A head that points to itself. *)
Definition ring_init (l : links) (h : Z) : links := link_prev (link_next l h h) h h.

(** [e->next = list; e->prev = list->prev; e->prev->next = e; e->next->prev = e;] *)
Definition ring_append (l : links) (list e : Z) : option links :=
  let l := link_next l e list in
  p ← prv l !! list;
  let l := link_prev l e p in
  p ← prv l !! e;
  let l := link_next l p e in
  n ← nxt l !! e;
  Some (link_prev l n e).

(** [e->next->prev = e->prev; e->prev->next = e->next;] *)
Definition ring_remove (l : links) (e : Z) : option links :=
  n ← nxt l !! e;
  p ← prv l !! e;
  let l := link_prev l n p in
  p ← prv l !! e;
  n ← nxt l !! e;
  Some (link_next l p n).

(** [e->prev->next = e->next; e->next->prev = e->prev;] *)
Definition ring_unlink (l : links) (e : Z) : option links :=
  p ← prv l !! e;
  n ← nxt l !! e;
  let l := link_next l p n in
  n ← nxt l !! e;
  p ← prv l !! e;
  Some (link_prev l n p).

(** * Segments *)
Definition edge (l : links) (a b : Z) : Prop := nxt l !! a = Some b /\ prv l !! b = Some a.

(** From [a] through [xs] to [b]. *)
Fixpoint linked (l : links) (a : Z) (xs : list Z) (b : Z) : Prop :=
  match xs with
  | [] => edge l a b
  | x :: xs => edge l a x /\ linked l x xs b
  end.

Lemma linked_app l a xs y ys b : linked l a (xs ++ y :: ys) b <-> linked l a xs y /\ linked l y ys b.
Proof.
  revert a. induction xs as [|x xs IH]; intros a; cbn [app linked]; [done|]. rewrite IH. tauto.
Qed.

Lemma linked_frame l l' a xs b :
  (forall c, c ∈ a :: xs -> nxt l' !! c = nxt l !! c) -> (forall c, c ∈ xs ++ [b] -> prv l' !! c = prv l !! c) ->
  linked l a xs b -> linked l' a xs b.
Proof.
  revert a. induction xs as [|x xs IH]; intros a Hn Hp; cbn [linked app] in *.
  - intros [H1 H2]. split; [rewrite Hn by apply list_elem_of_here; done|rewrite Hp by apply list_elem_of_here; done].
  - intros [[H1 H2] H]. split.
    + split; [rewrite Hn by apply list_elem_of_here; done|rewrite Hp by apply list_elem_of_here; done].
    + apply IH; [|intros c Hc; apply Hp; by apply list_elem_of_further|done].
      intros c Hc. apply Hn. by apply list_elem_of_further.
Qed.

(** The two ends of a segment. *)
Lemma linked_first l a xs b : linked l a xs b -> nxt l !! a = head (xs ++ [b]).
Proof. destruct xs; cbn [linked app head]; [by intros [H _]|by intros [[H _] _]]. Qed.

Lemma linked_last l a xs b : linked l a xs b -> prv l !! b = last (a :: xs).
Proof.
  revert a. induction xs as [|x xs IH]; intros a; cbn [linked]; [by intros [_ H]|].
  intros [_ H]. rewrite (IH x H). by destruct xs.
Qed.

(** * Rings *)
Definition ring (l : links) (h : Z) (xs : list Z) : Prop := NoDup (h :: xs) /\ linked l h xs h.

Lemma ring_frame l l' h xs :
  (forall c, c ∈ h :: xs -> nxt l' !! c = nxt l !! c /\ prv l' !! c = prv l !! c) -> ring l h xs -> ring l' h xs.
Proof.
  intros Hf [Hnd Hl]. split; [done|]. apply (linked_frame l); [|intros c Hc; apply Hf|done].
  - intros c Hc. by apply Hf.
  - apply elem_of_app in Hc as [Hc|Hc]; [by apply list_elem_of_further|].
    apply list_elem_of_singleton in Hc as ->. apply list_elem_of_here.
Qed.

Lemma ring_init_ok l h : ring (ring_init l h) h [].
Proof.
  split; [apply NoDup_singleton|]. split; cbn [nxt prv ring_init link_next link_prev]; by rewrite lookup_insert_eq.
Qed.

Lemma ring_first l h xs : ring l h xs -> nxt l !! h = head (xs ++ [h]).
Proof. intros [_ H]. exact (linked_first _ _ _ _ H). Qed.

Lemma ring_last l h xs : ring l h xs -> prv l !! h = last (h :: xs).
Proof. intros [_ H]. exact (linked_last _ _ _ _ H). Qed.

(** What follows a node. *)
Lemma ring_next l h xs x ys : ring l h (xs ++ x :: ys) -> nxt l !! x = head (ys ++ [h]).
Proof. intros [_ H]. apply linked_app in H as [_ H]. exact (linked_first _ _ _ _ H). Qed.

(** The list is empty if the head points to itself. *)
Lemma ring_empty l h xs : ring l h xs -> nxt l !! h = Some h <-> xs = [].
Proof.
  intros H. rewrite (ring_first l h xs H). destruct H as [Hnd _]. destruct xs as [|x xs]; cbn [app head]; [done|].
  split; [|done]. intros [= ->]. apply NoDup_cons in Hnd as [Hnd _]. destruct Hnd. apply list_elem_of_here.
Qed.

Lemma ring_append_ok l h xs e :
  ring l h xs -> e ∉ h :: xs ->
  exists l', ring_append l h e = Some l' /\ ring l' h (xs ++ [e])
    /\ forall c, c ∉ h :: xs ++ [e] -> nxt l' !! c = nxt l !! c /\ prv l' !! c = prv l !! c.
Proof.
  intros [Hnd Hl] He. pose proof (linked_last _ _ _ _ Hl) as Hp.
  destruct (last (h :: xs)) as [p|] eqn:Ep; [|by apply last_None in Ep].
  assert (p ∈ h :: xs) as Hpin by (apply last_Some in Ep as [l' ->]; set_solver).
  assert (p <> e) as Hpe by (intros ->; done). assert (h <> e) as Hhe by (intros ->; set_solver).
  unfold ring_append. cbn [nxt prv link_next link_prev]. rewrite Hp. cbn [mbind option_bind].
  rewrite lookup_insert_eq. cbn [mbind option_bind].
  rewrite lookup_insert_ne, lookup_insert_eq by done. cbn [mbind option_bind].
  eexists. split; [done|]. cbn [nxt prv link_next link_prev]. split.
  - split.
    + rewrite app_comm_cons. apply NoDup_app. split_and!; [done| |apply NoDup_singleton].
      intros x Hx ->%list_elem_of_singleton. done.
    + apply last_Some in Ep as [ys Eys]. destruct ys as [|y ys]; cbn [app] in Eys; injection Eys as <- ->.
      * cbn [app linked]. unfold edge. cbn [nxt prv]. simplify_map_eq. done.
      * rewrite <- app_assoc. cbn [app]. apply linked_app in Hl as [Hl _].
        rewrite linked_app. cbn [linked]. unfold edge. cbn [nxt prv]. split.
        -- eapply linked_frame; [| |exact Hl]; cbn [nxt prv link_next link_prev].
           ++ intros c Hc. rewrite lookup_insert_ne, lookup_insert_ne; [done|set_solver|].
              intros ->. apply NoDup_cons in Hnd as [H1 H2]. apply NoDup_app in H2 as (_ & H2 & _).
              apply elem_of_cons in Hc as [->|Hc]; [set_solver|]. apply (H2 c Hc). set_solver.
           ++ intros c Hc. rewrite lookup_insert_ne, lookup_insert_ne; [done| |].
              ** intros ->. apply He. set_solver.
              ** intros ->. apply NoDup_cons in Hnd as [H1 _]. done.
        -- by simplify_map_eq.
  - intros c Hc. split.
    + rewrite lookup_insert_ne, lookup_insert_ne; [done|set_solver|]. intros ->. apply Hc. set_solver.
    + rewrite lookup_insert_ne, lookup_insert_ne; [done|set_solver..].
Qed.

(** Both orders of the two assignments take a node out. *)
Lemma ring_split l h xs e ys :
  ring l h (xs ++ e :: ys) ->
  exists p n, nxt l !! e = Some n /\ prv l !! e = Some p /\ p <> e /\ n <> e
    /\ p ∈ h :: xs /\ n ∈ ys ++ [h]
    /\ forall l', nxt l' = <[p := n]> (nxt l) -> prv l' = <[n := p]> (prv l) -> ring l' h (xs ++ ys).
Proof.
  intros [Hnd Hl]. pose proof Hl as Hl0. apply linked_app in Hl0 as [H1 H2].
  pose proof (linked_last _ _ _ _ H1) as Hp. pose proof (linked_first _ _ _ _ H2) as Hn.
  destruct (last (h :: xs)) as [p|] eqn:Ep; [|by apply last_None in Ep].
  destruct (head (ys ++ [h])) as [n|] eqn:En; [|by destruct ys].
  assert (p ∈ h :: xs) as Hpin by (apply last_Some in Ep as [l' ->]; set_solver).
  assert (n ∈ ys ++ [h]) as Hnin by (destruct ys; injection En as <-; set_solver).
  rewrite app_comm_cons in Hnd. pose proof Hnd as Hnd0. apply NoDup_app in Hnd as (Hnd1 & Hnd2 & Hnd3).
  apply NoDup_cons in Hnd3 as [Hnd3 Hnd4].
  assert (e ∉ h :: xs) as Heh by (intros He; apply (Hnd2 e He); set_solver).
  exists p, n. split_and!; [done|done|by intros ->| |done|done|].
  { intros ->. apply elem_of_app in Hnin as [?|?]; [done|]. apply Heh. set_solver. }
  intros l' El' Ep'. split.
  { rewrite app_comm_cons. apply NoDup_app. split_and!; [done| |done]. intros x Hx Hy. apply (Hnd2 x Hx). set_solver. }
  assert (edge l' p n) as Hedge by (split; [rewrite El'|rewrite Ep']; by rewrite lookup_insert_eq).
  assert (forall a zs b, linked l a zs b -> p ∉ a :: zs -> n ∉ zs ++ [b] -> linked l' a zs b) as Hframe.
  { intros a zs b Hz Hpz Hnz. apply (linked_frame l); [| |done].
    - intros c Hc. rewrite El', lookup_insert_ne; [done|]. by intros ->.
    - intros c Hc. rewrite Ep', lookup_insert_ne; [done|]. by intros ->. }
  assert (linked l' p ys h) as Hright.
  { destruct ys as [|y ys]; injection En as <-; [done|]. cbn [linked] in H2 |- *. destruct H2 as [_ H2]. split; [done|].
    apply Hframe; [done| |].
    - intros Hin. destruct (decide (p = h)) as [->|]; [|apply (Hnd2 p Hpin); set_solver].
      apply (Hnd2 h); set_solver.
    - intros Hin. apply elem_of_app in Hin as [Hin|Hin]; [by apply NoDup_cons in Hnd4 as [? _]|].
      apply list_elem_of_singleton in Hin as ->. apply (Hnd2 h); set_solver. }
  apply last_Some in Ep as [zs Ezs]. destruct zs as [|z zs]; cbn [app] in Ezs; injection Ezs as <- ->; [done|].
  rewrite <- app_assoc. cbn [app]. apply linked_app. split; [|done].
  rewrite <- app_assoc in Hl. cbn [app] in Hl. apply linked_app in Hl as [Hl _].
  apply NoDup_cons in Hnd1 as [Hnd5 Hnd6]. apply NoDup_app in Hnd6 as (Hnd6 & Hnd7 & _).
  apply Hframe; [done| |].
  - intros [->|Hin]%elem_of_cons; [apply Hnd5; set_solver|]. apply (Hnd7 p Hin). set_solver.
  - intros Hin. assert (n ∈ h :: zs ++ [p]) as Hn' by set_solver. apply elem_of_app in Hnin as [Hny|Hnh].
    + apply (Hnd2 n Hn'). set_solver.
    + apply list_elem_of_singleton in Hnh as ->. apply Hnd5. done.
Qed.

Lemma ring_remove_ok l h xs e ys :
  ring l h (xs ++ e :: ys) ->
  exists l', ring_remove l e = Some l' /\ ring l' h (xs ++ ys)
    /\ forall c, c ∉ h :: xs ++ ys -> nxt l' !! c = nxt l !! c /\ prv l' !! c = prv l !! c.
Proof.
  intros H. destruct (ring_split l h xs e ys H) as (p & n & En & Ep & Hp & Hn & Hpin & Hnin & Hr).
  unfold ring_remove. rewrite En, Ep. cbn [mbind option_bind nxt prv link_prev link_next].
  rewrite lookup_insert_ne, Ep, En by done. cbn [mbind option_bind]. eexists. split; [done|]. split; [by apply Hr|].
  intros c Hc. cbn [nxt prv link_prev link_next]. rewrite !lookup_insert_ne; [done|..]; intros ->; set_solver.
Qed.

Lemma ring_unlink_ok l h xs e ys :
  ring l h (xs ++ e :: ys) ->
  exists l', ring_unlink l e = Some l' /\ ring l' h (xs ++ ys)
    /\ forall c, c ∉ h :: xs ++ ys -> nxt l' !! c = nxt l !! c /\ prv l' !! c = prv l !! c.
Proof.
  intros H. destruct (ring_split l h xs e ys H) as (p & n & En & Ep & Hp & Hn & Hpin & Hnin & Hr).
  unfold ring_unlink. rewrite Ep, En. cbn [mbind option_bind nxt prv link_prev link_next].
  rewrite lookup_insert_ne, Ep, En by done. cbn [mbind option_bind]. eexists. split; [done|]. split; [by apply Hr|].
  intros c Hc. cbn [nxt prv link_prev link_next]. rewrite !lookup_insert_ne; [done|..]; intros ->; set_solver.
Qed.

(** * Snapshots *)

(** The links of all nodes and [sequence_number_] of the snapshots. *)
Record SnapshotList : Type := { sl_links : links; sequence_number_ : gmap Z Z }.

(** The address of [head_]. *)
Definition head_ : Z := 0.

Definition SnapshotList_new : SnapshotList :=
  {| sl_links := ring_init {| nxt := ∅; prv := ∅ |} head_; sequence_number_ := {[ head_ := 0 ]} |}.

Definition SnapshotList_empty (l : SnapshotList) : option bool :=
  n ← nxt (sl_links l) !! head_; Some (n =? head_).

Definition SnapshotList_oldest (l : SnapshotList) : option Z :=
  e ← SnapshotList_empty l; if e : bool then None else nxt (sl_links l) !! head_.

Definition SnapshotList_newest (l : SnapshotList) : option Z :=
  e ← SnapshotList_empty l; if e : bool then None else prv (sl_links l) !! head_.

(** The sequence number must not be smaller than that of the newest. *)
Definition SnapshotList_New (l : SnapshotList) (addr sequence_number : Z) : option SnapshotList :=
  e ← SnapshotList_empty l;
  in_order ← (if e : bool then Some true
              else newest ← SnapshotList_newest l; s ← sequence_number_ l !! newest; Some (s <=? sequence_number));
  if in_order : bool then
    links ← ring_append (sl_links l) head_ addr;
    Some {| sl_links := links; sequence_number_ := <[addr := sequence_number]> (sequence_number_ l) |}
  else None.

Definition SnapshotList_Delete (l : SnapshotList) (snapshot : Z) : option SnapshotList :=
  links ← ring_unlink (sl_links l) snapshot;
  Some {| sl_links := links; sequence_number_ := delete snapshot (sequence_number_ l) |}.

(** * The list it stands for *)

(** The addresses and numbers of the live snapshots, oldest first. *)
Record snap_rep (l : SnapshotList) (snaps : list (Z * Z)) : Prop := {
  sr_ring : ring (sl_links l) head_ snaps.*1;
  sr_seq a s : (a, s) ∈ snaps -> sequence_number_ l !! a = Some s;
  sr_sorted : StronglySorted Z.le snaps.*2
}.

Lemma SnapshotList_new_ok : snap_rep SnapshotList_new [].
Proof. split; [apply ring_init_ok|by intros a s ?%not_elem_of_nil|constructor]. Qed.

Section Ops.
Context (l : SnapshotList) (snaps : list (Z * Z)) (H : snap_rep l snaps).

Lemma SnapshotList_empty_ok : SnapshotList_empty l = Some (bool_decide (snaps = [])).
Proof.
  unfold SnapshotList_empty. pose proof (ring_empty _ _ _ (sr_ring _ _ H)) as He.
  pose proof (ring_first _ _ _ (sr_ring _ _ H)) as Hf.
  destruct snaps as [|[a s] r]; cbn [fmap list_fmap app head fst] in *; rewrite Hf; cbn [mbind option_bind]; [done|].
  f_equal. rewrite bool_decide_eq_false_2 by done. apply Z.eqb_neq. intros ->. by pose proof (proj1 He Hf).
Qed.

Lemma SnapshotList_oldest_ok : SnapshotList_oldest l = fst <$> head snaps.
Proof.
  unfold SnapshotList_oldest. rewrite SnapshotList_empty_ok. cbn [mbind option_bind].
  rewrite (ring_first _ _ _ (sr_ring _ _ H)). by destruct snaps as [|[a s] r].
Qed.

Lemma SnapshotList_newest_ok : SnapshotList_newest l = fst <$> last snaps.
Proof.
  unfold SnapshotList_newest. rewrite SnapshotList_empty_ok. cbn [mbind option_bind].
  rewrite (ring_last _ _ _ (sr_ring _ _ H)). destruct snaps as [|x r]; [done|].
  rewrite bool_decide_eq_false_2, fmap_cons, last_cons_cons, <- fmap_cons by done. apply fmap_last.
Qed.

(** The oldest snapshot has the smallest number. *)
Lemma oldest_smallest a s b t : head snaps = Some (a, s) -> (b, t) ∈ snaps -> s <= t.
Proof.
  intros Hh Hb. pose proof (sr_sorted _ _ H) as Hs. destruct snaps as [|x r]; [done|]. injection Hh as ->.
  apply elem_of_cons in Hb as [[= <- <-]|Hb]; [lia|]. cbn [fmap list_fmap snd] in Hs.
  apply StronglySorted_inv in Hs as [_ Hs]. apply (proj1 (Forall_forall _ _) Hs). apply list_elem_of_fmap. by exists (b, t).
Qed.

Lemma SnapshotList_New_ok addr s :
  addr <> head_ -> addr ∉ snaps.*1 -> (forall a t, last snaps = Some (a, t) -> t <= s) ->
  exists l', SnapshotList_New l addr s = Some l' /\ snap_rep l' (snaps ++ [(addr, s)]).
Proof.
  intros Ha Hfresh Hs. unfold SnapshotList_New. rewrite SnapshotList_empty_ok, SnapshotList_newest_ok. cbn [mbind option_bind].
  assert ((if bool_decide (snaps = []) then Some true
           else newest ← fst <$> last snaps; s0 ← sequence_number_ l !! newest; Some (s0 <=? s)) = Some true) as ->.
  { case_bool_decide as E; [done|]. destruct (last snaps) as [[a t]|] eqn:El; [|by apply last_None in El].
    cbn [fmap option_fmap option_map fst mbind option_bind]. rewrite (sr_seq _ _ H a t) by (apply last_Some in El as [l' ->]; set_solver).
    cbn [mbind option_bind]. by rewrite (proj2 (Z.leb_le _ _)) by eauto. }
  cbn [mbind option_bind]. destruct (ring_append_ok (sl_links l) head_ snaps.*1 addr (sr_ring _ _ H)) as (links & -> & Hr & _);
    [set_solver|]. cbn [mbind option_bind]. eexists. split; [done|]. split; cbn [sl_links sequence_number_].
  - by rewrite fmap_app.
  - intros b t Hb. apply elem_of_app in Hb as [Hb|Hb].
    + rewrite lookup_insert_ne; [by apply (sr_seq _ _ H)|]. intros ->. apply Hfresh, list_elem_of_fmap. by exists (b, t).
    + apply list_elem_of_singleton in Hb as [= -> ->]. by rewrite lookup_insert_eq.
  - rewrite fmap_app. cbn [fmap list_fmap snd]. pose proof (sr_sorted _ _ H) as Hst.
    assert (forall t, t ∈ snaps.*2 -> t <= s) as Hall.
    { intros t Ht. destruct (last snaps) as [[a u]|] eqn:El; [|apply last_None in El; rewrite El in Ht; by apply not_elem_of_nil in Ht].
      specialize (Hs a u eq_refl). apply last_Some in El as [r Er]. rewrite Er, fmap_app in Hst, Ht.
      apply elem_of_app in Ht as [Ht|Ht]; [|apply list_elem_of_singleton in Ht as ->; done].
      apply StronglySorted_app in Hst as (Hst & _ & _). specialize (Hst t u Ht). cbn in Hst. specialize (Hst ltac:(set_solver)). lia. }
    apply StronglySorted_app. split_and!; [|done|repeat constructor].
    intros x y Hx Hy. apply list_elem_of_singleton in Hy as ->. by apply Hall.
Qed.

Lemma SnapshotList_Delete_ok xs a s ys :
  snaps = xs ++ (a, s) :: ys ->
  exists l', SnapshotList_Delete l a = Some l' /\ snap_rep l' (xs ++ ys).
Proof.
  intros E. unfold SnapshotList_Delete. pose proof (sr_ring _ _ H) as Hr. rewrite E, fmap_app in Hr. cbn [fmap list_fmap fst] in Hr.
  destruct (ring_unlink_ok _ _ _ _ _ Hr) as (links & -> & Hr' & _). cbn [mbind option_bind].
  eexists. split; [done|]. split; cbn [sl_links sequence_number_].
  - by rewrite fmap_app.
  - intros b t Hb. rewrite lookup_delete_ne; [apply (sr_seq _ _ H); rewrite E; set_solver|]. intros <-.
    destruct Hr as [Hnd _]. apply NoDup_cons in Hnd as [_ Hnd]. apply NoDup_app in Hnd as (_ & Hnd & Hnd2).
    apply NoDup_cons in Hnd2 as [Hnd2 _]. apply elem_of_app in Hb as [Hb|Hb].
    + apply (Hnd a); [|set_solver]. apply list_elem_of_fmap. by exists (a, t).
    + apply Hnd2, list_elem_of_fmap. by exists (a, t).
  - pose proof (sr_sorted _ _ H) as Hs. rewrite E, fmap_app in Hs. rewrite fmap_app. cbn [fmap list_fmap] in Hs.
    apply StronglySorted_app in Hs as (H1 & H2 & H3). apply StronglySorted_inv in H3 as [H3 _].
    apply StronglySorted_app. split_and!; [|done|done]. intros x y Hx Hy. apply H1; [done|]. set_solver.
Qed.
End Ops.
