(* ===== verification/LdbVersion.v ===== *)
(** leveldb: the files of a version, the searches in them, [Version::Get] and the
    files that a compaction takes, from [version_set.cc].

    A pointer to a file is the address of the [FileMetaData] with the fields
    that never change; the count of references and the number of seeks that are
    left are in a store by address.  The files of a version are a list per
    level.  [None] stands for a failed assertion, an index out of range, or a
    comparison of keys that are too short.

    [GetOverlappingInputs] starts again when a file of level 0 extends the range,
    and [AddBoundaryInputs] goes on as long as it finds a file;
    [LdbCompactionThms] shows that the fuel is enough. *)
From stdpp Require Import base numbers option strings gmap sorting list.
From S2P Require Import Prelude LdbSlice LdbCoding LdbComparator LdbDbformat LdbVersionEdit LdbIterator LdbFormat LdbTable.
Open Scope Z_scope.
Open Scope c_scope.

(** Of the namespace [config]. *)
Definition kL0_CompactionTrigger : Z := 4.
Definition kMaxMemCompactLevel : Z := 2.

Record FileRef : Type := { f_addr : Z; f_meta : FileMetaData }.

Definition f_smallest (f : FileRef) : bytes := smallest (f_meta f).
Definition f_largest (f : FileRef) : bytes := largest (f_meta f).
Definition f_number (f : FileRef) : Z := number (f_meta f).
Definition f_size (f : FileRef) : Z := file_size (f_meta f).

(** Out of range is undefined. *)
Definition file_at (files : list FileRef) (i : Z) : option FileRef := files !! Z.to_nat i.

(** * Limits *)
Definition TargetFileSize (options : Options) : Z := max_file_size options.

(** The product is of type [size_t]. *)
Definition MaxGrandParentOverlapBytes (options : Options) : Z := s64 (u64 (10 * TargetFileSize options)).

Definition ExpandedCompactionByteSizeLimit (options : Options) : Z := s64 (u64 (25 * TargetFileSize options)).

Definition MaxFileSizeForLevel (options : Options) (level : Z) : Z := TargetFileSize options.

Definition TotalFileSize (files : list FileRef) : Z :=
  fold_left (fun sum f => s64 (sum + f_size f)) files 0.

Section Keys.
Context {U : Comparator}.

(** * Searching a list of files *)

(** The loop halves the range. *)
Fixpoint find_file (n : nat) (files : list FileRef) (key : bytes) (left right : Z) : option Z :=
  if left <? right then
    match n with
    | O => None
    | S n' =>
        let mid := u32 (left + right) / 2 in
        f ← file_at files mid;
        r ← InternalKey_Compare (f_largest f) key;
        if r <? 0 then find_file n' files key (u32 (mid + 1)) right else find_file n' files key left mid
    end
  else Some right.

Definition FindFile (files : list FileRef) (key : bytes) : option Z :=
  find_file (length files) files key 0 (u32 (zlen files)).

Definition AfterFile (user_key : option bytes) (f : FileRef) : option bool :=
  match user_key with
  | None => Some false
  | Some k => l ← ExtractUserKey (f_largest f); r ← Compare k l; Some (r >? 0)
  end.

Definition BeforeFile (user_key : option bytes) (f : FileRef) : option bool :=
  match user_key with
  | None => Some false
  | Some k => s ← ExtractUserKey (f_smallest f); r ← Compare k s; Some (r <? 0)
  end.

(** The loop over files that may overlap. *)
Fixpoint some_file_overlaps (files : list FileRef) (smallest_user_key largest_user_key : option bytes) : option bool :=
  match files with
  | [] => Some false
  | f :: files =>
      apart ← (after ← AfterFile smallest_user_key f;
               if after : bool then Some true else BeforeFile largest_user_key f);
      if apart : bool then some_file_overlaps files smallest_user_key largest_user_key else Some true
  end.

Definition SomeFileOverlapsRange (disjoint_sorted_files : bool) (files : list FileRef)
    (smallest_user_key largest_user_key : option bytes) : option bool :=
  if negb disjoint_sorted_files then some_file_overlaps files smallest_user_key largest_user_key
  else
    index ← (match smallest_user_key with
             | Some k => FindFile files (InternalKey_make k kMaxSequenceNumber kValueTypeForSeek)
             | None => Some 0
             end);
    if index >=? zlen files then Some false
    else f ← file_at files index; before ← BeforeFile largest_user_key f; Some (negb before).

(** ** The iterator over the files of a level *)
Record LevelFileNumIterator : Type := { flist_ : list FileRef; index_ : Z }.

Definition LevelFileNumIterator_new (flist : list FileRef) : LevelFileNumIterator :=
  {| flist_ := flist; index_ := u32 (zlen flist) |}.

Definition with_index (t : LevelFileNumIterator) (i : Z) : LevelFileNumIterator := {| flist_ := flist_ t; index_ := i |}.

Definition lf_Valid (t : LevelFileNumIterator) : bool := index_ t <? zlen (flist_ t).

Definition lf_Seek (t : LevelFileNumIterator) (target : bytes) : option LevelFileNumIterator :=
  i ← FindFile (flist_ t) target; Some (with_index t i).

Definition lf_SeekToFirst (t : LevelFileNumIterator) : LevelFileNumIterator := with_index t 0.

Definition lf_SeekToLast (t : LevelFileNumIterator) : LevelFileNumIterator :=
  with_index t (if bool_decide (flist_ t = []) then 0 else u32 (zlen (flist_ t) - 1)).

Definition lf_Next (t : LevelFileNumIterator) : option LevelFileNumIterator :=
  if lf_Valid t then Some (with_index t (u32 (index_ t + 1))) else None.

Definition lf_Prev (t : LevelFileNumIterator) : option LevelFileNumIterator :=
  if lf_Valid t then
    Some (with_index t (if index_ t =? 0 then u32 (zlen (flist_ t)) else u32 (index_ t - 1)))
  else None.

Definition lf_key (t : LevelFileNumIterator) : option bytes :=
  if lf_Valid t then f ← file_at (flist_ t) (index_ t); Some (f_largest f) else None.

Definition lf_value (t : LevelFileNumIterator) : option bytes :=
  if lf_Valid t then
    f ← file_at (flist_ t) (index_ t);
    Some (EncodeFixed64 (f_number f) ++ EncodeFixed64 (f_size f))
  else None.

Definition LevelFile_Iterator : Iterator LevelFileNumIterator := {|
  Valid := lf_Valid;
  SeekToFirst t := Some (lf_SeekToFirst t);
  SeekToLast t := Some (lf_SeekToLast t);
  Seek := lf_Seek;
  Next := lf_Next;
  Prev := lf_Prev;
  Key := lf_key;
  Value := lf_value;
  status _ := Some Status_OK
|}.

(** * Looking up a key *)

(** [Saver]: its state and the string that [value] points to. *)
Inductive SaverState : Type := SNotFound | SFound | SDeleted | SCorrupt.

Definition SaveValue (user : bytes) (state : SaverState) (value : bytes) (ikey v : bytes) :
    option (SaverState * bytes) :=
  match ParseInternalKey ikey with
  | Some (true, parsed) =>
      r ← Compare (user_key parsed) user;
      if r =? 0 then
        if type parsed =? kTypeValue then Some (SFound, v) else Some (SDeleted, value)
      else Some (state, value)
  | _ => Some (SCorrupt, value)
  end.

Definition NewestFirst (a b : FileRef) : Prop := f_number b <= f_number a.

#[global] Instance NewestFirst_dec a b : Decision (NewestFirst a b).
Proof. unfold NewestFirst. apply _. Defined.

(** The files of level 0 whose range has the key. *)
Fixpoint overlapping_files (user : bytes) (files : list FileRef) : option (list FileRef) :=
  match files with
  | [] => Some []
  | f :: files =>
      s ← ExtractUserKey (f_smallest f);
      r ← Compare user s;
      inside ← (if r >=? 0 then l ← ExtractUserKey (f_largest f); r ← Compare user l; Some (r <=? 0) else Some false);
      tmp ← overlapping_files user files;
      Some (if inside : bool then f :: tmp else tmp)
  end.

(** The files of a level to search, in order. *)
Definition files_to_search (level : nat) (files : list FileRef) (user ikey : bytes) : option (list FileRef) :=
  if bool_decide (files = []) then Some []
  else
    match level with
    | O => tmp ← overlapping_files user files; Some (merge_sort NewestFirst tmp)
    | S _ =>
        index ← FindFile files ikey;
        if index >=? zlen files then Some []
        else
          f ← file_at files index;
          s ← ExtractUserKey (f_smallest f);
          r ← Compare user s;
          Some (if r <? 0 then [] else [f])
    end.

(** ** [ForEachOverlapping] *)

(** [func] gives whether to go on. *)
Fixpoint for_each_file {A : Type} (func : A -> nat -> FileRef -> bool * A) (level : nat) (fs : list FileRef) (arg : A) :
    bool * A :=
  match fs with
  | [] => (true, arg)
  | f :: fs =>
      let '(more, arg) := func arg level f in
      if more : bool then for_each_file func level fs arg else (false, arg)
  end.

Fixpoint for_each_level {A : Type} (func : A -> nat -> FileRef -> bool * A) (user ikey : bytes) (level : nat)
    (levels : list (list FileRef)) (arg : A) : option A :=
  match levels with
  | [] => Some arg
  | files :: levels =>
      fs ← files_to_search level files user ikey;
      let '(more, arg) := for_each_file func level fs arg in
      if more : bool then for_each_level func user ikey (S level) levels arg else Some arg
  end.

Definition ForEachOverlapping {A : Type} (files_ : list (list FileRef)) (user ikey : bytes) (arg : A)
    (func : A -> nat -> FileRef -> bool * A) : option A :=
  for_each_level func user ikey 0 files_ arg.

(** ** [Version::Get] *)
Record GetStats : Type := { seek_file : option FileRef; seek_file_level : Z }.

Definition GetStats_none : GetStats := {| seek_file := None; seek_file_level := -1 |}.

(** The table cache: [Get] calls back with the entry it finds. *)
Class TableGetter (TC : Type) : Type := {
  TableCache_Get : TC -> ReadOptions -> Z -> Z -> bytes -> option (Status * option (bytes * bytes) * TC)
}.

Context {TC : Type} {TG : TableGetter TC}.

(** The locals of [Get] that go through the loops. *)
Record GetState : Type := {
  gs_stats : GetStats;
  last_file_read : option (FileRef * Z);
  gs_cache : TC
}.

(** The charge for a second seek. *)
Definition charge_seek (st : GetState) : GetState :=
  match last_file_read st, seek_file (gs_stats st) with
  | Some (f, level), None =>
      {| gs_stats := {| seek_file := Some f; seek_file_level := level |};
         last_file_read := last_file_read st; gs_cache := gs_cache st |}
  | _, _ => st
  end.

(** The inner loop; the answer if there is one. *)
Fixpoint get_in_files (options : ReadOptions) (user ikey : bytes) (level : nat) (fs : list FileRef) (value : bytes)
    (st : GetState) : option (option (Status * bytes) * GetState) :=
  match fs with
  | [] => Some (None, st)
  | f :: fs =>
      let st := charge_seek st in
      '(s, found, tc) ← TableCache_Get (gs_cache st) options (f_number f) (f_size f) ikey;
      let st := {| gs_stats := gs_stats st; last_file_read := Some (f, Z.of_nat level); gs_cache := tc |} in
      '(state, value) ← (match found with
                         | Some kv => SaveValue user SNotFound value kv.1 kv.2
                         | None => Some (SNotFound, value)
                         end);
      if Status_ok s then
        match state with
        | SNotFound => get_in_files options user ikey level fs value st
        | SFound => Some (Some (s, value), st)
        | SDeleted => Some (Some (Status_NotFound [] [], value), st)
        | SCorrupt => Some (Some (Status_Corruption (str "corrupted key for ") user, value), st)
        end
      else Some (Some (s, value), st)
  end.

Fixpoint get_in_levels (options : ReadOptions) (user ikey : bytes) (level : nat) (levels : list (list FileRef))
    (value : bytes) (st : GetState) : option (Status * bytes * GetState) :=
  match levels with
  | [] => Some (Status_NotFound [] [], value, st)
  | files :: levels =>
      fs ← files_to_search level files user ikey;
      '(answer, st) ← get_in_files options user ikey level fs value st;
      match answer with
      | Some (s, value) => Some (s, value, st)
      | None => get_in_levels options user ikey (S level) levels value st
      end
  end.

(** The status, the string for the value, the statistics and the table cache. *)
Definition Version_Get (files_ : list (list FileRef)) (tc : TC) (options : ReadOptions) (k : LookupKey) (value : bytes) :
    option (Status * bytes * GetStats * TC) :=
  let ikey := LookupKey_internal_key k in
  let user := LookupKey_user_key k in
  '(s, value, st) ← get_in_levels options user ikey 0 files_ value
      {| gs_stats := GetStats_none; last_file_read := None; gs_cache := tc |};
  Some (s, value, gs_stats st, gs_cache st).
End Keys.

(** * The files that a compaction takes *)

Section Keys.
Context {U : Comparator}.

(** [None] for a bound is a null pointer. *)
Definition before_bound (limit : bytes) (user_begin : option bytes) : option bool :=
  match user_begin with None => Some false | Some b => r ← Compare limit b; Some (r <? 0) end.

Definition after_bound (start : bytes) (user_end : option bytes) : option bool :=
  match user_end with None => Some false | Some e => r ← Compare start e; Some (r >? 0) end.

(** The loop at index [i]; the inputs found so far are in order. *)
Fixpoint overlap_loop (n : nat) (level : Z) (files : list FileRef) (i : nat) (user_begin user_end : option bytes)
    (inputs : list FileRef) : option (list FileRef) :=
  match files !! i with
  | None => Some inputs
  | Some f =>
      match n with
      | O => None
      | S n' =>
          file_start ← ExtractUserKey (f_smallest f);
          file_limit ← ExtractUserKey (f_largest f);
          before ← before_bound file_limit user_begin;
          if before : bool then overlap_loop n' level files (S i) user_begin user_end inputs
          else
            after ← after_bound file_start user_end;
            if after : bool then overlap_loop n' level files (S i) user_begin user_end inputs
            else if level =? 0 then
              starts_before ← before_bound file_start user_begin;
              if starts_before : bool then overlap_loop n' level files 0 (Some file_start) user_end []
              else
                ends_after ← after_bound file_limit user_end;
                if ends_after : bool then overlap_loop n' level files 0 user_begin (Some file_limit) []
                else overlap_loop n' level files (S i) user_begin user_end (inputs ++ [f])
            else overlap_loop n' level files (S i) user_begin user_end (inputs ++ [f])
      end
  end.

(** Every restart moves a bound to one of a file that was outside. *)
Definition overlap_fuel (files : list FileRef) : nat := (2 * length files + 1) * S (length files).

Definition user_of (key : option bytes) : option (option bytes) :=
  match key with None => Some None | Some k => u ← ExtractUserKey k; Some (Some u) end.

Definition GetOverlappingInputs (files_ : list (list FileRef)) (level : Z) (begin end_ : option bytes) :
    option (list FileRef) :=
  if (level >=? 0) && (level <? kNumLevels) then
    user_begin ← user_of begin;
    user_end ← user_of end_;
    files ← files_ !! Z.to_nat level;
    overlap_loop (overlap_fuel files) level files 0 user_begin user_end []
  else None.

Definition OverlapInLevel (files_ : list (list FileRef)) (level : Z) (smallest_user_key largest_user_key : option bytes) :
    option bool :=
  files ← files_ !! Z.to_nat level;
  SomeFileOverlapsRange (level >? 0) files smallest_user_key largest_user_key.

(** The loop over the levels, of which there are two at most. *)
Fixpoint pick_level_loop (n : nat) (options : Options) (files_ : list (list FileRef)) (smallest_user_key largest_user_key : bytes)
    (start limit : bytes) (level : Z) : option Z :=
  if level <? kMaxMemCompactLevel then
    match n with
    | O => None
    | S n' =>
        overlap ← OverlapInLevel files_ (level + 1) (Some smallest_user_key) (Some largest_user_key);
        if overlap : bool then Some level
        else
          too_many ← (if level + 2 <? kNumLevels then
                        overlaps ← GetOverlappingInputs files_ (level + 2) (Some start) (Some limit);
                        Some (TotalFileSize overlaps >? MaxGrandParentOverlapBytes options)
                      else Some false);
          if too_many : bool then Some level
          else pick_level_loop n' options files_ smallest_user_key largest_user_key start limit (level + 1)
    end
  else Some level.

Definition PickLevelForMemTableOutput (options : Options) (files_ : list (list FileRef))
    (smallest_user_key largest_user_key : bytes) : option Z :=
  overlap ← OverlapInLevel files_ 0 (Some smallest_user_key) (Some largest_user_key);
  if overlap : bool then Some 0
  else
    let start := InternalKey_make smallest_user_key kMaxSequenceNumber kValueTypeForSeek in
    let limit := InternalKey_make largest_user_key 0 0 in
    pick_level_loop 2 options files_ smallest_user_key largest_user_key start limit 0.

(** ** Ranges *)
Fixpoint get_range (inputs : list FileRef) (smallest largest : bytes) : option (bytes * bytes) :=
  match inputs with
  | [] => Some (smallest, largest)
  | f :: inputs =>
      r ← InternalKey_Compare (f_smallest f) smallest;
      let smallest := if r <? 0 then f_smallest f else smallest in
      r ← InternalKey_Compare (f_largest f) largest;
      let largest := if r >? 0 then f_largest f else largest in
      get_range inputs smallest largest
  end.

(** The inputs must not be empty. *)
Definition GetRange (inputs : list FileRef) : option (bytes * bytes) :=
  match inputs with [] => None | f :: inputs => get_range inputs (f_smallest f) (f_largest f) end.

Definition GetRange2 (inputs1 inputs2 : list FileRef) : option (bytes * bytes) := GetRange (inputs1 ++ inputs2).

(** ** Boundary files *)
Fixpoint find_largest (files : list FileRef) (largest_key : bytes) : option bytes :=
  match files with
  | [] => Some largest_key
  | f :: files =>
      r ← InternalKey_Compare (f_largest f) largest_key;
      find_largest files (if r >? 0 then f_largest f else largest_key)
  end.

(** [None] inside if there are no files. *)
Definition FindLargestKey (files : list FileRef) : option (option bytes) :=
  match files with
  | [] => Some None
  | f :: files => k ← find_largest files (f_largest f); Some (Some k)
  end.

Fixpoint find_boundary (level_files : list FileRef) (largest_key : bytes) (best : option FileRef) : option (option FileRef) :=
  match level_files with
  | [] => Some best
  | f :: level_files =>
      r ← InternalKey_Compare (f_smallest f) largest_key;
      boundary ← (if r >? 0 then
                    u ← ExtractUserKey (f_smallest f);
                    l ← ExtractUserKey largest_key;
                    r ← Compare u l; Some (r =? 0)
                  else Some false);
      best ← (if boundary : bool then
                match best with
                | None => Some (Some f)
                | Some b => r ← InternalKey_Compare (f_smallest f) (f_smallest b); Some (Some (if r <? 0 then f else b))
                end
              else Some best);
      find_boundary level_files largest_key best
  end.

Definition FindSmallestBoundaryFile (level_files : list FileRef) (largest_key : bytes) : option (option FileRef) :=
  find_boundary level_files largest_key None.

Fixpoint boundary_loop (n : nat) (level_files : list FileRef) (largest_key : bytes) (compaction_files : list FileRef) :
    option (list FileRef) :=
  match n with
  | O => None
  | S n' =>
      found ← FindSmallestBoundaryFile level_files largest_key;
      match found with
      | Some f => boundary_loop n' level_files (f_largest f) (compaction_files ++ [f])
      | None => Some compaction_files
      end
  end.

Definition AddBoundaryInputs (level_files compaction_files : list FileRef) : option (list FileRef) :=
  largest ← FindLargestKey compaction_files;
  match largest with
  | None => Some compaction_files
  | Some largest_key => boundary_loop (S (length level_files)) level_files largest_key compaction_files
  end.
End Keys.
