(* ===== verification/LdbVersionThms.v ===== *)
(** leveldb: lookups in a version, the first part of [version_set.cc].

    The entries of a file are those of its table; [version_ok] says how the
    files of a version are laid out.  A lookup then finds the newest visible
    entry of the key in all of the files. *)
From stdpp Require Import base numbers option strings gmap sorting sets list.
From S2P Require Import Prelude LdbSlice LdbCoding LdbComparator LdbDbformat LdbVersionEdit LdbIterator LdbFormat LdbTable LdbVersion.
Open Scope Z_scope.

Section Order.
Context {U : Comparator} {uvalid : bytes -> Prop} {uorder : bytes -> bytes -> Z} {UL : ComparatorLaw U uvalid uorder}.
#[local] Abbreviation iorder := (ikey_order uorder).
#[local] Abbreviation ivalid := (ikey_valid uvalid).

#[local] Instance ikey_CompareLaw : CompareLaw InternalKey_Compare ivalid iorder :=
  Comparator_compare (C := InternalKeyComparator U).

(** * Internal keys *)
Lemma ikey_valid_user k : ivalid k -> uvalid (ikey_user k) /\ ExtractUserKey k = Some (ikey_user k).
Proof. intros (u & t & -> & Ht & _ & Hu). by rewrite ikey_user_app, ExtractUserKey_app. Qed.

(** Whether a key is of a known type, and a value. *)
Definition ikey_type (k : bytes) : Z := ikey_tag k mod 256.

Lemma ikey_parse k :
  ivalid k -> ParseInternalKey k
  = Some (ikey_type k <=? kTypeValue, {| user_key := ikey_user k; sequence := ikey_tag k / 256; type := ikey_type k |}).
Proof.
  intros (u & t & -> & Ht & Hb & Hu). unfold ikey_type. by rewrite ParseInternalKey_app, ikey_user_app, ikey_tag_app.
Qed.

Lemma iorder_user a b : iorder a b <= 0 -> uorder (ikey_user a) (ikey_user b) <= 0.
Proof. unfold ikey_order. destruct (Z.eqb_spec (uorder (ikey_user a) (ikey_user b)) 0); lia. Qed.

Lemma iorder_same a b : uorder (ikey_user a) (ikey_user b) = 0 -> (iorder a b < 0 <-> ikey_tag b < ikey_tag a)
  /\ (iorder a b <= 0 <-> ikey_tag b <= ikey_tag a).
Proof.
  intros E. unfold ikey_order. rewrite E. cbn [Z.eqb].
  destruct (Z.gtb_spec (ikey_tag a) (ikey_tag b)), (Z.ltb_spec (ikey_tag a) (ikey_tag b)); lia.
Qed.

Lemma uorder_eq_trans a b c :
  uvalid a -> uvalid b -> uvalid c -> uorder a b = 0 -> uorder b c = 0 -> uorder a c = 0.
Proof.
  intros Ha Hb Hc E1 E2. pose proof (order_sym (compare := Compare) (order := uorder) a b Ha Hb).
  pose proof (order_sym (compare := Compare) (order := uorder) b c Hb Hc).
  pose proof (order_sym (compare := Compare) (order := uorder) a c Ha Hc).
  assert (uorder a c <= 0) by (apply (order_trans (compare := Compare) (valid := uvalid) a b c); [done..|lia|lia]).
  assert (uorder c a <= 0) by (apply (order_trans (compare := Compare) (valid := uvalid) c b a); [done..|lia|lia]). lia.
Qed.

Lemma uorder_eq_sym a b : uvalid a -> uvalid b -> uorder a b = 0 -> uorder b a = 0.
Proof. intros Ha Hb E. pose proof (order_sym (compare := Compare) (order := uorder) a b Ha Hb). lia. Qed.

(** * Files in order *)
Definition range_ok (f : FileRef) : Prop :=
  ivalid (f_smallest f) /\ ivalid (f_largest f) /\ iorder (f_smallest f) (f_largest f) <= 0.

(** The files of a level above 0 are apart. *)
Definition apart (files : list FileRef) : Prop :=
  forall i j f g, (i < j)%nat -> files !! i = Some f -> files !! j = Some g -> iorder (f_largest f) (f_smallest g) < 0.

Lemma apart_largest files i j f g :
  Forall range_ok files -> apart files -> (i < j)%nat -> files !! i = Some f -> files !! j = Some g ->
  iorder (f_largest f) (f_largest g) < 0.
Proof.
  intros Hr Ha Hij Hi Hj. destruct (Forall_lookup_1 _ _ _ _ Hr Hi) as (_ & Vf & _).
  destruct (Forall_lookup_1 _ _ _ _ Hr Hj) as (Vg & Vg' & Hg).
  by apply (order_lt_le_trans (CL := ikey_CompareLaw) _ (f_smallest g)); [..|apply (Ha i j)|].
Qed.

(** The files before index [i] end before the key, the others do not. *)
Definition file_split (files : list FileRef) (key : bytes) (i : nat) : Prop :=
  (i <= length files)%nat /\ forall j f, files !! j = Some f -> iorder (f_largest f) key < 0 <-> (j < i)%nat.

Lemma find_file_ok n files key l r :
  Forall range_ok files -> apart files -> ivalid key -> zlen files < 2 ^ 31 ->
  (l <= r <= length files)%nat -> (r - l <= n)%nat ->
  (forall j f, files !! j = Some f -> (j < l)%nat -> iorder (f_largest f) key < 0) ->
  (forall j f, files !! j = Some f -> (r <= j)%nat -> 0 <= iorder (f_largest f) key) ->
  exists i, find_file n files key (Z.of_nat l) (Z.of_nat r) = Some (Z.of_nat i) /\ file_split files key i.
Proof.
  intros Hr Ha Hk Hlen. revert l r. induction n as [|n IH]; intros l r Hlr Hn Hlo Hhi.
  - assert (l = r) as -> by lia. exists r. cbn [find_file]. rewrite Z.ltb_irrefl. split; [done|]. split; [lia|].
    intros j f Hj. split; [|by apply Hlo]. intros Hlt. destruct (Nat.lt_ge_cases j r) as [|Hge]; [done|].
    pose proof (Hhi j f Hj Hge). lia.
  - cbn [find_file]. destruct (Z.ltb_spec (Z.of_nat l) (Z.of_nat r)) as [Hlt|Hge].
    + rewrite (u32_small (Z.of_nat l + Z.of_nat r)) by (unfold in_uint; lia). set (m := Z.to_nat ((Z.of_nat l + Z.of_nat r) / 2)).
      assert (Z.of_nat m = (Z.of_nat l + Z.of_nat r) / 2) as Em by (unfold m; rewrite Z2Nat.id; [done|apply Z.div_pos; lia]).
      cbv zeta. unfold file_at. fold m. clearbody m.
      assert (l <= m < r)%nat as Hm.
      { pose proof (Z.div_mod (Z.of_nat l + Z.of_nat r) 2 ltac:(lia)). pose proof (Z.mod_pos_bound (Z.of_nat l + Z.of_nat r) 2 ltac:(lia)). lia. }
      destruct (lookup_lt_is_Some_2 files m) as [f Hf]; [lia|]. rewrite Hf.
      cbn [mbind option_bind]. destruct (Forall_lookup_1 _ _ _ _ Hr Hf) as (_ & Vf & _).
      rewrite (InternalKey_Compare_order (UL := UL) _ _ Vf Hk). cbn [mbind option_bind].
      destruct (Z.ltb_spec (iorder (f_largest f) key) 0) as [Hc|Hc].
      * rewrite u32_small by (unfold in_uint; lia). rewrite <- Em. replace (Z.of_nat m + 1) with (Z.of_nat (S m)) by lia.
        apply IH; [lia|lia| |done]. intros j g Hj Hjm. destruct (decide (j = m)) as [->|Hne]; [congruence|].
        destruct (Forall_lookup_1 _ _ _ _ Hr Hj) as (_ & Vg & _).
        apply (order_lt_trans (CL := ikey_CompareLaw) _ (f_largest f)); [done..| |done].
        apply (apart_largest files j m); [done|done|lia|done|done].
      * rewrite <- Em. apply IH; [lia|lia|done|]. intros j g Hj Hjm. destruct (decide (j = m)) as [->|Hne]; [congruence|].
        destruct (Forall_lookup_1 _ _ _ _ Hr Hj) as (_ & Vg & _).
        pose proof (apart_largest files m j f g Hr Ha ltac:(lia) Hf Hj) as Hfg.
        destruct (Z.le_gt_cases 0 (iorder (f_largest g) key)) as [|Hgt]; [done|].
        pose proof (order_lt_trans (CL := ikey_CompareLaw) _ _ _ Vf Vg Hk Hfg ltac:(lia)). lia.
    + assert (l = r) as -> by lia. exists r. split; [done|]. split; [lia|].
      intros j f Hj. split; [|by apply Hlo]. intros Hlt. destruct (Nat.lt_ge_cases j r) as [|Hge']; [done|].
      pose proof (Hhi j f Hj Hge'). lia.
Qed.

Lemma FindFile_ok files key :
  Forall range_ok files -> apart files -> ivalid key -> zlen files < 2 ^ 31 ->
  exists i, FindFile files key = Some (Z.of_nat i) /\ file_split files key i.
Proof.
  intros Hr Ha Hk Hlen. unfold FindFile. rewrite u32_small by (unfold in_uint; lia).
  change 0 with (Z.of_nat 0). apply find_file_ok; [done..|lia|lia| |].
  - intros j f _ Hj. lia.
  - intros j f Hj%lookup_lt_Some Hge. lia.
Qed.

(** * The entries of a key *)

(** An entry of the user key of [ikey] that is not newer. *)
Definition visible_at (ikey : bytes) (e : bytes * bytes) : Prop :=
  uorder (ikey_user e.1) (ikey_user ikey) = 0 /\ 0 <= iorder e.1 ikey.

(** The newest visible one of a set of entries, if any. *)
Definition newest (ents : bytes * bytes -> Prop) (ikey : bytes) (oe : option (bytes * bytes)) : Prop :=
  match oe with
  | Some e => ents e /\ visible_at ikey e /\ forall e', ents e' -> visible_at ikey e' -> ikey_tag e'.1 <= ikey_tag e.1
  | None => forall e, ents e -> ~ visible_at ikey e
  end.

Definition entry_valid (e : bytes * bytes) : Prop := ivalid e.1 /\ ikey_type e.1 <= kTypeValue.

(** What a lookup in a sorted table may give: the first entry that is not before
    the key, or nothing if that is of another user key. *)
Definition found_entry (es : list (bytes * bytes)) (ikey : bytes) (r : option (bytes * bytes)) : Prop :=
  exists i, splits_at iorder es ikey i
    /\ match r with
       | Some kv => es !! i = Some kv
       | None => forall kv, es !! i = Some kv -> uorder (ikey_user ikey) (ikey_user kv.1) <> 0
       end.

Definition same_user (ikey : bytes) (e : bytes * bytes) : bool := uorder (ikey_user e.1) (ikey_user ikey) =? 0.

Lemma found_newest es ikey r :
  ascending iorder es -> Forall entry_valid es -> ivalid ikey -> found_entry es ikey r ->
  newest (fun e => e ∈ es) ikey (e ← r; if same_user ikey e then Some e else None).
Proof.
  intros Hasc Hv Hk (i & [Hi Hsplit] & Hr).
  assert (forall e, e ∈ es -> entry_valid e) as Hval by (by apply Forall_forall).
  destruct (ikey_valid_user ikey Hk) as [Uk _].
  (* a visible entry is at or after the split, and then the first one is of the same user key *)
  assert (forall e, e ∈ es -> visible_at ikey e -> exists e0, es !! i = Some e0 /\ uorder (ikey_user e0.1) (ikey_user ikey) = 0
            /\ iorder e0.1 e.1 <= 0) as Hfirst.
  { intros e He [Hsame Hge]. apply list_elem_of_lookup in He as [j Hj].
    assert (i <= j)%nat as Hij.
    { destruct (Nat.lt_ge_cases j i) as [Hlt|]; [|done]. apply (Hsplit j e Hj) in Hlt. lia. }
    destruct (lookup_lt_is_Some_2 es i) as [e0 H0]; [apply lookup_lt_Some in Hj; lia|].
    destruct (Hval e0) as [V0 _]; [apply list_elem_of_lookup; by exists i|].
    destruct (Hval e) as [Ve _]; [apply list_elem_of_lookup; by exists j|].
    assert (iorder e0.1 e.1 <= 0) as Hle.
    { destruct (decide (i = j)) as [->|Hne].
      - assert (e0 = e) as -> by congruence. by rewrite (order_refl (CL := ikey_CompareLaw)).
      - apply Z.lt_le_incl. apply (ascending_lt (CL := ikey_CompareLaw) es i j); [done| |done|done|lia].
        eapply Forall_impl; [exact Hv|]. by intros x [? _]. }
    exists e0. split_and!; [done| |done].
    assert (0 <= iorder e0.1 ikey) as Hge0.
    { destruct (Z.le_gt_cases 0 (iorder e0.1 ikey)) as [|Hgt]; [done|]. apply (Hsplit i e0 H0) in Hgt. lia. }
    destruct (ikey_valid_user _ V0) as [U0 _]. destruct (ikey_valid_user _ Ve) as [Ue _].
    pose proof (iorder_user _ _ Hle) as H1.
    assert (iorder ikey e0.1 <= 0) as Hle0 by (by apply (order_le_flip (CL := ikey_CompareLaw))).
    pose proof (iorder_user _ _ Hle0) as H2.
    assert (uorder (ikey_user e0.1) (ikey_user ikey) <= 0).
    { apply (order_trans (compare := Compare) (valid := uvalid) _ (ikey_user e.1)); [done..|lia]. }
    pose proof (order_sym (compare := Compare) (order := uorder) _ _ U0 Uk). lia. }
  destruct r as [kv|]; cbn [mbind option_bind].
  - unfold same_user. destruct (Z.eqb_spec (uorder (ikey_user kv.1) (ikey_user ikey)) 0) as [E|E]; cbn [newest].
    + assert (kv ∈ es) as Hin by (apply list_elem_of_lookup; by exists i). split; [done|]. split.
      * split; [done|]. destruct (Z.le_gt_cases 0 (iorder kv.1 ikey)) as [|Hgt]; [done|]. apply (Hsplit i kv Hr) in Hgt. lia.
      * intros e He Hvis. destruct (Hfirst e He Hvis) as (e0 & H0 & _ & Hle). assert (e0 = kv) as -> by congruence.
        apply (iorder_same kv.1 e.1); [|done]. destruct Hvis as [Hs _]. destruct (Hval e He) as [Ve _]. destruct (Hval kv Hin) as [Vkv _].
        destruct (ikey_valid_user _ Ve) as [Ue _]. destruct (ikey_valid_user _ Vkv) as [Ukv _].
        apply (uorder_eq_trans _ (ikey_user ikey)); [done..|by apply uorder_eq_sym].
    + intros e He Hvis. destruct (Hfirst e He Hvis) as (e0 & H0 & Hs & _). congruence.
  - intros e He Hvis. destruct (Hfirst e He Hvis) as (e0 & H0 & Hs & _). apply (Hr e0 H0).
    destruct (Hval e0) as [V0 _]; [apply list_elem_of_lookup; by exists i|].
    destruct (ikey_valid_user _ V0) as [U0 _]. by apply uorder_eq_sym.
Qed.

(** * The layout of a version *)
Section Layout.
Context (entries : FileRef -> list (bytes * bytes)).

Record file_ok (f : FileRef) : Prop := {
  fo_range : range_ok f;
  fo_ascending : ascending iorder (entries f);
  fo_valid : Forall entry_valid (entries f);
  fo_within e : e ∈ entries f -> iorder (f_smallest f) e.1 <= 0 /\ iorder e.1 (f_largest f) <= 0;
  fo_largest : exists e, e ∈ entries f /\ e.1 = f_largest f
}.

(** The entries of [f] are newer than those of [g] of the same user key. *)
Definition newer (f g : FileRef) : Prop :=
  forall e e', e ∈ entries f -> e' ∈ entries g -> uorder (ikey_user e.1) (ikey_user e'.1) = 0 -> ikey_tag e'.1 < ikey_tag e.1.

Definition level_entries (files : list FileRef) (e : bytes * bytes) : Prop := exists f, f ∈ files /\ e ∈ entries f.

(** Level 0 is ordered by file numbers, the others by keys. *)
Definition level_ok (level : nat) (files : list FileRef) : Prop :=
  Forall file_ok files /\ zlen files < 2 ^ 31
  /\ match level with
     | O => NoDup (f_number <$> files) /\ forall f g, f ∈ files -> g ∈ files -> f_number g < f_number f -> newer f g
     | S _ => apart files
     end.

(** The newest visible entry of the first of the files that has one. *)
Definition first_newest (fs : list FileRef) (ikey : bytes) (oe : option (bytes * bytes)) : Prop :=
  match oe with
  | Some e => exists l1 f l2, fs = l1 ++ f :: l2 /\ newest (fun x => x ∈ entries f) ikey (Some e)
                /\ forall g, g ∈ l1 -> newest (fun x => x ∈ entries g) ikey None
  | None => forall g, g ∈ fs -> newest (fun x => x ∈ entries g) ikey None
  end.

Lemma overlapping_files_ok user files :
  uvalid user -> Forall range_ok files ->
  exists fs, overlapping_files user files = Some fs /\ sublist fs files
    /\ forall f, f ∈ files -> uorder (ikey_user (f_smallest f)) user <= 0 -> uorder user (ikey_user (f_largest f)) <= 0 -> f ∈ fs.
Proof.
  intros Hu. induction 1 as [|f files (Vs & Vl & _) Hr IH]; [exists []; split_and!; [done|constructor|set_solver]|].
  destruct IH as (fs & E & Hsub & Hin). cbn [overlapping_files].
  destruct (ikey_valid_user _ Vs) as [Us ->]. destruct (ikey_valid_user _ Vl) as [Ul ->]. cbn [mbind option_bind].
  rewrite (Compare_order (compare := Compare) user (ikey_user (f_smallest f))), (Compare_order (compare := Compare) user (ikey_user (f_largest f))) by done.
  cbn [mbind option_bind]. rewrite E.
  pose proof (order_sym (compare := Compare) (order := uorder) user (ikey_user (f_smallest f)) Hu Us).
  destruct (Z.geb_spec (uorder user (ikey_user (f_smallest f))) 0) as [Hge|Hlt]; cbn [mbind option_bind].
  - destruct (Z.leb_spec (uorder user (ikey_user (f_largest f))) 0) as [Hle|Hgt].
    + exists (f :: fs). split_and!; [done|by constructor|]. intros g [->|Hg]%elem_of_cons Hs Hl; [set_solver|].
      apply elem_of_cons. right. by apply Hin.
    + exists fs. split_and!; [done|by constructor|]. intros g [->|Hg]%elem_of_cons Hs Hl; [lia|by apply Hin].
  - exists fs. split_and!; [done|by constructor|]. intros g [->|Hg]%elem_of_cons Hs Hl; [lia|by apply Hin].
Qed.

Lemma visible_range f ikey e :
  file_ok f -> ivalid ikey -> e ∈ entries f -> visible_at ikey e ->
  uorder (ikey_user (f_smallest f)) (ikey_user ikey) <= 0 /\ uorder (ikey_user ikey) (ikey_user (f_largest f)) <= 0
  /\ 0 <= iorder (f_largest f) ikey.
Proof.
  intros Hf Hk He [Hs Hge]. destruct (fo_within f Hf e He) as [H1 H2]. destruct (fo_range f Hf) as (Vs & Vl & _).
  assert (ivalid e.1) as Ve by (by apply (proj1 (Forall_forall _ _) (fo_valid f Hf) e He)).
  destruct (ikey_valid_user _ Vs) as [Us _]. destruct (ikey_valid_user _ Vl) as [Ul _].
  destruct (ikey_valid_user _ Ve) as [Ue _]. destruct (ikey_valid_user _ Hk) as [Uk _].
  pose proof (uorder_eq_sym _ _ Ue Uk Hs). apply iorder_user in H1 as H3. apply iorder_user in H2 as H4. split_and!.
  - apply (order_trans (compare := Compare) (valid := uvalid) _ (ikey_user e.1)); [done..|lia].
  - apply (order_trans (compare := Compare) (valid := uvalid) _ (ikey_user e.1)); [done..|lia|done].
  - apply (order_le_flip (CL := ikey_CompareLaw)); [done..|]. apply (ikey_order_trans (UL := UL) _ e.1); [done..| |done].
    by apply (order_le_flip (CL := ikey_CompareLaw)).
Qed.

Lemma newest_none_files fs ikey : (forall g, g ∈ fs -> newest (fun x => x ∈ entries g) ikey None) <->
  newest (level_entries fs) ikey None.
Proof.
  split.
  - intros H e (f & Hf & He). by apply (H f Hf).
  - intros H g Hg e He. apply H. by exists g.
Qed.

(** Searching the files of a level is searching its entries. *)
Lemma search_level0 files user ikey :
  level_ok 0 files -> ivalid ikey -> ikey_user ikey = user ->
  exists fs, files_to_search 0 files user ikey = Some fs /\ (forall f, f ∈ fs -> f ∈ files)
    /\ forall oe, first_newest fs ikey oe -> newest (level_entries files) ikey oe.
Proof.
  intros (Hok & _ & Hnd & Hnew) Hk Hu. unfold files_to_search. case_bool_decide as Hnil.
  { exists []. split_and!; [done|set_solver|]. intros [e|]; cbn [first_newest].
    - intros (l1 & f & l2 & ? & _). by destruct l1.
    - intros _ e (f & Hf & _). subst files. by apply not_elem_of_nil in Hf. }
  destruct (ikey_valid_user ikey Hk) as [Uk _]. rewrite Hu in Uk.
  destruct (overlapping_files_ok user files Uk) as (tmp & -> & Hsub & Hin).
  { eapply Forall_impl; [exact Hok|]. apply fo_range. }
  cbn [mbind option_bind]. exists (merge_sort NewestFirst tmp). pose proof (merge_sort_Permutation NewestFirst tmp) as Hp.
  assert (forall f, f ∈ merge_sort NewestFirst tmp -> f ∈ files) as Hback.
  { intros f Hf. rewrite Hp in Hf. apply (elem_of_submseteq tmp files); [done|by apply sublist_submseteq]. }
  split_and!; [done|done|].
  assert (forall f e, f ∈ files -> e ∈ entries f -> visible_at ikey e -> f ∈ merge_sort NewestFirst tmp) as Hvis.
  { intros f e Hf He Hv. rewrite Hp. destruct (visible_range f ikey e (proj1 (Forall_forall _ _) Hok f Hf) Hk He Hv) as (H1 & H2 & _).
    rewrite Hu in H1, H2. by apply Hin. }
  intros [e|]; cbn [first_newest].
  - intros (l1 & f & l2 & Hfs & (He & Hv & Hbest) & Hbefore).
    assert (f ∈ files) as Hf by (apply Hback; rewrite Hfs; set_solver).
    split; [by exists f|]. split; [done|]. intros e' (g & Hg & He') Hv'.
    pose proof (Hvis g e' Hg He' Hv') as Hgs. rewrite Hfs in Hgs. rewrite elem_of_app, elem_of_cons in Hgs.
    destruct Hgs as [Hgs|[->|Hgs]]; [by destruct (Hbefore g Hgs e' He')|by apply Hbest|].
    assert (f_number g <= f_number f) as Hle.
    { assert (Sorted NewestFirst (merge_sort NewestFirst tmp)) as Hsort.
      { apply Sorted_merge_sort. intros a b. unfold NewestFirst. lia. }
      assert (StronglySorted NewestFirst (merge_sort NewestFirst tmp)) as Hss.
      { apply Sorted_StronglySorted; [|done]. intros a b c. unfold NewestFirst. lia. }
      rewrite Hfs in Hss. apply StronglySorted_app in Hss as (_ & _ & Hss).
      apply StronglySorted_inv in Hss as [_ Hall]. by apply (proj1 (Forall_forall _ _) Hall g). }
    destruct (decide (f_number g = f_number f)) as [E|Hne].
    + assert (g = f) as ->; [|by apply Hbest].
      apply list_elem_of_lookup in Hg as [i Hi], Hf as [j Hj].
      assert (i = j) as ->; [|congruence].
      apply (NoDup_lookup _ i j (f_number f) Hnd); by rewrite list_lookup_fmap, ?Hi, ?Hj; cbn; congruence.
    + apply Z.lt_le_incl. apply (Hnew f g Hf Hg ltac:(lia) e e' He He').
      destruct (ikey_valid_user ikey Hk) as [Uk' _]. destruct Hv as [Hs _], Hv' as [Hs' _].
      assert (ivalid e.1 /\ ivalid e'.1) as [Ve Ve'].
      { split; [by apply (proj1 (Forall_forall _ _) (fo_valid f (proj1 (Forall_forall _ _) Hok f Hf)) e He)
               |by apply (proj1 (Forall_forall _ _) (fo_valid g (proj1 (Forall_forall _ _) Hok g Hg)) e' He')]. }
      destruct (ikey_valid_user _ Ve) as [Ue _]. destruct (ikey_valid_user _ Ve') as [Ue' _].
      apply (uorder_eq_trans _ (ikey_user ikey)); [done..|by apply uorder_eq_sym].
  - rewrite newest_none_files. intros H e (f & Hf & He) Hv. apply (H e); [|done]. exists f. split; [by apply (Hvis f e)|done].
Qed.

Lemma entry_key_valid f e : file_ok f -> e ∈ entries f -> ivalid e.1 /\ uvalid (ikey_user e.1).
Proof.
  intros Hf He. destruct (proj1 (Forall_forall _ _) (fo_valid f Hf) e He) as [Ve _]. split; [done|]. by apply ikey_valid_user.
Qed.

(** In a level above 0 the candidate is the first file that ends at or after the key. *)
Lemma search_level_S level files user ikey :
  level_ok (S level) files -> ivalid ikey -> ikey_user ikey = user ->
  exists fs, files_to_search (S level) files user ikey = Some fs /\ (forall f, f ∈ fs -> f ∈ files)
    /\ forall oe, first_newest fs ikey oe -> newest (level_entries files) ikey oe.
Proof.
  intros (Hok & Hlen & Hap) Hk Hu. unfold files_to_search. case_bool_decide as Hnil.
  { exists []. split_and!; [done|set_solver|]. intros [e|]; cbn [first_newest].
    - intros (l1 & f & l2 & ? & _). by destruct l1.
    - intros _ e (f & Hf & _). subst files. by apply not_elem_of_nil in Hf. }
  assert (Forall range_ok files) as Hr by (eapply Forall_impl; [exact Hok|]; apply fo_range).
  destruct (ikey_valid_user ikey Hk) as [Uk _]. rewrite Hu in Uk.
  destruct (FindFile_ok files ikey Hr Hap Hk Hlen) as (i & -> & Hi & Hsplit). cbn [mbind option_bind].
  assert (forall f e, f ∈ files -> e ∈ entries f -> visible_at ikey e -> exists j, files !! j = Some f /\ (i <= j)%nat) as Hvis.
  { intros f e Hf He Hv. pose proof (proj1 (Forall_forall _ _) Hok f Hf) as Hfok.
    destruct (visible_range f ikey e Hfok Hk He Hv) as (_ & _ & Hge). apply list_elem_of_lookup in Hf as [j Hj].
    exists j. split; [done|]. destruct (Nat.lt_ge_cases j i) as [Hlt|]; [|done]. apply (Hsplit j f Hj) in Hlt. lia. }
  destruct (Z.geb_spec (Z.of_nat i) (zlen files)) as [Hend|Hin].
  { exists []. split_and!; [done|set_solver|]. intros [e|]; cbn [first_newest].
    - intros (l1 & f & l2 & ? & _). by destruct l1.
    - intros _ e (f & Hf & He) Hv. destruct (Hvis f e Hf He Hv) as (j & Hj%lookup_lt_Some & Hij). lia. }
  destruct (lookup_lt_is_Some_2 files i) as [f Hf]; [lia|]. unfold file_at. rewrite Nat2Z.id, Hf. cbn [mbind option_bind].
  assert (f ∈ files) as Hfin by (apply list_elem_of_lookup; by exists i).
  pose proof (proj1 (Forall_forall _ _) Hok f Hfin) as Hfok. destruct (fo_range f Hfok) as (Vs & Vl & _).
  destruct (ikey_valid_user _ Vs) as [Us ->]. destruct (ikey_valid_user _ Vl) as [Ul _]. cbn [mbind option_bind].
  rewrite (Compare_order (compare := Compare) user (ikey_user (f_smallest f)) Uk Us). cbn [mbind option_bind].
  (* an entry of a later file comes after the largest key of this one *)
  assert (forall j g e, files !! j = Some g -> (i < j)%nat -> e ∈ entries g -> iorder (f_largest f) e.1 < 0) as Hlater.
  { intros j g e Hj Hij He. assert (g ∈ files) as Hg by (apply list_elem_of_lookup; by exists j).
    pose proof (proj1 (Forall_forall _ _) Hok g Hg) as Hgok. destruct (fo_range g Hgok) as (Vgs & _ & _).
    apply (order_lt_le_trans (CL := ikey_CompareLaw) _ (f_smallest g)); [done|done|by apply (entry_key_valid g)| |].
    - by apply (Hap i j).
    - by apply (fo_within g Hgok). }
  assert (0 <= iorder (f_largest f) ikey) as Hfge.
  { destruct (Z.le_gt_cases 0 (iorder (f_largest f) ikey)) as [|Hlt]; [done|]. apply (Hsplit i f Hf) in Hlt. lia. }
  (* a visible entry of a later file is older than a visible one of this file *)
  assert (forall g e, g ∈ files -> e ∈ entries g -> visible_at ikey e -> g = f \/
            exists e0, e0 ∈ entries f /\ visible_at ikey e0 /\ ikey_tag e.1 < ikey_tag e0.1) as Hcover.
  { intros g e Hg He Hv. destruct (Hvis g e Hg He Hv) as (j & Hj & Hij).
    destruct (decide (j = i)) as [->|Hne]; [left; congruence|right].
    destruct (fo_largest f Hfok) as (e0 & He0 & Ee0). exists e0. pose proof (Hlater j g e Hj ltac:(lia) He) as Hlt.
    pose proof (proj1 (Forall_forall _ _) Hok g Hg) as Hgok. destruct (entry_key_valid g e Hgok He) as [Ve Ue].
    assert (uorder (ikey_user (f_largest f)) (ikey_user ikey) = 0) as Hsame.
    { destruct Hv as [Hs _]. destruct (ikey_valid_user _ Hk) as [Uk' _].
      assert (uorder (ikey_user (f_largest f)) (ikey_user ikey) <= 0).
      { apply (order_trans (compare := Compare) (valid := uvalid) _ (ikey_user e.1)); [done..| |lia].
        apply iorder_user. lia. }
      assert (uorder (ikey_user ikey) (ikey_user (f_largest f)) <= 0).
      { apply iorder_user. by apply (order_le_flip (CL := ikey_CompareLaw)). }
      pose proof (order_sym (compare := Compare) (order := uorder) _ _ Ul Uk'). lia. }
    rewrite Ee0. split_and!; [done| |].
    - split; [by rewrite Ee0|by rewrite Ee0].
    - apply (iorder_same (f_largest f) e.1); [|done]. destruct Hv as [Hs _]. destruct (ikey_valid_user _ Hk) as [Uk' _].
      apply (uorder_eq_trans _ (ikey_user ikey)); [done..|by apply uorder_eq_sym]. }
  destruct (Z.ltb_spec (uorder user (ikey_user (f_smallest f))) 0) as [Hbefore|Hafter].
  - exists []. split_and!; [done|set_solver|]. intros [e|]; cbn [first_newest].
    + intros (l1 & g & l2 & ? & _). by destruct l1.
    + intros _ e (g & Hg & He) Hv. assert (exists e0, e0 ∈ entries f /\ visible_at ikey e0) as (e0 & He0 & Hv0).
      { destruct (Hcover g e Hg He Hv) as [->|(e0 & ? & ? & _)]; [by exists e|by exists e0]. }
      destruct (visible_range f ikey e0 Hfok Hk He0 Hv0) as (H1 & _ & _). rewrite Hu in H1.
      pose proof (order_sym (compare := Compare) (order := uorder) _ _ Us Uk). lia.
  - exists [f]. split_and!; [done|set_solver|]. intros [e|]; cbn [first_newest].
    + intros (l1 & g & l2 & Hg & (He & Hv & Hbest) & _).
      assert (g = f) as ->.
      { destruct l1 as [|x [|y l1]]; cbn in Hg; by injection Hg. }
      split; [by exists f|]. split; [done|]. intros e' (g & Hg' & He') Hv'.
      destruct (Hcover g e' Hg' He' Hv') as [->|(e0 & He0 & Hv0 & Hlt)]; [by apply Hbest|].
      pose proof (Hbest e0 He0 Hv0). lia.
    + intros Hnone e (g & Hg & He) Hv. destruct (Hcover g e Hg He Hv) as [->|(e0 & He0 & Hv0 & _)].
      * apply (Hnone f ltac:(set_solver) e He Hv).
      * apply (Hnone f ltac:(set_solver) e0 He0 Hv0).
Qed.

Lemma search_level_ok level files user ikey :
  level_ok level files -> ivalid ikey -> ikey_user ikey = user ->
  exists fs, files_to_search level files user ikey = Some fs /\ (forall f, f ∈ fs -> f ∈ files)
    /\ forall oe, first_newest fs ikey oe -> newest (level_entries files) ikey oe.
Proof. destruct level; [apply search_level0|apply search_level_S]. Qed.

(** * Get *)

(** What the table cache promises for the files that [live] has. *)
Class TableGetterLaw {TC : Type} (TG : TableGetter TC) (good : TC -> Prop) (live : FileRef -> Prop) : Prop :=
  TableCache_Get_law tc options f ikey :
    good tc -> live f -> ivalid ikey ->
    exists r tc', TableCache_Get tc options (f_number f) (f_size f) ikey = Some (Status_OK, r, tc') /\ good tc'
      /\ found_entry (entries f) ikey r.

Context {TC : Type} {TG : TableGetter TC} {good : TC -> Prop} {live : FileRef -> Prop} {TL : TableGetterLaw TG good live}.

(** The status and the value for an entry. *)
Definition answer (value : bytes) (oe : option (bytes * bytes)) : Status * bytes :=
  match oe with
  | Some e => if ikey_type e.1 =? kTypeValue then (Status_OK, e.2) else (Status_NotFound [] [], value)
  | None => (Status_NotFound [] [], value)
  end.

Lemma SaveValue_ok ikey value e :
  ivalid ikey -> entry_valid e ->
  SaveValue (ikey_user ikey) SNotFound value e.1 e.2
  = Some (if same_user ikey e then (if ikey_type e.1 =? kTypeValue then (SFound, e.2) else (SDeleted, value)) else (SNotFound, value)).
Proof.
  intros Hk [Ve Ht]. unfold SaveValue. rewrite (ikey_parse e.1 Ve), (proj2 (Z.leb_le _ _) Ht). cbn [user_key type].
  destruct (ikey_valid_user _ Ve) as [Ue _]. destruct (ikey_valid_user _ Hk) as [Uk _].
  rewrite (Compare_order (compare := Compare) _ _ Ue Uk). cbn [mbind option_bind]. unfold same_user.
  destruct (Z.eqb_spec (uorder (ikey_user e.1) (ikey_user ikey)) 0); [|done]. by destruct (ikey_type e.1 =? kTypeValue).
Qed.

Lemma get_in_files_ok options ikey level fs value st :
  ivalid ikey -> Forall file_ok fs -> Forall live fs -> good (gs_cache st) ->
  exists oe st', get_in_files options (ikey_user ikey) ikey level fs value st
      = Some ((fun e => answer value (Some e)) <$> oe, st') /\ good (gs_cache st') /\ first_newest fs ikey oe.
Proof.
  intros Hk. revert st. induction fs as [|f fs IH]; intros st Hok Hlive Hg.
  - exists None, st. split_and!; [done|done|]. cbn. set_solver.
  - apply Forall_cons in Hok as [Hf Hok]. apply Forall_cons in Hlive as [Hlf Hlive]. cbn [get_in_files].
    assert (gs_cache (charge_seek st) = gs_cache st) as ->.
    { unfold charge_seek. destruct (last_file_read st) as [[? ?]|]; [|done]. by destruct (seek_file (gs_stats st)). }
    destruct (TableCache_Get_law (gs_cache st) options f ikey Hg Hlf Hk) as (r & tc & -> & Hg' & Hfound).
    cbn [mbind option_bind]. pose proof (found_newest (entries f) ikey r (fo_ascending f Hf) (fo_valid f Hf) Hk Hfound) as Hn.
    assert (forall st1, good (gs_cache st1) -> newest (fun e => e ∈ entries f) ikey None ->
      exists oe st', get_in_files options (ikey_user ikey) ikey level fs value st1
        = Some ((fun e => answer value (Some e)) <$> oe, st') /\ good (gs_cache st') /\ first_newest (f :: fs) ikey oe) as Hgo.
    { intros st1 Hg1 Hnone. destruct (IH st1 Hok Hlive Hg1) as (oe & st' & E & Hgood & Hfirst). exists oe, st'.
      split_and!; [done|done|]. destruct oe as [e|]; cbn [first_newest] in *.
      - destruct Hfirst as (l1 & g & l2 & -> & Hbest & Hbefore). exists (f :: l1), g, l2. split_and!; [done|done|].
        intros x [->|Hx]%elem_of_cons; [done|by apply Hbefore].
      - intros x [->|Hx]%elem_of_cons; [done|by apply Hfirst]. }
    destruct r as [kv|]; cbn [mbind option_bind] in Hn |- *; [|by apply Hgo].
    assert (entry_valid kv) as Vkv.
    { destruct Hfound as (i & _ & Hi). apply (proj1 (Forall_forall _ _) (fo_valid f Hf)). apply list_elem_of_lookup. by exists i. }
    rewrite (SaveValue_ok ikey value kv Hk Vkv). cbn [mbind option_bind]. destruct (same_user ikey kv); [|by apply Hgo].
    assert (first_newest (f :: fs) ikey (Some kv)) as Hfirst.
    { exists [], f, fs. split; [done|]. split; [exact Hn|]. set_solver. }
    exists (Some kv). cbn [fmap option_fmap option_map answer].
    destruct (ikey_type kv.1 =? kTypeValue); cbn [Status_ok Status_OK]; eexists; by split_and!.
Qed.

(** All levels, and that newer entries are in the lower ones. *)
Record version_ok (first : nat) (levels : list (list FileRef)) : Prop := {
  vo_level i files : levels !! i = Some files -> level_ok (first + i) files;
  vo_live files : files ∈ levels -> Forall live files;
  vo_newer i j fs gs f g : (i < j)%nat -> levels !! i = Some fs -> levels !! j = Some gs -> f ∈ fs -> g ∈ gs -> newer f g
}.

Lemma version_ok_tail first files levels : version_ok first (files :: levels) -> version_ok (S first) levels.
Proof.
  intros [H1 H2 H3]. split.
  - intros i fs Hi. specialize (H1 (S i) fs Hi). by rewrite Nat.add_succ_r in H1.
  - intros fs Hfs. apply H2. set_solver.
  - intros i j fs gs f g Hij Hi Hj. apply (H3 (S i) (S j)); [lia|done|done].
Qed.

Definition version_entries (levels : list (list FileRef)) (e : bytes * bytes) : Prop :=
  exists files, files ∈ levels /\ level_entries files e.

Lemma get_in_levels_ok options ikey level levels value st :
  ivalid ikey -> version_ok level levels -> good (gs_cache st) ->
  exists oe s v st', get_in_levels options (ikey_user ikey) ikey level levels value st = Some (s, v, st')
    /\ (s, v) = answer value oe /\ good (gs_cache st') /\ newest (version_entries levels) ikey oe.
Proof.
  intros Hk. revert level st. induction levels as [|files levels IH]; intros level st Hv Hg.
  - exists None, (Status_NotFound [] []), value, st. split_and!; [done..|].
    intros e (files & Hf & _). by apply not_elem_of_nil in Hf.
  - cbn [get_in_levels]. pose proof (vo_level _ _ Hv 0%nat files eq_refl) as Hl. rewrite Nat.add_0_r in Hl.
    destruct (search_level_ok level files (ikey_user ikey) ikey Hl Hk eq_refl) as (fs & -> & Hsub & Hbest).
    cbn [mbind option_bind]. destruct Hl as (Hok & _).
    assert (Forall live files) as Hlive by (apply (vo_live _ _ Hv); set_solver).
    destruct (get_in_files_ok options ikey level fs value st Hk) as (oe & st1 & -> & Hg1 & Hfirst).
    { apply Forall_forall. intros f Hf. by apply (proj1 (Forall_forall _ _) Hok), Hsub. }
    { apply Forall_forall. intros f Hf. by apply (proj1 (Forall_forall _ _) Hlive), Hsub. }
    { done. }
    apply Hbest in Hfirst. cbn [mbind option_bind]. destruct oe as [e|]; cbn [fmap option_fmap option_map].
    + exists (Some e). destruct (answer value (Some e)) as [s v] eqn:Ea. exists s, v, st1. split_and!; [done|done|done|].
      destruct Hfirst as ((f & Hf & He) & Hvis & Hmax). split; [exists files; split; [set_solver|by exists f]|]. split; [done|].
      intros e' (gs & Hgs & (g & Hg' & He')) Hvis'. apply elem_of_cons in Hgs as [->|Hgs]; [apply Hmax; [by exists g|done]|].
      apply list_elem_of_lookup in Hgs as [j Hj]. apply Z.lt_le_incl.
      apply (vo_newer _ _ Hv 0%nat (S j) files gs f g); [lia|done|done|done|done|done|done|].
      pose proof (proj1 (Forall_forall _ _) Hok f Hf) as Hfok. destruct (entry_key_valid f e Hfok He) as [_ Ue].
      pose proof (vo_level _ _ Hv (S j) gs Hj) as (Hok' & _). pose proof (proj1 (Forall_forall _ _) Hok' g Hg') as Hgok.
      destruct (entry_key_valid g e' Hgok He') as [_ Ue']. destruct Hvis as [Hs _], Hvis' as [Hs' _].
      destruct (ikey_valid_user _ Hk) as [Uk _].
      apply (uorder_eq_trans _ (ikey_user ikey)); [done..|by apply uorder_eq_sym].
    + destruct (IH (S level) st1 (version_ok_tail _ _ _ Hv) Hg1) as (oe & s & v & st' & E & Ea & Hg' & Hn).
      exists oe, s, v, st'. split_and!; [exact E|done|done|]. destruct oe as [e|]; cbn [newest] in *.
      * destruct Hn as ((gs & Hgs & He) & Hvis & Hmax). split; [exists gs; split; [set_solver|done]|]. split; [done|].
        intros e' (hs & Hhs & He') Hvis'. apply elem_of_cons in Hhs as [->|Hhs]; [by destruct (Hfirst e' He')|].
        apply Hmax; [by exists hs|done].
      * intros e (hs & Hhs & He) Hvis. apply elem_of_cons in Hhs as [->|Hhs]; [by apply (Hfirst e He)|].
        apply (Hn e); [by exists hs|done].
Qed.

(** C8: A lookup in a version finds the newest entry of the user key, in all of
    its files, that is not newer than the sequence number: its value, or "not
    found" for a deletion or if there is none.  Here the files of level 0 may
    overlap and newer ones have larger numbers, those of another level are
    apart (two of them may share a user key), and entries in lower levels are
    newer; the table cache finds in a file the first entry that is not before
    the key. *)
Theorem version_get levels tc options u s value :
  version_ok 0 levels -> good tc -> uvalid u -> Forall is_byte u -> zlen u + 8 < 2 ^ 32 -> valid_seq s ->
  exists k stats tc' oe r v, LookupKey_make u s = Some k
    /\ Version_Get levels tc options k value = Some (r, v, stats, tc') /\ good tc'
    /\ newest (version_entries levels) (LookupKey_internal_key k) oe /\ (r, v) = answer value oe.
Proof.
  intros Hv Hg Hu Hb Hl Hs. destruct (LookupKey_make_ok u s Hl) as (k & Ek & Ei & Eu & _).
  assert (ivalid (LookupKey_internal_key k)) as Hk.
  { rewrite Ei. exists u, (EncodeFixed64 (PackSequenceAndType s kValueTypeForSeek)). split_and!; [done|done|apply EncodeFixed64_bytes|done]. }
  assert (ikey_user (LookupKey_internal_key k) = u) as Huser by (by rewrite Ei, ikey_user_app).
  destruct (get_in_levels_ok options (LookupKey_internal_key k) 0 levels value
              {| gs_stats := GetStats_none; last_file_read := None; gs_cache := tc |} Hk Hv Hg) as (oe & r & v & st & E & Ea & Hg' & Hn).
  exists k, (gs_stats st), (gs_cache st), oe, r, v. split_and!; [done| |done|done|done].
  unfold Version_Get. rewrite Eu. rewrite Huser in E. by rewrite E.
Qed.
End Layout.
End Order.

(** * A concrete version *)

(** Tables in memory, by the numbers of their files. *)
Definition ListTables {U : Comparator} : TableGetter (list (Z * list (bytes * bytes))) := {|
  TableCache_Get tc _ n _ ikey :=
    t ← head (filter (fun t => t.1 = n) tc);
    i ← list_seek InternalKey_Compare t.2 ikey;
    Some (Status_OK, t.2 !! i, tc)
|}.

Definition sample_key (u s t : Z) : bytes := InternalKey_make [u] s t.

Definition sample_table_a : list (bytes * bytes) := [(sample_key 97 7 1, [1])].
Definition sample_table_b : list (bytes * bytes) := [(sample_key 97 3 0, []); (sample_key 98 2 1, [2])].

Definition sample_file (n : Z) (s l : bytes) : FileRef := {| f_addr := n; f_meta := FileMetaData_make n 100 s l |}.

Definition sample_levels : list (list FileRef) :=
  [[sample_file 5 (sample_key 97 7 1) (sample_key 97 7 1)]; [sample_file 4 (sample_key 97 3 0) (sample_key 98 2 1)]].

Definition sample_entries (f : FileRef) : list (bytes * bytes) := if f_number f =? 5 then sample_table_a else sample_table_b.

Lemma sample_key_valid u s t : is_byte u -> ikey_valid (Forall is_byte) (sample_key u s t).
Proof. intros Hu. apply ikey_valid_append. by constructor. Qed.

#[local] Abbreviation bytes_ok := (Forall is_byte).
#[local] Abbreviation sample_live := (fun f => f_number f = 5 \/ f_number f = 4).

Lemma sample_a_ok : file_ok (uvalid := bytes_ok) (uorder := Slice_compare) sample_entries (sample_file 5 (sample_key 97 7 1) (sample_key 97 7 1)).
Proof.
  split; cbn [sample_entries f_number f_meta sample_file number FileMetaData_make Z.eqb].
  - split_and!; [by apply sample_key_valid..|by vm_compute].
  - intros [|i] x y Hx Hy; done.
  - apply Forall_singleton. split; [by apply sample_key_valid|done].
  - intros e ->%list_elem_of_singleton. by vm_compute.
  - eexists. split; [by apply list_elem_of_singleton|done].
Qed.

Lemma sample_b_ok : file_ok (uvalid := bytes_ok) (uorder := Slice_compare) sample_entries (sample_file 4 (sample_key 97 3 0) (sample_key 98 2 1)).
Proof.
  split; cbn [sample_entries f_number f_meta sample_file number FileMetaData_make].
  - split_and!; [by apply sample_key_valid..|by vm_compute].
  - intros [|[|i]] x y Hx Hy; [|done..]. injection Hx as <-. injection Hy as <-. by vm_compute.
  - apply Forall_cons. split; [|apply Forall_singleton]; (split; [by apply sample_key_valid|done]).
  - intros e [->|[->|[]%not_elem_of_nil]%elem_of_cons]%elem_of_cons; by vm_compute.
  - exists (sample_key 98 2 1, [2]). split; [|done]. apply elem_of_cons. right. by apply list_elem_of_singleton.
Qed.

Lemma sample_levels_ok : version_ok (uvalid := bytes_ok) (uorder := Slice_compare) sample_entries (live := sample_live) 0 sample_levels.
Proof.
  split.
  - intros [|[|i]] files Hi; [injection Hi as <-|injection Hi as <-|by destruct i].
    + split; [by apply Forall_singleton, sample_a_ok|]. split; [done|]. split; [apply NoDup_singleton|].
      intros f g ->%list_elem_of_singleton ->%list_elem_of_singleton Hlt. lia.
    + split; [by apply Forall_singleton, sample_b_ok|]. split; [done|].
      intros i j f g Hij Hi Hj. destruct i as [|i], j as [|j]; try lia; by destruct j.
  - intros files [->|[->|[]%not_elem_of_nil]%elem_of_cons]%elem_of_cons; apply Forall_singleton; cbn; by auto.
  - intros [|[|i]] [|[|j]] fs gs f g Hij Hi Hj Hf Hg; try lia; try (by destruct i); try (by destruct j).
    injection Hi as <-. injection Hj as <-. apply list_elem_of_singleton in Hf as ->, Hg as ->.
    intros e e' He He' Hs. apply list_elem_of_singleton in He as ->.
    apply elem_of_cons in He' as [->|He']; [by vm_compute|]. apply list_elem_of_singleton in He' as ->. by vm_compute in Hs.
Qed.

#[local] Instance sample_getter_law :
  TableGetterLaw (uvalid := bytes_ok) (uorder := Slice_compare) sample_entries
    ListTables (fun tc => tc = [(5, sample_table_a); (4, sample_table_b)]) sample_live.
Proof.
  intros tc options f ikey -> Hf Hk.
  assert (ascending (ikey_order Slice_compare) (sample_entries f) /\ Forall (fun kv => ikey_valid bytes_ok kv.1) (sample_entries f)) as [Ha Hv].
  { unfold sample_entries. destruct Hf as [-> | ->]; cbn [Z.eqb Pos.eqb].
    - split; [exact (fo_ascending _ _ sample_a_ok)|]. eapply Forall_impl; [exact (fo_valid _ _ sample_a_ok)|]. by intros x [? _].
    - split; [exact (fo_ascending _ _ sample_b_ok)|]. eapply Forall_impl; [exact (fo_valid _ _ sample_b_ok)|]. by intros x [? _]. }
  destruct (list_seek_splits (InternalKey_Compare (U := BytewiseComparator)) (CL := Comparator_compare (C := InternalKeyComparator BytewiseComparator))
              (sample_entries f) ikey Ha Hv Hk) as (i & Ei & Hi).
  exists (sample_entries f !! i), [(5, sample_table_a); (4, sample_table_b)]. split; [|split; [done|]].
  - cbn [TableCache_Get ListTables].
    assert (head (filter (fun t : Z * list (bytes * bytes) => t.1 = f_number f) [(5, sample_table_a); (4, sample_table_b)])
            = Some (f_number f, sample_entries f)) as ->.
    { unfold sample_entries. by destruct Hf as [-> | ->]. }
    cbn [mbind option_bind snd]. by rewrite Ei.
  - exists i. split; [done|]. destruct (sample_entries f !! i) eqn:E; [done|]. congruence.
Qed.

Lemma version_get_witness :
  exists k stats tc' r v, LookupKey_make [97] 9 = Some k
    /\ Version_Get (U := BytewiseComparator) (TG := ListTables) sample_levels [(5, sample_table_a); (4, sample_table_b)]
         ReadOptions_default k [] = Some (r, v, stats, tc') /\ (r, v) = (Status_OK, [1]).
Proof.
  destruct (version_get (U := BytewiseComparator) sample_entries (TL := sample_getter_law) sample_levels
              [(5, sample_table_a); (4, sample_table_b)] ReadOptions_default [97] 9 [] sample_levels_ok eq_refl)
    as (k & stats & tc' & oe & r & v & Ek & Eg & _ & _ & _); [by repeat constructor|by repeat constructor|done|done|].
  exists k, stats, tc', r, v. split; [exact Ek|]. split; [exact Eg|].
  assert (exists k0 stats0 tc0, LookupKey_make [97] 9 = Some k0
    /\ Version_Get (U := BytewiseComparator) (TG := ListTables) sample_levels [(5, sample_table_a); (4, sample_table_b)]
         ReadOptions_default k0 [] = Some (Status_OK, [1], stats0, tc0)) as (k0 & stats0 & tc0 & Ek0 & Eg0).
  { eexists _, _, _. split; [vm_compute; reflexivity|]. vm_compute. reflexivity. }
  assert (k0 = k) as -> by congruence. congruence.
Defined.
