(* ===== verification/LdbVersionSet.v ===== *)
(** leveldb: versions, the set of them and the builder that applies edits, from
    [version_set.cc].

    Versions and files are objects at addresses: the versions with their links in
    a ring, the files with what changes of them, their count of references and
    of seeks.  [new] gives the addresses that are arguments.  A double is a
    binary floating-point number of 53 bits. *)
From Stdlib Require Import SpecFloat.
From stdpp Require Import base numbers option strings gmap sets list.
From S2P Require Import Prelude LdbSlice LdbFilename LdbComparator LdbDbformat LdbLogWriter LdbVersionEdit LdbTable LdbVersion LdbRing.
Open Scope Z_scope.
Open Scope c_scope.

(** * Doubles *)
Definition double_of (z : Z) : spec_float := binary_normalize 53 1024 z 0 false.
Definition double_mul : spec_float -> spec_float -> spec_float := SFmul 53 1024.
Definition double_div : spec_float -> spec_float -> spec_float := SFdiv 53 1024.

(** The loop multiplies by ten from level 2 on. *)
Fixpoint max_bytes_loop (n : nat) (result : spec_float) : spec_float :=
  match n with O => result | S n' => max_bytes_loop n' (double_mul result (double_of 10)) end.

Definition MaxBytesForLevel (level : Z) : spec_float :=
  max_bytes_loop (Z.to_nat (level - 1)) (double_mul (double_of 10) (double_of 1048576)).

(** * State *)
Record Version : Type := {
  files_ : list (list FileRef);
  refs_ : Z;
  file_to_compact_ : option FileRef;
  file_to_compact_level_ : Z;
  compaction_score_ : spec_float;
  compaction_level_ : Z
}.

Definition Version_make : Version := {|
  files_ := replicate (Z.to_nat kNumLevels) []; refs_ := 0; file_to_compact_ := None; file_to_compact_level_ := -1;
  compaction_score_ := double_of (-1); compaction_level_ := -1 |}.

Definition with_files (v : Version) (l : list (list FileRef)) : Version := {|
  files_ := l; refs_ := refs_ v; file_to_compact_ := file_to_compact_ v; file_to_compact_level_ := file_to_compact_level_ v;
  compaction_score_ := compaction_score_ v; compaction_level_ := compaction_level_ v |}.

Definition with_version_refs (v : Version) (n : Z) : Version := {|
  files_ := files_ v; refs_ := n; file_to_compact_ := file_to_compact_ v; file_to_compact_level_ := file_to_compact_level_ v;
  compaction_score_ := compaction_score_ v; compaction_level_ := compaction_level_ v |}.

(** What changes of a [FileMetaData]. *)
Record FileState : Type := { fs_refs : Z; fs_allowed_seeks : Z }.

(** [vs_descriptor_file] and the destination of [vs_descriptor_log] are handles. *)
Record VersionSet : Type := {
  vs_dbname : bytes;
  vs_next_file_number : Z;
  vs_manifest_file_number : Z;
  vs_last_sequence : Z;
  vs_log_number : Z;
  vs_prev_log_number : Z;
  vs_descriptor_file : option Z;
  vs_descriptor_log : option (Writer Z);
  vs_links : links;
  vs_versions : gmap Z Version;
  vs_files : gmap Z FileState;
  vs_current : option Z;
  vs_compact_pointer : list bytes
}.

(** The address of [dummy_versions_]. *)
Definition dummy_versions_ : Z := 0.

Definition with_versions (s : VersionSet) (l : links) (m : gmap Z Version) (fs : gmap Z FileState) : VersionSet := {|
  vs_dbname := vs_dbname s; vs_descriptor_file := vs_descriptor_file s; vs_descriptor_log := vs_descriptor_log s;
  vs_next_file_number := vs_next_file_number s; vs_manifest_file_number := vs_manifest_file_number s;
  vs_last_sequence := vs_last_sequence s; vs_log_number := vs_log_number s; vs_prev_log_number := vs_prev_log_number s;
  vs_links := l; vs_versions := m; vs_files := fs; vs_current := vs_current s; vs_compact_pointer := vs_compact_pointer s |}.

Definition put_version (s : VersionSet) (a : Z) (v : Version) : VersionSet :=
  with_versions s (vs_links s) (<[a := v]> (vs_versions s)) (vs_files s).

Definition with_vs_files (s : VersionSet) (fs : gmap Z FileState) : VersionSet :=
  with_versions s (vs_links s) (vs_versions s) fs.

Definition with_current (s : VersionSet) (c : option Z) : VersionSet := {|
  vs_dbname := vs_dbname s; vs_descriptor_file := vs_descriptor_file s; vs_descriptor_log := vs_descriptor_log s;
  vs_next_file_number := vs_next_file_number s; vs_manifest_file_number := vs_manifest_file_number s;
  vs_last_sequence := vs_last_sequence s; vs_log_number := vs_log_number s; vs_prev_log_number := vs_prev_log_number s;
  vs_links := vs_links s; vs_versions := vs_versions s; vs_files := vs_files s; vs_current := c;
  vs_compact_pointer := vs_compact_pointer s |}.

Definition with_pointer (s : VersionSet) (p : list bytes) : VersionSet := {|
  vs_dbname := vs_dbname s; vs_descriptor_file := vs_descriptor_file s; vs_descriptor_log := vs_descriptor_log s;
  vs_next_file_number := vs_next_file_number s; vs_manifest_file_number := vs_manifest_file_number s;
  vs_last_sequence := vs_last_sequence s; vs_log_number := vs_log_number s; vs_prev_log_number := vs_prev_log_number s;
  vs_links := vs_links s; vs_versions := vs_versions s; vs_files := vs_files s; vs_current := vs_current s;
  vs_compact_pointer := p |}.

Definition with_numbers (s : VersionSet) (next_file manifest last_sequence log prev_log : Z) : VersionSet := {|
  vs_dbname := vs_dbname s; vs_descriptor_file := vs_descriptor_file s; vs_descriptor_log := vs_descriptor_log s;
  vs_next_file_number := next_file; vs_manifest_file_number := manifest; vs_last_sequence := last_sequence;
  vs_log_number := log; vs_prev_log_number := prev_log; vs_links := vs_links s; vs_versions := vs_versions s;
  vs_files := vs_files s; vs_current := vs_current s; vs_compact_pointer := vs_compact_pointer s |}.

Definition with_descriptor (s : VersionSet) (file : option Z) (log : option (Writer Z)) : VersionSet := {|
  vs_dbname := vs_dbname s; vs_descriptor_file := file; vs_descriptor_log := log;
  vs_next_file_number := vs_next_file_number s; vs_manifest_file_number := vs_manifest_file_number s;
  vs_last_sequence := vs_last_sequence s; vs_log_number := vs_log_number s; vs_prev_log_number := vs_prev_log_number s;
  vs_links := vs_links s; vs_versions := vs_versions s; vs_files := vs_files s; vs_current := vs_current s;
  vs_compact_pointer := vs_compact_pointer s |}.

(** * References *)

(** [f->refs--], and the file is deleted when none is left; [checked] is the
    assertion of [~Version]. *)
Definition drop_file (checked : bool) (m : gmap Z FileState) (f : FileRef) : option (gmap Z FileState) :=
  s ← m !! f_addr f;
  if checked && (fs_refs s <=? 0) then None
  else
    let n := fs_refs s - 1 in
    Some (if n <=? 0 then delete (f_addr f) m
          else <[f_addr f := {| fs_refs := n; fs_allowed_seeks := fs_allowed_seeks s |}]> m).

Fixpoint drop_files (checked : bool) (m : gmap Z FileState) (fs : list FileRef) : option (gmap Z FileState) :=
  match fs with
  | [] => Some m
  | f :: fs => m ← drop_file checked m f; drop_files checked m fs
  end.

Definition take_file (m : gmap Z FileState) (f : FileRef) : option (gmap Z FileState) :=
  s ← m !! f_addr f;
  Some (<[f_addr f := {| fs_refs := fs_refs s + 1; fs_allowed_seeks := fs_allowed_seeks s |}]> m).

(** [~Version]: out of the list of versions, and the references to files go. *)
Definition Version_delete (s : VersionSet) (a : Z) : option VersionSet :=
  v ← vs_versions s !! a;
  if refs_ v =? 0 then
    l ← ring_unlink (vs_links s) a;
    fs ← drop_files true (vs_files s) (concat (files_ v));
    Some (with_versions s {| nxt := delete a (nxt l); prv := delete a (prv l) |} (delete a (vs_versions s)) fs)
  else None.

Definition Version_Ref (s : VersionSet) (a : Z) : option VersionSet :=
  v ← vs_versions s !! a; Some (put_version s a (with_version_refs v (refs_ v + 1))).

Definition Version_Unref (s : VersionSet) (a : Z) : option VersionSet :=
  if a =? dummy_versions_ then None
  else
    v ← vs_versions s !! a;
    if refs_ v >=? 1 then
      let v := with_version_refs v (refs_ v - 1) in
      let s := put_version s a v in
      if refs_ v =? 0 then Version_delete s a else Some s
    else None.

(** [new Version(this)]: a version linked to itself. *)
Definition new_version (s : VersionSet) (a : Z) : VersionSet :=
  with_versions s (ring_init (vs_links s) a) (<[a := Version_make]> (vs_versions s)) (vs_files s).

Definition AppendVersion (s : VersionSet) (a : Z) : option VersionSet :=
  v ← vs_versions s !! a;
  if (refs_ v =? 0) && negb (bool_decide (vs_current s = Some a)) then
    s ← (match vs_current s with Some c => Version_Unref s c | None => Some s end);
    s ← Version_Ref (with_current s (Some a)) a;
    l ← ring_append (vs_links s) dummy_versions_ a;
    Some (with_versions s l (vs_versions s) (vs_files s))
  else None.

(** The constructor, with the address of the first version. *)
Definition VersionSet_new (dbname : bytes) (a : Z) : option VersionSet :=
  let s := {| vs_dbname := dbname; vs_descriptor_file := None; vs_descriptor_log := None; vs_next_file_number := 2; vs_manifest_file_number := 0; vs_last_sequence := 0; vs_log_number := 0;
              vs_prev_log_number := 0; vs_links := ring_init {| nxt := ∅; prv := ∅ |} dummy_versions_;
              vs_versions := ∅; vs_files := ∅; vs_current := None;
              vs_compact_pointer := replicate (Z.to_nat kNumLevels) [] |} in
  AppendVersion (new_version s a) a.

(** * The builder *)

(** The set of added files is in the order of [BySmallestKey]. *)
Record LevelState : Type := { ls_deleted_files : gset Z; ls_added_files : list FileRef }.

Record Builder : Type := { base_ : Z; levels_ : list LevelState }.

Definition Builder_new (s : VersionSet) (base : Z) : option (Builder * VersionSet) :=
  s ← Version_Ref s base;
  Some ({| base_ := base; levels_ := replicate (Z.to_nat kNumLevels) {| ls_deleted_files := ∅; ls_added_files := [] |} |}, s).

Section Keys.
Context {U : Comparator}.

Definition BySmallestKey (f1 f2 : FileRef) : option bool :=
  r ← InternalKey_Compare (f_smallest f1) (f_smallest f2);
  Some (if negb (r =? 0) then r <? 0 else f_number f1 <? f_number f2).

(** [std::set::insert]: an equivalent element stays. *)
Fixpoint fileset_insert (f : FileRef) (l : list FileRef) : option (list FileRef) :=
  match l with
  | [] => Some [f]
  | g :: l' =>
      lt ← BySmallestKey f g;
      if lt : bool then Some (f :: l)
      else
        gt ← BySmallestKey g f;
        if gt : bool then l' ← fileset_insert f l'; Some (g :: l') else Some l
  end.

(** The number of seeks before a file is compacted. *)
Definition allowed_seeks_for (file_size : Z) : Z :=
  let n := s32 (file_size / 16384) in if n <? 100 then 100 else n.

Fixpoint apply_pointers (l : list (Z * bytes)) (p : list bytes) : option (list bytes) :=
  match l with
  | [] => Some p
  | (level, key) :: l =>
      k ← InternalKey_Encode key;
      if (Z.to_nat level <? length p)%nat then apply_pointers l (<[Z.to_nat level := k]> p) else None
  end.

Fixpoint apply_deleted (l : list (Z * Z)) (ls : list LevelState) : option (list LevelState) :=
  match l with
  | [] => Some ls
  | (level, number) :: l =>
      st ← ls !! Z.to_nat level;
      apply_deleted l (<[Z.to_nat level := {| ls_deleted_files := {[ number ]} ∪ ls_deleted_files st;
                                               ls_added_files := ls_added_files st |}]> ls)
  end.

(** [new FileMetaData] gives the addresses. *)
Fixpoint apply_new (l : list (Z * FileMetaData)) (addrs : list Z) (ls : list LevelState) (fs : gmap Z FileState) :
    option (list LevelState * gmap Z FileState) :=
  match l with
  | [] => Some (ls, fs)
  | (level, meta) :: l =>
      a ← head addrs;
      let f := {| f_addr := a; f_meta := meta |} in
      let fs := <[a := {| fs_refs := 1; fs_allowed_seeks := allowed_seeks_for (file_size meta) |}]> fs in
      st ← ls !! Z.to_nat level;
      added ← fileset_insert f (ls_added_files st);
      apply_new l (tail addrs)
        (<[Z.to_nat level := {| ls_deleted_files := ls_deleted_files st ∖ {[ number meta ]}; ls_added_files := added |}]> ls) fs
  end.

Definition Builder_Apply (s : VersionSet) (b : Builder) (edit : VersionEdit) (addrs : list Z) : option (Builder * VersionSet) :=
  p ← apply_pointers (compact_pointers_ edit) (vs_compact_pointer s);
  ls ← apply_deleted (deleted_files_ edit) (levels_ b);
  '(ls, fs) ← apply_new (new_files_ edit) addrs ls (vs_files s);
  Some ({| base_ := base_ b; levels_ := ls |}, with_pointer (with_vs_files s fs) p).

(** The files of the new version at a level, and the references. *)
Definition MaybeAddFile (deleted : gset Z) (level : Z) (files : list FileRef) (fs : gmap Z FileState) (f : FileRef) :
    option (list FileRef * gmap Z FileState) :=
  if bool_decide (f_number f ∈ deleted) then Some (files, fs)
  else
    ok ← (match last files with
          | Some g => if level >? 0 then r ← InternalKey_Compare (f_largest g) (f_smallest f); Some (r <? 0) else Some true
          | None => Some true
          end);
    if ok : bool then fs ← take_file fs f; Some (files ++ [f], fs) else None.

Fixpoint maybe_add_files (deleted : gset Z) (level : Z) (files : list FileRef) (fs : gmap Z FileState) (l : list FileRef) :
    option (list FileRef * gmap Z FileState) :=
  match l with
  | [] => Some (files, fs)
  | f :: l => '(files, fs) ← MaybeAddFile deleted level files fs f; maybe_add_files deleted level files fs l
  end.

(** [std::upper_bound] in a sorted range: the elements that [f] is not less than,
    and the rest. *)
Fixpoint upper_bound (base : list FileRef) (f : FileRef) : option (list FileRef * list FileRef) :=
  match base with
  | [] => Some ([], [])
  | g :: base' =>
      lt ← BySmallestKey f g;
      if lt : bool then Some ([], base) else '(l, r) ← upper_bound base' f; Some (g :: l, r)
  end.

(** The merge of the base files with the added ones. *)
Fixpoint save_level (deleted : gset Z) (level : Z) (base added : list FileRef) (files : list FileRef) (fs : gmap Z FileState) :
    option (list FileRef * gmap Z FileState) :=
  match added with
  | [] => maybe_add_files deleted level files fs base
  | f :: added =>
      '(smaller, base) ← upper_bound base f;
      '(files, fs) ← maybe_add_files deleted level files fs smaller;
      '(files, fs) ← MaybeAddFile deleted level files fs f;
      save_level deleted level base added files fs
  end.

(** The check for overlaps that aborts. *)
Fixpoint no_overlap (files : list FileRef) : option bool :=
  match files with
  | f :: ((g :: _) as files') =>
      r ← InternalKey_Compare (f_largest f) (f_smallest g);
      if r >=? 0 then Some false else no_overlap files'
  | _ => Some true
  end.

Fixpoint save_levels (level : Z) (bases : list (list FileRef)) (ls : list LevelState) (files_ : list (list FileRef))
    (fs : gmap Z FileState) : option (list (list FileRef) * gmap Z FileState) :=
  match bases, ls, files_ with
  | base :: bases, st :: ls, files :: files_ =>
      '(files, fs) ← save_level (ls_deleted_files st) level base (ls_added_files st) files fs;
      ok ← (if level >? 0 then no_overlap files else Some true);
      if ok : bool then
        '(files_, fs) ← save_levels (level + 1) bases ls files_ fs;
        Some (files :: files_, fs)
      else None
  | _, _, _ => Some ([], fs)
  end.

Definition SaveTo (s : VersionSet) (b : Builder) (a : Z) : option VersionSet :=
  base ← vs_versions s !! base_ b;
  v ← vs_versions s !! a;
  '(l, fs) ← save_levels 0 (files_ base) (levels_ b) (files_ v) (vs_files s);
  Some (put_version (with_vs_files s fs) a (with_files v l)).

(** [~Builder]. *)
Definition Builder_delete (s : VersionSet) (b : Builder) : option VersionSet :=
  fs ← drop_files false (vs_files s) (concat (ls_added_files <$> levels_ b));
  Version_Unref (with_vs_files s fs) (base_ b).
End Keys.

(** * Scores *)
Definition level_score (level : Z) (files : list FileRef) : spec_float :=
  if level =? 0 then double_div (double_of (zlen files)) (double_of kL0_CompactionTrigger)
  else double_div (double_of (u64 (TotalFileSize files))) (MaxBytesForLevel level).

Fixpoint finalize_loop (level : Z) (levels : list (list FileRef)) (best_level : Z) (best_score : spec_float) : Z * spec_float :=
  match levels with
  | [] => (best_level, best_score)
  | files :: levels =>
      let score := level_score level files in
      if SFltb best_score score then finalize_loop (level + 1) levels level score
      else finalize_loop (level + 1) levels best_level best_score
  end.

(** All levels but the last. *)
Definition Finalize (v : Version) : Version :=
  let '(best_level, best_score) :=
    finalize_loop 0 (take (Z.to_nat (kNumLevels - 1)) (files_ v)) (-1) (double_of (-1)) in
  {| files_ := files_ v; refs_ := refs_ v; file_to_compact_ := file_to_compact_ v;
     file_to_compact_level_ := file_to_compact_level_ v; compaction_score_ := best_score; compaction_level_ := best_level |}.

Definition score_at_least_one (v : Version) : bool := SFleb (double_of 1) (compaction_score_ v).

(** * The rest of the interface *)
Definition current_version (s : VersionSet) : option Version := c ← vs_current s; vs_versions s !! c.

Definition NewFileNumber (s : VersionSet) : Z * VersionSet :=
  (vs_next_file_number s,
   with_numbers s (u64 (vs_next_file_number s + 1)) (vs_manifest_file_number s) (vs_last_sequence s) (vs_log_number s)
     (vs_prev_log_number s)).

Definition ReuseFileNumber (s : VersionSet) (file_number : Z) : VersionSet :=
  if vs_next_file_number s =? u64 (file_number + 1)
  then with_numbers s file_number (vs_manifest_file_number s) (vs_last_sequence s) (vs_log_number s) (vs_prev_log_number s)
  else s.

Definition MarkFileNumberUsed (s : VersionSet) (number : Z) : VersionSet :=
  if vs_next_file_number s <=? number
  then with_numbers s (u64 (number + 1)) (vs_manifest_file_number s) (vs_last_sequence s) (vs_log_number s) (vs_prev_log_number s)
  else s.

Definition vs_SetLastSequence (s : VersionSet) (n : Z) : option VersionSet :=
  if n >=? vs_last_sequence s
  then Some (with_numbers s (vs_next_file_number s) (vs_manifest_file_number s) n (vs_log_number s) (vs_prev_log_number s))
  else None.

Definition NeedsCompaction (s : VersionSet) : option bool :=
  v ← current_version s; Some (score_at_least_one v || bool_decide (is_Some (file_to_compact_ v))).

Definition NumLevelFiles (s : VersionSet) (level : Z) : option Z :=
  if (level >=? 0) && (level <? kNumLevels) then
    v ← current_version s; files ← files_ v !! Z.to_nat level; Some (s32 (zlen files))
  else None.

Definition NumLevelBytes (s : VersionSet) (level : Z) : option Z :=
  if (level >=? 0) && (level <? kNumLevels) then
    v ← current_version s; files ← files_ v !! Z.to_nat level; Some (TotalFileSize files)
  else None.

(** [snprintf] cuts the text to 99 bytes. *)
Definition LevelSummary (s : VersionSet) : option bytes :=
  v ← current_version s;
  Some (take 99 (str "files[ " ++ concat ((fun files => decimal (s32 (zlen files)) ++ str " ") <$> files_ v) ++ str "]")).

Definition file_numbers (v : Version) : gset Z := list_to_set (f_number <$> concat (files_ v)).

(** The loop over the ring of versions ends when it has seen all of them. *)
Fixpoint live_loop (n : nat) (s : VersionSet) (a : Z) (live : gset Z) : option (gset Z) :=
  if a =? dummy_versions_ then Some live
  else
    match n with
    | O => None
    | S n' =>
        v ← vs_versions s !! a;
        next ← nxt (vs_links s) !! a;
        live_loop n' s next (live ∪ file_numbers v)
    end.

Definition AddLiveFiles (s : VersionSet) (live : gset Z) : option (gset Z) :=
  first ← nxt (vs_links s) !! dummy_versions_;
  live_loop (size (vs_versions s)) s first live.

(** ** Version *)

(** Adds [stats] to the state; whether a compaction may be needed. *)
Definition UpdateStats (s : VersionSet) (a : Z) (stats : GetStats) : option (bool * VersionSet) :=
  v ← vs_versions s !! a;
  match seek_file stats with
  | None => Some (false, s)
  | Some f =>
      st ← vs_files s !! f_addr f;
      let n := s32 (fs_allowed_seeks st - 1) in
      let s := with_vs_files s (<[f_addr f := {| fs_refs := fs_refs st; fs_allowed_seeks := n |}]> (vs_files s)) in
      if (n <=? 0) && negb (bool_decide (is_Some (file_to_compact_ v))) then
        Some (true, put_version s a {| files_ := files_ v; refs_ := refs_ v; file_to_compact_ := Some f;
                                       file_to_compact_level_ := seek_file_level stats;
                                       compaction_score_ := compaction_score_ v; compaction_level_ := compaction_level_ v |})
      else Some (false, s)
  end.

(** The callback of [RecordReadSample]. *)
Definition sample_match (arg : GetStats * Z) (level : nat) (f : FileRef) : bool * (GetStats * Z) :=
  let matches := arg.2 + 1 in
  let stats := if matches =? 1 then {| seek_file := Some f; seek_file_level := Z.of_nat level |} else arg.1 in
  (matches <? 2, (stats, matches)).

Definition Version_RecordReadSample {U : Comparator} (s : VersionSet) (a : Z) (internal_key : bytes) :
    option (bool * VersionSet) :=
  match ParseInternalKey internal_key with
  | Some (true, ikey) =>
      v ← vs_versions s !! a;
      '(stats, matches) ← ForEachOverlapping (files_ v) (user_key ikey) internal_key (GetStats_none, 0) sample_match;
      if matches >=? 2 then UpdateStats s a stats else Some (false, s)
  | _ => Some (false, s)
  end.

Definition NumFiles (v : Version) (level : Z) : option Z := files ← files_ v !! Z.to_nat level; Some (s32 (zlen files)).

Definition level_string (level : Z) (files : list FileRef) : bytes :=
  str "--- level " ++ decimal level ++ str " ---" ++ [10]
  ++ concat ((fun f => str " " ++ decimal (f_number f) ++ str ":" ++ decimal (f_size f) ++ str "["
                       ++ InternalKey_DebugString (f_smallest f) ++ str " .. " ++ InternalKey_DebugString (f_largest f)
                       ++ str "]" ++ [10]) <$> files).

Definition Version_DebugString (v : Version) : bytes :=
  concat (imap (fun level files => level_string (Z.of_nat level) files) (files_ v)).
