(* ===== verification/LdbManifest.v ===== *)
(** leveldb: the manifest, the part of [version_set.cc] that makes versions last,
    with [SetCurrentFile] of [filename.cc] and the helpers of [env.cc].

    The manifest is a log of version edits; the file [CURRENT] names it.  The
    arguments [a] and [addrs] are the addresses that [new] gives to the version
    and to the files, [fuel] bounds the rounds of reading a file. *)
From stdpp Require Import base numbers option strings gmap list.
From S2P Require Import Prelude LdbSlice LdbFilename LdbComparator LdbDbformat LdbEnv LdbLogWriter LdbLogReader LdbVersionEdit LdbTable LdbRing LdbVersion LdbVersionSet.
Open Scope Z_scope.

Section Env.
Context {E Sq R : Type} {EV : Env E Sq R} {SF : SequentialFile Sq}.

(** * [env.cc] *)
Definition DoWriteStringToFile (e : E) (data fname : bytes) (should_sync : bool) : Status * E :=
  let '(s, file, e) := NewWritableFile e fname in
  match file with
  | None => (s, e)
  | Some file =>
      if negb (Status_ok s) then (s, e)
      else
        let '(s, e) := File_Append e file data in
        let '(s, e) := if Status_ok s && should_sync then File_Sync e file else (s, e) in
        let '(s, e) := if Status_ok s then File_Close e file else (s, e) in
        let e := File_delete e file in
        if Status_ok s then (s, e) else (s, (Env_DeleteFile e fname).2)
  end.

Definition WriteStringToFile (e : E) (data fname : bytes) : Status * E := DoWriteStringToFile e data fname false.

Definition WriteStringToFileSync (e : E) (data fname : bytes) : Status * E := DoWriteStringToFile e data fname true.

Definition kBufferSize : Z := 8192.

(** The loop reads until a read gives nothing; the buffer is at address 0. *)
Fixpoint read_file_loop (fuel : nat) (file : Sq) (data : bytes) : option (Status * bytes) :=
  match fuel with
  | O => None
  | S fuel' =>
      let '(s, fragment, file) := Read file kBufferSize 0 in
      if negb (Status_ok s) then Some (s, data)
      else
        let data := data ++ snd fragment in
        if bool_decide (snd fragment = []) then Some (s, data) else read_file_loop fuel' file data
  end.

Definition ReadFileToString (fuel : nat) (e : E) (fname : bytes) : option (Status * bytes) :=
  let '(s, file) := NewSequentialFile e fname in
  match file with
  | Some file => if Status_ok s then read_file_loop fuel file [] else Some (s, [])
  | None => Some (s, [])
  end.

(** * [SetCurrentFile] *)
Definition SetCurrentFile (e : E) (dbname : bytes) (descriptor_number : Z) : option (Status * E) :=
  let manifest := DescriptorFileName dbname descriptor_number in
  if Slice_starts_with manifest (dbname ++ str "/") then
    contents ← Slice_remove_prefix manifest (zlen dbname + 1);
    let tmp := TempFileName dbname descriptor_number in
    let '(s, e) := WriteStringToFileSync e (contents ++ [10]) tmp in
    let '(s, e) := if Status_ok s then RenameFile e tmp (CurrentFileName dbname) else (s, e) in
    Some (if Status_ok s then (s, e) else (s, (Env_DeleteFile e tmp).2))
  else None.

(** A record at the end of the log whose file is the handle [dest_ log]. *)
Definition log_AddRecord (e : E) (log : Writer Z) (record : bytes) : option (Status * E * Writer Z) :=
  '(s, w) ← AddRecord {| dest_ := (e, dest_ log); block_offset_ := block_offset_ log; type_crc_ := type_crc_ log |} 0 record;
  Some (s, (dest_ w).1, {| dest_ := dest_ log; block_offset_ := block_offset_ w; type_crc_ := type_crc_ w |}).

Context {U : Comparator}.

(** [~VersionSet]. *)
Definition VersionSet_delete (e : E) (s : VersionSet) : option (E * VersionSet) :=
  c ← vs_current s;
  s ← Version_Unref s c;
  n ← nxt (vs_links s) !! dummy_versions_;
  if n =? dummy_versions_ then
    Some (match vs_descriptor_file s with Some h => File_delete e h | None => e end, with_descriptor s None None)
  else None.

(** * Writing the manifest *)
Fixpoint snapshot_pointers (edit : VersionEdit) (level : Z) (pointers : list bytes) : VersionEdit :=
  match pointers with
  | [] => edit
  | p :: pointers =>
      snapshot_pointers (if bool_decide (p = []) then edit else SetCompactPointer edit level p) (level + 1) pointers
  end.

Definition add_file_ref (level : Z) (edit : VersionEdit) (f : FileRef) : VersionEdit :=
  AddFile edit level (f_number f) (f_size f) (f_smallest f) (f_largest f).

Fixpoint snapshot_files (edit : VersionEdit) (level : Z) (levels : list (list FileRef)) : VersionEdit :=
  match levels with
  | [] => edit
  | files :: levels => snapshot_files (fold_left (add_file_ref level) files edit) (level + 1) levels
  end.

Definition snapshot_edit (s : VersionSet) (v : Version) : VersionEdit :=
  snapshot_files (snapshot_pointers (SetComparatorName VersionEdit_new Comparator_Name) 0 (vs_compact_pointer s)) 0 (files_ v).

Definition WriteSnapshot (e : E) (s : VersionSet) (log : Writer Z) : option (Status * E * Writer Z) :=
  v ← current_version s;
  record ← VersionEdit_EncodeTo (snapshot_edit s v) [];
  log_AddRecord e log record.

(** The numbers of the edit, as far as it has none, and those of the set. *)
Definition complete_edit (s : VersionSet) (edit : VersionEdit) : option VersionEdit :=
  edit ← (if has_log_number_ edit then
            if (log_number_ edit >=? vs_log_number s) && (log_number_ edit <? vs_next_file_number s) then Some edit else None
          else Some (SetLogNumber edit (vs_log_number s)));
  let edit := if has_prev_log_number_ edit then edit else SetPrevLogNumber edit (vs_prev_log_number s) in
  Some (SetLastSequence (SetNextFile edit (vs_next_file_number s)) (vs_last_sequence s)).

(** The new version, at address [a]. *)
Definition build_version (s : VersionSet) (edit : VersionEdit) (a : Z) (addrs : list Z) : option VersionSet :=
  let s := new_version s a in
  c ← vs_current s;
  '(b, s) ← Builder_new s c;
  '(b, s) ← Builder_Apply s b edit addrs;
  s ← SaveTo s b a;
  s ← Builder_delete s b;
  v ← vs_versions s !! a;
  Some (put_version s a (Finalize v)).

(** A new manifest with a snapshot of the current version, if there is none; its
    name. *)
Definition open_manifest (e : E) (s : VersionSet) : option (Status * option bytes * E * VersionSet) :=
  match vs_descriptor_log s with
  | Some _ => Some (Status_OK, None, e, s)
  | None =>
      if bool_decide (is_Some (vs_descriptor_file s)) then None
      else
        let new_manifest_file := DescriptorFileName (vs_dbname s) (vs_manifest_file_number s) in
        let '(st, file, e) := NewWritableFile e new_manifest_file in
        match file with
        | Some file =>
            if Status_ok st then
              '(st, e, log) ← WriteSnapshot e s (Writer_new file);
              Some (st, Some new_manifest_file, e, with_descriptor s (Some file) (Some log))
            else Some (st, Some new_manifest_file, e, with_descriptor s (Some file) None)
        | None => if Status_ok st then None else Some (st, Some new_manifest_file, e, s)
        end
  end.

(** What is done without the mutex: the record, and the name of a new manifest. *)
Definition write_manifest (e : E) (s : VersionSet) (edit : VersionEdit) (st : Status) (new_manifest_file : option bytes) :
    option (Status * E * VersionSet) :=
  '(st, e, s) ←
    (if Status_ok st then
       record ← VersionEdit_EncodeTo edit [];
       log ← vs_descriptor_log s;
       file ← vs_descriptor_file s;
       '(st, e, log) ← log_AddRecord e log record;
       let '(st, e) := if Status_ok st then File_Sync e file else (st, e) in
       Some (st, e, with_descriptor s (Some file) (Some log))
     else Some (st, e, s));
  match new_manifest_file with
  | Some _ => if Status_ok st then '(st, e) ← SetCurrentFile e (vs_dbname s) (vs_manifest_file_number s); Some (st, e, s) else Some (st, e, s)
  | None => Some (st, e, s)
  end.

Definition install_version (e : E) (s : VersionSet) (edit : VersionEdit) (a : Z) (st : Status) (new_manifest_file : option bytes) :
    option (E * VersionSet) :=
  if Status_ok st then
    s ← AppendVersion s a;
    Some (e, with_numbers s (vs_next_file_number s) (vs_manifest_file_number s) (vs_last_sequence s) (log_number_ edit) (prev_log_number_ edit))
  else
    s ← Version_delete s a;
    match new_manifest_file with
    | Some name =>
        let e := match vs_descriptor_file s with Some h => File_delete e h | None => e end in
        Some ((Env_DeleteFile e name).2, with_descriptor s None None)
    | None => Some (e, s)
    end.

(** The mutex is released in [write_manifest]; here nothing else runs meanwhile. *)
Definition LogAndApply (e : E) (s : VersionSet) (edit : VersionEdit) (a : Z) (addrs : list Z) :
    option (Status * E * VersionSet * VersionEdit) :=
  edit ← complete_edit s edit;
  s ← build_version s edit a addrs;
  '(st, name, e, s) ← open_manifest e s;
  let edit := if bool_decide (is_Some name) then SetNextFile edit (vs_next_file_number s) else edit in
  '(st, e, s) ← write_manifest e s edit st name;
  '(e, s) ← install_version e s edit a st name;
  Some (st, e, s, edit).

(** * Reading it *)

(** The locals of [Recover] that the loop changes. *)
Record recover_state : Type := {
  rs_status : Status;
  rs_log_number : option Z;
  rs_prev_log_number : option Z;
  rs_next_file : option Z;
  rs_last_sequence : option Z
}.

Definition with_status (r : recover_state) (s : Status) : recover_state := {|
  rs_status := s; rs_log_number := rs_log_number r; rs_prev_log_number := rs_prev_log_number r;
  rs_next_file := rs_next_file r; rs_last_sequence := rs_last_sequence r |}.

(** [LogReporter]: the first report becomes the status. *)
Definition reported (reports : list (Z * Status)) (s : Status) : Status :=
  if Status_ok s then match reports with (_, st) :: _ => st | [] => s end else s.

Definition note_numbers (r : recover_state) (edit : VersionEdit) : recover_state := {|
  rs_status := rs_status r;
  rs_log_number := if has_log_number_ edit then Some (log_number_ edit) else rs_log_number r;
  rs_prev_log_number := if has_prev_log_number_ edit then Some (prev_log_number_ edit) else rs_prev_log_number r;
  rs_next_file := if has_next_file_number_ edit then Some (next_file_number_ edit) else rs_next_file r;
  rs_last_sequence := if has_last_sequence_ edit then Some (last_sequence_ edit) else rs_last_sequence r |}.

Definition check_comparator (edit : VersionEdit) (s : Status) : Status :=
  if Status_ok s && has_comparator_ edit && negb (bool_decide (comparator_ edit = Comparator_Name))
  then Status_InvalidArgument (comparator_ edit ++ str " does not match existing comparator ") Comparator_Name
  else s.

(** One record. *)
Definition recover_record (s : VersionSet) (b : Builder) (r : recover_state) (record : bytes) (addrs : list Z) :
    option (VersionSet * Builder * recover_state * list Z) :=
  '(st, edit) ← VersionEdit_DecodeFrom VersionEdit_new record;
  let st := check_comparator edit st in
  '(b, s) ← (if Status_ok st then Builder_Apply s b edit addrs else Some (b, s));
  Some (s, b, note_numbers (with_status r st) edit,
        if Status_ok st then drop (length (new_files_ edit)) addrs else addrs).

Fixpoint recover_loop (n fuel : nat) (reader : Reader Sq) (s : VersionSet) (b : Builder) (r : recover_state) (addrs : list Z) :
    option (VersionSet * Builder * recover_state) :=
  match n with
  | O => None
  | S n' =>
      '(record, reader) ← ReadRecord fuel reader;
      let r := with_status r (reported (reports reader) (rs_status r)) in
      match record with
      | Some record =>
          if Status_ok (rs_status r) then
            '(s, b, r, addrs) ← recover_record s b r record addrs;
            recover_loop n' fuel reader s b r addrs
          else Some (s, b, r)
      | None => Some (s, b, r)
      end
  end.

Definition ReuseManifest (options : Options) (e : E) (s : VersionSet) (dscname dscbase : bytes) : bool * E * VersionSet :=
  if negb (reuse_logs options) then (false, e, s)
  else
    match ParseFileName dscbase with
    | Some (manifest_number, kDescriptorFile) =>
        let '(st, manifest_size) := GetFileSize e dscname in
        if negb (Status_ok st) || (manifest_size >=? TargetFileSize options) then (false, e, s)
        else
          let '(r, file, e) := NewAppendableFile e dscname in
          match file with
          | Some file =>
              if Status_ok r then
                let s := with_descriptor s (Some file) (Some (Writer_new_at file manifest_size)) in
                (true, e, with_numbers s (vs_next_file_number s) manifest_number (vs_last_sequence s) (vs_log_number s) (vs_prev_log_number s))
              else (false, e, s)
          | None => (false, e, s)
          end
    | _ => (false, e, s)
    end.

(** The numbers must all have been there. *)
Definition check_numbers (r : recover_state) : Status :=
  if Status_ok (rs_status r) then
    if bool_decide (rs_next_file r = None) then Status_Corruption (str "no meta-nextfile entry in descriptor") []
    else if bool_decide (rs_log_number r = None) then Status_Corruption (str "no meta-lognumber entry in descriptor") []
    else if bool_decide (rs_last_sequence r = None) then Status_Corruption (str "no last-sequence-number entry in descriptor") []
    else Status_OK
  else rs_status r.

(** The recovered version, at address [a], becomes the current one. *)
Definition install_recovered (s : VersionSet) (b : Builder) (r : recover_state) (a : Z) : option VersionSet :=
  s ← SaveTo (new_version s a) b a;
  v ← vs_versions s !! a;
  s ← AppendVersion (put_version s a (Finalize v)) a;
  let next_file := default 0 (rs_next_file r) in
  Some (with_numbers s (u64 (next_file + 1)) next_file (default 0 (rs_last_sequence r)) (default 0 (rs_log_number r))
          (default 0 (rs_prev_log_number r))).

(** The status, [*save_manifest], the environment and the set.  The buffer of the
    log reader is at address 0. *)
Definition Recover (fuel : nat) (options : Options) (e : E) (s : VersionSet) (save_manifest : bool) (a : Z) (addrs : list Z) :
    option (Status * bool * E * VersionSet) :=
  '(st, current) ← ReadFileToString fuel e (CurrentFileName (vs_dbname s));
  if negb (Status_ok st) then Some (st, save_manifest, e, s)
  else if negb (bool_decide (last current = Some 10)) then
    Some (Status_Corruption (str "CURRENT file does not end with newline") [], save_manifest, e, s)
  else
    let current := take (length current - 1) current in
    let dscname := vs_dbname s ++ str "/" ++ current in
    let '(st, file) := NewSequentialFile e dscname in
    if negb (Status_ok st) then
      Some (if Status_IsNotFound st
            then Status_Corruption (str "CURRENT points to a non-existent file") (Status_ToString st) else st, save_manifest, e, s)
    else
      file ← file;
      c ← vs_current s;
      '(b, s) ← Builder_new s c;
      '(s, b, r) ← recover_loop fuel fuel (Reader_new file (Some []) true 0 0) s b
                     {| rs_status := st; rs_log_number := None; rs_prev_log_number := None; rs_next_file := None;
                        rs_last_sequence := None |} addrs;
      let st := check_numbers r in
      let s := if Status_ok (rs_status r)
               then MarkFileNumberUsed (MarkFileNumberUsed s (default 0 (rs_prev_log_number r))) (default 0 (rs_log_number r)) else s in
      if Status_ok st then
        s ← install_recovered s b r a;
        let '(reused, e, s) := ReuseManifest options e s dscname current in
        s ← Builder_delete s b;
        Some (st, if reused then save_manifest else true, e, s)
      else s ← Builder_delete s b; Some (st, save_manifest, e, s).
End Env.
