(* ===== verification/LdbCompaction.v ===== *)
(** leveldb: choosing a compaction, and the questions it is asked while it runs,
    from [version_set.cc].

    A [Compaction] holds the files of its two levels, those of the level below
    that overlap them, and the positions that [ShouldStopBefore] and
    [IsBaseLevelForKey] have come to. *)
From Stdlib Require Import SpecFloat.
From stdpp Require Import base numbers option strings gmap sets list.
From S2P Require Import Prelude LdbSlice LdbFilename LdbComparator LdbDbformat LdbVersionEdit LdbTable LdbVersion LdbRing LdbVersionSet.
Open Scope Z_scope.
Open Scope c_scope.

Record Compaction : Type := {
  level_ : Z;
  max_output_file_size_ : Z;
  input_version_ : option Z;
  edit_ : VersionEdit;
  inputs_0 : list FileRef;
  inputs_1 : list FileRef;
  grandparents_ : list FileRef;
  grandparent_index_ : Z;
  seen_key_ : bool;
  overlapped_bytes_ : Z;
  level_ptrs_ : list Z
}.

Definition Compaction_new (options : Options) (level : Z) : Compaction := {|
  level_ := level; max_output_file_size_ := MaxFileSizeForLevel options level; input_version_ := None;
  edit_ := VersionEdit_new; inputs_0 := []; inputs_1 := []; grandparents_ := []; grandparent_index_ := 0;
  seen_key_ := false; overlapped_bytes_ := 0; level_ptrs_ := replicate (Z.to_nat kNumLevels) 0 |}.

Definition with_inputs (c : Compaction) (i0 i1 : list FileRef) : Compaction := {|
  level_ := level_ c; max_output_file_size_ := max_output_file_size_ c; input_version_ := input_version_ c;
  edit_ := edit_ c; inputs_0 := i0; inputs_1 := i1; grandparents_ := grandparents_ c;
  grandparent_index_ := grandparent_index_ c; seen_key_ := seen_key_ c; overlapped_bytes_ := overlapped_bytes_ c;
  level_ptrs_ := level_ptrs_ c |}.

Definition with_input_version (c : Compaction) (v : option Z) : Compaction := {|
  level_ := level_ c; max_output_file_size_ := max_output_file_size_ c; input_version_ := v;
  edit_ := edit_ c; inputs_0 := inputs_0 c; inputs_1 := inputs_1 c; grandparents_ := grandparents_ c;
  grandparent_index_ := grandparent_index_ c; seen_key_ := seen_key_ c; overlapped_bytes_ := overlapped_bytes_ c;
  level_ptrs_ := level_ptrs_ c |}.

Definition with_plan (c : Compaction) (grandparents : list FileRef) (edit : VersionEdit) : Compaction := {|
  level_ := level_ c; max_output_file_size_ := max_output_file_size_ c; input_version_ := input_version_ c;
  edit_ := edit; inputs_0 := inputs_0 c; inputs_1 := inputs_1 c; grandparents_ := grandparents;
  grandparent_index_ := grandparent_index_ c; seen_key_ := seen_key_ c; overlapped_bytes_ := overlapped_bytes_ c;
  level_ptrs_ := level_ptrs_ c |}.

Definition with_grandparents (c : Compaction) (index : Z) (seen : bool) (overlapped : Z) : Compaction := {|
  level_ := level_ c; max_output_file_size_ := max_output_file_size_ c; input_version_ := input_version_ c;
  edit_ := edit_ c; inputs_0 := inputs_0 c; inputs_1 := inputs_1 c; grandparents_ := grandparents_ c;
  grandparent_index_ := index; seen_key_ := seen; overlapped_bytes_ := overlapped; level_ptrs_ := level_ptrs_ c |}.

Definition with_ptrs (c : Compaction) (ptrs : list Z) : Compaction := {|
  level_ := level_ c; max_output_file_size_ := max_output_file_size_ c; input_version_ := input_version_ c;
  edit_ := edit_ c; inputs_0 := inputs_0 c; inputs_1 := inputs_1 c; grandparents_ := grandparents_ c;
  grandparent_index_ := grandparent_index_ c; seen_key_ := seen_key_ c; overlapped_bytes_ := overlapped_bytes_ c;
  level_ptrs_ := ptrs |}.

Definition num_input_files (c : Compaction) (which : Z) : Z :=
  s32 (zlen (if which =? 0 then inputs_0 c else inputs_1 c)).

Section Keys.
Context {U : Comparator}.

(** * The files to compact *)

(** The first file that ends after the pointer of the level. *)
Fixpoint first_after (files : list FileRef) (pointer : bytes) : option (option FileRef) :=
  match files with
  | [] => Some None
  | f :: files =>
      after ← (if bool_decide (pointer = []) then Some true
               else r ← InternalKey_Compare (f_largest f) pointer; Some (r >? 0));
      if after : bool then Some (Some f) else first_after files pointer
  end.

(** More files of the level, when that takes no more files of the next. *)
Definition expand_inputs (options : Options) (levels : list (list FileRef)) (level : Z) (i0 i1 : list FileRef)
    (all_start all_limit : bytes) : option (option (list FileRef * list FileRef * bytes)) :=
  expanded0 ← GetOverlappingInputs levels level (Some all_start) (Some all_limit);
  files ← levels !! Z.to_nat level;
  expanded0 ← AddBoundaryInputs files expanded0;
  let inputs1_size := TotalFileSize i1 in
  let expanded0_size := TotalFileSize expanded0 in
  if (length i0 <? length expanded0)%nat
     && (s64 (inputs1_size + expanded0_size) <? ExpandedCompactionByteSizeLimit options) then
    '(new_start, new_limit) ← GetRange expanded0;
    expanded1 ← GetOverlappingInputs levels (level + 1) (Some new_start) (Some new_limit);
    Some (if (length expanded1 =? length i1)%nat then Some (expanded0, expanded1, new_limit) else None)
  else Some None.

(** The inputs, the range of both levels, and the largest key of the first. *)
Definition other_inputs (options : Options) (levels : list (list FileRef)) (level : Z) (i0 : list FileRef) :
    option (list FileRef * list FileRef * bytes * bytes * bytes) :=
  files ← levels !! Z.to_nat level;
  i0 ← AddBoundaryInputs files i0;
  '(smallest, largest) ← GetRange i0;
  i1 ← GetOverlappingInputs levels (level + 1) (Some smallest) (Some largest);
  '(all_start, all_limit) ← GetRange2 i0 i1;
  expanded ← (if bool_decide (i1 = []) then Some None else expand_inputs options levels level i0 i1 all_start all_limit);
  match expanded with
  | Some (e0, e1, new_limit) =>
      '(all_start, all_limit) ← GetRange2 e0 e1;
      Some (e0, e1, all_start, all_limit, new_limit)
  | None => Some (i0, i1, all_start, all_limit, largest)
  end.

Definition SetupOtherInputs (options : Options) (s : VersionSet) (c : Compaction) : option (Compaction * VersionSet) :=
  v ← current_version s;
  let level := level_ c in
  '(i0, i1, all_start, all_limit, largest) ← other_inputs options (files_ v) level (inputs_0 c);
  grandparents ← (if level + 2 <? kNumLevels
                  then GetOverlappingInputs (files_ v) (level + 2) (Some all_start) (Some all_limit)
                  else Some (grandparents_ c));
  key ← InternalKey_Encode largest;
  if (Z.to_nat level <? length (vs_compact_pointer s))%nat then
    Some (with_plan (with_inputs c i0 i1) grandparents (SetCompactPointer (edit_ c) level largest),
          with_pointer s (<[Z.to_nat level := key]> (vs_compact_pointer s)))
  else None.

(** The level and the file to start from; [None] inside if there is nothing to do. *)
Definition pick_start (s : VersionSet) (v : Version) : option (option (Z * list FileRef)) :=
  if score_at_least_one v then
    let level := compaction_level_ v in
    if (level >=? 0) && (level + 1 <? kNumLevels) then
      files ← files_ v !! Z.to_nat level;
      pointer ← vs_compact_pointer s !! Z.to_nat level;
      found ← first_after files pointer;
      f ← (match found with Some f => Some f | None => head files end);
      Some (Some (level, [f]))
    else None
  else
    match file_to_compact_ v with
    | Some f => Some (Some (file_to_compact_level_ v, [f]))
    | None => Some None
    end.

Definition PickCompaction (options : Options) (s : VersionSet) : option (option Compaction * VersionSet) :=
  a ← vs_current s;
  v ← current_version s;
  start ← pick_start s v;
  match start with
  | None => Some (None, s)
  | Some (level, i0) =>
      s ← Version_Ref s a;
      i0 ← (if level =? 0 then
              '(smallest, largest) ← GetRange i0;
              i0 ← GetOverlappingInputs (files_ v) 0 (Some smallest) (Some largest);
              if bool_decide (i0 = []) then None else Some i0
            else Some i0);
      '(c, s) ← SetupOtherInputs options s
                  (with_inputs (with_input_version (Compaction_new options level) (Some a)) i0 []);
      Some (Some c, s)
  end.

(** The inputs up to the limit on their total size. *)
Fixpoint limit_inputs (inputs : list FileRef) (total limit : Z) : list FileRef :=
  match inputs with
  | [] => []
  | f :: inputs =>
      let total := u64 (total + f_size f) in
      f :: (if total >=? limit then [] else limit_inputs inputs total limit)
  end.

Definition CompactRange (options : Options) (s : VersionSet) (level : Z) (begin end_ : option bytes) :
    option (option Compaction * VersionSet) :=
  a ← vs_current s;
  v ← current_version s;
  inputs ← GetOverlappingInputs (files_ v) level begin end_;
  if bool_decide (inputs = []) then Some (None, s)
  else
    let inputs := if level >? 0 then limit_inputs inputs 0 (u64 (MaxFileSizeForLevel options level)) else inputs in
    s ← Version_Ref s a;
    '(c, s) ← SetupOtherInputs options s
                (with_inputs (with_input_version (Compaction_new options level) (Some a)) inputs []);
    Some (Some c, s).

(** The overlap of one file with the next level, and the largest of them. *)
Fixpoint overlapping_bytes_loop (levels : list (list FileRef)) (level : Z) (files : list FileRef) (result : Z) : option Z :=
  match files with
  | [] => Some result
  | f :: files =>
      overlaps ← GetOverlappingInputs levels (level + 1) (Some (f_smallest f)) (Some (f_largest f));
      let sum := TotalFileSize overlaps in
      overlapping_bytes_loop levels level files (if sum >? result then sum else result)
  end.

(** Levels 1 to 5. *)
Fixpoint next_level_loop (n : nat) (levels : list (list FileRef)) (level : Z) (result : Z) : option Z :=
  match n with
  | O => Some result
  | S n' =>
      files ← levels !! Z.to_nat level;
      result ← overlapping_bytes_loop levels level files result;
      next_level_loop n' levels (level + 1) result
  end.

Definition MaxNextLevelOverlappingBytes (s : VersionSet) : option Z :=
  v ← current_version s; next_level_loop (Z.to_nat (kNumLevels - 2)) (files_ v) 1 0.

(** * A compaction while it runs *)
Definition IsTrivialMove (options : Options) (c : Compaction) : bool :=
  (num_input_files c 0 =? 1) && (num_input_files c 1 =? 0)
  && (TotalFileSize (grandparents_ c) <=? MaxGrandParentOverlapBytes options).

Fixpoint delete_inputs (edit : VersionEdit) (level : Z) (files : list FileRef) : VersionEdit :=
  match files with [] => edit | f :: files => delete_inputs (DeleteFile edit level (f_number f)) level files end.

Definition AddInputDeletions (c : Compaction) (edit : VersionEdit) : VersionEdit :=
  delete_inputs (delete_inputs edit (level_ c) (inputs_0 c)) (level_ c + 1) (inputs_1 c).

(** The loop over the files of a level: whether the key is in the range of one,
    and the position it stops at. *)
Fixpoint base_level_files (files : list FileRef) (user_key : bytes) (ptr : Z) : option (bool * Z) :=
  match files with
  | [] => Some (false, ptr)
  | f :: files =>
      l ← ExtractUserKey (f_largest f);
      r ← Compare user_key l;
      if r <=? 0 then
        s ← ExtractUserKey (f_smallest f);
        r ← Compare user_key s;
        Some (r >=? 0, ptr)
      else base_level_files files user_key (ptr + 1)
  end.

(** The loop over the levels: the answer and the positions. *)
Fixpoint base_level_loop (n : nat) (levels : list (list FileRef)) (lvl : nat) (user_key : bytes) (ptrs : list Z) :
    option (bool * list Z) :=
  match n with
  | O => Some (true, ptrs)
  | S n' =>
      files ← levels !! lvl;
      ptr ← ptrs !! lvl;
      '(found, ptr) ← base_level_files (drop (Z.to_nat ptr) files) user_key ptr;
      let ptrs := <[lvl := ptr]> ptrs in
      if found : bool then Some (false, ptrs) else base_level_loop n' levels (S lvl) user_key ptrs
  end.

(** With the files of the input version. *)
Definition IsBaseLevelForKey (levels : list (list FileRef)) (c : Compaction) (user_key : bytes) : option (bool * Compaction) :=
  '(answer, ptrs) ← base_level_loop (Z.to_nat (kNumLevels - (level_ c + 2))) levels (Z.to_nat (level_ c + 2)) user_key (level_ptrs_ c);
  Some (answer, with_ptrs c ptrs).

(** The loop over the grandparents that end before the key. *)
Fixpoint grandparents_before (files : list FileRef) (internal_key : bytes) (seen : bool) (index overlapped : Z) :
    option (Z * Z) :=
  match files with
  | [] => Some (index, overlapped)
  | f :: files =>
      r ← InternalKey_Compare internal_key (f_largest f);
      if r >? 0 then
        grandparents_before files internal_key seen (index + 1)
          (if seen then s64 (overlapped + f_size f) else overlapped)
      else Some (index, overlapped)
  end.

Definition ShouldStopBefore (options : Options) (c : Compaction) (internal_key : bytes) : option (bool * Compaction) :=
  '(index, overlapped) ← grandparents_before (drop (Z.to_nat (grandparent_index_ c)) (grandparents_ c)) internal_key
                           (seen_key_ c) (grandparent_index_ c) (overlapped_bytes_ c);
  if overlapped >? MaxGrandParentOverlapBytes options
  then Some (true, with_grandparents c index true 0)
  else Some (false, with_grandparents c index true overlapped).

(** Also what the destructor does. *)
Definition ReleaseInputs (s : VersionSet) (c : Compaction) : option (VersionSet * Compaction) :=
  match input_version_ c with
  | Some a => s ← Version_Unref s a; Some (s, with_input_version c None)
  | None => Some (s, c)
  end.
End Keys.
