(* ===== verification/LdbCompactionThms.v ===== *)
(** leveldb: the searches for the files of a compaction, and that a compaction
    takes files that can be replaced together.

    [inputs_ok] says so: what stays in the level is newer than what leaves it,
    and the files that stay in the next level are before or after all of it. *)
From Stdlib Require Import SpecFloat.
From stdpp Require Import base numbers option sets strings gmap sorting list.
From S2P Require Import Prelude LdbSlice LdbCoding LdbComparator LdbDbformat LdbVersionEdit LdbIterator LdbTable LdbRing LdbVersionThms LdbVersion LdbVersionSet LdbCompaction.
Open Scope Z_scope.

(** * The searches *)

Section Order.
Context {U : Comparator} {uvalid : bytes -> Prop} {uorder : bytes -> bytes -> Z} {UL : ComparatorLaw U uvalid uorder}.
#[local] Abbreviation iorder := (ikey_order uorder).
#[local] Abbreviation ivalid := (ikey_valid uvalid).
#[local] Abbreviation range_ok := (range_ok (uvalid := uvalid) (uorder := uorder)).
#[local] Abbreviation apart := (apart (uorder := uorder)).

(** * Ranges of user keys *)
Definition f_start (f : FileRef) : bytes := ikey_user (f_smallest f).
Definition f_limit (f : FileRef) : bytes := ikey_user (f_largest f).

(** No bound is below, or above, all keys. *)
Definition lower (b : option bytes) (k : bytes) : Prop := match b with None => True | Some b => uorder b k <= 0 end.
Definition upper (k : bytes) (e : option bytes) : Prop := match e with None => True | Some e => uorder k e <= 0 end.

#[global] Instance lower_dec b k : Decision (lower b k).
Proof. destruct b; cbn; apply _. Defined.
#[global] Instance upper_dec k e : Decision (upper k e).
Proof. destruct e; cbn; apply _. Defined.

Definition overlaps (b e : option bytes) (f : FileRef) : Prop := lower b (f_limit f) /\ upper (f_start f) e.
Definition inside (b e : option bytes) (f : FileRef) : Prop := lower b (f_start f) /\ upper (f_limit f) e.

#[global] Instance overlaps_dec b e f : Decision (overlaps b e f).
Proof. unfold overlaps. apply _. Defined.

Definition bound_ok (b : option bytes) : Prop := match b with None => True | Some b => uvalid b end.

(** A range with all the files that overlap it. *)
Definition closed (files : list FileRef) (b e : option bytes) : Prop :=
  forall f, f ∈ files -> overlaps b e f -> inside b e f.

(** [b'] is at or below [b], [e'] at or above [e]. *)
Definition wider_lower (b' b : option bytes) : Prop :=
  match b', b with None, _ => True | Some b', Some b => uorder b' b <= 0 | Some _, None => False end.
Definition wider_upper (e' e : option bytes) : Prop :=
  match e', e with None, _ => True | Some e', Some e => uorder e e' <= 0 | Some _, None => False end.

Lemma f_start_ok f : range_ok f -> uvalid (f_start f) /\ ExtractUserKey (f_smallest f) = Some (f_start f).
Proof. intros (Vs & _). by apply ikey_valid_user. Qed.

Lemma f_limit_ok f : range_ok f -> uvalid (f_limit f) /\ ExtractUserKey (f_largest f) = Some (f_limit f).
Proof. intros (_ & Vl & _). by apply ikey_valid_user. Qed.

Lemma f_start_limit f : range_ok f -> uorder (f_start f) (f_limit f) <= 0.
Proof. intros (_ & _ & H). by apply iorder_user. Qed.

Lemma wider_lower_trans b' b k : bound_ok b' -> bound_ok b -> uvalid k -> wider_lower b' b -> lower b k -> lower b' k.
Proof.
  destruct b' as [b'|], b as [b|]; cbn; intros V' V Vk H Hl; try done.
  by apply (order_trans (compare := Compare) (valid := uvalid) _ b).
Qed.

Lemma wider_upper_trans e' e k : bound_ok e' -> bound_ok e -> uvalid k -> wider_upper e' e -> upper k e -> upper k e'.
Proof.
  destruct e' as [e'|], e as [e|]; cbn; intros V' V Vk H Hl; try done.
  by apply (order_trans (compare := Compare) (valid := uvalid) _ e).
Qed.

Lemma overlaps_wider b' b e' e f :
  range_ok f -> bound_ok b' -> bound_ok b -> bound_ok e' -> bound_ok e -> wider_lower b' b -> wider_upper e' e ->
  overlaps b e f -> overlaps b' e' f.
Proof.
  intros Hf Vb' Vb Ve' Ve Hb He [H1 H2]. destruct (f_start_ok f Hf) as [Us _]. destruct (f_limit_ok f Hf) as [Ul _].
  split; [by apply (wider_lower_trans b' b)|by apply (wider_upper_trans e' e)].
Qed.

Lemma before_bound_ok k b : uvalid k -> bound_ok b -> before_bound k b = Some (bool_decide (~ lower b k)).
Proof.
  intros Hk Hb. destruct b as [b|]; cbn [before_bound lower]; [|by rewrite bool_decide_false by tauto].
  rewrite (Compare_order (compare := Compare) k b Hk Hb). cbn [mbind option_bind]. f_equal.
  pose proof (order_sym (compare := Compare) (order := uorder) k b Hk Hb).
  destruct (Z.ltb_spec (uorder k b) 0); symmetry; [apply bool_decide_true|apply bool_decide_false]; lia.
Qed.

Lemma after_bound_ok k e : uvalid k -> bound_ok e -> after_bound k e = Some (bool_decide (~ upper k e)).
Proof.
  intros Hk He. destruct e as [e|]; cbn [after_bound upper]; [|by rewrite bool_decide_false by tauto].
  rewrite (Compare_order (compare := Compare) k e Hk He). cbn [mbind option_bind]. f_equal.
  destruct (Z.gtb_spec (uorder k e) 0); symmetry; [apply bool_decide_true|apply bool_decide_false]; lia.
Qed.

(** * GetOverlappingInputs *)

(** The bounds that the files can still move. *)
Definition outside (files : list FileRef) (b e : option bytes) : nat :=
  length (filter (fun f => ~ lower b (f_start f)) files) + length (filter (fun f => ~ upper (f_limit f) e) files).

Lemma length_filter_lt {A} (P Q : A -> Prop) `{!forall x, Decision (P x), !forall x, Decision (Q x)} (l : list A) x :
  (forall y, y ∈ l -> P y -> Q y) -> x ∈ l -> Q x -> ~ P x -> (length (filter P l) < length (filter Q l))%nat.
Proof.
  intros Himp (l1 & l2 & ->)%list_elem_of_split Hq Hp.
  assert (forall l', (forall y, y ∈ l' -> P y -> Q y) -> (length (filter P l') <= length (filter Q l'))%nat) as Hle.
  { induction l' as [|y l' IH]; intros Hl'; [done|]. specialize (IH ltac:(intros z Hz; apply Hl'; set_solver)).
    destruct (decide (P y)) as [Hy|Hy].
    - rewrite !filter_cons_True by (try apply Hl'; set_solver). cbn [length]. lia.
    - rewrite (filter_cons_False P) by done. destruct (decide (Q y)).
      + rewrite filter_cons_True by done. cbn [length]. lia.
      + by rewrite filter_cons_False. }
  rewrite !filter_app, !length_app. rewrite (filter_cons_False P) by done. rewrite (filter_cons_True Q) by done. cbn [length].
  pose proof (Hle l1 ltac:(intros y Hy; apply Himp; set_solver)). pose proof (Hle l2 ltac:(intros y Hy; apply Himp; set_solver)). lia.
Qed.

(** What is known of the range and the inputs when the loop is at index [i]. *)
Record overlap_state (level : Z) (files : list FileRef) (b0 e0 : option bytes) (i : nat) (b e : option bytes) (inputs : list FileRef) : Prop := {
  os_bounds : bound_ok b /\ bound_ok e;
  os_wider : wider_lower b b0 /\ wider_upper e e0;
  os_inputs : inputs = filter (overlaps b e) (take i files);
  os_inside : level = 0 -> Forall (inside b e) inputs;
  os_fixed : level <> 0 -> b = b0 /\ e = e0;
  os_least B E : bound_ok B -> bound_ok E -> closed files B E -> wider_lower B b0 -> wider_upper E e0 ->
    wider_lower B b /\ wider_upper E e
}.

Lemma filter_take_S {A} (P : A -> Prop) `{!forall x, Decision (P x)} (l : list A) i x :
  l !! i = Some x -> filter P (take (S i) l) = filter P (take i l) ++ (if decide (P x) then [x] else []).
Proof. intros Hi. by rewrite (take_S_r l i x Hi), filter_app. Qed.

Lemma overlap_skip level files b0 e0 i b e inputs f :
  overlap_state level files b0 e0 i b e inputs -> files !! i = Some f -> ~ overlaps b e f ->
  overlap_state level files b0 e0 (S i) b e inputs.
Proof.
  intros [H1 H2 H3 H4 H5 H6] Hi Hno. split; [done|done| |done|done|done].
  by rewrite (filter_take_S _ _ _ f Hi), decide_False, app_nil_r.
Qed.

Lemma overlap_take level files b0 e0 i b e inputs f :
  overlap_state level files b0 e0 i b e inputs -> files !! i = Some f -> overlaps b e f -> (level = 0 -> inside b e f) ->
  overlap_state level files b0 e0 (S i) b e (inputs ++ [f]).
Proof.
  intros [H1 H2 H3 H4 H5 H6] Hi Hov Hin. split; [done|done| | |done|done].
  - rewrite (filter_take_S _ _ _ f Hi), decide_True by done. by rewrite H3.
  - intros Hl. apply Forall_app. split; [by apply H4|]. apply Forall_singleton. by apply Hin.
Qed.

Lemma overlap_loop_ok n level files b0 e0 i b e inputs :
  Forall range_ok files -> bound_ok b0 -> bound_ok e0 -> (i <= length files)%nat ->
  (outside files b e * S (length files) + (length files - i) <= n)%nat ->
  overlap_state level files b0 e0 i b e inputs ->
  exists b' e' inputs', overlap_loop n level files i b e inputs = Some inputs'
    /\ overlap_state level files b0 e0 (length files) b' e' inputs'.
Proof.
  intros Hr V0 W0. revert i b e inputs. induction n as [|n IH]; intros i b e inputs Hi Hn H.
  - assert (i = length files) as -> by lia. exists b, e, inputs. cbn [overlap_loop].
    by rewrite lookup_ge_None_2.
  - cbn [overlap_loop]. destruct (files !! i) as [f|] eqn:Ef.
    2: { apply lookup_ge_None in Ef. assert (i = length files) as -> by lia. by exists b, e, inputs. }
    pose proof (lookup_lt_Some _ _ _ Ef) as Hlt. assert (f ∈ files) as Hin by (apply list_elem_of_lookup; by exists i).
    pose proof (Forall_lookup_1 _ _ _ _ Hr Ef) as Hf. destruct (f_start_ok f Hf) as [Us ->]. destruct (f_limit_ok f Hf) as [Ul ->].
    destruct (os_bounds _ _ _ _ _ _ _ _ H) as [Vb Ve]. cbn [mbind option_bind].
    rewrite (before_bound_ok (f_limit f) b Ul Vb), (after_bound_ok (f_start f) e Us Ve). cbn [mbind option_bind].
    rewrite (before_bound_ok (f_start f) b Us Vb), (after_bound_ok (f_limit f) e Ul Ve). cbn [mbind option_bind].
    case_bool_decide as C1; [apply IH; [lia|lia|apply (overlap_skip _ _ _ _ _ _ _ _ f H Ef); by intros [? _]]|].
    case_bool_decide as C2; [apply IH; [lia|lia|apply (overlap_skip _ _ _ _ _ _ _ _ f H Ef); by intros [_ ?]]|].
    assert (overlaps b e f) as Hov by (split; apply dec_stable; tauto).
    destruct (Z.eqb_spec level 0) as [->|Hl]; [|apply IH; [lia|lia|by apply (overlap_take _ _ _ _ _ _ _ _ f H Ef Hov)]].
    case_bool_decide as C3; [|case_bool_decide as C4].
    + destruct b as [b|]; [|done]. cbn [lower] in C3.
      assert (outside files (Some (f_start f)) e < outside files (Some b) e)%nat as Hout.
      { unfold outside. apply Nat.add_lt_mono_r. apply (length_filter_lt _ _ _ f); cbn [lower]; [|done|lia|].
        - intros g Hg Hgs Hgb. apply Hgs. pose proof (proj1 (Forall_forall _ _) Hr g Hg) as Hgr. destruct (f_start_ok g Hgr) as [Ug _].
          apply (order_trans (compare := Compare) (valid := uvalid) _ b); [done..| |done].
          pose proof (order_sym (compare := Compare) (order := uorder) (f_start f) b Us Vb). lia.
        - intros Hx. apply Hx. by rewrite (order_refl (compare := Compare) (order := uorder)). }
      apply IH; [lia|nia|]. destruct H as [_ [H2a H2b] _ _ H5 H6]. split.
      * done.
      * split; [|done]. destruct b0 as [b0|]; [|done]. cbn [wider_lower] in H2a |- *.
        apply (order_trans (compare := Compare) (valid := uvalid) _ b); [done..| |done].
        pose proof (order_sym (compare := Compare) (order := uorder) (f_start f) b Us Vb). lia.
      * by rewrite take_0.
      * constructor.
      * done.
      * intros B E VB VE Hcl HB HE. destruct (H6 B E VB VE Hcl HB HE) as [HB' HE']. split; [|done].
        destruct B as [B|]; [|done]. cbn [wider_lower]. destruct (Hcl f Hin) as [Hlow _]; [|exact Hlow].
        by apply (overlaps_wider (Some B) (Some b) E e).
    + destruct e as [e|]; [|done]. cbn [upper] in C4.
      assert (outside files b (Some (f_limit f)) < outside files b (Some e))%nat as Hout.
      { unfold outside. apply Nat.add_lt_mono_l. apply (length_filter_lt _ _ _ f); cbn [upper]; [|done|lia|].
        - intros g Hg Hgs Hgb. apply Hgs. pose proof (proj1 (Forall_forall _ _) Hr g Hg) as Hgr. destruct (f_limit_ok g Hgr) as [Ug _].
          apply (order_trans (compare := Compare) (valid := uvalid) _ e); [done..|].
          pose proof (order_sym (compare := Compare) (order := uorder) (f_limit f) e Ul Ve). lia.
        - intros Hx. apply Hx. by rewrite (order_refl (compare := Compare) (order := uorder)). }
      apply IH; [lia|nia|]. destruct H as [_ [H2a H2b] _ _ H5 H6]. split.
      * done.
      * split; [done|]. destruct e0 as [e0|]; [|done]. cbn [wider_upper] in H2b |- *.
        apply (order_trans (compare := Compare) (valid := uvalid) _ e); [done..|].
        pose proof (order_sym (compare := Compare) (order := uorder) (f_limit f) e Ul Ve). lia.
      * by rewrite take_0.
      * constructor.
      * done.
      * intros B E VB VE Hcl HB HE. destruct (H6 B E VB VE Hcl HB HE) as [HB' HE']. split; [done|].
        destruct E as [E|]; [|done]. cbn [wider_upper]. destruct (Hcl f Hin) as [_ Hup]; [|exact Hup].
        by apply (overlaps_wider B b (Some E) (Some e)).
    + apply IH; [lia|lia|]. apply (overlap_take _ _ _ _ _ _ _ _ f H Ef Hov). intros _. split; apply dec_stable; tauto.
Qed.

(** The user key of a bound. *)
Definition bound_user (key : option bytes) : option bytes := ikey_user <$> key.

Definition key_ok (key : option bytes) : Prop := match key with None => True | Some k => ivalid k end.

Lemma user_of_ok key : key_ok key -> user_of key = Some (bound_user key) /\ bound_ok (bound_user key).
Proof.
  destruct key as [k|]; cbn [key_ok user_of bound_user fmap option_fmap option_map bound_ok]; [|done].
  intros Hk. by destruct (ikey_valid_user k Hk) as [Hu ->].
Qed.

(** The files that overlap a range; in level 0 the range grows to the least one
    that has all the files that overlap it. *)
Record overlapping (level : Z) (files : list FileRef) (b0 e0 b e : option bytes) (inputs : list FileRef) : Prop := {
  ov_bounds : bound_ok b /\ bound_ok e;
  ov_inputs : inputs = filter (overlaps b e) files;
  ov_wider : wider_lower b b0 /\ wider_upper e e0;
  ov_fixed : level <> 0 -> b = b0 /\ e = e0;
  ov_closed : level = 0 -> closed files b e;
  ov_least B E : bound_ok B -> bound_ok E -> closed files B E -> wider_lower B b0 -> wider_upper E e0 ->
    wider_lower B b /\ wider_upper E e
}.

Lemma wider_lower_refl b : bound_ok b -> wider_lower b b.
Proof. destruct b; cbn; [|done]. intros H. by rewrite (order_refl (compare := Compare) (order := uorder)). Qed.
Lemma wider_upper_refl e : bound_ok e -> wider_upper e e.
Proof. destruct e; cbn; [|done]. intros H. by rewrite (order_refl (compare := Compare) (order := uorder)). Qed.

Lemma GetOverlappingInputs_ok files_ level files begin end_ :
  0 <= level < kNumLevels -> files_ !! Z.to_nat level = Some files -> Forall range_ok files -> key_ok begin -> key_ok end_ ->
  exists b e inputs, GetOverlappingInputs files_ level begin end_ = Some inputs
    /\ overlapping level files (bound_user begin) (bound_user end_) b e inputs.
Proof.
  intros Hl Hf Hr Hb He. unfold GetOverlappingInputs.
  destruct (Z.geb_spec level 0); [|lia]. destruct (Z.ltb_spec level kNumLevels); [|lia]. cbn [andb].
  destruct (user_of_ok begin Hb) as [-> Vb]. destruct (user_of_ok end_ He) as [-> Ve]. cbn [mbind option_bind]. rewrite Hf.
  cbn [mbind option_bind].
  destruct (overlap_loop_ok (overlap_fuel files) level files (bound_user begin) (bound_user end_) 0 (bound_user begin) (bound_user end_) [])
    as (b & e & inputs & E & H2); [done|done|done|lia| | |].
  - unfold overlap_fuel, outside.
    pose proof (length_filter (fun f => ~ lower (bound_user begin) (f_start f)) files).
    pose proof (length_filter (fun f => ~ upper (f_limit f) (bound_user end_)) files). nia.
  - split; [done| |done|constructor|done|done]. split; [by apply wider_lower_refl|by apply wider_upper_refl].
  - exists b, e, inputs. split; [exact E|]. destruct H2 as [H2 H3 H4 H5 H6 H7].
    rewrite (take_ge files (length files)) in H4 by lia. split; try done.
    intros ->. specialize (H5 eq_refl). rewrite H4 in H5. intros f Hin Hov.
    apply (proj1 (Forall_forall _ _) H5). by apply list_elem_of_filter.
Qed.

(** * Boundary files *)

(** A file that starts after [key] with an entry of the same user key. *)
Definition boundary (key : bytes) (f : FileRef) : Prop := 0 < iorder (f_smallest f) key /\ uorder (f_start f) (ikey_user key) = 0.

#[global] Instance boundary_dec key f : Decision (boundary key f).
Proof. unfold boundary. apply _. Defined.

Definition smallest_boundary (files : list FileRef) (key : bytes) (f : FileRef) : Prop :=
  f ∈ files /\ boundary key f /\ forall g, g ∈ files -> boundary key g -> iorder (f_smallest f) (f_smallest g) <= 0.

Lemma smallest_boundary_cons_other files key f g :
  smallest_boundary files key f -> (boundary key g -> iorder (f_smallest f) (f_smallest g) <= 0) -> smallest_boundary (g :: files) key f.
Proof.
  intros (H1 & H2 & H3) Hg. split_and!; [set_solver|done|].
  intros h [->|Hh]%elem_of_cons; [done|by apply H3].
Qed.

Lemma find_boundary_ok level_files key best :
  Forall range_ok level_files -> ivalid key ->
  match best with Some b => range_ok b /\ boundary key b | None => True end ->
  exists r, find_boundary level_files key best = Some r
    /\ match r with
       | Some b => smallest_boundary (option_list best ++ level_files) key b /\ range_ok b
       | None => best = None /\ forall f, f ∈ level_files -> ~ boundary key f
       end.
Proof.
  intros Hr Hk. revert best. induction Hr as [|f files Hf Hr IH]; intros best Hbest.
  - exists best. split; [done|]. destruct best as [b|]; [|split; [done|set_solver]]. destruct Hbest as [Hb Hbd].
    split; [|done]. split_and!; [set_solver|done|]. intros g ->%list_elem_of_singleton _.
    by rewrite (order_refl (CL := ikey_CompareLaw) _ (proj1 Hb)).
  - cbn [find_boundary]. destruct Hf as (Vs & Vl & Hsl). pose proof Vs as (Us & Es)%ikey_valid_user. pose proof Hk as (Uk & Ek)%ikey_valid_user.
    rewrite (InternalKey_Compare_order (UL := UL) _ _ Vs Hk). cbn [mbind option_bind].
    assert (range_ok f) as Hf by done.
    assert ((if iorder (f_smallest f) key >? 0 then u ← ExtractUserKey (f_smallest f); l ← ExtractUserKey key;
              r ← Compare u l; Some (r =? 0) else Some false) = Some (bool_decide (boundary key f))) as ->.
    { unfold boundary. destruct (Z.gtb_spec (iorder (f_smallest f) key) 0).
      - rewrite Es, Ek. cbn [mbind option_bind]. rewrite (Compare_order (compare := Compare) _ _ Us Uk). cbn [mbind option_bind].
        f_equal. fold (f_start f). destruct (Z.eqb_spec (uorder (f_start f) (ikey_user key)) 0); symmetry; [apply bool_decide_true|apply bool_decide_false]; lia.
      - rewrite bool_decide_false by lia. done. }
    cbn [mbind option_bind]. case_bool_decide as Hbd.
    + destruct best as [b|]; cbn [mbind option_bind].
      * destruct Hbest as (Hb & Hbb). rewrite (InternalKey_Compare_order (UL := UL) _ _ Vs (proj1 Hb)). cbn [mbind option_bind].
        pose proof (ikey_order_sym (UL := UL) _ _ Vs (proj1 Hb)) as Hsym.
        destruct (Z.ltb_spec (iorder (f_smallest f) (f_smallest b)) 0) as [Hlt|Hge].
        -- destruct (IH (Some f)) as (r & -> & H); [done|]. exists r. split; [done|]. destruct r as [x|]; [|by destruct H].
           destruct H as [H Hx]. split; [|done]. apply smallest_boundary_cons_other; [exact H|].
           intros _. apply (ikey_order_trans (UL := UL) _ (f_smallest f)); [apply Hx|done|apply Hb| |lia].
           apply H; [set_solver|done].
        -- destruct (IH (Some b)) as (r & -> & H); [done|]. exists r. split; [done|]. destruct r as [x|]; [|by destruct H].
           destruct H as [H Hx]. split; [|done]. cbn [option_list option_rect app] in *.
           assert (forall h, h ∈ b :: f :: files <-> h ∈ f :: b :: files) as Hperm by set_solver.
           destruct (smallest_boundary_cons_other (b :: files) key x f H) as (X1 & X2 & X3).
           { intros _. apply (ikey_order_trans (UL := UL) _ (f_smallest b)); [apply Hx|apply Hb|done| |lia].
             apply H; [set_solver|done]. }
           split_and!; [by apply Hperm|done|]. intros g Hg. by apply X3, Hperm.
      * destruct (IH (Some f)) as (r & -> & H); [done|]. exists r. split; [done|]. destruct r as [x|]; [done|by destruct H].
    + cbn [mbind option_bind]. destruct (IH best Hbest) as (r & -> & H). exists r. split; [done|]. destruct r as [x|].
      * destruct H as [H Hx]. split; [|done]. destruct best as [b|]; cbn [option_list option_rect app] in *.
        -- assert (forall h, h ∈ b :: f :: files <-> h ∈ f :: b :: files) as Hperm by set_solver.
           destruct (smallest_boundary_cons_other (b :: files) key x f H) as (X1 & X2 & X3); [done|].
           split_and!; [by apply Hperm|done|]. intros g Hg. by apply X3, Hperm.
        -- by apply smallest_boundary_cons_other.
      * destruct H as [-> H]. split; [done|]. intros g [->|Hg]%elem_of_cons; [done|by apply H].
Qed.

Lemma find_largest_ok files key :
  Forall range_ok files -> ivalid key ->
  exists k, find_largest files key = Some k /\ ivalid k /\ iorder key k <= 0
    /\ (forall f, f ∈ files -> iorder (f_largest f) k <= 0) /\ (k = key \/ exists f, f ∈ files /\ k = f_largest f).
Proof.
  intros Hr. revert key. induction Hr as [|f files (Vs & Vl & Hsl) Hr IH]; intros key Hk.
  - exists key. split_and!; [done|done|by rewrite (order_refl (CL := ikey_CompareLaw))|set_solver|by left].
  - cbn [find_largest]. rewrite (InternalKey_Compare_order (UL := UL) _ _ Vl Hk). cbn [mbind option_bind].
    pose proof (ikey_order_sym (UL := UL) _ _ Vl Hk) as Hsym. destruct (Z.gtb_spec (iorder (f_largest f) key) 0) as [Hgt|Hle].
    + destruct (IH (f_largest f) Vl) as (k & -> & Vk & Hle & Hall & Hor). exists k. split_and!; [done|done| | |].
      * apply (ikey_order_trans (UL := UL) _ (f_largest f)); [done..|lia|done].
      * intros g [->|Hg]%elem_of_cons; [done|by apply Hall].
      * right. destruct Hor as [->|(g & Hg & ->)]; [exists f|exists g]; set_solver.
    + destruct (IH key Hk) as (k & -> & Vk & Hle' & Hall & Hor). exists k. split_and!; [done|done|done| |].
      * intros g [->|Hg]%elem_of_cons; [|by apply Hall]. apply (ikey_order_trans (UL := UL) _ key); done.
      * destruct Hor as [->|(g & Hg & ->)]; [by left|right; exists g; set_solver].
Qed.

(** The files that start after a key. *)
Definition starting_after (files : list FileRef) (key : bytes) : nat :=
  length (filter (fun f => 0 < iorder (f_smallest f) key) files).

(** [key] is the largest key of [files]. *)
Definition is_largest (files : list FileRef) (key : bytes) : Prop :=
  (forall f, f ∈ files -> iorder (f_largest f) key <= 0) /\ exists f, f ∈ files /\ f_largest f = key.

(** The files that are added, one after the other. *)
Inductive boundary_chain (files : list FileRef) : list FileRef -> bytes -> list FileRef -> bytes -> Prop :=
  | chain_end fs key : (forall f, f ∈ files -> ~ boundary key f) -> boundary_chain files fs key fs key
  | chain_step fs key f fs' key' :
      smallest_boundary files key f -> boundary_chain files (fs ++ [f]) (f_largest f) fs' key' -> boundary_chain files fs key fs' key'.

(** The chain ends: every step leaves fewer files that start after the key. *)
Lemma boundary_loop_ok n level_files key fs :
  Forall range_ok level_files -> ivalid key -> (starting_after level_files key < n)%nat ->
  exists fs' key', boundary_loop n level_files key fs = Some fs' /\ boundary_chain level_files fs key fs' key'.
Proof.
  intros Hr. revert key fs. induction n as [|n IH]; intros key fs Hk Hn; [lia|]. cbn [boundary_loop].
  unfold FindSmallestBoundaryFile. destruct (find_boundary_ok level_files key None Hr Hk I) as (r & -> & H).
  cbn [mbind option_bind]. destruct r as [f|].
  - destruct H as (Hf & Vs & Vl & Hsl). pose proof Hf as (Hin & [Hgt _] & _). cbn [option_list option_rect app] in *.
    destruct (IH (f_largest f) (fs ++ [f]) Vl) as (fs' & key' & E & Hc); [|exists fs', key'; split; [done|by apply (chain_step _ _ _ f)]].
    assert (starting_after level_files (f_largest f) < starting_after level_files key)%nat; [|lia].
    assert (iorder key (f_largest f) <= 0) as Hup.
    { pose proof (ikey_order_sym (UL := UL) _ _ Vs Hk). apply (ikey_order_trans (UL := UL) _ (f_smallest f)); [done..|lia|done]. }
    apply (length_filter_lt _ _ _ f); [|done|done|lia]. intros g Hg Hgt'. pose proof (proj1 (Forall_forall _ _) Hr g Hg) as (Vgs & _ & _).
    pose proof (ikey_order_sym (UL := UL) _ _ Vgs Vl). pose proof (ikey_order_sym (UL := UL) _ _ Vgs Hk).
    assert (iorder key (f_smallest g) < 0); [|lia].
    apply (order_le_lt_trans (CL := ikey_CompareLaw) _ (f_largest f)); [done..|lia].
  - destruct H as [_ H]. exists fs, key. split; [done|by apply chain_end].
Qed.

Lemma AddBoundaryInputs_ok level_files fs :
  Forall range_ok level_files -> Forall range_ok fs -> fs <> [] ->
  exists fs' key key', AddBoundaryInputs level_files fs = Some fs' /\ ivalid key /\ is_largest fs key
    /\ boundary_chain level_files fs key fs' key'.
Proof.
  intros Hr Hfs Hne. unfold AddBoundaryInputs, FindLargestKey. destruct fs as [|f fs]; [done|].
  apply Forall_cons in Hfs as [Hf Hfs]. destruct Hf as (Vs & Vl & Hsl).
  destruct (find_largest_ok fs (f_largest f) Hfs Vl) as (k & -> & Vk & Hle & Hall & Hor). cbn [mbind option_bind].
  destruct (boundary_loop_ok (S (length level_files)) level_files k (f :: fs) Hr Vk) as (fs' & key' & -> & Hc).
  { unfold starting_after. pose proof (length_filter (fun f => 0 < iorder (f_smallest f) k) level_files). lia. }
  exists fs', k, key'. split_and!; [done|done| |done]. split.
  - intros g [->|Hg]%elem_of_cons; [done|by apply Hall].
  - destruct Hor as [->|(g & Hg & ->)]; [exists f|exists g]; set_solver.
Qed.

(** A set of files of a level without gaps. *)
Definition convex (files fs : list FileRef) : Prop :=
  forall i j k f g h, (i <= j <= k)%nat -> files !! i = Some f -> files !! j = Some g -> files !! k = Some h ->
    f ∈ fs -> h ∈ fs -> g ∈ fs.

Section Chain.
Context (files : list FileRef) (Hr : Forall range_ok files).

Lemma files_range f : f ∈ files -> range_ok f.
Proof. apply (proj1 (Forall_forall _ _) Hr). Qed.

Lemma is_largest_snoc fs key f :
  (forall g, g ∈ fs -> g ∈ files) -> ivalid key -> is_largest fs key -> smallest_boundary files key f ->
  is_largest (fs ++ [f]) (f_largest f).
Proof.
  intros Hsub Vk [H1 _] (Hf & [Hb _] & _). destruct (files_range f Hf) as (Vs & Vl & Hsl).
  pose proof (ikey_order_sym (UL := UL) _ _ Vs Vk). split; [|exists f; set_solver].
  intros g [Hg| ->%list_elem_of_singleton]%elem_of_app; [|by rewrite (order_refl (CL := ikey_CompareLaw))].
  destruct (files_range g (Hsub g Hg)) as (_ & Vgl & _).
  apply (ikey_order_trans (UL := UL) _ key); [done|done|done|by apply H1|].
  apply (ikey_order_trans (UL := UL) _ (f_smallest f)); [done..|lia|done].
Qed.

Lemma boundary_chain_inv fs key fs' key' :
  boundary_chain files fs key fs' key' -> (forall g, g ∈ fs -> g ∈ files) -> ivalid key -> is_largest fs key ->
  (forall g, g ∈ fs' -> g ∈ files) /\ (forall g, g ∈ fs -> g ∈ fs') /\ ivalid key' /\ is_largest fs' key'
  /\ (forall f, f ∈ files -> ~ boundary key' f) /\ (fs' = fs \/ exists f, f ∈ files /\ boundary key f).
Proof.
  induction 1 as [fs key Hno|fs key f fs' key' Hf Hc IH]; intros Hsub Vk Hl.
  - split_and!; try done; try apply Hl. by left.
  - pose proof Hf as (Hin & Hbd & _). destruct IH as (I1 & I2 & I3 & I4 & I5 & _).
    + set_solver.
    + apply (files_range f Hin).
    + by apply (is_largest_snoc _ key).
    + split_and!; try done; try apply I4; [set_solver|]. right. by exists f.
Qed.

(** ** Above level 0 *)
Context (Ha : apart files).

Lemma apart_start i j f g :
  (i < j)%nat -> files !! i = Some f -> files !! j = Some g -> iorder (f_smallest f) (f_smallest g) < 0.
Proof.
  intros Hij Hi Hj. destruct (files_range f) as (Vs & Vl & Hsl); [by apply list_elem_of_lookup_2 in Hi|].
  destruct (files_range g) as (Vgs & _ & _); [by apply list_elem_of_lookup_2 in Hj|].
  apply (order_le_lt_trans (CL := ikey_CompareLaw) _ (f_largest f)); [done..|by apply (Ha i j)].
Qed.

Lemma convex_snoc fs key f :
  (forall g, g ∈ fs -> g ∈ files) -> ivalid key -> is_largest fs key -> smallest_boundary files key f ->
  convex files fs -> convex files (fs ++ [f]).
Proof.
  intros Hsub Vk [H1 (t & Ht & <-)] (Hf & [Hb1 Hb2] & Hmin) Hc i j k x g h Hij Hi Hj Hk Hx Hh.
  pose proof Hf as (p & Hp)%list_elem_of_lookup_1. destruct (files_range f Hf) as (Vs & Vl & Hsl).
  pose proof (Hsub t Ht) as (q & Hq)%list_elem_of_lookup_1. destruct (files_range t (Hsub t Ht)) as (Vts & Vtl & Htl).
  destruct (files_range g) as (Vgs & Vgl & Hgl); [by apply list_elem_of_lookup_2 in Hj|].
  apply elem_of_app. destruct (decide (j <= q)%nat) as [Hjq|Hjq].
  - (* at or before the last file *)
    apply elem_of_app in Hx as [Hx| ->%list_elem_of_singleton]; [left; apply (Hc i j q x g t); [lia|done..]|].
    (* starting from [f], which is after the last *)
    destruct (decide (q < i)%nat) as [?|Hiq]; [lia|].
    pose proof (ikey_order_sym (UL := UL) _ _ Vs Vtl).
    assert (iorder (f_smallest f) (f_smallest t) <= 0) as Hft.
    { destruct (decide (i = q)) as [->|]; [assert (f = t) as -> by congruence; by rewrite (order_refl (CL := ikey_CompareLaw))|].
      pose proof (apart_start i q f t ltac:(lia) Hi Hq). lia. }
    pose proof (ikey_order_trans (UL := UL) _ _ _ Vs Vts Vtl Hft Htl). lia.
  - (* after it: nothing starts between the key and [f] *)
    pose proof (Ha q j t g ltac:(lia) Hq Hj) as Htg. pose proof (ikey_order_sym (UL := UL) _ _ Vtl Vgs).
    apply elem_of_app in Hh as [Hh| ->%list_elem_of_singleton].
    + destruct (files_range h (Hsub h Hh)) as (_ & Vhl & _).
      assert (iorder (f_largest t) (f_largest h) < 0) by (by apply (apart_largest files q k); [..|lia| |]).
      specialize (H1 h Hh). pose proof (ikey_order_sym (UL := UL) _ _ Vtl Vhl). lia.
    + right. apply list_elem_of_singleton. destruct (decide (j = k)) as [->|]; [congruence|].
      pose proof (apart_start j k g f ltac:(lia) Hj Hk) as Hgf. pose proof (ikey_order_sym (UL := UL) _ _ Vgs Vs).
      assert (boundary (f_largest t) g); [|specialize (Hmin g ltac:(by apply list_elem_of_lookup_2 in Hj) ltac:(done)); lia].
      split; [lia|]. destruct (ikey_valid_user _ Vgs) as [Ug _]. destruct (ikey_valid_user _ Vtl) as [Ut _].
      destruct (ikey_valid_user _ Vs) as [Us _].
      pose proof (iorder_user _ _ (Z.lt_le_incl _ _ Htg)). pose proof (iorder_user _ _ (Z.lt_le_incl _ _ Hgf)).
      unfold f_start in *. pose proof (order_sym (compare := Compare) (order := uorder) _ _ Ug Ut).
      assert (uorder (ikey_user (f_smallest g)) (ikey_user (f_largest t)) <= 0); [|lia].
      apply (order_trans (compare := Compare) (valid := uvalid) _ (ikey_user (f_smallest f))); [done..|lia].
Qed.

Lemma boundary_chain_convex fs key fs' key' :
  boundary_chain files fs key fs' key' -> (forall g, g ∈ fs -> g ∈ files) -> ivalid key -> is_largest fs key ->
  convex files fs -> convex files fs'.
Proof.
  induction 1 as [|fs key f fs' key' Hf Hc IH]; intros Hsub Vk Hl Hcv; [done|].
  pose proof Hf as (Hin & _ & _). apply IH.
  - set_solver.
  - apply (files_range f Hin).
  - by apply (is_largest_snoc _ key).
  - by apply (convex_snoc _ key).
Qed.
End Chain.
End Order.

(** * The choice of files *)

Section Order.
Context {U : Comparator} {uvalid : bytes -> Prop} {uorder : bytes -> bytes -> Z} {UL : ComparatorLaw U uvalid uorder}.
#[local] Abbreviation iorder := (ikey_order uorder).
#[local] Abbreviation ivalid := (ikey_valid uvalid).
#[local] Abbreviation range_ok := (range_ok (uvalid := uvalid) (uorder := uorder)).
#[local] Abbreviation apart := (apart (uorder := uorder)).
#[local] Abbreviation bound_ok := (bound_ok (uvalid := uvalid)).
#[local] Abbreviation overlaps := (overlaps (uorder := uorder)).
#[local] Abbreviation closed := (closed (uorder := uorder)).
#[local] Abbreviation boundary := (boundary (uorder := uorder)).
#[local] Abbreviation is_largest := (is_largest (uorder := uorder)).
#[local] Abbreviation overlapping := (overlapping (uvalid := uvalid) (uorder := uorder)).
#[local] Existing Instance ikey_CompareLaw.

(** * Ranges of files *)
Record range_of (fs : list FileRef) (s l : bytes) : Prop := {
  ro_valid : ivalid s /\ ivalid l;
  ro_covers f : f ∈ fs -> iorder s (f_smallest f) <= 0 /\ iorder (f_largest f) l <= 0;
  ro_attained : (exists f, f ∈ fs /\ f_smallest f = s) /\ exists f, f ∈ fs /\ f_largest f = l
}.

Lemma get_range_ok fs s l :
  Forall range_ok fs -> ivalid s -> ivalid l ->
  exists s' l', get_range fs s l = Some (s', l') /\ ivalid s' /\ ivalid l' /\ iorder s' s <= 0 /\ iorder l l' <= 0
    /\ (forall f, f ∈ fs -> iorder s' (f_smallest f) <= 0 /\ iorder (f_largest f) l' <= 0)
    /\ (s' = s \/ exists f, f ∈ fs /\ f_smallest f = s') /\ (l' = l \/ exists f, f ∈ fs /\ f_largest f = l').
Proof.
  intros Hr. revert s l. induction Hr as [|f fs (Vs & Vl & Hsl) Hr IH]; intros s l Hs Hl.
  - exists s, l. split_and!; [done|done|done|by rewrite (order_refl (CL := ikey_CompareLaw))..|set_solver|by left|by left].
  - cbn [get_range]. rewrite (InternalKey_Compare_order (UL := UL) _ _ Vs Hs), (InternalKey_Compare_order (UL := UL) _ _ Vl Hl).
    cbn [mbind option_bind]. set (s1 := if _ <? 0 then _ else _). set (l1 := if _ >? 0 then _ else _).
    assert (ivalid s1 /\ iorder s1 s <= 0 /\ iorder s1 (f_smallest f) <= 0 /\ (s1 = s \/ s1 = f_smallest f)) as (Vs1 & S1 & S2 & S3).
    { subst s1. pose proof (ikey_order_sym (UL := UL) _ _ Vs Hs).
      destruct (Z.ltb_spec (iorder (f_smallest f) s) 0); split_and!; try done; try lia;
        try (by rewrite (order_refl (CL := ikey_CompareLaw))); first [by left|by right]. }
    assert (ivalid l1 /\ iorder l l1 <= 0 /\ iorder (f_largest f) l1 <= 0 /\ (l1 = l \/ l1 = f_largest f)) as (Vl1 & L1 & L2 & L3).
    { subst l1. pose proof (ikey_order_sym (UL := UL) _ _ Vl Hl).
      destruct (Z.gtb_spec (iorder (f_largest f) l) 0); split_and!; try done; try lia;
        try (by rewrite (order_refl (CL := ikey_CompareLaw))); first [by left|by right]. }
    clearbody s1 l1. destruct (IH s1 l1 Vs1 Vl1) as (s' & l' & -> & Vs' & Vl' & S4 & L4 & Hall & S5 & L5).
    exists s', l'. split_and!; [done|done|done| | | | |].
    + by apply (ikey_order_trans (UL := UL) _ s1).
    + by apply (ikey_order_trans (UL := UL) _ l1).
    + intros g [->|Hg]%elem_of_cons; [|by apply Hall]. split.
      * by apply (ikey_order_trans (UL := UL) _ s1).
      * by apply (ikey_order_trans (UL := UL) _ l1).
    + destruct S5 as [->|(g & Hg & <-)]; [|right; exists g; set_solver].
      destruct S3 as [->| ->]; [by left|right; exists f; set_solver].
    + destruct L5 as [->|(g & Hg & <-)]; [|right; exists g; set_solver].
      destruct L3 as [->| ->]; [by left|right; exists f; set_solver].
Qed.

Lemma GetRange_ok fs : Forall range_ok fs -> fs <> [] -> exists s l, GetRange fs = Some (s, l) /\ range_of fs s l.
Proof.
  intros Hr Hne. destruct fs as [|f fs]; [done|]. unfold GetRange. inversion Hr as [|? ? (Vs & Vl & _) Hr']; subst.
  destruct (get_range_ok fs (f_smallest f) (f_largest f) Hr' Vs Vl) as (s & l & -> & Hs & Hl & Hsf & Hlf & Hall & S & L).
  exists s, l. split; [done|]. split; [done| |].
  - intros g [->|Hg]%elem_of_cons; [done|by apply Hall].
  - split; [destruct S as [->|(g & Hg & <-)]|destruct L as [->|(g & Hg & <-)]];
      first [exists f; set_solver|exists g; set_solver].
Qed.

Lemma range_of_users fs s l f : Forall range_ok fs -> range_of fs s l -> f ∈ fs ->
  uorder (ikey_user s) (f_start f) <= 0 /\ uorder (f_limit f) (ikey_user l) <= 0.
Proof. intros Hr [_ H _] Hf. destruct (H f Hf). split; by apply iorder_user. Qed.

(** * The files of the level *)

(** What the choice of inputs may start from: at level 0 all the files that
    overlap a range, above it files without a gap. *)
Definition start_ok (level : Z) (files i0 : list FileRef) : Prop :=
  i0 <> [] /\ (forall f, f ∈ i0 -> f ∈ files)
  /\ (level = 0 -> exists b e, bound_ok b /\ bound_ok e /\ closed files b e /\ i0 = filter (overlaps b e) files)
  /\ (level <> 0 -> convex files i0).

Lemma convex_overlaps files b e :
  Forall range_ok files -> apart files -> bound_ok b -> bound_ok e -> convex files (filter (overlaps b e) files).
Proof.
  intros Hr Ha Vb Ve i j k f g h [Hij Hjk] Hi Hj Hk [[Hf1 Hf2] _]%list_elem_of_filter [[Hh1 Hh2] _]%list_elem_of_filter.
  assert (forall x n, files !! n = Some x -> range_ok x) as Hx by (intros x n; apply (Forall_lookup_1 _ _ _ _ Hr)).
  pose proof (Hx f i Hi) as Rf. pose proof (Hx g j Hj) as Rg. pose proof (Hx h k Hk) as Rh.
  apply list_elem_of_filter. split; [|by apply list_elem_of_lookup_2 in Hj].
  destruct (f_limit_ok f Rf) as [Uf _]. destruct (f_start_ok g Rg) as [Ugs _]. destruct (f_limit_ok g Rg) as [Ugl _].
  destruct (f_start_ok h Rh) as [Uh _]. split.
  - destruct (decide (i = j)) as [->|]; [by replace g with f by congruence|].
    apply (wider_lower_trans b b); [done..|by apply wider_lower_refl|].
    assert (uorder (f_limit f) (f_limit g) <= 0).
    { apply iorder_user, Z.lt_le_incl, (apart_largest files i j); [done|done|lia|done|done]. }
    destruct b as [b|]; [|done]. by apply (order_trans (compare := Compare) (valid := uvalid) _ (f_limit f)).
  - destruct (decide (j = k)) as [->|]; [by replace g with h by congruence|].
    assert (uorder (f_start g) (f_start h) <= 0).
    { apply iorder_user, Z.lt_le_incl, (apart_start files Hr Ha j k); [lia|done|done]. }
    destruct e as [e|]; [|done]. by apply (order_trans (compare := Compare) (valid := uvalid) _ (f_start h)).
Qed.

Lemma overlapping_start level files b0 e0 b e inputs :
  Forall range_ok files -> (level <> 0 -> apart files) -> overlapping level files b0 e0 b e inputs -> inputs <> [] ->
  start_ok level files inputs.
Proof.
  intros Hr Ha [[Vb Ve] -> _ _ Hc _] Hne. split; [done|]. split; [by intros f [_ ?]%list_elem_of_filter|]. split.
  - intros Hl. exists b, e. split_and!; [done|done|by apply Hc|done].
  - intros Hl. apply convex_overlaps; auto.
Qed.

(** Boundary files: nothing is left that starts inside the last user key. *)
Definition no_boundary (files i0 : list FileRef) : Prop :=
  exists key, ivalid key /\ is_largest i0 key /\ forall f, f ∈ files -> ~ boundary key f.

Lemma AddBoundaryInputs_start level files i0 :
  Forall range_ok files -> (level <> 0 -> apart files) -> start_ok level files i0 ->
  exists i0', AddBoundaryInputs files i0 = Some i0' /\ start_ok level files i0' /\ (forall f, f ∈ i0 -> f ∈ i0') /\ no_boundary files i0'.
Proof.
  intros Hr Ha (Hne & Hsub & H0 & H1).
  destruct (AddBoundaryInputs_ok files i0 Hr) as (i0' & key & key' & E & Vk & Hl & Hc); [|done|].
  { apply Forall_forall. intros f Hf. by apply (files_range files Hr), Hsub. }
  destruct (boundary_chain_inv files Hr i0 key i0' key' Hc Hsub Vk Hl) as (I1 & I2 & I3 & I4 & I5 & I6).
  exists i0'. split; [done|]. split; [|split; [done|by exists key']]. split; [|split; [done|split]].
  - intros ->. destruct i0 as [|f i0]; [done|]. specialize (I2 f). set_solver.
  - intros Hz. destruct (H0 Hz) as (b & e & Vb & Ve & Hcl & Hi). exists b, e. split_and!; [done|done|done|].
    destruct I6 as [->|(f & Hf & Hb1 & Hb2)]; [done|]. exfalso.
    destruct Hl as [Hl (t & Ht & <-)]. pose proof (Hsub t Ht) as Htf.
    assert (f ∈ i0) as Hf0.
    { rewrite Hi in Ht |- *. apply list_elem_of_filter in Ht as [Ht _]. destruct (Hcl t Htf Ht) as [T1 T2].
      apply list_elem_of_filter. split; [|done].
      pose proof (files_range files Hr f Hf) as Rf. pose proof (files_range files Hr t Htf) as Rt.
      destruct (f_start_ok f Rf) as [Us _]. destruct (f_limit_ok f Rf) as [Ul _].
      destruct (f_limit_ok t Rt) as [Ut _]. destruct Ht as [Ht _]. fold (f_limit t) in Hb2.
      pose proof (f_start_limit f Rf). pose proof (order_sym (compare := Compare) (order := uorder) _ _ Us Ut). split.
      - destruct b as [b|]; [|done]. apply (order_trans (compare := Compare) (valid := uvalid) _ (f_limit t)); [done..|].
        apply (order_trans (compare := Compare) (valid := uvalid) _ (f_start f)); [done..|lia|done].
      - destruct e as [e|]; [|done]. apply (order_trans (compare := Compare) (valid := uvalid) _ (f_limit t)); [done..|lia|done]. }
    destruct (files_range files Hr f Hf) as (Vs & Vl & Hsl). destruct (files_range files Hr t Htf) as (_ & Vt & _).
    specialize (Hl f Hf0). pose proof (ikey_order_trans (UL := UL) _ _ _ Vs Vl Vt Hsl Hl). lia.
  - intros Hz. apply (boundary_chain_convex files Hr (Ha Hz) i0 key i0' key'); [done..|by apply H1].
Qed.

Section Layout.
Context (entries : FileRef -> list (bytes * bytes)).
#[local] Abbreviation file_ok := (file_ok (uvalid := uvalid) (uorder := uorder) entries).
#[local] Abbreviation newer := (newer (uorder := uorder) entries).

Lemma file_ok_ranges files : Forall file_ok files -> Forall range_ok files.
Proof. intros H. apply (Forall_impl _ _ _ H). by intros f []. Qed.

Lemma entry_within f e : file_ok f -> e ∈ entries f ->
  uvalid (ikey_user e.1) /\ uorder (f_start f) (ikey_user e.1) <= 0 /\ uorder (ikey_user e.1) (f_limit f) <= 0.
Proof.
  intros Hf He. destruct (entry_key_valid entries f e Hf He) as [_ Hu]. destruct (fo_within entries f Hf e He).
  split_and!; [done|by apply iorder_user..].
Qed.

(** What stays in the level is newer than what leaves it. *)
Lemma start_left level files i0 f g :
  Forall file_ok files -> (level <> 0 -> apart files) -> start_ok level files i0 -> no_boundary files i0 ->
  f ∈ i0 -> g ∈ files -> g ∉ i0 -> newer g f.
Proof.
  intros Hok Ha (Hne & Hsub & H0 & H1) (key & Vk & Hl & Hno) Hf Hg Hgn e' e He' He Hsame.
  assert (forall x, x ∈ files -> file_ok x) as Hx by (by apply Forall_forall).
  pose proof (file_ok_ranges files Hok) as Hr. pose proof (Hx f (Hsub f Hf)) as Of. pose proof (Hx g Hg) as Og.
  destruct (entry_within f e Of He) as (Ue & E1 & E2). destruct (entry_within g e' Og He') as (Ue' & G1 & G2).
  pose proof (files_range files Hr f (Hsub f Hf)) as Rf. pose proof (files_range files Hr g Hg) as Rg.
  destruct (f_start_ok f Rf) as [Us _]. destruct (f_limit_ok f Rf) as [Ul _].
  destruct (f_start_ok g Rg) as [Ugs _]. destruct (f_limit_ok g Rg) as [Ugl _].
  pose proof (order_sym (compare := Compare) (order := uorder) _ _ Ue Ue').
  assert (uorder (f_start g) (ikey_user e.1) <= 0) as G1' by
    (apply (order_trans (compare := Compare) (valid := uvalid) _ (ikey_user e'.1)); [done..|lia]).
  assert (uorder (ikey_user e.1) (f_limit g) <= 0) as G2' by
    (apply (order_trans (compare := Compare) (valid := uvalid) _ (ikey_user e'.1)); [done..|lia|done]).
  destruct (decide (level = 0)) as [Hz|Hz].
  - exfalso. destruct (H0 Hz) as (b & e0 & Vb & Ve & Hcl & Hi). apply Hgn. rewrite Hi in Hf |- *.
    apply list_elem_of_filter in Hf as [Hov Hff]. destruct (Hcl f Hff Hov) as [F1 F2].
    apply list_elem_of_filter. split; [|done]. split.
    + destruct b as [b|]; [|done]. apply (order_trans (compare := Compare) (valid := uvalid) _ (f_start f)); [done..|].
      by apply (order_trans (compare := Compare) (valid := uvalid) _ (ikey_user e.1)).
    + destruct e0 as [e0|]; [|done]. apply (order_trans (compare := Compare) (valid := uvalid) _ (f_limit f)); [done..| |done].
      by apply (order_trans (compare := Compare) (valid := uvalid) _ (ikey_user e.1)).
  - specialize (Ha Hz). specialize (H1 Hz).
    pose proof (Hsub f Hf) as (i & Hi)%list_elem_of_lookup_1. pose proof Hg as (j & Hj)%list_elem_of_lookup_1.
    destruct (fo_within entries f Of e He) as [E3 E4]. destruct (fo_within entries g Og e' He') as [G3 G4].
    destruct (entry_key_valid entries f e Of He) as [Ve _]. destruct (entry_key_valid entries g e' Og He') as [Ve' _].
    destruct Rf as (Vs & Vl & _). destruct Rg as (Vgs & Vgl & _).
    destruct (decide (j < i)%nat) as [Hji|Hji].
    + (* [g] is before [f] *)
      apply (proj1 (iorder_same (uorder := uorder) e'.1 e.1 Hsame)). apply (order_le_lt_trans (CL := ikey_CompareLaw) _ (f_largest g)); [done..|].
      apply (order_lt_le_trans (CL := ikey_CompareLaw) _ (f_smallest f)); [done..|by apply (Ha j i)|done].
    + destruct (decide (i = j)) as [->|]; [by replace g with f in Hgn by congruence|].
      (* [g] is after [f], and then it is a boundary file or in a gap *)
      exfalso. pose proof (Ha i j f g ltac:(lia) Hi Hj) as Hfg. pose proof (iorder_user _ _ (Z.lt_le_incl _ _ Hfg)) as Ufg.
      destruct Hl as [Hl (t & Ht & <-)]. pose proof (Hsub t Ht) as (q & Hq)%list_elem_of_lookup_1.
      destruct (files_range files Hr t (Hsub t Ht)) as (Vts & Vtl & Htl). destruct (ikey_valid_user _ Vtl) as [Ut _].
      destruct (decide (j <= q)%nat) as [Hjq|Hjq]; [apply Hgn, (H1 i j q f g t); [lia|done..]|].
      pose proof (Ha q j t g ltac:(lia) Hq Hj) as Htg. pose proof (iorder_user _ _ (Z.lt_le_incl _ _ Htg)) as Utg.
      specialize (Hl f Hf). apply iorder_user in Hl. pose proof (ikey_order_sym (UL := UL) _ _ Vtl Vgs).
      apply (Hno g Hg). split; [lia|]. fold (f_start g) (f_limit t) (f_limit f) in *.
      pose proof (order_sym (compare := Compare) (order := uorder) _ _ Ugs Ut).
      assert (uorder (f_start g) (f_limit t) <= 0); [|lia].
      apply (order_trans (compare := Compare) (valid := uvalid) _ (ikey_user e.1)); [done..|].
      by apply (order_trans (compare := Compare) (valid := uvalid) _ (f_limit f)).
Qed.

(** * Both levels *)

(** All of [fs] is after [g], or all of it before. *)
Definition beside (g : FileRef) (fs : list FileRef) : Prop :=
  (forall f, f ∈ fs -> uorder (f_limit g) (f_start f) < 0) \/ (forall f, f ∈ fs -> uorder (f_limit f) (f_start g) < 0).

(** The files [i0] of a level and [i1] of the next can be replaced by files of the
    next level. *)
Record inputs_ok (files0 files1 i0 i1 : list FileRef) : Prop := {
  in_some : i0 <> [];
  in_0 f : f ∈ i0 -> f ∈ files0;
  in_1 f : f ∈ i1 -> f ∈ files1;
  in_left f g : f ∈ i0 -> g ∈ files0 -> g ∉ i0 -> newer g f;
  in_next g : g ∈ files1 -> g ∉ i1 -> beside g i0
}.

Lemma next_inputs_ok levels level files i0 s l :
  0 <= level < kNumLevels -> level <> 0 -> levels !! Z.to_nat level = Some files -> Forall range_ok files -> Forall range_ok i0 ->
  range_of i0 s l ->
  exists i1, GetOverlappingInputs levels level (Some s) (Some l) = Some i1 /\ (forall f, f ∈ i1 -> f ∈ files)
    /\ forall g, g ∈ files -> g ∉ i1 -> beside g i0.
Proof.
  intros Hl Hz Hf Hr Hr0 Hro. pose proof Hro as [[Vs Vl] _ _].
  destruct (GetOverlappingInputs_ok (uvalid := uvalid) (uorder := uorder) levels level files (Some s) (Some l) Hl Hf Hr Vs Vl) as (b & e & i1 & E & [_ Hi _ Hfix _ _]).
  destruct (Hfix Hz) as [-> ->]. exists i1. split; [done|]. rewrite Hi. split; [by intros f [_ ?]%list_elem_of_filter|].
  intros g Hg Hno. pose proof (files_range files Hr g Hg) as Rg.
  destruct (f_start_ok g Rg) as [Ugs _]. destruct (f_limit_ok g Rg) as [Ugl _].
  destruct (ikey_valid_user _ Vs) as [Us _]. destruct (ikey_valid_user _ Vl) as [Ul _].
  pose proof (order_sym (compare := Compare) (order := uorder) _ _ Us Ugl).
  pose proof (order_sym (compare := Compare) (order := uorder) _ _ Ugs Ul).
  destruct (decide (uorder (ikey_user s) (f_limit g) <= 0)) as [Hlo|Hlo].
  - right. intros f Hin. destruct (range_of_users i0 s l f Hr0 Hro Hin) as [_ Hfl].
    destruct (f_limit_ok f (files_range i0 Hr0 f Hin)) as [Uf _].
    apply (order_le_lt_trans (compare := Compare) (valid := uvalid) (order := uorder) _ (ikey_user l)); [done..|].
    assert (~ uorder (f_start g) (ikey_user l) <= 0); [|lia]. intros Hup. apply Hno, list_elem_of_filter. done.
  - left. intros f Hin. destruct (range_of_users i0 s l f Hr0 Hro Hin) as [Hfs _].
    destruct (f_start_ok f (files_range i0 Hr0 f Hin)) as [Uf _].
    apply (order_lt_le_trans (compare := Compare) (valid := uvalid) (order := uorder) _ (ikey_user s)); [done..|lia|done].
Qed.

Context (levels : list (list FileRef)) (level : Z) (files0 files1 : list FileRef)
  (Hlevel : 0 <= level /\ level + 1 < kNumLevels)
  (Hl0 : levels !! Z.to_nat level = Some files0) (Hl1 : levels !! Z.to_nat (level + 1) = Some files1)
  (Hok0 : Forall file_ok files0) (Hok1 : Forall file_ok files1) (Hap : level <> 0 -> apart files0).

Lemma sub_ranges (files i : list FileRef) : Forall file_ok files -> (forall f, f ∈ i -> f ∈ files) -> Forall range_ok i.
Proof. intros Hok Hsub. apply Forall_forall. intros f Hf. apply (files_range files (file_ok_ranges files Hok)), Hsub, Hf. Qed.

Lemma closed_inputs i0 i1 :
  start_ok level files0 i0 -> no_boundary files0 i0 -> (forall f, f ∈ i1 -> f ∈ files1) ->
  (forall g, g ∈ files1 -> g ∉ i1 -> beside g i0) -> inputs_ok files0 files1 i0 i1.
Proof.
  intros Hs Hb H1 Hn. pose proof Hs as (Hne & Hsub & _). split; [done|done|done| |done].
  intros f g. by apply (start_left level files0 i0).
Qed.

Lemma expand_inputs_ok options i0 i1 s l :
  start_ok level files0 i0 -> (forall f, f ∈ i1 -> f ∈ files1) -> range_of (i0 ++ i1) s l ->
  exists r, expand_inputs options levels level i0 i1 s l = Some r
    /\ match r with
       | Some (e0, e1, k) => inputs_ok files0 files1 e0 e1 /\ (forall f, f ∈ i0 -> f ∈ e0) /\ ivalid k
       | None => True
       end.
Proof.
  intros Hs H1 Hro. pose proof Hs as (Hne & Hsub & _). pose proof (file_ok_ranges files0 Hok0) as Hr0.
  pose proof (file_ok_ranges files1 Hok1) as Hr1. pose proof Hro as [[Vs Vl] _ _].
  assert (Forall range_ok (i0 ++ i1)) as Hr by (apply Forall_app; split; [by apply (sub_ranges files0)|by apply (sub_ranges files1)]).
  unfold expand_inputs.
  destruct (GetOverlappingInputs_ok (uvalid := uvalid) (uorder := uorder) levels level files0 (Some s) (Some l)
    ltac:(lia) Hl0 Hr0 Vs Vl) as (b & e & x0 & -> & Hov). cbn [mbind option_bind]. rewrite Hl0. cbn [mbind option_bind].
  assert (forall f, f ∈ i0 -> f ∈ x0) as Hsup.
  { intros f Hf. pose proof Hov as [[Vb Ve] -> [Wb We] _ _ _]. apply list_elem_of_filter. split; [|by apply Hsub].
    assert (f ∈ i0 ++ i1) as Hf' by set_solver. destruct (range_of_users _ s l f Hr Hro Hf') as [R1 R2].
    pose proof (files_range _ Hr f Hf') as Rf. destruct (f_start_ok f Rf) as [Us _]. destruct (f_limit_ok f Rf) as [Ul _].
    destruct (ikey_valid_user _ Vs) as [Uss _]. destruct (ikey_valid_user _ Vl) as [Ull _]. pose proof (f_start_limit f Rf).
    split; [apply (wider_lower_trans b (Some (ikey_user s)))|apply (wider_upper_trans e (Some (ikey_user l)))]; try done.
    - by apply (order_trans (compare := Compare) (valid := uvalid) _ (f_start f)).
    - by apply (order_trans (compare := Compare) (valid := uvalid) _ (f_limit f)). }
  assert (x0 <> []) as Hx0 by (intros ->; destruct i0 as [|f i0']; [done|]; specialize (Hsup f); set_solver).
  pose proof (overlapping_start level files0 _ _ b e x0 Hr0 Hap Hov Hx0) as Hst.
  destruct (AddBoundaryInputs_start level files0 x0 Hr0 Hap Hst) as (e0 & -> & Hst' & Hsup' & Hb). cbn [mbind option_bind].
  destruct (_ && _); [|by exists None]. pose proof Hst' as (Hne' & Hsub' & _).
  assert (Forall range_ok e0) as Hre by by apply (sub_ranges files0).
  destruct (GetRange_ok e0 Hre Hne') as (s' & l' & -> & Hro'). cbn [mbind option_bind].
  destruct (next_inputs_ok levels (level + 1) files1 e0 s' l' ltac:(lia) ltac:(lia) Hl1 Hr1 Hre Hro') as (e1 & -> & He1 & Hn).
  cbn [mbind option_bind]. eexists. split; [done|]. destruct (_ =? _)%nat; [|done].
  split; [by apply closed_inputs|]. split; [by intros f Hf; apply Hsup', Hsup|]. apply Hro'.
Qed.

Lemma other_inputs_ok options i0 :
  start_ok level files0 i0 ->
  exists e0 e1 s l k, other_inputs options levels level i0 = Some (e0, e1, s, l, k)
    /\ inputs_ok files0 files1 e0 e1 /\ (forall f, f ∈ i0 -> f ∈ e0) /\ range_of (e0 ++ e1) s l /\ ivalid k.
Proof.
  intros Hs. pose proof (file_ok_ranges files0 Hok0) as Hr0. pose proof (file_ok_ranges files1 Hok1) as Hr1.
  unfold other_inputs. rewrite Hl0. cbn [mbind option_bind].
  destruct (AddBoundaryInputs_start level files0 i0 Hr0 Hap Hs) as (j0 & -> & Hst & Hsup & Hb). cbn [mbind option_bind].
  pose proof Hst as (Hne & Hsub & _). assert (Forall range_ok j0) as Hrj by by apply (sub_ranges files0).
  destruct (GetRange_ok j0 Hrj Hne) as (s & l & -> & Hro). cbn [mbind option_bind].
  destruct (next_inputs_ok levels (level + 1) files1 j0 s l ltac:(lia) ltac:(lia) Hl1 Hr1 Hrj Hro) as (j1 & -> & Hj1 & Hn).
  cbn [mbind option_bind]. unfold GetRange2.
  assert (forall a b, (forall f, f ∈ a -> f ∈ files0) -> (forall f, f ∈ b -> f ∈ files1) -> a <> [] ->
    exists s l, GetRange (a ++ b) = Some (s, l) /\ range_of (a ++ b) s l) as Hrange.
  { intros a b Ha' Hb' Hne'. apply GetRange_ok; [|by intros [? _]%app_eq_nil].
    apply Forall_app. split; [by apply (sub_ranges files0)|by apply (sub_ranges files1)]. }
  destruct (Hrange j0 j1 Hsub Hj1 Hne) as (s' & l' & -> & Hro'). cbn [mbind option_bind].
  assert (exists r, (if bool_decide (j1 = []) then Some None else expand_inputs options levels level j0 j1 s' l') = Some r
    /\ match r with
       | Some (e0, e1, k) => inputs_ok files0 files1 e0 e1 /\ (forall f, f ∈ j0 -> f ∈ e0) /\ ivalid k
       | None => True
       end) as (r & -> & Hx).
  { case_bool_decide; [by exists None|]. by apply expand_inputs_ok. }
  cbn [mbind option_bind]. destruct r as [[[e0 e1] k]|].
  - destruct Hx as (Hin & Hsup' & Vk).
    destruct (Hrange e0 e1) as (s2 & l2 & -> & Hro2); [by apply Hin..|]. cbn [mbind option_bind].
    exists e0, e1, s2, l2, k. split_and!; [done|done| |done|done]. intros f Hf. by apply Hsup', Hsup.
  - exists j0, j1, s', l', l. split_and!; [done|by apply closed_inputs|done|done|apply Hro].
Qed.
End Layout.

(** * Choosing a compaction *)
Section VersionSets.
Context (entries : FileRef -> list (bytes * bytes)).
#[local] Abbreviation level_ok := (level_ok (uvalid := uvalid) (uorder := uorder) entries).
#[local] Abbreviation file_ok := (file_ok (uvalid := uvalid) (uorder := uorder) entries).
#[local] Abbreviation inputs_ok := (inputs_ok entries).

(** A level that can be compacted into the next. *)
Definition inner_level (v : Version) (level : Z) (files : list FileRef) : Prop :=
  0 <= level /\ level + 1 < kNumLevels /\ files_ v !! Z.to_nat level = Some files.

(** The current version [v], at address [a], and what the choice relies on. *)
Record vs_layout (s : VersionSet) (a : Z) (v : Version) : Prop := {
  vl_current : vs_current s = Some a /\ vs_versions s !! a = Some v;
  vl_levels : length (files_ v) = Z.to_nat kNumLevels /\ forall i files, files_ v !! i = Some files -> level_ok i files;
  vl_pointers : length (vs_compact_pointer s) = Z.to_nat kNumLevels /\ forall p, p ∈ vs_compact_pointer s -> p = [] \/ ivalid p;
  vl_score : score_at_least_one v = true -> exists files, inner_level v (compaction_level_ v) files /\ files <> [];
  vl_seek f : file_to_compact_ v = Some f -> exists files, inner_level v (file_to_compact_level_ v) files /\ f ∈ files
}.

(** The compaction [c] of the version [v] can be done. *)
Definition compaction_ok (v : Version) (c : Compaction) : Prop :=
  exists files0 files1, inner_level v (level_ c) files0 /\ files_ v !! Z.to_nat (level_ c + 1) = Some files1
    /\ inputs_ok files0 files1 (inputs_0 c) (inputs_1 c).

Lemma next_level v level files : length (files_ v) = Z.to_nat kNumLevels -> inner_level v level files ->
  exists files1, files_ v !! Z.to_nat (level + 1) = Some files1.
Proof. intros Hlen (H1 & H2 & _). apply lookup_lt_is_Some_2. unfold kNumLevels in *. lia. Qed.

Lemma level_ok_parts i files : level_ok i files -> Forall file_ok files /\ (Z.of_nat i <> 0 -> apart files).
Proof. intros (H1 & _ & H2). split; [done|]. by destruct i. Qed.

Lemma inner_parts s a v level files : vs_layout s a v -> inner_level v level files ->
  Forall file_ok files /\ (level <> 0 -> apart files) /\ Forall range_ok files.
Proof.
  intros Hl (H1 & _ & H2). destruct (level_ok_parts _ _ (proj2 (vl_levels _ _ _ Hl) _ _ H2)) as [Ho Ha].
  rewrite Z2Nat.id in Ha by done. split_and!; [done|done|by apply (file_ok_ranges entries)].
Qed.

Lemma SetupOtherInputs_ok options s a v c files0 :
  vs_layout s a v -> inner_level v (level_ c) files0 -> start_ok (level_ c) files0 (inputs_0 c) ->
  exists c' s', SetupOtherInputs options s c = Some (c', s') /\ compaction_ok v c' /\ level_ c' = level_ c
    /\ input_version_ c' = input_version_ c /\ (forall f, f ∈ inputs_0 c -> f ∈ inputs_0 c')
    /\ exists k, s' = with_pointer s (<[Z.to_nat (level_ c) := k]> (vs_compact_pointer s)) /\ ivalid k.
Proof.
  intros Hl Hin Hs. destruct (next_level v _ _ (proj1 (vl_levels _ _ _ Hl)) Hin) as [files1 Hf1].
  destruct (inner_parts s a v _ _ Hl Hin) as (Ho0 & Ha0 & _). pose proof Hin as (H1 & H2 & Hf0).
  destruct (level_ok_parts _ _ (proj2 (vl_levels _ _ _ Hl) _ _ Hf1)) as [Ho1 _].
  unfold SetupOtherInputs, current_version. destruct (vl_current _ _ _ Hl) as [-> E]. cbn [mbind option_bind]. rewrite E.
  cbn [mbind option_bind].
  destruct (other_inputs_ok entries (files_ v) (level_ c) files0 files1 (conj H1 H2) Hf0 Hf1 Ho0 Ho1 Ha0 options (inputs_0 c) Hs)
    as (e0 & e1 & sm & la & k & -> & Hio & Hsup & Hro & Vk). cbn [mbind option_bind].
  assert (exists g, (if level_ c + 2 <? kNumLevels then GetOverlappingInputs (files_ v) (level_ c + 2) (Some sm) (Some la)
    else Some (grandparents_ c)) = Some g) as (g & ->).
  { destruct (Z.ltb_spec (level_ c + 2) kNumLevels); [|by eexists].
    destruct (lookup_lt_is_Some_2 (files_ v) (Z.to_nat (level_ c + 2))) as [files2 Hf2].
    { rewrite (proj1 (vl_levels _ _ _ Hl)). unfold kNumLevels in *. lia. }
    destruct (level_ok_parts _ _ (proj2 (vl_levels _ _ _ Hl) _ _ Hf2)) as [Ho2 _]. destruct Hro as [[Vs Vla] _ _].
    destruct (GetOverlappingInputs_ok (uvalid := uvalid) (uorder := uorder) (files_ v) (level_ c + 2) files2 (Some sm) (Some la)
      ltac:(lia) Hf2 (file_ok_ranges entries files2 Ho2) Vs Vla) as (? & ? & g & -> & _). by exists g. }
  cbn [mbind option_bind]. unfold InternalKey_Encode.
  rewrite bool_decide_false by (intros ->; by destruct (ikey_valid_user [] Vk)). cbn [mbind option_bind]. rewrite (proj1 (vl_pointers _ _ _ Hl)).
  destruct (Nat.ltb_spec (Z.to_nat (level_ c)) (Z.to_nat kNumLevels)); [|unfold kNumLevels in *; lia].
  eexists _, _. split; [done|]. split_and!; [by exists files0, files1|done|done|done|]. by eexists.
Qed.

Lemma vs_layout_ref s a v v' :
  vs_layout s a v -> files_ v' = files_ v -> file_to_compact_ v' = file_to_compact_ v ->
  file_to_compact_level_ v' = file_to_compact_level_ v -> compaction_score_ v' = compaction_score_ v ->
  compaction_level_ v' = compaction_level_ v -> vs_layout (put_version s a v') a v'.
Proof.
  intros [H1 H2 H3 H4 H5] E1 E2 E3 E4 E5. split.
  - split; [apply H1|]. cbn. apply lookup_insert_eq.
  - by rewrite E1.
  - exact H3.
  - unfold score_at_least_one, inner_level in *. by rewrite E4, E5, E1.
  - unfold inner_level in *. by rewrite E2, E3, E1.
Qed.

Lemma convex_singleton files f : Forall range_ok files -> apart files -> convex files [f].
Proof.
  intros Hr Ha i j k f' g h Hij Hi Hj Hk ->%list_elem_of_singleton ->%list_elem_of_singleton. apply list_elem_of_singleton.
  destruct (decide (i < k)%nat); [|replace j with i in Hj by lia; congruence].
  destruct (Forall_lookup_1 _ _ _ _ Hr Hi) as (Vs & _ & _).
  pose proof (apart_start files Hr Ha i k f f ltac:(lia) Hi Hk) as Hlt. rewrite (order_refl (CL := ikey_CompareLaw)) in Hlt; [lia|done].
Qed.

(** The part of [PickCompaction] after the choice of a file. *)
Lemma pick_inputs_ok s a v level files f :
  vs_layout s a v -> inner_level v level files -> f ∈ files ->
  exists i0, (if level =? 0 then
                '(smallest, largest) ← GetRange [f];
                i0 ← GetOverlappingInputs (files_ v) 0 (Some smallest) (Some largest);
                if bool_decide (i0 = []) then None else Some i0
              else Some [f]) = Some i0 /\ start_ok level files i0 /\ f ∈ i0.
Proof.
  intros Hl Hin Hf. destruct (inner_parts s a v level files Hl Hin) as (Ho & Ha & Hr). pose proof Hin as (_ & _ & Hfl).
  pose proof (files_range files Hr f Hf) as Rf. destruct (Z.eqb_spec level 0) as [->|Hz].
  - destruct (GetRange_ok [f] ltac:(by apply Forall_singleton) ltac:(done)) as (sm & la & -> & Hro). cbn [mbind option_bind].
    pose proof Hro as [[Vs Vl] _ _].
    destruct (GetOverlappingInputs_ok (uvalid := uvalid) (uorder := uorder) (files_ v) 0 files (Some sm) (Some la) ltac:(done) Hfl Hr Vs Vl)
      as (b & e & i0 & -> & Hov). cbn [mbind option_bind].
    assert (f ∈ i0) as Hfi.
    { pose proof Hov as [[Vb Ve] -> [Wb We] _ _ _]. apply list_elem_of_filter. split; [|done].
      destruct (range_of_users [f] sm la f ltac:(by apply Forall_singleton) Hro ltac:(set_solver)) as [R1 R2].
      destruct (f_start_ok f Rf) as [Us _]. destruct (f_limit_ok f Rf) as [Ul _]. pose proof (f_start_limit f Rf).
      destruct (ikey_valid_user _ Vs) as [Uss _]. destruct (ikey_valid_user _ Vl) as [Ull _].
      split; [apply (wider_lower_trans b (Some (ikey_user sm)))|apply (wider_upper_trans e (Some (ikey_user la)))]; try done.
      - by apply (order_trans (compare := Compare) (valid := uvalid) _ (f_start f)).
      - by apply (order_trans (compare := Compare) (valid := uvalid) _ (f_limit f)). }
    rewrite bool_decide_false by (intros ->; set_solver). exists i0. split_and!; [done| |done].
    apply (overlapping_start 0 files (bound_user (Some sm)) (bound_user (Some la)) b e); [done..|]. intros ->. set_solver.
  - exists [f]. split_and!; [done| |set_solver]. split; [done|]. split; [by intros g ->%list_elem_of_singleton|].
    split; [done|]. intros _. apply convex_singleton; auto.
Qed.

Lemma first_after_ok files p :
  Forall range_ok files -> p = [] \/ ivalid p -> exists r, first_after files p = Some r /\ match r with Some f => f ∈ files | None => True end.
Proof.
  intros Hr Hp. induction Hr as [|f files (Vs & Vl & _) Hr IH]; [by exists None|]. cbn [first_after].
  assert (exists b, (if bool_decide (p = []) then Some true else r ← InternalKey_Compare (f_largest f) p; Some (r >? 0)) = Some b) as (b & ->).
  { case_bool_decide; [by eexists|]. destruct Hp as [?|Vp]; [done|].
    rewrite (InternalKey_Compare_order (UL := UL) _ _ Vl Vp). by eexists. }
  cbn [mbind option_bind]. destruct b; [exists (Some f); set_solver|]. destruct IH as (r & -> & H). exists r. split; [done|].
  destruct r; set_solver.
Qed.

Lemma pick_start_ok s a v :
  vs_layout s a v ->
  exists r, pick_start s v = Some r
    /\ match r with
       | Some (level, i0) => exists files f, inner_level v level files /\ f ∈ files /\ i0 = [f]
       | None => score_at_least_one v = false /\ file_to_compact_ v = None
       end.
Proof.
  intros Hl. unfold pick_start. destruct (score_at_least_one v) eqn:Es.
  - destruct (vl_score _ _ _ Hl Es) as (files & Hin & Hne). pose proof Hin as (H1 & H2 & H3).
    destruct (Z.geb_spec (compaction_level_ v) 0); [|lia]. destruct (Z.ltb_spec (compaction_level_ v + 1) kNumLevels); [|lia].
    cbn [andb]. rewrite H3. cbn [mbind option_bind].
    destruct (vl_pointers _ _ _ Hl) as [Hlen Hp].
    destruct (lookup_lt_is_Some_2 (vs_compact_pointer s) (Z.to_nat (compaction_level_ v))) as [p Ep]; [unfold kNumLevels in *; lia|].
    rewrite Ep. cbn [mbind option_bind]. destruct (inner_parts s a v _ _ Hl Hin) as (_ & _ & Hr).
    destruct (first_after_ok files p Hr) as (r & -> & Hr'); [by apply Hp, (list_elem_of_lookup_2 _ _ _ Ep)|]. cbn [mbind option_bind].
    destruct files as [|f0 files]; [done|]. destruct r as [f|]; cbn [mbind option_bind head].
    + eexists. split; [done|]. by exists (f0 :: files), f.
    + eexists. split; [done|]. exists (f0 :: files), f0. set_solver.
  - destruct (file_to_compact_ v) as [f|] eqn:Ef; [|by exists None].
    destruct (vl_seek _ _ _ Hl f Ef) as (files & Hin & Hf). eexists. split; [done|]. by exists files, f.
Qed.

(** The state after a choice: one more reference to the version, and the pointer
    of the level at a new key. *)
Definition chosen (s : VersionSet) (a : Z) (v : Version) (c : Compaction) (s' : VersionSet) : Prop :=
  compaction_ok v c /\ input_version_ c = Some a
  /\ exists k, ivalid k /\ s' = with_pointer (put_version s a (with_version_refs v (refs_ v + 1)))
                                (<[Z.to_nat (level_ c) := k]> (vs_compact_pointer s)).

Lemma setup_chosen options s a v level files i0 :
  vs_layout s a v -> inner_level v level files -> start_ok level files i0 ->
  exists c s', SetupOtherInputs options (put_version s a (with_version_refs v (refs_ v + 1)))
      (with_inputs (with_input_version (Compaction_new options level) (Some a)) i0 []) = Some (c, s')
    /\ chosen s a v c s' /\ level_ c = level /\ forall f, f ∈ i0 -> f ∈ inputs_0 c.
Proof.
  intros Hl Hin Hs. pose proof (vs_layout_ref s a v (with_version_refs v (refs_ v + 1)) Hl eq_refl eq_refl eq_refl eq_refl eq_refl) as Hl'.
  destruct (SetupOtherInputs_ok options _ a _ (with_inputs (with_input_version (Compaction_new options level) (Some a)) i0 []) files Hl' Hin Hs)
    as (c & s' & E & Hok & El & Ev & Hsup & k & -> & Vk).
  exists c, (with_pointer (put_version s a (with_version_refs v (refs_ v + 1))) (<[Z.to_nat level := k]> (vs_compact_pointer s))).
  split; [exact E|]. split; [|done]. split; [exact Hok|]. split; [done|]. exists k. by rewrite El.
Qed.

Lemma PickCompaction_ok options s a v :
  vs_layout s a v ->
  exists oc s', PickCompaction options s = Some (oc, s') /\ NeedsCompaction s = Some (bool_decide (is_Some oc))
    /\ match oc with Some c => chosen s a v c s' | None => s' = s end.
Proof.
  intros Hl. unfold PickCompaction, NeedsCompaction, current_version. destruct (vl_current _ _ _ Hl) as [-> E]. cbn [mbind option_bind].
  rewrite E. cbn [mbind option_bind]. pose proof (vl_seek _ _ _ Hl) as Hseek.
  destruct (pick_start_ok s a v Hl) as (r & Ep & Hr). rewrite Ep. cbn [mbind option_bind]. destruct r as [[level i0]|].
  - destruct Hr as (files & f & Hin & Hf & ->). unfold Version_Ref. rewrite E. cbn [mbind option_bind].
    destruct (pick_inputs_ok s a v level files f Hl Hin Hf) as (i0 & -> & Hs & _). cbn [mbind option_bind].
    destruct (setup_chosen options s a v level files i0 Hl Hin Hs) as (c & s' & -> & Hc & _). cbn [mbind option_bind].
    exists (Some c), s'. split_and!; [done| |done]. f_equal. rewrite (bool_decide_true (is_Some (Some c))) by done.
    unfold pick_start in Ep. destruct (score_at_least_one v); [done|]. by destruct (file_to_compact_ v).
  - destruct Hr as [-> ->]. by exists None, s.
Qed.

(** ** A manual compaction *)
Lemma limit_inputs_take inputs total limit : exists n, limit_inputs inputs total limit = take n inputs /\ (inputs <> [] -> (0 < n)%nat).
Proof.
  revert total. induction inputs as [|f inputs IH]; intros total; [by exists O|]. cbn [limit_inputs].
  destruct (_ >=? _); [exists 1%nat; split; [done|lia]|]. destruct (IH (u64 (total + f_size f))) as (n & -> & _).
  exists (S n). split; [done|lia].
Qed.

Lemma take_filter_prefix {A} (P : A -> Prop) `{!forall x, Decision (P x)} (l : list A) n :
  exists m, take n (filter P l) = filter P (take m l).
Proof.
  revert n. induction l as [|x l IH]; intros n; [exists O; by destruct n|].
  destruct n as [|n]; [by exists O|]. destruct (decide (P x)) as [Hx|Hx].
  - rewrite filter_cons_True by done. cbn [take]. destruct (IH n) as (m & ->). exists (S m). cbn [take]. by rewrite filter_cons_True.
  - rewrite filter_cons_False by done. destruct (IH (S n)) as (m & ->). exists (S m). cbn [take]. by rewrite filter_cons_False.
Qed.

Lemma convex_prefix files b e n :
  Forall range_ok files -> apart files -> bound_ok b -> bound_ok e -> convex files (take n (filter (overlaps b e) files)).
Proof.
  intros Hr Ha Vb Ve. destruct (take_filter_prefix (overlaps b e) files n) as (m & ->).
  intros i j k f g h Hij Hi Hj Hk [Hf1 Hf2]%list_elem_of_filter [Hh1 Hh2]%list_elem_of_filter.
  assert (g ∈ filter (overlaps b e) files) as [Hg _]%list_elem_of_filter.
  { apply (convex_overlaps files b e Hr Ha Vb Ve i j k f g h Hij Hi Hj Hk); apply list_elem_of_filter;
      (split; [done|by eapply list_elem_of_lookup_2]). }
  apply list_elem_of_filter. split; [done|]. apply list_elem_of_lookup_1 in Hh2 as (k' & Hk').
  pose proof Hk' as [Hk'' Hlt]%lookup_take_Some. apply (list_elem_of_lookup_2 _ j). apply lookup_take_Some. split; [done|].
  destruct (decide (k' < k)%nat); [|lia]. exfalso. destruct (Forall_lookup_1 _ _ _ _ Hr Hk) as (Vs & _ & _).
  pose proof (apart_start files Hr Ha k' k h h ltac:(lia) Hk'' Hk) as Hh. rewrite (order_refl (CL := ikey_CompareLaw)) in Hh; [lia|done].
Qed.

Lemma CompactRange_ok options s a v level files begin end_ :
  vs_layout s a v -> inner_level v level files -> key_ok (uvalid := uvalid) begin -> key_ok (uvalid := uvalid) end_ ->
  exists oc s', CompactRange options s level begin end_ = Some (oc, s')
    /\ match oc with
       | Some c => chosen s a v c s' /\ level_ c = level
       | None => s' = s /\ forall f, f ∈ files -> ~ overlaps (bound_user begin) (bound_user end_) f
       end.
Proof.
  intros Hl Hin Hb He. destruct (inner_parts s a v level files Hl Hin) as (Ho & Ha & Hr). pose proof Hin as (H1 & H2 & Hf).
  unfold CompactRange, current_version. destruct (vl_current _ _ _ Hl) as [-> E]. cbn [mbind option_bind]. rewrite E.
  cbn [mbind option_bind].
  destruct (GetOverlappingInputs_ok (uvalid := uvalid) (uorder := uorder) (files_ v) level files begin end_ ltac:(lia) Hf Hr Hb He)
    as (b & e & i0 & -> & Hov). cbn [mbind option_bind]. case_bool_decide as Hne.
  - exists None, s. split_and!; [done|done|]. intros f Hff Hfo. pose proof Hov as [[Vb Ve] Hi [Wb We] _ _ _].
    assert (f ∈ i0); [|subst i0; set_solver]. rewrite Hi. apply list_elem_of_filter. split; [|done].
    destruct (user_of_ok (uvalid := uvalid) begin Hb) as [_ Vb0]. destruct (user_of_ok (uvalid := uvalid) end_ He) as [_ Ve0].
    by apply (overlaps_wider b (bound_user begin) e (bound_user end_) f (files_range files Hr f Hff)).
  - pose proof (overlapping_start level files _ _ b e i0 Hr Ha Hov Hne) as Hst.
    set (inputs := if level >? 0 then _ else _).
    assert (start_ok level files inputs) as Hs.
    { subst inputs. destruct (Z.gtb_spec level 0) as [Hpos|]; [|done].
      destruct (limit_inputs_take i0 0 (u64 (MaxFileSizeForLevel options level))) as (n & -> & Hn). destruct Hst as (_ & Hsub & _ & _).
      split; [|split; [|split; [lia|]]].
      - specialize (Hn Hne). destruct i0 as [|f i0]; [done|]. by destruct n; [lia|].
      - intros f Hff. apply Hsub. apply list_elem_of_lookup_1 in Hff as (j & Hj). apply lookup_take_Some in Hj as [Hj _].
        by eapply list_elem_of_lookup_2.
      - intros Hz. destruct Hov as [[Vb Ve] -> _ _ _ _]. apply convex_prefix; auto. }
    clearbody inputs. unfold Version_Ref. rewrite E. cbn [mbind option_bind].
    destruct (setup_chosen options s a v level files inputs Hl Hin Hs) as (c & s' & -> & Hc & El & _). cbn [mbind option_bind].
    by exists (Some c), s'.
Qed.

(** ** The level with the highest score *)
Lemma finalize_loop_from levels level bl bs :
  finalize_loop level levels bl bs = (bl, bs)
  \/ exists i files, levels !! i = Some files
      /\ finalize_loop level levels bl bs = (level + Z.of_nat i, level_score (level + Z.of_nat i) files).
Proof.
  revert level bl bs. induction levels as [|files levels IH]; intros level bl bs; [by left|]. cbn [finalize_loop].
  assert (forall i, level + 1 + Z.of_nat i = level + Z.of_nat (S i)) as Hi by lia.
  destruct (SFltb bs (level_score level files)).
  - right. destruct (IH (level + 1) level (level_score level files)) as [->|(i & fs & Hl & ->)].
    + exists O, files. by rewrite Z.add_0_r.
    + exists (S i), fs. by rewrite Hi.
  - destruct (IH (level + 1) bl bs) as [->|(i & fs & Hl & ->)]; [by left|]. right. exists (S i), fs. by rewrite Hi.
Qed.

(** A level without files never has a score of one. *)
Lemma empty_level_score level : 0 <= level < kNumLevels -> SFleb (double_of 1) (level_score level []) = false.
Proof.
  unfold kNumLevels. intros Hl.
  assert (level = 0 \/ level = 1 \/ level = 2 \/ level = 3 \/ level = 4 \/ level = 5 \/ level = 6) as Hc by lia.
  destruct_or! Hc; subst level; by vm_compute.
Qed.

Lemma Finalize_ok v :
  length (files_ v) = Z.to_nat kNumLevels -> score_at_least_one (Finalize v) = true ->
  exists files, inner_level (Finalize v) (compaction_level_ (Finalize v)) files /\ files <> [].
Proof.
  intros Hlen. unfold Finalize, score_at_least_one, inner_level. set (ls := take _ _).
  destruct (finalize_loop_from ls 0 (-1) (double_of (-1))) as [->|(i & files & Hi & ->)]; cbn [compaction_score_ compaction_level_ files_].
  - intros H. by vm_compute in H.
  - intros H. subst ls. apply lookup_take_Some in Hi as [Hi Hlt]. rewrite Z.add_0_l in *.
    assert ((i < Z.to_nat (kNumLevels - 1))%nat) as Hi' by exact Hlt.
    exists files. rewrite Nat2Z.id. split_and!; [lia|unfold kNumLevels in *; lia|done|].
    intros ->. rewrite empty_level_score in H; [done|]. unfold kNumLevels in *. lia.
Qed.
End VersionSets.

(** * Theorems *)

(** C10: Choosing a compaction never fails, gives one exactly if one is needed, and
    then chooses files that can be replaced by files of the next level: every entry
    that stays in the level is newer than the entries of its user key that leave it,
    and each file that stays in the next level lies before or after all the user
    keys that come from above.  The current version gets one more reference, and
    only the compaction pointer of the level changes. *)
Theorem PickCompaction_safe entries options s a v :
  vs_layout entries s a v ->
  exists oc s', PickCompaction options s = Some (oc, s') /\ NeedsCompaction s = Some (bool_decide (is_Some oc))
    /\ match oc with
       | None => s' = s
       | Some c =>
           exists files0 files1 k, files_ v !! Z.to_nat (level_ c) = Some files0 /\ files_ v !! Z.to_nat (level_ c + 1) = Some files1
             /\ 0 <= level_ c < kNumLevels - 1 /\ input_version_ c = Some a
             /\ inputs_ok entries files0 files1 (inputs_0 c) (inputs_1 c)
             /\ s' = with_pointer (put_version s a (with_version_refs v (refs_ v + 1))) (<[Z.to_nat (level_ c) := k]> (vs_compact_pointer s))
       end.
Proof.
  intros Hl. destruct (PickCompaction_ok entries options s a v Hl) as (oc & s' & E & Hn & H). exists oc, s'.
  split_and!; [done|done|]. destruct oc as [c|]; [|done]. destruct H as ((files0 & files1 & (H1 & H2 & H3) & H4 & H5) & H6 & k & _ & ->).
  exists files0, files1, k. split_and!; try done; lia.
Qed.
End Order.

(** The sample version, with a file that was sought too often. *)
Definition sample_version : Version := {|
  files_ := sample_levels ++ replicate 5 []; refs_ := 1;
  file_to_compact_ := Some (sample_file 5 (sample_key 97 7 1) (sample_key 97 7 1)); file_to_compact_level_ := 0;
  compaction_score_ := double_of (-1); compaction_level_ := -1 |}.

Definition sample_set : VersionSet := {|
  vs_dbname := [100]; vs_descriptor_file := None; vs_descriptor_log := None;
  vs_next_file_number := 6; vs_manifest_file_number := 1; vs_last_sequence := 7; vs_log_number := 3; vs_prev_log_number := 0;
  vs_links := ring_init {| nxt := ∅; prv := ∅ |} 0; vs_versions := {[ 1 := sample_version ]}; vs_files := ∅;
  vs_current := Some 1; vs_compact_pointer := replicate 7 [] |}.

Lemma sample_set_layout :
  vs_layout (uvalid := Forall is_byte) (uorder := Slice_compare) sample_entries sample_set 1 sample_version.
Proof.
  split.
  - done.
  - split; [done|]. intros i files Hi. pose proof (vo_level _ _ _ sample_levels_ok) as H.
    destruct (decide (i < 2)%nat).
    + apply (H i files). unfold sample_version in Hi. cbn [files_] in Hi. by rewrite lookup_app_l in Hi by (cbn; lia).
    + unfold sample_version in Hi. cbn [files_] in Hi. rewrite lookup_app_r in Hi by (cbn; lia). apply lookup_replicate in Hi as [-> _].
      split; [by constructor|]. split; [done|]. destruct i as [|i]; [lia|]. intros ? ? ? ? ? Hx. done.
  - split; [done|]. intros p [-> _]%elem_of_replicate. by left.
  - intros H. by vm_compute in H.
  - intros f [= <-]. eexists. split; [split_and!; [done|done|reflexivity]|]. set_solver.
Qed.

Lemma PickCompaction_safe_witness :
  exists oc s', PickCompaction (U := BytewiseComparator) Options_default sample_set = Some (oc, s') /\ is_Some oc.
Proof.
  destruct (PickCompaction_safe sample_entries Options_default sample_set 1 sample_version sample_set_layout) as (oc & s' & E & Hn & _).
  exists oc, s'. split; [done|]. destruct oc; [done|]. exfalso. revert Hn. by vm_compute.
Defined.
