(* ===== verification/LdbVersionSetThms.v ===== *)
(** leveldb: the life of versions and files, and what the builder builds, from
    [version_set.cc].

    [vs_ok s xs ext extra]: the versions in the list are [xs], there are [ext a]
    references to the version [a], that of [current_] included, and [extra] are
    the files that are referred to outside of these versions.  Every count of
    references is then exact. *)
From stdpp Require Import base numbers option strings gmap sorting sets list.
From S2P Require Import Prelude LdbSlice LdbComparator LdbDbformat LdbVersionEdit LdbTable LdbRing LdbVersion LdbVersionThms LdbVersionSet.
Open Scope Z_scope.

(** * Files *)

(** The references from [l] to the file at [a]. *)
Definition refs_in (a : Z) (l : list FileRef) : Z := zlen (filter (fun f => f_addr f = a) l).

Lemma refs_in_app a l1 l2 : refs_in a (l1 ++ l2) = refs_in a l1 + refs_in a l2.
Proof. unfold refs_in. rewrite filter_app, length_app. lia. Qed.

Lemma refs_in_cons a f l : refs_in a (f :: l) = (if decide (f_addr f = a) then 1 else 0) + refs_in a l.
Proof. unfold refs_in. rewrite filter_cons. destruct (decide _); cbn [length]; lia. Qed.

Lemma refs_in_perm a l1 l2 : l1 ≡ₚ l2 -> refs_in a l1 = refs_in a l2.
Proof. intros H. unfold refs_in. by rewrite H. Qed.

Lemma refs_in_pos a f l : f ∈ l -> f_addr f = a -> 0 < refs_in a l.
Proof.
  intros (l1 & l2 & ->)%list_elem_of_split Ha. rewrite refs_in_app, refs_in_cons, decide_True by done.
  unfold refs_in. lia.
Qed.

(** The counts are those of the references from [l]. *)
Definition files_counted (m : gmap Z FileState) (l : list FileRef) : Prop :=
  forall a, match m !! a with Some st => fs_refs st = refs_in a l /\ 0 < fs_refs st | None => refs_in a l = 0 end.

Lemma files_counted_perm m l1 l2 : l1 ≡ₚ l2 -> files_counted m l1 -> files_counted m l2.
Proof. intros Hp H a. specialize (H a). by rewrite <- (refs_in_perm a l1 l2 Hp). Qed.

Lemma files_counted_known m l f : files_counted m l -> f ∈ l -> exists st, m !! f_addr f = Some st /\ fs_refs st = refs_in (f_addr f) l /\ 0 < fs_refs st.
Proof.
  intros H Hf. specialize (H (f_addr f)). pose proof (refs_in_pos (f_addr f) f l Hf eq_refl).
  destruct (m !! f_addr f) as [st|]; [|lia]. by exists st.
Qed.

Lemma take_file_ok m l f : files_counted m l -> f ∈ l -> exists m', take_file m f = Some m' /\ files_counted m' (f :: l).
Proof.
  intros H Hf. destruct (files_counted_known m l f H Hf) as (st & E & Er & Hp). unfold take_file. rewrite E. cbn [mbind option_bind].
  eexists. split; [done|]. intros a. rewrite refs_in_cons. destruct (decide (f_addr f = a)) as [<-|Hne].
  - rewrite lookup_insert_eq. cbn [fs_refs]. lia.
  - rewrite lookup_insert_ne by done. specialize (H a). destruct (m !! a); lia.
Qed.

Lemma drop_file_ok b m l f : files_counted m (f :: l) -> exists m', drop_file b m f = Some m' /\ files_counted m' l.
Proof.
  intros H. destruct (files_counted_known m (f :: l) f H ltac:(set_solver)) as (st & E & Er & Hp).
  rewrite refs_in_cons, decide_True in Er by done. unfold drop_file. rewrite E. cbn [mbind option_bind].
  destruct (Z.leb_spec (fs_refs st) 0); [lia|]. rewrite andb_false_r. cbv zeta. eexists. split; [done|]. intros a.
  pose proof (H a) as Ha. rewrite refs_in_cons in Ha. destruct (decide (f_addr f = a)) as [<-|Hne].
  - destruct (Z.leb_spec (fs_refs st - 1) 0).
    + rewrite lookup_delete_eq. assert (0 <= refs_in (f_addr f) l) by (unfold refs_in; lia). lia.
    + rewrite lookup_insert_eq. cbn [fs_refs]. lia.
  - assert ((if fs_refs st - 1 <=? 0 then delete (f_addr f) m
             else <[f_addr f:={| fs_refs := fs_refs st - 1; fs_allowed_seeks := fs_allowed_seeks st |}]> m) !! a = m !! a) as ->.
    { destruct (_ <=? _); [by rewrite lookup_delete_ne|by rewrite lookup_insert_ne]. }
    destruct (m !! a); lia.
Qed.

Lemma drop_files_ok b m fs l : files_counted m (fs ++ l) -> exists m', drop_files b m fs = Some m' /\ files_counted m' l.
Proof.
  revert m. induction fs as [|f fs IH]; intros m H; [by exists m|]. cbn [drop_files].
  destruct (drop_file_ok b m (fs ++ l) f H) as (m1 & -> & H1). cbn [mbind option_bind]. by apply IH.
Qed.

(** [new FileMetaData] with a reference. *)
Lemma new_file_ok m l f seeks :
  files_counted m l -> m !! f_addr f = None -> files_counted (<[f_addr f := {| fs_refs := 1; fs_allowed_seeks := seeks |}]> m) (f :: l).
Proof.
  intros H Hn a. rewrite refs_in_cons. pose proof (H a) as Ha. destruct (decide (f_addr f = a)) as [<-|Hne].
  - rewrite lookup_insert_eq. rewrite Hn in Ha. cbn [fs_refs]. lia.
  - rewrite lookup_insert_ne by done. destruct (m !! a); lia.
Qed.

(** * Versions *)
Definition version_files (s : VersionSet) (a : Z) : list FileRef :=
  match vs_versions s !! a with Some v => concat (files_ v) | None => [] end.

Definition all_files (s : VersionSet) (xs : list Z) : list FileRef := concat (version_files s <$> xs).

Record vs_ok (s : VersionSet) (xs : list Z) (ext : Z -> Z) (extra : list FileRef) : Prop := {
  ok_ring : ring (vs_links s) dummy_versions_ xs;
  ok_dom a : a ∈ xs -> is_Some (vs_versions s !! a);
  ok_refs a v : a ∈ xs -> vs_versions s !! a = Some v ->
    refs_ v = ext a /\ 0 < ext a;
  ok_files : files_counted (vs_files s) (all_files s xs ++ extra)
}.

Definition bump_ref (ext : Z -> Z) (a n : Z) : Z -> Z := fun x => if decide (x = a) then ext x + n else ext x.

Lemma bump_ref_same ext a n : bump_ref ext a n a = ext a + n.
Proof. unfold bump_ref. by rewrite decide_True. Qed.
Lemma bump_ref_other ext a n x : x <> a -> bump_ref ext a n x = ext x.
Proof. intros H. unfold bump_ref. by rewrite decide_False. Qed.

Lemma all_files_same s s' xs :
  (forall a, a ∈ xs -> version_files s' a = version_files s a) -> all_files s' xs = all_files s xs.
Proof.
  intros H. unfold all_files. f_equal. induction xs as [|x xs IH]; [done|]. cbn [fmap list_fmap]. rewrite H by set_solver.
  f_equal. apply IH. intros a Ha. apply H. set_solver.
Qed.

Lemma version_files_put s a v x :
  version_files (put_version s a v) x = if decide (x = a) then concat (files_ v) else version_files s x.
Proof.
  unfold version_files. cbn [put_version with_versions vs_versions]. destruct (decide (x = a)) as [->|]; [by rewrite lookup_insert_eq|].
  by rewrite lookup_insert_ne.
Qed.

(** Changing the counts of a version leaves its files. *)
Lemma all_files_put s a v v' xs : vs_versions s !! a = Some v -> files_ v' = files_ v -> all_files (put_version s a v') xs = all_files s xs.
Proof.
  intros E Ef. apply all_files_same. intros x _. rewrite version_files_put. destruct (decide (x = a)) as [->|]; [|done].
  unfold version_files. by rewrite E, Ef.
Qed.

Lemma put_version_ok s xs ext ext' extra a v v' :
  vs_ok s xs ext extra -> a ∈ xs -> vs_versions s !! a = Some v -> files_ v' = files_ v ->
  refs_ v' = ext' a /\ 0 < ext' a -> (forall b, b <> a -> ext' b = ext b) ->
  vs_ok (put_version s a v') xs ext' extra.
Proof.
  intros H Ha E Ef Hr He. split; cbn [put_version with_versions vs_links vs_versions vs_files].
  - apply H.
  - intros b Hb. destruct (decide (b = a)) as [->|]; [by rewrite lookup_insert_eq|]. rewrite lookup_insert_ne by done. by apply H.
  - intros b w Hb. destruct (decide (b = a)) as [->|Hne].
    + rewrite lookup_insert_eq. by intros [= <-].
    + rewrite lookup_insert_ne, He by done. by apply H.
  - rewrite (all_files_put s a v) by done. apply H.
Qed.

Lemma Version_Ref_ok s xs ext extra a :
  vs_ok s xs ext extra -> a ∈ xs ->
  exists v, vs_versions s !! a = Some v
    /\ Version_Ref s a = Some (put_version s a (with_version_refs v (refs_ v + 1)))
    /\ vs_ok (put_version s a (with_version_refs v (refs_ v + 1))) xs (bump_ref ext a 1) extra.
Proof.
  intros H Ha. destruct (ok_dom _ _ _ _ H a Ha) as [v E]. exists v. split; [done|].
  unfold Version_Ref. rewrite E. split; [done|]. apply (put_version_ok s xs ext _ extra a v); [done|done|done|done| |].
  - cbn [refs_ with_version_refs]. rewrite bump_ref_same. destruct (ok_refs _ _ _ _ H a v Ha E). lia.
  - intros b Hne. by rewrite bump_ref_other.
Qed.

Lemma all_files_perm s xs ys : xs ≡ₚ ys -> all_files s xs ≡ₚ all_files s ys.
Proof. intros H. unfold all_files. induction H; cbn [fmap list_fmap concat]; [done|by rewrite IHPermutation| |by etrans].
  rewrite !app_assoc. by rewrite (Permutation_app_comm (version_files s y)). Qed.

Lemma all_files_snoc s xs a : all_files s (xs ++ [a]) = all_files s xs ++ version_files s a.
Proof. unfold all_files. rewrite fmap_app, concat_app. cbn [fmap list_fmap concat]. by rewrite app_nil_r. Qed.

Lemma all_files_split s xs a ys : all_files s (xs ++ a :: ys) ≡ₚ version_files s a ++ all_files s (xs ++ ys).
Proof.
  rewrite (all_files_perm s (xs ++ a :: ys) (a :: xs ++ ys)) by (symmetry; apply Permutation_middle). done.
Qed.

(** A version without references goes, and so do its references to files. *)
Lemma Version_delete_ok s xs ext extra a v ys :
  ring (vs_links s) dummy_versions_ (xs ++ a :: ys) ->
  (forall b, b ∈ xs ++ ys -> exists w, vs_versions s !! b = Some w /\ refs_ w = ext b /\ 0 < ext b) ->
  files_counted (vs_files s) (all_files s (xs ++ a :: ys) ++ extra) ->
  vs_versions s !! a = Some v -> refs_ v = 0 ->
  exists l m fs, Version_delete s a = Some (with_versions s l m fs) /\ vs_ok (with_versions s l m fs) (xs ++ ys) ext extra
    /\ (forall b, b <> a -> m !! b = vs_versions s !! b).
Proof.
  intros Hring Hrefs Hfiles E Hz. unfold Version_delete. rewrite E. cbn [mbind option_bind]. rewrite Hz. cbn [Z.eqb].
  destruct (ring_unlink_ok _ _ _ _ _ Hring) as (l & -> & Hl & Hother). cbn [mbind option_bind].
  assert (NoDup (xs ++ a :: ys)) as Hnd by (destruct Hring as [Hnd _]; by apply NoDup_cons in Hnd as [_ ?]).
  assert (a ∉ xs ++ ys) as Ha by (rewrite <- Permutation_middle in Hnd; by apply NoDup_cons in Hnd as [? _]).
  assert (a <> dummy_versions_) as Had.
  { destruct Hring as [Hn _]. apply NoDup_cons in Hn as [Hn _]. intros ->. apply Hn. set_solver. }
  assert (files_counted (vs_files s) (concat (files_ v) ++ all_files s (xs ++ ys) ++ extra)) as Hf.
  { revert Hfiles. apply files_counted_perm. rewrite all_files_split. unfold version_files. rewrite E. by rewrite app_assoc. }
  destruct (drop_files_ok true _ _ _ Hf) as (fs & -> & Hf'). cbn [mbind option_bind].
  eexists _, _, _. split; [done|]. split.
  - split; cbn [with_versions vs_links vs_versions vs_files].
    + revert Hl. apply ring_frame. intros c Hc. cbn [nxt prv]. assert (c <> a) by (apply elem_of_cons in Hc as [->|Hc]; congruence).
      by rewrite !lookup_delete_ne.
    + intros b Hb. rewrite lookup_delete_ne by congruence. destruct (Hrefs b Hb) as (w & -> & _). done.
    + intros b w Hb Eb. rewrite lookup_delete_ne in Eb by congruence. destruct (Hrefs b Hb) as (w' & E' & Hr). congruence.
    + rewrite (all_files_same s); [done|]. intros b Hb. unfold version_files. cbn. rewrite lookup_delete_ne; [done|congruence].
  - intros b Hne. cbn. by rewrite lookup_delete_ne.
Qed.

(** Giving up a reference to a version. *)
Lemma Version_Unref_ok s xs ext extra a :
  vs_ok s xs ext extra -> a ∈ xs ->
  exists l m fs xs', Version_Unref s a = Some (with_versions s l m fs) /\ vs_ok (with_versions s l m fs) xs' (bump_ref ext a (-1)) extra
    /\ (forall b, b ∈ xs' -> b ∈ xs) /\ (forall b, b ∈ xs -> b <> a \/ 1 < ext a -> b ∈ xs')
    /\ (forall b, b <> a -> m !! b = vs_versions s !! b)
    /\ (1 < ext a -> xs' = xs /\ l = vs_links s /\ exists v, vs_versions s !! a = Some v /\ m !! a = Some (with_version_refs v (refs_ v - 1))).
Proof.
  intros H Ha. destruct (ok_dom _ _ _ _ H a Ha) as [v E]. destruct (ok_refs _ _ _ _ H a v Ha E) as (Hr & Hp).
  destruct (ok_ring _ _ _ _ H) as [Hnd _]. apply NoDup_cons in Hnd as [Hd Hnd].
  unfold Version_Unref. destruct (Z.eqb_spec a dummy_versions_); [by subst|]. rewrite E. cbn [mbind option_bind].
  destruct (Z.geb_spec (refs_ v) 1); [|lia]. cbv zeta. cbn [refs_ with_version_refs].
  set (v' := with_version_refs v (refs_ v - 1)). set (s1 := put_version s a v').
  assert (forall b, b <> a -> vs_versions s1 !! b = vs_versions s !! b) as Hsame by (intros b Hne; cbn; by rewrite lookup_insert_ne).
  destruct (Z.eqb_spec (refs_ v - 1) 0) as [Hz|Hz].
  - pose proof Ha as (l1 & l2 & ->)%list_elem_of_split.
    assert (a ∉ l1 ++ l2) as Hn by (rewrite <- Permutation_middle in Hnd; by apply NoDup_cons in Hnd as [? _]).
    destruct (Version_delete_ok s1 l1 (bump_ref ext a (-1)) extra a v' l2) as (l & m & fs & -> & Hok & Hm).
    + apply H.
    + intros b Hb. rewrite Hsame by congruence. rewrite bump_ref_other by congruence. assert (b ∈ l1 ++ a :: l2) as Hb' by set_solver.
      destruct (ok_dom _ _ _ _ H b Hb') as [w Ew]. exists w. split; [done|]. by apply (ok_refs _ _ _ _ H).
    + subst s1. rewrite (all_files_put s a v) by done. apply H.
    + cbn. apply lookup_insert_eq.
    + done.
    + exists l, m, fs, (l1 ++ l2). split; [done|]. split; [done|]. split_and!.
      * set_solver.
      * intros b Hb [Hne|]; [set_solver|lia].
      * intros b Hne. by rewrite Hm, Hsame.
      * lia.
  - exists (vs_links s), (<[a := v']> (vs_versions s)), (vs_files s), xs. split; [done|]. split; [|split_and!].
    + apply (put_version_ok s xs ext _ extra a v); [done..| |by intros b Hne; rewrite bump_ref_other].
      rewrite bump_ref_same. cbn [v' refs_ with_version_refs]. lia.
    + done.
    + done.
    + done.
    + intros _. split_and!; [done|done|]. exists v. split; [done|]. apply lookup_insert_eq.
Qed.

(** ** A new version *)

(** The version at [a] is not in the list yet; its files are among [extra]. *)
Definition pending (s : VersionSet) (xs : list Z) (a : Z) (v : Version) : Prop :=
  vs_versions s !! a = Some v /\ refs_ v = 0 /\ a ∉ xs /\ a <> dummy_versions_
  /\ nxt (vs_links s) !! a = Some a /\ prv (vs_links s) !! a = Some a.

Lemma vs_ok_extra s xs ext l1 l2 : l1 ≡ₚ l2 -> vs_ok s xs ext l1 -> vs_ok s xs ext l2.
Proof. intros Hp [H1 H2 H3 H4]. split; try done. revert H4. apply files_counted_perm. by rewrite Hp. Qed.

Lemma vs_ok_refs s xs ext ext' extra : (forall a, a ∈ xs -> ext' a = ext a) -> vs_ok s xs ext extra -> vs_ok s xs ext' extra.
Proof. intros He [H1 H2 H3 H4]. split; try done. intros a v Ha. rewrite He by done. by apply H3. Qed.

(** Other versions do not matter. *)
Lemma vs_ok_versions s xs ext extra l m :
  vs_ok s xs ext extra -> (forall a, a ∈ dummy_versions_ :: xs -> nxt l !! a = nxt (vs_links s) !! a /\ prv l !! a = prv (vs_links s) !! a) ->
  (forall a, a ∈ xs -> m !! a = vs_versions s !! a) -> vs_ok (with_versions s l m (vs_files s)) xs ext extra.
Proof.
  intros H Hl Hm. split; cbn [with_versions vs_links vs_versions vs_files].
  - generalize (ok_ring _ _ _ _ H). by apply ring_frame.
  - intros b Hb. rewrite Hm by done. by apply H.
  - intros b w Hb. rewrite Hm by done. by apply H.
  - rewrite (all_files_same s); [apply H|]. intros b Hb. unfold version_files. cbn. by rewrite Hm.
Qed.

Lemma new_version_ok s xs ext extra a :
  vs_ok s xs ext extra -> a ∉ xs -> a <> dummy_versions_ ->
  vs_ok (new_version s a) xs ext extra /\ pending (new_version s a) xs a Version_make.
Proof.
  intros H Ha Hd. split.
  - apply vs_ok_versions; [done| |intros b Hb; rewrite lookup_insert_ne; [done|congruence]].
    intros c Hc. assert (c <> a) by (apply elem_of_cons in Hc as [->|Hc]; congruence). cbn. by rewrite !lookup_insert_ne.
  - split; cbn; [apply lookup_insert_eq|]. split_and!; [done|done|done|apply lookup_insert_eq..].
Qed.

(** Changing a pending version. *)
Lemma pending_put s xs ext extra a v v' :
  vs_ok s xs ext extra -> pending s xs a v -> refs_ v' = 0 ->
  vs_ok (put_version s a v') xs ext extra /\ pending (put_version s a v') xs a v'.
Proof.
  intros H (E & Hz & Ha & Hd & H1 & H2) Hz'. split.
  - apply vs_ok_versions; [done|done|]. intros b Hb. rewrite lookup_insert_ne; [done|congruence].
  - split_and!; try done. cbn. apply lookup_insert_eq.
Qed.

(** The reference of [current_] goes to the new version. *)
Definition moved (ext : Z -> Z) (cur : option Z) (a : Z) : Z -> Z :=
  bump_ref (match cur with Some c => bump_ref ext c (-1) | None => ext end) a 1.

Lemma AppendVersion_ok s xs ext extra a v :
  vs_ok s xs ext (concat (files_ v) ++ extra) -> pending s xs a v -> ext a = 0 -> (forall c, vs_current s = Some c -> c ∈ xs) ->
  exists l m fs xs', AppendVersion s a = Some (with_versions (with_current s (Some a)) l m fs)
    /\ vs_ok (with_versions (with_current s (Some a)) l m fs) (xs' ++ [a]) (moved ext (vs_current s) a) extra
    /\ m !! a = Some (with_version_refs v 1)
    /\ (forall b, b ∈ xs' -> b ∈ xs) /\ (forall b, b ∈ xs -> vs_current s <> Some b \/ 1 < ext b -> b ∈ xs').
Proof.
  intros H (E & Hz & Ha & Hd & H1 & H2) Hext Hcur. unfold AppendVersion. rewrite E. cbn [mbind option_bind]. rewrite Hz. cbn [Z.eqb andb].
  rewrite bool_decide_false by (intros Hc; by apply Ha, Hcur). cbn [negb].
  assert (exists l m fs xs', (match vs_current s with Some c => Version_Unref s c | None => Some s end) = Some (with_versions s l m fs)
    /\ vs_ok (with_versions s l m fs) xs' (match vs_current s with Some c => bump_ref ext c (-1) | None => ext end) (concat (files_ v) ++ extra)
    /\ m !! a = Some v /\ (forall b, b ∈ xs' -> b ∈ xs) /\ (forall b, b ∈ xs -> vs_current s <> Some b \/ 1 < ext b -> b ∈ xs'))
    as (l & m & fs & xs' & -> & Hok & Em & Hsub & Hkeep).
  { destruct (vs_current s) as [c|] eqn:Ec.
    - destruct (Version_Unref_ok s xs ext _ c H (Hcur c eq_refl)) as (l & m & fs & xs' & -> & Hok & Hs1 & Hs2 & Hv & _).
      exists l, m, fs, xs'. split_and!; [done|done| |done|].
      + rewrite Hv; [done|]. intros ->. by apply Ha, Hcur.
      + intros b Hb [Hne|Hgt]; [apply Hs2; [done|left; congruence]|]. apply Hs2; [done|].
        destruct (decide (b = c)) as [->|]; [by right|by left].
    - exists (vs_links s), (vs_versions s), (vs_files s), xs. split; [by destruct s|]. split; [by destruct s|]. done. }
  cbn [mbind option_bind]. unfold Version_Ref. cbn [with_current with_versions vs_versions]. rewrite Em. cbn [mbind option_bind].
  cbn [put_version with_versions with_current vs_links vs_versions vs_files].
  assert (a ∉ dummy_versions_ :: xs') as Hnew by (intros [->|Hin]%elem_of_cons; [done|by apply Ha, Hsub]).
  destruct (ring_append_ok _ _ _ a (ok_ring _ _ _ _ Hok) Hnew) as (l' & El & Hl' & _). cbn [with_versions vs_links] in El.
  rewrite El. cbn [mbind option_bind].
  exists l', (<[a:=with_version_refs v (refs_ v + 1)]> m), fs, xs'. rewrite Hz. split; [done|]. split; [|split_and!; [apply lookup_insert_eq|done|done]].
  assert (forall b, b ∈ xs' -> b <> a) as Hne by (intros b Hb ->; by apply Ha, Hsub).
  split; cbn [with_versions vs_links vs_versions vs_files].
  - done.
  - intros b [Hb| ->%list_elem_of_singleton]%elem_of_app; [|by rewrite lookup_insert_eq]. rewrite lookup_insert_ne by (symmetry; by apply Hne).
    by apply (ok_dom _ _ _ _ Hok).
  - intros b w [Hb| ->%list_elem_of_singleton]%elem_of_app; unfold moved.
    + rewrite lookup_insert_ne by (symmetry; by apply Hne). rewrite bump_ref_other by (by apply Hne). by apply (ok_refs _ _ _ _ Hok).
    + rewrite lookup_insert_eq. intros [= <-]. rewrite bump_ref_same. cbn [refs_ with_version_refs].
      assert ((match vs_current s with Some c => bump_ref ext c (-1) | None => ext end) a = 0); [|lia].
      destruct (vs_current s) as [c|] eqn:Ec; [|done]. rewrite bump_ref_other; [done|]. intros ->. by apply Ha, Hcur.
  - rewrite all_files_snoc. unfold version_files. cbn [with_versions vs_versions]. rewrite lookup_insert_eq. cbn [with_version_refs files_].
    rewrite <- app_assoc. rewrite (all_files_same (with_versions s l m fs)); [apply (ok_files _ _ _ _ Hok)|].
    intros b Hb. unfold version_files. cbn. by rewrite lookup_insert_ne by (symmetry; by apply Hne).
Qed.

(** * The builder *)
Section Order.
Context {U : Comparator} {uvalid : bytes -> Prop} {uorder : bytes -> bytes -> Z} {UL : ComparatorLaw U uvalid uorder}.
#[local] Abbreviation iorder := (ikey_order uorder).
#[local] Abbreviation ivalid := (ikey_valid uvalid).
#[local] Abbreviation range_ok := (range_ok (uvalid := uvalid) (uorder := uorder)).
#[local] Abbreviation apart := (apart (uorder := uorder)).
#[local] Existing Instance ikey_CompareLaw.

(** [BySmallestKey]. *)
Definition file_lt (f g : FileRef) : Prop :=
  iorder (f_smallest f) (f_smallest g) < 0 \/ (iorder (f_smallest f) (f_smallest g) = 0 /\ f_number f < f_number g).

#[global] Instance file_lt_dec f g : Decision (file_lt f g).
Proof. unfold file_lt. apply _. Defined.

Lemma BySmallestKey_ok f g : range_ok f -> range_ok g -> BySmallestKey f g = Some (bool_decide (file_lt f g)).
Proof.
  intros (Vf & _) (Vg & _). unfold BySmallestKey. rewrite (InternalKey_Compare_order (UL := UL) _ _ Vf Vg). cbn [mbind option_bind].
  f_equal. symmetry. destruct (Z.eqb_spec (iorder (f_smallest f) (f_smallest g)) 0) as [E|Hne]; cbn [negb].
  - destruct (Z.ltb_spec (f_number f) (f_number g)); [apply bool_decide_true|apply bool_decide_false]; unfold file_lt; lia.
  - destruct (Z.ltb_spec (iorder (f_smallest f) (f_smallest g)) 0); [apply bool_decide_true|apply bool_decide_false]; unfold file_lt; lia.
Qed.

Lemma file_lt_trans f g h : range_ok f -> range_ok g -> range_ok h -> file_lt f g -> file_lt g h -> file_lt f h.
Proof.
  intros (Vf & _) (Vg & _) (Vh & _) Hfg Hgh. unfold file_lt in *.
  pose proof (ikey_order_sym (UL := UL) _ _ Vf Vg). pose proof (ikey_order_sym (UL := UL) _ _ Vg Vh).
  pose proof (ikey_order_sym (UL := UL) _ _ Vf Vh).
  assert (iorder (f_smallest f) (f_smallest h) <= 0) as Hle by (apply (ikey_order_trans (UL := UL) _ (f_smallest g)); [done..|lia|lia]).
  destruct Hfg as [Hfg|[Efg Nfg]]; [left; by apply (order_lt_le_trans (CL := ikey_CompareLaw) _ (f_smallest g)); [..|lia]|].
  destruct Hgh as [Hgh|[Egh Ngh]]; [left; by apply (order_le_lt_trans (CL := ikey_CompareLaw) _ (f_smallest g)); [..|lia|]|].
  right. split; [|lia].
  assert (iorder (f_smallest h) (f_smallest f) <= 0); [|lia]. apply (ikey_order_trans (UL := UL) _ (f_smallest g)); [done..|lia|lia].
Qed.

Lemma file_lt_asym f g : range_ok f -> range_ok g -> file_lt f g -> ~ file_lt g f.
Proof. intros (Vf & _) (Vg & _) H1 H2. unfold file_lt in *. pose proof (ikey_order_sym (UL := UL) _ _ Vf Vg). lia. Qed.

Lemma file_lt_total f g : range_ok f -> range_ok g -> f_number f <> f_number g -> file_lt f g \/ file_lt g f.
Proof. intros (Vf & _) (Vg & _) Hne. unfold file_lt. pose proof (ikey_order_sym (UL := UL) _ _ Vf Vg). lia. Qed.

(** Files in order, of different numbers. *)
Definition in_order (l : list FileRef) : Prop := Forall range_ok l /\ NoDup (f_number <$> l) /\ StronglySorted file_lt l.

Lemma fileset_insert_ok f l :
  in_order l -> range_ok f -> f_number f ∉ (f_number <$> l) ->
  exists l', fileset_insert f l = Some l' /\ l' ≡ₚ f :: l /\ in_order l'.
Proof.
  intros (Hr & Hn & Hs) Hf Hnot.
  assert (exists l', fileset_insert f l = Some l' /\ l' ≡ₚ f :: l /\ StronglySorted file_lt l') as (l' & E & Hp & Hs').
  { clear Hn. induction l as [|g l IH]; [exists [f]; by repeat constructor|]. cbn [fileset_insert].
    apply Forall_cons in Hr as [Hg Hr]. apply StronglySorted_inv in Hs as [Hs Hall].
    rewrite (BySmallestKey_ok f g Hf Hg). cbn [mbind option_bind]. case_bool_decide as Hlt.
    - exists (f :: g :: l). split_and!; [done|done|]. constructor; [by constructor|]. constructor; [done|].
      apply Forall_forall. intros x Hx. apply (file_lt_trans f g x); [done|done|by apply (proj1 (Forall_forall _ _) Hr)|done|].
      by apply (proj1 (Forall_forall _ _) Hall).
    - rewrite (BySmallestKey_ok g f Hg Hf). cbn [mbind option_bind]. rewrite fmap_cons, not_elem_of_cons in Hnot. destruct Hnot as [Hne Hnot].
      destruct (file_lt_total f g Hf Hg Hne) as [?|Hgt]; [done|]. rewrite bool_decide_true by done.
      destruct (IH Hr Hs Hnot) as (l' & -> & Hp & Hs'). cbn [mbind option_bind]. exists (g :: l'). split; [done|]. split; [rewrite Hp; constructor|].
      constructor; [done|]. rewrite Hp. by constructor. }
  exists l'. split; [done|]. split; [done|]. split; [rewrite Hp; by constructor|]. split; [|done].
  rewrite Hp. cbn. by constructor.
Qed.

Lemma upper_bound_ok base f :
  in_order base -> range_ok f -> f_number f ∉ (f_number <$> base) ->
  exists l r, upper_bound base f = Some (l, r) /\ base = l ++ r /\ Forall (fun g => file_lt g f) l /\ Forall (file_lt f) r.
Proof.
  intros (Hr & _ & Hs) Hf Hnot. induction base as [|g base IH]; [by exists [], []|]. cbn [upper_bound].
  apply Forall_cons in Hr as [Hg Hr]. apply StronglySorted_inv in Hs as [Hs Hall].
  rewrite fmap_cons, not_elem_of_cons in Hnot. destruct Hnot as [Hne Hnot].
  rewrite (BySmallestKey_ok f g Hf Hg). cbn [mbind option_bind]. case_bool_decide as Hlt.
  - exists [], (g :: base). split_and!; [done|done|by constructor|]. constructor; [done|]. apply Forall_forall. intros x Hx.
    apply (file_lt_trans f g x); [done|done|by apply (proj1 (Forall_forall _ _) Hr)|done|]. by apply (proj1 (Forall_forall _ _) Hall).
  - destruct (IH Hr Hs Hnot) as (l & r & -> & -> & Hl & Hgt). cbn [mbind option_bind]. exists (g :: l), r. split_and!; [done|done| |done].
    constructor; [|done]. by destruct (file_lt_total f g Hf Hg Hne).
Qed.

Lemma maybe_add_files_app deleted level files fs l1 l2 :
  maybe_add_files deleted level files fs (l1 ++ l2)
  = ('(files, fs) ← maybe_add_files deleted level files fs l1; maybe_add_files deleted level files fs l2).
Proof.
  revert files fs. induction l1 as [|f l1 IH]; intros files fs; [done|]. cbn [app maybe_add_files].
  destruct (MaybeAddFile deleted level files fs f) as [[files' fs']|]; [|done]. cbn [mbind option_bind]. apply IH.
Qed.

Lemma in_order_app l1 l2 : in_order (l1 ++ l2) -> in_order l1 /\ in_order l2.
Proof.
  intros (Hr & Hn & Hs). apply Forall_app in Hr as [H1 H2]. rewrite fmap_app in Hn. apply NoDup_app in Hn as (N1 & _ & N2).
  split; (split; [done|split; [done|]]); [by apply StronglySorted_app_1_l in Hs|by apply StronglySorted_app_1_r in Hs].
Qed.

(** [save_level] goes through the base and the added files in order. *)
Lemma save_level_merge deleted level base added files fs :
  in_order base -> in_order added -> (forall f, f ∈ added -> f_number f ∉ (f_number <$> base)) ->
  exists merged, merged ≡ₚ base ++ added /\ in_order merged
    /\ save_level deleted level base added files fs = maybe_add_files deleted level files fs merged.
Proof.
  intros Hb Ha Hd.
  assert (exists merged, merged ≡ₚ base ++ added /\ StronglySorted file_lt merged
    /\ forall files fs, save_level deleted level base added files fs = maybe_add_files deleted level files fs merged) as (merged & Hp & Hs & E).
  { revert base Hb Hd. induction added as [|f added IH]; intros base Hb Hd.
    { exists base. rewrite app_nil_r. split_and!; [done|apply Hb|done]. }
    destruct Ha as (Hr & Hn & Hs). apply Forall_cons in Hr as [Hf Hr]. apply StronglySorted_inv in Hs as [Hs Hall].
    rewrite fmap_cons in Hn. apply NoDup_cons in Hn as [Hnf Hn].
    destruct (upper_bound_ok base f Hb Hf ltac:(apply Hd; set_solver)) as (l & r & E & -> & Hl & Hgt).
    destruct (in_order_app l r Hb) as [(Hlr & _ & Hls) Hro]. pose proof Hro as (Hrr & _ & _).
    destruct (IH ltac:(done) r Hro) as (merged & Hp & Hsm & Em).
    { intros g Hg. specialize (Hd g ltac:(set_solver)). rewrite fmap_app, not_elem_of_app in Hd. tauto. }
    assert (Forall range_ok merged) as Hmr by (rewrite Hp; by apply Forall_app).
    assert (Forall (file_lt f) merged) as Hfm by (rewrite Hp; by apply Forall_app).
    exists (l ++ f :: merged). split_and!.
    - rewrite Hp, <- app_assoc. apply Permutation_app_head, Permutation_middle.
    - apply StronglySorted_app_2; [|done|by constructor]. intros x y Hx Hy.
      pose proof (proj1 (Forall_forall _ _) Hl x Hx) as Hxf. apply elem_of_cons in Hy as [->|Hy]; [done|].
      apply (file_lt_trans x f y); [by apply (proj1 (Forall_forall _ _) Hlr)|done|by apply (proj1 (Forall_forall _ _) Hmr)|done|].
      by apply (proj1 (Forall_forall _ _) Hfm).
    - intros files' fs'. cbn [save_level]. rewrite E. cbn [mbind option_bind]. rewrite maybe_add_files_app.
      destruct (maybe_add_files deleted level files' fs' l) as [[files1 fs1]|]; [|done]. cbn [mbind option_bind maybe_add_files].
      destruct (MaybeAddFile deleted level files1 fs1 f) as [[files2 fs2]|]; [|done]. cbn [mbind option_bind]. apply Em. }
  exists merged. split; [done|]. split; [|done]. destruct Hb as (Hbr & Hbn & _). destruct Ha as (Har & Han & _).
  split; [rewrite Hp; by apply Forall_app|]. split; [|done]. rewrite Hp, fmap_app. apply NoDup_app. split_and!; [done| |done].
  intros n Hn (f & -> & Hf)%list_elem_of_fmap. by apply (Hd f).
Qed.

(** The files that are not deleted. *)
Definition kept (deleted : gset Z) (l : list FileRef) : list FileRef := filter (fun f => f_number f ∉ deleted) l.

Lemma apart_next l1 g f l2 : apart (l1 ++ g :: f :: l2) -> iorder (f_largest g) (f_smallest f) < 0.
Proof.
  intros Ha. apply (Ha (length l1) (S (length l1))); [lia|by apply list_lookup_middle|].
  rewrite lookup_app_r by lia. by replace (S (length l1) - length l1)%nat with 1%nat by lia.
Qed.

Lemma maybe_add_files_ok deleted level files fs l L :
  Forall range_ok (files ++ l) -> (level > 0 -> apart (files ++ kept deleted l)) ->
  (forall f, f ∈ l -> f ∈ L) -> files_counted fs (files ++ L) ->
  exists fs', maybe_add_files deleted level files fs l = Some (files ++ kept deleted l, fs')
    /\ files_counted fs' ((files ++ kept deleted l) ++ L).
Proof.
  unfold kept. revert files fs. induction l as [|f l IH]; intros files fs Hr Ha Hsub Hc.
  { exists fs. cbn [maybe_add_files]. by rewrite app_nil_r. }
  cbn [maybe_add_files]. unfold MaybeAddFile. rewrite filter_cons in Ha |- *. case_bool_decide as Hd.
  - rewrite decide_False in Ha |- * by tauto. apply (IH files fs); [|done|set_solver|done].
    apply Forall_app in Hr as [H1 H2]. apply Forall_app. split; [done|]. by apply Forall_cons in H2 as [_ ?].
  - rewrite decide_True in Ha |- * by done.
    assert ((match last files with
             | Some g => if level >? 0 then r ← InternalKey_Compare (f_largest g) (f_smallest f); Some (r <? 0) else Some true
             | None => Some true end) = Some true) as ->.
    { destruct (last files) as [g|] eqn:El; [|done]. destruct (Z.gtb_spec level 0) as [Hpos|]; [|done].
      apply last_Some in El as [l' ->]. apply Forall_app in Hr as [Hg Hf]. apply Forall_app in Hg as [_ Hg].
      apply Forall_cons in Hf as [(Vf & _) _]. apply Forall_cons in Hg as [(_ & Vg & _) _].
      rewrite (InternalKey_Compare_order (UL := UL) _ _ Vg Vf). cbn [mbind option_bind]. f_equal. apply Z.ltb_lt.
      apply (apart_next l' g f (filter (fun f => f_number f ∉ deleted) l)). rewrite <- app_assoc in Ha. apply Ha. lia. }
    cbn [mbind option_bind]. destruct (take_file_ok fs (files ++ L) f Hc) as (fs1 & -> & Hc1); [set_solver|]. cbn [mbind option_bind].
    destruct (IH (files ++ [f]) fs1) as (fs' & -> & Hc').
    + by rewrite <- app_assoc.
    + by rewrite <- app_assoc.
    + set_solver.
    + revert Hc1. apply files_counted_perm. rewrite <- app_assoc. cbn [app]. by rewrite Permutation_middle.
    + exists fs'. rewrite <- !app_assoc in Hc' |- *. done.
Qed.

Lemma no_overlap_ok files : Forall range_ok files -> apart files -> no_overlap files = Some true.
Proof.
  induction files as [|f files IH]; [done|]. intros Hr Ha. destruct files as [|g files]; [done|]. cbn [no_overlap].
  apply Forall_cons in Hr as [(_ & Vf & _) Hr]. pose proof Hr as Hr'. apply Forall_cons in Hr' as [(Vg & _) _].
  rewrite (InternalKey_Compare_order (UL := UL) _ _ Vf Vg). cbn [mbind option_bind].
  pose proof (apart_next [] f g files Ha). destruct (Z.geb_spec (iorder (f_largest f) (f_smallest g)) 0); [lia|].
  apply IH; [done|]. intros i j x y Hij Hi Hj. apply (Ha (S i) (S j)); [lia|done|done].
Qed.

(** What the builder makes of a level: the base and the added files in order,
    without the deleted ones. *)
Definition built (st : LevelState) (base result : list FileRef) : Prop :=
  exists merged, merged ≡ₚ base ++ ls_added_files st /\ in_order merged /\ result = kept (ls_deleted_files st) merged.

(** A level that can be built. *)
Definition buildable (level : Z) (base : list FileRef) (st : LevelState) : Prop :=
  in_order base /\ in_order (ls_added_files st) /\ (forall f, f ∈ ls_added_files st -> f_number f ∉ (f_number <$> base))
  /\ (level > 0 -> forall result, built st base result -> apart result).

Lemma save_levels_ok level bases ls fs L :
  length ls = length bases ->
  (forall i base st, bases !! i = Some base -> ls !! i = Some st -> buildable (level + Z.of_nat i) base st) ->
  (forall f, f ∈ concat bases -> f ∈ L) -> (forall f, f ∈ concat (ls_added_files <$> ls) -> f ∈ L) -> files_counted fs L ->
  exists result fs', save_levels level bases ls (replicate (length bases) []) fs = Some (result, fs')
    /\ length result = length bases
    /\ (forall i base st r, bases !! i = Some base -> ls !! i = Some st -> result !! i = Some r -> built st base r)
    /\ files_counted fs' (concat result ++ L).
Proof.
  revert level ls fs L. induction bases as [|base bases IH]; intros level ls fs L Hlen Hb Hsub1 Hsub2 Hc.
  { exists [], fs. destruct ls; [|done]. split_and!; [done|done|done|done]. }
  destruct ls as [|st ls]; [done|]. cbn [length replicate save_levels]. cbn [fmap list_fmap concat] in Hsub1, Hsub2.
  destruct (Hb O base st eq_refl eq_refl) as (Hbase & Hadded & Hdis & Hap). rewrite Z.add_0_r in Hap.
  destruct (save_level_merge (ls_deleted_files st) level base (ls_added_files st) [] fs Hbase Hadded Hdis) as (merged & Hp & Ho & ->).
  assert (built st base (kept (ls_deleted_files st) merged)) as Hbuilt by (by exists merged).
  destruct (maybe_add_files_ok (ls_deleted_files st) level [] fs merged L) as (fs1 & -> & Hc1).
  - apply Ho.
  - intros Hpos. by apply Hap.
  - intros f Hf. rewrite Hp in Hf. set_solver.
  - done.
  - cbn [mbind option_bind app]. cbn [app] in Hc1.
    assert ((if level >? 0 then no_overlap (kept (ls_deleted_files st) merged) else Some true) = Some true) as ->.
    { destruct (Z.gtb_spec level 0); [|done]. apply no_overlap_ok; [|apply Hap; [lia|done]].
      apply Forall_forall. intros f [_ Hf]%list_elem_of_filter. by apply (proj1 (Forall_forall _ _) (proj1 Ho)). }
    cbn [mbind option_bind].
    destruct (IH (level + 1) ls fs1 (kept (ls_deleted_files st) merged ++ L)) as (result & fs' & -> & Hl & Hr & Hc').
    + by injection Hlen.
    + intros i b s Hi Hs. rewrite <- Z.add_assoc, (Z.add_comm 1), Z.add_1_r, <- Nat2Z.inj_succ. by apply (Hb (S i)).
    + set_solver.
    + set_solver.
    + done.
    + cbn [mbind option_bind]. exists (kept (ls_deleted_files st) merged :: result), fs'. split; [done|]. split; [cbn; congruence|]. split.
      * intros [|i] b s r Hi Hs Hri; cbn in Hi, Hs, Hri; [congruence|by apply (Hr i)].
      * revert Hc'. apply files_counted_perm. cbn [concat]. rewrite <- !app_assoc. rewrite !app_assoc. apply Permutation_app_tail, Permutation_app_comm.
Qed.

(** ** Applying an edit *)

(** What an edit deletes and adds at a level. *)
Definition del_at (i : Z) (l : list (Z * Z)) : gset Z := list_to_set (snd <$> filter (fun p => p.1 = i) l).
Definition new_at (i : Z) (l : list (Z * FileMetaData)) : list FileMetaData := snd <$> filter (fun p => p.1 = i) l.
Definition level_range (i : Z) : Prop := 0 <= i < kNumLevels.

Lemma apply_pointers_ok l p :
  Forall (fun x => level_range x.1 /\ x.2 <> []) l -> length p = Z.to_nat kNumLevels -> exists p', apply_pointers l p = Some p' /\ length p' = length p.
Proof.
  intros Hl. revert p. induction Hl as [|[level key] l [Hr Hk] Hl IH]; intros p Hp; [by exists p|]. cbn [apply_pointers].
  unfold InternalKey_Encode. rewrite bool_decide_false by done. cbn [mbind option_bind]. unfold level_range in Hr. cbn in Hr.
  destruct (Nat.ltb_spec (Z.to_nat level) (length p)); [|unfold kNumLevels in *; lia].
  destruct (IH (<[Z.to_nat level:=key]> p)) as (p' & -> & E); [by rewrite length_insert|]. exists p'. by rewrite E, length_insert.
Qed.

Lemma apply_deleted_ok l ls :
  Forall (fun x => level_range x.1) l -> length ls = Z.to_nat kNumLevels ->
  exists ls', apply_deleted l ls = Some ls' /\ length ls' = length ls
    /\ forall i st, ls !! i = Some st ->
      ls' !! i = Some {| ls_deleted_files := del_at (Z.of_nat i) l ∪ ls_deleted_files st; ls_added_files := ls_added_files st |}.
Proof.
  intros Hl. revert ls. induction Hl as [|[level number] l Hr Hl IH]; intros ls Hlen.
  { exists ls. split_and!; [done|done|]. intros i st ->. unfold del_at. cbn. by rewrite (left_id_L ∅ (∪)); destruct st. }
  cbn [apply_deleted]. unfold level_range in Hr. cbn in Hr.
  destruct (lookup_lt_is_Some_2 ls (Z.to_nat level)) as [st0 E0]; [unfold kNumLevels in *; lia|]. rewrite E0. cbn [mbind option_bind].
  match goal with |- context [apply_deleted l ?x] => destruct (IH x) as (ls' & -> & Hl' & H); [by rewrite length_insert|] end.
  exists ls'. split; [done|]. split; [by rewrite Hl', length_insert|]. intros i st Hi. unfold del_at. rewrite filter_cons. cbn [fst snd].
  destruct (decide (i = Z.to_nat level)) as [->|Hne].
  - rewrite decide_True by lia. erewrite H by (apply list_lookup_insert_eq; unfold kNumLevels in *; lia).
    cbn [fmap list_fmap list_to_set ls_deleted_files ls_added_files]. replace st0 with st by congruence. f_equal. f_equal. set_solver.
  - rewrite decide_False by lia. erewrite H by (by rewrite list_lookup_insert_ne). done.
Qed.

(** The files of the new addresses. *)
Definition new_refs (l : list (Z * FileMetaData)) (addrs : list Z) : list (Z * FileRef) :=
  zip_with (fun p a => (p.1, {| f_addr := a; f_meta := p.2 |})) l addrs.

Definition refs_at (i : Z) (l : list (Z * FileMetaData)) (addrs : list Z) : list FileRef :=
  snd <$> filter (fun p => p.1 = i) (new_refs l addrs).

Lemma refs_at_meta i l addrs : (length l <= length addrs)%nat -> f_meta <$> refs_at i l addrs = new_at i l.
Proof.
  unfold refs_at, new_at, new_refs. revert addrs. induction l as [|[lv m] l IH]; intros [|a addrs] Hlen; cbn in Hlen; [done|done|lia|].
  cbn [zip_with fst snd]. rewrite !filter_cons. cbn [fst snd]. destruct (decide (lv = i)); cbn; rewrite IH by lia; done.
Qed.

(** Addresses that no file has. *)
Definition fresh_addrs (m : gmap Z FileState) (addrs : list Z) : Prop := NoDup addrs /\ forall a, a ∈ addrs -> m !! a = None.

Definition in_range (p : Z * FileMetaData) : Prop :=
  level_range p.1 /\ ivalid (smallest p.2) /\ ivalid (largest p.2) /\ iorder (smallest p.2) (largest p.2) <= 0.

Lemma apply_new_ok l addrs ls fs L :
  Forall in_range l -> (length l <= length addrs)%nat -> fresh_addrs fs addrs -> length ls = Z.to_nat kNumLevels ->
  (forall i st, ls !! i = Some st -> in_order (ls_added_files st)
     /\ NoDup (number <$> (f_meta <$> ls_added_files st) ++ new_at (Z.of_nat i) l)) ->
  files_counted fs L ->
  exists ls' fs', apply_new l addrs ls fs = Some (ls', fs') /\ length ls' = length ls
    /\ (forall i st, ls !! i = Some st -> exists st', ls' !! i = Some st'
         /\ ls_deleted_files st' = ls_deleted_files st ∖ list_to_set (number <$> new_at (Z.of_nat i) l)
         /\ ls_added_files st' ≡ₚ ls_added_files st ++ refs_at (Z.of_nat i) l addrs /\ in_order (ls_added_files st'))
    /\ files_counted fs' ((new_refs l addrs).*2 ++ L)
    /\ (forall a, a ∉ take (length l) addrs -> fs' !! a = fs !! a).
Proof.
  intros Hl. revert addrs ls fs L. induction Hl as [|[level meta] l Hm Hl IH]; intros addrs ls fs L Hlen Hfr Hls Hlv Hc.
  { exists ls, fs. split_and!; [done|done| |done|done]. intros i st Hi. exists st. unfold refs_at, new_at, new_refs. cbn.
    rewrite app_nil_r. destruct (Hlv i st Hi). split_and!; [done|set_solver|done|done]. }
  destruct addrs as [|a addrs]; [cbn in Hlen; lia|]. cbn [apply_new head mbind option_bind]. destruct Hm as (Hlr & Vs & Vl & Hsl).
  unfold level_range in Hlr. cbn [fst snd] in *. set (f := {| f_addr := a; f_meta := meta |}).
  destruct Hfr as [Hnd Hnone]. apply NoDup_cons in Hnd as [Hna Hnd].
  destruct (lookup_lt_is_Some_2 ls (Z.to_nat level)) as [st0 E0]; [unfold kNumLevels in *; lia|]. rewrite E0. cbn [mbind option_bind].
  destruct (Hlv _ st0 E0) as [Ho0 Hn0]. rewrite Z2Nat.id in Hn0 by lia. unfold new_at in Hn0. rewrite filter_cons_True in Hn0 by done.
  cbn [fmap list_fmap snd] in Hn0. rewrite fmap_app, fmap_cons in Hn0.
  assert (range_ok f) as Hf by done.
  assert (f_number f ∉ (f_number <$> ls_added_files st0)) as Hnot.
  { apply NoDup_app in Hn0 as (_ & Hn0 & _). intros Hin. rewrite <- list_fmap_compose in Hn0. apply (Hn0 (f_number f) Hin). left. }
  destruct (fileset_insert_ok f (ls_added_files st0) Ho0 Hf Hnot) as (added & -> & Hpa & Hoa). cbn [mbind option_bind tail].
  match goal with |- context [apply_new l addrs ?x ?y] => destruct (IH addrs x y (f :: L)) as (ls' & fs' & -> & Hl' & H & Hc' & Hother) end.
  - cbn in Hlen. lia.
  - split; [done|]. intros b Hb. rewrite lookup_insert_ne by congruence. apply Hnone. by right.
  - by rewrite length_insert.
  - intros i st Hi. destruct (decide (i = Z.to_nat level)) as [->|Hne].
    + rewrite list_lookup_insert_eq in Hi by (unfold kNumLevels in *; lia). injection Hi as <-. cbn [ls_added_files]. split; [done|].
      rewrite Z2Nat.id by lia. rewrite fmap_app, Hpa. cbn [fmap list_fmap f_meta f].
      revert Hn0. apply NoDup_Permutation_proper. unfold new_at. rewrite <- Permutation_middle. done.
    + rewrite list_lookup_insert_ne in Hi by done. destruct (Hlv i st Hi) as [Ho Hn]. split; [done|].
      unfold new_at in Hn. rewrite filter_cons_False in Hn by (cbn; lia). done.
  - apply (new_file_ok fs L f); [done|]. apply Hnone. left.
  - exists ls', fs'. split; [done|]. split; [by rewrite Hl', length_insert|]. split; [|split].
    + intros i st Hi. unfold new_at, refs_at, new_refs. cbn [zip_with fst snd]. rewrite !filter_cons. cbn [fst snd].
      destruct (decide (i = Z.to_nat level)) as [->|Hne].
      * rewrite !(decide_True (P := level = _)) by lia.
        edestruct (H (Z.to_nat level)) as (st' & E' & Hd' & Ha' & Ho'); [apply list_lookup_insert_eq; unfold kNumLevels in *; lia|].
        exists st'. cbn [ls_deleted_files ls_added_files] in *. replace st with st0 by congruence. split_and!; [done| | |done].
        -- rewrite Hd'. cbn [fmap list_fmap list_to_set]. set_solver.
        -- rewrite Ha', Hpa. cbn [fmap list_fmap snd]. by rewrite <- Permutation_middle.
      * rewrite !(decide_False (P := level = _)) by lia. apply H. by rewrite list_lookup_insert_ne.
    + revert Hc'. apply files_counted_perm. unfold new_refs. cbn [zip_with fmap list_fmap snd app]. by rewrite Permutation_middle.
    + intros b Hb. cbn [length take] in Hb. apply not_elem_of_cons in Hb as [Hne Hb]. rewrite Hother by done. by rewrite lookup_insert_ne.
Qed.

(** The new files by level are the new files. *)
Lemma concat_by_level {A} (l : list (Z * A)) (n : nat) :
  Forall (fun p => 0 <= p.1 < Z.of_nat n) l ->
  concat ((fun i => snd <$> filter (fun p => p.1 = Z.of_nat i) l) <$> seq 0 n) ≡ₚ l.*2.
Proof.
  intros Hl. induction Hl as [|[lv x] l Hr Hl IH].
  - induction (seq 0 n); [done|]. done.
  - cbn [fmap list_fmap snd]. rewrite <- IH. clear IH Hl. cbn in Hr.
    assert (seq 0 n = seq 0 (Z.to_nat lv) ++ Z.to_nat lv :: seq (S (Z.to_nat lv)) (n - S (Z.to_nat lv))) as ->.
    { replace n with (Z.to_nat lv + S (n - S (Z.to_nat lv)))%nat at 1 by lia. rewrite seq_app. done. }
    rewrite !fmap_app, !fmap_cons, !concat_app. cbn [concat]. rewrite filter_cons_True by (cbn; lia). cbn [fmap list_fmap snd].
    assert (forall k m, (forall i, (k <= i < k + m)%nat -> Z.of_nat i <> lv) ->
      (fun i => snd <$> filter (fun p => p.1 = Z.of_nat i) ((lv, x) :: l)) <$> seq k m
      = (fun i => snd <$> filter (fun p => p.1 = Z.of_nat i) l) <$> seq k m) as Hsame.
    { intros k m Hne. apply list_fmap_ext. intros j i Hi. apply lookup_seq in Hi as [-> Hj].
      rewrite filter_cons_False; [done|]. cbn. apply not_eq_sym, Hne. lia. }
    rewrite !Hsame by lia. cbn [app]. by rewrite <- Permutation_middle.
Qed.

Lemma concat_perm {A} (l1 l2 : list (list A)) :
  length l1 = length l2 -> (forall i x y, l1 !! i = Some x -> l2 !! i = Some y -> x ≡ₚ y) -> concat l1 ≡ₚ concat l2.
Proof.
  revert l2. induction l1 as [|x l1 IH]; intros [|y l2] Hlen H; try done. cbn [concat].
  rewrite (H O x y eq_refl eq_refl). apply Permutation_app_head, IH; [by injection Hlen|]. intros i. apply (H (S i)).
Qed.

Lemma concat_app_perm {A} (l1 l2 l : list (list A)) :
  length l1 = length l -> length l2 = length l ->
  (forall i x y z, l1 !! i = Some x -> l2 !! i = Some y -> l !! i = Some z -> z ≡ₚ x ++ y) -> concat l ≡ₚ concat l1 ++ concat l2.
Proof.
  revert l1 l2. induction l as [|z l IH]; intros [|x l1] [|y l2] H1 H2 H; try done. cbn [concat].
  rewrite (H O x y z eq_refl eq_refl eq_refl). rewrite (IH l1 l2); [|by injection H1|by injection H2|intros i; apply (H (S i))].
  rewrite <- !app_assoc. apply Permutation_app_head. rewrite !app_assoc. apply Permutation_app_tail, Permutation_app_comm.
Qed.

(** An edit of levels in range and keys that can be compared. *)
Record edit_fine (edit : VersionEdit) : Prop := {
  ef_pointers : Forall (fun x => level_range x.1 /\ x.2 <> []) (compact_pointers_ edit);
  ef_deleted : Forall (fun x => level_range x.1) (deleted_files_ edit);
  ef_new : Forall in_range (new_files_ edit)
}.

Definition builder_files (b : Builder) : list FileRef := concat (ls_added_files <$> levels_ b).

Definition edit_new (i : nat) (edit : VersionEdit) : list FileMetaData := new_at (Z.of_nat i) (new_files_ edit).
Definition edit_del (i : nat) (edit : VersionEdit) : gset Z := del_at (Z.of_nat i) (deleted_files_ edit).

(** The numbers of the new files of the edit were not added to their levels before. *)
Definition builder_ready (b : Builder) (edit : VersionEdit) : Prop :=
  length (levels_ b) = Z.to_nat kNumLevels
  /\ forall i st, levels_ b !! i = Some st -> in_order (ls_added_files st)
       /\ NoDup (number <$> (f_meta <$> ls_added_files st) ++ edit_new i edit).

Definition pointers_ok (s : VersionSet) : Prop := length (vs_compact_pointer s) = Z.to_nat kNumLevels.

Lemma Builder_Apply_ok s xs ext rest b edit addrs :
  vs_ok s xs ext (builder_files b ++ rest) -> pointers_ok s -> edit_fine edit -> builder_ready b edit ->
  (length (new_files_ edit) <= length addrs)%nat -> fresh_addrs (vs_files s) addrs ->
  exists b' fs p, Builder_Apply s b edit addrs = Some (b', with_pointer (with_vs_files s fs) p)
    /\ length p = Z.to_nat kNumLevels /\ apply_pointers (compact_pointers_ edit) (vs_compact_pointer s) = Some p
    /\ base_ b' = base_ b /\ length (levels_ b') = Z.to_nat kNumLevels
    /\ vs_ok (with_pointer (with_vs_files s fs) p) xs ext (builder_files b' ++ rest)
    /\ (forall i st, levels_ b !! i = Some st -> exists st', levels_ b' !! i = Some st'
         /\ ls_deleted_files st' = (edit_del i edit ∪ ls_deleted_files st) ∖ list_to_set (number <$> edit_new i edit)
         /\ f_meta <$> ls_added_files st' ≡ₚ (f_meta <$> ls_added_files st) ++ edit_new i edit /\ in_order (ls_added_files st'))
    /\ (forall a, a ∉ take (length (new_files_ edit)) addrs -> fs !! a = vs_files s !! a).
Proof.
  intros H Hp [Ep Ed En] [Hlen Hlv] Hla Hfr. unfold Builder_Apply.
  destruct (apply_pointers_ok (compact_pointers_ edit) (vs_compact_pointer s) Ep Hp) as (p & Eptr & Hlp). rewrite Eptr. cbn [mbind option_bind].
  destruct (apply_deleted_ok (deleted_files_ edit) (levels_ b) Ed Hlen) as (ls1 & -> & Hl1 & H1). cbn [mbind option_bind].
  assert (forall i st1, ls1 !! i = Some st1 -> exists st, levels_ b !! i = Some st
    /\ st1 = {| ls_deleted_files := edit_del i edit ∪ ls_deleted_files st; ls_added_files := ls_added_files st |}) as H1'.
  { intros i st1 Hi. destruct (lookup_lt_is_Some_2 (levels_ b) i) as [st Hst]; [apply lookup_lt_Some in Hi; lia|].
    exists st. split; [done|]. specialize (H1 i st Hst). unfold edit_del. congruence. }
  destruct (apply_new_ok (new_files_ edit) addrs ls1 (vs_files s) (all_files s xs ++ builder_files b ++ rest) En Hla Hfr)
    as (ls' & fs & -> & Hl' & H2 & Hc & Hother).
  - by rewrite Hl1.
  - intros i st1 Hi. destruct (H1' i st1 Hi) as (st & Hst & ->). exact (Hlv i st Hst).
  - apply H.
  - cbn [mbind option_bind]. eexists _, fs, p. split; [done|]. cbn [base_ levels_].
    assert (forall i st, levels_ b !! i = Some st -> exists st', ls' !! i = Some st'
         /\ ls_deleted_files st' = (edit_del i edit ∪ ls_deleted_files st) ∖ list_to_set (number <$> edit_new i edit)
         /\ ls_added_files st' ≡ₚ ls_added_files st ++ refs_at (Z.of_nat i) (new_files_ edit) addrs /\ in_order (ls_added_files st')) as H3.
    { intros i st Hi. destruct (H2 i _ (H1 i st Hi)) as (st' & E & Hd & Ha & Ho). by exists st'. }
    split; [by rewrite Hlp|]. split; [done|]. split; [done|]. split; [by rewrite Hl', Hl1|]. split; [|split; [|done]].
    + split; [apply H|apply H|apply H|]. cbn [with_pointer with_vs_files with_versions vs_files].
      rewrite (all_files_same s) by done. revert Hc. apply files_counted_perm. unfold builder_files. cbn [levels_].
      assert (concat (ls_added_files <$> ls') ≡ₚ concat (ls_added_files <$> levels_ b) ++ (new_refs (new_files_ edit) addrs).*2) as ->.
      { rewrite <- (concat_by_level (new_refs (new_files_ edit) addrs) (Z.to_nat kNumLevels)).
        - apply concat_app_perm; rewrite ?length_fmap, ?length_seq; [lia..|]. intros i x y z Hx Hy Hz.
          rewrite list_lookup_fmap in Hx, Hz. apply fmap_Some in Hx as (st & Hst & ->). apply fmap_Some in Hz as (st' & Hst' & ->).
          rewrite list_lookup_fmap in Hy. apply fmap_Some in Hy as (i' & Hi' & ->). apply lookup_seq in Hi' as [-> _].
          destruct (H3 i st Hst) as (st2 & E2 & _ & Ha & _). replace st' with st2 by congruence. exact Ha.
        - unfold new_refs. apply Forall_forall. intros q Hq. apply list_elem_of_lookup in Hq as (j & Hj).
          apply lookup_zip_with_Some in Hj as ([lv m] & a & -> & Hj & _). cbn.
          destruct (proj1 (Forall_forall _ _) En (lv, m)) as [Hr _]; [by eapply list_elem_of_lookup_2|].
          unfold level_range in Hr. cbn in Hr. unfold kNumLevels in *. lia. }
      rewrite <- !app_assoc. rewrite (Permutation_app_comm ((new_refs _ _).*2)). rewrite <- !app_assoc.
      apply Permutation_app_head, Permutation_app_head, Permutation_app_comm.
    + intros i st Hi. destruct (H3 i st Hi) as (st' & E & Hd & Ha & Ho). exists st'. split_and!; [done|done| |done].
      rewrite Ha, fmap_app. by rewrite refs_at_meta.
Qed.

Lemma Builder_new_ok s xs ext extra c :
  vs_ok s xs ext extra -> c ∈ xs ->
  exists b v, Builder_new s c = Some (b, put_version s c (with_version_refs v (refs_ v + 1))) /\ vs_versions s !! c = Some v
    /\ base_ b = c /\ length (levels_ b) = Z.to_nat kNumLevels
    /\ (forall i st, levels_ b !! i = Some st -> st = {| ls_deleted_files := ∅; ls_added_files := [] |})
    /\ vs_ok (put_version s c (with_version_refs v (refs_ v + 1))) xs (bump_ref ext c 1) (builder_files b ++ extra).
Proof.
  intros H Hc. destruct (Version_Ref_ok s xs ext extra c H Hc) as (v & E & Er & Hok). unfold Builder_new. rewrite Er. cbn [mbind option_bind].
  eexists _, v. split; [done|]. split_and!; [done|done|done| |exact Hok].
  intros i st Hi. by apply lookup_replicate in Hi as [-> _].
Qed.

Lemma SaveTo_ok s xs ext rest b a base :
  vs_ok s xs ext (builder_files b ++ rest) -> pending s xs a Version_make -> base_ b ∈ xs -> vs_versions s !! base_ b = Some base ->
  length (files_ base) = Z.to_nat kNumLevels -> length (levels_ b) = Z.to_nat kNumLevels ->
  (forall i fs st, files_ base !! i = Some fs -> levels_ b !! i = Some st -> buildable (Z.of_nat i) fs st) ->
  exists fs v, SaveTo s b a = Some (put_version (with_vs_files s fs) a v) /\ refs_ v = 0 /\ length (files_ v) = Z.to_nat kNumLevels
    /\ (forall i fs st r, files_ base !! i = Some fs -> levels_ b !! i = Some st -> files_ v !! i = Some r -> built st fs r)
    /\ vs_ok (put_version (with_vs_files s fs) a v) xs ext (concat (files_ v) ++ builder_files b ++ rest)
    /\ pending (put_version (with_vs_files s fs) a v) xs a v.
Proof.
  intros H Hpend Hin E Hl Hlv Hb. pose proof Hpend as (Ea & Hz & Hna & Hd & _). unfold SaveTo. rewrite E, Ea. cbn [mbind option_bind].
  destruct (save_levels_ok 0 (files_ base) (levels_ b) (vs_files s) (all_files s xs ++ builder_files b ++ rest)) as (res & fs & Es & Hlr & Hr & Hc).
  - by rewrite Hl, Hlv.
  - intros i f st Hi Hst. by apply Hb.
  - intros f Hf. apply elem_of_app. left. apply list_elem_of_split in Hin as (l1 & l2 & ->).
    rewrite all_files_split. unfold version_files. rewrite E. set_solver.
  - unfold builder_files. set_solver.
  - apply H.
  - assert (files_ Version_make = replicate (length (files_ base)) []) as -> by (by rewrite Hl). rewrite Es. cbn [mbind option_bind].
    exists fs, (with_files Version_make res). split; [done|]. split; [done|]. split; [cbn [files_ with_files]; by rewrite Hlr|]. split; [exact Hr|].
    apply (pending_put _ _ _ _ _ Version_make); [|done|done].
    split; [apply H|apply H|apply H|]. cbn [with_vs_files with_versions vs_files files_ with_files].
    rewrite (all_files_same s) by done. revert Hc. apply files_counted_perm. rewrite !app_assoc.
    do 2 apply Permutation_app_tail. apply Permutation_app_comm.
Qed.

Lemma Builder_delete_ok s xs ext rest b :
  vs_ok s xs ext (builder_files b ++ rest) -> base_ b ∈ xs ->
  exists l m fs xs', Builder_delete s b = Some (with_versions s l m fs)
    /\ vs_ok (with_versions s l m fs) xs' (bump_ref ext (base_ b) (-1)) rest
    /\ (forall x, x ∈ xs' -> x ∈ xs) /\ (forall x, x ∈ xs -> x <> base_ b \/ 1 < ext (base_ b) -> x ∈ xs')
    /\ (forall x, x <> base_ b -> m !! x = vs_versions s !! x)
    /\ (1 < ext (base_ b) -> xs' = xs /\ l = vs_links s
        /\ exists v, vs_versions s !! base_ b = Some v /\ m !! base_ b = Some (with_version_refs v (refs_ v - 1))).
Proof.
  intros H Hin. unfold Builder_delete.
  assert (files_counted (vs_files s) (builder_files b ++ all_files s xs ++ rest)) as Hf.
  { generalize (ok_files _ _ _ _ H). apply files_counted_perm. rewrite !app_assoc. apply Permutation_app_tail, Permutation_app_comm. }
  destruct (drop_files_ok false _ _ _ Hf) as (fs0 & Ed & Hf'). unfold builder_files in Ed. rewrite Ed. cbn [mbind option_bind].
  assert (vs_ok (with_vs_files s fs0) xs ext rest) as H0.
  { split; [apply H|apply H|apply H|]. by rewrite (all_files_same s). }
  destruct (Version_Unref_ok (with_vs_files s fs0) xs ext rest (base_ b) H0 Hin) as (l & m & fs & xs' & -> & Hok & Hs1 & Hs2 & Hm & Hm').
  exists l, m, fs, xs'. split; [done|]. split; [done|]. done.
Qed.

(** ** Edits one after the other *)

(** The numbers that a sequence of edits leaves deleted at a level, the files it
    adds, and those of them that stay. *)
Definition hist_del (i : nat) (H : list VersionEdit) : gset Z :=
  fold_left (fun D e => (edit_del i e ∪ D) ∖ list_to_set (number <$> edit_new i e)) H ∅.
Definition hist_new (i : nat) (H : list VersionEdit) : list FileMetaData := concat (edit_new i <$> H).
Definition hist_live (i : nat) (H : list VersionEdit) : list FileMetaData :=
  filter (fun m => number m ∉ hist_del i H) (hist_new i H).

(** No number is added to a level twice. *)
Definition hist_ok (H : list VersionEdit) : Prop := Forall edit_fine H /\ forall i, NoDup (number <$> hist_new i H).

(** The files that stay in a level above 0 are apart. *)
Definition hist_apart (H : list VersionEdit) : Prop :=
  forall i files, (0 < i)%nat -> in_order files -> f_meta <$> files ≡ₚ hist_live i H -> apart files.

Lemma hist_del_snoc i H e : hist_del i (H ++ [e]) = (edit_del i e ∪ hist_del i H) ∖ list_to_set (number <$> edit_new i e).
Proof. unfold hist_del. by rewrite fold_left_app. Qed.

Lemma hist_new_snoc i H e : hist_new i (H ++ [e]) = hist_new i H ++ edit_new i e.
Proof. unfold hist_new. rewrite fmap_app, concat_app. cbn [fmap list_fmap concat]. by rewrite app_nil_r. Qed.

Lemma hist_new_app i H1 H2 : hist_new i (H1 ++ H2) = hist_new i H1 ++ hist_new i H2.
Proof. unfold hist_new. by rewrite fmap_app, concat_app. Qed.

Lemma hist_del_app i H1 H2 x :
  x ∈ hist_del i (H1 ++ H2) <-> x ∈ hist_del i H2 \/ (x ∈ hist_del i H1 /\ x ∉ (number <$> hist_new i H2)).
Proof.
  induction H2 as [|e H2 IH] using rev_ind.
  - rewrite app_nil_r. cbn. set_solver.
  - rewrite app_assoc, !hist_del_snoc, hist_new_snoc, fmap_app, !elem_of_difference, !elem_of_union, !elem_of_list_to_set, elem_of_app. tauto.
Qed.

Lemma hist_ok_new i H1 H2 : hist_ok (H1 ++ H2) ->
  NoDup (number <$> hist_new i H1) /\ NoDup (number <$> hist_new i H2)
  /\ forall m, m ∈ hist_new i H1 -> number m ∉ (number <$> hist_new i H2).
Proof.
  intros [_ Hn]. specialize (Hn i). rewrite hist_new_app, fmap_app in Hn. apply NoDup_app in Hn as (N1 & N2 & N3). split_and!; [done|done|].
  intros m Hm. apply N2. by apply list_elem_of_fmap_2.
Qed.

Lemma filter_ext_in {A} (P Q : A -> Prop) `{!forall x, Decision (P x), !forall x, Decision (Q x)} (l : list A) :
  (forall x, x ∈ l -> P x <-> Q x) -> filter P l = filter Q l.
Proof.
  induction l as [|x l IH]; intros Hpq; [done|]. rewrite !filter_cons.
  rewrite IH by (intros y Hy; apply Hpq; by right). pose proof (Hpq x ltac:(left)) as Hx.
  destruct (decide (P x)), (decide (Q x)); tauto || done.
Qed.

(** Applying edits to what stays of the ones before gives what stays of all. *)
Lemma hist_live_app i H1 H2 :
  hist_ok (H1 ++ H2) -> hist_live i (H1 ++ H2) = filter (fun m => number m ∉ hist_del i H2) (hist_live i H1 ++ hist_new i H2).
Proof.
  intros Hok. destruct (hist_ok_new i H1 H2 Hok) as (_ & _ & Hdis). unfold hist_live at 1. rewrite hist_new_app, !filter_app. f_equal.
  - unfold hist_live. rewrite list_filter_filter. apply filter_ext_in. intros m Hm. rewrite hist_del_app. specialize (Hdis m Hm). tauto.
  - apply filter_ext_in. intros m Hm. rewrite hist_del_app.
    assert (number m ∈ (number <$> hist_new i H2)) by (by apply list_elem_of_fmap_2). tauto.
Qed.

(** The levels [levels] are what the edits [H] make of no files. *)
Definition stands_for (levels : list (list FileRef)) (H : list VersionEdit) : Prop :=
  length levels = Z.to_nat kNumLevels
  /\ forall i files, levels !! i = Some files -> in_order files /\ f_meta <$> files ≡ₚ hist_live i H /\ ((0 < i)%nat -> apart files).

Lemma in_order_unique l1 l2 : in_order l1 -> in_order l2 -> f_meta <$> l1 ≡ₚ f_meta <$> l2 -> f_meta <$> l1 = f_meta <$> l2.
Proof.
  intros (R1 & _ & S1) (R2 & _ & S2).
  set (mlt (x y : FileMetaData) := file_lt {| f_addr := 0; f_meta := x |} {| f_addr := 0; f_meta := y |}).
  assert (forall l, Forall range_ok l -> StronglySorted file_lt l -> StronglySorted mlt (f_meta <$> l)) as Hmap.
  { intros l _ Hs. induction Hs as [|f l Hs IH Hall]; cbn; constructor; [done|]. apply Forall_fmap. apply (Forall_impl _ _ _ Hall). done. }
  apply (StronglySorted_unique_strong mlt); [|by apply Hmap|by apply Hmap].
  intros x y (f & -> & Hf)%list_elem_of_fmap (g & -> & Hg)%list_elem_of_fmap Hxy Hyx. exfalso.
  apply (file_lt_asym {| f_addr := 0; f_meta := f_meta f |} {| f_addr := 0; f_meta := f_meta g |}); [| |done|done].
  - apply (proj1 (Forall_forall _ _) R1 f Hf).
  - apply (proj1 (Forall_forall _ _) R2 g Hg).
Qed.

(** What the levels hold, without the addresses. *)
Definition metas (levels : list (list FileRef)) : list (list FileMetaData) := (fun files : list FileRef => f_meta <$> files) <$> levels.

(** Two versions that stand for the same edits have the same files. *)
Lemma stands_for_unique l1 l2 H : stands_for l1 H -> stands_for l2 H -> metas l1 = metas l2.
Proof.
  intros [L1 H1] [L2 H2]. unfold metas. apply list_eq_same_length with (length l1); rewrite ?length_fmap; [congruence|done|].
  intros i x y _ Hx Hy. rewrite list_lookup_fmap in Hx, Hy. apply fmap_Some in Hx as (f & Hf & ->). apply fmap_Some in Hy as (g & Hg & ->).
  destruct (H1 i f Hf) as (O1 & P1 & _). destruct (H2 i g Hg) as (O2 & P2 & _). apply in_order_unique; [done|done|by rewrite P1, P2].
Qed.

(** The builder has the edits [H] applied. *)
Definition builder_holds (b : Builder) (H : list VersionEdit) : Prop :=
  length (levels_ b) = Z.to_nat kNumLevels
  /\ forall i st, levels_ b !! i = Some st ->
    ls_deleted_files st = hist_del i H /\ f_meta <$> ls_added_files st ≡ₚ hist_new i H /\ in_order (ls_added_files st).

Lemma builder_holds_ready b H e : builder_holds b H -> hist_ok (H ++ [e]) -> builder_ready b e.
Proof.
  intros [Hl Hb] [_ Hn]. split; [done|]. intros i st Hi. destruct (Hb i st Hi) as (_ & Hp & Ho). split; [done|].
  specialize (Hn i). rewrite hist_new_snoc in Hn. by rewrite fmap_app, Hp, <- fmap_app.
Qed.

Lemma kept_metas D l : f_meta <$> kept D l = filter (fun m => number m ∉ D) (f_meta <$> l).
Proof.
  unfold kept, f_number. induction l as [|f l IH]; [done|]. cbn [fmap list_fmap]. rewrite !filter_cons.
  destruct (decide (number (f_meta f) ∉ D)); cbn [fmap list_fmap]; by rewrite IH.
Qed.

Lemma StronglySorted_filter {A} (lt : A -> A -> Prop) (P : A -> Prop) `{!forall x, Decision (P x)} (l : list A) :
  StronglySorted lt l -> StronglySorted lt (filter P l).
Proof.
  induction 1 as [|x l Hs IH Hall]; [constructor|]. rewrite filter_cons. destruct (decide (P x)); [|done]. constructor; [done|].
  apply Forall_forall. intros y [_ Hy]%list_elem_of_filter. by apply (proj1 (Forall_forall _ _) Hall).
Qed.

Lemma in_order_kept D l : in_order l -> in_order (kept D l).
Proof.
  intros (Hr & Hn & Hs). split; [|split; [|by apply StronglySorted_filter]].
  - apply Forall_forall. intros f [_ Hf]%list_elem_of_filter. by apply (proj1 (Forall_forall _ _) Hr).
  - clear Hr Hs. unfold kept. induction l as [|f l IH]; [constructor|]. cbn in Hn. apply NoDup_cons in Hn as [Hf Hn].
    rewrite filter_cons. destruct (decide _); [|by apply IH]. cbn. apply NoDup_cons. split; [|by apply IH].
    intros (g & Eg & [_ Hg]%list_elem_of_filter)%list_elem_of_fmap. apply Hf. rewrite Eg. by apply list_elem_of_fmap_2.
Qed.

(** The files of a level that is built over a base. *)
Lemma built_metas i st base result H Hb :
  built st base result -> ls_deleted_files st = hist_del i Hb -> f_meta <$> ls_added_files st ≡ₚ hist_new i Hb ->
  f_meta <$> base ≡ₚ hist_live i H ->
  in_order result /\ f_meta <$> result ≡ₚ filter (fun m => number m ∉ hist_del i Hb) (hist_live i H ++ hist_new i Hb).
Proof.
  intros (merged & Hp & Ho & ->) Ed Ha Hbase. split; [by apply in_order_kept|]. rewrite kept_metas, Hp, fmap_app, Ed. by rewrite Hbase, Ha.
Qed.


Lemma builder_holds_apply b b' H e :
  builder_holds b H -> length (levels_ b') = Z.to_nat kNumLevels ->
  (forall i st, levels_ b !! i = Some st -> exists st', levels_ b' !! i = Some st'
     /\ ls_deleted_files st' = (edit_del i e ∪ ls_deleted_files st) ∖ list_to_set (number <$> edit_new i e)
     /\ f_meta <$> ls_added_files st' ≡ₚ (f_meta <$> ls_added_files st) ++ edit_new i e /\ in_order (ls_added_files st')) ->
  builder_holds b' (H ++ [e]).
Proof.
  intros [Hl Hb] Hl' Hs. split; [done|]. intros i st' Hi.
  destruct (lookup_lt_is_Some_2 (levels_ b) i) as [st Hst]; [apply lookup_lt_Some in Hi; lia|].
  destruct (Hs i st Hst) as (st2 & E2 & Hd & Ha & Ho). replace st' with st2 by congruence. destruct (Hb i st Hst) as (Hd1 & Ha1 & _).
  rewrite hist_del_snoc, hist_new_snoc, Hd, Ha, Hd1, Ha1. done.
Qed.

Lemma builder_new_holds b :
  length (levels_ b) = Z.to_nat kNumLevels ->
  (forall i st, levels_ b !! i = Some st -> st = {| ls_deleted_files := ∅; ls_added_files := [] |}) -> builder_holds b [].
Proof.
  intros Hl Hb. split; [done|]. intros i st Hi. rewrite (Hb i st Hi). split_and!; [done|done|]. split; [constructor|]. split; constructor.
Qed.

Lemma hist_live_in i H m : m ∈ hist_live i H -> m ∈ hist_new i H.
Proof. by intros [_ ?]%list_elem_of_filter. Qed.

(** What is built on a version is what its edits and those of the builder leave. *)
Lemma SaveTo_stands s xs ext rest b a base H1 H2 :
  vs_ok s xs ext (builder_files b ++ rest) -> pending s xs a Version_make -> base_ b ∈ xs -> vs_versions s !! base_ b = Some base ->
  stands_for (files_ base) H1 -> builder_holds b H2 -> hist_ok (H1 ++ H2) -> hist_apart (H1 ++ H2) ->
  exists fs v, SaveTo s b a = Some (put_version (with_vs_files s fs) a v) /\ refs_ v = 0 /\ stands_for (files_ v) (H1 ++ H2)
    /\ vs_ok (put_version (with_vs_files s fs) a v) xs ext (concat (files_ v) ++ builder_files b ++ rest)
    /\ pending (put_version (with_vs_files s fs) a v) xs a v.
Proof.
  intros Hok Hp Hin E [L1 S1] [L2 S2] Hh Hap.
  assert (forall i fs st r, files_ base !! i = Some fs -> levels_ b !! i = Some st -> built st fs r ->
    in_order r /\ f_meta <$> r ≡ₚ hist_live i (H1 ++ H2)) as Hbuilt.
  { intros i fs st r Hi Hst Hr. destruct (S1 i fs Hi) as (_ & P1 & _). destruct (S2 i st Hst) as (D2 & P2 & _).
    rewrite hist_live_app by done. by apply (built_metas i st fs r H1 H2). }
  destruct (SaveTo_ok s xs ext rest b a base Hok Hp Hin E L1 L2) as (fs & v & Es & Hz & Hl & Hr & Hok' & Hp').
  { intros i fs st Hi Hst. destruct (S1 i fs Hi) as (O1 & P1 & _). destruct (S2 i st Hst) as (D2 & P2 & O2). split_and!; [done|done| |].
    - intros f Hf (g & Eg & Hg)%list_elem_of_fmap. destruct (hist_ok_new i H1 H2 Hh) as (_ & _ & Hdis).
      apply (Hdis (f_meta g)).
      + apply hist_live_in. rewrite <- P1. by apply list_elem_of_fmap_2.
      + unfold f_number in Eg. rewrite <- Eg, <- P2. by do 2 apply list_elem_of_fmap_2.
    - intros Hpos r Hr. destruct (Hbuilt i fs st r Hi Hst Hr) as [Ho Hm]. by apply (Hap i); [lia|..]. }
  exists fs, v. split_and!; [done|done| |done|done]. split; [done|]. intros i r Hi.
  destruct (lookup_lt_is_Some_2 (files_ base) i) as [f Hf]; [apply lookup_lt_Some in Hi; lia|].
  destruct (lookup_lt_is_Some_2 (levels_ b) i) as [st Hst]; [apply lookup_lt_Some in Hi; lia|].
  destruct (Hbuilt i f st r Hf Hst (Hr i f st r Hf Hst Hi)) as [Ho Hm]. split_and!; [done|done|]. intros Hpos. by apply (Hap i).
Qed.

Lemma Finalize_files v : files_ (Finalize v) = files_ v /\ refs_ (Finalize v) = refs_ v.
Proof. unfold Finalize. by destruct (finalize_loop _ _ _ _). Qed.
End Order.
