(* ===== verification/LdbManifestThms.v ===== *)
(** leveldb: what the manifest keeps, [LogAndApply] and [Recover].

    A version stands for a sequence of edits; the manifest is the log of edits
    that the current version stands for, so that a new set recovers it. *)
From stdpp Require Import base numbers option strings gmap sorting sets list.
From S2P Require Import Prelude Varint LdbSlice LdbFilename LdbComparator LdbDbformat LdbEnv LdbLogWriter LdbLogReader LdbLogThms LdbVersionEdit LdbFormat LdbTable LdbRing LdbVersion LdbVersionThms LdbVersionSet LdbVersionSetThms LdbManifest.
Open Scope Z_scope.

(** * Names *)
Definition manifest_base (n : Z) : bytes := str "MANIFEST-" ++ decimal06 n.

Lemma DescriptorFileName_base dbname n : DescriptorFileName dbname n = dbname ++ str "/" ++ manifest_base n.
Proof. done. Qed.

Lemma Temp_not_Current dbname n : TempFileName dbname n <> CurrentFileName dbname.
Proof.
  unfold TempFileName, MakeFileName, CurrentFileName. intros H%(f_equal last). rewrite !last_app in H. cbn in H. discriminate.
Qed.

Lemma Descriptor_not_Current dbname n : DescriptorFileName dbname n <> CurrentFileName dbname.
Proof. intros H%app_inv_head. discriminate. Qed.

Lemma Descriptor_not_Temp dbname n m : in_uint 64 m -> DescriptorFileName dbname n <> TempFileName dbname m.
Proof.
  intros Hm H%app_inv_head. destruct (decimal06_digits m Hm) as (Hd & _ & Hne). destruct (decimal06 m) as [|d l]; [done|].
  apply Forall_cons in Hd as [Hd _].
  apply (f_equal (fun b => b !! 1%nat)) in H. change (Some 77 = Some d) in H. injection H as <-. by destruct Hd.
Qed.

(** * A log whose file is a handle *)
Section Handle.
Context {E Sq R : Type} {EV : Env E Sq R} {SF : SequentialFile Sq} {RF : RandomAccessFile R}.
Context {names : E -> gmap bytes bytes} {opened : E -> gmap Z OpenFile} {unread : Sq -> bytes} {reliable : Sq -> bool} {readable : E -> Prop}.
Context {EL : EnvLaw names opened unread reliable readable}.

(** The handle writes the file [n], whatever it holds now. *)
Definition linked (e : E) (h : Z) (n data : bytes) (idle : bool) : Prop :=
  opened e !! h = Some {| of_name := n; of_data := data; of_idle := idle |} /\ names e !! n = Some data.

Definition only_file (n : bytes) (f f' : E * Z) : Prop :=
  f'.2 = f.2 /\ forall data idle, linked f.1 f.2 n data idle -> exists data' idle',
    opened f'.1 = <[f.2 := {| of_name := n; of_data := data'; of_idle := idle' |}]> (opened f.1)
    /\ names f'.1 = <[n := data']> (names f.1).

Lemma only_file_refl n f : only_file n f f.
Proof. split; [done|]. intros data idle [H1 H2]. exists data, idle. by rewrite !insert_id. Qed.

Lemma only_file_trans n f g h : only_file n f g -> only_file n g h -> only_file n f h.
Proof.
  intros [E1 H1] [E2 H2]. split; [congruence|]. intros data idle Hl. destruct (H1 data idle Hl) as (d & x & Ho & Hn).
  rewrite E1 in H2. destruct (H2 d x) as (d' & x' & Ho' & Hn').
  - split; [rewrite Ho|rewrite Hn]; apply lookup_insert_eq.
  - exists d', x'. by rewrite Ho', Ho, Hn', Hn, !insert_insert_eq.
Qed.

Lemma wrote_only_file n e h e' : wrote names opened e h e' -> only_file n (e, h) (e', h).
Proof.
  intros H. split; [done|]. intros data idle [Ho Hn]. destruct (H _ Ho) as (d & x & H1 & H2). exists d, x. cbn in *.
  by rewrite decide_True in H2.
Qed.

(** The log is at the end of its file [n], which holds [data]. *)
Definition log_at (e : E) (log : Writer Z) (n data : bytes) : Prop :=
  shown names opened e (dest_ log) n data /\ writer_at log (zlen data).

Lemma log_AddRecord_ok e log n data record :
  log_at e log n data -> Forall is_byte record ->
  exists s e' log', log_AddRecord e log record = Some (s, e', log') /\ dest_ log' = dest_ log
    /\ exists data' idle, opened e' = <[dest_ log := {| of_name := n; of_data := data'; of_idle := idle |}]> (opened e)
      /\ names e' = <[n := data']> (names e)
      /\ (if Status_ok s then idle = true /\ data' = data ++ log_record (zlen data) record /\ writer_at log' (zlen data') else True).
Proof.
  intros [[Ho Hn] [W1 W2 W3]] Hr. unfold log_AddRecord.
  set (w := {| dest_ := (e, dest_ log); block_offset_ := block_offset_ log; type_crc_ := type_crc_ log |}).
  assert (writer_at w (zlen data)) as Hw by done.
  assert (handle_data opened (dest_ w) = data) as Hd by (unfold handle_data; cbn; by rewrite Ho).
  assert (handle_idle opened (dest_ w) = true) as Hf by (unfold handle_idle; cbn; by rewrite Ho).
  destruct (AddRecord_ok w (zlen data) 0 record Hw ltac:(lia) Hr Hf) as (s & w' & Ea & Hw' & Hc). rewrite Ea. cbn [mbind option_bind].
  apply (AddRecord_kept (only_file n)) in Ea.
  - destruct Ea as [E2 Hk]. destruct (Hk data true (conj Ho Hn)) as (d & x & H1 & H2). cbn in *.
    eexists _, _, _. split; [done|]. split; [done|]. exists d, x. split; [done|]. split; [done|].
    rewrite Hd in Hc. unfold appended in Hc. destruct (Status_ok s); [|done]. destruct Hc as [Hc1 Hc2].
    unfold handle_idle, handle_data in Hc1, Hc2. rewrite E2, H1, lookup_insert_eq in Hc1, Hc2. cbn in Hc1, Hc2. subst.
    split_and!; [done|done|]. rewrite zlen_app. destruct Hw' as [V1 V2 V3]. by split.
  - apply only_file_refl.
  - apply only_file_trans.
  - intros [e0 h] d. apply wrote_only_file. apply (env_append _ _ (EnvLaw := EL)).
  - intros [e0 h]. apply wrote_only_file. apply (env_flush _ _ (EnvLaw := EL)).
Qed.

Lemma only_file_written n e h e' data :
  only_file n (e, h) (e', h) -> linked e h n data true -> exists data' idle',
    linked e' h n data' idle' /\ data' = handle_data opened (e', h) /\ opened e' = <[h := {| of_name := n; of_data := data'; of_idle := idle' |}]> (opened e)
    /\ names e' = <[n := data']> (names e).
Proof.
  intros [_ H] Hl. destruct (H data true Hl) as (d & x & Ho & Hn). cbn in Ho, Hn. exists d, x. unfold linked, handle_data. cbn [fst snd].
  rewrite Ho, Hn, !lookup_insert_eq. done.
Qed.

(** A file is written whole, or nothing of it is left; no other file is touched. *)
Lemma DoWriteStringToFile_ok e data fname sync s e' :
  DoWriteStringToFile e data fname sync = (s, e') -> not_open opened e fname ->
  opened e' = opened e /\ (forall n, n <> fname -> names e' !! n = names e !! n)
  /\ (Status_ok s = true -> names e' = <[fname := data]> (names e)).
Proof.
  intros H Hno. unfold DoWriteStringToFile in H. destruct (NewWritableFile e fname) as [[s0 f] e0] eqn:E0.
  apply (env_new_writable _ _ (EnvLaw := EL)) in E0; [|done]. destruct (Status_ok s0) eqn:Es0.
  2:{ destruct E0 as (-> & Hn & Ho). injection H as <- <-. rewrite Hn, Ho. by rewrite Es0. }
  destruct E0 as (a & -> & Ha & Ho0 & Hn0). cbn [negb] in H. rewrite ?Es0 in H. cbn [negb] in H.
  assert (linked e0 a fname [] true) as Hl0 by (split; [rewrite Ho0|rewrite Hn0]; apply lookup_insert_eq).
  destruct (File_Append e0 a data) as [s1 e1] eqn:E1.
  assert (only_file fname (e0, a) (e1, a)) as K1.
  { apply wrote_only_file. pose proof (env_append _ _ (EnvLaw := EL) e0 a data) as K. by rewrite E1 in K. }
  assert (Status_ok s1 = true -> handle_data opened (e1, a) = data) as D1.
  { intros Hs. pose proof (Append_ok (WritableFileLaw := env_handles _ _ (EnvLaw := EL)) (e0, a) data s1 (e1, a)) as K. cbn in K. unfold on_handle in K.
    rewrite E1 in K. destruct Hl0 as [Hl0 _]. unfold handle_data in K. cbn [fst snd] in K. rewrite Hl0 in K.
    exact (K eq_refl Hs). }
  set (r2 := if Status_ok s1 && sync then File_Sync e1 a else (s1, e1)) in H. destruct r2 as [s2 e2] eqn:E2. subst r2.
  assert (only_file fname (e0, a) (e2, a) /\ (Status_ok s2 = true -> handle_data opened (e2, a) = data)) as [K2 D2].
  { destruct (Status_ok s1) eqn:Es1; [destruct sync|]; cbn [andb] in E2; [|by injection E2 as <- <-; rewrite ?Es1|by injection E2 as <- <-; rewrite ?Es1]. split.
    - apply (only_file_trans _ _ (e1, a)); [done|]. apply wrote_only_file. pose proof (env_sync _ _ (EnvLaw := EL) e1 a) as K. by rewrite E2 in K.
    - intros Hs. destruct (env_same _ _ (EnvLaw := EL) e1 a s2 e2) as [-> _]; [by right|done|by apply D1]. }
  set (r3 := if Status_ok s2 then File_Close e2 a else (s2, e2)) in H. destruct r3 as [s3 e3] eqn:E3. subst r3.
  assert (only_file fname (e0, a) (e3, a) /\ (Status_ok s3 = true -> handle_data opened (e3, a) = data)) as [K3 D3].
  { destruct (Status_ok s2) eqn:Es2; [|by injection E3 as <- <-; rewrite ?Es2]. split.
    - apply (only_file_trans _ _ (e2, a)); [done|]. apply wrote_only_file. pose proof (env_close _ _ (EnvLaw := EL) e2 a) as K. by rewrite E3 in K.
    - intros Hs. destruct (env_same _ _ (EnvLaw := EL) e2 a s3 e3) as [-> _]; [by left|done|by apply D2]. }
  clear E1 E2 E3. destruct (only_file_written fname e0 a e3 [] K3 Hl0) as (d & x & _ & Ed & Ho3 & Hn3).
  destruct (env_delete_handle _ _ (EnvLaw := EL) e3 a) as [Hn4 Ho4].
  rewrite Ho3, Ho0, insert_insert_eq, delete_insert_id in Ho4 by done. rewrite Hn3, Hn0, insert_insert_eq in Hn4.
  assert (forall n, n <> fname -> names (File_delete e3 a) !! n = names e !! n) as Hother by (intros n Hn; rewrite Hn4; by apply lookup_insert_ne).
  destruct (Status_ok s3) eqn:Es3; injection H as <- <-.
  - split_and!; [done|done|]. intros _. rewrite Hn4, Ed. by rewrite D3.
  - destruct (Env_DeleteFile (File_delete e3 a) fname) as [s4 e4] eqn:E4. apply (env_remove _ _ (EnvLaw := EL)) in E4 as [Ho5 Hn5]. cbn [snd].
    split_and!; [by rewrite Ho5| |by rewrite Es3]. intros n Hn. rewrite Hn5. destruct (Status_ok s4); [rewrite lookup_delete_ne by done|]; by apply Hother.
Qed.

(** [CURRENT] names the manifest, or is as it was. *)
Lemma SetCurrentFile_ok e dbname n :
  not_open opened e (TempFileName dbname n) -> not_open opened e (CurrentFileName dbname) ->
  exists s e', SetCurrentFile e dbname n = Some (s, e') /\ opened e' = opened e
    /\ (forall f, f <> CurrentFileName dbname -> f <> TempFileName dbname n -> names e' !! f = names e !! f)
    /\ names e' !! CurrentFileName dbname = if Status_ok s then Some (manifest_base n ++ [10]) else names e !! CurrentFileName dbname.
Proof.
  intros Ht Hc. unfold SetCurrentFile. pose proof (Temp_not_Current dbname n) as Hne.
  set (p := dbname ++ str "/").
  assert (DescriptorFileName dbname n = p ++ manifest_base n) as -> by (unfold p; by rewrite <- app_assoc).
  rewrite starts_with_app. replace (zlen dbname + 1) with (zlen p) by (unfold p; rewrite zlen_app; done).
  rewrite Slice_remove_prefix_app. cbn [mbind option_bind]. unfold WriteStringToFileSync.
  destruct (DoWriteStringToFile e (manifest_base n ++ [10]) (TempFileName dbname n) true) as [s1 e1] eqn:E1.
  apply DoWriteStringToFile_ok in E1 as (Ho1 & Hn1 & Hd1); [|done].
  assert (not_open opened e1 (TempFileName dbname n) /\ not_open opened e1 (CurrentFileName dbname)) as [Ht1 Hc1] by (unfold not_open; by rewrite Ho1).
  destruct (Status_ok s1) eqn:Es1.
  - destruct (RenameFile e1 _ _) as [s2 e2] eqn:E2. apply (env_rename _ _ (EnvLaw := EL)) in E2 as [Ho2 Hn2]; [|done..]. destruct (Status_ok s2) eqn:Es2.
    + destruct Hn2 as (c & Ec & Hn2). eexists _, _. split; [done|]. rewrite Es2. rewrite Hd1, lookup_insert_eq in Ec by done. injection Ec as <-.
      split; [congruence|]. split.
      * intros f Hf1 Hf2. rewrite Hn2, lookup_insert_ne, lookup_delete_ne by done. by apply Hn1.
      * rewrite Hn2. apply lookup_insert_eq.
    + destruct (Env_DeleteFile e2 _) as [s3 e3] eqn:E3. apply (env_remove _ _ (EnvLaw := EL)) in E3 as [Ho3 Hn3]. eexists _, _. split; [done|]. rewrite Es2. cbn [snd].
      assert (forall f, f <> TempFileName dbname n -> names e3 !! f = names e !! f) as Hother.
      { intros f Hf. rewrite Hn3. destruct (Status_ok s3); [rewrite lookup_delete_ne by done|]; rewrite Hn2; by apply Hn1. }
      split; [congruence|]. split; [intros; by apply Hother|]. by apply Hother.
  - rewrite Es1. destruct (Env_DeleteFile e1 _) as [s3 e3] eqn:E3. apply (env_remove _ _ (EnvLaw := EL)) in E3 as [Ho3 Hn3]. eexists _, _. split; [done|].
    rewrite Es1. cbn [snd]. assert (forall f, f <> TempFileName dbname n -> names e3 !! f = names e !! f) as Hother.
    { intros f Hf. rewrite Hn3. destruct (Status_ok s3); [rewrite lookup_delete_ne by done|]; by apply Hn1. }
    split; [congruence|]. split; [intros; by apply Hother|]. by apply Hother.
Qed.

Lemma read_file_loop_ok fuel (file : Sq) data :
  reliable file = true -> (length (unread file) < fuel)%nat -> read_file_loop fuel file data = Some (Status_OK, data ++ unread file).
Proof.
  pose proof (env_sequential _ _ (EnvLaw := EL)) as SL.
  revert file data. induction fuel as [|fuel IH]; intros file data Hrel Hf; [lia|]. cbn [read_file_loop].
  destruct (Read file kBufferSize 0) as [[st [a d]] file'] eqn:Er. destruct (Read_reliable _ _ _ _ _ _ _ Er ltac:(done) Hrel) as (Hs & Hrel' & Ed & Eu).
  rewrite Hs. cbn [negb snd]. case_bool_decide as Hd.
  - assert (unread file = []) as ->.
    { subst d. destruct (unread file) as [|x l]; [done|]. exfalso. revert Hd. change kBufferSize with 8192. destruct (Z.to_nat 8192) eqn:En; [lia|done]. }
    rewrite Hd. by destruct st.
  - rewrite (IH file' _ Hrel'); [|].
    + rewrite Eu, Ed, <- app_assoc, take_drop. done.
    + rewrite Eu, length_drop. assert (d <> []) as Hd' by done. rewrite Ed in Hd'. destruct (unread file) as [|x l]; [by rewrite take_nil in Hd'|].
      cbn [length] in *. change kBufferSize with 8192. lia.
Qed.

Lemma ReadFileToString_ok fuel e n c :
  readable e -> names e !! n = Some c -> (length c < fuel)%nat -> ReadFileToString fuel e n = Some (Status_OK, c).
Proof.
  intros Hr Hn Hf. destruct (env_read _ _ (EnvLaw := EL) e n c Hr Hn) as (f & Ef & Eu & Hrel). unfold ReadFileToString. rewrite Ef. cbn [Status_ok Status_OK].
  rewrite read_file_loop_ok; [by rewrite Eu|done|by rewrite Eu].
Qed.
End Handle.

(** ** How much fuel is enough *)
Lemma frame_length n pos b data : 0 <= pos -> enough n pos data -> zlen data + 7 <= zlen (frame n pos b data).
Proof.
  revert pos b data. induction n as [|n IH]; intros pos b data Hp Hn.
  { unfold enough in Hn. destruct (_ =? 0); lia. }
  cbn [frame]. cbv zeta. destruct (Z.leb_spec (zlen data) (block_room (pos + zlen (trailer pos)))) as [Hle|Hgt].
  - rewrite zlen_app, zlen_phys. lia.
  - destruct (room_spec pos Hp) as [Hroom _]. destruct (enough_step n pos data Hp Hn Hgt) as (Ez & _ & Hn'). rewrite Ez in Hn'.
    set (avail := block_room (pos + zlen (trailer pos))) in *. set (first := trailer pos ++ phys (record_type b false) _).
    assert (zlen first = zlen (trailer pos) + 7 + avail) as El by (unfold first; rewrite zlen_app, zlen_phys, length_take; lia).
    rewrite <- El in Hn'. specialize (IH (pos + zlen first) false _ ltac:(lia) Hn'). rewrite length_drop in IH. rewrite zlen_app. lia.
Qed.

Lemma log_record_length pos d : 0 <= pos -> (length d + 7 <= length (log_record pos d))%nat.
Proof. intros Hp. pose proof (frame_length _ pos true d Hp (enough_record pos d)). unfold log_record. lia. Qed.

Lemma log_bytes_length pos rs :
  0 <= pos -> Forall (fun d => length d + 7 <= length (log_bytes pos rs))%nat rs /\ (length rs <= length (log_bytes pos rs))%nat.
Proof.
  revert pos. induction rs as [|d rs IH]; intros pos Hp; [done|]. cbn [log_bytes length]. cbv zeta. rewrite length_app.
  pose proof (log_record_length pos d Hp). destruct (IH (pos + zlen (log_record pos d)) ltac:(lia)) as [H1 H2]. split; [|lia].
  constructor; [lia|]. apply (Forall_impl _ _ _ H1). cbn. lia.
Qed.

Section Order.
Context {U : Comparator} {uvalid : bytes -> Prop} {uorder : bytes -> bytes -> Z} {UL : ComparatorLaw U uvalid uorder}.
#[local] Abbreviation edit_fine := (edit_fine (uvalid := uvalid) (uorder := uorder)).
#[local] Abbreviation stands_for := (stands_for (uvalid := uvalid) (uorder := uorder)).
#[local] Abbreviation hist_ok := (hist_ok (uvalid := uvalid) (uorder := uorder)).
#[local] Abbreviation hist_apart := (hist_apart (uvalid := uvalid) (uorder := uorder)).
#[local] Abbreviation builder_holds := (builder_holds (uvalid := uvalid) (uorder := uorder)).
#[local] Existing Instance ikey_CompareLaw.

(** * A new version *)

(** The current version of [s] is [v] at [c], and stands for [H]. *)
Record current_is (s : VersionSet) (xs : list Z) (ext : Z -> Z) (extra : list FileRef) (c : Z) (v : Version) (H : list VersionEdit) : Prop := {
  cu_ok : vs_ok s xs ext extra;
  cu_current : vs_current s = Some c;
  cu_in : c ∈ xs;
  cu_version : vs_versions s !! c = Some v;
  cu_stands : stands_for (files_ v) H;
  cu_pointers : pointers_ok s
}.

Lemma hist_ok_last H e : hist_ok (H ++ [e]) -> edit_fine e.
Proof. intros [Hf _]. apply Forall_app in Hf as [_ Hf]. by apply Forall_cons in Hf as [? _]. Qed.

Lemma hist_ok_app H1 H2 : hist_ok (H1 ++ H2) -> hist_ok H1.
Proof. intros Hh. pose proof Hh as [Hf _]. apply Forall_app in Hf as [Hf _]. split; [done|]. intros i. by destruct (hist_ok_new i H1 H2 Hh). Qed.

(** [current_is] after [n] was added to the pending version at [a]. *)
Lemma Finalize_pending s xs ext extra a v :
  vs_ok s xs ext extra -> pending s xs a v ->
  vs_ok (put_version s a (Finalize v)) xs ext extra /\ pending (put_version s a (Finalize v)) xs a (Finalize v).
Proof.
  intros Hok Hp. apply (pending_put s xs ext extra a v); [done|done|]. destruct (Finalize_files v) as [_ ->]. by destruct Hp as (_ & ? & _).
Qed.

Lemma build_version_ok s xs ext extra c v H e a addrs :
  current_is s xs ext extra c v H -> hist_ok (H ++ [e]) -> hist_apart (H ++ [e]) -> a ∉ xs -> a <> dummy_versions_ ->
  (length (new_files_ e) <= length addrs)%nat -> fresh_addrs (vs_files s) addrs ->
  exists l m fs p w, build_version s e a addrs = Some (with_pointer (with_versions s l m fs) p)
    /\ vs_ok (with_pointer (with_versions s l m fs) p) xs ext (concat (files_ w) ++ extra)
    /\ pending (with_pointer (with_versions s l m fs) p) xs a w /\ stands_for (files_ w) (H ++ [e])
    /\ m !! c = Some v /\ length p = Z.to_nat kNumLevels /\ apply_pointers (compact_pointers_ e) (vs_compact_pointer s) = Some p.
Proof.
  intros [Hok Ec Hin Ev Hst Hp] Hh Hap Ha Hd Hla Hfr. unfold build_version. cbn [new_version with_versions vs_current]. rewrite Ec. cbn [mbind option_bind].
  destruct (new_version_ok s xs ext extra a Hok Ha Hd) as [Hok1 Hp1]. fold (new_version s a).
  assert (c <> a) as Hca by congruence.
  destruct (Builder_new_ok (new_version s a) xs ext extra c Hok1 Hin) as (b & v1 & -> & Ev1 & Eb & Hlb & Hb & Hok2).
  cbn [new_version with_versions vs_versions] in Ev1. rewrite lookup_insert_ne, Ev in Ev1 by done. injection Ev1 as <-. cbn [mbind option_bind].
  set (s2 := put_version (new_version s a) c (with_version_refs v (refs_ v + 1))) in *.
  assert (builder_holds b []) as Hb0 by (by apply builder_new_holds).
  destruct (Builder_Apply_ok s2 xs (bump_ref ext c 1) extra b e addrs Hok2 Hp (hist_ok_last H e Hh)) as
    (b' & fs & p & -> & Hlp & Eptr & Eb' & Hlb' & Hok3 & Hlv & _).
  { apply (builder_holds_ready b [] e Hb0). split; [constructor; [by apply (hist_ok_last H e)|done]|]. intros i. by destruct (hist_ok_new i H [e] Hh) as (_ & ? & _). }
  { done. }
  { done. }
  cbn [mbind option_bind]. pose proof (builder_holds_apply b b' [] e Hb0 Hlb' Hlv) as Hb'. cbn [app] in Hb'.
  set (s3 := with_pointer (with_vs_files s2 fs) p) in *.
  assert (pending s3 xs a Version_make) as Hp3.
  { destruct Hp1 as (P1 & P2 & P3 & P4 & P5 & P6). split_and!; try done. cbn. rewrite lookup_insert_ne by done. apply lookup_insert_eq. }
  rewrite Eb in Eb'.
  destruct (SaveTo_stands s3 xs (bump_ref ext c 1) extra b' a (with_version_refs v (refs_ v + 1)) H [e]) as
    (fs' & w & -> & Hz & Hsw & Hok4 & Hp4); [done|done|by rewrite Eb'| |done|done|done|done|].
  { rewrite Eb'. cbn. apply lookup_insert_eq. }
  cbn [mbind option_bind].
  assert (vs_ok (put_version (with_vs_files s3 fs') a w) xs (bump_ref ext c 1) (builder_files b' ++ concat (files_ w) ++ extra)) as Hok4'.
  { revert Hok4. apply vs_ok_extra. rewrite !app_assoc. apply Permutation_app_tail, Permutation_app_comm. }
  destruct (Builder_delete_ok (put_version (with_vs_files s3 fs') a w) xs _ _ b' Hok4') as (l & m & fs2 & xs' & -> & Hok5 & _ & _ & Hm & Hmc);
    [by rewrite Eb'|]. cbn [mbind option_bind with_versions vs_versions].
  destruct (ok_refs _ _ _ _ Hok c v Hin Ev) as [_ Hpos]. rewrite Eb', bump_ref_same in Hmc. destruct (Hmc ltac:(lia)) as (-> & -> & v' & Ev' & Em).
  rewrite Eb' in Hok5, Hm. rewrite Hm by done. pose proof Hp4 as (Ew & _). rewrite Ew. cbn [mbind option_bind].
  destruct Hp4 as (_ & _ & _ & _ & P5 & P6).
  match goal with |- context [put_version ?x a _] => destruct (Finalize_pending x xs ext (concat (files_ w) ++ extra) a w) as [Hok6 Hp6] end.
  { revert Hok5. apply vs_ok_refs. intros x _. unfold bump_ref. destruct (decide (x = c)); lia. }
  { split_and!; [|done..]. cbn. rewrite Hm by done. exact Ew. }
  exists (ring_init (vs_links s) a), (<[a := Finalize w]> m), fs2, p, (Finalize w). destruct (Finalize_files w) as [Ef _]. rewrite Ef. split; [reflexivity|].
  split; [exact Hok6|]. split; [exact Hp6|]. split; [done|]. split_and!; [|done|done].
  rewrite lookup_insert_ne by done. rewrite Em. f_equal. cbn in Ev'. rewrite lookup_insert_ne, lookup_insert_eq in Ev' by done. injection Ev' as <-.
  destruct v. unfold with_version_refs. cbn. f_equal. lia.
Qed.

(** * Reading the manifest *)

(** The bytes of an edit in the manifest. *)
Definition edit_record (e : VersionEdit) : bytes := concat (map entry_bytes (edit_entries e)).

(** An edit of this comparator that can be written. *)
Definition edit_written (e : VersionEdit) : Prop := edit_ok e /\ (has_comparator_ e = true -> comparator_ e = Comparator_Name).

Lemma edit_record_ok e : edit_ok e -> VersionEdit_EncodeTo e [] = Some (edit_record e)
  /\ VersionEdit_DecodeFrom VersionEdit_new (edit_record e) = Some (Status_OK, e) /\ Forall is_byte (edit_record e).
Proof.
  intros Hok. pose proof (EncodeTo_entries e [] Hok) as He. cbn [app] in He. split; [done|].
  destruct (DecodeFrom_EncodeTo e VersionEdit_new Hok) as (src & Es & Ed). split.
  - rewrite He in Es. injection Es as <-. unfold edit_record. rewrite Ed. by destruct e.
  - apply Forall_concat, Forall_fmap. eapply Forall_impl; [apply (ok_entries e Hok)|apply entry_bytes_bytes].
Qed.

Lemma check_comparator_ok e : edit_written e -> check_comparator e Status_OK = Status_OK.
Proof.
  intros [_ Hc]. unfold check_comparator. destruct (has_comparator_ e); [|done]. by rewrite (bool_decide_true (comparator_ e = _)) by (by apply Hc).
Qed.

(** The numbers that a sequence of edits leaves. *)
Definition no_numbers : recover_state := {|
  rs_status := Status_OK; rs_log_number := None; rs_prev_log_number := None; rs_next_file := None; rs_last_sequence := None |}.
Definition hist_numbers (r : recover_state) (H : list VersionEdit) : recover_state := fold_left note_numbers H r.

Definition added_by (H : list VersionEdit) : nat := length (concat (new_files_ <$> H)).

Lemma fresh_addrs_drop n m m' addrs :
  fresh_addrs m addrs -> (forall a, a ∉ take n addrs -> m' !! a = m !! a) -> fresh_addrs m' (drop n addrs).
Proof.
  intros [Hn Hf] Hm. rewrite <- (take_drop n addrs) in Hn. apply NoDup_app in Hn as (_ & Hdis & Hn). split; [done|]. intros a Ha.
  rewrite Hm; [|intros Ht; by apply (Hdis a)]. apply Hf. rewrite <- (take_drop n addrs). set_solver.
Qed.

Lemma recover_record_ok s xs ext rest b H e r addrs :
  vs_ok s xs ext (builder_files b ++ rest) -> pointers_ok s -> builder_holds b H -> hist_ok (H ++ [e]) -> edit_written e ->
  rs_status r = Status_OK -> (length (new_files_ e) <= length addrs)%nat -> fresh_addrs (vs_files s) addrs ->
  exists b' fs p, recover_record s b r (edit_record e) addrs
      = Some (with_pointer (with_vs_files s fs) p, b', note_numbers r e, drop (length (new_files_ e)) addrs)
    /\ vs_ok (with_pointer (with_vs_files s fs) p) xs ext (builder_files b' ++ rest) /\ length p = Z.to_nat kNumLevels
    /\ base_ b' = base_ b /\ builder_holds b' (H ++ [e]) /\ fresh_addrs fs (drop (length (new_files_ e)) addrs).
Proof.
  intros Hok Hp Hb Hh Hw Hr Hl Hf. destruct (edit_record_ok e (proj1 Hw)) as (_ & Ed & _). unfold recover_record. rewrite Ed. cbn [mbind option_bind].
  rewrite (check_comparator_ok e Hw). cbn [Status_ok Status_OK].
  destruct (Builder_Apply_ok s xs ext rest b e addrs Hok Hp (hist_ok_last H e Hh) (builder_holds_ready b H e Hb Hh) Hl Hf)
    as (b' & fs & p & -> & Hlp & _ & Eb & Hlb & Hok' & Hlv & Hother). cbn [mbind option_bind].
  exists b', fs, p. split; [destruct r; cbn in Hr; by subst|]. split_and!; [done|done|done|by apply (builder_holds_apply b b' H e)|].
  by apply (fresh_addrs_drop _ (vs_files s)).
Qed.

Lemma with_status_same r s : rs_status r = s -> with_status r s = r.
Proof. intros <-. by destruct r. Qed.

(** ** The loop of [Recover] *)
Section Loop.
Context {Sq : Type} {SF : SequentialFile Sq} {unread : Sq -> bytes} {reliable : Sq -> bool} {SL : SequentialFileLaw Sq unread reliable}.
#[local] Abbreviation reader_at := (reader_at (unread := unread) (reliable := reliable)).

(** The whole records are applied, the part of another one is left. *)
Lemma recover_loop_ok n fuel (reader : Reader Sq) pos tail more x s xs ext rest b H1 H2 r addrs :
  reader_at reader pos (log_bytes pos (edit_record <$> H2) ++ tail) (Some []) -> 0 <= pos ->
  tail ++ more = log_record (pos + zlen (log_bytes pos (edit_record <$> H2))) x -> more <> [] ->
  Forall (fun d => length d + 2 <= fuel)%nat ((edit_record <$> H2) ++ [x]) -> (length H2 < n)%nat ->
  vs_ok s xs ext (builder_files b ++ rest) -> pointers_ok s -> builder_holds b H1 -> hist_ok (H1 ++ H2) -> Forall edit_written H2 ->
  rs_status r = Status_OK -> (added_by H2 <= length addrs)%nat -> fresh_addrs (vs_files s) addrs ->
  exists b' fs p, recover_loop n fuel reader s b r addrs = Some (with_pointer (with_vs_files s fs) p, b', hist_numbers r H2)
    /\ vs_ok (with_pointer (with_vs_files s fs) p) xs ext (builder_files b' ++ rest) /\ length p = Z.to_nat kNumLevels
    /\ base_ b' = base_ b /\ builder_holds b' (H1 ++ H2).
Proof.
  revert n reader pos s b H1 r addrs. induction H2 as [|e H2 IH]; intros n reader pos s b H1 r addrs Ha Hp Et Hm Hf Hn Hok Hptr Hb Hh Hw Hr Hl Hfr;
    (destruct n as [|n]; [lia|]); cbn [fmap list_fmap app] in Hf; apply Forall_cons in Hf as [Hd Hf]; cbn [recover_loop].
  - cbn [fmap list_fmap log_bytes app] in Ha, Et. rewrite Z.add_0_r in Et. rewrite (ReadRecord_loop _ _ _ _ _ Ha).
    destruct (read_record_part (length x + 2) fuel reader pos locals_init true x tail more (Some []) Ha Hp) as (r' & -> & Hrep);
      [apply enough_record|done|exact Et|done|done|done|]. cbn [mbind option_bind]. unfold reports. rewrite Hrep. cbn [default].
    rewrite app_nil_r. exists b, (vs_files s), (vs_compact_pointer s).
    assert (with_pointer (with_vs_files s (vs_files s)) (vs_compact_pointer s) = s) as -> by (by destruct s).
    split; [|split_and!; done]. do 2 f_equal. by apply with_status_same; rewrite Hr.
  - cbn [fmap list_fmap log_bytes] in Ha, Et. cbv zeta in Ha, Et. rewrite <- app_assoc in Ha. rewrite (ReadRecord_loop _ _ _ _ _ Ha).
    destruct (read_record_frame (length (edit_record e) + 2) fuel reader pos locals_init true (edit_record e) _ (Some []) Ha Hp)
      as (r' & Er & Ha' & _); [apply enough_record|done|done|done|done|]. rewrite Er. cbn [mbind option_bind scratch locals_init app].
    unfold reports. rewrite (ra_reports _ _ _ _ Ha'). cbn [default]. rewrite with_status_same by (by rewrite Hr). rewrite Hr. cbn [Status_ok Status_OK reported].
    apply Forall_cons in Hw as [Hwe Hw]. unfold added_by in Hl. cbn [fmap list_fmap concat] in Hl. rewrite length_app in Hl.
    rewrite (cons_middle e H1 H2), app_assoc in Hh.
    destruct (recover_record_ok s xs ext rest b H1 e r addrs Hok Hptr Hb (hist_ok_app _ _ Hh) Hwe Hr ltac:(lia) Hfr)
      as (b1 & fs1 & p1 & -> & Hok1 & Hp1 & Eb1 & Hb1 & Hfr1). cbn [mbind option_bind].
    destruct (IH n r' (pos + zlen (log_record pos (edit_record e))) (with_pointer (with_vs_files s fs1) p1) b1 (H1 ++ [e]) (note_numbers r e)
                (drop (length (new_files_ e)) addrs) Ha') as (b' & fs & p & -> & Hok' & Hp' & Eb' & Hb'); try done.
    + lia.
    + by rewrite zlen_app, Z.add_assoc in Et.
    + cbn in Hn. lia.
    + rewrite length_drop. unfold added_by. lia.
    + exists b', fs, p. split; [done|]. split; [exact Hok'|]. split; [done|]. split; [congruence|]. by rewrite <- app_assoc in Hb'.
Qed.
End Loop.

Lemma vs_ok_same s s' xs ext extra :
  vs_links s' = vs_links s -> vs_versions s' = vs_versions s -> vs_files s' = vs_files s -> vs_ok s xs ext extra -> vs_ok s' xs ext extra.
Proof.
  intros E1 E2 E3 Hok. split; rewrite ?E1, ?E2, ?E3; try apply Hok. rewrite (all_files_same s); [apply Hok|].
  intros a _. unfold version_files. by rewrite E2.
Qed.

(** ** What [Recover] builds *)

(** What is the same but for the numbers and the file of the manifest. *)
Definition same_versions (s s' : VersionSet) : Prop :=
  vs_dbname s' = vs_dbname s /\ vs_links s' = vs_links s /\ vs_versions s' = vs_versions s /\ vs_files s' = vs_files s
  /\ vs_current s' = vs_current s /\ vs_compact_pointer s' = vs_compact_pointer s.

(** The set has the numbers that were found. *)
Definition numbers_are (s : VersionSet) (r : recover_state) : Prop :=
  vs_next_file_number s = u64 (default 0 (rs_next_file r) + 1) /\ vs_last_sequence s = default 0 (rs_last_sequence r)
  /\ vs_log_number s = default 0 (rs_log_number r) /\ vs_prev_log_number s = default 0 (rs_prev_log_number r).

Lemma MarkFileNumberUsed_same s n : same_versions s (MarkFileNumberUsed s n)
  /\ vs_descriptor_file (MarkFileNumberUsed s n) = vs_descriptor_file s /\ vs_descriptor_log (MarkFileNumberUsed s n) = vs_descriptor_log s.
Proof. unfold MarkFileNumberUsed. by destruct (_ <=? _). Qed.

(** A version that was not in the list is appended: the list, with the
    references, that [install_recovered] and [~Builder] leave. *)
Lemma install_recovered_ok s xs ext rest c v H b r a :
  vs_ok s xs (bump_ref ext c 1) (builder_files b ++ rest) -> vs_current s = Some c -> c ∈ xs -> vs_versions s !! c = Some v ->
  stands_for (files_ v) [] -> builder_holds b H -> hist_ok H -> hist_apart H -> base_ b = c -> 0 < ext c -> ext a = 0 -> a ∉ xs -> a <> dummy_versions_ ->
  exists l m fs xs' w, install_recovered s b r a
      = Some (with_numbers (with_versions (with_current s (Some a)) l m fs) (u64 (default 0 (rs_next_file r) + 1)) (default 0 (rs_next_file r))
                (default 0 (rs_last_sequence r)) (default 0 (rs_log_number r)) (default 0 (rs_prev_log_number r)))
    /\ vs_ok (with_versions (with_current s (Some a)) l m fs) (xs' ++ [a]) (moved (bump_ref ext c 1) (Some c) a) (builder_files b ++ rest)
    /\ c ∈ xs' /\ (forall x, x ∈ xs' -> x ∈ xs) /\ m !! a = Some w /\ stands_for (files_ w) H.
Proof.
  intros Hok Hc Hin Ev Hv Hb Hh Hap Eb Hpos Hexta Ha Hd. unfold install_recovered.
  destruct (new_version_ok s xs _ _ a Hok Ha Hd) as [Hok1 Hp1].
  destruct (SaveTo_stands (new_version s a) xs (bump_ref ext c 1) rest b a v [] H) as (fs & w & -> & Hz & Hsw & Hok2 & Hp2); try done.
  { by rewrite Eb. }
  { rewrite Eb. cbn. rewrite lookup_insert_ne; [done|congruence]. }
  cbn [mbind option_bind app]. pose proof Hp2 as (Ew & _). rewrite Ew. cbn [mbind option_bind].
  destruct (Finalize_pending _ _ _ _ a w Hok2 Hp2) as [Hok3 Hp3]. destruct (Finalize_files w) as [Ef _].
  match goal with |- context [AppendVersion ?x a] =>
    destruct (AppendVersion_ok x xs (bump_ref ext c 1) (builder_files b ++ rest) a (Finalize w)) as (l & m & fs2 & xs' & -> & Hok4 & Em & Hsub & Hkeep) end.
  { by rewrite Ef. }
  { done. }
  { rewrite bump_ref_other; [done|congruence]. }
  { cbn. rewrite Hc. by intros ? [= <-]. }
  cbn [mbind option_bind]. exists l, m, fs2, xs', (with_version_refs (Finalize w) 1). split; [done|]. split.
  - cbn in Hok4. rewrite Hc in Hok4. exact Hok4.
  - split; [apply Hkeep; [done|right; rewrite bump_ref_same; lia]|]. split; [done|]. split; [done|]. by cbn [files_ with_version_refs]; rewrite Ef.
Qed.

(** * Writing the manifest *)

(** A version that is not in the list goes. *)
Lemma pending_delete_ok s xs ext extra a v :
  vs_ok s xs ext (concat (files_ v) ++ extra) -> pending s xs a v ->
  exists l m fs, Version_delete s a = Some (with_versions s l m fs) /\ vs_ok (with_versions s l m fs) xs ext extra
    /\ (forall b, b <> a -> m !! b = vs_versions s !! b).
Proof.
  intros Hok (E & Hz & Ha & Hd & H1 & H2). unfold Version_delete. rewrite E. cbn [mbind option_bind]. rewrite Hz. cbn [Z.eqb].
  unfold ring_unlink. rewrite H2, H1. cbn [mbind option_bind link_next nxt prv]. rewrite lookup_insert_eq, H2. cbn [mbind option_bind].
  assert (files_counted (vs_files s) (concat (files_ v) ++ all_files s xs ++ extra)) as Hf.
  { generalize (ok_files _ _ _ _ Hok). apply files_counted_perm. rewrite !app_assoc. apply Permutation_app_tail, Permutation_app_comm. }
  destruct (drop_files_ok true _ _ _ Hf) as (fs & -> & Hf'). cbn [mbind option_bind]. eexists _, _, fs. split; [done|]. split.
  - assert (forall b, b ∈ xs -> b <> a) as Hne by congruence. split; cbn.
    + generalize (ok_ring _ _ _ _ Hok). apply ring_frame. intros c Hc. assert (c <> a) by (apply elem_of_cons in Hc as [->|Hc]; congruence).
      cbn. by rewrite !lookup_delete_ne, !lookup_insert_ne.
    + intros b Hb. rewrite lookup_delete_ne by (by apply not_eq_sym, Hne). by apply Hok.
    + intros b w Hb. rewrite lookup_delete_ne by (by apply not_eq_sym, Hne). by apply Hok.
    + rewrite (all_files_same s); [done|]. intros b Hb. unfold version_files. cbn. by rewrite lookup_delete_ne by (by apply not_eq_sym, Hne).
  - intros b Hb. cbn. by rewrite lookup_delete_ne.
Qed.

(** ** Edits with numbers *)
Definition same_files (e e' : VersionEdit) : Prop :=
  compact_pointers_ e' = compact_pointers_ e /\ deleted_files_ e' = deleted_files_ e /\ new_files_ e' = new_files_ e.

Lemma same_files_hist H e e' i : same_files e e' ->
  hist_new i (H ++ [e']) = hist_new i (H ++ [e]) /\ hist_live i (H ++ [e']) = hist_live i (H ++ [e]).
Proof.
  intros (_ & Ed & En). unfold hist_live. rewrite !hist_new_snoc. assert (edit_new i e' = edit_new i e) as -> by (unfold edit_new; by rewrite En).
  split; [done|]. apply filter_ext_in. intros m _. rewrite !hist_del_snoc. unfold edit_del, edit_new. by rewrite Ed, En.
Qed.

Lemma same_files_ok H e e' : same_files e e' -> hist_ok (H ++ [e]) -> hist_ok (H ++ [e']).
Proof.
  intros Hs [Hf Hn]. split.
  - apply Forall_app in Hf as [Hf He]. apply Forall_app. split; [done|]. apply Forall_cons in He as [[E1 E2 E3] _]. constructor; [|done].
    destruct Hs as (S1 & S2 & S3). split; by rewrite ?S1, ?S2, ?S3.
  - intros i. by rewrite (proj1 (same_files_hist H e e' i Hs)).
Qed.

Lemma same_files_apart H e e' : same_files e e' -> hist_apart (H ++ [e]) -> hist_apart (H ++ [e']).
Proof. intros Hs Ha i files Hi Ho Hp. rewrite (proj2 (same_files_hist H e e' i Hs)) in Hp. by apply (Ha i). Qed.

(** The numbers of a set fit in 64 bits. *)
Definition numbers_ok (s : VersionSet) : Prop :=
  in_uint 64 (vs_next_file_number s) /\ in_uint 64 (vs_manifest_file_number s) /\ in_uint 64 (vs_last_sequence s)
  /\ in_uint 64 (vs_log_number s) /\ in_uint 64 (vs_prev_log_number s).

(** An edit with all numbers, those of the set. *)
Record completed (s : VersionSet) (e : VersionEdit) : Prop := {
  co_log : has_log_number_ e = true;
  co_prev : has_prev_log_number_ e = true;
  co_next : has_next_file_number_ e = true /\ next_file_number_ e = vs_next_file_number s;
  co_last : has_last_sequence_ e = true /\ last_sequence_ e = vs_last_sequence s
}.

(** The log number of the edit, if it has one, is in use. *)
Definition log_number_fits (s : VersionSet) (e : VersionEdit) : Prop :=
  has_log_number_ e = true -> vs_log_number s <= log_number_ e < vs_next_file_number s.

Definition log_after (s : VersionSet) (e : VersionEdit) : Z := if has_log_number_ e then log_number_ e else vs_log_number s.
Definition prev_log_after (s : VersionSet) (e : VersionEdit) : Z := if has_prev_log_number_ e then prev_log_number_ e else vs_prev_log_number s.

Lemma edit_ok_numbers e :
  edit_ok e -> (has_log_number_ e = true -> in_uint 64 (log_number_ e)) /\ (has_prev_log_number_ e = true -> in_uint 64 (prev_log_number_ e)).
Proof.
  intros [He _ _ _ _]. unfold edit_entries in He. rewrite !Forall_app in He. destruct He as (_ & H1 & H2 & _).
  split; intros E; [rewrite E in H1; by apply Forall_cons in H1 as [? _]|rewrite E in H2; by apply Forall_cons in H2 as [? _]].
Qed.

Lemma complete_edit_ok s e :
  edit_written e -> numbers_ok s -> log_number_fits s e ->
  exists e', complete_edit s e = Some e' /\ same_files e e' /\ edit_written e' /\ completed s e'
    /\ log_number_ e' = log_after s e /\ prev_log_number_ e' = prev_log_after s e.
Proof.
  intros [Hok Hc] (N1 & N2 & N3 & N4 & N5) Hl. unfold complete_edit, log_after, prev_log_after. destruct (edit_ok_numbers e Hok) as [L1 L2].
  assert (exists e1, (if has_log_number_ e then if (log_number_ e >=? vs_log_number s) && (log_number_ e <? vs_next_file_number s) then Some e else None
            else Some (SetLogNumber e (vs_log_number s))) = Some e1
    /\ e1 = SetLogNumber e (if has_log_number_ e then log_number_ e else vs_log_number s)) as (e1 & -> & ->).
  { destruct (has_log_number_ e) eqn:E; [|by eexists]. specialize (Hl E).
    destruct (Z.geb_spec (log_number_ e) (vs_log_number s)); [|lia]. destruct (Z.ltb_spec (log_number_ e) (vs_next_file_number s)); [|lia].
    exists e. split; [done|]. destruct e; cbn in *; by subst. }
  cbn [mbind option_bind]. set (e2 := SetLogNumber e _). set (L := if has_log_number_ e then _ else _) in e2.
  set (P := if has_prev_log_number_ e then prev_log_number_ e else vs_prev_log_number s).
  assert ((if has_prev_log_number_ e2 then e2 else SetPrevLogNumber e2 (vs_prev_log_number s)) = SetPrevLogNumber e2 P) as ->.
  { subst P. cbn. destruct (has_prev_log_number_ e) eqn:E; [|done]. destruct e; cbn in *; by subst. }
  eexists. split; [done|]. split; [done|]. split; [|split; [by split|done]]. split; [|exact Hc].
  destruct Hok as [He (U1 & U2 & U3 & U4 & U5) Hd Hp Hf]. split; [|by split_and!|done|done|done].
  unfold edit_entries in *. cbn in *. rewrite !Forall_app in He. destruct He as (E1 & E2 & E3 & E4 & E5 & E6 & E7 & E8).
  assert (in_uint 64 L /\ in_uint 64 P) as [HL HP].
  { subst L P. split; [destruct (has_log_number_ e); [by apply L1|done]|destruct (has_prev_log_number_ e); [by apply L2|done]]. }
  apply Forall_app. split; [done|]. repeat (constructor; [done|]). rewrite !Forall_app. done.
Qed.

(** ** The snapshot *)
Fixpoint level_files (level : Z) (levels : list (list FileRef)) : list (Z * FileMetaData) :=
  match levels with
  | [] => []
  | files :: levels => ((fun f => (level, f_meta f)) <$> files) ++ level_files (level + 1) levels
  end.

Lemma add_file_refs_new level files edit :
  Forall (fun f => fresh_file (f_meta f)) files ->
  fold_left (add_file_ref level) files edit = with_new_files edit (new_files_ edit ++ ((fun f => (level, f_meta f)) <$> files)).
Proof.
  revert edit. induction files as [|f files IH]; intros edit Hf; cbn [fold_left fmap list_fmap].
  - rewrite app_nil_r. by destruct edit.
  - apply Forall_cons in Hf as [Hf1 Hf]. rewrite IH by done. unfold add_file_ref, AddFile, f_number, f_size, f_smallest, f_largest. rewrite <- Hf1.
    cbn. unfold with_new_files. cbn. by rewrite <- app_assoc.
Qed.

Lemma snapshot_files_new edit level levels :
  Forall (Forall (fun f => fresh_file (f_meta f))) levels ->
  snapshot_files edit level levels = with_new_files edit (new_files_ edit ++ level_files level levels).
Proof.
  revert edit level. induction levels as [|files levels IH]; intros edit level Hf; cbn [snapshot_files level_files].
  - rewrite app_nil_r. by destruct edit.
  - apply Forall_cons in Hf as [Hf1 Hf]. rewrite add_file_refs_new, IH by done. unfold with_new_files. cbn. by rewrite <- app_assoc.
Qed.

Fixpoint level_pointers (level : Z) (pointers : list bytes) : list (Z * bytes) :=
  match pointers with
  | [] => []
  | p :: pointers => (if bool_decide (p = []) then [] else [(level, p)]) ++ level_pointers (level + 1) pointers
  end.

Lemma snapshot_pointers_new edit level pointers :
  snapshot_pointers edit level pointers = with_pointers edit (compact_pointers_ edit ++ level_pointers level pointers).
Proof.
  revert edit level. induction pointers as [|p pointers IH]; intros edit level; cbn [snapshot_pointers level_pointers].
  - rewrite app_nil_r. by destruct edit.
  - rewrite IH. case_bool_decide; [done|]. unfold with_pointers, SetCompactPointer. cbn. by rewrite <- app_assoc.
Qed.

Lemma new_at_level_files i level levels :
  new_at i (level_files level levels) = if decide (level <= i) then f_meta <$> default [] (levels !! Z.to_nat (i - level)) else [].
Proof.
  revert level. induction levels as [|files levels IH]; intros level; cbn [level_files].
  { rewrite lookup_nil. by destruct (decide _). }
  unfold new_at in *. rewrite filter_app, fmap_app, IH. destruct (decide (level = i)) as [<-|Hne].
  - assert (filter (fun p : Z * FileMetaData => p.1 = level) ((fun f => (level, f_meta f)) <$> files) = ((fun f => (level, f_meta f)) <$> files)) as ->.
    { induction files as [|f files IHf]; [done|]. cbn [fmap list_fmap]. rewrite filter_cons_True by done. by rewrite IHf. }
    rewrite decide_False, decide_True, Z.sub_diag, app_nil_r by lia. cbn. by rewrite <- list_fmap_compose.
  - assert (filter (fun p : Z * FileMetaData => p.1 = i) ((fun f => (level, f_meta f)) <$> files) = []) as ->.
    { induction files as [|f files IHf]; [done|]. cbn [fmap list_fmap]. by rewrite filter_cons_False. }
    cbn [fmap list_fmap app]. destruct (decide (level + 1 <= i)), (decide (level <= i)); try lia; [|done].
    replace (Z.to_nat (i - level)) with (S (Z.to_nat (i - (level + 1)))) by lia. done.
Qed.

(** A file that can be written to the manifest. *)
Definition file_written (m : FileMetaData) : Prop :=
  fresh_file m /\ smallest m <> [] /\ largest m <> [] /\ in_uint 64 (number m) /\ in_uint 64 (file_size m)
  /\ short_bytes (smallest m) /\ short_bytes (largest m).

Lemma hist_new_written i H m : Forall edit_written H -> m ∈ hist_new i H -> file_written m.
Proof.
  intros Hw Hm. unfold hist_new in Hm. apply list_elem_of_In, in_concat in Hm as (l & Hl%list_elem_of_In & Hm%list_elem_of_In).
  apply list_elem_of_fmap in Hl as (e & -> & He). destruct (proj1 (Forall_forall _ _) Hw e He) as [[Hen _ _ _ Hf] _].
  apply list_elem_of_fmap in Hm as ([lv m'] & -> & [_ Hm]%list_elem_of_filter).
  destruct (proj1 (Forall_forall _ _) Hf (lv, m') Hm) as (F1 & F2 & F3). unfold edit_entries in Hen. rewrite !Forall_app in Hen.
  destruct Hen as (_ & _ & _ & _ & _ & _ & _ & Hen). change (Forall entry_ok (new_entry <$> new_files_ e)) in Hen. rewrite Forall_fmap in Hen. destruct (proj1 (Forall_forall _ _) Hen (lv, m') Hm) as (_ & G1 & G2 & G3 & G4).
  by cbn in *; split_and!.
Qed.

Lemma snapshot_edit_new s v :
  Forall (Forall (fun f => fresh_file (f_meta f))) (files_ v) ->
  snapshot_edit s v = with_new_files (with_pointers (SetComparatorName VersionEdit_new Comparator_Name) (level_pointers 0 (vs_compact_pointer s))) (level_files 0 (files_ v)).
Proof. intros Hf. unfold snapshot_edit. by rewrite snapshot_files_new, snapshot_pointers_new. Qed.

Lemma level_files_in lv m level levels :
  (lv, m) ∈ level_files level levels ->
  exists i files f, levels !! i = Some files /\ f ∈ files /\ m = f_meta f /\ lv = level + Z.of_nat i.
Proof.
  revert level. induction levels as [|files levels IH]; intros level; cbn [level_files]; [by intros ?%elem_of_nil|].
  intros [(f & [= -> ->] & Hf)%list_elem_of_fmap|Hin]%elem_of_app.
  - exists O, files, f. split_and!; [done|done|done|lia].
  - destruct (IH _ Hin) as (i & fs & f & Hi & Hf & -> & ->). exists (S i), fs, f. split_and!; [done|done|done|lia].
Qed.

Lemma level_pointers_in lv p level ps :
  (lv, p) ∈ level_pointers level ps -> exists i, ps !! i = Some p /\ p <> [] /\ lv = level + Z.of_nat i.
Proof.
  revert level. induction ps as [|q ps IH]; intros level; cbn [level_pointers]; [by intros ?%elem_of_nil|].
  intros [Hin|Hin]%elem_of_app.
  - case_bool_decide; [by apply elem_of_nil in Hin|]. apply list_elem_of_singleton in Hin as [= -> ->]. exists O. split_and!; [done|done|lia].
  - destruct (IH _ Hin) as (i & Hi & Hne & ->). exists (S i). split_and!; [done|done|lia].
Qed.

(** The compaction pointers can be written. *)
Definition pointers_short (s : VersionSet) : Prop := Forall (fun p => p = [] \/ short_bytes p) (vs_compact_pointer s).

(** What one edit adds stays, deleted or not. *)
Lemma hist_live_once i e : hist_live i [e] = edit_new i e.
Proof.
  unfold hist_live, hist_new. cbn [fmap list_fmap concat]. rewrite app_nil_r. rewrite (filter_ext_in _ (fun _ => True)).
  - induction (edit_new i e) as [|m l IH]; [done|]. rewrite filter_cons_True by done. by rewrite IH.
  - intros m Hm. split; [done|]. intros _. cbn. rewrite elem_of_difference, elem_of_list_to_set. intros [_ Hn]. apply Hn. by apply list_elem_of_fmap_2.
Qed.

Section Snapshot.
Context (s : VersionSet) (v : Version) (H : list VersionEdit).
Context (Hst : stands_for (files_ v) H) (Hw : Forall edit_written H) (Hp : pointers_ok s) (Hps : pointers_short s) (Hname : short_bytes Comparator_Name).
#[local] Abbreviation snapshot := (snapshot_edit s v).

Lemma files_written i files f : files_ v !! i = Some files -> f ∈ files -> file_written (f_meta f).
Proof using Hst Hw.
  intros Hi Hf. destruct Hst as [_ Hs]. destruct (Hs i files Hi) as (_ & Hm & _). apply (hist_new_written i H); [done|].
  apply hist_live_in. rewrite <- Hm. by apply list_elem_of_fmap_2.
Qed.

Lemma snapshot_is :
  snapshot = with_new_files (with_pointers (SetComparatorName VersionEdit_new Comparator_Name) (level_pointers 0 (vs_compact_pointer s))) (level_files 0 (files_ v)).
Proof using Hst Hw.
  apply snapshot_edit_new. apply Forall_forall. intros files Hfiles. apply Forall_forall. intros f Hf.
  apply list_elem_of_lookup in Hfiles as (i & Hi). by destruct (files_written i files f Hi Hf).
Qed.

Lemma snapshot_written : edit_written snapshot.
Proof using All.
  rewrite snapshot_is. destruct Hst as [Hl Hs]. split; [|done].
  assert (forall lv m, (lv, m) ∈ level_files 0 (files_ v) -> valid_level lv /\ file_written m) as Hfiles.
  { intros lv m Hin. apply level_files_in in Hin as (i & files & f & Hi & Hf & -> & ->). split; [|by apply (files_written i files)].
    apply lookup_lt_Some in Hi. unfold valid_level, kNumLevels in *. lia. }
  assert (forall lv p, (lv, p) ∈ level_pointers 0 (vs_compact_pointer s) -> valid_level lv /\ p <> [] /\ short_bytes p) as Hptrs.
  { intros lv p Hin. apply level_pointers_in in Hin as (i & Hi & Hne & ->). split_and!; [|done|].
    - apply lookup_lt_Some in Hi. unfold pointers_ok in Hp. unfold valid_level, kNumLevels in *. lia.
    - destruct (Forall_lookup_1 _ _ _ _ Hps Hi); done. }
  split.
  - unfold edit_entries. cbn. constructor; [done|]. apply Forall_app. split.
    + change (Forall entry_ok (pointer_entry <$> level_pointers 0 (vs_compact_pointer s))). rewrite Forall_fmap.
      apply Forall_forall. intros [lv p] Hin. destruct (Hptrs lv p Hin) as (? & _ & ?). done.
    + change (Forall entry_ok (new_entry <$> level_files 0 (files_ v))). rewrite Forall_fmap.
      apply Forall_forall. intros [lv m] Hin. destruct (Hfiles lv m Hin) as (? & ? & ? & ? & ? & ? & ? & ?). cbn. by split_and!.
  - by split_and!.
  - constructor.
  - cbn. apply Forall_forall. intros [lv p] Hin. by destruct (Hptrs lv p Hin) as (_ & ? & _).
  - cbn. apply Forall_forall. intros [lv m] Hin. destruct (Hfiles lv m Hin) as (_ & ? & ? & ? & _). done.
Qed.

Lemma snapshot_new i : edit_new i snapshot = f_meta <$> default [] (files_ v !! i).
Proof using Hst Hw.
  rewrite snapshot_is. unfold edit_new. cbn [with_new_files new_files_]. rewrite new_at_level_files, decide_True by lia.
  by rewrite Z.sub_0_r, Nat2Z.id.
Qed.

Lemma snapshot_live i : hist_live i [snapshot] ≡ₚ hist_live i H.
Proof using Hst Hw.
  rewrite hist_live_once.
  rewrite snapshot_new. destruct Hst as [Hl Hs]. destruct (files_ v !! i) as [files|] eqn:Hi; cbn [default].
  - by destruct (Hs i files Hi) as (_ & ? & _).
  - apply lookup_ge_None in Hi. assert (hist_live i H = []) as ->; [|done].
    destruct (hist_live i H) as [|m l] eqn:E; [done|]. exfalso. assert (m ∈ hist_new i H) as Hm by (apply hist_live_in; rewrite E; left).
    unfold hist_new in Hm. apply list_elem_of_In, in_concat in Hm as (l' & Hl'%list_elem_of_In & Hm%list_elem_of_In).
    apply list_elem_of_fmap in Hl' as (e & -> & He). destruct (proj1 (Forall_forall _ _) Hw e He) as [[Hen _ _ _ _] _].
    apply list_elem_of_fmap in Hm as ([lv m'] & -> & [Elv Hm]%list_elem_of_filter). unfold edit_entries in Hen. rewrite !Forall_app in Hen.
    destruct Hen as (_ & _ & _ & _ & _ & _ & _ & Hen). change (Forall entry_ok (new_entry <$> new_files_ e)) in Hen. rewrite Forall_fmap in Hen.
    destruct (proj1 (Forall_forall _ _) Hen (lv, m') Hm) as ([Hv1 Hv2] & _). cbn in *. unfold kNumLevels in *. lia.
Qed.

Lemma snapshot_fine : edit_fine snapshot.
Proof using All.
  destruct snapshot_written as [[_ _ _ Hptr _] _]. pose proof snapshot_is as E. destruct Hst as [Hl Hs]. split.
  - rewrite E in Hptr |- *. cbn in *. apply Forall_forall. intros [lv p] Hin. apply level_pointers_in in Hin as (i & Hi & Hne & ->).
    apply lookup_lt_Some in Hi. unfold pointers_ok in Hp. unfold level_range, kNumLevels in *. cbn. split; [lia|done].
  - rewrite E. constructor.
  - rewrite E. cbn. apply Forall_forall. intros [lv m] Hin. apply level_files_in in Hin as (i & files & f & Hi & Hf & -> & ->).
    destruct (Hs i files Hi) as ((Hr & _) & _). destruct (proj1 (Forall_forall _ _) Hr f Hf) as (R1 & R2 & R3).
    apply lookup_lt_Some in Hi. split; cbn; [unfold level_range, kNumLevels in *; lia|done].
Qed.

Lemma snapshot_stands : stands_for (files_ v) [snapshot].
Proof using Hst Hw.
  destruct Hst as [Hl Hs]. split; [done|]. intros i files Hi. destruct (Hs i files Hi) as (Ho & Hm & Ha). split_and!; [done| |done].
  rewrite snapshot_live. done.
Qed.

Lemma snapshot_hist_ok e : hist_ok (H ++ [e]) -> hist_ok ([snapshot] ++ [e]).
Proof using All.
  intros Hh. split; [constructor; [apply snapshot_fine|constructor; [by apply (hist_ok_last H)|constructor]]|]. intros i.
  rewrite hist_new_app. destruct (hist_ok_new i H [e] Hh) as (N1 & N2 & Hdis). rewrite fmap_app. apply NoDup_app.
  assert (hist_new i [snapshot] ≡ₚ hist_live i H) as Hn.
  { rewrite <- snapshot_live, hist_live_once. unfold hist_new. cbn [fmap list_fmap concat]. by rewrite app_nil_r. }
  split_and!.
  - rewrite Hn. unfold hist_live. clear - N1. induction (hist_new i H) as [|m l IH]; [constructor|]. cbn in N1. apply NoDup_cons in N1 as [Nm Nl].
    rewrite filter_cons. destruct (decide _); [|by apply IH]. cbn. apply NoDup_cons. split; [|by apply IH].
    intros (x & Ex & [_ Hx]%list_elem_of_filter)%list_elem_of_fmap. apply Nm. rewrite Ex. by apply list_elem_of_fmap_2.
  - intros x (m & -> & Hm)%list_elem_of_fmap. rewrite Hn in Hm. by apply Hdis, hist_live_in.
  - done.
Qed.

Lemma snapshot_hist_apart e : hist_ok (H ++ [e]) -> hist_apart (H ++ [e]) -> hist_apart ([snapshot] ++ [e]).
Proof using All.
  intros Hh Ha i files Hi Ho Hm. apply (Ha i); [done|done|]. rewrite Hm, (hist_live_app i H [e] Hh), (hist_live_app i _ _ (snapshot_hist_ok e Hh)).
  by rewrite snapshot_live.
Qed.
End Snapshot.

(** ** With the environment *)
Section WithEnv.
Context {E Sq R : Type} {EV : Env E Sq R} {SF : SequentialFile Sq} {RF : RandomAccessFile R}.
Context {names : E -> gmap bytes bytes} {opened : E -> gmap Z OpenFile} {unread : Sq -> bytes} {reliable : Sq -> bool} {readable : E -> Prop}.
Context {EL : EnvLaw names opened unread reliable readable}.

(** The bytes of the log of edits. *)
Definition manifest_bytes (H : list VersionEdit) : bytes := log_bytes 0 (edit_record <$> H).

Definition manifest_name (s : VersionSet) : bytes := DescriptorFileName (vs_dbname s) (vs_manifest_file_number s).

(** On the disk: [CURRENT] names the manifest [n], which holds [data]. *)
Definition on_disk (e : E) (dbname : bytes) (n : Z) (data : bytes) : Prop :=
  names e !! CurrentFileName dbname = Some (manifest_base n ++ [10]) /\ names e !! DescriptorFileName dbname n = Some data.

(** The manifest that the set writes, if there is one, holds the edits [H]. *)
Definition manifest_open (e : E) (s : VersionSet) (H : list VersionEdit) : Prop :=
  match vs_descriptor_log s, vs_descriptor_file s with
  | None, None => True
  | Some log, Some h =>
      dest_ log = h /\ log_at (names := names) (opened := opened) e log (manifest_name s) (manifest_bytes H)
      /\ on_disk e (vs_dbname s) (vs_manifest_file_number s) (manifest_bytes H)
  | _, _ => False
  end.

Lemma ParseFileName_base n : in_uint 64 n -> ParseFileName (manifest_base n) = Some (n, kDescriptorFile).
Proof.
  intros Hn. by rewrite <- (ParseFileName_Descriptor [] n Hn).
Qed.

(** Reusing the manifest changes its number and its file only. *)
Lemma ReuseManifest_ok options e s n data b e' s' :
  ReuseManifest options e s (DescriptorFileName (vs_dbname s) n) (manifest_base n) = (b, e', s') -> in_uint 64 n -> on_disk e (vs_dbname s) n data ->
  not_open opened e (DescriptorFileName (vs_dbname s) n) ->
  same_versions s s' /\ names e' = names e
  /\ vs_next_file_number s' = vs_next_file_number s /\ vs_last_sequence s' = vs_last_sequence s
  /\ vs_log_number s' = vs_log_number s /\ vs_prev_log_number s' = vs_prev_log_number s
  /\ (forall H, vs_descriptor_log s = None -> vs_descriptor_file s = None -> data = manifest_bytes H -> manifest_open e' s' H).
Proof.
  intros Hr Hn [Hc Hd] Hno. unfold ReuseManifest in Hr. rewrite (ParseFileName_base n Hn) in Hr.
  assert (same_versions s s) as Hsame by done.
  assert (forall H, vs_descriptor_log s = None -> vs_descriptor_file s = None -> data = manifest_bytes H -> manifest_open e s H) as Hnone.
  { intros H E1 E2 _. unfold manifest_open. by rewrite E1, E2. }
  destruct (negb (reuse_logs options)); [injection Hr as <- <- <-; by split_and!|].
  destruct (GetFileSize e _) as [st z] eqn:Es. destruct (negb (Status_ok st) || _) eqn:Eb; [injection Hr as <- <- <-; by split_and!|].
  apply orb_false_iff in Eb as [Eb _]. apply negb_false_iff in Eb. pose proof (env_size _ _ (EnvLaw := EL) _ _ _ _ _ Es Hd Eb) as ->.
  destruct (NewAppendableFile e _) as [[r f] e1] eqn:Ea. apply (env_new_appendable _ _ (EnvLaw := EL)) in Ea; [|done].
  destruct (Status_ok r).
  - destruct Ea as (h & -> & Hh & Ho & Hn1). injection Hr as <- <- <-. rewrite Hd in Ho, Hn1. cbn [default] in Ho, Hn1.
    rewrite insert_id in Hn1 by done. split_and!; try done. intros H _ _ ->. unfold manifest_open. cbn.
    split; [done|]. split; [|split; cbn; by rewrite Hn1]. split; [split|].
    + cbn. rewrite Ho. apply lookup_insert_eq.
    + cbn. by rewrite Hn1.
    + apply writer_at_new_at. lia.
  - destruct Ea as (-> & Hn1 & Ho1). injection Hr as <- <- <-. split_and!; try done. intros H E1 E2 _. unfold manifest_open. by rewrite E1, E2.
Qed.

(** What a set was made for: no edits, no manifest. *)
Definition untouched (s : VersionSet) : Prop := vs_descriptor_log s = None /\ vs_descriptor_file s = None.

Lemma MarkFileNumbersUsed_same s n m : let s' := MarkFileNumberUsed (MarkFileNumberUsed s n) m in
  same_versions s s' /\ vs_descriptor_file s' = vs_descriptor_file s /\ vs_descriptor_log s' = vs_descriptor_log s.
Proof.
  cbv zeta. destruct (MarkFileNumberUsed_same s n) as ((A1 & A2 & A3 & A4 & A5 & A6) & A7 & A8).
  destruct (MarkFileNumberUsed_same (MarkFileNumberUsed s n) m) as ((B1 & B2 & B3 & B4 & B5 & B6) & B7 & B8).
  rewrite B7, B8. split; [|done]. unfold same_versions. by rewrite B1, B2, B3, B4, B5, B6.
Qed.

(** The end of [Recover], where all numbers were found. *)
Lemma finish_recovery_ok options e s xs ext extra c v H b r a n data sm :
  vs_ok s xs (bump_ref ext c 1) (builder_files b ++ extra) -> pointers_ok s -> untouched s ->
  vs_current s = Some c -> c ∈ xs -> vs_versions s !! c = Some v ->
  stands_for (files_ v) [] -> builder_holds b H -> hist_ok H -> hist_apart H -> base_ b = c -> 0 < ext c -> ext a = 0 -> a ∉ xs -> a <> dummy_versions_ ->
  in_uint 64 n -> on_disk e (vs_dbname s) n data -> not_open opened e (DescriptorFileName (vs_dbname s) n) ->
  exists sm' e' s' xs' w, (s1 ← install_recovered s b r a;
      let '(reused, e, s1) := ReuseManifest options e s1 (DescriptorFileName (vs_dbname s) n) (manifest_base n) in
      s1 ← Builder_delete s1 b; Some (Status_OK, if reused : bool then sm else true, e, s1)) = Some (Status_OK, sm', e', s')
    /\ current_is s' xs' (moved ext (Some c) a) extra a w H /\ numbers_are s' r /\ vs_dbname s' = vs_dbname s /\ names e' = names e
    /\ (data = manifest_bytes H -> manifest_open e' s' H).
Proof.
  intros Hok Hptr [Hl Hf] Hc Hin Ev Hv Hb Hh Hap Eb Hpos Hexta Ha Hd Hn Hdisk Hno.
  destruct (install_recovered_ok s xs ext extra c v H b r a Hok Hc Hin Ev Hv Hb Hh Hap Eb Hpos Hexta Ha Hd)
    as (l & m & fs & xs1 & w & -> & Hok1 & Hcin & Hsub & Ew & Hw). cbn [mbind option_bind].
  set (s1 := with_numbers (with_versions (with_current s (Some a)) l m fs) _ _ _ _ _).
  change (vs_dbname s) with (vs_dbname s1) in Hdisk, Hno |- *.
  destruct (ReuseManifest options e s1 _ _) as [[reused e1] s2] eqn:Er.
  destruct (ReuseManifest_ok options e s1 n data reused e1 s2 Er Hn Hdisk Hno) as ((S0 & S1 & S2 & S3 & S4 & S5) & En & N1 & N2 & N3 & N4 & Hopen).
  assert (vs_ok s2 (xs1 ++ [a]) (moved (bump_ref ext c 1) (Some c) a) (builder_files b ++ extra)) as Hok2.
  { by apply (vs_ok_same (with_versions (with_current s (Some a)) l m fs)). }
  destruct (Builder_delete_ok s2 (xs1 ++ [a]) _ extra b Hok2) as (l2 & m2 & fs2 & xs2 & Edel & Hok3 & Hs1 & Hs2 & Hm & _); [rewrite Eb; set_solver|].
  rewrite Edel. cbn [mbind option_bind]. rewrite Eb in Hok3, Hs2, Hm.
  assert (a <> c) as Hac by congruence.
  eexists _, e1, _, xs2, w. split; [done|]. split; [|split_and!; try done].
  - split.
    + revert Hok3. apply vs_ok_refs. intros x _. unfold moved, bump_ref. destruct (decide (x = a)), (decide (x = c)); lia.
    + cbn. by rewrite S4.
    + apply Hs2; [set_solver|by left].
    + cbn. rewrite Hm by done. by rewrite S2.
    + done.
    + unfold pointers_ok. cbn. by rewrite S5.
  - intros ->. by apply Hopen.
Qed.

Lemma hist_numbers_status r H : rs_status (hist_numbers r H) = rs_status r.
Proof. unfold hist_numbers. revert r. induction H as [|e H IH]; intros r; [done|]. cbn [fold_left]. by rewrite IH. Qed.

Lemma added_by_take j H : (added_by (take j H) <= added_by H)%nat.
Proof.
  unfold added_by. rewrite <- (take_drop j H) at 2. rewrite fmap_app, concat_app, length_app. lia.
Qed.

Lemma log_bytes_take j H : log_bytes 0 (take j (edit_record <$> H)) = manifest_bytes (take j H).
Proof. unfold manifest_bytes. by rewrite fmap_take. Qed.

(** The builder goes, the current version stays. *)
Lemma give_up_ok s xs ext extra c v H b :
  vs_ok s xs (bump_ref ext c 1) (builder_files b ++ extra) -> pointers_ok s -> vs_current s = Some c -> c ∈ xs ->
  vs_versions s !! c = Some (with_version_refs v (refs_ v + 1)) -> stands_for (files_ v) H -> base_ b = c -> 0 < ext c ->
  exists s', Builder_delete s b = Some s' /\ current_is s' xs ext extra c v H.
Proof.
  intros Hok Hp Hc Hin Ev Hv Eb Hpos.
  destruct (Builder_delete_ok s xs _ extra b Hok) as (l & m & fs & xs' & Ed & Hok' & _ & _ & _ & Hm); [by rewrite Eb|].
  rewrite Eb, bump_ref_same in Hm. destruct (Hm ltac:(lia)) as (-> & _ & v' & Ev' & Em). rewrite Ed. eexists. split; [done|].
  rewrite Ev in Ev'. injection Ev' as <-. split; try done.
  - revert Hok'. apply vs_ok_refs. intros x _. rewrite Eb. unfold bump_ref. destruct (decide (x = c)); lia.
  - cbn. rewrite Em. destruct v. unfold with_version_refs. cbn. do 2 f_equal. lia.
Qed.

(** A history of which [data] is written. *)
Record recoverable (fuel : nat) (H : list VersionEdit) (data : bytes) : Prop := {
  rc_written : Forall edit_written H;
  rc_ok : hist_ok H;
  rc_apart j : (j <= length H)%nat ->
    (forall i, (i <= length H)%nat -> zlen (manifest_bytes (take i H)) <= zlen data -> (i <= j)%nat) -> hist_apart (take j H);
  rc_fuel : Forall (fun e => length (edit_record e) + 2 <= fuel)%nat H;
  rc_rounds : (length H < fuel)%nat
}.

(** A manifest that may end within a record: the edits that are whole count. *)
Lemma Recover_prefix fuel options e s xs ext extra c v H n data sm a addrs :
  current_is s xs ext extra c v [] -> untouched s -> ext a = 0 -> a ∉ xs -> a <> dummy_versions_ ->
  in_uint 64 n -> readable e -> on_disk e (vs_dbname s) n data -> not_open opened e (DescriptorFileName (vs_dbname s) n) ->
  data `prefix_of` manifest_bytes H -> recoverable fuel H data -> (length (manifest_base n) + 1 < fuel)%nat ->
  (added_by H <= length addrs)%nat -> fresh_addrs (vs_files s) addrs ->
  exists j sm' e' s', (j <= length H)%nat
    /\ (forall i, (i <= length H)%nat -> zlen (manifest_bytes (take i H)) <= zlen data -> (i <= j)%nat)
    /\ Recover fuel options e s sm a addrs = Some (check_numbers (hist_numbers no_numbers (take j H)), sm', e', s') /\ names e' = names e
    /\ if Status_ok (check_numbers (hist_numbers no_numbers (take j H)))
       then exists xs' w, current_is s' xs' (moved ext (Some c) a) extra a w (take j H) /\ numbers_are s' (hist_numbers no_numbers (take j H))
         /\ vs_dbname s' = vs_dbname s /\ (data = manifest_bytes (take j H) -> manifest_open e' s' (take j H))
       else current_is s' xs ext extra c v [].
Proof.
  intros [Hok Hc Hin Ev Hv Hptr] Hun Hexta Ha Hd Hn Hre Hdisk Hno Hpre [Hw Hh Hap Hfuel Hrounds] Hf1 Hla Hfr. pose proof Hdisk as [Hcur Hman].
  destruct (env_read _ _ (EnvLaw := EL) e _ data Hre Hman) as (file & Ef & Eu & Hrel). pose proof (env_sequential _ _ (EnvLaw := EL)) as SL.
  destruct (log_cut (edit_record <$> H) fuel data) as (j & tail & more & x & Hj & Ed & Hbd & Hm & Et & Hff & Hwhole); [| |lia|done|].
  { apply Forall_fmap. apply (Forall_impl _ _ _ Hw). intros x [Hx _]. by apply edit_record_ok. }
  { by apply Forall_fmap. }
  exists j. unfold Recover. rewrite length_fmap in Hj, Hwhole.
  rewrite (ReadFileToString_ok fuel e _ _ Hre Hcur) by (rewrite length_app; change (length [10]) with 1%nat; lia). cbn [mbind option_bind Status_ok Status_OK negb].
  rewrite last_snoc, bool_decide_true by done. cbn [negb]. rewrite length_app. change (length [10]) with 1%nat. rewrite Nat.add_sub, take_app_length.
  change (vs_dbname s ++ str "/" ++ manifest_base n) with (DescriptorFileName (vs_dbname s) n). rewrite Ef, Hc. cbn [mbind option_bind Status_ok Status_OK negb].
  destruct (Builder_new_ok s xs ext extra c Hok Hin) as (b & v1 & -> & Ev1 & Eb & Hlb & Hb & Hok2). rewrite Ev in Ev1. injection Ev1 as <-. cbn [mbind option_bind].
  assert (builder_holds b []) as Hb0 by (by apply builder_new_holds).
  pose proof (reader_at_new file (Some []) true 0 Hrel ltac:(by rewrite Eu)) as Hra. rewrite Eu, Ed, log_bytes_take in Hra.
  rewrite log_bytes_take in Et. rewrite <- fmap_take in Hff. destruct (ok_refs _ _ _ _ Hok c v Hin Ev) as [_ Hpos].
  assert (forall i, (i <= length H)%nat -> zlen (manifest_bytes (take i H)) <= zlen data -> (i <= j)%nat) as Hwhole'.
  { intros i Hi. rewrite <- log_bytes_take. by apply Hwhole. }
  specialize (Hap j Hj Hwhole').
  assert (hist_ok (take j H)) as Hhj by (rewrite <- (take_drop j H) in Hh; by apply hist_ok_app in Hh).
  match goal with |- context [recover_loop fuel fuel ?rd ?s0 b ?r0 addrs] =>
    destruct (recover_loop_ok fuel fuel rd 0 tail more x s0 xs (bump_ref ext c 1) extra b [] (take j H) r0 addrs Hra) as (b' & fs & p & -> & Hok3 & Hlp & Eb' & Hb') end; try done.
  { rewrite length_take. lia. }
  { by apply Forall_take. }
  { pose proof (added_by_take j H). lia. }
  cbn [mbind option_bind app] in Hb' |- *. fold no_numbers. set (r := hist_numbers no_numbers (take j H)) in *.
  assert (rs_status r = Status_OK) as Hrs by apply hist_numbers_status. rewrite Hrs. cbn [Status_ok Status_OK].
  match goal with |- context [MarkFileNumberUsed (MarkFileNumberUsed ?s3 ?n1) ?n2] =>
    destruct (MarkFileNumbersUsed_same s3 n1 n2) as ((B1 & B2 & B3 & B4 & B5 & B6) & B7 & B8); set (s4 := MarkFileNumberUsed (MarkFileNumberUsed s3 n1) n2) in * end.
  cbn in B1, B2, B3, B4, B5, B6, B7, B8.
  assert (vs_ok s4 xs (bump_ref ext c 1) (builder_files b' ++ extra)) as Hok4 by (by eapply vs_ok_same; [..|exact Hok3]).
  assert (pointers_ok s4) as Hp4 by (unfold pointers_ok; by rewrite B6).
  assert (vs_versions s4 !! c = Some (with_version_refs v (refs_ v + 1))) as Ev4 by (rewrite B3; apply lookup_insert_eq).
  assert (vs_current s4 = Some c) as Hc4 by (by rewrite B5). rewrite Eb in Eb'.
  destruct (Status_ok (check_numbers r)) eqn:Est.
  - assert (check_numbers r = Status_OK) as Est' by (destruct (check_numbers r); done).
    rewrite Est'. destruct Hun as [U1 U2]. rewrite <- B1 in Hdisk, Hno |- *.
    destruct (finish_recovery_ok options e s4 xs ext extra c (with_version_refs v (refs_ v + 1)) (take j H) b' r a n data sm) as
      (sm' & e' & s' & xs' & w & -> & Hcu & Hnum & Edb & Hnames & Hopen); try done.
    { split; [by rewrite B8|by rewrite B7]. }
    exists sm', e', s'. split; [done|]. split; [done|]. split; [done|]. split; [done|].
    exists xs', w. done.
  - destruct (give_up_ok s4 xs ext extra c v [] b') as (s' & -> & Hcu); try done. cbn [mbind option_bind].
    exists sm, e, s'. split; [done|]. split; [done|]. done.
Qed.
(** ** One step of the manifest *)
Record set_inv (e : E) (s : VersionSet) (xs : list Z) (ext : Z -> Z) (extra : list FileRef) (c : Z) (v : Version) (H : list VersionEdit) : Prop := {
  si_current : current_is s xs ext extra c v H;
  si_written : Forall edit_written H;
  si_open : manifest_open e s H;
  si_short : pointers_short s;
  si_numbers : numbers_ok s
}.

(** The log is open; syncing leaves it where it was. *)
Lemma File_Sync_ok e log n data s e' :
  log_at (names := names) (opened := opened) e log n data -> File_Sync e (dest_ log) = (s, e') ->
  (forall f, f <> n -> names e' !! f = names e !! f) /\ (forall h, h <> dest_ log -> opened e' !! h = opened e !! h)
  /\ (exists x d, opened e' !! dest_ log = Some {| of_name := n; of_data := d; of_idle := x |})
  /\ (Status_ok s = true -> log_at (names := names) (opened := opened) e' log n data).
Proof.
  intros [[Ho Hn] Hw] Es. pose proof (env_sync _ _ (EnvLaw := EL) e (dest_ log)) as Hs. rewrite Es in Hs. cbn [snd] in Hs.
  destruct (Hs _ Ho) as (d & x & Ho' & Hn'). cbn in Ho', Hn'. rewrite decide_True in Hn' by done. split; [|split; [|split]].
  - intros f Hf. by rewrite Hn', lookup_insert_ne.
  - intros h Hh. by rewrite Ho', lookup_insert_ne.
  - exists x, d. rewrite Ho'. apply lookup_insert_eq.
  - intros Hok. destruct (env_same _ _ (EnvLaw := EL) e (dest_ log) s e') as [Hd Hf]; [by right|done|].
    unfold handle_data, handle_idle in Hd, Hf. cbn [fst snd] in Hd, Hf. rewrite Ho, Ho', lookup_insert_eq in Hd, Hf. cbn in Hd, Hf.
    specialize (Hf eq_refl). subst d x.
    split; [|done]. split; [rewrite Ho'; apply lookup_insert_eq|rewrite Hn'; apply lookup_insert_eq].
Qed.

Lemma manifest_bytes_snoc H e : manifest_bytes (H ++ [e]) = manifest_bytes H ++ log_record (zlen (manifest_bytes H)) (edit_record e).
Proof. unfold manifest_bytes. rewrite fmap_app, log_bytes_app. cbn [fmap list_fmap log_bytes]. by rewrite app_nil_r, Z.add_0_l. Qed.

(** A record, and the sync. *)
Lemma add_and_sync_ok e log n H edit :
  log_at (names := names) (opened := opened) e log n (manifest_bytes H) -> edit_ok edit ->
  exists st e1 log1 st2 e2, log_AddRecord e log (edit_record edit) = Some (st, e1, log1) /\ dest_ log1 = dest_ log
    /\ (if Status_ok st then File_Sync e1 (dest_ log) else (st, e1)) = (st2, e2)
    /\ (forall f, f <> n -> names e2 !! f = names e !! f) /\ (forall h, h <> dest_ log -> opened e2 !! h = opened e !! h)
    /\ (exists x d, opened e2 !! dest_ log = Some {| of_name := n; of_data := d; of_idle := x |})
    /\ (Status_ok st2 = true -> log_at (names := names) (opened := opened) e2 log1 n (manifest_bytes (H ++ [edit]))).
Proof.
  intros Hlog Hok. destruct (edit_record_ok edit Hok) as (_ & _ & Hb).
  destruct (log_AddRecord_ok e log n _ _ Hlog Hb) as (st & e1 & log1 & -> & Edest & d & x & Ho & Hn & Hst).
  assert (forall f, f <> n -> names e1 !! f = names e !! f) as Hn1 by (intros f Hf; by rewrite Hn, lookup_insert_ne).
  assert (forall h, h <> dest_ log -> opened e1 !! h = opened e !! h) as Ho1 by (intros h Hh; by rewrite Ho, lookup_insert_ne).
  exists st, e1, log1. destruct (Status_ok st) eqn:Est.
  - destruct Hst as (-> & -> & Hw). assert (log_at (names := names) (opened := opened) e1 log1 n (manifest_bytes (H ++ [edit]))) as Hlog1.
    { rewrite manifest_bytes_snoc. split; [|done]. rewrite Edest. split; [rewrite Ho|rewrite Hn]; apply lookup_insert_eq. }
    rewrite <- Edest. destruct (File_Sync e1 (dest_ log1)) as [st2 e2] eqn:Es. destruct (File_Sync_ok e1 log1 n _ st2 e2 Hlog1 Es) as (F1 & F2 & F3 & F4).
    exists st2, e2. split_and!; try done.
    + intros f Hf. by rewrite F1, Hn1.
    + intros h Hh. rewrite F2 by done. apply Ho1. congruence.
  - exists st, e1. split_and!; try done; [|by rewrite Est]. exists x, d. rewrite Ho. apply lookup_insert_eq.
Qed.
(** Files but the manifest, the temporary file and, when all went well, [CURRENT]. *)
Definition others_kept (s : VersionSet) (st : Status) (e e' : E) : Prop :=
  forall f, f <> manifest_name s -> f <> TempFileName (vs_dbname s) (vs_manifest_file_number s) ->
    (Status_ok st = true -> f <> CurrentFileName (vs_dbname s)) -> names e' !! f = names e !! f.

(** Where the files can be made: nobody else writes them. *)
Record names_free (e : E) (s : VersionSet) : Prop := {
  nf_temp : not_open opened e (TempFileName (vs_dbname s) (vs_manifest_file_number s));
  nf_current : not_open opened e (CurrentFileName (vs_dbname s));
  nf_manifest : vs_descriptor_log s = None -> not_open opened e (manifest_name s)
}.

(** A new manifest. *)
Lemma open_manifest_new_ok e s v H :
  untouched s -> current_version s = Some v -> stands_for (files_ v) H -> Forall edit_written H -> pointers_ok s -> pointers_short s ->
  short_bytes Comparator_Name -> names_free e s ->
  exists st e' f l, open_manifest e s = Some (st, Some (manifest_name s), e', with_descriptor s f l)
    /\ (forall n, n <> manifest_name s -> names e' !! n = names e !! n)
    /\ (forall h, f <> Some h -> opened e' !! h = opened e !! h)
    /\ (forall h, f = Some h -> exists x d, opened e' !! h = Some {| of_name := manifest_name s; of_data := d; of_idle := x |})
    /\ (Status_ok st = true -> exists log, l = Some log /\ f = Some (dest_ log)
         /\ log_at (names := names) (opened := opened) e' log (manifest_name s) (manifest_bytes [snapshot_edit s v])).
Proof.
  intros [Hl Hf] Hv Hst Hw Hp Hps Hname [Ht Hc Hm]. unfold open_manifest. rewrite Hl, Hf, bool_decide_false by (by intros [? ?]).
  destruct (NewWritableFile e (DescriptorFileName (vs_dbname s) (vs_manifest_file_number s))) as [[st f] e0] eqn:E0.
  apply (env_new_writable _ _ (EnvLaw := EL)) in E0; [|by apply Hm]. destruct (Status_ok st) eqn:Est.
  2:{ destruct E0 as (-> & Hn & Ho). exists st, e0, None, None. split; [|split_and!; [by rewrite Hn|by rewrite Ho|done|by rewrite Est]].
      do 3 f_equal. rewrite <- Hl, <- Hf. by destruct s. }
  destruct E0 as (h & -> & Hh & Ho & Hn). unfold WriteSnapshot. rewrite Hv. cbn [mbind option_bind].
  pose proof (snapshot_written s v H Hst Hw Hp Hps Hname) as [Hok _]. destruct (edit_record_ok _ Hok) as (-> & _ & Hb). cbn [mbind option_bind].
  assert (log_at (names := names) (opened := opened) e0 (Writer_new h) (manifest_name s) []) as Hlog.
  { split; [split; cbn; [rewrite Ho|rewrite Hn]; apply lookup_insert_eq|apply writer_at_new]. }
  destruct (log_AddRecord_ok e0 _ _ _ _ Hlog Hb) as (st1 & e1 & log1 & -> & Ed & d & x & Ho1 & Hn1 & Hst1). cbn [mbind option_bind].
  cbn [dest_ Writer_new] in Ed, Ho1. exists st1, e1, (Some h), (Some log1). split; [done|]. split_and!.
  - intros n Hne. rewrite Hn1, Hn. unfold manifest_name in Hne |- *. by rewrite !lookup_insert_ne.
  - intros h' Hne. rewrite Ho1, Ho, !lookup_insert_ne; [done|congruence..].
  - intros h' [= <-]. exists x, d. rewrite Ho1. apply lookup_insert_eq.
  - intros Hs. rewrite Hs in Hst1. destruct Hst1 as (-> & -> & Hw1). exists log1. split; [done|]. split; [by rewrite Ed|]. split.
    + rewrite Ed. split; [rewrite Ho1|rewrite Hn1]; unfold manifest_bytes; cbn [fmap list_fmap log_bytes]; rewrite app_nil_r; apply lookup_insert_eq.
    + unfold manifest_bytes. cbn [fmap list_fmap log_bytes]. by rewrite app_nil_r.
Qed.
Lemma not_open_kept e e' h n m :
  not_open opened e m -> n <> m -> (forall h', h' <> h -> opened e' !! h' = opened e !! h') ->
  (exists x d, opened e' !! h = Some {| of_name := n; of_data := d; of_idle := x |}) -> not_open opened e' m.
Proof.
  intros Hm Hne Ho (x & d & Hh) h' f Hf. destruct (decide (h' = h)) as [->|Hn].
  - rewrite Hh in Hf. by injection Hf as <-.
  - rewrite Ho in Hf by done. by apply (Hm h').
Qed.

(** A record to the manifest that is there. *)
Lemma write_manifest_old_ok e s H edit log h :
  vs_descriptor_log s = Some log -> vs_descriptor_file s = Some h -> manifest_open e s H -> edit_written edit ->
  exists st e' l, write_manifest e s edit Status_OK None = Some (st, e', with_descriptor s (Some h) l)
    /\ others_kept s st e e' /\ (Status_ok st = true -> is_Some l /\ manifest_open e' (with_descriptor s (Some h) l) (H ++ [edit])).
Proof.
  intros El Eh Hm [Hok _]. unfold manifest_open in Hm. rewrite El, Eh in Hm. destruct Hm as (Ed & Hlog & Hcur & Hman).
  unfold write_manifest. cbn [Status_ok Status_OK]. destruct (edit_record_ok edit Hok) as (-> & _). rewrite El, Eh. cbn [mbind option_bind].
  destruct (add_and_sync_ok e log _ H edit Hlog Hok) as (st & e1 & log1 & st2 & e2 & -> & Ed1 & E2 & Hn & Ho & _ & Hok2). cbn [mbind option_bind].
  rewrite <- Ed, E2. cbn [mbind option_bind]. exists st2, e2, (Some log1). split; [done|]. split; [by intros f Hf _ _; apply Hn|].
  intros Hs. split; [by eexists|]. specialize (Hok2 Hs). unfold manifest_open. cbn. split; [done|]. split; [done|].
  split; [rewrite Hn; [done|apply not_eq_sym, Descriptor_not_Current]|apply Hok2].
Qed.

(** The first record of a new manifest, and its name in [CURRENT]. *)
Lemma write_manifest_new_ok e s H edit log :
  in_uint 64 (vs_manifest_file_number s) ->
  vs_descriptor_log s = Some log -> vs_descriptor_file s = Some (dest_ log) ->
  log_at (names := names) (opened := opened) e log (manifest_name s) (manifest_bytes H) -> edit_written edit ->
  not_open opened e (TempFileName (vs_dbname s) (vs_manifest_file_number s)) -> not_open opened e (CurrentFileName (vs_dbname s)) ->
  exists st e' l, write_manifest e s edit Status_OK (Some (manifest_name s)) = Some (st, e', with_descriptor s (Some (dest_ log)) l)
    /\ others_kept s st e e' /\ (Status_ok st = true -> is_Some l /\ manifest_open e' (with_descriptor s (Some (dest_ log)) l) (H ++ [edit])).
Proof.
  intros Hnum El Eh Hlog [Hok _] Ht Hc. unfold write_manifest. cbn [Status_ok Status_OK]. destruct (edit_record_ok edit Hok) as (-> & _). rewrite El, Eh. cbn [mbind option_bind].
  destruct (add_and_sync_ok e log _ H edit Hlog Hok) as (st & e1 & log1 & st2 & e2 & -> & Ed1 & E2 & Hn & Ho & Hx & Hok2). cbn [mbind option_bind].
  rewrite E2. cbn [mbind option_bind].
  pose proof (not_open_kept e e2 _ _ _ Ht (Descriptor_not_Temp _ _ _ Hnum) Ho Hx) as Ht2.
  pose proof (not_open_kept e e2 _ _ _ Hc (Descriptor_not_Current _ _) Ho Hx) as Hc2.
  destruct (Status_ok st2) eqn:Es2.
  - destruct (SetCurrentFile_ok e2 (vs_dbname s) (vs_manifest_file_number s) Ht2 Hc2) as (st3 & e3 & Esc & Ho3 & Hn3 & Hcur). cbn [with_descriptor vs_dbname vs_manifest_file_number].
    rewrite Esc. cbn [mbind option_bind]. exists st3, e3, (Some log1). split; [done|]. split.
    + intros f Hf1 Hf2 Hf3. destruct (decide (f = CurrentFileName (vs_dbname s))) as [->|Hne].
      * rewrite Hcur. destruct (Status_ok st3); [by destruct Hf3|]. by apply Hn.
      * rewrite Hn3 by done. by apply Hn.
    + intros Hs. split; [by eexists|]. rewrite Hs in Hcur. specialize (Hok2 eq_refl). unfold manifest_open. cbn. split; [done|].
      assert (names e3 !! manifest_name s = names e2 !! manifest_name s) as Em.
      { apply Hn3; [apply Descriptor_not_Current|by apply Descriptor_not_Temp]. }
      destruct Hok2 as [[Hs1 Hs2] Hs3]. split; [|split; [done|]].
      * split; [|done]. split; [by rewrite Ho3|]. etrans; [exact Em|exact Hs2].
      * etrans; [exact Em|exact Hs2].
  - exists st2, e2, (Some log1). split; [done|]. split; [by intros f Hf _ _; apply Hn|]. by rewrite Es2.
Qed.

Lemma manifest_step_ok e s v H edit :
  current_version s = Some v -> stands_for (files_ v) H -> Forall edit_written H -> pointers_ok s -> pointers_short s ->
  short_bytes Comparator_Name -> names_free e s -> in_uint 64 (vs_manifest_file_number s) -> manifest_open e s H -> edit_written edit ->
  exists st1 name e1 s1 st e' f l, open_manifest e s = Some (st1, name, e1, s1) /\ (name = None \/ name = Some (manifest_name s))
    /\ write_manifest e1 s1 edit st1 name = Some (st, e', with_descriptor s f l)
    /\ others_kept s st e e'
    /\ (Status_ok st = true -> exists H', (H' = H \/ (vs_descriptor_log s = None /\ H' = [snapshot_edit s v])) /\ is_Some l /\ manifest_open e' (with_descriptor s f l) (H' ++ [edit])).
Proof.
  intros Hv Hst Hw Hp Hps Hname Hfree Hnum Hm He. destruct (vs_descriptor_log s) as [log|] eqn:El.
  - destruct (vs_descriptor_file s) as [h|] eqn:Eh; [|unfold manifest_open in Hm; by rewrite El, Eh in Hm].
    destruct (write_manifest_old_ok e s H edit log h El Eh Hm He) as (st & e' & l & Ew & Hk & Hok).
    exists Status_OK, None, e, s, st, e', (Some h), l. unfold open_manifest. rewrite El. split; [done|]. split; [by left|]. split; [done|]. split; [done|].
    intros Hs. destruct (Hok Hs). exists H. split_and!; [by left|done|done].
  - destruct (vs_descriptor_file s) as [h|] eqn:Eh; [unfold manifest_open in Hm; by rewrite El, Eh in Hm|].
    destruct (open_manifest_new_ok e s v H (conj El Eh) Hv Hst Hw Hp Hps Hname Hfree) as (st1 & e1 & f & l & -> & Hn & Ho & Hx & Hok).
    exists st1, (Some (manifest_name s)), e1, (with_descriptor s f l). destruct (Status_ok st1) eqn:Es1.
    + destruct (Hok eq_refl) as (log & -> & -> & Hlog). destruct Hfree as [Ht Hc _]. set (s1 := with_descriptor s _ _).
      assert (st1 = Status_OK) as -> by (by destruct st1).
      assert (forall h', h' <> dest_ log -> opened e1 !! h' = opened e !! h') as Ho' by (intros h' Hne; apply Ho; congruence).
      destruct (write_manifest_new_ok e1 s1 [snapshot_edit s v] edit log) as (st & e' & l & Ew & Hk & Hres); try done.
      { apply (not_open_kept e e1 (dest_ log) (manifest_name s)); [done|by apply Descriptor_not_Temp|done|by apply Hx]. }
      { apply (not_open_kept e e1 (dest_ log) (manifest_name s)); [done|apply Descriptor_not_Current|done|by apply Hx]. }
      exists st, e', (Some (dest_ log)), l. split; [done|]. split; [by right|]. split; [exact Ew|]. split.
      * intros f Hf1 Hf2 Hf3. rewrite (Hk f) by done. by apply Hn.
      * intros Hs. destruct (Hres Hs) as [Hl Hmo]. exists [snapshot_edit s v]. split_and!; [by right|done|exact Hmo].
    + exists st1, e1, f, l. split; [done|]. split; [by right|]. split; [|split; [by intros f' Hf _ _; apply Hn|by rewrite Es1]].
      unfold write_manifest. rewrite Es1. cbn [mbind option_bind]. by rewrite Es1.
Qed.
Lemma apply_pointers_short l p p' :
  Forall (fun x => short_bytes x.2) l -> Forall (fun q => q = [] \/ short_bytes q) p -> LdbVersionSet.apply_pointers l p = Some p' ->
  Forall (fun q => q = [] \/ short_bytes q) p'.
Proof.
  intros Hl. revert p. induction Hl as [|[level key] l Hk Hl IH]; intros p Hp; cbn [LdbVersionSet.apply_pointers]; [by intros [= <-]|].
  unfold InternalKey_Encode. case_bool_decide; [done|]. cbn [mbind option_bind]. destruct (_ <? _)%nat; [|done].
  intros E1. apply IH in E1; [done|]. apply Forall_insert; [done|by right].
Qed.

Lemma edit_pointers_short e : edit_ok e -> Forall (fun x => short_bytes x.2) (compact_pointers_ e).
Proof.
  intros [He _ _ _ _]. unfold edit_entries in He. rewrite !Forall_app in He. destruct He as (_ & _ & _ & _ & _ & He & _).
  change (Forall entry_ok (pointer_entry <$> compact_pointers_ e)) in He. rewrite Forall_fmap in He. apply (Forall_impl _ _ _ He). by intros x [_ ?].
Qed.

Lemma SetNextFile_completed s e : completed s e -> SetNextFile e (vs_next_file_number s) = e.
Proof. intros [_ _ [H1 H2] _]. destruct e; cbn in *; by subst. Qed.

(** The numbers after a completed edit are those of the set. *)
Lemma hist_numbers_completed s H e :
  completed s e -> check_numbers (hist_numbers no_numbers (H ++ [e])) = Status_OK
  /\ rs_next_file (hist_numbers no_numbers (H ++ [e])) = Some (vs_next_file_number s)
  /\ rs_last_sequence (hist_numbers no_numbers (H ++ [e])) = Some (vs_last_sequence s)
  /\ rs_log_number (hist_numbers no_numbers (H ++ [e])) = Some (log_number_ e)
  /\ rs_prev_log_number (hist_numbers no_numbers (H ++ [e])) = Some (prev_log_number_ e).
Proof.
  intros [C1 C2 [C3 C4] [C5 C6]]. unfold hist_numbers. rewrite fold_left_app. cbn [fold_left].
  pose proof (hist_numbers_status no_numbers H) as Hs. unfold hist_numbers in Hs. unfold note_numbers at 1.
  unfold check_numbers. cbn [rs_status note_numbers]. rewrite Hs. cbn. by rewrite C1, C2, C3, C4, C5, C6.
Qed.

(** What [LogAndApply] leaves when it succeeds. *)
Record applied (e : E) (s s' : VersionSet) (xs : list Z) (ext : Z -> Z) (extra : list FileRef) (a : Z) (w : Version) (M : list VersionEdit) (edit edit' : VersionEdit) : Prop := {
  ap_inv : set_inv e s' xs ext extra a w (M ++ [edit']);
  ap_files : same_files edit edit';
  ap_completed : completed s' edit';
  ap_disk : on_disk e (vs_dbname s) (vs_manifest_file_number s) (manifest_bytes (M ++ [edit']));
  ap_log : vs_log_number s' = log_number_ edit' /\ log_number_ edit' = log_after s edit;
  ap_prev : vs_prev_log_number s' = prev_log_number_ edit' /\ prev_log_number_ edit' = prev_log_after s edit;
  ap_same : vs_dbname s' = vs_dbname s /\ vs_next_file_number s' = vs_next_file_number s /\ vs_last_sequence s' = vs_last_sequence s
            /\ vs_manifest_file_number s' = vs_manifest_file_number s
}.

(** The edit fits the state. *)
Record edit_fits (s : VersionSet) (H : list VersionEdit) (edit : VersionEdit) : Prop := {
  ft_written : edit_written edit;
  ft_log : log_number_fits s edit;
  ft_hist : hist_ok (H ++ [edit]);
  ft_apart : hist_apart (H ++ [edit])
}.

Lemma LogAndApply_step e s xs ext extra c v H edit a addrs :
  set_inv e s xs ext extra c v H -> edit_fits s H edit -> names_free e s -> short_bytes Comparator_Name ->
  a ∉ xs -> a <> dummy_versions_ -> ext a = 0 -> (length (new_files_ edit) <= length addrs)%nat -> fresh_addrs (vs_files s) addrs ->
  exists st e' s' edit', LogAndApply e s edit a addrs = Some (st, e', s', edit') /\ others_kept s st e e'
    /\ if Status_ok st then exists M xs' w, applied e' s s' xs' (moved ext (Some c) a) extra a w M edit edit'
         /\ (vs_descriptor_log s <> None -> M = H) /\ stands_for (files_ v) M /\ hist_ok (M ++ [edit']) /\ hist_apart (M ++ [edit'])
       else current_is s' xs ext extra c v H.
Proof.
  intros [Hcu Hw Hm Hps Hnum] [Hwe Hlf Hh Hap] Hfree Hname Ha Hd Hext Hla Hfr. pose proof Hcu as [Hok Hc Hin Ev Hst Hp].
  destruct (complete_edit_ok s edit Hwe Hnum Hlf) as (edit' & Ece & Hsame & Hwe' & Hco & Elog & Eprev). unfold LogAndApply. rewrite Ece. cbn [mbind option_bind].
  pose proof (same_files_ok H edit edit' Hsame Hh) as Hh'. pose proof (same_files_apart H edit edit' Hsame Hap) as Hap'. pose proof Hsame as (_ & _ & Enew).
  destruct (build_version_ok s xs ext extra c v H edit' a addrs Hcu Hh' Hap' Ha Hd) as (l & m & fs & p & w & -> & Hok1 & Hp1 & Hw1 & Emc & Hlp & Ep);
    [by rewrite Enew|done|]. cbn [mbind option_bind]. set (s1 := with_pointer (with_versions s l m fs) p) in *.
  assert (pointers_short s1) as Hps1.
  { apply (apply_pointers_short (compact_pointers_ edit') (vs_compact_pointer s)); [apply edit_pointers_short, Hwe'|done|exact Ep]. }
  assert (current_version s1 = Some v) as Hv1 by (unfold current_version; cbn; by rewrite Hc).
  assert (names_free e s1) as Hfree1 by (destruct Hfree as [F1 F2 F3]; by split).
  assert (in_uint 64 (vs_manifest_file_number s1)) as Hmn by apply Hnum.
  destruct (manifest_step_ok e s1 v H edit' Hv1 Hst Hw Hlp Hps1 Hname Hfree1 Hmn Hm Hwe')
    as (st1 & name & e1 & s2 & st & e2 & f & lg & Eopen & Hnm & Ewrite & Hk & Hres). rewrite Eopen. cbn [mbind option_bind].
  assert (vs_next_file_number s2 = vs_next_file_number s) as En2.
  { unfold open_manifest in Eopen. destruct (vs_descriptor_log s1); [by injection Eopen as <- <- <- <-|].
    destruct (bool_decide _); [done|]. destruct (NewWritableFile e _) as [[st0 [h|]] e0]; [|by destruct (Status_ok st0); [|injection Eopen as <- <- <- <-]].
    destruct (Status_ok st0); [|by injection Eopen as <- <- <- <-]. destruct (WriteSnapshot e0 s1 (Writer_new h)) as [[[? ?] ?]|]; [|done].
    by injection Eopen as <- <- <- <-. }
  assert ((if bool_decide (is_Some name) then SetNextFile edit' (vs_next_file_number s2) else edit') = edit') as ->.
  { destruct (bool_decide _); [|done]. rewrite En2. by apply SetNextFile_completed. }
  rewrite Ewrite. cbn [mbind option_bind]. unfold install_version. set (s3 := with_descriptor s1 f lg) in *.
  assert (vs_ok s3 xs ext (concat (files_ w) ++ extra)) as Hok3 by (by apply (vs_ok_same s1)).
  assert (pending s3 xs a w) as Hp3 by done.
  destruct (Status_ok st) eqn:Est.
  - destruct (Hres eq_refl) as (M & HM & Hlg & Hopen).
    destruct (AppendVersion_ok s3 xs ext extra a w Hok3 Hp3 Hext) as (l4 & m4 & fs4 & xs4 & -> & Hok4 & Em4 & Hs1 & Hs2); [cbn; rewrite Hc; by intros ? [= <-]|].
    cbn [mbind option_bind]. eexists st, e2, _, edit'. split; [done|]. split; [done|]. rewrite Est. exists M, (xs4 ++ [a]), (with_version_refs w 1).
    assert (stands_for (files_ v) M /\ Forall edit_written M /\ hist_ok (M ++ [edit']) /\ hist_apart (M ++ [edit'])
      /\ (vs_descriptor_log s <> None -> M = H) /\ forall i, hist_live i M ≡ₚ hist_live i H) as (HsM & HwM & HhM & HaM & HMH & HlM).
    { destruct HM as [->|[El ->]]; [done|]. pose proof (snapshot_stands s1 v H Hst Hw). pose proof (snapshot_written s1 v H Hst Hw Hlp Hps1 Hname).
      pose proof (snapshot_hist_ok s1 v H Hst Hw Hlp Hps1 Hname edit' Hh'). pose proof (snapshot_hist_apart s1 v H Hst Hw Hlp Hps1 Hname edit' Hh' Hap').
      pose proof (snapshot_live s1 v H Hst Hw). split_and!; [done|by constructor|done|done|done|done]. }
    assert (in_uint 64 (log_number_ edit') /\ in_uint 64 (prev_log_number_ edit')) as [Hn1 Hn2].
    { destruct (edit_ok_numbers edit' (proj1 Hwe')) as [N1 N2]. destruct Hco as [C1 C2 _ _]. by split; [apply N1|apply N2]. }
    pose proof Hopen as Hdisk. unfold manifest_open in Hdisk. cbn [with_descriptor vs_descriptor_log vs_descriptor_file] in Hdisk.
    destruct lg as [lg|]; [|by destruct Hlg]. destruct f as [f|]; [|done]. destruct Hdisk as (_ & _ & Hdisk).
    destruct Hnum as (Q1 & Q2 & Q3 & _ & _).
    split; [|done]. split; try done; [|destruct Hco as [C1 C2 C3 C4]; by split].
    split; [|by apply Forall_app; split; [|by constructor]|exact Hopen|exact Hps1|by split_and!].
    split; [|done|set_solver|exact Em4| |exact Hlp].
    + cbn in Hok4. rewrite Hc in Hok4. by eapply vs_ok_same; [..|exact Hok4].
    + cbn [with_version_refs files_]. destruct Hw1 as [Hwl Hws]. split; [done|]. intros i files Hi. destruct (Hws i files Hi) as (W1 & W2 & W3).
      split_and!; [done| |done]. rewrite W2, (hist_live_app i H [edit'] Hh'), (hist_live_app i M [edit'] HhM). by rewrite HlM.
  - destruct (pending_delete_ok s3 xs ext extra a w Hok3 Hp3) as (l4 & m4 & fs4 & -> & Hok4 & Hm4). cbn [mbind option_bind].
    assert (forall f' g, current_is (with_descriptor (with_versions s3 l4 m4 fs4) f' g) xs ext extra c v H) as Hcu'.
    { intros f' g. split; [by apply (vs_ok_same (with_versions s3 l4 m4 fs4))|done|done| |done|exact Hlp]. cbn. rewrite Hm4 by congruence. exact Emc. }
    destruct Hnm as [->| ->].
    + eexists st, e2, _, edit'. split; [done|]. split; [done|]. rewrite Est. apply (Hcu' f lg).
    + eexists st, _, _, edit'. split; [done|]. rewrite Est. split; [|apply (Hcu' None None)].
      set (e3 := match vs_descriptor_file _ with Some h => File_delete e2 h | None => e2 end).
      assert (names e3 = names e2) as En3 by (unfold e3; destruct (vs_descriptor_file _); [apply (env_delete_handle _ _ (EnvLaw := EL))|done]).
      destruct (Env_DeleteFile e3 (manifest_name s1)) as [st4 e4] eqn:E4. apply (env_remove _ _ (EnvLaw := EL)) in E4 as [_ Hn4]. cbn [snd].
      intros g Hg1 Hg2 Hg3. rewrite <- (Hk g Hg1 Hg2 Hg3). rewrite Hn4, En3. destruct (Status_ok st4); [|done]. by apply lookup_delete_ne, not_eq_sym.
Qed.
(** ** A new set *)
Lemma VersionSet_new_ok dbname c :
  c <> dummy_versions_ -> exists s xs ext, VersionSet_new dbname c = Some s /\ current_is s xs ext [] c (with_version_refs Version_make 1) []
    /\ (forall x, x <> c -> ext x = 0 /\ x ∉ xs) /\ untouched s /\ vs_files s = ∅ /\ vs_dbname s = dbname /\ pointers_short s /\ numbers_ok s.
Proof.
  intros Hc. unfold VersionSet_new. set (s0 := {| vs_dbname := dbname |}).
  assert (vs_ok s0 [] (fun _ => 0) []) as Hok0.
  { split; [|by intros a ?%elem_of_nil|by intros a v ?%elem_of_nil|].
    - apply ring_init_ok.
    - intros a. done. }
  destruct (new_version_ok s0 [] _ [] c Hok0) as [Hok1 Hp1]; [set_solver|done|].
  destruct (AppendVersion_ok (new_version s0 c) [] (fun _ => 0) [] c Version_make) as (l & m & fs & xs' & Ea & Hok2 & Em & Hsub & _); [done|done|done|done|].
  assert (xs' = []) as -> by (destruct xs' as [|x xs']; [done|]; exfalso; by apply (not_elem_of_nil x), Hsub; left).
  assert (fs = ∅) as ->.
  { revert Ea. unfold AppendVersion. cbn. rewrite lookup_insert_eq. cbn. unfold Version_Ref. cbn. rewrite lookup_insert_eq. cbn.
    destruct (ring_append _ _ _) as [l'|]; [|done]. cbn. by intros [= _ _ <-]. }
  eexists _, [c], _. split; [exact Ea|]. split; [split; [exact Hok2|done|set_solver|exact Em| |done]|].
  - split; [done|]. intros i files Hi. cbn in Hi. apply lookup_replicate in Hi as [-> _]. split; [split; [constructor|split; constructor]|].
    split; [done|]. intros _ j k f g _ Hj. by rewrite lookup_nil in Hj.
  - split; [|split_and!; try done].
    + intros x Hx. unfold moved. cbn. rewrite bump_ref_other by done. split; [done|set_solver].
    + unfold pointers_short. cbn. repeat constructor.
Qed.
(** ** The bounds of [Recover] *)
Lemma edit_record_files e : (length (new_files_ e) <= length (edit_record e))%nat.
Proof.
  unfold edit_record, edit_entries. rewrite !map_app, !concat_app, !length_app.
  assert (forall l, length l <= length (concat (map entry_bytes (map new_entry l))))%nat as Hl; [|specialize (Hl (new_files_ e)); lia].
  induction l as [|x l IH]; [done|]. cbn [map concat length]. rewrite length_app. cbn [entry_bytes new_entry]. rewrite length_app.
  pose proof (varint_length kNewFile). lia.
Qed.

Lemma added_by_length pos H : 0 <= pos -> (added_by H <= length (log_bytes pos (edit_record <$> H)))%nat.
Proof.
  revert pos. induction H as [|e H IH]; intros pos Hp; [done|]. unfold added_by in *. cbn [fmap list_fmap concat log_bytes]. cbv zeta. rewrite !length_app.
  pose proof (edit_record_files e). pose proof (log_record_length pos (edit_record e) Hp).
  specialize (IH (pos + zlen (log_record pos (edit_record e))) ltac:(lia)). lia.
Qed.

Lemma recoverable_bounds fuel H data :
  Forall edit_written H -> hist_ok H ->
  (forall j, (j <= length H)%nat -> (forall i, (i <= length H)%nat -> zlen (manifest_bytes (take i H)) <= zlen data -> (i <= j)%nat) -> hist_apart (take j H)) ->
  (length (manifest_bytes H) < fuel)%nat -> recoverable fuel H data.
Proof.
  intros Hw Hh Ha Hf. destruct (log_bytes_length 0 (edit_record <$> H) ltac:(lia)) as [H1 H2]. rewrite length_fmap in H2. fold (manifest_bytes H) in H1, H2.
  split; [done|done|done| |lia]. rewrite Forall_fmap in H1. apply (Forall_impl _ _ _ H1). cbn. lia.
Qed.

Lemma recoverable_whole fuel H :
  Forall edit_written H -> hist_ok H -> hist_apart H -> (length (manifest_bytes H) < fuel)%nat -> recoverable fuel H (manifest_bytes H).
Proof.
  intros Hw Hh Ha Hf. apply recoverable_bounds; [done|done| |done]. intros j Hj Hi. rewrite take_ge; [done|].
  apply Hi; [done|]. by rewrite take_ge.
Qed.

(** C13: Recovery of the manifest.  [CURRENT] names a manifest which holds a
    prefix of the log of the edits [H], as a crash may leave it.  A new set that
    recovers from it applies some first edits of [H], at least all those whose
    records are whole, fails exactly when these lack a number, and its current
    version is then what these edits make of no files: per level the added
    files that were not deleted, in order, and apart above level 0; the numbers
    are the last ones of the edits.  No file is changed. *)
Theorem manifest_recovery fuel options e dbname n data H c a sm addrs :
  c <> dummy_versions_ -> a <> dummy_versions_ -> a <> c -> in_uint 64 n ->
  readable e -> on_disk e dbname n data -> not_open opened e (DescriptorFileName dbname n) -> data `prefix_of` manifest_bytes H ->
  Forall edit_written H -> hist_ok H -> (forall j, hist_apart (take j H)) ->
  (length (manifest_bytes H) < fuel)%nat -> (length (manifest_base n) + 1 < fuel)%nat -> NoDup addrs -> (length (manifest_bytes H) <= length addrs)%nat ->
  exists s j sm' e' s', VersionSet_new dbname c = Some s /\ (j <= length H)%nat
    /\ (forall i, (i <= length H)%nat -> zlen (manifest_bytes (take i H)) <= zlen data -> (i <= j)%nat)
    /\ Recover fuel options e s sm a addrs = Some (check_numbers (hist_numbers no_numbers (take j H)), sm', e', s') /\ names e' = names e
    /\ (Status_ok (check_numbers (hist_numbers no_numbers (take j H))) = true ->
        exists w, current_version s' = Some w /\ stands_for (files_ w) (take j H) /\ numbers_are s' (hist_numbers no_numbers (take j H))).
Proof.
  intros Hc Ha Hac Hn Hr Hd Hno Hpre Hw Hh Hap Hf Hf1 Hnd Hla.
  destruct (VersionSet_new_ok dbname c Hc) as (s & xs & ext & -> & Hcu & Hext & Hun & Hfs & Edb & _). destruct (Hext a Hac) as [E1 E2]. rewrite <- Edb in Hd, Hno.
  pose proof (added_by_length 0 H ltac:(lia)) as Hadd. fold (manifest_bytes H) in Hadd.
  destruct (Recover_prefix fuel options e s xs ext [] c _ H n data sm a addrs Hcu Hun E1 E2 Ha Hn Hr Hd Hno Hpre) as (j & sm' & e' & s' & Hj & Hi & Hrec & Hnm & Hres);
    [by apply recoverable_bounds|done|lia|split; [done|intros; by rewrite Hfs]|].
  exists s, j, sm', e', s'. split_and!; try done. intros Hs. rewrite Hs in Hres. destruct Hres as (xs' & w & [K1 K2 K3 K4 K5 K6] & Hnum & _).
  exists w. split; [|done]. unfold current_version. by rewrite K2.
Qed.

(** C12: [LogAndApply] makes its edit last.  On a set whose manifest, if it is
    open, holds the edits that the current version stands for, it returns, and
    when it succeeds the current version is the one with the edit applied, the
    invariant holds again, and [CURRENT] names a manifest from which a new set
    recovers the files of the current version and the numbers of the set,
    however the process ends.  When it fails the current version is the old one
    and no file is changed but the manifest being written and the temporary
    one. *)
Theorem LogAndApply_durable e s xs ext extra c v H edit a addrs :
  set_inv e s xs ext extra c v H -> edit_fits s H edit -> names_free e s -> short_bytes Comparator_Name ->
  a ∉ xs -> a <> dummy_versions_ -> ext a = 0 -> (length (new_files_ edit) <= length addrs)%nat -> fresh_addrs (vs_files s) addrs ->
  exists st e' s' edit', LogAndApply e s edit a addrs = Some (st, e', s', edit') /\ others_kept s st e e'
    /\ if Status_ok st then exists M xs' ext' w, set_inv e' s' xs' ext' extra a w (M ++ [edit']) /\ stands_for (files_ w) (M ++ [edit'])
         /\ stands_for (files_ v) M /\ same_files edit edit'
         /\ forall fuel options e0 c0 a0 sm addrs0, c0 <> dummy_versions_ -> a0 <> dummy_versions_ -> a0 <> c0 ->
           readable e0 -> names e0 !! CurrentFileName (vs_dbname s) = names e' !! CurrentFileName (vs_dbname s) ->
           names e0 !! manifest_name s = names e' !! manifest_name s -> not_open opened e0 (manifest_name s) ->
           (length (manifest_bytes (M ++ [edit'])) < fuel)%nat -> (length (manifest_base (vs_manifest_file_number s)) + 1 < fuel)%nat ->
           NoDup addrs0 -> (length (manifest_bytes (M ++ [edit'])) <= length addrs0)%nat ->
           exists s0 sm' e0' s0' w0, VersionSet_new (vs_dbname s) c0 = Some s0 /\ Recover fuel options e0 s0 sm a0 addrs0 = Some (Status_OK, sm', e0', s0')
             /\ current_version s0' = Some w0 /\ metas (files_ w0) = metas (files_ w)
             /\ vs_next_file_number s0' = u64 (vs_next_file_number s' + 1) /\ vs_last_sequence s0' = vs_last_sequence s'
             /\ vs_log_number s0' = vs_log_number s' /\ vs_prev_log_number s0' = vs_prev_log_number s'
       else current_version s' = Some v.
Proof.
  intros Hinv Hfit Hfree Hname Ha Hd Hext Hla Hfr. pose proof (si_numbers _ _ _ _ _ _ _ _ Hinv) as (_ & Hnum & _).
  destruct (LogAndApply_step e s xs ext extra c v H edit a addrs Hinv Hfit Hfree Hname Ha Hd Hext Hla Hfr) as (st & e' & s' & edit' & -> & Hk & Hres).
  exists st, e', s', edit'. split; [done|]. split; [done|]. destruct (Status_ok st).
  2:{ destruct Hres as [K1 K2 K3 K4 K5 K6]. unfold current_version. by rewrite K2. }
  destruct Hres as (M & xs' & w & [Hi Hsame Hco [Hcur Hman] [L1 _] [P1 _] (S1 & S2 & S3 & S4)] & _ & HsM & HhM & HaM). pose proof Hi as [Hcu Hw _ _ _].
  exists M, xs', (moved ext (Some c) a), w. split; [exact Hi|]. split; [apply Hcu|]. split; [done|]. split; [done|].
  intros fuel options e0 c0 a0 sm addrs0 Hc0 Ha0 Hac Hr0 Hcur0 Hman0 Hno0 Hf Hf1 Hnd Hl0.
  destruct (VersionSet_new_ok (vs_dbname s) c0 Hc0) as (s0 & xs0 & ext0 & -> & Hcu0 & Hext0 & Hun0 & Hfs0 & Edb & _). destruct (Hext0 a0 Hac) as [E1 E2].
  assert (on_disk e0 (vs_dbname s0) (vs_manifest_file_number s) (manifest_bytes (M ++ [edit']))) as Hd0.
  { rewrite Edb. unfold manifest_name in Hman0. by split; [rewrite Hcur0|rewrite Hman0]. }
  assert (not_open opened e0 (DescriptorFileName (vs_dbname s0) (vs_manifest_file_number s))) as Hno0' by (by rewrite Edb).
  pose proof (added_by_length 0 (M ++ [edit']) ltac:(lia)) as Hadd. fold (manifest_bytes (M ++ [edit'])) in Hadd.
  destruct (Recover_prefix fuel options e0 s0 xs0 ext0 [] c0 _ (M ++ [edit']) _ _ sm a0 addrs0 Hcu0 Hun0 E1 E2 Ha0 Hnum Hr0 Hd0 Hno0')
    as (j & sm' & e0' & s0' & Hj & Hij & Hrec & _ & Hres0); [done|by apply recoverable_whole|done|lia|split; [done|intros; by rewrite Hfs0]|].
  assert (take j (M ++ [edit']) = M ++ [edit']) as Ej.
  { apply take_ge. apply Hij; [done|]. by rewrite take_ge. }
  rewrite Ej in Hrec, Hres0. destruct (hist_numbers_completed s' M edit' Hco) as (Hn0 & Hn1 & Hn2 & Hn3 & Hn4). rewrite Hn0 in Hrec, Hres0. cbn [Status_ok Status_OK] in Hres0.
  destruct Hres0 as (xs1 & w0 & [K1 K2 K3 K4 K5 K6] & (N1 & N2 & N3 & N4) & _). rewrite Hn1 in N1. rewrite Hn2 in N2. rewrite Hn3 in N3. rewrite Hn4 in N4.
  exists s0, sm', e0', s0', w0. split; [done|]. split; [done|]. split; [unfold current_version; by rewrite K2|].
  split; [apply (stands_for_unique _ _ (M ++ [edit'])); [done|apply Hcu]|]. split_and!; [exact N1|exact N2|rewrite L1; exact N3|rewrite P1; exact N4].
Qed.
End WithEnv.
End Order.

(** * Samples *)
#[local] Abbreviation bytes_ok := (Forall is_byte).

Definition key_a : bytes := InternalKey_make [97] 7 1.
Definition key_b : bytes := InternalKey_make [98] 2 1.

(** A file at level 1, with all numbers; then the file goes to level 2. *)
Definition edit_add : VersionEdit :=
  SetLastSequence (SetNextFile (SetPrevLogNumber (SetLogNumber (AddFile VersionEdit_new 1 5 100 key_a key_b) 3) 0) 9) 40.
Definition edit_move : VersionEdit := AddFile (DeleteFile VersionEdit_new 1 5) 2 5 100 key_a key_b.

Definition sample_names : gmap bytes bytes := {[
  str "d/CURRENT" := str "MANIFEST-000002" ++ [10];
  str "d/MANIFEST-000002" := take 70 (manifest_bytes [edit_add; edit_move]) ]}.

Definition sample_env : MemEnv := {| m_names := sample_names; m_open := ∅; m_next := 1; m_room := 1000 |}.

#[local] Existing Instance BytewiseComparator.
Lemma small_bytes (l : bytes) : forallb (fun x => (0 <=? x) && (x <? 256)) l = true -> Forall is_byte l.
Proof. induction l as [|x l IH]; [constructor|]. cbn. intros [[H1 H2]%andb_true_iff H3]%andb_true_iff. constructor; [unfold is_byte; lia|by apply IH]. Qed.

Lemma sample_written : Forall edit_written [edit_add; edit_move].
Proof.
  assert (short_bytes key_a /\ short_bytes key_b) as [Ha Hb] by (split; split; [done|apply small_bytes; reflexivity..|done|apply small_bytes; reflexivity]).
  constructor; [|constructor; [|constructor]]; (split; [|done]); split; cbn -[key_a key_b].
  - repeat (constructor; [done|]). repeat constructor; done.
  - by split_and!.
  - constructor.
  - constructor.
  - by repeat constructor.
  - constructor; [done|]. constructor; [done|constructor].
  - by split_and!.
  - repeat constructor.
  - constructor.
  - by repeat constructor.
Qed.

Lemma sample_in_range lv n : level_range lv -> in_range (uvalid := bytes_ok) (uorder := Slice_compare) (lv, FileMetaData_make n 100 key_a key_b).
Proof.
  intros Hl. split; [done|]. cbn -[key_a key_b]. split_and!; [by apply (sample_key_valid 97 7 1)|by apply (sample_key_valid 98 2 1)|by vm_compute].
Qed.

(** At most one file at each level. *)
Lemma short_apart (H : list VersionEdit) : (forall i, (length (hist_new i H) <= 1)%nat) -> hist_apart (uvalid := bytes_ok) (uorder := Slice_compare) H.
Proof.
  intros Hl i files _ _ Hp j k f g Hjk Hj Hk. exfalso. apply Permutation_length in Hp. rewrite length_fmap in Hp.
  assert (length (hist_live i H) <= length (hist_new i H))%nat by apply length_filter. specialize (Hl i).
  apply lookup_lt_Some in Hj, Hk. lia.
Qed.

Lemma sample_new i : (length (hist_new i [edit_add; edit_move]) <= 1)%nat.
Proof.
  unfold hist_new, edit_new, new_at. cbn -[key_a key_b filter]. rewrite !filter_cons, !filter_nil. cbn [fst]. repeat case_decide; cbn; lia.
Qed.

Lemma sample_hist : hist_ok (uvalid := bytes_ok) (uorder := Slice_compare) [edit_add; edit_move].
Proof.
  split.
  - constructor; [|constructor; [|constructor]]; split; cbn -[key_a key_b]; repeat constructor; try done; by apply sample_in_range.
  - intros i. pose proof (sample_new i) as Hl. destruct (hist_new i [edit_add; edit_move]) as [|x [|y l]]; cbn in *; [constructor|apply NoDup_singleton|lia].
Qed.

Lemma sample_apart j : hist_apart (uvalid := bytes_ok) (uorder := Slice_compare) (take j [edit_add; edit_move]).
Proof.
  apply short_apart. intros i. pose proof (sample_new i) as Hl. rewrite <- (take_drop j [edit_add; edit_move]), hist_new_app, length_app in Hl. lia.
Qed.

Lemma manifest_recovery_witness :
  exists s j sm' e' s' w, VersionSet_new (str "d") 1 = Some s /\ (1 <= j)%nat
    /\ Recover 200 Options_default sample_env s false 2 (seqZ 1 200) = Some (Status_OK, sm', e', s')
    /\ current_version s' = Some w /\ stands_for (uvalid := bytes_ok) (uorder := Slice_compare) (files_ w) (take j [edit_add; edit_move]).
Proof.
  destruct (manifest_recovery (EL := Mem_law) (UL := Bytewise_law) 200 Options_default sample_env (str "d") 2 (take 70 (manifest_bytes [edit_add; edit_move]))
              [edit_add; edit_move] 1 2 false (seqZ 1 200)) as (s & j & sm' & e' & s' & Es & Hj & Hi & Hr & _ & Hres).
  - done.
  - done.
  - done.
  - by vm_compute.
  - done.
  - split; by vm_compute.
  - intros h f Hf. by vm_compute in Hf.
  - exists (drop 70 (manifest_bytes [edit_add; edit_move])). by rewrite take_drop.
  - apply sample_written.
  - apply sample_hist.
  - apply sample_apart.
  - apply Nat.ltb_lt. by vm_compute.
  - apply Nat.ltb_lt. by vm_compute.
  - apply NoDup_seqZ.
  - apply Nat.leb_le. by vm_compute.
  - assert (1 <= j)%nat as Hj1 by (apply Hi; [cbn; lia|by vm_compute]).
    assert (check_numbers (hist_numbers no_numbers (take j [edit_add; edit_move])) = Status_OK) as Est.
    { destruct j as [|[|[|j]]]; [lia|by vm_compute|by vm_compute|cbn in Hj; lia]. }
    rewrite Est in Hr, Hres. destruct (Hres eq_refl) as (w & Hw & Hst & _). exists s, j, sm', e', s', w. by split_and!.
Defined.

Definition edit_plain : VersionEdit := AddFile VersionEdit_new 1 5 100 key_a key_b.

Lemma plain_new i : (length (hist_new i [edit_plain]) <= 1)%nat.
Proof.
  unfold hist_new, edit_new, new_at. cbn -[key_a key_b filter]. rewrite !filter_cons, !filter_nil. cbn [fst]. repeat case_decide; cbn; lia.
Qed.

Lemma plain_fits s : edit_fits (uvalid := bytes_ok) (uorder := Slice_compare) s [] edit_plain.
Proof.
  pose proof sample_written as [_ Hw%Forall_inv]%Forall_cons. split.
  - split; [|done]. split; cbn -[key_a key_b]; [|by split_and!|constructor|constructor|by repeat constructor].
    destruct Hw as [[He _ _ _ _] _]. cbn -[key_a key_b] in He. apply Forall_cons in He as [_ He]. apply Forall_cons in He as [(_ & H2 & H3 & H4 & H5) _].
    constructor; [|constructor]. by split_and!.
  - done.
  - split; [constructor; [|constructor]; split; cbn -[key_a key_b]; repeat constructor; try done; by apply sample_in_range|].
    intros i. pose proof (plain_new i) as Hl. cbn [app]. destruct (hist_new i [edit_plain]) as [|x [|y l]]; cbn in *; [constructor|apply NoDup_singleton|lia].
  - apply short_apart. apply plain_new.
Qed.

Lemma LogAndApply_durable_witness :
  exists s e' s' edit' M w, VersionSet_new (str "d") 1 = Some s /\ LogAndApply (MemEnv_new 1000) s edit_plain 2 [7] = Some (Status_OK, e', s', edit')
    /\ same_files edit_plain edit' /\ stands_for (uvalid := bytes_ok) (uorder := Slice_compare) (files_ w) (M ++ [edit']).
Proof.
  destruct (VersionSet_new_ok (UL := Bytewise_law) (str "d") 1) as (s & xs & ext & Es & Hcu & Hext & [U1 U2] & Hfs & Edb & Hps & Hnum); [done|].
  destruct (Hext 2) as [E1 E2]; [done|].
  destruct (LogAndApply_durable (EL := Mem_law) (UL := Bytewise_law) (MemEnv_new 1000) s xs ext [] 1 (with_version_refs Version_make 1) [] edit_plain 2 [7])
    as (st & e' & s' & edit' & El & _ & Hres).
  - split; [exact Hcu|done| |done|done]. unfold manifest_open. by rewrite U1, U2.
  - apply plain_fits.
  - split; by intros.
  - split; [by vm_compute|apply small_bytes; by vm_compute].
  - done.
  - done.
  - done.
  - cbn. lia.
  - split; [apply NoDup_singleton|]. intros x _. by rewrite Hfs.
  - assert ((fun r : Status * MemEnv * VersionSet * VersionEdit => r.1.1.1) <$> (s ← VersionSet_new (str "d") 1; LogAndApply (MemEnv_new 1000) s edit_plain 2 [7]) = Some Status_OK) as Hok
      by (by vm_compute).
    rewrite Es in Hok. cbn [mbind option_bind] in Hok. rewrite El in Hok. injection Hok as ->. cbn [Status_ok Status_OK] in Hres.
    destruct Hres as (M & xs' & ext' & w & _ & Hst & _ & Hsame & _). exists s, e', s', edit', M, w. by split_and!.
Defined.

(** * Where the code falls short *)
Definition reuse_options : Options := {|
  comparator := BytewiseComparator; create_if_missing := false; error_if_exists := false;
  paranoid_checks := false; write_buffer_size := 4 * 1024 * 1024; max_open_files := 1000;
  block_size := 4 * 1024; block_restart_interval := 16; max_file_size := 2 * 1024 * 1024;
  compression := kSnappyCompression; reuse_logs := true; filter_policy := None |}.

(** A manifest that ends within a record is reused: the database is opened, an
    edit is applied, and the database is opened again. *)
Definition reuse_after_crash : option (Status * Status * Status) :=
  s ← VersionSet_new (str "d") 1;
  '(opened_once, _, e, s) ← Recover 200 reuse_options sample_env s false 2 (seqZ 1 200);
  '(applied, e, s, _) ← LogAndApply e s (AddFile VersionEdit_new 3 6 100 key_a key_b) 3 (seqZ 300 20);
  s ← VersionSet_new (str "d") 1;
  '(opened_again, _, _, _) ← Recover 200 reuse_options e s false 2 (seqZ 1 200);
  Some (opened_once, applied, opened_again).

(** [ReuseManifest] appends to a manifest without a look at its end.  Where a
    crash left a part of a record there, the database opens and the edits after
    it are accepted and synced, but it cannot be opened again: the reader finds
    the new record inside the torn one. *)
Theorem ReuseManifest_torn_tail :
  reuse_after_crash = Some (Status_OK, Status_OK, Status_Corruption (str "checksum mismatch") []).
Proof. by vm_compute. Qed.
