(* ===== verification/LdbHandleTable.v ===== *)
(** leveldb: the hash table of the cache, [HandleTable] of [cache.cc].

    Handles are numbers.  [next_hash] of every handle is a map of the table; the
    hash and the key of a handle, which do not change while it is in the table,
    are the functions [hash_of] and [key_of].  A pointer to a pointer is the
    place it points to: a bucket, or the [next_hash] of a handle. *)
From stdpp Require Import base numbers option gmap sets list.
From S2P Require Import Prelude LdbSlice.
Open Scope Z_scope.
Open Scope c_scope.

Record HandleTable : Type := {
  ht_length : Z;
  ht_elems : Z;
  ht_list : list (option Z);
  next_hash : gmap Z (option Z)
}.

Inductive slot : Type := Bucket (i : nat) | NextHash (h : Z).

Definition read_slot (t : HandleTable) (p : slot) : option (option Z) :=
  match p with Bucket i => ht_list t !! i | NextHash h => next_hash t !! h end.

(** Writing outside the array is undefined. *)
Definition write_slot (t : HandleTable) (p : slot) (x : option Z) : option HandleTable :=
  match p with
  | Bucket i =>
      if (i <? length (ht_list t))%nat
      then Some {| ht_length := ht_length t; ht_elems := ht_elems t; ht_list := <[i := x]> (ht_list t);
                   next_hash := next_hash t |}
      else None
  | NextHash h =>
      Some {| ht_length := ht_length t; ht_elems := ht_elems t; ht_list := ht_list t;
              next_hash := <[h := x]> (next_hash t) |}
  end.

Definition with_elems (t : HandleTable) (n : Z) : HandleTable :=
  {| ht_length := ht_length t; ht_elems := n; ht_list := ht_list t; next_hash := next_hash t |}.

Section Table.
Context (hash_of : Z -> option Z) (key_of : Z -> option bytes).

(** The loop ends at the latest when it has seen every handle. *)
Fixpoint find_loop (n : nat) (t : HandleTable) (key : bytes) (hash : Z) (p : slot) : option slot :=
  x ← read_slot t p;
  match x with
  | None => Some p
  | Some h =>
      hh ← hash_of h;
      differs ← (if hh =? hash then k ← key_of h; Some (negb (Slice_eqb key k)) else Some true);
      if differs : bool then
        match n with O => None | S n' => find_loop n' t key hash (NextHash h) end
      else Some p
  end.

Definition FindPointer (t : HandleTable) (key : bytes) (hash : Z) : option slot :=
  find_loop (size (next_hash t)) t key hash (Bucket (Z.to_nat (hash &&& (ht_length t - 1)))).

(** The while loop that doubles the length; 32 rounds are the bits of [uint32_t]. *)
Fixpoint resize_length (n : nat) (new_length elems : Z) : option Z :=
  if new_length <? elems then
    match n with O => None | S n' => resize_length n' (u32 (new_length * 2)) elems end
  else Some new_length.

(** The inner loop of [Resize]: the handles of a bucket go to the new one. *)
Fixpoint move_chain (n : nat) (new_length : Z) (h : option Z) (new_list : list (option Z))
    (nh : gmap Z (option Z)) (count : Z) : option (list (option Z) * gmap Z (option Z) * Z) :=
  match h with
  | None => Some (new_list, nh, count)
  | Some h =>
      match n with
      | O => None
      | S n' =>
          next ← nh !! h;
          hash ← hash_of h;
          let i := Z.to_nat (hash &&& (new_length - 1)) in
          first ← new_list !! i;
          move_chain n' new_length next (<[i := Some h]> new_list) (<[h := first]> nh) (u32 (count + 1))
      end
  end.

Fixpoint move_chains (n : nat) (new_length : Z) (old : list (option Z)) (new_list : list (option Z))
    (nh : gmap Z (option Z)) (count : Z) : option (list (option Z) * gmap Z (option Z) * Z) :=
  match old with
  | [] => Some (new_list, nh, count)
  | h :: old =>
      '(new_list, nh, count) ← move_chain n new_length h new_list nh count;
      move_chains n new_length old new_list nh count
  end.

Definition Resize (t : HandleTable) : option HandleTable :=
  new_length ← resize_length 32 4 (ht_elems t);
  '(new_list, nh, count) ← move_chains (size (next_hash t)) new_length (ht_list t)
      (replicate (Z.to_nat new_length) None) (next_hash t) 0;
  if ht_elems t =? count
  then Some {| ht_length := new_length; ht_elems := ht_elems t; ht_list := new_list; next_hash := nh |}
  else None.

Definition HandleTable_new : option HandleTable :=
  Resize {| ht_length := 0; ht_elems := 0; ht_list := []; next_hash := ∅ |}.

Definition HandleTable_Lookup (t : HandleTable) (key : bytes) (hash : Z) : option (option Z) :=
  p ← FindPointer t key hash; read_slot t p.

(** The handle that was there before, if any. *)
Definition HandleTable_Insert (t : HandleTable) (h : Z) : option (option Z * HandleTable) :=
  k ← key_of h;
  hash ← hash_of h;
  p ← FindPointer t k hash;
  old ← read_slot t p;
  next ← (match old with None => Some None | Some o => next_hash t !! o end);
  t ← write_slot t (NextHash h) next;
  t ← write_slot t p (Some h);
  match old with
  | Some _ => Some (old, t)
  | None =>
      let t := with_elems t (u32 (ht_elems t + 1)) in
      t ← (if ht_length t <? ht_elems t then Resize t else Some t);
      Some (old, t)
  end.

Definition HandleTable_Remove (t : HandleTable) (key : bytes) (hash : Z) : option (option Z * HandleTable) :=
  p ← FindPointer t key hash;
  result ← read_slot t p;
  match result with
  | None => Some (result, t)
  | Some h =>
      next ← next_hash t !! h;
      t ← write_slot t p next;
      Some (result, with_elems t (u32 (ht_elems t - 1)))
  end.
End Table.

(** * Chains *)

(** From [h] through the handles [xs] to [m]. *)
Fixpoint hseg (nh : gmap Z (option Z)) (h : option Z) (xs : list Z) (m : option Z) : Prop :=
  match xs with
  | [] => h = m
  | x :: xs => h = Some x /\ exists n, nh !! x = Some n /\ hseg nh n xs m
  end.

Definition hchain (nh : gmap Z (option Z)) (h : option Z) (xs : list Z) : Prop := hseg nh h xs None.

Lemma hseg_app nh h xs ys m : hseg nh h (xs ++ ys) m <-> exists k, hseg nh h xs k /\ hseg nh k ys m.
Proof.
  revert h. induction xs as [|x xs IH]; intros h; cbn [app hseg].
  - split; [by exists h|by intros (k & -> & H)].
  - split.
    + intros (-> & n & Hn & (k & H1 & H2)%IH). exists k. split; [|done]. split; [done|]. by exists n.
    + intros (k & (-> & n & Hn & H1) & H2). split; [done|]. exists n. split; [done|]. apply IH. by exists k.
Qed.

Lemma hseg_frame nh nh' h xs m :
  (forall x, x ∈ xs -> nh' !! x = nh !! x) -> hseg nh h xs m -> hseg nh' h xs m.
Proof.
  revert h. induction xs as [|x xs IH]; intros h Hf; [done|]. cbn [hseg]. intros (-> & n & Hn & H).
  split; [done|]. exists n. rewrite Hf by set_solver. split; [done|]. apply IH; [|done]. intros y Hy. apply Hf. set_solver.
Qed.

Lemma hchain_head nh h xs : hchain nh h xs -> h = head xs.
Proof. destruct xs; cbn; [done|by intros [-> _]]. Qed.

Lemma hchain_next nh h xs e ys : hchain nh h (xs ++ e :: ys) -> exists n, nh !! e = Some n /\ hchain nh n ys.
Proof. intros (k & _ & (-> & n & Hn & H))%hseg_app. by exists n. Qed.

(** Changing where the last handle of a segment leads. *)
Lemma hseg_last nh h xs e m m' :
  hseg nh h (xs ++ [e]) m -> NoDup (xs ++ [e]) -> hseg (<[e := m']> nh) h (xs ++ [e]) m'.
Proof.
  intros (k & H1 & (-> & n & Hn & ->))%hseg_app Hnd. apply hseg_app. exists (Some e). split.
  - apply (hseg_frame nh); [|done]. intros x Hx. rewrite lookup_insert_ne; [done|]. intros ->.
    apply NoDup_app in Hnd as (_ & Hnd & _). apply (Hnd x Hx). set_solver.
  - split; [done|]. exists m'. split; [by rewrite lookup_insert_eq|done].
Qed.

(** One chain of several. *)
Lemma elem_of_concat (ls : list (list Z)) e : e ∈ concat ls <-> exists i xs, ls !! i = Some xs /\ e ∈ xs.
Proof.
  rewrite list_elem_of_In, in_concat. split.
  - intros (l & Hl & He). apply list_elem_of_In, list_elem_of_lookup in Hl as [i Hi]. exists i, l.
    split; [done|]. by apply list_elem_of_In.
  - intros (i & l & Hi & He). exists l. split; apply list_elem_of_In; [|done]. apply list_elem_of_lookup. by exists i.
Qed.

Lemma concat_insert (ls : list (list Z)) i xs ys :
  ls !! i = Some xs -> exists rest, concat ls ≡ₚ xs ++ rest /\ concat (<[i := ys]> ls) ≡ₚ ys ++ rest.
Proof.
  intros Hi. exists (concat (take i ls) ++ concat (drop (S i) ls)).
  rewrite insert_take_drop by (by apply lookup_lt_Some in Hi). rewrite <- (take_drop_middle ls i xs Hi) at 1.
  rewrite !concat_app. cbn [concat]. split.
  - rewrite !app_assoc. by rewrite (Permutation_app_comm (concat (take i ls)) xs).
  - rewrite !app_assoc. by rewrite (Permutation_app_comm (concat (take i ls)) ys).
Qed.

Lemma NoDup_concat_apart (ls : list (list Z)) i j xs ys e :
  NoDup (concat ls) -> ls !! i = Some xs -> ls !! j = Some ys -> e ∈ xs -> e ∈ ys -> i = j.
Proof.
  assert (forall i j xs ys, NoDup (concat ls) -> ls !! i = Some xs -> ls !! j = Some ys -> e ∈ xs -> e ∈ ys -> ~ (i < j)%nat) as H.
  { clear. intros i j xs ys Hnd Hi Hj Hx Hy Hij. rewrite <- (take_drop (S i) ls), concat_app in Hnd.
    apply NoDup_app in Hnd as (_ & Hnd & _). apply (Hnd e).
    - apply elem_of_concat. exists i, xs. split; [|done]. by rewrite lookup_take_lt by lia.
    - apply elem_of_concat. exists (j - S i)%nat, ys. split; [|done]. rewrite lookup_drop.
      by replace (S i + (j - S i))%nat with j by lia. }
  intros Hnd Hi Hj Hx Hy. pose proof (H i j xs ys Hnd Hi Hj Hx Hy). pose proof (H j i ys xs Hnd Hj Hi Hy Hx). lia.
Qed.

(** * The invariant *)
Section Rep.
Context (hash_of : Z -> option Z) (key_of : Z -> option bytes).

Definition matches (key : bytes) (hash : Z) (e : Z) : Prop := hash_of e = Some hash /\ key_of e = Some key.

(** The bucket of a hash in a table of [n] buckets. *)
Definition bucket (n hash : Z) : nat := Z.to_nat (hash &&& (n - 1)).

Definition placed (n : Z) (chains : list (list Z)) : Prop :=
  forall i xs e, chains !! i = Some xs -> e ∈ xs ->
    exists hash key, matches key hash e /\ in_uint 32 hash /\ bucket n hash = i.

Record chains_of (t : HandleTable) (chains : list (list Z)) : Prop := {
  co_length : exists k, 2 <= k <= 31 /\ ht_length t = 2 ^ k;
  co_list : length (ht_list t) = Z.to_nat (ht_length t);
  co_chains : Forall2 (hchain (next_hash t)) (ht_list t) chains;
  co_nodup : NoDup (concat chains);
  co_elems : ht_elems t = zlen (concat chains);
  co_placed : placed (ht_length t) chains;
  co_unique key hash e e' : e ∈ concat chains -> e' ∈ concat chains -> matches key hash e -> matches key hash e' -> e = e'
}.

Lemma bucket_lt k hash : 0 <= k -> (bucket (2 ^ k) hash < Z.to_nat (2 ^ k))%nat.
Proof.
  intros Hk. unfold bucket. rewrite land_mask by done. pose proof (Z.mod_pos_bound hash (2 ^ k) ltac:(lia)). lia.
Qed.

Lemma find_loop_ok t key hash i xs ys n :
  Forall (fun e => exists h k, matches k h e) (xs ++ ys) -> Forall (fun e => ~ matches key hash e) xs ->
  (exists h, ht_list t !! i = Some h /\ hchain (next_hash t) h (xs ++ ys)) -> (length ys <= n)%nat ->
  exists zs ws, ys = zs ++ ws
    /\ find_loop hash_of key_of n t key hash (match last xs with None => Bucket i | Some e => NextHash e end)
       = Some (match last (xs ++ zs) with None => Bucket i | Some e => NextHash e end)
    /\ read_slot t (match last (xs ++ zs) with None => Bucket i | Some e => NextHash e end) = Some (head ws)
    /\ Forall (fun e => ~ matches key hash e) (xs ++ zs)
    /\ match ws with [] => True | e :: _ => matches key hash e end.
Proof.
  revert xs n. induction ys as [|y ys IH]; intros xs n Hdef Hno (h & Hh & Hc) Hn.
  - exists [], []. rewrite !app_nil_r in *.
    assert (read_slot t (match last xs with None => Bucket i | Some e => NextHash e end) = Some None) as Hr.
    { destruct (last xs) as [e|] eqn:El.
      - apply last_Some in El as [xs' ->]. cbn [read_slot]. destruct (hchain_next _ _ xs' e [] Hc) as (m & -> & ->). done.
      - apply last_None in El as ->. cbn in Hc |- *. by rewrite Hh, Hc. }
    split_and!; [done| |done|done|done]. destruct n; cbn [find_loop]; by rewrite Hr.
  - assert (read_slot t (match last xs with None => Bucket i | Some e => NextHash e end) = Some (Some y)) as Hr.
    { destruct (last xs) as [e|] eqn:El.
      - apply last_Some in El as [xs' ->]. cbn [read_slot]. rewrite <- app_assoc in Hc.
        destruct (hchain_next _ _ xs' e _ Hc) as (m & -> & Hm). by rewrite (hchain_head _ _ _ Hm).
      - apply last_None in El as ->. cbn [read_slot]. by rewrite Hh, (hchain_head _ _ _ Hc). }
    pose proof (proj1 (Forall_forall _ _) Hdef y ltac:(set_solver)) as (hy & ky & Ehy & Eky).
    assert (exists differs, (if hy =? hash then k ← key_of y; Some (negb (Slice_eqb key k)) else Some true) = Some differs
              /\ (differs = false <-> matches key hash y)) as (differs & Ed & Hd).
    { rewrite Eky. cbn [mbind option_bind]. unfold matches. rewrite Ehy, Eky. destruct (Z.eqb_spec hy hash) as [->|Hne].
      - eexists. split; [done|]. rewrite negb_false_iff, Slice_eqb_eq. split; [intros ->; done|by intros [_ [= ->]]].
      - exists true. split; [done|]. split; [done|]. by intros [[= ->] _]. }
    destruct differs.
    + destruct n as [|n]; [simpl in Hn; lia|].
      destruct (IH (xs ++ [y]) n) as (zs & ws & -> & E & Hrs & Hno' & Hws).
      * by rewrite <- app_assoc.
      * apply Forall_app. split; [done|]. apply Forall_singleton. intros Hm. by apply Hd in Hm.
      * exists h. by rewrite <- app_assoc.
      * simpl in Hn. lia.
      * exists (y :: zs), ws. rewrite last_snoc in E. rewrite <- app_assoc in E, Hrs, Hno'. cbn [app] in E, Hrs, Hno'.
        split_and!; [done| |done|done|done]. cbn [find_loop]. rewrite Hr. cbn [mbind option_bind].
        rewrite Ehy. cbn [mbind option_bind]. rewrite Ed. cbn [mbind option_bind]. exact E.
    + exists [], (y :: ys). rewrite app_nil_r. split_and!; [done| |done|done|by apply Hd].
      destruct n; cbn [find_loop]; rewrite Hr; cbn [mbind option_bind]; rewrite Ehy; cbn [mbind option_bind]; by rewrite Ed.
Qed.

(** The handles of a table are in the map of links. *)
Lemma chains_size t chains : chains_of t chains -> (length (concat chains) <= size (next_hash t))%nat.
Proof.
  intros H. rewrite <- (size_list_to_set (C := gset Z) (concat chains)) by exact (co_nodup _ _ H).
  rewrite <- size_dom. apply subseteq_size. intros e He%elem_of_list_to_set.
  apply elem_of_concat in He as (i & xs & Hi & He). apply elem_of_dom.
  destruct (Forall2_lookup_r _ _ _ _ _ (co_chains _ _ H) Hi) as (h & _ & Hc).
  apply list_elem_of_split in He as (l1 & l2 & ->). destruct (hchain_next _ _ l1 e l2 Hc) as (n & -> & _). done.
Qed.

Definition slot_after (i : nat) (xs : list Z) : slot :=
  match last xs with None => Bucket i | Some e => NextHash e end.

Lemma FindPointer_ok t chains key hash :
  chains_of t chains -> in_uint 32 hash ->
  exists xs ys, let i := bucket (ht_length t) hash in
    chains !! i = Some (xs ++ ys) /\ FindPointer hash_of key_of t key hash = Some (slot_after i xs)
    /\ read_slot t (slot_after i xs) = Some (head ys)
    /\ match ys with
       | [] => forall e, e ∈ concat chains -> ~ matches key hash e
       | e :: _ => e ∈ concat chains /\ matches key hash e
       end.
Proof.
  intros H Hh. destruct (co_length _ _ H) as (k & Hk & Ek). set (i := bucket (ht_length t) hash).
  assert (i < length (ht_list t))%nat as Hi by (rewrite (co_list _ _ H); unfold i; rewrite Ek; apply bucket_lt; lia).
  destruct (lookup_lt_is_Some_2 _ _ Hi) as [h Hl].
  destruct (Forall2_lookup_l _ _ _ _ _ (co_chains _ _ H) Hl) as (c & Hc & Hch).
  destruct (find_loop_ok t key hash i [] c (size (next_hash t))) as (zs & ws & -> & E & Hr & Hno & Hws).
  - apply Forall_forall. intros e He. destruct (co_placed _ _ H i c e Hc He) as (h' & k' & Hm & _). by exists h', k'.
  - constructor.
  - by exists h.
  - pose proof (chains_size t chains H). destruct (concat_insert chains i c [] Hc) as (rest & Hp & _).
    rewrite (Permutation_length Hp), length_app in H0. lia.
  - exists zs, ws. cbn [app last] in *. split_and!; [done|exact E|exact Hr|]. destruct ws as [|e ws].
    + intros e He Hm. apply elem_of_concat in He as (j & xs & Hj & He).
      destruct (co_placed _ _ H j xs e Hj He) as (h' & k' & Hm' & _ & Hb). assert (h' = hash) as -> by (destruct Hm, Hm'; congruence).
      fold i in Hb. subst j. assert (xs = zs) as -> by (rewrite app_nil_r in Hc; congruence).
      by apply (proj1 (Forall_forall _ _) Hno e He).
    + split; [|done]. apply elem_of_concat. exists i, (zs ++ e :: ws). split; [done|]. set_solver.
Qed.

(** ** Writing a slot *)
Lemma write_slot_ok t chains i xs ys zs x :
  length (ht_list t) = length chains ->
  Forall2 (hchain (next_hash t)) (ht_list t) chains -> NoDup (concat chains) -> chains !! i = Some (xs ++ ys) ->
  hchain (next_hash t) x zs -> (forall e, e ∈ zs -> e ∉ xs) ->
  exists t', write_slot t (slot_after i xs) x = Some t'
    /\ ht_length t' = ht_length t /\ ht_elems t' = ht_elems t /\ length (ht_list t') = length (ht_list t)
    /\ Forall2 (hchain (next_hash t')) (ht_list t') (<[i := xs ++ zs]> chains).
Proof.
  intros Hl Hc Hnd Hi Hz Hd. pose proof (lookup_lt_Some _ _ _ Hi) as Hlt.
  destruct (Forall2_lookup_r _ _ _ _ _ Hc Hi) as (h & Hh & Hch). unfold slot_after.
  destruct (last xs) as [e|] eqn:El.
  - cbn [write_slot]. eexists. split; [done|]. cbn [ht_length ht_elems ht_list next_hash]. split_and!; [done..|].
    apply last_Some in El as [xs' ->].
    apply Forall2_same_length_lookup_2; [by rewrite length_insert|]. intros j hj cj Hhj Hcj.
    destruct (decide (j = i)) as [->|Hne].
    + rewrite list_lookup_insert_eq in Hcj by done. injection Hcj as <-. assert (hj = h) as -> by congruence.
      apply hseg_app. apply hseg_app in Hch as (m & Hs & _). exists x. split.
      * apply (hseg_last _ _ _ _ m); [done|].
        destruct (concat_insert chains i _ [] Hi) as (rest & Hp & _). rewrite Hp, <- app_assoc in Hnd.
        by apply NoDup_app in Hnd as (? & _).
      * apply (hseg_frame (next_hash t)); [|done]. intros y Hy. rewrite lookup_insert_ne; [done|]. intros <-.
        apply (Hd e Hy). set_solver.
    + rewrite list_lookup_insert_ne in Hcj by done.
      pose proof (Forall2_lookup_lr _ _ _ _ _ _ Hc Hhj Hcj) as Hj. apply (hseg_frame (next_hash t)); [|done].
      intros y Hy. rewrite lookup_insert_ne; [done|]. intros <-. apply Hne.
      apply (NoDup_concat_apart chains j i cj _ e Hnd Hcj Hi); set_solver.
  - apply last_None in El as ->. cbn [write_slot app]. rewrite (proj2 (Nat.ltb_lt _ _)) by lia.
    eexists. split; [done|]. cbn [ht_length ht_elems ht_list next_hash]. rewrite length_insert. split_and!; [done..|].
    by apply Forall2_insert.
Qed.

(** ** The operations on the set of handles *)

(** The handles of the table. *)
Definition table_holds (t : HandleTable) (es : gset Z) : Prop :=
  exists chains, chains_of t chains /\ forall e, e ∈ es <-> e ∈ concat chains.

Lemma table_holds_size t es : table_holds t es -> ht_elems t = Z.of_nat (size es).
Proof.
  intros (chains & H & He). rewrite (co_elems _ _ H).
  rewrite <- (size_list_to_set (C := gset Z) (concat chains)) by exact (co_nodup _ _ H).
  f_equal. f_equal. apply set_eq. intros e. by rewrite elem_of_list_to_set, He.
Qed.

Lemma table_unique t es key hash e e' :
  table_holds t es -> e ∈ es -> e' ∈ es -> matches key hash e -> matches key hash e' -> e = e'.
Proof. intros (chains & H & Hes) He He'. apply (co_unique _ _ H); by apply Hes. Qed.

(** What a lookup in the set gives. *)
Definition found_in (es : gset Z) (key : bytes) (hash : Z) (r : option Z) : Prop :=
  match r with Some e => e ∈ es /\ matches key hash e | None => forall e, e ∈ es -> ~ matches key hash e end.

Lemma HandleTable_Lookup_ok t es key hash :
  table_holds t es -> in_uint 32 hash ->
  exists r, HandleTable_Lookup hash_of key_of t key hash = Some r /\ found_in es key hash r.
Proof.
  intros (chains & H & Hes) Hh. destruct (FindPointer_ok t chains key hash H Hh) as (xs & ys & Hc & E & Hr & Hm).
  unfold HandleTable_Lookup. rewrite E. cbn [mbind option_bind]. rewrite Hr. exists (head ys). split; [done|].
  destruct ys as [|e ys]; cbn [head found_in].
  - intros e He. apply Hm. by apply Hes.
  - by rewrite Hes.
Qed.

(** After a change of one chain. *)
Lemma chains_of_insert t t' chains i c c' :
  chains_of t chains -> chains !! i = Some c ->
  ht_length t' = ht_length t -> length (ht_list t') = length (ht_list t) ->
  Forall2 (hchain (next_hash t')) (ht_list t') (<[i := c']> chains) ->
  NoDup (concat (<[i := c']> chains)) -> ht_elems t' = zlen (concat (<[i := c']> chains)) ->
  (forall e, e ∈ c' -> e ∈ c \/ exists hash key, matches key hash e /\ in_uint 32 hash /\ bucket (ht_length t) hash = i
     /\ forall e', e' ∈ concat (<[i := c']> chains) -> matches key hash e' -> e' = e) ->
  chains_of t' (<[i := c']> chains).
Proof.
  intros H Hc L1 L3 Hc' Hnd He Hin. pose proof (lookup_lt_Some _ _ _ Hc) as Hlt.
  assert (forall e, e ∈ concat (<[i := c']> chains) -> e ∈ concat chains \/ e ∈ c') as Hold.
  { intros e (j & xs & Hj & Hx)%elem_of_concat. destruct (decide (j = i)) as [->|Hne].
    - rewrite list_lookup_insert_eq in Hj by done. injection Hj as <-. by right.
    - rewrite list_lookup_insert_ne in Hj by done. left. apply elem_of_concat. by exists j, xs. }
  assert (forall e, e ∈ c -> e ∈ concat chains) as Hcin by (intros e He'; apply elem_of_concat; by exists i, c).
  split.
  - rewrite L1. exact (co_length _ _ H).
  - rewrite L3, L1. exact (co_list _ _ H).
  - exact Hc'.
  - exact Hnd.
  - exact He.
  - rewrite L1. intros j xs e Hj Hx. destruct (decide (j = i)) as [->|Hne].
    + rewrite list_lookup_insert_eq in Hj by done. injection Hj as <-.
      destruct (Hin e Hx) as [Hx'|(hash & key & Hm & Hh & Hb & _)]; [by apply (co_placed _ _ H i c)|by exists hash, key].
    + rewrite list_lookup_insert_ne in Hj by done. by apply (co_placed _ _ H j xs).
  - intros key hash a b Ha Hb Ma Mb.
    assert (forall x y, x ∈ c' -> y ∈ concat (<[i := c']> chains) -> matches key hash x -> matches key hash y ->
              x ∈ concat chains \/ x = y) as Hone.
    { intros x y Hx Hy Mx My. destruct (Hin x Hx) as [Hx'|(hash' & key' & Mx' & _ & _ & Hu)]; [left; by apply Hcin|].
      right. assert (hash' = hash) as -> by (destruct Mx, Mx'; congruence).
      assert (key' = key) as -> by (destruct Mx, Mx'; congruence). by rewrite (Hu y Hy My). }
    assert (a ∈ concat chains \/ a = b) as [Ha'|?]; [|assert (b ∈ concat chains \/ b = a) as [Hb'|?]|done].
    + destruct (Hold a Ha) as [?|?]; [by left|by apply Hone].
    + destruct (Hold b Hb) as [?|?]; [by left|by apply Hone].
    + by apply (co_unique _ _ H key hash).
    + done.
Qed.

Lemma HandleTable_Remove_ok t es key hash :
  table_holds t es -> in_uint 32 hash -> Z.of_nat (size es) < 2 ^ 31 ->
  exists r t', HandleTable_Remove hash_of key_of t key hash = Some (r, t') /\ found_in es key hash r
    /\ table_holds t' (match r with Some e => es ∖ {[ e ]} | None => es end).
Proof.
  intros Hholds Hh Hsz. pose proof (table_holds_size t es Hholds) as Helems. destruct Hholds as (chains & H & Hes).
  destruct (FindPointer_ok t chains key hash H Hh) as (xs & ys & Hc & E & Hr & Hm).
  unfold HandleTable_Remove. rewrite E. cbn [mbind option_bind]. rewrite Hr. cbn [mbind option_bind].
  destruct ys as [|e ys]; cbn [head].
  - exists None, t. split_and!; [done|intros e He; apply Hm; by apply Hes|]. by exists chains.
  - destruct (Forall2_lookup_r _ _ _ _ _ (co_chains _ _ H) Hc) as (h & Hh' & Hch).
    destruct (hchain_next _ _ xs e ys Hch) as (n & -> & Hn). cbn [mbind option_bind].
    pose proof (co_nodup _ _ H) as Hnd. destruct (concat_insert chains _ _ (xs ++ ys) Hc) as (rest & Hp1 & Hp2).
    assert (NoDup (e :: (xs ++ ys) ++ rest)) as Hnd2.
    { rewrite Hp1, <- app_assoc in Hnd. rewrite <- app_assoc. cbn [app] in Hnd. by rewrite <- Permutation_middle in Hnd. }
    destruct (write_slot_ok t chains _ xs (e :: ys) ys n (Forall2_length _ _ _ (co_chains _ _ H)) (co_chains _ _ H) Hnd Hc Hn)
      as (t' & -> & L1 & L2 & L3 & Hc').
    { intros y Hy Hx. apply NoDup_cons in Hnd2 as [_ Hnd2]. rewrite <- app_assoc in Hnd2.
      apply NoDup_app in Hnd2 as (_ & Hnd2 & _). apply (Hnd2 y Hx). set_solver. }
    cbn [mbind option_bind]. exists (Some e), (with_elems t' (u32 (ht_elems t' - 1))). split; [done|].
    split; [split; [apply Hes, Hm|apply Hm]|]. exists (<[bucket (ht_length t) hash := xs ++ ys]> chains).
    apply NoDup_cons in Hnd2 as [He2 Hnd2]. split.
    + apply (chains_of_insert t _ chains _ (xs ++ e :: ys)); [done..| |cbn [with_elems ht_elems]|].
      * by rewrite Hp2.
      * pose proof (co_elems _ _ H) as Hce. rewrite L2, Hp2, Helems. rewrite Helems, Hp1 in Hce.
        rewrite !length_app in *. cbn [length] in Hce. rewrite u32_small by (unfold in_uint; lia). lia.
      * intros y Hy. left. set_solver.
    + intros y. rewrite elem_of_difference, elem_of_singleton, Hes, Hp1, Hp2. split.
      * intros [Hy Hne]. set_solver.
      * intros Hy. split; [set_solver|]. by intros ->.
Qed.

(** ** Resizing *)

(** What [Resize] needs of the chains it takes apart. *)
Record loose (nh : gmap Z (option Z)) (hs : list (option Z)) (chains : list (list Z)) : Prop := {
  lo_chains : Forall2 (hchain nh) hs chains;
  lo_nodup : NoDup (concat chains);
  lo_defined e : e ∈ concat chains -> exists hash key, matches key hash e /\ in_uint 32 hash
}.

Lemma resize_length_ok n k elems :
  2 <= k <= 31 -> 31 - k <= Z.of_nat n -> 0 <= elems <= 2 ^ 31 ->
  exists k', 2 <= k' <= 31 /\ resize_length n (2 ^ k) elems = Some (2 ^ k').
Proof.
  revert k. induction n as [|n IH]; intros k Hk Hn He; cbn [resize_length].
  - assert (k = 31) as -> by lia. rewrite (proj2 (Z.ltb_ge _ _)) by lia. by exists 31.
  - destruct (Z.ltb_spec (2 ^ k) elems) as [Hlt|_]; [|by exists k].
    assert (k < 31) by (apply (Z.pow_lt_mono_r_iff 2); lia).
    assert (2 ^ k * 2 = 2 ^ (k + 1)) as -> by (rewrite Z.pow_add_r; lia).
    assert (2 ^ (k + 1) < 2 ^ 32) by (apply Z.pow_lt_mono_r; lia).
    rewrite u32_small by (split; [apply Z.pow_nonneg; lia|done]). apply IH; lia.
Qed.

Lemma hchain_insert nh h xs e x : hchain nh h xs -> e ∉ xs -> hchain (<[e := x]> nh) h xs.
Proof. intros H He. apply (hseg_frame nh); [|done]. intros y Hy. rewrite lookup_insert_ne; [done|]. by intros <-. Qed.

(** The state of the loops: the chains made so far, with the hashes in their places. *)
Record made (k : Z) (nh : gmap Z (option Z)) (hs : list (option Z)) (chains : list (list Z)) : Prop := {
  md_length : length hs = Z.to_nat (2 ^ k);
  md_chains : Forall2 (hchain nh) hs chains;
  md_placed : placed (2 ^ k) chains
}.

Lemma made_step k nh hs cs h hash key :
  0 <= k -> made k nh hs cs -> matches key hash h -> in_uint 32 hash -> h ∉ concat cs ->
  exists first cs', hs !! bucket (2 ^ k) hash = Some first
    /\ made k (<[h := first]> nh) (<[bucket (2 ^ k) hash := Some h]> hs) cs' /\ concat cs' ≡ₚ h :: concat cs.
Proof.
  intros Hk H Hm Hh Hnin. set (i := bucket (2 ^ k) hash).
  assert (i < length hs)%nat as Hi by (rewrite (md_length _ _ _ _ H); by apply bucket_lt).
  destruct (lookup_lt_is_Some_2 _ _ Hi) as [first Hf].
  destruct (Forall2_lookup_l _ _ _ _ _ (md_chains _ _ _ _ H) Hf) as (c & Hc & Hch).
  destruct (concat_insert cs i c (h :: c) Hc) as (rest & Hp1 & Hp2).
  exists first, (<[i := h :: c]> cs). split; [done|]. split; [|by rewrite Hp2, Hp1]. split.
  - rewrite length_insert. exact (md_length _ _ _ _ H).
  - apply Forall2_insert.
    + apply Forall2_same_length_lookup_2; [exact (Forall2_length _ _ _ (md_chains _ _ _ _ H))|]. intros j hj cj Hhj Hcj.
      apply hchain_insert; [exact (Forall2_lookup_lr _ _ _ _ _ _ (md_chains _ _ _ _ H) Hhj Hcj)|].
      intros Hin. apply Hnin, elem_of_concat. by exists j, cj.
    + split; [done|]. exists first. split; [by rewrite lookup_insert_eq|]. apply hchain_insert; [done|].
      intros Hin. apply Hnin, elem_of_concat. by exists i, c.
  - intros j xs e Hj He. destruct (decide (j = i)) as [->|Hne].
    + rewrite list_lookup_insert_eq in Hj by (by apply lookup_lt_Some in Hc). injection Hj as <-.
      apply elem_of_cons in He as [->|He]; [by exists hash, key|by apply (md_placed _ _ _ _ H i c)].
    + rewrite list_lookup_insert_ne in Hj by done. by apply (md_placed _ _ _ _ H j xs).
Qed.

Lemma move_chain_ok n k xs h hs nh cs count :
  0 <= k -> made k nh hs cs -> hchain nh h xs -> NoDup (xs ++ concat cs) ->
  (forall e, e ∈ xs -> exists hash key, matches key hash e /\ in_uint 32 hash) ->
  (length xs <= n)%nat -> 0 <= count -> count + zlen xs < 2 ^ 32 ->
  exists hs' nh' cs', move_chain hash_of n (2 ^ k) h hs nh count = Some (hs', nh', count + zlen xs)
    /\ made k nh' hs' cs' /\ concat cs' ≡ₚ xs ++ concat cs
    /\ forall e, e ∉ xs ++ concat cs -> nh' !! e = nh !! e.
Proof.
  revert n h hs nh cs count. induction xs as [|x xs IH]; intros n h hs nh cs count Hk H Hc Hnd Hdef Hn Hc0 Hcount.
  - exists hs, nh, cs. rewrite (hchain_head _ _ _ Hc). cbn [head length]. split_and!; [|done..].
    destruct n; cbn [move_chain]; by rewrite Z.add_0_r.
  - destruct n as [|n]; [simpl in Hn; lia|]. destruct Hc as (-> & next & Hnext & Hc). cbn [app] in Hnd.
    apply NoDup_cons in Hnd as [Hx Hnd]. cbn [length] in Hn, Hcount.
    destruct (Hdef x ltac:(set_solver)) as (hash & key & Hm & Hh).
    destruct (made_step k nh hs cs x hash key Hk H Hm Hh ltac:(set_solver)) as (first & cs1 & Hf & H1 & Hp1).
    destruct (IH n next (<[bucket (2 ^ k) hash := Some x]> hs) (<[x := first]> nh) cs1 (count + 1))
      as (hs' & nh' & cs' & E & H' & Hp' & Hfr).
    + done.
    + done.
    + apply hchain_insert; [done|set_solver].
    + rewrite Hp1, <- Permutation_middle. by apply NoDup_cons.
    + intros e He. apply Hdef. set_solver.
    + lia.
    + lia.
    + lia.
    + exists hs', nh', cs'. split_and!; [|done| |].
      * cbn [move_chain]. rewrite Hnext. cbn [mbind option_bind]. rewrite (proj1 Hm). cbn [mbind option_bind].
        fold (bucket (2 ^ k) hash). rewrite Hf. cbn [mbind option_bind].
        rewrite u32_small by (unfold in_uint; lia). rewrite E. cbn [length]. do 2 f_equal. lia.
      * by rewrite Hp', Hp1, <- Permutation_middle.
      * intros e He. rewrite Hfr, lookup_insert_ne; [done|set_solver|]. rewrite Hp1. set_solver.
Qed.

Lemma move_chains_ok n k old chains hs nh cs count :
  0 <= k -> made k nh hs cs -> loose nh old chains -> NoDup (concat chains ++ concat cs) ->
  (length (concat chains) <= n)%nat -> 0 <= count -> count + zlen (concat chains) < 2 ^ 32 ->
  exists hs' nh' cs', move_chains hash_of n (2 ^ k) old hs nh count = Some (hs', nh', count + zlen (concat chains))
    /\ made k nh' hs' cs' /\ concat cs' ≡ₚ concat chains ++ concat cs.
Proof.
  revert chains hs nh cs count. induction old as [|h old IH]; intros chains hs nh cs count Hk H [Hl1 Hl2 Hl3] Hnd Hn Hc0 Hcount.
  - apply Forall2_nil_inv_l in Hl1 as ->. exists hs, nh, cs. cbn [move_chains concat length]. by rewrite Z.add_0_r.
  - apply Forall2_cons_inv_l in Hl1 as (c & chains' & Hc & Hl1 & ->). cbn [concat] in *.
    rewrite length_app in Hn, Hcount. rewrite <- app_assoc in Hnd. pose proof Hnd as Hnd0.
    apply NoDup_app in Hnd0 as (_ & Hnd1 & Hnd2).
    destruct (move_chain_ok n k c h hs nh cs count) as (hs1 & nh1 & cs1 & E & H1 & Hp1 & Hfr); [done|done|done| | |lia..|].
    + apply NoDup_app. apply NoDup_app in Hnd as (? & _). apply NoDup_app in Hnd2 as (_ & _ & ?).
      split_and!; [done| |done]. intros e He Hin. apply (Hnd1 e He). set_solver.
    + intros e He. apply Hl3. set_solver.
    + assert (forall e, e ∈ concat chains' -> e ∉ c ++ concat cs) as Hout.
      { intros e He Hin. apply NoDup_app in Hnd2 as (_ & Hnd2 & _). apply elem_of_app in Hin as [Hin|Hin].
        - apply (Hnd1 e Hin). set_solver.
        - by apply (Hnd2 e He). }
      destruct (IH chains' hs1 nh1 cs1 (count + zlen c)) as (hs' & nh' & cs' & E' & H' & Hp'); [done|done| | |lia..|].
      * split.
        -- apply Forall2_same_length_lookup_2; [exact (Forall2_length _ _ _ Hl1)|]. intros j hj cj Hhj Hcj.
           apply (hseg_frame nh); [|exact (Forall2_lookup_lr _ _ _ _ _ _ Hl1 Hhj Hcj)]. intros e He. apply Hfr, Hout.
           apply elem_of_concat. by exists j, cj.
        -- by apply NoDup_app in Hnd2 as (? & _).
        -- intros e He. apply Hl3. set_solver.
      * rewrite Hp1. by rewrite (Permutation_app_comm c), app_assoc, Permutation_app_comm.
      * exists hs', nh', cs'. cbn [move_chains]. rewrite E. cbn [mbind option_bind]. rewrite E'.
        split_and!; [|done|].
        -- do 2 f_equal. rewrite length_app. lia.
        -- rewrite Hp', Hp1, !app_assoc. f_equiv. apply Permutation_app_comm.
Qed.

Lemma Resize_ok t chains :
  loose (next_hash t) (ht_list t) chains -> ht_elems t = zlen (concat chains) -> ht_elems t <= 2 ^ 31 ->
  (length (concat chains) <= size (next_hash t))%nat ->
  (forall key hash e e', e ∈ concat chains -> e' ∈ concat chains -> matches key hash e -> matches key hash e' -> e = e') ->
  exists t' chains', Resize hash_of t = Some t' /\ chains_of t' chains' /\ concat chains' ≡ₚ concat chains.
Proof.
  intros H He Hmax Hsz Hu. unfold Resize.
  destruct (resize_length_ok 32 2 (ht_elems t)) as (k & Hk & E); [lia..|]. change (2 ^ 2) with 4 in E. rewrite E.
  cbn [mbind option_bind]. assert (concat (replicate (Z.to_nat (2 ^ k)) ([] : list Z)) = []) as Hnil.
  { apply concat_nil_Forall, Forall_replicate. done. }
  assert (0 <= 2 ^ k) by (apply Z.pow_nonneg; lia).
  destruct (move_chains_ok (size (next_hash t)) k (ht_list t) chains (replicate (Z.to_nat (2 ^ k)) None) (next_hash t)
              (replicate (Z.to_nat (2 ^ k)) []) 0) as (hs & nh & cs & E' & H' & Hp); [lia| |done| |done|lia..|].
  - split; [by rewrite length_replicate| |].
    + apply Forall2_replicate. done.
    + intros i xs e [-> _]%lookup_replicate Hin. by apply elem_of_nil in Hin.
  - rewrite Hnil, app_nil_r. exact (lo_nodup _ _ _ H).
  - rewrite E'. cbn [mbind option_bind]. rewrite Z.add_0_l, <- He, Z.eqb_refl. rewrite Hnil, app_nil_r in Hp.
    exists {| ht_length := 2 ^ k; ht_elems := ht_elems t; ht_list := hs; next_hash := nh |}, cs. split_and!; [done| |done].
    split; cbn [ht_length ht_elems ht_list next_hash].
    + by exists k.
    + exact (md_length _ _ _ _ H').
    + exact (md_chains _ _ _ _ H').
    + rewrite Hp. exact (lo_nodup _ _ _ H).
    + by rewrite Hp.
    + exact (md_placed _ _ _ _ H').
    + intros key hash e e'. rewrite Hp. apply Hu.
Qed.

Lemma chains_loose t chains : chains_of t chains -> loose (next_hash t) (ht_list t) chains.
Proof.
  intros H. split; [exact (co_chains _ _ H)|exact (co_nodup _ _ H)|].
  intros e (i & xs & Hi & He)%elem_of_concat. destruct (co_placed _ _ H i xs e Hi He) as (hash & key & Hm & Hh & _).
  by exists hash, key.
Qed.

Lemma HandleTable_new_ok : exists t, HandleTable_new hash_of = Some t /\ table_holds t ∅.
Proof.
  destruct (Resize_ok {| ht_length := 0; ht_elems := 0; ht_list := []; next_hash := ∅ |} []) as (t & cs & E & H & Hp);
    cbn [ht_elems ht_list next_hash concat].
  - split; [constructor|constructor|]. intros e He. by apply elem_of_nil in He.
  - done.
  - done.
  - cbn. lia.
  - intros key hash e e' He. by apply elem_of_nil in He.
  - exists t. split; [exact E|]. exists cs. split; [done|]. intros e. rewrite Hp. set_solver.
Qed.

Lemma chains_of_new_link t chains h x :
  chains_of t chains -> h ∉ concat chains ->
  exists t', write_slot t (NextHash h) x = Some t' /\ chains_of t' chains /\ next_hash t' !! h = Some x
    /\ ht_list t' = ht_list t /\ ht_length t' = ht_length t /\ ht_elems t' = ht_elems t
    /\ forall k ys, hchain (next_hash t) k ys -> h ∉ ys -> hchain (next_hash t') k ys.
Proof.
  intros H Hh. eexists. split; [done|]. cbn [next_hash ht_list ht_length ht_elems].
  rewrite lookup_insert_eq. split; [|split_and!; [done..|by intros; apply hchain_insert]].
  split; cbn [next_hash ht_list ht_length ht_elems]; try by apply H.
  apply Forall2_same_length_lookup_2; [exact (Forall2_length _ _ _ (co_chains _ _ H))|]. intros j hj cj Hhj Hcj.
  apply hchain_insert; [exact (Forall2_lookup_lr _ _ _ _ _ _ (co_chains _ _ H) Hhj Hcj)|].
  intros Hin. apply Hh, elem_of_concat. by exists j, cj.
Qed.

(** A new handle [h] takes the place of the chain [ys] at the end, of which [ys'] stays. *)
Lemma link_in_ok t chains key hash xs ys ys' n h :
  chains_of t chains -> matches key hash h -> in_uint 32 hash -> h ∉ concat chains ->
  chains !! bucket (ht_length t) hash = Some (xs ++ ys) ->
  hchain (next_hash t) n ys' -> ys' ⊆+ ys ->
  (forall e, e ∈ xs ++ ys -> matches key hash e -> e ∉ xs ++ ys') ->
  let chains' := <[bucket (ht_length t) hash := xs ++ h :: ys']> chains in
  exists t1 t2, write_slot t (NextHash h) n = Some t1
    /\ write_slot t1 (slot_after (bucket (ht_length t) hash) xs) (Some h) = Some t2
    /\ ht_elems t2 = ht_elems t /\ ht_length t2 = ht_length t
    /\ forall n, n = zlen (concat chains') -> chains_of (with_elems t2 n) chains'.
Proof.
  intros H Hmh Hh Hfresh Hc Hn Hsub Hgone chains'. set (i := bucket (ht_length t) hash) in *.
  destruct (chains_of_new_link t chains h n H Hfresh) as (t1 & E1 & H1 & Hnh & L1 & L2 & L3 & Hk).
  destruct (concat_insert chains i _ (xs ++ h :: ys') Hc) as (rest & Hp1 & Hp2).
  pose proof (co_nodup _ _ H1) as Hnd. pose proof Hnd as Hnd0. rewrite Hp1, <- app_assoc in Hnd0.
  assert (forall e, e ∈ ys' -> e ∈ ys) as Hin by (intros e He; by apply (elem_of_submseteq ys' ys)).
  assert (forall e, e ∈ (xs ++ ys) ++ rest -> e <> h) as Hne by (intros e He ->; apply Hfresh; by rewrite Hp1).
  apply NoDup_app in Hnd0 as (Hnd1 & Hnd2 & Hnd3). apply NoDup_app in Hnd3 as (Hnd3 & Hnd4 & Hnd5).
  destruct (write_slot_ok t1 chains i xs ys (h :: ys') (Some h) (Forall2_length _ _ _ (co_chains _ _ H1))
              (co_chains _ _ H1) Hnd Hc) as (t2 & E2 & M1 & M2 & M3 & Hc2).
  { split; [done|]. exists n. split; [done|]. apply Hk; [done|]. intros Hy. apply (Hne h); [|done]. set_solver. }
  { intros e [->|He]%elem_of_cons Hx; [apply (Hne h); [|done]; set_solver|]. apply (Hnd2 e Hx). set_solver. }
  exists t1, t2. split_and!; [done|done|congruence|congruence|]. intros m ->.
  assert (NoDup (concat chains')) as Hndc.
  { unfold chains'. rewrite Hp2, <- app_assoc. cbn [app]. rewrite <- Permutation_middle. apply NoDup_cons. split.
    - intros Hx. apply (Hne h); [|done]. set_solver.
    - apply NoDup_app. split_and!; [done| |].
      + intros e Hx Hy. apply (Hnd2 e Hx). set_solver.
      + apply NoDup_app. split_and!; [| |done].
        { apply submseteq_Permutation in Hsub as [l Hl]. rewrite Hl in Hnd3. by apply NoDup_app in Hnd3 as (? & _). }
        intros e He Hr. by apply (Hnd4 e); [apply Hin|]. }
  apply (chains_of_insert t1 _ chains i (xs ++ ys)); [done..|].
  intros e He. destruct (decide (e = h)) as [->|Hx]; [right|left; set_solver].
  exists hash, key. split_and!; [done|done|by rewrite L2|]. intros e' He' Hm'.
  destruct (decide (e' = h)) as [|Hx]; [done|]. exfalso.
  assert (e' ∈ concat chains) as Hold by (rewrite Hp1; rewrite Hp2 in He'; set_solver).
  assert (e' ∈ xs ++ ys) as He2.
  { apply elem_of_concat in Hold as (j & c & Hj & Hy). destruct (co_placed _ _ H j c e' Hj Hy) as (hash' & key' & Hm2 & _ & Hb).
    assert (hash' = hash) as -> by (destruct Hm', Hm2; congruence). fold i in Hb. subst j. congruence. }
  rewrite Hp2 in He'. assert (e' ∈ (xs ++ ys') ++ rest) as He3 by set_solver.
  apply elem_of_app in He3 as [He3|He3]; [by apply (Hgone e' He2 Hm')|].
  apply elem_of_app in He2 as [Hy|Hy]; [apply (Hnd2 e' Hy); set_solver|by apply (Hnd4 e' Hy)].
Qed.

Lemma HandleTable_Insert_ok t es key hash h :
  table_holds t es -> matches key hash h -> in_uint 32 hash -> h ∉ es -> Z.of_nat (size es) < 2 ^ 31 ->
  exists r t', HandleTable_Insert hash_of key_of t h = Some (r, t') /\ found_in es key hash r
    /\ table_holds t' (match r with Some e => {[ h ]} ∪ es ∖ {[ e ]} | None => {[ h ]} ∪ es end).
Proof.
  intros Hholds Hmh Hh Hfresh Hsz. pose proof (table_holds_size t es Hholds) as Helems. destruct Hholds as (chains & H & Hes).
  destruct (FindPointer_ok t chains key hash H Hh) as (xs & ys & Hc & E & Hr & Hm).
  rewrite Hes in Hfresh. unfold HandleTable_Insert. rewrite (proj1 Hmh), (proj2 Hmh). cbn [mbind option_bind].
  rewrite E. cbn [mbind option_bind]. rewrite Hr. cbn [mbind option_bind].
  pose proof (co_elems _ _ H) as Hce. pose proof (co_nodup _ _ H) as Hnd. destruct ys as [|o ys]; cbn [head].
  - destruct (link_in_ok t chains key hash xs [] [] None h H Hmh Hh Hfresh Hc eq_refl (submseteq_nil_l _))
      as (t1 & t2 & E1 & E2 & L1 & L2 & H2).
    { intros e He Hme. exfalso. apply (Hm e); [|done]. apply elem_of_concat. by eexists _, _. }
    destruct (concat_insert chains _ _ (xs ++ [h]) Hc) as (rest & Hp1 & Hp2).
    cbn [mbind option_bind]. rewrite E1. cbn [mbind option_bind]. rewrite E2. cbn [mbind option_bind]. rewrite L1, u32_small by (unfold in_uint; lia).
    specialize (H2 (ht_elems t + 1)). set (t3 := with_elems t2 (ht_elems t + 1)) in *.
    assert (concat (<[bucket (ht_length t) hash := xs ++ [h]]> chains) ≡ₚ h :: concat chains) as Hp.
    { rewrite Hp1, Hp2, app_nil_r, <- app_assoc. cbn [app]. by rewrite <- Permutation_middle. }
    specialize (H2 ltac:(rewrite Hp; cbn [length]; lia)).
    assert (exists t' chains', (if (ht_length t3 <? ht_elems t3) then Resize hash_of t3 else Some t3) = Some t'
              /\ chains_of t' chains' /\ concat chains' ≡ₚ h :: concat chains) as (t' & chains' & Et & Ht & Hpt).
    { destruct (ht_length t3 <? ht_elems t3); [|by eexists _, _].
      destruct (Resize_ok t3 _ (chains_loose _ _ H2) (co_elems _ _ H2)) as (t' & chains' & E3 & H3 & Hp3).
      - cbn [t3 with_elems ht_elems]. lia.
      - by apply chains_size.
      - apply H2.
      - exists t', chains'. split_and!; [done|done|by rewrite Hp3]. }
    rewrite Et. cbn [mbind option_bind]. exists None, t'. split_and!; [done| |].
    + intros e He. apply Hm. by apply Hes.
    + exists chains'. split; [done|]. intros e. rewrite Hpt. set_solver.
  - destruct Hm as [Hoin Hmo]. destruct (Forall2_lookup_r _ _ _ _ _ (co_chains _ _ H) Hc) as (hd & _ & Hch).
    destruct (hchain_next _ _ xs o ys Hch) as (n & -> & Hn). cbn [mbind option_bind].
    destruct (concat_insert chains _ _ (xs ++ h :: ys) Hc) as (rest & Hp1 & Hp2).
    assert (o ∉ (xs ++ ys) ++ rest) as Ho.
    { rewrite Hp1, <- app_assoc in Hnd. cbn [app] in Hnd. rewrite <- Permutation_middle in Hnd.
      apply NoDup_cons in Hnd as [Hnd _]. by rewrite <- app_assoc. }
    destruct (link_in_ok t chains key hash xs (o :: ys) ys n h H Hmh Hh Hfresh Hc Hn) as (t1 & t2 & E1 & E2 & L1 & L2 & H2).
    { by apply submseteq_cons. }
    { intros e He Hme. assert (e = o) as ->.
      { apply (co_unique _ _ H key hash); [|done..]. apply elem_of_concat. by eexists _, _. }
      set_solver. }
    rewrite E1. cbn [mbind option_bind]. rewrite E2. cbn [mbind option_bind].
    exists (Some o), t2. split_and!; [done|split; [by apply Hes|done]|].
    specialize (H2 (ht_elems t2)). exists (<[bucket (ht_length t) hash := xs ++ h :: ys]> chains). split.
    + destruct t2. apply H2. rewrite L1, Hce, Hp1, Hp2, !length_app. cbn [length]. lia.
    + intros e. rewrite Hp2, elem_of_union, elem_of_singleton, elem_of_difference, elem_of_singleton, Hes, Hp1.
      destruct (decide (e = o)) as [->|]; [|set_solver]. split; [|set_solver]. intros [->|[_ ?]]; [set_solver|done].
Qed.
End Rep.

Lemma chains_of_ext hash_of key_of hash_of' key_of' t chains :
  (forall e, e ∈ concat chains -> hash_of' e = hash_of e /\ key_of' e = key_of e) ->
  chains_of hash_of key_of t chains -> chains_of hash_of' key_of' t chains.
Proof.
  intros Hext H. split; try by apply H.
  - intros i xs e Hi He. destruct (co_placed _ _ _ _ H i xs e Hi He) as (hash & key & [H1 H2] & H3).
    destruct (Hext e) as [E1 E2]; [apply elem_of_concat; by exists i, xs|].
    exists hash, key. split; [split; congruence|done].
  - intros key hash e e' He He' [H1 H2] [H3 H4]. destruct (Hext e He) as [E1 E2]. destruct (Hext e' He') as [E3 E4].
    apply (co_unique _ _ _ _ H key hash); [done|done|split; congruence|split; congruence].
Qed.

Lemma table_holds_ext hash_of key_of hash_of' key_of' t es :
  (forall e, e ∈ es -> hash_of' e = hash_of e /\ key_of' e = key_of e) ->
  table_holds hash_of key_of t es -> table_holds hash_of' key_of' t es.
Proof.
  intros Hext (chains & H & Hes). exists chains. split; [|done]. apply (chains_of_ext hash_of key_of); [|done].
  intros e He. by apply Hext, Hes.
Qed.
