(* ===== verification/LdbCache.v ===== *)
(** leveldb: the cache with least-recently-used eviction, [cache.cc].

    A handle is an object at an address; the two dummy heads are the objects
    [lru_] and [in_use_].  [malloc] gives the address that is the argument
    [addr], [free] takes the object and its links out.  An assertion that fails
    and a use of an object that is not there make an operation undefined.  The
    calls of the deleter are the list [deleted_]. *)
From stdpp Require Import base numbers option gmap sets list.
From S2P Require Import Prelude LdbSlice LdbBloom LdbRing LdbHandleTable.
Open Scope Z_scope.
Open Scope c_scope.

Section Cache.
Context {V : Type}.

Record LRUHandle : Type := {
  lh_value : V;
  lh_charge : Z;
  lh_in_cache : bool;
  lh_refs : Z;
  lh_hash : Z;
  lh_key : bytes
}.

Record LRUCache : Type := {
  capacity_ : Z;
  usage_ : Z;
  lists_ : links;
  table_ : HandleTable;
  handles_ : gmap Z LRUHandle;
  deleted_ : list (bytes * V)
}.

Definition with_refs (e : LRUHandle) (n : Z) : LRUHandle :=
  {| lh_value := lh_value e; lh_charge := lh_charge e; lh_in_cache := lh_in_cache e; lh_refs := n;
     lh_hash := lh_hash e; lh_key := lh_key e |}.

Definition with_in_cache (e : LRUHandle) (b : bool) : LRUHandle :=
  {| lh_value := lh_value e; lh_charge := lh_charge e; lh_in_cache := b; lh_refs := lh_refs e;
     lh_hash := lh_hash e; lh_key := lh_key e |}.

Definition with_lists (c : LRUCache) (l : links) : LRUCache :=
  {| capacity_ := capacity_ c; usage_ := usage_ c; lists_ := l; table_ := table_ c; handles_ := handles_ c;
     deleted_ := deleted_ c |}.

Definition with_table (c : LRUCache) (t : HandleTable) : LRUCache :=
  {| capacity_ := capacity_ c; usage_ := usage_ c; lists_ := lists_ c; table_ := t; handles_ := handles_ c;
     deleted_ := deleted_ c |}.

Definition with_usage (c : LRUCache) (n : Z) : LRUCache :=
  {| capacity_ := capacity_ c; usage_ := n; lists_ := lists_ c; table_ := table_ c; handles_ := handles_ c;
     deleted_ := deleted_ c |}.

Definition put_handle (c : LRUCache) (a : Z) (e : LRUHandle) : LRUCache :=
  {| capacity_ := capacity_ c; usage_ := usage_ c; lists_ := lists_ c; table_ := table_ c;
     handles_ := <[a := e]> (handles_ c); deleted_ := deleted_ c |}.

(** The dummy heads. *)
Definition lru_ : Z := 1.
Definition in_use_ : Z := 2.

(** [assert(next != this)] and the key. *)
Definition LRUHandle_key (c : LRUCache) (a : Z) : option bytes :=
  e ← handles_ c !! a;
  n ← nxt (lists_ c) !! a;
  if n =? a then None else Some (lh_key e).

Definition handle_hash (c : LRUCache) (a : Z) : option Z := lh_hash <$> handles_ c !! a.

(** The deleter is called, then the memory is freed. *)
Definition free_handle (c : LRUCache) (a : Z) : option LRUCache :=
  e ← handles_ c !! a;
  key ← LRUHandle_key c a;
  Some {| capacity_ := capacity_ c; usage_ := usage_ c;
          lists_ := {| nxt := delete a (nxt (lists_ c)); prv := delete a (prv (lists_ c)) |};
          table_ := table_ c; handles_ := delete a (handles_ c);
          deleted_ := deleted_ c ++ [(key, lh_value e)] |}.

Definition LRUCache_new (capacity : Z) : option LRUCache :=
  t ← HandleTable_new (fun _ => None);
  Some {| capacity_ := capacity; usage_ := 0;
          lists_ := ring_init (ring_init {| nxt := ∅; prv := ∅ |} lru_) in_use_;
          table_ := t; handles_ := ∅; deleted_ := [] |}.

Definition LRU_Remove (c : LRUCache) (e : Z) : option LRUCache :=
  l ← ring_remove (lists_ c) e; Some (with_lists c l).

Definition LRU_Append (c : LRUCache) (list e : Z) : option LRUCache :=
  l ← ring_append (lists_ c) list e; Some (with_lists c l).

Definition Ref (c : LRUCache) (a : Z) : option LRUCache :=
  e ← handles_ c !! a;
  c ← (if ((lh_refs e =? 1) && lh_in_cache e)%bool
       then c ← LRU_Remove c a; LRU_Append c in_use_ a
       else Some c);
  e ← handles_ c !! a;
  Some (put_handle c a (with_refs e (u32 (lh_refs e + 1)))).

Definition Unref (c : LRUCache) (a : Z) : option LRUCache :=
  e ← handles_ c !! a;
  if lh_refs e >? 0 then
    let e := with_refs e (u32 (lh_refs e - 1)) in
    let c := put_handle c a e in
    if lh_refs e =? 0 then
      if lh_in_cache e then None else free_handle c a
    else if (lh_in_cache e && (lh_refs e =? 1))%bool then
      c ← LRU_Remove c a; LRU_Append c lru_ a
    else Some c
  else None.

Definition FinishErase (c : LRUCache) (e : option Z) : option (bool * LRUCache) :=
  match e with
  | None => Some (false, c)
  | Some a =>
      e ← handles_ c !! a;
      if lh_in_cache e then
        c ← LRU_Remove c a;
        let c := put_handle c a (with_in_cache e false) in
        let c := with_usage c (u64 (usage_ c - lh_charge e)) in
        c ← Unref c a;
        Some (true, c)
      else None
  end.

Definition LRUCache_Lookup (c : LRUCache) (key : bytes) (hash : Z) : option (option Z * LRUCache) :=
  e ← HandleTable_Lookup (handle_hash c) (LRUHandle_key c) (table_ c) key hash;
  match e with
  | Some a => c ← Ref c a; Some (e, c)
  | None => Some (e, c)
  end.

Definition LRUCache_Release (c : LRUCache) (a : Z) : option LRUCache := Unref c a.

(** What the loops of [Insert] and [Prune] do with the oldest entry of [lru_]. *)
Definition evict (c : LRUCache) (old : Z) : option LRUCache :=
  e ← handles_ c !! old;
  if lh_refs e =? 1 then
    key ← LRUHandle_key c old;
    '(removed, t) ← HandleTable_Remove (handle_hash c) (LRUHandle_key c) (table_ c) key (lh_hash e);
    '(erased, c) ← FinishErase (with_table c t) removed;
    if erased : bool then Some c else None
  else None.

(** Every round frees a handle. *)
Fixpoint evict_loop (n : nat) (c : LRUCache) : option LRUCache :=
  first ← nxt (lists_ c) !! lru_;
  if ((usage_ c >? capacity_ c) && negb (first =? lru_))%bool then
    match n with
    | O => None
    | S n' => c ← evict c first; evict_loop n' c
    end
  else Some c.

Definition LRUCache_Insert (c : LRUCache) (addr : Z) (key : bytes) (hash : Z) (value : V) (charge : Z) :
    option (Z * LRUCache) :=
  let e := {| lh_value := value; lh_charge := charge; lh_in_cache := false; lh_refs := 1; lh_hash := hash;
              lh_key := key |} in
  c ← (if capacity_ c >? 0 then
         let c := put_handle c addr (with_in_cache (with_refs e 2) true) in
         c ← LRU_Append c in_use_ addr;
         let c := with_usage c (u64 (usage_ c + charge)) in
         '(old, t) ← HandleTable_Insert (handle_hash c) (LRUHandle_key c) (table_ c) addr;
         '(_, c) ← FinishErase (with_table c t) old;
         Some c
       else
         let c := put_handle c addr e in
         Some (with_lists c (link_next (lists_ c) addr 0)));
  c ← evict_loop (size (handles_ c)) c;
  Some (addr, c).

Definition LRUCache_Erase (c : LRUCache) (key : bytes) (hash : Z) : option LRUCache :=
  '(removed, t) ← HandleTable_Remove (handle_hash c) (LRUHandle_key c) (table_ c) key hash;
  '(_, c) ← FinishErase (with_table c t) removed;
  Some c.

Fixpoint prune_loop (n : nat) (c : LRUCache) : option LRUCache :=
  first ← nxt (lists_ c) !! lru_;
  if negb (first =? lru_) then
    match n with
    | O => None
    | S n' => c ← evict c first; prune_loop n' c
    end
  else Some c.

Definition LRUCache_Prune (c : LRUCache) : option LRUCache := prune_loop (size (handles_ c)) c.

Definition LRUCache_TotalCharge (c : LRUCache) : Z := usage_ c.

(** The loop of the destructor. *)
Fixpoint destroy_loop (n : nat) (c : LRUCache) (a : Z) : option LRUCache :=
  if a =? lru_ then Some c
  else
    match n with
    | O => None
    | S n' =>
        next ← nxt (lists_ c) !! a;
        e ← handles_ c !! a;
        if (lh_in_cache e && (lh_refs e =? 1))%bool then
          c ← Unref (put_handle c a (with_in_cache e false)) a;
          destroy_loop n' c next
        else None
    end.

Definition LRUCache_destroy (c : LRUCache) : option LRUCache :=
  u ← nxt (lists_ c) !! in_use_;
  if u =? in_use_ then
    first ← nxt (lists_ c) !! lru_;
    destroy_loop (size (handles_ c)) c first
  else None.

(** * The sharded cache *)
Definition kNumShardBits : Z := 4.
Definition kNumShards : Z := Z.shiftl 1 kNumShardBits.

Record ShardedLRUCache : Type := { shard_ : list LRUCache; last_id_ : Z }.

Definition HashSlice (s : bytes) : Z := Hash s 0.

Definition Shard (hash : Z) : Z := Z.shiftr hash (32 - kNumShardBits).

Definition ShardedLRUCache_new (capacity : Z) : option ShardedLRUCache :=
  let per_shard := u64 (capacity + (kNumShards - 1)) / kNumShards in
  s ← LRUCache_new per_shard;
  Some {| shard_ := replicate (Z.to_nat kNumShards) s; last_id_ := 0 |}.

(** A call to the shard of [hash]. *)
Definition on_shard {R : Type} (c : ShardedLRUCache) (hash : Z) (f : LRUCache -> option (R * LRUCache)) :
    option (R * ShardedLRUCache) :=
  s ← shard_ c !! Z.to_nat (Shard hash);
  '(r, s) ← f s;
  Some (r, {| shard_ := <[Z.to_nat (Shard hash) := s]> (shard_ c); last_id_ := last_id_ c |}).

Definition Cache_Insert (c : ShardedLRUCache) (addr : Z) (key : bytes) (value : V) (charge : Z) :
    option (Z * ShardedLRUCache) :=
  let hash := HashSlice key in
  on_shard c hash (fun s => LRUCache_Insert s addr key hash value charge).

Definition Cache_Lookup (c : ShardedLRUCache) (key : bytes) : option (option Z * ShardedLRUCache) :=
  let hash := HashSlice key in
  on_shard c hash (fun s => LRUCache_Lookup s key hash).

(** The object behind a handle: the shards share one memory. *)
Definition find_handle (c : ShardedLRUCache) (a : Z) : option LRUHandle :=
  head (omap (fun s => handles_ s !! a) (shard_ c)).

Definition Cache_Release (c : ShardedLRUCache) (a : Z) : option ShardedLRUCache :=
  h ← find_handle c a;
  snd <$> on_shard c (lh_hash h) (fun s => s ← LRUCache_Release s a; Some (tt, s)).

Definition Cache_Erase (c : ShardedLRUCache) (key : bytes) : option ShardedLRUCache :=
  let hash := HashSlice key in
  snd <$> on_shard c hash (fun s => s ← LRUCache_Erase s key hash; Some (tt, s)).

Definition Cache_Value (c : ShardedLRUCache) (a : Z) : option V := lh_value <$> find_handle c a.

Definition Cache_NewId (c : ShardedLRUCache) : Z * ShardedLRUCache :=
  let id := u64 (last_id_ c + 1) in (id, {| shard_ := shard_ c; last_id_ := id |}).

Definition Cache_Prune (c : ShardedLRUCache) : option ShardedLRUCache :=
  shards ← mapM LRUCache_Prune (shard_ c);
  Some {| shard_ := shards; last_id_ := last_id_ c |}.

Definition Cache_TotalCharge (c : ShardedLRUCache) : Z :=
  fold_left (fun total s => u64 (total + LRUCache_TotalCharge s)) (shard_ c) 0.

(** The elements of an array are destroyed from the last to the first. *)
Definition ShardedLRUCache_destroy (c : ShardedLRUCache) : option (list LRUCache) :=
  mapM LRUCache_destroy (rev (shard_ c)).
End Cache.
Arguments LRUHandle : clear implicits.
Arguments LRUCache : clear implicits.
Arguments ShardedLRUCache : clear implicits.

Definition NewLRUCache (V : Type) (capacity : Z) : option (ShardedLRUCache V) := ShardedLRUCache_new capacity.
