(* ===== verification/LdbCacheThms.v ===== *)
(** leveldb: what the cache guarantees, [cache.cc].

    [cache_ok c lru use ext] says that the unused entries are [lru], the oldest
    first, that the entries in use are [use], and that the clients hold [ext a]
    references to the handle [a].  It is kept by every operation. *)
From stdpp Require Import base numbers option gmap sets list.
From S2P Require Import Prelude LdbSlice LdbBloom LdbRing LdbHandleTable LdbCache.
Open Scope Z_scope.

(** * The two lists *)

(** All but one. *)
Definition without (a : Z) (l : list Z) : list Z := filter (fun x => x <> a) l.

Lemma without_notin a l : a ∉ l -> without a l = l.
Proof.
  induction l as [|x l IH]; intros Ha; [done|]. unfold without in *. rewrite filter_cons_True by set_solver.
  rewrite IH; [done|set_solver].
Qed.

Lemma without_split a xs ys : NoDup (xs ++ a :: ys) -> without a (xs ++ a :: ys) = xs ++ ys.
Proof.
  intros Hnd. unfold without. rewrite filter_app, filter_cons_False by (intros H; by apply H).
  rewrite <- Permutation_middle in Hnd. apply NoDup_cons in Hnd as [Hnd _].
  pose proof (without_notin a xs) as H1. pose proof (without_notin a ys) as H2. unfold without in *.
  rewrite H1, H2; [done|set_solver..].
Qed.

Lemma elem_of_without a b l : b ∈ without a l <-> b <> a /\ b ∈ l.
Proof. unfold without. by rewrite list_elem_of_filter. Qed.

Record rings (l : links) (lru use : list Z) : Prop := {
  rs_lru : ring l lru_ lru;
  rs_use : ring l in_use_ use;
  rs_apart : lru_ :: lru ## in_use_ :: use
}.

(** A link that does not lead to its own node. *)
Definition leads_away (l : links) (a : Z) : Prop := exists n, nxt l !! a = Some n /\ n <> a.

Lemma ring_leads_away l h xs a : ring l h xs -> a ∈ xs -> leads_away l a.
Proof.
  intros H (l1 & l2 & ->)%list_elem_of_split. exists (default h (head l2)). rewrite (ring_next l h l1 a l2 H).
  destruct H as [Hnd _]. split; [by destruct l2|]. rewrite app_comm_cons in Hnd.
  apply NoDup_app in Hnd as (_ & Hd & Hnd). apply NoDup_cons in Hnd as [Hnd _].
  destruct l2 as [|b l2]; cbn; [|set_solver]. intros ->. apply (Hd a); set_solver.
Qed.

Lemma ring_nodup l h xs : ring l h xs -> NoDup xs /\ h ∉ xs.
Proof. intros [[? ?]%NoDup_cons _]. done. Qed.

Lemma ring_remove_without l h xs a :
  ring l h xs -> a ∈ xs ->
  exists l', ring_remove l a = Some l' /\ ring l' h (without a xs)
    /\ (forall c, c ∉ h :: without a xs -> nxt l' !! c = nxt l !! c /\ prv l' !! c = prv l !! c)
    /\ forall c, c <> h -> leads_away l c -> leads_away l' c.
Proof.
  intros H Ha. pose proof (ring_nodup _ _ _ H) as [Hnd Hh]. pose proof Ha as (l1 & l2 & ->)%list_elem_of_split.
  destruct (ring_remove_ok l h l1 a l2 H) as (l' & E & H' & Hf). exists l'. rewrite without_split by done.
  split_and!; [done..|]. intros c Hc [n [Hn Hne]]. destruct (decide (c ∈ l1 ++ l2)) as [Hin|Hout].
  - by apply (ring_leads_away _ _ _ _ H').
  - exists n. split; [|done]. by rewrite (proj1 (Hf c ltac:(set_solver))).
Qed.

Lemma ring_append_leads l l' h xs a :
  ring l' h (xs ++ [a]) -> (forall c, c ∉ h :: xs ++ [a] -> nxt l' !! c = nxt l !! c /\ prv l' !! c = prv l !! c) ->
  leads_away l' a /\ forall c, c <> h -> leads_away l c -> leads_away l' c.
Proof.
  intros H Hf. split; [apply (ring_leads_away _ _ _ _ H); set_solver|]. intros c Hc (n & Hn & Hne).
  destruct (decide (c ∈ xs ++ [a])) as [Hin|Hout]; [by apply (ring_leads_away _ _ _ _ H)|].
  exists n. split; [|done]. by rewrite (proj1 (Hf c ltac:(set_solver))).
Qed.

Lemma rings_remove l lru use a :
  rings l lru use -> a ∈ lru ++ use ->
  exists l', ring_remove l a = Some l' /\ rings l' (without a lru) (without a use)
    /\ forall c, c <> lru_ -> c <> in_use_ -> leads_away l c -> leads_away l' c.
Proof.
  intros [H1 H2 H3] Ha. apply elem_of_app in Ha as [Ha|Ha].
  - destruct (ring_remove_without l lru_ lru a H1 Ha) as (l' & E & H' & Hf & Hl). exists l'.
    rewrite (without_notin a use) by set_solver. split_and!; [done| |auto]. split; [done| |].
    + apply (ring_frame l); [|done]. intros c Hc. apply Hf. intros [->|[_ Hx]%elem_of_without]%elem_of_cons; set_solver.
    + intros x [->|[_ Hx]%elem_of_without]%elem_of_cons; set_solver.
  - destruct (ring_remove_without l in_use_ use a H2 Ha) as (l' & E & H' & Hf & Hl). exists l'.
    rewrite (without_notin a lru) by set_solver. split_and!; [done| |auto]. split; [|done|].
    + apply (ring_frame l); [|done]. intros c Hc. apply Hf. intros [->|[_ Hx]%elem_of_without]%elem_of_cons; set_solver.
    + intros x Hx [->|[_ Hy]%elem_of_without]%elem_of_cons; set_solver.
Qed.

Lemma rings_append l lru use h a :
  rings l lru use -> h = lru_ \/ h = in_use_ -> a ∉ lru_ :: lru ++ in_use_ :: use ->
  exists l', ring_append l h a = Some l'
    /\ rings l' (if h =? lru_ then lru ++ [a] else lru) (if h =? lru_ then use else use ++ [a])
    /\ leads_away l' a /\ forall c, c <> lru_ -> c <> in_use_ -> leads_away l c -> leads_away l' c.
Proof.
  intros [H1 H2 H3] [->| ->] Ha.
  - destruct (ring_append_ok l lru_ lru a H1 ltac:(set_solver)) as (l' & E & H' & Hf).
    destruct (ring_append_leads _ _ _ _ _ H' Hf) as [Hl1 Hl2]. exists l'. split_and!; [done| |done|auto].
    cbn. split; [done| |set_solver]. apply (ring_frame l); [|done]. intros c Hc. apply Hf. set_solver.
  - destruct (ring_append_ok l in_use_ use a H2 ltac:(set_solver)) as (l' & E & H' & Hf).
    destruct (ring_append_leads _ _ _ _ _ H' Hf) as [Hl1 Hl2]. exists l'. split_and!; [done| |done|auto].
    cbn. split; [|done|set_solver]. apply (ring_frame l); [|done]. intros c Hc. apply Hf. set_solver.
Qed.

Section Cache.
Context {V : Type}.
Implicit Types (c : LRUCache V) (lru use : list Z) (ext : Z -> Z).

(** * The invariant *)

Definition bump (ext : Z -> Z) (a d : Z) : Z -> Z := fun b => if decide (b = a) then ext a + d else ext b.

Definition charge_of (hs : gmap Z (LRUHandle V)) (a : Z) : Z := from_option lh_charge 0 (hs !! a).

Definition total (hs : gmap Z (LRUHandle V)) (l : list Z) : Z := foldr (fun a t => charge_of hs a + t) 0 l.

(** A handle and its place. *)
Record entry_ok (l : links) lru use ext (a : Z) (e : LRUHandle V) : Prop := {
  ho_head : a <> lru_ /\ a <> in_use_;
  ho_hash : in_uint 32 (lh_hash e);
  ho_next : leads_away l a;
  ho_ext : 0 <= ext a;
  ho_refs : lh_refs e = ext a + (if lh_in_cache e then 1 else 0);
  ho_pos : 0 < lh_refs e < 2 ^ 32;
  ho_lru : a ∈ lru <-> lh_in_cache e = true /\ ext a = 0;
  ho_use : a ∈ use <-> lh_in_cache e = true /\ 0 < ext a
}.

(** All but the hash table. *)
Record core c lru use ext : Prop := {
  co_rings : rings (lists_ c) lru use;
  co_handle a e : handles_ c !! a = Some e -> entry_ok (lists_ c) lru use ext a e;
  co_known a : a ∈ lru ++ use -> is_Some (handles_ c !! a);
  co_held a : ext a <> 0 -> is_Some (handles_ c !! a);
  co_usage : usage_ c = u64 (total (handles_ c) (lru ++ use))
}.

(** The key and the hash of a handle. *)
Definition named (c : LRUCache V) (key : bytes) (hash a : Z) : Prop :=
  exists e, handles_ c !! a = Some e /\ lh_key e = key /\ lh_hash e = hash.

Definition in_table c (es : gset Z) : Prop := table_holds (handle_hash c) (LRUHandle_key c) (table_ c) es.

Record cache_ok c lru use ext : Prop := {
  ok_core : core c lru use ext;
  ok_table : in_table c (list_to_set (lru ++ use))
}.

Lemma core_key c lru use ext a : core c lru use ext -> LRUHandle_key c a = lh_key <$> handles_ c !! a.
Proof.
  intros H. unfold LRUHandle_key. destruct (handles_ c !! a) as [e|] eqn:E; [|done].
  destruct (ho_next _ _ _ _ _ _ (co_handle _ _ _ _ H a e E)) as (n & -> & Hn). cbn.
  by rewrite (proj2 (Z.eqb_neq _ _)).
Qed.

Lemma core_matches c lru use ext key hash a :
  core c lru use ext -> matches (handle_hash c) (LRUHandle_key c) key hash a <-> named c key hash a.
Proof.
  intros H. unfold matches, named, handle_hash. rewrite (core_key _ _ _ _ a H).
  destruct (handles_ c !! a) as [e|]; cbn.
  - split; [intros [[= <-] [= <-]]; by exists e|by intros (e' & [= <-] & <- & <-)].
  - split; [by intros [? ?]|by intros (e' & ? & _)].
Qed.

Lemma core_nodup c lru use ext : core c lru use ext -> NoDup (lru ++ use).
Proof.
  intros H. destruct (co_rings _ _ _ _ H) as [H1 H2 H3]. apply NoDup_app.
  apply ring_nodup in H1 as [? _]. apply ring_nodup in H2 as [? _]. split_and!; [done| |done]. set_solver.
Qed.

(** The table stays as long as the handles in it keep their names. *)
Definition same_name c c' (a : Z) : Prop :=
  (fun e => (lh_key e, lh_hash e)) <$> handles_ c' !! a = (fun e => (lh_key e, lh_hash e)) <$> handles_ c !! a.

Lemma in_table_change c c' lru use ext lru' use' ext' es :
  core c lru use ext -> core c' lru' use' ext' -> (forall a, a ∈ es -> same_name c c' a) -> table_ c' = table_ c ->
  in_table c es -> in_table c' es.
Proof.
  intros H H' Hs Ht. unfold in_table. rewrite Ht. apply table_holds_ext. intros a Ha. specialize (Hs a Ha).
  unfold same_name in Hs. rewrite (core_key _ _ _ _ a H), (core_key _ _ _ _ a H'). unfold handle_hash.
  destruct (handles_ c !! a), (handles_ c' !! a); cbn in *; split; congruence.
Qed.

Lemma total_app hs l l' : total hs (l ++ l') = total hs l + total hs l'.
Proof. unfold total. induction l; cbn [app foldr]; lia. Qed.

Lemma total_perm hs l l' : l ≡ₚ l' -> total hs l = total hs l'.
Proof. unfold total. induction 1; cbn [foldr]; lia. Qed.

Lemma total_ext hs hs' l : (forall a, a ∈ l -> charge_of hs' a = charge_of hs a) -> total hs' l = total hs l.
Proof.
  unfold total. induction l as [|a l IH]; intros H; cbn [foldr]; [done|]. rewrite IH by set_solver.
  rewrite H by set_solver. done.
Qed.

Lemma total_without hs a l : NoDup l -> a ∈ l -> total hs (without a l) = total hs l - charge_of hs a.
Proof.
  intros Hnd (l1 & l2 & ->)%list_elem_of_split. rewrite without_split by done. rewrite !total_app.
  change (total hs (a :: l2)) with (charge_of hs a + total hs l2). lia.
Qed.

Lemma without_app a l l' : without a (l ++ l') = without a l ++ without a l'.
Proof. unfold without. by rewrite filter_app. Qed.

Lemma charge_insert hs a e b :
  charge_of (<[a := e]> hs) b = if decide (b = a) then lh_charge e else charge_of hs b.
Proof.
  unfold charge_of. destruct (decide (b = a)) as [->|]; [by rewrite lookup_insert_eq|by rewrite lookup_insert_ne].
Qed.

Lemma u64_sub_u64 a b : u64 (u64 a - b) = u64 (a - b).
Proof. unfold u64. by rewrite Zminus_mod_idemp_l. Qed.

Lemma u64_add_u64 a b : u64 (u64 a + b) = u64 (a + b).
Proof. unfold u64. by rewrite Zplus_mod_idemp_l. Qed.

(** * Taking and dropping references *)

(** A handle changes and nothing else does. *)
Lemma core_put c lru use ext ext' a e e' :
  core c lru use ext -> handles_ c !! a = Some e -> lh_charge e' = lh_charge e ->
  (forall b, b <> a -> ext' b = ext b) -> entry_ok (lists_ c) lru use ext' a e' ->
  core (put_handle c a e') lru use ext'.
Proof.
  intros H E Hch Hext Hok. split; cbn [put_handle lists_ handles_ usage_].
  - exact (co_rings _ _ _ _ H).
  - intros b eb Eb. destruct (decide (b = a)) as [->|Hne].
    + rewrite lookup_insert_eq in Eb. by injection Eb as <-.
    + rewrite lookup_insert_ne in Eb by done. destruct (co_handle _ _ _ _ H b eb Eb). split; rewrite ?Hext by done; done.
  - intros b Hb. destruct (decide (b = a)) as [->|Hne]; [by rewrite lookup_insert_eq|].
    rewrite lookup_insert_ne by done. by apply (co_known _ _ _ _ H).
  - intros b Hb. destruct (decide (b = a)) as [->|Hne]; [by rewrite lookup_insert_eq|].
    rewrite lookup_insert_ne by done. rewrite Hext in Hb by done. by apply (co_held _ _ _ _ H).
  - rewrite (co_usage _ _ _ _ H). f_equal. symmetry. apply total_ext. intros b _. rewrite charge_insert.
    destruct (decide (b = a)) as [->|]; [|done]. unfold charge_of. by rewrite E.
Qed.

(** A handle goes from its list to the end of the list of [h]. *)
Definition moved (h a : Z) (h' : Z) (l : list Z) : list Z := if h =? h' then without a l ++ [a] else without a l.

Lemma core_move c lru use ext ext' a e e' h :
  core c lru use ext -> handles_ c !! a = Some e -> a ∈ lru ++ use -> lh_charge e' = lh_charge e ->
  h = lru_ /\ ext' a = 0 \/ h = in_use_ /\ 0 < ext' a ->
  (forall b, b <> a -> ext' b = ext b) ->
  lh_hash e' = lh_hash e -> lh_in_cache e' = true -> lh_refs e' = ext' a + 1 -> lh_refs e' < 2 ^ 32 ->
  exists l, (l ← ring_remove (lists_ c) a; ring_append l h a) = Some l
    /\ core (put_handle (with_lists c l) a e') (moved h a lru_ lru) (moved h a in_use_ use) ext'.
Proof.
  intros H E Hin Hch Hh Hext Hhash Hic Hrefs Hmax. pose proof (co_handle _ _ _ _ H a e E) as Ha.
  destruct (rings_remove _ lru use a (co_rings _ _ _ _ H) Hin) as (l1 & E1 & H1 & Hf1).
  destruct (rings_append l1 (without a lru) (without a use) h a H1) as (l2 & E2 & H2 & Haway & Hf2).
  { destruct Hh as [[-> _]|[-> _]]; auto. }
  { pose proof (ho_head _ _ _ _ _ _ Ha). rewrite elem_of_cons, elem_of_app, elem_of_cons, !elem_of_without. tauto. }
  exists l2. rewrite E1. cbn [mbind option_bind]. split; [done|].
  assert (forall b, b ∈ moved h a lru_ lru <-> if decide (b = a) then h = lru_ else b ∈ lru) as Hl.
  { intros b. unfold moved. destruct (Z.eqb_spec h lru_), (decide (b = a)); rewrite ?elem_of_app, ?elem_of_without, ?list_elem_of_singleton; naive_solver. }
  assert (forall b, b ∈ moved h a in_use_ use <-> if decide (b = a) then h = in_use_ else b ∈ use) as Hu.
  { intros b. unfold moved. destruct (Z.eqb_spec h in_use_), (decide (b = a)); rewrite ?elem_of_app, ?elem_of_without, ?list_elem_of_singleton; naive_solver. }
  assert (lru_ <> in_use_) as Hheads by done.
  split; cbn [put_handle with_lists lists_ handles_ usage_].
  - unfold moved. destruct Hh as [[-> _]|[-> _]]; exact H2.
  - intros b eb Eb. destruct (decide (b = a)) as [->|Hne].
    + rewrite lookup_insert_eq in Eb. injection Eb as <-. destruct Ha.
      split; try done; [by rewrite Hhash|lia|by rewrite Hic|lia| |].
      * rewrite Hl, decide_True by done. rewrite Hic. destruct Hh as [[-> Hx]|[-> Hx]]; [done|]. split; [done|lia].
      * rewrite Hu, decide_True by done. rewrite Hic. destruct Hh as [[-> Hx]|[-> Hx]]; [|done]. split; [done|lia].
    + rewrite lookup_insert_ne in Eb by done. destruct (co_handle _ _ _ _ H b eb Eb).
      split; rewrite ?Hext by done; try done; [apply Hf2, Hf1; tauto|by rewrite Hl, decide_False|by rewrite Hu, decide_False].
  - intros b Hb. destruct (decide (b = a)) as [->|Hne]; [by rewrite lookup_insert_eq|]. rewrite lookup_insert_ne by done.
    apply (co_known _ _ _ _ H). rewrite elem_of_app in Hb |- *. by rewrite Hl, Hu, !decide_False in Hb.
  - intros b Hb. destruct (decide (b = a)) as [->|Hne]; [by rewrite lookup_insert_eq|].
    rewrite lookup_insert_ne by done. rewrite Hext in Hb by done. by apply (co_held _ _ _ _ H).
  - rewrite (co_usage _ _ _ _ H). f_equal. pose proof (core_nodup _ _ _ _ H) as Hnd.
    transitivity (total (handles_ c) (moved h a lru_ lru ++ moved h a in_use_ use)).
    + apply total_perm. apply NoDup_Permutation; [done| |].
      * destruct H2 as [R1 R2 R3]. apply ring_nodup in R1 as [R1 _]. apply ring_nodup in R2 as [R2 _].
        unfold moved. destruct Hh as [[-> _]|[-> _]]; cbn in *; apply NoDup_app; split_and!; try done; set_solver.
      * intros b. rewrite !elem_of_app, Hl, Hu. destruct (decide (b = a)) as [->|]; [|done].
        rewrite elem_of_app in Hin. destruct Hh as [[-> _]|[-> _]]; naive_solver.
    + symmetry. apply total_ext. intros b _. rewrite charge_insert. destruct (decide (b = a)) as [->|]; [|done].
      unfold charge_of. by rewrite E.
Qed.

Lemma move_lists c a h :
  (c ← LRU_Remove c a; LRU_Append c h a)
  = (l ← (l ← ring_remove (lists_ c) a; ring_append l h a); Some (with_lists c l)).
Proof. unfold LRU_Remove, LRU_Append. by destruct (ring_remove (lists_ c) a). Qed.

Lemma bump_other ext a d b : b <> a -> bump ext a d b = ext b.
Proof. intros H. unfold bump. by rewrite decide_False. Qed.

Lemma bump_same ext a d : bump ext a d a = ext a + d.
Proof. unfold bump. by rewrite decide_True. Qed.

Lemma Ref_ok c lru use ext a e :
  core c lru use ext -> handles_ c !! a = Some e -> lh_in_cache e = true -> lh_refs e + 1 < 2 ^ 32 ->
  exists c', Ref c a = Some c'
    /\ core c' (without a lru) (if decide (a ∈ use) then use else use ++ [a]) (bump ext a 1)
    /\ handles_ c' = <[a := with_refs e (lh_refs e + 1)]> (handles_ c)
    /\ table_ c' = table_ c /\ capacity_ c' = capacity_ c /\ deleted_ c' = deleted_ c.
Proof.
  intros H E Hic Hmax. pose proof (co_handle _ _ _ _ H a e E) as Ha. pose proof (ho_refs _ _ _ _ _ _ Ha) as Hr.
  pose proof (ho_pos _ _ _ _ _ _ Ha) as Hp. rewrite Hic in Hr. unfold Ref. rewrite E. cbn [mbind option_bind].
  assert (u32 (lh_refs e + 1) = lh_refs e + 1) as Eu by (apply u32_small; unfold in_uint; lia).
  assert (lru_ <> in_use_) as Hheads by done.
  rewrite Hic. destruct (Z.eqb_spec (lh_refs e) 1) as [E1|E1]; cbn [andb].
  - assert (ext a = 0) as Hext by lia. assert (a ∈ lru) as Hin by (by apply (ho_lru _ _ _ _ _ _ Ha)).
    assert (a ∉ use) as Hout by (rewrite (ho_use _ _ _ _ _ _ Ha); lia).
    destruct (core_move c lru use ext (bump ext a 1) a e (with_refs e (lh_refs e + 1)) in_use_ H E) as (l & El & Hc);
      [set_solver|done|right; rewrite bump_same; split; [done|lia]|by intros; apply bump_other|done|done
      |rewrite bump_same; cbn; lia|cbn; lia|].
    rewrite move_lists, El. cbn [mbind option_bind with_lists handles_]. rewrite E. cbn [mbind option_bind]. rewrite Eu.
    eexists. split; [done|]. rewrite decide_False by done. unfold moved in Hc. cbn in Hc.
    rewrite (without_notin a use) in Hc by done. split; [exact Hc|done].
  - cbn [mbind option_bind]. rewrite E. cbn [mbind option_bind]. rewrite Eu. eexists. split; [done|].
    assert (a ∈ use) as Hin by (apply (ho_use _ _ _ _ _ _ Ha); split; [done|lia]).
    assert (a ∉ lru) as Hout by (rewrite (ho_lru _ _ _ _ _ _ Ha); lia).
    rewrite decide_True, without_notin by done. split; [|done].
    apply (core_put c lru use ext _ a e); [done..|by intros; apply bump_other|].
    destruct Ha. split; rewrite ?bump_same; cbn; try done; try lia; rewrite Hic in *; cbn in *; split; intros; try done; lia.
Qed.

Lemma core_free c lru use ext a e :
  core c lru use ext -> handles_ c !! a = Some e -> lh_in_cache e = false -> ext a = 1 ->
  exists c', free_handle (put_handle c a (with_refs e 0)) a = Some c' /\ core c' lru use (bump ext a (-1))
    /\ handles_ c' = delete a (handles_ c)
    /\ table_ c' = table_ c /\ capacity_ c' = capacity_ c /\ deleted_ c' = deleted_ c ++ [(lh_key e, lh_value e)].
Proof.
  intros H E Hic Hext. pose proof (co_handle _ _ _ _ H a e E) as Ha.
  destruct (ho_next _ _ _ _ _ _ Ha) as (n & Hn & Hne).
  assert (a ∉ lru_ :: lru /\ a ∉ in_use_ :: use) as [Hout1 Hout2].
  { rewrite !elem_of_cons, (ho_lru _ _ _ _ _ _ Ha), (ho_use _ _ _ _ _ _ Ha), Hic. destruct (ho_head _ _ _ _ _ _ Ha). naive_solver. }
  unfold free_handle, LRUHandle_key. cbn [put_handle handles_ lists_]. rewrite lookup_insert_eq. cbn [mbind option_bind].
  rewrite Hn. cbn [mbind option_bind]. rewrite (proj2 (Z.eqb_neq _ _)) by done. cbn [mbind option_bind].
  eexists. split; [done|]. cbn [put_handle handles_ table_ capacity_ deleted_]. split_and!; [|apply delete_insert_eq|done..].
  split; cbn [handles_ lists_ usage_ put_handle]; rewrite ?delete_insert_eq.
  - destruct (co_rings _ _ _ _ H) as [H1 H2 H3]. split; [| |done].
    + apply (ring_frame (lists_ c)); [|done]. intros b Hb. cbn [nxt prv]. rewrite !lookup_delete_ne; [done|by intros ->..].
    + apply (ring_frame (lists_ c)); [|done]. intros b Hb. cbn [nxt prv]. rewrite !lookup_delete_ne; [done|by intros ->..].
  - intros b eb (Hne' & Eb)%lookup_delete_Some. destruct (co_handle _ _ _ _ H b eb Eb).
    split; rewrite ?bump_other by done; try done. destruct ho_next0 as (m & Hm & Hmne). exists m. split; [|done].
    cbn [nxt]. by rewrite lookup_delete_ne.
  - intros b Hb. rewrite lookup_delete_ne; [by apply (co_known _ _ _ _ H)|]. intros <-. set_solver.
  - intros b Hb. destruct (decide (b = a)) as [->|Hne']; [rewrite bump_same in Hb; lia|].
    rewrite bump_other in Hb by done. rewrite lookup_delete_ne by done. by apply (co_held _ _ _ _ H).
  - rewrite (co_usage _ _ _ _ H). f_equal. symmetry. apply total_ext. intros b Hb. unfold charge_of.
    rewrite lookup_delete_ne; [done|]. intros <-. set_solver.
Qed.

(** What dropping a reference does to the lists. *)
Definition unref_lru (e : LRUHandle V) a lru : list Z :=
  if (lh_in_cache e && (lh_refs e =? 2))%bool then lru ++ [a] else lru.

Definition unref_use (e : LRUHandle V) a use : list Z :=
  if (lh_in_cache e && (lh_refs e =? 2))%bool then without a use else use.

Definition unref_deleted (e : LRUHandle V) : list (bytes * V) :=
  if lh_refs e =? 1 then [(lh_key e, lh_value e)] else [].

Lemma Unref_ok c lru use ext a e :
  core c lru use ext -> handles_ c !! a = Some e -> 0 < ext a ->
  exists c', Unref c a = Some c' /\ core c' (unref_lru e a lru) (unref_use e a use) (bump ext a (-1))
    /\ handles_ c' = (if lh_refs e =? 1 then delete a (handles_ c)
                      else <[a := with_refs e (lh_refs e - 1)]> (handles_ c))
    /\ table_ c' = table_ c /\ capacity_ c' = capacity_ c /\ deleted_ c' = deleted_ c ++ unref_deleted e.
Proof.
  intros H E Hext. pose proof (co_handle _ _ _ _ H a e E) as Ha. pose proof (ho_refs _ _ _ _ _ _ Ha) as Hr.
  pose proof (ho_pos _ _ _ _ _ _ Ha) as Hp. assert (lru_ <> in_use_) as Hheads by done.
  unfold Unref, unref_lru, unref_use, unref_deleted. rewrite E. cbn [mbind option_bind].
  rewrite (proj2 (Z.gtb_lt _ _)) by lia. cbv zeta. rewrite u32_small by (unfold in_uint; lia).
  cbn [with_refs lh_refs lh_in_cache].
  replace (lh_refs e - 1 =? 0) with (lh_refs e =? 1) by (destruct (Z.eqb_spec (lh_refs e) 1), (Z.eqb_spec (lh_refs e - 1) 0); [done|lia|lia|done]).
  replace (lh_refs e - 1 =? 1) with (lh_refs e =? 2) by (destruct (Z.eqb_spec (lh_refs e) 2), (Z.eqb_spec (lh_refs e - 1) 1); [done|lia|lia|done]).
  destruct (lh_in_cache e) eqn:Hic; cbn [andb].
  - assert (a ∈ use) as Hin by (apply (ho_use _ _ _ _ _ _ Ha); split; [done|lia]).
    assert (a ∉ lru) as Hout by (rewrite (ho_lru _ _ _ _ _ _ Ha); lia).
    rewrite (proj2 (Z.eqb_neq (lh_refs e) 1)) by lia. destruct (Z.eqb_spec (lh_refs e) 2) as [E2|E2].
    + destruct (core_move c lru use ext (bump ext a (-1)) a e (with_refs e (lh_refs e - 1)) lru_ H E) as (l & El & Hc);
        [set_solver|done|left; rewrite bump_same; split; [done|lia]|by intros; apply bump_other|done|done
        |rewrite bump_same; cbn; lia|cbn; lia|].
      rewrite move_lists. cbn [put_handle lists_]. rewrite El. cbn [mbind option_bind]. eexists. split; [done|].
      rewrite app_nil_r. unfold moved in Hc. cbn in Hc. rewrite (without_notin a lru) in Hc by done. split; [exact Hc|done].
    + eexists. split; [done|]. rewrite app_nil_r. split; [|done].
      apply (core_put c lru use ext _ a e); [done..|by intros; apply bump_other|].
      destruct Ha. split; rewrite ?bump_same; cbn; try done; try lia; rewrite Hic in *; cbn in *; try lia; split; intros; try tauto; try lia.
  - destruct (Z.eqb_spec (lh_refs e) 1) as [E1|E1].
    + destruct (core_free c lru use ext a e H E Hic ltac:(lia)) as (c' & E' & H' & L).
      replace (lh_refs e - 1) with 0 by lia. rewrite E'. by exists c'.
    + eexists. split; [done|]. rewrite app_nil_r. split; [|done].
      apply (core_put c lru use ext _ a e); [done..|by intros; apply bump_other|].
      destruct Ha. split; rewrite ?bump_same; cbn; try done; try lia; rewrite Hic in *; naive_solver.
Qed.

(** * Leaving the cache *)

Lemma core_ext c lru use ext ext' : (forall a, ext' a = ext a) -> core c lru use ext -> core c lru use ext'.
Proof.
  intros He H. split; try by apply H.
  - intros a e E. destruct (co_handle _ _ _ _ H a e E). split; rewrite ?He; done.
  - intros a. rewrite He. apply H.
Qed.

(** The reference of the cache becomes one more reference of a client. *)
Lemma core_leave c lru use ext a e :
  core c lru use ext -> handles_ c !! a = Some e -> lh_in_cache e = true ->
  exists l, ring_remove (lists_ c) a = Some l
    /\ core (with_usage (put_handle (with_lists c l) a (with_in_cache e false)) (u64 (usage_ c - lh_charge e)))
         (without a lru) (without a use) (bump ext a 1).
Proof.
  intros H E Hic. pose proof (co_handle _ _ _ _ H a e E) as Ha.
  assert (a ∈ lru ++ use) as Hin.
  { rewrite elem_of_app, (ho_lru _ _ _ _ _ _ Ha), (ho_use _ _ _ _ _ _ Ha). pose proof (ho_ext _ _ _ _ _ _ Ha).
    destruct (decide (ext a = 0)); [by left|right; split; [done|lia]]. }
  destruct (rings_remove _ lru use a (co_rings _ _ _ _ H) Hin) as (l & El & Hl & Hf). exists l. split; [done|].
  split; cbn [with_usage put_handle with_lists lists_ handles_ usage_].
  - exact Hl.
  - intros b eb Eb. destruct (decide (b = a)) as [->|Hne].
    + rewrite lookup_insert_eq in Eb. injection Eb as <-. destruct Ha. rewrite Hic in *. cbn in *.
      split; rewrite ?bump_same; cbn; try done; try lia.
      * apply Hf; [by apply ho_head0..|done].
      * rewrite elem_of_without. naive_solver.
      * rewrite elem_of_without. naive_solver.
    + rewrite lookup_insert_ne in Eb by done. destruct (co_handle _ _ _ _ H b eb Eb).
      split; rewrite ?bump_other by done; try done; [apply Hf; [by apply ho_head0..|done]|..]; rewrite elem_of_without; tauto.
  - intros b Hb. rewrite <- without_app, elem_of_without in Hb. destruct Hb as [Hne Hb]. rewrite lookup_insert_ne by done.
    by apply (co_known _ _ _ _ H).
  - intros b Hb. destruct (decide (b = a)) as [->|Hne]; [by rewrite lookup_insert_eq|].
    rewrite bump_other in Hb by done. rewrite lookup_insert_ne by done. by apply (co_held _ _ _ _ H).
  - rewrite (co_usage _ _ _ _ H), u64_sub_u64, <- without_app. f_equal.
    transitivity (total (handles_ c) (without a (lru ++ use))); [|symmetry; apply total_ext].
    + rewrite total_without; [|by apply (core_nodup _ _ _ _ H)|done]. unfold charge_of. by rewrite E.
    + intros b [Hne _]%elem_of_without. rewrite charge_insert. by rewrite decide_False.
Qed.

(** What a handle is after the cache dropped it. *)
Definition dropped (hs : gmap Z (LRUHandle V)) a (e : LRUHandle V) : gmap Z (LRUHandle V) :=
  if lh_refs e =? 1 then delete a hs else <[a := with_in_cache (with_refs e (lh_refs e - 1)) false]> hs.

Lemma FinishErase_ok c lru use ext a e :
  core c lru use ext -> handles_ c !! a = Some e -> lh_in_cache e = true ->
  exists c', FinishErase c (Some a) = Some (true, c') /\ core c' (without a lru) (without a use) ext
    /\ handles_ c' = dropped (handles_ c) a e
    /\ table_ c' = table_ c /\ capacity_ c' = capacity_ c /\ deleted_ c' = deleted_ c ++ unref_deleted e.
Proof.
  intros H E Hic. destruct (core_leave c lru use ext a e H E Hic) as (l & El & H1).
  unfold FinishErase. rewrite E. cbn [mbind option_bind]. rewrite Hic. unfold LRU_Remove. rewrite El. cbn [mbind option_bind].
  cbv zeta. cbn [put_handle with_lists usage_].
  set (c1 := with_usage _ _) in *.
  destruct (Unref_ok c1 _ _ _ a (with_in_cache e false) H1) as (c' & E' & H' & Hh & Ht & Hcap & Hd).
  { cbn. by rewrite lookup_insert_eq. }
  { rewrite bump_same. pose proof (ho_ext _ _ _ _ _ _ (co_handle _ _ _ _ H a e E)). lia. }
  rewrite E'. cbn [mbind option_bind]. exists c'. split; [done|]. split_and!.
  - apply (core_ext _ _ _ (bump (bump ext a 1) a (-1))); [|exact H'].
    intros b. unfold bump. destruct (decide (b = a)) as [->|]; [|done]. rewrite decide_True by done. lia.
  - rewrite Hh. unfold dropped. cbn. destruct (lh_refs e =? 1); [apply delete_insert_eq|apply insert_insert_eq].
  - done.
  - done.
  - exact Hd.
Qed.

(** A handle that is in the cache is in the table. *)
Lemma cached_in_table c lru use ext a :
  core c lru use ext -> a ∈ lru ++ use <-> exists e, handles_ c !! a = Some e /\ lh_in_cache e = true.
Proof.
  intros H. split.
  - intros Hin. destruct (co_known _ _ _ _ H a Hin) as [e E]. exists e. split; [done|].
    pose proof (co_handle _ _ _ _ H a e E) as Ha. apply elem_of_app in Hin as [Hin|Hin].
    + by apply (ho_lru _ _ _ _ _ _ Ha).
    + by apply (ho_use _ _ _ _ _ _ Ha).
  - intros (e & E & Hic). pose proof (co_handle _ _ _ _ H a e E) as Ha. pose proof (ho_ext _ _ _ _ _ _ Ha).
    rewrite elem_of_app, (ho_lru _ _ _ _ _ _ Ha), (ho_use _ _ _ _ _ _ Ha).
    destruct (decide (ext a = 0)); [by left|right; split; [done|lia]].
Qed.

(** What is found under a name. *)
Definition found c lru use (key : bytes) (hash : Z) (r : option Z) : Prop :=
  match r with
  | Some a => a ∈ lru ++ use /\ named c key hash a
  | None => forall a, a ∈ lru ++ use -> ~ named c key hash a
  end.

Lemma found_found_in c lru use ext es key hash r :
  core c lru use ext -> (forall a, a ∈ es <-> a ∈ lru ++ use) ->
  found_in (handle_hash c) (LRUHandle_key c) es key hash r -> found c lru use key hash r.
Proof.
  intros H Hes. destruct r as [a|]; cbn; [|]; setoid_rewrite (core_matches _ _ _ _ key hash _ H); by setoid_rewrite Hes.
Qed.

Lemma named_unique c lru use ext key hash a b :
  cache_ok c lru use ext -> a ∈ lru ++ use -> b ∈ lru ++ use -> named c key hash a -> named c key hash b -> a = b.
Proof.
  intros [H Ht] Ha Hb Na Nb. apply (table_unique _ _ _ _ key hash a b Ht).
  - by apply elem_of_list_to_set.
  - by apply elem_of_list_to_set.
  - by apply (core_matches _ _ _ _ key hash _ H).
  - by apply (core_matches _ _ _ _ key hash _ H).
Qed.

Lemma list_to_set_without a (l : list Z) : (list_to_set (without a l) : gset Z) = list_to_set l ∖ {[ a ]}.
Proof. apply set_eq. intros b. rewrite elem_of_difference, !elem_of_list_to_set, elem_of_without. set_solver. Qed.

Lemma dropped_other hs a e b : b <> a -> dropped hs a e !! b = hs !! b.
Proof. intros Hne. unfold dropped. destruct (lh_refs e =? 1); [by rewrite lookup_delete_ne|by rewrite lookup_insert_ne]. Qed.

Definition small lru use : Prop := zlen (lru ++ use) < 2 ^ 31.

Lemma small_size c lru use ext : core c lru use ext -> small lru use -> Z.of_nat (size (list_to_set (lru ++ use) : gset Z)) < 2 ^ 31.
Proof. intros H Hs. rewrite size_list_to_set by (by apply (core_nodup _ _ _ _ H)). exact Hs. Qed.

(** Out of the table, then out of the cache. *)
Definition remove_entry c (key : bytes) (hash : Z) : option (bool * LRUCache V) :=
  '(removed, t) ← HandleTable_Remove (handle_hash c) (LRUHandle_key c) (table_ c) key hash;
  FinishErase (with_table c t) removed.

Lemma core_with_table c t lru use ext : core c lru use ext -> core (with_table c t) lru use ext.
Proof. intros H. split; apply H. Qed.

Lemma remove_entry_ok c lru use ext key hash :
  cache_ok c lru use ext -> in_uint 32 hash -> small lru use ->
  exists r c', remove_entry c key hash = Some (bool_decide (is_Some r), c') /\ found c lru use key hash r
    /\ capacity_ c' = capacity_ c
    /\ match r with
       | None => cache_ok c' lru use ext /\ handles_ c' = handles_ c /\ deleted_ c' = deleted_ c
       | Some a => cache_ok c' (without a lru) (without a use) ext
           /\ exists e, handles_ c !! a = Some e /\ handles_ c' = dropped (handles_ c) a e
                /\ deleted_ c' = deleted_ c ++ unref_deleted e
       end.
Proof.
  intros [H Ht] Hh Hs. unfold remove_entry.
  destruct (HandleTable_Remove_ok _ _ _ _ key hash Ht Hh (small_size _ _ _ _ H Hs)) as (r & t & -> & Hr & Ht').
  cbn [mbind option_bind]. apply (found_found_in c lru use ext) in Hr; [|done|intros a; by rewrite elem_of_list_to_set].
  exists r. destruct r as [a|].
  - destruct Hr as [Hin Hn]. pose proof Hin as (e & E & Hic)%(cached_in_table _ _ _ _ a H).
    destruct (FinishErase_ok (with_table c t) lru use ext a e (core_with_table _ t _ _ _ H) E Hic)
      as (c' & E' & H' & Hhs & Htab & Hcap & Hd).
    exists c'. split; [done|]. split; [done|]. split; [done|]. split; [|by exists e]. split; [done|].
    rewrite <- without_app, list_to_set_without.
    apply (in_table_change (with_table c t) c' lru use ext (without a lru) (without a use) ext); [by apply core_with_table|done| |done|exact Ht'].
    intros b Hb. unfold same_name. rewrite Hhs, dropped_other; [done|set_solver].
  - exists (with_table c t). split; [done|]. split; [done|]. split; [done|]. split; [|done].
    split; [by apply core_with_table|exact Ht'].
Qed.

(** * Eviction *)

(** The keys and values of handles. *)
Definition contents (hs : gmap Z (LRUHandle V)) (l : list Z) : list (bytes * V) :=
  omap (fun a => (fun e => (lh_key e, lh_value e)) <$> hs !! a) l.

Lemma contents_ext hs hs' l : (forall a, a ∈ l -> hs' !! a = hs !! a) -> contents hs' l = contents hs l.
Proof.
  unfold contents. induction l as [|a l IH]; intros H; cbn [omap list_omap]; [done|].
  rewrite H, IH by set_solver. done.
Qed.

Lemma evict_remove c old :
  evict c old =
  (e ← handles_ c !! old;
   if lh_refs e =? 1 then
     key ← LRUHandle_key c old;
     '(erased, c) ← remove_entry c key (lh_hash e);
     if erased : bool then Some c else None
   else None).
Proof.
  unfold evict, remove_entry. destruct (handles_ c !! old) as [e|]; [|done]. cbn [mbind option_bind].
  destruct (lh_refs e =? 1); [|done]. destruct (LRUHandle_key c old) as [key|]; [|done]. cbn [mbind option_bind].
  by destruct (HandleTable_Remove _ _ _ _ _) as [[? ?]|].
Qed.

Lemma evict_ok c a lru use ext :
  cache_ok c (a :: lru) use ext -> small (a :: lru) use ->
  exists c', evict c a = Some c' /\ cache_ok c' lru use ext /\ handles_ c' = delete a (handles_ c)
    /\ deleted_ c' = deleted_ c ++ contents (handles_ c) [a] /\ capacity_ c' = capacity_ c.
Proof.
  intros H Hs. pose proof (ok_core _ _ _ _ H) as Hc. pose proof (core_nodup _ _ _ _ Hc) as Hnd.
  destruct (proj1 (cached_in_table c (a :: lru) use ext a Hc) ltac:(set_solver)) as (e & E & Hic).
  pose proof (co_handle _ _ _ _ Hc a e E) as Ha. assert (ext a = 0) as Hext by (apply (ho_lru _ _ _ _ _ _ Ha); set_solver).
  assert (lh_refs e = 1) as Hr by (rewrite (ho_refs _ _ _ _ _ _ Ha), Hext, Hic; done).
  rewrite evict_remove, E. cbn [mbind option_bind]. rewrite Hr, Z.eqb_refl, (core_key _ _ _ _ a Hc), E. cbn [fmap option_fmap option_map mbind option_bind].
  destruct (remove_entry_ok c (a :: lru) use ext (lh_key e) (lh_hash e) H (ho_hash _ _ _ _ _ _ Ha) Hs)
    as (r & c' & E' & Hf & Hcap & Hcase).
  assert (named c (lh_key e) (lh_hash e) a) as Hn by (by exists e).
  destruct r as [b|]; [|exfalso; apply (Hf a); [set_solver|done]].
  assert (b = a) as -> by (destruct Hf as [Hb Hnb]; by apply (named_unique c (a :: lru) use ext (lh_key e) (lh_hash e)); [|done|set_solver|..]).
  rewrite E'. cbn [mbind option_bind]. rewrite bool_decide_true by done. exists c'. split; [done|].
  destruct Hcase as (H' & e' & E'' & Hhs & Hd). assert (e' = e) as -> by congruence.
  rewrite <- app_comm_cons in Hnd. apply NoDup_cons in Hnd as [Ha' _].
  replace (without a (a :: lru)) with lru in H'.
  2:{ unfold without. rewrite filter_cons_False by (intros Hx; by apply Hx). symmetry. apply without_notin. set_solver. }
  rewrite (without_notin a use) in H' by set_solver. split; [done|]. split_and!.
  - rewrite Hhs. unfold dropped. by rewrite Hr.
  - rewrite Hd. unfold unref_deleted, contents. cbn. by rewrite Hr, E.
  - done.
Qed.

(** What the evictions of the oldest [k] entries leave. *)
Record evicted c lru use ext (k : nat) c' : Prop := {
  ev_before : cache_ok c lru use ext;
  ev_ok : cache_ok c' (drop k lru) use ext;
  ev_gone b : b ∈ take k lru -> handles_ c' !! b = None;
  ev_same b : b ∉ take k lru -> handles_ c' !! b = handles_ c !! b;
  ev_deleted : deleted_ c' = deleted_ c ++ contents (handles_ c) (take k lru);
  ev_capacity : capacity_ c' = capacity_ c
}.

Lemma evicted_zero c lru use ext : cache_ok c lru use ext -> evicted c lru use ext 0 c.
Proof. intros H. split; rewrite ?take_0, ?drop_0; cbn; try done; [set_solver|by rewrite app_nil_r]. Qed.

Lemma evicted_step c a lru use ext c1 k c' :
  cache_ok c (a :: lru) use ext -> handles_ c1 = delete a (handles_ c) ->
  deleted_ c1 = deleted_ c ++ contents (handles_ c) [a] -> capacity_ c1 = capacity_ c ->
  evicted c1 lru use ext k c' -> evicted c (a :: lru) use ext (S k) c'.
Proof.
  intros H Hhs Hd Hcap [_ E1 E2 E3 E4 E5]. pose proof (core_nodup _ _ _ _ (ok_core _ _ _ _ H)) as Hnd.
  rewrite <- app_comm_cons in Hnd. apply NoDup_cons in Hnd as [Hnd _].
  assert (a ∉ take k lru) as Hat by (intros Hx; apply Hnd, elem_of_app; left; apply elem_of_take in Hx as (i & Hx & _); apply list_elem_of_lookup; by exists i).
  split; cbn [take drop].
  - done.
  - done.
  - intros b [->|Hb]%elem_of_cons; [rewrite E3 by done; by rewrite Hhs, lookup_delete_eq|by apply E2].
  - intros b Hb. rewrite E3 by set_solver. rewrite Hhs, lookup_delete_ne; [done|]. intros ->. set_solver.
  - rewrite E4, Hd, <- app_assoc. f_equal. unfold contents. cbn [omap list_omap]. destruct (handles_ c !! a); cbn [fmap option_fmap option_map app].
    + f_equal. apply contents_ext. intros b Hb. rewrite Hhs, lookup_delete_ne; [done|]. by intros ->.
    + apply contents_ext. intros b Hb. rewrite Hhs, lookup_delete_ne; [done|]. by intros ->.
  - congruence.
Qed.

Lemma first_unused c lru use ext : cache_ok c lru use ext ->
  exists first, nxt (lists_ c) !! lru_ = Some first /\ (first = lru_ <-> lru = [])
    /\ match lru with [] => True | a :: _ => first = a end.
Proof.
  intros H. pose proof (rs_lru _ _ _ (co_rings _ _ _ _ (ok_core _ _ _ _ H))) as Hr.
  rewrite (ring_first _ _ _ Hr). apply ring_nodup in Hr as [_ Hr]. destruct lru as [|a lru]; cbn; [by exists lru_|].
  exists a. split; [done|]. split; [|done]. split; [|done]. intros ->. set_solver.
Qed.

Lemma evict_loop_ok n c lru use ext :
  cache_ok c lru use ext -> small lru use -> (length lru <= n)%nat ->
  exists k c', evict_loop n c = Some c' /\ evicted c lru use ext k c' /\ (k <= length lru)%nat
    /\ (usage_ c' <= capacity_ c \/ drop k lru = [])
    /\ forall j, (j < k)%nat -> capacity_ c < u64 (total (handles_ c) (drop j lru ++ use)).
Proof.
  revert c lru. induction n as [|n IH]; intros c lru H Hs Hn; destruct (first_unused c lru use ext H) as (first & Ef & Hf & Hhd).
  - destruct lru as [|a lru]; [|simpl in Hn; lia]. exists 0%nat, c. cbn [evict_loop]. rewrite Ef. cbn.
    rewrite (proj2 Hf), Z.eqb_refl, andb_false_r by done.
    split_and!; [done|by apply evicted_zero|done|by right|lia].
  - cbn [evict_loop]. rewrite Ef. cbn [mbind option_bind]. destruct (Z.gtb_spec (usage_ c) (capacity_ c)) as [Hu|Hu]; cbn [andb].
    + destruct lru as [|a lru].
      { exists 0%nat, c. rewrite (proj2 Hf), Z.eqb_refl by done. cbn.
        split_and!; [done|by apply evicted_zero|done|by right|lia]. }
      subst first. rewrite (proj2 (Z.eqb_neq a lru_)) by (intros Hx; by apply Hf in Hx). cbn [negb].
      destruct (evict_ok c a lru use ext H Hs) as (c1 & E1 & H1 & Hhs & Hd & Hcap). cbn. rewrite E1. cbn [mbind option_bind].
      destruct (IH c1 lru H1) as (k & c' & E' & Hev & Hk & Hstop & Hgo).
      { unfold small in *. rewrite length_app in *. cbn [length] in Hs. lia. }
      { simpl in Hn. lia. }
      exists (S k), c'. split; [done|]. split; [by apply (evicted_step c a lru use ext c1)|]. split; [simpl; lia|].
      rewrite <- Hcap. split; [done|]. intros [|j] Hj.
      * cbn [drop]. rewrite <- (co_usage _ _ _ _ (ok_core _ _ _ _ H)). lia.
      * cbn [drop]. replace (total (handles_ c) (drop j lru ++ use)) with (total (handles_ c1) (drop j lru ++ use)); [apply Hgo; lia|].
        apply total_ext. intros b Hb. unfold charge_of. rewrite Hhs, lookup_delete_ne; [done|]. intros <-.
        pose proof (core_nodup _ _ _ _ (ok_core _ _ _ _ H)) as Hnd. rewrite <- app_comm_cons in Hnd.
        apply NoDup_cons in Hnd as [Hnd _]. apply Hnd. rewrite elem_of_app in Hb |- *. destruct Hb as [Hb|Hb]; [left|by right].
        rewrite <- (take_drop j lru), elem_of_app. by right.
    + exists 0%nat, c. split_and!; [done|by apply evicted_zero|lia|left; lia|lia].
Qed.
End Cache.
