(* ===== verification/LdbCacheOps.v ===== *)
(** leveldb: the operations of the cache and what clients see, [cache.cc]. *)
From stdpp Require Import base numbers option gmap sets list.
From S2P Require Import Prelude LdbSlice LdbBloom LdbRing LdbHandleTable LdbCache LdbCacheThms.
Open Scope Z_scope.

Section Ops.
Context {V : Type}.
Implicit Types (c : LRUCache V) (lru use : list Z) (ext : Z -> Z).

Lemma LRUCache_new_ok capacity :
  exists c, LRUCache_new (V := V) capacity = Some c /\ cache_ok c [] [] (fun _ => 0) /\ capacity_ c = capacity
    /\ handles_ c = ∅ /\ deleted_ c = [].
Proof.
  unfold LRUCache_new. destruct (HandleTable_new_ok (fun _ => None) (fun _ => None)) as (t & -> & Ht).
  cbn [mbind option_bind]. eexists. split; [done|]. split; [|done]. split.
  - split; cbn [lists_ handles_ usage_].
    + split; [|apply ring_init_ok|unfold lru_, in_use_; set_solver].
      apply (ring_frame (ring_init {| nxt := ∅; prv := ∅ |} lru_)); [|apply ring_init_ok].
      intros x ->%list_elem_of_singleton. done.
    + intros a e E. by rewrite lookup_empty in E.
    + set_solver.
    + done.
    + done.
  - unfold in_table. cbn [table_ app list_to_set]. revert Ht. apply table_holds_ext. set_solver.
Qed.

(** ** Lookup *)
Lemma LRUCache_Lookup_ok c lru use ext key hash :
  cache_ok c lru use ext -> in_uint 32 hash -> (forall a e, handles_ c !! a = Some e -> lh_refs e + 1 < 2 ^ 32) ->
  exists r c', LRUCache_Lookup c key hash = Some (r, c') /\ found c lru use key hash r
    /\ capacity_ c' = capacity_ c /\ deleted_ c' = deleted_ c
    /\ match r with
       | None => c' = c
       | Some a => cache_ok c' (without a lru) (if decide (a ∈ use) then use else use ++ [a]) (bump ext a 1)
           /\ exists e, handles_ c !! a = Some e /\ handles_ c' = <[a := with_refs e (lh_refs e + 1)]> (handles_ c)
       end.
Proof.
  intros [H Ht] Hh Hmax. unfold LRUCache_Lookup.
  destruct (HandleTable_Lookup_ok _ _ _ _ key hash Ht Hh) as (r & -> & Hr). cbn [mbind option_bind].
  apply (found_found_in c lru use ext) in Hr; [|done|intros a; by rewrite elem_of_list_to_set].
  destruct r as [a|]; [|by exists None, c]. destruct Hr as [Hin Hn].
  pose proof Hin as (e & E & Hic)%(cached_in_table _ _ _ _ a H).
  destruct (Ref_ok c lru use ext a e H E Hic (Hmax a e E)) as (c' & E' & H' & Hhs & Htab & Hcap & Hd).
  rewrite E'. cbn [mbind option_bind]. exists (Some a), c'. split_and!; [done|done|done|done| |by exists e].
  split; [done|].
  replace (list_to_set (without a lru ++ (if decide (a ∈ use) then use else use ++ [a])) : gset Z)
    with (list_to_set (lru ++ use) : gset Z).
  - apply (in_table_change c c' lru use ext _ _ _ _ H H'); [|done|exact Ht]. intros b _. unfold same_name. rewrite Hhs.
    destruct (decide (b = a)) as [->|]; [by rewrite lookup_insert_eq, E|by rewrite lookup_insert_ne].
  - apply set_eq. intros b. rewrite !elem_of_list_to_set, !elem_of_app, elem_of_without.
    apply elem_of_app in Hin. destruct (decide (b = a)) as [->|]; destruct (decide (a ∈ use)); set_solver.
Qed.

(** ** Release *)
Lemma LRUCache_Release_ok c lru use ext a e :
  cache_ok c lru use ext -> handles_ c !! a = Some e -> 0 < ext a ->
  exists c', LRUCache_Release c a = Some c'
    /\ cache_ok c' (unref_lru e a lru) (unref_use e a use) (bump ext a (-1))
    /\ handles_ c' = (if lh_refs e =? 1 then delete a (handles_ c)
                      else <[a := with_refs e (lh_refs e - 1)]> (handles_ c))
    /\ capacity_ c' = capacity_ c /\ deleted_ c' = deleted_ c ++ unref_deleted e.
Proof.
  intros [H Ht] E Hext. destruct (Unref_ok c lru use ext a e H E Hext) as (c' & E' & H' & Hhs & Htab & Hcap & Hd).
  exists c'. split_and!; [done| |done..]. split; [done|].
  pose proof (co_handle _ _ _ _ H a e E) as Ha. pose proof (ho_refs _ _ _ _ _ _ Ha) as Hr.
  replace (list_to_set (unref_lru e a lru ++ unref_use e a use) : gset Z) with (list_to_set (lru ++ use) : gset Z).
  - apply (in_table_change c c' lru use ext _ _ _ _ H H'); [|done|exact Ht].
    intros b (eb & Eb & Hib)%elem_of_list_to_set%(cached_in_table _ _ _ _ b H). unfold same_name. rewrite Hhs.
    destruct (decide (b = a)) as [->|Hne].
    + assert (eb = e) as -> by congruence. rewrite Hib in Hr. rewrite (proj2 (Z.eqb_neq _ _)) by lia.
      by rewrite lookup_insert_eq, E.
    + destruct (lh_refs e =? 1); [by rewrite lookup_delete_ne|by rewrite lookup_insert_ne].
  - unfold unref_lru, unref_use. destruct (lh_in_cache e) eqn:Hic; [|done].
    destruct (Z.eqb_spec (lh_refs e) 2); [|done]. cbn [andb].
    assert (a ∈ use) by (apply (ho_use _ _ _ _ _ _ Ha); split; [done|lia]).
    apply set_eq. intros b. rewrite !elem_of_list_to_set, !elem_of_app, elem_of_without.
    destruct (decide (b = a)) as [->|]; set_solver.
Qed.

(** ** Erase and Prune *)
Lemma LRUCache_Erase_remove c key hash :
  LRUCache_Erase c key hash = ('(_, c) ← remove_entry c key hash; Some c).
Proof. unfold LRUCache_Erase, remove_entry. by destruct (HandleTable_Remove _ _ _ _ _) as [[? ?]|]. Qed.

Lemma prune_loop_ok n c lru use ext :
  cache_ok c lru use ext -> small lru use -> (length lru <= n)%nat ->
  exists c', prune_loop n c = Some c' /\ evicted c lru use ext (length lru) c'.
Proof.
  revert c lru. induction n as [|n IH]; intros c lru H Hs Hn; destruct (first_unused c lru use ext H) as (first & Ef & Hf & Hhd).
  - destruct lru as [|a lru]; [|simpl in Hn; lia]. exists c. cbn [prune_loop]. rewrite Ef. cbn.
    rewrite (proj2 Hf), Z.eqb_refl by done. split; [done|by apply evicted_zero].
  - cbn [prune_loop]. rewrite Ef. cbn [mbind option_bind]. destruct lru as [|a lru].
    + exists c. rewrite (proj2 Hf), Z.eqb_refl by done. split; [done|by apply evicted_zero].
    + subst first. rewrite (proj2 (Z.eqb_neq a lru_)) by (intros Hx; by apply Hf in Hx). cbn [negb].
      destruct (evict_ok c a lru use ext H Hs) as (c1 & E1 & H1 & Hhs & Hd & Hcap). rewrite E1. cbn [mbind option_bind].
      destruct (IH c1 lru H1) as (c' & E' & Hev).
      { unfold small in *. rewrite length_app in *. cbn [length] in Hs. lia. }
      { simpl in Hn. lia. }
      exists c'. split; [done|]. by apply (evicted_step c a lru use ext c1).
Qed.

Lemma cached_size c lru use ext : core c lru use ext -> (length (lru ++ use) <= size (handles_ c))%nat.
Proof.
  intros H. rewrite <- (size_list_to_set (C := gset Z) (lru ++ use)) by (by apply (core_nodup _ _ _ _ H)).
  rewrite <- size_dom. apply subseteq_size. intros a Ha%elem_of_list_to_set. apply elem_of_dom. by apply (co_known _ _ _ _ H).
Qed.

Lemma LRUCache_Prune_ok c lru use ext :
  cache_ok c lru use ext -> small lru use ->
  exists c', LRUCache_Prune c = Some c' /\ evicted c lru use ext (length lru) c'.
Proof.
  intros H Hs. apply prune_loop_ok; [done|done|]. pose proof (cached_size _ _ _ _ (ok_core _ _ _ _ H)) as Hsz.
  rewrite length_app in Hsz. lia.
Qed.

(** ** Insert *)

Definition new_handle (key : bytes) (hash : Z) (value : V) (charge : Z) (in_cache : bool) : LRUHandle V :=
  {| lh_value := value; lh_charge := charge; lh_in_cache := in_cache; lh_refs := if in_cache then 2 else 1;
     lh_hash := hash; lh_key := key |}.

(** Where [malloc] may put a handle. *)
Definition fresh_addr c (a : Z) : Prop := handles_ c !! a = None /\ a <> lru_ /\ a <> in_use_.

Lemma fresh_ext c lru use ext a : core c lru use ext -> fresh_addr c a -> ext a = 0 /\ a ∉ lru ++ use.
Proof.
  intros H [Hf _]. split.
  - destruct (decide (ext a = 0)); [done|]. destruct (co_held _ _ _ _ H a) as [? ?]; congruence.
  - intros Hin%(co_known _ _ _ _ H). rewrite Hf in Hin. by destruct Hin.
Qed.

(** A new handle in the cache. *)
Lemma core_enter c lru use ext a key hash value charge :
  core c lru use ext -> fresh_addr c a -> in_uint 32 hash ->
  exists l, ring_append (lists_ c) in_use_ a = Some l
    /\ core (with_usage (with_lists (put_handle c a (new_handle key hash value charge true)) l) (u64 (usage_ c + charge)))
         lru (use ++ [a]) (bump ext a 1).
Proof.
  intros H Hfr Hh. destruct (fresh_ext c lru use ext a H Hfr) as [Hext Hin]. destruct Hfr as (Hf & Hhd).
  destruct (rings_append _ lru use in_use_ a (co_rings _ _ _ _ H)) as (l & El & Hl & Ha & Hlead); [by right|set_solver|].
  exists l. split; [done|]. split; cbn [with_usage put_handle with_lists lists_ handles_ usage_].
  - exact Hl.
  - intros b eb Eb. destruct (decide (b = a)) as [->|Hne].
    + rewrite lookup_insert_eq in Eb. injection Eb as <-.
      split; rewrite ?bump_same, ?Hext; cbn; try done; try lia; split; intros; try done; set_solver.
    + rewrite lookup_insert_ne in Eb by done. destruct (co_handle _ _ _ _ H b eb Eb).
      split; rewrite ?bump_other by done; try done; [by apply Hlead; try apply ho_head|].
      rewrite elem_of_app, list_elem_of_singleton. tauto.
  - intros b Hb. destruct (decide (b = a)) as [->|Hne]; [by rewrite lookup_insert_eq|]. rewrite lookup_insert_ne by done.
    apply (co_known _ _ _ _ H). set_solver.
  - intros b Hb. destruct (decide (b = a)) as [->|Hne]; [by rewrite lookup_insert_eq|].
    rewrite bump_other in Hb by done. rewrite lookup_insert_ne by done. by apply (co_held _ _ _ _ H).
  - rewrite (co_usage _ _ _ _ H), u64_add_u64. f_equal. rewrite app_assoc, (total_app _ (lru ++ use) [a]).
    assert (forall hs : gmap Z (LRUHandle V), total hs [a] = charge_of hs a + 0) as -> by done.
    rewrite charge_insert, decide_True by done. cbn [new_handle lh_charge].
    rewrite (total_ext (handles_ c) (<[a := _]> (handles_ c)) (lru ++ use)); [lia|].
    intros b Hb. rewrite charge_insert, decide_False; [done|]. by intros ->.
Qed.

(** A new handle outside the cache. *)
Lemma core_outside c lru use ext a key hash value charge :
  core c lru use ext -> fresh_addr c a -> in_uint 32 hash -> a <> 0 ->
  core (with_lists (put_handle c a (new_handle key hash value charge false)) (link_next (lists_ c) a 0)) lru use (bump ext a 1).
Proof.
  intros H Hfr Hh Hz. destruct (fresh_ext c lru use ext a H Hfr) as [Hext Hin]. destruct Hfr as (Hf & Hhd).
  assert (forall b, b <> a -> nxt (link_next (lists_ c) a 0) !! b = nxt (lists_ c) !! b) as Hn.
  { intros b Hb. cbn [link_next nxt]. by rewrite lookup_insert_ne. }
  split; cbn [put_handle with_lists lists_ handles_ usage_].
  - destruct (co_rings _ _ _ _ H) as [R1 R2 R3]. split; [| |done]; (eapply ring_frame; [|eassumption]);
      intros b Hb; (split; [apply Hn; intros ->; set_solver|done]).
  - intros b eb Eb. destruct (decide (b = a)) as [->|Hne].
    + rewrite lookup_insert_eq in Eb. injection Eb as <-.
      split; rewrite ?bump_same, ?Hext; cbn; try done; try lia.
      * exists 0. cbn [link_next nxt]. by rewrite lookup_insert_eq.
      * set_solver.
      * set_solver.
    + rewrite lookup_insert_ne in Eb by done. destruct (co_handle _ _ _ _ H b eb Eb).
      split; rewrite ?bump_other by done; try done. destruct ho_next as (n & E & Hne'). exists n. by rewrite Hn.
  - intros b Hb. rewrite lookup_insert_ne by (intros ->; set_solver). by apply (co_known _ _ _ _ H).
  - intros b Hb. destruct (decide (b = a)) as [->|Hne]; [by rewrite lookup_insert_eq|].
    rewrite bump_other in Hb by done. rewrite lookup_insert_ne by done. by apply (co_held _ _ _ _ H).
  - rewrite (co_usage _ _ _ _ H). f_equal. symmetry. apply total_ext.
    intros b Hb. rewrite charge_insert, decide_False; [done|]. intros ->. set_solver.
Qed.

(** The entry that a new one replaces. *)
Definition drop_entry (r : option Z) (l : list Z) : list Z := match r with Some a => without a l | None => l end.

Definition replaced (hs : gmap Z (LRUHandle V)) (r : option Z) : gmap Z (LRUHandle V) :=
  match r with Some a => from_option (dropped hs a) hs (hs !! a) | None => hs end.

Definition replaced_deleted (hs : gmap Z (LRUHandle V)) (r : option Z) : list (bytes * V) :=
  match r with Some a => from_option unref_deleted [] (hs !! a) | None => [] end.

Lemma elem_of_drop_entry r a l : a ∈ drop_entry r l -> a ∈ l.
Proof. destruct r; cbn; [|done]. by intros [_ ?]%elem_of_without. Qed.

Lemma elem_of_take_in k a (l : list Z) : a ∈ take k l -> a ∈ l.
Proof. intros H. rewrite <- (take_drop k l). apply elem_of_app. by left. Qed.

(** The part of [Insert] before the evictions. *)
Definition enter c (addr : Z) (key : bytes) (hash : Z) (value : V) (charge : Z) : option (LRUCache V) :=
  c ← LRU_Append (put_handle c addr (new_handle key hash value charge true)) in_use_ addr;
  let c := with_usage c (u64 (usage_ c + charge)) in
  '(old, t) ← HandleTable_Insert (handle_hash c) (LRUHandle_key c) (table_ c) addr;
  '(_, c) ← FinishErase (with_table c t) old;
  Some c.

Lemma enter_ok c lru use ext addr key hash value charge :
  cache_ok c lru use ext -> fresh_addr c addr -> in_uint 32 hash -> small lru use ->
  exists r c', enter c addr key hash value charge = Some c' /\ found c lru use key hash r
    /\ cache_ok c' (drop_entry r lru) (drop_entry r use ++ [addr]) (bump ext addr 1)
    /\ handles_ c' = <[addr := new_handle key hash value charge true]> (replaced (handles_ c) r)
    /\ deleted_ c' = deleted_ c ++ replaced_deleted (handles_ c) r /\ capacity_ c' = capacity_ c.
Proof.
  intros H Hfr Hh Hs. pose proof (ok_core _ _ _ _ H) as Hc.
  destruct (fresh_ext c lru use ext addr Hc Hfr) as [Hext Hin].
  destruct (core_enter c lru use ext addr key hash value charge Hc Hfr Hh) as (l & El & H1).
  unfold enter, LRU_Append. cbn [put_handle lists_]. rewrite El. cbn [mbind option_bind]. cbv zeta.
  change (usage_ (with_lists _ l)) with (usage_ c). set (c1 := with_usage _ _) in *.
  assert (forall b, b <> addr -> handles_ c1 !! b = handles_ c !! b) as Hother.
  { intros b Hb. cbn. by rewrite lookup_insert_ne. }
  assert (in_table c1 (list_to_set (lru ++ use))) as Ht1.
  { apply (in_table_change c c1 lru use ext _ _ _ _ Hc H1); [|done|exact (ok_table _ _ _ _ H)]. intros b Hb. unfold same_name.
    rewrite Hother; [done|]. intros ->. set_solver. }
  destruct (HandleTable_Insert_ok _ _ _ _ key hash addr Ht1) as (r & t & E2 & Hr & Ht2).
  { apply (core_matches c1 _ _ _ key hash addr H1). eexists. cbn. rewrite lookup_insert_eq. done. }
  { done. }
  { set_solver. }
  { by apply (small_size c lru use ext). }
  rewrite E2. cbn [mbind option_bind]. exists r.
  assert (found c lru use key hash r) as Hfound.
  { assert (forall a, a ∈ lru ++ use -> named c1 key hash a <-> named c key hash a) as Hn.
    { intros a Ha. unfold named. rewrite Hother; [done|]. by intros ->. }
    destruct r as [a|]; cbn [found found_in] in *.
    - destruct Hr as [Ha%elem_of_list_to_set Hm%(core_matches c1 _ _ _ key hash a H1)]. split; [done|by apply Hn].
    - intros a Ha Hnm. apply (Hr a); [by apply elem_of_list_to_set|]. apply (core_matches c1 _ _ _ key hash a H1). by apply Hn. }
  destruct r as [a|]; cbn [found drop_entry replaced replaced_deleted] in *.
  - destruct Hfound as [Ha Hn]. assert (a <> addr) as Hne by (by intros ->).
    destruct (proj1 (cached_in_table c lru use ext a Hc) Ha) as (e & E & Hic). rewrite E. cbn [from_option].
    destruct (FinishErase_ok (with_table c1 t) _ _ _ a e (core_with_table _ t _ _ _ H1)) as (c' & E' & H' & Hhs & Htab & Hcap & Hd).
    { cbn. by rewrite lookup_insert_ne. }
    { done. }
    rewrite E'. cbn [mbind option_bind]. exists c'. split; [done|]. split; [by split|].
    assert (without a (use ++ [addr]) = without a use ++ [addr]) as Hu.
    { rewrite without_app. f_equal. apply without_notin. set_solver. }
    rewrite Hu in H'. split_and!; [|rewrite Hhs; cbn; unfold dropped; destruct (lh_refs e =? 1)|done|done].
    + split; [done|].
      replace (list_to_set (without a lru ++ without a use ++ [addr]) : gset Z)
        with ({[ addr ]} ∪ (list_to_set (lru ++ use) : gset Z) ∖ {[ a ]}).
      * apply (in_table_change (with_table c1 t) c' _ _ _ _ _ _ _ (core_with_table _ t _ _ _ H1) H'); [|done|exact Ht2].
        intros b Hb. unfold same_name. rewrite Hhs, dropped_other; [done|]. set_solver.
      * apply set_eq. intros b. rewrite elem_of_union, elem_of_singleton, elem_of_difference, !elem_of_list_to_set, !elem_of_app,
          !elem_of_without, list_elem_of_singleton, elem_of_singleton. tauto.
    + by rewrite delete_insert_ne.
    + by rewrite insert_insert_ne.
  - cbn [FinishErase mbind option_bind]. eexists. split; [done|]. split; [done|]. cbn. rewrite app_nil_r.
    split; [|done]. split; [by apply (core_with_table c1 t)|].
    replace (list_to_set (lru ++ use ++ [addr]) : gset Z) with ({[ addr ]} ∪ (list_to_set (lru ++ use) : gset Z)); [exact Ht2|].
    apply set_eq. intros b. rewrite elem_of_union, elem_of_singleton, !elem_of_list_to_set, !elem_of_app, list_elem_of_singleton. tauto.
Qed.

Lemma LRUCache_Insert_cached c addr key hash value charge :
  0 < capacity_ c ->
  LRUCache_Insert c addr key hash value charge
  = (c ← enter c addr key hash value charge; c ← evict_loop (size (handles_ c)) c; Some (addr, c)).
Proof. intros Hcap. unfold LRUCache_Insert. by rewrite (proj2 (Z.gtb_lt _ _)). Qed.

Lemma LRUCache_Insert_uncached c addr key hash value charge :
  capacity_ c <= 0 ->
  LRUCache_Insert c addr key hash value charge
  = (let c := with_lists (put_handle c addr (new_handle key hash value charge false)) (link_next (lists_ c) addr 0) in
     c ← evict_loop (size (handles_ c)) c; Some (addr, c)).
Proof. intros Hcap. unfold LRUCache_Insert. by destruct (Z.gtb_spec (capacity_ c) 0); [lia|]. Qed.

Lemma without_length a l : (length (without a l) <= length l)%nat.
Proof. apply length_filter. Qed.

Lemma LRUCache_Insert_ok c lru use ext addr key hash value charge :
  cache_ok c lru use ext -> fresh_addr c addr -> in_uint 32 hash -> zlen (lru ++ use) + 1 < 2 ^ 31 -> 0 < capacity_ c ->
  exists r k c1 c', LRUCache_Insert c addr key hash value charge = Some (addr, c') /\ found c lru use key hash r
    /\ handles_ c1 = <[addr := new_handle key hash value charge true]> (replaced (handles_ c) r)
    /\ deleted_ c1 = deleted_ c ++ replaced_deleted (handles_ c) r /\ capacity_ c1 = capacity_ c
    /\ evicted c1 (drop_entry r lru) (drop_entry r use ++ [addr]) (bump ext addr 1) k c'
    /\ (k <= length (drop_entry r lru))%nat
    /\ (usage_ c' <= capacity_ c \/ drop k (drop_entry r lru) = [])
    /\ forall j, (j < k)%nat -> capacity_ c < u64 (total (handles_ c1) (drop j (drop_entry r lru) ++ drop_entry r use ++ [addr])).
Proof.
  intros H Hfr Hh Hs Hcap. rewrite LRUCache_Insert_cached by done.
  destruct (enter_ok c lru use ext addr key hash value charge H Hfr Hh) as (r & c1 & E1 & Hf & H1 & Hhs & Hd & Hc1).
  { unfold small. lia. }
  assert (length (drop_entry r lru) <= length lru /\ length (drop_entry r use) <= length use)%nat as [L1 L2].
  { destruct r; cbn; [|done]. split; apply without_length. }
  destruct (evict_loop_ok (size (handles_ c1)) c1 _ _ _ H1) as (k & c' & E2 & Hev & Hk & Hstop & Hgo).
  { unfold small. rewrite !length_app in *. cbn [length]. lia. }
  { pose proof (cached_size _ _ _ _ (ok_core _ _ _ _ H1)) as Hsz. rewrite length_app in Hsz. lia. }
  rewrite Hc1 in *. exists r, k, c1, c'. rewrite E1. cbn [mbind option_bind]. by rewrite E2.
Qed.

Lemma LRUCache_Insert_uncached_ok c lru use ext addr key hash value charge :
  cache_ok c lru use ext -> fresh_addr c addr -> addr <> 0 -> in_uint 32 hash -> small lru use -> capacity_ c <= 0 ->
  exists k c1 c', LRUCache_Insert c addr key hash value charge = Some (addr, c')
    /\ handles_ c1 = <[addr := new_handle key hash value charge false]> (handles_ c)
    /\ deleted_ c1 = deleted_ c /\ capacity_ c1 = capacity_ c
    /\ evicted c1 lru use (bump ext addr 1) k c' /\ (k <= length lru)%nat.
Proof.
  intros H Hfr Hz Hh Hs Hcap. rewrite LRUCache_Insert_uncached by done. cbv zeta.
  pose proof (core_outside c lru use ext addr key hash value charge (ok_core _ _ _ _ H) Hfr Hh Hz) as Hc1.
  set (c1 := with_lists _ _) in *.
  assert (cache_ok c1 lru use (bump ext addr 1)) as H1.
  { split; [done|]. apply (in_table_change c c1 lru use ext _ _ _ _ (ok_core _ _ _ _ H) Hc1); [|done|exact (ok_table _ _ _ _ H)].
    intros b Hb%elem_of_list_to_set. unfold same_name. cbn. rewrite lookup_insert_ne; [done|].
    intros ->. destruct (fresh_ext c lru use ext b (ok_core _ _ _ _ H) Hfr). done. }
  destruct (evict_loop_ok (size (handles_ c1)) c1 _ _ _ H1 Hs) as (k & c' & E2 & Hev & Hk & _).
  { pose proof (cached_size _ _ _ _ Hc1) as Hsz. rewrite length_app in Hsz. lia. }
  exists k, c1, c'. rewrite E2. by split_and!.
Qed.

(** * What the clients see *)
Inductive call : Type :=
| CInsert (addr : Z) (key : bytes) (hash : Z) (value : V) (charge : Z)
| CLookup (key : bytes) (hash : Z)
| CRelease (a : Z)
| CErase (key : bytes) (hash : Z)
| CPrune.

(** The handle that a call returns, and the cache after it. *)
Definition run_call c (x : call) : option (option Z * LRUCache V) :=
  match x with
  | CInsert addr key hash value charge => '(a, c) ← LRUCache_Insert c addr key hash value charge; Some (Some a, c)
  | CLookup key hash => LRUCache_Lookup c key hash
  | CRelease a => c ← LRUCache_Release c a; Some (None, c)
  | CErase key hash => c ← LRUCache_Erase c key hash; Some (None, c)
  | CPrune => c ← LRUCache_Prune c; Some (None, c)
  end.

(** The references the clients hold after a call that returned [r]. *)
Definition held_after (ext : Z -> Z) (x : call) (r : option Z) : Z -> Z :=
  match x, r with
  | CRelease a, _ => bump ext a (-1)
  | _, Some a => bump ext a 1
  | _, None => ext
  end.

(** What the clients owe: new addresses, 32-bit hashes, only references they hold,
    and no more objects and references than the 32-bit counters can count. *)
Definition legal c ext (x : call) : Prop :=
  Z.of_nat (size (handles_ c)) + 1 < 2 ^ 31
  /\ (forall a e, handles_ c !! a = Some e -> lh_refs e + 1 < 2 ^ 32)
  /\ match x with
     | CInsert addr _ hash _ _ => fresh_addr c addr /\ addr <> 0 /\ in_uint 32 hash
     | CLookup _ hash | CErase _ hash => in_uint 32 hash
     | CRelease a => 0 < ext a
     | CPrune => True
     end.

(** The objects that a call frees, each passed to the deleter once, and the
    content of the others. *)
Record freed c c' (new : option (Z * LRUHandle V)) (gone : list Z) : Prop := {
  fr_nodup : NoDup gone;
  fr_gone a : a ∈ gone -> is_Some (handles_ c !! a) /\ handles_ c' !! a = None;
  fr_kept a e : a ∉ gone -> handles_ c !! a = Some e ->
    exists e', handles_ c' !! a = Some e' /\ lh_key e' = lh_key e /\ lh_value e' = lh_value e;
  fr_new a e : handles_ c' !! a = Some e -> handles_ c !! a = None ->
    match new with Some (addr, e') => a = addr /\ e = e' | None => False end;
  fr_deleted : deleted_ c' = deleted_ c ++ contents (handles_ c) gone
}.

Lemma freed_trans c c1 c2 new g1 g2 :
  freed c c1 new g1 -> freed c1 c2 None g2 ->
  match new with Some (a, e) => handles_ c !! a = None /\ a ∉ g2 /\ handles_ c2 !! a = Some e | None => True end ->
  freed c c2 new (g1 ++ g2).
Proof.
  intros [A1 A2 A3 A4 A5] [B1 B2 B3 B4 B5] Hnew.
  assert (forall a, a ∈ g2 -> is_Some (handles_ c !! a)) as Hold.
  { intros a Ha. destruct (handles_ c !! a) as [e|] eqn:E; [done|]. destruct (B2 a Ha) as [[e1 E1] _].
    specialize (A4 a e1 E1 E). destruct new as [[addr e']|]; [|done]. destruct A4 as [-> _]. by destruct Hnew as (_ & ? & _). }
  assert (forall a, a ∈ g1 -> a ∉ g2) as Hdis.
  { intros a Ha Hb. destruct (A2 a Ha) as [_ E]. destruct (B2 a Hb) as [[? ?] _]. congruence. }
  split.
  - apply NoDup_app. by split_and!.
  - intros a [Ha|Ha]%elem_of_app; [|split; [by apply Hold|by apply (B2 a)]].
    split; [by apply (A2 a)|]. destruct (handles_ c2 !! a) as [e|] eqn:E; [|done]. by destruct (B4 a e E (proj2 (A2 a Ha))).
  - intros a e Ha E. rewrite elem_of_app in Ha. destruct (A3 a e) as (e1 & E1 & K1 & V1); [tauto|done|].
    destruct (B3 a e1) as (e2 & E2 & K2 & V2); [tauto|done|]. exists e2. split_and!; [done|congruence..].
  - intros a e E En. destruct (handles_ c1 !! a) as [e1|] eqn:E1; [|by destruct (B4 a e E E1)].
    specialize (A4 a e1 E1 En). destruct new as [[addr e']|]; [|done]. destruct A4 as [-> ->].
    destruct Hnew as (_ & _ & E2). split; congruence.
  - rewrite B5, A5, <- app_assoc. f_equal. unfold contents. rewrite omap_app. f_equal.
    assert (forall a, a ∈ g2 -> a ∉ g1) as Hdis' by (intros a Ha Hb; by apply (Hdis a)). clear - A3 Hdis' Hold.
    induction g2 as [|a g2 IH]; cbn [omap list_omap]; [done|]. rewrite IH by set_solver.
    destruct (Hold a ltac:(set_solver)) as [e E]. destruct (A3 a e ltac:(set_solver) E) as (e1 & E1 & K1 & V1).
    rewrite E, E1. cbn. congruence.
Qed.

Lemma evicted_freed c lru use ext k c' :
  evicted c lru use ext k c' -> freed c c' None (take k lru).
Proof.
  intros [H E1 E2 E3 E4 E5]. pose proof (ok_core _ _ _ _ H) as Hc. pose proof (core_nodup _ _ _ _ Hc) as Hnd.
  assert (forall a, a ∈ take k lru -> a ∈ lru) as Hin by (intros a Ha; rewrite <- (take_drop k lru); set_solver).
  split.
  - rewrite <- (take_drop k lru), <- app_assoc in Hnd. by apply NoDup_app in Hnd as (? & _).
  - intros a Ha. split; [|by apply E2]. apply (co_known _ _ _ _ Hc), elem_of_app. left. by apply Hin.
  - intros a e Ha E. exists e. by rewrite E3.
  - intros a e E En. destruct (decide (a ∈ take k lru)) as [Ha|Ha]; [rewrite E2 in E by done; done|].
    rewrite E3 in E by done. congruence.
  - exact E4.
Qed.

(** The one object that a dropped reference may free. *)
Definition last_ref (hs : gmap Z (LRUHandle V)) (a : Z) : list Z :=
  match hs !! a with Some e => if lh_refs e =? 1 then [a] else [] | None => [] end.

Lemma last_ref_contents hs a e : hs !! a = Some e -> contents hs (last_ref hs a) = unref_deleted e.
Proof.
  intros E. unfold last_ref, unref_deleted. rewrite E. destruct (lh_refs e =? 1); [|done]. unfold contents. cbn. by rewrite E.
Qed.

(** One handle loses a reference, and is freed if it was the last one. *)
Lemma unref_freed c c' a e e' :
  handles_ c !! a = Some e -> lh_key e' = lh_key e -> lh_value e' = lh_value e ->
  handles_ c' = (if lh_refs e =? 1 then delete a (handles_ c) else <[a := e']> (handles_ c)) ->
  deleted_ c' = deleted_ c ++ unref_deleted e -> freed c c' None (last_ref (handles_ c) a).
Proof.
  intros E Hk Hv Hhs Hd. rewrite <- (last_ref_contents _ a e E) in Hd.
  split; [..|exact Hd]; unfold last_ref; rewrite ?E, ?Hhs; destruct (lh_refs e =? 1).
  - apply NoDup_singleton.
  - constructor.
  - intros b ->%list_elem_of_singleton. rewrite lookup_delete_eq. by split; [eexists|].
  - set_solver.
  - intros b eb Hb Eb. exists eb. rewrite lookup_delete_ne; [done|set_solver].
  - intros b eb _ Eb. destruct (decide (b = a)) as [->|Hne].
    + exists e'. rewrite lookup_insert_eq. split_and!; congruence.
    + exists eb. by rewrite lookup_insert_ne.
  - intros b eb [_ Eb]%lookup_delete_Some En. congruence.
  - intros b eb Eb En. destruct (decide (b = a)) as [->|Hne]; [congruence|]. rewrite lookup_insert_ne in Eb by done. congruence.
Qed.

Lemma same_handles_freed c c' a e e' :
  handles_ c !! a = Some e -> lh_key e' = lh_key e -> lh_value e' = lh_value e ->
  handles_ c' = <[a := e']> (handles_ c) -> deleted_ c' = deleted_ c -> freed c c' None [].
Proof.
  intros E Hk Hv Hhs Hd. split.
  - constructor.
  - set_solver.
  - intros b eb _ Eb. rewrite Hhs. destruct (decide (b = a)) as [->|Hne].
    + exists e'. rewrite lookup_insert_eq. split_and!; congruence.
    + exists eb. by rewrite lookup_insert_ne.
  - intros b eb Eb En. rewrite Hhs in Eb. destruct (decide (b = a)) as [->|Hne]; [congruence|]. rewrite lookup_insert_ne in Eb by done. congruence.
  - by rewrite Hd, app_nil_r.
Qed.

Lemma unchanged_freed c c' : handles_ c' = handles_ c -> deleted_ c' = deleted_ c -> freed c c' None [].
Proof.
  intros Hhs Hd. split; rewrite ?Hhs, ?Hd.
  - constructor.
  - set_solver.
  - intros b eb _ Eb. by exists eb.
  - intros; congruence.
  - by rewrite app_nil_r.
Qed.

(** A new object next to the others. *)
Lemma new_freed c c' addr e :
  handles_ c !! addr = None -> handles_ c' = <[addr := e]> (handles_ c) -> deleted_ c' = deleted_ c ->
  freed c c' (Some (addr, e)) [].
Proof.
  intros En Hhs Hd. split; rewrite ?Hhs, ?Hd.
  - constructor.
  - set_solver.
  - intros b eb _ Eb. exists eb. rewrite lookup_insert_ne; [done|]. congruence.
  - intros b eb Eb Enb. destruct (decide (b = addr)) as [->|Hne]; [rewrite lookup_insert_eq in Eb; by injection Eb|].
    rewrite lookup_insert_ne in Eb by done. congruence.
  - by rewrite app_nil_r.
Qed.

Lemma legal_small c lru use ext x :
  cache_ok c lru use ext -> legal c ext x -> zlen (lru ++ use) + 1 < 2 ^ 31.
Proof. intros H [Hs _]. pose proof (cached_size _ _ _ _ (ok_core _ _ _ _ H)). lia. Qed.

Lemma enter_freed c c1 r addr e lru use key hash :
  fresh_addr c addr -> found c lru use key hash r ->
  handles_ c1 = <[addr := e]> (replaced (handles_ c) r) -> deleted_ c1 = deleted_ c ++ replaced_deleted (handles_ c) r ->
  exists gone, freed c c1 (Some (addr, e)) gone.
Proof.
  intros Hfr Hf Hhs Hd. destruct r as [a|]; cbn [found replaced replaced_deleted] in *.
  - destruct Hf as [Ha (ea & E & _)]. rewrite E in Hhs, Hd. cbn [from_option] in Hhs, Hd.
    assert (a <> addr) as Hne by (intros ->; destruct Hfr; congruence).
    set (cm := {| capacity_ := 0; usage_ := 0; lists_ := lists_ c; table_ := table_ c;
                  handles_ := <[addr := e]> (handles_ c); deleted_ := deleted_ c |}).
    assert (handles_ cm !! a = Some ea) as Em by (cbn; by rewrite lookup_insert_ne).
    exists ([] ++ last_ref (handles_ cm) a). apply (freed_trans c cm c1).
    + by apply new_freed; [destruct Hfr|..].
    + apply (unref_freed cm c1 a ea (with_in_cache (with_refs ea (lh_refs ea - 1)) false)); [done..| |done].
      rewrite Hhs. unfold dropped. cbn. destruct (lh_refs ea =? 1); [by rewrite delete_insert_ne|by rewrite insert_insert_ne].
    + split; [by destruct Hfr|]. split; [|by rewrite Hhs, lookup_insert_eq].
      unfold last_ref. rewrite Em. destruct (lh_refs ea =? 1); set_solver.
  - exists []. apply new_freed; [by destruct Hfr|done|]. by rewrite app_nil_r in Hd.
Qed.

(** What a call that is legal does. *)
Definition call_result c ext (x : call) : Prop :=
  exists r c' new gone lru' use', run_call c x = Some (r, c') /\ cache_ok c' lru' use' (held_after ext x r)
    /\ freed c c' new gone /\ capacity_ c' = capacity_ c.

Lemma insert_result c lru use ext addr key hash value charge :
  cache_ok c lru use ext -> legal c ext (CInsert addr key hash value charge) ->
  call_result c ext (CInsert addr key hash value charge).
Proof.
  intros H Hl. pose proof (legal_small _ _ _ _ _ H Hl) as Hs. destruct Hl as (_ & _ & Hfr & Hz & Hh).
  destruct (fresh_ext c lru use ext addr (ok_core _ _ _ _ H) Hfr) as [_ Hin].
  assert (forall b e c1 c' new g1 k l use',
    freed c c1 (Some (addr, e)) g1 -> evicted c1 l use' (bump ext addr 1) k c' -> handles_ c1 !! addr = Some e ->
    addr ∉ l -> b = (take k l) -> new = Some (addr, e) -> freed c c' new (g1 ++ b)) as Hgo.
  { intros b e c1 c' new g1 k l use' Hf Hev E Hl -> ->. assert (addr ∉ take k l) as Ht.
    { intros Hx. apply Hl. rewrite <- (take_drop k l). set_solver. }
    apply (freed_trans c c1 c'); [done|by apply (evicted_freed _ _ use' (bump ext addr 1))|].
    split; [by destruct Hfr|]. split; [done|]. by rewrite (ev_same _ _ _ _ _ _ Hev). }
  unfold call_result. cbn [run_call held_after]. destruct (Z.le_gt_cases (capacity_ c) 0) as [Hcap|Hcap].
  - destruct (LRUCache_Insert_uncached_ok c lru use ext addr key hash value charge H Hfr Hz Hh)
      as (k & c1 & c' & -> & Hhs & Hd & Hc1 & Hev & _); [unfold small; lia|done|].
    cbn [mbind option_bind]. eexists _, c', _, _, _, _. split; [done|]. split; [exact (ev_ok _ _ _ _ _ _ Hev)|].
    split; [|rewrite (ev_capacity _ _ _ _ _ _ Hev); exact Hc1].
    eapply (Hgo _ _ c1); [by apply new_freed; [destruct Hfr|..]|done| |set_solver|done|done].
    by rewrite Hhs, lookup_insert_eq.
  - destruct (LRUCache_Insert_ok c lru use ext addr key hash value charge H Hfr Hh Hs ltac:(lia))
      as (r & k & c1 & c' & -> & Hf & Hhs & Hd & Hc1 & Hev & _).
    cbn [mbind option_bind]. destruct (enter_freed c c1 r addr _ lru use key hash Hfr Hf Hhs Hd) as [g1 Hg].
    eexists _, c', _, _, _, _. split; [done|]. split; [exact (ev_ok _ _ _ _ _ _ Hev)|].
    split; [|rewrite (ev_capacity _ _ _ _ _ _ Hev); exact Hc1].
    eapply (Hgo _ _ c1); [done|done|by rewrite Hhs, lookup_insert_eq| |done|done].
    destruct r; cbn [drop_entry]; rewrite ?elem_of_without; set_solver.
Qed.

Lemma call_ok c lru use ext x : cache_ok c lru use ext -> legal c ext x -> call_result c ext x.
Proof.
  intros H Hl. pose proof (legal_small _ _ _ _ _ H Hl) as Hs. assert (small lru use) as Hsm by (unfold small; lia).
  destruct x as [addr key hash value charge|key hash|a|key hash|]; [by apply (insert_result c lru use)|..];
    unfold call_result; cbn [run_call held_after]; destruct Hl as (_ & Hmax & Hl).
  - destruct (LRUCache_Lookup_ok c lru use ext key hash H Hl Hmax) as (r & c' & E & _ & Hcap & Hd & Hcase).
    exists r, c', None, []. destruct r as [a|].
    + destruct Hcase as [H' (e & E1 & Hhs)]. eexists _, _. split_and!; [exact E|exact H'| |done].
      by apply (same_handles_freed c c' a e (with_refs e (lh_refs e + 1))).
    + subst c'. exists lru, use. split_and!; [exact E|done|by apply unchanged_freed|done].
  - destruct (co_held _ _ _ _ (ok_core _ _ _ _ H) a) as [e E]; [lia|].
    destruct (LRUCache_Release_ok c lru use ext a e H E Hl) as (c' & E' & H' & Hhs & Hcap & Hd).
    rewrite E'. cbn [mbind option_bind]. eexists None, c', None, _, _, _. split; [done|]. split; [exact H'|]. split; [|done].
    by apply (unref_freed c c' a e (with_refs e (lh_refs e - 1))).
  - rewrite LRUCache_Erase_remove. destruct (remove_entry_ok c lru use ext key hash H Hl Hsm) as (r & c' & -> & _ & Hcap & Hcase).
    cbn [mbind option_bind]. exists None, c', None. destruct r as [a|].
    + destruct Hcase as (H' & e & E & Hhs & Hd). eexists _, _, _. split; [done|]. split; [exact H'|]. split; [|done].
      by apply (unref_freed c c' a e (with_in_cache (with_refs e (lh_refs e - 1)) false)).
    + destruct Hcase as (H' & Hhs & Hd). exists [], lru, use. split_and!; [done|done|by apply unchanged_freed|done].
  - destruct (LRUCache_Prune_ok c lru use ext H Hsm) as (c' & -> & Hev). cbn [mbind option_bind].
    eexists None, c', None, _, _, _. split; [done|]. split; [exact (ev_ok _ _ _ _ _ _ Hev)|].
    split; [by apply (evicted_freed c lru use ext)|exact (ev_capacity _ _ _ _ _ _ Hev)].
Qed.

(** The caches that clients can see, with the references they hold. *)
Inductive reaches (capacity : Z) : LRUCache V -> (Z -> Z) -> Prop :=
| reaches_new c : LRUCache_new capacity = Some c -> reaches capacity c (fun _ => 0)
| reaches_call c ext x r c' :
    reaches capacity c ext -> legal c ext x -> run_call c x = Some (r, c') -> reaches capacity c' (held_after ext x r).

Lemma reaches_ok capacity c ext :
  reaches capacity c ext -> exists lru use, cache_ok c lru use ext /\ capacity_ c = capacity.
Proof.
  induction 1 as [c E|c ext x r c' _ (lru & use & H & Hcap) Hl E].
  - destruct (LRUCache_new_ok capacity) as (c0 & E0 & H0 & Hcap & _). exists [], []. by simplify_eq.
  - destruct (call_ok c lru use ext x H Hl) as (r' & c1 & new & gone & lru' & use' & E' & H' & _ & Hcap').
    assert (r' = r /\ c1 = c') as [-> ->] by (rewrite E in E'; by injection E'). exists lru', use'. split; [done|]. congruence.
Qed.

(** C19: Whatever the clients do with the cache, as long as they insert at new
    addresses, release only references they hold and do not overflow the 32-bit
    counters, every call returns: no assertion fails and no freed object is
    used.  The call frees the objects [gone], each of which the deleter gets
    once with its key and value; no object to which a client still holds a
    reference is among them, the other objects keep their keys and values, and
    an object that nobody holds is in the cache. *)
Theorem cache_call_safe (capacity : Z) c ext (x : call) :
  reaches capacity c ext -> legal c ext x ->
  exists r c' new gone, run_call c x = Some (r, c') /\ freed c c' new gone
    /\ (forall a, 0 < held_after ext x r a -> a ∉ gone /\ is_Some (handles_ c' !! a))
    /\ (forall a e, handles_ c' !! a = Some e -> held_after ext x r a = 0 -> lh_in_cache e = true).
Proof.
  intros (lru & use & H & _)%reaches_ok Hl.
  destruct (call_ok c lru use ext x H Hl) as (r & c' & new & gone & lru' & use' & E & H' & Hf & _).
  exists r, c', new, gone. split_and!; [done|done| |].
  - intros a Ha. assert (is_Some (handles_ c' !! a)) as Hs by (apply (co_held _ _ _ _ (ok_core _ _ _ _ H')); lia).
    split; [|done]. intros Hg. destruct (fr_gone _ _ _ _ Hf a Hg) as [_ Hn]. rewrite Hn in Hs. by destruct Hs.
  - intros a e Ea Ha. pose proof (co_handle _ _ _ _ (ok_core _ _ _ _ H') a e Ea) as Ho.
    pose proof (ho_refs _ _ _ _ _ _ Ho). pose proof (ho_pos _ _ _ _ _ _ Ho). destruct (lh_in_cache e); [done|lia].
Qed.

(** C32: [Insert] makes room by evicting the oldest unused entries, and no more
    than needed: the evicted ones are the first [k] of the list of unused entries
    (less the one of the same name, which the new entry replaces), each of them
    was evicted while the charges were above the capacity, and afterwards they
    are not above it or no unused entry is left.  What was evicted or replaced
    without being used is given to the deleter, in this order, and nothing else. *)
Theorem LRUCache_Insert_evicts c lru use ext addr key hash value charge :
  cache_ok c lru use ext -> fresh_addr c addr -> in_uint 32 hash -> zlen (lru ++ use) + 1 < 2 ^ 31 -> 0 < capacity_ c ->
  exists r k c', LRUCache_Insert c addr key hash value charge = Some (addr, c') /\ found c lru use key hash r
    /\ let lru0 := drop_entry r lru in let use1 := drop_entry r use ++ [addr] in
       let charges l := u64 (total (<[addr := new_handle key hash value charge true]> (replaced (handles_ c) r)) (l ++ use1)) in
       cache_ok c' (drop k lru0) use1 (bump ext addr 1)
       /\ deleted_ c' = deleted_ c ++ replaced_deleted (handles_ c) r ++ contents (handles_ c) (take k lru0)
       /\ usage_ c' = charges (drop k lru0)
       /\ (usage_ c' <= capacity_ c \/ drop k lru0 = [])
       /\ forall j, (j < k)%nat -> capacity_ c < charges (drop j lru0).
Proof.
  intros H Hfr Hh Hs Hcap.
  destruct (LRUCache_Insert_ok c lru use ext addr key hash value charge H Hfr Hh Hs Hcap)
    as (r & k & c1 & c' & E & Hf & Hhs & Hd & Hc1 & [Hb H' Hgone Hsame Hdel Hcap'] & Hk & Hstop & Hgo).
  destruct (fresh_ext c lru use ext addr (ok_core _ _ _ _ H) Hfr) as [_ Hin].
  exists r, k, c'. rewrite <- Hhs. cbv zeta. split_and!; [done|done|done| | |done|done].
  - rewrite Hdel, Hd, <- app_assoc. do 2 f_equal. apply contents_ext. intros a Ha. rewrite Hhs.
    assert (a ∈ drop_entry r lru) as Hal by (rewrite <- (take_drop k (drop_entry r lru)); set_solver).
    assert (a ∈ lru /\ Some a <> r) as [Hl Hr].
    { destruct r as [o|]; cbn in Hal; [|done]. apply elem_of_without in Hal as [? ?]. split; [done|]. congruence. }
    rewrite lookup_insert_ne by (intros ->; set_solver). destruct r as [o|]; cbn [replaced]; [|done].
    destruct (handles_ c !! o) as [e|]; cbn [from_option]; [|done]. apply dropped_other. congruence.
  - rewrite (co_usage _ _ _ _ (ok_core _ _ _ _ H')). f_equal. apply total_ext. intros a Ha. unfold charge_of. rewrite Hsame; [done|].
    intros Ht. pose proof (core_nodup _ _ _ _ (ok_core _ _ _ _ Hb)) as Hnd. rewrite <- (take_drop k (drop_entry r lru)), <- app_assoc in Hnd.
    apply NoDup_app in Hnd as (_ & Hnd & _). by apply (Hnd a).
Qed.

(** An entry that is in the cache is what a lookup of its name finds. *)
Lemma LRUCache_Lookup_finds c lru use ext key hash a e :
  cache_ok c lru use ext -> in_uint 32 hash -> (forall b eb, handles_ c !! b = Some eb -> lh_refs eb + 1 < 2 ^ 32) ->
  a ∈ lru ++ use -> handles_ c !! a = Some e -> lh_key e = key -> lh_hash e = hash ->
  exists c', LRUCache_Lookup c key hash = Some (Some a, c')
    /\ handles_ c' = <[a := with_refs e (lh_refs e + 1)]> (handles_ c).
Proof.
  intros H Hh Hmax Ha E Hk Hhash. assert (named c key hash a) as Hn by (by exists e).
  destruct (LRUCache_Lookup_ok c lru use ext key hash H Hh Hmax) as (r & c' & El & Hf & _ & _ & Hcase).
  destruct r as [b|]; [|by destruct (Hf a Ha Hn)]. destruct Hf as [Hb Hnb].
  assert (b = a) as -> by (by apply (named_unique c lru use ext key hash)). exists c'. split; [done|].
  destruct Hcase as (_ & e' & E' & Hhs). congruence.
Qed.
End Ops.

(** * The shards *)
Section Sharded.
Context {V : Type}.
Implicit Types (c : ShardedLRUCache V).

(** The shards, each with its lists. *)
Definition sharded_ok c : Prop :=
  length (shard_ c) = Z.to_nat kNumShards
  /\ Forall (fun s => exists lru use ext, cache_ok s lru use ext /\ 0 < capacity_ s) (shard_ c).

Lemma NewLRUCache_ok capacity :
  0 < capacity < 2 ^ 64 - 15 -> exists c, NewLRUCache V capacity = Some c /\ sharded_ok c /\ last_id_ c = 0.
Proof.
  intros Hc. unfold NewLRUCache, ShardedLRUCache_new. set (n := u64 _ / kNumShards).
  assert (0 < n) as Hn.
  { unfold n. change kNumShards with 16. unfold u64. rewrite Z.mod_small by lia. apply Z.div_str_pos. lia. }
  destruct (LRUCache_new_ok (V := V) n) as (s & -> & H & Hs & _). cbn [mbind option_bind].
  eexists. split; [done|]. split; [|done]. unfold sharded_ok. cbn [shard_].
  split; [by rewrite length_replicate|]. apply Forall_replicate. exists [], [], (fun _ => 0). split; [done|]. by rewrite Hs.
Qed.

Lemma Shard_lt hash : in_uint 32 hash -> (Z.to_nat (Shard hash) < Z.to_nat kNumShards)%nat.
Proof.
  intros Hh. unfold Shard. rewrite Z.shiftr_div_pow2 by done.
  change (2 ^ (32 - kNumShardBits)) with 268435456. change kNumShards with 16.
  unfold in_uint in Hh. assert (0 <= hash / 268435456 < 16); [|lia].
  split; [apply Z.div_pos; lia|apply Z.div_lt_upper_bound; lia].
Qed.

(** No shard has an object at [a]. *)
Definition fresh_in c (a : Z) : Prop := Forall (fun s => fresh_addr s a) (shard_ c).

(** The 32-bit counters have room. *)
Definition has_room c : Prop :=
  Forall (fun s => Z.of_nat (size (handles_ s)) + 1 < 2 ^ 31
                   /\ forall a e, handles_ s !! a = Some e -> lh_refs e + 1 < 2 ^ 32) (shard_ c).

Lemma find_handle_one (l : list (LRUCache V)) i s a e :
  l !! i = Some s -> handles_ s !! a = Some e -> (forall j s', j <> i -> l !! j = Some s' -> handles_ s' !! a = None) ->
  head (omap (fun s => handles_ s !! a) l) = Some e.
Proof.
  revert i. induction l as [|x l IH]; intros i Hi E Ho; [done|]. destruct i as [|i]; cbn in Hi |- *.
  - injection Hi as ->. by rewrite E.
  - rewrite (Ho 0%nat x) by done. apply (IH i); [done|done|]. intros j s' Hj Hs. apply (Ho (S j)); [lia|done].
Qed.

Lemma Cache_Value_one c i s a e :
  shard_ c !! i = Some s -> handles_ s !! a = Some e ->
  (forall j s', j <> i -> shard_ c !! j = Some s' -> handles_ s' !! a = None) -> Cache_Value c a = Some (lh_value e).
Proof. intros Hs E Ho. unfold Cache_Value, find_handle. by rewrite (find_handle_one _ i s a e). Qed.

(** What was inserted is found: after [Insert] of a value at a new address,
    [Lookup] of the same key in the cache of shards gives the handle of the new
    entry, and the value behind that handle is the inserted one. *)
Theorem Cache_Insert_Lookup c addr key value charge :
  sharded_ok c -> has_room c -> fresh_in c addr ->
  exists c1 c2, Cache_Insert c addr key value charge = Some (addr, c1)
    /\ Cache_Lookup c1 key = Some (Some addr, c2) /\ Cache_Value c2 addr = Some value.
Proof.
  intros [Hlen Hok] Hroom Hfr. set (hash := HashSlice key). pose proof (Hash_range key 0 : in_uint 32 hash) as Hh.
  set (i := Z.to_nat (Shard hash)).
  assert (i < length (shard_ c))%nat as Hi by (rewrite Hlen; by apply Shard_lt).
  destruct (lookup_lt_is_Some_2 _ _ Hi) as [s Hs].
  destruct (Forall_lookup_1 _ _ _ _ Hok Hs) as (lru & use & ext & H & Hcap).
  destruct (Forall_lookup_1 _ _ _ _ Hroom Hs) as [Hsize Hrefs]. pose proof (Forall_lookup_1 _ _ _ _ Hfr Hs) as Hf.
  assert (zlen (lru ++ use) + 1 < 2 ^ 31) as Hsm by (pose proof (cached_size _ _ _ _ (ok_core _ _ _ _ H)); lia).
  destruct (LRUCache_Insert_ok s lru use ext addr key hash value charge H Hf Hh Hsm Hcap)
    as (r & k & s0 & s1 & E & Hfound & Hhs & Hd & _ & Hev & _).
  destruct (fresh_ext s lru use ext addr (ok_core _ _ _ _ H) Hf) as [_ Hin].
  assert (addr ∉ take k (drop_entry r lru)) as Ht.
  { intros Hx%elem_of_take_in%elem_of_drop_entry. apply Hin, elem_of_app. by left. }
  assert (handles_ s1 !! addr = Some (new_handle key hash value charge true)) as E1.
  { by rewrite (ev_same _ _ _ _ _ _ Hev), Hhs, lookup_insert_eq. }
  destruct (LRUCache_Lookup_finds s1 _ _ _ key hash addr
    (new_handle key hash value charge true) (ev_ok _ _ _ _ _ _ Hev) Hh) as (s2 & E2 & Hhs2);
    [|rewrite !elem_of_app, list_elem_of_singleton; tauto|exact E1|done|done|].
  { intros b eb Eb. destruct (decide (b ∈ take k (drop_entry r lru))) as [Hb|Hb].
    - rewrite (ev_gone _ _ _ _ _ _ Hev) in Eb by done. done.
    - rewrite (ev_same _ _ _ _ _ _ Hev), Hhs in Eb by done. destruct (decide (b = addr)) as [->|Hne].
      + rewrite lookup_insert_eq in Eb. by injection Eb as <-.
      + rewrite lookup_insert_ne in Eb by done. destruct r as [o|]; cbn [replaced] in Eb; [|by apply (Hrefs b)].
        destruct (handles_ s !! o) as [e|] eqn:Eo; cbn [from_option] in Eb; [|by apply (Hrefs b)].
        destruct (decide (b = o)) as [->|Hbo]; [|rewrite dropped_other in Eb by done; by apply (Hrefs b)].
        unfold dropped in Eb. destruct (lh_refs e =? 1); [by rewrite lookup_delete_eq in Eb|].
        rewrite lookup_insert_eq in Eb. injection Eb as <-. cbn. pose proof (Hrefs o e Eo). lia. }
  exists {| shard_ := <[i := s1]> (shard_ c); last_id_ := last_id_ c |},
    {| shard_ := <[i := s2]> (<[i := s1]> (shard_ c)); last_id_ := last_id_ c |}. split_and!.
  - unfold Cache_Insert, on_shard. fold hash i. rewrite Hs. cbn [mbind option_bind]. rewrite E. done.
  - unfold Cache_Lookup, on_shard. fold hash i. cbn [shard_ last_id_]. rewrite list_lookup_insert_eq by done. cbn [mbind option_bind].
    rewrite E2. done.
  - set (c2 := {| shard_ := <[i := s2]> _; last_id_ := _ |}).
    assert (Cache_Value c2 addr = Some (lh_value (with_refs (new_handle key hash value charge true) 3))) as ->; [|done].
    apply (Cache_Value_one c2 i s2); cbn [c2 shard_].
    + by rewrite list_insert_insert_eq, list_lookup_insert_eq.
    + by rewrite Hhs2, lookup_insert_eq.
    + intros j s' Hj. rewrite list_insert_insert_eq, list_lookup_insert_ne by done. intros Hs'.
      by destruct (Forall_lookup_1 _ _ _ _ Hfr Hs') as [? _].
Qed.
End Sharded.

(** * Witnesses *)
Lemma cache_call_safe_witness :
  exists c r c' new gone, LRUCache_new (V := Z) 3 = Some c
    /\ run_call c (CInsert 10 [1] 5 100 1) = Some (r, c') /\ freed c c' new gone.
Proof.
  destruct (LRUCache_new_ok (V := Z) 3) as (c & E & H & _ & Hhs & Hd).
  assert (legal c (fun _ => 0) (CInsert 10 [1] 5 100 1)) as Hl.
  { unfold legal, fresh_addr. rewrite Hhs, map_size_empty. by split_and!. }
  destruct (cache_call_safe 3 c _ (CInsert 10 [1] 5 100 1) (reaches_new 3 c E) Hl) as (r & c' & new & gone & Er & Hf & _).
  by exists c, r, c', new, gone.
Defined.

Lemma LRUCache_Insert_evicts_witness :
  exists c c', LRUCache_new (V := Z) 3 = Some c /\ LRUCache_Insert c 10 [1] 5 100 7 = Some (10, c')
    /\ cache_ok c' [] [10] (bump (fun _ => 0) 10 1).
Proof.
  destruct (LRUCache_new_ok (V := Z) 3) as (c & E & H & Hcap & Hhs & Hd). exists c.
  destruct (LRUCache_Insert_evicts c [] [] (fun _ => 0) 10 [1] 5 100 7 H) as (r & k & c' & E' & Hf & Hrest).
  - unfold fresh_addr. by rewrite Hhs, lookup_empty.
  - done.
  - done.
  - by rewrite Hcap.
  - exists c'. split; [done|]. split; [done|]. cbv zeta in Hrest. destruct Hrest as [Hok _]. destruct r as [a|].
    + destruct Hf as [Hf _]. by apply not_elem_of_nil in Hf.
    + cbn in Hok. by rewrite drop_nil in Hok.
Defined.

Lemma Cache_Insert_Lookup_witness :
  exists c c1 c2, NewLRUCache Z 1000 = Some c /\ Cache_Insert c 10 [1] 100 7 = Some (10, c1)
    /\ Cache_Lookup c1 [1] = Some (Some 10, c2) /\ Cache_Value c2 10 = Some 100.
Proof.
  destruct (NewLRUCache_ok (V := Z) 1000) as (c & E & H & _); [lia|].
  assert (exists s, NewLRUCache Z 1000 = Some {| shard_ := replicate 16 s; last_id_ := 0 |} /\ handles_ s = ∅) as (s & E' & Hs).
  { eexists. split; [vm_compute; reflexivity|]. reflexivity. }
  assert (c = {| shard_ := replicate 16 s; last_id_ := 0 |}) as -> by congruence. clear E'.
  destruct (Cache_Insert_Lookup {| shard_ := replicate 16 s; last_id_ := 0 |} 10 [1] 100 7 H) as (c1 & c2 & E1 & E2 & E3).
  - apply Forall_replicate. rewrite Hs, map_size_empty. split; [lia|]. intros a e Ea. by rewrite lookup_empty in Ea.
  - apply Forall_replicate. unfold fresh_addr. by rewrite Hs, lookup_empty.
  - by exists {| shard_ := replicate 16 s; last_id_ := 0 |}, c1, c2.
Defined.
