(* ===== verification/LdbTableCache.v ===== *)
(** leveldb: the cache of open tables and building a table from an iterator,
    [cache.h], [table_cache.h], [table_cache.cc], [builder.h] and [builder.cc].

    A [TableAndFile] is the table, which has its file.  The environment is an
    argument of what opens files; deleting a file that is read does nothing
    here.  What an operation does to the block cache besides inserting a block
    (the order in which it evicts) is left to [bc_read].

    [CacheLaw] says what a client that gives back its handles at once relies on;
    [Sharded_Cache_law] is the proof for the cache of [cache.cc].  [tables_good] is
    the invariant of a table cache over its files, [tables_getter] that lookups find
    their entries.  [BuildTable_ok] is the whole of [BuildTable], errors included. *)
From stdpp Require Import base numbers option strings gmap sets list.
From S2P Require Import Prelude LdbSlice LdbCoding LdbBloom LdbComparator LdbDbformat LdbEnv LdbIterator LdbBlock LdbTwoLevel LdbFormat LdbTable LdbFilename LdbVersionEdit LdbTableSpec LdbTableThms LdbVersion LdbVersionThms LdbVersionSet LdbManifest LdbManifestThms LdbCache LdbCacheThms LdbCacheOps.
Open Scope Z_scope.

(** * [cache.h] *)

(** A handle is an address; [None] is an assertion that fails. *)
Class Cache (C V : Type) : Type := {
  cache_new : Z -> option C;
  cache_insert : C -> bytes -> V -> Z -> option (Z * C);
  cache_lookup : C -> bytes -> option (option Z * C);
  cache_release : C -> Z -> option C;
  cache_value : C -> Z -> option V;
  cache_erase : C -> bytes -> option C
}.

(** The sharded cache, with the address that [malloc] gives next; [lru_] and
    [in_use_] have the first ones. *)
#[export] Instance Sharded_Cache (V : Type) : Cache (ShardedLRUCache V * Z) V := {
  cache_new capacity := s ← NewLRUCache V capacity; Some (s, 3);
  cache_insert c key value charge := '(a, s) ← Cache_Insert c.1 c.2 key value charge; Some (a, (s, c.2 + 1));
  cache_lookup c key := '(r, s) ← Cache_Lookup c.1 key; Some (r, (s, c.2));
  cache_release c a := s ← Cache_Release c.1 a; Some (s, c.2);
  cache_value c a := Cache_Value c.1 a;
  cache_erase c key := s ← Cache_Erase c.1 key; Some (s, c.2)
}.

(** The block cache as a table uses it: the blocks it would find, the state after
    a read that inserted a block or none, and a new identifier. *)
Class BlockCache (B : Type) : Type := {
  bc_new : Z -> option B;
  bc_find : B -> bytes -> option Block;
  bc_read : B -> option (bytes * Block) -> B;
  bc_new_id : B -> Z * B
}.

Section TableCache.
Context {E Sq R : Type} {EV : Env E Sq R} {RF : RandomAccessFile R} {SN : Snappy}.
Context {C B : Type} {CA : Cache C (Table R)} {BC : BlockCache B}.

Record TableCache : Type := { tc_dbname : bytes; tc_options : Options; tc_cache : C; tc_blocks : option B }.

Definition with_tables (t : TableCache) (c : C) : TableCache :=
  {| tc_dbname := tc_dbname t; tc_options := tc_options t; tc_cache := c; tc_blocks := tc_blocks t |}.

Definition with_blocks (t : TableCache) (b : option B) : TableCache :=
  {| tc_dbname := tc_dbname t; tc_options := tc_options t; tc_cache := tc_cache t; tc_blocks := b |}.

(** [NewId] of the block cache, or 0. *)
Definition new_cache_id (t : TableCache) : Z * option B :=
  match tc_blocks t with Some b => let '(id, b) := bc_new_id b in (id, Some b) | None => (0, None) end.

(** The file of a table, under either of its names. *)
Definition open_table_file (e : E) (dbname : bytes) (file_number : Z) : Status * option R :=
  let '(s, file) := NewRandomAccessFile e (TableFileName dbname file_number) in
  if Status_ok s then (s, file)
  else
    let '(s', file') := NewRandomAccessFile e (SSTTableFileName dbname file_number) in
    if Status_ok s' then (Status_OK, file') else (s, file').

Definition FindTable (e : E) (t : TableCache) (file_number file_size : Z) : option (Status * option Z * TableCache) :=
  let key := EncodeFixed64 file_number in
  '(handle, c) ← cache_lookup (tc_cache t) key;
  let t := with_tables t c in
  match handle with
  | Some h => Some (Status_OK, Some h, t)
  | None =>
      let '(s, file) := open_table_file e (tc_dbname t) file_number in
      if negb (Status_ok s) then Some (s, None, t)
      else
        file ← file;
        let '(id, blocks) := new_cache_id t in
        '(s, table) ← Table_Open (tc_options t) file file_size id;
        match table with
        | None => Some (s, None, t)
        | Some table =>
            let t := with_blocks t blocks in
            '(h, c) ← cache_insert (tc_cache t) key table 1;
            Some (s, Some h, with_tables t c)
        end
  end.

(** An iterator over a table, with the handle that goes with it, or only a
    status. *)
Inductive TableIterator : Type :=
| TableError (s : Status)
| TableEntries (handle : Z) (table : Table R) (it : TwoLevelIterator BlockIterator BlockIterator).

Definition TableCache_NewIterator (e : E) (t : TableCache) (file_number file_size : Z) : option (TableIterator * TableCache) :=
  '(s, handle, t) ← FindTable e t file_number file_size;
  if Status_ok s then
    h ← handle;
    table ← cache_value (tc_cache t) h;
    it ← Table_NewIterator table;
    Some (TableEntries h table it, t)
  else Some (TableError (NewErrorIterator s), t).

Definition TableIterator_status (fuel : nat) (t : TableCache) (options : ReadOptions) (it : TableIterator) : option Status :=
  match it with
  | TableError s => Some s
  | TableEntries _ table it => status (Iterator := Table_Iterator fuel (bc_find <$> tc_blocks t) table options) it
  end.

(** Deleting it calls [UnrefEntry]. *)
Definition TableIterator_delete (t : TableCache) (it : TableIterator) : option TableCache :=
  match it with
  | TableError _ => Some t
  | TableEntries h _ _ => c ← cache_release (tc_cache t) h; Some (with_tables t c)
  end.

Definition TableCache_Get_in (e : E) (t : TableCache) (options : ReadOptions) (file_number file_size : Z) (k : bytes) :
    option (Status * option (bytes * bytes) * TableCache) :=
  '(s, handle, t) ← FindTable e t file_number file_size;
  if Status_ok s then
    h ← handle;
    table ← cache_value (tc_cache t) h;
    '(s, result, inserted) ← InternalGet (bc_find <$> tc_blocks t) table options k;
    let t := with_blocks t ((fun b => bc_read b inserted) <$> tc_blocks t) in
    c ← cache_release (tc_cache t) h;
    Some (s, result, with_tables t c)
  else Some (s, None, t).

Definition Evict (t : TableCache) (file_number : Z) : option TableCache :=
  c ← cache_erase (tc_cache t) (EncodeFixed64 file_number);
  Some (with_tables t c).

(** What [Version::Get] uses: the environment goes along. *)
#[export] Instance TableCache_getter : TableGetter (E * TableCache) := {
  TableCache_Get t options file_number file_size k :=
    '(s, r, c) ← TableCache_Get_in t.1 t.2 options file_number file_size k; Some (s, r, (t.1, c))
}.

(** * [BuildTable] *)
Context {St : Type} {I : Iterator St}.

Definition meta_sized (m : FileMetaData) (size : Z) : FileMetaData :=
  FileMetaData_make (number m) size (smallest m) (largest m).

Definition meta_range (m : FileMetaData) (s l : bytes) : FileMetaData := FileMetaData_make (number m) (file_size m) s l.

(** The entries of the iterator are added; [meta->largest] is the last key. *)
Fixpoint build_loop (fuel : nat) (iter : St) (builder : TableBuilder (E * Z)) (meta_largest : bytes) :
    option (St * TableBuilder (E * Z) * bytes) :=
  if Valid iter then
    match fuel with
    | O => None
    | S fuel' =>
        key ← Key iter;
        value ← Value iter;
        builder ← TableBuilder_Add builder key value;
        iter ← Next iter;
        build_loop fuel' iter builder key
    end
  else Some (iter, builder, meta_largest).

(** The file that is open: its table is finished, and read back. *)
Definition finish_table (t : TableCache) (file : Z) (builder : TableBuilder (E * Z)) (meta : FileMetaData) :
    option (Status * E * TableCache * FileMetaData) :=
  '(s, builder) ← TableBuilder_Finish builder;
  let meta := if Status_ok s then meta_sized meta (TableBuilder_FileSize builder) else meta in
  if Status_ok s && (file_size meta <=? 0) then None
  else
    let '(e, _) := tb_file builder in
    let '(s, e) := if Status_ok s then File_Sync e file else (s, e) in
    let '(s, e) := if Status_ok s then File_Close e file else (s, e) in
    let e := File_delete e file in
    if Status_ok s then
      '(it, t) ← TableCache_NewIterator e t (number meta) (file_size meta);
      s ← TableIterator_status 0 t ReadOptions_default it;
      t ← TableIterator_delete t it;
      Some (s, e, t, meta)
    else Some (s, e, t, meta).

(** The end of [BuildTable]: errors of the iterator, and a file that is not
    kept. *)
Definition keep_table (dbname : bytes) (e : E) (t : TableCache) (iter : St) (s : Status) (meta : FileMetaData) :
    option (Status * E * TableCache * FileMetaData) :=
  st ← status iter;
  let s := if Status_ok st then s else st in
  if Status_ok s && (file_size meta >? 0) then Some (s, e, t, meta)
  else Some (s, (Env_DeleteFile e (TableFileName dbname (number meta))).2, t, meta).

Definition BuildTable (fuel : nat) (dbname : bytes) (e : E) (options : Options) (t : TableCache) (iter : St) (meta : FileMetaData) :
    option (Status * E * TableCache * FileMetaData) :=
  let meta := meta_sized meta 0 in
  iter ← SeekToFirst iter;
  if Valid iter then
    let '(s, file, e) := NewWritableFile e (TableFileName dbname (number meta)) in
    if negb (Status_ok s) then Some (s, e, t, meta)
    else
      file ← file;
      builder ← TableBuilder_new options (e, file);
      first ← Key iter;
      '(iter, builder, last) ← build_loop fuel iter builder (largest meta);
      '(s, e, t, meta) ← finish_table t file builder (meta_range meta first last);
      keep_table dbname e t iter s meta
  else keep_table dbname e t iter Status_OK meta.
End TableCache.

#[global] Arguments TableCache C B : clear implicits.

(** * Lookups of internal keys in a table *)
Section Scope.
Context {U : Comparator} {uvalid : bytes -> Prop} {uorder : bytes -> bytes -> Z} {UL : ComparatorLaw U uvalid uorder}.
#[local] Abbreviation ivalid := (ikey_valid uvalid).
#[local] Abbreviation iorder := (ikey_order uorder).

(** The keys that a lookup is meant to find. *)
Definition same_ikey (k k' : bytes) : Prop := uorder (ikey_user k) (ikey_user k') = 0.

(** What the documentation of a filter policy asks for: an answer for every filter,
    and the same for keys that the comparator does not tell apart. *)
Definition policy_respects (P : FilterPolicy) : Prop :=
  (forall u f, uvalid u -> is_Some (KeyMayMatch (FilterPolicy := P) u f))
  /\ forall u u' f, uvalid u -> uvalid u' -> uorder u u' = 0 -> KeyMayMatch (FilterPolicy := P) u f = KeyMayMatch (FilterPolicy := P) u' f.

(** The options of the tables of a database. *)
Record internal_options (o : Options) : Prop := {
  io_comparator : comparator o = InternalKeyComparator U;
  io_policy P : filter_policy o = Some P -> exists PU, P = InternalFilterPolicy PU /\ FilterPolicyLaw PU uvalid /\ policy_respects PU
}.

Lemma internal_comparator_law o : internal_options o -> ComparatorLaw (comparator o) ivalid iorder.
Proof. intros [-> _]. apply _. Qed.

Lemma internal_policy_law o P : internal_options o -> filter_policy o = Some P -> FilterPolicyLaw P ivalid.
Proof. intros Ho HP. destruct (io_policy o Ho P HP) as (PU & -> & L & _). by apply InternalFilter_law. Qed.

Lemma ikey_valid_split k : ivalid k -> exists t, k = ikey_user k ++ t /\ length t = 8%nat /\ uvalid (ikey_user k).
Proof. intros (u & t & -> & L & _ & V). exists t. rewrite ikey_user_app by done. done. Qed.

(** A separator that is not [start] itself is before the user key of [limit]. *)
Lemma separator_apart start limit sep k :
  ivalid start -> ivalid limit -> ivalid k -> InternalKey_FindShortestSeparator start limit = Some sep ->
  iorder start k < 0 -> iorder k sep <= 0 -> same_ikey k limit -> False.
Proof.
  intros Hs Hl Hk Hsep Hsk Hks Hsame.
  assert (sep = start -> False) as Hstart.
  { intros ->. apply (order_lt_flip (compare := Compare (Comparator := InternalKeyComparator U))) in Hsk; [lia|done..]. }
  destruct (ikey_valid_split start Hs) as (t1 & E1 & L1 & V1), (ikey_valid_split limit Hl) as (t2 & E2 & L2 & V2),
    (ikey_valid_split k Hk) as (t & Ek & L & V).
  assert (ExtractUserKey start = Some (ikey_user start)) as X1 by (rewrite E1 at 1; by apply ExtractUserKey_app).
  assert (ExtractUserKey limit = Some (ikey_user limit)) as X2 by (rewrite E2 at 1; by apply ExtractUserKey_app).
  unfold InternalKey_FindShortestSeparator in Hsep. rewrite X1, X2 in Hsep.
  cbn [mbind option_bind] in Hsep. destruct (Separator_law (ikey_user start) (ikey_user limit) V1 V2) as (w & Ew & Vw & _ & Hlt & Hge).
  rewrite Ew in Hsep. cbn [mbind option_bind] in Hsep. destruct (Z.ltb_spec (zlen w) (zlen (ikey_user start))) as [Hw|]; [|cbn in Hsep; injection Hsep as <-; auto].
  rewrite (Compare_order (compare := Compare) _ _ V1 Vw) in Hsep. cbn [mbind option_bind] in Hsep.
  destruct (Z.ltb_spec (uorder (ikey_user start) w) 0) as [_|]; [|injection Hsep as <-; auto]. injection Hsep as <-.
  assert (uorder (ikey_user start) (ikey_user limit) < 0) as H12.
  { destruct (Z.lt_ge_cases (uorder (ikey_user start) (ikey_user limit)) 0) as [|Hn]; [done|]. rewrite (Hge Hn) in Hw. lia. }
  destruct (Hlt H12) as [_ Hw2].
  assert (uorder (ikey_user k) w <= 0) as Hkw.
  { unfold PutFixed64 in Hks. rewrite Ek, ikey_order_app in Hks; [|done|apply EncodeFixed64_length]. destruct (Z.eqb_spec (uorder (ikey_user k) w) 0); lia. }
  assert (uorder (ikey_user limit) w <= 0) as Hlw.
  { apply (order_trans (compare := Compare) _ (ikey_user k)); [done..| |done].
    apply (order_le_flip (compare := Compare)); [done..|]. unfold same_ikey in Hsame. lia. }
  apply (order_le_flip (compare := Compare)) in Hlw; [lia|done..].
Qed.

Lemma internal_scope o : internal_options o -> lookup_scope o (valid := ivalid) (order := iorder) same_ikey.
Proof.
  intros Ho. split.
  - intros P k f HP Hk. destruct (io_policy o Ho P HP) as (PU & -> & _ & Ht & _). destruct (ikey_valid_split k Hk) as (t & Ek & L & V).
    cbn [KeyMayMatch InternalFilterPolicy]. rewrite Ek, ExtractUserKey_app by done. cbn [mbind option_bind]. by apply Ht.
  - intros P k k' f HP Hs Hk Hk'. destruct (io_policy o Ho P HP) as (PU & -> & _ & _ & Hr).
    destruct (ikey_valid_split k Hk) as (t & Ek & L & V), (ikey_valid_split k' Hk') as (t' & Ek' & L' & V').
    assert (ExtractUserKey k = Some (ikey_user k)) as X by (rewrite Ek at 1; by apply ExtractUserKey_app).
    assert (ExtractUserKey k' = Some (ikey_user k')) as X' by (rewrite Ek' at 1; by apply ExtractUserKey_app).
    cbn [KeyMayMatch InternalFilterPolicy]. rewrite X, X'. cbn [mbind option_bind]. by apply Hr.
  - intros start limit sep k Hs Hl Hk Hlt Hsep Hsk Hks Hsame. rewrite (io_comparator o Ho) in Hsep.
    by apply (separator_apart start limit sep k).
Qed.
End Scope.

(** * The cache between the calls of its clients

    What a client that gives back every handle at once relies on: [idle P] says that
    what is stored under a key satisfies [P].  Others may hold handles; in the
    instance nobody does. *)
Class CacheLaw (C V : Type) {CA : Cache C V} (idle : (bytes -> V -> Prop) -> C -> Prop) : Prop := {
  cache_lookup_law P c key :
    idle P c -> exists r c1, cache_lookup c key = Some (r, c1)
      /\ match r with
         | Some h => exists v c2, cache_value c1 h = Some v /\ P key v /\ cache_release c1 h = Some c2 /\ idle P c2
         | None => idle P c1
         end;
  cache_insert_law P c key v :
    idle P c -> P key v -> exists h c1 c2, cache_insert c key v 1 = Some (h, c1) /\ cache_value c1 h = Some v
      /\ cache_release c1 h = Some c2 /\ idle P c2;
  cache_erase_law P c key :
    idle P c -> exists c1, cache_erase c key = Some c1 /\ idle (fun k v => P k v /\ k <> key) c1;
  cache_mono P Q c : (forall k v, P k v -> Q k v) -> idle P c -> idle Q c
}.

Section Idle.
Context {V : Type}.
Implicit Types (P : bytes -> V -> Prop) (s : LRUCache V) (lru : list Z).

(** A shard of which no handle is held, with entries of charge 1. *)
Record shard_idle P (i : nat) (next : Z) s lru : Prop := {
  si_ok : cache_ok s lru [] (fun _ => 0);
  si_capacity : 0 < capacity_ s < 2 ^ 31 - 1;
  si_full : zlen lru <= capacity_ s;
  si_entry a e : handles_ s !! a = Some e ->
    P (lh_key e) (lh_value e) /\ lh_charge e = 1 /\ lh_hash e = HashSlice (lh_key e)
    /\ Z.to_nat (Shard (lh_hash e)) = i /\ 3 <= a < next
}.

Lemma cache_ok_ext s lru use ext ext' : (forall a, ext' a = ext a) -> cache_ok s lru use ext -> cache_ok s lru use ext'.
Proof. intros He [H1 H2]. split; [by apply (core_ext _ _ _ ext)|done]. Qed.

Lemma idle_entry P i next s lru a e :
  shard_idle P i next s lru -> handles_ s !! a = Some e -> lh_refs e = 1 /\ lh_in_cache e = true /\ a ∈ lru.
Proof.
  intros H E. pose proof (co_handle _ _ _ _ (ok_core _ _ _ _ (si_ok _ _ _ _ _ H)) a e E) as Ha.
  pose proof (ho_refs _ _ _ _ _ _ Ha) as Hr. pose proof (ho_pos _ _ _ _ _ _ Ha) as Hp.
  destruct (lh_in_cache e) eqn:Ec; [|lia]. split_and!; [lia|done|]. by apply (ho_lru _ _ _ _ _ _ Ha).
Qed.

(** Giving back the only handle that is held. *)
Lemma release_idle P i next s lru a e :
  cache_ok s lru [a] (bump (fun _ => 0) a 1) -> handles_ s !! a = Some e -> lh_refs e = 2 ->
  0 < capacity_ s < 2 ^ 31 - 1 -> zlen lru + 1 <= capacity_ s ->
  (forall b eb, handles_ s !! b = Some eb ->
     P (lh_key eb) (lh_value eb) /\ lh_charge eb = 1 /\ lh_hash eb = HashSlice (lh_key eb) /\ Z.to_nat (Shard (lh_hash eb)) = i /\ 3 <= b < next) ->
  exists s', LRUCache_Release s a = Some s' /\ shard_idle P i next s' (lru ++ [a])
    /\ forall b, is_Some (handles_ s' !! b) -> is_Some (handles_ s !! b).
Proof.
  intros H E Er Hcap Hfull He. destruct (LRUCache_Release_ok s lru [a] _ a e H E) as (s' & -> & H' & Hhs & Hc & _); [rewrite bump_same; lia|].
  assert (lh_in_cache e = true) as Hic.
  { pose proof (co_handle _ _ _ _ (ok_core _ _ _ _ H) a e E) as Ha. apply (ho_use _ _ _ _ _ _ Ha). set_solver. }
  unfold unref_lru, unref_use in H'. rewrite Hic, Er in H'. cbn [andb Z.eqb Pos.eqb] in H'.
  rewrite Er in Hhs. cbn [Z.eqb Pos.eqb] in Hhs.
  assert (without a [a] = []) as Hw by (unfold without; by rewrite filter_cons_False by tauto). rewrite Hw in H'.
  exists s'. split; [done|]. split; [split|].
  - revert H'. apply cache_ok_ext. intros b. unfold bump. by repeat case_decide.
  - by rewrite Hc.
  - rewrite length_app, Hc. cbn. lia.
  - intros b eb. rewrite Hhs. destruct (decide (b = a)) as [->|Hb].
    + rewrite lookup_insert_eq. intros [= <-]. by apply (He a e).
    + rewrite lookup_insert_ne by done. apply He.
  - intros b [eb Hb]. rewrite Hhs in Hb. destruct (decide (b = a)) as [->|]; [by eexists|]. rewrite lookup_insert_ne in Hb by done. by eexists.
Qed.

Lemma shard_lookup P i next s lru key :
  shard_idle P i next s lru ->
  exists r s1, LRUCache_Lookup s key (HashSlice key) = Some (r, s1)
    /\ match r with
       | None => s1 = s
       | Some a => exists e s2 lru2, handles_ s1 !! a = Some e /\ lh_hash e = HashSlice key /\ P key (lh_value e)
           /\ LRUCache_Release s1 a = Some s2 /\ shard_idle P i next s2 lru2
           /\ (forall b, is_Some (handles_ s1 !! b) -> is_Some (handles_ s !! b))
           /\ forall b, is_Some (handles_ s2 !! b) -> is_Some (handles_ s !! b)
       end.
Proof.
  intros H. destruct (LRUCache_Lookup_ok s lru [] _ key (HashSlice key) (si_ok _ _ _ _ _ H)) as (r & s1 & -> & Hf & Hc & _ & Hr).
  { apply Hash_range. }
  { intros a e E. destruct (idle_entry _ _ _ _ _ a e H E) as [-> _]. lia. }
  exists r, s1. split; [done|]. destruct r as [a|]; [|done]. destruct Hr as (H1 & e & E & Hhs).
  destruct Hf as [Hin (e' & E' & Hk & Hh)]. assert (e' = e) as -> by congruence. clear E'.
  rewrite decide_False in H1 by set_solver. cbn [app] in H1.
  destruct (idle_entry _ _ _ _ _ a e H E) as (Er & Hic & Hl). pose proof (si_entry _ _ _ _ _ H a e E) as (HP & Hch & Hhash & Hsh & Ha).
  assert (handles_ s1 !! a = Some (with_refs e 2)) as E1 by (rewrite Hhs, lookup_insert_eq, Er; done).
  assert (forall b, is_Some (handles_ s1 !! b) -> is_Some (handles_ s !! b)) as Hsub.
  { intros b [eb Hb]. rewrite Hhs in Hb. destruct (decide (b = a)) as [->|]; [by eexists|]. rewrite lookup_insert_ne in Hb by done. by eexists. }
  destruct (release_idle P i next s1 (without a lru) a (with_refs e 2) H1 E1) as (s2 & E2 & H2 & Hsub2).
  - done.
  - rewrite Hc. apply (si_capacity _ _ _ _ _ H).
  - rewrite Hc. pose proof (si_full _ _ _ _ _ H). pose proof (core_nodup _ _ _ _ (ok_core _ _ _ _ (si_ok _ _ _ _ _ H))) as Hnd.
    rewrite app_nil_r in Hnd. assert (length (without a lru) < length lru)%nat; [|lia].
    unfold without. apply (length_filter_lt _ _ a); [done|tauto].
  - intros b eb. rewrite Hhs. destruct (decide (b = a)) as [->|Hb].
    + rewrite lookup_insert_eq. intros [= <-]. cbn. by apply (si_entry _ _ _ _ _ H).
    + rewrite lookup_insert_ne by done. apply (si_entry _ _ _ _ _ H).
  - exists (with_refs e 2), s2, (without a lru ++ [a]). split_and!; [done|cbn; congruence|cbn; by rewrite <- Hk|done|done|done|].
    intros b Hb. by apply Hsub, Hsub2.
Qed.
Lemma total_ones (hs : gmap Z (LRUHandle V)) l : Forall (fun a => charge_of hs a = 1) l -> total hs l = zlen l.
Proof. induction 1 as [|a l Ha _ IH]; [done|]. change (charge_of hs a + total hs l = zlen (a :: l)). rewrite Ha, IH. cbn [length]. lia. Qed.

(** A new entry takes the place of the one with its key; unused entries make room. *)
Lemma shard_insert P i next s lru key v :
  shard_idle P i next s lru -> P key v -> Z.to_nat (Shard (HashSlice key)) = i -> 3 <= next ->
  exists e s1 s2 lru2, LRUCache_Insert s next key (HashSlice key) v 1 = Some (next, s1)
    /\ handles_ s1 !! next = Some e /\ lh_hash e = HashSlice key /\ lh_value e = v
    /\ LRUCache_Release s1 next = Some s2 /\ shard_idle P i (next + 1) s2 lru2
    /\ (forall b, is_Some (handles_ s1 !! b) -> is_Some (handles_ s !! b) \/ b = next)
    /\ forall b, is_Some (handles_ s2 !! b) -> is_Some (handles_ s !! b) \/ b = next.
Proof.
  intros H HP Hi Hn. pose proof (si_ok _ _ _ _ _ H) as Hok. pose proof (si_capacity _ _ _ _ _ H) as Hcap. pose proof (si_full _ _ _ _ _ H) as Hfull.
  assert (fresh_addr s next) as Hfr.
  { unfold fresh_addr, lru_, in_use_. split_and!; [|lia..]. destruct (handles_ s !! next) eqn:E; [|done].
    apply (si_entry _ _ _ _ _ H) in E as (_ & _ & _ & _ & Hx). lia. }
  destruct (LRUCache_Insert_ok s lru [] _ next key (HashSlice key) v 1 Hok Hfr (Hash_range key 0)) as
    (r & k & c1 & s1 & E & Hf & Hhs & _ & Hc1 & Hev & _ & Hstop & _); [rewrite app_nil_r; lia|lia|].
  assert (forall b eb, handles_ s1 !! b = Some eb -> (b = next /\ eb = new_handle key (HashSlice key) v 1 true) \/ (b <> next /\ handles_ s !! b = Some eb)) as Hent.
  { intros b eb Eb. destruct (decide (b ∈ take k (drop_entry r lru))) as [Hb|Hb]; [by rewrite (ev_gone _ _ _ _ _ _ Hev) in Eb|].
    rewrite (ev_same _ _ _ _ _ _ Hev), Hhs in Eb by done. destruct (decide (b = next)) as [->|Hne]; [rewrite lookup_insert_eq in Eb; left; by injection Eb|].
    rewrite lookup_insert_ne in Eb by done. right. split; [done|]. destruct r as [o|]; cbn [replaced] in Eb; [|done].
    destruct (handles_ s !! o) as [eo|] eqn:Eo; cbn [from_option] in Eb; [|done]. unfold dropped in Eb.
    destruct (idle_entry _ _ _ _ _ o eo H Eo) as [Er _]. rewrite Er in Eb. cbn in Eb. by apply lookup_delete_Some in Eb as [_ ?]. }
  assert (next ∉ lru) as Hnl by (intros Hx; apply (fresh_ext _ _ _ _ _ (ok_core _ _ _ _ Hok) Hfr); set_solver).
  assert (handles_ s1 !! next = Some (new_handle key (HashSlice key) v 1 true)) as E1.
  { rewrite (ev_same _ _ _ _ _ _ Hev), Hhs, lookup_insert_eq; [done|]. by intros Hx%elem_of_take_in%elem_of_drop_entry. }
  pose proof (ev_ok _ _ _ _ _ _ Hev) as H1. assert (drop_entry r ([] : list Z) = []) as Hd by (by destruct r). rewrite Hd in H1. cbn [app] in H1.
  assert (Forall (fun a => charge_of (handles_ s1) a = 1) (drop k (drop_entry r lru) ++ [next])) as Hch.
  { apply Forall_forall. intros a Ha%(co_known _ _ _ _ (ok_core _ _ _ _ H1)). destruct Ha as [ea Ea]. unfold charge_of. rewrite Ea. cbn.
    destruct (Hent a ea Ea) as [[_ ->]|[_ Hs]]; [done|]. by apply (si_entry _ _ _ _ _ H) in Hs as (_ & ? & _). }
  assert (zlen (drop k (drop_entry r lru)) + 1 <= capacity_ s) as Hroom.
  { destruct Hstop as [Hu| ->]; [|cbn; lia]. rewrite (co_usage _ _ _ _ (ok_core _ _ _ _ H1)), (total_ones _ _ Hch) in Hu.
    assert (length (drop k (drop_entry r lru)) <= length lru)%nat as Hl by (rewrite length_drop; destruct r; cbn; [etrans; [|apply (without_length z)]; lia|lia]).
    rewrite length_app in Hu. cbn [length] in Hu. rewrite u64_small in Hu by (unfold in_uint; lia). lia. }
  destruct (release_idle P i (next + 1) s1 _ next _ H1 E1) as (s2 & E2 & H2 & Hsub); [done|..].
  - rewrite (ev_capacity _ _ _ _ _ _ Hev), Hc1. done.
  - by rewrite (ev_capacity _ _ _ _ _ _ Hev), Hc1.
  - intros b eb Eb. destruct (Hent b eb Eb) as [[-> ->]|[_ Hs]]; [cbn; split_and!; [done..|lia|lia]|].
    apply (si_entry _ _ _ _ _ H) in Hs as (? & ? & ? & ? & ?). split_and!; [done..|lia|lia].
  - assert (forall b, is_Some (handles_ s1 !! b) -> is_Some (handles_ s !! b) \/ b = next) as Hs1.
    { intros b [eb Eb]. destruct (Hent b eb Eb) as [[-> _]|[_ Hs]]; [by right|left; by eexists]. }
    eexists _, s1, s2, _. split_and!; [done|done|done|done|done|done|done|]. intros b Hb. by apply Hs1, Hsub.
Qed.

Lemma shard_erase P i next s lru key :
  shard_idle P i next s lru -> Z.to_nat (Shard (HashSlice key)) = i ->
  exists s1 lru1, LRUCache_Erase s key (HashSlice key) = Some s1 /\ shard_idle (fun k v => P k v /\ k <> key) i next s1 lru1
    /\ forall b, is_Some (handles_ s1 !! b) -> is_Some (handles_ s !! b).
Proof.
  intros H Hi. pose proof (si_ok _ _ _ _ _ H) as Hok. pose proof (si_capacity _ _ _ _ _ H) as Hcap. pose proof (si_full _ _ _ _ _ H) as Hfull.
  destruct (remove_entry_ok s lru [] _ key (HashSlice key) Hok (Hash_range key 0)) as (r & s1 & E & Hf & Hc & Hr);
    [unfold small; rewrite app_nil_r; lia|].
  rewrite LRUCache_Erase_remove, E. cbn [mbind option_bind]. exists s1.
  assert (forall b eb, handles_ s !! b = Some eb -> b ∈ lru ++ []) as Hall by (intros b eb Eb; rewrite app_nil_r; by apply (idle_entry _ _ _ _ _ b eb H)).
  destruct r as [a|].
  - destruct Hr as (H1 & e & Ea & Hhs & _). destruct (idle_entry _ _ _ _ _ a e H Ea) as (Er & _ & Hal).
    unfold dropped in Hhs. rewrite Er in Hhs. cbn in Hhs. exists (without a lru). split; [done|]. split; [split|].
    + exact H1.
    + by rewrite Hc.
    + rewrite Hc. pose proof (without_length a lru). lia.
    + intros b eb Eb. rewrite Hhs in Eb. apply lookup_delete_Some in Eb as [Hne Eb].
      pose proof (si_entry _ _ _ _ _ H b eb Eb) as (HP & ? & Hh & ? & ?). split_and!; [done| |done..|lia|lia].
      intros Hk. apply Hne. destruct Hf as [Hin Hna]. apply (named_unique s lru [] _ key (HashSlice key) a b Hok Hin); [by apply (Hall b eb)|done|].
      exists eb. split_and!; [done|done|by rewrite Hh, Hk].
    + intros b [eb Eb]. rewrite Hhs in Eb. apply lookup_delete_Some in Eb as [_ Eb]. by eexists.
  - destruct Hr as (H1 & Hhs & _). exists lru. split; [done|]. rewrite Hhs. split; [split|done].
    + exact H1.
    + by rewrite Hc.
    + by rewrite Hc.
    + intros b eb Eb. rewrite Hhs in Eb. pose proof (si_entry _ _ _ _ _ H b eb Eb) as (HP & ? & Hh & ? & ?). split_and!; [done| |done..|lia|lia].
      intros Hk. apply (Hf b); [by apply (Hall b eb)|]. exists eb. split_and!; [done|done|by rewrite Hh, Hk].
Qed.
(** ** The shards *)

(** No address is used in two shards. *)
Definition shards_apart (l : list (LRUCache V)) : Prop :=
  forall i j s t a, i <> j -> l !! i = Some s -> l !! j = Some t -> is_Some (handles_ s !! a) -> handles_ t !! a = None.

Record sharded_idle P (c : ShardedLRUCache V * Z) : Prop := {
  sd_length : length (shard_ c.1) = Z.to_nat kNumShards;
  sd_next : 3 <= c.2;
  sd_shard i s : shard_ c.1 !! i = Some s -> exists lru, shard_idle P i c.2 s lru;
  sd_apart : shards_apart (shard_ c.1)
}.

(** A call to a shard that adds no address, or one that is new. *)
Definition adds (n : Z) (s s' : LRUCache V) : Prop := forall b, is_Some (handles_ s' !! b) -> is_Some (handles_ s !! b) \/ b = n.

Lemma adds_nothing n s s' : (forall b, is_Some (handles_ s' !! b) -> is_Some (handles_ s !! b)) -> adds n s s'.
Proof. intros H b Hb. left. by apply H. Qed.

Lemma adds_trans n s s1 s2 : adds n s s1 -> (forall b, is_Some (handles_ s2 !! b) -> is_Some (handles_ s1 !! b)) -> adds n s s2.
Proof. intros H1 H2 b Hb. by apply H1, H2. Qed.

Lemma idle_next P c i s : sharded_idle P c -> shard_ c.1 !! i = Some s -> handles_ s !! c.2 = None.
Proof.
  intros H Hs. destruct (sd_shard _ _ H i s Hs) as [lru Hi]. destruct (handles_ s !! c.2) eqn:E; [|done].
  apply (si_entry _ _ _ _ _ Hi) in E as (_ & _ & _ & _ & Hx). lia.
Qed.

Lemma shards_apart_put P c i s s' :
  sharded_idle P c -> shard_ c.1 !! i = Some s -> adds c.2 s s' -> shards_apart (<[i := s']> (shard_ c.1)).
Proof.
  intros H Hs Ha. pose proof (lookup_lt_Some _ _ _ Hs) as Hlt. assert (forall j t, j <> i -> shard_ c.1 !! j = Some t ->
    forall a, is_Some (handles_ s' !! a) -> handles_ t !! a = None) as Hone.
  { intros j t Hj Ht a Hx. destruct (Ha a Hx) as [Hy| ->]; [by apply (sd_apart _ _ H i j s t a)|by apply (idle_next P c j)]. }
  intros j k u t a Hjk Hu Ht Hx. destruct (decide (j = i)) as [->|Hj], (decide (k = i)) as [->|Hk]; [done|..].
  - rewrite list_lookup_insert_eq in Hu by done. injection Hu as <-. rewrite list_lookup_insert_ne in Ht by done. by apply (Hone k).
  - rewrite list_lookup_insert_eq in Ht by done. injection Ht as <-. rewrite list_lookup_insert_ne in Hu by done.
    destruct (handles_ s' !! a) eqn:E; [|done]. rewrite (Hone j u Hj Hu a) in Hx by done. by destruct Hx.
  - rewrite list_lookup_insert_ne in Hu, Ht by done. by apply (sd_apart _ _ H j k u t a).
Qed.

Lemma shard_mono P Q i n n' s lru :
  (forall k v, Z.to_nat (Shard (HashSlice k)) = i -> P k v -> Q k v) -> n <= n' -> shard_idle P i n s lru -> shard_idle Q i n' s lru.
Proof.
  intros HPQ Hn [H1 H2 H3 H4]. split; [done..|]. intros a e E. destruct (H4 a e E) as (? & ? & Hh & ? & ?).
  split_and!; [apply HPQ; [by rewrite <- Hh|done]|done..|lia|lia].
Qed.

Lemma idle_put P Q c i s s' lru' n :
  sharded_idle P c -> shard_ c.1 !! i = Some s -> c.2 <= n -> adds c.2 s s' -> shard_idle Q i n s' lru' ->
  (forall j k v, j <> i -> Z.to_nat (Shard (HashSlice k)) = j -> P k v -> Q k v) ->
  sharded_idle Q ({| shard_ := <[i := s']> (shard_ c.1); last_id_ := last_id_ c.1 |}, n).
Proof.
  intros H Hs Hn Ha Hs' HPQ. pose proof (lookup_lt_Some _ _ _ Hs) as Hlt. split; cbn [fst snd shard_].
  - rewrite length_insert. apply (sd_length _ _ H).
  - pose proof (sd_next _ _ H). lia.
  - intros j t Ht. destruct (decide (j = i)) as [->|Hj].
    + rewrite list_lookup_insert_eq in Ht by done. injection Ht as <-. by exists lru'.
    + rewrite list_lookup_insert_ne in Ht by done. destruct (sd_shard _ _ H j t Ht) as [lru Hl]. exists lru.
      revert Hl. apply shard_mono; [|done]. intros k v. by apply HPQ.
  - by apply (shards_apart_put P _ i s).
Qed.

Lemma idle_shard P c key : sharded_idle P c -> exists s lru, shard_ c.1 !! Z.to_nat (Shard (HashSlice key)) = Some s
  /\ shard_idle P (Z.to_nat (Shard (HashSlice key))) c.2 s lru.
Proof.
  intros H. destruct (lookup_lt_is_Some_2 (shard_ c.1) (Z.to_nat (Shard (HashSlice key)))) as [s Hs].
  { rewrite (sd_length _ _ H). apply Shard_lt, Hash_range. }
  destruct (sd_shard _ _ H _ s Hs) as [lru Hl]. by exists s, lru.
Qed.

(** The value behind a handle that one call gave, and giving it back. *)
Lemma held_handle P c key s s1 s2 h e :
  sharded_idle P c -> shard_ c.1 !! Z.to_nat (Shard (HashSlice key)) = Some s -> adds c.2 s s1 ->
  handles_ s1 !! h = Some e -> lh_hash e = HashSlice key -> LRUCache_Release s1 h = Some s2 ->
  let i := Z.to_nat (Shard (HashSlice key)) in let c1 := {| shard_ := <[i := s1]> (shard_ c.1); last_id_ := last_id_ c.1 |} in
  Cache_Value c1 h = Some (lh_value e)
  /\ Cache_Release c1 h = Some {| shard_ := <[i := s2]> (shard_ c.1); last_id_ := last_id_ c.1 |}.
Proof.
  intros H Hs Ha E Hh Hr i c1. pose proof (lookup_lt_Some _ _ _ Hs) as Hlt. fold i in Hs, Hlt.
  assert (shard_ c1 !! i = Some s1) as H1 by (by apply list_lookup_insert_eq).
  assert (find_handle c1 h = Some e) as Hf.
  { apply (find_handle_one _ i s1); [done..|]. intros j t Hj Ht. by apply (shards_apart_put P c i s s1 H Hs Ha i j s1 t h). }
  unfold Cache_Value, Cache_Release. rewrite Hf. split; [done|]. cbn [mbind option_bind]. unfold on_shard. rewrite Hh. fold i.
  rewrite H1. cbn [mbind option_bind]. rewrite Hr. cbn. by rewrite list_insert_insert_eq.
Qed.
End Idle.

#[export] Instance Sharded_Cache_law (V : Type) : CacheLaw (ShardedLRUCache V * Z) V sharded_idle.
Proof.
  split.
  - intros P c key H. destruct (idle_shard P c key H) as (s & lru & Hs & Hi).
    destruct (shard_lookup P _ c.2 s lru key Hi) as (r & s1 & E & Hr).
    cbn [cache_lookup Sharded_Cache]. unfold Cache_Lookup, on_shard. rewrite Hs. cbn [mbind option_bind]. rewrite E. cbn [mbind option_bind].
    eexists r, _. split; [done|]. destruct r as [h|].
    + destruct Hr as (e & s2 & lru2 & E1 & Hh & HP & E2 & H2 & Hs1 & Hs2).
      destruct (held_handle P c key s s1 s2 h e H Hs (adds_nothing _ _ _ Hs1) E1 Hh E2) as [Hv Hrel].
      eexists (lh_value e), _. cbn [cache_value cache_release Sharded_Cache fst snd]. rewrite Hrel. split_and!; [done|done|done|].
      by apply (idle_put P P c _ s s2 lru2 c.2 H Hs (Z.le_refl _) (adds_nothing _ _ _ Hs2) H2).
    + subst s1. by apply (idle_put P P c _ s s lru c.2 H Hs (Z.le_refl _) (adds_nothing _ _ _ (fun b Hb => Hb)) Hi).
  - intros P c key v H HP. destruct (idle_shard P c key H) as (s & lru & Hs & Hi).
    destruct (shard_insert P _ c.2 s lru key v Hi HP eq_refl (sd_next _ _ H)) as (e & s1 & s2 & lru2 & E & E1 & Hh & Hv & E2 & H2 & Hs1 & Hs2).
    destruct (held_handle P c key s s1 s2 c.2 e H Hs Hs1 E1 Hh E2) as [Hval Hrel].
    cbn [cache_insert cache_value cache_release Sharded_Cache fst snd]. unfold Cache_Insert, on_shard. rewrite Hs. cbn [mbind option_bind]. rewrite E. cbn [mbind option_bind].
    eexists c.2, _, _. split; [done|]. cbn [fst snd]. rewrite Hval, Hv, Hrel. split_and!; [done|done|].
    apply (idle_put P P c _ s s2 lru2 (c.2 + 1) H Hs); [lia|done|done|done].
  - intros P c key H. destruct (idle_shard P c key H) as (s & lru & Hs & Hi).
    destruct (shard_erase P _ c.2 s lru key Hi eq_refl) as (s1 & lru1 & E & H1 & Hs1).
    cbn [cache_erase Sharded_Cache]. unfold Cache_Erase, on_shard. rewrite Hs. cbn [mbind option_bind]. rewrite E. cbn [mbind option_bind fmap option_fmap option_map snd].
    eexists. split; [done|]. apply (idle_put P _ c _ s s1 lru1 c.2 H Hs); [lia|by apply adds_nothing|done|].
    intros j k v Hj Hk HPk. split; [done|]. by intros ->.
  - intros P Q c HPQ [H1 H2 H3 H4]. split; [done..| |done]. intros i s Hs. destruct (H3 i s Hs) as [lru Hl]. exists lru.
    revert Hl. apply shard_mono; [|done]. intros k v _. apply HPQ.
Qed.

(** A new cache is idle. *)
Lemma NewLRUCache_idle {V : Type} (P : bytes -> V -> Prop) capacity :
  0 < capacity < 2 ^ 34 -> exists c, cache_new (Cache := Sharded_Cache V) capacity = Some c /\ sharded_idle P c.
Proof.
  intros Hc. cbn [cache_new Sharded_Cache]. unfold NewLRUCache, ShardedLRUCache_new. set (n := u64 _ / kNumShards).
  assert (0 < n < 2 ^ 31 - 1) as Hn.
  { unfold n. change kNumShards with 16. unfold u64. rewrite Z.mod_small by lia. split; [apply Z.div_str_pos; lia|apply Z.div_lt_upper_bound; lia]. }
  destruct (LRUCache_new_ok (V := V) n) as (s & -> & H & Hs & Hh & _). cbn [mbind option_bind]. eexists. split; [done|].
  split; cbn [fst snd shard_]; [done|done| |].
  - intros i t [-> _]%lookup_replicate. exists []. split; [done|by rewrite Hs|rewrite Hs; cbn; lia|].
    intros a e E. by rewrite Hh in E.
  - intros i j u t a _ [-> _]%lookup_replicate [-> _]%lookup_replicate. rewrite Hh. by intros [? ?].
Qed.

(** * The block cache, as tables use it

    The key of a block is made of the identifier of its table and its place in the
    file.  [own id off blk]: what the client allows to be found under such a key.  An
    identifier that is given out is new, or a [dead] one, under which nothing is found:
    64 bits do not suffice for new ones forever.  (The counter of [cache.cc] wraps
    instead.) *)
Definition block_key (id off : Z) : bytes := EncodeFixed64 id ++ EncodeFixed64 off.

Definition owned (own : Z -> Z -> Block -> Prop) (id : Z) (Q : Z -> Block -> Prop) : Z -> Z -> Block -> Prop :=
  fun i => if decide (i = id) then Q else own i.

Class BlockCacheLaw (B : Type) {BC : BlockCache B} (blocks : (Z -> Z -> Block -> Prop) -> B -> Prop) (given : B -> Z -> Prop)
    (dead : Z -> Prop) : Prop := {
  bc_find_law own b id off blk :
    blocks own b -> given b id -> in_uint 64 off -> bc_find b (block_key id off) = Some blk -> ~ dead id /\ own id off blk;
  bc_none_law own b : blocks own b -> blocks own (bc_read b None) /\ forall i, given b i -> given (bc_read b None) i;
  bc_insert_law own b id off blk :
    blocks own b -> given b id -> in_uint 64 off -> dead id \/ own id off blk ->
    let b' := bc_read b (Some (block_key id off, blk)) in blocks own b' /\ forall i, given b i -> given b' i;
  bc_new_id_law own b id b' :
    blocks own b -> bc_new_id b = (id, b') ->
    given b' id /\ (forall i, given b i -> given b' i)
    /\ ((dead id /\ blocks own b') \/ (~ given b id /\ forall Q, blocks (owned own id Q) b'))
}.

(** * The table cache finds the entries of its files *)
Section Getter.
Context {E Sq R : Type} {EV : Env E Sq R} {RF : RandomAccessFile R} {SN : Snappy} {SL : SnappyLaw SN}.
Context {C B : Type} {CA : Cache C (Table R)} {BC : BlockCache B}.
Context {idle : (bytes -> Table R -> Prop) -> C -> Prop} {CLaw : CacheLaw C (Table R) idle}.
Context {blocks : (Z -> Z -> Block -> Prop) -> B -> Prop} {given : B -> Z -> Prop} {dead : Z -> Prop} {BLaw : BlockCacheLaw B blocks given dead}.
Context {U : Comparator} {uvalid : bytes -> Prop} {uorder : bytes -> bytes -> Z} {UL : ComparatorLaw U uvalid uorder}.
#[local] Abbreviation ivalid := (ikey_valid uvalid).
#[local] Abbreviation iorder := (ikey_order uorder).
Context (o : Options) (Ho : internal_options (U := U) (uvalid := uvalid) (uorder := uorder) o)
  (Hname : forall P, filter_policy o = Some P -> Forall is_byte (FilterPolicy_Name (FilterPolicy := P))).
Context (dbname : bytes) (entries : FileRef -> list (bytes * bytes)) (live : FileRef -> Prop).
Context (live_number : forall f f', live f -> live f' -> EncodeFixed64 (f_number f) = EncodeFixed64 (f_number f') -> entries f = entries f').
#[local] Instance o_comparator : ComparatorLaw (comparator o) ivalid iorder := internal_comparator_law o Ho.

(** The file [g] is a table with the entries of [f]. *)
Record file_of (f : FileRef) (g : R) (c : bytes) (done : list wblock) (ixs : list (bytes * bytes)) (footer : Footer) : Prop := {
  fl_reads : RandomAccessFileLaw RF g c;
  fl_table : table_file o (valid := ivalid) (order := iorder) c done ixs footer;
  fl_entries : wb_entries done = entries f
}.

Definition on_disk (e : E) (f : FileRef) : Prop :=
  exists s g c done ixs footer, open_table_file e dbname (f_number f) = (s, Some g) /\ Status_ok s = true
    /\ file_of f g c done ixs footer /\ zlen c = f_size f.

Context (placed : E -> FileRef -> Prop) (placed_opens : forall e f, live f -> placed e f -> on_disk e f).

(** The block of the file at a place. *)
Definition block_of (done : list wblock) (off : Z) (blk : Block) : Prop :=
  exists b, b ∈ done /\ bh_offset (wb_handle b) = off /\ Block_new (wb_contents b) = Some blk.

(** What may be in the block cache for a table with the blocks [done]. *)
Definition own_blocks (bs : option B) (own : Z -> Z -> Block -> Prop) (id : Z) (done : list wblock) : Prop :=
  match bs with
  | None => True
  | Some b => given b id /\ (dead id \/ forall off blk, own id off blk <-> block_of done off blk)
  end.

(** A table that reads [f]. *)
Definition serves (bs : option B) (own : Z -> Z -> Block -> Prop) (v : Table R) (f : FileRef) : Prop :=
  exists g c done ixs footer, file_of f g c done ixs footer /\ opened o g done ixs v /\ own_blocks bs own (t_cache_id v) done.

Definition cached (bs : option B) (own : Z -> Z -> Block -> Prop) (key : bytes) (v : Table R) : Prop :=
  forall f, live f -> key = EncodeFixed64 (f_number f) -> serves bs own v f.

Record caches_ok (t : TableCache C B) (own : Z -> Z -> Block -> Prop) : Prop := {
  cs_name : tc_dbname t = dbname;
  cs_options : tc_options t = o;
  cs_blocks b : tc_blocks t = Some b -> blocks own b;
  cs_tables : idle (cached (tc_blocks t) own) (tc_cache t)
}.

(** The files are there, and what is cached is what is in them. *)
Definition tables_good (tc : E * TableCache C B) : Prop := (forall f, live f -> placed tc.1 f) /\ exists own, caches_ok tc.2 own.

(** More identifiers, and the same owners of the old ones. *)
Definition more_ids (bs bs' : option B) (own own' : Z -> Z -> Block -> Prop) : Prop :=
  forall b', bs' = Some b' -> exists b, bs = Some b /\ forall i, given b i -> given b' i /\ own' i = own i.

Lemma serves_more bs bs' own own' v f : more_ids bs bs' own own' -> serves bs own v f -> serves bs' own' v f.
Proof.
  intros H (g & c & done & ixs & footer & Hf & Hop & Hb). exists g, c, done, ixs, footer. split_and!; [done..|].
  destruct bs' as [b'|]; [|done]. destruct (H b' eq_refl) as (b & -> & Hi). destruct Hb as [Hg Hb]. destruct (Hi _ Hg) as [Hg' E']. split; [done|]. by rewrite E'.
Qed.

Lemma cached_more bs bs' own own' key v : more_ids bs bs' own own' -> cached bs own key v -> cached bs' own' key v.
Proof. intros H Hc f Hf Hk. apply (serves_more bs bs' own own'); [done|]. by apply Hc. Qed.

Lemma serves_cached bs own v f : live f -> serves bs own v f -> cached bs own (EncodeFixed64 (f_number f)) v.
Proof.
  intros Hf (g & c & done & ixs & footer & [F1 F2 F3] & Hop & Hb) f' Hf' Hk. exists g, c, done, ixs, footer. split_and!; [|done..].
  split; [done..|]. by rewrite <- (live_number f f').
Qed.

(** The blocks found for a table that reads [f]. *)
Lemma block_in_uint c done ixs footer b :
  table_file o (valid := ivalid) (order := iorder) c done ixs footer -> b ∈ done -> in_uint 64 (bh_offset (wb_handle b)).
Proof.
  intros T Hb. destruct (proj1 (Forall_forall _ _) (tf_blocks _ _ _ _ _ T) b Hb) as (_ & _ & [[H _] _]). unfold in_uint. lia.
Qed.

Lemma own_coherent t own (v : Table R) c done ixs footer :
  caches_ok t own -> table_file o (valid := ivalid) (order := iorder) c done ixs footer ->
  own_blocks (tc_blocks t) own (t_cache_id v) done -> blocks_coherent done (bc_find <$> tc_blocks t) v.
Proof.
  intros Ht T Hown lookup b blk El Hb Hf. pose proof (cs_blocks t own Ht) as Hbs. unfold own_blocks in Hown.
  destruct (tc_blocks t) as [bs|]; [|done]. injection El as <-. destruct Hown as [Hg Hd].
  destruct (bc_find_law own bs (t_cache_id v) (bh_offset (wb_handle b)) blk (Hbs bs eq_refl) Hg (block_in_uint c done ixs footer b T Hb) Hf) as [Hnd Ho'].
  destruct Hd as [|Hd]; [done|]. apply Hd in Ho' as (b' & Hb' & Eo & Eb). by rewrite (block_offset_inj o c done ixs footer T b b').
Qed.

(** ** Finding a table *)

(** After giving the handle back, everything is as good as before. *)
Record found_table (e : E) (f : FileRef) (h : Z) (t : TableCache C B) (v : Table R) (own : Z -> Z -> Block -> Prop) (c : C) : Prop := {
  ft_value : cache_value (tc_cache t) h = Some v;
  ft_serves : serves (tc_blocks t) own v f;
  ft_release : cache_release (tc_cache t) h = Some c;
  ft_caches : caches_ok (with_tables t c) own
}.

Lemma new_cache_id_ok t own done :
  caches_ok t own -> exists id bs own', new_cache_id t = (id, bs) /\ more_ids (tc_blocks t) bs own own' /\ own_blocks bs own' id done
    /\ forall b, bs = Some b -> blocks own' b.
Proof.
  intros Ht. unfold new_cache_id. destruct (tc_blocks t) as [b|] eqn:Eb; [|by exists 0, None, own].
  destruct (bc_new_id b) as [id b'] eqn:Ei. destruct (bc_new_id_law own b id b' (cs_blocks t own Ht b Eb) Ei) as (Hg & Hm & [[Hd Hb]|[Hn Hb]]).
  - exists id, (Some b'), own. split_and!; [done| | |by intros ? [= <-]].
    + intros ? [= <-]. exists b. split; [done|]. intros i Hi. split; [by apply Hm|done].
    + split; [done|by left].
  - exists id, (Some b'), (owned own id (block_of done)). split_and!; [done| | |intros ? [= <-]; apply Hb].
    + intros ? [= <-]. exists b. split; [done|]. intros i Hi. split; [by apply Hm|]. unfold owned. by rewrite decide_False by congruence.
    + split; [done|]. right. unfold owned. by rewrite decide_True by done.
Qed.

Lemma FindTable_ok e t own f :
  placed e f -> caches_ok t own -> live f ->
  exists h t' v own' c, FindTable e t (f_number f) (f_size f) = Some (Status_OK, Some h, t') /\ found_table e f h t' v own' c.
Proof.
  intros He Ht Hf. unfold FindTable. cbv zeta.
  destruct (cache_lookup_law _ (tc_cache t) (EncodeFixed64 (f_number f)) (cs_tables t own Ht)) as (r & c1 & -> & Hr). cbn [mbind option_bind].
  destruct r as [h|].
  - destruct Hr as (v & c2 & Ev & Hv & Er & Hi). exists h, (with_tables t c1), v, own, c2. split; [done|].
    split; [done|by apply Hv|done|]. split; [apply Ht|apply Ht|apply Ht|exact Hi].
  - destruct (placed_opens e f Hf He) as (s & g & c & done & ixs & footer & Eo & Hok & [F1 F2 F3] & Hsz).
    cbn [with_tables tc_dbname tc_options]. rewrite (cs_name t own Ht), Eo, Hok. cbn [negb mbind option_bind].
    assert (caches_ok (with_tables t c1) own) as Ht1 by (split; [apply Ht|apply Ht|apply Ht|exact Hr]).
    destruct (new_cache_id_ok (with_tables t c1) own done Ht1) as (id & bs & own' & -> & Hmore & Hown & Hbs).
    rewrite (cs_options t own Ht), <- Hsz.
    destruct (Table_Open_ok o (fun P => internal_policy_law o P Ho) Hname g c done ixs footer F2 id) as (v & -> & Hop & Eid). cbn [mbind option_bind].
    assert (serves bs own' v f) as Hs.
    { exists g, c, done, ixs, footer. split_and!; [by split|done|by rewrite Eid]. }
    cbn [with_blocks with_tables tc_cache tc_dbname tc_options tc_blocks].
    destruct (cache_insert_law (cached bs own') c1 (EncodeFixed64 (f_number f)) v) as (h & c2 & c3 & -> & Ev & Er & Hi).
    { revert Hr. apply cache_mono. intros k w. by apply cached_more. }
    { by apply serves_cached. }
    cbn [mbind option_bind]. eexists h, _, v, own', c3. split; [done|]. split; [done|exact Hs|done|]. split; [apply Ht|apply Ht|exact Hbs|exact Hi].
Qed.

(** A lookup in a file, and what the block cache is after it. *)
Lemma read_blocks_ok own (v : Table R) c done ixs footer b inserted :
  blocks own b -> table_file o (valid := ivalid) (order := iorder) c done ixs footer -> own_blocks (Some b) own (t_cache_id v) done ->
  (forall key blk, inserted = Some (key, blk) -> exists w, w ∈ done /\ key = cache_key v (wb_handle w) /\ Block_new (wb_contents w) = Some blk) ->
  blocks own (bc_read b inserted) /\ forall i, given b i -> given (bc_read b inserted) i.
Proof.
  intros Hb T [Hg Hd] Hins. destruct inserted as [[key blk]|]; [|by apply bc_none_law].
  destruct (Hins key blk eq_refl) as (w & Hw & -> & Ew). apply (bc_insert_law own b (t_cache_id v) (bh_offset (wb_handle w)) blk Hb Hg).
  - by apply (block_in_uint c done ixs footer).
  - destruct Hd as [|Hd]; [by left|right]. apply Hd. by exists w.
Qed.

Lemma TableCache_Get_in_ok e t options f ikey :
  tables_good (e, t) -> live f -> ivalid ikey ->
  exists r t', TableCache_Get_in e t options (f_number f) (f_size f) ikey = Some (Status_OK, r, t') /\ tables_good (e, t')
    /\ found_entry (uorder := uorder) (entries f) ikey r.
Proof.
  intros [He [own Ht]] Hf Hk. cbn [fst snd] in *.
  destruct (FindTable_ok e t own f (He f Hf) Ht Hf) as (h & t1 & v & own' & c2 & Ef & [Fv (g & c & done & ixs & footer & [F1 F2 F3] & Hop & Hown) Fr Fc]).
  unfold TableCache_Get_in. rewrite Ef. cbn [mbind option_bind Status_ok Status_OK]. rewrite Fv. cbn [mbind option_bind].
  destruct (InternalGet_lookup o (fun P => internal_policy_law o P Ho) Hname g c done ixs footer F2 same_ikey (internal_scope o Ho)
    (bc_find <$> tc_blocks t1) v options ikey Hop (own_coherent _ own' v c done ixs footer Fc F2 Hown) Hk) as (r & ins & -> & Hr & Hins).
  cbn [mbind option_bind with_blocks tc_cache]. rewrite Fr. cbn [mbind option_bind]. eexists r, _. split; [done|]. split.
  - split; [exact He|]. exists own'. cbn [fst snd].
    assert (more_ids (tc_blocks t1) ((fun b => bc_read b ins) <$> tc_blocks t1) own' own'
      /\ forall b, (fun b => bc_read b ins) <$> tc_blocks t1 = Some b -> blocks own' b) as [Hm Hb].
    { pose proof (cs_blocks _ _ Fc) as Hbs. cbn [with_tables tc_blocks] in Hbs. destruct (tc_blocks t1) as [b|]; [|done].
      destruct (read_blocks_ok own' v c done ixs footer b ins (Hbs b eq_refl) F2 Hown Hins) as [H1 H2]. split.
      - intros ? [= <-]. exists b. split; [done|]. intros i Hi. split; [by apply H2|done].
      - by intros ? [= <-]. }
    split; [apply Fc|apply Fc|exact Hb|]. cbn. pose proof (cs_tables _ _ Fc) as Hi. revert Hi. apply cache_mono. intros k w. by apply cached_more.
  - destruct Hr as (i & Hi & Hr). exists i. rewrite <- F3. by split.
Qed.

#[export] Instance tables_getter :
  TableGetterLaw (uvalid := uvalid) (uorder := uorder) entries (TableCache_getter (E := E) (C := C) (B := B)) tables_good live.
Proof.
  intros [e t] options f ikey Hg Hf Hk. destruct (TableCache_Get_in_ok e t options f ikey Hg Hf Hk) as (r & t' & Eg & Hg' & Hr).
  exists r, (e, t'). cbn [TableCache_Get TableCache_getter fst snd]. by rewrite Eg.
Qed.

(** ** Iterators and eviction *)
Lemma NewIterator_caches_ok e t own f :
  placed e f -> caches_ok t own -> live f ->
  exists h v it t1 t2 own', TableCache_NewIterator e t (f_number f) (f_size f) = Some (TableEntries h v it, t1)
    /\ (forall fuel options, (length (entries f) < fuel)%nat ->
          iterates ivalid iorder (Table_Iterator fuel (bc_find <$> tc_blocks t1) v options) (entries f) it)
    /\ (forall fuel options, TableIterator_status fuel t1 options (TableEntries h v it) = Some Status_OK)
    /\ TableIterator_delete t1 (TableEntries h v it) = Some t2 /\ caches_ok t2 own'.
Proof.
  intros He Ht Hf. destruct (FindTable_ok e t own f He Ht Hf) as (h & t1 & v & own' & c2 & Ef & Fo).
  destruct Fo as [Fv (g & c & done & ixs & footer & [F1 F2 F3] & Hop & Hown) Fr Fc].
  assert (forall fuel options, (length (entries f) < fuel)%nat -> exists it, Table_NewIterator v = Some it
    /\ iterates ivalid iorder (Table_Iterator fuel (bc_find <$> tc_blocks t1) v options) (entries f) it) as Hit.
  { intros fuel options Hfuel. rewrite <- F3 in Hfuel |- *.
    destruct (Table_iterates o (fun P => internal_policy_law o P Ho) Hname g c done ixs footer F2 fuel (bc_find <$> tc_blocks t1) v options Hop
      (own_coherent _ own' v c done ixs footer Fc F2 Hown) Hfuel) as (it & Ei & _ & Hit). by exists it. }
  destruct (Hit (S (length (entries f))) ReadOptions_default ltac:(lia)) as (it & Ei & _).
  exists h, v, it, t1, (with_tables t1 c2), own'. unfold TableCache_NewIterator. rewrite Ef. cbn [mbind option_bind Status_ok Status_OK]. rewrite Fv.
  cbn [mbind option_bind]. rewrite Ei. cbn [mbind option_bind]. split; [done|]. split_and!; [| |by cbn; rewrite Fr|exact Fc].
  - intros fuel options Hfuel. destruct (Hit fuel options Hfuel) as (it' & E' & H). by assert (it' = it) as -> by congruence.
  - intros fuel options. destruct (Hit (S (length (entries f))) options ltac:(lia)) as (it' & E' & lv & at_pos & IL & Hl).
    assert (it' = it) as -> by congruence. exact (at_status (IteratorLaw := IL) it Hl).
Qed.

Lemma TableCache_NewIterator_ok e t f :
  tables_good (e, t) -> live f ->
  exists h v it t1 t2, TableCache_NewIterator e t (f_number f) (f_size f) = Some (TableEntries h v it, t1)
    /\ (forall fuel options, (length (entries f) < fuel)%nat ->
          iterates ivalid iorder (Table_Iterator fuel (bc_find <$> tc_blocks t1) v options) (entries f) it)
    /\ (forall fuel options, TableIterator_status fuel t1 options (TableEntries h v it) = Some Status_OK)
    /\ TableIterator_delete t1 (TableEntries h v it) = Some t2 /\ tables_good (e, t2).
Proof.
  intros [He [own Ht]] Hf. cbn [fst snd] in *. destruct (NewIterator_caches_ok e t own f (He f Hf) Ht Hf) as (h & v & it & t1 & t2 & own' & H1 & H2 & H3 & H4 & H5).
  exists h, v, it, t1, t2. split_and!; [done..|]. split; [exact He|]. by exists own'.
Qed.

(** Nothing is cached for the number [n]. *)
Definition caches_fresh (t : TableCache C B) own (n : Z) : Prop :=
  caches_ok t own /\ idle (fun k v => cached (tc_blocks t) own k v /\ k <> EncodeFixed64 n) (tc_cache t).

Lemma Evict_ok t own n : caches_ok t own -> exists t', Evict t n = Some t' /\ caches_fresh t' own n.
Proof.
  intros [H1 H2 H3 H4]. unfold Evict. destruct (cache_erase_law _ (tc_cache t) (EncodeFixed64 n) H4) as (c & -> & Hc). cbn [mbind option_bind].
  eexists. split; [done|]. split; [split; [done..|]|exact Hc]. cbn. revert Hc. apply cache_mono. by intros k v [? _].
Qed.
End Getter.

(** * [BuildTable] *)
Section Build.
Context {E Sq R : Type} {EV : Env E Sq R} {SF : SequentialFile Sq} {RF : RandomAccessFile R} {SN : Snappy} {SL : SnappyLaw SN}.
Context {names : E -> gmap bytes bytes} {openf : E -> gmap Z OpenFile} {unread : Sq -> bytes} {reliable : Sq -> bool} {readable : E -> Prop}.
Context {EL : EnvLaw names openf unread reliable readable} (Hread : forall e, readable e).
Context {C B : Type} {CA : Cache C (Table R)} {BC : BlockCache B}.
Context {idle : (bytes -> Table R -> Prop) -> C -> Prop} {CLaw : CacheLaw C (Table R) idle}.
Context {blocks : (Z -> Z -> Block -> Prop) -> B -> Prop} {given : B -> Z -> Prop} {dead : Z -> Prop} {BLaw : BlockCacheLaw B blocks given dead}.
Context {U : Comparator} {uvalid : bytes -> Prop} {uorder : bytes -> bytes -> Z} {UL : ComparatorLaw U uvalid uorder}.
#[local] Abbreviation ivalid := (ikey_valid uvalid).
#[local] Abbreviation iorder := (ikey_order uorder).
Context (o : Options) (Ho : internal_options (U := U) (uvalid := uvalid) (uorder := uorder) o) (Hoo : options_ok o ivalid) (dbname : bytes).
#[local] Instance build_comparator : ComparatorLaw (comparator o) ivalid iorder := internal_comparator_law o Ho.

(** The file of [f], by its name. *)
Definition table_in (entries : FileRef -> list (bytes * bytes)) (e : E) (f : FileRef) : Prop :=
  in_uint 64 (f_number f) /\ exists c done ixs footer, names e !! TableFileName dbname (f_number f) = Some c
    /\ table_file o (valid := ivalid) (order := iorder) c done ixs footer /\ wb_entries done = entries f /\ zlen c = f_size f.

Lemma table_in_opens entries e f : table_in entries e f -> on_disk (uvalid := uvalid) (uorder := uorder) o dbname entries e f.
Proof.
  intros (_ & c & done & ixs & footer & En & T & Hd & Hs). destruct (env_read_random _ _ (EnvLaw := EL) e _ c (Hread e) En) as (g & Eg & Hg).
  exists Status_OK, g, c, done, ixs, footer. unfold open_table_file. rewrite Eg. cbn [Status_ok Status_OK]. by split_and!.
Qed.

Lemma oo_names P : filter_policy o = Some P -> Forall is_byte (FilterPolicy_Name (FilterPolicy := P)).
Proof. intros HP. by apply (oo_name _ _ Hoo). Qed.
(** What a table cache is good for with other files. *)
Definition tables_ok (entries : FileRef -> list (bytes * bytes)) (live : FileRef -> Prop) : E * TableCache C B -> Prop :=
  tables_good (idle := idle) (blocks := blocks) (given := given) (dead := dead) (uvalid := uvalid) (uorder := uorder) o dbname entries live (table_in entries).

Lemma table_in_numbers entries live e f f' :
  (forall f, live f -> table_in entries e f) -> live f -> live f' -> EncodeFixed64 (f_number f) = EncodeFixed64 (f_number f') -> f_number f = f_number f'.
Proof.
  intros H Hf Hf' Eq. destruct (H f Hf) as [R1 _], (H f' Hf') as [R2 _].
  pose proof (DecodeFixed64_Encode (f_number f) [] R1) as D1. pose proof (DecodeFixed64_Encode (f_number f') [] R2) as D2.
  rewrite Eq in D1. congruence.
Qed.

Lemma tables_ok_get entries live e t options f ikey :
  (forall f f', live f -> live f' -> f_number f = f_number f' -> entries f = entries f') -> tables_ok entries live (e, t) -> live f -> ivalid ikey ->
  exists r t', TableCache_Get_in e t options (f_number f) (f_size f) ikey = Some (Status_OK, r, t') /\ tables_ok entries live (e, t')
    /\ found_entry (uorder := uorder) (entries f) ikey r.
Proof.
  intros Hnum Hg. apply (TableCache_Get_in_ok o Ho oo_names dbname entries live); [|intros e0 g _; apply table_in_opens|done].
  intros g g' Hl Hl' Eq. apply Hnum; [done..|]. by apply (table_in_numbers entries live e g g'); [apply Hg|..].
Qed.

(** ** The loop *)
Section Loop.
Context {St : Type} {I : Iterator St} {target : bytes -> Prop} {kvs : list (bytes * bytes)} {lv : St -> Prop} {at_pos : St -> nat -> Prop}.
Context {IL : IteratorLaw target iorder I kvs lv at_pos}.

Lemma build_loop_ok fuel it i (r r' : TableBuilder (E * Z)) lg :
  at_pos it i -> (i <= length kvs)%nat -> (length kvs - i <= fuel)%nat -> table_add_all r (drop i kvs) = Some r' ->
  exists it', build_loop fuel it r lg = Some (it', r', match last (drop i kvs) with Some kv => kv.1 | None => lg end) /\ lv it'.
Proof.
  revert it i r lg. induction fuel as [|fuel IH]; intros it i r lg Ha Hi Hf Hr; cbn [build_loop]; rewrite (at_valid (IteratorLaw := IL) it i Ha).
  - rewrite drop_ge in Hr |- * by lia. rewrite bool_decide_eq_false_2 by lia. injection Hr as ->. exists it.
    split; [done|]. by apply (at_live (IteratorLaw := IL) it i).
  - case_bool_decide as Hlt.
    + destruct (lookup_lt_is_Some_2 kvs i Hlt) as [kv Hkv]. destruct (at_entry_kv (IteratorLaw := IL) it i kv Ha Hkv) as [-> ->].
      cbn [mbind option_bind]. rewrite (drop_S kvs kv i Hkv) in Hr. destruct kv as [key v]. cbn [table_add_all] in Hr. cbn [fst snd].
      destruct (TableBuilder_Add r key v) as [r1|]; [|done]. cbn [mbind option_bind] in Hr |- *.
      destruct (at_next (IteratorLaw := IL) it i Ha Hlt) as (it1 & -> & Ha1). cbn [mbind option_bind].
      replace (i + 1)%nat with (S i) in Ha1 by lia. destruct (IH it1 (S i) r1 key Ha1 ltac:(lia) ltac:(lia) Hr) as (it' & -> & Hl).
      exists it'. split; [|done]. rewrite (drop_S kvs _ i Hkv). rewrite last_cons. by destruct (last (drop (S i) kvs)).
    + rewrite drop_ge in Hr |- * by lia. injection Hr as ->. exists it. split; [done|]. by apply (at_live (IteratorLaw := IL) it i).
Qed.
End Loop.

Lemma table_add_all_kept (kept : E * Z -> E * Z -> Prop) (r r' : TableBuilder (E * Z)) kvs :
  (forall f, kept f f) -> (forall f g h, kept f g -> kept g h -> kept f h) -> (forall f data, kept f (Append f data).2) -> (forall f, kept f (Flush f).2) ->
  table_add_all r kvs = Some r' -> kept (tb_file r) (tb_file r').
Proof.
  intros K1 K2 K3 K4. revert r. induction kvs as [|[key v] kvs IH]; intros r; cbn [table_add_all]; [by intros [= <-]|].
  intros (r1 & E1 & E2)%bind_Some. apply (TableBuilder_Add_kept kept K1 K2 K3 K4) in E1. apply IH in E2. by apply (K2 _ (tb_file r1)).
Qed.

(** The builder touches its own file only. *)
Lemma builder_only_file n (r r' r2 : TableBuilder (E * Z)) kvs s :
  table_add_all r kvs = Some r' -> TableBuilder_Finish r' = Some (s, r2) -> only_file (names := names) (opened := openf) n (tb_file r) (tb_file r2).
Proof.
  intros H1 H2. assert (forall f data, only_file (names := names) (opened := openf) n f (Append f data).2) as KA.
  { intros [e0 h] d. apply wrote_only_file. apply (env_append _ _ (EnvLaw := EL)). }
  assert (forall f, only_file (names := names) (opened := openf) n f (Flush f).2) as KF.
  { intros [e0 h]. apply wrote_only_file. apply (env_flush _ _ (EnvLaw := EL)). }
  apply (only_file_trans _ _ (tb_file r')).
  - by apply (table_add_all_kept _ r r' kvs (only_file_refl n) (only_file_trans n) KA KF).
  - by apply (TableBuilder_Finish_kept _ (only_file_refl n) (only_file_trans n) KA KF) in H2.
Qed.

(** Syncing and closing a file, and the destructor. *)
Lemma close_file_ok n s e a data x0 s' e' :
  linked (names := names) (opened := openf) e a n data x0 ->
  (let '(s, e) := if Status_ok s then File_Sync e a else (s, e) in
   let '(s, e) := if Status_ok s then File_Close e a else (s, e) in (s, File_delete e a)) = (s', e') ->
  openf e' = delete a (openf e) /\ (forall m, m <> n -> names e' !! m = names e !! m)
  /\ (Status_ok s' = true -> Status_ok s = true /\ names e' !! n = Some data).
Proof.
  intros Hl H. destruct (if Status_ok s then File_Sync e a else (s, e)) as [s1 e1] eqn:E1.
  assert (only_file (names := names) (opened := openf) n (e, a) (e1, a)
    /\ (Status_ok s1 = true -> Status_ok s = true /\ handle_data openf (e1, a) = data)) as [K1 D1].
  { destruct (Status_ok s) eqn:Es; [|injection E1 as <- <-; split; [apply only_file_refl|congruence]]. split.
    - apply wrote_only_file. pose proof (env_sync _ _ (EnvLaw := EL) e a) as K. by rewrite E1 in K.
    - intros Hs. split; [done|]. destruct (env_same _ _ (EnvLaw := EL) e a s1 e1) as [-> _]; [by right|done|]. unfold handle_data. cbn. by rewrite (proj1 Hl). }
  destruct (if Status_ok s1 then File_Close e1 a else (s1, e1)) as [s2 e2] eqn:E2. injection H as <- <-.
  assert (only_file (names := names) (opened := openf) n (e, a) (e2, a)
    /\ (Status_ok s2 = true -> Status_ok s = true /\ handle_data openf (e2, a) = data)) as [K2 D2].
  { destruct (Status_ok s1) eqn:Es1; [|injection E2 as <- <-; split; [done|congruence]]. destruct (D1 eq_refl) as [D1a D1b]. split.
    - apply (only_file_trans _ _ (e1, a)); [done|]. apply wrote_only_file. pose proof (env_close _ _ (EnvLaw := EL) e1 a) as K. by rewrite E2 in K.
    - intros Hs. split; [done|]. destruct (env_same _ _ (EnvLaw := EL) e1 a s2 e2) as [-> _]; [by left|done|exact D1b]. }
  destruct K2 as [_ K2]. destruct (K2 data _ Hl) as (d & x & Hop & Hn). cbn [fst snd] in *.
  destruct (env_delete_handle _ _ (EnvLaw := EL) e2 a) as [Hn' Ho']. rewrite Hn', Ho', Hn, Hop. split_and!.
  - apply delete_insert_eq.
  - intros m Hm. by apply lookup_insert_ne.
  - intros Hs. destruct (D2 Hs) as [D2a D2b]. split; [done|]. rewrite lookup_insert_eq. unfold handle_data in D2b. cbn in D2b.
    rewrite Hop, lookup_insert_eq in D2b. cbn in D2b. by subst.
Qed.

(** ** Other files *)

(** At most the file [n] is different. *)
Definition elsewhere (e e' : E) (n : bytes) : Prop := openf e' = openf e /\ forall m, m <> n -> names e' !! m = names e !! m.

Lemma table_in_names entries e e' n f :
  (forall m, m <> TableFileName dbname n -> names e' !! m = names e !! m) -> in_uint 64 n -> f_number f <> n ->
  table_in entries e f -> table_in entries e' f.
Proof.
  intros H Hn Hne [Hf (c & done & ixs & footer & En & T)]. split; [done|]. exists c, done, ixs, footer. split; [|done].
  rewrite H; [done|]. by intros ?%TableFileName_inj.
Qed.

Lemma table_in_elsewhere entries e e' n f :
  elsewhere e e' (TableFileName dbname n) -> in_uint 64 n -> f_number f <> n -> table_in entries e f -> table_in entries e' f.
Proof. intros [_ H]. by apply table_in_names. Qed.

#[local] Abbreviation caches entries live := (caches_ok (idle := idle) (blocks := blocks) (given := given) (dead := dead)
  (uvalid := uvalid) (uorder := uorder) o dbname entries live).
#[local] Abbreviation fresh entries live := (caches_fresh (idle := idle) (blocks := blocks) (given := given) (dead := dead)
  (uvalid := uvalid) (uorder := uorder) o dbname entries live).

(** Files of which nothing is cached may be added. *)
Lemma grow_caches entries live entries' live' t own n :
  (forall g, live' g -> (live g /\ entries' g = entries g) \/ f_number g = n) -> fresh entries live t own n -> caches entries' live' t own.
Proof.
  intros H [[H1 H2 H3 _] Hi]. split; [done..|]. revert Hi. apply cache_mono. intros k v [Hc Hk] g Hg ->.
  destruct (H g Hg) as [[Hl He]| <-]; [|done]. destruct (Hc g Hl eq_refl) as (f & c & done & ixs & footer & [F1 F2 F3] & Hop & Hown).
  exists f, c, done, ixs, footer. split_and!; [|done..]. split; [done..|]. by rewrite He.
Qed.

(** Fewer files. *)
Lemma tables_fewer entries live entries' live' tc :
  (forall g, live' g -> live g /\ entries' g = entries g) -> tables_ok entries live tc -> tables_ok entries' live' tc.
Proof.
  intros H [Hp [own [H1 H2 H3 Hi]]]. split.
  - intros g Hg. destruct (H g Hg) as [Hl He]. destruct (Hp g Hl) as [Hn (c & done & ixs & footer & Hx)]. split; [done|].
    exists c, done, ixs, footer. by rewrite He.
  - exists own. split; [done..|]. revert Hi. apply cache_mono. intros k v Hc g Hg ->. destruct (H g Hg) as [Hl He].
    destruct (Hc g Hl eq_refl) as (f & c & done & ixs & footer & [F1 F2 F3] & Hop & Hown).
    exists f, c, done, ixs, footer. split_and!; [|done..]. split; [done..|]. by rewrite He.
Qed.

(** ** Tables with new numbers *)

(** No table has the entry of the numbers from [next] on: nothing is cached for them. *)
Definition entries_before (next : Z) (entries : FileRef -> list (bytes * bytes)) (f : FileRef) : list (bytes * bytes) :=
  if next <=? f_number f then [([], [])] else entries f.

Definition live_or_new (next : Z) (live : FileRef -> Prop) (f : FileRef) : Prop := live f \/ (next <= f_number f /\ in_uint 64 (f_number f)).

(** The files have numbers before [next], and the table cache is good for them and
    for new ones. *)
Record tables_before (entries : FileRef -> list (bytes * bytes)) (live : FileRef -> Prop) (e : E) (t : TableCache C B) (next : Z) : Prop := {
  tn_in f : live f -> table_in entries e f /\ f_number f < next;
  tn_number f f' : live f -> live f' -> f_number f = f_number f' -> entries f = entries f';
  tn_caches : exists own, caches (entries_before next entries) (live_or_new next live) t own
}.

Definition with_entries (entries : FileRef -> list (bytes * bytes)) (n : Z) (kvs : list (bytes * bytes)) (f : FileRef) : list (bytes * bytes) :=
  if f_number f =? n then kvs else entries f.

Lemma caches_mono entries live entries' live' t own :
  (forall bs v g, live' g -> (live g -> serves (given := given) (dead := dead) (uvalid := uvalid) (uorder := uorder) o entries bs own v g) ->
     serves (given := given) (dead := dead) (uvalid := uvalid) (uorder := uorder) o entries' bs own v g) ->
  caches entries live t own -> caches entries' live' t own.
Proof.
  intros H [H1 H2 H3 Hi]. split; [done..|]. revert Hi. apply cache_mono. intros k v Hc g Hg ->. apply H; [done|]. intros Hl. by apply (Hc g Hl).
Qed.

Lemma serves_entries entries entries' bs own v g :
  entries' g = entries g -> serves (given := given) (dead := dead) (uvalid := uvalid) (uorder := uorder) o entries bs own v g ->
  serves (given := given) (dead := dead) (uvalid := uvalid) (uorder := uorder) o entries' bs own v g.
Proof.
  intros He (f & c & done & ixs & footer & [F1 F2 F3] & Hop & Hown). exists f, c, done, ixs, footer. split_and!; [|done..]. split; [done..|]. by rewrite He.
Qed.

Lemma serves_no_key entries bs own v g :
  entries g = [([], [])] -> ~ serves (given := given) (dead := dead) (uvalid := uvalid) (uorder := uorder) o entries bs own v g.
Proof.
  intros He (f & c & done & ixs & footer & [F1 F2 F3] & _). pose proof (tf_valid _ _ _ _ _ F2) as (Hv & _). rewrite F3, He in Hv.
  apply Forall_cons in Hv as [[Hv _] _]. destruct Hv as (u & x & E0 & L & _). cbn [fst] in E0. symmetry in E0. apply app_eq_nil in E0 as [_ ->]. done.
Qed.

Lemma tables_before_ok entries live e t next : tables_before entries live e t next -> tables_ok entries live (e, t).
Proof.
  intros [H1 H2 [own H3]]. split; [intros f Hf; by apply H1|]. exists own. revert H3. apply caches_mono. intros bs v g Hg Hs.
  apply (serves_entries (entries_before next entries)); [|by apply Hs; left]. unfold entries_before. destruct (H1 g Hg) as [_ Hlt]. by rewrite (proj2 (Z.leb_gt _ _)).
Qed.

Lemma tables_before_names entries live e e' t n next :
  (forall m, m <> TableFileName dbname n -> names e' !! m = names e !! m) -> in_uint 64 n -> next <= n ->
  tables_before entries live e t next -> tables_before entries live e' t next.
Proof.
  intros He Hn Hle [H1 H2 H3]. split; [|done|done]. intros f Hf. destruct (H1 f Hf) as [Hin Hlt]. split; [|done]. apply (table_in_names _ e e' n); [done|done|lia|done].
Qed.

Lemma tables_before_next entries live e t next next' :
  next <= next' -> tables_before entries live e t next -> tables_before entries live e t next'.
Proof.
  intros Hle [H1 H2 [own H3]]. split; [|done|].
  - intros f Hf. destruct (H1 f Hf). split; [done|lia].
  - exists own. revert H3. apply caches_mono. intros bs v g Hg Hs. apply (serves_entries (entries_before next entries)).
    + unfold entries_before. destruct (Z.leb_spec next' (f_number g)); [by rewrite (proj2 (Z.leb_le _ _)) by lia|].
      destruct Hg as [Hg|[Hg _]]; [|lia]. destruct (H1 g Hg) as [_ Hlt]. by rewrite (proj2 (Z.leb_gt _ _)).
    + apply Hs. destruct Hg as [Hg|[Hg Hr]]; [by left|right]. split; [lia|done].
Qed.

(** A new table is opened, and found from then on. *)
Lemma open_new_table entries live e t n sz kvs c done ixs footer :
  tables_before entries live e t n -> in_uint 64 n -> names e !! TableFileName dbname n = Some c ->
  table_file o (valid := ivalid) (order := iorder) c done ixs footer -> wb_entries done = kvs -> zlen c = sz ->
  exists it t1 t2, TableCache_NewIterator e t n sz = Some (it, t1) /\ (forall fuel, TableIterator_status fuel t1 ReadOptions_default it = Some Status_OK)
    /\ TableIterator_delete t1 it = Some t2
    /\ tables_before (with_entries entries n kvs) (fun f => live f \/ (f_number f = n /\ f_size f = sz)) e t2 (n + 1).
Proof.
  intros [H1 H2 [own H3]] Hn En T Hd Hsz. set (entries' := entries_before (n + 1) (with_entries entries n kvs)).
  assert (forall g, f_number g <> n -> entries' g = entries_before n entries g) as Hother.
  { intros g Hg. unfold entries', entries_before, with_entries. rewrite (proj2 (Z.eqb_neq _ _) Hg).
    destruct (Z.leb_spec n (f_number g)), (Z.leb_spec (n + 1) (f_number g)); (done || lia). }
  assert (forall g, f_number g = n -> entries' g = kvs) as Hnew.
  { intros g Hg. unfold entries', entries_before, with_entries. rewrite Hg, Z.eqb_refl. by rewrite (proj2 (Z.leb_gt _ _)) by lia. }
  assert (caches entries' (live_or_new n live) t own) as H4.
  { revert H3. apply caches_mono. intros bs v g Hg Hs. destruct (Z.eq_dec (f_number g) n) as [Eg|Hne].
    - exfalso. apply (serves_no_key (entries_before n entries) bs own v g); [|by apply Hs]. unfold entries_before. by rewrite Eg, Z.leb_refl.
    - apply (serves_entries (entries_before n entries)); [by apply Hother|by apply Hs]. }
  set (f0 := {| f_addr := 0; f_meta := FileMetaData_make n sz [] [] |}).
  assert (table_in entries' e f0) as Hf0.
  { split; [done|]. exists c, done, ixs, footer. rewrite (Hnew f0) by done. by split_and!. }
  assert (forall g, live_or_new n live g -> in_uint 64 (f_number g)) as Hrange by (intros g [Hg|[_ Hg]]; [by apply H1|done]).
  destruct (NewIterator_caches_ok (idle := idle) (given := given) (dead := dead) (blocks := blocks) o Ho oo_names dbname entries' (live_or_new n live)) with
    (placed := table_in entries') (e := e) (t := t) (f := f0) (own := own) as (h & v & it & t1 & t2 & own' & E1 & _ & E2 & E3 & H5); [|by intros e0 f _; apply table_in_opens|done|done|by right; split; [reflexivity|]|].
  - intros f f' Hf Hf' Eq. assert (f_number f = f_number f') as Enum.
    { pose proof (DecodeFixed64_Encode (f_number f) [] (Hrange f Hf)) as D1. pose proof (DecodeFixed64_Encode (f_number f') [] (Hrange f' Hf')) as D2.
      rewrite Eq in D1. congruence. }
    destruct (Z.eq_dec (f_number f) n) as [Eg|Hne]; [rewrite !Hnew by congruence; done|]. rewrite !Hother by congruence. unfold entries_before. rewrite <- Enum.
    destruct (Z.leb_spec n (f_number f)); [done|]. destruct Hf as [Hf|[Hf _]]; [|lia]. destruct Hf' as [Hf'|[Hf' _]]; [|lia]. by apply H2.
  - exists (TableEntries h v it), t1, t2. split_and!; [exact E1|intros fuel; apply E2|done|]. split.
    + intros f [Hf|[Hf Hs]].
      * destruct (H1 f Hf) as [[Hr (c' & done' & ixs' & footer' & Hx)] Hlt]. split; [|lia]. split; [done|]. exists c', done', ixs', footer'.
        unfold with_entries. by rewrite (proj2 (Z.eqb_neq _ _)) by lia.
      * split; [|lia]. unfold table_in, with_entries. rewrite Hf, Hs, Z.eqb_refl. split; [done|]. by exists c, done, ixs, footer.
    + intros f f' Hf Hf' Enum. unfold with_entries. rewrite <- Enum. destruct (Z.eqb_spec (f_number f) n) as [|Hne]; [done|].
      destruct Hf as [Hf|[Hf _]]; [|done]. destruct Hf' as [Hf'|[Hf' _]]; [|congruence]. by apply H2.
    + exists own'. revert H5. apply caches_mono. intros bs w g Hg Hs. apply Hs. destruct Hg as [[Hg|[Hg Hz]]|[Hg Hr]]; [by left|right|right; split; [lia|done]].
      rewrite Hg. split; [lia|done].
Qed.

(** ** The file of a table *)
Section File.
Context (entries : FileRef -> list (bytes * bytes)) (live : FileRef -> Prop).
Context (live_number : forall f f', live f -> live f' -> f_number f = f_number f' -> entries f = entries f').

(** The file holds the table, which the table cache opens. *)
Lemma verify_table_ok e t own n sz kvs s l c done ixs footer :
  (forall f, live f -> table_in entries e f /\ f_number f <> n) -> fresh entries live t own n -> in_uint 64 n ->
  names e !! TableFileName dbname n = Some c -> table_file o (valid := ivalid) (order := iorder) c done ixs footer ->
  wb_entries done = kvs -> zlen c = sz ->
  let meta := FileMetaData_make n sz s l in
  exists it t1 t2, TableCache_NewIterator e t n sz = Some (it, t1) /\ TableIterator_status 0 t1 ReadOptions_default it = Some Status_OK
    /\ TableIterator_delete t1 it = Some t2
    /\ forall entries' live', (forall g, live' g -> (live g /\ entries' g = entries g) \/ (f_meta g = meta /\ entries' g = kvs)) -> tables_ok entries' live' (e, t2).
Proof.
  intros Hlive Hfr Hn En T Hd Hsz meta. set (live1 := fun g => live g \/ f_meta g = meta).
  set (entries1 := fun g => if f_number g =? n then kvs else entries g).
  assert (forall g, live1 g -> table_in entries1 e g) as Hin.
  { intros g [Hg|Hg]; unfold entries1.
    - destruct (Hlive g Hg) as [[Hr (c' & done' & ixs' & footer' & Hx)] Hne]. split; [done|]. exists c', done', ixs', footer'.
      by rewrite (proj2 (Z.eqb_neq _ _)).
    - assert (f_number g = n) as En' by (unfold f_number; by rewrite Hg). split; [by rewrite En'|]. exists c, done, ixs, footer.
      rewrite En', Z.eqb_refl. split_and!; [done..|]. unfold f_size. by rewrite Hg. }
  assert (caches entries1 live1 t own) as Hc.
  { apply (grow_caches entries live _ _ t own n); [|done]. intros g [Hg|Hg]; [left|right; unfold f_number; by rewrite Hg].
    split; [done|]. unfold entries1. destruct (Hlive g Hg) as [_ Hne]. by rewrite (proj2 (Z.eqb_neq _ _)). }
  destruct (TableCache_NewIterator_ok (idle := idle) (given := given) (dead := dead) (blocks := blocks) o Ho oo_names dbname entries1 live1) with
    (placed := table_in entries1) (e := e) (t := t) (f := {| f_addr := 0; f_meta := meta |}) as (h & v & it & t1 & t2 & E1 & _ & E2 & E3 & Hg).
  - intros f f' Hf Hf' Eq. pose proof (table_in_numbers entries1 live1 e f f' Hin Hf Hf' Eq) as Enum. unfold entries1. rewrite <- Enum.
    destruct (Z.eqb_spec (f_number f) n) as [|Hne]; [done|].
    destruct Hf as [Hf|Hf]; [|by destruct Hne; unfold f_number; rewrite Hf]. destruct Hf' as [Hf'|Hf']; [|by destruct Hne; rewrite Enum; unfold f_number; rewrite Hf'].
    by apply live_number.
  - intros e0 f _. apply table_in_opens.
  - split; [exact Hin|]. by exists own.
  - by right.
  - exists (TableEntries h v it), t1, t2. split_and!; [exact E1|apply E2|done|]. intros entries' live' H. revert Hg. apply tables_fewer.
    intros g Hg. unfold live1, entries1. destruct (H g Hg) as [[Hl He]|[Hm He]].
    + destruct (Hlive g Hl) as [_ Hne]. rewrite (proj2 (Z.eqb_neq _ _)) by done. by split; [left|].
    + assert (f_number g = n) as -> by (unfold f_number; by rewrite Hm). rewrite Z.eqb_refl. by split; [right|].
Qed.

(** The entries that a table is built of. *)
Record table_input (kvs : list (bytes * bytes)) : Prop := {
  ti_valid : Forall (fun kv => ivalid kv.1 /\ Forall is_byte kv.2) kvs;
  ti_ascending : ascending iorder kvs;
  ti_weight : weight kvs < 2 ^ 31;
  ti_filter (f : E * Z) r : TableBuilder_new o f ≫= (fun r => table_add_all r kvs) = Some r -> filter_small o r
}.

Lemma ascending_sublist kvs l :
  Forall (fun kv => ivalid kv.1) kvs -> ascending iorder kvs -> sublist l kvs -> ascending iorder l.
Proof.
  intros Hv Ha Hs. induction Hs as [|x l1 l2 Hs IH|x l1 l2 Hs IH]; [done|..].
  - assert (ascending iorder l1) as H1 by (apply IH; [by inversion Hv|]; intros i y z Hy Hz; by apply (Ha (S i))).
    intros [|i] y z Hy Hz; [|by apply (H1 i)]. injection Hy as <-.
    assert (z ∈ l2) as [j Hj]%list_elem_of_lookup by (apply (elem_of_sublist l1); [by eapply list_elem_of_lookup_2|done]).
    apply (ascending_lt (CL := Comparator_compare (ComparatorLaw := InternalKey_law)) (x :: l2) 0 (S j) x z Ha Hv eq_refl Hj). lia.
  - apply IH; [by inversion Hv|]. intros i y z Hy Hz. by apply (Ha (S i)).
Qed.

Lemma weight_sublist kvs l : sublist l kvs -> weight l <= weight kvs.
Proof.
  assert (forall x m, weight (x :: m) = zlen x.1 + zlen x.2 + 64 + weight m) as Hc by done.
  intros Hs. induction Hs as [|x l1 l2 Hs IH|x l1 l2 Hs IH]; [done|..]; rewrite !Hc; [lia|].
  pose proof (zlen_nonneg x.1). pose proof (zlen_nonneg x.2). lia.
Qed.

(** Without a filter, a part of the entries will do as well. *)
Lemma table_input_sublist kvs l : filter_policy o = None -> table_input kvs -> sublist l kvs -> table_input l.
Proof.
  intros Hf [H1 H2 H3 H4] Hs. split.
  - apply Forall_forall. intros kv Hkv. apply (proj1 (Forall_forall _ _) H1). by apply (elem_of_sublist l).
  - apply (ascending_sublist kvs); [|done|done]. eapply Forall_impl; [exact H1|]. by intros kv [? _].
  - pose proof (weight_sublist kvs l Hs). lia.
  - intros f r _ P rf fb c HP. congruence.
Qed.

(** The builder, from a new file to the end. *)
Lemma builder_run e a n kvs :
  table_input kvs -> linked (names := names) (opened := openf) e a n [] true ->
  exists r0 r s r' e' data, TableBuilder_new o (e, a) = Some r0 /\ table_add_all r0 kvs = Some r /\ TableBuilder_Finish r = Some (s, r')
    /\ tb_file r' = (e', a) /\ linked (names := names) (opened := openf) e' a n data (handle_idle openf (e', a))
    /\ openf e' = <[a := {| of_name := n; of_data := data; of_idle := handle_idle openf (e', a) |}]> (openf e) /\ names e' = <[n := data]> (names e)
    /\ (Status_ok s = true -> TableBuilder_FileSize r' = zlen data
          /\ exists done ixs footer, wb_entries done = kvs /\ table_file o (valid := ivalid) (order := iorder) data done ixs footer).
Proof.
  intros [I1 I2 I3 I4] Hl. destruct Hoo as [O1 O2 O3 O4].
  assert (handle_data openf (e, a) = []) as Hd by (unfold handle_data; cbn; by rewrite (proj1 Hl)).
  destruct (TableBuilder_new_ok (contents := handle_data openf) o
    (valid := ivalid) (order := iorder) O2 O3 (e, a) Hd) as (r0 & E0 & Ef0 & H0).
  destruct (table_add_all_ok (FL := env_handles _ _ (EnvLaw := EL)) o O1 O2 O3 r0 [] [] _ [] kvs H0) as (r & E1 & Hr); [by split_and!|].
  assert (filter_small o r) as Hsmall by (apply (I4 (e, a)); rewrite E0; exact E1).
  assert (exists s r', TableBuilder_Finish r = Some (s, r') /\ (Status_ok s = true -> offset_ok (contents := handle_data openf) r'
    /\ exists done ixs footer, wb_entries done = kvs /\ table_file o (valid := ivalid) (order := iorder) (handle_data openf (tb_file r')) done ixs footer)) as (s & r' & E2 & Hs).
  { destruct Hr as [Hfail|(done & xs & ms & ixs & H & Exs)].
    - destruct (TableBuilder_Finish_failed r Hfail) as (r' & E2 & Hok). exists (tb_status r'), r'. split; [done|]. unfold tb_ok in Hok. congruence.
    - destruct (TableBuilder_Finish_ok (FL := env_handles _ _ (EnvLaw := EL)) o O1 O2 O3 O4 r done xs ms ixs H Hsmall) as (s & r' & E2 & -> & Hfin).
      exists (tb_status r'), r'. split; [done|]. intros Hok. destruct (Hfin Hok) as (Hoff & done' & ixs' & footer & Ee & T). split; [done|].
      exists done', ixs', footer. split; [|done]. by rewrite Ee, Exs. }
  pose proof (builder_only_file n r0 r r' kvs s E1 E2) as [K2 K]. rewrite Ef0 in K, K2. destruct (K [] true Hl) as (data & x & Ho' & Hn').
  destruct (tb_file r') as [e' a'] eqn:Ef. cbn [fst snd] in *. subst a'.
  assert (handle_data openf (e', a) = data /\ handle_idle openf (e', a) = x) as [Hd' Hx] by (unfold handle_data, handle_idle; cbn; by rewrite Ho', lookup_insert_eq).
  exists r0, r, s, r', e', data. rewrite Hx. split_and!; [done|done|done|done| |done|done|].
  - split; [rewrite Ho'|rewrite Hn']; apply lookup_insert_eq.
  - intros Hok. destruct (Hs Hok) as [Hoff (done & ixs & footer & Ee & T)]. unfold offset_ok in Hoff. rewrite Ef, Hd' in Hoff. rewrite Hd' in T. split; [exact Hoff|].
    by exists done, ixs, footer.
Qed.

(** While entries are added. *)
Lemma builder_adds e a n kvs :
  table_input kvs -> linked (names := names) (opened := openf) e a n [] true ->
  exists r0 r, TableBuilder_new o (e, a) = Some r0 /\ tb_file r0 = (e, a) /\ table_add_all r0 kvs = Some r
    /\ (tb_failed r \/ (tb_ok r = true /\ TableBuilder_NumEntries r = zlen kvs)) /\ only_file (names := names) (opened := openf) n (e, a) (tb_file r).
Proof.
  intros [I1 I2 I3 _] Hl. destruct Hoo as [O1 O2 O3 O4].
  assert (handle_data openf (e, a) = []) as Hd by (unfold handle_data; cbn; by rewrite (proj1 Hl)).
  destruct (TableBuilder_new_ok (contents := handle_data openf) o
    (valid := ivalid) (order := iorder) O2 O3 (e, a) Hd) as (r0 & E0 & Ef0 & H0).
  destruct (table_add_all_ok (FL := env_handles _ _ (EnvLaw := EL)) o O1 O2 O3 r0 [] [] _ [] kvs H0) as (r & E1 & Hr); [by split_and!|].
  exists r0, r. split_and!; [done|done|done| |].
  - destruct Hr as [Hf|(done & xs & ms & ixs & H & Exs)]; [by left|right]. split; [apply H|]. unfold TableBuilder_NumEntries. by rewrite (th_entries _ _ _ _ _ _ H), Exs.
  - rewrite <- Ef0. apply (table_add_all_kept _ r0 r kvs (only_file_refl n) (only_file_trans n)); [| |done].
    + intros [e0 h] d. apply wrote_only_file. apply (env_append _ _ (EnvLaw := EL)).
    + intros [e0 h]. apply wrote_only_file. apply (env_flush _ _ (EnvLaw := EL)).
Qed.

(** The table is finished, and its file is closed; [e] is the environment before
    the file was opened. *)
Lemma file_finished e e0 a n kvs r0 r :
  table_input kvs -> openf e !! a = None -> openf e0 = <[a := {| of_name := n; of_data := []; of_idle := true |}]> (openf e) ->
  names e0 = <[n := []]> (names e) -> TableBuilder_new o (e0, a) = Some r0 -> table_add_all r0 kvs = Some r ->
  exists s r2 e2, TableBuilder_Finish r = Some (s, r2) /\ tb_file r2 = (e2, a) /\ (Status_ok s = true -> 0 < TableBuilder_FileSize r2)
    /\ forall s' e',
      (let '(s, e) := if Status_ok s then File_Sync e2 a else (s, e2) in
       let '(s, e) := if Status_ok s then File_Close e a else (s, e) in (s, File_delete e a)) = (s', e') ->
      elsewhere e e' n /\ (Status_ok s' = true -> Status_ok s = true
        /\ exists data done ixs footer, names e' !! n = Some data /\ zlen data = TableBuilder_FileSize r2 /\ wb_entries done = kvs
             /\ table_file o (valid := ivalid) (order := iorder) data done ixs footer).
Proof.
  intros Hin Ha Ho0 Hn0 E0 E1.
  assert (linked (names := names) (opened := openf) e0 a n [] true) as Hl0 by (split; [rewrite Ho0|rewrite Hn0]; apply lookup_insert_eq).
  destruct (builder_run e0 a n kvs Hin Hl0) as (r0' & r' & s & r2 & e2 & data & E0' & E1' & E2 & Ef & Hl2 & Ho2 & Hn2 & Hok).
  assert (r0' = r0) as -> by congruence. assert (r' = r) as -> by congruence. exists s, r2, e2. split_and!; [done|done| |].
  - intros Hs. destruct (Hok Hs) as (-> & done & ixs & footer & _ & T).
    destruct (tf_footer _ _ _ _ _ T) as [body ->]. rewrite zlen_app, footer_bytes_length. lia.
  - intros s' e' H. destruct (close_file_ok n s e2 a data _ s' e' Hl2 H) as (Ho5 & Hn5 & Hok5). split; [split|].
    + by rewrite Ho5, Ho2, Ho0, insert_insert_eq, delete_insert_id.
    + intros x Hx. rewrite Hn5 by done. rewrite Hn2, Hn0, insert_insert_eq. by apply lookup_insert_ne.
    + intros Hs'. destruct (Hok5 Hs') as [Hs Ec]. split; [done|]. destruct (Hok Hs) as (Esz & done & ixs & footer & Ed & T).
      by exists data, done, ixs, footer.
Qed.

(** ** What [BuildTable] does *)
Section Run.
Context {St : Type} {I : Iterator St} {target : bytes -> Prop} {kvs : list (bytes * bytes)} {lv : St -> Prop} {at_pos : St -> nat -> Prop}.
Context {IL : IteratorLaw target iorder I kvs lv at_pos}.

(** The outcome: the file of the table, if there are entries and no error. *)
Record built (e : E) (s : Status) (e' : E) (t' : TableCache C B) (n : Z) (meta' : FileMetaData) : Prop := {
  bt_number : number meta' = n;
  bt_elsewhere : elsewhere e e' (TableFileName dbname n);
  bt_tables : tables_ok entries live (e', t');
  bt_done : Status_ok s = true -> kvs <> [] ->
    smallest <$> Some meta' = fst <$> head kvs /\ largest <$> Some meta' = fst <$> last kvs
    /\ forall entries' live', (forall g, live' g -> (live g /\ entries' g = entries g) \/ (f_meta g = meta' /\ entries' g = kvs)) -> tables_ok entries' live' (e', t')
}.

Lemma still_ok e e' t own n :
  (forall f, live f -> table_in entries e f /\ f_number f <> n) -> in_uint 64 n -> elsewhere e e' (TableFileName dbname n) ->
  caches entries live t own -> tables_ok entries live (e', t).
Proof.
  intros Hl Hn He Hc. split; [|by exists own]. intros f Hf. destruct (Hl f Hf) as [Hin Hne]. by apply (table_in_elsewhere entries e e' n).
Qed.

Lemma elsewhere_delete e e' n : elsewhere e e' n -> elsewhere e (Env_DeleteFile e' n).2 n.
Proof.
  intros [H1 H2]. destruct (Env_DeleteFile e' n) as [s e''] eqn:Ed. apply (env_remove _ _ (EnvLaw := EL)) in Ed as [Ho' Hn']. cbn [snd].
  split; [congruence|]. intros m Hm. rewrite Hn'. destruct (Status_ok s); [rewrite lookup_delete_ne by done|]; by apply H2.
Qed.

(** A file without entries, or with an error, is deleted. *)
Lemma keep_table_drop e e' t own iter s meta n :
  (forall f, live f -> table_in entries e f /\ f_number f <> n) -> in_uint 64 n -> elsewhere e e' (TableFileName dbname n) ->
  caches entries live t own -> lv iter -> number meta = n -> Status_ok s = false \/ (kvs = [] /\ file_size meta = 0) ->
  exists e2, keep_table dbname e' t iter s meta = Some (s, e2, t, meta) /\ built e s e2 t n meta.
Proof.
  intros Hl Hn He Hc Hi Em Hs. exists (Env_DeleteFile e' (TableFileName dbname n)).2. unfold keep_table.
  rewrite (at_status (IteratorLaw := IL) iter Hi). cbn [mbind option_bind Status_ok Status_OK]. rewrite Em. split.
  - destruct Hs as [->|[_ ->]]; [done|]. by destruct (Status_ok s).
  - assert (elsewhere e (Env_DeleteFile e' (TableFileName dbname n)).2 (TableFileName dbname n)) as He2 by (by apply elsewhere_delete).
    split; [done|done|by apply (still_ok e _ t own n)|]. intros H1 H2. destruct Hs as [Hs|[Hs _]]; congruence.
Qed.

Lemma finish_keep_ok e e0 t own iter a r r0 meta first lst :
  table_input kvs -> (forall f, live f -> table_in entries e f /\ f_number f <> number meta) -> in_uint 64 (number meta) ->
  fresh entries live t own (number meta) ->
  openf e !! a = None -> openf e0 = <[a := {| of_name := TableFileName dbname (number meta); of_data := []; of_idle := true |}]> (openf e) ->
  names e0 = <[TableFileName dbname (number meta) := []]> (names e) ->
  TableBuilder_new o (e0, a) = Some r0 -> table_add_all r0 kvs = Some r -> lv iter -> kvs <> [] -> file_size meta = 0 ->
  fst <$> head kvs = Some first -> fst <$> last kvs = Some lst ->
  exists s e' t' meta', ('(s, e, t, meta) ← finish_table t a r (meta_range meta first lst); keep_table dbname e t iter s meta) = Some (s, e', t', meta')
    /\ built e s e' t' (number meta) meta'.
Proof.
  intros Hin Hl Hn Hfr Ha Ho0 Hn0 E0 E1 Hi Hne Hsz Hfst Hlst. set (n := number meta) in *. set (nm := TableFileName dbname n) in *.
  destruct (file_finished e e0 a nm kvs r0 r Hin Ha Ho0 Hn0 E0 E1) as (s & r2 & e2 & E2 & Ef & Hsize & Hclose).
  unfold finish_table. rewrite E2. cbn [mbind option_bind]. set (m := meta_range meta first lst). set (m1 := if Status_ok s then _ else m).
  assert (Status_ok s = true -> m1 = FileMetaData_make n (TableBuilder_FileSize r2) first lst) as Hm1 by (unfold m1; by intros ->).
  assert (Status_ok s && (file_size m1 <=? 0) = false) as ->.
  { destruct (Status_ok s); [|done]. rewrite (Hm1 eq_refl). specialize (Hsize eq_refl). cbn. lia. }
  rewrite Ef.
  destruct (if Status_ok s then File_Sync e2 a else (s, e2)) as [s3 e3]. destruct (if Status_ok s3 then File_Close e3 a else (s3, e3)) as [s4 e4].
  cbv zeta. destruct (Hclose _ _ eq_refl) as (He5 & Hok5). clear Hclose. set (e5 := File_delete e4 a) in *.
  assert (number m1 = n) as Em1 by (unfold m1; by destruct (Status_ok s)).
  destruct (Status_ok s4) eqn:Es4.
  2:{ cbn [mbind option_bind]. destruct (keep_table_drop e e5 t own iter s4 m1 n Hl Hn He5 (proj1 Hfr) Hi Em1) as (e6 & Ek & Hb); [by left|].
      exists s4, e6, t, m1. by rewrite Ek. }
  destruct (Hok5 eq_refl) as (Hs & data & done & ixs & footer & Ec & Esz & Ed & T). pose proof (Hm1 Hs) as Em. pose proof (Hsize Hs) as Hpos. rewrite <- Esz in Em, Hpos.
  destruct (verify_table_ok e5 t own n (zlen data) kvs first lst data done ixs footer) as (it & t1 & t2 & V1 & V2 & V3 & V4); [|done|done|done|done|done|done|].
  { intros f Hf. destruct (Hl f Hf) as [Hin' Hne']. split; [|done]. by apply (table_in_elsewhere entries e e5 n). }
  rewrite Em. cbn [number file_size FileMetaData_make]. rewrite V1. cbn [mbind option_bind]. rewrite V2. cbn [mbind option_bind]. rewrite V3. cbn [mbind option_bind].
  unfold keep_table. rewrite (at_status (IteratorLaw := IL) iter Hi). cbn [mbind option_bind Status_ok Status_OK andb file_size FileMetaData_make].
  rewrite (proj2 (Z.gtb_lt _ _) Hpos). eexists _, _, _, _. split; [done|]. split; [done|done| |].
  - apply V4. intros g Hg. left. by split.
  - intros _ _. rewrite Hfst, Hlst. split_and!; [done|done|exact V4].
Qed.

(** [BuildTable] on an iterator over [kvs]. *)
Lemma BuildTable_ok fuel e t own iter meta :
  table_input kvs -> lv iter -> (length kvs <= fuel)%nat -> in_uint 64 (number meta) ->
  (forall f, live f -> table_in entries e f /\ f_number f <> number meta) -> fresh entries live t own (number meta) ->
  not_open openf e (TableFileName dbname (number meta)) ->
  exists s e' t' meta', BuildTable fuel dbname e o t iter meta = Some (s, e', t', meta') /\ built e s e' t' (number meta) meta'.
Proof.
  intros Hin Hi Hfuel Hn Hl Hfr Hno. unfold BuildTable. cbv zeta.
  destruct (seek_first (IteratorLaw := IL) iter Hi) as (it & -> & Ha). cbn [mbind option_bind]. rewrite (at_valid (IteratorLaw := IL) it 0 Ha).
  set (m0 := meta_sized meta 0). assert (number m0 = number meta /\ file_size m0 = 0) as [En Esz] by done.
  assert (elsewhere e e (TableFileName dbname (number meta))) as Hee by done.
  case_bool_decide as Hlen.
  2:{ destruct (keep_table_drop e e t own it Status_OK m0 (number meta) Hl Hn Hee (proj1 Hfr)) as (e2 & -> & Hb);
        [by apply (at_live (IteratorLaw := IL) it 0%nat)|done|right; split; [by destruct kvs; [|cbn in Hlen; lia]|done]|]. by exists Status_OK, e2, t, m0. }
  rewrite En. destruct (NewWritableFile e (TableFileName dbname (number meta))) as [[s0 file] e0] eqn:Ew.
  apply (env_new_writable _ _ (EnvLaw := EL)) in Ew; [|done]. destruct (Status_ok s0) eqn:Es0; cbn [negb].
  2:{ destruct Ew as (_ & Hn0 & Ho0). exists s0, e0, t, m0. split; [done|]. assert (elsewhere e e0 (TableFileName dbname (number meta))) as He0.
      { split; [done|]. intros m _. by rewrite Hn0. }
      split; [done|done|by apply (still_ok e e0 t own (number meta)); [..|apply Hfr]|]. congruence. }
  destruct Ew as (a & -> & Hfree & Ho0 & Hn0). cbn [mbind option_bind].
  assert (linked (names := names) (opened := openf) e0 a (TableFileName dbname (number meta)) [] true) as Hl0 by (split; [rewrite Ho0|rewrite Hn0]; apply lookup_insert_eq).
  destruct (builder_run e0 a _ kvs Hin Hl0) as (r0 & r & _ & _ & _ & _ & E0 & E1 & _). rewrite E0. cbn [mbind option_bind].
  destruct (lookup_lt_is_Some_2 kvs 0 Hlen) as [kv0 Hkv0]. destruct (at_entry_kv (IteratorLaw := IL) it 0 kv0 Ha Hkv0) as [-> _]. cbn [mbind option_bind].
  destruct (build_loop_ok fuel it 0 r0 r (largest m0) Ha ltac:(lia) ltac:(lia) E1) as (it' & -> & Hi'). cbn [mbind option_bind]. rewrite drop_0.
  assert (kvs <> []) as Hne by (by intros ->). destruct (last kvs) as [kvl|] eqn:El; [|by apply last_None in El].
  destruct (finish_keep_ok e e0 t own it' a r r0 m0 kv0.1 kvl.1 Hin Hl Hn Hfr Hfree Ho0 Hn0 E0 E1 Hi' Hne Esz) as (s & e' & t' & meta' & Ef & Hb).
  - by rewrite head_lookup, Hkv0.
  - by rewrite El.
  - exists s, e', t', meta'. by split.
Qed.

(** C9: What BuildTable writes is what lookups find.  Let the iterator go over
    ascending internal keys, and let the table cache have nothing under the new
    number.  BuildTable returns, and at most the file of that number is different.
    Afterwards TableCache::Get finds the same entries in the other files, and, if
    there was an entry and no error, the range in the meta data is from the first to
    the last key and TableCache::Get finds, in a file of the number and the size of
    the meta data, the first entry that is not before the key: whatever is cached or
    evicted, through the filter, the index and the block cache. *)
Theorem build_table_then_get fuel e t own iter meta :
  table_input kvs -> lv iter -> (length kvs <= fuel)%nat -> in_uint 64 (number meta) ->
  (forall f, live f -> table_in entries e f /\ f_number f <> number meta) -> fresh entries live t own (number meta) ->
  not_open openf e (TableFileName dbname (number meta)) ->
  exists s e' t' meta', BuildTable fuel dbname e o t iter meta = Some (s, e', t', meta')
    /\ number meta' = number meta /\ elsewhere e e' (TableFileName dbname (number meta))
    /\ (forall g options ikey, live g -> ivalid ikey -> exists r t'',
          TableCache_Get_in e' t' options (f_number g) (f_size g) ikey = Some (Status_OK, r, t'') /\ found_entry (uorder := uorder) (entries g) ikey r)
    /\ (Status_ok s = true -> kvs <> [] ->
          Some (smallest meta') = fst <$> head kvs /\ Some (largest meta') = fst <$> last kvs
          /\ forall options ikey, ivalid ikey -> exists r t'',
               TableCache_Get_in e' t' options (number meta') (file_size meta') ikey = Some (Status_OK, r, t'') /\ found_entry (uorder := uorder) kvs ikey r).
Proof.
  intros Hin Hi Hfuel Hn Hl Hfr Hno.
  destruct (BuildTable_ok fuel e t own iter meta Hin Hi Hfuel Hn Hl Hfr Hno) as (s & e' & t' & meta' & Eb & [B1 B2 B3 B4]).
  exists s, e', t', meta'. split_and!; [done|done|done| |].
  - intros g options ikey Hg Hk. destruct (tables_ok_get entries live e' t' options g ikey live_number B3 Hg Hk) as (r & t2 & Eg & _ & Hr). by exists r, t2.
  - intros Hs Hne. destruct (B4 Hs Hne) as (Hf & Hla & Hall). split_and!; [done|done|]. intros options ikey Hk.
    set (g := {| f_addr := 0; f_meta := meta' |}).
    destruct (tables_ok_get (fun _ => kvs) (fun g => f_meta g = meta') e' t' options g ikey) as (r & t2 & Eg & _ & Hr); [done| |done|done|by exists r, t2].
    apply Hall. intros g' Hg'. by right.
Qed.
End Run.
End File.
End Build.

(** * Examples *)

(** A block cache that never evicts. *)
Record MapBlocks : Type := { mb_blocks : gmap bytes Block; mb_last : Z }.

Definition MapBlocks_new : MapBlocks := {| mb_blocks := ∅; mb_last := 0 |}.

#[export] Instance Map_BlockCache : BlockCache MapBlocks := {
  bc_new _ := Some MapBlocks_new;
  bc_find b key := mb_blocks b !! key;
  bc_read b inserted :=
    match inserted with
    | Some (key, blk) => if decide (take 8 key = EncodeFixed64 0) then b else {| mb_blocks := <[key := blk]> (mb_blocks b); mb_last := mb_last b |}
    | None => b
    end;
  bc_new_id b := if mb_last b + 1 <? 2 ^ 64 then (mb_last b + 1, {| mb_blocks := mb_blocks b; mb_last := mb_last b + 1 |}) else (0, b)
}.

Record map_blocks (own : Z -> Z -> Block -> Prop) (b : MapBlocks) : Prop := {
  mk_last : 0 <= mb_last b < 2 ^ 64;
  mk_blocks key blk : mb_blocks b !! key = Some blk -> exists id off, key = block_key id off /\ 0 < id <= mb_last b /\ in_uint 64 off /\ own id off blk
}.

Lemma block_key_inj id off id' off' :
  in_uint 64 id -> in_uint 64 off -> in_uint 64 id' -> in_uint 64 off' -> block_key id off = block_key id' off' -> id = id' /\ off = off'.
Proof.
  intros H1 H2 H3 H4 H. apply app_inj_1 in H as [Ha Hb]; [|by rewrite !EncodeFixed64_length].
  pose proof (DecodeFixed64_Encode id [] H1) as D1. pose proof (DecodeFixed64_Encode off [] H2) as D2.
  rewrite Ha, (DecodeFixed64_Encode id' []) in D1 by done. rewrite Hb, (DecodeFixed64_Encode off' []) in D2 by done. split; congruence.
Qed.

#[export] Instance Map_law : BlockCacheLaw MapBlocks map_blocks (fun b id => 0 <= id <= mb_last b) (fun id => id = 0).
Proof.
  split.
  - intros own b id off blk [H1 H2] Hid Hoff E. destruct (H2 _ _ E) as (id' & off' & Ek & Hid' & Hoff' & Ho).
    apply block_key_inj in Ek as [-> ->]; [split; [lia|done]|unfold in_uint; lia|done|unfold in_uint; lia|done].
  - intros own b H. by split.
  - intros own b id off blk [H1 H2] Hid Hoff Ho b'. unfold b'. cbn [bc_read Map_BlockCache]. case_decide as Hk; [by split|].
    assert (id <> 0) as Hne.
    { intros ->. apply Hk. unfold block_key. by rewrite take_app_length' by (by rewrite EncodeFixed64_length). }
    destruct Ho as [|Ho]; [done|]. split; [|done]. split; [done|]. intros key blk'. cbn. destruct (decide (key = block_key id off)) as [->|Hkey].
    + rewrite lookup_insert_eq. intros [= <-]. exists id, off. split_and!; [done|lia|lia|done|done].
    + rewrite lookup_insert_ne by done. apply H2.
  - intros own b id b' [H1 H2] E. cbn in E. destruct (Z.ltb_spec (mb_last b + 1) (2 ^ 64)) as [Hlt|Hge]; injection E as <- <-; cbn.
    + split_and!; [lia|lia|intros i Hi; lia|right]. split; [lia|]. intros Q. split; [cbn; lia|]. intros key blk Ek.
      destruct (H2 _ _ Ek) as (id & off & -> & Hid & Hoff & Ho). exists id, off. cbn. split_and!; [done|lia|lia|done|].
      unfold owned. by rewrite decide_False by lia.
    + split_and!; [lia|lia|done|]. by left.
Qed.

#[local] Existing Instance BytewiseComparator.
#[local] Abbreviation bytes_ok := (Forall is_byte).

Definition flush_options : Options := {|
  comparator := InternalKeyComparator BytewiseComparator; create_if_missing := true; error_if_exists := false;
  paranoid_checks := true; write_buffer_size := 4096; max_open_files := 10; block_size := 20; block_restart_interval := 2;
  max_file_size := 4096; compression := kNoCompression; reuse_logs := false; filter_policy := None |}.

Definition flush_kvs : list (bytes * bytes) :=
  [(sample_key 97 7 1, [1]); (sample_key 97 3 0, []); (sample_key 98 2 1, [2]); (sample_key 99 9 1, [3; 4])].

Definition flush_meta : FileMetaData := FileMetaData_make 7 0 [] [].

Lemma flush_options_ok : internal_options (U := BytewiseComparator) (uvalid := bytes_ok) (uorder := Slice_compare) flush_options
  /\ options_ok flush_options (ikey_valid bytes_ok).
Proof.
  split; split; try done. intros k (u & t & -> & _ & Ht & Hu). by apply Forall_app.
Qed.

Definition flush_cache (c : ShardedLRUCache (Table StringFile) * Z) : TableCache (ShardedLRUCache (Table StringFile) * Z) MapBlocks :=
  {| tc_dbname := [100]; tc_options := flush_options; tc_cache := c; tc_blocks := Some MapBlocks_new |}.

#[local] Existing Instance NoSnappy.
#[local] Instance flush_iterator : Iterator nat := ListIterator InternalKey_Compare flush_kvs.

Lemma flush_input : table_input (E := MemEnv) (Sq := StringFile) (R := StringFile) (uvalid := bytes_ok) (uorder := Slice_compare) flush_options flush_kvs.
Proof.
  split.
  - repeat (apply Forall_cons; split; [split; [by apply sample_key_valid|by repeat constructor]|]). constructor.
  - intros [|[|[|[|i]]]] x y Hx Hy; try done; injection Hx as <-; injection Hy as <-; by vm_compute.
  - by vm_compute.
  - by intros f r _ P.
Qed.

(** Four entries in three blocks, read back through both caches. *)
Lemma build_table_then_get_witness :
  exists c e' t' meta', cache_new (V := Table StringFile) 160 = Some c
    /\ BuildTable 4 [100] (MemEnv_new 1000) flush_options (flush_cache c) 0%nat flush_meta = Some (Status_OK, e', t', meta')
    /\ exists r t'', TableCache_Get_in e' t' ReadOptions_default 7 (file_size meta') (sample_key 98 5 1) = Some (Status_OK, r, t'')
         /\ found_entry (uorder := Slice_compare) flush_kvs (sample_key 98 5 1) r.
Proof.
  destruct (NewLRUCache_idle (V := Table StringFile) (fun _ _ => False) 160) as (c & Ec & Hc); [lia|]. exists c.
  pose proof (ListIterator_law InternalKey_Compare flush_kvs (CL := Comparator_compare (ComparatorLaw := InternalKey_law)) (ti_ascending _ _ flush_input)) as IL.
  assert (Forall (fun kv => ikey_valid bytes_ok kv.1) flush_kvs) as Hv by (eapply Forall_impl; [exact (ti_valid _ _ flush_input)|]; by intros kv [H _]).
  specialize (IL Hv). destruct (build_table_then_get (EL := Mem_law) (fun _ => I) (BLaw := Map_law) flush_options (proj1 flush_options_ok) (proj2 flush_options_ok) [100]
    (fun _ => []) (fun _ => False) (fun f f' Hf => False_ind _ Hf) (IL := IL)
    4 (MemEnv_new 1000) (flush_cache c) (fun _ _ _ => True) 0%nat flush_meta flush_input I)
    as (s & e' & t' & meta' & Eb & En & _ & _ & Hfound).
  - done.
  - done.
  - done.
  - assert (forall P, sharded_idle P c) as Hany by (intros P; revert Hc; by apply cache_mono).
    split; [|apply Hany]. split; [done|done| |apply Hany]. intros b [= <-]. split; [done|]. by intros key blk.
  - by intros h f.
  - assert (match cache_new (V := Table StringFile) (C := ShardedLRUCache (Table StringFile) * Z) 160 with
            | Some c => (fun r => r.1.1.1) <$> BuildTable 4 [100] (MemEnv_new 1000) flush_options (flush_cache c) 0%nat flush_meta
            | None => None
            end = Some Status_OK) as Es by (vm_compute; reflexivity).
    rewrite Ec in Es. assert (Some s = Some Status_OK) as [= ->] by (rewrite <- Es; symmetry; exact (f_equal (fmap (fun r => r.1.1.1)) Eb)). exists e', t', meta'. split; [done|]. split; [exact Eb|].
    destruct (Hfound eq_refl ltac:(done)) as (_ & _ & Hget). cbn [number flush_meta FileMetaData_make] in En. rewrite En in Hget. apply Hget. apply sample_key_valid. clear. done.
Defined.
