(* ===== verification/LdbDB.v ===== *)
(** leveldb: the database, [db_impl.h] and [db_impl.cc], and the iterators over
    tables of [version_set.cc] that it merges.

    Objects in memory are at addresses, which [new] gives out counting up: the
    tables in memory with their counts of references, versions, files, the
    requests for a manual compaction.  There is one client, which holds the mutex;
    the background thread runs when the client waits for it, or when it is called.
    [fuel] bounds the loops over entries, records and iterators.  The reports to
    the information log and the statistics of [GetProperty] are left out. *)
From stdpp Require Import base numbers option strings gmap sorting list.
From S2P Require Import Prelude LdbSlice LdbCoding LdbComparator LdbDbformat LdbEnv LdbFilename LdbLogWriter LdbLogReader LdbArena LdbSkipList LdbMemTable LdbWriteBatch LdbIterator LdbMerger LdbBlock LdbTwoLevel LdbFormat LdbTable LdbVersionEdit LdbRing LdbVersion LdbVersionSet LdbCompaction LdbManifest LdbTableCache LdbBloom LdbDBIter.
Open Scope Z_scope.

(** * Iterators over what the database holds *)

(** [MemTable::NewIterator]: a node of the skip list. *)
Definition MemTable_Iterator {U : Comparator} (m : MemTable) : Iterator Z := {|
  Valid := Iterator_Valid;
  SeekToFirst _ := Iterator_SeekToFirst (table_ m);
  SeekToLast _ := Iterator_SeekToLast (table_ m);
  Seek _ k := MemTableIterator_Seek m k;
  Next node := if Iterator_Valid node then Iterator_Next (table_ m) node else None;
  Prev node := if Iterator_Valid node then Iterator_Prev KeyComparator (table_ m) node else None;
  Key := MemTableIterator_key m;
  Value := MemTableIterator_value m;
  status _ := Some Status_OK
|}.

Definition MemTable_NewIterator (m : MemTable) : Z := nullptr.

Section Iterators.
Context {E Sq R : Type} {EV : Env E Sq R} {RF : RandomAccessFile R} {SN : Snappy}.
Context {C B : Type} {CA : Cache C (Table R)} {BC : BlockCache B} {U : Comparator}.
Context (fuel : nat).

(** An operation on the entries; an error iterator is an empty one. *)
Definition on_table (blocks : option B) (options : ReadOptions)
    (f : Iterator (TwoLevelIterator BlockIterator BlockIterator) -> TwoLevelIterator BlockIterator BlockIterator ->
         option (TwoLevelIterator BlockIterator BlockIterator))
    (g : Status -> option Status) (it : TableIterator (R := R)) : option (TableIterator (R := R)) :=
  match it with
  | TableError s => TableError <$> g s
  | TableEntries h table t => TableEntries h table <$> f (Table_Iterator fuel (bc_find <$> blocks) table options) t
  end.

Definition Table_Entries_Iterator (blocks : option B) (options : ReadOptions) : Iterator (TableIterator (R := R)) := {|
  Valid it := match it with
              | TableError s => Valid (Iterator := EmptyIterator) s
              | TableEntries _ table t => Valid (Iterator := Table_Iterator fuel (bc_find <$> blocks) table options) t
              end;
  SeekToFirst := on_table blocks options (@SeekToFirst _) (@SeekToFirst _ EmptyIterator);
  SeekToLast := on_table blocks options (@SeekToLast _) (@SeekToLast _ EmptyIterator);
  Seek it k := on_table blocks options (fun I t => Seek (Iterator := I) t k) (fun s => Seek (Iterator := EmptyIterator) s k) it;
  Next := on_table blocks options (@Next _) (@Next _ EmptyIterator);
  Prev := on_table blocks options (@Prev _) (@Prev _ EmptyIterator);
  Key it := match it with
            | TableError s => Key (Iterator := EmptyIterator) s
            | TableEntries _ table t => Key (Iterator := Table_Iterator fuel (bc_find <$> blocks) table options) t
            end;
  Value it := match it with
              | TableError s => Value (Iterator := EmptyIterator) s
              | TableEntries _ table t => Value (Iterator := Table_Iterator fuel (bc_find <$> blocks) table options) t
              end;
  status it := match it with
               | TableError s => status (Iterator := EmptyIterator) s
               | TableEntries _ table t => status (Iterator := Table_Iterator fuel (bc_find <$> blocks) table options) t
               end
|}.

(** The table that it opens stays out of the cache here: the function of a
    two-level iterator has no state. *)
Definition GetFileIterator (e : E) (t : TableCache C B) (file_value : bytes) : option (TableIterator (R := R)) :=
  if negb (zlen file_value =? 16)
  then Some (TableError (NewErrorIterator (Status_Corruption (str "FileReader invoked with unexpected value") [])))
  else
    number ← DecodeFixed64 file_value;
    size ← DecodeFixed64 (drop 8 file_value);
    fst <$> TableCache_NewIterator e t number size.

Definition LevelIterator : Type := TwoLevelIterator LevelFileNumIterator (TableIterator (R := R)).

Definition Level_Iterator (e : E) (t : TableCache C B) (options : ReadOptions) : Iterator LevelIterator :=
  TwoLevel_Iterator (II := LevelFile_Iterator) (DI := Table_Entries_Iterator (tc_blocks t) options) (GetFileIterator e t) fuel.

Definition NewConcatenatingIterator (e : E) (t : TableCache C B) (options : ReadOptions) (files : list FileRef) : option LevelIterator :=
  NewTwoLevelIterator (II := LevelFile_Iterator) (DI := Table_Entries_Iterator (tc_blocks t) options) (LevelFileNumIterator_new files).

(** The children of a merging iterator; a table in memory is at an address. *)
Inductive Child : Type :=
| MemChild (m : Z) (node : Z)
| TableChild (it : TableIterator (R := R))
| LevelChild (it : LevelIterator).

(** The same operation on each kind. *)
Section Ops.
Context (mems : gmap Z MemTable) (e : E) (t : TableCache C B) (options : ReadOptions).

#[local] Notation TI := (Table_Entries_Iterator (tc_blocks t) options).
#[local] Notation LI := (Level_Iterator e t options).

Definition child_step (f : forall S, Iterator S -> S -> option S) (c : Child) : option Child :=
  match c with
  | MemChild a node => m ← mems !! a; MemChild a <$> f Z (MemTable_Iterator m) node
  | TableChild it => TableChild <$> f _ TI it
  | LevelChild it => LevelChild <$> f _ LI it
  end.

Definition child_get {A : Type} (f : forall S, Iterator S -> S -> option A) (c : Child) : option A :=
  match c with
  | MemChild a node => m ← mems !! a; f Z (MemTable_Iterator m) node
  | TableChild it => f _ TI it
  | LevelChild it => f _ LI it
  end.

Definition Child_Iterator : Iterator Child := {|
  Valid c := default false (child_get (fun _ I s => Some (Valid (Iterator := I) s)) c);
  SeekToFirst := child_step (@SeekToFirst);
  SeekToLast := child_step (@SeekToLast);
  Seek c k := child_step (fun _ I s => Seek (Iterator := I) s k) c;
  Next := child_step (@Next);
  Prev := child_step (@Prev);
  Key := child_get (@Key);
  Value := child_get (@Value);
  status := child_get (@status)
|}.
End Ops.

(** [NewIterator] of the table cache for each file. *)
Fixpoint open_each (e : E) (t : TableCache C B) (files : list FileRef) : option (list Child * TableCache C B) :=
  match files with
  | [] => Some ([], t)
  | f :: files =>
      '(it, t) ← TableCache_NewIterator e t (f_number f) (f_size f);
      '(its, t) ← open_each e t files;
      Some (TableChild it :: its, t)
  end.

(** The levels from 1 on. *)
Fixpoint concatenate_levels (e : E) (t : TableCache C B) (options : ReadOptions) (levels : list (list FileRef)) : option (list Child) :=
  match levels with
  | [] => Some []
  | files :: levels =>
      its ← concatenate_levels e t options levels;
      if bool_decide (files = []) then Some its
      else it ← NewConcatenatingIterator e t options files; Some (LevelChild it :: its)
  end.

Definition AddIterators (e : E) (t : TableCache C B) (options : ReadOptions) (v : Version) (iters : list Child) :
    option (list Child * TableCache C B) :=
  level0 ← files_ v !! 0%nat;
  '(its, t) ← open_each e t level0;
  its' ← concatenate_levels e t options (tail (files_ v));
  Some (iters ++ its ++ its', t).

(** The iterators over one of the two lists of inputs. *)
Definition input_iterators (e : E) (t : TableCache C B) (options : ReadOptions) (level : Z) (files : list FileRef) :
    option (list Child * TableCache C B) :=
  if bool_decide (files = []) then Some ([], t)
  else if level =? 0 then open_each e t files
  else it ← NewConcatenatingIterator e t options files; Some ([LevelChild it], t).

(** The options of the reads of a compaction. *)
Definition input_options (options : Options) : ReadOptions :=
  {| verify_checksums := paranoid_checks options; fill_cache := false |}.

Definition MakeInputIterator (e : E) (t : TableCache C B) (options : Options) (c : Compaction) :
    option (MergedIterator Child * TableCache C B) :=
  let ro := input_options options in
  '(its0, t) ← input_iterators e t ro (level_ c) (inputs_0 c);
  '(its1, t) ← input_iterators e t ro (level_ c + 1) (inputs_1 c);
  let space := if level_ c =? 0 then s32 (zlen (inputs_0 c) + 1) else 2 in
  if zlen (its0 ++ its1) <=? space
  then it ← NewMergingIterator (I := Child_Iterator ∅ e t ro) (its0 ++ its1); Some (it, t) else None.

(** ** [ApproximateOffsetOf] *)
Definition file_offset (e : E) (t : TableCache C B) (f : FileRef) (ikey : bytes) : option (Z * TableCache C B) :=
  '(it, t) ← TableCache_NewIterator e t (f_number f) (f_size f);
  n ← (match it with
       | TableEntries _ table _ => key ← InternalKey_Encode ikey; ApproximateOffsetOf table key
       | TableError _ => Some 0
       end);
  t ← TableIterator_delete t it;
  Some (n, t).

Fixpoint offset_in_files (e : E) (t : TableCache C B) (level : Z) (files : list FileRef) (ikey : bytes) (result : Z) :
    option (Z * TableCache C B) :=
  match files with
  | [] => Some (result, t)
  | f :: files =>
      r ← InternalKey_Compare (f_largest f) ikey;
      if r <=? 0 then offset_in_files e t level files ikey (u64 (result + f_size f))
      else
        r ← InternalKey_Compare (f_smallest f) ikey;
        if r >? 0 then
          if level >? 0 then Some (result, t) else offset_in_files e t level files ikey result
        else
          '(n, t) ← file_offset e t f ikey;
          offset_in_files e t level files ikey (u64 (result + n))
  end.

Fixpoint offset_in_levels (e : E) (t : TableCache C B) (level : Z) (levels : list (list FileRef)) (ikey : bytes) (result : Z) :
    option (Z * TableCache C B) :=
  match levels with
  | [] => Some (result, t)
  | files :: levels =>
      '(result, t) ← offset_in_files e t level files ikey result;
      offset_in_levels e t (level + 1) levels ikey result
  end.

Definition VersionSet_ApproximateOffsetOf (e : E) (t : TableCache C B) (v : Version) (ikey : bytes) : option (Z * TableCache C B) :=
  offset_in_levels e t 0 (files_ v) ikey 0.

(** Deleting an iterator gives back the tables that were opened with it. *)
Fixpoint delete_children (t : TableCache C B) (its : list Child) : option (TableCache C B) :=
  match its with
  | [] => Some t
  | TableChild it :: its => t ← TableIterator_delete t it; delete_children t its
  | _ :: its => delete_children t its
  end.

Definition Merged_children {St : Type} (it : MergedIterator St) : list St :=
  match it with
  | MergedEmpty => []
  | MergedOne c => [c]
  | MergedMany m => omap (fun w => iter_ w) (children_ m)
  end.

Definition Merged_delete (t : TableCache C B) (it : MergedIterator Child) : option (TableCache C B) :=
  delete_children t (Merged_children it).
End Iterators.

#[global] Arguments Child : clear implicits.

(** What a merging iterator of any number of children does. *)
Section Merged.
Context {Cm : Comparator} {St : Type} (I : Iterator St).

Definition merged_step (f : forall S, Iterator S -> S -> option S) (it : MergedIterator St) : option (MergedIterator St) :=
  match it with
  | MergedEmpty => Some MergedEmpty
  | MergedOne s => MergedOne <$> f _ I s
  | MergedMany m => MergedMany <$> f _ (Merging_Iterator I) m
  end.

Definition merged_get {A : Type} (d : option A) (f : forall S, Iterator S -> S -> option A) (it : MergedIterator St) : option A :=
  match it with
  | MergedEmpty => d
  | MergedOne s => f _ I s
  | MergedMany m => f _ (Merging_Iterator I) m
  end.

Definition Merged_Iterator : Iterator (MergedIterator St) := {|
  Valid it := default false (merged_get (Some false) (fun _ I s => Some (Valid (Iterator := I) s)) it);
  SeekToFirst := merged_step (@SeekToFirst);
  SeekToLast := merged_step (@SeekToLast);
  Seek it k := merged_step (fun _ I s => Seek (Iterator := I) s k) it;
  Next it := match it with MergedEmpty => None | _ => merged_step (@Next) it end;
  Prev it := match it with MergedEmpty => None | _ => merged_step (@Prev) it end;
  Key := merged_get None (@Key);
  Value := merged_get None (@Value);
  status := merged_get (Some Status_OK) (@status)
|}.
End Merged.

(** * [DBImpl] *)

(** Keys are internal keys; [None] is a null pointer. *)
Record ManualCompaction : Type := {
  mc_level : Z;
  mc_done : bool;
  mc_begin : option bytes;
  mc_end : option bytes
}.

Section DB.
Context {E Sq R : Type} {EV : Env E Sq R} {SF : SequentialFile Sq} {RF : RandomAccessFile R} {SN : Snappy}.
Context {C B : Type} {CA : Cache C (Table R)} {BC : BlockCache B} {U : Comparator} {NC : NewChar}.
Context (fuel : nat).

(** [db_memtables] are the tables in memory that have not been deleted. *)
Record DB : Type := {
  db_e : E;
  db_options : Options;
  db_name : bytes;
  db_tables : TableCache C B;
  db_lock : option Z;
  db_shutting_down : bool;
  db_memtables : gmap Z MemTable;
  db_mem : option Z;
  db_imm : option Z;
  db_has_imm : bool;
  db_logfile : option Z;
  db_logfile_number : Z;
  db_log : option (Writer Z);
  db_seed : Z;
  db_tmp_batch : WriteBatch;
  db_snapshots : SnapshotList;
  db_pending_outputs : gset Z;
  db_scheduled : bool;
  db_manuals : gmap Z ManualCompaction;
  db_manual_compaction : option Z;
  db_versions : VersionSet;
  db_bg_error : Status;
  db_next_addr : Z
}.

Definition db_with_env (d : DB) (e : E) : DB := {|
  db_e := e; db_options := db_options d; db_name := db_name d; db_tables := db_tables d; db_lock := db_lock d;
  db_shutting_down := db_shutting_down d; db_memtables := db_memtables d; db_mem := db_mem d;
  db_imm := db_imm d; db_has_imm := db_has_imm d; db_logfile := db_logfile d;
  db_logfile_number := db_logfile_number d; db_log := db_log d; db_seed := db_seed d;
  db_tmp_batch := db_tmp_batch d; db_snapshots := db_snapshots d; db_pending_outputs := db_pending_outputs d;
  db_scheduled := db_scheduled d; db_manuals := db_manuals d; db_manual_compaction := db_manual_compaction d;
  db_versions := db_versions d; db_bg_error := db_bg_error d; db_next_addr := db_next_addr d |}.

Definition db_with_files (d : DB) (e : E) (t : TableCache C B) (s : VersionSet) : DB := {|
  db_e := e; db_options := db_options d; db_name := db_name d; db_tables := t; db_lock := db_lock d;
  db_shutting_down := db_shutting_down d; db_memtables := db_memtables d; db_mem := db_mem d;
  db_imm := db_imm d; db_has_imm := db_has_imm d; db_logfile := db_logfile d;
  db_logfile_number := db_logfile_number d; db_log := db_log d; db_seed := db_seed d;
  db_tmp_batch := db_tmp_batch d; db_snapshots := db_snapshots d; db_pending_outputs := db_pending_outputs d;
  db_scheduled := db_scheduled d; db_manuals := db_manuals d; db_manual_compaction := db_manual_compaction d;
  db_versions := s; db_bg_error := db_bg_error d; db_next_addr := db_next_addr d |}.

Definition db_with_lock (d : DB) (l : option Z) (shutting_down : bool) : DB := {|
  db_e := db_e d; db_options := db_options d; db_name := db_name d; db_tables := db_tables d; db_lock := l;
  db_shutting_down := shutting_down; db_memtables := db_memtables d; db_mem := db_mem d; db_imm := db_imm d;
  db_has_imm := db_has_imm d; db_logfile := db_logfile d; db_logfile_number := db_logfile_number d;
  db_log := db_log d; db_seed := db_seed d; db_tmp_batch := db_tmp_batch d; db_snapshots := db_snapshots d;
  db_pending_outputs := db_pending_outputs d; db_scheduled := db_scheduled d; db_manuals := db_manuals d;
  db_manual_compaction := db_manual_compaction d; db_versions := db_versions d; db_bg_error := db_bg_error d;
  db_next_addr := db_next_addr d |}.

Definition db_with_mems (d : DB) (m : gmap Z MemTable) (mem imm : option Z) (has_imm : bool) : DB := {|
  db_e := db_e d; db_options := db_options d; db_name := db_name d; db_tables := db_tables d;
  db_lock := db_lock d; db_shutting_down := db_shutting_down d; db_memtables := m; db_mem := mem;
  db_imm := imm; db_has_imm := has_imm; db_logfile := db_logfile d; db_logfile_number := db_logfile_number d;
  db_log := db_log d; db_seed := db_seed d; db_tmp_batch := db_tmp_batch d; db_snapshots := db_snapshots d;
  db_pending_outputs := db_pending_outputs d; db_scheduled := db_scheduled d; db_manuals := db_manuals d;
  db_manual_compaction := db_manual_compaction d; db_versions := db_versions d; db_bg_error := db_bg_error d;
  db_next_addr := db_next_addr d |}.

Definition db_with_log (d : DB) (file : option Z) (number : Z) (log : option (Writer Z)) : DB := {|
  db_e := db_e d; db_options := db_options d; db_name := db_name d; db_tables := db_tables d;
  db_lock := db_lock d; db_shutting_down := db_shutting_down d; db_memtables := db_memtables d;
  db_mem := db_mem d; db_imm := db_imm d; db_has_imm := db_has_imm d; db_logfile := file;
  db_logfile_number := number; db_log := log; db_seed := db_seed d; db_tmp_batch := db_tmp_batch d;
  db_snapshots := db_snapshots d; db_pending_outputs := db_pending_outputs d; db_scheduled := db_scheduled d;
  db_manuals := db_manuals d; db_manual_compaction := db_manual_compaction d; db_versions := db_versions d;
  db_bg_error := db_bg_error d; db_next_addr := db_next_addr d |}.

Definition db_with_batch (d : DB) (seed : Z) (tmp_batch : WriteBatch) : DB := {|
  db_e := db_e d; db_options := db_options d; db_name := db_name d; db_tables := db_tables d;
  db_lock := db_lock d; db_shutting_down := db_shutting_down d; db_memtables := db_memtables d;
  db_mem := db_mem d; db_imm := db_imm d; db_has_imm := db_has_imm d; db_logfile := db_logfile d;
  db_logfile_number := db_logfile_number d; db_log := db_log d; db_seed := seed; db_tmp_batch := tmp_batch;
  db_snapshots := db_snapshots d; db_pending_outputs := db_pending_outputs d; db_scheduled := db_scheduled d;
  db_manuals := db_manuals d; db_manual_compaction := db_manual_compaction d; db_versions := db_versions d;
  db_bg_error := db_bg_error d; db_next_addr := db_next_addr d |}.

Definition db_with_snapshots (d : DB) (l : SnapshotList) : DB := {|
  db_e := db_e d; db_options := db_options d; db_name := db_name d; db_tables := db_tables d;
  db_lock := db_lock d; db_shutting_down := db_shutting_down d; db_memtables := db_memtables d;
  db_mem := db_mem d; db_imm := db_imm d; db_has_imm := db_has_imm d; db_logfile := db_logfile d;
  db_logfile_number := db_logfile_number d; db_log := db_log d; db_seed := db_seed d;
  db_tmp_batch := db_tmp_batch d; db_snapshots := l; db_pending_outputs := db_pending_outputs d;
  db_scheduled := db_scheduled d; db_manuals := db_manuals d; db_manual_compaction := db_manual_compaction d;
  db_versions := db_versions d; db_bg_error := db_bg_error d; db_next_addr := db_next_addr d |}.

Definition db_with_pending (d : DB) (p : gset Z) : DB := {|
  db_e := db_e d; db_options := db_options d; db_name := db_name d; db_tables := db_tables d;
  db_lock := db_lock d; db_shutting_down := db_shutting_down d; db_memtables := db_memtables d;
  db_mem := db_mem d; db_imm := db_imm d; db_has_imm := db_has_imm d; db_logfile := db_logfile d;
  db_logfile_number := db_logfile_number d; db_log := db_log d; db_seed := db_seed d;
  db_tmp_batch := db_tmp_batch d; db_snapshots := db_snapshots d; db_pending_outputs := p;
  db_scheduled := db_scheduled d; db_manuals := db_manuals d; db_manual_compaction := db_manual_compaction d;
  db_versions := db_versions d; db_bg_error := db_bg_error d; db_next_addr := db_next_addr d |}.

Definition db_with_background (d : DB) (scheduled : bool) (error : Status) : DB := {|
  db_e := db_e d; db_options := db_options d; db_name := db_name d; db_tables := db_tables d;
  db_lock := db_lock d; db_shutting_down := db_shutting_down d; db_memtables := db_memtables d;
  db_mem := db_mem d; db_imm := db_imm d; db_has_imm := db_has_imm d; db_logfile := db_logfile d;
  db_logfile_number := db_logfile_number d; db_log := db_log d; db_seed := db_seed d;
  db_tmp_batch := db_tmp_batch d; db_snapshots := db_snapshots d; db_pending_outputs := db_pending_outputs d;
  db_scheduled := scheduled; db_manuals := db_manuals d; db_manual_compaction := db_manual_compaction d;
  db_versions := db_versions d; db_bg_error := error; db_next_addr := db_next_addr d |}.

Definition db_with_manual (d : DB) (m : gmap Z ManualCompaction) (c : option Z) : DB := {|
  db_e := db_e d; db_options := db_options d; db_name := db_name d; db_tables := db_tables d;
  db_lock := db_lock d; db_shutting_down := db_shutting_down d; db_memtables := db_memtables d;
  db_mem := db_mem d; db_imm := db_imm d; db_has_imm := db_has_imm d; db_logfile := db_logfile d;
  db_logfile_number := db_logfile_number d; db_log := db_log d; db_seed := db_seed d;
  db_tmp_batch := db_tmp_batch d; db_snapshots := db_snapshots d; db_pending_outputs := db_pending_outputs d;
  db_scheduled := db_scheduled d; db_manuals := m; db_manual_compaction := c; db_versions := db_versions d;
  db_bg_error := db_bg_error d; db_next_addr := db_next_addr d |}.

Definition db_with_next_addr (d : DB) (a : Z) : DB := {|
  db_e := db_e d; db_options := db_options d; db_name := db_name d; db_tables := db_tables d;
  db_lock := db_lock d; db_shutting_down := db_shutting_down d; db_memtables := db_memtables d;
  db_mem := db_mem d; db_imm := db_imm d; db_has_imm := db_has_imm d; db_logfile := db_logfile d;
  db_logfile_number := db_logfile_number d; db_log := db_log d; db_seed := db_seed d;
  db_tmp_batch := db_tmp_batch d; db_snapshots := db_snapshots d; db_pending_outputs := db_pending_outputs d;
  db_scheduled := db_scheduled d; db_manuals := db_manuals d; db_manual_compaction := db_manual_compaction d;
  db_versions := db_versions d; db_bg_error := db_bg_error d; db_next_addr := a |}.

(** [Ref] and [Unref] of the table in memory at [a]. *)
Definition mem_ref (d : DB) (a : Z) : option DB :=
  m ← db_memtables d !! a;
  Some (db_with_mems d (<[a := MemTable_Ref m]> (db_memtables d)) (db_mem d) (db_imm d) (db_has_imm d)).

Definition mem_unref (d : DB) (a : Z) : option DB :=
  m ← db_memtables d !! a;
  Some (db_with_mems d (match MemTable_Unref m with
                        | Some m => <[a := m]> (db_memtables d)
                        | None => delete a (db_memtables d)
                        end) (db_mem d) (db_imm d) (db_has_imm d)).

(** [new MemTable] with one reference. *)
Definition mem_new (d : DB) : option (Z * DB) :=
  m ← MemTable_new;
  let a := db_next_addr d in
  Some (a, db_with_next_addr (db_with_mems d (<[a := MemTable_Ref m]> (db_memtables d)) (db_mem d) (db_imm d) (db_has_imm d)) (a + 1)).

(** [LogAndApply] of the set of versions. *)
Definition db_LogAndApply (d : DB) (edit : VersionEdit) : option (Status * VersionEdit * DB) :=
  let a := db_next_addr d in
  let n := zlen (new_files_ edit) in
  '(st, e, s, edit) ← LogAndApply (db_e d) (db_versions d) edit a (seqZ (a + 1) n);
  Some (st, edit, db_with_next_addr (db_with_files d e (db_tables d) s) (a + 1 + n)).

Definition RecordBackgroundError (d : DB) (s : Status) : DB :=
  if Status_ok (db_bg_error d) then db_with_background d (db_scheduled d) s else d.

Definition MaybeScheduleCompaction (d : DB) : option DB :=
  if db_scheduled d then Some d
  else if db_shutting_down d then Some d
  else if negb (Status_ok (db_bg_error d)) then Some d
  else
    needs ← NeedsCompaction (db_versions d);
    if bool_decide (db_imm d = None) && bool_decide (db_manual_compaction d = None) && negb needs then Some d
    else Some (db_with_background d true (db_bg_error d)).

Definition MaybeIgnoreError (options : Options) (s : Status) : Status :=
  if Status_ok s || paranoid_checks options then s else Status_OK.

(** ** Files that nothing needs *)
Definition keep_file (d : DB) (live : gset Z) (number : Z) (type : FileType) : bool :=
  match type with
  | kLogFile => (number >=? vs_log_number (db_versions d)) || (number =? vs_prev_log_number (db_versions d))
  | kDescriptorFile => number >=? vs_manifest_file_number (db_versions d)
  | kTableFile | kTempFile => bool_decide (number ∈ live)
  | kCurrentFile | kDBLockFile | kInfoLogFile => true
  end.

Fixpoint delete_obsolete (d : DB) (live : gset Z) (filenames : list bytes) : option DB :=
  match filenames with
  | [] => Some d
  | name :: filenames =>
      d ← (match ParseFileName name with
           | Some (number, type) =>
               if keep_file d live number type then Some d
               else
                 t ← (if bool_decide (type = kTableFile) then Evict (db_tables d) number else Some (db_tables d));
                 Some (db_with_files d (Env_DeleteFile (db_e d) (db_name d ++ str "/" ++ name)).2 t (db_versions d))
           | None => Some d
           end);
      delete_obsolete d live filenames
  end.

Definition DeleteObsoleteFiles (d : DB) : option DB :=
  if negb (Status_ok (db_bg_error d)) then Some d
  else
    live ← AddLiveFiles (db_versions d) (db_pending_outputs d);
    delete_obsolete d live (GetChildren (db_e d) (db_name d)).2.

(** ** Writing a table in memory to a file *)
Definition NewFileNumber_pending (d : DB) : Z * DB :=
  let '(number, s) := NewFileNumber (db_versions d) in
  (number, db_with_pending (db_with_files d (db_e d) (db_tables d) s) ({[ number ]} ∪ db_pending_outputs d)).

Definition erase_pending (d : DB) (number : Z) : DB := db_with_pending d (db_pending_outputs d ∖ {[ number ]}).

(** The table at [mem]; [base] is a version or null. *)
Definition WriteLevel0Table (d : DB) (mem : Z) (edit : VersionEdit) (base : option Z) : option (Status * VersionEdit * DB) :=
  let '(n, d) := NewFileNumber_pending d in
  m ← db_memtables d !! mem;
  '(s, e, t, meta) ← BuildTable (I := MemTable_Iterator m) fuel (db_name d) (db_e d) (db_options d) (db_tables d)
                        (MemTable_NewIterator m) (FileMetaData_make n 0 [] []);
  let d := erase_pending (db_with_files d e t (db_versions d)) n in
  if Status_ok s && (file_size meta >? 0) then
    level ← (match base with
             | Some v =>
                 v ← vs_versions (db_versions d) !! v;
                 min_user_key ← ExtractUserKey (smallest meta);
                 max_user_key ← ExtractUserKey (largest meta);
                 PickLevelForMemTableOutput (db_options d) (files_ v) min_user_key max_user_key
             | None => Some 0
             end);
    Some (s, AddFile edit level (number meta) (file_size meta) (smallest meta) (largest meta), d)
  else Some (s, edit, d).

Definition CompactMemTable (d : DB) : option DB :=
  imm ← db_imm d;
  base ← vs_current (db_versions d);
  s ← Version_Ref (db_versions d) base;
  '(st, edit, d) ← WriteLevel0Table (db_with_files d (db_e d) (db_tables d) s) imm VersionEdit_new (Some base);
  s ← Version_Unref (db_versions d) base;
  let d := db_with_files d (db_e d) (db_tables d) s in
  let st := if Status_ok st && db_shutting_down d
            then Status_IOError (str "Deleting DB during memtable compaction") [] else st in
  '(st, d) ← (if Status_ok st then
                '(st, _, d) ← db_LogAndApply d (SetLogNumber (SetPrevLogNumber edit 0) (db_logfile_number d)); Some (st, d)
              else Some (st, d));
  if Status_ok st then
    d ← mem_unref d imm;
    DeleteObsoleteFiles (db_with_mems d (db_memtables d) (db_mem d) None false)
  else Some (RecordBackgroundError d st).

(** ** Compactions *)

(** An output file; the keys are those of the entries so far. *)
Record Output : Type := { out_number : Z; out_file_size : Z; out_smallest : bytes; out_largest : bytes }.

(** The environment in the file of [builder] is that of its last call. *)
Record CompactionState : Type := {
  compaction : Compaction;
  smallest_snapshot : Z;
  outputs : list Output;
  outfile : option Z;
  builder : option (TableBuilder (E * Z));
  total_bytes : Z
}.

Definition CompactionState_new (c : Compaction) : CompactionState := {|
  compaction := c; smallest_snapshot := 0; outputs := []; outfile := None; builder := None; total_bytes := 0 |}.

Definition cs_with_compaction (c : CompactionState) (x : Compaction) (smallest_snapshot : Z) : CompactionState := {|
  compaction := x; smallest_snapshot := smallest_snapshot; outputs := outputs c; outfile := outfile c; builder := builder c;
  total_bytes := total_bytes c |}.

Definition cs_with_output (c : CompactionState) (outs : list Output) (file : option Z) (b : option (TableBuilder (E * Z))) (total : Z) :
    CompactionState := {|
  compaction := compaction c; smallest_snapshot := smallest_snapshot c; outputs := outs; outfile := file; builder := b;
  total_bytes := total |}.

Definition builder_in (e : E) (b : TableBuilder (E * Z)) : TableBuilder (E * Z) :=
  tb_with_file b (e, (tb_file b).2) (tb_offset b) (tb_status b).

(** [current_output()->...] *)
Definition set_current_output (outs : list Output) (f : Output -> Output) : option (list Output) :=
  out ← last outs; Some (removelast outs ++ [f out]).

Definition CleanupCompaction (d : DB) (c : CompactionState) : option DB :=
  d ← (match builder c with
       | Some b => b ← TableBuilder_Abandon b; Some d
       | None => if bool_decide (outfile c = None) then Some d else None
       end);
  let d := match outfile c with Some h => db_with_env d (File_delete (db_e d) h) | None => d end in
  Some (fold_left (fun d out => erase_pending d (out_number out)) (outputs c) d).

Definition OpenCompactionOutputFile (d : DB) (c : CompactionState) : option (Status * CompactionState * DB) :=
  if bool_decide (is_Some (builder c)) then None
  else
    let '(file_number, d) := NewFileNumber_pending d in
    let outs := outputs c ++ [{| out_number := file_number; out_file_size := 0; out_smallest := []; out_largest := [] |}] in
    let '(s, file, e) := NewWritableFile (db_e d) (TableFileName (db_name d) file_number) in
    let d := db_with_env d e in
    if Status_ok s then
      file ← file;
      b ← TableBuilder_new (db_options d) (e, file);
      Some (s, cs_with_output c outs (Some file) (Some b) (total_bytes c), d)
    else Some (s, cs_with_output c outs file (builder c) (total_bytes c), d).

(** [input_status] is [input->status()]. *)
Definition FinishCompactionOutputFile (d : DB) (c : CompactionState) (input_status : Status) :
    option (Status * CompactionState * DB) :=
  file ← outfile c;
  b ← builder c;
  out ← last (outputs c);
  if out_number out =? 0 then None
  else
    let current_entries := TableBuilder_NumEntries b in
    let b := builder_in (db_e d) b in
    '(s, b) ← (if Status_ok input_status then TableBuilder_Finish b
               else b ← TableBuilder_Abandon b; Some (input_status, b));
    let current_bytes := TableBuilder_FileSize b in
    outs ← set_current_output (outputs c) (fun o =>
      {| out_number := out_number o; out_file_size := current_bytes; out_smallest := out_smallest o; out_largest := out_largest o |});
    let '(e, _) := tb_file b in
    let '(s, e) := if Status_ok s then File_Sync e file else (s, e) in
    let '(s, e) := if Status_ok s then File_Close e file else (s, e) in
    let e := File_delete e file in
    let c := cs_with_output c outs None None (u64 (total_bytes c + current_bytes)) in
    '(s, t) ← (if Status_ok s && (current_entries >? 0) then
                 '(it, t) ← TableCache_NewIterator e (db_tables d) (out_number out) current_bytes;
                 s ← TableIterator_status fuel t ReadOptions_default it;
                 t ← TableIterator_delete t it;
                 Some (s, t)
               else Some (s, db_tables d));
    Some (s, c, db_with_files d e t (db_versions d)).

Definition add_output (level : Z) (edit : VersionEdit) (out : Output) : VersionEdit :=
  AddFile edit level (out_number out) (out_file_size out) (out_smallest out) (out_largest out).

Definition with_edit (c : Compaction) (edit : VersionEdit) : Compaction := with_plan c (grandparents_ c) edit.

Definition InstallCompactionResults (d : DB) (c : CompactionState) : option (Status * CompactionState * DB) :=
  let x := compaction c in
  let edit := fold_left (add_output (level_ x + 1)) (outputs c) (AddInputDeletions x (edit_ x)) in
  '(st, edit, d) ← db_LogAndApply d edit;
  Some (st, cs_with_compaction c (with_edit x edit) (smallest_snapshot c), d).

(** *** The loop over the entries *)

(** [current_user_key], [has_current_user_key], [last_sequence_for_key]. *)
Record KeyState : Type := { current_user_key : bytes; has_current_user_key : bool; last_sequence_for_key : Z }.

Definition KeyState_none : KeyState :=
  {| current_user_key := []; has_current_user_key := false; last_sequence_for_key := kMaxSequenceNumber |}.

(** Whether the entry is dropped; [levels] are those of the input version. *)
Definition drop_key (levels : list (list FileRef)) (snapshot : Z) (x : Compaction) (k : KeyState) (key : bytes) :
    option (bool * KeyState * Compaction) :=
  match ParseInternalKey key with
  | Some (true, ikey) =>
      other ← (if has_current_user_key k then r ← Compare (user_key ikey) (current_user_key k); Some (negb (r =? 0)) else Some true);
      let k := if other : bool then {| current_user_key := user_key ikey; has_current_user_key := true;
                                       last_sequence_for_key := kMaxSequenceNumber |} else k in
      '(drop, x) ← (if last_sequence_for_key k <=? snapshot then Some (true, x)
                    else if (type ikey =? kTypeDeletion) && (sequence ikey <=? snapshot)
                    then IsBaseLevelForKey levels x (user_key ikey)
                    else Some (false, x));
      Some (drop, {| current_user_key := current_user_key k; has_current_user_key := has_current_user_key k;
                     last_sequence_for_key := sequence ikey |}, x)
  | _ => Some (false, KeyState_none, x)
  end.

(** An entry that is kept. *)
Definition add_entry (d : DB) (c : CompactionState) (key value : bytes) (input_status : Status) :
    option (Status * CompactionState * DB) :=
  '(s, c, d) ← (if bool_decide (is_Some (builder c)) then Some (Status_OK, c, d) else OpenCompactionOutputFile d c);
  if negb (Status_ok s) then Some (s, c, d)
  else
    b ← builder c;
    outs ← set_current_output (outputs c) (fun o =>
      {| out_number := out_number o; out_file_size := out_file_size o;
         out_smallest := if TableBuilder_NumEntries b =? 0 then key else out_smallest o; out_largest := key |});
    b ← TableBuilder_Add (builder_in (db_e d) b) key value;
    let d := db_with_env d (tb_file b).1 in
    let c := cs_with_output c outs (outfile c) (Some b) (total_bytes c) in
    if TableBuilder_FileSize b >=? max_output_file_size_ (compaction c)
    then FinishCompactionOutputFile d c input_status
    else Some (Status_OK, c, d).

Definition Input : Type := MergedIterator (Child R).

Definition Input_Iterator (d : DB) : Iterator Input :=
  Merged_Iterator (Cm := InternalKeyComparator U) (Child_Iterator fuel ∅ (db_e d) (db_tables d) (input_options (db_options d))).

(** One round: the table in memory first, then the entry. *)
Definition compact_entry (levels : list (list FileRef)) (d : DB) (c : CompactionState) (input : Input) (k : KeyState) :
    option (Status * CompactionState * KeyState * DB) :=
  d ← (if db_has_imm d && bool_decide (is_Some (db_imm d)) then CompactMemTable d else Some d);
  key ← Key (Iterator := Input_Iterator d) input;
  '(stop, x) ← ShouldStopBefore (db_options d) (compaction c) key;
  let c := cs_with_compaction c x (smallest_snapshot c) in
  input_status ← status (Iterator := Input_Iterator d) input;
  '(s, c, d) ← (if stop && bool_decide (is_Some (builder c)) then FinishCompactionOutputFile d c input_status
                else Some (Status_OK, c, d));
  if negb (Status_ok s) then Some (s, c, k, d)
  else
    '(drop, k, x) ← drop_key levels (smallest_snapshot c) (compaction c) k key;
    let c := cs_with_compaction c x (smallest_snapshot c) in
    if drop : bool then Some (Status_OK, c, k, d)
    else
      value ← Value (Iterator := Input_Iterator d) input;
      '(s, c, d) ← add_entry d c key value input_status;
      Some (s, c, k, d).

Fixpoint compact_loop (n : nat) (levels : list (list FileRef)) (d : DB) (c : CompactionState) (input : Input) (k : KeyState) :
    option (Status * CompactionState * Input * DB) :=
  if Valid (Iterator := Input_Iterator d) input && negb (db_shutting_down d) then
    match n with
    | O => None
    | S n' =>
        '(s, c, k, d) ← compact_entry levels d c input k;
        if negb (Status_ok s) then Some (s, c, input, d)
        else
          input ← Next (Iterator := Input_Iterator d) input;
          compact_loop n' levels d c input k
    end
  else Some (Status_OK, c, input, d).

(** The oldest sequence number that a reader may still ask for. *)
Definition oldest_snapshot (d : DB) : option Z :=
  e ← SnapshotList_empty (db_snapshots d);
  if e : bool then Some (vs_last_sequence (db_versions d))
  else a ← SnapshotList_oldest (db_snapshots d); sequence_number_ (db_snapshots d) !! a.

(** The loop, and the file that is open when it ends; then the status of the input. *)
Definition write_outputs (n : nat) (levels : list (list FileRef)) (d : DB) (c : CompactionState) (input : Input) :
    option (Status * CompactionState * Input * DB) :=
  '(s, c, input, d) ← compact_loop n levels d c input KeyState_none;
  let s := if Status_ok s && db_shutting_down d then Status_IOError (str "Deleting DB during compaction") [] else s in
  input_status ← status (Iterator := Input_Iterator d) input;
  '(s, c, d) ← (if Status_ok s && bool_decide (is_Some (builder c)) then FinishCompactionOutputFile d c input_status
                else Some (s, c, d));
  Some (if Status_ok s then input_status else s, c, input, d).

(** The end of the compaction: the input is deleted, and the outputs installed. *)
Definition finish_compaction (d : DB) (c : CompactionState) (input : Input) (s : Status) :
    option (Status * CompactionState * DB) :=
  t ← Merged_delete (db_tables d) input;
  let d := db_with_files d (db_e d) t (db_versions d) in
  '(s, c, d) ← (if Status_ok s then InstallCompactionResults d c else Some (s, c, d));
  Some (s, c, if Status_ok s then d else RecordBackgroundError d s).

Definition DoCompactionWork (d : DB) (c : CompactionState) : option (Status * CompactionState * DB) :=
  n ← NumLevelFiles (db_versions d) (level_ (compaction c));
  if negb (n >? 0) || bool_decide (is_Some (builder c)) || bool_decide (is_Some (outfile c)) then None
  else
    snapshot ← oldest_snapshot d;
    let c := cs_with_compaction c (compaction c) snapshot in
    '(input, t) ← MakeInputIterator fuel (db_e d) (db_tables d) (db_options d) (compaction c);
    let d := db_with_files d (db_e d) t (db_versions d) in
    input ← SeekToFirst (Iterator := Input_Iterator d) input;
    a ← input_version_ (compaction c);
    v ← vs_versions (db_versions d) !! a;
    '(s, c, input, d) ← write_outputs fuel (files_ v) d c input;
    finish_compaction d c input s.

(** ** The background thread *)

(** A file goes down a level as it is. *)
Definition trivial_move (d : DB) (c : Compaction) : option (Status * DB) :=
  f ← head (inputs_0 c);
  let edit := add_file_ref (level_ c + 1) (DeleteFile (edit_ c) (level_ c) (f_number f)) f in
  '(s, _, d) ← db_LogAndApply d edit;
  Some (s, if Status_ok s then d else RecordBackgroundError d s).

(** [ReleaseInputs], also in the destructor. *)
Definition release_compaction (d : DB) (c : Compaction) : option (Compaction * DB) :=
  '(s, c) ← ReleaseInputs (db_versions d) c;
  Some (c, db_with_files d (db_e d) (db_tables d) s).

Definition run_compaction (d : DB) (c : Compaction) : option (Status * Compaction * DB) :=
  '(s, cs, d) ← DoCompactionWork d (CompactionState_new c);
  let d := if Status_ok s then d else RecordBackgroundError d s in
  d ← CleanupCompaction d cs;
  '(c, d) ← release_compaction d (compaction cs);
  d ← DeleteObsoleteFiles d;
  Some (s, c, d).

(** A request, by its address; the client that made it reads it. *)
Definition set_manual (d : DB) (a : Z) (m : ManualCompaction) : DB :=
  db_with_manual d (<[a := m]> (db_manuals d)) (db_manual_compaction d).

(** The compaction to do: for a request, whose range ends where the inputs
    end, or the one the set of versions picks. *)
Definition choose_compaction (d : DB) : option (option Compaction * option bytes * DB) :=
  match db_manual_compaction d with
  | Some a =>
      m ← db_manuals d !! a;
      '(c, s) ← CompactRange (db_options d) (db_versions d) (mc_level m) (mc_begin m) (mc_end m);
      let m := {| mc_level := mc_level m; mc_done := bool_decide (c = None); mc_begin := mc_begin m; mc_end := mc_end m |} in
      let d := set_manual (db_with_files d (db_e d) (db_tables d) s) a m in
      match c with
      | Some x => f ← last (inputs_0 x); Some (Some x, Some (f_largest f), d)
      | None => Some (None, None, d)
      end
  | None =>
      '(c, s) ← PickCompaction (db_options d) (db_versions d);
      Some (c, None, db_with_files d (db_e d) (db_tables d) s)
  end.

(** The request afterwards: done if it failed, or else the range that is left. *)
Definition finish_manual (d : DB) (s : Status) (manual_end : option bytes) : option DB :=
  match db_manual_compaction d with
  | Some a =>
      m ← db_manuals d !! a;
      let finished := negb (Status_ok s) || mc_done m in
      let m := {| mc_level := mc_level m; mc_done := finished;
                  mc_begin := if finished then mc_begin m else Some (default [] manual_end); mc_end := mc_end m |} in
      Some (db_with_manual d (<[a := m]> (db_manuals d)) None)
  | None => Some d
  end.

Definition BackgroundCompaction (d : DB) : option DB :=
  if bool_decide (is_Some (db_imm d)) then CompactMemTable d
  else
    let is_manual := bool_decide (is_Some (db_manual_compaction d)) in
    '(c, manual_end, d) ← choose_compaction d;
    '(s, d) ← (match c with
               | None => Some (Status_OK, d)
               | Some x =>
                   '(s, x, d) ← (if negb is_manual && IsTrivialMove (db_options d) x
                                 then '(s, d) ← trivial_move d x; Some (s, x, d)
                                 else run_compaction d x);
                   '(_, d) ← release_compaction d x;
                   Some (s, d)
               end);
    if is_manual then finish_manual d s manual_end else Some d.

Definition BackgroundCall (d : DB) : option DB :=
  if negb (db_scheduled d) then None
  else
    d ← (if db_shutting_down d || negb (Status_ok (db_bg_error d)) then Some d else BackgroundCompaction d);
    MaybeScheduleCompaction (db_with_background d false (db_bg_error d)).

(** [Wait] for the background thread: it runs, and without it nothing would. *)
Definition background_wait (d : DB) : option DB := if db_scheduled d then BackgroundCall d else None.

(** ** Manual compactions *)
Fixpoint manual_loop (n : nat) (d : DB) (a : Z) : option DB :=
  m ← db_manuals d !! a;
  if negb (mc_done m) && negb (db_shutting_down d) && Status_ok (db_bg_error d) then
    match n with
    | O => None
    | S n' =>
        d ← (if bool_decide (db_manual_compaction d = None)
             then MaybeScheduleCompaction (db_with_manual d (db_manuals d) (Some a))
             else background_wait d);
        manual_loop n' d a
    end
  else Some d.

Definition TEST_CompactRange (d : DB) (level : Z) (begin end_ : option bytes) : option DB :=
  if (level >=? 0) && (level + 1 <? kNumLevels) then
    let m := {| mc_level := level; mc_done := false;
                mc_begin := (fun k => InternalKey_make k kMaxSequenceNumber kValueTypeForSeek) <$> begin;
                mc_end := (fun k => InternalKey_make k 0 0) <$> end_ |} in
    let a := db_next_addr d in
    d ← manual_loop fuel (set_manual (db_with_next_addr d (a + 1)) a m) a;
    Some (db_with_manual d (delete a (db_manuals d))
            (if bool_decide (db_manual_compaction d = Some a) then None else db_manual_compaction d))
  else None.

(** ** Room for a write *)

(** What a round of the loop in [MakeRoomForWrite] comes to. *)
Inductive Room : Type := RoomDone (s : Status) | RoomSleep | RoomWait | RoomAgain.

Definition kL0_SlowdownWritesTrigger : Z := 8.
Definition kL0_StopWritesTrigger : Z := 12.

(** A new log, and the table in memory becomes the one to compact. *)
Definition switch_memtable (d : DB) : option (Room * DB) :=
  if negb (vs_prev_log_number (db_versions d) =? 0) then None
  else
    let '(new_log_number, s) := NewFileNumber (db_versions d) in
    let '(st, lfile, e) := NewWritableFile (db_e d) (LogFileName (db_name d) new_log_number) in
    if negb (Status_ok st) then
      Some (RoomDone st, db_with_files d e (db_tables d) (ReuseFileNumber s new_log_number))
    else
      lfile ← lfile;
      let e := match db_logfile d with Some h => File_delete e h | None => e end in
      let d := db_with_log (db_with_files d e (db_tables d) s) (Some lfile) new_log_number (Some (Writer_new lfile)) in
      let imm := db_mem d in
      '(mem, d) ← mem_new d;
      d ← MaybeScheduleCompaction (db_with_mems d (db_memtables d) (Some mem) imm true);
      Some (RoomAgain, d).

Definition room_round (d : DB) (force allow_delay : bool) : option (Room * DB) :=
  files ← NumLevelFiles (db_versions d) 0;
  mem ← db_mem d;
  m ← db_memtables d !! mem;
  if negb (Status_ok (db_bg_error d)) then Some (RoomDone (db_bg_error d), d)
  else if allow_delay && (files >=? kL0_SlowdownWritesTrigger) then Some (RoomSleep, d)
  else if negb force && (MemTable_ApproximateMemoryUsage m <=? write_buffer_size (db_options d)) then Some (RoomDone Status_OK, d)
  else if bool_decide (is_Some (db_imm d)) then Some (RoomWait, d)
  else if files >=? kL0_StopWritesTrigger then Some (RoomWait, d)
  else switch_memtable d.

(** After a round that goes on: [force] and [allow_delay]. *)
Definition after_round (r : Room) (force allow_delay : bool) : bool * bool :=
  match r with
  | RoomSleep => (force, false)
  | RoomAgain => (false, allow_delay)
  | _ => (force, allow_delay)
  end.

Fixpoint room_loop (n : nat) (d : DB) (force allow_delay : bool) : option (Status * DB) :=
  match n with
  | O => None
  | S n' =>
      '(r, d) ← room_round d force allow_delay;
      let '(force, allow_delay) := after_round r force allow_delay in
      match r with
      | RoomDone s => Some (s, d)
      | RoomWait => d ← background_wait d; room_loop n' d force allow_delay
      | _ => room_loop n' d force allow_delay
      end
  end.

Definition MakeRoomForWrite (d : DB) (force : bool) : option (Status * DB) := room_loop fuel d force (negb force).

(** ** Writes *)

(** A queued [Writer]: the batch is null to wait for room only. *)
Record Writer_ : Type := { w_batch : option WriteBatch; w_sync : bool }.

(** The loop over the writers after the first: [n] of them are taken; [temp] is
    [tmp_batch_] once it is in use. *)
Fixpoint group_loop (first : WriteBatch) (first_sync : bool) (ws : list Writer_) (size max_size : Z) (temp : option WriteBatch)
    (tmp_batch : WriteBatch) (n : nat) : option (option WriteBatch * nat) :=
  match ws with
  | [] => Some (temp, n)
  | w :: ws =>
      if w_sync w && negb first_sync then Some (temp, n)
      else
        match w_batch w with
        | None => group_loop first first_sync ws size max_size temp tmp_batch (S n)
        | Some b =>
            let size := u64 (size + WriteBatchInternal_ByteSize b) in
            if size >? max_size then Some (temp, n)
            else
              result ← (match temp with
                        | Some t => Some t
                        | None =>
                            count ← WriteBatchInternal_Count tmp_batch;
                            if count =? 0 then WriteBatchInternal_Append tmp_batch first else None
                        end);
              result ← WriteBatchInternal_Append result b;
              group_loop first first_sync ws size max_size (Some result) tmp_batch (S n)
        end
  end.

(** The most bytes in a group that starts with a batch of that size. *)
Definition max_group_size (size : Z) : Z := if size <=? 131072 then size + 131072 else 1048576.

(** The batch to write, whether it is [tmp_batch_], and how many writers after
    the first it is for. *)
Definition BuildBatchGroup (d : DB) (first : WriteBatch) (first_sync : bool) (behind : list Writer_) :
    option (WriteBatch * bool * nat) :=
  let size := WriteBatchInternal_ByteSize first in
  '(temp, n) ← group_loop first first_sync behind size (max_group_size size) None (db_tmp_batch d) 0;
  Some (default first temp, bool_decide (is_Some temp), n).

(** What is done without the mutex: the record in the log, and the updates in
    the table in memory.  Also whether [Sync] failed. *)
Definition log_and_insert (d : DB) (updates : WriteBatch) (sync : bool) : option (Status * bool * DB) :=
  log ← db_log d;
  file ← db_logfile d;
  mem ← db_mem d;
  m ← db_memtables d !! mem;
  '(st, e, log) ← log_AddRecord (db_e d) log (WriteBatchInternal_Contents updates);
  let '(st, sync_error, e) :=
    if Status_ok st && sync then let '(st, e) := File_Sync e file in (st, negb (Status_ok st), e) else (st, false, e) in
  let d := db_with_log (db_with_env d e) (Some file) (db_logfile_number d) (Some log) in
  if Status_ok st then
    '(st, m) ← WriteBatchInternal_InsertInto updates m;
    Some (st, sync_error, db_with_mems d (<[mem := m]> (db_memtables d)) (db_mem d) (db_imm d) (db_has_imm d))
  else Some (st, sync_error, d).

(** The group of the writer at the front: its batch with its sequence number,
    whether that is [tmp_batch_], how many writers after the first it is for, and
    the last sequence number that it uses. *)
Record Group : Type := { g_updates : WriteBatch; g_temp : bool; g_more : nat; g_last : Z }.

Definition start_group (d : DB) (b : WriteBatch) (sync : bool) (behind : list Writer_) : option (Group * DB) :=
  let last_sequence := vs_last_sequence (db_versions d) in
  '(updates, temp, n) ← BuildBatchGroup d b sync behind;
  updates ← WriteBatchInternal_SetSequence updates (u64 (last_sequence + 1));
  count ← WriteBatchInternal_Count updates;
  Some ({| g_updates := updates; g_temp := temp; g_more := n; g_last := u64 (last_sequence + count) |},
        if temp : bool then db_with_batch d (db_seed d) updates else d).

(** The group is written; the mutex is not held while [log_and_insert] runs. *)
Definition finish_group (d : DB) (g : Group) (sync : bool) : option (Status * DB) :=
  '(st, sync_error, d) ← log_and_insert d (g_updates g) sync;
  let d := if sync_error : bool then RecordBackgroundError d st else d in
  let d := if g_temp g then db_with_batch d (db_seed d) WriteBatch_Clear else d in
  s ← vs_SetLastSequence (db_versions d) (g_last g);
  Some (st, db_with_files d (db_e d) (db_tables d) s).

(** The writer at the front, with room made for it: the status, how many writers
    after it are done with it, and its batch, whose sequence number was set if
    it was written alone. *)
Definition write_group (d : DB) (w : Writer_) (behind : list Writer_) (st : Status) :
    option (Status * nat * option WriteBatch * DB) :=
  match w_batch w with
  | Some b =>
      if negb (Status_ok st) then Some (st, 0%nat, w_batch w, d)
      else
        '(g, d) ← start_group d b (w_sync w) behind;
        '(st, d) ← finish_group d g (w_sync w);
        Some (st, g_more g, if g_temp g then Some b else Some (g_updates g), d)
  | None => Some (st, 0%nat, None, d)
  end.

(** [behind] are the writers that are in the queue when room has been made. *)
Definition DB_Write (d : DB) (w : Writer_) (behind : list Writer_) : option (Status * nat * option WriteBatch * DB) :=
  '(st, d) ← MakeRoomForWrite d (bool_decide (w_batch w = None));
  write_group d w behind st.

Definition DB_Put (d : DB) (sync : bool) (key value : bytes) : option (Status * DB) :=
  b ← WriteBatch_Put WriteBatch_new key value;
  '(s, _, _, d) ← DB_Write d {| w_batch := Some b; w_sync := sync |} [];
  Some (s, d).

Definition DB_Delete (d : DB) (sync : bool) (key : bytes) : option (Status * DB) :=
  b ← WriteBatch_Delete WriteBatch_new key;
  '(s, _, _, d) ← DB_Write d {| w_batch := Some b; w_sync := sync |} [];
  Some (s, d).

(** [while (imm_ != nullptr && bg_error_.ok()) Wait()] *)
Fixpoint wait_imm (n : nat) (d : DB) : option DB :=
  if bool_decide (is_Some (db_imm d)) && Status_ok (db_bg_error d) then
    match n with O => None | S n' => d ← background_wait d; wait_imm n' d end
  else Some d.

Definition TEST_CompactMemTable (d : DB) : option (Status * DB) :=
  '(s, _, _, d) ← DB_Write d {| w_batch := None; w_sync := false |} [];
  if Status_ok s then
    d ← wait_imm fuel d;
    Some (if bool_decide (is_Some (db_imm d)) then db_bg_error d else s, d)
  else Some (s, d).

(** The last level from 1 on that has files in the range. *)
Fixpoint max_level_loop (n : nat) (levels : list (list FileRef)) (level : Z) (begin end_ : option bytes) (found : Z) : option Z :=
  match n with
  | O => Some found
  | S n' =>
      overlap ← OverlapInLevel levels level begin end_;
      max_level_loop n' levels (level + 1) begin end_ (if overlap : bool then level else found)
  end.

Fixpoint compact_levels (n : nat) (d : DB) (level : Z) (begin end_ : option bytes) : option DB :=
  match n with
  | O => Some d
  | S n' => d ← TEST_CompactRange d level begin end_; compact_levels n' d (level + 1) begin end_
  end.

Definition DB_CompactRange (d : DB) (begin end_ : option bytes) : option DB :=
  v ← current_version (db_versions d);
  max_level_with_files ← max_level_loop (Z.to_nat (kNumLevels - 1)) (files_ v) 1 begin end_ 1;
  '(_, d) ← TEST_CompactMemTable d;
  compact_levels (Z.to_nat max_level_with_files) d 0 begin end_.

(** ** Reads *)

(** What the tables in memory answer; [None] inside if they do not have the key. *)
Definition get_in_memory (d : DB) (lkey : LookupKey) (value : bytes) : option (option (Status * bytes)) :=
  mem ← db_mem d;
  m ← db_memtables d !! mem;
  r ← MemTable_Get m lkey;
  r ← (if found r then Some r
       else match db_imm d with
            | Some imm => m ← db_memtables d !! imm; MemTable_Get m lkey
            | None => Some r
            end);
  Some (if found r then Some (default Status_OK (get_status r), default value (get_value r)) else None).

(** [imm->Ref()], if there is one. *)
Definition on_imm (f : DB -> Z -> option DB) (d : DB) (imm : option Z) : option DB :=
  match imm with Some a => f d a | None => Some d end.

(** [snapshot] is the sequence number of the snapshot in the options. *)
Definition DB_Get (d : DB) (options : ReadOptions) (snapshot : option Z) (key value : bytes) : option (Status * bytes * DB) :=
  let snapshot := default (vs_last_sequence (db_versions d)) snapshot in
  mem ← db_mem d;
  let imm := db_imm d in
  current ← vs_current (db_versions d);
  d ← mem_ref d mem;
  d ← on_imm mem_ref d imm;
  s ← Version_Ref (db_versions d) current;
  let d := db_with_files d (db_e d) (db_tables d) s in
  lkey ← LookupKey_make key snapshot;
  answer ← get_in_memory d lkey value;
  '(s, value, d) ← (match answer with
                    | Some (s, value) => Some (s, value, d)
                    | None =>
                        v ← vs_versions (db_versions d) !! current;
                        '(s, value, stats, t) ← Version_Get (files_ v) (db_e d, db_tables d) options lkey value;
                        '(more, vs) ← UpdateStats (db_versions d) current stats;
                        let d := db_with_files d (db_e d) t.2 vs in
                        d ← (if more : bool then MaybeScheduleCompaction d else Some d);
                        Some (s, value, d)
                    end);
  d ← mem_unref d mem;
  d ← on_imm mem_unref d imm;
  vs ← Version_Unref (db_versions d) current;
  Some (s, value, db_with_files d (db_e d) (db_tables d) vs).

(** What [CleanupIteratorState] gives back. *)
Record IterState : Type := { is_mem : Z; is_imm : option Z; is_version : Z }.

Definition NewInternalIterator (d : DB) (options : ReadOptions) : option (MergedIterator (Child R) * Z * Z * IterState * DB) :=
  let latest_snapshot := vs_last_sequence (db_versions d) in
  mem ← db_mem d;
  let imm := db_imm d in
  let list := MemChild mem nullptr :: match imm with Some a => [MemChild a nullptr] | None => [] end in
  d ← mem_ref d mem;
  d ← on_imm mem_ref d imm;
  a ← vs_current (db_versions d);
  v ← vs_versions (db_versions d) !! a;
  '(list, t) ← AddIterators fuel (db_e d) (db_tables d) options v list;
  internal_iter ← NewMergingIterator (I := Child_Iterator fuel (db_memtables d) (db_e d) t options) list;
  s ← Version_Ref (db_versions d) a;
  let d := db_with_files d (db_e d) t s in
  let seed := u32 (db_seed d + 1) in
  Some (internal_iter, latest_snapshot, seed, {| is_mem := mem; is_imm := imm; is_version := a |},
        db_with_batch d seed (db_tmp_batch d)).

(** Deleting the iterator. *)
Definition CleanupIteratorState (d : DB) (it : MergedIterator (Child R)) (st : IterState) : option DB :=
  d ← mem_unref d (is_mem st);
  d ← on_imm mem_unref d (is_imm st);
  s ← Version_Unref (db_versions d) (is_version st);
  t ← Merged_delete (db_tables d) it;
  Some (db_with_files d (db_e d) t s).

Definition DB_RecordReadSample (d : DB) (key : bytes) : option DB :=
  a ← vs_current (db_versions d);
  '(more, s) ← Version_RecordReadSample (db_versions d) a key;
  let d := db_with_files d (db_e d) (db_tables d) s in
  if more : bool then MaybeScheduleCompaction d else Some d.

(** Samples that the iterator takes; an undefined one leaves the database. *)
#[export] Instance DB_sampler : ReadSampler DB := { RecordReadSample d key := default d (DB_RecordReadSample d key) }.

Definition DB_NewIterator (d : DB) (options : ReadOptions) (snapshot : option Z) :
    option (DBIter DB (MergedIterator (Child R)) * IterState * DB) :=
  '(it, latest_snapshot, seed, st, d) ← NewInternalIterator d options;
  Some (NewDBIterator d it (default latest_snapshot snapshot) seed, st, d).

Definition GetSnapshot (d : DB) : option (Z * DB) :=
  let a := db_next_addr d in
  l ← SnapshotList_New (db_snapshots d) a (vs_last_sequence (db_versions d));
  Some (a, db_with_next_addr (db_with_snapshots d l) (a + 1)).

Definition ReleaseSnapshot (d : DB) (snapshot : Z) : option DB :=
  l ← SnapshotList_Delete (db_snapshots d) snapshot; Some (db_with_snapshots d l).

Definition DB_MaxNextLevelOverlappingBytes (d : DB) : option Z := MaxNextLevelOverlappingBytes (db_versions d).

(** The size of one range, from [start] to [limit]. *)
Definition approximate_size (d : DB) (v : Version) (range : bytes * bytes) : option (Z * DB) :=
  let k1 := InternalKey_make range.1 kMaxSequenceNumber kValueTypeForSeek in
  let k2 := InternalKey_make range.2 kMaxSequenceNumber kValueTypeForSeek in
  '(start, t) ← VersionSet_ApproximateOffsetOf (db_e d) (db_tables d) v k1;
  '(limit, t) ← VersionSet_ApproximateOffsetOf (db_e d) t v k2;
  Some (if limit >=? start then limit - start else 0, db_with_files d (db_e d) t (db_versions d)).

Fixpoint approximate_sizes (d : DB) (v : Version) (ranges : list (bytes * bytes)) : option (list Z * DB) :=
  match ranges with
  | [] => Some ([], d)
  | r :: ranges =>
      '(n, d) ← approximate_size d v r;
      '(ns, d) ← approximate_sizes d v ranges;
      Some (n :: ns, d)
  end.

Definition GetApproximateSizes (d : DB) (ranges : list (bytes * bytes)) : option (list Z * DB) :=
  a ← vs_current (db_versions d);
  s ← Version_Ref (db_versions d) a;
  v ← vs_versions s !! a;
  '(sizes, d) ← approximate_sizes (db_with_files d (db_e d) (db_tables d) s) v ranges;
  s ← Version_Unref (db_versions d) a;
  Some (sizes, db_with_files d (db_e d) (db_tables d) s).

(** ** Opening *)
Definition new_db_edit : VersionEdit :=
  SetLastSequence (SetNextFile (SetLogNumber (SetComparatorName VersionEdit_new Comparator_Name) 0) 2) 0.

Definition NewDB (e : E) (dbname : bytes) : option (Status * E) :=
  let manifest := DescriptorFileName dbname 1 in
  let '(s, file, e) := NewWritableFile e manifest in
  if negb (Status_ok s) then Some (s, e)
  else
    file ← file;
    record ← VersionEdit_EncodeTo new_db_edit [];
    '(s, e, _) ← log_AddRecord e (Writer_new file) record;
    let '(s, e) := if Status_ok s then File_Close e file else (s, e) in
    let e := File_delete e file in
    if Status_ok s then SetCurrentFile e dbname 1 else Some (s, (Env_DeleteFile e manifest).2).

(** The locals of [RecoverLogFile] that its loop changes. *)
Record log_state : Type := {
  lg_status : Status;
  lg_mem : option Z;
  lg_compactions : Z;
  lg_save_manifest : bool;
  lg_edit : VersionEdit;
  lg_max_sequence : Z
}.

Definition lg_with_status (l : log_state) (s : Status) : log_state := {|
  lg_status := s; lg_mem := lg_mem l; lg_compactions := lg_compactions l; lg_save_manifest := lg_save_manifest l;
  lg_edit := lg_edit l; lg_max_sequence := lg_max_sequence l |}.

Definition lg_with_mem (l : log_state) (mem : option Z) (max_sequence : Z) : log_state := {|
  lg_status := lg_status l; lg_mem := mem; lg_compactions := lg_compactions l; lg_save_manifest := lg_save_manifest l;
  lg_edit := lg_edit l; lg_max_sequence := max_sequence |}.

(** The reporter keeps the first report, if [paranoid_checks] is set. *)
Definition log_reported (options : Options) (reports : list (Z * Status)) (s : Status) : Status :=
  if paranoid_checks options then reported reports s else s.

(** The table in memory is written out: [*edit] has its file. *)
Definition flush_recovered (d : DB) (l : log_state) (mem : Z) (compactions : Z) : option (log_state * DB) :=
  '(s, edit, d) ← WriteLevel0Table d mem (lg_edit l) None;
  d ← mem_unref d mem;
  Some ({| lg_status := s; lg_mem := None; lg_compactions := compactions; lg_save_manifest := true; lg_edit := edit;
           lg_max_sequence := lg_max_sequence l |}, d).

(** One record; whether the loop goes on. *)
Definition recover_batch (d : DB) (l : log_state) (record : bytes) : option (bool * log_state * DB) :=
  if zlen record <? 12 then
    Some (true, lg_with_status l (log_reported (db_options d) [(zlen record, Status_Corruption (str "log record too small") [])] (lg_status l)), d)
  else
    let batch := WriteBatchInternal_SetContents record in
    '(mem, d) ← (match lg_mem l with Some mem => Some (mem, d) | None => mem_new d end);
    m ← db_memtables d !! mem;
    '(s, m) ← WriteBatchInternal_InsertInto batch m;
    let d := db_with_mems d (<[mem := m]> (db_memtables d)) (db_mem d) (db_imm d) (db_has_imm d) in
    let s := MaybeIgnoreError (db_options d) s in
    let l := lg_with_mem (lg_with_status l s) (Some mem) (lg_max_sequence l) in
    if negb (Status_ok s) then Some (false, l, d)
    else
      seq ← WriteBatchInternal_Sequence batch;
      count ← WriteBatchInternal_Count batch;
      let last_seq := u64 (seq + count - 1) in
      let l := lg_with_mem l (Some mem) (if last_seq >? lg_max_sequence l then last_seq else lg_max_sequence l) in
      if MemTable_ApproximateMemoryUsage m >? write_buffer_size (db_options d) then
        '(l, d) ← flush_recovered d l mem (lg_compactions l + 1);
        Some (Status_ok (lg_status l), l, d)
      else Some (true, l, d).

Fixpoint recover_log_loop (n : nat) (reader : Reader Sq) (d : DB) (l : log_state) : option (log_state * DB) :=
  match n with
  | O => None
  | S n' =>
      '(record, reader) ← ReadRecord fuel reader;
      let l := lg_with_status l (log_reported (db_options d) (reports reader) (lg_status l)) in
      match record with
      | Some record =>
          if Status_ok (lg_status l) then
            '(more, l, d) ← recover_batch d l record;
            if more : bool then recover_log_loop n' reader d l else Some (l, d)
          else Some (l, d)
      | None => Some (l, d)
      end
  end.

(** The last log file is used again, if nothing was written out. *)
Definition reuse_log (d : DB) (l : log_state) (last_log : bool) (fname : bytes) (log_number : Z) : option (log_state * DB) :=
  if Status_ok (lg_status l) && reuse_logs (db_options d) && last_log && (lg_compactions l =? 0) then
    if bool_decide (is_Some (db_logfile d)) || bool_decide (is_Some (db_log d)) || bool_decide (is_Some (db_mem d)) then None
    else
      let '(s, lfile_size) := GetFileSize (db_e d) fname in
      if negb (Status_ok s) then Some (l, d)
      else
        let '(s, file, e) := NewAppendableFile (db_e d) fname in
        let d := db_with_env d e in
        if negb (Status_ok s) then Some (l, d)
        else
          file ← file;
          let d := db_with_log d (Some file) log_number (Some (Writer_new_at file lfile_size)) in
          '(mem, d) ← (match lg_mem l with Some mem => Some (mem, d) | None => mem_new d end);
          Some (lg_with_mem l None (lg_max_sequence l), db_with_mems d (db_memtables d) (Some mem) (db_imm d) (db_has_imm d))
  else Some (l, d).

(** The buffer of the log reader is at address 0. *)
Definition RecoverLogFile (d : DB) (log_number : Z) (last_log save_manifest : bool) (edit : VersionEdit) (max_sequence : Z) :
    option (Status * bool * VersionEdit * Z * DB) :=
  let fname := LogFileName (db_name d) log_number in
  let '(s, file) := NewSequentialFile (db_e d) fname in
  if negb (Status_ok s) then Some (MaybeIgnoreError (db_options d) s, save_manifest, edit, max_sequence, d)
  else
    file ← file;
    '(l, d) ← recover_log_loop fuel (Reader_new file (Some []) true 0 0) d
                {| lg_status := s; lg_mem := None; lg_compactions := 0; lg_save_manifest := save_manifest; lg_edit := edit;
                   lg_max_sequence := max_sequence |};
    '(l, d) ← reuse_log d l last_log fname log_number;
    '(l, d) ← (match lg_mem l with
               | Some mem =>
                   if Status_ok (lg_status l) then flush_recovered d l mem (lg_compactions l)
                   else d ← mem_unref d mem; Some (l, d)
               | None => Some (l, d)
               end);
    Some (lg_status l, lg_save_manifest l, lg_edit l, lg_max_sequence l, d).

(** The files of the directory: the tables that are missing, and the logs that
    are not in the tables. *)
Fixpoint survey_files (min_log prev_log : Z) (filenames : list bytes) (expected : gset Z) (logs : list Z) : gset Z * list Z :=
  match filenames with
  | [] => (expected, logs)
  | name :: filenames =>
      match ParseFileName name with
      | Some (number, type) =>
          let newer := bool_decide (type = kLogFile) && ((number >=? min_log) || (number =? prev_log)) in
          survey_files min_log prev_log filenames (expected ∖ {[ number ]}) (if newer then logs ++ [number] else logs)
      | None => survey_files min_log prev_log filenames expected logs
      end
  end.

Fixpoint recover_logs (logs : list Z) (d : DB) (save_manifest : bool) (edit : VersionEdit) (max_sequence : Z) :
    option (Status * bool * VersionEdit * Z * DB) :=
  match logs with
  | [] => Some (Status_OK, save_manifest, edit, max_sequence, d)
  | n :: logs =>
      '(s, save_manifest, edit, max_sequence, d) ← RecoverLogFile d n (bool_decide (logs = [])) save_manifest edit max_sequence;
      if negb (Status_ok s) then Some (s, save_manifest, edit, max_sequence, d)
      else recover_logs logs (db_with_files d (db_e d) (db_tables d) (MarkFileNumberUsed (db_versions d) n)) save_manifest edit max_sequence
  end.

(** What the manifest says has been read: the rest of [Recover]. *)
Definition recover_from_logs (d : DB) (save_manifest : bool) (edit : VersionEdit) : option (Status * bool * VersionEdit * DB) :=
  let '(s, filenames) := GetChildren (db_e d) (db_name d) in
  if negb (Status_ok s) then Some (s, save_manifest, edit, d)
  else
    expected ← AddLiveFiles (db_versions d) ∅;
    let '(expected, logs) := survey_files (vs_log_number (db_versions d)) (vs_prev_log_number (db_versions d)) filenames expected [] in
    match merge_sort Z.le (elements expected) with
    | first :: _ =>
        Some (Status_Corruption (decimal (s32 (Z.of_nat (size expected))) ++ str " missing files; e.g.") (TableFileName (db_name d) first),
              save_manifest, edit, d)
    | [] =>
        '(s, save_manifest, edit, max_sequence, d) ← recover_logs (merge_sort Z.le logs) d save_manifest edit 0;
        if negb (Status_ok s) then Some (s, save_manifest, edit, d)
        else
          vs ← (if vs_last_sequence (db_versions d) <? max_sequence then vs_SetLastSequence (db_versions d) max_sequence
                else Some (db_versions d));
          Some (Status_OK, save_manifest, edit, db_with_files d (db_e d) (db_tables d) vs)
    end.

(** A database is there, or is made. *)
Definition ensure_db (d : DB) : option (Status * DB) :=
  if negb (FileExists (db_e d) (CurrentFileName (db_name d))) then
    if create_if_missing (db_options d) then '(s, e) ← NewDB (db_e d) (db_name d); Some (s, db_with_env d e)
    else Some (Status_InvalidArgument (db_name d) (str "does not exist (create_if_missing is false)"), d)
  else if error_if_exists (db_options d) then Some (Status_InvalidArgument (db_name d) (str "exists (error_if_exists is true)"), d)
  else Some (Status_OK, d).

Definition DBImpl_Recover (d : DB) (edit : VersionEdit) : option (Status * bool * VersionEdit * DB) :=
  let d := db_with_env d (CreateDir (db_e d) (db_name d)).2 in
  if bool_decide (is_Some (db_lock d)) then None
  else
    let '(s, lock, e) := LockFile (db_e d) (LockFileName (db_name d)) in
    let d := db_with_lock (db_with_env d e) lock (db_shutting_down d) in
    if negb (Status_ok s) then Some (s, false, edit, d)
    else
      '(s, d) ← ensure_db d;
      if negb (Status_ok s) then Some (s, false, edit, d)
      else
        let a := db_next_addr d in
        '(s, save_manifest, e, vs) ← Recover fuel (db_options d) (db_e d) (db_versions d) false a (seqZ (a + 1) (Z.of_nat fuel));
        let d := db_with_next_addr (db_with_files d e (db_tables d) vs) (a + 1 + Z.of_nat fuel) in
        if negb (Status_ok s) then Some (s, save_manifest, edit, d) else recover_from_logs d save_manifest edit.

(** *** Options *)
Definition kNumNonTableCacheFiles : Z := 10.

(** The casts are to [int]. *)
Definition ClipToRange (v minvalue maxvalue : Z) : Z :=
  let v := if s32 v >? maxvalue then maxvalue else v in
  if s32 v <? minvalue then minvalue else v.

(** The numbers, the comparator and the filter policy. *)
Definition SanitizeOptions_values (src : Options) : Options := {|
  comparator := InternalKeyComparator (comparator src);
  create_if_missing := create_if_missing src;
  error_if_exists := error_if_exists src;
  paranoid_checks := paranoid_checks src;
  write_buffer_size := ClipToRange (write_buffer_size src) 65536 1073741824;
  max_open_files := ClipToRange (max_open_files src) (64 + kNumNonTableCacheFiles) 50000;
  block_size := ClipToRange (block_size src) 1024 4194304;
  block_restart_interval := block_restart_interval src;
  max_file_size := ClipToRange (max_file_size src) 1048576 1073741824;
  compression := compression src;
  reuse_logs := reuse_logs src;
  filter_policy := InternalFilterPolicy <$> filter_policy src |}.

(** [info_log] is whether the options have a log for information. *)
Definition SanitizeOptions (e : E) (dbname : bytes) (src : Options) (info_log : bool) (block_cache : option B) :
    option (Options * E * B) :=
  let e := if info_log then e
           else
             let e := (CreateDir e dbname).2 in
             let e := (RenameFile e (InfoLogFileName dbname) (OldInfoLogFileName dbname)).2 in
             (NewLogger e (InfoLogFileName dbname)).2 in
  blocks ← (match block_cache with Some b => Some b | None => bc_new 8388608 end);
  Some (SanitizeOptions_values src, e, blocks).

Definition TableCacheSize (sanitized_options : Options) : Z := max_open_files sanitized_options - kNumNonTableCacheFiles.

Definition DBImpl_new (e : E) (raw_options : Options) (info_log : bool) (block_cache : option B) (dbname : bytes) : option DB :=
  '(options, e, blocks) ← SanitizeOptions e dbname raw_options info_log block_cache;
  tables ← cache_new (TableCacheSize options);
  versions ← VersionSet_new dbname 1;
  Some {| db_e := e; db_options := options; db_name := dbname;
          db_tables := {| tc_dbname := dbname; tc_options := options; tc_cache := tables; tc_blocks := Some blocks |};
          db_lock := None; db_shutting_down := false; db_memtables := ∅; db_mem := None; db_imm := None; db_has_imm := false;
          db_logfile := None; db_logfile_number := 0; db_log := None; db_seed := 0; db_tmp_batch := WriteBatch_new;
          db_snapshots := SnapshotList_new; db_pending_outputs := ∅; db_scheduled := false; db_manuals := ∅;
          db_manual_compaction := None; db_versions := versions; db_bg_error := Status_OK; db_next_addr := 2 |}.

(** The destructor: what is left is the environment. *)
Definition DBImpl_delete (d : DB) : option E :=
  let d := db_with_lock d (db_lock d) true in
  d ← (if db_scheduled d then BackgroundCall d else Some d);
  if db_scheduled d then None
  else
    let e := match db_lock d with Some l => (UnlockFile (db_e d) l).2 | None => db_e d end in
    '(e, s) ← VersionSet_delete e (db_versions d);
    d ← on_imm mem_unref (db_with_files d e (db_tables d) s) (db_mem d);
    d ← on_imm mem_unref d (db_imm d);
    Some (match db_logfile d with Some h => File_delete (db_e d) h | None => db_e d end).

(** A new log and table in memory, unless recovery kept the old ones. *)
Definition start_log (d : DB) (edit : VersionEdit) : option (Status * VersionEdit * DB) :=
  if bool_decide (is_Some (db_mem d)) then Some (Status_OK, edit, d)
  else
    let '(new_log_number, vs) := NewFileNumber (db_versions d) in
    let '(s, lfile, e) := NewWritableFile (db_e d) (LogFileName (db_name d) new_log_number) in
    let d := db_with_files d e (db_tables d) vs in
    if Status_ok s then
      lfile ← lfile;
      let d := db_with_log d (Some lfile) new_log_number (Some (Writer_new lfile)) in
      '(mem, d) ← mem_new d;
      Some (s, SetLogNumber edit new_log_number, db_with_mems d (db_memtables d) (Some mem) (db_imm d) (db_has_imm d))
    else Some (s, edit, d).

(** The status, the environment of a database that did not open, and the
    database. *)
Definition DB_Open (e : E) (options : Options) (info_log : bool) (block_cache : option B) (dbname : bytes) :
    option (Status * (E + DB)) :=
  d ← DBImpl_new e options info_log block_cache dbname;
  '(s, save_manifest, edit, d) ← DBImpl_Recover d VersionEdit_new;
  '(s, edit, d) ← (if Status_ok s then start_log d edit else Some (s, edit, d));
  '(s, d) ← (if Status_ok s && save_manifest then
               '(s, _, d) ← db_LogAndApply d (SetLogNumber (SetPrevLogNumber edit 0) (db_logfile_number d)); Some (s, d)
             else Some (s, d));
  if Status_ok s then
    d ← DeleteObsoleteFiles d;
    d ← MaybeScheduleCompaction d;
    if bool_decide (is_Some (db_mem d)) then Some (s, inr d) else None
  else e ← DBImpl_delete d; Some (s, inl e).
End DB.

(** * [DestroyDB] *)
Section Destroy.
Context {E Sq R : Type} {EV : Env E Sq R}.

(** All files but the lock; the first error is kept. *)
Fixpoint destroy_files (e : E) (dbname : bytes) (filenames : list bytes) (result : Status) : Status * E :=
  match filenames with
  | [] => (result, e)
  | name :: filenames =>
      match ParseFileName name with
      | Some (_, type) =>
          if bool_decide (type = kDBLockFile) then destroy_files e dbname filenames result
          else
            let '(del, e) := Env_DeleteFile e (dbname ++ str "/" ++ name) in
            destroy_files e dbname filenames (if Status_ok result && negb (Status_ok del) then del else result)
      | None => destroy_files e dbname filenames result
      end
  end.

Definition DestroyDB (e : E) (dbname : bytes) : Status * E :=
  let '(s, filenames) := GetChildren e dbname in
  if negb (Status_ok s) then (Status_OK, e)
  else
    let '(s, lock, e) := LockFile e (LockFileName dbname) in
    match lock with
    | Some lock =>
        if Status_ok s then
          let '(s, e) := destroy_files e dbname filenames s in
          let e := (UnlockFile e lock).2 in
          let e := (Env_DeleteFile e (LockFileName dbname)).2 in
          (s, (DeleteDir e dbname).2)
        else (s, e)
    | None => (s, e)
    end.
End Destroy.
