(* ===== verification/LdbDBThms.v ===== *)
(** leveldb: what a compaction writes and keeps, and runs of the database.

    Section [Drop]: which entries the loop of [DoCompactionWork] drops, and why
    lookups have the same answers without them.  Section [Outputs]: the state of the
    loop between two entries - no file is open ([closed_at]) or one is
    ([opened_at]) - through opening a file, adding an entry and finishing a file, up
    to [compact_loop_ok] and the theorems.  Section [OneTable]: a compaction of one
    table in memory, on which they are applied. *)
From stdpp Require Import base numbers option sets strings gmap sorting list.
From S2P Require Import Prelude LdbSlice LdbCoding LdbComparator LdbDbformat LdbEnv LdbFilename LdbArena LdbMemTable LdbWriteBatch LdbWriteThms LdbIterator LdbMerger LdbTwoLevel LdbBlock LdbFormat LdbTable LdbTableSpec LdbTableThms LdbManifestThms LdbVersionEdit LdbRing LdbVersion LdbVersionThms LdbVersionSet LdbCompaction LdbCompactionThms LdbCache LdbTableCache LdbDB.
Open Scope Z_scope.

(** * The entries a compaction keeps *)

Section Drop.
Context {U : Comparator} {uvalid : bytes -> Prop} {uorder : bytes -> bytes -> Z} {UL : ComparatorLaw U uvalid uorder}.
#[local] Abbreviation iorder := (ikey_order uorder).
#[local] Abbreviation ivalid := (ikey_valid uvalid).
#[local] Abbreviation range_ok := (range_ok (uvalid := uvalid) (uorder := uorder)).
#[local] Abbreviation apart := (apart (uorder := uorder)).
#[local] Abbreviation entry_valid := (entry_valid (uvalid := uvalid)).
#[local] Abbreviation newest := (newest (uorder := uorder)).
#[local] Abbreviation same u v := (uorder (ikey_user u) (ikey_user v) = 0).
#[local] Existing Instance ikey_CompareLaw.

Lemma ikey_valid_user_1 k : ivalid k -> uvalid (ikey_user k).
Proof. intros V. exact (proj1 (ikey_valid_user _ V)). Qed.

(** ** Whether a lower level has the key *)

(** The user key is in the range of the file. *)
Definition covers (f : FileRef) (u : bytes) : Prop := uorder (f_start f) u <= 0 /\ uorder u (f_limit f) <= 0.

(** So it is for a file of a level from [level] on. *)
Definition covered (levels : list (list FileRef)) (level : Z) (u : bytes) : Prop :=
  exists i files f, (Z.to_nat level <= i)%nat /\ levels !! i = Some files /\ f ∈ files /\ covers f u.

Lemma base_level_files_ok files u ptr :
  Forall range_ok files -> uvalid u ->
  exists b n, base_level_files files u ptr = Some (b, ptr + Z.of_nat n) /\ (n <= length files)%nat
    /\ Forall (fun f => uorder (f_limit f) u < 0) (take n files)
    /\ (b = false -> apart files -> Forall (fun f => uorder u (f_start f) < 0) (drop n files))
    /\ (b = true -> exists f, f ∈ files /\ covers f u).
Proof.
  intros Hr Hu. revert ptr. induction Hr as [|f files Hf Hr IH]; intros ptr.
  - exists false, 0%nat. rewrite Z.add_0_r. by split_and!.
  - destruct (f_limit_ok f Hf) as [Ul El]. destruct (f_start_ok f Hf) as [Us Es]. cbn [base_level_files]. rewrite El. cbn [mbind option_bind].
    rewrite (Compare_order (compare := Compare)) by done. cbn [mbind option_bind].
    pose proof (order_sym (compare := Compare) (order := uorder) _ _ Hu Ul). pose proof (order_sym (compare := Compare) (order := uorder) _ _ Hu Us).
    destruct (Z.leb_spec (uorder u (f_limit f)) 0).
    + rewrite Es. cbn [mbind option_bind]. rewrite (Compare_order (compare := Compare)) by done. cbn [mbind option_bind].
      eexists _, 0%nat. rewrite Z.add_0_r. split_and!; [done|lia|by constructor| |].
      2:{ intros Hb%Z.geb_le. exists f. split; [set_solver|]. split; lia. }
      rewrite drop_0. intros Hb Hap.
      assert (uorder u (f_start f) < 0) as Hlt by (destruct (Z.geb_spec (uorder u (f_start f)) 0); [done|lia]).
      constructor; [done|]. apply Forall_forall. intros g [j Hj]%list_elem_of_lookup.
      pose proof (Hap 0%nat (S j) f g ltac:(lia) eq_refl Hj) as Hlg.
      destruct (Forall_lookup_1 _ _ _ _ Hr Hj) as (Vg & _ & _). destruct (ikey_valid_user _ Vg) as [Ug _].
      apply (order_lt_le_trans (compare := Compare) (order := uorder) (valid := uvalid) _ (f_start f)); [done..|].
      apply (order_trans (compare := Compare) (valid := uvalid) _ (f_limit f)); [done..|by apply (f_start_limit (uvalid := uvalid))|].
      apply iorder_user. lia.
    + destruct (IH (ptr + 1)) as (b & n & -> & Hn & Htake & Hdrop & Hcov). exists b, (S n). split_and!.
      * do 2 f_equal. lia.
      * cbn. lia.
      * cbn [take]. by constructor; [lia|].
      * intros Hb Hap. cbn [drop]. apply Hdrop; [done|]. intros i j g h Hij Hi Hj. by apply (Hap (S i) (S j)); [lia|..].
      * intros Hb. destruct (Hcov Hb) as (g & Hg & Hx). exists g. split; [set_solver|done].
Qed.

(** The files before the positions end before the key. *)
Definition ptrs_ok (levels : list (list FileRef)) (ptrs : list Z) (u : bytes) : Prop :=
  forall lvl files, levels !! lvl = Some files ->
    exists n, ptrs !! lvl = Some (Z.of_nat n) /\ (n <= length files)%nat /\ Forall (fun f => uorder (f_limit f) u < 0) (take n files).

Lemma ptrs_ok_mono levels ptrs u v :
  (forall files, files ∈ levels -> Forall range_ok files) -> uvalid u -> uvalid v -> uorder u v <= 0 ->
  ptrs_ok levels ptrs u -> ptrs_ok levels ptrs v.
Proof.
  intros Hr Hu Hv Huv H lvl files Hl. destruct (H lvl files Hl) as (n & E & Hn & Hf). exists n. split_and!; [done|done|].
  apply Forall_forall. intros f Hin. pose proof (proj1 (Forall_forall _ _) Hf f Hin).
  assert (range_ok f) as Hrf.
  { apply (proj1 (Forall_forall _ _) (Hr files ltac:(by eapply list_elem_of_lookup_2))). rewrite <- (take_drop n files). set_solver. }
  destruct (f_limit_ok f Hrf) as [Ul _]. by apply (order_lt_le_trans (compare := Compare) (order := uorder) (valid := uvalid) _ u).
Qed.

Context (entries : FileRef -> list (bytes * bytes)).
#[local] Abbreviation file_ok := (file_ok (uvalid := uvalid) (uorder := uorder) entries).

Lemma base_level_loop_ok n levels lvl u ptrs :
  (forall files, files ∈ levels -> Forall file_ok files) -> (forall i files, levels !! i = Some files -> (0 < i)%nat -> apart files) ->
  uvalid u -> ptrs_ok levels ptrs u -> (lvl + n = length levels)%nat -> (0 < lvl)%nat ->
  exists b ptrs', base_level_loop n levels lvl u ptrs = Some (b, ptrs') /\ ptrs_ok levels ptrs' u
    /\ (b = true -> forall i files f e, (lvl <= i)%nat -> levels !! i = Some files -> f ∈ files -> e ∈ entries f -> uorder (ikey_user e.1) u <> 0)
    /\ (b = false -> covered levels (Z.of_nat lvl) u).
Proof.
  intros Hok Hap Hu. revert lvl ptrs. induction n as [|n IH]; intros lvl ptrs Hp Hlen Hpos.
  - exists true, ptrs. split_and!; [done|done| |done]. intros _ i files f e Hi Hl. apply lookup_lt_Some in Hl. lia.
  - destruct (lookup_lt_is_Some_2 levels lvl) as [files Hl]; [lia|]. destruct (Hp lvl files Hl) as (k & Ek & Hk & Hbefore).
    pose proof (Hok files ltac:(by eapply list_elem_of_lookup_2)) as Hfok. pose proof (file_ok_ranges entries files Hfok) as Hr.
    cbn [base_level_loop]. rewrite Hl, Ek. cbn [mbind option_bind]. rewrite Nat2Z.id.
    destruct (base_level_files_ok (drop k files) u (Z.of_nat k)) as (b & m & -> & Hm & Htake & Hrest & Hcov); [by apply Forall_drop|done|].
    cbn [mbind option_bind]. rewrite length_drop in Hm.
    assert (ptrs_ok levels (<[lvl := Z.of_nat k + Z.of_nat m]> ptrs) u) as Hp'.
    { intros l fs Hfs. destruct (decide (l = lvl)) as [->|Hne].
      - assert (fs = files) as -> by congruence. exists (k + m)%nat. split_and!.
        + rewrite list_lookup_insert_eq by (by eapply lookup_lt_Some). f_equal. lia.
        + lia.
        + rewrite <- (take_drop k files), take_app_ge by (rewrite length_take; lia). apply Forall_app. split; [done|].
          rewrite length_take. replace (k + m - k `min` length files)%nat with m by lia. done.
      - rewrite list_lookup_insert_ne by done. by apply Hp. }
    destruct b.
    + exists false. eexists. split_and!; [done|done|done|]. intros _. destruct (Hcov eq_refl) as (f & Hf & Hx). exists lvl, files, f.
      split_and!; [lia|done| |done..]. rewrite <- (take_drop k files). set_solver.
    + destruct (IH (S lvl) _ Hp' ltac:(lia) ltac:(lia)) as (b & ptrs' & -> & Hp2 & Hb & Hc). exists b, ptrs'. split_and!; [done|done| |].
      2:{ intros Ef. destruct (Hc Ef) as (i & fs & f & Hi & Hx). exists i, fs, f. split; [lia|done]. }
      intros -> i fs f e Hi Hfs Hf He. destruct (decide (i = lvl)) as [->|Hne]; [|by apply (Hb eq_refl i fs f e ltac:(lia))].
      assert (fs = files) as -> by congruence. pose proof (proj1 (Forall_forall _ _) Hfok f Hf) as Hff.
      destruct (entry_within entries f e Hff He) as (Ue & Hlo & Hhi).
      pose proof (proj1 (Forall_forall _ _) Hr f Hf) as Hrf. destruct (f_limit_ok f Hrf) as [Ul _], (f_start_ok f Hrf) as [Us _].
      pose proof (order_sym (compare := Compare) (order := uorder) _ _ Hu Ue).
      rewrite <- (take_drop k files) in Hf. apply elem_of_app in Hf as [Hf|Hf].
      * pose proof (proj1 (Forall_forall _ _) Hbefore f Hf).
        pose proof (order_le_lt_trans (compare := Compare) (order := uorder) (valid := uvalid) _ _ _ Ue Ul Hu Hhi ltac:(done)). lia.
      * rewrite <- (take_drop m (drop k files)) in Hf. apply elem_of_app in Hf as [Hf|Hf].
        -- pose proof (proj1 (Forall_forall _ _) Htake f Hf).
           pose proof (order_le_lt_trans (compare := Compare) (order := uorder) (valid := uvalid) _ _ _ Ue Ul Hu Hhi ltac:(done)). lia.
        -- assert (apart (drop k files)) as Hapd.
           { intros a b g h Hab Ha Hb'. rewrite lookup_drop in Ha, Hb'. by apply (Hap lvl files Hl Hpos (k + a)%nat (k + b)%nat); [lia|..]. }
           pose proof (proj1 (Forall_forall _ _) (Hrest eq_refl Hapd) f Hf).
           pose proof (order_lt_le_trans (compare := Compare) (order := uorder) (valid := uvalid) _ _ _ Hu Us Ue ltac:(done) Hlo). lia.
Qed.

Lemma IsBaseLevelForKey_ok levels x u :
  (forall files, files ∈ levels -> Forall file_ok files) -> (forall i files, levels !! i = Some files -> (0 < i)%nat -> apart files) ->
  length levels = Z.to_nat kNumLevels -> 0 <= level_ x < kNumLevels - 1 -> uvalid u -> ptrs_ok levels (level_ptrs_ x) u ->
  exists b ptrs, IsBaseLevelForKey levels x u = Some (b, with_ptrs x ptrs) /\ ptrs_ok levels ptrs u
    /\ (b = true -> forall i files f e, (Z.to_nat (level_ x + 2) <= i)%nat -> levels !! i = Some files -> f ∈ files -> e ∈ entries f ->
          uorder (ikey_user e.1) u <> 0)
    /\ (b = false -> covered levels (level_ x + 2) u).
Proof.
  intros Hok Hap Hlen Hl Hu Hp. unfold IsBaseLevelForKey.
  destruct (base_level_loop_ok (Z.to_nat (kNumLevels - (level_ x + 2))) levels (Z.to_nat (level_ x + 2)) u (level_ptrs_ x))
    as (b & ptrs & -> & Hp' & Hb & Hc); [done|done|done|done|rewrite Hlen; unfold kNumLevels in *; lia|lia|].
  cbn [mbind option_bind]. exists b, ptrs. split_and!; [done..|]. by rewrite Z2Nat.id in Hc by lia.
Qed.

(** ** The entries in order *)
Definition ikey_seq (k : bytes) : Z := ikey_tag k / 256.

(** A newer entry of the user key that every snapshot sees. *)
Definition hidden (snapshot : Z) (kvs : list (bytes * bytes)) (e : bytes * bytes) : Prop :=
  exists e', e' ∈ kvs /\ same e.1 e'.1 /\ ikey_tag e.1 < ikey_tag e'.1 /\ ikey_seq e'.1 <= snapshot.

(** A deletion that every snapshot sees, with nothing to delete in [deep]. *)
Definition obsolete_deletion (snapshot : Z) (deep : bytes * bytes -> Prop) (e : bytes * bytes) : Prop :=
  ikey_type e.1 = kTypeDeletion /\ ikey_seq e.1 <= snapshot /\ forall e', deep e' -> ~ same e'.1 e.1.

(** An entry that the loop keeps: no newer entry hides it, and a deletion that every
    snapshot sees has a file in the lower levels that may have its key. *)
Definition worth_keeping (levels : list (list FileRef)) (level snapshot : Z) (kvs : list (bytes * bytes)) (e : bytes * bytes) : Prop :=
  ~ hidden snapshot kvs e
  /\ (ikey_type e.1 = kTypeDeletion -> ikey_seq e.1 <= snapshot -> covered levels (level + 2) (ikey_user e.1)).

(** The state after the entries [done]. *)
Definition key_state_after (done : list (bytes * bytes)) (k : KeyState) : Prop :=
  match last done with
  | None => has_current_user_key k = false
  | Some e => has_current_user_key k = true /\ uvalid (current_user_key k) /\ uorder (ikey_user e.1) (current_user_key k) = 0
              /\ last_sequence_for_key k = ikey_seq e.1
  end.

Section Keep.
Context (levels : list (list FileRef)) (snapshot : Z) (kvs : list (bytes * bytes)) (deep : bytes * bytes -> Prop) (level : Z).
Context (Hok : forall files, files ∈ levels -> Forall file_ok files)
  (Hap : forall i files, levels !! i = Some files -> (0 < i)%nat -> apart files)
  (Hlen : length levels = Z.to_nat kNumLevels) (Hlevel : 0 <= level < kNumLevels - 1)
  (Hdeep : forall e, deep e -> exists i files f, (Z.to_nat (level + 2) <= i)%nat /\ levels !! i = Some files /\ f ∈ files /\ e ∈ entries f)
  (Hsnap : 0 <= snapshot < kMaxSequenceNumber)
  (Hv : Forall entry_valid kvs) (Hasc : ascending iorder kvs).

Lemma kvs_ivalid : Forall (fun kv => ivalid kv.1) kvs.
Proof. eapply Forall_impl; [exact Hv|]. by intros kv [H _]. Qed.

(** Of two entries the one before. *)
Lemma entries_before done e rest e' :
  kvs = done ++ e :: rest -> e' ∈ done -> iorder e'.1 e.1 < 0.
Proof.
  intros E [i Hi]%list_elem_of_lookup. apply (ascending_lt (CL := ikey_CompareLaw) kvs i (length done) e' e Hasc kvs_ivalid).
  - rewrite E. by apply lookup_app_l_Some.
  - rewrite E. by apply list_lookup_middle.
  - by eapply lookup_lt_Some.
Qed.

(** The entry before has the user key, if one of those before has it. *)
Lemma entry_between done l e rest e' :
  kvs = (done ++ [l]) ++ e :: rest -> e' ∈ done ++ [l] -> same e.1 e'.1 -> same e.1 l.1 /\ ikey_tag l.1 <= ikey_tag e'.1.
Proof.
  intros E He' Hs. assert (l ∈ done ++ [l]) as Hl by set_solver.
  pose proof (entries_before _ _ _ _ E Hl) as Hle. pose proof (entries_before _ _ _ _ E He') as He'e.
  assert (forall y, y ∈ done ++ e :: l :: rest -> uvalid (ikey_user y.1)) as HU.
  { intros y Hy. apply (proj1 (ikey_valid_user (uvalid := uvalid) y.1 (proj1 (Forall_forall _ _) kvs_ivalid y ltac:(rewrite E; set_solver)))). }
  pose proof (HU e ltac:(set_solver)) as Ue. pose proof (HU l ltac:(set_solver)) as Ul.
  apply elem_of_app in He' as [He'| ->%list_elem_of_singleton]; [|done].
  pose proof (HU e' ltac:(set_solver)) as Ue'. rewrite <- app_assoc in E. pose proof (entries_before _ _ _ _ E He') as He'l.
  pose proof (iorder_user _ _ (Z.lt_le_incl _ _ Hle)) as H1. pose proof (iorder_user _ _ (Z.lt_le_incl _ _ He'l)) as H2.
  pose proof (order_sym (compare := Compare) (order := uorder) _ _ Ue Ul). pose proof (order_sym (compare := Compare) (order := uorder) _ _ Ue Ue').
  pose proof (order_sym (compare := Compare) (order := uorder) _ _ Ue' Ul).
  assert (uorder (ikey_user e.1) (ikey_user l.1) <= 0).
  { apply (order_trans (compare := Compare) (valid := uvalid) _ (ikey_user e'.1)); [done..|lia|done]. }
  assert (same e.1 l.1) as Hsl by lia. split; [done|].
  assert (same e'.1 l.1) as Hs' by (apply (uorder_eq_trans _ (ikey_user e.1)); [done..|lia|done]).
  apply Z.lt_le_incl. by apply (iorder_same (uorder := uorder)).
Qed.

(** One entry. *)
Lemma drop_key_ok done e rest k x :
  kvs = done ++ e :: rest -> key_state_after done k -> level_ x = level ->
  ptrs_ok levels (level_ptrs_ x) (ikey_user e.1) ->
  exists b k' x', drop_key levels snapshot x k e.1 = Some (b, k', x') /\ key_state_after (done ++ [e]) k' /\ level_ x' = level
    /\ grandparents_ x' = grandparents_ x /\ ptrs_ok levels (level_ptrs_ x') (ikey_user e.1)
    /\ (if b then hidden snapshot kvs e \/ obsolete_deletion snapshot deep e else worth_keeping levels level snapshot kvs e).
Proof.
  intros E Hk Hx Hp. assert (e ∈ kvs) as He by (rewrite E; set_solver).
  destruct (proj1 (Forall_forall _ _) Hv e He) as [Ve Hty]. destruct (ikey_valid_user _ Ve) as [Ue _].
  unfold drop_key. rewrite (ikey_parse e.1 Ve). rewrite (proj2 (Z.leb_le _ _) Hty). cbn [user_key sequence type].
  (* the user key of the entry before *)
  assert (exists other : bool, (if has_current_user_key k then r ← Compare (ikey_user e.1) (current_user_key k); Some (negb (r =? 0)) else Some true) = Some other
    /\ (if other then forall e', e' ∈ done -> ~ same e.1 e'.1
        else exists d l, done = d ++ [l] /\ same e.1 l.1 /\ last_sequence_for_key k = ikey_seq l.1 /\ has_current_user_key k = true
             /\ uvalid (current_user_key k) /\ uorder (ikey_user e.1) (current_user_key k) = 0)) as (other & -> & Ho).
  { unfold key_state_after in Hk. destruct done as [|l d _] using rev_ind.
    - cbn [last] in Hk. rewrite Hk. exists true. split; [done|]. by intros e' ?%not_elem_of_nil.
    - rewrite last_snoc in Hk. destruct Hk as (-> & Vc & Hc & Hs). rewrite (Compare_order (compare := Compare)) by done. cbn [mbind option_bind].
      eexists. split; [done|]. assert (uvalid (ikey_user l.1)) as Ul.
      { apply (proj1 (ikey_valid_user (uvalid := uvalid) l.1 (proj1 (Forall_forall _ _) kvs_ivalid l ltac:(rewrite E; set_solver)))). }
      destruct (Z.eqb_spec (uorder (ikey_user e.1) (current_user_key k)) 0) as [E0|E0]; cbn [negb].
      + exists d, l. split_and!; [done| |done|done|done|done]. apply (uorder_eq_trans _ (current_user_key k)); [done..|by apply uorder_eq_sym].
      + intros e' He' Hs'. destruct (entry_between d l e rest e' E He' Hs') as [Hsl _]. apply E0.
        by apply (uorder_eq_trans _ (ikey_user l.1)). }
  cbn [mbind option_bind].
  set (k0 := if other then _ else k).
  assert (has_current_user_key k0 = true /\ uvalid (current_user_key k0) /\ uorder (ikey_user e.1) (current_user_key k0) = 0) as (K1 & K2 & K3).
  { unfold k0. destruct other; cbn [has_current_user_key current_user_key]; [|by destruct Ho as (d & l & _ & _ & _ & Ho)].
    split_and!; [done|done|]. by rewrite (order_refl (compare := Compare)). }
  assert (last_sequence_for_key k0 <= snapshot <-> hidden snapshot kvs e) as Hhid.
  { unfold k0. destruct other; cbn [last_sequence_for_key].
    - split; [lia|]. intros (e' & He' & Hs' & Ht & _). exfalso.
      rewrite E in He'. apply elem_of_app in He' as [He'|[->|He']%elem_of_cons]; [by apply (Ho e')|lia|].
      apply list_elem_of_split in He' as (r1 & r2 & ->).
      pose proof (entries_before (done ++ e :: r1) e' r2 e ltac:(by rewrite E, <- app_assoc) ltac:(set_solver)) as Hlt.
      apply (proj2 (iorder_same (uorder := uorder) _ _ Hs')) in Hlt || apply (iorder_same (uorder := uorder) _ _ Hs') in Hlt. lia.
    - destruct Ho as (d & l & -> & Hsl & -> & _). split.
      + intros Hle. exists l. split_and!; [rewrite E; set_solver|done| |done].
        apply (iorder_same (uorder := uorder)); [|by apply (entries_before (d ++ [l]) e rest l E); set_solver].
        apply uorder_eq_sym; [done| |done]. apply (proj1 (ikey_valid_user (uvalid := uvalid) l.1 (proj1 (Forall_forall _ _) kvs_ivalid l ltac:(rewrite E; set_solver)))).
      + intros (e' & He' & Hs' & Ht & Hq). rewrite E in He'. apply elem_of_app in He' as [He'|[->|He']%elem_of_cons]; [|lia|].
        * destruct (entry_between d l e rest e' E He' Hs') as [_ Hle]. unfold ikey_seq in *.
          pose proof (Z.div_le_mono _ _ 256 ltac:(lia) Hle). lia.
        * apply list_elem_of_split in He' as (r1 & r2 & ->).
          pose proof (entries_before ((d ++ [l]) ++ e :: r1) e' r2 e ltac:(by rewrite E, <- !app_assoc) ltac:(set_solver)) as Hlt.
          apply (iorder_same (uorder := uorder) _ _ Hs') in Hlt. lia. }
  set (k1 := {| current_user_key := current_user_key k0; has_current_user_key := has_current_user_key k0;
                last_sequence_for_key := ikey_seq e.1 |}).
  assert (key_state_after (done ++ [e]) k1) as Hk1 by (unfold key_state_after; by rewrite last_snoc).
  destruct (Z.leb_spec (last_sequence_for_key k0) snapshot) as [Hle|Hgt]; cbn [mbind option_bind].
  - eexists true, _, x. split_and!; [done|exact Hk1|done|done|done|]. left. by apply Hhid.
  - assert (~ hidden snapshot kvs e) as Hnh by (intros Hh; apply Hhid in Hh; lia).
    destruct ((ikey_type e.1 =? kTypeDeletion) && (ikey_tag e.1 / 256 <=? snapshot)) eqn:Edel.
    + apply andb_true_iff in Edel as [Ed%Z.eqb_eq Es%Z.leb_le].
      destruct (IsBaseLevelForKey_ok levels x (ikey_user e.1) Hok Hap Hlen ltac:(by rewrite Hx) Ue Hp) as (b & ptrs & -> & Hp' & Hb & Hc).
      cbn [mbind option_bind]. eexists b, _, _. split_and!; [done|exact Hk1|done|done|done|]. destruct b; [|split; [done|]; intros _ _; rewrite <- Hx; by apply Hc]. right.
      split_and!; [done|done|]. intros e' (i & files & f & Hi & Hl & Hf & He')%Hdeep. rewrite Hx in Hb. by apply (Hb eq_refl i files f e').
    + cbn [mbind option_bind]. eexists false, _, x. split_and!; [done|exact Hk1|done|done|done|]. split; [done|].
      intros Hd%Z.eqb_eq Hq%Z.leb_le. unfold ikey_seq in Hq. by rewrite Hd, Hq in Edel.
Qed.

End Keep.

(** ** Lookups *)

(** The entries of the levels from [level] on. *)
Definition deep_entries (levels : list (list FileRef)) (level : Z) (e : bytes * bytes) : Prop :=
  exists i files, (Z.to_nat level <= i)%nat /\ levels !! i = Some files /\ level_entries entries files e.

(** The entries [kvs] of the inputs of [x], in a version: what is above them is
    newer, what is in lower levels is older, and the files that stay [beside]
    them in their two levels have other user keys. *)
Record compaction_layout (levels : list (list FileRef)) (x : Compaction) (kvs : list (bytes * bytes))
    (above beside : bytes * bytes -> Prop) : Prop := {
  cl_files files : files ∈ levels -> Forall file_ok files;
  cl_apart i files : levels !! i = Some files -> (0 < i)%nat -> apart files;
  cl_levels : length levels = Z.to_nat kNumLevels /\ 0 <= level_ x < kNumLevels - 1;
  cl_start : level_ptrs_ x = replicate (Z.to_nat kNumLevels) 0;
  cl_kvs : Forall entry_valid kvs /\ ascending iorder kvs;
  cl_valid e : above e \/ beside e -> ivalid e.1;
  cl_above e e' : above e -> e' ∈ kvs -> same e.1 e'.1 -> ikey_tag e'.1 < ikey_tag e.1;
  cl_deep e e' : deep_entries levels (level_ x + 2) e -> e' ∈ kvs -> same e.1 e'.1 -> ikey_tag e.1 < ikey_tag e'.1;
  cl_beside e e' : beside e -> e' ∈ kvs -> ~ same e.1 e'.1
}.

Lemma start_ptrs_ok levels x u :
  length levels = Z.to_nat kNumLevels -> level_ptrs_ x = replicate (Z.to_nat kNumLevels) 0 -> ptrs_ok levels (level_ptrs_ x) u.
Proof.
  intros Hlen E lvl files Hl. exists 0%nat. rewrite E. split_and!; [|lia|by constructor].
  apply lookup_replicate. split; [done|]. apply lookup_lt_Some in Hl. lia.
Qed.

Lemma visible_tag ikey e : ivalid ikey -> ivalid e.1 -> same e.1 ikey ->
  visible_at (uorder := uorder) ikey e <-> ikey_tag e.1 <= ikey_tag ikey.
Proof.
  intros Vk Ve Hs. destruct (ikey_valid_user _ Vk) as [Uk _], (ikey_valid_user _ Ve) as [Ue _].
  pose proof (ikey_order_sym (uvalid := uvalid) (uorder := uorder) _ _ Vk Ve) as Hsym.
  destruct (iorder_same (uorder := uorder) ikey e.1) as [_ H]; [by apply uorder_eq_sym|]. unfold visible_at. rewrite <- H.
  split; [intros [_ ?]|intros ?; split; [done|]]; lia.
Qed.

(** Two entries of the inputs with the same user key and tag are the same. *)
Lemma kvs_unique kvs e e' :
  Forall entry_valid kvs -> ascending iorder kvs -> e ∈ kvs -> e' ∈ kvs -> same e.1 e'.1 -> ikey_tag e.1 = ikey_tag e'.1 -> e = e'.
Proof.
  intros Hv Ha [i Hi]%list_elem_of_lookup [j Hj]%list_elem_of_lookup Hs Ht.
  assert (Forall (fun kv => ivalid kv.1) kvs) as Hiv by (eapply Forall_impl; [exact Hv|]; by intros kv []).
  destruct (iorder_same (uorder := uorder) e.1 e'.1 Hs) as [Hlt _].
  destruct (Nat.lt_trichotomy i j) as [Hij|[->|Hij]]; [|congruence|].
  - pose proof (ascending_lt (CL := ikey_CompareLaw) kvs i j e e' Ha Hiv Hi Hj Hij). lia.
  - pose proof (ascending_lt (CL := ikey_CompareLaw) kvs j i e' e Ha Hiv Hj Hi Hij) as Hji.
    apply (iorder_same (uorder := uorder)) in Hji; [lia|].
    apply uorder_eq_sym; [| |done]; eapply ikey_valid_user_1, (Forall_lookup_1 _ _ _ _ Hiv); eassumption.
Qed.

Lemma lookup_kept levels x snapshot kvs above beside (kept : list (bytes * bytes)) value ikey oe :
  compaction_layout levels x kvs above beside -> ivalid ikey -> snapshot * 256 + kValueTypeForSeek <= ikey_tag ikey ->
  (forall e, e ∈ kept -> e ∈ kvs /\ ~ hidden snapshot kvs e) ->
  (forall e, e ∈ kvs -> e ∈ kept \/ hidden snapshot kvs e \/ obsolete_deletion snapshot (deep_entries levels (level_ x + 2)) e) ->
  let others (e : bytes * bytes) := above e \/ beside e \/ deep_entries levels (level_ x + 2) e in
  newest (fun e => e ∈ kvs \/ others e) ikey oe ->
  exists oe', newest (fun e => e ∈ kept \/ others e) ikey oe' /\ answer value oe' = answer value oe.
Proof.
  intros [C1 C2 C3 C4 [C5 C6] C7 C8 C9 C10] Vk Htag Hkept Hall others Hn.
  destruct oe as [e|].
  2: { exists None. split; [|done]. intros e [He|He]; apply Hn; [left; by apply Hkept|by right]. }
  destruct Hn as (He & Hvis & Hmax).
  assert (forall y, y ∈ kvs -> ivalid y.1 /\ uvalid (ikey_user y.1) /\ ikey_type y.1 <= kTypeValue) as HV.
  { intros y Hy. destruct (proj1 (Forall_forall _ _) C5 y Hy) as [Vy Hty]. split_and!; [done|exact (proj1 (ikey_valid_user _ Vy))|done]. }
  destruct (ikey_valid_user _ Vk) as [Uk _].
  assert (e ∈ kept \/ others e -> exists oe', newest (fun e => e ∈ kept \/ others e) ikey oe' /\ answer value oe' = answer value (Some e)) as Hstay.
  { intros Hin. exists (Some e). split; [|done]. split_and!; [done|done|]. intros e' [He'|He']; apply Hmax; [left; by apply Hkept|by right]. }
  destruct He as [He|He]; [|by apply Hstay; right]. destruct (Hall e He) as [Hk|[Hh|Hob]]; [by apply Hstay; left| |].
  - exfalso. destruct Hh as (e' & He' & Hs & Ht & Hq). destruct (HV e He) as (Ve & Ue & _), (HV e' He') as (Ve' & Ue' & Hty').
    assert (same e'.1 ikey) as Hs'.
    { destruct Hvis as [Hvu _]. apply (uorder_eq_trans _ (ikey_user e.1)); [done..|by apply uorder_eq_sym|done]. }
    assert (visible_at (uorder := uorder) ikey e') as Hvis'.
    { apply (visible_tag ikey e' Vk Ve' Hs'). unfold ikey_seq, ikey_type in *. pose proof (Z.div_mod (ikey_tag e'.1) 256 ltac:(lia)).
      unfold kValueTypeForSeek, kTypeValue in *. lia. }
    specialize (Hmax e' (or_introl He') Hvis'). lia.
  - destruct (decide (e ∈ kept)) as [Hk|Hk]; [by apply Hstay; left|]. destruct Hob as (Hdel & Hq & Hdeep).
    exists None. split; [|cbn [answer]; by rewrite Hdel]. intros e' Hin' Hvis'. destruct (HV e He) as (Ve & Ue & _).
    assert (ivalid e'.1) as Ve'.
    { destruct Hin' as [Hin'|[Ha|[Hb|(i & files & _ & Hl & f & Hf & He')]]]; [by apply HV, Hkept|by apply C7; left|by apply C7; right|].
      exact (proj1 (entry_key_valid entries f e' (proj1 (Forall_forall _ _) (C1 files ltac:(by eapply list_elem_of_lookup_2)) f Hf) He')). }
    destruct (ikey_valid_user _ Ve') as [Ue' _].
    assert (same e'.1 e.1) as Hs.
    { destruct Hvis as [Hvu _], Hvis' as [Hvu' _]. apply (uorder_eq_trans _ (ikey_user ikey)); [done..|by apply uorder_eq_sym]. }
    assert (ikey_tag e'.1 <= ikey_tag e.1) as Hle.
    { apply Hmax; [|done]. destruct Hin' as [Hin'|?]; [left; by apply Hkept|by right]. }
    destruct Hin' as [Hin'|[Ha|[Hb|Hd]]].
    + destruct (Hkept e' Hin') as [Hin'' Hnh]. destruct (Z.eq_dec (ikey_tag e'.1) (ikey_tag e.1)) as [Et|Hne].
      * apply Hk. by rewrite <- (kvs_unique kvs e' e C5 C6 Hin'' He Hs Et).
      * apply Hnh. exists e. split_and!; [done|done|lia|done].
    + specialize (C8 e' e Ha He Hs). lia.
    + by apply (C10 e' e Hb He).
    + by apply (Hdeep e' Hd).
Qed.

End Drop.

(** * The output files of a compaction *)
Section Outputs.
Context {E Sq R : Type} {EV : Env E Sq R} {SF : SequentialFile Sq} {RF : RandomAccessFile R} {SN : Snappy} {SL : SnappyLaw SN}.
Context {names : E -> gmap bytes bytes} {openf : E -> gmap Z OpenFile} {unread : Sq -> bytes} {reliable : Sq -> bool} {readable : E -> Prop}.
Context {EL : EnvLaw names openf unread reliable readable} (Hread : forall e, readable e).
Context {C B : Type} {CA : Cache C (Table R)} {BC : BlockCache B}.
Context {idle : (bytes -> Table R -> Prop) -> C -> Prop} {CLaw : CacheLaw C (Table R) idle}.
Context {blocks : (Z -> Z -> Block -> Prop) -> B -> Prop} {given : B -> Z -> Prop} {dead : Z -> Prop} {BLaw : BlockCacheLaw B blocks given dead}.
Context {U : Comparator} {uvalid : bytes -> Prop} {uorder : bytes -> bytes -> Z} {UL : ComparatorLaw U uvalid uorder}.
#[local] Abbreviation ivalid := (ikey_valid uvalid).
#[local] Abbreviation iorder := (ikey_order uorder).
#[local] Existing Instance ikey_CompareLaw.
Context (o : Options) (Ho : internal_options (U := U) (uvalid := uvalid) (uorder := uorder) o) (Hoo : options_ok o ivalid) (dbname : bytes) (fuel : nat).
#[local] Abbreviation tables_before := (tables_before (names := names) (idle := idle) (blocks := blocks) (given := given) (dead := dead)
  (uvalid := uvalid) (uorder := uorder) o dbname).
#[local] Abbreviation tables_ok := (tables_ok (names := names) (idle := idle) (blocks := blocks) (given := given) (dead := dead)
  (uvalid := uvalid) (uorder := uorder) o dbname).
#[local] Abbreviation table_input := (table_input (E := E) (Sq := Sq) (R := R) (uvalid := uvalid) (uorder := uorder) o).

(** The files that are there at the start. *)
Context (entries0 : FileRef -> list (bytes * bytes)) (live0 : FileRef -> Prop).

Definition next_file (d : DB (E := E) (C := C) (B := B)) : Z := vs_next_file_number (db_versions d).

(** Nobody closes the database, and no table in memory waits to be written. *)
Record calm (d : DB (E := E) (C := C) (B := B)) : Prop := {
  cm_options : db_options d = o;
  cm_name : db_name d = dbname;
  cm_imm : db_has_imm d = false;
  cm_running : db_shutting_down d = false
}.

Definition output_file (out : Output) : FileRef :=
  {| f_addr := 0; f_meta := FileMetaData_make (out_number out) (out_file_size out) (out_smallest out) (out_largest out) |}.

Definition output_range (out : Output) (kvs : list (bytes * bytes)) : Prop :=
  Some (out_smallest out) = fst <$> head kvs /\ Some (out_largest out) = fst <$> last kvs.

(** The finished files have the entries [chunks]; no file with a number from [n] on
    is open. *)
Definition finished (outs : list Output) (chunks : list (list (bytes * bytes))) (e : E) (t : TableCache C B) (n : Z) : Prop :=
  exists entries live, tables_before entries live e t n
    /\ (forall f, live0 f -> live f /\ entries f = entries0 f)
    /\ Forall2 (fun out kvs => live (output_file out) /\ entries (output_file out) = kvs /\ output_range out kvs) outs chunks
    /\ forall m, n <= m -> in_uint 64 m -> not_open openf e (TableFileName dbname m).

(** No file is open. *)
Record closed_at (d : DB (E := E) (C := C) (B := B)) (c : CompactionState (E := E)) (chunks : list (list (bytes * bytes))) : Prop := {
  ca_builder : builder c = None;
  ca_file : outfile c = None;
  ca_next : 0 < next_file d;
  ca_done : finished (outputs c) chunks (db_e d) (db_tables d) (next_file d)
}.

(** A file is open, [out], which was opened in [e]: the builder [b] has the entries [cur]. *)
Record opened_at (d : DB (E := E) (C := C) (B := B)) (c : CompactionState (E := E)) (chunks : list (list (bytes * bytes))) (cur : list (bytes * bytes))
    (outs : list Output) (out : Output) (e e0 : E) (a : Z) (r0 b : TableBuilder (E * Z)) : Prop := {
  oa_outputs : outputs c = outs ++ [out];
  oa_builder : builder c = Some b;
  oa_file : outfile c = Some a;
  oa_number : 0 < out_number out /\ out_number out + 1 = next_file d;
  oa_done : finished outs chunks e (db_tables d) (out_number out);
  oa_free : openf e !! a = None;
  oa_open : openf e0 = <[a := {| of_name := TableFileName dbname (out_number out); of_data := []; of_idle := true |}]> (openf e);
  oa_names : names e0 = <[TableFileName dbname (out_number out) := []]> (names e);
  oa_new : TableBuilder_new o (e0, a) = Some r0;
  oa_added : table_add_all r0 cur = Some b;
  oa_env : db_e d = (tb_file b).1;
  oa_range : tb_ok b = true -> cur <> [] -> output_range out cur
}.

Definition output_state (d : DB (E := E) (C := C) (B := B)) (c : CompactionState (E := E)) (chunks : list (list (bytes * bytes))) (cur : list (bytes * bytes)) : Prop :=
  match cur with
  | [] => closed_at d c chunks
  | _ => exists outs out e e0 a r0 b, opened_at d c chunks cur outs out e e0 a r0 b
  end.

(** What an operation leaves as it is. *)
Record kept_state (d : DB (E := E) (C := C) (B := B)) (c : CompactionState (E := E)) (d' : DB (E := E) (C := C) (B := B)) (c' : CompactionState (E := E)) (n : Z) : Prop := {
  kt_calm : calm d -> calm d';
  kt_next : next_file d <= next_file d' <= next_file d + n;
  kt_compaction : compaction c' = compaction c;
  kt_snapshot : smallest_snapshot c' = smallest_snapshot c
}.

(** The files of the start are still found. *)
Definition still_good (d : DB (E := E) (C := C) (B := B)) : Prop := tables_ok entries0 live0 (db_e d, db_tables d).

Lemma start_tables entries live e t n :
  (forall f, live0 f -> live f /\ entries f = entries0 f) -> tables_before entries live e t n -> tables_ok entries0 live0 (e, t).
Proof.
  intros Hold H. apply (tables_fewer o dbname entries live); [intros g Hg; by destruct (Hold g Hg)|]. by apply (tables_before_ok o dbname _ _ _ _ n).
Qed.

(** ** Opening a file *)
Lemma OpenCompactionOutputFile_ok d c chunks :
  calm d -> closed_at d c chunks -> next_file d + 1 < 2 ^ 64 ->
  exists s c' d', OpenCompactionOutputFile d c = Some (s, c', d') /\ kept_state d c d' c' 1
    /\ if Status_ok s then exists out e0 a b, opened_at d' c' chunks [] (outputs c) out (db_e d) e0 a b b else still_good d'.
Proof.
  intros [C1 C2 C3 C4] [A1 A2 A3 (entries & live & A4 & A5 & A6 & A7)] Hn. unfold OpenCompactionOutputFile. rewrite A1. rewrite bool_decide_eq_false_2 by (by intros [? ?]).
  unfold NewFileNumber_pending, NewFileNumber. fold (next_file d). cbn [db_name db_e db_with_pending db_with_files db_with_env db_options].
  assert (u64 (next_file d + 1) = next_file d + 1) as Hu by (apply uint_small; unfold in_uint; lia).
  rewrite C2. destruct (NewWritableFile (db_e d) (TableFileName dbname (next_file d))) as [[s file] e0] eqn:Ew.
  apply (env_new_writable _ _ (EnvLaw := EL)) in Ew; [|by apply A7; [lia|unfold in_uint; lia]].
  destruct (Status_ok s) eqn:Es.
  - destruct Ew as (a & -> & Hfree & Ho0 & Hn0). cbn [mbind option_bind]. rewrite C1.
    destruct Hoo as [O1 O2 O3 O4].
    destruct (TableBuilder_new_ok (contents := handle_data openf) o
      (valid := ivalid) (order := iorder) O2 O3 (e0, a)) as (r0 & E0 & Ef0 & _).
    { unfold handle_data. cbn [fst snd]. by rewrite Ho0, lookup_insert_eq. }
    rewrite E0. cbn [mbind option_bind]. eexists _, _, _. split; [done|]. split.
    + split; [by split|split; cbv [next_file] in *; cbn in *; lia|done|done].
    + rewrite Es. eexists {| out_number := next_file d; out_file_size := 0; out_smallest := []; out_largest := [] |}, e0, a, r0. split; try done.
      * cbn. by exists entries, live.
      * cbn. by rewrite Ef0.
  - eexists _, _, _. split; [done|]. rewrite Es. split.
    2:{ destruct Ew as (_ & En & _). apply (start_tables entries live _ _ (next_file d)); [done|].
        apply (tables_before_names o dbname entries live (db_e d) _ _ (next_file d)); [|unfold in_uint; lia|done|done]. intros m _. cbn. by rewrite En. }
    split; [by split|split; cbv [next_file] in *; cbn in *; lia|done|done].
Qed.

(** ** Adding an entry *)
Lemma builder_in_env (b : TableBuilder (E * Z)) e : e = (tb_file b).1 -> builder_in e b = b.
Proof. intros ->. destruct b as [? ? [e a]]. done. Qed.

Lemma table_add_all_snoc (r r1 : TableBuilder (E * Z)) kvs kv :
  table_add_all r kvs = Some r1 -> table_add_all r (kvs ++ [kv]) = TableBuilder_Add r1 kv.1 kv.2.
Proof.
  destruct kv as [k v]. revert r. induction kvs as [|[k' v'] kvs IH]; intros r; cbn [table_add_all app].
  - intros [= ->]. cbn. by destruct (TableBuilder_Add r1 k v).
  - intros (r2 & -> & H)%bind_Some. cbn [mbind option_bind]. by apply IH.
Qed.

Lemma set_current_output_snoc outs out f : set_current_output (outs ++ [out]) f = Some (outs ++ [f out]).
Proof. unfold set_current_output. rewrite last_snoc. cbn [mbind option_bind]. by rewrite removelast_last. Qed.

Lemma new_file_linked (e e0 : E) a n :
  openf e0 = <[a := {| of_name := n; of_data := []; of_idle := true |}]> (openf e) -> names e0 = <[n := []]> (names e) ->
  LdbManifestThms.linked (names := names) (opened := openf) e0 a n [] true.
Proof. intros H1 H2. split; [rewrite H1|rewrite H2]; apply lookup_insert_eq. Qed.

Lemma opened_builder d c chunks cur outs out e e0 a r0 b :
  opened_at d c chunks cur outs out e e0 a r0 b -> table_input cur ->
  (tb_failed b \/ (tb_ok b = true /\ TableBuilder_NumEntries b = zlen cur))
  /\ only_file (names := names) (opened := openf) (TableFileName dbname (out_number out)) (e0, a) (tb_file b).
Proof.
  intros H Hin. destruct (builder_adds (EL := EL) o Ho Hoo e0 a _ cur Hin (new_file_linked e e0 a _ (oa_open _ _ _ _ _ _ _ _ _ _ _ H) (oa_names _ _ _ _ _ _ _ _ _ _ _ H)))
    as (r0' & b' & E0 & _ & E1 & Hb & Hf).
  rewrite (oa_new _ _ _ _ _ _ _ _ _ _ _ H) in E0. injection E0 as <-. rewrite (oa_added _ _ _ _ _ _ _ _ _ _ _ H) in E1. injection E1 as <-. done.
Qed.

(** The entry, and the keys of [out]. *)
Definition output_with (b : TableBuilder (E * Z)) (key : bytes) (out : Output) : Output :=
  {| out_number := out_number out; out_file_size := out_file_size out;
     out_smallest := if TableBuilder_NumEntries b =? 0 then key else out_smallest out; out_largest := key |}.

Lemma builder_add_ok d c chunks cur outs out e e0 a r0 b key value :
  opened_at d c chunks cur outs out e e0 a r0 b -> table_input cur -> table_input (cur ++ [(key, value)]) ->
  exists b', TableBuilder_Add b key value = Some b'
    /\ opened_at (db_with_env d (tb_file b').1) (cs_with_output c (outs ++ [output_with b key out]) (outfile c) (Some b') (total_bytes c))
         chunks (cur ++ [(key, value)]) outs (output_with b key out) e e0 a r0 b'.
Proof.
  intros H Hcur Hin. pose proof H as [H1 H2 H3 H4 H5 H6 H7 H8 H9 H10 H11 H12].
  destruct (builder_adds (EL := EL) o Ho Hoo e0 a _ _ Hin (new_file_linked e e0 a _ H7 H8)) as (r0' & b' & E0 & _ & E1 & Hb' & _).
  assert (r0' = r0) as -> by congruence. rewrite (table_add_all_snoc r0 b cur _ H10) in E1. cbn [fst snd] in E1. exists b'. split; [done|]. split; try done.
  - by rewrite (table_add_all_snoc r0 b cur _ H10).
  - intros Hok _. destruct (opened_builder d c chunks cur outs out e e0 a r0 b H Hcur) as [[Hf|[Hb Hnum]] _].
    { rewrite (TableBuilder_Add_failed b key value Hf) in E1. injection E1 as <-. destruct Hf. congruence. }
    split; cbn [output_with out_smallest out_largest]; [|by rewrite last_snoc]. rewrite Hnum. destruct cur as [|kv cur]; [done|].
    cbn [app head]. rewrite (proj2 (Z.eqb_neq _ _)) by (rewrite zlen_cons; pose proof (zlen_nonneg cur); lia).
    by apply H12.
Qed.

(** ** Finishing a file *)
Lemma finished_chunk outs out chunks cur e e' t t2 entries live sz :
  (forall f, live0 f -> live f /\ entries f = entries0 f) ->
  Forall2 (fun out kvs => live (output_file out) /\ entries (output_file out) = kvs /\ output_range out kvs) outs chunks ->
  tables_before entries live e t (out_number out) ->
  tables_before (with_entries entries (out_number out) cur) (fun f => live f \/ (f_number f = out_number out /\ f_size f = sz)) e' t2 (out_number out + 1) ->
  openf e' = openf e -> (forall m, out_number out <= m -> in_uint 64 m -> not_open openf e (TableFileName dbname m)) ->
  out_file_size out = sz -> output_range out cur ->
  finished (outs ++ [out]) (chunks ++ [cur]) e' t2 (out_number out + 1).
Proof.
  intros Hold Houts Hb Hb' Ho' Hno Hsz Hr. eexists _, _. split; [exact Hb'|].
  assert (forall f, live f -> with_entries entries (out_number out) cur f = entries f) as Hsame.
  { intros f Hf. unfold with_entries. destruct (tn_in _ _ _ _ _ _ _ Hb f Hf) as [_ Hlt]. by rewrite (proj2 (Z.eqb_neq _ _)) by lia. }
  split_and!.
  - intros f Hf. destruct (Hold f Hf) as [Hl He]. split; [by left|]. by rewrite Hsame.
  - apply Forall2_app.
    + eapply Forall2_impl; [exact Houts|]. intros x kvs (Hl & He & Hx). split_and!; [by left| |done]. by rewrite Hsame.
    + constructor; [|constructor]. split_and!; [right; by split| |done]. unfold with_entries. change (f_number (output_file out)) with (out_number out). by rewrite Z.eqb_refl.
  - intros m Hm. unfold not_open. rewrite Ho'. apply Hno. lia.
Qed.

Lemma FinishCompactionOutputFile_ok d c chunks cur outs out e e0 a r0 b :
  opened_at d c chunks cur outs out e e0 a r0 b -> table_input cur -> cur <> [] -> in_uint 64 (next_file d) ->
  exists s c' d', FinishCompactionOutputFile fuel d c Status_OK = Some (s, c', d') /\ kept_state d c d' c' 0
    /\ if Status_ok s then closed_at d' c' (chunks ++ [cur]) else still_good d'.
Proof.
  intros H Hin Hne Hnext. pose proof H as [H1 H2 H3 [H4 H4'] (entries & live & D1 & D2 & D3 & D4) H6 H7 H8 H9 H10 H11 H12].
  assert (in_uint 64 (out_number out)) as Hn by (unfold in_uint in *; lia).
  destruct (file_finished (EL := EL) o Ho Hoo e e0 a _ cur r0 b Hin H6 H7 H8 H9 H10) as (s & r2 & e2 & E2 & Ef & Hpos & Hclose).
  unfold FinishCompactionOutputFile. rewrite H1, H2, H3, last_snoc. cbn [mbind option_bind]. rewrite (proj2 (Z.eqb_neq _ _)) by lia.
  rewrite (builder_in_env b _ H11). cbn [Status_ok Status_OK]. rewrite E2. cbn [mbind option_bind]. rewrite set_current_output_snoc. cbn [mbind option_bind].
  rewrite Ef. destruct (if Status_ok s then File_Sync e2 a else (s, e2)) as [s3 e3]. destruct (if Status_ok s3 then File_Close e3 a else (s3, e3)) as [s4 e4].
  destruct (Hclose _ _ eq_refl) as ([Ho5 Hn5] & Hok). clear Hclose. set (e5 := File_delete e4 a) in *.
  assert (tables_before entries live e5 (db_tables d) (out_number out)) as D5 by (by apply (tables_before_names o dbname entries live e e5 _ (out_number out))).
  destruct (Status_ok s4) eqn:Es4.
  2:{ cbn [andb mbind option_bind]. eexists _, _, _. split; [done|]. rewrite Es4. split; [|by apply (start_tables entries live _ _ (out_number out))]. split; [by intros [? ? ? ?]|unfold next_file; cbn; lia|done|done]. }
  destruct (Hok eq_refl) as (Hs & data & done & ixs & footer & En & Esz & Ed & T).
  assert (TableBuilder_NumEntries b = zlen cur /\ tb_ok b = true) as [Hnum Hb].
  { destruct (opened_builder d c chunks cur outs out e e0 a r0 b H Hin) as [[Hf|[Hb Hnum]] _]; [|done].
    destruct (TableBuilder_Finish_failed b Hf) as (r' & E' & Hr'). rewrite E' in E2. injection E2 as <- <-. unfold tb_ok in Hr'. congruence. }
  rewrite Hnum. assert (0 < zlen cur) as Hcur by (destruct cur; [done|]; rewrite zlen_cons; pose proof (zlen_nonneg cur); lia).
  rewrite (proj2 (Z.gtb_lt _ _) Hcur). cbn [andb].
  destruct (open_new_table (EL := EL) (idle := idle) (blocks := blocks) (given := given) (dead := dead) Hread o Ho Hoo dbname entries live e5 (db_tables d) (out_number out) (zlen data) cur data done ixs footer)
    as (it & t1 & t2 & V1 & V2 & V3 & V4); [done..|].
  rewrite <- Esz, V1. cbn [mbind option_bind]. rewrite V2. cbn [mbind option_bind]. rewrite V3. cbn [mbind option_bind].
  eexists _, _, _. split; [done|]. split; [split; [by intros [? ? ? ?]|unfold next_file; cbn; lia|done|done]|].
  cbn [Status_ok Status_OK]. split; [done|done|unfold next_file in *; cbn; lia|]. unfold next_file. cbn [db_versions db_e db_tables db_with_files outputs cs_with_output].
  fold (next_file d). rewrite <- H4'.
  exact (finished_chunk outs {| out_number := out_number out; out_file_size := zlen data; out_smallest := out_smallest out; out_largest := out_largest out |}
    chunks cur e e5 (db_tables d) t2 entries live (zlen data) D2 D3 D1 V4 Ho5 D4 eq_refl (H12 Hb Hne)).
Qed.

(** ** The state between two entries *)
Lemma output_state_opened d c chunks cur :
  cur <> [] -> output_state d c chunks cur <-> exists outs out e e0 a r0 b, opened_at d c chunks cur outs out e e0 a r0 b.
Proof. by destruct cur. Qed.

Lemma output_state_builder d c chunks cur : output_state d c chunks cur -> bool_decide (is_Some (builder c)) = bool_decide (cur <> []).
Proof.
  destruct cur as [|kv cur]; intros H.
  - rewrite (ca_builder _ _ _ H). rewrite !bool_decide_eq_false_2; [done|by intros Hn|by intros [? ?]].
  - destruct H as (outs & out & e & e0 & a & r0 & b & H). rewrite (oa_builder _ _ _ _ _ _ _ _ _ _ _ H). rewrite !bool_decide_eq_true_2; [done|done|by eexists].
Qed.

Lemma output_state_compaction d c x snapshot chunks cur :
  output_state d c chunks cur -> output_state d (cs_with_compaction c x snapshot) chunks cur.
Proof.
  destruct cur as [|kv cur].
  - intros [H1 H2 H3 H4]. by split.
  - intros (outs & out & e & e0 & a & r0 & b & [H1 H2 H3 H4 H5 H6 H7 H8 H9 H10 H11 H12]). exists outs, out, e, e0, a, r0, b. by split.
Qed.

Lemma output_state_tables d c chunks cur :
  output_state d c chunks cur -> table_input cur -> in_uint 64 (next_file d) -> still_good d.
Proof.
  intros H Hin Hn. destruct cur as [|kv cur].
  - destruct H as [_ _ _ (entries & live & D1 & D2 & _)]. by apply (start_tables entries live _ _ (next_file d)).
  - destruct H as (outs & out & e & e0 & a & r0 & b & H). destruct (opened_builder _ _ _ _ _ _ _ _ _ _ _ H Hin) as [_ [_ Hf]].
    destruct H as [H1 H2 H3 [H4 H4'] (entries & live & D1 & D2 & D3 & D4) H6 H7 H8 H9 H10 H11 H12].
    destruct (Hf [] true (new_file_linked e e0 a _ H7 H8)) as (data & x & _ & En). cbn [fst snd] in En.
    apply (start_tables entries live _ _ (out_number out)); [done|].
    apply (tables_before_names o dbname entries live e _ _ (out_number out)); [|unfold in_uint in *; lia|done|done].
    intros m Hm. rewrite H11, En, H8. by rewrite !lookup_insert_ne by done.
Qed.

Lemma kept_state_trans d c d' c' d'' c'' n m : kept_state d c d' c' n -> kept_state d' c' d'' c'' m -> kept_state d c d'' c'' (n + m).
Proof. intros [H1 H2 H3 H4] [K1 K2 K3 K4]. split; [by auto|lia|congruence|congruence]. Qed.

(** An entry is added, in a new file if none is open; the file may be finished. *)
Lemma add_entry_ok d c chunks cur kv :
  calm d -> output_state d c chunks cur -> 0 < next_file d -> next_file d + 1 < 2 ^ 64 -> table_input cur -> table_input (cur ++ [kv]) ->
  exists s c' d', add_entry fuel d c kv.1 kv.2 Status_OK = Some (s, c', d') /\ kept_state d c d' c' 1
    /\ if Status_ok s then exists chunks' cur', output_state d' c' chunks' cur' /\ concat chunks' ++ cur' = concat chunks ++ cur ++ [kv]
       else still_good d'.
Proof.
  intros Hcalm Hst Hpos Hnext Hcur Hin. destruct kv as [key value]. cbn [fst snd]. unfold add_entry. rewrite (output_state_builder d c chunks cur Hst).
  assert (exists s c1 d1, (if bool_decide (cur <> []) then Some (Status_OK, c, d) else OpenCompactionOutputFile d c) = Some (s, c1, d1)
    /\ kept_state d c d1 c1 1 /\ if Status_ok s then exists outs out e e0 a r0 b, opened_at d1 c1 chunks cur outs out e e0 a r0 b else still_good d1) as (s & c1 & d1 & -> & Hk & Ho1).
  { case_bool_decide as Hne.
    - exists Status_OK, c, d. split; [done|]. split; [split; [done|lia|done|done]|]. by apply output_state_opened.
    - assert (cur = []) as -> by (destruct cur; [done|by destruct Hne]).
      destruct (OpenCompactionOutputFile_ok d c chunks Hcalm Hst Hnext) as (s & c1 & d1 & -> & Hk & H1). exists s, c1, d1. split; [done|]. split; [done|].
      destruct (Status_ok s); [|done]. destruct H1 as (out & e0 & a & b & H). by eexists _, _, _, _, _, _, _. }
  cbn [mbind option_bind]. destruct (Status_ok s) eqn:Es; cbn [negb].
  2:{ eexists _, _, _. split; [done|]. rewrite Es. split; [exact Hk|done]. }
  destruct Ho1 as (outs & out & e & e0 & a & r0 & b & H).
  destruct (builder_add_ok d1 c1 chunks cur outs out e e0 a r0 b key value H Hcur Hin) as (b' & Eb & H').
  rewrite (oa_builder _ _ _ _ _ _ _ _ _ _ _ H). cbn [mbind option_bind]. rewrite (oa_outputs _ _ _ _ _ _ _ _ _ _ _ H), set_current_output_snoc. cbn [mbind option_bind].
  rewrite (builder_in_env b _ (oa_env _ _ _ _ _ _ _ _ _ _ _ H)), Eb. cbn [mbind option_bind].
  fold (output_with b key out). set (c2 := cs_with_output c1 _ _ _ _) in *. set (d2 := db_with_env d1 _) in *.
  assert (kept_state d1 c1 d2 c2 0) as Hk2 by (split; [by intros [? ? ? ?]|unfold next_file; cbn; lia|done|done]).
  destruct (_ >=? _).
  - destruct (FinishCompactionOutputFile_ok d2 c2 chunks _ outs _ e e0 a r0 b' H' Hin) as (s' & c3 & d3 & -> & Hk3 & H3); [by destruct cur| |].
    { destruct Hk as [_ Hk _ _]. unfold in_uint. change (next_file d2) with (next_file d1). lia. }
    exists s', c3, d3. split; [done|]. split; [exact (kept_state_trans _ _ _ _ _ _ _ _ Hk (kept_state_trans _ _ _ _ _ _ _ _ Hk2 Hk3))|].
    destruct (Status_ok s'); [|done]. exists (chunks ++ [cur ++ [(key, value)]]), []. split; [done|]. rewrite concat_app. cbn. by rewrite !app_nil_r.
  - exists Status_OK, c2, d2. split; [done|]. split; [exact (kept_state_trans _ _ _ _ _ _ _ _ Hk Hk2)|].
    exists chunks, (cur ++ [(key, value)]). split; [|done]. apply output_state_opened; [by destruct cur|]. by eexists _, _, _, _, _, _, _.
Qed.

(** *** Where the output is cut *)
Lemma grandparents_before_ok files key seen index overlapped :
  Forall (range_ok (uvalid := uvalid) (uorder := uorder)) files -> ivalid key ->
  exists r, grandparents_before files key seen index overlapped = Some r.
Proof.
  intros Hf Hk. revert index overlapped. induction Hf as [|f files (_ & Vf & _) Hf IH]; intros index overlapped; cbn [grandparents_before]; [by eexists|].
  rewrite (Compare_order (compare := InternalKey_Compare)) by done. cbn [mbind option_bind]. destruct (_ >? 0); [apply IH|by eexists].
Qed.

Lemma ShouldStopBefore_ok options x key :
  Forall (range_ok (uvalid := uvalid) (uorder := uorder)) (grandparents_ x) -> ivalid key ->
  exists stop index seen overlapped, ShouldStopBefore options x key = Some (stop, with_grandparents x index seen overlapped).
Proof.
  intros Hg Hk. unfold ShouldStopBefore.
  destruct (grandparents_before_ok (drop (Z.to_nat (grandparent_index_ x)) (grandparents_ x)) key (seen_key_ x) (grandparent_index_ x) (overlapped_bytes_ x))
    as ([index overlapped] & ->); [by apply Forall_drop|done|]. cbn [mbind option_bind]. destruct (_ >? _); by eexists _, _, _, _.
Qed.

(** An open file is finished first, if it should be. *)
Lemma stop_before_ok d c chunks cur (stop : bool) :
  output_state d c chunks cur -> table_input cur -> in_uint 64 (next_file d) ->
  exists s c' d', (if stop && bool_decide (is_Some (builder c)) then FinishCompactionOutputFile fuel d c Status_OK else Some (Status_OK, c, d)) = Some (s, c', d')
    /\ kept_state d c d' c' 0
    /\ if Status_ok s then exists chunks' cur', output_state d' c' chunks' cur' /\ concat chunks' ++ cur' = concat chunks ++ cur else still_good d'.
Proof.
  intros Hst Hin Hn. rewrite (output_state_builder d c chunks cur Hst).
  destruct (decide (cur = [])) as [->|Hne].
  - rewrite bool_decide_eq_false_2 by (by intros Hx). rewrite andb_false_r. exists Status_OK, c, d. split; [done|]. split; [split; [done|lia|done|done]|].
    by exists chunks, [].
  - rewrite bool_decide_eq_true_2 by done. rewrite andb_true_r. destruct stop.
    + pose proof Hst as (outs & out & e & e0 & a & r0 & b & H)%output_state_opened; [|done].
      destruct (FinishCompactionOutputFile_ok d c chunks cur outs out e e0 a r0 b H Hin Hne Hn) as (s & c' & d' & -> & Hk & Hc). exists s, c', d'.
      split; [done|]. split; [done|]. destruct (Status_ok s); [|done]. exists (chunks ++ [cur]), []. split; [done|]. rewrite concat_app. cbn. by rewrite !app_nil_r.
    + exists Status_OK, c, d. split; [done|]. split; [split; [done|lia|done|done]|]. by exists chunks, cur.
Qed.

(** ** The loop *)
Section Loop.
Context (entries : FileRef -> list (bytes * bytes)) (levels : list (list FileRef)) (snapshot : Z) (kvs : list (bytes * bytes)) (level : Z).
#[local] Abbreviation deep := (deep_entries entries levels (level + 2)).
#[local] Abbreviation hidden := (hidden (uorder := uorder)).
#[local] Abbreviation obsolete_deletion := (obsolete_deletion (uorder := uorder)).
Context (Hok : forall files, files ∈ levels -> Forall (file_ok (uvalid := uvalid) (uorder := uorder) entries) files)
  (Hap : forall i files, levels !! i = Some files -> (0 < i)%nat -> apart (uorder := uorder) files)
  (Hlen : length levels = Z.to_nat kNumLevels) (Hlevel : 0 <= level < kNumLevels - 1)
  (Hsnap : 0 <= snapshot < kMaxSequenceNumber)
  (Hv : Forall (entry_valid (uvalid := uvalid)) kvs) (Hasc : ascending iorder kvs)
  (Hinput : forall ch, sublist ch kvs -> table_input ch).
Context (lv : Input (R := R) -> Prop) (at_pos : Input (R := R) -> nat -> Prop)
  (Hreads : forall d, db_options d = o -> still_good d ->
              IteratorLaw ivalid iorder (Input_Iterator fuel d) kvs lv at_pos).

Lemma deep_in e : deep e -> exists i files f, (Z.to_nat (level + 2) <= i)%nat /\ levels !! i = Some files /\ f ∈ files /\ e ∈ entries f.
Proof. intros (i & files & Hi & Hl & f & Hf & He). by exists i, files, f. Qed.

(** What was written of the entries [done]. *)
Record kept_of (done kept : list (bytes * bytes)) : Prop := {
  ko_sub : sublist kept done;
  ko_worth e : e ∈ kept -> worth_keeping (uorder := uorder) levels level snapshot kvs e;
  ko_all e : e ∈ done -> e ∈ kept \/ hidden snapshot kvs e \/ obsolete_deletion snapshot deep e
}.

(** The loop is before the entries [rest]. *)
Record loop_at (done rest : list (bytes * bytes)) (d : DB (E := E) (C := C) (B := B)) (c : CompactionState (E := E)) (k : KeyState)
    (chunks : list (list (bytes * bytes))) (cur : list (bytes * bytes)) : Prop := {
  la_calm : calm d;
  la_next : 0 < next_file d /\ next_file d + zlen rest < 2 ^ 64;
  la_state : output_state d c chunks cur;
  la_kept : kept_of done (concat chunks ++ cur);
  la_key : key_state_after (uvalid := uvalid) (uorder := uorder) done k;
  la_level : level_ (compaction c) = level;
  la_grandparents : Forall (range_ok (uvalid := uvalid) (uorder := uorder)) (grandparents_ (compaction c));
  la_ptrs e : e ∈ rest -> ptrs_ok (uorder := uorder) levels (level_ptrs_ (compaction c)) (ikey_user e.1);
  la_snapshot : smallest_snapshot c = snapshot
}.

Lemma loop_input done rest d c k chunks cur : kvs = done ++ rest -> loop_at done rest d c k chunks cur -> table_input cur.
Proof.
  intros E0 H. apply Hinput. destruct (la_kept _ _ _ _ _ _ _ H) as [Hs _ _]. rewrite E0. transitivity (concat chunks ++ cur); [by apply sublist_inserts_l|].
  by apply sublist_inserts_r.
Qed.

Lemma loop_reads done rest d c k chunks cur :
  kvs = done ++ rest -> loop_at done rest d c k chunks cur -> IteratorLaw ivalid iorder (Input_Iterator fuel d) kvs lv at_pos.
Proof.
  intros E0 H. apply Hreads; [apply H|]. apply (output_state_tables d c chunks cur); [apply H|by eapply loop_input|].
  pose proof (la_next _ _ _ _ _ _ _ H). pose proof (zlen_nonneg rest). unfold in_uint. lia.
Qed.

Lemma kept_of_snoc done kept kv : kept_of done kept -> worth_keeping (uorder := uorder) levels level snapshot kvs kv -> kept_of (done ++ [kv]) (kept ++ [kv]).
Proof.
  intros [H1 H2 H3] Hh. split; [by apply sublist_app|..].
  - intros e [He| ->%list_elem_of_singleton]%elem_of_app; [by apply H2|done].
  - intros e [He| ->%list_elem_of_singleton]%elem_of_app; [|left; set_solver]. destruct (H3 e He) as [?|?]; [left; set_solver|by right].
Qed.

Lemma kept_of_drop done kept kv : kept_of done kept -> hidden snapshot kvs kv \/ obsolete_deletion snapshot deep kv -> kept_of (done ++ [kv]) kept.
Proof.
  intros [H1 H2 H3] Hh. split; [by apply sublist_inserts_r|done|].
  intros e [He| ->%list_elem_of_singleton]%elem_of_app; [by apply H3|by right].
Qed.

Lemma ptrs_ok_later done kv rest ptrs e :
  kvs = done ++ kv :: rest -> e ∈ rest -> ptrs_ok (uorder := uorder) levels ptrs (ikey_user kv.1) -> ptrs_ok (uorder := uorder) levels ptrs (ikey_user e.1).
Proof.
  intros E0 He Hp. assert (forall y, y ∈ kvs -> uvalid (ikey_user y.1)) as HU.
  { intros y Hy. apply ikey_valid_user_1. by destruct (proj1 (Forall_forall _ _) Hv y Hy). }
  apply (ptrs_ok_mono (uvalid := uvalid) levels _ (ikey_user kv.1)); [|apply HU; rewrite E0; set_solver|apply HU; rewrite E0; set_solver| |done].
  - intros files Hf. by apply (file_ok_ranges entries), Hok.
  - apply list_elem_of_split in He as (r1 & r2 & ->). apply iorder_user, Z.lt_le_incl.
    apply (entries_before kvs Hv Hasc (done ++ kv :: r1) e r2 kv); [by rewrite E0, <- app_assoc|set_solver].
Qed.

Lemma compact_entry_ok done kv rest d c k chunks cur input :
  kvs = done ++ kv :: rest -> loop_at done (kv :: rest) d c k chunks cur -> at_pos input (length done) ->
  exists s c' k' d', compact_entry fuel levels d c input k = Some (s, c', k', d')
    /\ calm d' /\ if Status_ok s then exists chunks' cur', loop_at (done ++ [kv]) rest d' c' k' chunks' cur' else still_good d'.
Proof.
  intros E0 H Ha. pose proof H as [H1 [H2 H2'] H3 H4 H5 H6 H7 H8 H9].
  pose proof (loop_reads _ _ _ _ _ _ _ E0 H) as IL. pose proof (loop_input _ _ _ _ _ _ _ E0 H) as Hcur.
  assert (kvs !! length done = Some kv) as Hkv by (rewrite E0; by apply list_lookup_middle).
  assert (ivalid kv.1) as Vk by (by destruct (proj1 (Forall_forall _ _) Hv kv ltac:(by eapply list_elem_of_lookup_2))).
  rewrite zlen_cons in H2'. pose proof (zlen_nonneg rest) as Hr. unfold compact_entry. rewrite (cm_imm d H1). cbn [andb mbind option_bind].
  destruct (at_entry_kv (IteratorLaw := IL) input _ kv Ha Hkv) as [-> _]. cbn [mbind option_bind].
  destruct (ShouldStopBefore_ok (db_options d) (compaction c) kv.1 H7 Vk) as (stop & index & seen & overlapped & ->). cbn [mbind option_bind].
  rewrite (at_status (IteratorLaw := IL) input (at_live (IteratorLaw := IL) _ _ Ha)). cbn [mbind option_bind].
  set (c1 := cs_with_compaction c _ _).
  destruct (stop_before_ok d c1 chunks cur stop) as (s1 & c2 & d2 & -> & [K1 K2 K3 K4] & Hst2); [by apply output_state_compaction|done|unfold in_uint; lia|].
  cbn [mbind option_bind]. destruct (Status_ok s1) eqn:Es1; cbn [negb]; 
    [|eexists _, _, _, _; rewrite Es1; split; [done|]; split; [by apply K1|done]].
  destruct Hst2 as (chunks2 & cur2 & Hs2 & Ek2). cbn [compaction smallest_snapshot cs_with_compaction c1] in K3, K4.
  rewrite K3, K4, H9.
  destruct (drop_key_ok entries levels snapshot kvs deep level Hok Hap Hlen Hlevel deep_in Hsnap Hv Hasc done kv rest k (with_grandparents (compaction c) index seen overlapped) E0 H5 H6)
    as (b & k' & x' & -> & Hk' & Hx' & Hg' & Hp' & Hb); [by apply H8; left|]. cbn [mbind option_bind].
  set (c3 := cs_with_compaction c2 x' snapshot).
  assert (output_state d2 c3 chunks2 cur2) as Hs3 by (by apply output_state_compaction).
  assert (forall e, e ∈ rest -> ptrs_ok (uorder := uorder) levels (level_ptrs_ x') (ikey_user e.1)) as Hp3 by (intros e He; by apply (ptrs_ok_later done kv rest)).
  rewrite <- Ek2 in H4.
  destruct b.
  - eexists _, _, _, _. split; [done|]. split; [by apply K1|]. exists chunks2, cur2. split; [by apply K1|lia|done|by apply kept_of_drop|done|done|by cbn; rewrite Hg'|done|done].
  - pose proof (K1 H1) as Hc2. assert (table_input cur2) as Hcur2.
    { apply Hinput. rewrite E0. transitivity (concat chunks2 ++ cur2); [by apply sublist_inserts_l|]. apply sublist_inserts_r. apply H4. }
    assert (IteratorLaw ivalid iorder (Input_Iterator fuel d2) kvs lv at_pos) as IL2.
    { apply Hreads; [apply Hc2|]. apply (output_state_tables d2 c3 chunks2 cur2); [done|done|unfold in_uint; lia]. }
    destruct (at_entry_kv (IteratorLaw := IL2) input _ kv Ha Hkv) as [_ ->]. cbn [mbind option_bind].
    pose proof (kept_of_snoc _ _ kv H4 Hb) as Hkept.
    destruct (add_entry_ok d2 c3 chunks2 cur2 kv Hc2 Hs3) as (s & c4 & d4 & -> & [L1 L2 L3 L4] & Hst); [lia|lia|done| |].
    { apply Hinput. rewrite E0. transitivity ((concat chunks2 ++ cur2) ++ [kv]); [rewrite <- app_assoc; by apply sublist_inserts_l|].
      replace (done ++ kv :: rest) with ((done ++ [kv]) ++ rest) by (by rewrite <- app_assoc). apply sublist_inserts_r, Hkept. }
    cbn [mbind option_bind]. eexists _, _, _, _. split; [done|]. split; [by apply L1|]. destruct (Status_ok s); [|done]. destruct Hst as (chunks4 & cur4 & Hs4 & Ek4).
    exists chunks4, cur4. rewrite <- app_assoc, <- Ek4 in Hkept. cbn [compaction smallest_snapshot cs_with_compaction c3] in L3, L4.
    split; [by apply L1|lia|done|done|done|by rewrite L3|by rewrite L3, Hg'|by rewrite L3|congruence].
Qed.

Lemma compact_loop_ok n done rest d c k chunks cur input :
  kvs = done ++ rest -> loop_at done rest d c k chunks cur -> at_pos input (length done) -> (length rest <= n)%nat ->
  exists s c' input' d', compact_loop fuel n levels d c input k = Some (s, c', input', d') /\ lv input'
    /\ calm d' /\ if Status_ok s then exists k' chunks' cur', loop_at kvs [] d' c' k' chunks' cur' else still_good d'.
Proof.
  revert done rest d c k chunks cur input. induction n as [|n IH]; intros done rest d c k chunks cur input E0 H Ha Hn; cbn [compact_loop];
    rewrite (cm_running d (la_calm _ _ _ _ _ _ _ H)); pose proof (loop_reads _ _ _ _ _ _ _ E0 H) as IL; rewrite (at_valid (IteratorLaw := IL) _ _ Ha), andb_true_r;
    pose proof (at_live (IteratorLaw := IL) _ _ Ha) as Hl.
  - destruct rest; [|cbn in Hn; lia]. rewrite E0, app_nil_r in *. rewrite bool_decide_eq_false_2 by lia. eexists _, _, _, _. split; [done|]. split; [done|]. split; [apply H|]. by exists k, chunks, cur.
  - destruct rest as [|kv rest].
    + rewrite E0, app_nil_r in *. rewrite bool_decide_eq_false_2 by lia. eexists _, _, _, _. split; [done|]. split; [done|]. split; [apply H|]. by exists k, chunks, cur.
    + assert (length done < length kvs)%nat as Hlt by (rewrite E0, length_app; cbn; lia). rewrite bool_decide_eq_true_2 by done.
      destruct (compact_entry_ok done kv rest d c k chunks cur input E0 H Ha) as (s & c1 & k1 & d1 & -> & Hc1 & Hs). cbn [mbind option_bind].
      destruct (Status_ok s) eqn:Es; cbn [negb]; [|eexists _, _, _, _; rewrite Es; split; [done|]; split; [done|]; by split].
      destruct Hs as (chunks1 & cur1 & H1). assert (kvs = (done ++ [kv]) ++ rest) as E1 by (by rewrite <- app_assoc).
      pose proof (loop_reads _ _ _ _ _ _ _ E1 H1) as IL1. destruct (at_next (IteratorLaw := IL1) _ _ Ha Hlt) as (input1 & -> & Ha1). cbn [mbind option_bind].
      apply (IH (done ++ [kv]) rest d1 c1 k1 chunks1 cur1 input1); [done|done|by rewrite length_app|cbn in Hn; lia].
Qed.

(** Lookups of the table cache find the entries of a file. *)
Definition file_found (d : DB (E := E) (C := C) (B := B)) (f : FileRef) (l : list (bytes * bytes)) : Prop :=
  forall options ikey, ivalid ikey -> exists r t', TableCache_Get_in (db_e d) (db_tables d) options (f_number f) (f_size f) ikey = Some (Status_OK, r, t')
    /\ found_entry (uorder := uorder) l ikey r.

Definition outputs_found (d : DB (E := E) (C := C) (B := B)) (outs : list Output) (chunks : list (list (bytes * bytes))) : Prop :=
  Forall2 (fun out l => output_range out l /\ file_found d (output_file out) l) outs chunks
  /\ forall f, live0 f -> file_found d f (entries0 f).

Lemma closed_found d c chunks : closed_at d c chunks -> outputs_found d (outputs c) chunks.
Proof.
  intros [_ _ _ (ent & live & H & Hold & Houts & _)].
  assert (forall f, live f -> file_found d f (ent f)) as Hf.
  { intros f Hf options ikey Hk.
    destruct (tables_ok_get (EL := EL) Hread o Ho Hoo dbname ent live (db_e d) (db_tables d) options f ikey (tn_number _ _ _ _ _ _ _ H) (tables_before_ok o dbname _ _ _ _ _ H) Hf Hk)
      as (r & t' & Er & _ & Hr). by exists r, t'. }
  split.
  - eapply Forall2_impl; [exact Houts|]. intros out l (Hl & <- & Hr). split; [done|]. by apply Hf.
  - intros f Hl. destruct (Hold f Hl) as [Hl' <-]. by apply Hf.
Qed.

Lemma write_outputs_ok n x d input :
  loop_at [] kvs d (cs_with_compaction (CompactionState_new x) x snapshot) KeyState_none [] [] -> at_pos input 0%nat -> (length kvs <= n)%nat ->
  exists s c' input' d', write_outputs fuel n levels d (cs_with_compaction (CompactionState_new x) x snapshot) input = Some (s, c', input', d')
    /\ (Status_ok s = true -> exists chunks, kept_of kvs (concat chunks) /\ outputs_found d' (outputs c') chunks).
Proof.
  intros H Ha Hn. unfold write_outputs. set (c := cs_with_compaction _ _ _) in *.
  destruct (compact_loop_ok n [] kvs d c KeyState_none [] [] input eq_refl H Ha Hn) as (s & c1 & input1 & d1 & -> & Hl & Hc1 & Hs). cbn [mbind option_bind].
  assert (IteratorLaw ivalid iorder (Input_Iterator fuel d1) kvs lv at_pos) as IL.
  { destruct (Status_ok s); [|by apply Hreads; [apply Hc1|]]. destruct Hs as (k1 & chunks1 & cur1 & H1). apply (loop_reads kvs [] d1 c1 k1 chunks1 cur1); [by rewrite app_nil_r|done]. }
  rewrite (cm_running d1 Hc1), andb_false_r, (at_status (IteratorLaw := IL) input1 Hl). cbn [mbind option_bind].
  destruct (Status_ok s) eqn:Es; cbn [andb]; [|cbn [mbind option_bind]; rewrite Es; eexists _, _, _, _; split; [done|congruence]].
  destruct Hs as (k1 & chunks1 & cur1 & H1). pose proof (la_kept _ _ _ _ _ _ _ H1) as Hk. pose proof (la_state _ _ _ _ _ _ _ H1) as Hst.
  rewrite (output_state_builder d1 c1 chunks1 cur1 Hst). destruct (decide (cur1 = [])) as [->|Hne].
  - rewrite bool_decide_eq_false_2 by (by intros Hx). cbn [mbind option_bind]. rewrite Es. eexists _, _, _, _. split; [done|]. intros _. exists chunks1. rewrite app_nil_r in Hk. split; [done|]. by apply closed_found.
  - rewrite bool_decide_eq_true_2 by done. pose proof (la_next _ _ _ _ _ _ _ H1) as [N1 N2].
    pose proof Hst as (outs & out & e & e0 & a & r0 & b & Hop)%output_state_opened; [|done].
    destruct (FinishCompactionOutputFile_ok d1 c1 chunks1 cur1 outs out e e0 a r0 b Hop) as (s2 & c2 & d2 & -> & _ & Hc).
    + apply (loop_input kvs [] d1 c1 k1 chunks1 cur1); [by rewrite app_nil_r|done].
    + done.
    + unfold in_uint. cbn in N2. lia.
    + cbn [mbind option_bind]. eexists _, _, _, _. split; [done|]. intros Hs2. destruct (Status_ok s2) eqn:Es2; [|congruence]. exists (chunks1 ++ [cur1]). split; [|by apply closed_found].
      rewrite concat_app. cbn. by rewrite app_nil_r.
Qed.
End Loop.

(** ** The theorems *)

(** The compaction [x] of the entries [kvs] can start: its input reads them while the
    table cache is good for the files of the start, and the numbers of the new files
    are free. *)
Record can_compact (kvs : list (bytes * bytes)) (x : Compaction) (d : DB (E := E) (C := C) (B := B)) (input : Input (R := R))
    (lv : Input (R := R) -> Prop) (at_pos : Input (R := R) -> nat -> Prop) : Prop := {
  cc_calm : calm d;
  cc_next : 0 < next_file d /\ next_file d + zlen kvs < 2 ^ 64;
  cc_tables : tables_before entries0 live0 (db_e d) (db_tables d) (next_file d);
  cc_free m : next_file d <= m -> in_uint 64 m -> not_open openf (db_e d) (TableFileName dbname m);
  cc_grandparents : Forall (range_ok (uvalid := uvalid) (uorder := uorder)) (grandparents_ x);
  cc_input ch : sublist ch kvs -> table_input ch;
  cc_reads d' : db_options d' = o -> still_good d' -> IteratorLaw ivalid iorder (Input_Iterator fuel d') kvs lv at_pos;
  cc_start : at_pos input 0%nat
}.

Lemma write_outputs_kept entries levels x snapshot kvs above beside d input lv at_pos n :
  compaction_layout (uvalid := uvalid) (uorder := uorder) entries levels x kvs above beside -> 0 <= snapshot < kMaxSequenceNumber ->
  can_compact kvs x d input lv at_pos -> (length kvs <= n)%nat ->
  exists s c' input' d', write_outputs fuel n levels d (cs_with_compaction (CompactionState_new x) x snapshot) input = Some (s, c', input', d')
    /\ (Status_ok s = true -> exists chunks, kept_of entries levels snapshot kvs (level_ x) kvs (concat chunks) /\ outputs_found d' (outputs c') chunks).
Proof.
  intros [C1 C2 [C3 C3'] C4 [C5 C6] C7 C8 C9 C10] Hs [D1 D2 D3 D4 D5 D6 D7 D8] Hn.
  apply (write_outputs_ok entries levels snapshot kvs (level_ x) C1 C2 C3 C3' Hs C5 C6 D6 lv at_pos D7); [|done|done].
  split; [done|done| | |done|done|done|by intros e _; apply start_ptrs_ok|done].
  - split; [done|done|apply D2|]. exists entries0, live0. split_and!; [done|done|constructor|done].
  - split; [constructor|by intros e ?%not_elem_of_nil..].
Qed.

(** C11: A compaction keeps every answer.  Whenever its input reads ascending internal
    keys, the loop of DoCompactionWork and the file finished after it return, and if
    they return no error, then the table cache finds in each output file, by the
    number, size and range recorded for it, its part of one list of entries, which is
    the input without some; the files that were there are found as before.  What the
    loop drops - entries hidden by a newer one that every snapshot sees, deletions
    that every snapshot sees and that have nothing below to delete - changes no
    lookup at the oldest snapshot or later: it has the same value, or "not found" as
    before.  Nothing hidden is kept, and no such deletion unless the range of a lower
    file has its key.  What is above the inputs is newer and what is in lower levels
    is older.  And the inputs must be complete ([cl_beside]): no file that stays in
    their two levels may have one of their user keys.  The code does not see to that,
    and then the theorem fails: [compaction_revives_deleted]. *)
Theorem compaction_keeps_answers entries levels x snapshot kvs above beside d input lv at_pos n value :
  compaction_layout (uvalid := uvalid) (uorder := uorder) entries levels x kvs above beside -> 0 <= snapshot < kMaxSequenceNumber ->
  can_compact kvs x d input lv at_pos -> (length kvs <= n)%nat ->
  exists s c' input' d', write_outputs fuel n levels d (cs_with_compaction (CompactionState_new x) x snapshot) input = Some (s, c', input', d')
    /\ (Status_ok s = true -> exists chunks, outputs_found d' (outputs c') chunks /\ sublist (concat chunks) kvs
          /\ (forall e, e ∈ concat chunks -> worth_keeping (uorder := uorder) levels (level_ x) snapshot kvs e)
          /\ forall ikey oe, ivalid ikey -> snapshot * 256 + kValueTypeForSeek <= ikey_tag ikey ->
               let others (e : bytes * bytes) := above e \/ beside e \/ deep_entries entries levels (level_ x + 2) e in
               newest (uorder := uorder) (fun e => e ∈ kvs \/ others e) ikey oe ->
               exists oe', newest (uorder := uorder) (fun e => e ∈ concat chunks \/ others e) ikey oe' /\ answer value oe' = answer value oe).
Proof.
  intros HC Hs Hd Hn. destruct (write_outputs_kept entries levels x snapshot kvs above beside d input lv at_pos n HC Hs Hd Hn) as (s & c' & input' & d' & E0 & Hok).
  exists s, c', input', d'. split; [done|]. intros Hst. destruct (Hok Hst) as (chunks & [K1 K2 K3] & Hf). exists chunks. split_and!; [done|done|done|].
  intros ikey oe Vk Ht others Hnew. apply (lookup_kept entries levels x snapshot kvs above beside (concat chunks) value ikey oe); [done|done|done| |done|done].
  intros e He. split; [by apply (elem_of_sublist (concat chunks))|by apply K2].
Qed.

(** C37: A compaction can bring a deleted value back.  Let the newest entry that a
    lookup sees be a deletion among the inputs, one that every snapshot sees and
    whose key is in no file of the lower levels, and let a file that stays in the two
    levels of the compaction have an older value of the key.  The lookup says that
    the key is not found.  The compaction returns, and if it returns no error, the
    newest entry for the same lookup is the value in the file that stayed. *)
Theorem compaction_revives_deleted entries levels x snapshot kvs above stays d input lv at_pos n ikey e e0 value :
  compaction_layout (uvalid := uvalid) (uorder := uorder) entries levels x kvs above (fun _ => False) -> 0 <= snapshot < kMaxSequenceNumber ->
  can_compact kvs x d input lv at_pos -> (length kvs <= n)%nat -> ivalid ikey ->
  let others (e : bytes * bytes) := above e \/ stays e \/ deep_entries entries levels (level_ x + 2) e in
  newest (uorder := uorder) (fun e => e ∈ kvs \/ others e) ikey (Some e) ->
  e ∈ kvs -> ikey_type e.1 = kTypeDeletion -> ikey_seq e.1 <= snapshot -> ~ covered (uorder := uorder) levels (level_ x + 2) (ikey_user e.1) ->
  newest (uorder := uorder) stays ikey (Some e0) -> ikey_type e0.1 = kTypeValue ->
  exists s c' input' d', write_outputs fuel n levels d (cs_with_compaction (CompactionState_new x) x snapshot) input = Some (s, c', input', d')
    /\ (Status_ok s = true -> exists chunks, outputs_found d' (outputs c') chunks
          /\ newest (uorder := uorder) (fun e => e ∈ concat chunks \/ others e) ikey (Some e0)
          /\ answer value (Some e) = answer value None /\ answer value (Some e0) = (Status_OK, e0.2)).
Proof.
  intros HC Hs Hd Hn Vk others Hnew He Hdel Hseq Hcov Hst Hval.
  destruct (write_outputs_kept entries levels x snapshot kvs above _ d input lv at_pos n HC Hs Hd Hn) as (s & c' & input' & d' & E0 & Hok).
  exists s, c', input', d'. split; [done|]. intros Hst'. destruct (Hok Hst') as (chunks & [K1 K2 K3] & Hf). exists chunks. split_and!; [done| |cbn [answer]; by rewrite Hdel|cbn [answer]; by rewrite Hval].
  destruct Hst as (S1 & S2 & S3). destruct Hnew as (_ & N2 & N3). split_and!; [by right; right; left|done|].
  pose proof HC as [C1 C2 C3 C4 [C5 C6] C7 C8 C9 _]. destruct (proj1 (Forall_forall _ _) C5 e He) as [Ve _]. destruct (ikey_valid_user _ Ve) as [Ue _], (ikey_valid_user _ Vk) as [Uk _].
  assert (forall e', ivalid e'.1 -> visible_at (uorder := uorder) ikey e' -> uorder (ikey_user e'.1) (ikey_user e.1) = 0) as Hsame.
  { intros e' Ve' [Hu _]. destruct (ikey_valid_user _ Ve') as [Ue' _], N2 as [Hu' _].
    apply (uorder_eq_trans (uvalid := uvalid) _ (ikey_user ikey)); [done..|by apply uorder_eq_sym]. }
  intros e' [Hk|[Ha|[Hb|Hdp]]] Hvis.
  - exfalso. assert (e' ∈ kvs) as He' by (by apply (elem_of_sublist (concat chunks))). destruct (proj1 (Forall_forall _ _) C5 e' He') as [Ve' _].
    specialize (Hsame e' Ve' Hvis). specialize (N3 e' (or_introl He') Hvis). destruct (K2 e' Hk) as [Hh Hw].
    destruct (Z.eq_dec (ikey_tag e'.1) (ikey_tag e.1)) as [Et|Hne].
    + rewrite (kvs_unique (uvalid := uvalid) kvs e' e C5 C6 He' He Hsame Et) in Hw. by apply Hcov, Hw.
    + apply Hh. exists e. split_and!; [done|done|lia|done].
  - exfalso. pose proof (C8 e' e Ha He (Hsame e' (C7 e' (or_introl Ha)) Hvis)). specialize (N3 e' (or_intror (or_introl Ha)) Hvis). lia.
  - by apply S3.
  - exfalso. apply Hcov. destruct Hdp as (i & files & Hi & Hl & f & Hfi & He').
    pose proof (proj1 (Forall_forall _ _) (C1 files ltac:(by eapply list_elem_of_lookup_2)) f Hfi) as Hff.
    destruct (entry_within entries f e' Hff He') as (Ue' & Hlo & Hhi). destruct (f_limit_ok f (fo_range _ _ Hff)) as [Ul _], (f_start_ok f (fo_range _ _ Hff)) as [Us _].
    pose proof (Hsame e' (proj1 (entry_key_valid entries f e' Hff He')) Hvis) as Hq.
    exists i, files, f. split_and!; [done|done|done|split].
    + apply (order_trans (compare := Compare) (valid := uvalid) _ (ikey_user e'.1)); [done..|lia].
    + apply (order_trans (compare := Compare) (valid := uvalid) _ (ikey_user e'.1)); [done..| |done].
      pose proof (order_sym (compare := Compare) (order := uorder) _ _ Ue' Ue). lia.
Qed.
End Outputs.

(** ** Two snapshots and a deletion *)
Definition drop_kvs : list (bytes * bytes) :=
  [(sample_key 97 9 1, [1]); (sample_key 97 7 1, [2]); (sample_key 97 3 1, [3]); (sample_key 98 5 0, [])].

Definition drop_compaction : Compaction := Compaction_new Options_default 0.

Lemma drop_layout :
  compaction_layout (uvalid := Forall is_byte) (uorder := Slice_compare) (fun _ => []) (replicate 7 []) drop_compaction drop_kvs
    (fun _ => False) (fun _ => False).
Proof.
  split.
  - by intros files [-> _]%elem_of_replicate.
  - intros i files [-> _]%lookup_replicate _ ? ? ? ? ? ?. done.
  - done.
  - done.
  - split.
    + repeat (apply Forall_cons; split; [split; [by apply sample_key_valid|by vm_compute]|]). constructor.
    + intros [|[|[|[|i]]]] x y Hx Hy; try done; injection Hx as <-; injection Hy as <-; by vm_compute.
  - by intros e [].
  - by intros e e' [].
  - by intros e e' (i & files & _ & [-> _]%lookup_replicate & f & []%not_elem_of_nil & _).
  - by intros e e' [].
Qed.

(** * A compaction of one table *)
Section OneTable.
#[local] Existing Instance BytewiseComparator.
#[local] Existing Instance NoSnappy.
#[local] Abbreviation bytes_ok := (Forall is_byte).
#[local] Abbreviation sivalid := (ikey_valid bytes_ok).
#[local] Abbreviation siorder := (ikey_order Slice_compare).

(** There is no block cache. *)
#[local] Instance NoBlockCache : BlockCache Empty_set := {
  bc_new _ := None; bc_find b := match b with end; bc_read b := match b with end; bc_new_id b := match b with end
}.

#[local] Instance NoBlockCache_law : BlockCacheLaw Empty_set (fun _ _ => True) (fun _ _ => True) (fun _ => True).
Proof. split; by intros ? []. Qed.

Definition TableDB : Type := DB (E := MemEnv) (C := ShardedLRUCache (Table StringFile) * Z) (B := Empty_set).

Definition one_cache (c : ShardedLRUCache (Table StringFile) * Z) : TableCache (ShardedLRUCache (Table StringFile) * Z) Empty_set :=
  {| tc_dbname := [100]; tc_options := flush_options; tc_cache := c; tc_blocks := None |}.

(** The next file has the number 8. *)
Definition one_versions : VersionSet := {|
  vs_dbname := [100]; vs_descriptor_file := None; vs_descriptor_log := None; vs_next_file_number := 8; vs_manifest_file_number := 0;
  vs_last_sequence := 100; vs_log_number := 0; vs_prev_log_number := 0; vs_links := ring_init {| nxt := ∅; prv := ∅ |} dummy_versions_;
  vs_versions := ∅; vs_files := ∅; vs_current := None; vs_compact_pointer := replicate (Z.to_nat kNumLevels) [] |}.

Definition one_db (e : MemEnv) (c : ShardedLRUCache (Table StringFile) * Z) : TableDB := {|
  db_e := e; db_options := flush_options; db_name := [100]; db_tables := one_cache c;
  db_lock := None; db_shutting_down := false; db_memtables := ∅; db_mem := None; db_imm := None; db_has_imm := false;
  db_logfile := None; db_logfile_number := 0; db_log := None; db_seed := 0; db_tmp_batch := WriteBatch_new;
  db_snapshots := SnapshotList_new; db_pending_outputs := ∅; db_scheduled := false; db_manuals := ∅;
  db_manual_compaction := None; db_versions := one_versions; db_bg_error := Status_OK; db_next_addr := 2 |}.

(** The table of the entries [kvs] is written, and an iterator over it opened. *)
Definition one_input (c : ShardedLRUCache (Table StringFile) * Z) (kvs : list (bytes * bytes)) : option (Status * MemEnv * Input (R := StringFile)) :=
  '(s, e, t, meta) ← BuildTable (I := ListIterator InternalKey_Compare kvs) 10 [100] (MemEnv_new 1000) flush_options (one_cache c) 0%nat flush_meta;
  '(it, t) ← TableCache_NewIterator e t 7 (file_size meta);
  it ← SeekToFirst (Iterator := Table_Entries_Iterator 10 None (input_options flush_options)) it;
  Some (s, e, MergedOne (TableChild it)).

Definition one_entries (kvs : list (bytes * bytes)) : FileRef -> list (bytes * bytes) := fun _ => kvs.
Definition one_live (meta : FileMetaData) : FileRef -> Prop := fun f => f_meta f = meta.

#[local] Abbreviation one_can_compact := (can_compact (Sq := StringFile) (names := m_names) (openf := m_open) (idle := sharded_idle)
  (blocks := fun _ _ => True) (given := fun _ _ => True) (dead := fun _ => True) (uvalid := bytes_ok) (uorder := Slice_compare) flush_options [100] 10).

(** The iterator of the compaction is that of the table. *)
Lemma one_table_reads (d : TableDB) kvs h (v : Table StringFile) lv at_pos :
  db_options d = flush_options ->
  IteratorLaw sivalid siorder (Table_Iterator 10 None v (input_options flush_options)) kvs lv at_pos ->
  IteratorLaw sivalid siorder (Input_Iterator (Sq := StringFile) 10 d) kvs
    (fun i => exists x, i = MergedOne (TableChild (TableEntries h v x)) /\ lv x)
    (fun i p => exists x, i = MergedOne (TableChild (TableEntries h v x)) /\ at_pos x p).
Proof.
  intros Hd IL. unfold Input_Iterator. rewrite Hd. destruct (db_tables d) as [tn to tc [[]|]]. set (T := Table_Iterator 10 None v (input_options flush_options)) in *.
  assert (forall f : option _, (forall y, f = Some y -> MergedOne <$> (TableChild <$> (TableEntries h v <$> f)) = Some (MergedOne (TableChild (TableEntries (R := StringFile) h v y))))) as Hmap by (by intros ? y ->).
  split.
  - intros i p (x & -> & Hx). exists x. split; [done|]. by apply (at_live (IteratorLaw := IL) x p).
  - intros i (x & -> & Hx). exact (at_status (IteratorLaw := IL) x Hx).
  - intros i p (x & -> & Hx). exact (at_valid (IteratorLaw := IL) x p Hx).
  - intros i p kv (x & -> & Hx) Hkv. exact (at_entry_kv (IteratorLaw := IL) x p kv Hx Hkv).
  - intros i (x & -> & Hx). destruct (seek_first (IteratorLaw := IL) x Hx) as (y & Ey & Hy). eexists. split; [exact (Hmap _ y Ey)|by exists y].
  - intros i (x & -> & Hx). destruct (seek_last (IteratorLaw := IL) x Hx) as (y & Ey & Hy). eexists. split; [exact (Hmap _ y Ey)|by exists y].
  - intros i t (x & -> & Hx) Ht. destruct (seek_target (IteratorLaw := IL) x t Hx Ht) as (y & p & Ey & Hy & Hp).
    eexists _, p. split; [exact (Hmap _ y Ey)|]. split; [by exists y|done].
  - intros i p (x & -> & Hx) Hp. destruct (at_next (IteratorLaw := IL) x p Hx Hp) as (y & Ey & Hy). eexists. split; [exact (Hmap _ y Ey)|by exists y].
  - intros i p (x & -> & Hx) Hp. destruct (at_prev (IteratorLaw := IL) x p Hx Hp) as (y & Ey & Hy). eexists. split; [exact (Hmap _ y Ey)|by exists y].
Qed.

(** If the table could be written, and is not empty, the compaction can start. *)
Lemma one_ready c kvs x s e input :
  table_input (E := MemEnv) (Sq := StringFile) (R := StringFile) (uvalid := bytes_ok) (uorder := Slice_compare) flush_options kvs ->
  kvs <> [] -> (length kvs < 10)%nat -> (forall P, sharded_idle P c) -> grandparents_ x = [] ->
  one_input c kvs = Some (s, e, input) -> Status_ok s = true ->
  exists meta lv at_pos, one_can_compact (one_entries kvs) (one_live meta) kvs x (one_db e c) input lv at_pos.
Proof.
  intros Hin Hne Hlen Hc Hx H Hs. unfold one_input in H.
  pose proof (ListIterator_law InternalKey_Compare kvs (CL := Comparator_compare (ComparatorLaw := InternalKey_law)) (ti_ascending _ _ Hin)) as IL.
  assert (Forall (fun kv => sivalid kv.1) kvs) as Hv by (eapply Forall_impl; [exact (ti_valid _ _ Hin)|]; by intros kv [? _]). specialize (IL Hv).
  destruct (BuildTable_ok (EL := Mem_law) (fun _ => I) (BLaw := NoBlockCache_law) flush_options (proj1 flush_options_ok) (proj2 flush_options_ok) [100]
    (fun _ => []) (fun _ => False) (fun f f' Hf => False_ind _ Hf) (IL := IL) 10 (MemEnv_new 1000) (one_cache c) (fun _ _ _ => True) 0%nat flush_meta Hin)
    as (s1 & e1 & t1 & meta & Eb & [B1 [B2 _] _ B4]); [done|lia|done|by intros f []| |by intros h f|].
  { split; [|apply Hc]. split; [done|done|by intros ? ?|apply Hc]. }
  rewrite Eb in H. cbn [mbind option_bind] in H. apply bind_Some in H as ([it t2] & E1 & H). apply bind_Some in H as (it' & E2 & [= -> -> <-]).
  destruct (B4 Hs Hne) as (_ & _ & Hall). assert (LdbTableCache.tables_ok (names := m_names) (idle := sharded_idle) (blocks := fun _ _ => True) (given := fun _ _ => True) (dead := fun _ => True)
    (uvalid := bytes_ok) (uorder := Slice_compare) flush_options [100] (one_entries kvs) (one_live meta) (e, t1)) as Hok by (apply Hall; intros g Hg; by right).
  cbn [number flush_meta FileMetaData_make] in B1.
  destruct (TableCache_NewIterator_ok (idle := sharded_idle) (blocks := fun _ _ => True) (given := fun _ _ => True) (dead := fun _ => True) flush_options (proj1 flush_options_ok)
    (oo_names flush_options (proj2 flush_options_ok)) [100] (one_entries kvs) (one_live meta)) with
    (placed := LdbTableCache.table_in (names := m_names) (uvalid := bytes_ok) (uorder := Slice_compare) flush_options [100] (one_entries kvs)) (e := e) (t := t1)
    (f := {| f_addr := 0; f_meta := meta |}) as (h & v & it1 & t3 & t4 & E3 & Hit & _); [done|by intros e0 f _; apply (table_in_opens (EL := Mem_law) (fun _ => I))|exact Hok|done|].
  unfold f_number, f_size in E3. cbn [f_meta] in E3. rewrite B1, E1 in E3. injection E3 as -> <-.
  destruct (Hit 10%nat (input_options flush_options) Hlen) as (lv & at_pos & IT & Hlv). assert (bc_find <$> tc_blocks t2 = None) as Hb by (by destruct (tc_blocks t2) as [[]|]).
  rewrite Hb in IT. destruct (seek_first (IteratorLaw := IT) it1 Hlv) as (y & Ey & Hy).
  assert (it' = TableEntries h v y) as ->.
  { change (TableEntries h v <$> SeekToFirst (Iterator := Table_Iterator 10 None v (input_options flush_options)) it1 = Some it') in E2. rewrite Ey in E2. by injection E2 as <-. }
  exists meta. eexists _, _. split.
  - done.
  - split; [done|]. change (next_file (one_db e c)) with 8. lia.
  - change (next_file (one_db e c)) with 8. split.
    + intros f Hf. split; [by apply Hok|]. unfold f_number. rewrite Hf. lia.
    + done.
    + exists (fun _ _ _ => True). split; [done|done|by intros ? ?|apply Hc].
  - intros m _ _ a f. change (db_e (one_db e c)) with e. rewrite B2. done.
  - by rewrite Hx.
  - intros ch. by apply table_input_sublist.
  - intros d' Hd' _. by apply (one_table_reads d' kvs h v lv at_pos).
  - by exists y.
Qed.

Definition one_start (snapshot : Z) : CompactionState (E := MemEnv) :=
  cs_with_compaction (CompactionState_new drop_compaction) drop_compaction snapshot.

Definition one_write (snapshot : Z) (e : MemEnv) (c : ShardedLRUCache (Table StringFile) * Z) (input : Input (R := StringFile)) :
    option (Status * CompactionState (E := MemEnv) * Input (R := StringFile) * TableDB) :=
  write_outputs (Sq := StringFile) 10 10 (replicate 7 []) (one_db e c) (one_start snapshot) input.

(** The statuses, and the ranges of the output files. *)
Definition one_run (kvs : list (bytes * bytes)) (snapshot : Z) : option (Status * Status * list (Z * bytes * bytes)) :=
  c ← cache_new (V := Table StringFile) 160;
  '(s, e, input) ← one_input c kvs;
  '(s', c', _, _) ← one_write snapshot e c input;
  Some (s, s', map (fun out => (out_number out, out_smallest out, out_largest out)) (outputs c')).

Lemma one_run_ready kvs snapshot outs :
  table_input (E := MemEnv) (Sq := StringFile) (R := StringFile) (uvalid := bytes_ok) (uorder := Slice_compare) flush_options kvs ->
  kvs <> [] -> (length kvs < 10)%nat -> one_run kvs snapshot = Some (Status_OK, Status_OK, outs) ->
  exists c e input meta lv at_pos, one_input c kvs = Some (Status_OK, e, input)
    /\ one_can_compact (one_entries kvs) (one_live meta) kvs drop_compaction (one_db e c) input lv at_pos
    /\ forall s' c' i' d', one_write snapshot e c input = Some (s', c', i', d') -> s' = Status_OK
         /\ map (fun out => (out_number out, out_smallest out, out_largest out)) (outputs c') = outs.
Proof.
  intros Hin Hne Hlen H. destruct (NewLRUCache_idle (V := Table StringFile) (fun _ _ => False) 160) as (c & Ec & Hc); [lia|].
  assert (forall P, sharded_idle P c) as Hany by (intros P; revert Hc; by apply cache_mono).
  unfold one_run in H. rewrite Ec in H. cbn [mbind option_bind] in H. apply bind_Some in H as ([[s e] input] & Ei & H).
  apply bind_Some in H as ([[[s' c'] i'] d'] & Ew & [= -> -> <-]). destruct (one_ready c kvs drop_compaction Status_OK e input Hin Hne Hlen Hany eq_refl Ei eq_refl) as (meta & lv & at_pos & Hd).
  exists c, e, input, meta, lv, at_pos. split; [done|]. split; [exact Hd|]. intros s2 c2 i2 d2 E2. rewrite Ew in E2. by injection E2 as <- <- <- <-.
Qed.

Lemma drop_table_input : table_input (E := MemEnv) (Sq := StringFile) (R := StringFile) (uvalid := bytes_ok) (uorder := Slice_compare) flush_options drop_kvs.
Proof.
  destruct (cl_kvs _ _ _ _ _ _ drop_layout) as [Hv Ha]. split; [|done|by vm_compute|by intros f r _ P].
  repeat (apply Forall_cons; split; [split; [by apply sample_key_valid|by repeat constructor]|]). constructor.
Qed.

(** Two of four entries are written to the file 8. *)
Lemma compaction_keeps_answers_witness :
  exists c e input c' i' d' chunks, one_input c drop_kvs = Some (Status_OK, e, input) /\ one_write 8 e c input = Some (Status_OK, c', i', d')
    /\ map (fun out => (out_number out, out_smallest out, out_largest out)) (outputs c') = [(8, sample_key 97 9 1, sample_key 97 7 1)]
    /\ sublist (concat chunks) drop_kvs
    /\ Forall2 (fun out l => output_range out l /\ file_found (uvalid := bytes_ok) (uorder := Slice_compare) d' (output_file out) l) (outputs c') chunks.
Proof.
  destruct (one_run_ready drop_kvs 8 [(8, sample_key 97 9 1, sample_key 97 7 1)] drop_table_input) as (c & e & input & meta & lv & at_pos & Ei & Hd & Hw);
    [done|cbn; lia|by vm_compute|].
  destruct (compaction_keeps_answers (EL := Mem_law) (fun _ => I) (BLaw := NoBlockCache_law) flush_options (proj1 flush_options_ok) (proj2 flush_options_ok) [100] 10
    (one_entries drop_kvs) (one_live meta) (fun _ => []) (replicate 7 []) drop_compaction 8 drop_kvs (fun _ => False) (fun _ => False) (one_db e c) input lv at_pos 10 []
    drop_layout) as (s & c' & i' & d' & E & Hok); [clear; by vm_compute|exact Hd|cbn; lia|].
  destruct (Hw s c' i' d' E) as [-> Houts]. destruct (Hok eq_refl) as (chunks & [Hf _] & Hsub & _). exists c, e, input, c', i', d', chunks. by split_and!.
Defined.

(** A deletion is dropped, while the value that it hides stays. *)
Definition revive_kvs : list (bytes * bytes) := [(sample_key 97 9 0, []); (sample_key 98 5 1, [2])].
Definition revive_stays : bytes * bytes := (sample_key 97 3 1, [7]).

Lemma revive_layout :
  compaction_layout (uvalid := bytes_ok) (uorder := Slice_compare) (fun _ => []) (replicate 7 []) drop_compaction revive_kvs
    (fun _ => False) (fun _ => False).
Proof.
  destruct drop_layout as [H1 H2 H3 H4 _ H6 H7 H8 H9]. split; [done..| | | | |].
  - split.
    + repeat (apply Forall_cons; split; [split; [by apply sample_key_valid|by vm_compute]|]). constructor.
    + intros [|[|i]] x y Hx Hy; try done; injection Hx as <-; injection Hy as <-; by vm_compute.
  - done.
  - by intros e e' [].
  - by intros e e' (i & files & _ & [-> _]%lookup_replicate & f & []%not_elem_of_nil & _).
  - by intros e e' [].
Qed.

Lemma revive_deep l e : ~ deep_entries (fun _ => []) (replicate 7 []) l e.
Proof. by intros (i & files & _ & [-> _]%lookup_replicate & f & []%not_elem_of_nil & _). Qed.

Lemma revive_before :
  newest (uorder := Slice_compare) (fun e => e ∈ revive_kvs \/ False \/ e = revive_stays \/ deep_entries (fun _ => []) (replicate 7 []) (level_ drop_compaction + 2) e)
    (sample_key 97 20 1) (Some (sample_key 97 9 0, [])).
Proof.
  split_and!; [left; left|by vm_compute|]. intros e [He|[[]|[->|[]%revive_deep]]] _; [|by vm_compute].
  unfold revive_kvs in He. apply elem_of_cons in He as [->|He]; [done|]. apply list_elem_of_singleton in He as ->. by vm_compute.
Qed.

Lemma revive_stays_newest : newest (uorder := Slice_compare) (fun e => e = revive_stays) (sample_key 97 20 1) (Some revive_stays).
Proof. split_and!; [done|by vm_compute|]. by intros e -> _. Qed.

Lemma revive_table_input : table_input (E := MemEnv) (Sq := StringFile) (R := StringFile) (uvalid := bytes_ok) (uorder := Slice_compare) flush_options revive_kvs.
Proof.
  destruct (cl_kvs _ _ _ _ _ _ revive_layout) as [Hv Ha]. split; [|done|by vm_compute|by intros f r _ P].
  repeat (apply Forall_cons; split; [split; [by apply sample_key_valid|by repeat constructor]|]). constructor.
Qed.

Lemma compaction_revives_deleted_witness :
  exists c e input c' i' d' chunks, one_input c revive_kvs = Some (Status_OK, e, input) /\ one_write 9 e c input = Some (Status_OK, c', i', d')
    /\ Forall2 (fun out l => output_range out l /\ file_found (uvalid := bytes_ok) (uorder := Slice_compare) d' (output_file out) l) (outputs c') chunks
    /\ newest (uorder := Slice_compare) (fun e => e ∈ concat chunks \/ False \/ e = revive_stays \/ deep_entries (fun _ => []) (replicate 7 []) (level_ drop_compaction + 2) e)
         (sample_key 97 20 1) (Some revive_stays)
    /\ answer [] (Some revive_stays) = (Status_OK, [7]).
Proof.
  destruct (one_run_ready revive_kvs 9 [(8, sample_key 98 5 1, sample_key 98 5 1)] revive_table_input) as (c & e & input & meta & lv & at_pos & Ei & Hd & Hw);
    [done|cbn; lia|by vm_compute|].
  destruct (compaction_revives_deleted (EL := Mem_law) (fun _ => I) (BLaw := NoBlockCache_law) flush_options (proj1 flush_options_ok) (proj2 flush_options_ok) [100] 10
    (one_entries revive_kvs) (one_live meta) (fun _ => []) (replicate 7 []) drop_compaction 9 revive_kvs (fun _ => False) (fun e => e = revive_stays) (one_db e c) input lv at_pos 10
    (sample_key 97 20 1) (sample_key 97 9 0, []) revive_stays [] revive_layout) as (s & c' & i' & d' & E & Hok);
    [clear; by vm_compute|exact Hd|cbn; lia|apply sample_key_valid; clear; done|exact revive_before|left|reflexivity|clear; by vm_compute| |exact revive_stays_newest|reflexivity|].
  - clear. by intros (i & files & f & _ & [-> _]%lookup_replicate & []%not_elem_of_nil & _).
  - destruct (Hw s c' i' d' E) as [-> _]. destruct (Hok eq_refl) as (chunks & [Hf _] & Hnew & _ & Ha). exists c, e, input, c', i', d', chunks.
    split; [exact Ei|]. split; [exact E|]. split; [exact Hf|]. split; [exact Hnew|exact Ha].
Defined.
End OneTable.

(** * A concrete database *)

(** The directory is [d]; nothing is compressed, and blocks are not cached. *)
#[local] Instance NoBlocks : BlockCache unit := {
  bc_new _ := Some tt; bc_find _ _ := None; bc_read b _ := b; bc_new_id b := (1, b)
}.
#[local] Instance NoCompression : Snappy := NoSnappy.
#[local] Existing Instance BytewiseComparator.
#[local] Existing Instance bump_new.

Definition SampleDB : Type := DB (E := MemEnv) (C := ShardedLRUCache (Table StringFile) * Z) (B := unit).

(** Small files: [max_file_size] is set after the options were made reasonable. *)
Definition small_options : Options := {|
  comparator := InternalKeyComparator BytewiseComparator; create_if_missing := true; error_if_exists := false;
  paranoid_checks := true; write_buffer_size := 65536; max_open_files := 74; block_size := 1; block_restart_interval := 2;
  max_file_size := 40; compression := kNoCompression; reuse_logs := false; filter_policy := None |}.

Definition sample_open_options : Options := {|
  comparator := BytewiseComparator; create_if_missing := true; error_if_exists := false; paranoid_checks := true;
  write_buffer_size := 65536; max_open_files := 74; block_size := 1024; block_restart_interval := 2; max_file_size := 1048576;
  compression := kNoCompression; reuse_logs := false; filter_policy := None |}.

Definition with_options (d : SampleDB) (o : Options) : SampleDB := {|
  db_e := db_e d; db_options := o; db_name := db_name d; db_tables := db_tables d; db_lock := db_lock d;
  db_shutting_down := db_shutting_down d; db_memtables := db_memtables d; db_mem := db_mem d; db_imm := db_imm d;
  db_has_imm := db_has_imm d; db_logfile := db_logfile d; db_logfile_number := db_logfile_number d; db_log := db_log d;
  db_seed := db_seed d; db_tmp_batch := db_tmp_batch d; db_snapshots := db_snapshots d;
  db_pending_outputs := db_pending_outputs d; db_scheduled := db_scheduled d; db_manuals := db_manuals d;
  db_manual_compaction := db_manual_compaction d; db_versions := db_versions d; db_bg_error := db_bg_error d;
  db_next_addr := db_next_addr d |}.

Definition sample_open : option SampleDB :=
  match DB_Open (Sq := StringFile) (R := StringFile) 100 (MemEnv_new 100000) sample_open_options true None [100] with
  | Some (_, inr d) => Some (with_options d small_options)
  | _ => None
  end.

Definition put (d : SampleDB) (k v : Z) : option SampleDB :=
  '(s, d) ← DB_Put (Sq := StringFile) (R := StringFile) 100 d true [k] [v]; if Status_ok s then Some d else None.

Definition flush (d : SampleDB) : option SampleDB :=
  '(s, d) ← TEST_CompactMemTable (Sq := StringFile) (R := StringFile) 100 d; if Status_ok s then Some d else None.

Definition compact (d : SampleDB) (level : Z) (begin end_ : option bytes) : option SampleDB :=
  TEST_CompactRange (Sq := StringFile) (R := StringFile) 100 d level begin end_.

Definition get (d : SampleDB) (k : Z) : option (Status * bytes * SampleDB) :=
  DB_Get (Sq := StringFile) (R := StringFile) d ReadOptions_default None [k] [].

(** The key [u] is put and, after a snapshot, deleted; a compaction writes [t] and
    the deletion of [u] to one file and the old value of [u] to the next. *)
Definition split_between : option SampleDB :=
  d ← sample_open;
  d ← put d 117 1;
  '(snapshot, d) ← GetSnapshot d;
  '(_, d) ← DB_Delete (Sq := StringFile) (R := StringFile) 100 d true [117];
  d ← put d 116 2;
  d ← flush d;
  d ← compact d 2 None None;
  d ← ReleaseSnapshot d snapshot;
  d ← put d 116 3;
  flush d.

(** The state that [compaction_revives_deleted] is about comes up: before the
    compaction of [t] the key [u] is not found, afterwards it has its old value, and
    no error is reported.  The files here are cut at 40 bytes, instead of the megabyte
    at least of [SanitizeOptions], to keep the data small. *)
Example split_between_revives :
  (d ← split_between;
   '(s1, _, d) ← get d 117;
   d ← TEST_CompactRange (Sq := StringFile) (R := StringFile) 100 d 2 (Some [116]) (Some [116]);
   '(s2, v2, d) ← DB_Get (Sq := StringFile) (R := StringFile) d ReadOptions_default None [117] [];
   Some (Status_IsNotFound s1, s2, v2, db_bg_error d)) = Some (true, Status_OK, [1], Status_OK).
Proof. vm_compute. reflexivity. Qed.

(** The limit of [ClipToRange] is compared with the value cast to [int]: sizes of
    more than 32 bits keep their high bits, or become the least size. *)
Lemma ClipToRange_in_range v lo hi :
  - 2 ^ 31 <= lo -> lo <= hi -> hi < 2 ^ 31 -> - 2 ^ 31 <= v < 2 ^ 31 -> lo <= ClipToRange v lo hi <= hi.
Proof.
  intros H1 H2 H3 H4. assert (forall z, - 2 ^ 31 <= z < 2 ^ 31 -> s32 z = z) as Hs by (intros z Hz; apply sint_small; [lia|exact Hz]).
  unfold ClipToRange. rewrite (Hs v) by done. destruct (Z.gtb_spec v hi); [rewrite (Hs hi) by lia|rewrite (Hs v) by done];
    case_match; lia.
Qed.

Lemma SanitizeOptions_size_unclipped :
  ClipToRange (2 ^ 32 + 1048576) 65536 1073741824 = 2 ^ 32 + 1048576 /\ ClipToRange (2 ^ 32) 65536 1073741824 = 65536.
Proof. by vm_compute. Qed.
