(* ===== verification/LdbDBData.v ===== *)
(** leveldb: the database as a map with a history, for the reads and writes of
    [db_impl.cc].

    The entries of a database are those of its tables in memory and of the files
    of its current version.  [sees ents u s oe]: [oe] is the newest of the entries
    [ents] of the user key [u] that is not newer than the sequence number [s].  A
    lookup answers with what is seen, and a group of writers adds the entries of
    its updates. *)
From stdpp Require Import base numbers option sets strings gmap sorting list.
From S2P Require Import Prelude Varint LdbSlice LdbCoding LdbComparator LdbDbformat LdbEnv LdbFilename LdbLogWriter LdbLogThms LdbArena LdbMemTable LdbWriteBatch LdbWriteThms LdbFormat LdbTable LdbVersionEdit LdbRing LdbVersion LdbVersionThms LdbVersionSet LdbVersionSetThms LdbManifest LdbManifestThms LdbCompaction LdbCompactionThms LdbCache LdbTableCache LdbDB LdbDBThms.
Open Scope Z_scope.

(** * Entries *)

Section Layers.
Context {U : Comparator} {uvalid : bytes -> Prop} {uorder : bytes -> bytes -> Z} {UL : ComparatorLaw U uvalid uorder}.
#[local] Abbreviation newest := (newest (uorder := uorder)).
#[local] Abbreviation ivalid := (ikey_valid uvalid).
#[local] Abbreviation same u v := (uorder (ikey_user u) (ikey_user v) = 0).
#[local] Abbreviation e_ok := (e_ok (uvalid := uvalid)).
#[local] Abbreviation get_spec := (get_spec (uorder := uorder)).
#[local] Abbreviation visible := (visible (uorder := uorder)).

(** An entry of a table in memory as key and value. *)
Definition pair_of (e : Entry) : bytes * bytes := (e_ikey e, e_value e).

Definition mem_entries (es : list Entry) (p : bytes * bytes) : Prop := exists e, e ∈ es /\ p = pair_of e.

(** What is seen at a sequence number. *)
Definition sees (ents : bytes * bytes -> Prop) (u : bytes) (s : Z) (oe : option (bytes * bytes)) : Prop :=
  newest ents (InternalKey_make u s kValueTypeForSeek) oe.

(** Newer entries on top. *)
Definition on_top (upper lower : bytes * bytes -> Prop) : Prop :=
  forall p q, upper p -> lower q -> same p.1 q.1 -> ikey_tag q.1 < ikey_tag p.1.

Definition either (a b : bytes * bytes -> Prop) (p : bytes * bytes) : Prop := a p \/ b p.

Definition all_valid (ents : bytes * bytes -> Prop) : Prop := forall p, ents p -> entry_valid (uvalid := uvalid) p.

Lemma pair_of_user e : ikey_user (pair_of e).1 = e_key e.
Proof. change (pair_of e).1 with (e_ikey e). by rewrite e_ikey_app, ikey_user_app. Qed.

Lemma pair_of_tag e : e_fits e -> ikey_tag (pair_of e).1 = e_tag e.
Proof.
  intros (_ & _ & _ & _ & Hs & Ht). change (pair_of e).1 with (e_ikey e). rewrite e_ikey_app, ikey_tag_app by done. unfold EncodeFixed64. cbn [kLittleEndian].
  rewrite le_val_bytes by (by apply Pack_range; auto with cint). by rewrite Pack_add by auto with cint.
Qed.

Lemma e_tag_type e : e_fits e -> e_tag e mod 256 = e_type e.
Proof.
  intros (_ & _ & _ & _ & Hs & Ht). unfold e_tag, valid_type, kTypeDeletion, kTypeValue in *.
  rewrite Z.add_comm, Z_mod_plus_full. apply Z.mod_small. lia.
Qed.

Lemma pair_of_type e : e_fits e -> ikey_type (pair_of e).1 = e_type e.
Proof. intros He. unfold ikey_type. by rewrite pair_of_tag, e_tag_type. Qed.

Lemma pair_of_seq e : e_fits e -> ikey_seq (pair_of e).1 = e_seq e.
Proof.
  intros He. unfold ikey_seq. rewrite pair_of_tag by done. destruct He as (_ & _ & _ & _ & _ & Ht).
  unfold e_tag, valid_type, kTypeDeletion, kTypeValue in *. rewrite Z.add_comm, Z.div_add by lia. rewrite Z.div_small; lia.
Qed.

Lemma pair_of_valid e : e_ok e -> entry_valid (uvalid := uvalid) (pair_of e).
Proof.
  intros [He Hu]. split.
  - cbn. by apply ikey_valid_append.
  - rewrite pair_of_type by done. destruct He as (_ & _ & _ & _ & _ & [->| ->]); done.
Qed.

Lemma mem_entries_valid es : Forall e_ok es -> all_valid (mem_entries es).
Proof. intros H p (e & He & ->). apply pair_of_valid. by apply (proj1 (Forall_forall _ _) H). Qed.

(** The key that is looked up. *)
Lemma seek_key_valid u s : uvalid u -> ivalid (InternalKey_make u s kValueTypeForSeek).
Proof. intros. by apply ikey_valid_append. Qed.

Lemma seek_key_tag u s : valid_seq s -> ikey_tag (InternalKey_make u s kValueTypeForSeek) = s * 256 + kTypeValue.
Proof.
  intros Hs. change (InternalKey_make u s kValueTypeForSeek) with (e_ikey {| e_key := u; e_seq := s; e_type := kTypeValue; e_value := [] |}).
  rewrite e_ikey_app, ikey_tag_app by done. unfold EncodeFixed64. cbn [kLittleEndian e_seq e_type].
  assert (valid_type kTypeValue) as Ht by (by right).
  rewrite le_val_bytes by (by apply Pack_range; auto with cint). by rewrite Pack_add by auto with cint.
Qed.

Lemma seek_key_user u s : ikey_user (InternalKey_make u s kValueTypeForSeek) = u.
Proof.
  change (InternalKey_make u s kValueTypeForSeek) with (e_ikey {| e_key := u; e_seq := s; e_type := kTypeValue; e_value := [] |}).
  by rewrite e_ikey_app, ikey_user_app.
Qed.

Lemma visible_seek u s p :
  uvalid u -> valid_seq s -> ivalid p.1 ->
  visible_at (uorder := uorder) (InternalKey_make u s kValueTypeForSeek) p
  <-> uorder (ikey_user p.1) u = 0 /\ ikey_tag p.1 <= s * 256 + kTypeValue.
Proof.
  intros Hu Hs Hp. pose proof (seek_key_valid u s Hu) as Vk. split.
  - intros H. pose proof (proj1 H) as H1. pose proof (proj1 (visible_tag _ p Vk Hp H1) H) as H2.
    by rewrite seek_key_user, seek_key_tag in *.
  - intros [H1 H2]. apply (visible_tag _ p Vk Hp); by rewrite ?seek_key_user, ?seek_key_tag.
Qed.

Lemma visible_pair u s e :
  uvalid u -> valid_seq s -> e_ok e -> visible_at (uorder := uorder) (InternalKey_make u s kValueTypeForSeek) (pair_of e) <-> visible u s e.
Proof.
  intros Hu Hs [He Hv]. rewrite visible_seek by (done || by apply pair_of_valid). rewrite pair_of_user, pair_of_tag by done.
  unfold LdbMemTable.visible, e_tag. destruct He as (_ & _ & _ & _ & _ & Ht). unfold valid_type, kTypeDeletion, kTypeValue in *.
  split; intros [H1 H2]; split; [done|lia|done|lia].
Qed.

(** Entries of one key have different sequence numbers. *)
Definition distinct (es : list Entry) : Prop :=
  forall e e', e ∈ es -> e' ∈ es -> uorder (e_key e) (e_key e') = 0 -> e_seq e = e_seq e' -> e = e'.

(** What a table in memory answers is what is seen in it. *)
Lemma get_spec_sees es u s r value :
  Forall e_ok es -> distinct es -> uvalid u -> valid_seq s -> get_spec es u s r ->
  exists oe, sees (mem_entries es) u s oe /\ found r = bool_decide (is_Some oe)
    /\ (found r = true -> (default Status_OK (get_status r), default value (get_value r)) = answer value oe).
Proof.
  intros Hes Hd Hu Hs [(e & He & Hv & Hmax & ->)|[Hno ->]].
  - pose proof (proj1 (Forall_forall _ _) Hes) as Hok. exists (Some (pair_of e)). split_and!.
    + split; [by exists e|]. split; [by apply visible_pair; [| |apply Hok|]|]. intros p (e' & He' & ->) Hv'.
      apply visible_pair in Hv'; [|done|done|by apply Hok]. pose proof (Hmax e' He' Hv') as Hle.
      rewrite !pair_of_tag by (by apply Hok). unfold e_tag.
      destruct (Z.eq_dec (e_seq e') (e_seq e)) as [Eq|Hne].
      * assert (e' = e) as ->; [|lia]. apply Hd; [done|done| |done]. destruct Hv as [V1 _], Hv' as [V2 _].
        apply (uorder_eq_trans _ u); [apply (Hok e' He')|done|apply (Hok e He)|done|].
        apply uorder_eq_sym; [apply (Hok e He)|done|done].
      * destruct (Hok e He) as [(_ & _ & _ & _ & _ & T1) _], (Hok e' He') as [(_ & _ & _ & _ & _ & T2) _].
        unfold valid_type, kTypeDeletion, kTypeValue in *. lia.
    + unfold LdbMemTable.answer. by case_match.
    + intros _. unfold LdbMemTable.answer, answer. rewrite pair_of_type by (by apply Hok). by destruct (_ =? _).
  - exists None. split_and!; [|done|done]. intros p (e & He & ->) Hv. apply (Hno e He). apply visible_pair in Hv; [done|done|done|].
    by apply (proj1 (Forall_forall _ _) Hes).
Qed.

(** What is on top is seen first. *)
Lemma sees_layer upper lower u s oa ob :
  all_valid upper -> all_valid lower -> on_top upper lower -> uvalid u ->
  sees upper u s oa -> (oa = None -> sees lower u s ob) -> sees (either upper lower) u s (match oa with Some p => Some p | None => ob end).
Proof.
  intros Va Vb Ht Hu Ha Hb. destruct oa as [p|].
  - destruct Ha as (Hp & Hv & Hmax). split; [by left|]. split; [done|]. intros q [Hq|Hq] Hvq; [by apply Hmax|].
    apply Z.lt_le_incl. apply Ht; [done|done|]. destruct Hv as [V1 _], Hvq as [V2 _]. rewrite seek_key_user in V1, V2.
    assert (forall r, entry_valid (uvalid := uvalid) r -> uvalid (ikey_user r.1)) as HU by (intros r [Hr _]; apply (ikey_valid_user _ Hr)).
    pose proof (HU p (Va p Hp)). pose proof (HU q (Vb q Hq)). apply (uorder_eq_trans _ u); [done..|by apply uorder_eq_sym].
  - specialize (Hb eq_refl). destruct ob as [q|].
    + destruct Hb as (Hq & Hv & Hmax). split; [by right|]. split; [done|]. intros p [Hp|Hp] Hvp; [by destruct (Ha p Hp)|by apply Hmax].
    + intros p [Hp|Hp]; [by apply Ha|by apply Hb].
Qed.

(** Only the visible entries count. *)
Lemma sees_ext ents ents' u s oe :
  (forall p, visible_at (uorder := uorder) (InternalKey_make u s kValueTypeForSeek) p -> ents p <-> ents' p) ->
  sees ents u s oe -> sees ents' u s oe.
Proof.
  intros H. unfold sees. destruct oe as [p|]; cbn.
  - intros (Hp & Hv & Hmax). split; [by apply H|]. split; [done|]. intros q Hq Hvq. apply Hmax; [by apply H|done].
  - intros Hn p Hp Hv. apply (Hn p); [by apply H|done].
Qed.

(** Nothing newer than [last] is there to be seen. *)
Lemma sees_later ents u last s oe :
  all_valid ents -> uvalid u -> valid_seq last -> last <= s -> valid_seq s ->
  (forall p, ents p -> ikey_seq p.1 <= last) -> sees ents u last oe -> sees ents u s oe.
Proof.
  intros Hv Hu Hl Hle Hs Hseq.
  assert (forall p, ents p -> visible_at (uorder := uorder) (InternalKey_make u last kValueTypeForSeek) p
            <-> visible_at (uorder := uorder) (InternalKey_make u s kValueTypeForSeek) p) as Hiff.
  { intros p Hp. destruct (Hv p Hp) as [Vp Ht]. rewrite !visible_seek by done. specialize (Hseq p Hp).
    unfold ikey_seq, ikey_type in *. pose proof (Z.div_mod (ikey_tag p.1) 256 ltac:(lia)). unfold kTypeValue in *. split; intros [H1 H2]; (split; [done|lia]). }
  unfold sees. destruct oe as [p|]; cbn.
  - intros (Hp & Hvp & Hmax). split; [done|]. split; [by apply Hiff|]. intros q Hq Hvq. apply Hmax; [done|by apply Hiff].
  - intros Hn p Hp Hvp. apply (Hn p Hp). by apply Hiff.
Qed.
End Layers.

(** ** The entries of a batch *)
Section Batch.
Context {U : Comparator} {uvalid : bytes -> Prop} {uorder : bytes -> bytes -> Z} {UL : ComparatorLaw U uvalid uorder}.
#[local] Abbreviation sees := (sees (uorder := uorder)).
#[local] Abbreviation update_ok := (update_ok (uvalid := uvalid)).
#[local] Abbreviation last_update := (last_update (uorder := uorder)).
#[local] Abbreviation distinct := (distinct (uorder := uorder)).

Lemma batch_entries_ok seq us : Forall update_ok us -> 0 <= seq -> seq + zlen us <= kMaxSequenceNumber + 1 ->
  Forall (e_ok (uvalid := uvalid)) (batch_entries seq us).
Proof.
  intros Hus H0 Hm. apply Forall_forall. intros e (i & u & Hi & ->)%elem_of_batch_entries.
  apply update_entry_ok; [by apply (Forall_lookup_1 _ _ _ _ Hus Hi)|]. apply lookup_lt_Some in Hi. unfold valid_seq. lia.
Qed.

Lemma batch_entries_distinct seq us es :
  distinct es -> (forall e, e ∈ es -> e_seq e < seq) -> distinct (batch_entries seq us ++ es).
Proof.
  intros Hd Hlt e e' He He' Hu Hs. apply elem_of_app in He as [He|He], He' as [He'|He'].
  - apply elem_of_batch_entries in He as (i & u & Hi & ->), He' as (j & v & Hj & ->). rewrite !update_entry_seq in Hs.
    assert (i = j) as -> by lia. congruence.
  - apply elem_of_batch_entries in He as (i & u & Hi & ->). rewrite update_entry_seq in Hs. specialize (Hlt _ He'). lia.
  - apply elem_of_batch_entries in He' as (i & u & Hi & ->). rewrite update_entry_seq in Hs. specialize (Hlt _ He). lia.
  - by apply Hd.
Qed.

(** What an update makes a lookup answer. *)
Definition update_value (value : bytes) (x : Update) : Status * bytes :=
  match x with Put _ v => (Status_OK, v) | Delete _ => (Status_NotFound [] [], value) end.

Lemma update_entry_value value seq u : update_ok u -> valid_seq seq -> answer value (Some (pair_of (update_entry seq u))) = update_value value u.
Proof.
  intros Hu Hs. unfold answer. rewrite pair_of_type by (by apply (update_entry_ok (uvalid := uvalid))). by destruct u.
Qed.

Lemma sees_batch seq us u s value :
  Forall update_ok us -> 0 <= seq -> seq + zlen us <= kMaxSequenceNumber + 1 -> uvalid u -> valid_seq s -> seq + zlen us - 1 <= s ->
  exists oe, sees (mem_entries (batch_entries seq us)) u s oe
    /\ match last_update us u with Some x => is_Some oe /\ answer value oe = update_value value x | None => oe = None end.
Proof.
  intros Hus H0 Hm Hu Hs Hle. pose proof (batch_entries_ok seq us Hus H0 Hm) as Hok. pose proof (proj1 (Forall_forall _ _) Hok) as Hok'.
  unfold LdbWriteThms.last_update. destruct (last _) as [x|] eqn:E.
  - destruct (last_filter_Some _ _ _ E) as (i & Hi & Hx & Hmax). apply Z.eqb_eq in Hx. pose proof (lookup_lt_Some _ _ _ Hi) as Hil.
    assert (update_entry (seq + Z.of_nat i) x ∈ batch_entries seq us) as Hin by (apply elem_of_batch_entries; eauto).
    exists (Some (pair_of (update_entry (seq + Z.of_nat i) x))). split_and!; [split_and!| |].
    + by eexists.
    + apply visible_pair; [done|done|by apply Hok'|]. split; [by rewrite update_entry_key|rewrite update_entry_seq; lia].
    + intros p (e & He & ->) Hv. pose proof (Hok' _ He) as Oe. apply visible_pair in Hv as [Hv _]; [|done..].
      apply elem_of_batch_entries in He as (j & y & Hj & ->). rewrite update_entry_key in Hv.
      assert (j <= i)%nat by (eapply Hmax; [exact Hj|by apply Z.eqb_eq]).
      destruct (Nat.eq_dec j i) as [->|Hne]; [replace y with x by congruence; lia|].
      rewrite !pair_of_tag by (by apply Oe || by apply (Hok' _ Hin)). unfold e_tag. rewrite !update_entry_seq.
      destruct Oe as [(_ & _ & _ & _ & _ & T1) _], (Hok' _ Hin) as [(_ & _ & _ & _ & _ & T2) _].
      unfold valid_type, kTypeDeletion, kTypeValue in *. lia.
    + done.
    + apply update_entry_value; [by apply (Forall_lookup_1 _ _ _ _ Hus Hi)|unfold valid_seq; lia].
  - exists None. split; [|done]. intros p (e & He & ->) Hv. apply visible_pair in Hv as [Hv _]; [|done|done|by apply Hok'].
    apply elem_of_batch_entries in He as (j & y & Hj & ->). rewrite update_entry_key in Hv. apply Z.eqb_eq in Hv.
    rewrite (last_filter_None _ _ E y) in Hv; [done|]. by eapply list_elem_of_lookup_2.
Qed.

Lemma batch_on_top seq us ents :
  Forall update_ok us -> 0 <= seq -> seq + zlen us <= kMaxSequenceNumber + 1 -> (forall p, ents p -> ikey_seq p.1 < seq) ->
  on_top (uorder := uorder) (mem_entries (batch_entries seq us)) ents.
Proof.
  intros Hus H0 Hm Hs p q (e & He & ->) Hq _. pose proof (proj1 (Forall_forall _ _) (batch_entries_ok seq us Hus H0 Hm) e He) as Oe.
  rewrite pair_of_tag by apply Oe. apply elem_of_batch_entries in He as (i & x & Hi & ->). specialize (Hs q Hq). unfold ikey_seq in Hs.
  unfold e_tag. rewrite update_entry_seq. destruct Oe as [(_ & _ & _ & _ & _ & T) _].
  pose proof (Z.div_mod (ikey_tag q.1) 256 ltac:(lia)). pose proof (Z.mod_pos_bound (ikey_tag q.1) 256 ltac:(lia)).
  unfold valid_type, kTypeDeletion, kTypeValue in *. lia.
Qed.

(** New entries on top of old ones that are not newer than [last]. *)
Lemma sees_write ents last us u oe value :
  Forall update_ok us -> 0 <= last -> last + zlen us < kMaxSequenceNumber -> uvalid u ->
  all_valid (uvalid := uvalid) ents -> (forall p, ents p -> ikey_seq p.1 <= last) ->
  sees ents u last oe ->
  exists oe', sees (either (mem_entries (batch_entries (last + 1) us)) ents) u (last + zlen us) oe'
    /\ answer value oe' = match last_update us u with Some x => update_value value x | None => answer value oe end.
Proof.
  intros Hus H0 Hm Hu Hv Hs Ho.
  destruct (sees_batch (last + 1) us u (last + zlen us) value Hus) as (ob & Hb & Hans); [lia|lia|done|unfold valid_seq; lia|lia|].
  eexists. split.
  - apply (sees_layer (uvalid := uvalid) _ _ _ _ ob oe); [| |  |done|exact Hb|].
    + apply mem_entries_valid, batch_entries_ok; [done|lia|lia].
    + done.
    + apply batch_on_top; [done|lia|lia|]. intros p Hp. specialize (Hs p Hp). lia.
    + intros _. apply (sees_later (uvalid := uvalid) _ _ last); [done|done|unfold valid_seq; lia|lia|unfold valid_seq; lia|done|done].
  - destruct (last_update us u); [destruct Hans as [[p ->] Ha]; exact Ha|by rewrite Hans].
Qed.
End Batch.

(** * Statistics of a lookup *)

Section Seeks.
Context {U : Comparator} {TC : Type} {TG : TableGetter TC}.

Lemma overlapping_files_sub user files fs f : overlapping_files user files = Some fs -> f ∈ fs -> f ∈ files.
Proof.
  revert fs. induction files as [|g files IH]; intros fs; cbn [overlapping_files]; [by intros [= <-]|].
  intros H. repeat (apply bind_Some in H as (? & ? & H)). injection H as <-.
  match goal with |- _ ∈ (if ?b then _ else _) -> _ => destruct b end;
    [intros [->|Hf]%elem_of_cons; [set_solver|]|intros Hf]; apply elem_of_cons; right; by eapply IH.
Qed.

Lemma files_to_search_sub level files user ikey fs f : files_to_search level files user ikey = Some fs -> f ∈ fs -> f ∈ files.
Proof.
  unfold files_to_search. destruct (bool_decide _); [by intros [= <-] ?%not_elem_of_nil|]. destruct level.
  - intros (tmp & Ht & [= <-])%bind_Some. rewrite merge_sort_Permutation. by apply (overlapping_files_sub user).
  - intros (index & _ & K)%bind_Some. destruct (_ >=? _); [by injection K as <-; intros ?%not_elem_of_nil|].
    apply bind_Some in K as (g & Hg & K). repeat (apply bind_Some in K as (? & _ & K)). injection K as <-. unfold file_at in Hg.
    match goal with |- _ ∈ (if ?b then _ else _) -> _ => destruct b end; [by intros ?%not_elem_of_nil|].
    intros ->%list_elem_of_singleton. by eapply list_elem_of_lookup_2.
Qed.

(** The file to charge a seek to, and the last one read, are among those searched. *)
Definition seeks_in (P : FileRef -> Prop) (st : GetState (TC := TC)) : Prop :=
  (forall f, seek_file (gs_stats st) = Some f -> P f) /\ (forall f l, last_file_read st = Some (f, l) -> P f).

Lemma charge_seek_in P st : seeks_in P st -> seeks_in P (charge_seek st).
Proof.
  intros H. unfold charge_seek. destruct (last_file_read st) as [[f l]|] eqn:E; [|done]. destruct (seek_file _) eqn:E2; [done|].
  destruct H as [_ H]. split; cbn; [intros g [= <-]; by apply (H f l)|intros g k [= <- <-]; by apply (H f l)].
Qed.

Lemma get_in_files_seeks P options user ikey level fs value st r st' :
  Forall P fs -> seeks_in P st -> get_in_files options user ikey level fs value st = Some (r, st') -> seeks_in P st'.
Proof.
  intros Hfs. revert value st. induction Hfs as [|f fs Hf Hfs IH]; intros value st Hst; cbn [get_in_files]; [by intros [= <- <-]|].
  apply (charge_seek_in P) in Hst. intros H. apply bind_Some in H as ([[s found] tc] & _ & H). apply bind_Some in H as ([state v] & _ & H).
  assert (seeks_in P {| gs_stats := gs_stats (charge_seek st); last_file_read := Some (f, Z.of_nat level); gs_cache := tc |}) as Hnew.
  { split; cbn; [apply Hst|by intros g l [= <- <-]]. }
  destruct (Status_ok s); [destruct state|]; [by apply IH in H|by injection H as <- <-..].
Qed.

Lemma get_in_levels_seeks P options user ikey level levels value st s v st' :
  Forall (Forall P) levels -> seeks_in P st -> get_in_levels options user ikey level levels value st = Some (s, v, st') -> seeks_in P st'.
Proof.
  intros Hl. revert level st. induction Hl as [|files levels Hf Hl IH]; intros level st Hst; cbn [get_in_levels]; [by intros [= <- <- <-]|].
  intros (fs & Hs & H)%bind_Some. apply bind_Some in H as ([a st1] & Hg & H).
  apply (get_in_files_seeks P) in Hg; [|apply Forall_forall; intros f Hin; by apply (proj1 (Forall_forall _ _) Hf), (files_to_search_sub _ _ _ _ _ _ Hs)|done].
  destruct a as [[s1 v1]|]; [by injection H as <- <- <-|by apply IH in H].
Qed.

(** What a lookup in a table keeps, lookups in all levels keep. *)
Lemma get_in_levels_keep {A : Type} (f : TC -> A) options user ikey level levels value st s v st' :
  (forall tc o n z k s r tc', TableCache_Get tc o n z k = Some (s, r, tc') -> f tc' = f tc) ->
  get_in_levels options user ikey level levels value st = Some (s, v, st') -> f (gs_cache st') = f (gs_cache st).
Proof.
  intros Hf.
  assert (forall level fs value st r st', get_in_files options user ikey level fs value st = Some (r, st') -> f (gs_cache st') = f (gs_cache st)) as Hfiles.
  { intros lvl fs. induction fs as [|g fs IH]; intros w st0 r st1; cbn [get_in_files]; [by intros [= <- <-]|].
    intros H. apply bind_Some in H as ([[s1 found] tc] & Hg & H). apply bind_Some in H as ([state x] & _ & H). apply Hf in Hg.
    assert (gs_cache (charge_seek st0) = gs_cache st0) as Ec by (unfold charge_seek; repeat case_match; done). rewrite Ec in Hg.
    destruct (Status_ok s1); [destruct state|]; [apply IH in H; cbn in H; congruence|by injection H as <- <-..]. }
  revert level st. induction levels as [|files levels IH]; intros level st; cbn [get_in_levels]; [by intros [= <- <- <-]|].
  intros (fs & _ & H)%bind_Some. apply bind_Some in H as ([a st1] & Hg & H). apply Hfiles in Hg.
  destruct a as [[s1 v1]|]; [by injection H as <- <- <-|apply IH in H; congruence].
Qed.
End Seeks.

(** * The set of versions *)

(** The allowed seeks and the file to compact do not matter to the counts. *)
Lemma UpdateStats_ok s xs ext extra a v stats :
  vs_ok s xs ext extra -> a ∈ xs -> vs_versions s !! a = Some v -> (forall f, seek_file stats = Some f -> f ∈ concat (files_ v)) ->
  exists b s' v', UpdateStats s a stats = Some (b, s') /\ vs_ok s' xs ext extra /\ vs_versions s' !! a = Some v'
    /\ files_ v' = files_ v /\ vs_current s' = vs_current s /\ vs_last_sequence s' = vs_last_sequence s.
Proof.
  intros H Ha E Hf. unfold UpdateStats. rewrite E. cbn [mbind option_bind]. destruct (seek_file stats) as [f|]; [|by exists false, s, v].
  assert (f ∈ all_files s xs ++ extra) as Hin.
  { apply elem_of_app. left. apply list_elem_of_split in Ha as (l1 & l2 & ->). rewrite all_files_split. apply elem_of_app. left.
    unfold version_files. rewrite E. by apply Hf. }
  destruct (files_counted_known _ _ f (ok_files _ _ _ _ H) Hin) as (st & Es & _). rewrite Es. cbn [mbind option_bind]. cbv zeta.
  set (st' := {| fs_refs := fs_refs st; fs_allowed_seeks := s32 (fs_allowed_seeks st - 1) |}). set (s1 := with_vs_files s _).
  assert (vs_ok s1 xs ext extra) as H1.
  { destruct H as [H1 H2 H3 H4]. split; [done..|]. intros b. specialize (H4 b). cbn. destruct (decide (b = f_addr f)) as [->|Hne].
    - rewrite lookup_insert_eq. by rewrite Es in H4.
    - by rewrite lookup_insert_ne. }
  destruct (_ && _).
  - eexists true, _, _. split; [done|]. cbn [put_version with_versions vs_versions vs_current vs_last_sequence]. rewrite lookup_insert_eq.
    split_and!; [|done|done|done|done]. apply (put_version_ok s1 xs ext ext extra a v); [done|done|done|done| |done].
    by apply (ok_refs _ _ _ _ H a v).
  - by exists false, s1, v.
Qed.

(** * The database *)

Section Database.
Context {E Sq R : Type} {EV : Env E Sq R} {SF : SequentialFile Sq} {RF : RandomAccessFile R} {SN : Snappy}.
Context {C B : Type} {CA : Cache C (Table R)} {BC : BlockCache B} {NC : NewChar} {NL : NewCharLaw NC}.
Context {U : Comparator} {uvalid : bytes -> Prop} {uorder : bytes -> bytes -> Z} {UL : ComparatorLaw U uvalid uorder}.
Context (fuel : nat) (entries : FileRef -> list (bytes * bytes)).
Context {good : E * TableCache C B -> Prop} {live : FileRef -> Prop}
  {TL : TableGetterLaw (uvalid := uvalid) (uorder := uorder) entries TableCache_getter good live}.
#[local] Abbreviation DB := (DB (E := E) (C := C) (B := B)).
#[local] Abbreviation sees := (sees (uorder := uorder)).
#[local] Abbreviation mem_rep := (mem_rep (uvalid := uvalid) (uorder := uorder)).
#[local] Abbreviation distinct := (distinct (uorder := uorder)).
#[local] Abbreviation on_top := (on_top (uorder := uorder)).
#[local] Abbreviation update_ok := (update_ok (uvalid := uvalid)).
#[local] Abbreviation last_update := (last_update (uorder := uorder)).
#[local] Abbreviation version_ok := (version_ok (uvalid := uvalid) (uorder := uorder) entries (live := live)).

(** The table in memory at an address, which somebody refers to. *)
Definition mem_holds (m : MemTable) (es : list Entry) : Prop := mem_rep m es /\ 1 <= LdbMemTable.refs_ m /\ distinct es.

Definition mem_at (d : DB) (a : Z) (es : list Entry) : Prop := exists m, db_memtables d !! a = Some m /\ mem_holds m es.

Definition imm_at (d : DB) (es : list Entry) : Prop :=
  match db_imm d with None => es = [] | Some b => db_mem d <> Some b /\ mem_at d b es end.

(** The tables in memory. *)
Definition mems_rep (d : DB) (es ies : list Entry) : Prop :=
  (exists a, db_mem d = Some a /\ mem_at d a es) /\ imm_at d ies.

(** The set of versions; [levels] are the files of the current one. *)
Definition versions_rep (s : VersionSet) (levels : list (list FileRef)) : Prop :=
  exists xs ext extra c v, vs_ok s xs ext extra /\ vs_current s = Some c /\ c ∈ xs /\ vs_versions s !! c = Some v /\ files_ v = levels.

Definition db_entries (es ies : list Entry) (levels : list (list FileRef)) : bytes * bytes -> Prop :=
  either (either (mem_entries es) (mem_entries ies)) (version_entries entries levels).

(** The tables in memory hold [es] and [ies], the current version [levels]; what
    is above is newer, and nothing is newer than [last]. *)
Record db_rep (d : DB) (es ies : list Entry) (levels : list (list FileRef)) (last : Z) : Prop := {
  dr_mems : mems_rep d es ies;
  dr_versions : versions_rep (db_versions d) levels;
  dr_levels : version_ok 0 levels;
  dr_good : good (db_e d, db_tables d);
  dr_mem_top : on_top (mem_entries es) (mem_entries ies);
  dr_version_top : on_top (either (mem_entries es) (mem_entries ies)) (version_entries entries levels);
  dr_last : vs_last_sequence (db_versions d) = last /\ 0 <= last < kMaxSequenceNumber;
  dr_sequences p : db_entries es ies levels p -> ikey_seq p.1 <= last
}.

Lemma imm_holds_entries d es : imm_at d es -> Forall (e_ok (uvalid := uvalid)) es.
Proof. unfold imm_at. destruct (db_imm d); [intros (_ & m & _ & [H _] & _); exact H|by intros ->]. Qed.

Lemma version_entries_valid levels : version_ok 0 levels -> all_valid (uvalid := uvalid) (version_entries entries levels).
Proof.
  intros [H _ _] p (files & Hf & f & Hin & Hp). apply list_elem_of_lookup in Hf as [i Hi]. destruct (H i files Hi) as [Hok _].
  exact (proj1 (Forall_forall _ _) (fo_valid _ _ (proj1 (Forall_forall _ _) Hok f Hin)) p Hp).
Qed.

Lemma db_entries_valid d es ies levels last : db_rep d es ies levels last -> all_valid (uvalid := uvalid) (db_entries es ies levels).
Proof.
  intros [[(a & _ & m & _ & [[He _] _]) Hi] _ Hl _ _ _ _ _] p [[Hp|Hp]|Hp].
  - by apply (mem_entries_valid es).
  - apply (mem_entries_valid ies); [|done]. by apply (imm_holds_entries d).
  - by apply (version_entries_valid levels).
Qed.

(** ** Entries are unique *)
#[local] Existing Instance ikey_CompareLaw.
#[local] Abbreviation iorder := (ikey_order uorder).

Lemma apart_before files i j f g p q :
  Forall (file_ok (uvalid := uvalid) (uorder := uorder) entries) files -> apart (uorder := uorder) files -> (i < j)%nat ->
  files !! i = Some f -> files !! j = Some g -> p ∈ entries f -> q ∈ entries g -> iorder p.1 q.1 < 0.
Proof.
  intros Hok Hap Hij Hi Hj Hp Hq. pose proof (Forall_lookup_1 _ _ _ _ Hok Hi) as Of. pose proof (Forall_lookup_1 _ _ _ _ Hok Hj) as Og.
  destruct (fo_range _ _ Of) as (_ & Lf & _), (fo_range _ _ Og) as (Sg & _ & _).
  destruct (entry_key_valid entries f p Of Hp) as [Vp _], (entry_key_valid entries g q Og Hq) as [Vq _].
  destruct (fo_within _ _ Of p Hp) as [_ H1], (fo_within _ _ Og q Hq) as [H2 _]. pose proof (Hap i j f g Hij Hi Hj) as H3.
  apply (order_le_lt_trans (CL := ikey_CompareLaw) _ (f_largest f)); [done|done|done|done|].
  by apply (order_lt_le_trans (CL := ikey_CompareLaw) _ (f_smallest g)).
Qed.

Lemma version_entries_unique levels p q :
  version_ok 0 levels -> version_entries entries levels p -> version_entries entries levels q ->
  uorder (ikey_user p.1) (ikey_user q.1) = 0 -> ikey_tag p.1 = ikey_tag q.1 -> p = q.
Proof.
  intros Hv Hp0 Hq0 Hs Ht. pose proof (version_entries_valid levels Hv) as Hval. destruct (Hval p Hp0) as [Vp _], (Hval q Hq0) as [Vq _].
  destruct (ikey_valid_user _ Vp) as [Up _], (ikey_valid_user _ Vq) as [Uq _].
  assert (uorder (ikey_user q.1) (ikey_user p.1) = 0) as Hs' by (by apply uorder_eq_sym).
  destruct Hp0 as (fs & Hfs & f & Hf & Hp), Hq0 as (gs & Hgs & g & Hg & Hq).
  apply list_elem_of_lookup in Hfs as [i Hi], Hgs as [j Hj].
  destruct (Nat.lt_trichotomy i j) as [Hij|[->|Hij]].
  { pose proof (vo_newer _ _ _ Hv i j fs gs f g Hij Hi Hj Hf Hg p q Hp Hq Hs). lia. }
  2: { pose proof (vo_newer _ _ _ Hv j i gs fs g f Hij Hj Hi Hg Hf q p Hq Hp Hs'). lia. }
  assert (gs = fs) as -> by congruence. pose proof (vo_level _ _ _ Hv j fs Hi) as (Hok & _ & Hl).
  assert (f = g) as <-.
  { apply list_elem_of_lookup in Hf as [m Hm], Hg as [n Hn]. destruct (decide (m = n)) as [->|Hne]; [congruence|]. destruct j as [|j]; cbn in Hl.
    - destruct Hl as [Hnd Hnew]. assert (f_number f <> f_number g) as Hnum.
      { intros E1. apply Hne. apply (NoDup_lookup _ m n (f_number f) Hnd); rewrite list_lookup_fmap; [by rewrite Hm|by rewrite Hn, E1]. }
      apply list_elem_of_lookup_2 in Hm, Hn. destruct (Z.lt_trichotomy (f_number f) (f_number g)) as [Hlt|[?|Hlt]]; [|done|].
      + pose proof (Hnew g f Hn Hm Hlt q p Hq Hp Hs'). lia.
      + pose proof (Hnew f g Hm Hn Hlt p q Hp Hq Hs). lia.
    - destruct (proj1 (Nat.lt_gt_cases m n) Hne) as [Hmn|Hmn].
      + pose proof (apart_before fs m n f g p q Hok Hl Hmn Hm Hn Hp Hq) as Hlt. apply (iorder_same (uorder := uorder) _ _ Hs) in Hlt. lia.
      + pose proof (apart_before fs n m g f q p Hok Hl Hmn Hn Hm Hq Hp) as Hlt. apply (iorder_same (uorder := uorder) _ _ Hs') in Hlt. lia. }
  pose proof (proj1 (Forall_forall _ _) Hok f Hf) as Of.
  by apply (kvs_unique (uvalid := uvalid) (uorder := uorder) (entries f) p q (fo_valid _ _ Of) (fo_ascending _ _ Of)).
Qed.

Lemma mem_entries_unique es p q :
  Forall (e_ok (uvalid := uvalid)) es -> distinct es -> mem_entries es p -> mem_entries es q ->
  uorder (ikey_user p.1) (ikey_user q.1) = 0 -> ikey_tag p.1 = ikey_tag q.1 -> p = q.
Proof.
  intros Hok Hd (e & He & ->) (e' & He' & ->) Hs Ht. rewrite !pair_of_user in Hs.
  pose proof (proj1 (Forall_forall _ _) Hok e He) as [Fe _]. pose proof (proj1 (Forall_forall _ _) Hok e' He') as [Fe' _].
  f_equal. apply Hd; [done..|]. rewrite <- (pair_of_seq e Fe), <- (pair_of_seq e' Fe'). unfold ikey_seq. by rewrite Ht.
Qed.

Lemma db_entries_unique d es ies levels last p q :
  db_rep d es ies levels last -> db_entries es ies levels p -> db_entries es ies levels q ->
  uorder (ikey_user p.1) (ikey_user q.1) = 0 -> ikey_tag p.1 = ikey_tag q.1 -> p = q.
Proof.
  intros Hd Hp Hq Hs Ht. pose proof (db_entries_valid d es ies levels last Hd) as Hval. destruct (Hval p Hp) as [Vp _], (Hval q Hq) as [Vq _].
  destruct (ikey_valid_user _ Vp) as [Up _], (ikey_valid_user _ Vq) as [Uq _].
  assert (uorder (ikey_user q.1) (ikey_user p.1) = 0) as Hs' by (by apply uorder_eq_sym).
  destruct Hd as [[(a & _ & m & _ & [He _] & _ & Hde) Hi] _ Hl _ Ho Hov _ _].
  assert (distinct ies) as Hdi.
  { unfold imm_at in Hi. destruct (db_imm d); [by destruct Hi as (_ & mi & _ & _ & _ & ?)|subst ies]. by intros e e' ?%not_elem_of_nil. }
  pose proof (imm_holds_entries d ies Hi) as Hie.
  destruct Hp as [Hp|Hp], Hq as [Hq|Hq]; [|pose proof (Hov p q Hp Hq Hs); lia|pose proof (Hov q p Hq Hp Hs'); lia|by apply (version_entries_unique levels)].
  destruct Hp as [Hp|Hp], Hq as [Hq|Hq];
    [by apply (mem_entries_unique es)|pose proof (Ho p q Hp Hq Hs); lia|pose proof (Ho q p Hq Hp Hs'); lia|by apply (mem_entries_unique ies)].
Qed.

(** What is seen is determined. *)
Lemma sees_unique d es ies levels last u s oe oe' :
  db_rep d es ies levels last -> uvalid u -> sees (db_entries es ies levels) u s oe -> sees (db_entries es ies levels) u s oe' -> oe = oe'.
Proof.
  intros Hd Hu H1 H2. destruct oe as [p|], oe' as [q|]; [|by destruct (H2 p (proj1 H1) (proj1 (proj2 H1)))|
    by destruct (H1 q (proj1 H2) (proj1 (proj2 H2)))|done].
  destruct H1 as (Hp & Vp & Mp), H2 as (Hq & Vq & Mq). pose proof (Mp q Hq Vq). pose proof (Mq p Hp Vp). f_equal.
  pose proof (db_entries_valid d es ies levels last Hd) as Hval. destruct (ikey_valid_user _ (proj1 (Hval p Hp))) as [Up _], (ikey_valid_user _ (proj1 (Hval q Hq))) as [Uq _].
  apply (db_entries_unique d es ies levels last p q Hd Hp Hq); [|lia]. destruct Vp as [Sp _], Vq as [Sq' _]. rewrite seek_key_user in Sp, Sq'.
  apply (uorder_eq_trans _ u); [done..|by apply uorder_eq_sym].
Qed.

(** ** References to the tables in memory *)
Lemma MemTable_Unref_Ref m : 1 <= LdbMemTable.refs_ m -> MemTable_Unref (MemTable_Ref m) = Some m.
Proof.
  intros H. unfold MemTable_Unref, MemTable_Ref. cbn. destruct (Z.leb_spec (LdbMemTable.refs_ m + 1 - 1) 0); [lia|].
  destruct m as [r a t]. cbn. do 2 f_equal. lia.
Qed.

(** Taking the references, and giving them back. *)
Lemma mem_refs_ok d a es ies :
  db_mem d = Some a -> mem_at d a es -> imm_at d ies ->
  exists d1 M, mem_ref d a = Some d1
    /\ on_imm mem_ref d1 (db_imm d) = Some (db_with_mems d M (db_mem d) (db_imm d) (db_has_imm d))
    /\ mems_rep (db_with_mems d M (db_mem d) (db_imm d) (db_has_imm d)) es ies
    /\ forall d' : DB, db_memtables d' = M -> exists d2, mem_unref d' a = Some d2
         /\ on_imm mem_unref d2 (db_imm d) = Some (db_with_mems d' (db_memtables d) (db_mem d') (db_imm d') (db_has_imm d')).
Proof.
  intros Ha (m & Em & Hm) Hi. assert (mem_holds (MemTable_Ref m) es) as Hm1 by (destruct Hm as (? & ? & ?); split_and!; [done|cbn; lia|done]).
  unfold imm_at in Hi. unfold mem_ref. rewrite Em. cbn [mbind option_bind]. destruct (db_imm d) as [b|] eqn:Eb; cbn [on_imm].
  - destruct Hi as (Hne & mi & Ei & Hi). assert (b <> a) as Hba by congruence.
    assert (mem_holds (MemTable_Ref mi) ies) as Hi1 by (destruct Hi as (? & ? & ?); split_and!; [done|cbn; lia|done]).
    eexists _, (<[b := MemTable_Ref mi]> (<[a := MemTable_Ref m]> (db_memtables d))). split; [done|]. split_and!.
    + unfold mem_ref. cbn. rewrite lookup_insert_ne by done. rewrite Ei. cbn. by rewrite ?Eb.
    + split; [exists a; split; [done|]|].
      * exists (MemTable_Ref m). cbn. by rewrite lookup_insert_ne, lookup_insert_eq.
      * unfold imm_at. cbn. split; [done|]. exists (MemTable_Ref mi). cbn. by rewrite lookup_insert_eq.
    + intros d' Hd'. unfold mem_unref. rewrite Hd'. rewrite lookup_insert_ne, lookup_insert_eq by done. cbn [mbind option_bind].
      rewrite MemTable_Unref_Ref by apply Hm. eexists. split; [done|]. cbn. rewrite lookup_insert_ne, lookup_insert_eq by done. cbn.
      rewrite MemTable_Unref_Ref by apply Hi. do 2 f_equal. apply map_eq. intros i.
      destruct (decide (i = b)) as [->|]; [by rewrite lookup_insert_eq, Ei|]. rewrite lookup_insert_ne by done.
      destruct (decide (i = a)) as [->|]; [by rewrite lookup_insert_eq, Em|]. by rewrite !lookup_insert_ne.
  - eexists _, (<[a := MemTable_Ref m]> (db_memtables d)). split; [done|]. split_and!.
    + by rewrite ?Eb.
    + split; [exists a; split; [done|]|unfold imm_at; cbn; by rewrite ?Eb]. exists (MemTable_Ref m). cbn. by rewrite lookup_insert_eq.
    + intros d' Hd'. unfold mem_unref. rewrite Hd', lookup_insert_eq. cbn [mbind option_bind]. rewrite MemTable_Unref_Ref by apply Hm.
      eexists. split; [done|]. do 2 f_equal. rewrite insert_insert_eq. by apply insert_id.
Qed.

Lemma MaybeScheduleCompaction_ok (d : DB) levels :
  versions_rep (db_versions d) levels -> exists b, MaybeScheduleCompaction d = Some (db_with_background d b (db_bg_error d)).
Proof.
  intros (xs & ext & extra & c & v & _ & Hc & _ & Hv & _). unfold MaybeScheduleCompaction, NeedsCompaction, current_version.
  rewrite Hc. cbn [mbind option_bind]. rewrite Hv. cbn [mbind option_bind].
  assert (Some d = Some (db_with_background d (db_scheduled d) (db_bg_error d))) as Hd by (by destruct d). rewrite Hd.
  repeat case_match; by eexists.
Qed.

(** ** Lookups *)
Lemma get_in_memory_ok d es ies u s value :
  mems_rep d es ies -> on_top (mem_entries es) (mem_entries ies) ->
  uvalid u -> Forall is_byte u -> zlen u + 8 < 2 ^ 32 -> valid_seq s ->
  exists lk oe, LookupKey_make u s = Some lk /\ get_in_memory d lk value = Some (answer value ∘ Some <$> oe)
    /\ sees (either (mem_entries es) (mem_entries ies)) u s oe.
Proof.
  intros [(a & Ha & m & Em & Hm & _ & Hd) Hi] Ht Hu Hb Hl Hs.
  destruct (MemTable_Get_ok m es u s Hm Hu Hb Hl Hs) as (lk & r & Ek & Eg & Hg). exists lk.
  pose proof (mem_entries_valid es (proj1 Hm)) as Va. pose proof (mem_entries_valid ies (imm_holds_entries d ies Hi)) as Vb.
  destruct (get_spec_sees es u s r value (proj1 Hm) Hd Hu Hs Hg) as (oa & Hoa & Hf & Hans).
  unfold get_in_memory. rewrite Ha. cbn [mbind option_bind]. rewrite Em. cbn [mbind option_bind]. rewrite Eg. cbn [mbind option_bind].
  assert (forall ob, (oa = None -> sees (mem_entries ies) u s ob) ->
    sees (either (mem_entries es) (mem_entries ies)) u s (match oa with Some p => Some p | None => ob end)) as Hlayer.
  { intros ob Hob. by apply (sees_layer (uvalid := uvalid)). }
  destruct oa as [p|].
  - rewrite bool_decide_eq_true_2 in Hf by done. rewrite Hf. cbn [mbind option_bind]. rewrite ?Hf. exists (Some p). split_and!; [done| |by apply (Hlayer None)].
    by rewrite (Hans Hf).
  - rewrite bool_decide_eq_false_2 in Hf by (by intros []). rewrite Hf. unfold imm_at in Hi. destruct (db_imm d) as [b|].
    + destruct Hi as (_ & mi & Ei & Hmi & _ & Hdi). rewrite Ei. cbn [mbind option_bind].
      destruct (MemTable_Get_ok mi ies u s Hmi Hu Hb Hl Hs) as (lk' & r' & Ek' & Eg' & Hg'). assert (lk' = lk) as -> by congruence.
      destruct (get_spec_sees ies u s r' value (proj1 Hmi) Hdi Hu Hs Hg') as (ob & Hob & Hf' & Hans'). rewrite Eg'. cbn [mbind option_bind].
      exists ob. split_and!; [done| |by apply (Hlayer ob)]. destruct ob as [q|].
      2: { by rewrite bool_decide_eq_false_2 in Hf' by (by intros []); rewrite Hf'. }
      rewrite bool_decide_eq_true_2 in Hf' by done. rewrite Hf'. by rewrite (Hans' Hf').
    + subst ies. cbn [mbind option_bind]. rewrite ?Hf. exists None. split_and!; [done|done|]. apply (Hlayer None). intros _ q (e & He & _). by apply not_elem_of_nil in He.
Qed.

Lemma Version_Get_ok levels t options u s lk value :
  version_ok 0 levels -> good t -> uvalid u -> zlen u + 8 < 2 ^ 32 -> LookupKey_make u s = Some lk ->
  exists stats t' oe, Version_Get levels t options lk value = Some (answer value oe, stats, t') /\ good t' /\ t'.1 = t.1
    /\ sees (version_entries entries levels) u s oe /\ forall f, seek_file stats = Some f -> f ∈ concat levels.
Proof.
  intros Hv Hg Hu Hl Ek. destruct (LookupKey_make_ok u s Hl) as (k & Ek' & Ei & Eu & _). assert (k = lk) as -> by congruence.
  assert (LookupKey_internal_key lk = InternalKey_make u s kValueTypeForSeek) as Eik.
  { rewrite Ei. unfold InternalKey_make. by rewrite AppendInternalKey_app. }
  set (st := {| gs_stats := GetStats_none; last_file_read := None; gs_cache := t |}).
  destruct (get_in_levels_ok (TG := TableCache_getter) entries options (LookupKey_internal_key lk) 0 levels value st)
    as (oe & r & v & st' & Eg & Ea & Hg' & Hn); [rewrite Eik; by apply seek_key_valid|done|done|].
  exists (gs_stats st'), (gs_cache st'), oe. rewrite Eik, seek_key_user in *. split_and!; [|done| |done|].
  2: { apply (get_in_levels_keep fst) in Eg; [done|]. intros tc o n z k0 s0 r0 tc' H. cbn in H. apply bind_Some in H as ([[? ?] ?] & _ & H). by injection H as <- <- <-. }
  - unfold Version_Get. rewrite Eik, Eu. fold st. rewrite Eg. cbn [mbind option_bind]. by rewrite Ea.
  - apply (get_in_levels_seeks (fun f => f ∈ concat levels)) in Eg; [by apply Eg| |by split].
    apply Forall_forall. intros files Hf. apply Forall_forall. intros f Hin. apply list_elem_of_split in Hf as (l1 & l2 & ->).
    rewrite concat_app. cbn. set_solver.
Qed.
(** The database in the middle of a lookup: a reference more to the version [c]. *)
Definition in_lookup (d d' : DB) (c : Z) (levels : list (list FileRef)) (last : Z) : Prop :=
  db_memtables d' = db_memtables d /\ db_mem d' = db_mem d /\ db_imm d' = db_imm d /\ db_has_imm d' = db_has_imm d
  /\ good (db_e d', db_tables d') /\ vs_last_sequence (db_versions d') = last
  /\ exists xs ext extra v, vs_ok (db_versions d') xs ext extra /\ vs_current (db_versions d') = Some c /\ c ∈ xs
       /\ vs_versions (db_versions d') !! c = Some v /\ files_ v = levels /\ 1 < ext c.

(** What the files answer. *)
Lemma get_in_version_ok d c levels last options u s lk value :
  in_lookup d d c levels last -> version_ok 0 levels -> uvalid u -> zlen u + 8 < 2 ^ 32 -> LookupKey_make u s = Some lk ->
  exists oe d', (v ← vs_versions (db_versions d) !! c;
                 '(s, value, stats, t) ← Version_Get (files_ v) (db_e d, db_tables d) options lk value;
                 '(more, vs) ← UpdateStats (db_versions d) c stats;
                 d1 ← (if more : bool then MaybeScheduleCompaction (db_with_files d (db_e d) t.2 vs)
                       else Some (db_with_files d (db_e d) t.2 vs));
                 Some (s, value, d1)) = Some (answer value oe, d')
    /\ sees (version_entries entries levels) u s oe /\ in_lookup d d' c levels last.
Proof.
  intros (_ & _ & _ & _ & Hg & Hlast & xs & ext & extra & v & Hok & Hc & Hin & Hv & Hf & He) Hlev Hu Hl Ek.
  destruct (Version_Get_ok levels _ options u s lk value Hlev Hg Hu Hl Ek) as (stats & t & oe & Eg & Hg' & Et & Hoe & Hst).
  rewrite Hv. cbn [mbind option_bind]. rewrite Hf, Eg. cbn [mbind option_bind].
  destruct (answer value oe) as [r w] eqn:Ea.
  destruct (UpdateStats_ok _ xs ext extra c v stats Hok Hin Hv) as (more & s' & v' & -> & Hok' & Hv' & Hf' & Hc' & Hl'); [by rewrite Hf|].
  cbn [mbind option_bind]. set (d1 := db_with_files d (db_e d) t.2 s'). exists oe.
  assert (exists b, (if more then MaybeScheduleCompaction d1 else Some d1) = Some (db_with_background d1 b (db_bg_error d1))) as [b ->].
  { destruct more; [apply (MaybeScheduleCompaction_ok d1 levels); exists xs, ext, extra, c, v'; cbn; split_and!; congruence|].
    exists (db_scheduled d1). done. }
  cbn [mbind option_bind]. eexists. split; [by rewrite Ea|]. split; [done|]. split_and!; [done..| |cbn; congruence|].
  - cbn. destruct t as [e t]. cbn in Et. by subst e.
  - exists xs, ext, extra, v'. cbn. split_and!; [done|congruence|done|done|congruence|done].
Qed.

Lemma DB_Get_ok d es ies levels last options snapshot u value :
  db_rep d es ies levels last -> uvalid u -> Forall is_byte u -> zlen u + 8 < 2 ^ 32 -> valid_seq (default last snapshot) ->
  exists oe d', DB_Get (Sq := Sq) (R := R) d options snapshot u value = Some (answer value oe, d')
    /\ sees (db_entries es ies levels) u (default last snapshot) oe /\ db_rep d' es ies levels last.
Proof.
  intros Hd Hu Hb Hl Hs. pose proof Hd as [Hm Hver Hlev Hgood Ht Htv [Hlast Hr] Hseq].
  pose proof Hm as [(a & Ha & Hat) Hi]. pose proof Hver as (xs & ext & extra & c & v & Hok & Hc & Hin & Hv & Hf).
  destruct (mem_refs_ok d a es ies Ha Hat Hi) as (d1 & M & E1 & E2 & Hm1 & Hback).
  destruct (Version_Ref_ok _ xs ext extra c Hok Hin) as (v' & Ev & Er & Hok1). assert (v' = v) as -> by congruence. clear Ev.
  pose proof (ok_refs _ _ _ _ Hok c v Hin Hv) as [_ Hext].
  unfold DB_Get. rewrite Hlast, Ha, Hc. cbn [mbind option_bind]. rewrite E1. cbn [mbind option_bind]. rewrite E2. cbn [mbind option_bind].
  change (db_versions (db_with_mems d M (db_mem d) (db_imm d) (db_has_imm d))) with (db_versions d). rewrite Er. cbn [mbind option_bind].
  set (s1 := put_version (db_versions d) c _) in *. set (d2 := db_with_files _ _ _ s1).
  destruct (get_in_memory_ok d2 es ies u (default last snapshot) value) as (lk & oa & Ek & Eg & Hoa); [done..|].
  assert (in_lookup d2 d2 c levels last) as H2.
  { split_and!; [done..|]. exists xs, (bump_ref ext c 1), extra, (with_version_refs v (refs_ v + 1)). cbn. rewrite lookup_insert_eq, bump_ref_same.
    split_and!; [done..|lia]. }
  rewrite Ek. cbn [mbind option_bind]. rewrite Eg. cbn [mbind option_bind].
  assert (exists oe d3, (match answer value ∘ Some <$> oa with
                    | Some (s, value) => Some (s, value, d2)
                    | None =>
                        v ← vs_versions (db_versions d2) !! c;
                        '(s, value, stats, t) ← Version_Get (files_ v) (db_e d2, db_tables d2) options lk value;
                        '(more, vs) ← UpdateStats (db_versions d2) c stats;
                        d ← (if more : bool then MaybeScheduleCompaction (db_with_files d2 (db_e d2) t.2 vs)
                             else Some (db_with_files d2 (db_e d2) t.2 vs));
                        Some (s, value, d)
                    end) = Some (answer value oe, d3)
      /\ sees (db_entries es ies levels) u (default last snapshot) oe /\ in_lookup d2 d3 c levels last) as (oe & d3 & -> & Hoe & H3).
  { assert (all_valid (uvalid := uvalid) (either (mem_entries es) (mem_entries ies))) as V1.
    { intros p Hp. apply (db_entries_valid d es ies levels last Hd). by left. }
    pose proof (version_entries_valid levels Hlev) as V2. destruct oa as [p|]; cbn [fmap option_fmap option_map compose].
    - exists (Some p), d2. destruct (answer value (Some p)) as [r w]. split_and!; [done| |done].
      by apply (sees_layer (uvalid := uvalid) _ _ _ _ (Some p) None).
    - destruct (get_in_version_ok d2 c levels last options u (default last snapshot) lk value H2 Hlev Hu Hl Ek) as (oe & d3 & -> & Hoe & H3).
      exists oe, d3. split_and!; [done| |done]. by apply (sees_layer (uvalid := uvalid) _ _ _ _ None oe). }
  destruct (answer value oe) as [r w] eqn:Ea. cbn [mbind option_bind].
  destruct H3 as (M3 & Ha3 & Hi3 & Hh3 & Hg3 & Hl3 & xs3 & ext3 & extra3 & v3 & Hok3 & Hc3 & Hin3 & Hv3 & Hf3 & He3).
  destruct (Hback d3 M3) as (d4 & E4 & E5). rewrite E4. cbn [mbind option_bind].
  rewrite E5. cbn [mbind option_bind db_versions db_with_mems].
  destruct (Version_Unref_ok _ xs3 ext3 extra3 c Hok3 Hin3) as (l & m & fs & xs4 & E6 & Hok4 & _ & _ & _ & Hmore).
  destruct (Hmore He3) as (-> & _ & v4 & Hv4 & Hm4). rewrite E6. cbn [mbind option_bind].
  exists oe. eexists. split; [by rewrite Ea|]. split; [done|]. split; [| |done|exact Hg3|done|done|done|done].
  - unfold mems_rep, imm_at, mem_at. cbn. rewrite Ha3, Hi3. cbn. exact Hm.
  - exists xs3, (bump_ref ext3 c (-1)), extra3, c, (with_version_refs v4 (refs_ v4 - 1)). cbn. split_and!; [done..|].
    assert (v4 = v3) as -> by congruence. exact Hf3.
Qed.
(** ** Groups of writers *)

(** The updates of a writer; one without a batch only waits. *)
Definition writer_has (w : Writer_) (us : list Update) : Prop :=
  match w_batch w with Some b => exists seq, b = batch_bytes seq us | None => us = [] end.

(** The batch that is built so far has the updates [acc]. *)
Definition group_has (first : list Update) (temp : option WriteBatch) (acc : list Update) : Prop :=
  match temp with None => acc = first | Some t => t = batch_bytes 0 acc end.

Lemma group_loop_ok first s0 sync ws uss size max temp acc n :
  Forall2 writer_has ws uss -> zlen acc + zlen (concat uss) < 2 ^ 31 -> group_has first temp acc ->
  exists k temp', group_loop (batch_bytes s0 first) sync ws size max temp WriteBatch_Clear n = Some (temp', (n + k)%nat)
    /\ (k <= length ws)%nat /\ Forall (fun w => w_sync w = true -> sync = true) (take k ws)
    /\ group_has first temp' (acc ++ concat (take k uss)).
Proof.
  intros H. revert size temp acc n. induction H as [|w us ws uss Hw H IH]; intros size temp acc n Hn Hg.
  { exists 0%nat, temp. rewrite Nat.add_0_r, app_nil_r. split_and!; [done|done|constructor|done]. }
  cbn [concat] in Hn. rewrite length_app in Hn.
  assert (exists k temp', Some (temp, n) = Some (temp', (n + k)%nat) /\ (k <= length (w :: ws))%nat
    /\ Forall (fun w => w_sync w = true -> sync = true) (take k (w :: ws)) /\ group_has first temp' (acc ++ concat (take k (us :: uss)))) as Hstop.
  { exists 0%nat, temp. rewrite Nat.add_0_r. cbn [take concat]. rewrite app_nil_r. split_and!; [done|lia|constructor|done]. }
  cbn [group_loop]. destruct (w_sync w && negb sync) eqn:Es; [exact Hstop|].
  assert (w_sync w = true -> sync = true) as Hsync by (intros Hw1; rewrite Hw1 in Es; by destruct sync).
  unfold writer_has in Hw. destruct (w_batch w) as [b|].
  - destruct Hw as [s1 ->]. cbv zeta. destruct (_ >? _); [exact Hstop|].
    assert ((match temp with
                        | Some t => Some t
                        | None => count ← WriteBatchInternal_Count WriteBatch_Clear;
                            if count =? 0 then WriteBatchInternal_Append WriteBatch_Clear (batch_bytes s0 first) else None
                        end) = Some (batch_bytes 0 acc)) as ->.
    { destruct temp as [t|]; [by rewrite Hg|]. change WriteBatch_Clear with (batch_bytes 0 []). rewrite count_batch by done.
      cbn [mbind option_bind]. change (zlen [] =? 0) with true. cbn iota. cbn in Hg. subst acc. apply (Append_batch 0 []). cbn. lia. }
    cbn [mbind option_bind]. change (WriteBatchInternal_Append (batch_bytes 0 acc)) with (WriteBatch_Append (batch_bytes 0 acc)).
    rewrite Append_batch by lia. cbn [mbind option_bind].
    match goal with |- context [group_loop _ _ ws ?z _ ?t _ _] => destruct (IH z t (acc ++ us) (S n)) as (k & temp' & -> & Hk & Hf & Hg'); [rewrite length_app; lia|done|] end.
    exists (S k), temp'. cbn [take concat length]. rewrite app_assoc. split_and!; [do 2 f_equal; lia|lia|by constructor|done].
  - subst us. destruct (IH size temp acc (S n)) as (k & temp' & -> & Hk & Hf & Hg'); [cbn in Hn; lia|done|].
    exists (S k), temp'. cbn [take concat length]. split_and!; [do 2 f_equal; lia|lia|by constructor|done].
Qed.
(** ** Writes *)

(** The numbers of the set do not matter to its versions. *)
Lemma SetLastSequence_ok s levels n :
  versions_rep s levels -> vs_last_sequence s <= n ->
  exists s', vs_SetLastSequence s n = Some s' /\ versions_rep s' levels /\ vs_last_sequence s' = n.
Proof.
  intros (xs & ext & extra & c & v & [H1 H2 H3 H4] & Hc & Hin & Hv & Hf) Hn. unfold vs_SetLastSequence.
  destruct (Z.geb_spec n (vs_last_sequence s)); [|lia]. eexists. split; [done|]. split; [|done].
  exists xs, ext, extra, c, v. split_and!; [by split|done..].
Qed.

(** The entries of a group on top of the old ones. *)
Lemma db_rep_write d d' es ies levels last us :
  db_rep d es ies levels last -> Forall update_ok us -> last + zlen us < kMaxSequenceNumber ->
  mems_rep d' (batch_entries (last + 1) us ++ es) ies -> versions_rep (db_versions d') levels -> good (db_e d', db_tables d') ->
  vs_last_sequence (db_versions d') = last + zlen us -> db_rep d' (batch_entries (last + 1) us ++ es) ies levels (last + zlen us).
Proof.
  intros [Hm Hver Hlev Hgood Ht Htv [Hlast Hr] Hseq] Hus Hmax Hm' Hver' Hg' Hl'.
  assert (forall ents, (forall p, ents p -> db_entries es ies levels p) ->
    on_top (mem_entries (batch_entries (last + 1) us)) ents) as Hbatch.
  { intros ents Hsub. apply (batch_on_top (uvalid := uvalid)); [done|lia|lia|]. intros p Hp. specialize (Hseq p (Hsub p Hp)). lia. }
  assert (forall p, mem_entries (batch_entries (last + 1) us ++ es) p <-> mem_entries (batch_entries (last + 1) us) p \/ mem_entries es p) as Happ.
  { intros p. split; [intros (e & [He|He]%elem_of_app & ->); [left|right]; by exists e|].
    intros [(e & He & ->)|(e & He & ->)]; exists e; (split; [|done]); apply elem_of_app; [by left|by right]. }
  split; [done|done|done|done| | |split; [done|lia]|].
  - intros p q [Hp|Hp]%Happ Hq Hs; [|by apply Ht]. apply (Hbatch (mem_entries ies)); [|done..]. intros x Hx. left. by right.
  - intros p q [[Hp|Hp]%Happ|Hp] Hq Hs; [|apply Htv; [by left|done|done]|apply Htv; [by right|done|done]].
    apply (Hbatch (version_entries entries levels)); [|done..]. intros x Hx. by right.
  - intros p [[[Hp|Hp]%Happ|Hp]|Hp].
    + destruct Hp as (e & He & ->). pose proof (proj1 (Forall_forall _ _) (batch_entries_ok (last + 1) us Hus ltac:(lia) ltac:(lia)) e He) as Oe.
      rewrite pair_of_seq by apply Oe. apply elem_of_batch_entries in He as (i & x & Hi & ->). rewrite update_entry_seq.
      apply lookup_lt_Some in Hi. lia.
    + transitivity last; [apply Hseq; left; by left|lia].
    + transitivity last; [apply Hseq; left; by right|lia].
    + transitivity last; [apply Hseq; by right|lia].
Qed.

(** Numbers that go to no update. *)
Lemma db_rep_skip d d' es ies levels last n :
  db_rep d es ies levels last -> last <= n < kMaxSequenceNumber ->
  mems_rep d' es ies -> versions_rep (db_versions d') levels -> good (db_e d', db_tables d') ->
  vs_last_sequence (db_versions d') = n -> db_rep d' es ies levels n.
Proof.
  intros [Hm Hver Hlev Hgood Ht Htv [Hlast Hr] Hseq] Hn Hm' Hver' Hg' Hl'. split; [done|done|done|done|done|done|split; [done|lia]|].
  intros p Hp. transitivity last; [by apply Hseq|lia].
Qed.
Section Writes.
Context {names : E -> gmap bytes bytes} {opened : E -> gmap Z OpenFile} {unread : Sq -> bytes} {reliable : Sq -> bool} {readable : E -> Prop}.
Context {EL : EnvLaw names opened unread reliable readable}.
Context (good_log : forall e e' t dbname n, good (e, t) ->
  (forall f, f <> LogFileName dbname n -> names e' !! f = names e !! f) -> good (e', t)).

#[local] Abbreviation log_at := (log_at (names := names) (opened := opened)).

(** The log file has the records [rs]. *)
Definition log_rep (d : DB) (rs : list bytes) : Prop :=
  exists log, db_log d = Some log /\ db_logfile d = Some (dest_ log)
    /\ log_at (db_e d) log (LogFileName (db_name d) (db_logfile_number d)) (log_bytes 0 rs).

Lemma batch_bytes_bytes seq us : Forall update_ok us -> Forall is_byte (batch_bytes seq us).
Proof.
  intros H. unfold batch_bytes. repeat (apply Forall_app; split); [apply EncodeFixed64_bytes|apply EncodeFixed32_bytes|].
  apply updates_bytes_bytes. eapply Forall_impl; [exact H|]. by intros u [].
Qed.

(** A record in the log, and perhaps a sync. *)
Lemma add_record_ok e log n rs record (sync : bool) :
  log_at e log n (log_bytes 0 rs) -> Forall is_byte record ->
  exists st e1 log1 st2 err e2, log_AddRecord e log record = Some (st, e1, log1) /\ dest_ log1 = dest_ log
    /\ (if Status_ok st && sync then let '(st, e) := File_Sync e1 (dest_ log) in (st, negb (Status_ok st), e) else (st, false, e1))
       = (st2, err, e2)
    /\ (forall f, f <> n -> names e2 !! f = names e !! f)
    /\ (Status_ok st2 = true -> log_at e2 log1 n (log_bytes 0 (rs ++ [record]))).
Proof.
  intros Hlog Hb. destruct (log_AddRecord_ok e log n _ _ Hlog Hb) as (st & e1 & log1 & -> & Edest & d & x & Ho & Hn & Hst).
  assert (forall f, f <> n -> names e1 !! f = names e !! f) as Hn1 by (intros f Hf; by rewrite Hn, lookup_insert_ne).
  assert (Status_ok st = true -> log_at e1 log1 n (log_bytes 0 (rs ++ [record]))) as Hok.
  { intros Hs. rewrite Hs in Hst. destruct Hst as (-> & -> & Hw). rewrite log_bytes_app. cbn [log_bytes]. rewrite app_nil_r, Z.add_0_l.
    split; [|done]. rewrite Edest. split; [rewrite Ho|rewrite Hn]; apply lookup_insert_eq. }
  exists st, e1, log1. destruct (Status_ok st && sync) eqn:Es.
  - apply andb_prop in Es as [Hs _]. rewrite <- Edest. destruct (File_Sync e1 (dest_ log1)) as [st2 e2] eqn:E2.
    destruct (File_Sync_ok e1 log1 n _ st2 e2 (Hok Hs) E2) as (F1 & _ & _ & F4). exists st2, (negb (Status_ok st2)), e2.
    split_and!; [done|done|done| |done]. intros f Hf. by rewrite F1, Hn1.
  - by exists st, false, e1.
Qed.

(** What [log_and_insert] leaves as it was. *)
Definition same_but_log (d d' : DB) : Prop :=
  db_tables d' = db_tables d /\ db_versions d' = db_versions d /\ db_name d' = db_name d /\ db_tmp_batch d' = db_tmp_batch d
  /\ db_seed d' = db_seed d.

Lemma log_and_insert_ok d es ies levels last rs us sync :
  db_rep d es ies levels last -> log_rep d rs -> Forall update_ok us -> zlen us < 2 ^ 31 -> last + zlen us < kMaxSequenceNumber ->
  exists st err d', log_and_insert d (batch_bytes (last + 1) us) sync = Some (st, err, d') /\ same_but_log d d' /\ good (db_e d', db_tables d')
    /\ if Status_ok st then err = false /\ mems_rep d' (batch_entries (last + 1) us ++ es) ies /\ log_rep d' (rs ++ [batch_bytes (last + 1) us])
       else mems_rep d' es ies.
Proof.
  intros [Hm Hver Hlev Hgood Ht Htv [Hlast Hr] Hseq] (log & El & Ef & Hlog) Hus Hc Hmax.
  pose proof Hm as [(a & Ha & m & Em & Hmr & Hp & Hd) Hi]. unfold log_and_insert. rewrite El, Ef, Ha. cbn [mbind option_bind].
  rewrite Em. cbn [mbind option_bind].
  destruct (add_record_ok _ log _ rs (batch_bytes (last + 1) us) sync Hlog (batch_bytes_bytes _ _ Hus)) as (st & e1 & log1 & st2 & err & e2 & E1 & Ed & E2 & Hn & Hok).
  unfold WriteBatchInternal_Contents. rewrite E1. cbn [mbind option_bind]. rewrite E2.
  assert (good (e2, db_tables d)) as Hg2 by (by apply (good_log (db_e d) e2 _ (db_name d) (db_logfile_number d))).
  assert (forall e, e ∈ es -> e_seq e < last + 1) as Hlt.
  { intros e He. rewrite <- pair_of_seq by (by apply (proj1 (Forall_forall _ _) (proj1 Hmr) e He)).
    assert (ikey_seq (pair_of e).1 <= last) by (apply Hseq; left; left; by exists e). lia. }
  destruct (Status_ok st2) eqn:Es2.
  - specialize (Hok eq_refl). assert (err = false) as ->.
    { destruct (Status_ok st && sync); [destruct (File_Sync e1 (dest_ log)) as [x y]; injection E2 as -> <- <-; by rewrite Es2|by injection E2]. }
    destruct (InsertInto_ok (last + 1) us m es Hmr Hus Hc) as (m' & -> & Hmr' & Hrefs); [lia|lia|done|]. cbn [mbind option_bind].
    eexists _, false, _. split; [done|]. split; [by split_and!|]. split; [done|]. cbn [Status_ok Status_OK]. split; [done|]. split.
    + split.
      * exists a. split; [done|]. exists m'. cbn. rewrite lookup_insert_eq. split; [done|]. split_and!; [done|by rewrite Hrefs|].
        by apply batch_entries_distinct.
      * unfold imm_at in *. cbn. destruct (db_imm d) as [b|]; [|done]. destruct Hi as (Hne & mi & Emi & Hmi). split; [done|].
        exists mi. cbn. rewrite lookup_insert_ne by congruence. done.
    + exists log1. cbn. split_and!; [done|by rewrite Ed|done].
  - eexists _, err, _. split; [done|]. split; [by split_and!|]. split; [done|]. rewrite Es2. exact Hm.
Qed.
(** The updates of the first writer and of [k] more. *)
Definition group_updates (us : list Update) (uss : list (list Update)) (k : nat) : list Update := us ++ concat (take k uss).

(** What a write leaves: with an error, the contents and the numbers used. *)
Definition written (d : DB) (st : Status) (es ies : list Entry) (levels : list (list FileRef)) (last : Z) (rs : list bytes) (us : list Update) : Prop :=
  db_tmp_batch d = WriteBatch_Clear
  /\ if Status_ok st
     then db_rep d (batch_entries (last + 1) us ++ es) ies levels (last + zlen us) /\ log_rep d (rs ++ [batch_bytes (last + 1) us])
     else db_rep d es ies levels (last + zlen us).

Lemma group_updates_sub us uss k (P : Update -> Prop) :
  Forall P (us ++ concat uss) -> Forall P (group_updates us uss k) /\ zlen (group_updates us uss k) <= zlen (us ++ concat uss).
Proof.
  assert (us ++ concat uss = group_updates us uss k ++ concat (drop k uss)) as ->.
  { unfold group_updates. by rewrite <- app_assoc, <- concat_app, take_drop. }
  intros [H _]%Forall_app. split; [done|]. rewrite length_app. lia.
Qed.

Lemma write_group_ok d es ies levels last rs s0 us sync ws uss :
  db_rep d es ies levels last -> log_rep d rs -> db_tmp_batch d = WriteBatch_Clear -> Forall2 writer_has ws uss ->
  Forall update_ok (us ++ concat uss) -> zlen (us ++ concat uss) < 2 ^ 31 -> last + zlen (us ++ concat uss) < kMaxSequenceNumber ->
  exists st k ob d', write_group d {| w_batch := Some (batch_bytes s0 us); w_sync := sync |} ws Status_OK = Some (st, k, ob, d')
    /\ (k <= length ws)%nat /\ Forall (fun w => w_sync w = true -> sync = true) (take k ws)
    /\ written d' st es ies levels last rs (group_updates us uss k).
Proof.
  intros Hd Hlog Ht Hw Hus Hc Hmax. pose proof Hd as [_ Hver _ _ _ _ [Hlast Hr] _].
  destruct (group_loop_ok us s0 sync ws uss (WriteBatchInternal_ByteSize (batch_bytes s0 us)) (max_group_size (WriteBatchInternal_ByteSize (batch_bytes s0 us)))
              None us 0%nat Hw) as (k & temp & Eg & Hk & Hsync & Hg); [rewrite length_app in Hc; lia|done|].
  destruct (group_updates_sub us uss k _ Hus) as [Hus' Hlen]. fold (group_updates us uss k) in Hg. set (us' := group_updates us uss k) in *.
  unfold write_group, start_group, finish_group, BuildBatchGroup. cbn [w_batch w_sync Status_ok Status_OK negb]. rewrite Ht, Eg. cbn [mbind option_bind Nat.add]. rewrite Hlast.
  assert (u64 (last + 1) = last + 1) as -> by (apply u64_small; unfold in_uint; change kMaxSequenceNumber with (2 ^ 56 - 1) in *; lia).
  match goal with |- context [WriteBatchInternal_SetSequence ?t ?n] =>
    assert (WriteBatchInternal_SetSequence t n = Some (batch_bytes (last + 1) us')) as -> end.
  { destruct temp as [t|]; cbn in Hg; [subst t|rewrite Hg]; apply SetSequence_batch. }
  cbn [mbind option_bind]. rewrite count_batch by (unfold countable; lia). cbn [mbind option_bind g_updates g_temp g_more g_last].
  set (b := bool_decide (is_Some temp)). set (d0 := if b then db_with_batch d (db_seed d) (batch_bytes (last + 1) us') else d).
  assert (db_rep d0 es ies levels last) as Hd0.
  { unfold d0. destruct b; [|done]. apply (db_rep_skip d _ es ies levels last last Hd); [lia|apply Hd..|apply Hd]. }
  assert (log_rep d0 rs) as Hlog0 by (unfold d0; by destruct b).
  destruct (log_and_insert_ok d0 es ies levels last rs us' sync Hd0 Hlog0 Hus') as (st & err & d1 & -> & (S1 & S2 & S3 & S4 & S5) & Hg1 & Hst); [lia|lia|].
  cbn [mbind option_bind].
  assert (db_versions d1 = db_versions d) as Ev by (rewrite S2; unfold d0; by destruct b).
  assert (u64 (last + zlen us') = last + zlen us') as -> by (apply u64_small; unfold in_uint; change kMaxSequenceNumber with (2 ^ 56 - 1) in *; lia).
  destruct (SetLastSequence_ok (db_versions d) levels (last + zlen us') Hver) as (s' & Es' & Hver' & Hl'); [lia|].
  set (d2 := if err then RecordBackgroundError d1 st else d1). set (d3 := if b then db_with_batch d2 (db_seed d2) WriteBatch_Clear else d2).
  assert (db_versions d2 = db_versions d /\ db_tmp_batch d2 = db_tmp_batch d1 /\ db_e d2 = db_e d1 /\ db_tables d2 = db_tables d1
    /\ (forall x y, mems_rep d2 x y <-> mems_rep d1 x y) /\ (forall x, log_rep d2 x <-> log_rep d1 x)) as (T1 & T2 & T3 & T4 & T5 & T6).
  { unfold d2. destruct err; [unfold RecordBackgroundError; destruct (Status_ok (db_bg_error d1))|]; by split_and!. }
  assert (db_versions d3 = db_versions d /\ db_tmp_batch d3 = WriteBatch_Clear /\ db_e d3 = db_e d1 /\ db_tables d3 = db_tables d1
    /\ (forall x y, mems_rep d3 x y <-> mems_rep d1 x y) /\ (forall x, log_rep d3 x <-> log_rep d1 x)) as (V1 & V2 & V3 & V4 & V5 & V6).
  { unfold d3. destruct b eqn:Eb; [by split_and!|]. split_and!; [done| |done..]. by rewrite T2, S4. }
  rewrite V1, Es'. cbn [mbind option_bind].
  set (d4 := db_with_files d3 (db_e d3) (db_tables d3) s').
  assert (good (db_e d4, db_tables d4)) as Hg4 by (cbn; by rewrite V3, V4).
  eexists st, k, _, d4. split; [done|]. split; [lia|]. split; [done|]. fold us'. split; [done|]. destruct (Status_ok st).
  - destruct Hst as (_ & Hm1 & Hl1). split; [|by apply V6 in Hl1].
    apply (db_rep_write d d4); [done|done|lia|by apply V5|done|done|done].
  - apply (db_rep_skip d d4 es ies levels last (last + zlen us')); [done|lia|by apply V5|done|done|done].
Qed.

(** ** Room *)

(** There is no need to wait, nor to make a new table in memory. *)
Definition has_room (d : DB) : Prop :=
  Status_ok (db_bg_error d) = true
  /\ (exists n, NumLevelFiles (db_versions d) 0 = Some n /\ n < kL0_SlowdownWritesTrigger)
  /\ exists a m, db_mem d = Some a /\ db_memtables d !! a = Some m /\ MemTable_ApproximateMemoryUsage m <= write_buffer_size (db_options d).

Lemma MakeRoomForWrite_ok d : has_room d -> fuel <> 0%nat -> MakeRoomForWrite fuel d false = Some (Status_OK, d).
Proof.
  intros (Hb & (n & En & Hn) & a & m & Ha & Em & Hu) Hf. unfold MakeRoomForWrite. destruct fuel as [|f]; [done|]. cbn [room_loop negb].
  unfold room_round. rewrite En, Ha. cbn [mbind option_bind]. rewrite Em. cbn [mbind option_bind]. rewrite Hb.
  destruct (Z.geb_spec n kL0_SlowdownWritesTrigger); [lia|]. cbn [negb andb]. by rewrite (proj2 (Z.leb_le _ _) Hu).
Qed.

Lemma DB_Write_ok d es ies levels last rs s0 us sync ws uss :
  has_room d -> fuel <> 0%nat ->
  db_rep d es ies levels last -> log_rep d rs -> db_tmp_batch d = WriteBatch_Clear -> Forall2 writer_has ws uss ->
  Forall update_ok (us ++ concat uss) -> zlen (us ++ concat uss) < 2 ^ 31 -> last + zlen (us ++ concat uss) < kMaxSequenceNumber ->
  exists st k ob d', DB_Write fuel d {| w_batch := Some (batch_bytes s0 us); w_sync := sync |} ws = Some (st, k, ob, d')
    /\ (k <= length ws)%nat /\ Forall (fun w => w_sync w = true -> sync = true) (take k ws)
    /\ written d' st es ies levels last rs (group_updates us uss k).
Proof.
  intros Hr Hf. unfold DB_Write. cbn [w_batch]. rewrite bool_decide_eq_false_2 by done. rewrite (MakeRoomForWrite_ok d Hr Hf). cbn [mbind option_bind].
  apply write_group_ok.
Qed.
(** What is seen after a write, at the last number and at earlier ones. *)
Lemma written_sees d d' st es ies levels last rs us u value oe :
  db_rep d es ies levels last -> written d' st es ies levels last rs us -> Forall update_ok us -> last + zlen us < kMaxSequenceNumber ->
  uvalid u -> sees (db_entries es ies levels) u last oe ->
  exists es' oe', db_rep d' es' ies levels (last + zlen us) /\ sees (db_entries es' ies levels) u (last + zlen us) oe'
    /\ answer value oe' = (if Status_ok st then match last_update us u with Some x => update_value value x | None => answer value oe end
                           else answer value oe)
    /\ forall s oo, 0 <= s <= last -> sees (db_entries es ies levels) u s oo -> sees (db_entries es' ies levels) u s oo.
Proof.
  intros Hd [_ Hw] Hus Hmax Hu Ho. pose proof Hd as [_ _ _ _ _ _ [_ Hr] Hseq]. pose proof (db_entries_valid d es ies levels last Hd) as Hval.
  destruct (Status_ok st).
  - destruct Hw as [Hw _]. destruct (sees_write (db_entries es ies levels) last us u oe value Hus) as (oe' & Ho' & Hans); [lia|lia|done|done|done|done|].
    exists (batch_entries (last + 1) us ++ es), oe'. split; [done|].
    assert (forall p, either (mem_entries (batch_entries (last + 1) us)) (db_entries es ies levels) p <-> db_entries (batch_entries (last + 1) us ++ es) ies levels p) as Hiff.
    { intros p. split.
      - intros [(e & He & ->)|[[(e & He & ->)|Hp]|Hp]]; [left; left; exists e; set_solver|left; left; exists e; set_solver|left; by right|by right].
      - intros [[(e & [He|He]%elem_of_app & ->)|Hp]|Hp]; [left; by exists e|right; left; left; by exists e|right; left; by right|right; by right]. }
    split; [|split; [done|]].
    + eapply sees_ext; [|exact Ho']. intros p _. apply Hiff.
    + intros s oo Hs. apply sees_ext. intros p Hv. rewrite <- Hiff. split; [by right|]. intros [(e & He & ->)|Hp]; [|done].
      pose proof (proj1 (Forall_forall _ _) (batch_entries_ok (last + 1) us Hus ltac:(lia) ltac:(lia)) e He) as Oe.
      apply visible_pair in Hv as [_ Hv]; [|done|unfold valid_seq; lia|done].
      apply elem_of_batch_entries in He as (i & x & Hi & ->). rewrite update_entry_seq in Hv. lia.
  - exists es, oe. split_and!; [done| |done|done].
    apply (sees_later (uvalid := uvalid) _ _ last); [done|done|unfold valid_seq; lia|lia|unfold valid_seq; lia|done|done].
Qed.

(** C6: A lookup in a database that is well formed - its tables in memory are
    above the files of the current version, and nothing is newer than the last
    sequence number - always returns, with the newest entry of the key that is
    not newer than the snapshot, or than the last sequence number if none is
    given: its value, or "not found" for a deletion or if there is no entry.
    The contents of the database stay as they are. *)
Theorem database_get d es ies levels last options snapshot u value :
  db_rep d es ies levels last -> uvalid u -> Forall is_byte u -> zlen u + 8 < 2 ^ 32 -> valid_seq (default last snapshot) ->
  exists oe d', DB_Get (Sq := Sq) (R := R) d options snapshot u value = Some (answer value oe, d')
    /\ sees (db_entries es ies levels) u (default last snapshot) oe /\ db_rep d' es ies levels last.
Proof. apply DB_Get_ok. Qed.

(** C5: A write, with the writers queued behind it, and the lookups after it.
    When there is room, the writer at the front takes the updates of some of
    those behind it along - no synced write goes with one that is not - and the
    write returns.  If it succeeds, the group is one record of the log, and a
    lookup gives the last update of its key in the group, or what it gave
    before if there is none; if it fails, lookups give what they gave before.
    Lookups at earlier sequence numbers are not affected in either case. *)
Theorem write_then_get d es ies levels last rs s0 us sync ws uss :
  has_room d -> fuel <> 0%nat ->
  db_rep d es ies levels last -> log_rep d rs -> db_tmp_batch d = WriteBatch_Clear -> Forall2 writer_has ws uss ->
  Forall update_ok (us ++ concat uss) -> zlen (us ++ concat uss) < 2 ^ 31 -> last + zlen (us ++ concat uss) < kMaxSequenceNumber ->
  exists st k ob d', DB_Write fuel d {| w_batch := Some (batch_bytes s0 us); w_sync := sync |} ws = Some (st, k, ob, d')
    /\ (k <= length ws)%nat /\ Forall (fun w => w_sync w = true -> sync = true) (take k ws)
    /\ (Status_ok st = true -> log_rep d' (rs ++ [batch_bytes (last + 1) (group_updates us uss k)]))
    /\ forall options u value, uvalid u -> Forall is_byte u -> zlen u + 8 < 2 ^ 32 ->
         (exists a d1 d2, DB_Get (Sq := Sq) (R := R) d options None u value = Some (a, d1)
            /\ DB_Get (Sq := Sq) (R := R) d' options None u value
               = Some (if Status_ok st then match last_update (group_updates us uss k) u with Some x => update_value value x | None => a end else a, d2))
         /\ forall s, 0 <= s <= last -> exists a d1 d2, DB_Get (Sq := Sq) (R := R) d options (Some s) u value = Some (a, d1)
              /\ DB_Get (Sq := Sq) (R := R) d' options (Some s) u value = Some (a, d2).
Proof.
  intros Hroom Hf Hd Hlog Ht Hw Hus Hc Hmax.
  destruct (DB_Write_ok d es ies levels last rs s0 us sync ws uss Hroom Hf Hd Hlog Ht Hw Hus Hc Hmax) as (st & k & ob & d' & Ew & Hk & Hsync & Hwr).
  exists st, k, ob, d'. split_and!; [done|done|done|intros Hs; destruct Hwr as [_ Hwr]; rewrite Hs in Hwr; apply Hwr|]. intros options u value Hu Hb Hl.
  destruct (group_updates_sub us uss k _ Hus) as [Hus' Hlen]. pose proof Hd as [_ _ _ _ _ _ [_ Hr] _].
  destruct (DB_Get_ok d es ies levels last options None u value Hd Hu Hb Hl) as (oe & d1 & E1 & Hoe & _); [cbn; unfold valid_seq; lia|].
  destruct (written_sees d d' st es ies levels last rs _ u value oe Hd Hwr Hus') as (es' & oe' & Hd' & Hoe' & Hans & Hold); [lia|done|done|]. split.
  - exists (answer value oe), d1. destruct (DB_Get_ok d' es' ies levels _ options None u value Hd' Hu Hb Hl) as (o2 & d2 & E2 & Ho2 & _); [cbn; unfold valid_seq; lia|].
    exists d2. split; [done|]. rewrite E2. rewrite (sees_unique d' es' ies levels _ u _ o2 oe' Hd' Hu Ho2 Hoe'). by rewrite Hans.
  - intros s Hs. destruct (DB_Get_ok d es ies levels last options (Some s) u value Hd Hu Hb Hl) as (o1 & d2 & E2 & Ho1 & _); [cbn; unfold valid_seq; lia|].
    destruct (DB_Get_ok d' es' ies levels _ options (Some s) u value Hd' Hu Hb Hl) as (o2 & d3 & E3 & Ho2 & _); [cbn; unfold valid_seq; lia|].
    exists (answer value o1), d2, d3. split; [done|]. rewrite E3. do 2 f_equal.
    by rewrite (sees_unique d' es' ies levels _ u s o2 o1 Hd' Hu Ho2 (Hold s o1 Hs Ho1)).
Qed.
End Writes.
End Database.

(** * A concrete database *)
#[local] Existing Instance BytewiseComparator.
#[local] Existing Instance bump_new.
#[local] Existing Instance NoBlocks.
#[local] Existing Instance NoCompression.

#[local] Abbreviation bytes_ok := (Forall is_byte).

(** No file is live, so that the table cache has nothing to find. *)
#[local] Instance no_tables :
  TableGetterLaw (uvalid := bytes_ok) (uorder := Slice_compare) (fun _ => []) (TableCache_getter (E := MemEnv) (Sq := StringFile) (R := StringFile)
    (C := ShardedLRUCache (Table StringFile) * Z) (B := unit)) (fun _ => True) (fun _ => False).
Proof. by intros tc options f ikey _ []. Qed.

Lemma empty_version : version_ok (uvalid := bytes_ok) (uorder := Slice_compare) (fun _ => []) (live := fun _ => False) 0 (replicate 7 []).
Proof.
  split.
  - intros i files [-> _]%lookup_replicate. split; [constructor|]. split; [done|]. destruct i; [split; [constructor|set_solver]|].
    intros i' j f g _ Hi. by rewrite lookup_nil in Hi.
  - intros files [-> _]%elem_of_replicate. constructor.
  - intros i j fs gs f g _ [-> _]%lookup_replicate _ Hf. by apply not_elem_of_nil in Hf.
Qed.

(** The environment with an empty log, and its handle. *)
Definition log_env : Status * option Z * MemEnv := NewWritableFile (MemEnv_new 100000) (LogFileName [100] 3).

(** The database [d] with the table [m] in memory, which has numbers up to 3. *)
Definition data_db (m : MemTable) (tables : TableCache (ShardedLRUCache (Table StringFile) * Z) unit) (s : VersionSet) : SampleDB := {|
  db_e := log_env.2; db_options := small_options; db_name := [100]; db_tables := tables; db_lock := None; db_shutting_down := false;
  db_memtables := {[ 5 := MemTable_Ref m ]}; db_mem := Some 5; db_imm := None; db_has_imm := false; db_logfile := Some 1; db_logfile_number := 3;
  db_log := Some (Writer_new 1); db_seed := 0; db_tmp_batch := WriteBatch_new; db_snapshots := SnapshotList_new; db_pending_outputs := ∅;
  db_scheduled := false; db_manuals := ∅; db_manual_compaction := None; db_versions := s; db_bg_error := Status_OK; db_next_addr := 6 |}.

Lemma sample_distinct : distinct (uorder := Slice_compare) LdbWriteThms.sample_entries.
Proof.
  intros e e' He He'. apply list_elem_of_In in He, He'. destruct He as [<-|[<-|[<-|[]]]], He' as [<-|[<-|[<-|[]]]]; try done; by vm_compute.
Qed.

Lemma data_db_ok m tables s levels :
  sample_rep m -> 0 <= LdbMemTable.refs_ m -> versions_rep s (replicate 7 []) -> vs_last_sequence s = 3 ->
  levels = replicate 7 [] ->
  db_rep (uvalid := bytes_ok) (uorder := Slice_compare) (fun _ => []) (good := fun _ => True) (live := fun _ => False)
    (data_db m tables s) LdbWriteThms.sample_entries [] levels 3
  /\ log_rep (names := m_names) (opened := m_open) (data_db m tables s) [].
Proof.
  intros Hm Hrefs Hs Hl ->.
  assert (forall p, version_entries (fun _ => []) (replicate 7 []) p -> False) as Hno.
  { intros p (files & [-> _]%elem_of_replicate & f & Hf & _). by apply not_elem_of_nil in Hf. }
  split; [split|].
  - split; [|done]. exists 5. split; [done|]. exists (MemTable_Ref m). split; [by cbn|]. split_and!; [exact Hm|cbn; lia|exact sample_distinct].
  - done.
  - exact empty_version.
  - done.
  - intros p q _ (e & He & _). by apply not_elem_of_nil in He.
  - intros p q _ Hq. by destruct (Hno q).
  - split; [done|]. done.
  - intros p [[(e & He & ->)|(e & He & _)]|Hp]; [|by apply not_elem_of_nil in He|by destruct (Hno p)].
    apply list_elem_of_In in He. by destruct He as [<-|[<-|[<-|[]]]]; vm_compute.
  - exists (Writer_new 1). split_and!; [done|done|]. split; [by vm_compute|apply writer_at_new].
Qed.

(** The table in memory with [sample_entries], and the set of versions. *)
Definition data_mem : option MemTable :=
  m ← MemTable_new;
  m ← MemTable_Add m 1 kTypeValue [97] [1];
  m ← MemTable_Add m 2 kTypeDeletion [97] [];
  MemTable_Add m 3 kTypeValue [98] [2].

Definition data_versions : option VersionSet := s ← VersionSet_new [100] 1; vs_SetLastSequence s 3.

Lemma byte_entry_ok k s t v : bytes_ok [k] -> bytes_ok v -> zlen v < 2 ^ 32 -> valid_seq s -> valid_type t ->
  e_ok (uvalid := bytes_ok) {| e_key := [k]; e_seq := s; e_type := t; e_value := v |}.
Proof. done. Qed.

Lemma data_entries_ok : Forall (e_ok (uvalid := bytes_ok)) LdbWriteThms.sample_entries.
Proof. repeat (apply Forall_cons; split; [apply byte_entry_ok; try done; by repeat constructor|]). constructor. Qed.

(** Adding an entry that is newer than all. *)
Lemma add_newest m es e :
  mem_rep (uvalid := bytes_ok) (uorder := Slice_compare) m es -> e_ok (uvalid := bytes_ok) e -> Forall (fun x => e_seq x < e_seq e) es ->
  exists m', MemTable_Add m (e_seq e) (e_type e) (e_key e) (e_value e) = Some m'
    /\ mem_rep (uvalid := bytes_ok) (uorder := Slice_compare) m' (e :: es) /\ LdbMemTable.refs_ m' = LdbMemTable.refs_ m.
Proof.
  intros Hm He Hlt. apply MemTable_Add_ok; [done|done|]. intros x Hx _. pose proof (proj1 (Forall_forall _ _) Hlt x Hx). cbn in *. lia.
Qed.

Lemma data_mem_ok : exists m, data_mem = Some m /\ sample_rep m /\ LdbMemTable.refs_ m = 0.
Proof.
  pose proof data_entries_ok as He. unfold LdbWriteThms.sample_entries in He.
  apply Forall_cons in He as [He3 He]. apply Forall_cons in He as [He2 He]. apply Forall_cons in He as [He1 _].
  destruct (MemTable_new_ok (uvalid := bytes_ok) (uorder := Slice_compare) (NC := bump_new)) as (m0 & E0 & R0 & F0).
  unfold data_mem. rewrite E0. clear E0. cbn [mbind option_bind].
  destruct (add_newest m0 _ _ R0 He1) as (m1 & E1 & R1 & F1); [constructor|]. cbn [e_seq e_type e_key e_value] in E1. rewrite E1. clear E1. cbn [mbind option_bind].
  destruct (add_newest m1 _ _ R1 He2) as (m2 & E2 & R2 & F2); [by repeat constructor|]. cbn [e_seq e_type e_key e_value] in E2. rewrite E2. clear E2. cbn [mbind option_bind].
  destruct (add_newest m2 _ _ R2 He3) as (m3 & E3 & R3 & F3); [by repeat constructor|]. cbn [e_seq e_type e_key e_value] in E3. rewrite E3. clear E3.
  exists m3. split_and!; [done|exact R3|congruence].
Qed.

Lemma data_versions_ok : exists s, data_versions = Some s /\ versions_rep s (replicate 7 []) /\ vs_last_sequence s = 3.
Proof.
  destruct (VersionSet_new_ok [100] 1) as (s & xs & ext & E & [C1 C2 C3 C4 _ _] & _ & _ & _); [done|].
  assert (versions_rep s (replicate 7 [])) as Hs by (exists xs, ext, [], 1, (with_version_refs Version_make 1); by split_and!).
  assert ((fun s => vs_last_sequence s) <$> VersionSet_new [100] 1 = Some 0) as El by (by vm_compute). rewrite E in El. injection El as El.
  destruct (SetLastSequence_ok s _ 3 Hs) as (s' & E' & Hs' & Hl); [lia|]. exists s'. unfold data_versions. rewrite E. by cbn.
Qed.

(** The database, and why it has room. *)
Lemma data_ok : exists m s t, data_mem = Some m /\ data_versions = Some s
  /\ db_rep (uvalid := bytes_ok) (uorder := Slice_compare) (fun _ => []) (good := fun _ => True) (live := fun _ => False)
       (data_db m t s) LdbWriteThms.sample_entries [] (replicate 7 []) 3
  /\ log_rep (names := m_names) (opened := m_open) (data_db m t s) [] /\ has_room (data_db m t s).
Proof.
  destruct data_mem_ok as (m & Em & Hm & Hr), data_versions_ok as (s & Es & Hs & Hl).
  assert (exists c, cache_new (V := Table StringFile) (C := ShardedLRUCache (Table StringFile) * Z) 10 = Some c) as [c _].
  { destruct (cache_new 10) eqn:E; [by eexists|]. apply (f_equal (fun o => bool_decide (is_Some o))) in E. vm_compute in E. discriminate. }
  exists m, s, {| tc_dbname := [100]; tc_options := small_options; tc_cache := c; tc_blocks := None |}.
  split; [done|]. split; [done|]. destruct (data_db_ok m {| tc_dbname := [100]; tc_options := small_options; tc_cache := c; tc_blocks := None |} s _ Hm
    ltac:(lia) Hs Hl eq_refl) as [H1 H2]. split; [done|]. split; [done|]. split; [done|]. split.
  - exists 0. split; [|done]. assert ((s ← data_versions; NumLevelFiles s 0) = Some 0) as En by (by vm_compute). by rewrite Es in En.
  - exists 5, (MemTable_Ref m). split_and!; [done|done|]. assert ((fun m => MemTable_ApproximateMemoryUsage m <=? 65536) <$> data_mem = Some true) as Eu by (by vm_compute).
    rewrite Em in Eu. injection Eu as Eu. by apply Z.leb_le in Eu.
Qed.

Lemma database_get_witness :
  exists d : SampleDB, exists oe d', DB_Get (Sq := StringFile) (R := StringFile) d ReadOptions_default (Some 1) [97] [] = Some (answer [] oe, d')
    /\ sees (uorder := Slice_compare) (db_entries (fun _ => []) LdbWriteThms.sample_entries [] (replicate 7 [])) [97] 1 oe.
Proof.
  destruct data_ok as (m & s & t & _ & _ & Hd & _). exists (data_db m t s).
  destruct (database_get (fun _ => []) (TL := no_tables) (data_db m t s) LdbWriteThms.sample_entries [] (replicate 7 []) 3 ReadOptions_default (Some 1) [97] [] Hd)
    as (oe & d' & E & Ho & _); [by repeat constructor|by repeat constructor|done|done|]. exists oe, d'. by split.
Defined.

(** A put of [a] and, queued behind it, a deletion of [b] and a writer that only
    waits. *)
Lemma write_then_get_witness :
  exists (d d' : SampleDB) st k ob,
    DB_Write 1 d {| w_batch := Some (batch_bytes 0 [Put [97] [7]]); w_sync := true |}
      [{| w_batch := Some (batch_bytes 0 [Delete [98]]); w_sync := false |}; {| w_batch := None; w_sync := true |}] = Some (st, k, ob, d')
    /\ exists a d1 d2, DB_Get (Sq := StringFile) (R := StringFile) d ReadOptions_default None [97] [] = Some (a, d1)
       /\ DB_Get (Sq := StringFile) (R := StringFile) d' ReadOptions_default None [97] [] = Some (if Status_ok st then (Status_OK, [7]) else a, d2).
Proof.
  destruct data_ok as (m & s & t & _ & _ & Hd & Hl & Hr). exists (data_db m t s).
  destruct (write_then_get 1 (fun _ => []) (TL := no_tables) (EL := Mem_law) (fun _ _ _ _ _ _ _ => I) (data_db m t s) LdbWriteThms.sample_entries [] (replicate 7 []) 3 []
    0 [Put [97] [7]] true [{| w_batch := Some (batch_bytes 0 [Delete [98]]); w_sync := false |}; {| w_batch := None; w_sync := true |}] [[Delete [98]]; []] Hr)
    as (st & k & ob & d' & E & Hk & _ & _ & H); [done|exact Hd|exact Hl|done| | |done|done|].
  - constructor; [by exists 0|constructor; [done|constructor]].
  - cbn. repeat constructor; done.
  - destruct (H ReadOptions_default [97] []) as [(a & d1 & d2 & E1 & E2) _]; [by repeat constructor|by repeat constructor|done|].
    exists d', st, k, ob. split; [exact E|]. exists a, d1, d2. split; [exact E1|]. rewrite E2. do 2 f_equal. destruct (Status_ok st); [|done].
    destruct k as [|[|[|k]]]; [done|done|done|cbn in Hk; lia].
Defined.
