(* ===== verification/LdbWriters.v ===== *)
(** leveldb: the queue of writers of [DBImpl::Write] in [db_impl.cc], with any number of
    client threads.

    A step is what one thread does between two points at which the mutex is free:
    a writer enters the queue, wakes up, makes room and forms its group, or comes
    back from the log; the background thread does its work; a client reads.  A
    writer that waits has a flag for a signal on its condition variable.  Waking
    up without a signal is possible, as with any condition variable. *)
From stdpp Require Import base numbers option gmap list.
From S2P Require Import Prelude LdbSlice LdbComparator LdbDbformat LdbEnv LdbArena LdbMemTable LdbWriteBatch LdbFormat LdbTable LdbVersionSet LdbCache LdbTableCache LdbDB LdbDBThms LdbDBData.
Open Scope Z_scope.

(** Where the thread of a writer is. *)
Inductive Phase : Type :=
| Blocked (signalled : bool)
| Awake
| Logging (g : Group)
| Returned (s : Status).

Record QWriter : Type := { q_writer : Writer_; q_done : option Status; q_phase : Phase }.

Section Queue.
Context {E Sq R : Type} {EV : Env E Sq R} {SF : SequentialFile Sq} {RF : RandomAccessFile R} {SN : Snappy}.
Context {C B : Type} {CA : Cache C (Table R)} {BC : BlockCache B} {NC : NewChar} {U : Comparator}.
Context (fuel : nat).
#[local] Abbreviation DB := (DB (E := E) (C := C) (B := B)).

(** Writers are numbered as they arrive; [ws_queue] is [writers_]. *)
Record WriteState : Type := { ws_db : DB; ws_writers : gmap nat QWriter; ws_queue : list nat; ws_next : nat }.

Definition with_db (s : WriteState) (d : DB) : WriteState :=
  {| ws_db := d; ws_writers := ws_writers s; ws_queue := ws_queue s; ws_next := ws_next s |}.

Definition with_writer (s : WriteState) (i : nat) (w : QWriter) : WriteState :=
  {| ws_db := ws_db s; ws_writers := <[i := w]> (ws_writers s); ws_queue := ws_queue s; ws_next := ws_next s |}.

Definition with_phase (w : QWriter) (p : Phase) : QWriter := {| q_writer := q_writer w; q_done := q_done w; q_phase := p |}.

(** [cv.Signal()] *)
Definition writer_signal (w : QWriter) : QWriter := match q_phase w with Blocked _ => with_phase w (Blocked true) | _ => w end.

(** [ready->status = status; ready->done = true; ready->cv.Signal()] *)
Definition set_done (st : Status) (w : QWriter) : QWriter :=
  writer_signal {| q_writer := q_writer w; q_done := Some st; q_phase := q_phase w |}.

(** A writer enters: the front does not wait. *)
Definition writer_enter (s : WriteState) (w : Writer_) : WriteState :=
  {| ws_db := ws_db s;
     ws_writers := <[ws_next s := {| q_writer := w; q_done := None; q_phase := if bool_decide (ws_queue s = []) then Awake else Blocked false |}]>
                     (ws_writers s);
     ws_queue := ws_queue s ++ [ws_next s]; ws_next := S (ws_next s) |}.

(** Back from [Wait]: the condition of the loop, and the test after it. *)
Definition writer_wake (s : WriteState) (i : nat) (w : QWriter) : WriteState :=
  with_writer s i (match q_done w with
                   | Some st => with_phase w (Returned st)
                   | None => with_phase w (if bool_decide (head (ws_queue s) = Some i) then Awake else Blocked false)
                   end).

(** The loop at the end of [Write]: the first writer and the [n] after it leave
    the queue, and the next one is told. *)
Definition writer_leave (s : WriteState) (i : nat) (n : nat) (st : Status) : WriteState :=
  let rest := tail (ws_queue s) in
  let m := alter (fun w => with_phase w (Returned st)) i (foldr (alter (set_done st)) (ws_writers s) (take n rest)) in
  {| ws_db := ws_db s;
     ws_writers := match drop n rest with j :: _ => alter writer_signal j m | [] => m end;
     ws_queue := drop n rest; ws_next := ws_next s |}.

(** The writers behind the first. *)
Definition writer_behind (s : WriteState) : list Writer_ := omap (fun j => q_writer <$> ws_writers s !! j) (tail (ws_queue s)).

(** Room is made, and a group is formed if there is something to write.  This is one
    step although [MakeRoomForWrite] gives up the mutex while it waits: the writer
    stays at the front of the queue meanwhile, so that no other writer can pass its
    wait, and the background thread runs within [MakeRoomForWrite]; only a writer
    that enters the queue, or a reader, could come in between. *)
Definition writer_start (s : WriteState) (i : nat) (w : QWriter) : option WriteState :=
  '(st, d) ← MakeRoomForWrite fuel (ws_db s) (bool_decide (w_batch (q_writer w) = None));
  match w_batch (q_writer w) with
  | Some b =>
      if Status_ok st then
        '(g, d) ← start_group d b (w_sync (q_writer w)) (writer_behind s);
        Some (with_writer (with_db s d) i (with_phase w (Logging g)))
      else Some (writer_leave (with_db s d) i 0 st)
  | None => Some (writer_leave (with_db s d) i 0 st)
  end.

Definition writer_finish (s : WriteState) (i : nat) (w : QWriter) (g : Group) : option WriteState :=
  '(st, d) ← finish_group (ws_db s) g (w_sync (q_writer w));
  Some (writer_leave (with_db s d) i (g_more g) st).

Inductive Event : Type :=
| Enter (w : Writer_)
| Wake (i : nat)
| Start (i : nat)
| Finish (i : nat)
| Background
| Lookup (options : ReadOptions) (snapshot : option Z) (key : bytes).

Definition write_step (s : WriteState) (e : Event) : option WriteState :=
  match e with
  | Enter w => Some (writer_enter s w)
  | Wake i => w ← ws_writers s !! i; match q_phase w with Blocked _ => Some (writer_wake s i w) | _ => None end
  | Start i => w ← ws_writers s !! i; match q_phase w with Awake => writer_start s i w | _ => None end
  | Finish i => w ← ws_writers s !! i; match q_phase w with Logging g => writer_finish s i w g | _ => None end
  | Background => d ← background_wait (Sq := Sq) (R := R) fuel (ws_db s); Some (with_db s d)
  | Lookup options snapshot key => '(_, _, d) ← DB_Get (Sq := Sq) (R := R) (ws_db s) options snapshot key []; Some (with_db s d)
  end.

(** No writer yet. *)
Definition write_init (d : DB) : WriteState := {| ws_db := d; ws_writers := ∅; ws_queue := []; ws_next := 0 |}.

Inductive write_reachable : WriteState -> Prop :=
| write_reachable_init d : write_reachable (write_init d)
| write_reachable_step s e s' : write_reachable s -> write_step s e = Some s' -> write_reachable s'.

(** * The invariant *)

(** At the front a writer that waits has been told; the group it forms is of
    writers in the queue. *)
Definition front_ok (more : nat) (w : QWriter) : Prop :=
  q_done w = None
  /\ match q_phase w with Blocked b => b = true | Awake => True | Logging g => (g_more g <= more)%nat | Returned _ => False end.

Definition behind_ok (w : QWriter) : Prop := q_done w = None /\ exists b, q_phase w = Blocked b.

(** Writers that left the queue have their status, or have been told. *)
Definition gone_ok (w : QWriter) : Prop :=
  (exists st, q_phase w = Returned st) \/ exists st, q_done w = Some st /\ q_phase w = Blocked true.

(** The queue is [h], [h + 1], ... up to the last arrival. *)
Record queue_ok (s : WriteState) (h : nat) : Prop := {
  qo_queue : ws_queue s = seq h (ws_next s - h) /\ (h <= ws_next s)%nat;
  qo_known i : (i < ws_next s)%nat <-> is_Some (ws_writers s !! i);
  qo_role i w : ws_writers s !! i = Some w ->
    if decide (i < h)%nat then gone_ok w else if decide (i = h) then front_ok (ws_next s - S h) w else behind_ok w
}.

Lemma queue_ok_known s h i w : queue_ok s h -> ws_writers s !! i = Some w -> (i < ws_next s)%nat.
Proof. intros H Hw. apply (qo_known s h H). by eexists. Qed.

Lemma queue_head s h i : queue_ok s h -> (head (ws_queue s) = Some i <-> i = h /\ (h < ws_next s)%nat).
Proof.
  intros [[-> Hh] _ _]. destruct (ws_next s - h)%nat as [|k] eqn:Ek; cbn; [split; [done|lia]|].
  split; [intros [= <-]; split; [done|lia]|by intros [-> _]].
Qed.

Lemma queue_tail s h : queue_ok s h -> tail (ws_queue s) = seq (S h) (ws_next s - S h).
Proof.
  intros [[-> Hh] _ _]. destruct (ws_next s - h)%nat as [|k] eqn:Ek; cbn; [by replace (ws_next s - S h)%nat with 0%nat by lia|].
  by replace (ws_next s - S h)%nat with k by lia.
Qed.

(** A front writer that is past the loop. *)
Lemma active_front s h i w : queue_ok s h -> ws_writers s !! i = Some w ->
  match q_phase w with Awake | Logging _ => True | _ => False end -> i = h.
Proof.
  intros H Hw Hp. pose proof (qo_role s h H i w Hw) as Hr. destruct (decide (i < h)%nat).
  - destruct Hr as [(st & E0)|(st & _ & E0)]; by rewrite E0 in Hp.
  - destruct (decide (i = h)); [done|]. destruct Hr as (_ & b & E0). by rewrite E0 in Hp.
Qed.

Lemma lookup_foldr_alter {A : Type} (f : A -> A) (l : list nat) (m : gmap nat A) j :
  NoDup l -> foldr (alter f) m l !! j = if decide (j ∈ l) then f <$> m !! j else m !! j.
Proof.
  induction 1 as [|x l Hx Hnd IH]; [by rewrite decide_False by apply not_elem_of_nil|]. cbn [foldr].
  destruct (decide (j = x)) as [->|Hne].
  - rewrite lookup_alter_eq, IH, decide_False by done. by rewrite decide_True by set_solver.
  - rewrite lookup_alter_ne, IH by done. by destruct (decide (j ∈ l)), (decide (j ∈ x :: l)); [..|done]; set_solver.
Qed.

Lemma signal_done w : q_done (writer_signal w) = q_done w.
Proof. unfold writer_signal. by destruct (q_phase w). Qed.

(** The first [1 + n] writers leave. *)
Lemma leave_ok s h n st :
  queue_ok s h -> (h + n < ws_next s)%nat -> queue_ok (writer_leave s h n st) (h + S n)
  /\ (forall i w, ws_writers s !! i = Some w -> exists w', ws_writers (writer_leave s h n st) !! i = Some w' /\ q_writer w' = q_writer w
        /\ (i = h -> q_phase w' = Returned st) /\ ((h < i <= h + n)%nat -> q_done w' = Some st)
        /\ ((i < h)%nat -> w' = w)).
Proof.
  intros H Hn. pose proof (queue_tail s h H) as Et. destruct H as [[Eq Hh] Hk Hr].
  unfold writer_leave. rewrite Et. set (rest := seq (S h) (ws_next s - S h)) in *.
  assert (take n rest = seq (S h) n) as Etk by (unfold rest; rewrite take_seq; f_equal; lia).
  assert (drop n rest = seq (h + S n) (ws_next s - (h + S n))) as Edr by (unfold rest; rewrite drop_seq; f_equal; lia).
  rewrite Etk, Edr. set (m := alter _ h _).
  assert (forall j, m !! j = if decide (j = h) then (fun w => with_phase w (Returned st)) <$> ws_writers s !! j
                             else if decide (h < j <= h + n)%nat then set_done st <$> ws_writers s !! j else ws_writers s !! j) as Em.
  { intros j. unfold m. destruct (decide (j = h)) as [->|Hne].
    - rewrite lookup_alter_eq, lookup_foldr_alter by apply NoDup_seq. by rewrite decide_False by (rewrite elem_of_seq; lia).
    - rewrite lookup_alter_ne, lookup_foldr_alter by (done || apply NoDup_seq).
      destruct (decide (j ∈ seq (S h) n)) as [Hj|Hj], (decide (h < j <= h + n)%nat) as [Hl|Hl]; rewrite elem_of_seq in Hj; (done || lia). }
  set (m' := match seq _ _ with j :: _ => alter writer_signal j m | [] => m end).
  assert (forall j, m' !! j = if decide (j = h + S n)%nat then writer_signal <$> m !! j else m !! j) as Em'.
  { intros j. unfold m'. destruct (ws_next s - (h + S n))%nat as [|k] eqn:Ek; cbn [seq].
    - destruct (decide (j = h + S n)%nat) as [->|]; [|done]. destruct (m !! (h + S n)%nat) as [w|] eqn:Ew; [|done]. exfalso.
      rewrite Em, !decide_False in Ew by lia. assert (h + S n < ws_next s)%nat by (apply Hk; by eexists). lia.
    - destruct (decide (j = h + S n)%nat) as [->|Hne]; [apply lookup_alter_eq|by apply lookup_alter_ne]. }
  split; [split|].
  - split; cbn; [done|lia].
  - intros j. cbn. rewrite Em', Em, (Hk j). repeat case_decide; rewrite ?fmap_is_Some; done.
  - intros j w. cbn. rewrite Em', Em. intros Hw. destruct (decide (j = h)) as [->|Hjh].
    + rewrite (decide_False (P := (h = h + S n)%nat)) in Hw by lia. rewrite decide_True by lia.
      destruct (ws_writers s !! h) as [w0|]; [|done]. injection Hw as <-. left. by eexists.
    + destruct (decide (h < j <= h + n)%nat) as [Hl|Hl].
      * rewrite (decide_False (P := (j = h + S n)%nat)) in Hw by lia. rewrite decide_True by lia.
        destruct (ws_writers s !! j) as [w0|] eqn:E0; [|done]. injection Hw as <-. specialize (Hr j w0 E0).
        rewrite !decide_False in Hr by lia. destruct Hr as (_ & b & Eb). right. exists st. unfold set_done. by rewrite signal_done; unfold writer_signal; cbn; rewrite Eb.
      * destruct (decide (j = h + S n)%nat) as [->|Hne].
        -- destruct (ws_writers s !! (h + S n)%nat) as [w0|] eqn:E0; [|done]. injection Hw as <-. specialize (Hr _ w0 E0).
           rewrite !decide_False in Hr by lia. destruct Hr as (Ed & b & Eb). rewrite decide_False by lia.
           split; [by rewrite signal_done|]. unfold writer_signal. by rewrite Eb.
        -- specialize (Hr j w Hw). destruct (decide (j < h)%nat); [by rewrite decide_True by lia|]. rewrite decide_False in Hr by done.
           by rewrite !decide_False by lia.
  - intros j w Hw. cbn. rewrite Em', Em, Hw. destruct (decide (j = h)) as [->|Hjh].
    + rewrite decide_False by lia. eexists. split; [done|]. split_and!; [done|done|lia|lia].
    + destruct (decide (h < j <= h + n)%nat) as [Hl|Hl].
      * rewrite decide_False by lia. eexists. split; [done|]. unfold set_done. rewrite signal_done. split_and!; [|lia|done|lia].
        unfold writer_signal. cbn. by destruct (q_phase w).
      * destruct (decide (j = h + S n)%nat) as [->|]; (eexists; split; [done|]); split_and!; try done; try lia. unfold writer_signal. by destruct (q_phase w).
Qed.
(** ** Every step keeps it *)
Lemma group_loop_more first sync ws size max temp tmp n temp' n' :
  group_loop first sync ws size max temp tmp n = Some (temp', n') -> (n' <= n + length ws)%nat.
Proof.
  revert size temp n. induction ws as [|w ws IH]; intros size temp n; cbn [group_loop length]; [intros [= _ <-]; lia|].
  destruct (_ && _); [intros [= _ <-]; lia|]. destruct (w_batch w); [|intros H; apply IH in H; lia]. cbv zeta.
  destruct (_ >? _); [intros [= _ <-]; lia|]. intros (r & _ & H)%bind_Some. apply bind_Some in H as (r' & _ & H). apply IH in H. lia.
Qed.

Lemma start_group_more (d : DB) b sync ws g d' : start_group d b sync ws = Some (g, d') -> (g_more g <= length ws)%nat.
Proof.
  unfold start_group, BuildBatchGroup. cbv zeta. intros H. apply bind_Some in H as ([[u t] n] & Hb & H).
  apply bind_Some in Hb as ([temp n'] & Hl & [= <- <- <-]). apply group_loop_more in Hl.
  apply bind_Some in H as (u' & _ & H). apply bind_Some in H as (c & _ & [= <- <-]). exact Hl.
Qed.

Lemma behind_length s h : queue_ok s h -> (length (writer_behind s) <= ws_next s - S h)%nat.
Proof.
  intros H. unfold writer_behind. rewrite (queue_tail s h H). transitivity (length (seq (S h) (ws_next s - S h))); [|by rewrite length_seq].
  generalize (seq (S h) (ws_next s - S h)). intros l. induction l as [|j l IH]; [done|]. cbn. destruct (q_writer <$> _); cbn; lia.
Qed.

(** The steps until the writer [i] has returned, at most. *)
Definition credit (s : WriteState) (h : nat) : nat :=
  match q_phase <$> ws_writers s !! h with Some (Blocked _) => 3 | Some Awake => 2 | Some (Logging _) => 1 | _ => 0 end.

Definition measure (s : WriteState) (h i : nat) : nat :=
  if decide (i < h)%nat then match q_phase <$> ws_writers s !! i with Some (Returned _) => 0 | _ => 1 end
  else (3 * (i - h) + credit s h + 1)%nat.

(** Is the step one of the writer at the front or, when [i] has left the queue,
    of [i]? *)
Definition helpful (s : WriteState) (i : nat) (e : Event) : bool :=
  match e with
  | Wake j | Start j | Finish j =>
      if bool_decide (i ∈ ws_queue s) then bool_decide (head (ws_queue s) = Some j) else bool_decide (j = i)
  | _ => false
  end.

Lemma helpful_queued s h i e j :
  queue_ok s h -> (h <= i < ws_next s)%nat -> e = Wake j \/ e = Start j \/ e = Finish j -> helpful s i e = bool_decide (j = h).
Proof.
  intros H Hi He. assert (i ∈ ws_queue s) as Hin by (rewrite (proj1 (qo_queue s h H)), elem_of_seq; lia).
  assert (helpful s i e = bool_decide (head (ws_queue s) = Some j)) as -> by (destruct He as [->|[->| ->]]; cbn; by rewrite bool_decide_eq_true_2).
  apply bool_decide_ext. rewrite (queue_head s h j H). split; [by intros []|]. intros ->. split; [done|lia].
Qed.

Lemma helpful_gone s h i e j :
  queue_ok s h -> (i < h)%nat -> e = Wake j \/ e = Start j \/ e = Finish j -> helpful s i e = bool_decide (j = i).
Proof.
  intros H Hi He. assert (i ∉ ws_queue s) as Hin by (rewrite (proj1 (qo_queue s h H)), elem_of_seq; lia).
  destruct He as [->|[->| ->]]; cbn; by rewrite bool_decide_eq_false_2.
Qed.

(** Leaving brings every writer closer. *)
Lemma leave_measure s h n st i :
  queue_ok s h -> (h + n < ws_next s)%nat -> (i < ws_next s)%nat -> (1 <= credit s h)%nat ->
  (if decide (i < h)%nat then measure (writer_leave s h n st) (h + S n) i = measure s h i
   else measure (writer_leave s h n st) (h + S n) i < measure s h i)%nat.
Proof.
  intros H Hn Hi Hc. destruct (leave_ok s h n st H Hn) as [H' Hw].
  destruct (proj1 (qo_known s h H i) Hi) as [w Ew]. destruct (Hw i w Ew) as (w' & Ew' & _ & Hh & Hd & Hlt). unfold measure. rewrite Ew, Ew'.
  destruct (decide (i < h)%nat) as [Hl|Hl].
  - rewrite decide_True by lia. by rewrite (Hlt Hl).
  - destruct (decide (i < h + S n)%nat) as [Hm|Hm].
    + destruct (decide (i = h)) as [->|Hne]; cbn [fmap option_fmap option_map]; [rewrite Hh by done; lia|]. case_match; lia.
    + assert (credit (writer_leave s h n st) (h + S n) <= 3)%nat by (unfold credit; repeat case_match; lia). lia.
Qed.

(** Changing one writer. *)
Lemma with_writer_ok s h i w w' :
  queue_ok s h -> ws_writers s !! i = Some w ->
  (if decide (i < h)%nat then gone_ok w' else if decide (i = h) then front_ok (ws_next s - S h) w' else behind_ok w') ->
  queue_ok (with_writer s i w') h.
Proof.
  intros [Hq Hk Hr] Hw Hw'. split; cbn.
  - done.
  - intros j. rewrite Hk. destruct (decide (j = i)) as [->|]; [rewrite lookup_insert_eq, Hw; by split; eexists|by rewrite lookup_insert_ne].
  - intros j x. destruct (decide (j = i)) as [->|]; [rewrite lookup_insert_eq; by intros [= <-]|rewrite lookup_insert_ne by done; apply Hr].
Qed.

Lemma with_writer_measure s h i w' j :
  measure (with_writer s i w') h j = (if decide (j < h)
    then (if decide (j = i) then match q_phase w' with Returned _ => 0 | _ => 1 end else measure s h j)
    else (3 * (j - h) + (if decide (i = h) then match q_phase w' with Blocked _ => 3 | Awake => 2 | Logging _ => 1 | _ => 0 end else credit s h) + 1))%nat.
Proof.
  unfold measure. destruct (decide (j < h)%nat) as [Hl|Hl]; cbn.
  - destruct (decide (j = i)) as [->|Hne]; [by rewrite lookup_insert_eq|by rewrite lookup_insert_ne].
  - unfold credit. cbn. destruct (decide (i = h)) as [->|Hne]; [by rewrite lookup_insert_eq|by rewrite lookup_insert_ne].
Qed.
(** Every writer that was there comes closer to its return if the step helps it,
    and no step takes it away. *)
Definition closer (s s' : WriteState) (h h' : nat) (e : Event) : Prop :=
  (h <= h')%nat /\ (ws_next s <= ws_next s')%nat
  /\ forall i, (i < ws_next s)%nat -> (measure s' h' i + (if helpful s i e then 1 else 0) <= measure s h i)%nat.

Lemma with_db_ok s d h : queue_ok s h -> queue_ok (with_db s d) h.
Proof. intros [H1 H2 H3]. by split. Qed.

Lemma writer_enter_ok s w h : queue_ok s h -> queue_ok (writer_enter s w) h /\ closer s (writer_enter s w) h h (Enter w).
Proof.
  intros H. pose proof H as [[Hq Hh] Hk Hr]. assert (ws_writers s !! ws_next s = None) as Hn.
  { destruct (ws_writers s !! ws_next s) eqn:Ew; [|done]. assert (ws_next s < ws_next s)%nat by (apply Hk; by eexists). lia. }
  split; [split|]; cbn.
  - split; [|lia]. rewrite Hq. replace (S (ws_next s) - h)%nat with (S (ws_next s - h)) by lia. rewrite seq_S. do 2 f_equal. lia.
  - intros i. destruct (decide (i = ws_next s)) as [->|Hne]; [rewrite lookup_insert_eq; split; [by eexists|lia]|].
    rewrite lookup_insert_ne by done. rewrite <- Hk. lia.
  - intros i x. destruct (decide (i = ws_next s)) as [->|Hne].
    + rewrite lookup_insert_eq. intros [= <-]. rewrite decide_False by lia. destruct (decide (ws_next s = h)) as [Eh|Hne].
      * rewrite bool_decide_eq_true_2; [done|]. rewrite Hq, Eh. by rewrite Nat.sub_diag.
      * rewrite bool_decide_eq_false_2; [by split; [|eexists]|]. rewrite Hq. replace (ws_next s - h)%nat with (S (ws_next s - S h)) by lia. done.
    + rewrite lookup_insert_ne by done. intros Hx. specialize (Hr i x Hx). destruct (decide (i < h)%nat); [done|].
      destruct (decide (i = h)); [|done]. destruct Hr as [Hd Hp]. split; [done|]. destruct (q_phase x); [done..| |done]. lia.
  - split; [done|]. split; [cbn; lia|]. intros i Hi. cbn [helpful]. unfold measure, credit. cbn.
    rewrite (lookup_insert_ne _ (ws_next s) i) by lia. destruct (decide (i < h)%nat); [lia|]. rewrite lookup_insert_ne by lia. lia.
Qed.

Lemma wake_ok s i w b h :
  queue_ok s h -> ws_writers s !! i = Some w -> q_phase w = Blocked b -> queue_ok (writer_wake s i w) h /\ closer s (writer_wake s i w) h h (Wake i).
Proof.
  intros H Hw Hp. pose proof (queue_ok_known s h i w H Hw) as Hi. pose proof (qo_role s h H i w Hw) as Hr. unfold writer_wake, closer.
  assert (credit s h <= 3)%nat as Hc by (unfold credit; repeat case_match; lia).
  assert (forall j, (j < ws_next s)%nat -> helpful s j (Wake i) = if decide (j < h)%nat then bool_decide (i = j) else bool_decide (i = h)) as Hhelp.
  { intros j Hj. destruct (decide (j < h)%nat); [by apply (helpful_gone s h); [..|left]|apply (helpful_queued s h); [done|lia|by left]]. }
  destruct (decide (i < h)%nat) as [Hl|Hl].
  - destruct Hr as [(st & Es)|(st & Ed & _)]; [congruence|]. rewrite Ed. split.
    + apply (with_writer_ok s h i w); [done|done|]. rewrite decide_True by done. left. by eexists.
    + split; [done|]. split; [done|]. intros j Hj. rewrite Hhelp, with_writer_measure by done. cbn.
      rewrite (decide_False (P := (i = h))) by lia. rewrite (bool_decide_eq_false_2 (i = h)) by lia. unfold measure.
      destruct (decide (j < h)%nat) as [Hjl|Hjl]; [|lia]. destruct (decide (j = i)) as [->|Hne].
      * rewrite bool_decide_eq_true_2 by done. rewrite Hw. cbn. rewrite Hp. lia.
      * rewrite bool_decide_eq_false_2 by done. lia.
  - destruct (decide (i = h)) as [->|Hne].
    + destruct Hr as [Ed Hb]. rewrite Ed. rewrite bool_decide_eq_true_2 by (apply (queue_head s h); [done|split; [done|lia]]). split.
      * apply (with_writer_ok s h h w); [done|done|]. rewrite decide_False, decide_True by lia. by split.
      * split; [done|]. split; [done|]. intros j Hj. rewrite Hhelp, with_writer_measure by done. cbn. rewrite (decide_True (P := (h = h))) by done.
        unfold measure. destruct (decide (j < h)%nat) as [Hjl|Hjl].
        -- rewrite (decide_False (P := (j = h))), bool_decide_eq_false_2 by lia. lia.
        -- rewrite bool_decide_eq_true_2 by done. unfold credit. rewrite Hw. cbn. rewrite Hp. lia.
    + destruct Hr as [Ed _]. rewrite Ed. rewrite bool_decide_eq_false_2 by (rewrite (queue_head s h i H); by intros [? _]). split.
      * apply (with_writer_ok s h i w); [done|done|]. rewrite !decide_False by done. split; [done|by eexists].
      * split; [done|]. split; [done|]. intros j Hj. rewrite Hhelp, with_writer_measure by done. rewrite (decide_False (P := (i = h))) by done.
        rewrite (bool_decide_eq_false_2 (i = h)) by done. unfold measure. destruct (decide (j < h)%nat) as [Hjl|Hjl]; [|lia].
        rewrite decide_False, bool_decide_eq_false_2 by lia. lia.
Qed.

(** The writer at the front leaves, with others. *)
Lemma leave_closer s d h n st w e :
  queue_ok s h -> (h + n < ws_next s)%nat -> ws_writers s !! h = Some w ->
  match q_phase w with Awake | Logging _ => True | _ => False end -> e = Start h \/ e = Finish h ->
  queue_ok (writer_leave (with_db s d) h n st) (h + S n) /\ closer s (writer_leave (with_db s d) h n st) h (h + S n) e.
Proof.
  intros H Hn Hw Hp He. pose proof (with_db_ok s d h H) as H1. split; [by apply leave_ok|]. split; [lia|]. split; [done|]. intros i Hi.
  assert (1 <= credit s h)%nat as Hc by (unfold credit; rewrite Hw; cbn; by destruct (q_phase w); try lia).
  pose proof (leave_measure (with_db s d) h n st i H1 Hn Hi Hc) as Hm. change (measure (with_db s d) h i) with (measure s h i) in Hm.
  destruct (decide (i < h)%nat).
  - rewrite (helpful_gone s h i e h) by (done || destruct He; auto). rewrite bool_decide_eq_false_2 by lia. lia.
  - destruct (helpful s i e); lia.
Qed.

Lemma step_ok s h e s' : queue_ok s h -> write_step s e = Some s' -> exists h', queue_ok s' h' /\ closer s s' h h' e.
Proof.
  intros H Hs. destruct e as [w|i|i|i| |o sn k]; cbn [write_step] in Hs.
  - injection Hs as <-. exists h. by apply writer_enter_ok.
  - apply bind_Some in Hs as (w & Hw & Hs). destruct (q_phase w) as [b| | |] eqn:Hp; try done. injection Hs as <-. exists h. by apply (wake_ok s i w b).
  - apply bind_Some in Hs as (w & Hw & Hs). destruct (q_phase w) eqn:Hp; try done.
    assert (i = h) as -> by (apply (active_front s h i w H Hw); by rewrite Hp). pose proof (queue_ok_known s h h w H Hw) as Hi.
    unfold writer_start in Hs. apply bind_Some in Hs as ([st d] & _ & Hs).
    assert (forall d', exists h', queue_ok (writer_leave (with_db s d') h 0 st) h' /\ closer s (writer_leave (with_db s d') h 0 st) h h' (Start h)) as Hleave.
    { intros d'. exists (h + 1)%nat. apply (leave_closer s d' h 0 st w); [done|lia|done|by rewrite Hp|by left]. }
    destruct (w_batch (q_writer w)) as [b|]; [|injection Hs as <-; apply Hleave]. destruct (Status_ok st); [|injection Hs as <-; apply Hleave].
    apply bind_Some in Hs as ([g d'] & Hg & [= <-]). apply start_group_more in Hg. pose proof (behind_length s h H) as Hb. exists h.
    pose proof (with_db_ok s d' h H) as H1. pose proof (qo_role s h H h w Hw) as Hr. rewrite decide_False, decide_True in Hr by lia. split.
    + apply (with_writer_ok (with_db s d') h h w); [done|done|]. rewrite decide_False, decide_True by lia. split; [apply Hr|cbn; lia].
    + split; [done|]. split; [done|]. intros i Hi'. rewrite with_writer_measure. cbn [q_phase with_phase]. rewrite (decide_True (P := (h = h))) by done.
      unfold measure. destruct (decide (i < h)%nat) as [Hl|Hl].
      * rewrite decide_False by lia. rewrite (helpful_gone s h i (Start h) h) by auto. rewrite bool_decide_eq_false_2 by lia. rewrite Nat.add_0_r. done.
      * unfold credit. rewrite Hw. cbn [fmap option_fmap option_map]. rewrite Hp. destruct (helpful s i (Start h)); lia.
  - apply bind_Some in Hs as (w & Hw & Hs). destruct (q_phase w) as [| |g|] eqn:Hp; try done.
    assert (i = h) as -> by (apply (active_front s h i w H Hw); by rewrite Hp). pose proof (queue_ok_known s h h w H Hw) as Hi.
    pose proof (qo_role s h H h w Hw) as Hr. rewrite decide_False, decide_True in Hr by lia. destruct Hr as [_ Hr]. rewrite Hp in Hr.
    apply bind_Some in Hs as ([st d] & _ & [= <-]). exists (h + S (g_more g))%nat.
    apply (leave_closer s d h (g_more g) st w); [done|lia|done|by rewrite Hp|by right].
  - apply bind_Some in Hs as (d & _ & [= <-]). exists h. split; [by apply with_db_ok|]. split; [done|]. split; [done|]. intros i Hi. cbn [helpful].
    change (measure (with_db s d) h i) with (measure s h i). lia.
  - apply bind_Some in Hs as ([[r v] d] & _ & [= <-]). exists h. split; [by apply with_db_ok|]. split; [done|]. split; [done|]. intros i Hi. cbn [helpful].
    change (measure (with_db s d) h i) with (measure s h i). lia.
Qed.

Lemma reachable_ok s : write_reachable s -> exists h, queue_ok s h.
Proof.
  induction 1 as [d|s e s' _ [h IH] Hs]; [|destruct (step_ok s h e s' IH Hs) as (h' & H & _); by exists h'].
  exists 0%nat. split; cbn; [done| |by intros i w; rewrite lookup_empty]. intros i. rewrite lookup_empty. split; [lia|by intros []].
Qed.
(** ** Runs *)

(** A run, with the number of its steps that help the writer [i]. *)
Inductive write_run (i : nat) : WriteState -> nat -> WriteState -> Prop :=
| write_run_nil s : write_run i s 0 s
| write_run_step s e s1 n s2 :
    write_step s e = Some s1 -> write_run i s1 n s2 -> write_run i s ((if helpful s i e then 1 else 0) + n) s2.

Definition returned (s : WriteState) (i : nat) : Prop := exists w st, ws_writers s !! i = Some w /\ q_phase w = Returned st.

(** The thread of the step does not wait for anybody: if it is blocked, it has
    been signalled. *)
Definition ready (s : WriteState) (e : Event) : Prop :=
  match e with
  | Wake j => exists w, ws_writers s !! j = Some w /\ q_phase w = Blocked true
  | Start j => exists w, ws_writers s !! j = Some w /\ q_phase w = Awake
  | Finish j => exists w g, ws_writers s !! j = Some w /\ q_phase w = Logging g
  | _ => False
  end.

(** How many writers are before [i]. *)
Definition ahead (s : WriteState) (i : nat) : nat := match head (ws_queue s) with Some h => (i - h)%nat | None => 0%nat end.

Lemma run_measure s i n s' h :
  queue_ok s h -> (i < ws_next s)%nat -> write_run i s n s' ->
  exists h', queue_ok s' h' /\ (i < ws_next s')%nat /\ (measure s' h' i + n <= measure s h i)%nat.
Proof.
  intros H Hi Hr. revert h H Hi. induction Hr as [s|s e s1 n s2 Hs _ IH]; intros h H Hi; [exists h; split_and!; [done|done|lia]|].
  destruct (step_ok s h e s1 H Hs) as (h1 & H1 & _ & Hn & Hm). destruct (IH h1 H1 ltac:(lia)) as (h2 & H2 & Hi2 & Hm2).
  exists h2. split_and!; [done|done|]. specialize (Hm i Hi). lia.
Qed.

Lemma measure_bound s h i : queue_ok s h -> (i < ws_next s)%nat -> (measure s h i <= 3 * ahead s i + 4)%nat.
Proof.
  intros H Hi. unfold measure. destruct (decide (i < h)%nat) as [Hl|Hl]; [repeat case_match; lia|].
  unfold ahead. rewrite (proj2 (queue_head s h h H)) by (split; [done|lia]).
  assert (credit s h <= 3)%nat by (unfold credit; repeat case_match; lia). lia.
Qed.

(** Either it has returned, or somebody it waits for can go on. *)
Lemma returned_or_ready s h i :
  queue_ok s h -> (i < ws_next s)%nat -> returned s i \/ (1 <= measure s h i)%nat /\ exists e, helpful s i e = true /\ ready s e.
Proof.
  intros H Hi. destruct (proj1 (qo_known s h H i) Hi) as [w Ew]. pose proof (qo_role s h H i w Ew) as Hr. unfold measure.
  destruct (decide (i < h)%nat) as [Hl|Hl].
  - destruct Hr as [(st & Es)|(st & Ed & Eb)]; [left; by exists w, st|]. right. rewrite Ew. cbn [fmap option_fmap option_map]. rewrite Eb. split; [lia|].
    exists (Wake i). split; [|by exists w]. rewrite (helpful_gone s h i _ i) by auto. by apply bool_decide_eq_true_2.
  - right. split; [lia|]. destruct (proj1 (qo_known s h H h) ltac:(lia)) as [x Ex]. pose proof (qo_role s h H h x Ex) as Hx.
    rewrite decide_False, decide_True in Hx by lia. destruct Hx as [_ Hp].
    assert (forall e, e = Wake h \/ e = Start h \/ e = Finish h -> helpful s i e = true) as Hh.
    { intros e He. rewrite (helpful_queued s h i e h) by (done || lia). by apply bool_decide_eq_true_2. }
    destruct (q_phase x) as [b| |g|] eqn:Eq; [subst b; exists (Wake h)|exists (Start h)|exists (Finish h)|done]; (split; [apply Hh; auto|]);
      [by exists x|by exists x|by exists x, g].
Qed.

(** C16: A queued writer returns.  Whatever the other threads do - new writers,
    readers and the background thread may run at any time, and threads may wake
    up for no reason - no signal is lost: as long as the writer has not returned,
    it or the writer at the front of the queue is running or has been signalled.
    And after at most three steps of the front for each writer ahead of it, and
    four more, it has returned. *)
Theorem queued_writer_returns s i n s' :
  write_reachable s -> is_Some (ws_writers s !! i) -> write_run i s n s' ->
  returned s' i \/ (n < 3 * ahead s i + 4)%nat /\ exists e, helpful s' i e = true /\ ready s' e.
Proof.
  intros [h H]%reachable_ok Hi%(qo_known s h H) Hr. destruct (run_measure s i n s' h H Hi Hr) as (h' & H' & Hi' & Hm).
  pose proof (measure_bound s h i H Hi). destruct (returned_or_ready s' h' i H' Hi') as [?|[H1 ?]]; [by left|right]. split; [lia|done].
Qed.

(** C17: Writers are served in the order in which they arrive.  The queue has the
    last arrivals, in order; only the writer at its front is past its wait, and
    the others have no status yet; the writers that left have returned, or have
    a status and have been told.  A writer that comes back from the log is still
    the first of the queue, and it and exactly the writers of its group, who are
    the next in the queue, leave it with the status of the write. *)
Theorem writers_in_order s :
  write_reachable s -> exists h, ws_queue s = seq h (ws_next s - h) /\ (h <= ws_next s)%nat
    /\ (forall i w, ws_writers s !! i = Some w ->
         ((i < h)%nat -> (exists st, q_phase w = Returned st) \/ exists st, q_done w = Some st /\ q_phase w = Blocked true)
         /\ ((h < i)%nat -> q_done w = None /\ exists b, q_phase w = Blocked b))
    /\ forall i w g s', ws_writers s !! i = Some w -> q_phase w = Logging g -> write_step s (Finish i) = Some s' ->
         i = h /\ (h + g_more g < ws_next s)%nat
         /\ exists st d, finish_group (ws_db s) g (w_sync (q_writer w)) = Some (st, d) /\ ws_db s' = d
           /\ ws_queue s' = drop (S (g_more g)) (ws_queue s)
           /\ forall j x, ws_writers s !! j = Some x -> exists x', ws_writers s' !! j = Some x'
                /\ (j = h -> q_phase x' = Returned st) /\ ((h < j <= h + g_more g)%nat -> q_done x' = Some st)
                /\ ((h + g_more g < j)%nat -> q_done x' = None).
Proof.
  intros [h H']%reachable_ok. exists h. pose proof H' as [[Hq Hh] Hk Hr].
  split; [done|]. split; [done|]. split.
  - intros i w Hw. specialize (Hr i w Hw). split; intros Hi; [by rewrite decide_True in Hr by done|]. rewrite !decide_False in Hr by lia. exact Hr.
  - intros i w g s' Hw Hp Hs. assert (i = h) as -> by (apply (active_front s h i w H' Hw); by rewrite Hp).
    pose proof (queue_ok_known s h h w H' Hw) as Hi. pose proof (Hr h w Hw) as Hf. rewrite decide_False, decide_True in Hf by lia.
    destruct Hf as [_ Hf]. rewrite Hp in Hf. split; [done|]. split; [lia|].
    cbn [write_step] in Hs. rewrite Hw in Hs. cbn [mbind option_bind] in Hs. rewrite Hp in Hs. unfold writer_finish in Hs.
    apply bind_Some in Hs as ([st d] & Ef & [= <-]). exists st, d. split; [done|]. split; [done|]. split; [cbn; by rewrite (queue_tail s h H'), Hq; replace (ws_next s - h)%nat with (S (ws_next s - S h)) by lia|].
    intros j x Hx. pose proof (with_db_ok s d h H') as Hd.
    destruct (leave_ok (with_db s d) h (g_more g) st Hd) as [Hl Hlw]; [cbn; lia|]. destruct (Hlw j x Hx) as (x' & Ex & _ & X1 & X2 & _).
    exists x'. split_and!; [done|done|done|]. intros Hj. pose proof (qo_role _ _ Hl j x' Ex) as Hrole. rewrite decide_False in Hrole by lia.
    destruct (decide _); apply Hrole.
Qed.
End Queue.

(** ** Three writers *)
#[local] Existing Instance BytewiseComparator.
#[local] Existing Instance bump_new.
#[local] Existing Instance NoBlocks.
#[local] Existing Instance NoCompression.
#[local] Abbreviation step := (write_step (Sq := StringFile) (R := StringFile) (E := MemEnv) (C := ShardedLRUCache (Table StringFile) * Z) (B := unit) 100).

Definition sample_put (k v : Z) (sync : bool) : Writer_ := {| w_batch := WriteBatch_Put WriteBatch_new [k] [v]; w_sync := sync |}.

(** Two writers arrive, the second one synced, while the first one writes, and a
    third one that is not. *)
Definition queue_events : list Event :=
  [Enter (sample_put 97 1 false); Start 0; Enter (sample_put 98 2 true); Wake 1; Enter (sample_put 99 3 false)].

Definition queue_sample : option (WriteState (E := MemEnv) (C := ShardedLRUCache (Table StringFile) * Z) (B := unit)) :=
  d ← sample_open; foldl (fun s e => s ← s; step s e) (Some (write_init d)) queue_events.

Lemma reachable_foldl s es s' :
  write_reachable (Sq := StringFile) (R := StringFile) 100 s -> foldl (fun s e => s ← s; step s e) (Some s) es = Some s' ->
  write_reachable (Sq := StringFile) (R := StringFile) 100 s'.
Proof.
  revert s. induction es as [|e es IH]; intros s Hs; cbn [foldl]; [by intros [= <-]|]. cbn [mbind option_bind].
  destruct (step s e) as [s1|] eqn:E1; [apply IH; by eapply write_reachable_step|].
  assert (foldl (fun s e => s ← s; step s e) None es = None) as -> by (clear; by induction es). done.
Qed.

Lemma queue_sample_reachable : exists s, queue_sample = Some s /\ write_reachable (Sq := StringFile) (R := StringFile) 100 s.
Proof.
  assert (bool_decide (is_Some queue_sample) = true) as H%bool_decide_eq_true_1 by (by vm_compute). destruct H as [s Hs]. exists s. split; [done|].
  unfold queue_sample in Hs. apply bind_Some in Hs as (d & _ & Hs). eapply reachable_foldl; [|exact Hs]. constructor.
Qed.

(** The third writer, after the first has come back from the log. *)
Lemma queued_writer_returns_witness :
  exists s s', queue_sample = Some s /\ step s (Finish 0) = Some s'
    /\ (returned s' 2 \/ (1 < 3 * ahead s 2 + 4)%nat /\ exists e, helpful s' 2 e = true /\ ready s' e).
Proof.
  destruct queue_sample_reachable as (s & Es & Hs).
  assert ((s ← queue_sample; Some (bool_decide (is_Some (ws_writers s !! 2%nat)), helpful s 2 (Finish 0), bool_decide (is_Some (step s (Finish 0)))))
          = Some (true, true, true)) as H by (by vm_compute).
  rewrite Es in H. cbn [mbind option_bind] in H. assert (helpful s 2 (Finish 0) = true) as H2 by congruence.
  injection H as H1%bool_decide_eq_true_1 _ H3%bool_decide_eq_true_1. destruct H3 as [s' Hstep].
  exists s, s'. split; [done|]. split; [done|]. apply (queued_writer_returns (Sq := StringFile) (R := StringFile) 100 s 2 1 s' Hs H1).
  pose proof (write_run_step (Sq := StringFile) (R := StringFile) 100 2 s (Finish 0) s' 0 s' Hstep (write_run_nil _ _ _)) as Hrun. by rewrite H2 in Hrun.
Defined.

Lemma writers_in_order_witness :
  exists s, queue_sample = Some s /\ exists h, ws_queue s = seq h (ws_next s - h) /\ ws_queue s = [0%nat; 1%nat; 2%nat].
Proof.
  destruct queue_sample_reachable as (s & Es & Hs). exists s. split; [done|].
  destruct (writers_in_order (Sq := StringFile) (R := StringFile) 100 s Hs) as (h & Hq & _). exists h. split; [done|].
  assert ((ws_queue <$> queue_sample) = Some [0%nat; 1%nat; 2%nat]) as H by (by vm_compute). rewrite Es in H. by injection H.
Defined.
