(* ===== verification/LdbThms.v ===== *)
(** leveldb: the properties of the parts below the log, the table in memory
    and the version edits: integers and slices, checksums, keys, filters, file
    names, random numbers, the arena and the skip list. *)
From Stdlib Require Import Sorted.
From stdpp Require Import base numbers option gmap strings sets list.
From S2P Require Import Prelude Varint LdbSlice LdbCoding LdbCrc LdbBloom LdbFilterBlock LdbFilename LdbComparator LdbDbformat LdbArena LdbSkipList LdbSkipListThms LdbVersionEdit.
Open Scope Z_scope.
Open Scope c_scope.

(** * Encodings *)

(** A record of a fixed 32-bit, a fixed 64-bit, a varint of 32 and one of
    64 bits and a length-prefixed slice, put one after the other, is read back
    in the same order by the parsers of [coding.cc], each leaving what follows
    it; [VarintLength] is the length of the varint. *)
Theorem coding_roundtrip a b c d s rest :
  in_uint 32 a -> in_uint 64 b -> in_uint 32 c -> in_uint 64 d ->
  zlen s < 2 ^ 32 -> Forall is_byte s -> Forall is_byte rest ->
  let buf := PutLengthPrefixedSlice
    (PutVarint64 (PutVarint32 (PutFixed64 (PutFixed32 [] a) b) c) d) s in
  DecodeFixed32 (buf ++ rest) = Some a
  /\ DecodeFixed64 (drop 4 (buf ++ rest)) = Some b
  /\ exists l1 l2,
       GetVarint32 (drop 12 (buf ++ rest)) = Some (c, l1)
       /\ GetVarint64 l1 = Some (d, l2)
       /\ GetLengthPrefixedSlice l2 = Some (s, rest)
       /\ zlen (drop 12 (buf ++ rest)) - zlen l1 = VarintLength c
       /\ zlen l1 - zlen l2 = VarintLength d.
Proof.
  intros Ha Hb Hc Hd Hs Hsb Hr buf.
  assert (buf ++ rest = EncodeFixed32 a ++ EncodeFixed64 b ++ varint c ++ varint d ++ delim s ++ rest) as ->.
  { unfold buf. rewrite PutLengthPrefixedSlice_delim by done.
    unfold PutVarint64, PutVarint32, PutFixed64, PutFixed32.
    rewrite EncodeVarint32_varint, EncodeVarint64_varint by done. by rewrite <- !app_assoc. }
  split_and!.
  - by apply DecodeFixed32_Encode.
  - change (drop 4 _) with (EncodeFixed64 b ++ varint c ++ varint d ++ delim s ++ rest).
    by apply DecodeFixed64_Encode.
  - change (drop 12 _) with (varint c ++ varint d ++ delim s ++ rest).
    exists (varint d ++ delim s ++ rest), (delim s ++ rest). split_and!.
    + apply GetVarint32_varint; [done|]. rewrite !Forall_app.
      split_and!; [by apply varint_bytes|by apply short_delim_bytes|done].
    + by apply GetVarint64_varint.
    + by apply GetLengthPrefixedSlice_delim.
    + rewrite VarintLength_varint, zlen_app by apply Hc. lia.
    + rewrite VarintLength_varint, zlen_app by apply Hd. lia.
Qed.

Lemma coding_roundtrip_witness :
  let buf := PutLengthPrefixedSlice
    (PutVarint64 (PutVarint32 (PutFixed64 (PutFixed32 [] 7) (2 ^ 63)) 300) (2 ^ 64 - 1)) [1; 2] in
  DecodeFixed32 (buf ++ [9]) = Some 7
  /\ DecodeFixed64 (drop 4 (buf ++ [9])) = Some (2 ^ 63)
  /\ exists l1 l2,
       GetVarint32 (drop 12 (buf ++ [9])) = Some (300, l1)
       /\ GetVarint64 l1 = Some (2 ^ 64 - 1, l2)
       /\ GetLengthPrefixedSlice l2 = Some ([1; 2], [9])
       /\ zlen (drop 12 (buf ++ [9])) - zlen l1 = VarintLength 300
       /\ zlen l1 - zlen l2 = VarintLength (2 ^ 64 - 1).
Proof. apply (coding_roundtrip 7 (2 ^ 63) 300 (2 ^ 64 - 1) [1; 2] [9]); by repeat constructor. Defined.

(** C27: The checksum of [crc32c.cc], computed from tables with four bytes at a
    time on an aligned address, is the CRC-32C computed bit by bit, wherever
    the data lie; it can be computed piece by piece, and [Unmask] undoes
    [Mask]. *)
Theorem crc32c_correct addr crc a b :
  in_uint 32 crc -> Forall is_byte a -> Forall is_byte b ->
  Extend addr crc a = crc32c crc a
  /\ Extend (addr + zlen a) (Extend addr crc a) b = crc32c crc (a ++ b)
  /\ in_uint 32 (Mask (Extend addr crc a))
  /\ Unmask (Mask (Extend addr crc a)) = Extend addr crc a.
Proof.
  intros Hc Ha Hb. rewrite Extend_crc32c by done.
  assert (in_uint 32 (crc32c crc a)) as Hr by (by apply crc32c_range).
  split_and!; [done| |apply Mask_range|by apply Unmask_Mask].
  rewrite Extend_crc32c by done. symmetry. apply crc32c_app.
Qed.

Lemma crc32c_correct_witness :
  Extend 3 0 [104; 105] = crc32c 0 [104; 105]
  /\ Extend (3 + 2) (Extend 3 0 [104; 105]) [0] = crc32c 0 ([104; 105] ++ [0])
  /\ in_uint 32 (Mask (Extend 3 0 [104; 105]))
  /\ Unmask (Mask (Extend 3 0 [104; 105])) = Extend 3 0 [104; 105].
Proof. apply (crc32c_correct 3 0 [104; 105] [0]); by repeat constructor. Defined.

(** * Keys *)

(** Internal keys are read back as they were written, and every string of
    eight bytes or more is an internal key: what [ParseInternalKey] reads from
    it, written again, gives the string, and it is refused exactly if the type
    is not one of the enumeration. *)
Theorem internal_key_roundtrip k b :
  valid_seq (sequence k) -> valid_type (type k) -> Forall is_byte b ->
  ParseInternalKey (AppendInternalKey [] k) = Some (true, k)
  /\ ((length b < 8)%nat -> ParseInternalKey b = None)
  /\ ((8 <= length b)%nat -> exists k',
        ParseInternalKey b = Some (type k' <=? kTypeValue, k') /\ b = AppendInternalKey [] k').
Proof.
  intros Hs Ht Hb. split_and!; [by apply ParseInternalKey_Append| |].
  - intros Hl. unfold ParseInternalKey. cbv zeta. by rewrite (proj2 (Nat.ltb_lt _ _)).
  - intros Hl. destruct (ParseInternalKey b) as [[r k']|] eqn:E.
    + destruct (ParseInternalKey_inv _ _ _ Hb E) as (-> & _ & _ & ->). by exists k'.
    + exfalso. destruct (ikey_split b Hl) as (u & t & -> & Hl'). apply Forall_app in Hb as [_ Hbt].
      by rewrite ParseInternalKey_app in E.
Qed.

Definition sample_ikey : bytes := [1; 2; 3; 4; 5; 6; 7; 8; 9].

Lemma internal_key_roundtrip_witness :
  ParseInternalKey (AppendInternalKey [] {| user_key := [97]; sequence := 5; type := 1 |})
  = Some (true, {| user_key := [97]; sequence := 5; type := 1 |})
  /\ ((length sample_ikey < 8)%nat -> ParseInternalKey sample_ikey = None)
  /\ ((8 <= length sample_ikey)%nat -> exists k',
        ParseInternalKey sample_ikey = Some (type k' <=? kTypeValue, k')
        /\ sample_ikey = AppendInternalKey [] k').
Proof.
  apply (internal_key_roundtrip {| user_key := [97]; sequence := 5; type := 1 |} sample_ikey);
    [done|by right|by repeat constructor].
Defined.

(** C28: The comparator of internal keys over any lawful comparator of user
    keys orders them by user key and then from the newest to the oldest
    sequence number; the separator that it finds between two keys in order is
    no longer than the first and lies between them. *)
Theorem internal_comparator_lawful {U : Comparator} {uvalid : bytes -> Prop}
  {uorder : bytes -> bytes -> Z} {UL : ComparatorLaw U uvalid uorder} k1 k2 :
  uvalid (user_key k1) -> uvalid (user_key k2) ->
  valid_seq (sequence k1) -> valid_seq (sequence k2) ->
  valid_type (type k1) -> valid_type (type k2) ->
  let a := AppendInternalKey [] k1 in
  let b := AppendInternalKey [] k2 in
  InternalKey_Compare a b
  = Some (if uorder (user_key k1) (user_key k2) =? 0
          then (if sequence k1 * 256 + type k1 >? sequence k2 * 256 + type k2 then -1
                else if sequence k1 * 256 + type k1 <? sequence k2 * 256 + type k2 then 1 else 0)
          else uorder (user_key k1) (user_key k2))
  /\ exists sep, InternalKey_FindShortestSeparator a b = Some sep /\ (length sep <= length a)%nat
       /\ (ikey_order uorder a b < 0 ->
             ikey_order uorder a sep <= 0 /\ ikey_order uorder sep b < 0)
       /\ (0 <= ikey_order uorder a b -> sep = a).
Proof.
  intros V1 V2 S1 S2 T1 T2 a b.
  assert (ikey_valid uvalid a /\ ikey_valid uvalid b) as [Ha Hb].
  { unfold a, b. destruct k1, k2. split; by apply ikey_valid_append. }
  split.
  - rewrite InternalKey_Compare_order by done. unfold a, b. rewrite !AppendInternalKey_app. cbn [app].
    rewrite ikey_order_app by done. unfold EncodeFixed64. cbn [kLittleEndian].
    rewrite !le_val_bytes by (apply Pack_range; auto with cint).
    by rewrite !Pack_add by auto with cint.
  - destruct (ikey_separator a b Ha Hb) as (sep & E & _ & H). by exists sep.
Qed.

Lemma internal_comparator_lawful_witness :
  let a := AppendInternalKey [] {| user_key := [97]; sequence := 5; type := 1 |} in
  let b := AppendInternalKey [] {| user_key := [99]; sequence := 4; type := 0 |} in
  InternalKey_Compare a b = Some (-2)
  /\ exists sep, InternalKey_FindShortestSeparator a b = Some sep /\ (length sep <= length a)%nat
       /\ (ikey_order Slice_compare a b < 0 ->
             ikey_order Slice_compare a sep <= 0 /\ ikey_order Slice_compare sep b < 0)
       /\ (0 <= ikey_order Slice_compare a b -> sep = a).
Proof.
  assert (Forall is_byte [97] /\ Forall is_byte [99]) as [H1 H2] by (by split; repeat constructor).
  exact (internal_comparator_lawful {| user_key := [97]; sequence := 5; type := 1 |}
    {| user_key := [99]; sequence := 4; type := 0 |} H1 H2 ltac:(done) ltac:(done)
    (or_intror eq_refl) (or_introl eq_refl)).
Defined.

(** * Filters *)

(** C26: Filters give no false negatives: whatever keys a table puts into its
    blocks, the filter block built with a Bloom policy for internal keys,
    handed to the reader, matches each key at the offset of its block. *)
Theorem filter_no_false_negatives bits p blocks :
  in_uint 31 bits -> BloomFilterPolicy_new bits = Some p ->
  offsets_ok 0 blocks ->
  Forall (fun block => Forall (ikey_valid (fun _ => True)) block.2) blocks ->
  key_count blocks < 2 ^ 31 ->
  exists contents, filter_block (P := InternalFilterPolicy (Bloom p)) blocks = Some contents
    /\ (zlen contents < 2 ^ 32 ->
        forall off keys key, (off, keys) ∈ blocks -> key ∈ keys ->
          FilterBlockReader_new contents
            ≫= (fun r => FilterBlockReader_KeyMayMatch (P := InternalFilterPolicy (Bloom p)) r off key)
          = Some true).
Proof.
  intros Hb Hp Ho Hk Hc. apply (BloomFilterPolicy_new_ok bits) in Hp; [|done].
  assert (FilterPolicyLaw (Bloom p) (fun _ => True)) as PL by (by apply Bloom_law).
  by apply (filter_block_matches (valid := ikey_valid (fun _ => True))).
Qed.

Definition sample_blocks : list (Z * list bytes) :=
  [(0, [[97; 1; 5; 0; 0; 0; 0; 0; 0]]); (5000, [[98; 1; 4; 0; 0; 0; 0; 0; 0]; [98; 0; 3; 0; 0; 0; 0; 0; 0]])].

Lemma filter_no_false_negatives_witness :
  exists p contents, BloomFilterPolicy_new 10 = Some p
    /\ filter_block (P := InternalFilterPolicy (Bloom p)) sample_blocks = Some contents
    /\ (zlen contents < 2 ^ 32 ->
        forall off keys key, (off, keys) ∈ sample_blocks -> key ∈ keys ->
          FilterBlockReader_new contents
            ≫= (fun r => FilterBlockReader_KeyMayMatch (P := InternalFilterPolicy (Bloom p)) r off key)
          = Some true).
Proof.
  destruct (filter_no_false_negatives 10 {| bits_per_key_ := 10; k_ := 6 |} sample_blocks) as (c & E & H).
  - done.
  - vm_compute. reflexivity.
  - done.
  - assert (forall u t, length t = 8%nat -> Forall is_byte t -> ikey_valid (fun _ => True) (u ++ t)) as Hv.
    { intros u t Hl Hb. by exists u, t. }
    repeat constructor; cbn [snd];
      match goal with |- ikey_valid _ (?x :: ?t) => apply (Hv [x] t); [done|by repeat constructor] end.
  - done.
  - exists {| bits_per_key_ := 10; k_ := 6 |}, c. split; [vm_compute; reflexivity|]. by split.
Defined.

(** * File names *)

(** The names that the database makes for its files, without the
    directory, are parsed as files of their number and type. *)
Theorem filename_roundtrip db n :
  in_uint 64 n ->
  ParseFileName (basename db (LogFileName db n)) = Some (n, kLogFile)
  /\ ParseFileName (basename db (TableFileName db n)) = Some (n, kTableFile)
  /\ ParseFileName (basename db (SSTTableFileName db n)) = Some (n, kTableFile)
  /\ ParseFileName (basename db (TempFileName db n)) = Some (n, kTempFile)
  /\ ParseFileName (basename db (DescriptorFileName db n)) = Some (n, kDescriptorFile)
  /\ ParseFileName (basename db (CurrentFileName db)) = Some (0, kCurrentFile)
  /\ ParseFileName (basename db (LockFileName db)) = Some (0, kDBLockFile)
  /\ ParseFileName (basename db (InfoLogFileName db)) = Some (0, kInfoLogFile)
  /\ ParseFileName (basename db (OldInfoLogFileName db)) = Some (0, kInfoLogFile).
Proof.
  intros Hn. unfold LogFileName, TableFileName, SSTTableFileName, TempFileName.
  rewrite !ParseFileName_MakeFileName, ParseFileName_Descriptor by done.
  unfold CurrentFileName, LockFileName, InfoLogFileName, OldInfoLogFileName.
  change (str "/CURRENT") with ([47] ++ str "CURRENT"). change (str "/LOCK") with ([47] ++ str "LOCK").
  change (str "/LOG") with ([47] ++ str "LOG"). change (str "/LOG.old") with ([47] ++ str "LOG.old").
  by rewrite !basename_app.
Qed.

Lemma filename_roundtrip_witness :
  ParseFileName (basename (str "/tmp/db") (LogFileName (str "/tmp/db") 12)) = Some (12, kLogFile).
Proof. exact (proj1 (filename_roundtrip (str "/tmp/db") 12 ltac:(done))). Defined.

(** * Random numbers *)

(** The generator of [random.h] computes the Lehmer sequence
    [seed * 16807 mod (2^31 - 1)] without a division, and from any seed it
    stays between 1 and [2^31 - 2], so that it never gets stuck at 0. *)
Theorem random_lehmer s n :
  let seed := Nat.iter n Random_Next (Random_new s) in
  0 < seed < 2147483647 /\ Random_Next seed = (seed * 16807) mod 2147483647.
Proof.
  intros seed. assert (0 < seed < 2147483647) as Hs.
  { unfold seed. induction n as [|n IH]; [apply Random_new_range|]. simpl. by apply Random_Next_range. }
  split; [done|by apply Random_Next_mod].
Qed.

(** * The arena *)
Inductive request : Type := Plain (n : Z) | Aligned (n : Z).

Definition req_size (r : request) : Z := match r with Plain n | Aligned n => n end.

(** The ranges handed out for some requests, in their order. *)
Fixpoint serve {NC : NewChar} (a : Arena) (rs : list request) : list range * Arena :=
  match rs with
  | [] => ([], a)
  | r :: rs' =>
      let '(p, a) := match r with Plain n => Allocate a n | Aligned n => AllocateAligned a n end in
      let '(l, a) := serve a rs' in
      ((p, req_size r) :: l, a)
  end.

Section Serve.
Context {NC : NewChar} {NL : NewCharLaw NC}.

Lemma serve_inv rs a used :
  arena_inv a used -> Forall (fun r => 0 < req_size r < 2 ^ 63) rs ->
  let '(l, a') := serve a rs in
  arena_inv a' (rev l ++ used)
  /\ Forall2 (fun r x => snd x = req_size r /\ match r with Aligned _ => (8 | fst x) | _ => True end) rs l
  /\ Forall (fun x => Forall (fun u => disjoint_ranges u x) used) l
  /\ ForallOrdPairs disjoint_ranges l.
Proof.
  revert a used. induction rs as [|r rs IH]; intros a used Ha Hrs; cbn [serve].
  - split_and!; [done|constructor..].
  - apply Forall_cons in Hrs as [Hr Hrs].
    set (res := match r with Plain n => Allocate a n | Aligned n => AllocateAligned a n end).
    assert (allocates a used (req_size r) res
            /\ match r with Aligned _ => (8 | fst res) | _ => True end) as [(Hi & _ & Hd) Hal].
    { unfold res. destruct r as [n|n]; cbn [req_size] in *.
      - split; [apply Allocate_inv; [done|lia]|done].
      - by apply AllocateAligned_inv. }
    destruct res as [p a1] eqn:Eres. cbn [fst snd] in *.
    specialize (IH a1 ((p, req_size r) :: used) Hi Hrs).
    destruct (serve a1 rs) as [l a2]. destruct IH as (I1 & I2 & I3 & I4). split_and!.
    + cbn [rev]. by rewrite <- app_assoc.
    + by constructor.
    + constructor; [by apply Forall_forall|].
      eapply Forall_impl; [exact I3|]. intros x Hx. by apply Forall_cons in Hx as [_ Hx].
    + constructor; [|done]. eapply Forall_impl; [exact I3|]. intros x Hx.
      by apply Forall_cons in Hx as [Hx _].
Qed.

(** C36: Whatever is requested from an arena, in whatever order, the ranges it
    hands out are apart from each other and lie inside its blocks, and those
    requested aligned are aligned to eight bytes. *)
Theorem arena_ranges_apart rs :
  Forall (fun r => 0 < req_size r < 2 ^ 63) rs ->
  let '(l, a) := serve Arena_new rs in
  ForallOrdPairs disjoint_ranges l
  /\ Forall2 (fun r x => snd x = req_size r /\ match r with Aligned _ => (8 | fst x) | _ => True end) rs l
  /\ forall x, x ∈ l -> 0 < fst x /\ exists b, b ∈ blocks_ a /\ inside x b.
Proof.
  intros Hrs. pose proof (serve_inv rs Arena_new [] arena_inv_new Hrs) as H.
  destruct (serve Arena_new rs) as [l a]. destruct H as (H1 & H2 & _ & H4). split_and!; [done..|].
  intros x Hx. destruct (inv_used a _ H1 x) as (Hp & _ & Hb & _); [|done].
  rewrite app_nil_r. apply list_elem_of_In. rewrite <- in_rev. by apply list_elem_of_In.
Qed.
End Serve.

Lemma arena_ranges_apart_witness :
  let '(l, a) := serve (NC := bump_new) Arena_new [Plain 3; Aligned 40; Plain 5000; Aligned 8] in
  ForallOrdPairs disjoint_ranges l
  /\ Forall2 (fun r x => snd x = req_size r /\ match r with Aligned _ => (8 | fst x) | _ => True end)
       [Plain 3; Aligned 40; Plain 5000; Aligned 8] l
  /\ forall x, x ∈ l -> 0 < fst x /\ exists b, b ∈ blocks_ a /\ inside x b.
Proof. apply (arena_ranges_apart [Plain 3; Aligned 40; Plain 5000; Aligned 8]). by repeat constructor. Defined.

(** * The skip list *)

(** Inserting keys one after the other, into an empty list. *)
Fixpoint insert_all {Key} {NC : NewChar} (compare : Key -> Key -> option Z) (l : list Key)
  (sa : SkipList Key * Arena) : option (SkipList Key * Arena) :=
  match l with
  | [] => Some sa
  | k :: l' => sa ← Insert compare sa.1 sa.2 k; insert_all compare l' sa
  end.

(** The keys an iterator passes from a node on, at most [n]. *)
Fixpoint scan {Key} (n : nat) (s : SkipList Key) (node : Z) : option (list Key) :=
  if Iterator_Valid node then
    match n with
    | O => None
    | S n' =>
        k ← Iterator_key s node;
        node ← Iterator_Next s node;
        l ← scan n' s node;
        Some (k :: l)
    end
  else Some [].

Section SkipListThms.
Context {Key : Type} {compare : Key -> Key -> option Z} {valid : Key -> Prop}
  {order : Key -> Key -> Z} {zero_key : Key}
  {NC : NewChar} {NL : NewCharLaw NC} {CL : CompareLaw compare valid order}.

#[local] Notation sl_holds := (sl_holds (valid := valid) (order := order) (zero_key := zero_key)).

Lemma insert_all_ok l s a ps ks used :
  sl_holds s ps ks -> arena_inv a used -> nodes_used s used ->
  Forall valid l -> ForallOrdPairs (fun x y => order x y <> 0) l ->
  (forall x y, x ∈ ks -> y ∈ l -> order x y <> 0) ->
  exists s' a' ps', insert_all compare l (s, a) = Some (s', a')
    /\ sl_holds s' ps' (fold_left (insert_sorted (order := order)) l ks).
Proof.
  revert s a ps ks used. induction l as [|k l IH]; intros s a ps ks used Hs Ha Hu Hv Hd Hks.
  - by exists s, a, ps.
  - apply Forall_cons in Hv as [Hk Hv]. inversion_clear Hd as [|? ? Hkl Hd'].
    destruct (Insert_ok (compare := compare) s ps ks a used k Hs Ha Hu Hk)
      as (s1 & a1 & ps1 & p & n & E & Hs1 & Ha1 & Hu1 & _).
    { intros x Hx. apply Hks; [done|]. apply elem_of_cons. by left. }
    cbn [insert_all fst snd]. rewrite E. cbn [mbind option_bind fold_left].
    apply (IH s1 a1 ps1 _ _ Hs1 Ha1 Hu1 Hv Hd'). intros x y Hx Hy.
    rewrite insert_sorted_perm in Hx. apply elem_of_cons in Hx as [->|Hx].
    + by apply (proj1 (Forall_forall _ _) Hkl).
    + apply Hks; [done|]. apply elem_of_cons. by right.
Qed.

Lemma scan_ok s ps ks n i :
  sl_holds s ps ks -> (i + n = length ks)%nat -> scan n s (node_at ps i) = Some (drop i ks).
Proof.
  intros Hs. revert i. induction n as [|n IH]; intros i Hi.
  - rewrite drop_ge by lia. assert (node_at ps i = nullptr) as ->; [|done].
    destruct Hs as (L & Hsi & -> & ->). rewrite length_map in Hi. apply nth_overflow. lia.
  - destruct (Iterator_key_ok s ps ks i Hs) as (Hn & _ & Ek); [lia|].
    cbn [scan]. unfold Iterator_Valid. rewrite (proj2 (Z.eqb_neq _ _)) by done. cbn [negb].
    destruct (lookup_lt_is_Some_2 ks i ltac:(lia)) as [k Hk].
    rewrite Ek, Hk. cbn [mbind option_bind].
    rewrite (Iterator_Next_ok s ps ks i Hs) by lia. cbn [mbind option_bind].
    rewrite IH by lia. cbn [mbind option_bind]. by rewrite (drop_S _ _ _ Hk).
Qed.

(** C18: The skip list is a sorted list: starting from an empty one, distinct
    keys inserted in any order are all there afterwards, an iterator walks
    them in the order of insertion sort, [Contains] answers whether an equal
    key was inserted, and [Seek] finds the first key that is not smaller.  The
    comparator is any that satisfies the laws of an order, and the memory any
    that the language may hand out. *)
Theorem skiplist_refines_sorted_list l :
  Forall valid l -> ForallOrdPairs (fun x y => order x y <> 0) l ->
  exists sa s a, SkipList_new zero_key Arena_new = Some sa
    /\ insert_all compare l sa = Some (s, a)
    /\ (let sorted := fold_left (insert_sorted (order := order)) l [] in
        sorted ≡ₚ l
        /\ Iterator_SeekToFirst s ≫= scan (length l) s = Some sorted
        /\ (forall k, valid k -> Contains compare s k = Some (existsb (fun x => order x k =? 0) l))
        /\ forall k, valid k -> exists p, Iterator_Seek compare s k = Some p
             /\ ((p = nullptr /\ forall x, x ∈ l -> order x k < 0)
                 \/ exists x, p <> nullptr /\ Iterator_key s p = Some x /\ x ∈ l /\ 0 <= order x k
                      /\ forall y, y ∈ l -> order y k < 0 \/ order x y <= 0)).
Proof.
  intros Hv Hd.
  destruct (SkipList_new_ok (valid := valid) (order := order) (zero_key := zero_key)
    Arena_new [] arena_inv_new) as (s0 & a0 & p & n & E0 & Hs0 & Ha0 & Hu0 & _).
  destruct (insert_all_ok l s0 a0 [] [] [(p, n)] Hs0 Ha0 Hu0 Hv Hd) as (s & a & ps & E & Hs).
  { intros x y Hx. by apply not_elem_of_nil in Hx. }
  exists (s0, a0), s, a. split_and!; [done..|]. cbv zeta.
  set (sorted := fold_left _ _ _) in *.
  assert (sorted ≡ₚ l) as Hp.
  { assert (forall ks, fold_left (insert_sorted (order := order)) l ks ≡ₚ l ++ ks) as H.
    { clear. induction l as [|k l IH]; intros ks; [done|]. cbn [fold_left].
      rewrite IH. rewrite insert_sorted_perm. by rewrite <- Permutation_middle. }
    unfold sorted. rewrite H. by rewrite app_nil_r. }
  assert (forall x, x ∈ sorted <-> x ∈ l) as Hin by (intros x; by rewrite Hp).
  split_and!; [done|..].
  - rewrite (Iterator_SeekToFirst_ok s ps _ Hs). cbn [mbind option_bind].
    rewrite (scan_ok s ps _ _ 0 Hs); [done|]. by rewrite Hp.
  - intros k Hk. rewrite (Contains_ok s ps _ k Hs Hk). f_equal. apply eq_true_iff_eq.
    rewrite !existsb_exists. setoid_rewrite <- list_elem_of_In. by setoid_rewrite Hin.
  - intros k Hk. destruct (Iterator_Seek_key s ps _ k Hs Hk) as (q & Eq & Hq). exists q. split; [done|].
    destruct Hq as [[-> Hall]|(Hne & x & Ex & Hx & Hge & Hmin)].
    + left. split; [done|]. intros x Hx. by apply Hall, Hin.
    + right. exists x. split_and!; [done|done|by apply Hin|done|]. intros y Hy. by apply Hmin, Hin.
Qed.
End SkipListThms.

Lemma skiplist_refines_sorted_list_witness :
  exists sa s a, SkipList_new (NC := bump_new) [] Arena_new = Some sa
    /\ insert_all (NC := bump_new) Compare [[3]; [1]; [2]] sa = Some (s, a)
    /\ Iterator_SeekToFirst s ≫= scan 3 s = Some [[1]; [2]; [3]]
    /\ Contains Compare s [2] = Some true.
Proof.
  destruct (skiplist_refines_sorted_list (compare := Compare) (valid := Forall is_byte)
    (order := Slice_compare) (zero_key := []) (NC := bump_new) [[3]; [1]; [2]]) as (sa & s & a & E1 & E2 & H).
  - by repeat constructor.
  - by repeat constructor.
  - exists sa, s, a. destruct H as (_ & H1 & H2 & _). split_and!; [done|done|exact H1|].
    rewrite H2; [done|by repeat constructor].
Defined.

(** * Version edits *)

(** C29: A version edit is read back from its record as it was written, with
    the deleted files as a set and the rest in order.  The object it is read
    into keeps the compaction pointers it had, in front of those read:
    [Clear] does not clear them. *)
Theorem version_edit_roundtrip e e0 :
  edit_ok e ->
  exists src, VersionEdit_EncodeTo e [] = Some src
    /\ VersionEdit_DecodeFrom e0 src
       = Some (Status_OK, with_pointers e (compact_pointers_ e0 ++ compact_pointers_ e)).
Proof. apply DecodeFrom_EncodeTo. Qed.

Definition sample_edit : VersionEdit :=
  DeleteFile (DeleteFile (AddFile (SetCompactPointer (SetLogNumber
    (SetComparatorName VersionEdit_new (str "c")) 300) 2 [97]) 1 7 4096 [97] [99]) 1 6) 0 9.

Lemma version_edit_roundtrip_witness :
  deleted_files_ sample_edit = [(0, 9); (1, 6)]
  /\ exists src, VersionEdit_EncodeTo sample_edit [] = Some src
    /\ VersionEdit_DecodeFrom (SetCompactPointer VersionEdit_new 3 [98]) src
       = Some (Status_OK, with_pointers sample_edit ([(3, [98])] ++ [(2, [97])])).
Proof.
  split; [done|]. apply (version_edit_roundtrip sample_edit (SetCompactPointer VersionEdit_new 3 [98])).
  split; [|by repeat split|by repeat constructor..].
  repeat constructor; done.
Defined.

(** Levels and numbers in range, the deleted files ascending. *)
Definition edit_bounded (e : VersionEdit) : Prop :=
  Forall (fun p => valid_level p.1) (compact_pointers_ e)
  /\ Forall (fun p => valid_level p.1) (deleted_files_ e) /\ pair_sorted (deleted_files_ e)
  /\ Forall (fun p => valid_level p.1) (new_files_ e).

Lemma GetLevel_valid input level rest :
  Forall is_byte input -> GetLevel input = Some (level, rest) -> valid_level level /\ Forall is_byte rest.
Proof.
  intros Hb H. assert (Forall is_byte rest) as Hr.
  { apply GetLevel_suffix in H as (l & -> & _). by apply Forall_app in Hb as [_ Hb]. }
  split; [|done]. unfold GetLevel in H. destruct (GetVarint32 input) as [[v q]|] eqn:E; [|done].
  cbn [mbind option_bind] in H. destruct (Z.ltb_spec v kNumLevels); [|done]. injection H as <- <-.
  split; [|done]. by apply GetVarint32_range in E as [? _].
Qed.

Lemma decode_tag_bounded tag input e e' rest :
  Forall is_byte input -> edit_bounded e -> decode_tag tag input e = inr (e', rest) ->
  edit_bounded e' /\ Forall is_byte rest.
Proof.
  intros Hb (H1 & H2 & H3 & H4) H.
  assert (forall l, input = l ++ rest -> Forall is_byte rest) as Hrest.
  { intros l E. rewrite E in Hb. by apply Forall_app in Hb as [_ Hb]. }
  unfold decode_tag in H.
  repeat match type of H with context [if ?b then _ else _] => destruct b end; try done;
  repeat match type of H with context [?g ?i ≫= _] =>
    destruct (g i) as [[? ?]|] eqn:?; cbn [mbind option_bind] in H; [|done] end;
  try match goal with HL : GetLevel _ = Some _ |- _ => pose proof (GetLevel_valid _ _ _ Hb HL) as [? _] end;
  simplify_eq; suffix_lengths; subst;
  (split; [unfold edit_bounded; cbn; split_and!; try done|
    rewrite ?Forall_app in Hb; destruct_and?; done]);
  try (apply Forall_app; split; [done|by constructor]).
  - apply Forall_forall. intros y [->|Hy]%set_insert_elem; [done|]. by apply (proj1 (Forall_forall _ _) H2).
  - by apply set_insert_sorted.
Qed.

Lemma edit_decode_loop_bounded fuel input e msg e' :
  Forall is_byte input -> edit_bounded e -> edit_decode_loop fuel input e = Some (msg, e') ->
  edit_bounded e'.
Proof.
  revert input e. induction fuel as [|fuel IH]; intros input e Hb He H; [done|].
  cbn [edit_decode_loop] in H. destruct (GetVarint32 input) as [[tag q]|] eqn:Eg; [|by simplify_eq].
  apply GetVarint32_suffix in Eg as (l & -> & _). apply Forall_app in Hb as [_ Hb].
  destruct (decode_tag tag q e) as [m|[e1 rest]] eqn:Ed; [by simplify_eq|].
  destruct (decode_tag_bounded _ _ _ _ _ Hb He Ed) as [He1 Hr]. exact (IH _ _ Hr He1 H).
Qed.

(** C35: [DecodeFrom] ends on any bytes whatever, with success or a corruption,
    and the edit it leaves names levels of the database only, which
    [VersionSet] uses as array indices. *)
Theorem version_edit_decode_safe e src :
  Forall is_byte src -> Forall (fun p => valid_level p.1) (compact_pointers_ e) ->
  exists s e', VersionEdit_DecodeFrom e src = Some (s, e')
    /\ (Status_ok s = true \/ Status_IsCorruption s = true) /\ edit_bounded e'.
Proof.
  intros Hb He. unfold VersionEdit_DecodeFrom.
  destruct (edit_decode_loop_total (S (length src)) src (VersionEdit_Clear e) ltac:(lia)) as [[msg e'] E].
  rewrite E. cbn [mbind option_bind]. eexists _, e'. split; [done|]. split.
  - destruct msg; [right|by left]. reflexivity.
  - eapply edit_decode_loop_bounded; [exact Hb| |exact E]. repeat split; try done; constructor.
Qed.

Lemma version_edit_decode_safe_witness :
  exists s e', VersionEdit_DecodeFrom VersionEdit_new [6; 7; 1] = Some (s, e')
    /\ (Status_ok s = true \/ Status_IsCorruption s = true) /\ edit_bounded e'.
Proof. apply version_edit_decode_safe; by repeat constructor. Defined.
